(* ===== verification/_CoqProject ===== *)
-Q . S2P
Prelude.v
PyFloat.v
PyJson.v
PyRegex.v
PyHash.v
PyDyn.v
Fsm.v
LogMonad.v
GithubApi.v
PrModels.v
MergeControl.v
Triage.v
PrLedger.v
LedgerNative.v
PrRouting.v
PrSweep.v
SweepProps.v
SweepTracks.v
SweepIntake.v
SweepTriage.v
SweepReducer.v
SweepTrackProps.v
SweepTriageProps.v
SweepReducerProps.v
PrLifecycle.v
PrReview.v
PrReviewProps.v
Deployment.v
Redeploy.v
RedeployProps.v
DelegationModels.v
DelegationPricing.v
DelegationRouting.v
DelegationLadder.v
InferenceProtocol.v
ComplianceLoop.v
DelegationBar.v
DelegationWorkflow.v
DelegationHandlers.v
DelegationCodec.v
DelegationSpec.v
DelegationRefine.v
DelegationSystem.v
DelegationDurable.v
DelegationProps.v
QualityChecks.v
QualityGate.v
QualityJudge.v
QualityGateLaws.v
QualityProps.v
BackendResolution.v
LlmCall.v
LocalDispatch.v
LocalDispatchLaws.v
LocalDispatchProps.v
RoiOverlay.v
RoiProps.v
RoutingFeedback.v
FeedbackProps.v
SwarmPlan.v
SwarmFanout.v
SwarmPlanProps.v
SwarmFanoutProps.v
SwarmState.v
SwarmDispatch.v
SwarmProps.v
EmitQueue.v
EmitPublisher.v
EmitServer.v
EmitProps.v
EmitBounds.v
EmitAnswers.v
BuildLoop.v
OverseerVerifier.v
BuildOrchestrator.v
BuildLoopProps.v
