(* ===== verification/Prelude.v ===== *)
(** * OmniMarket verification library

    A Rocq development of the decision logic of OmniMarket, the package of
    event-driven workflow nodes under [src/src/omnimarket].  A node is a handler
    that consumes a command or an event and answers with events, intents or a
    projection; nodes are composed over a bus by orchestrators.  The library
    models the subsystems whose mistakes are dear: the sweep that merges pull
    requests, the review that comments on them, the redeploy that brings an image
    to production, and the delegation of work to language models: how a model is
    chosen and paid for, and when its answer is accepted; the swarm that splits
    a task over several models; the loop that builds tickets unattended; and the
    daemon that delivers the events of all of them to the broker.

    ** The program, and where it is modelled

    Paths are relative to [src/src/omnimarket].

    - _Shared layer._  [Prelude]: exceptions as values ([result], [py_exn]),
      truthiness, Python's string operations, [repr] and [str], JSON values, UTC
      instants, stable sorting, counting, record updates, the tactics.
      [PyFloat]: [float] as binary64 ([SpecFloat]), its conversions, [round],
      [repr] and formatting, and the [Decimal] the pricing uses.  [PyJson]:
      ordered dictionaries, [json.dumps] and the [json] scanner, shown to read
      back what was written.  [PyRegex]: the part of [re] the code uses, a
      backtracking matcher shown sound and complete for the relation it searches.
      [PyHash]: UTF-8, SHA-256 and the key-sorted compact dump whose digest is
      recorded.  [PyDyn]: what Python does with a JSON value of unknown shape, and
      the validation of its fields as a class ([Pydantic]).  [Fsm]: the interface of a pure reducer ([Reducer]) and of a phase
      machine with a consecutive-failure breaker ([RetryFsm]).  [LogMonad]:
      computations that keep a state, call collaborators, leave a log of every
      call and may raise, with the program logic ([spec], [emits], [returns],
      [keeps], [at_most], [gives], [wp]).
    - _Pull-request lifecycle._  [PrModels]: the records passed between the
      phases ([node_pr_lifecycle_orchestrator/protocols], the inventory, fix,
      merge and prune models).  [MergeControl]: [merge_control/], the
      reason-code classifier and the outage breaker.  [Triage]:
      [node_pr_lifecycle_triage_compute] and [node_pr_arm_gate_compute].
      [PrRouting]: the pure helpers of the orchestrator and
      [verify_target_mapping.py].  [PrSweep]: [handler_pr_lifecycle_orchestrator.py],
      one sweep and the loop of sweeps.  [SweepProps]: what a sweep may do.
      [PrLifecycle]: the state reducer ([handler_pr_lifecycle_state_reducer.py]).
    - _Merge sweep._  [GithubApi]: [github_api.py], REST and GraphQL calls, pages
      and normalisation.  [SweepTracks]: [node_merge_sweep_compute], the classifier
      with its cap, failure history and lifecycle ordering.  [SweepIntake]: its two
      entry points, [consumer.py] and [__main__.py], over a class of what GitHub
      answers.  [SweepTriage]: [node_merge_sweep_triage_orchestrator], the decision
      table and its lookups, and [config/env_flags.py].  [SweepReducer]:
      [node_merge_sweep_auto_merge_arm_effect], [node_sweep_outcome_classify] and
      [node_merge_sweep_state_reducer].  [SweepTrackProps], [SweepTriageProps],
      [SweepReducerProps].
    - _Ledgers._  [PrLedger]: [projection/protocol_database.py] behind a class,
      [projection/pr_ledger_projection.py] and the reducer path that writes the
      rows.  [LedgerNative]: [nodes/pr_ledger_native.py], events, entries, the
      store and the reconstruction.
    - _Pull-request review._  [PrReview]: [review/pr_review_fsm.py], the judge
      parser, the GitHub review effect and the orchestrator.  [PrReviewProps].
    - _Redeploy._  [Deployment]: [events/runtime_deployment.py] and
      [node_prod_promotion_gate_compute].  [Redeploy]: the phase machine, the
      grant resolver, the orchestrator and the deploy effect ([node_redeploy_*],
      [node_prod_promotion_grant_resolver_effect]).  [RedeployProps].
    - _Delegation: choosing._  [DelegationModels]: the requests, decisions,
      results and the workflow record of [models/delegation] and of the nodes.
      [DelegationPricing]: [pricing.py], what an attempt cost and saved.
      [DelegationRouting]: [node_delegation_routing_reducer], the decision for a
      request over tiers, contract and overlay; [DelegationLadder]: its laws.
      [InferenceProtocol]: [inference/protocol_config.py], profiles matched by
      glob and merged into a request.
    - _Delegation: accepting._  [ComplianceLoop]: the schema-repair loop
      ([handler_compliance_loop.py] and the budget, repair and registry nodes).
      [DelegationBar]: [quality_bar_authority.py] and the escalation decision.
      [QualityChecks], [QualityGate], [QualityJudge]: the quality gate
      ([node_delegation_quality_gate_reducer]), its definition-of-done checks, its
      verdict, the judge and its recorded event ([events/delegation_judge_verdict.py]).
    - _Delegation: the workflow._  [DelegationWorkflow] and [DelegationHandlers]:
      [handler_delegation_workflow.py], the helpers and one computation per
      dispatched input.  [DelegationCodec]: [state_codec.py], the bytes a workflow
      is kept as between dispatches.
    - _Delegation: without a bus._  [BackendResolution]:
      [routing/delegation_backend_resolution.py], the backend a call goes to.
      [LlmCall]: [node_llm_delegation_call_effect], one call of a model.
      [LocalDispatch]: [port_local_delegation_dispatch.py], the loop that routes,
      calls, gates and climbs in one process; [LocalDispatchLaws]: its turns as a
      relation, the measure that ends it and the invariants of its state;
      [LocalDispatchProps].
    - _Delegation: learning._  [RoiOverlay]: [routing/roi_overlay.py], captured
      outcomes as tiers to pass over; [RoiProps].  [RoutingFeedback]:
      [node_delegation_routing_feedback_reducer], counters per model and task;
      [FeedbackProps].
    - _Swarm dispatch._  [SwarmPlan]: [node_swarm_endpoint_health_effect],
      [node_swarm_decomposer_compute] and [node_swarm_registry_compute], which
      endpoints answer, what the subtasks are and where each goes.  [SwarmFanout]:
      [node_swarm_fanout_orchestrator], the subtasks sent wave by wave.
      [SwarmState]: [node_swarm_subtask_state_reducer],
      [node_swarm_aggregator_compute] and [node_swarm_supervisor_orchestrator].
      [SwarmDispatch]: [node_swarm_dispatch_orchestrator], the state machine of a
      run with its routing, its state store and its messages.  [SwarmPlanProps],
      [SwarmFanoutProps], [SwarmProps].
    - _Emit daemon_ ([node_emit_daemon]).  [EmitQueue]: [event_queue.py] and
      [durable_outbox.py], the two tiers, the files they live in and what may go
      wrong with each.  [EmitPublisher]: [publisher_loop.py], the breaker, and the
      task cut where it is suspended, so that [daemon_step] takes what happens
      there (a client's event, the broker's answer, a shutdown, a new process on the
      same directories) as its input.  [EmitServer]: [event_registry.py] and
      [socket_server.py], the fan-out of an emit request.  [EmitProps],
      [EmitBounds], [EmitAnswers].
    - _Build loop._  [BuildLoop]: [node_build_loop], the phases of a cycle by mode
      (an instance of [RetryFsm]), and [node_loop_state_reducer], the reducer with
      intents (an instance of [Reducer]).  [OverseerVerifier]:
      [node_overseer_verifier], the checks of what an agent reports.
      [BuildOrchestrator]: [node_build_loop_orchestrator], the cycles of a build
      over its sub-handlers.  [BuildLoopProps].

    The sweep calls triage, the arm gate, the breaker, the reducer and the
    projection database, all modelled; the merge sweep classifies what the GitHub
    helper returns, may run the lifecycle orchestrator to order it, and hands the
    result to its triage, whose commands' outcomes its reducer counts; the review pipeline drives its phase
    machine and the effect; the redeploy chain passes commands from the
    orchestrator to the resolver, the gate and the effect and back.  The delegation
    orchestrator asks the router for a model, an effect for an answer (outside the
    model: any response may come back), the compliance loop and the quality gate
    for a verdict, the bar for the score required, and climbs a tier, retries a
    sibling or ends; pricing fills in the account of its terminal.  The local port
    runs the same router, protocol, gate, judge and bar in one loop, over the
    backends the resolution finds and the call effect; the overlay of outcomes
    enters the router as an argument on both paths.  The swarm orchestrator sends a
    run from node to node, each asked by a command and answering with an event of
    the node's result model; [SwarmProps] puts these results through it.  The build
    orchestrator drives the machine of [node_build_loop] and asks the verifier
    about each built ticket.  The emit daemon's server fills the queue the
    publisher empties.

    ** How state and effects are rendered

    A model class is a record with its fields' names (prefixed, where another
    record has the same), an enum an inductive type with the source's members
    and a [.._value] function for its wire values.  Pure handlers are functions.
    Handlers that call out are computations of [LogMonad]: a collaborator behind
    a protocol (the inventory, merge, fix and prune handlers, the GitHub bridge,
    the inference adapter, the message bus, the clock) is a function of the log
    of the calls made before, so it may answer anything, differently each time,
    or raise.  What a delegation reads (routing tables, prices, the protocol file,
    the environment, schemas, the clock) is one record [World]; a configuration
    read from a file is fixed in it.  Code of other packages (validation and
    dumping of models, the YAML parser, the JSON Schema validator, the lane enum)
    and Python's own parser are arguments of the definitions that use them; their
    documented behaviour, where a theorem needs it, is a hypothesis or a class
    field.  Wire classes of [omnibase_core] are records of the fields the source
    reads.  The state a delegation handler threads is kept between dispatches in one
    of two ways: in rows, bound before a dispatch and flushed after it, so that one
    that raises changes nothing ([DelegationSystem.commit]), or in the dict of the
    process, where the changes made before a raise stay ([DelegationSystem.in_place]);
    the theorems say which they are about, and in a configured world, where no
    dispatch raises, the two agree.  A raise is a [Raise] with the exception's class and message; the
    message of a validation error stands for the library's text.  An integer of
    the source is a [Z], unbounded as Python's; counters that only grow from zero
    are [nat].  A [float] is a binary64 number, operation by operation.

    ** What the theorems show

    - _A sweep._  [SweepProps.merges_are_safe]: every merge asked for is of a
      pull request that was inventoried, is GREEN and passed every gate of its
      sweep.  [withheld_mutations], [loop_bounded]: what dry runs, outages,
      policies and caps withhold.  [phases_legal], [done_gate]: the phases
      recorded and the result reported.
    - _Its parts._  [Triage.arm_gate_fails_closed], [MergeControl.breaker_open_iff], [Triage.triage_partition], [product_verdict_needs_product_step],
      [PrRouting.code_fix_needs_product_failure], and in [PrLifecycle] the stage
      order, the one end and the order of merges.
    - _A merge sweep._  [SweepTrackProps]: [sweep_classifies],
      [lifecycle_ordering_is_flat], [consumer_never_laxer] (the two entry points
      compared), [open_prs_read_every_page].  [SweepTriageProps]:
      [triage_commands_justified], [legacy_arming_off].  [SweepReducerProps]:
      [sweep_counters], [sweep_completes] (with the triage's total),
      [phase2_history].
    - _The ledgers._  [PrLedger.ledger_iterations_append],
      [LedgerNative.ledger_reconstructable] (the store refines the event log).
    - _A review._  [PrReviewProps]: it stops, it fails closed, a verified thread
      was passed by the judge, threads are capped and not posted twice, a dry run
      is silent; and a review no reviewer answered is reported clean.
    - _A redeploy._  [RedeployProps.prod_rebuild_authorized]: end to end, a
      production rebuild rests on a live grant, a proven digest and durable
      evidence.  [gate_allows_iff], [deploy_effect_bound],
      [rollback_exactly_when_failed_live], [resolver_reads_the_anchor],
      [orchestrator_grounded].
    - _The delegation workflow._  [DelegationSpec] is the abstract machine of one
      delegation: its phase, which kinds of event it takes and which it may emit,
      the escalations left.  [DelegationRefine] shows each handler to be a step of
      it, [DelegationSystem] lifts this to any sequence of inputs over all
      correlation ids, [DelegationDurable] to workflows kept in rows.
      [DelegationProps] states the results: [orchestrator_refines] (the events whose
      dispatch returned, each of them),
      [completed_is_accepted], [terminal_bills_each_attempt],
      [delegation_ends_once], [delegation_responsive], [delegation_effort_bounded],
      [workflows_well_formed], [durable_equals_dict] (when no dispatch raises),
      [state_codec_roundtrip]; of
      the router [routing_decision_sound], [escalation_goes_up],
      [escalation_lands_on_target]; of the bar [escalation_verdict]; of the
      compliance loop [compliance_verdict].
    - _The quality gate._  [QualityGateLaws.Accepts] says which answers stand up,
      apart from how a verdict is computed.  [QualityProps]: [gate_passes_exactly]
      those, or under a response schema the answers that conform;
      [completion_needs_accepted_answer], the content a delegation returns is the one
      its gate was handed and accepted,
      [judge_only_vetoes], [reject_only_never_promotes],
      [unevaluated_counts_for_nothing], [schema_is_sole_authority],
      [judgements_recorded], [heuristic_criterion_blocks_all].
    - _The local dispatch._  [LocalDispatchProps]: [local_dispatch_ends] and
      [local_dispatch_schedule] say which calls it makes and how many (tier after
      tier where each backend has one tier, else by the first tier that lists it, see
      [shared_backend_called_again]),
      [completed_dispatch_accepted], [failed_dispatch_returns_best] and
      [local_dispatch_accounts] what it returns and records,
      [local_accepts_as_bus] that it accepts what the bus accepts,
      [call_never_reports_auth] what a failed call is taken for.
    - _The learning loop._  [RoiProps]: [overlay_measures_outcomes],
      [overlay_order_free], [suppression_never_strands].
      [FeedbackProps.feedback_counts_events], against what the deliveries report
      ([FeedbackProps.Reports], read off the documents and not off the handler).
    - _The swarm._  [SwarmPlanProps]: [decomposition_is_schedulable] and
      [endpoint_selection_sound].  [SwarmFanoutProps.fanout_accounts]: what became
      of every subtask of a plan with distinct ids, and that its dependencies came before it.  [SwarmProps]: [run_follows_schedule] for a run under any
      sequence of inputs, [stored_state_reads_back], [report_ignores_outcomes] and
      [aggregate_command_is_unreadable] for what the nodes make of each other's
      results, [subtasks_independent] and [terminal_subtasks_settle] for the
      reducer (but for what [unsettled_reopens] shows), [supervisor_detects_nothing].
    - _The emit daemon._  [EmitProps.duty_critical_never_lost]: an accepted
      duty-critical event is delivered or on disk, over any run with restarts and
      failing file operations other than reads of the outbox ([failed_read_puts_aside]).
      [EmitBounds]: [queues_bounded], up to what a start loaded
      ([start_loads_beyond_limit]), [breaker_guards_publishing].
      [EmitAnswers.queued_answer_covers]: what an answer promises its client, and that
      nothing but the events of the rules, stripped as they say, is queued.
    - _The build loop._  [BuildLoopProps]: [build_ends], and [releasing_never_completes], which modes cannot
      complete; [verdict_exact], the verifier's verdict condition by condition;
      [dod_gate_vacuous], what its gate on built tickets amounts to;
      [reducer_keeps_schedule], its intents against the schedule of the stages
      ([Schedule.stages_done]), and [Schedule.first_failure_is_final]; [full_cycle_ends].

    Where the code departs from its own documentation, a [Remark] or an [Example]
    next to the theorems shows it on a concrete input.

    ** Bounds and fuel

    [PrSweep.sweep_loop] takes the passes left, at most [max_sweep_passes], as
    the source's [range]; [PrReview.fail_loop] takes the failures left before
    the breaker trips, and [PrReviewProps.review_fails_closed] shows it returns.
    [PyJson.scan_value] takes twice the length of the text and two, which
    [scan_value_fuel] shows enough; [InferenceProtocol] merges by the depth of a
    value and parses a glob by its length ([merge_value_fuel], [glob_parse_fuel]);
    a repetition of [PyRegex] takes the length of the text left, since each round
    consumes ([star_run_fuel]), and [find_all] one more than it ([find_all_tail]).
    [LocalDispatch.dispatch_loop] takes the calls it may still make;
    [local_dispatch_ends] shows that one, the escalations of the task class and
    the retries of every tier are enough.  [GithubApi.fetch_pages] takes the pages
    it may read; [open_prs_read_every_page] shows one more than there are enough.
    [SwarmPlan.dfs] and [SwarmFanout._wave_of] take the calls deep the interpreter
    lets them go and raise its [RecursionError] past it; [decomposition_is_schedulable]
    shows one call per subtask to be enough.  [EmitQueue.make_room] takes the number
    of files of the spool, each round dropping one ([make_room_roomy]).
    Every other recursion is structural.  The phase machines need at most phases
    times tries outcomes: 21 for a review, 18 for a redeploy,
    24 for a build cycle ([BuildOrchestrator.phase_fuel], shown enough in
    [cycle_ends]); the standalone cycle of [node_build_loop] stops at a failure,
    and [full_cycle_ends] shows [Loop.cycle_fuel] enough for its phases; a delegation makes
    the inference calls [delegation_effort_bounded] counts.

    ** What is left out

    Wiring of default collaborators, command lines, subprocess and HTTP calls,
    durations and log lines, which decide nothing; the loaders of configuration
    files.  Characters above code point 255: a string is a list of characters
    below it, and case, spaces and word characters are Python's there.  Times are
    UTC instants; a naive time is taken where the code reads it as UTC.  The child
    process of a local call is its outcome: a result, an error, a death or the
    deadline.  Concurrent fixes are taken in
    order, and dispatches of one delegation one after the other, and so are the inputs of the swarm
    orchestrator, which may be suspended while it reads or writes its store.  A
    write of the emit daemon is one step: a process that dies within one is a
    failing write.  Of
    the state codec the type adapter and the binding of rows are arguments.  The other nodes
    of the package (sessions, memory, code generation,
    projections, evidence, tickets, scans) are not modelled; nearest to what is here are the
    runtime port and the inference handler of a delegation, the review response
    parser with the aggregator, the session phases, the pattern and memory
    lifecycles, and the sub-handlers of the build loop. *)
From stdpp Require Export base gmap strings list numbers pretty sorting.
From Stdlib Require Export Ascii Lia.

#[global] Set Default Goal Selector "!".
#[global] Set Warnings "-clear-no-such-hyp,-register-all,-postfix-notation-not-level-1".

(** ** Exceptions and results *)

(** The Python exceptions the modelled code raises, with their message. *)
Inductive py_exn : Type :=
  | ValueError (msg : string)
  | TypeError (msg : string)
  | KeyError (msg : string)
  | RuntimeError (msg : string)
  | AssertionError (msg : string)
  | ZeroDivisionError (msg : string)
  | OverflowError (msg : string)
  | OtherError (cls msg : string).  (** an exception class of the program or of a library *)

(** A Python call: it returns a value or raises. *)
Inductive result (A : Type) : Type :=
  | Ok (a : A)
  | Raise (e : py_exn).
Arguments Ok {A} a.
Arguments Raise {A} e.

#[export] Instance py_exn_eq_dec : EqDecision py_exn.
Proof. solve_decision. Defined.
#[export] Instance result_eq_dec {A} `{EqDecision A} : EqDecision (result A).
Proof. solve_decision. Defined.
#[export] Instance result_ret : MRet result := @Ok.
#[export] Instance result_bind : MBind result := fun A B f x =>
  match x with Ok a => f a | Raise e => Raise e end.
#[export] Instance result_fmap : FMap result := fun A B f x =>
  match x with Ok a => Ok (f a) | Raise e => Raise e end.

Definition is_ok {A} (r : result A) : Prop := exists a, r = Ok a.

(** ** Truthiness: Python's [bool(x)], [x or y] *)

Class Truthy (A : Type) := truthy : A -> bool.
#[export] Instance truthy_bool : Truthy bool := fun b => b.
#[export] Instance truthy_Z : Truthy Z := fun n => negb (Z.eqb n 0).
#[export] Instance truthy_string : Truthy string := fun s =>
  match s with EmptyString => false | _ => true end.
#[export] Instance truthy_list {A} : Truthy (list A) := fun l =>
  match l with [] => false | _ => true end.
(** [None] is falsy; [Some x] is as truthy as [x]. *)
#[export] Instance truthy_option {A} `{Truthy A} : Truthy (option A) := fun o =>
  match o with None => false | Some a => truthy a end.

(** [x or y] on values of one type. *)
Definition py_or {A} `{Truthy A} (x y : A) : A := if truthy x then x else y.
(** [x or y] where [x] is an optional value and [y] is not. *)
Definition py_opt_or {A} `{Truthy A} (x : option A) (y : A) : A :=
  match x with Some a => if truthy a then a else y | None => y end.

(** ** Strings

    A [str] is a sequence of code points below 256 (one [ascii] each): [lower]
    and [strip] are Python's on that range. *)

Definition py_lower_ascii (c : ascii) : ascii :=
  let n := nat_of_ascii c in
  if (Nat.leb 65 n && Nat.leb n 90)
     || (Nat.leb 192 n && Nat.leb n 222 && negb (Nat.eqb n 215))
  then ascii_of_nat (n + 32) else c.

Fixpoint py_lower (s : string) : string :=
  match s with
  | EmptyString => EmptyString
  | String c s' => String (py_lower_ascii c) (py_lower s')
  end.

(** [s.upper()]: [ß] becomes [SS]; [µ] and [ÿ], whose upper case lies outside
    the range, are kept (the code compares the result with ASCII text only). *)
Definition py_upper_ascii (c : ascii) : string :=
  let n := nat_of_ascii c in
  if Nat.eqb n 223 then "SS"
  else if (Nat.leb 97 n && Nat.leb n 122)
          || (Nat.leb 224 n && Nat.leb n 254 && negb (Nat.eqb n 247))
  then String (ascii_of_nat (n - 32)) EmptyString else String c EmptyString.

Fixpoint py_upper (s : string) : string :=
  match s with
  | EmptyString => EmptyString
  | String c s' => py_upper_ascii c +:+ py_upper s'
  end.

(** The word characters of a regular expression ([\w]) below 256, and digits. *)
Definition py_isdigit (c : ascii) : bool :=
  let n := nat_of_ascii c in Nat.leb 48 n && Nat.leb n 57.
Definition py_isword (c : ascii) : bool :=
  let n := nat_of_ascii c in
  (Nat.leb 48 n && Nat.leb n 57) || (Nat.leb 65 n && Nat.leb n 90) || Nat.eqb n 95
  || (Nat.leb 97 n && Nat.leb n 122)
  || existsb (Nat.eqb n) [170; 178; 179; 181; 185; 186; 188; 189; 190]
  || (Nat.leb 192 n && negb (Nat.eqb n 215) && negb (Nat.eqb n 247)).

(** Python's whitespace below 256: [\t..\r], [\x1c..\x1f], space, [\x85], [\xa0]. *)
Definition py_isspace (c : ascii) : bool :=
  let n := nat_of_ascii c in
  (Nat.leb 9 n && Nat.leb n 13) || (Nat.leb 28 n && Nat.leb n 32)
  || Nat.eqb n 133 || Nat.eqb n 160.

Fixpoint drop_space (l : list ascii) : list ascii :=
  match l with
  | [] => []
  | c :: l' => if py_isspace c then drop_space l' else l
  end.

(** [s.strip()] *)
Definition py_strip (s : string) : string :=
  String.string_of_list_ascii
    (rev (drop_space (rev (drop_space (String.list_ascii_of_string s))))).

(** [s.endswith(suffix)] and [needle in s] *)
Fixpoint py_startswith (prefix s : string) : bool :=
  match prefix, s with
  | EmptyString, _ => true
  | String a p, String b t => if Ascii.eqb a b then py_startswith p t else false
  | String _ _, EmptyString => false
  end.

Fixpoint py_contains (needle s : string) : bool :=
  py_startswith needle s ||
  match s with EmptyString => false | String _ t => py_contains needle t end.

Fixpoint py_endswith (suffix s : string) : bool :=
  String.eqb suffix s ||
  match s with EmptyString => false | String _ t => py_endswith suffix t end.

(** [s in l] for a collection of strings, and [any(n in s for n in needles)]. *)
Definition str_in (s : string) (l : list string) : bool := existsb (String.eqb s) l.
Definition any_sub (needles : list string) (s : string) : bool :=
  existsb (fun n => py_contains n s) needles.
#[global] Arguments str_in : simpl never.
#[global] Arguments any_sub : simpl never.

Lemma str_in_spec s l : str_in s l = true <-> s ∈ l.
Proof.
  unfold str_in. rewrite existsb_exists, list_elem_of_In. split.
  - intros (x & Hx & He%String.eqb_eq). by subst.
  - intros H. exists s. by rewrite String.eqb_refl.
Qed.

(** [s.split(sep)] for a one-character separator. *)
Fixpoint py_split (sep : ascii) (s : string) : list string :=
  match s with
  | EmptyString => [EmptyString]
  | String c t =>
      if Ascii.eqb c sep then EmptyString :: py_split sep t
      else match py_split sep t with
           | w :: ws => String c w :: ws
           | [] => [String c EmptyString]
           end
  end.

(** [s.splitlines()]: the line boundaries below 256 are [\n], [\r], [\r\n], [\x0b],
    [\x0c], [\x1c]..[\x1e] and [\x85]; no empty line after the last one. *)
Definition line_end (c : ascii) : bool :=
  let n := nat_of_ascii c in (Nat.leb 10 n && Nat.leb n 13) || (Nat.leb 28 n && Nat.leb n 30) || Nat.eqb n 133.
Fixpoint splitlines_from (l : list ascii) (line : list ascii) (after_cr : bool) : list string :=
  let flush := String.string_of_list_ascii (rev line) in
  match l with
  | [] => match line with [] => [] | _ => [flush] end
  | c :: l' =>
      if after_cr && Nat.eqb (nat_of_ascii c) 10 then splitlines_from l' [] false
      else if line_end c then flush :: splitlines_from l' [] (Nat.eqb (nat_of_ascii c) 13)
      else splitlines_from l' (c :: line) false
  end.
Definition py_splitlines (s : string) : list string :=
  splitlines_from (String.list_ascii_of_string s) [] false.

(** [sep.join(l)] *)
Fixpoint py_join (sep : string) (l : list string) : string :=
  match l with
  | [] => ""
  | [w] => w
  | w :: ws => w +:+ sep +:+ py_join sep ws
  end.

(** ** [str()] and [repr()] of the values the messages interpolate *)

Definition dq : ascii := ascii_of_nat 34.
Definition sq : ascii := ascii_of_nat 39.

Definition hex_digit (n : nat) : ascii :=
  if Nat.ltb n 10 then ascii_of_nat (48 + n) else ascii_of_nat (87 + n).

(** One character of [repr(s)] when the quote character is [q]. *)
Definition repr_ascii (q c : ascii) : string :=
  let n := nat_of_ascii c in
  if Ascii.eqb c q || Nat.eqb n 92 then String (ascii_of_nat 92) (String c "")
  else if Nat.eqb n 10 then "\n" else if Nat.eqb n 13 then "\r"
  else if Nat.eqb n 9 then "\t"
  else if Nat.ltb n 32 || (Nat.leb 127 n && Nat.leb n 160) || Nat.eqb n 173
  then "\x" +:+ String (hex_digit (n / 16)) (String (hex_digit (n mod 16)) "")
  else String c "".

Fixpoint has_char (q : ascii) (s : string) : bool :=
  match s with EmptyString => false | String c t => Ascii.eqb c q || has_char q t end.

(** [repr(s)]: single quotes, unless [s] holds a single and no double quote. *)
Definition py_repr_str (s : string) : string :=
  let q := if has_char sq s && negb (has_char dq s) then dq else sq in
  let body := (fix go s := match s with
                           | EmptyString => ""
                           | String c t => repr_ascii q c +:+ go t
                           end) s in
  String q "" +:+ body +:+ String q "".

(** [str(exc)]; the text of a [KeyError] is the [repr] of its argument. *)
Definition exn_str (e : py_exn) : string :=
  match e with
  | KeyError m => py_repr_str m
  | ValueError m | TypeError m | RuntimeError m | AssertionError m => m
  | ZeroDivisionError m | OverflowError m | OtherError _ m => m
  end.

Class PyRepr (A : Type) := py_repr : A -> string.
#[export] Instance py_repr_string : PyRepr string := py_repr_str.
#[export] Instance py_repr_Z : PyRepr Z := pretty.
#[export] Instance py_repr_bool : PyRepr bool := fun b => if b then "True" else "False".
#[export] Instance py_repr_option {A} `{PyRepr A} : PyRepr (option A) := fun o =>
  match o with None => "None" | Some a => py_repr a end.
(** A list of [repr]s between brackets: [repr] and [str] of a list. *)
#[export] Instance py_repr_list {A} `{PyRepr A} : PyRepr (list A) := fun l =>
  "[" +:+ py_join ", " (map py_repr l) +:+ "]".

(** [int(s)]: surrounding whitespace, an optional sign, decimal digits with
    single underscores between them; [ValueError] otherwise. *)
Fixpoint int_digits (l : list ascii) (acc : Z) (after_digit : bool) : option Z :=
  match l with
  | [] => if after_digit then Some acc else None
  | c :: l' =>
      if py_isdigit c then int_digits l' (10 * acc + (Z.of_nat (nat_of_ascii c) - 48)) true
      else if Nat.eqb (nat_of_ascii c) 95 && after_digit then int_digits l' acc false
      else None
  end.
Definition py_int (s : string) : result Z :=
  let r := match String.list_ascii_of_string (py_strip s) with
           | c :: l =>
               if Nat.eqb (nat_of_ascii c) 45 then option_map Z.opp (int_digits l 0 false)
               else if Nat.eqb (nat_of_ascii c) 43 then int_digits l 0 false
               else int_digits (c :: l) 0 false
           | [] => None
           end in
  match r with
  | Some n => Ok n
  | None => Raise (ValueError ("invalid literal for int() with base 10: " +:+ py_repr s))
  end.

Example py_int_ok : py_int " -1_000 " = Ok (-1000)%Z.
Proof. reflexivity. Qed.

(** ** JSON values: what an untyped [dict[str, Any]] payload holds.  A float is
    carried by its [repr]. *)

Inductive json : Type :=
  | JNull
  | JBool (b : bool)
  | JInt (n : Z)
  | JFloat (repr : string)
  | JStr (s : string)
  | JArr (l : list json)
  | JObj (l : list (string * json)).

#[export] Instance truthy_json : Truthy json := fun j =>
  match j with
  | JNull => false
  | JBool b => b
  | JInt n => negb (Z.eqb n 0)
  | JFloat r => negb (String.eqb r "0.0" || String.eqb r "-0.0")
  | JStr s => truthy s
  | JArr l => truthy l
  | JObj l => truthy l
  end.

Fixpoint json_repr (j : json) : string :=
  match j with
  | JNull => "None"
  | JBool b => py_repr b
  | JInt n => py_repr n
  | JFloat r => r
  | JStr s => py_repr s
  | JArr l => "[" +:+ py_join ", " (map json_repr l) +:+ "]"
  | JObj l => "{" +:+ py_join ", " (map (fun kv => py_repr kv.1 +:+ ": " +:+ json_repr kv.2) l) +:+ "}"
  end.
(** [str(j)] *)
Definition json_str (j : json) : string := match j with JStr s => s | _ => json_repr j end.

(** [type(j).__name__] *)
Definition json_type (j : json) : string :=
  match j with
  | JNull => "NoneType"
  | JBool _ => "bool"
  | JInt _ => "int"
  | JFloat _ => "float"
  | JStr _ => "str"
  | JArr _ => "list"
  | JObj _ => "dict"
  end.

(** [d.get(k)] on the entries of a dict. *)
Fixpoint dict_get {V} (k : string) (l : list (string * V)) : option V :=
  match l with
  | [] => None
  | (k', v) :: l' => if String.eqb k' k then Some v else dict_get k l'
  end.

(** ** Instants

    A [datetime] is a UTC instant in microseconds since 1970-01-01; the code
    compares instants and renders them in messages. *)

Abbreviation datetime := Z (only parsing).

Definition zpad (width : nat) (n : Z) : string :=
  let s := pretty n in
  String.string_of_list_ascii (replicate (width - String.length s) (ascii_of_nat 48)) +:+ s.

(** Proleptic Gregorian (year, month, day) of a day number counted from 1970-01-01. *)
Definition civil_from_days (days : Z) : Z * Z * Z :=
  (let z := days + 719468 in
   let era := z / 146097 in
   let doe := z mod 146097 in
   let yoe := (doe - doe / 1460 + doe / 36524 - doe / 146096) / 365 in
   let doy := doe - (365 * yoe + yoe / 4 - yoe / 100) in
   let mp := (5 * doy + 2) / 153 in
   let d := doy - (153 * mp + 2) / 5 + 1 in
   let m := if mp <? 10 then mp + 3 else mp - 9 in
   let y := yoe + era * 400 + (if m <=? 2 then 1 else 0) in
   (y, m, d))%Z.

(** [t.isoformat(sep)] of a UTC instant; [str(t)] is [isoformat] with a space. *)
Definition isoformat_sep (sep : string) (t : datetime) : string :=
  (let us := t mod 1000000 in
   let secs := t / 1000000 in
   let sod := secs mod 86400 in
   let '(y, m, d) := civil_from_days (secs / 86400) in
   zpad 4 y +:+ "-" +:+ zpad 2 m +:+ "-" +:+ zpad 2 d +:+ sep
   +:+ zpad 2 (sod / 3600) +:+ ":" +:+ zpad 2 (sod / 60 mod 60) +:+ ":" +:+ zpad 2 (sod mod 60)
   +:+ (if us =? 0 then EmptyString else "." +:+ zpad 6 us) +:+ "+00:00")%Z.
Definition isoformat : datetime -> string := isoformat_sep "T".
Definition datetime_str : datetime -> string := isoformat_sep " ".

(** The JSON form of a UTC instant: [isoformat] with a [Z] suffix. *)
Definition json_datetime (t : datetime) : string :=
  let s := isoformat t in String.substring 0 (String.length s - 6) s +:+ "Z".

Example json_datetime_epoch : json_datetime 0 = "1970-01-01T00:00:00Z".
Proof. reflexivity. Qed.

Example isoformat_epoch : isoformat 951827696789000 = "2000-02-29T12:34:56.789000+00:00".
Proof. reflexivity. Qed.

(** [str] of an optional instant, as an f-string renders it. *)
Definition opt_datetime_str (o : option datetime) : string :=
  match o with None => "None" | Some t => datetime_str t end.
(** [str] of an optional string, as an f-string renders it. *)
Definition opt_str (o : option string) : string := default "None" o.

(** ** Lists *)

Definition count {A} (p : A -> bool) (l : list A) : nat := length (filter (fun x => p x = true) l).

Section count.
Context {A : Type} (p : A -> bool).

Lemma count_nil : count p [] = 0.
Proof. reflexivity. Qed.
Lemma count_cons x l : count p (x :: l) = (if p x then 1 else 0) + count p l.
Proof.
  unfold count. rewrite filter_cons.
  destruct (p x) eqn:E; destruct (decide _) as [H|H]; try done; congruence.
Qed.
Lemma count_app l k : count p (l ++ k) = count p l + count p k.
Proof. unfold count. by rewrite filter_app, length_app. Qed.
Lemma count_le_length l : count p l <= length l.
Proof. induction l as [|x l IH]; [done|]. rewrite count_cons. simpl. destruct (p x); lia. Qed.
Lemma count_perm l k : l ≡ₚ k -> count p l = count p k.
Proof. intros H. unfold count. by rewrite H. Qed.
Lemma count_sublist l k : sublist l k -> count p l <= count p k.
Proof. induction 1; rewrite ?count_cons; lia. Qed.
End count.

Lemma StronglySorted_impl {A} (P Q : A -> A -> Prop) l :
  (forall a b, P a b -> Q a b) -> StronglySorted P l -> StronglySorted Q l.
Proof. intros HPQ. induction 1; constructor; [done|]. eapply Forall_impl; eauto. Qed.

Lemma StronglySorted_filter {A} (R : A -> A -> Prop) (P : A -> Prop) `{forall x, Decision (P x)} l :
  StronglySorted R l -> StronglySorted R (filter P l).
Proof.
  induction 1 as [|x l Hl IH Hx]; [constructor|]. rewrite filter_cons. case_decide; [|done].
  constructor; [done|]. rewrite Forall_forall in *. intros y [_ Hy]%list_elem_of_filter. auto.
Qed.

(** ** Automation *)

Create HintDb onex.

(** Splits the innermost [match]/[if] of the goal or of a hypothesis. *)
Ltac split_match :=
  match goal with
  | |- context [match ?x with _ => _ end] =>
      lazymatch x with context [match _ with _ => _ end] => fail | _ => destruct x eqn:? end
  | H : context [match ?x with _ => _ end] |- _ =>
      lazymatch x with context [match _ with _ => _ end] => fail | _ => destruct x eqn:? end
  end.

(** Executes a definition by cases: split every [match], simplify, close the
    cases the hypotheses rule out. *)
Ltac by_cases := repeat (split_match; simplify_eq/=); try done.

(** Turns boolean comparisons into propositions for [lia]. *)
Ltac breflect :=
  repeat match goal with
  | H : (_ && _) = true |- _ => apply andb_prop in H; destruct H
  | H : (_ || _) = false |- _ => apply orb_false_elim in H; destruct H
  | H : negb _ = true |- _ => apply negb_true_iff in H
  | H : negb _ = false |- _ => apply negb_false_iff in H
  | H : (_ =? _)%Z = true |- _ => apply Z.eqb_eq in H
  | H : (_ =? _)%Z = false |- _ => apply Z.eqb_neq in H
  | H : (_ <? _)%Z = true |- _ => apply Z.ltb_lt in H
  | H : (_ <? _)%Z = false |- _ => apply Z.ltb_ge in H
  | H : (_ <=? _)%Z = true |- _ => apply Z.leb_le in H
  | H : (_ <=? _)%Z = false |- _ => apply Z.leb_gt in H
  | H : bool_decide _ = true |- _ => apply bool_decide_eq_true in H
  | H : bool_decide _ = false |- _ => apply bool_decide_eq_false in H
  end.

(** ** Stable sorting: Python's [sorted(l, key=...)] with [le] the key order *)

Section py_sorted.
Context {A : Type} (le : A -> A -> bool).

Fixpoint insert_sorted (x : A) (l : list A) : list A :=
  match l with
  | [] => [x]
  | y :: l' => if le x y then x :: l else y :: insert_sorted x l'
  end.
Definition py_sorted (l : list A) : list A := foldr insert_sorted [] l.

Lemma insert_sorted_perm x l : insert_sorted x l ≡ₚ x :: l.
Proof. induction l as [|y l IH]; simpl; [done|]. destruct (le x y); [done|]. rewrite IH. constructor. Qed.
Lemma py_sorted_perm l : py_sorted l ≡ₚ l.
Proof. induction l as [|x l IH]; simpl; [done|]. by rewrite insert_sorted_perm, IH. Qed.
Lemma py_sorted_length l : length (py_sorted l) = length l.
Proof. by rewrite py_sorted_perm. Qed.

Context (le_total : forall x y, le x y = false -> le y x = true).
Context (le_trans : forall x y z, le x y = true -> le y z = true -> le x z = true).

Lemma insert_sorted_sorted x l :
  StronglySorted (fun a b => le a b = true) l -> StronglySorted (fun a b => le a b = true) (insert_sorted x l).
Proof using le_total le_trans.
  induction 1 as [|y l Hl IH Hy]; simpl; [by repeat constructor|].
  destruct (le x y) eqn:E.
  - constructor; [by constructor|]. constructor; [done|].
    eapply Forall_impl; [exact Hy|]. simpl. eauto.
  - constructor; [done|]. rewrite insert_sorted_perm. constructor; [auto|done].
Qed.
Lemma py_sorted_sorted l : StronglySorted (fun a b => le a b = true) (py_sorted l).
Proof using le_total le_trans. induction l; simpl; [constructor | by apply insert_sorted_sorted]. Qed.

(** Stability: the elements of one key class keep their order.  [p] selects a
    class: two members of it compare both ways. *)
Lemma insert_sorted_filter (p : A -> bool) x l :
  (forall a b, p a = true -> p b = true -> le a b = true) ->
  filter (fun a => p a = true) (insert_sorted x l) = filter (fun a => p a = true) (x :: l).
Proof using Type.
  intros Hp. induction l as [|y l IH]; simpl; [done|].
  destruct (le x y) eqn:E; [done|].
  rewrite filter_cons, IH, !filter_cons. repeat case_decide; try done.
  rewrite (Hp x y) in E; done.
Qed.
Lemma py_sorted_stable (p : A -> bool) l :
  (forall a b, p a = true -> p b = true -> le a b = true) ->
  filter (fun a => p a = true) (py_sorted l) = filter (fun a => p a = true) l.
Proof using Type.
  intros Hp. induction l as [|x l IH]; simpl; [done|].
  rewrite insert_sorted_filter by done. rewrite !filter_cons. by rewrite IH.
Qed.
End py_sorted.

(** ** Ordered keys: [<=] on the values the code sorts by *)

Class PyOrd (A : Type) := py_leb : A -> A -> bool.
Class PyOrdLaws (A : Type) `{PyOrd A} := {
  py_leb_total a b : py_leb a b = false -> py_leb b a = true;
  py_leb_trans a b c : py_leb a b = true -> py_leb b c = true -> py_leb a c = true;
  py_leb_antisym a b : py_leb a b = true -> py_leb b a = true -> a = b
}.
(** [a < b] *)
Definition py_ltb {A} `{PyOrd A} (a b : A) : bool := negb (py_leb b a).

#[export] Instance py_ord_Z : PyOrd Z := Z.leb.
#[export] Instance py_ord_Z_laws : PyOrdLaws Z.
Proof.
  split; unfold py_leb, py_ord_Z; intros *; rewrite ?Z.leb_le, ?Z.leb_gt; lia.
Qed.
(** Strings are ordered by code point. *)
#[export] Instance py_ord_string : PyOrd string := String.leb.
#[export] Instance py_ord_string_laws : PyOrdLaws string.
Proof.
  split; unfold py_leb, py_ord_string.
  - intros a b H. destruct (String.leb_total a b) as [H'|H']; [|done]. rewrite H in H'. done.
  - intros a b c H1 H2.
    assert (String.le a c) as H; [|by apply Is_true_true].
    etrans; apply Is_true_true; done.
  - apply String.leb_antisym.
Qed.
(** Tuples are ordered lexicographically. *)
#[export] Instance py_ord_prod {A B} `{PyOrd A, PyOrd B} : PyOrd (A * B) := fun x y =>
  if py_leb x.1 y.1 then if py_leb y.1 x.1 then py_leb x.2 y.2 else true else false.
#[export] Instance py_ord_prod_laws {A B} `{PyOrdLaws A, PyOrdLaws B} : PyOrdLaws (A * B).
Proof.
  split.
  - intros [a1 a2] [b1 b2]. unfold py_leb, py_ord_prod; cbn [fst snd].
    destruct (py_leb a1 b1) eqn:E1.
    + destruct (py_leb b1 a1) eqn:E2; [apply py_leb_total|done].
    + intros _. apply py_leb_total in E1 as E2. fold (py_leb b1 a1). by rewrite E2.
  - intros [a1 a2] [b1 b2] [c1 c2]. unfold py_leb, py_ord_prod; cbn [fst snd].
    destruct (py_leb a1 b1) eqn:E1; [|done]. intros Hab.
    destruct (py_leb b1 c1) eqn:E2; [|done]. intros Hbc.
    rewrite (py_leb_trans a1 b1 c1) by done.
    destruct (py_leb c1 a1) eqn:E3; [|done].
    rewrite (py_leb_trans c1 a1 b1) in Hbc by done. rewrite (py_leb_trans b1 c1 a1) in Hab by done.
    by eapply py_leb_trans.
  - intros [a1 a2] [b1 b2]. unfold py_leb, py_ord_prod; cbn [fst snd].
    destruct (py_leb a1 b1) eqn:E1; [|done]. destruct (py_leb b1 a1) eqn:E2; [|done].
    intros. f_equal; by apply py_leb_antisym.
Qed.

(** [sorted(l, key=key)] *)
Definition sort_by {A K} `{PyOrd K} (key : A -> K) (l : list A) : list A :=
  py_sorted (fun a b => py_leb (key a) (key b)) l.

Section sort_by.
Context {A K : Type} `{PyOrdLaws K} (key : A -> K).

Lemma py_leb_refl (k : K) : py_leb k k = true.
Proof. destruct (py_leb k k) eqn:E; [done|]. by rewrite <- E, py_leb_total. Qed.
Lemma py_ltb_leb (a b : K) : py_ltb a b = true -> py_leb a b = true.
Proof. unfold py_ltb. rewrite negb_true_iff. apply py_leb_total. Qed.
Lemma py_ltb_irrefl (a : K) : py_ltb a a = false.
Proof. unfold py_ltb. by rewrite py_leb_refl. Qed.

Lemma sort_by_perm l : sort_by key l ≡ₚ l.
Proof. apply py_sorted_perm. Qed.
Lemma sort_by_sorted l : StronglySorted (fun a b => py_leb (key a) (key b) = true) (sort_by key l).
Proof.
  apply py_sorted_sorted; intros *; [apply py_leb_total | apply py_leb_trans].
Qed.
Lemma sort_by_stable `{EqDecision K} k l :
  filter (fun a => key a = k) (sort_by key l) = filter (fun a => key a = k) l.
Proof.
  rewrite !(list_filter_iff (fun a => key a = k) (fun a => bool_decide (key a = k) = true)) by
    (intros; by rewrite bool_decide_eq_true).
  apply py_sorted_stable.
  intros a b Ha%bool_decide_eq_true Hb%bool_decide_eq_true. rewrite Ha, Hb. apply py_leb_refl.
Qed.
(** With distinct keys the result does not depend on the order of the input. *)
Lemma sort_by_unique l k :
  (forall a b, a ∈ l -> b ∈ l -> key a = key b -> a = b) -> l ≡ₚ k -> sort_by key l = sort_by key k.
Proof.
  intros Hinj Hp. apply (StronglySorted_unique_strong (fun a b => py_leb (key a) (key b) = true)).
  - intros a b Ha Hb H1 H2. rewrite sort_by_perm in Ha. rewrite sort_by_perm, <- Hp in Hb.
    apply Hinj; [done..|]. by apply py_leb_antisym.
  - apply sort_by_sorted.
  - apply sort_by_sorted.
  - by rewrite !sort_by_perm.
Qed.
End sort_by.

Lemma py_leb_pair_fst {A B} `{PyOrd A, PyOrd B} (a c : A) (b d : B) :
  py_leb (a, b) (c, d) = true -> py_leb a c = true.
Proof. unfold py_leb at 1, py_ord_prod. cbn [fst snd]. by destruct (py_leb a c). Qed.
Lemma py_leb_pair_eq {A B} `{PyOrdLaws A, PyOrd B} (a : A) (b d : B) :
  py_leb (a, b) (a, d) = py_leb b d.
Proof. unfold py_leb at 1, py_ord_prod. cbn [fst snd]. by rewrite !py_leb_refl. Qed.

(** A list strictly increasing along a key: the key is injective on it, and
    sorting by it any permutation gives the list back. *)
Section strictly_sorted.
Context {A K : Type} `{PyOrdLaws K} (key : A -> K).

Lemma strictly_sorted_inj l a b :
  StronglySorted (fun a b => py_ltb (key a) (key b) = true) l ->
  a ∈ l -> b ∈ l -> key a = key b -> a = b.
Proof.
  induction 1 as [|x l Hl IH Hx]; [by intros ?%not_elem_of_nil|].
  rewrite Forall_forall in Hx.
  intros [->|Ha]%elem_of_cons [->|Hb]%elem_of_cons He; [done| | |by apply IH].
  - apply Hx in Hb. by rewrite He, py_ltb_irrefl in Hb.
  - apply Hx in Ha. by rewrite He, py_ltb_irrefl in Ha.
Qed.

Lemma strictly_sorted_unique l k :
  StronglySorted (fun a b => py_ltb (key a) (key b) = true) l ->
  StronglySorted (fun a b => py_leb (key a) (key b) = true) k ->
  l ≡ₚ k -> l = k.
Proof.
  intros Hl Hk Hp. apply (StronglySorted_unique_strong (fun a b => py_leb (key a) (key b) = true)); try done.
  - intros a b Ha Hb H1 H2. apply (strictly_sorted_inj l); [done|done|by rewrite Hp|].
    by apply py_leb_antisym.
  - eapply StronglySorted_impl; [|exact Hl]. intros a b. apply py_ltb_leb.
Qed.
End strictly_sorted.

(** [sorted(set(l))] for strings. *)
Definition sorted_set (l : list string) : list string := sort_by id (remove_dups l).
Lemma sorted_set_spec l s : s ∈ sorted_set l <-> s ∈ l.
Proof. unfold sorted_set. rewrite sort_by_perm. apply elem_of_remove_dups. Qed.
Lemma sorted_set_perm l k : l ≡ₚ k -> sorted_set l = sorted_set k.
Proof.
  intros Hp. apply sort_by_unique; [done|].
  apply NoDup_Permutation; [apply NoDup_remove_dups..|].
  intros s. by rewrite !elem_of_remove_dups, Hp.
Qed.
Lemma sorted_set_single l s : l <> [] -> Forall (eq s) l -> sorted_set l = [s].
Proof.
  intros Hl Hs. assert (remove_dups l ≡ₚ [s]) as Hp.
  { apply NoDup_Permutation; [apply NoDup_remove_dups|apply NoDup_singleton|].
    intros x. rewrite elem_of_remove_dups, list_elem_of_singleton. rewrite Forall_forall in Hs.
    split; [intros Hx; symmetry; by apply Hs|]. intros ->. destruct l as [|y l]; [done|].
    rewrite (Hs y) by constructor. constructor. }
  unfold sorted_set. rewrite <- (sort_by_perm id) in Hp. symmetry in Hp.
  by apply Permutation_singleton_l in Hp.
Qed.

(** ** Record update: [r <| field := v |>]

    A record type declares its eta expansion as an [Eta] instance; the updater
    of a field is found by abstracting the projection in it. *)
Class Eta (R : Type) := eta : R -> R.
Class Updater {R T : Type} (proj : R -> T) := updater : (T -> T) -> R -> R.
#[global] Arguments updater {R T} proj {_} f r /.
Ltac derive_updater :=
  lazymatch goal with
  | |- @Updater ?R ?T ?proj =>
      let i := constr:(_ : Eta R) in
      let e := eval hnf in i in
      match eval pattern proj in e with
      | ?body _ => let u := eval cbv beta in (fun (f : T -> T) (r : R) => body (fun r' => f (proj r')) r) in exact u
      end
  end.
#[export] Hint Extern 1 (Updater _) => derive_updater : typeclass_instances.
Notation "r <| field := v |>" := (updater field (fun _ => v) r)
  (at level 12, left associativity, v at level 99, format "r  <| field  :=  v |>").
