(* ===== verification/PyFloat.v ===== *)
(** * Python's floats

    A [float] is an IEEE binary64 number, as the Standard Library's [SpecFloat]
    specifies it: arithmetic rounds to nearest, ties to even.  [rat] is the
    correctly rounded quotient of two integers, which is what a decimal literal,
    [float(n)] and the true division of two integers denote; [py_round] is
    [round(x, k)], [format_fixed] an f-string's [:.kf], [float_repr] the shortest
    text that reads back, [py_float] is [float(s)].  The [Decimal] of the module
    [decimal] is here too, with its default context of 28 digits. *)
From Stdlib Require Export SpecFloat.
From S2P Require Import Prelude.

#[local] Open Scope Z_scope.

Declare Scope float_scope.
Delimit Scope float_scope with float.

Abbreviation float := spec_float (only parsing).

#[export] Instance float_eq_dec : EqDecision float.
Proof. solve_decision. Defined.

(** ** Numbers *)

(** The double nearest to [n / d]. *)
Definition rat (n : Z) (d : positive) : float :=
  let go s m :=
    let '(q, e, l) := SFdiv_core_binary 53 1024 (Z.pos m) 0 (Z.pos d) 0 in
    binary_round_aux 53 1024 s q e l in
  match n with
  | Z0 => S754_zero false
  | Zpos m => go false m
  | Zneg m => go true m
  end.

(** [float(n)], for an [n] in the range of doubles. *)
Definition float_of_Z (n : Z) : float := rat n 1.

Definition fzero : float := S754_zero false.
Definition fone : float := float_of_Z 1.

Definition fadd : float -> float -> float := SFadd 53 1024.
Definition fsub : float -> float -> float := SFsub 53 1024.
Definition fmul : float -> float -> float := SFmul 53 1024.
(** [x / y]: dividing by zero raises. *)
Definition fdiv (x y : float) : result float :=
  match y with
  | S754_zero _ => Raise (ZeroDivisionError "float division by zero")
  | _ => Ok (SFdiv 53 1024 x y)
  end.
Definition flt : float -> float -> bool := SFltb.
Definition fle : float -> float -> bool := SFleb.
(** [x > y] and [x >= y] are not the negations of [x <= y] and [x < y]: a nan
    compares to nothing. *)
Definition fgt (x y : float) : bool := flt y x.
Definition fge (x y : float) : bool := fle y x.
Definition feq : float -> float -> bool := SFeqb.
(** [min(x, y)] and [max(x, y)] keep the first argument unless the second is
    strictly smaller, larger. *)
Definition fmin (x y : float) : float := if flt y x then y else x.
Definition fmax (x y : float) : float := if fgt y x then y else x.

Infix "+" := fadd : float_scope.
Infix "-" := fsub : float_scope.
Infix "*" := fmul : float_scope.

Definition finf : float := S754_infinity false.
Definition is_finite (x : float) : bool :=
  match x with S754_infinity _ | S754_nan => false | _ => true end.

#[export] Instance truthy_float : Truthy float := fun x =>
  match x with S754_zero _ => false | _ => true end.

(** ** Exact values *)

(** The magnitude of a finite double as a fraction. *)
Definition frac (m : positive) (e : Z) : Z * positive :=
  match e with
  | Zneg p => (Z.pos m, Z.to_pos (2 ^ Z.pos p))
  | _ => (Z.pos m * 2 ^ e, 1%positive)
  end.

(** [n / d] rounded to an integer, ties to even. *)
Definition round_half_even (n : Z) (d : positive) : Z :=
  let q := n / Z.pos d in
  match Z.compare (2 * (n mod Z.pos d)) (Z.pos d) with
  | Lt => q
  | Gt => q + 1
  | Eq => if Z.even q then q else q + 1
  end.

(** [n / d * 10 ^ k] rounded to an integer. *)
Definition scale10 (k : Z) (nd : Z * positive) : Z :=
  if 0 <=? k then round_half_even (nd.1 * 10 ^ k) nd.2
  else round_half_even nd.1 (nd.2 * Z.to_pos (10 ^ (- k))).

Definition fneg (s : bool) (x : float) : float := if s then SFopp x else x.
(** The double nearest to [n * 10 ^ k]. *)
Definition of_decimal (n k : Z) : float :=
  if 0 <=? k then rat (n * 10 ^ k) 1 else rat n (Z.to_pos (10 ^ (- k))).

(** [round(x, k)] for [0 <= k]: the decimal rounding of the exact value, read
    back as a double. *)
Definition py_round (x : float) (k : Z) : float :=
  match x with
  | S754_finite s m e => fneg s (of_decimal (scale10 k (frac m e)) (- k))
  | _ => x
  end.

(** [int(x)] truncates; an infinity or a nan has no integer. *)
Definition py_trunc (x : float) : result Z :=
  match x with
  | S754_finite s m e =>
      let '(n, d) := frac m e in Ok (if s then - (n / Z.pos d) else n / Z.pos d)
  | S754_zero _ => Ok 0
  | S754_infinity _ => Raise (OverflowError "cannot convert float infinity to integer")
  | S754_nan => Raise (ValueError "cannot convert float NaN to integer")
  end.

(** ** Text *)

Definition sign_str (s : bool) : string := if s then "-" else "".

(** [f"{x:.kf}"] *)
Definition format_fixed (k : nat) (x : float) : string :=
  let digits n :=
    pretty (n / 10 ^ Z.of_nat k) +:+
    match k with
    | O => EmptyString
    | _ => "." +:+ zpad k (n mod 10 ^ Z.of_nat k)
    end in
  match x with
  | S754_nan => "nan"
  | S754_infinity s => sign_str s +:+ "inf"
  | S754_zero s => sign_str s +:+ digits 0
  | S754_finite s m e => sign_str s +:+ digits (scale10 (Z.of_nat k) (frac m e))
  end.

Definition ndigits (n : Z) : Z := Z.of_nat (String.length (pretty n)).

(** The [d] such that [10 ^ (d - 1) <= n / den < 10 ^ d]. *)
Definition decpt (nd : Z * positive) : Z :=
  if Z.pos nd.2 <=? nd.1 then ndigits (nd.1 / Z.pos nd.2)
  else 1 - ndigits ((Z.pos nd.2 + nd.1 - 1) / nd.1 - 1).

(** The candidates with [k] significant digits around [n / den], the nearest
    first: those that read back as [x]. *)
Definition repr_candidate (x : float) (nd : Z * positive) (d k : Z) : option Z :=
  let e := k - d in
  let near := scale10 e nd in
  let reads n := feq (of_decimal n (- e)) x in
  if reads near then Some near
  else if reads (near + 1) then Some (near + 1)
  else if reads (near - 1) then Some (near - 1) else None.
Fixpoint repr_search (x : float) (nd : Z * positive) (d k : Z) (fuel : nat) : Z * Z :=
  match fuel with
  | O => (scale10 (17 - d) nd, 17)
  | S fuel =>
      match repr_candidate x nd d k with
      | Some n => (n, k)
      | None => repr_search x nd d (k + 1) fuel
      end
  end.
Fixpoint strip_zeros_rev (l : list ascii) : list ascii :=
  match l with
  | c :: l' => if Nat.eqb (nat_of_ascii c) 48 then match l' with [] => l | _ => strip_zeros_rev l' end else l
  | [] => []
  end.
Definition strip_zeros (s : string) : string :=
  String.string_of_list_ascii (rev (strip_zeros_rev (rev (String.list_ascii_of_string s)))).
Definition zeros (n : Z) : string :=
  String.string_of_list_ascii (replicate (Z.to_nat n) (ascii_of_nat 48)).

(** [repr(x)]: the shortest decimal that reads back, with an exponent when the
    point is more than 16 digits to the right or 4 to the left. *)
Definition repr_layout (digits : string) (p : Z) : string :=
  let n := Z.of_nat (String.length digits) in
  if (p <=? -4) || (16 <? p) then
    let e := p - 1 in
    String.substring 0 1 digits +:+
    (if n =? 1 then "" else "." +:+ String.substring 1 (Z.to_nat (n - 1)) digits) +:+
    "e" +:+ (if e <? 0 then "-" else "+") +:+ zpad 2 (Z.abs e)
  else if p <=? 0 then "0." +:+ zeros (- p) +:+ digits
  else if n <=? p then digits +:+ zeros (p - n) +:+ ".0"
  else String.substring 0 (Z.to_nat p) digits +:+ "." +:+ String.substring (Z.to_nat p) (Z.to_nat (n - p)) digits.

Definition float_repr (x : float) : string :=
  match x with
  | S754_nan => "nan"
  | S754_infinity s => sign_str s +:+ "inf"
  | S754_zero s => sign_str s +:+ "0.0"
  | S754_finite s m e =>
      let nd := frac m e in
      let d := decpt nd in
      let '(n, k) := repr_search (S754_finite false m e) nd d 1 17 in
      let p := if k <? ndigits n then d + 1 else d in
      sign_str s +:+ repr_layout (strip_zeros (pretty n)) p
  end.
#[export] Instance py_repr_float : PyRepr float := float_repr.

(** [float(s)]: an optional sign, then [inf], [infinity], [nan] or decimal
    digits with a point and an exponent, single underscores between digits. *)
Record scan : Type := { sc_value : Z; sc_count : Z; sc_rest : list ascii }.
Fixpoint scan_digits (l : list ascii) (acc n : Z) (after_digit : bool) : option scan :=
  match l with
  | c :: l' =>
      if py_isdigit c then scan_digits l' (10 * acc + (Z.of_nat (nat_of_ascii c) - 48)) (n + 1) true
      else if Nat.eqb (nat_of_ascii c) 95 && after_digit then
        match l' with
        | d :: _ => if py_isdigit d then scan_digits l' acc n false else None
        | [] => None
        end
      else Some {| sc_value := acc; sc_count := n; sc_rest := l |}
  | [] => Some {| sc_value := acc; sc_count := n; sc_rest := [] |}
  end.
Definition is_char (n : nat) (l : list ascii) : option (list ascii) :=
  match l with c :: l' => if Nat.eqb (nat_of_ascii c) n then Some l' else None | [] => None end.

(** The exponent part: nothing, or [e], a sign and digits up to the end. *)
Definition scan_exponent (l : list ascii) : option Z :=
  match l with
  | [] => Some 0
  | c :: l' =>
      if Nat.eqb (nat_of_ascii c) 101 || Nat.eqb (nat_of_ascii c) 69 then
        let '(neg, l'') :=
          match is_char 45 l', is_char 43 l' with
          | Some r, _ => (true, r)
          | None, Some r => (false, r)
          | None, None => (false, l')
          end in
        match scan_digits l'' 0 0 false with
        | Some {| sc_value := v; sc_count := n; sc_rest := [] |} =>
            if n =? 0 then None else Some (if neg : bool then - v else v)
        | _ => None
        end
      else None
  end.
(** The digits, the point, the digits after it, the exponent. *)
Definition scan_number (l : list ascii) : option (Z * Z) :=
  i ← scan_digits l 0 0 false;
  f ← match is_char 46 (sc_rest i) with
      | Some r => scan_digits r (sc_value i) 0 false
      | None => Some {| sc_value := sc_value i; sc_count := 0; sc_rest := sc_rest i |}
      end;
  if sc_count i + sc_count f =? 0 then None
  else e ← scan_exponent (sc_rest f); Some (sc_value f, e - sc_count f).

Definition scan_float (s : string) : option float :=
  let '(neg, l) :=
    match String.list_ascii_of_string (py_strip s) with
    | c :: l => if Nat.eqb (nat_of_ascii c) 45 then (true, l)
                else if Nat.eqb (nat_of_ascii c) 43 then (false, l) else (false, c :: l)
    | [] => (false, [])
    end in
  let word := py_lower (String.string_of_list_ascii l) in
  if str_in word ["inf"; "infinity"] then Some (S754_infinity neg)
  else if String.eqb word "nan" then Some S754_nan
  else '(n, e) ← scan_number l; Some (fneg neg (of_decimal n e)).

Definition py_float (s : string) : result float :=
  match scan_float s with
  | Some x => Ok x
  | None => Raise (ValueError ("could not convert string to float: " +:+ py_repr s))
  end.

(** ** Decimals: an integer coefficient and a power of ten *)

Record decimal : Type := { dec_coef : Z; dec_exp : Z }.

(** The context's rounding: 28 significant digits, ties to even. *)
Definition dec_round (x : decimal) : decimal :=
  let extra := ndigits (Z.abs (dec_coef x)) - 28 in
  if extra <=? 0 then x
  else {| dec_coef := Z.sgn (dec_coef x) * round_half_even (Z.abs (dec_coef x)) (Z.to_pos (10 ^ extra));
          dec_exp := dec_exp x + extra |}.
Definition dec_of_Z (n : Z) : decimal := {| dec_coef := n; dec_exp := 0 |}.
Definition dec_align (e : Z) (x : decimal) : Z := dec_coef x * 10 ^ (dec_exp x - e).
Definition dec_combine (op : Z -> Z -> Z) (x y : decimal) : decimal :=
  let e := Z.min (dec_exp x) (dec_exp y) in
  dec_round {| dec_coef := op (dec_align e x) (dec_align e y); dec_exp := e |}.
Definition dec_add : decimal -> decimal -> decimal := dec_combine Z.add.
Definition dec_sub : decimal -> decimal -> decimal := dec_combine Z.sub.
Definition dec_mul (x y : decimal) : decimal :=
  dec_round {| dec_coef := dec_coef x * dec_coef y; dec_exp := dec_exp x + dec_exp y |}.
(** [x / Decimal("1000")]: exact, the coefficient is unchanged. *)
Definition dec_div1000 (x : decimal) : decimal :=
  dec_round {| dec_coef := dec_coef x; dec_exp := dec_exp x - 3 |}.
Definition float_of_dec (x : decimal) : float := of_decimal (dec_coef x) (dec_exp x).
(** [Decimal(str(x))] of a finite double: the value of its shortest text. *)
Definition dec_of_float (x : float) : decimal :=
  match x with
  | S754_finite s m e =>
      let nd := frac m e in
      let d := decpt nd in
      let '(n, k) := repr_search (S754_finite false m e) nd d 1 17 in
      {| dec_coef := if s then - n else n; dec_exp := d - k |}
  | _ => dec_of_Z 0
  end.

(** ** Order *)

Lemma flt_irrefl x : flt x x = false.
Proof.
  unfold flt, SFltb. destruct x as [s|s| |s m e]; simpl; try done; try by destruct s.
  assert (Pos.compare_cont Eq m m = Eq) as Hm by exact (Pos.compare_refl m).
  rewrite Z.compare_refl, Hm. by destruct s.
Qed.

(** Two finite numbers compare by exponent, then mantissa. *)
Definition lex_compare (m e m' e' : Z) : comparison := match (e ?= e')%Z with Eq => (m ?= m')%Z | c => c end.
Lemma lex_trans m1 e1 m2 e2 m3 e3 : lex_compare m1 e1 m2 e2 = Lt -> lex_compare m2 e2 m3 e3 = Lt -> lex_compare m1 e1 m3 e3 = Lt.
Proof.
  unfold lex_compare. intros H1 H2.
  destruct (Z.compare_spec e1 e2), (Z.compare_spec e2 e3), (Z.compare_spec e1 e3); try done; try lia.
  rewrite Z.compare_lt_iff in *. lia.
Qed.
Lemma flt_finite s1 m1 e1 s2 m2 e2 : flt (S754_finite s1 m1 e1) (S754_finite s2 m2 e2) =
  match s1, s2 with
  | true, false => true
  | false, true => false
  | false, false => match lex_compare (Zpos m1) e1 (Zpos m2) e2 with Lt => true | _ => false end
  | true, true => match lex_compare (Zpos m2) e2 (Zpos m1) e1 with Lt => true | _ => false end
  end.
Proof.
  unfold flt, SFltb, SFcompare, lex_compare. destruct s1, s2; try done.
  rewrite (Z.compare_antisym e1 e2). destruct (e1 ?= e2)%Z; simpl; try done.
  change (Pos.compare_cont Eq m1 m2) with (Pos.compare m1 m2). rewrite (Pos.compare_antisym m1 m2). by destruct (Pos.compare m1 m2).
Qed.
Lemma flt_trans x y z : flt x y = true -> flt y z = true -> flt x z = true.
Proof.
  destruct x as [sx|sx| |sx mx ex], y as [sy|sy| |sy my ey], z as [sz|sz| |sz mz ez]; try done; try (by destruct sx); try (by destruct sy);
    try (by destruct sz); try (by destruct sx, sy); try (by destruct sy, sz); try (by destruct sx, sz); try (by destruct sx, sy, sz).
  rewrite !flt_finite. destruct sx, sy, sz; try done.
  - destruct (lex_compare (Zpos my) _ _ _) eqn:E1; try done. destruct (lex_compare (Zpos mz) _ (Zpos my) _) eqn:E2; try done.
    by rewrite (lex_trans _ _ _ _ _ _ E2 E1).
  - destruct (lex_compare (Zpos mx) _ _ _) eqn:E1; try done. destruct (lex_compare (Zpos my) _ (Zpos mz) _) eqn:E2; try done.
    by rewrite (lex_trans _ _ _ _ _ _ E1 E2).
Qed.

Lemma fmax_zero x : fle fzero (fmax fzero x) = true.
Proof.
  unfold fmax, fgt. destruct (flt fzero x) eqn:E; [|done].
  unfold flt, SFltb in E. unfold fle, SFleb. by destruct (SFcompare fzero x) as [[]|].
Qed.

(** ** Examples, checked against CPython *)

Definition lit (s : string) : float := default S754_nan (scan_float s).

Example lit_tenth : lit "0.1" = rat 1 10.
Proof. vm_compute. reflexivity. Qed.
Example add_tenths : float_repr (lit "0.1" + lit "0.2")%float = "0.30000000000000004".
Proof. vm_compute. reflexivity. Qed.
Example repr_small : float_repr (lit "1e-05") = "1e-05".
Proof. vm_compute. reflexivity. Qed.
Example repr_large : float_repr (lit "12345678901234567890.0") = "1.2345678901234567e+19".
Proof. vm_compute. reflexivity. Qed.
Example repr_one : map float_repr [fone; lit "1.2"; lit "0.8"; lit "-2.5e-3"; lit "100"] = ["1.0"; "1.2"; "0.8"; "-0.0025"; "100.0"].
Proof. vm_compute. reflexivity. Qed.
Example fixed_half : map (format_fixed 3) [lit "0.0625"; lit "0.85"; lit "2.0005"; lit "0.0005"] = ["0.062"; "0.850"; "2.001"; "0.001"].
Proof. vm_compute. reflexivity. Qed.
Example round_ten : float_repr (py_round (rat 1 3) 10) = "0.3333333333".
Proof. vm_compute. reflexivity. Qed.
Example dec_cost : float_of_dec (dec_sub (dec_of_float (lit "0.3")) (dec_of_float (lit "0.1"))) = lit "0.2".
Proof. vm_compute. reflexivity. Qed.
