(* ===== verification/PyJson.v ===== *)
(** * JSON text and dicts

    Python's [dict] with string keys, as the list of its entries in insertion
    order, and the module [json]: [json_loads] is the scanner of [json.loads]
    with the messages of its [JSONDecodeError], [json_dumps] and
    [json_dumps_indent] are [json.dumps] with the default separators and with
    [indent=2].  [loads_dumps] is the round trip.

    A string holds code points below 256: an escape for another one is read as
    [?]. *)
From S2P Require Import Prelude PyFloat.

#[local] Open Scope nat_scope.

Definition Obj : Type := list (string * json).

#[export] Instance json_inhabited : Inhabited json := populate JNull.

(** ** Dicts *)

(** [d[k] = v] keeps the place of a key that is there. *)
Fixpoint dict_set {V} (k : string) (v : V) (l : list (string * V)) : list (string * V) :=
  match l with
  | [] => [(k, v)]
  | (k', v') :: l' => if String.eqb k' k then (k', v) :: l' else (k', v') :: dict_set k v l'
  end.
(** [d.pop(k, None)] *)
Fixpoint dict_pop {V} (k : string) (l : list (string * V)) : list (string * V) :=
  match l with
  | [] => []
  | (k', v') :: l' => if String.eqb k' k then l' else (k', v') :: dict_pop k l'
  end.
Definition dict_keys {V} (l : list (string * V)) : list string := map fst l.
Definition dict_has {V} (k : string) (l : list (string * V)) : bool :=
  match dict_get k l with Some _ => true | None => false end.

Lemma dict_get_None {V} k (l : list (string * V)) : dict_get k l = None <-> k ∉ dict_keys l.
Proof.
  induction l as [|[k' v] l IH]; simpl; [set_solver|].
  destruct (String.eqb_spec k' k) as [->|Hne]; [set_solver|]. rewrite IH. set_solver.
Qed.
Lemma dict_get_Some_in {V} k (l : list (string * V)) v : dict_get k l = Some v -> (k, v) ∈ l.
Proof.
  induction l as [|[k' v'] l IH]; simpl; [done|].
  destruct (String.eqb_spec k' k) as [->|Hne]; [intros [= ->]; left|]. intros H. right. auto.
Qed.
Lemma dict_set_fresh {V} k (v : V) l : dict_get k l = None -> dict_set k v l = l ++ [(k, v)].
Proof.
  induction l as [|[k' v'] l IH]; simpl; [done|].
  destruct (String.eqb k' k); [done|]. intros H. by rewrite IH.
Qed.
Lemma dict_get_set {V} k (v : V) k' l : dict_get k' (dict_set k v l) = if String.eqb k k' then Some v else dict_get k' l.
Proof.
  induction l as [|[k2 v2] l IH]; simpl; [done|].
  destruct (String.eqb_spec k2 k) as [->|Hne]; simpl; [by destruct (String.eqb k k')|].
  rewrite IH. destruct (String.eqb_spec k2 k') as [->|]; [|done].
  by destruct (String.eqb_spec k k') as [->|].
Qed.
Lemma dict_pop_fresh {V} k (v : V) l : dict_get k l = None -> dict_pop k (dict_set k v l) = l.
Proof.
  induction l as [|[k' v'] l IH]; simpl; [by rewrite String.eqb_refl|].
  destruct (String.eqb k' k) eqn:E; [done|]. simpl. rewrite E. intros H. by rewrite IH.
Qed.
(** Keys of a dict are distinct; so they stay. *)
Lemma dict_set_keys {V} k (v : V) l : dict_keys (dict_set k v l) = if dict_has k l then dict_keys l else dict_keys l ++ [k].
Proof.
  unfold dict_has. induction l as [|[k' v'] l IH]; simpl; [done|].
  destruct (String.eqb k' k); [done|]. simpl. rewrite IH. by destruct (dict_get k l).
Qed.

(** [{key(x): x for x in l}]: the last of a key stays, in the place of the first. *)
Definition dict_index {A} (key : A -> string) (l : list A) : list (string * A) :=
  foldl (fun m x => dict_set (key x) x m) [] l.

Section dict_index.
Context {A : Type} (key : A -> string).

Lemma dict_index_snoc l x : dict_index key (l ++ [x]) = dict_set (key x) x (dict_index key l).
Proof. unfold dict_index. by rewrite foldl_app. Qed.
Lemma dict_index_Some l k x : dict_get k (dict_index key l) = Some x -> x ∈ l /\ key x = k.
Proof.
  induction l as [|y l IH] using rev_ind; [done|]. rewrite dict_index_snoc, dict_get_set, elem_of_app.
  destruct (String.eqb_spec (key y) k) as [<-|]; [intros [= ->]; set_solver|]. intros [? ?]%IH. auto.
Qed.
Lemma dict_index_is_Some l k : is_Some (dict_get k (dict_index key l)) <-> k ∈ map key l.
Proof.
  induction l as [|y l IH] using rev_ind; [simpl; split; [by intros [? ?]|set_solver]|].
  rewrite dict_index_snoc, dict_get_set, map_app, elem_of_app, <- IH. simpl.
  destruct (String.eqb_spec (key y) k) as [<-|]; set_solver.
Qed.
Lemma dict_index_elem l x : NoDup (map key l) -> x ∈ l -> dict_get (key x) (dict_index key l) = Some x.
Proof.
  intros Hnd Hx. destruct (dict_get (key x) (dict_index key l)) as [y|] eqn:E.
  - apply dict_index_Some in E as [Hy Hk]. f_equal.
    apply list_elem_of_lookup in Hx as [i Hi]. apply list_elem_of_lookup in Hy as [j Hj].
    assert (i = j) as <-.
    { apply (NoDup_lookup _ _ _ (key x) Hnd); rewrite list_lookup_fmap; [by rewrite Hi|by rewrite Hj; simpl; rewrite Hk]. }
    congruence.
  - exfalso. assert (key x ∈ map key l) as [? ?]%dict_index_is_Some; [|congruence].
    change (map key l) with (key <$> l). by apply list_elem_of_fmap_2.
Qed.
Lemma dict_index_keys l k : k ∈ dict_keys (dict_index key l) <-> k ∈ map key l.
Proof.
  rewrite <- dict_index_is_Some, <- not_eq_None_Some, dict_get_None. split; [auto|].
  intros H. by destruct (decide (k ∈ dict_keys (dict_index key l))).
Qed.
End dict_index.

(** ** Writing *)

(** The quote, the backslash and what is outside [' '..'~'] are escaped. *)
Definition escape_ascii (c : ascii) : string :=
  let n := nat_of_ascii c in
  if Nat.eqb n 34 then String (ascii_of_nat 92) (String (ascii_of_nat 34) "")
  else if Nat.eqb n 92 then "\\"
  else if Nat.eqb n 10 then "\n" else if Nat.eqb n 13 then "\r" else if Nat.eqb n 9 then "\t"
  else if Nat.eqb n 12 then "\f" else if Nat.eqb n 8 then "\b"
  else if Nat.ltb n 32 || Nat.ltb 126 n
  then "\u00" +:+ String (hex_digit (n / 16)) (String (hex_digit (n mod 16)) "")
  else String c "".
Fixpoint escape_body (s : string) : string :=
  match s with EmptyString => EmptyString | String c t => escape_ascii c +:+ escape_body t end.
Definition json_string (s : string) : string := String dq (escape_body s +:+ String dq "").
Definition json_float (r : string) : string :=
  if String.eqb r "nan" then "NaN" else if String.eqb r "inf" then "Infinity"
  else if String.eqb r "-inf" then "-Infinity" else r.

(** [json.dumps(j)] *)
Fixpoint json_dumps (j : json) : string :=
  match j with
  | JNull => "null"
  | JBool b => if b then "true" else "false"
  | JInt n => pretty n
  | JFloat r => json_float r
  | JStr s => json_string s
  | JArr l => "[" +:+ py_join ", " (map json_dumps l) +:+ "]"
  | JObj l => "{" +:+ py_join ", " (map (fun kv => json_string kv.1 +:+ ": " +:+ json_dumps kv.2) l) +:+ "}"
  end.

(** [json.dumps(j, indent=2)]; [n] is the depth. *)
Definition newline_indent (n : nat) : string :=
  String (ascii_of_nat 10) (String.string_of_list_ascii (replicate (2 * n) (ascii_of_nat 32))).
Fixpoint json_dumps_indent (n : nat) (j : json) : string :=
  let block opening closing items :=
    match items with
    | [] => opening +:+ closing
    | _ => opening +:+ newline_indent (S n) +:+ py_join ("," +:+ newline_indent (S n)) items
           +:+ newline_indent n +:+ closing
    end in
  match j with
  | JArr l => block "[" "]" (map (json_dumps_indent (S n)) l)
  | JObj l => block "{" "}" (map (fun kv => json_string kv.1 +:+ ": " +:+ json_dumps_indent (S n) kv.2) l)
  | _ => json_dumps j
  end.

(** ** Reading *)

Abbreviation chars := (list ascii).

Definition json_space (c : ascii) : bool :=
  let n := nat_of_ascii c in Nat.eqb n 32 || Nat.eqb n 9 || Nat.eqb n 10 || Nat.eqb n 13.
Fixpoint skip_space (l : chars) : chars :=
  match l with c :: l' => if json_space c then skip_space l' else l | [] => [] end.

Definition hex_value (c : ascii) : option nat :=
  let n := nat_of_ascii c in
  if Nat.leb 48 n && Nat.leb n 57 then Some (n - 48)
  else if Nat.leb 97 n && Nat.leb n 102 then Some (n - 87)
  else if Nat.leb 65 n && Nat.leb n 70 then Some (n - 55) else None.
Definition hex4 (l : chars) : option (Z * chars) :=
  match l with
  | a :: b :: c :: d :: l' =>
      x ← hex_value a; y ← hex_value b; z ← hex_value c; w ← hex_value d;
      Some (((Z.of_nat x * 16 + Z.of_nat y) * 16 + Z.of_nat z) * 16 + Z.of_nat w, l')%Z
  | _ => None
  end.
Definition code_point (n : Z) : ascii := if (n <? 256)%Z then ascii_of_nat (Z.to_nat n) else ascii_of_nat 63.
(** The low half of a surrogate pair after a high half. *)
Definition low_surrogate (l : chars) : option chars :=
  match l with
  | b :: u :: l' =>
      if Nat.eqb (nat_of_ascii b) 92 && Nat.eqb (nat_of_ascii u) 117 then
        '(n, r) ← hex4 l'; if (56320 <=? n)%Z && (n <=? 57343)%Z then Some r else None
      else None
  | _ => None
  end.

Definition decode_error {A} (msg : string) : result A := Raise (ValueError msg).

(** The one-character escapes. *)
Definition simple_escape (c : ascii) : option ascii :=
  let n := nat_of_ascii c in
  if Nat.eqb n 34 || Nat.eqb n 92 || Nat.eqb n 47 then Some c
  else if Nat.eqb n 98 then Some (ascii_of_nat 8) else if Nat.eqb n 102 then Some (ascii_of_nat 12)
  else if Nat.eqb n 110 then Some (ascii_of_nat 10) else if Nat.eqb n 114 then Some (ascii_of_nat 13)
  else if Nat.eqb n 116 then Some (ascii_of_nat 9) else None.

(** A string after its opening quote; [acc] holds what was read, reversed. *)
Fixpoint scan_string (fuel : nat) (l : chars) (acc : chars) : result (string * chars) :=
  match fuel, l with
  | S fuel, c :: l' =>
      let n := nat_of_ascii c in
      if Nat.eqb n 34 then Ok (String.string_of_list_ascii (rev acc), l')
      else if Nat.eqb n 92 then
        match l' with
        | [] => decode_error "Unterminated string starting at"
        | e :: l'' =>
            if Nat.eqb (nat_of_ascii e) 117 then
              match hex4 l'' with
              | Some (n, r) =>
                  match (if (55296 <=? n)%Z && (n <=? 56319)%Z then low_surrogate r else None) with
                  | Some r' => scan_string fuel r' (ascii_of_nat 63 :: acc)
                  | None => scan_string fuel r (code_point n :: acc)
                  end
              | None => decode_error "Invalid \uXXXX escape"
              end
            else match simple_escape e with
                 | Some x => scan_string fuel l'' (x :: acc)
                 | None => decode_error "Invalid \escape"
                 end
        end
      else if Nat.ltb n 32 then decode_error "Invalid control character at"
      else scan_string fuel l' (c :: acc)
  | _, _ => decode_error "Unterminated string starting at"
  end.

Fixpoint span_digits (l : chars) : chars * chars :=
  match l with
  | c :: l' => if py_isdigit c then let '(d, r) := span_digits l' in (c :: d, r) else ([], l)
  | [] => ([], [])
  end.
(** The parts of a number: the digits before the point, no leading zero; the
    point and at least a digit; [e], a sign and at least a digit. *)
Definition scan_int (l : chars) : option (chars * chars) :=
  match l with
  | c :: l' =>
      if Nat.eqb (nat_of_ascii c) 48 then Some ([c], l')
      else if py_isdigit c then let '(d, r) := span_digits l' in Some (c :: d, r)
      else None
  | [] => None
  end.
Definition scan_fraction (l : chars) : chars * chars :=
  match l with
  | c :: l' =>
      if Nat.eqb (nat_of_ascii c) 46 then
        match span_digits l' with ([], _) => ([], l) | (d, r) => (c :: d, r) end
      else ([], l)
  | [] => ([], [])
  end.
Definition scan_power (l : chars) : chars * chars :=
  match l with
  | c :: l' =>
      if Nat.eqb (nat_of_ascii c) 101 || Nat.eqb (nat_of_ascii c) 69 then
        let '(sg, l'') := match l' with
                          | s :: r => if Nat.eqb (nat_of_ascii s) 43 || Nat.eqb (nat_of_ascii s) 45 then ([s], r) else ([], l')
                          | [] => ([], [])
                          end in
        match span_digits l'' with ([], _) => ([], l) | (d, r) => (c :: sg ++ d, r) end
      else ([], l)
  | [] => ([], [])
  end.
Definition digits_value (d : chars) : Z :=
  fold_left (fun a c => 10 * a + (Z.of_nat (nat_of_ascii c) - 48))%Z d 0%Z.

Definition json_number (l : chars) : option (json * chars) :=
  let '(neg, l1) := match l with
                    | c :: l' => if Nat.eqb (nat_of_ascii c) 45 then (true, l') else (false, l)
                    | [] => (false, [])
                    end in
  '(i, l2) ← scan_int l1;
  let '(f, l3) := scan_fraction l2 in
  let '(e, l4) := scan_power l3 in
  match f ++ e with
  | [] => Some (JInt (if neg : bool then - digits_value i else digits_value i)%Z, l4)
  | _ =>
      let text := String.string_of_list_ascii ((if neg then [ascii_of_nat 45] else []) ++ i ++ f ++ e) in
      Some (JFloat (float_repr (lit text)), l4)
  end.

Definition keyword (word : string) (l : chars) : option chars :=
  (fix go w l := match w, l with
                 | EmptyString, _ => Some l
                 | String c w', d :: l' => if Ascii.eqb c d then go w' l' else None
                 | _, [] => None
                 end) word l.
Definition json_literal (l : chars) : option (json * chars) :=
  let try w j := r ← keyword w l; Some (j, r) in
  match try "null" JNull, try "true" (JBool true), try "false" (JBool false) with
  | Some x, _, _ | _, Some x, _ | _, _, Some x => Some x
  | None, None, None =>
      match try "NaN" (JFloat "nan"), try "Infinity" (JFloat "inf"), try "-Infinity" (JFloat "-inf") with
      | Some x, _, _ | _, Some x, _ | _, _, Some x => Some x
      | None, None, None => None
      end
  end.

(** One value at the head of the text; the members of an object and the items
    of an array up to the closing bracket.  Each call below it reads at least a
    character: [scan_value_fuel] shows the fuel of [json_loads] is enough. *)
Fixpoint scan_value (fuel : nat) (l : chars) : result (json * chars) :=
  match fuel, l with
  | S fuel, c :: l' =>
      let n := nat_of_ascii c in
      if Nat.eqb n 34 then '(s, r) ← scan_string (S (length l')) l' []; Ok (JStr s, r)
      else if Nat.eqb n 123 then
        match skip_space l' with
        | d :: r => if Nat.eqb (nat_of_ascii d) 125 then Ok (JObj [], r)
                    else '(o, r') ← scan_members fuel (d :: r) []; Ok (JObj o, r')
        | [] => decode_error "Expecting property name enclosed in double quotes"
        end
      else if Nat.eqb n 91 then
        match skip_space l' with
        | d :: r => if Nat.eqb (nat_of_ascii d) 93 then Ok (JArr [], r)
                    else '(a, r') ← scan_items fuel (d :: r) []; Ok (JArr a, r')
        | [] => decode_error "Expecting value"
        end
      else match json_literal l, json_number l with
           | Some x, _ | None, Some x => Ok x
           | None, None => decode_error "Expecting value"
           end
  | _, _ => decode_error "Expecting value"
  end
with scan_members (fuel : nat) (l : chars) (acc : Obj) : result (Obj * chars) :=
  match fuel, l with
  | S fuel, c :: l' =>
      if Nat.eqb (nat_of_ascii c) 34 then
        '(k, r) ← scan_string (S (length l')) l' [];
        match skip_space r with
        | d :: r1 =>
            if Nat.eqb (nat_of_ascii d) 58 then
              '(v, r2) ← scan_value fuel (skip_space r1);
              match skip_space r2 with
              | e :: r3 =>
                  if Nat.eqb (nat_of_ascii e) 125 then Ok (dict_set k v acc, r3)
                  else if Nat.eqb (nat_of_ascii e) 44 then scan_members fuel (skip_space r3) (dict_set k v acc)
                  else decode_error "Expecting ',' delimiter"
              | [] => decode_error "Expecting ',' delimiter"
              end
            else decode_error "Expecting ':' delimiter"
        | [] => decode_error "Expecting ':' delimiter"
        end
      else decode_error "Expecting property name enclosed in double quotes"
  | _, _ => decode_error "Expecting property name enclosed in double quotes"
  end
with scan_items (fuel : nat) (l : chars) (acc : list json) : result (list json * chars) :=
  match fuel with
  | S fuel =>
      '(v, r) ← scan_value fuel l;
      match skip_space r with
      | e :: r1 =>
          if Nat.eqb (nat_of_ascii e) 93 then Ok (acc ++ [v], r1)
          else if Nat.eqb (nat_of_ascii e) 44 then scan_items fuel (skip_space r1) (acc ++ [v])
          else decode_error "Expecting ',' delimiter"
      | [] => decode_error "Expecting ',' delimiter"
      end
  | O => decode_error "Expecting value"
  end.

(** [json.loads(s)] *)
Definition json_loads (s : string) : result json :=
  let l := String.list_ascii_of_string s in
  '(j, r) ← scan_value (S (S (2 * length l))) (skip_space l);
  match skip_space r with [] => Ok j | _ => decode_error "Extra data" end.

Example loads_nested :
  json_loads (json_dumps (JObj [("a", JArr [JInt (-12); JBool true; JFloat "0.1"]); ("b", JObj []); ("c", JStr "x\n")])) =
  Ok (JObj [("a", JArr [JInt (-12); JBool true; JFloat "0.1"]); ("b", JObj []); ("c", JStr "x\n")]).
Proof. vm_compute. reflexivity. Qed.
Example loads_errors :
  map json_loads ["[1,]"; "[1 2]"; "1 2"; ""; "01"; "{,}"; "1."; "-"; " nul"] =
  map decode_error ["Expecting value"; "Expecting ',' delimiter"; "Extra data"; "Expecting value"; "Extra data";
    "Expecting property name enclosed in double quotes"; "Extra data"; "Expecting value"; "Expecting value"].
Proof. vm_compute. reflexivity. Qed.
Example loads_float : json_loads "[1e3, -0.50, 0]" = Ok (JArr [JFloat "1000.0"; JFloat "-0.5"; JInt 0]).
Proof. vm_compute. reflexivity. Qed.
Example dumps_indent :
  json_dumps_indent 0 (JObj [("a", JArr [JInt 1; JObj []])]) =
  py_join (String (ascii_of_nat 10) "") ["{"; "  " +:+ json_string "a" +:+ ": ["; "    1,"; "    {}"; "  ]"; "}"].
Proof. vm_compute. reflexivity. Qed.

(** ** The fuel of the scanner is enough *)

Lemma skip_space_length l : length (skip_space l) <= length l.
Proof. induction l as [|c l IH]; simpl; [lia|]. destruct (json_space c); simpl; lia. Qed.
Lemma hex4_length l n r : hex4 l = Some (n, r) -> length r < length l.
Proof.
  unfold hex4. destruct l as [|a [|b [|c [|d l]]]]; try done. simpl.
  destruct (hex_value a), (hex_value b), (hex_value c), (hex_value d); simpl; try done.
  intros [= _ ->]. lia.
Qed.
Lemma low_surrogate_length l r : low_surrogate l = Some r -> length r < length l.
Proof.
  unfold low_surrogate. destruct l as [|b [|u l]]; try done. case_match; [|done].
  destruct (hex4 l) as [[n r']|] eqn:E; simpl; [|done]. apply hex4_length in E.
  case_match; [|done]. intros [= ->]. simpl. lia.
Qed.
Lemma scan_string_length fuel l acc s r : scan_string fuel l acc = Ok (s, r) -> length r < length l.
Proof.
  revert l acc. induction fuel as [|fuel IH]; intros l acc; [done|].
  destruct l as [|c l]; [done|]. cbn [scan_string].
  destruct (Nat.eqb (nat_of_ascii c) 34); [intros [= _ ->]; simpl; lia|].
  destruct (Nat.eqb (nat_of_ascii c) 92).
  - destruct l as [|e l]; [done|].
    destruct (Nat.eqb (nat_of_ascii e) 117).
    + destruct (hex4 l) as [[n r']|] eqn:E; [|done]. apply hex4_length in E.
      destruct (if _ : bool then _ else _) as [r2|] eqn:E2.
      * intros H%IH. destruct (_ && _); [|done]. apply low_surrogate_length in E2. simpl. lia.
      * intros H%IH. simpl. lia.
    + destruct (simple_escape e); [|done]. intros H%IH. simpl. lia.
  - destruct (Nat.ltb (nat_of_ascii c) 32); [done|]. intros H%IH. simpl. lia.
Qed.
Lemma span_digits_length l d r : span_digits l = (d, r) -> length l = length d + length r.
Proof.
  revert d. induction l as [|c l IH]; simpl; intros d; [by intros [= <- <-]|].
  destruct (py_isdigit c); [|by intros [= <- <-]].
  destruct (span_digits l) as [d' r']. intros [= <- ->]. simpl. by rewrite (IH d').
Qed.
Lemma scan_int_length l i r : scan_int l = Some (i, r) -> length r < length l.
Proof.
  unfold scan_int. destruct l as [|c l]; [done|].
  destruct (Nat.eqb (nat_of_ascii c) 48); [intros [= _ ->]; simpl; lia|].
  destruct (py_isdigit c); [|done]. destruct (span_digits l) as [d r'] eqn:E.
  intros [= _ ->]. apply span_digits_length in E. simpl. lia.
Qed.
Lemma scan_fraction_length l f r : scan_fraction l = (f, r) -> length r <= length l.
Proof.
  unfold scan_fraction. destruct l as [|c l]; [by intros [= _ <-]|].
  case_match; [|by intros [= _ <-]].
  destruct (span_digits l) as [[|d0 d] r'] eqn:E; [by intros [= _ <-]|].
  intros [= _ ->]. apply span_digits_length in E. simpl in *. lia.
Qed.
Lemma scan_power_length l e r : scan_power l = (e, r) -> length r <= length l.
Proof.
  unfold scan_power. destruct l as [|c l]; [by intros [= _ <-]|].
  case_match; [|by intros [= _ <-]].
  destruct l as [|sg l]; [by intros [= _ <-]|].
  destruct (Nat.eqb (nat_of_ascii sg) 43 || _).
  - destruct (span_digits l) as [[|d0 d] r'] eqn:E; [by intros [= _ <-]|].
    intros [= _ ->]. apply span_digits_length in E. simpl in *. lia.
  - destruct (span_digits (sg :: l)) as [[|d0 d] r'] eqn:E; [by intros [= _ <-]|].
    intros [= _ ->]. apply span_digits_length in E. simpl in *. lia.
Qed.
Lemma json_number_length l j r : json_number l = Some (j, r) -> length r < length l.
Proof.
  unfold json_number.
  assert (forall b l1, length l1 <= length l ->
    ('(i, l2) ← scan_int l1; let '(f, l3) := scan_fraction l2 in let '(e, l4) := scan_power l3 in
     match f ++ e with
     | [] => Some (JInt (if b : bool then - digits_value i else digits_value i)%Z, l4)
     | _ => Some (JFloat (float_repr (lit (String.string_of_list_ascii
              ((if b then [ascii_of_nat 45] else []) ++ i ++ f ++ e)))), l4)
     end) = Some (j, r) -> length r < length l) as Hgo.
  { intros b l1 Hl. destruct (scan_int l1) as [[i l2]|] eqn:E; simpl; [|done].
    apply scan_int_length in E.
    destruct (scan_fraction l2) as [f l3] eqn:E2. apply scan_fraction_length in E2.
    destruct (scan_power l3) as [e l4] eqn:E3. apply scan_power_length in E3.
    destruct (f ++ e); intros [= _ ->]; lia. }
  destruct l as [|c l]; [by apply (Hgo false)|].
  destruct (Nat.eqb (nat_of_ascii c) 45); [apply (Hgo true); simpl; lia|by apply (Hgo false)].
Qed.
Lemma keyword_length w l r : keyword w l = Some r -> length l = String.length w + length r.
Proof.
  revert l. induction w as [|c w IH]; intros l; simpl; [by intros [= ->]|].
  destruct l as [|d l]; [done|]. destruct (Ascii.eqb c d); [|done].
  intros H%IH. simpl. lia.
Qed.
Lemma json_literal_length l j r : json_literal l = Some (j, r) -> length r < length l.
Proof.
  unfold json_literal.
  repeat match goal with
  | |- context [keyword ?w l] =>
      let E := fresh in destruct (keyword w l) eqn:E; [apply keyword_length in E; simpl in E|]
  end; simpl; intros; simplify_eq; lia.
Qed.

Lemma result_bind_Ok {A B} (x : result A) (f : A -> result B) b :
  x ≫= f = Ok b <-> exists a, x = Ok a /\ f a = Ok b.
Proof. destruct x; simpl; naive_solver. Qed.

(** What is scanned is shorter than what was there. *)
Lemma scan_shrinks fuel :
  (forall l j r, scan_value fuel l = Ok (j, r) -> length r < length l)
  /\ (forall l acc o r, scan_members fuel l acc = Ok (o, r) -> length r < length l)
  /\ (forall l acc a r, scan_items fuel l acc = Ok (a, r) -> length r < length l).
Proof.
  induction fuel as [|fuel (IHv & IHm & IHi)]; [done|]. repeat split.
  - intros [|c l] j r; [done|]. cbn [scan_value].
    destruct (Nat.eqb (nat_of_ascii c) 34).
    { intros ([s r'] & Hs & [= <- <-])%result_bind_Ok. apply scan_string_length in Hs. simpl. lia. }
    pose proof (skip_space_length l) as Hl.
    destruct (Nat.eqb (nat_of_ascii c) 123).
    { destruct (skip_space l) as [|d r0]; [done|]. simpl in Hl. case_match; [intros [= _ <-]; simpl; lia|].
      intros ([o r'] & Hs & [= <- <-])%result_bind_Ok. apply IHm in Hs. simpl in *. lia. }
    destruct (Nat.eqb (nat_of_ascii c) 91).
    { destruct (skip_space l) as [|d r0]; [done|]. simpl in Hl. case_match; [intros [= _ <-]; simpl; lia|].
      intros ([o r'] & Hs & [= <- <-])%result_bind_Ok. apply IHi in Hs. simpl in *. lia. }
    destruct (json_literal (c :: l)) as [[j' r']|] eqn:E.
    { intros [= -> ->]. by apply json_literal_length in E. }
    destruct (json_number (c :: l)) as [[j' r']|] eqn:E2; [|done].
    intros [= -> ->]. by apply json_number_length in E2.
  - intros [|c l] acc o r; [done|]. cbn [scan_members].
    destruct (Nat.eqb (nat_of_ascii c) 34); [|done].
    intros ([k r0] & Hk & H)%result_bind_Ok. apply scan_string_length in Hk.
    pose proof (skip_space_length r0) as H0. destruct (skip_space r0) as [|d r1]; [done|].
    destruct (Nat.eqb (nat_of_ascii d) 58); [|done].
    apply result_bind_Ok in H as ([v r2] & Hv & H). apply IHv in Hv.
    pose proof (skip_space_length r1) as H1. pose proof (skip_space_length r2) as H2.
    destruct (skip_space r2) as [|e r3]; [done|]. simpl in *.
    destruct (Nat.eqb (nat_of_ascii e) 125); [injection H as _ <-; lia|].
    destruct (Nat.eqb (nat_of_ascii e) 44); [|done].
    apply IHm in H. pose proof (skip_space_length r3). lia.
  - intros l acc a r. cbn [scan_items].
    intros ([v r0] & Hv & H)%result_bind_Ok. apply IHv in Hv.
    pose proof (skip_space_length r0) as H0. destruct (skip_space r0) as [|e r1]; [done|]. simpl in *.
    destruct (Nat.eqb (nat_of_ascii e) 93); [injection H as _ <-; lia|].
    destruct (Nat.eqb (nat_of_ascii e) 44); [|done].
    apply IHi in H. pose proof (skip_space_length r1). lia.
Qed.

Lemma result_bind_ext {A B} (x : result A) (f g : A -> result B) :
  (forall a, x = Ok a -> f a = g a) -> x ≫= f = x ≫= g.
Proof. destruct x; simpl; auto. Qed.

(** Twice the length of the text, and two, is enough fuel. *)
Lemma scan_fuel n : forall l f1 f2, length l <= n ->
  (2 * n + 1 <= f1 -> 2 * n + 1 <= f2 -> scan_value f1 l = scan_value f2 l)
  /\ (forall acc, 2 * n + 1 <= f1 -> 2 * n + 1 <= f2 -> scan_members f1 l acc = scan_members f2 l acc)
  /\ (forall acc, 2 * n + 2 <= f1 -> 2 * n + 2 <= f2 -> scan_items f1 l acc = scan_items f2 l acc).
Proof.
  induction n as [n IH] using (well_founded_induction lt_wf). intros l f1 f2 Hn.
  assert (forall f1 f2, (2 * n + 1 <= f1 -> 2 * n + 1 <= f2 -> scan_value f1 l = scan_value f2 l)
    /\ (forall acc, 2 * n + 1 <= f1 -> 2 * n + 1 <= f2 -> scan_members f1 l acc = scan_members f2 l acc)) as Hvm.
  { clear f1 f2. intros f1 f2. destruct f1 as [|f1], f2 as [|f2]; try (split; intros; lia).
    destruct l as [|c l]; [done|]. simpl in Hn.
    assert (forall l' : chars, length l' <= length l ->
      (2 * n + 1 <= S f1 -> 2 * n + 1 <= S f2 -> scan_value f1 l' = scan_value f2 l')
      /\ (forall acc, 2 * n + 1 <= S f1 -> 2 * n + 1 <= S f2 -> scan_members f1 l' acc = scan_members f2 l' acc)
      /\ (forall acc, 2 * n + 1 <= S f1 -> 2 * n + 1 <= S f2 -> scan_items f1 l' acc = scan_items f2 l' acc)) as Hrec.
    { intros l' Hl'. destruct (IH (length l) ltac:(lia) l' f1 f2 Hl') as (A & B & C).
      repeat split; intros; [apply A|apply B|apply C]; lia. }
    split; intros; cbn [scan_value scan_members].
    - pose proof (skip_space_length l) as Hl.
      destruct (Nat.eqb (nat_of_ascii c) 34); [done|].
      destruct (Nat.eqb (nat_of_ascii c) 123).
      { destruct (skip_space l) as [|d r]; [done|]. case_match; [done|].
        by rewrite (proj1 (proj2 (Hrec (d :: r) Hl))). }
      destruct (Nat.eqb (nat_of_ascii c) 91); [|done].
      destruct (skip_space l) as [|d r]; [done|]. case_match; [done|].
      by rewrite (proj2 (proj2 (Hrec (d :: r) Hl))).
    - destruct (Nat.eqb (nat_of_ascii c) 34); [|done].
      apply result_bind_ext. intros [k r] Hk. apply scan_string_length in Hk.
      pose proof (skip_space_length r). destruct (skip_space r) as [|d r1]; [done|]. simpl in *.
      case_match; [|done]. pose proof (skip_space_length r1).
      rewrite (proj1 (Hrec (skip_space r1) ltac:(lia))) by done.
      apply result_bind_ext. intros [v r2] Hv%(proj1 (scan_shrinks f2)).
      pose proof (skip_space_length r2). destruct (skip_space r2) as [|e r3]; [done|]. simpl in *.
      destruct (Nat.eqb (nat_of_ascii e) 125); [done|]. destruct (Nat.eqb (nat_of_ascii e) 44); [|done].
      pose proof (skip_space_length r3).
      by rewrite (proj1 (proj2 (Hrec (skip_space r3) ltac:(lia)))). }
  split; [apply Hvm|split; [apply Hvm|]]. intros acc H1 H2.
  destruct f1 as [|f1], f2 as [|f2]; try lia. cbn [scan_items].
  rewrite (proj1 (Hvm f1 f2)) by lia.
  apply result_bind_ext. intros [v r] Hr%(proj1 (scan_shrinks f2)).
  pose proof (skip_space_length r). destruct (skip_space r) as [|e r1]; [done|]. simpl in *.
  destruct (Nat.eqb (nat_of_ascii e) 93); [done|]. destruct (Nat.eqb (nat_of_ascii e) 44); [|done].
  pose proof (skip_space_length r1).
  apply (IH (length (skip_space r1))); lia.
Qed.
Lemma scan_value_fuel l f : 2 * length l + 1 <= f -> scan_value f l = scan_value (2 * length l + 1) l.
Proof. intros. apply (scan_fuel (length l)); lia. Qed.

(** ** The round trip *)

Abbreviation los := String.list_ascii_of_string.

Lemma los_app s t : los (s +:+ t) = los s ++ los t.
Proof. induction s as [|c s IH]; simpl; [done|]. by rewrite IH. Qed.
Lemma los_of_list l : los (String.string_of_list_ascii l) = l.
Proof. apply String.list_ascii_of_string_of_list_ascii. Qed.

Section json_induction.
Context (P : json -> Prop) (Hnull : P JNull) (Hbool : forall b, P (JBool b)) (Hint : forall n, P (JInt n))
  (Hfloat : forall r, P (JFloat r)) (Hstr : forall s, P (JStr s)) (Harr : forall l, Forall P l -> P (JArr l))
  (Hobj : forall l, Forall (fun kv : string * json => P kv.2) l -> P (JObj l)).
Fixpoint json_nested_ind (j : json) : P j :=
  match j with
  | JNull => Hnull | JBool b => Hbool b | JInt n => Hint n | JFloat r => Hfloat r | JStr s => Hstr s
  | JArr l => Harr l ((fix go l : Forall P l :=
                         match l with [] => Forall_nil_2 _ | x :: l' => Forall_cons_2 _ _ _ (json_nested_ind x) (go l') end) l)
  | JObj l => Hobj l ((fix go (l : Obj) : Forall (fun kv : string * json => P kv.2) l :=
                         match l with [] => Forall_nil_2 _ | kv :: l' => Forall_cons_2 (fun kv : string * json => P kv.2) kv l' (json_nested_ind kv.2) (go l') end) l)
  end.
End json_induction.

Lemma str_app_nil_r s : s +:+ "" = s.
Proof. induction s as [|c s IH]; [done|]. exact (f_equal (String c) IH). Qed.
Lemma str_app_assoc s t u : s +:+ (t +:+ u) = (s +:+ t) +:+ u.
Proof. induction s as [|c s IH]; [done|]. exact (f_equal (String c) IH). Qed.
Lemma sol_snoc_app l c s :
  String.string_of_list_ascii (l ++ [c]) +:+ s = String.string_of_list_ascii l +:+ String c s.
Proof. induction l as [|d l IH]; [done|]. exact (f_equal (String d) IH). Qed.

(** What may follow a value: nothing that would prolong a number. *)
Definition stops (l : chars) : Prop :=
  match l with
  | [] => True
  | c :: _ => py_isdigit c = false /\ nat_of_ascii c <> 46 /\ nat_of_ascii c <> 101 /\ nat_of_ascii c <> 69
  end.

Lemma scan_string_escape f c l acc : scan_string (S f) (los (escape_ascii c) ++ l) acc = scan_string f l (c :: acc).
Proof. destruct c as [[] [] [] [] [] [] [] []]; reflexivity. Qed.
Lemma scan_string_body s f l acc : String.length s < f ->
  scan_string f (los (escape_body s) ++ dq :: l) acc = Ok (String.string_of_list_ascii (rev acc) +:+ s, l).
Proof.
  revert f acc. induction s as [|c s IH]; intros f acc Hf; (destruct f as [|f]; [simpl in Hf; lia|]); simpl in Hf.
  - simpl. by rewrite str_app_nil_r.
  - cbn [escape_body]. rewrite los_app, <- app_assoc, scan_string_escape, IH by lia.
    cbn [rev]. by rewrite sol_snoc_app.
Qed.
Lemma escape_body_length s : String.length s <= length (los (escape_body s)).
Proof.
  induction s as [|c s IH]; simpl; [lia|]. rewrite los_app, length_app.
  assert (1 <= length (los (escape_ascii c))) by (destruct c as [[] [] [] [] [] [] [] []]; cbv; lia). lia.
Qed.
(** A written string is read back. *)
Lemma scan_json_string s l :
  los (json_string s) ++ l = dq :: los (escape_body s) ++ dq :: l
  /\ scan_string (S (length (los (escape_body s) ++ dq :: l))) (los (escape_body s) ++ dq :: l) [] = Ok (s, l).
Proof.
  split.
  - unfold json_string. simpl. rewrite los_app, <- app_assoc. done.
  - rewrite scan_string_body; [done|]. rewrite length_app. pose proof (escape_body_length s). lia.
Qed.

(** Decimal digits: no leading zero, and their value. *)
Lemma pretty_N_digits (n : N) s : exists d, los (pretty_N_go n s) = d ++ los s
  /\ Forall (fun c => py_isdigit c = true) d
  /\ (forall a, fold_left (fun a c => 10 * a + (Z.of_nat (nat_of_ascii c) - 48))%Z d a = a * 10 ^ Z.of_nat (length d) + Z.of_N n)%Z
  /\ ((0 < n)%N -> exists c d', d = c :: d' /\ nat_of_ascii c <> 48).
Proof.
  revert s. induction (N.lt_wf_0 n) as [n _ IH]. intros s.
  destruct (decide (n = 0)%N) as [->|Hn].
  { exists []. rewrite pretty_N_go_0. repeat split; [done|intros; simpl; lia|lia]. }
  rewrite pretty_N_go_step by lia.
  destruct (IH (n `div` 10)%N ltac:(apply N.div_lt; lia) (String (pretty_N_char (n `mod` 10)) s))
    as (d & Hd & Hdig & Hval & Hlead).
  exists (d ++ [pretty_N_char (n `mod` 10)]).
  assert (py_isdigit (pretty_N_char (n `mod` 10)) = true
          /\ Z.of_nat (nat_of_ascii (pretty_N_char (n `mod` 10))) = Z.of_N (n `mod` 10) + 48)%Z as [Hc1 Hc2].
  { assert (n `mod` 10 < 10)%N as Hlt by by apply N.mod_lt.
    revert Hlt. generalize (n `mod` 10)%N. intros [|p] Hp; [done|].
    by do 4 (try destruct p as [p|p|]). }
  repeat split.
  - rewrite Hd, <- app_assoc. done.
  - apply Forall_app. split; [done|]. by constructor.
  - intros a. rewrite fold_left_app, Hval. cbn [fold_left]. rewrite Hc2, length_app. simpl length.
    rewrite Nat2Z.inj_add, Z.pow_add_r by lia.
    pose proof (f_equal Z.of_N (N.div_mod n 10 ltac:(done))) as E. rewrite N2Z.inj_add, N2Z.inj_mul in E.
    rewrite E. change (Z.of_N 10) with 10%Z. change (10 ^ Z.of_nat 1)%Z with 10%Z. ring.
  - intros _. destruct (decide (n `div` 10 = 0)%N) as [Hz|Hz].
    + rewrite Hz, pretty_N_go_0 in Hd. simpl in Hd.
      assert (d = []) as -> by (apply (f_equal length) in Hd; rewrite length_app in Hd; simpl in Hd; destruct d; [done|simpl in Hd; lia]).
      eexists _, []. split; [done|]. apply N.div_small_iff in Hz; [|done].
      intros E. rewrite E, N.mod_small in Hc2 by done. lia.
    + destruct Hlead as (c & d' & -> & Hc); [by apply N.neq_0_lt_0|]. exists c, (d' ++ [pretty_N_char (n `mod` 10)]). done.
Qed.

Lemma span_digits_app d l : Forall (fun c => py_isdigit c = true) d -> stops l -> span_digits (d ++ l) = (d, l).
Proof.
  induction 1 as [|c d Hc Hd IH]; intros Hl; simpl.
  - destruct l as [|c l]; [done|]. simpl in *. by destruct Hl as [-> _].
  - by rewrite Hc, IH.
Qed.
Lemma scan_rest_stops l : stops l -> scan_fraction l = ([], l) /\ scan_power l = ([], l).
Proof.
  destruct l as [|c l]; [done|]. simpl. intros (_ & H1 & H2 & H3).
  apply Nat.eqb_neq in H1, H2, H3. by rewrite H1, H2, H3.
Qed.

Lemma pretty_pos_chars p : exists c d, los (pretty (Z.pos p)) = c :: d /\ py_isdigit c = true
  /\ nat_of_ascii c <> 48 /\ Forall (fun c => py_isdigit c = true) d /\ digits_value (c :: d) = Z.pos p.
Proof.
  destruct (pretty_N_digits (N.pos p) "") as (d & Hd & Hdig & Hval & Hlead).
  destruct Hlead as (c & d' & -> & Hc); [lia|]. simpl in Hd. rewrite app_nil_r in Hd.
  exists c, d'. rewrite Forall_cons in Hdig. destruct Hdig as [Hcd Hdig].
  repeat split; try done. unfold digits_value. rewrite Hval. lia.
Qed.

Lemma json_number_int n l : stops l -> json_number (los (pretty n) ++ l) = Some (JInt n, l).
Proof.
  intros Hl. destruct (scan_rest_stops l Hl) as [H1 H2].
  assert (forall p, exists c d, los (pretty (Z.pos p)) = c :: d /\ Nat.eqb (nat_of_ascii c) 45 = false
          /\ scan_int ((c :: d) ++ l) = Some (c :: d, l) /\ digits_value (c :: d) = Z.pos p) as Hpos.
  { intros p. destruct (pretty_pos_chars p) as (c & d & -> & Hc & Hnz & Hd & Hv).
    exists c, d. split; [done|]. split.
    { unfold py_isdigit in Hc. apply Nat.eqb_neq. intros E. by rewrite E in Hc. }
    split; [|done]. cbn [app]. unfold scan_int. rewrite (proj2 (Nat.eqb_neq _ _) Hnz), Hc.
    by rewrite span_digits_app. }
  unfold json_number. destruct n as [|p|p].
  - simpl. by rewrite H1, H2.
  - destruct (Hpos p) as (c & d & -> & E & Hs & Hv). simpl. rewrite E. cbn [app] in Hs. rewrite Hs. simpl.
    rewrite H1, H2. simpl. by rewrite Hv.
  - change (los (pretty (Z.neg p))) with (ascii_of_nat 45 :: los (pretty (Z.pos p))).
    destruct (Hpos p) as (c & d & -> & E & Hs & Hv). cbn [app]. change (Nat.eqb (nat_of_ascii (ascii_of_nat 45)) 45) with true.
    cbn [app] in Hs. cbn iota. rewrite Hs. simpl. rewrite H1, H2. simpl. by rewrite Hv.
Qed.

Lemma span_digits_rest l rest d r : stops rest -> span_digits l = (d, r) -> span_digits (l ++ rest) = (d, r ++ rest).
Proof.
  intros Hr. revert d. induction l as [|c l IH]; simpl; intros d.
  - intros [= <- <-]. by apply (span_digits_app []).
  - destruct (py_isdigit c); [|by intros [= <- <-]].
    destruct (span_digits l) as [d' r']. intros [= <- ->]. by rewrite (IH d').
Qed.
Lemma scan_int_rest l rest i r : stops rest -> scan_int l = Some (i, r) -> scan_int (l ++ rest) = Some (i, r ++ rest).
Proof.
  intros Hr. unfold scan_int. destruct l as [|c l]; [done|]. cbn [app].
  destruct (Nat.eqb (nat_of_ascii c) 48); [by intros [= <- ->]|].
  destruct (py_isdigit c); [|done]. destruct (span_digits l) as [d r'] eqn:E.
  intros [= <- ->]. by rewrite (span_digits_rest l rest d r).
Qed.
Lemma scan_fraction_rest l rest f r : stops rest -> scan_fraction l = (f, r) -> scan_fraction (l ++ rest) = (f, r ++ rest).
Proof.
  intros Hr. destruct l as [|c l].
  - intros [= <- <-]. apply (scan_rest_stops rest Hr).
  - cbn [scan_fraction app]. destruct (Nat.eqb (nat_of_ascii c) 46); [|by intros [= <- <-]].
    destruct (span_digits l) as [d r'] eqn:E. rewrite (span_digits_rest l rest d r') by done.
    destruct d; by intros [= <- <-].
Qed.
Lemma scan_power_rest l rest e : stops rest -> scan_power l = (e, []) -> scan_power (l ++ rest) = (e, rest).
Proof.
  intros Hr. destruct l as [|c l].
  - intros [= <-]. apply (scan_rest_stops rest Hr).
  - cbn [scan_power app]. destruct (_ || _); [|done].
    destruct l as [|sg l]; [done|]. cbn [app].
    destruct (Nat.eqb (nat_of_ascii sg) 43 || _).
    + destruct (span_digits l) as [d r'] eqn:E. rewrite (span_digits_rest l rest d r') by done.
      destruct d; by intros [= <- ->].
    + change (sg :: l ++ rest) with ((sg :: l) ++ rest).
      destruct (span_digits (sg :: l)) as [d r'] eqn:E. rewrite (span_digits_rest (sg :: l) rest d r') by done.
      destruct d; by intros [= <- ->].
Qed.
Lemma json_number_rest l rest j : stops rest -> json_number l = Some (j, []) -> json_number (l ++ rest) = Some (j, rest).
Proof.
  intros Hr. unfold json_number.
  assert (forall b l1,
    ('(i, l2) ← scan_int l1; let '(f, l3) := scan_fraction l2 in let '(e, l4) := scan_power l3 in
     match f ++ e with
     | [] => Some (JInt (if b : bool then - digits_value i else digits_value i)%Z, l4)
     | _ => Some (JFloat (float_repr (lit (String.string_of_list_ascii
              ((if b then [ascii_of_nat 45] else []) ++ i ++ f ++ e)))), l4)
     end) = Some (j, []) ->
    ('(i, l2) ← scan_int (l1 ++ rest); let '(f, l3) := scan_fraction l2 in let '(e, l4) := scan_power l3 in
     match f ++ e with
     | [] => Some (JInt (if b : bool then - digits_value i else digits_value i)%Z, l4)
     | _ => Some (JFloat (float_repr (lit (String.string_of_list_ascii
              ((if b then [ascii_of_nat 45] else []) ++ i ++ f ++ e)))), l4)
     end) = Some (j, rest)) as Hgo.
  { intros b l1. destruct (scan_int l1) as [[i l2]|] eqn:E; simpl; [|done].
    rewrite (scan_int_rest l1 rest i l2) by done. simpl.
    destruct (scan_fraction l2) as [f l3] eqn:E2. rewrite (scan_fraction_rest l2 rest f l3) by done.
    destruct (scan_power l3) as [e l4] eqn:E3. intros H.
    assert (l4 = []) as -> by (destruct (f ++ e); congruence).
    rewrite (scan_power_rest l3 rest e) by done. destruct (f ++ e); congruence. }
  destruct l as [|c l]; [done|]. cbn [app].
  destruct (Nat.eqb (nat_of_ascii c) 45); [apply (Hgo true)|apply (Hgo false (c :: l))].
Qed.

Lemma keyword_text w l r : keyword w l = Some r -> l = los w ++ r.
Proof.
  revert l. induction w as [|c w IH]; intros l; simpl; [by intros [= ->]|].
  destruct l as [|d l]; [done|]. destruct (Ascii.eqb_spec c d) as [->|]; [|done].
  intros ->%IH. done.
Qed.
Lemma json_number_not_literal l x : json_number l = Some x -> json_literal l = None.
Proof.
  intros Hn. unfold json_literal.
  repeat match goal with
  | |- context [keyword ?w l] =>
      let E := fresh in destruct (keyword w l) eqn:E; [apply keyword_text in E; subst l; done|]
  end. done.
Qed.

(** The first character of a number, or of a literal, opens no other value. *)
Lemma json_number_head c l x : json_number (c :: l) = Some x ->
  Forall (fun n => Nat.eqb (nat_of_ascii c) n = false) [34; 123; 91; 93; 32; 9; 10; 13].
Proof.
  intros Hn. rewrite Forall_forall. intros n Hin. apply Nat.eqb_neq. intros E.
  assert (c = ascii_of_nat n) as -> by (by rewrite <- E, ascii_nat_embedding).
  repeat (apply elem_of_cons in Hin as [->|Hin]; [done|]). by apply not_elem_of_nil in Hin.
Qed.
Lemma scan_value_number f c l x : json_number (c :: l) = Some x -> scan_value (S f) (c :: l) = Ok x.
Proof.
  intros Hn. pose proof (json_number_head _ _ _ Hn) as Hh. rewrite !Forall_cons in Hh.
  destruct Hh as (H1 & H2 & H3 & _). cbn [scan_value].
  by rewrite H1, H2, H3, (json_number_not_literal _ _ Hn), Hn.
Qed.

(** Values that read back: the texts of floats are canonical, the keys of an
    object distinct. *)
Fixpoint json_wf (j : json) : bool :=
  match j with
  | JFloat r =>
      str_in r ["nan"; "inf"; "-inf"]
      || match json_number (los r) with Some (JFloat r', []) => String.eqb r r' | _ => false end
  | JArr l => forallb json_wf l
  | JObj l => bool_decide (NoDup (dict_keys l)) && forallb (fun kv => json_wf kv.2) l
  | _ => true
  end.

Lemma json_float_text r : json_wf (JFloat r) = true ->
  (r = "nan" \/ r = "inf" \/ r = "-inf") \/ (json_float r = r /\ json_number (los r) = Some (JFloat r, [])).
Proof.
  simpl. rewrite orb_true_iff. intros [H|H].
  - left. apply str_in_spec in H. rewrite !elem_of_cons in H. by destruct H as [->|[->|[->|[]%not_elem_of_nil]]]; auto.
  - right. destruct (json_number (los r)) as [[[] [|]]|] eqn:E; try done.
    apply String.eqb_eq in H. subst repr. split; [|done].
    unfold json_float. by repeat (case_match; [match goal with H : String.eqb r _ = true |- _ => apply String.eqb_eq in H; subst r; done end|]).
Qed.

(** What is written starts with a character that is no space and no bracket's end. *)
Lemma dumps_head j : json_wf j = true -> exists c l, los (json_dumps j) = c :: l
  /\ json_space c = false /\ Nat.eqb (nat_of_ascii c) 93 = false.
Proof.
  assert (forall c, Forall (fun n => Nat.eqb (nat_of_ascii c) n = false) [34; 123; 91; 93; 32; 9; 10; 13] ->
    json_space c = false /\ Nat.eqb (nat_of_ascii c) 93 = false) as Hc.
  { intros c H. rewrite !Forall_cons in H. unfold json_space. destruct_and!. split; [|done].
    by repeat (apply orb_false_iff; split). }
  destruct j as [|b|n|r|s|l|l]; intros Hwf; try (eexists _, _; split; [reflexivity|done]).
  - destruct b; eexists _, _; (split; [reflexivity|done]).
  - pose proof (json_number_int n [] I) as Hn. rewrite app_nil_r in Hn.
    change (json_dumps (JInt n)) with (pretty n).
    destruct (los (pretty n)) as [|c l] eqn:E; [done|]. exists c, l. split; [done|].
    apply Hc. by eapply json_number_head.
  - change (json_dumps (JFloat r)) with (json_float r).
    destruct (json_float_text r Hwf) as [[->|[->| ->]]|[-> Hn]]; try (eexists _, _; split; [reflexivity|done]).
    destruct (los r) as [|c l] eqn:E; [done|]. exists c, l. split; [done|].
    apply Hc. by eapply json_number_head.
Qed.
Lemma skip_space_dumps j rest : json_wf j = true -> skip_space (los (json_dumps j) ++ rest) = los (json_dumps j) ++ rest.
Proof. intros (c & l & -> & Hc & _)%dumps_head. simpl. by rewrite Hc. Qed.

Lemma join_cons sep w ws : ws <> [] -> py_join sep (w :: ws) = w +:+ sep +:+ py_join sep ws.
Proof. by destruct ws. Qed.

(** Evaluates the tests on known characters. *)
Ltac eval_chars :=
  repeat match goal with
  | |- context [json_space ?c] =>
      let v := eval vm_compute in (json_space c) in
      lazymatch v with true => idtac | false => idtac end; change (json_space c) with v
  | |- context [Nat.eqb (nat_of_ascii ?c) ?n] =>
      let v := eval vm_compute in (Nat.eqb (nat_of_ascii c) n) in
      lazymatch v with true => idtac | false => idtac end; change (Nat.eqb (nat_of_ascii c) n) with v
  | |- _ => progress cbn [skip_space mbind result_bind]
  | |- _ => progress cbn iota
  end.

(** A value reads back what was written of it, whatever text may follow. *)
Definition reads_back (j : json) : Prop := forall f rest, stops rest ->
  2 * length (los (json_dumps j) ++ rest) + 1 <= f -> scan_value f (los (json_dumps j) ++ rest) = Ok (j, rest).

Lemma scan_items_dumps (l : list json) : l <> [] -> forallb json_wf l = true -> Forall reads_back l ->
  forall f rest acc, 2 * length (los (py_join ", " (map json_dumps l)) ++ ascii_of_nat 93 :: rest) + 2 <= f ->
  scan_items f (los (py_join ", " (map json_dumps l)) ++ ascii_of_nat 93 :: rest) acc = Ok (acc ++ l, rest).
Proof.
  induction l as [|x l IH]; [done|]. intros _ Hwf Hall f rest acc Hf.
  simpl in Hwf. apply andb_prop in Hwf as [Hx Hl]. rewrite Forall_cons in Hall. destruct Hall as [Hrx Hrl].
  destruct f as [|f]; [lia|]. destruct l as [|y l].
  - change (py_join ", " (map json_dumps [x])) with (json_dumps x) in *. cbn [scan_items].
    rewrite Hrx; [done|by repeat split|lia].
  - cbn [map] in *. rewrite join_cons in * by done. rewrite !los_app, <- !app_assoc in *. cbn [scan_items].
    rewrite Hrx; [|by repeat split|lia].
    change (los ", " ++ ?t) with (ascii_of_nat 44 :: ascii_of_nat 32 :: t) in *.
    cbn [mbind result_bind skip_space]. eval_chars.
    change (json_dumps y :: map json_dumps l) with (map json_dumps (y :: l)) in *.
    assert (forall t, skip_space (los (py_join ", " (map json_dumps (y :: l))) ++ t) = los (py_join ", " (map json_dumps (y :: l))) ++ t) as Hskip.
    { intros t. simpl in Hl. apply andb_prop in Hl as [Hy _]. destruct l as [|z l]; [by apply skip_space_dumps|].
      cbn [map]. rewrite join_cons, los_app, <- app_assoc by done. by apply skip_space_dumps. }
    rewrite Hskip. rewrite IH; [by rewrite <- app_assoc|done..|].
    do 2 (rewrite ?length_app in *; cbn [length] in * ). lia.
Qed.

Definition member_text (kv : string * json) : string := json_string kv.1 +:+ ": " +:+ json_dumps kv.2.
Lemma member_chars kv t : los (member_text kv) ++ t =
  los (json_string kv.1) ++ ascii_of_nat 58 :: ascii_of_nat 32 :: los (json_dumps kv.2) ++ t.
Proof. unfold member_text. rewrite !los_app, <- !app_assoc. done. Qed.

(** One member up to the comma or the closing brace. *)
Lemma scan_member f kv sep rest acc : json_wf kv.2 = true -> reads_back kv.2 ->
  json_space sep = false -> stops (sep :: rest) ->
  2 * length (los (member_text kv) ++ sep :: rest) + 1 <= S f ->
  scan_members (S f) (los (member_text kv) ++ sep :: rest) acc =
  (if Nat.eqb (nat_of_ascii sep) 125 then Ok (dict_set kv.1 kv.2 acc, rest)
   else if Nat.eqb (nat_of_ascii sep) 44 then scan_members f (skip_space rest) (dict_set kv.1 kv.2 acc)
   else decode_error "Expecting ',' delimiter").
Proof.
  intros Hwf Hv Hsp Hst Hf. rewrite member_chars in *.
  destruct (scan_json_string kv.1 (ascii_of_nat 58 :: ascii_of_nat 32 :: los (json_dumps kv.2) ++ sep :: rest)) as [E Hk].
  rewrite E in *. cbn [scan_members]. eval_chars.
  rewrite Hk. cbn [mbind result_bind skip_space]. eval_chars. rewrite skip_space_dumps by done.
  rewrite Hv; [|done|]; [cbn [mbind result_bind skip_space]; by rewrite Hsp|].
  do 2 (cbn [length] in *; rewrite ?length_app in * ). cbn [length] in *. lia.
Qed.
Lemma member_head kv t : skip_space (los (member_text kv) ++ t) = los (member_text kv) ++ t.
Proof. rewrite member_chars. by destruct (scan_json_string kv.1 (ascii_of_nat 58 :: ascii_of_nat 32 :: los (json_dumps kv.2) ++ t)) as [-> _]. Qed.

Lemma scan_members_dumps (l : Obj) : l <> [] -> forallb (fun kv => json_wf kv.2) l = true ->
  Forall (fun kv => reads_back kv.2) l ->
  forall f rest acc, NoDup (dict_keys (acc ++ l)) ->
  2 * length (los (py_join ", " (map member_text l)) ++ ascii_of_nat 125 :: rest) + 1 <= f ->
  scan_members f (los (py_join ", " (map member_text l)) ++ ascii_of_nat 125 :: rest) acc = Ok (acc ++ l, rest).
Proof.
  induction l as [|kv l IH]; [done|]. intros _ Hwf Hall f rest acc Hnd Hf.
  simpl in Hwf. apply andb_prop in Hwf as [Hx Hl]. rewrite Forall_cons in Hall. destruct Hall as [Hrx Hrl].
  assert (dict_set kv.1 kv.2 acc = acc ++ [kv]) as Hset.
  { rewrite dict_set_fresh; [by destruct kv|]. apply dict_get_None.
    unfold dict_keys in *. rewrite map_app in Hnd. apply NoDup_app in Hnd as (_ & Hd & _).
    intros Hin. apply (Hd _ Hin). left. }
  destruct f as [|f]; [lia|]. destruct l as [|kv2 l].
  - change (py_join ", " (map member_text [kv])) with (member_text kv) in *.
    rewrite scan_member; [|done|done|done|by repeat split|lia]. by rewrite Hset.
  - cbn [map] in *. rewrite join_cons in * by done. rewrite !los_app, <- !app_assoc in *.
    change (los ", " ++ ?t) with (ascii_of_nat 44 :: ascii_of_nat 32 :: t) in *.
    rewrite scan_member; [|done|done|done|by repeat split|lia].
    eval_chars.
    change (member_text kv2 :: map member_text l) with (map member_text (kv2 :: l)) in *.
    assert (forall t, skip_space (los (py_join ", " (map member_text (kv2 :: l))) ++ t) = los (py_join ", " (map member_text (kv2 :: l))) ++ t) as Hskip.
    { intros t. destruct l as [|z l]; [apply member_head|].
      cbn [map]. rewrite join_cons, los_app, <- app_assoc by done. apply member_head. }
    rewrite Hskip, IH, Hset; [by rewrite <- app_assoc|done..| |].
    + by rewrite Hset, <- app_assoc.
    + do 2 (rewrite ?length_app in *; cbn [length] in * ). lia.
Qed.

Lemma dumps_reads_back j : json_wf j = true -> reads_back j.
Proof.
  induction j as [|b|n|r|s|l IH|l IH] using json_nested_ind; intros Hwf f rest Hst Hf;
    (destruct f as [|f]; [lia|]).
  - done.
  - by destruct b.
  - pose proof (json_number_int n rest Hst) as Hn. change (json_dumps (JInt n)) with (pretty n) in *.
    destruct (los (pretty n) ++ rest) as [|c t] eqn:E; [done|]. by apply scan_value_number.
  - change (json_dumps (JFloat r)) with (json_float r) in *.
    destruct (json_float_text r Hwf) as [[->|[->| ->]]|[Hr Hn]]; try done. rewrite Hr in *.
    pose proof (json_number_rest _ rest _ Hst Hn) as Hn'.
    destruct (los r ++ rest) as [|c t] eqn:E; [done|]. by apply scan_value_number.
  - change (json_dumps (JStr s)) with (json_string s). destruct (scan_json_string s rest) as [-> Hs].
    cbn [scan_value]. eval_chars. by rewrite Hs.
  - destruct l as [|x l]; [done|].
    change (json_dumps (JArr (x :: l))) with ("[" +:+ py_join ", " (map json_dumps (x :: l)) +:+ "]") in *.
    rewrite !los_app, <- !app_assoc in *.
    change (los "[" ++ ?t) with (ascii_of_nat 91 :: t) in *. change (los "]" ++ rest) with (ascii_of_nat 93 :: rest) in *.
    cbn [scan_value]. eval_chars. change (json_wf (JArr (x :: l))) with (forallb json_wf (x :: l)) in Hwf.
    assert (forallb json_wf (x :: l) = true -> Forall reads_back (x :: l)) as Hrb.
    { clear -IH. induction IH as [|y k Hy Hk IHk]; simpl; [done|]. intros [H1 H2]%andb_prop. constructor; auto. }
    pose proof Hwf as Hx. simpl in Hx. apply andb_prop in Hx as [Hx _].
    assert (exists c t, los (py_join ", " (map json_dumps (x :: l))) ++ ascii_of_nat 93 :: rest = c :: t
            /\ json_space c = false /\ Nat.eqb (nat_of_ascii c) 93 = false) as (c & t & E & Hc1 & Hc2).
    { destruct (dumps_head x Hx) as (c & t & E & Hc). destruct l as [|y l].
      - change (py_join ", " (map json_dumps [x])) with (json_dumps x). rewrite E. by eexists c, _.
      - cbn [map]. rewrite join_cons, los_app, E by done. by eexists c, _. }
    pose proof (scan_items_dumps (x :: l) ltac:(done) Hwf (Hrb Hwf) f rest []) as Hitems.
    cbn [length] in Hf. rewrite E in *. cbn [skip_space]. rewrite Hc1, Hc2. rewrite Hitems by lia. done.
  - destruct l as [|x l]; [done|].
    change (json_dumps (JObj (x :: l))) with ("{" +:+ py_join ", " (map member_text (x :: l)) +:+ "}") in *.
    rewrite !los_app, <- !app_assoc in *.
    change (los "{" ++ ?t) with (ascii_of_nat 123 :: t) in *. change (los "}" ++ rest) with (ascii_of_nat 125 :: rest) in *.
    cbn [scan_value]. eval_chars.
    change (json_wf (JObj (x :: l))) with (bool_decide (NoDup (dict_keys (x :: l))) && forallb (fun kv => json_wf kv.2) (x :: l)) in Hwf.
    apply andb_prop in Hwf as [Hnd%bool_decide_eq_true Hwf].
    assert (forallb (fun kv => json_wf kv.2) (x :: l) = true -> Forall (fun kv => reads_back kv.2) (x :: l)) as Hrb.
    { clear -IH. induction IH as [|y k Hy Hk IHk]; simpl; [done|]. intros [H1 H2]%andb_prop. constructor; auto. }
    pose proof (scan_members_dumps (x :: l) ltac:(done) Hwf (Hrb Hwf) f rest [] Hnd) as Hmem.
    assert (exists t, los (py_join ", " (map member_text (x :: l))) ++ ascii_of_nat 125 :: rest = dq :: t) as [t E].
    { destruct l as [|y l].
      - change (py_join ", " (map member_text [x])) with (member_text x). by eexists.
      - cbn [map]. rewrite join_cons, los_app by done. by eexists. }
    cbn [length] in Hf. rewrite E in *. cbn [skip_space].
    eval_chars.
    rewrite Hmem by lia. done.
Qed.

Lemma loads_dumps j : json_wf j = true -> json_loads (json_dumps j) = Ok j.
Proof.
  intros Hwf. unfold json_loads.
  pose proof (skip_space_dumps j [] Hwf) as Hs. pose proof (dumps_reads_back j Hwf) as Hr.
  specialize (Hr (S (S (2 * length (los (json_dumps j))))) [] I). rewrite app_nil_r in *.
  rewrite Hs, Hr by lia. done.
Qed.
