(* ===== verification/PyRegex.v ===== *)
(** * Regular expressions

    The part of Python's module [re] the code uses: backtracking matching with
    greedy and lazy repetition, groups, word boundaries, anchors and a negative
    one-character look-behind; [match], [search], [findall] and [sub].  A matcher
    in continuation style, shown to be the relation [Match] it searches. *)
From S2P Require Import Prelude PyJson.

Inductive re : Type :=
  | Eps
  | Cls (p : ascii -> bool)
  | Cat (r1 r2 : re)
  | Alt (r1 r2 : re)
  | Star (greedy : bool) (r : re)
  | Grp (r : re)               (** a capturing group *)
  | Bound                      (** [\b] *)
  | AtStart
  | AtEnd                      (** [$]: the end, or before a final newline *)
  | NotAfter (p : ascii -> bool).

(** A position: the character before it, the text after it, and the groups
    captured on the way, the last one first. *)
Record pos := { p_before : option ascii; p_rest : chars; p_groups : list chars }.

Definition step (c : ascii) (l : chars) (s : pos) : pos :=
  {| p_before := Some c; p_rest := l; p_groups := p_groups s |}.
(** The text between two positions of one match. *)
Definition between (s s' : pos) : chars := take (length (p_rest s) - length (p_rest s')) (p_rest s).
Definition capture (s s' : pos) : pos :=
  {| p_before := p_before s'; p_rest := p_rest s'; p_groups := between s s' :: p_groups s' |}.

Definition word_at (o : option ascii) : bool := match o with Some c => py_isword c | None => false end.
Definition at_bound (s : pos) : bool := xorb (word_at (p_before s)) (word_at (head (p_rest s))).
Definition at_end (l : chars) : bool :=
  match l with [] => true | [c] => Nat.eqb (nat_of_ascii c) 10 | _ => false end.
Definition allowed_after (p : ascii -> bool) (s : pos) : bool :=
  match p_before s with Some c => negb (p c) | None => true end.

Definition orelse {A} (a b : option A) : option A := match a with Some x => Some x | None => b end.

(** Repetition of [body], at most [n] times, each time of some text. *)
Section star.
Context {A : Type} (body : pos -> (pos -> option A) -> option A) (greedy : bool) (k : pos -> option A).
Fixpoint star_run (n : nat) (s : pos) : option A :=
  let more := match n with
              | O => None
              | S n => body s (fun s' => if Nat.ltb (length (p_rest s')) (length (p_rest s)) then star_run n s' else None)
              end in
  if greedy then orelse more (k s) else orelse (k s) more.
End star.

(** The first match in the order of preference whose continuation succeeds. *)
Fixpoint run {A} (r : re) (s : pos) (k : pos -> option A) {struct r} : option A :=
  match r with
  | Eps => k s
  | Cls p => match p_rest s with c :: l => if p c then k (step c l s) else None | [] => None end
  | Cat r1 r2 => run r1 s (fun s' => run r2 s' k)
  | Alt r1 r2 => orelse (run r1 s k) (run r2 s k)
  | Star greedy r => star_run (fun s k => run r s k) greedy k (length (p_rest s)) s
  | Grp r => run r s (fun s' => k (capture s s'))
  | Bound => if at_bound s then k s else None
  | AtStart => match p_before s with None => k s | Some _ => None end
  | AtEnd => if at_end (p_rest s) then k s else None
  | NotAfter p => if allowed_after p s then k s else None
  end.

(** ** What is matched *)

Inductive Match : re -> pos -> pos -> Prop :=
  | m_eps s : Match Eps s s
  | m_cls p c l s : p_rest s = c :: l -> p c = true -> Match (Cls p) s (step c l s)
  | m_cat r1 r2 s s1 s2 : Match r1 s s1 -> Match r2 s1 s2 -> Match (Cat r1 r2) s s2
  | m_alt_l r1 r2 s s' : Match r1 s s' -> Match (Alt r1 r2) s s'
  | m_alt_r r1 r2 s s' : Match r2 s s' -> Match (Alt r1 r2) s s'
  | m_star_nil g r s : Match (Star g r) s s
  | m_star_cons g r s s1 s2 : Match r s s1 -> length (p_rest s1) < length (p_rest s) -> Match (Star g r) s1 s2 ->
      Match (Star g r) s s2
  | m_grp r s s' : Match r s s' -> Match (Grp r) s (capture s s')
  | m_bound s : at_bound s = true -> Match Bound s s
  | m_start s : p_before s = None -> Match AtStart s s
  | m_end s : at_end (p_rest s) = true -> Match AtEnd s s
  | m_not_after p s : allowed_after p s = true -> Match (NotAfter p) s s.

Lemma orelse_Some {A} (a b : option A) x : orelse a b = Some x -> a = Some x \/ b = Some x.
Proof. destruct a; auto. Qed.
Lemma orelse_is {A} (a b : option A) : is_Some a \/ is_Some b -> is_Some (orelse a b).
Proof. destruct a; intros [[? ?]|[? ?]]; simplify_eq; eauto. Qed.

(** One round of a repetition: stop here, or go on after a match of some text. *)
Lemma star_run_Some {A} (body : pos -> (pos -> option A) -> option A) g k n s x : star_run body g k n s = Some x ->
  k s = Some x \/ exists n', n = S n'
    /\ body s (fun s' => if Nat.ltb (length (p_rest s')) (length (p_rest s)) then star_run body g k n' s' else None) = Some x.
Proof. destruct n as [|n]; destruct g; cbn [star_run]; intros [H|H]%orelse_Some; try done; eauto. Qed.
Lemma star_run_is {A} (body : pos -> (pos -> option A) -> option A) g k n s :
  is_Some (k s) \/ is_Some (body s (fun s' => if Nat.ltb (length (p_rest s')) (length (p_rest s)) then star_run body g k n s' else None)) ->
  is_Some (star_run body g k (S n) s).
Proof. destruct g; cbn [star_run]; intros H; apply orelse_is; tauto. Qed.
Lemma star_run_here {A} (body : pos -> (pos -> option A) -> option A) g k n s : is_Some (k s) -> is_Some (star_run body g k n s).
Proof. intros H. destruct n; destruct g; cbn [star_run]; apply orelse_is; auto. Qed.

(** What the matcher returns comes from a match. *)
Lemma run_sound r : forall A s (k : pos -> option A) x, run r s k = Some x -> exists s', Match r s s' /\ k s' = Some x.
Proof.
  induction r as [|p|r1 IH1 r2 IH2|r1 IH1 r2 IH2|g r IH|r IH| | | |p]; intros A s k x H; cbn [run] in H.
  - eauto using Match.
  - destruct (p_rest s) as [|c l] eqn:E; [done|]. destruct (p c) eqn:Ep; [|done]. eauto using Match.
  - apply IH1 in H as (s1 & H1 & H). apply IH2 in H as (s2 & H2 & H). eauto using Match.
  - apply orelse_Some in H as [H|H]; [apply IH1 in H as (s' & ? & ?)|apply IH2 in H as (s' & ? & ?)]; eauto using Match.
  - revert H. generalize (length (p_rest s)) as n. intros n. revert s. induction n as [|n IHn]; intros s H;
      apply star_run_Some in H as [Hk|(n' & [= <-] & H)]; eauto using Match.
    apply IH in H as (s1 & Hm & H). destruct (Nat.ltb _ _) eqn:El; [|done]. apply Nat.ltb_lt in El.
    apply IHn in H as (s2 & Hm2 & Hk). eauto using Match.
  - apply IH in H as (s' & Hm & Hk). eauto using Match.
  - destruct (at_bound s) eqn:E; [|done]. eauto using Match.
  - destruct (p_before s) eqn:E; [done|]. eauto using Match.
  - destruct (at_end _) eqn:E; [|done]. eauto using Match.
  - destruct (allowed_after _ _) eqn:E; [|done]. eauto using Match.
Qed.

(** A continuation that succeeds more often finds a match more often. *)
Lemma run_mono r : forall A s (k k' : pos -> option A), (forall s', is_Some (k s') -> is_Some (k' s')) ->
  is_Some (run r s k) -> is_Some (run r s k').
Proof.
  induction r as [|p|r1 IH1 r2 IH2|r1 IH1 r2 IH2|g r IH|r IH| | | |p]; intros A s k k' Hk H; cbn [run] in *; eauto.
  - destruct (p_rest s) as [|c l]; [done|]. destruct (p c); eauto.
  - eapply IH1; [|exact H]. intros s' Hs'. eapply IH2; [|exact Hs']. eauto.
  - apply orelse_is. destruct H as [x [H|H]%orelse_Some]; [left; eapply IH1|right; eapply IH2]; eauto.
  - revert H. generalize (length (p_rest s)) as n. intros n. revert s. induction n as [|n IHn]; intros s [x H];
      apply star_run_Some in H as [H|(n' & [= <-] & H)]; eauto using star_run_here.
    apply star_run_is. right. eapply IH; [|eauto]. intros s'. cbn beta. destruct (Nat.ltb (length (p_rest s')) (length (p_rest s))); [apply IHn|done].
  - eapply IH; [|exact H]. eauto.
  - destruct (at_bound s); eauto.
  - destruct (p_before s); eauto.
  - destruct (at_end _); eauto.
  - destruct (allowed_after _ _); eauto.
Qed.
Lemma star_run_fuel {A} r g (k : pos -> option A) n m s : n <= m ->
  is_Some (star_run (fun s k => run r s k) g k n s) -> is_Some (star_run (fun s k => run r s k) g k m s).
Proof.
  revert m s. induction n as [|n IH]; intros m s Hm [x H]; apply star_run_Some in H as [H|(n' & [= <-] & H)];
    eauto using star_run_here.
  destruct m as [|m]; [lia|]. apply star_run_is. right. eapply run_mono; [|eauto].
  intros s'. cbn beta. destruct (Nat.ltb (length (p_rest s')) (length (p_rest s))); [|done]. apply IH. lia.
Qed.

Lemma match_rest r s s' : Match r s s' -> length (p_rest s') <= length (p_rest s).
Proof. induction 1; cbn [step capture p_rest]; try lia. rewrite H. simpl. lia. Qed.

(** And if there is a match whose continuation succeeds, one is found. *)
Lemma run_complete r s s' : Match r s s' -> forall A (k : pos -> option A), is_Some (k s') -> is_Some (run r s k).
Proof.
  induction 1 as [s|p c l s Hl Hp|r1 r2 s s1 s2 _ IH1 _ IH2|r1 r2 s s' _ IH|r1 r2 s s' _ IH|g r s|g r s s1 s2 Hm IH1 Hlt Hm2 IH2|r s s' _ IH
                 |s Hb|s Hb|s Hb|p s Hb]; intros A k Hk; cbn [run].
  - done.
  - by rewrite Hl, Hp.
  - by apply IH1, IH2.
  - apply orelse_is. left. by apply IH.
  - apply orelse_is. right. by apply IH.
  - by apply star_run_here.
  - assert (is_Some (run r s (fun s' => if Nat.ltb (length (p_rest s')) (length (p_rest s))
       then star_run (fun s k => run r s k) g k (pred (length (p_rest s))) s' else None))) as H.
    { apply IH1. rewrite (proj2 (Nat.ltb_lt _ _)) by done.
      eapply star_run_fuel; [|apply (IH2 _ k Hk)]. lia. }
    destruct (length (p_rest s)) as [|n] eqn:El; [lia|]. apply star_run_is. rewrite El. by right.
  - by apply IH.
  - by rewrite Hb.
  - by rewrite Hb.
  - by rewrite Hb.
  - by rewrite Hb.
Qed.

(** Patterns that match no empty text. *)
Fixpoint consumes (r : re) : bool :=
  match r with
  | Cls _ => true
  | Cat r1 r2 => consumes r1 || consumes r2
  | Alt r1 r2 => consumes r1 && consumes r2
  | Grp r => consumes r
  | _ => false
  end.
Lemma consumes_rest r s s' : Match r s s' -> consumes r = true -> length (p_rest s') < length (p_rest s).
Proof.
  induction 1 as [|p c l s Hl| r1 r2 s s1 s2 H1 IH1 H2 IH2| | | | | | | | |]; cbn [consumes capture step p_rest]; try done.
  - intros _. rewrite Hl. simpl. lia.
  - pose proof (match_rest _ _ _ H1). pose proof (match_rest _ _ _ H2).
    intros [Hc|Hc]%orb_prop; [specialize (IH1 Hc)|specialize (IH2 Hc)]; lia.
  - intros [Hc _]%andb_prop. auto.
  - intros [_ Hc]%andb_prop. auto.
Qed.

(** ** The functions of the module *)

Definition at_pos (before : option ascii) (l : chars) : pos := {| p_before := before; p_rest := l; p_groups := [] |}.

(** [r.match(text)] *)
Definition re_match (r : re) (text : string) : option pos := run r (at_pos None (los text)) Some.

(** The first position at which [r] matches: the text skipped, both ends. *)
Fixpoint find_from (r : re) (before : option ascii) (l : chars) : option (chars * (pos * pos)) :=
  match run r (at_pos before l) Some with
  | Some s' => Some ([], (at_pos before l, s'))
  | None =>
      match l with
      | [] => None
      | c :: l' => '(skipped, ends) ← find_from r (Some c) l'; Some (c :: skipped, ends)
      end
  end.

(** [r.search(text) is not None] *)
Definition re_search (r : re) (text : string) : bool := bool_decide (is_Some (find_from r None (los text))).

(** A match with the text before it: the text matched, the groups in order. *)
Record found := { f_skipped : chars; f_text : chars; f_groups : list chars }.

(** The matches from left to right and the text after the last one, for a pattern
    that matches no empty text. *)
Fixpoint find_all (fuel : nat) (r : re) (before : option ascii) (l : chars) : list found * chars :=
  match fuel with
  | O => ([], l)
  | S fuel =>
      match find_from r before l with
      | None => ([], l)
      | Some (skipped, (s, s')) =>
          let '(ms, tail) := find_all fuel r (p_before s') (p_rest s') in
          ({| f_skipped := skipped; f_text := between s s'; f_groups := rev (p_groups s') |} :: ms, tail)
      end
  end.
Definition re_matches (r : re) (text : string) : list found * chars := find_all (S (length (los text))) r None (los text).

Definition sol (l : chars) : string := String.string_of_list_ascii l.
(** [[m.group(0) for m in r.finditer(text)]] and [r.sub("", text)] *)
Definition re_texts (r : re) (text : string) : list string := map (fun m => sol (f_text m)) (re_matches r text).1.
Definition re_groups (r : re) (text : string) : list (list string) := map (fun m => map sol (f_groups m)) (re_matches r text).1.
Definition re_remove (r : re) (text : string) : string :=
  let '(ms, tail) := re_matches r text in sol (concat (map f_skipped ms) ++ tail).

(** ** What they find *)

Lemma find_from_spec r l : forall before skipped s s', find_from r before l = Some (skipped, (s, s')) ->
  l = skipped ++ p_rest s /\ p_before s = last (option_list before ++ skipped) /\ Match r s s'.
Proof.
  induction l as [|c l IH]; intros before skipped s s' H; cbn [find_from] in H.
  - destruct (run r _ Some) as [s1|] eqn:E; [|done]. injection H as <- <- <-.
    apply run_sound in E as (s2 & Hm & [= ->]). split; [done|]. split; [by destruct before|done].
  - destruct (run r _ Some) as [s1|] eqn:E.
    + injection H as <- <- <-. apply run_sound in E as (s2 & Hm & [= ->]). split; [done|]. split; [by destruct before|done].
    + destruct (find_from r (Some c) l) as [[sk [s1 s2]]|] eqn:E2; [|done]. cbn in H. injection H as <- <- <-.
      apply IH in E2 as (-> & Hb & Hm). split; [done|]. split; [|done]. rewrite Hb. cbn. by destruct before.
Qed.
Lemma find_from_complete r l : forall before pre rest s', l = pre ++ rest ->
  Match r (at_pos (last (option_list before ++ pre)) rest) s' -> is_Some (find_from r before l).
Proof.
  induction l as [|c l IH]; intros before pre rest s' Hl Hm; cbn [find_from].
  - destruct pre, rest; try done. cbn in Hm. rewrite app_nil_r in Hm.
    assert (last (option_list before) = before) as Hb by (by destruct before). rewrite Hb in Hm.
    destruct (run_complete _ _ _ Hm _ Some) as [s1 ->]; [eauto|]. eauto.
  - destruct (run r _ Some) as [s1|] eqn:E; [eauto|]. destruct pre as [|c' pre]; cbn in Hl.
    + subst rest. rewrite app_nil_r in Hm. assert (last (option_list before) = before) as Hb by (by destruct before).
      rewrite Hb in Hm. destruct (run_complete _ _ _ Hm _ Some) as [s1 H]; [eauto|]. congruence.
    + injection Hl as <- ->. destruct (IH (Some c) pre rest s' eq_refl) as [[sk [s1 s2]] ->]; [|eauto].
      by destruct before.
Qed.

(** A pattern is found exactly if it matches somewhere. *)
Lemma re_search_spec r text : re_search r text = true <->
  exists pre rest s', los text = pre ++ rest /\ Match r (at_pos (last pre) rest) s'.
Proof.
  unfold re_search. rewrite bool_decide_eq_true. split.
  - intros [[sk [s s']] H]. pose proof H as H'. apply find_from_spec in H as (Hl & Hb & Hm).
    exists sk, (p_rest s), s'. split; [done|]. cbn in Hb. rewrite <- Hb.
    assert (at_pos (p_before s) (p_rest s) = s) as ->; [|done].
    clear -H'. revert H'. generalize (@None ascii) as before. generalize (los text) as l. intros l. revert sk.
    induction l as [|c l IH]; intros sk before; cbn [find_from].
    + destruct (run r _ Some); [|done]. by intros [= _ <- _].
    + destruct (run r _ Some); [by intros [= _ <- _]|].
      destruct (find_from r (Some c) l) as [[sk' [s1 s2]]|] eqn:E; [|done]. intros [= <- <- <-]. by eapply IH.
  - intros (pre & rest & s' & Hl & Hm). by eapply (find_from_complete r _ None pre).
Qed.

(** The text is the skipped and matched pieces and the tail, and with a pattern
    that matches no empty text the tail has no match. *)
Lemma match_between r s s' : Match r s s' -> p_rest s = between s s' ++ p_rest s'.
Proof.
  intros H. unfold between. assert (exists pre, p_rest s = pre ++ p_rest s') as [pre ->].
  { induction H as [|p c l s Hl| r1 r2 s s1 s2 _ [p1 E1] _ [p2 E2]| | | |g r s s1 s2 _ [p1 E1] _ _ [p2 E2]| | | | |];
      try (by exists []); try done.
    - exists [c]. by rewrite Hl.
    - exists (p1 ++ p2). by rewrite E1, E2, app_assoc.
    - exists (p1 ++ p2). by rewrite E1, E2, app_assoc. }
  rewrite length_app. replace (length pre + length (p_rest s') - length (p_rest s')) with (length pre) by lia.
  by rewrite take_app_length.
Qed.
Lemma find_all_pieces r n : forall before l ms tail, find_all n r before l = (ms, tail) ->
  l = concat (map (fun m => f_skipped m ++ f_text m) ms) ++ tail.
Proof.
  induction n as [|n IH]; intros before l ms tail H; cbn [find_all] in H; [by injection H as <- <-|].
  destruct (find_from r before l) as [[sk [s s']]|] eqn:E; [|by injection H as <- <-].
  destruct (find_all n r _ _) as [ms' tail'] eqn:Ea. injection H as <- <-. apply IH in Ea.
  apply find_from_spec in E as (-> & _ & Hm). apply match_between in Hm. cbn. by rewrite <- !app_assoc, <- Ea, <- Hm.
Qed.
Lemma find_all_tail r n : forall before l ms tail, consumes r = true -> length l < n ->
  find_all n r before l = (ms, tail) -> exists before', find_from r before' tail = None.
Proof.
  induction n as [|n IH]; intros before l ms tail Hc Hn H; cbn [find_all] in H; [lia|].
  destruct (find_from r before l) as [[sk [s s']]|] eqn:E; [|injection H as <- <-; eauto].
  destruct (find_all n r _ _) as [ms' tail'] eqn:Ea. injection H as <- <-.
  apply IH in Ea; [done|done|]. apply find_from_spec in E as (-> & _ & Hm). apply consumes_rest in Hm; [|done].
  rewrite length_app in Hn. lia.
Qed.
