(* ===== verification/PyHash.v ===== *)
(** * Digests

    [str.encode()] on code points below 256, [hashlib.sha256(...).hexdigest()], and
    the compact, key-sorted [json.dumps] whose digest the code records. *)
From S2P Require Import Prelude PyJson.

#[local] Open Scope Z_scope.

(** ** [s.encode()]: UTF-8, each byte as a number *)

Definition utf8_char (c : ascii) : list Z :=
  let n := Z.of_nat (nat_of_ascii c) in
  if n <? 128 then [n] else [192 + Z.shiftr n 6; 128 + Z.land n 63].
Definition py_encode (s : string) : list Z := concat (map utf8_char (los s)).

(** ** SHA-256 on words of 32 bits *)

Definition word (x : Z) : Z := Z.land x 0xffffffff.
Definition add32 (x y : Z) : Z := word (x + y).
Definition rotr (n x : Z) : Z := Z.lor (Z.shiftr x n) (word (Z.shiftl x (32 - n))).
Definition xor3 (x y z : Z) : Z := Z.lxor x (Z.lxor y z).

(** The constants: the first 32 bits of the fractional parts of the cube roots of
    the first 64 primes, and of the square roots of the first eight. *)
Definition is_prime (n : nat) : bool := forallb (fun d => negb (Nat.eqb (Nat.modulo n d) 0)) (seq 2 (n - 2)).
Definition small_primes : list Z := map Z.of_nat (filter (fun n => is_prime n = true) (seq 2 310)).
(** The largest number below [2 ^ bits] (added to [low]) whose power [k] is not above [n]. *)
Fixpoint iroot (k n low : Z) (bits : nat) : Z :=
  match bits with
  | O => low
  | S b => let mid := low + 2 ^ Z.of_nat b in iroot k n (if mid ^ k <=? n then mid else low) b
  end.
Definition root_bits (k p : Z) : Z := word (iroot k (p * 2 ^ (32 * k)) 0 40).
Definition sha_constants : list Z := Eval vm_compute in map (root_bits 3) small_primes.

Record sha_state := { sa : Z; sb : Z; sc : Z; sd : Z; se : Z; sf : Z; sg : Z; sh : Z }.
Definition sha_init : sha_state := Eval vm_compute in
  let r n := root_bits 2 (nth n small_primes 0) in
  {| sa := r 0%nat; sb := r 1%nat; sc := r 2%nat; sd := r 3%nat; se := r 4%nat; sf := r 5%nat; sg := r 6%nat; sh := r 7%nat |}.

(** The message schedule, the last sixteen words first. *)
Definition next_word (w : list Z) : Z :=
  let at_ n := nth n w 0 in
  let s0 := xor3 (rotr 7 (at_ 14%nat)) (rotr 18 (at_ 14%nat)) (Z.shiftr (at_ 14%nat) 3) in
  let s1 := xor3 (rotr 17 (at_ 1%nat)) (rotr 19 (at_ 1%nat)) (Z.shiftr (at_ 1%nat) 10) in
  word (at_ 15%nat + s0 + at_ 6%nat + s1).
Fixpoint extend (n : nat) (w : list Z) : list Z :=
  match n with O => w | S n => extend n (next_word w :: w) end.

Definition sha_round (s : sha_state) (kw : Z) : sha_state :=
  let s1 := xor3 (rotr 6 (se s)) (rotr 11 (se s)) (rotr 25 (se s)) in
  let ch := Z.lxor (Z.land (se s) (sf s)) (Z.land (Z.lxor (se s) 0xffffffff) (sg s)) in
  let t1 := sh s + s1 + ch + kw in
  let s0 := xor3 (rotr 2 (sa s)) (rotr 13 (sa s)) (rotr 22 (sa s)) in
  let maj := xor3 (Z.land (sa s) (sb s)) (Z.land (sa s) (sc s)) (Z.land (sb s) (sc s)) in
  {| sa := word (t1 + s0 + maj); sb := sa s; sc := sb s; sd := sc s;
     se := word (sd s + t1); sf := se s; sg := sf s; sh := sg s |}.
Definition sha_block (s : sha_state) (block : list Z) : sha_state :=
  let w := rev (extend 48 (rev block)) in
  let r := fold_left sha_round (zip_with Z.add sha_constants w) s in
  {| sa := add32 (sa s) (sa r); sb := add32 (sb s) (sb r); sc := add32 (sc s) (sc r); sd := add32 (sd s) (sd r);
     se := add32 (se s) (se r); sf := add32 (sf s) (sf r); sg := add32 (sg s) (sg r); sh := add32 (sh s) (sh r) |}.

(** Big-endian words of a list of bytes, and bytes of a number. *)
Fixpoint words_of (l : list Z) : list Z :=
  match l with
  | a :: b :: c :: d :: l => (Z.shiftl a 24 + Z.shiftl b 16 + Z.shiftl c 8 + d) :: words_of l
  | _ => []
  end.
Fixpoint bytes_of (n : nat) (x : Z) : list Z :=
  match n with O => [] | S k => bytes_of k (Z.shiftr x 8) ++ [Z.land x 255] end.

(** The padding: a one bit, zeros, the length in bits. *)
Definition sha_pad (l : list Z) : list Z :=
  let n := Z.of_nat (length l) in
  l ++ [128] ++ replicate (Z.to_nat ((55 - n) mod 64)) 0 ++ bytes_of 8 (8 * n).
Fixpoint blocks_of (fuel : nat) (l : list Z) : list (list Z) :=
  match fuel, l with
  | S fuel, _ :: _ => take 16 l :: blocks_of fuel (drop 16 l)
  | _, _ => []
  end.
Definition sha256 (l : list Z) : list Z :=
  let padded := words_of (sha_pad l) in
  let s := fold_left sha_block (blocks_of (length padded) padded) sha_init in
  concat (map (bytes_of 4) [sa s; sb s; sc s; sd s; se s; sf s; sg s; sh s]).

Definition hex_byte (b : Z) : string :=
  String (hex_digit (Z.to_nat (Z.shiftr b 4))) (String (hex_digit (Z.to_nat (Z.land b 15))) "").
(** [hashlib.sha256(s.encode()).hexdigest()] *)
Definition sha256_hex (s : string) : string := String.concat "" (map hex_byte (sha256 (py_encode s))).

Example sha256_empty : sha256_hex "" = "e3b0c44298fc1c149afbf4c8996fb92427ae41e4649b934ca495991b7852b855".
Proof. vm_compute. reflexivity. Qed.
Definition latin_text : string := "abc" +:+ String (ascii_of_nat 233) "".
Example sha256_latin : sha256_hex latin_text = "ab2b4afd2eb587b106d4831e83d3f408a44dc34a4479fa991b8dd19cc63d7208".
Proof. vm_compute. reflexivity. Qed.
Definition two_blocks : string := "abcdbcdecdefdefgefghfghighijhijkijkljklmklmnlmnomnopnopqabcdbcdecdefdefgefgh".
Example sha256_long : sha256_hex two_blocks = "d8b438f6c53f949dd072aceda9a69e000a7577f43fb73d1c21e39d52a96aae6a".
Proof. vm_compute. reflexivity. Qed.

(** ** [json.dumps(j, sort_keys=True, separators=(",", ":"))] *)

Fixpoint json_dumps_compact (j : json) : string :=
  match j with
  | JArr l => "[" +:+ py_join "," (map json_dumps_compact l) +:+ "]"
  | JObj l =>
      let texts := map (fun kv => (kv.1, json_string kv.1 +:+ ":" +:+ json_dumps_compact kv.2)) l in
      "{" +:+ py_join "," (map snd (sort_by fst texts)) +:+ "}"
  | _ => json_dumps j
  end.
Example dumps_compact : json_loads (json_dumps_compact (JObj [("b", JArr [JInt 1; JNull]); ("a", JStr "x")])) =
  Ok (JObj [("a", JStr "x"); ("b", JArr [JInt 1; JNull])]).
Proof. vm_compute. reflexivity. Qed.

(** ** What a digest looks like *)

Lemma bytes_of_length n x : length (bytes_of n x) = n.
Proof. revert x. induction n as [|n IH]; intros x; cbn; [done|]. rewrite length_app, IH. cbn. lia. Qed.
Lemma bytes_of_range n x : Forall (fun b => 0 <= b < 256) (bytes_of n x).
Proof.
  revert x. induction n as [|n IH]; intros x; cbn; [constructor|]. apply Forall_app. split; [apply IH|].
  constructor; [|constructor]. change 255 with (Z.ones 8). rewrite Z.land_ones by lia. apply Z.mod_pos_bound. lia.
Qed.
Lemma sha256_length l : length (sha256 l) = 32%nat.
Proof. unfold sha256. cbn [map concat]. by rewrite !length_app, !bytes_of_length. Qed.
Lemma sha256_bytes l : Forall (fun b => 0 <= b < 256) (sha256 l).
Proof. unfold sha256. cbn [map concat]. rewrite !Forall_app. split_and!; auto using bytes_of_range. Qed.

(** A digest is 64 lowercase hexadecimal digits. *)
Definition hex_char (c : ascii) : bool :=
  let n := nat_of_ascii c in (Nat.leb 48 n && Nat.leb n 57) || (Nat.leb 97 n && Nat.leb n 102).
Lemma hex_digit_char n : (n < 16)%nat -> hex_char (hex_digit n) = true.
Proof. intros H. do 16 (destruct n as [|n]; [reflexivity|]). lia. Qed.
Lemma hex_byte_chars b : 0 <= b < 256 -> exists c d, hex_byte b = String c (String d "") /\ hex_char c = true /\ hex_char d = true.
Proof.
  intros H. unfold hex_byte. do 2 eexists. split; [done|]. split; apply hex_digit_char.
  - rewrite Z.shiftr_div_pow2 by lia. change (2 ^ 4) with 16.
    assert (b / 16 < 16) by (apply Z.div_lt_upper_bound; lia). assert (0 <= b / 16) by (apply Z.div_pos; lia). lia.
  - change 15 with (Z.ones 4). rewrite Z.land_ones by lia. change (2 ^ 4) with 16.
    pose proof (Z.mod_pos_bound b 16). lia.
Qed.
Lemma hex_bytes_chars l : Forall (fun b => 0 <= b < 256) l -> exists cs, los (String.concat "" (map hex_byte l)) = cs
  /\ length cs = (2 * length l)%nat /\ Forall (fun c => hex_char c = true) cs.
Proof.
  intros H. eexists. split; [done|]. induction H as [|b l Hb _ IH]; [done|]. cbn [map].
  destruct (hex_byte_chars b Hb) as (c & d & E & Hc & Hd).
  assert (los (String.concat "" (hex_byte b :: map hex_byte l)) = c :: d :: los (String.concat "" (map hex_byte l))) as ->.
  { cbn [String.concat]. destruct (map hex_byte l); [by rewrite E|]. by rewrite E. }
  destruct IH as [Hl Hf]. cbn. split; [rewrite Hl; lia|]. by repeat constructor.
Qed.
Lemma sha256_hex_chars s : exists cs, los (sha256_hex s) = cs /\ length cs = 64%nat /\ Forall (fun c => hex_char c = true) cs.
Proof.
  destruct (hex_bytes_chars (sha256 (py_encode s)) (sha256_bytes _)) as (cs & E & Hl & Hf).
  rewrite sha256_length in Hl. by exists cs.
Qed.
