(* ===== verification/PyDyn.v ===== *)
(** * Operations on values whose type is only known when they run

    What Python does with a decoded JSON value: attribute and item access,
    iteration, membership, truthiness with a default; and the validation of a
    model's fields by pydantic, a class of functions with the documented
    behaviour the program relies on. *)
From S2P Require Import Prelude PyFloat PyJson.

Definition AttributeError (msg : string) : py_exn := OtherError "AttributeError" msg.
Definition ValidationError (model : string) : py_exn := OtherError "ValidationError" model.
Definition no_attribute {A} (j : json) (attr : string) : result A :=
  Raise (AttributeError ("'" +:+ json_type j +:+ "' object has no attribute " +:+ py_repr attr)).

(** [j.get(k)] and [j.get(k, d)] *)
Definition py_get (k : string) (j : json) : result (option json) :=
  match j with JObj o => Ok (dict_get k o) | _ => no_attribute j "get" end.
Definition py_get_or (k : string) (d j : json) : result json :=
  v ← py_get k j; Ok (default d v).

(** [v or d], of the result of a [get] and of a value. *)
Definition or_else (d : json) (v : option json) : json :=
  match v with Some j => if truthy j then j else d | None => d end.
Definition json_or (j d : json) : json := if truthy j then j else d.

(** [j[k]] with a string [k] *)
Definition py_item (k : string) (j : json) : result json :=
  match j with
  | JObj o => match dict_get k o with Some v => Ok v | None => Raise (KeyError k) end
  | JArr _ => Raise (TypeError "list indices must be integers or slices, not str")
  | JStr _ => Raise (TypeError "string indices must be integers, not 'str'")
  | _ => Raise (TypeError ("'" +:+ json_type j +:+ "' object is not subscriptable"))
  end.

(** [iter(j)]: the elements, the characters, the keys. *)
Definition py_iter (j : json) : result (list json) :=
  match j with
  | JArr l => Ok l
  | JStr s => Ok (map (fun c => JStr (String c EmptyString)) (String.list_ascii_of_string s))
  | JObj o => Ok (map JStr (dict_keys o))
  | _ => Raise (TypeError ("'" +:+ json_type j +:+ "' object is not iterable"))
  end.

(** [j[0]] of a value known to be truthy. *)
Definition py_first (j : json) : result json :=
  match j with
  | JArr (x :: _) => Ok x
  | JStr (String c _) => Ok (JStr (String c EmptyString))
  | JArr [] => Raise (OtherError "IndexError" "list index out of range")
  | JStr EmptyString => Raise (OtherError "IndexError" "string index out of range")
  | JObj _ => Raise (OtherError "KeyError" "0")
  | _ => Raise (TypeError ("'" +:+ json_type j +:+ "' object is not subscriptable"))
  end.

(** [int(j)] *)
Definition json_int (j : json) : result Z :=
  match j with
  | JInt n => Ok n
  | JBool b => Ok (Z.b2z b)
  | JFloat r => py_trunc (lit r)
  | JStr s => py_int s
  | _ => Raise (TypeError ("int() argument must be a string, a bytes-like object or a real number, not '" +:+ json_type j +:+ "'"))
  end.

(** [len(j)] *)
Definition json_len (j : json) : result nat :=
  match j with
  | JStr s => Ok (String.length s)
  | JArr l => Ok (length l)
  | JObj o => Ok (length o)
  | _ => Raise (TypeError ("object of type '" +:+ json_type j +:+ "' has no len()"))
  end.

(** [k in j] with a string [k] *)
Definition py_has (k : string) (j : json) : result bool :=
  match j with
  | JObj o => Ok (dict_has k o)
  | JArr l => Ok (existsb (fun x => match x with JStr s => String.eqb s k | _ => false end) l)
  | JStr s => Ok (py_contains k s)
  | _ => Raise (TypeError ("argument of type '" +:+ json_type j +:+ "' is not a container or iterable"))
  end.

(** [j.upper()], [j.strip()]: methods of a string. *)
Definition str_method (attr : string) (f : string -> string) (j : json) : result string :=
  match j with JStr s => Ok (f s) | _ => no_attribute j attr end.

(** [[f x for x in l]] where [f] may raise, and where it may leave an element out. *)
Fixpoint map_result {A B} (f : A -> result B) (l : list A) : result (list B) :=
  match l with
  | [] => Ok []
  | x :: l' => y ← f x; ys ← map_result f l'; Ok (y :: ys)
  end.
Fixpoint omap_result {A B} (f : A -> result (option B)) (l : list A) : result (list B) :=
  match l with
  | [] => Ok []
  | x :: l' => y ← f x; ys ← omap_result f l'; Ok (match y with Some b => b :: ys | None => ys end)
  end.

Lemma map_result_Forall2 {A B} (f : A -> result B) l ys :
  map_result f l = Ok ys <-> Forall2 (fun x y => f x = Ok y) l ys.
Proof.
  revert ys. induction l as [|x l IH]; intros ys; simpl.
  - split; [intros [= <-]; constructor|]. by inversion 1.
  - rewrite result_bind_Ok. setoid_rewrite result_bind_Ok. setoid_rewrite IH. split.
    + intros (y & Hy & ys' & Hys & [= <-]). by constructor.
    + inversion 1; subst. eauto 6.
Qed.

(** ** Validation of fields

    What pydantic makes of a value given for a field of type [int], [str] or
    [bool], or nothing when it rejects it. *)
Class Pydantic := {
  lax_int : json -> option Z;
  lax_str : json -> option string;
  lax_bool : json -> option bool
}.
Class PydanticLaws `{Pydantic} := {
  lax_int_int n : lax_int (JInt n) = Some n;
  lax_int_null : lax_int JNull = None;
  lax_str_str s : lax_str (JStr s) = Some s;
  lax_str_only j s : lax_str j = Some s -> j = JStr s;
  lax_bool_bool b : lax_bool (JBool b) = Some b;
  lax_bool_null : lax_bool JNull = None
}.

Section fields.
Context `{Pydantic} (model : string).

Definition check {A} (o : option A) : result A :=
  match o with Some a => Ok a | None => Raise (ValidationError model) end.
(** A field of type [T | None]. *)
Definition nullable {A} (f : json -> option A) (j : json) : option (option A) :=
  match j with JNull => Some None | _ => Some <$> f j end.
(** A field of type [list[T]]. *)
Definition lax_list {A} (f : json -> option A) (j : json) : option (list A) :=
  match j with JArr l => mapM f l | _ => None end.
(** [field: T = d] and [field: T], of the keyword arguments [kw]. *)
Definition field_or {A} (f : json -> option A) (k : string) (d : A) (kw : Obj) : result A :=
  match dict_get k kw with Some j => check (f j) | None => Ok d end.
Definition field_req {A} (f : json -> option A) (k : string) (kw : Obj) : result A :=
  match dict_get k kw with Some j => check (f j) | None => Raise (ValidationError model) end.
(** [extra="forbid"] *)
Definition no_extra (known : list string) (kw : Obj) : result unit :=
  if forallb (fun k => str_in k known) (dict_keys kw) then Ok () else Raise (ValidationError model).
End fields.

(** Strict on the exact type: the reading every law asks for and no more. *)
#[local] Instance exact_fields : Pydantic := {|
  lax_int := fun j => match j with JInt n => Some n | _ => None end;
  lax_str := fun j => match j with JStr s => Some s | _ => None end;
  lax_bool := fun j => match j with JBool b => Some b | _ => None end
|}.
#[local] Instance exact_fields_laws : PydanticLaws.
Proof. split; try done. by intros [] t [= <-]. Qed.
