(* ===== verification/Fsm.v ===== *)
(** * State machines: the interfaces the reducers of the repository share

    [Reducer] is the shape of every pure reducer node ([delta(state, event) ->
    (new_state, intents)]); the lemmas on [run] are proved once here and used
    by each component.  [RetryFsm] is the shape of the phase machines with a
    consecutive-failure circuit breaker (redeploy, PR review): the interface
    states what one step promises, and the termination bound and the breaker
    behaviour are proved against the interface. *)
From S2P Require Import Prelude.

(** ** Reducers *)

Class Reducer (S E I : Type) := reduce : S -> E -> S * list I.

(** Folding a sequence of events, collecting the intents in order. *)
Fixpoint run {S E I} `{Reducer S E I} (s : S) (es : list E) : S * list I :=
  match es with
  | [] => (s, [])
  | e :: es' =>
      let r := reduce s e in
      let r' := run r.1 es' in
      (r'.1, r.2 ++ r'.2)
  end.

Section reducer.
Context {S E I : Type} `{R : Reducer S E I}.
Implicit Types (s : S) (e : E) (es : list E).

Lemma run_app s es1 es2 :
  run s (es1 ++ es2) =
    ((run (run s es1).1 es2).1, (run s es1).2 ++ (run (run s es1).1 es2).2).
Proof.
  revert s. induction es1 as [|e es1 IH]; intros s; simpl; [by destruct (run s es2)|].
  rewrite IH. simpl. by rewrite app_assoc.
Qed.

Section invariant.
Context (Inv : S -> Prop) (HInv : forall s e, Inv s -> Inv (reduce s e).1).

Lemma run_invariant s es : Inv s -> Inv (run s es).1.
Proof using HInv. revert s. induction es; simpl; eauto. Qed.

(** Every intent of a run satisfies what the intents of one step satisfy. *)
Lemma run_intents (Q : I -> Prop) s es :
  (forall s e, Inv s -> Forall Q (reduce s e).2) -> Inv s -> Forall Q (run s es).2.
Proof using HInv.
  intros HQ. revert s. induction es as [|e es IH]; intros s Hs; simpl; [done|].
  apply Forall_app; split; [by apply HQ | by apply IH, HInv].
Qed.

(** A potential that pays for every intent bounds the weight of a run. *)
Lemma run_potential (w : list I -> nat) (rank : S -> nat) s es :
  w [] = 0 -> (forall l k, w (l ++ k) = w l + w k) ->
  (forall s e, Inv s -> w (reduce s e).2 + rank (reduce s e).1 <= rank s) ->
  Inv s -> w (run s es).2 + rank (run s es).1 <= rank s.
Proof using HInv.
  intros H0 Happ Hstep. revert s. induction es as [|e es IH]; intros s Hs; simpl.
  - rewrite H0. lia.
  - rewrite Happ. specialize (IH (reduce s e).1 (HInv s e Hs)).
    specialize (Hstep s e Hs). lia.
Qed.
End invariant.

(** An absorbing state ignores every event. *)
Lemma run_absorbed s es : (forall e, reduce s e = (s, [])) -> run s es = (s, []).
Proof.
  intros H. induction es as [|e es IH]; simpl; [done|].
  rewrite H. simpl. by rewrite IH.
Qed.

(** Two reducers related by a projection of their states run in lockstep. *)
Lemma run_preserves {T} (f : S -> T) s es :
  (forall s e, e ∈ es -> f (reduce s e).1 = f s) -> f (run s es).1 = f s.
Proof.
  revert s. induction es as [|e es IH]; intros s H; simpl; [done|].
  rewrite IH; [apply H; constructor|]. intros s' e' He. apply H. by constructor.
Qed.
End reducer.

(** ** Phase machines with a consecutive-failure circuit breaker *)

(** [advance] runs one phase with an outcome (and what the phase produced);
    [rank] counts the successful phases left, [wf] the states the machine can
    be in. *)
Class RetryFsm (S In : Type) := {
  rf_advance : S -> In -> result S;
  rf_success : In -> bool;
  rf_terminal : S -> bool;
  rf_failures : S -> nat;
  rf_max : S -> nat;
  rf_rank : S -> nat;
  rf_wf : S -> Prop;

  rf_terminal_raises s i : rf_terminal s = true -> exists m, rf_advance s i = Raise (ValueError m);
  rf_total s i : rf_wf s -> rf_terminal s = false -> exists s', rf_advance s i = Ok s';
  rf_preserves s i s' : rf_wf s -> rf_advance s i = Ok s' -> rf_wf s' /\ rf_max s' = rf_max s;
  rf_on_success s i s' : rf_wf s -> rf_success i = true -> rf_advance s i = Ok s' ->
    rf_failures s' = 0 /\ rf_rank s = 1 + rf_rank s' /\ (rf_terminal s' = true <-> rf_rank s' = 0);
  rf_on_failure s i s' : rf_wf s -> rf_success i = false -> rf_advance s i = Ok s' ->
    rf_failures s' = 1 + rf_failures s /\
    (rf_terminal s' = true <-> rf_max s <= 1 + rf_failures s) /\
    (rf_terminal s' = false -> rf_rank s' = rf_rank s);
  rf_below s : rf_wf s -> rf_terminal s = false -> rf_failures s < rf_max s /\ 1 <= rf_rank s
}.

(** Runs the phases until the outcomes are used up or the machine stops. *)
Fixpoint drive {S In} `{RetryFsm S In} (s : S) (os : list In) : result S :=
  match os with
  | [] => Ok s
  | i :: os' =>
      if rf_terminal s then Ok s
      else s' ← rf_advance s i; drive s' os'
  end.

Section retry.
Context {S In : Type} `{F : RetryFsm S In}.
Implicit Types (s : S) (i : In) (os : list In).

(** The outcomes a run can still consume before it stops. *)
Definition fuel_left (s : S) : nat :=
  if rf_terminal s then 0 else (rf_rank s - 1) * rf_max s + (rf_max s - rf_failures s).

Lemma fuel_left_decreases s i s' :
  rf_wf s -> rf_terminal s = false -> rf_advance s i = Ok s' -> fuel_left s' < fuel_left s.
Proof.
  intros Hwf Ht Ha. unfold fuel_left. rewrite Ht.
  destruct (rf_below s Hwf Ht) as [Hf Hr].
  destruct (rf_preserves s i s' Hwf Ha) as [Hwf' Hm].
  destruct (rf_success i) eqn:Hi.
  - destruct (rf_on_success s i s' Hwf Hi Ha) as (H0 & Hrank & Hterm).
    destruct (rf_terminal s') eqn:Ht'; [nia|].
    destruct (rf_below s' Hwf' Ht'). rewrite H0, Hrank, Hm.
    replace (1 + rf_rank s' - 1) with (1 + (rf_rank s' - 1)) by lia. nia.
  - destruct (rf_on_failure s i s' Hwf Hi Ha) as (Hf' & Hterm & Hrank).
    destruct (rf_terminal s') eqn:Ht'; [nia|].
    destruct (rf_below s' Hwf' Ht'). rewrite Hf', Hm, Hrank by done. lia.
Qed.

Lemma drive_terminates os s :
  rf_wf s -> fuel_left s <= length os ->
  exists s', drive s os = Ok s' /\ rf_terminal s' = true /\ rf_wf s'.
Proof.
  revert s. induction os as [|i os IH]; intros s Hwf Hl; simpl in *.
  - exists s. unfold fuel_left in Hl. destruct (rf_terminal s) eqn:Ht; [done|].
    destruct (rf_below s Hwf Ht). lia.
  - destruct (rf_terminal s) eqn:Ht; [by exists s|].
    destruct (rf_total s i Hwf Ht) as [s1 Hs1]. rewrite Hs1. simpl.
    pose proof (fuel_left_decreases s i s1 Hwf Ht Hs1).
    apply IH; [by eapply rf_preserves | lia].
Qed.

(** [n] failures in a row from a state with [f] failures behind it. *)
Lemma drive_failures os s :
  rf_wf s -> rf_terminal s = false -> Forall (fun i => rf_success i = false) os ->
  rf_failures s + length os < rf_max s ->
  exists s', drive s os = Ok s' /\ rf_terminal s' = false /\ rf_wf s' /\
    rf_failures s' = rf_failures s + length os /\ rf_rank s' = rf_rank s /\ rf_max s' = rf_max s.
Proof.
  revert s. induction os as [|i os IH]; intros s Hwf Ht Hall Hl; simpl in *.
  - exists s. rewrite Nat.add_0_r. done.
  - apply Forall_cons_1 in Hall as [Hi Hall]. rewrite Ht.
    destruct (rf_total s i Hwf Ht) as [s1 Hs1]. rewrite Hs1. simpl.
    destruct (rf_on_failure s i s1 Hwf Hi Hs1) as (Hf & Hterm & Hrank).
    destruct (rf_preserves s i s1 Hwf Hs1) as [Hwf1 Hm].
    assert (rf_terminal s1 = false) as Ht1.
    { destruct (rf_terminal s1); [|done]. destruct Hterm as [Hterm _]. specialize (Hterm eq_refl). lia. }
    destruct (IH s1 Hwf1 Ht1 Hall) as (s' & ? & ? & ? & Hf' & Hr' & Hm'); [lia|].
    exists s'. repeat split; try done; rewrite ?Hf', ?Hr', ?Hm', ?Hf, ?Hm, ?(Hrank Ht1); lia.
Qed.

Lemma drive_app os1 os2 s :
  drive s (os1 ++ os2) = (s' ← drive s os1; drive s' os2).
Proof.
  revert s. induction os1 as [|i os1 IH]; intros s; simpl; [done|].
  destruct (rf_terminal s) eqn:Ht.
  - simpl. destruct os2; simpl; by rewrite ?Ht.
  - destruct (rf_advance s i); simpl; [apply IH|done].
Qed.

(** What every step keeps, a run keeps. *)
Lemma drive_invariant (Inv : S -> Prop) os s s' :
  (forall s i s', Inv s -> rf_terminal s = false -> rf_advance s i = Ok s' -> Inv s') ->
  Inv s -> drive s os = Ok s' -> Inv s'.
Proof.
  intros Hstep. revert s. induction os as [|i os IH]; intros s Hs; simpl; [by intros [= <-]|].
  destruct (rf_terminal s) eqn:Ht; [by intros [= <-]|].
  destruct (rf_advance s i) as [s1|x] eqn:Ha; simpl; [|done]. apply IH. by eapply Hstep.
Qed.
End retry.
