(* ===== verification/LogMonad.v ===== *)
(** * Computations that keep a state, make logged calls and may raise

    The monad of the effectful handlers and its program logic: [spec A P m B X]
    says that from a state satisfying [A], every call [m] logs satisfies [P],
    a normal return satisfies [B] and an exception leaves a state satisfying
    [X]. *)
From S2P Require Import Prelude.

Section monad.
Context {S E : Type}.

Definition M (A : Type) : Type := S * list E -> (S * list E) * result A.

#[export] Instance M_ret : MRet M := fun A a s => (s, Ok a).
#[export] Instance M_bind : MBind M := fun A B k m s =>
  match m s with
  | (s', Ok a) => k a s'
  | (s', Raise e) => (s', Raise e)
  end.

(** Reading and assigning the state. *)
Definition get_state : M S := fun s => (s, Ok s.1).
Definition modify (f : S -> S) : M unit := fun s => ((f s.1, s.2), Ok ()).
(** A call to the outside: logged, and answered from the log before it. *)
Definition call {A} (e : E) (answer : list E -> result A) : M A := fun s =>
  ((s.1, s.2 ++ [e]), answer s.2).
Definition emit (e : E) : M unit := call e (fun _ => Ok ()).
(** Reading the outside without leaving a trace (the clock). *)
Definition ask {A} (answer : list E -> A) : M A := fun s => (s, Ok (answer s.2)).
Definition raise {A} (x : py_exn) : M A := fun s => (s, Raise x).
Definition lift {A} (r : result A) : M A := fun s => (s, r).
(** [try: m except Exception as exc: ...]: the outcome as a value. *)
Definition attempt {A} (m : M A) : M (result A) := fun s =>
  let '(s', r) := m s in (s', Ok r).
(** [if b: m] *)
Definition when (b : bool) (m : M unit) : M unit := if b then m else mret ().

(** [for x in l: f x], and the loop that accumulates a value. *)
Fixpoint for_each {A} (l : list A) (f : A -> M unit) : M unit :=
  match l with
  | [] => mret ()
  | x :: l' => _ ← f x; for_each l' f
  end.
Fixpoint fold_each {A B} (l : list A) (acc : B) (f : B -> A -> M B) : M B :=
  match l with
  | [] => mret acc
  | x :: l' => acc' ← f acc x; fold_each l' acc' f
  end.
End monad.
Arguments M S E A : clear implicits.

(** ** The program logic *)

Section spec.
Context {S E : Type}.
Implicit Types (A X : S -> Prop) (P : E -> Prop).

Definition spec {T} A P (m : M S E T) (B : T -> S -> Prop) X : Prop :=
  forall s, A s.1 ->
    exists l, (m s).1.2 = s.2 ++ l /\ Forall P l
      /\ match (m s).2 with
         | Ok a => B a (m s).1.1
         | Raise _ => X (m s).1.1
         end.

Lemma spec_weaken {T} A A' P P' (m : M S E T) (B B' : T -> S -> Prop) X X' :
  spec A P m B X ->
  (forall s, A' s -> A s) -> (forall e, P e -> P' e) ->
  (forall a s, B a s -> B' a s) -> (forall s, X s -> X' s) ->
  spec A' P' m B' X'.
Proof.
  intros H HA HP HB HX s Hs. destruct (H s (HA _ Hs)) as (l & Hl & Hp & Hr).
  exists l. split_and!; [done|by eapply Forall_impl|]. destruct (m s).2; auto.
Qed.

Lemma spec_pre {T} (Q : Prop) A P (m : M S E T) (B : T -> S -> Prop) X :
  (Q -> spec A P m B X) -> spec (fun s => Q /\ A s) P m B X.
Proof. intros H s [HQ Hs]. by apply H. Qed.

Lemma spec_exists {I T} (Q : I -> Prop) (A : I -> S -> Prop) P (m : M S E T) (B : T -> S -> Prop) X :
  (forall i, Q i -> spec (A i) P m B X) -> spec (fun s => exists i, Q i /\ A i s) P m B X.
Proof. intros H s (i & Hi & Hs). by apply (H i Hi). Qed.
Lemma spec_or {T} A A' P (m : M S E T) (B : T -> S -> Prop) X :
  spec A P m B X -> spec A' P m B X -> spec (fun s => A s \/ A' s) P m B X.
Proof. intros H H' s [Hs|Hs]; eauto. Qed.

Lemma spec_ret {T} A P (a : T) (B : T -> S -> Prop) X :
  (forall s, A s -> B a s) -> spec A P (mret a) B X.
Proof. intros H s Hs. exists []. rewrite app_nil_r. split_and!; [done..|]. by apply H. Qed.

Lemma spec_bind {T U} A P (m : M S E T) (k : T -> M S E U) (C : T -> S -> Prop) (B : U -> S -> Prop) X :
  spec A P m C X -> (forall a, spec (C a) P (k a) B X) -> spec A P (m ≫= k) B X.
Proof.
  intros Hm Hk s Hs. destruct (Hm s Hs) as (l & Hl & Hp & Hr).
  unfold mbind, M_bind. destruct (m s) as [s' [a|x]]; simpl in *.
  - destruct (Hk a s' Hr) as (l' & Hl' & Hp' & Hr').
    exists (l ++ l'). rewrite Hl', Hl, app_assoc. split_and!; [done|by apply Forall_app|done].
  - exists l. split_and!; done.
Qed.

Lemma spec_get A P (B : S -> S -> Prop) X : (forall s, A s -> B s s) -> spec A P get_state B X.
Proof. intros H s Hs. exists []. rewrite app_nil_r. split_and!; [done..|]. by apply H. Qed.
Lemma spec_modify A P f (B : unit -> S -> Prop) X : (forall s, A s -> B () (f s)) -> spec A P (modify f) B X.
Proof. intros H s Hs. exists []. rewrite app_nil_r. split_and!; [done..|]. by apply H. Qed.
Lemma spec_call {T} A P e (answer : list E -> result T) (B : T -> S -> Prop) X :
  P e ->
  (forall l a s, A s -> answer l = Ok a -> B a s) -> (forall s, A s -> X s) -> spec A P (call e answer) B X.
Proof.
  intros He Ha HX s Hs. exists [e]. simpl. split_and!; [done|by constructor|].
  destruct (answer s.2) eqn:Er; simpl; eauto.
Qed.
Lemma spec_call_total {T} A P e (answer : list E -> result T) (B : T -> S -> Prop) X :
  P e -> (forall l, exists a, answer l = Ok a /\ forall s, A s -> B a s) -> spec A P (call e answer) B X.
Proof.
  intros He Ha s Hs. exists [e]. simpl. split_and!; [done|by constructor|].
  destruct (Ha s.2) as (a & -> & HB). by apply HB.
Qed.
Lemma spec_emit A P e (B : unit -> S -> Prop) X : P e -> (forall s, A s -> B () s) -> spec A P (emit e) B X.
Proof. intros He H s Hs. exists [e]. split_and!; [done|by constructor|]. by apply H. Qed.
Lemma spec_ask {T} A P (answer : list E -> T) (B : T -> S -> Prop) X :
  (forall l s, A s -> B (answer l) s) -> spec A P (ask answer) B X.
Proof. intros H s Hs. exists []. rewrite app_nil_r. split_and!; [done..|]. by apply H. Qed.
Lemma spec_lift {T} A P (r : result T) (B : T -> S -> Prop) X :
  (forall a s, A s -> r = Ok a -> B a s) -> (forall s, A s -> X s) -> spec A P (lift r) B X.
Proof.
  intros H HX s Hs. exists []. rewrite app_nil_r. split_and!; [done..|]. simpl. destruct r; eauto.
Qed.
Lemma spec_raise {T} A P x (B : T -> S -> Prop) X : (forall s, A s -> X s) -> spec A P (raise x) B X.
Proof. intros HX s Hs. exists []. rewrite app_nil_r. split_and!; [done..|]. simpl. auto. Qed.
Lemma spec_attempt {T} A P (m : M S E T) (B : result T -> S -> Prop) X X' :
  spec A P m (fun a => B (Ok a)) X -> (forall x s, X s -> B (Raise x) s) -> spec A P (attempt m) B X'.
Proof.
  intros H HX s Hs. destruct (H s Hs) as (l & Hl & Hp & Hr). exists l.
  unfold attempt. destruct (m s) as [s' r]; simpl in *. split_and!; [done..|]. destruct r; eauto.
Qed.
Lemma spec_when A P b (m : M S E unit) (B : unit -> S -> Prop) X :
  (b = true -> spec A P m B X) -> (forall s, A s -> B () s) -> spec A P (when b m) B X.
Proof. intros H Hs. unfold when. destruct b; [by apply H|by apply spec_ret]. Qed.

Lemma spec_for_each {T} A P (l : list T) (f : T -> M S E unit) X :
  (forall x, x ∈ l -> spec A P (f x) (fun _ => A) X) -> spec A P (for_each l f) (fun _ => A) X.
Proof.
  induction l as [|x l IH]; intros H; simpl; [by apply spec_ret|].
  eapply spec_bind; [apply H; constructor|]. intros []. apply IH. intros y Hy. apply H. by constructor.
Qed.
Lemma spec_fold_each {T U} (A : U -> S -> Prop) P (l : list T) acc (f : U -> T -> M S E U) X :
  (forall u x, x ∈ l -> spec (A u) P (f u x) A X) -> spec (A acc) P (fold_each l acc f) A X.
Proof.
  revert acc. induction l as [|x l IH]; intros acc H; simpl; [by apply spec_ret|].
  eapply spec_bind; [apply H; constructor|]. intros u. apply IH. intros v y Hy. apply H. by constructor.
Qed.
End spec.

(** ** What a computation may log, whatever the state *)

Section emits.
Context {S E : Type}.
Implicit Types (P : E -> Prop).

Definition emits {T} P (m : M S E T) : Prop :=
  spec (fun _ => True) P m (fun _ _ => True) (fun _ => True).

Lemma emits_spec {T} A P (m : M S E T) : emits P m -> spec A P m (fun _ _ => True) (fun _ => True).
Proof. intros H. eapply spec_weaken; [exact H|done..]. Qed.
Lemma emits_weaken {T} P P' (m : M S E T) : emits P m -> (forall e, P e -> P' e) -> emits P' m.
Proof. intros H HP. eapply spec_weaken; [exact H|done|done|done|done]. Qed.

Lemma emits_ret {T} P (a : T) : emits P (mret a).
Proof. by apply spec_ret. Qed.
Lemma emits_bind {T U} P (m : M S E T) (k : T -> M S E U) :
  emits P m -> (forall a, emits P (k a)) -> emits P (m ≫= k).
Proof. intros Hm Hk. by eapply spec_bind. Qed.
Lemma emits_get P : emits P get_state.
Proof. by apply spec_get. Qed.
Lemma emits_modify P f : emits P (modify f).
Proof. by apply spec_modify. Qed.
Lemma emits_call {T} P e (answer : list E -> result T) : P e -> emits P (call e answer).
Proof. intros He. by apply spec_call. Qed.
Lemma emits_emit P e : P e -> emits P (emit e).
Proof. intros He. by apply spec_emit. Qed.
Lemma emits_ask {T} P (answer : list E -> T) : emits P (ask answer).
Proof. by apply spec_ask. Qed.
Lemma emits_lift {T} P (r : result T) : emits P (lift r).
Proof. by apply spec_lift. Qed.
Lemma emits_raise {T} P x : emits P (raise (A := T) x).
Proof. by apply spec_raise. Qed.
Lemma emits_attempt {T} P (m : M S E T) : emits P m -> emits P (attempt m).
Proof. intros H. eapply spec_attempt; [exact H|done]. Qed.
Lemma emits_when P b (m : M S E unit) : (b = true -> emits P m) -> emits P (when b m).
Proof. intros H. by apply spec_when. Qed.
Lemma emits_for_each {T} P (l : list T) (f : T -> M S E unit) :
  (forall x, x ∈ l -> emits P (f x)) -> emits P (for_each l f).
Proof. intros H. by apply spec_for_each. Qed.
Lemma emits_fold_each {T U} P (l : list T) (acc : U) (f : U -> T -> M S E U) :
  (forall u x, x ∈ l -> emits P (f u x)) -> emits P (fold_each l acc f).
Proof. intros H. by apply (spec_fold_each (fun _ _ => True)). Qed.

(** The value a computation returns, with the effects it may log. *)
Definition returns {T} P (m : M S E T) (Q : T -> Prop) : Prop :=
  spec (fun _ => True) P m (fun a _ => Q a) (fun _ => True).

Lemma returns_bind {T U} P (m : M S E T) (k : T -> M S E U) Q R :
  returns P m Q -> (forall a, Q a -> returns P (k a) R) -> returns P (m ≫= k) R.
Proof.
  intros Hm Hk. eapply spec_bind; [exact Hm|]. intros a s Hs. by apply (Hk a Hs s).
Qed.
Lemma returns_emits {T} P (m : M S E T) Q : returns P m Q -> emits P m.
Proof. intros H. by eapply spec_weaken. Qed.
Lemma emits_returns {T} P (m : M S E T) : emits P m -> returns P m (fun _ => True).
Proof. done. Qed.
Lemma returns_seq {T U} P (m : M S E T) (k : T -> M S E U) R :
  emits P m -> (forall a, returns P (k a) R) -> returns P (m ≫= k) R.
Proof. intros Hm Hk. eapply returns_bind; [exact Hm|]. auto. Qed.
Lemma returns_ret {T} P (a : T) (Q : T -> Prop) : Q a -> returns P (mret a) Q.
Proof. intros HQ. by apply spec_ret. Qed.
Lemma returns_call {T} P e (answer : list E -> result T) (Q : T -> Prop) :
  P e -> (forall l a, answer l = Ok a -> Q a) -> returns P (call e answer) Q.
Proof. intros He Ha. apply spec_call; eauto. Qed.
Lemma returns_lift {T} P (r : result T) (Q : T -> Prop) :
  (forall a, r = Ok a -> Q a) -> returns P (lift r) Q.
Proof. intros Ha. apply spec_lift; eauto. Qed.
Lemma returns_weaken {T} P (m : M S E T) (Q R : T -> Prop) :
  returns P m Q -> (forall a, Q a -> R a) -> returns P m R.
Proof. intros Hm HQ. eapply spec_weaken; [exact Hm|done|done|by eauto|done]. Qed.
Lemma returns_widen {T} P P' (m : M S E T) (Q : T -> Prop) :
  returns P m Q -> (forall e, P e -> P' e) -> returns P' m Q.
Proof. intros Hm HP. eapply spec_weaken; [exact Hm|done|exact HP|done|done]. Qed.
Lemma returns_attempt {T} P (m : M S E T) (Q : T -> Prop) :
  returns P m Q -> returns P (attempt m) (fun r => forall a, r = Ok a -> Q a).
Proof.
  intros Hm. apply (spec_attempt _ _ _ (fun r _ => forall a, r = Ok a -> Q a) (fun _ => True)).
  - eapply spec_weaken; [exact Hm|done|done| |done]. intros a s Ha b [= <-]. exact Ha.
  - intros x s _ a Hx. discriminate Hx.
Qed.
Lemma returns_fold {T U} P (l : list T) (acc : U) (f : U -> T -> M S E U) (Q : U -> Prop) :
  Q acc -> (forall u x, x ∈ l -> Q u -> returns P (f u x) Q) -> returns P (fold_each l acc f) Q.
Proof.
  intros Hacc Hf. eapply spec_weaken; [apply (spec_fold_each (fun u _ => Q u) P l acc f (fun _ => True))|..]; try done.
  intros u x Hx s Hs. by apply (Hf u x Hx Hs).
Qed.

(** What [emits] says of a run. *)
Lemma emits_run {T} P (m : M S E T) s : emits P m -> exists l, (m s).1.2 = s.2 ++ l /\ Forall P l.
Proof. intros H. destruct (H s I) as (l & ? & ? & _). eauto. Qed.

(** How many effects of a kind a computation may log. *)
Definition at_most {T} (p : E -> bool) (n : nat) (m : M S E T) : Prop :=
  forall s, exists l, (m s).1.2 = s.2 ++ l /\ count p l <= n.

Lemma emits_at_most {T} (p : E -> bool) n (m : M S E T) : emits (fun e => p e = false) m -> at_most p n m.
Proof.
  intros H s. destruct (emits_run _ m s H) as (l & Hl & Hp). exists l. split; [done|].
  replace (count p l) with 0; [lia|]. clear Hl. induction Hp as [|e l He _ IH]; [done|].
  by rewrite count_cons, He.
Qed.
Lemma at_most_bind {T U} p a b (m : M S E T) (k : T -> M S E U) :
  at_most p a m -> (forall x, at_most p b (k x)) -> at_most p (a + b) (m ≫= k).
Proof.
  intros Hm Hk s. destruct (Hm s) as (l & Hl & Hc). unfold mbind, M_bind.
  destruct (m s) as [s' [x|e]]; simpl in *.
  - destruct (Hk x s') as (l' & Hl' & Hc'). exists (l ++ l').
    rewrite Hl', Hl, app_assoc, count_app. split; [done|lia].
  - exists l. split; [done|lia].
Qed.
Lemma at_most_fold {T U} p (l : list T) (acc : U) (f : U -> T -> M S E U) :
  (forall u x, at_most p 1 (f u x)) -> at_most p (length l) (fold_each l acc f).
Proof.
  intros Hf. revert acc. induction l as [|x l IH]; intros acc; simpl.
  - intros s. exists []. by rewrite app_nil_r.
  - apply (at_most_bind p 1); auto.
Qed.
Lemma at_most_0_bind {T U} p n (m : M S E T) (k : T -> M S E U) :
  emits (fun e => p e = false) m -> (forall x, at_most p n (k x)) -> at_most p n (m ≫= k).
Proof. intros Hm Hk. by apply (at_most_bind p 0 n); [apply emits_at_most|]. Qed.
Lemma at_most_bind_0 {T U} p n (m : M S E T) (k : T -> M S E U) :
  at_most p n m -> (forall x, emits (fun e => p e = false) (k x)) -> at_most p n (m ≫= k).
Proof.
  intros Hm Hk. replace n with (n + 0) by lia. apply at_most_bind; [done|].
  intros x. by apply emits_at_most.
Qed.
Lemma at_most_attempt {T} p n (m : M S E T) : at_most p n m -> at_most p n (attempt m).
Proof. intros Hm s. destruct (Hm s) as (l & Hl). exists l. unfold attempt. by destruct (m s). Qed.
Lemma at_most_when p n b (m : M S E unit) : at_most p n m -> at_most p n (when b m).
Proof.
  intros Hm. destruct b; [done|]. intros s. exists []. simpl. rewrite app_nil_r. split; [done|].
  unfold count. simpl. lia.
Qed.
Lemma at_most_weaken {T} p a b (m : M S E T) : at_most p a m -> a <= b -> at_most p b m.
Proof. intros H Hab s. destruct (H s) as (l & ? & ?). exists l. split; [done|lia]. Qed.
End emits.

#[export] Hint Resolve emits_ret emits_get emits_modify emits_ask emits_lift emits_raise : onex.

(** Executes a computation symbolically, leaving the loops' bodies and the
    calls whose effect needs an argument. *)
Ltac emits_step :=
  first
    [ solve [eauto with onex nocore]
    | apply emits_bind; [|intros ?]
    | apply emits_call | apply emits_emit | apply emits_attempt
    | apply emits_when; intros ?
    | apply emits_for_each; intros ? ?
    | apply emits_fold_each; intros ? ? ?
    | match goal with
      | |- emits _ (match ?x with _ => _ end) => destruct x
      end ].
Ltac emits_auto := repeat emits_step; try done.

(** ** Computations that keep a property of the state *)

Section keeps.
Context {S E : Type}.
Implicit Types (I : S -> Prop) (P : E -> Prop).

Definition keeps {T} I P (m : M S E T) : Prop := spec I P m (fun _ => I) I.

Lemma keeps_ret {T} I P (a : T) : keeps I P (mret a).
Proof. by apply spec_ret. Qed.
Lemma keeps_bind {T U} I P (m : M S E T) (k : T -> M S E U) :
  keeps I P m -> (forall a, keeps I P (k a)) -> keeps I P (m ≫= k).
Proof. intros Hm Hk. by eapply spec_bind. Qed.
Lemma keeps_get I P : keeps I P get_state.
Proof. by apply spec_get. Qed.
Lemma keeps_modify I P f : (forall s, I s -> I (f s)) -> keeps I P (modify f).
Proof. intros H. by apply spec_modify. Qed.
Lemma keeps_call {T} I P e (answer : list E -> result T) : P e -> keeps I P (call e answer).
Proof. intros He. by apply spec_call. Qed.
Lemma keeps_emit I P e : P e -> keeps I P (emit e).
Proof. intros He. by apply spec_emit. Qed.
Lemma keeps_ask {T} I P (answer : list E -> T) : keeps I P (ask answer).
Proof. by apply spec_ask. Qed.
Lemma keeps_lift {T} I P (r : result T) : keeps I P (lift r).
Proof. by apply spec_lift. Qed.
Lemma keeps_raise {T} I P x : keeps I P (raise (A := T) x).
Proof. by apply spec_raise. Qed.
Lemma keeps_attempt {T} I P (m : M S E T) : keeps I P m -> keeps I P (attempt m).
Proof. intros H. eapply spec_attempt; [exact H|done]. Qed.
Lemma keeps_when I P b (m : M S E unit) : (b = true -> keeps I P m) -> keeps I P (when b m).
Proof. intros H. by apply spec_when. Qed.
Lemma keeps_for_each {T} I P (l : list T) (f : T -> M S E unit) :
  (forall x, x ∈ l -> keeps I P (f x)) -> keeps I P (for_each l f).
Proof. intros H. by apply spec_for_each. Qed.
Lemma keeps_fold_each {T U} I P (l : list T) (acc : U) (f : U -> T -> M S E U) :
  (forall u x, x ∈ l -> keeps I P (f u x)) -> keeps I P (fold_each l acc f).
Proof. intros H. by apply (spec_fold_each (fun _ => I)). Qed.
End keeps.

#[export] Hint Resolve keeps_ret keeps_get keeps_ask keeps_lift keeps_raise : onex.

(** As [emits_auto], with assignments of other parts of the state left to [done]. *)
Ltac keeps_step :=
  first
    [ solve [eauto with onex nocore]
    | apply keeps_bind; [|intros ?]
    | apply keeps_call; done | apply keeps_emit; done | apply keeps_attempt
    | apply keeps_modify; intros [? ?] ?; done
    | apply keeps_when; intros ?
    | apply keeps_for_each; intros ? ?
    | apply keeps_fold_each; intros ? ? ?
    | match goal with
      | |- keeps _ _ (match ?x with _ => _ end) => destruct x
      end ].
Ltac keeps_auto := repeat keeps_step; try done.

(** ** Weakest preconditions

    [wp m Q X s]: run from [s], [m] returns a value and a state that satisfy [Q],
    or raises in a state that satisfies [X].  The rules execute a computation
    from a concrete state, where [spec] reasons about all of them. *)

Section wp.
Context {S E : Type}.
Implicit Types (s : S * list E) (X : S -> Prop).

Definition wp {T} (m : M S E T) (Q : T -> S * list E -> Prop) X s : Prop :=
  match m s with
  | (s', Ok a) => Q a s'
  | (s', Raise _) => X s'.1
  end.

Lemma wp_mono {T} (m : M S E T) (Q Q' : T -> S * list E -> Prop) X s :
  wp m Q X s -> (forall a s', Q a s' -> Q' a s') -> wp m Q' X s.
Proof. unfold wp. intros H HQ. destruct (m s) as [? []]; auto. Qed.
Lemma wp_conseq {T} (m : M S E T) (Q Q' : T -> S * list E -> Prop) X X' s :
  wp m Q X s -> (forall a s', Q a s' -> Q' a s') -> (forall w, X w -> X' w) -> wp m Q' X' s.
Proof. unfold wp. intros H HQ HX. destruct (m s) as [? []]; auto. Qed.
Lemma wp_ret {T} (a : T) (Q : T -> S * list E -> Prop) X s : Q a s -> wp (mret a) Q X s.
Proof. done. Qed.
Lemma wp_bind {T U} (m : M S E T) (k : T -> M S E U) (Q : U -> S * list E -> Prop) X s :
  wp m (fun a => wp (k a) Q X) X s -> wp (m ≫= k) Q X s.
Proof. unfold wp, mbind, M_bind. by destruct (m s) as [? []]. Qed.
Lemma wp_get (Q : S -> S * list E -> Prop) X s : Q s.1 s -> wp get_state Q X s.
Proof. done. Qed.
Lemma wp_modify f (Q : unit -> S * list E -> Prop) X s : Q () (f s.1, s.2) -> wp (modify f) Q X s.
Proof. done. Qed.
Lemma wp_call {T} e (answer : list E -> result T) (Q : T -> S * list E -> Prop) X s :
  (forall a, answer s.2 = Ok a -> Q a (s.1, s.2 ++ [e])) -> (forall x, answer s.2 = Raise x -> X s.1) ->
  wp (call e answer) Q X s.
Proof. unfold wp, call. destruct (answer s.2) eqn:Er; eauto. Qed.
Lemma wp_lift {T} (r : result T) (Q : T -> S * list E -> Prop) X s :
  (forall a, r = Ok a -> Q a s) -> (forall x, r = Raise x -> X s.1) -> wp (lift r) Q X s.
Proof. unfold wp, lift. destruct r; eauto. Qed.
Lemma wp_raise {T} x (Q : T -> S * list E -> Prop) X s : X s.1 -> wp (raise x) Q X s.
Proof. done. Qed.
Lemma wp_when b (m : M S E unit) (Q : unit -> S * list E -> Prop) X s :
  (b = true -> wp m Q X s) -> (b = false -> Q () s) -> wp (when b m) Q X s.
Proof. intros H1 H2. destruct b; [by apply H1|]. by apply wp_ret, H2. Qed.
(** A loop: [I] holds of the elements passed, the value and the state. *)
Lemma wp_fold_each {T U} (l : list T) (acc : U) (f : U -> T -> M S E U) (I : list T -> U -> S * list E -> Prop) X s :
  I [] acc s ->
  (forall done x rest u s', l = done ++ x :: rest -> I done u s' -> wp (f u x) (I (done ++ [x])) X s') ->
  wp (fold_each l acc f) (I l) X s.
Proof.
  intros H0 Hf.
  enough (forall k done u s', l = done ++ k -> I done u s' -> wp (fold_each k u f) (I l) X s') as H by by apply (H l []).
  induction k as [|x k IH]; intros done u s' Hl Hi; simpl.
  - rewrite app_nil_r in Hl. subst. by apply wp_ret.
  - apply wp_bind. eapply wp_mono; [by eapply Hf|]. intros u' s'' Hi'. apply (IH (done ++ [x])); [by rewrite <- app_assoc|done].
Qed.

(** What a weakest precondition says of a run that returned. *)
Lemma wp_run {T} (m : M S E T) (Q : T -> S * list E -> Prop) X s s' a :
  wp m Q X s -> m s = (s', Ok a) -> Q a s'.
Proof. unfold wp. intros H Hm. by rewrite Hm in H. Qed.
End wp.

(** The value a run returns, whatever it logs: [gives m Q]. *)
Section gives.
Context {S E : Type}.

Definition gives {T} (m : M S E T) (Q : T -> Prop) : Prop := forall s s' a, m s = (s', Ok a) -> Q a.

Lemma gives_any {T} (m : M S E T) : gives m (fun _ => True).
Proof. done. Qed.
Lemma gives_weaken {T} (m : M S E T) (Q R : T -> Prop) : gives m Q -> (forall a, Q a -> R a) -> gives m R.
Proof. unfold gives. eauto. Qed.
Lemma gives_ret {T} (a : T) (Q : T -> Prop) : Q a -> gives (mret a) Q.
Proof. by intros HQ s s' b [= _ <-]. Qed.
Lemma gives_bind {T U} (m : M S E T) (k : T -> M S E U) (Q : T -> Prop) (R : U -> Prop) :
  gives m Q -> (forall a, Q a -> gives (k a) R) -> gives (m ≫= k) R.
Proof.
  intros Hm Hk s s' b. unfold mbind, M_bind. destruct (m s) as [s1 [a|x]] eqn:E1; [|done].
  intros Hb. by apply (Hk a (Hm _ _ _ E1) s1 s').
Qed.
Lemma gives_lift {T} (r : result T) (Q : T -> Prop) : (forall a, r = Ok a -> Q a) -> gives (lift r) Q.
Proof. intros Hr s s' a [= _ Ha]. by apply Hr. Qed.
Lemma gives_call {T} e (answer : list E -> result T) (Q : T -> Prop) :
  (forall l a, answer l = Ok a -> Q a) -> gives (call e answer) Q.
Proof. intros Hr s s' a [= _ Ha]. by apply (Hr s.2). Qed.
Lemma gives_fold {T U} (l : list T) (acc : U) (f : U -> T -> M S E U) (Q : U -> Prop) :
  Q acc -> (forall u x, x ∈ l -> Q u -> gives (f u x) Q) -> gives (fold_each l acc f) Q.
Proof.
  revert acc. induction l as [|x l IH]; intros acc Hacc Hf; simpl; [by apply gives_ret|].
  eapply gives_bind; [apply Hf; [constructor|exact Hacc]|]. intros u Hu. apply IH; [done|].
  intros v y Hy. apply Hf. by constructor.
Qed.
End gives.

(** ** Running a computation *)

Section running.
Context {S E : Type}.
Implicit Types (s : S * list E).

Lemma run_bind {T U} (m : M S E T) (k : T -> M S E U) s :
  (m ≫= k) s = match m s with (s', Ok a) => k a s' | (s', Raise e) => (s', Raise e) end.
Proof. done. Qed.
Lemma run_get s : (get_state : M S E S) s = (s, Ok s.1).
Proof. done. Qed.
Lemma run_ret {T} (a : T) s : (mret a : M S E T) s = (s, Ok a).
Proof. done. Qed.
Lemma run_lift {T} (r : result T) s : (lift r : M S E T) s = (s, r).
Proof. done. Qed.
Lemma run_modify f s : (modify f : M S E unit) s = ((f s.1, s.2), Ok ()).
Proof. done. Qed.
Lemma run_call {T} e (answer : list E -> result T) s : call e answer s = ((s.1, s.2 ++ [e]), answer s.2).
Proof. done. Qed.
Lemma run_raise {T} x s : (raise x : M S E T) s = (s, Raise x).
Proof. done. Qed.
Lemma run_attempt {T} (m : M S E T) s : attempt m s = ((m s).1, Ok (m s).2).
Proof. unfold attempt. by destruct (m s). Qed.
End running.

(** One computation, run from a pair. *)
Ltac mrun := repeat first
  [ rewrite run_bind | rewrite run_get | rewrite run_ret | rewrite run_lift | rewrite run_modify
  | rewrite run_call | rewrite run_raise | rewrite run_attempt | progress cbn [fst snd] ].
