(* ===== verification/GithubApi.v ===== *)
(** * The GitHub helper

    [github_api.py]: REST and GraphQL calls with their error, the normalised
    status rollup and review threads of an open pull request, and the
    transport class ([GitHubHttpTransport]) with its pagination.  The network
    ([urllib.request.urlopen]) is a function of the calls made so far. *)
From S2P Require Import Prelude PyJson PyDyn LogMonad.

(** ** Calls and their errors *)

Record HttpRequest := {
  rq_method : string;
  rq_url : string;
  rq_headers : list (string * string);
  rq_body : option json
}.

(** How [urlopen] ends: a body (decoded), an [HTTPError] with its code, its
    body and its text, a [URLError] or [OSError] with its text. *)
Inductive http_answer : Type :=
  | HttpBody (raw : string)
  | HttpError (code : Z) (body text : string)
  | NetworkError (text : string).

(** What a helper returns, or the [GitHubApiError] it raises, with its status. *)
Inductive api (A : Type) : Type :=
  | Answer (a : A)
  | GitHubApiError (message : string) (status_code : option Z).
Arguments Answer {A} a.
Arguments GitHubApiError {A} message status_code.

Definition api_raise {A} (x : api A) : result A :=
  match x with Answer a => Ok a | GitHubApiError m _ => Raise (OtherError "GitHubApiError" m) end.

(** [s.partition("/")] around the first slash. *)
Fixpoint split_slash (s : string) : option (string * string) :=
  match s with
  | EmptyString => None
  | String c t =>
      if Ascii.eqb c "/" then Some (EmptyString, t)
      else match split_slash t with Some (a, b) => Some (String c a, b) | None => None end
  end.
Definition split_repo (repo : string) : api (string * string) :=
  match split_slash repo with
  | Some (owner, name) =>
      if truthy owner && truthy name then Answer (owner, name)
      else GitHubApiError ("invalid repo slug: " +:+ py_repr repo) None
  | None => GitHubApiError ("invalid repo slug: " +:+ py_repr repo) None
  end.

(** ** The open pull requests, normalised *)

(** [(v or "").upper()] *)
Definition upper_text (v : option json) : result string := str_method "upper" py_upper (or_else (JStr EmptyString) v).

(** One context of the rollup; a context of another type is left out. *)
Definition rollup_entry (ctx : json) : result (option Obj) :=
  typename ← py_get_or "__typename" (JStr EmptyString) ctx;
  match typename with
  | JStr "CheckRun" =>
      name ← py_get_or "name" (JStr EmptyString) ctx;
      conclusion ← py_get "conclusion" ctx;
      conclusion ← upper_text conclusion;
      status ← py_get_or "status" (JStr EmptyString) ctx;
      details ← py_get_or "detailsUrl" (JStr EmptyString) ctx;
      Ok (Some [("name", name); ("conclusion", JStr conclusion); ("status", status); ("detailsUrl", details)])
  | JStr "StatusContext" =>
      raw_state ← py_get "state" ctx;
      state ← upper_text raw_state;
      context ← py_get_or "context" (JStr EmptyString) ctx;
      details ← py_get_or "targetUrl" (JStr EmptyString) ctx;
      Ok (Some [("context", context);
                ("conclusion", JStr (if String.eqb state "SUCCESS" then "SUCCESS" else state));
                ("state", default (JStr EmptyString) raw_state); ("detailsUrl", details)])
  | _ => Ok None
  end.
Definition _normalize_open_pr_rollup (rollup_nodes : list json) : result (list Obj) :=
  entries ← omap_result rollup_entry rollup_nodes;
  Ok (map (dict_set "isRequired" (JBool true)) entries).

(** [{"id": comment["id"]}] of a comment that is a dict with an id. *)
Definition comment_entry (comment : json) : option json :=
  match comment with
  | JObj o => match dict_get "id" o with
              | Some id => if truthy id then Some (JObj [("id", id)]) else None
              | None => None
              end
  | _ => None
  end.
(** [((j.get(k) or {}).get("nodes")) or []] as a list. *)
Definition nodes_of (k : string) (j : json) : result (list json) :=
  conn ← py_get k j;
  nodes ← py_get "nodes" (or_else (JObj []) conn);
  py_iter (or_else (JArr []) nodes).
Definition review_thread (thread : json) : result json :=
  comments ← nodes_of "comments" thread;
  resolved ← py_get_or "isResolved" (JBool false) thread;
  Ok (JObj [("isResolved", JBool (truthy resolved)); ("comments", JArr (omap comment_entry comments))]).
Definition _normalize_review_threads (raw_threads : list json) : result (list json) :=
  map_result review_thread raw_threads.

(** ** The calls *)

(** The base URLs are read from the configuration file. *)
Section calls.
Context (_GITHUB_REST _GITHUB_GRAPHQL : string).
Context (w_http : list HttpRequest -> HttpRequest -> http_answer).
Abbreviation Act := (M unit HttpRequest).

Definition _GITHUB_API_VERSION : string := "2026-03-10".
Definition _base_headers (token : string) : list (string * string) :=
  [("Authorization", "Bearer " +:+ token); ("Accept", "application/vnd.github+json");
   ("X-GitHub-Api-Version", _GITHUB_API_VERSION)].
Definition json_content : string * string := ("Content-Type", "application/json").

Definition urlopen (rq : HttpRequest) : Act http_answer := call rq (fun l => Ok (w_http l rq)).

(** [detail or str(exc)] with the status of the [HTTPError]; [str(exc)]. *)
Definition http_error {A} (code : Z) (body text : string) : api A :=
  GitHubApiError (py_or (py_strip body) text) (Some code).
Definition network_error {A} (text : string) : api A := GitHubApiError text None.

Definition rest_request (method path token : string) (body : option Obj) : HttpRequest :=
  {| rq_method := method; rq_url := _GITHUB_REST +:+ path;
     rq_headers := _base_headers token ++ (match body with Some _ => [json_content] | None => [] end);
     rq_body := JObj <$> body |}.

(** The parsed body of a call, when [shape] accepts it. *)
Definition parse_body {A} (path raw : string) (empty : A) (shape : json -> option A) : api A :=
  if negb (truthy raw) then Answer empty
  else match json_loads raw with
       | Raise exc => GitHubApiError ("invalid JSON response for " +:+ path +:+ ": " +:+ exn_str exc) None
       | Ok parsed =>
           match shape parsed with
           | Some a => Answer a
           | None => GitHubApiError ("unexpected JSON response type for " +:+ path) None
           end
       end.

Definition as_dict (j : json) : option Obj := match j with JObj o => Some o | _ => None end.
Definition as_list (j : json) : option (list json) := match j with JArr l => Some l | _ => None end.

Definition rest_json (method path token : string) (body : option Obj) : Act (api Obj) :=
  answer ← urlopen (rest_request method path token body);
  mret (match answer with
        | HttpError code detail text => http_error code detail text
        | NetworkError text => network_error text
        | HttpBody raw => parse_body path raw [] as_dict
        end).

Definition rest_json_array (method path token : string) : Act (api (list json)) :=
  answer ← urlopen (rest_request method path token None);
  mret (match answer with
        | HttpError code detail text => http_error code detail text
        | NetworkError text => network_error text
        | HttpBody raw => parse_body path raw [] as_list
        end).

Definition rest_no_content (method path token : string) (body : option Obj) : Act (api unit) :=
  answer ← urlopen (rest_request method path token body);
  mret (match answer with
        | HttpError code detail text => http_error code detail text
        | NetworkError text => network_error text
        | HttpBody _ => Answer ()
        end).

(** The payload of a GraphQL answer. *)
Definition graphql_payload (body : json) : result (api Obj) :=
  errors ← py_get "errors" body;
  match errors with
  | Some e => if truthy e then Ok (GitHubApiError (json_dumps e) None)
              else data ← py_get "data" body;
                   Ok (match data with Some (JObj o) => Answer o
                                     | _ => GitHubApiError "missing GraphQL data payload" None end)
  | None => data ← py_get "data" body;
            Ok (match data with Some (JObj o) => Answer o
                              | _ => GitHubApiError "missing GraphQL data payload" None end)
  end.
Definition graphql (query : string) (variables : Obj) (token : string) : Act (api Obj) :=
  answer ← urlopen {| rq_method := "POST"; rq_url := _GITHUB_GRAPHQL; rq_headers := _base_headers token ++ [json_content];
                      rq_body := Some (JObj [("query", JStr query); ("variables", JObj variables)]) |};
  lift (match answer with
        | HttpError code detail text => Ok (http_error code detail text)
        | NetworkError text => Ok (network_error text)
        | HttpBody raw =>
            match json_loads raw with
            | Raise exc => Ok (network_error (exn_str exc))
            | Ok body => graphql_payload body
            end
        end).

(** ** The transport *)

Definition _PR_GRAPHQL_QUERY : string := "
query($owner: String!, $name: String!, $after: String) {
  repository(owner: $owner, name: $name) {
    pullRequests(states: [OPEN], first: 100, after: $after, orderBy: {field: UPDATED_AT, direction: DESC}) {
      pageInfo {
        hasNextPage
        endCursor
      }
      nodes {
        id
        number
        title
        isDraft
        mergeable
        mergeStateStatus
        reviewDecision
        headRefName
        baseRefName
        headRefOid
        reviewThreads(first: 50) {
          nodes {
            isResolved
            comments(first: 20) {
              nodes {
                id
              }
            }
          }
        }
        files(first: 100) {
          nodes {
            path
          }
        }
        labels(first: 20) {
          nodes { name }
        }
        statusCheckRollup: commits(last: 1) {
          nodes {
            commit {
              statusCheckRollup {
                contexts(first: 100) {
                  nodes {
                    __typename
                    ... on StatusContext {
                      context
                      state
                      description
                      targetUrl
                    }
                    ... on CheckRun {
                      name
                      status
                      conclusion
                      detailsUrl
                    }
                  }
                }
              }
            }
          }
        }
      }
    }
  }
}
".

Context (token : string).

Definition _rest_get (path : string) : Act (api (option Obj)) :=
  r ← rest_json "GET" path token None;
  mret (match r with
        | Answer o => Answer (Some o)
        | GitHubApiError m status =>
            if bool_decide (status = Some 404%Z) then Answer None else GitHubApiError m status
        end).

(** [{"name": ln["name"]}] of a truthy label with a name. *)
Definition label_entry (ln : json) : result (option json) :=
  if negb (truthy ln) then Ok None
  else
    has ← py_has "name" ln;
    if (has : bool) then name ← py_item "name" ln; Ok (Some (JObj [("name", name)])) else Ok None.
Definition file_entry (file_node : json) : option json :=
  match file_node with
  | JObj o => match dict_get "path" o with
              | Some path => if truthy path then Some (JObj [("path", path)]) else None
              | None => None
              end
  | _ => None
  end.

(** The contexts of the last commit. *)
Definition rollup_nodes (node : json) : result (list json) :=
  commit_conn ← py_get "statusCheckRollup" node;
  commit_nodes ← py_get "nodes" (or_else (JObj []) commit_conn);
  let commit_nodes := or_else (JArr []) commit_nodes in
  if truthy commit_nodes then
    first ← py_first commit_nodes;
    commit ← py_get "commit" first;
    rollup ← py_get_or "statusCheckRollup" (JObj []) (or_else (JObj []) commit);
    contexts ← py_get_or "contexts" (JObj []) (json_or rollup (JObj []));
    nodes ← py_get_or "nodes" (JArr []) contexts;
    py_iter (json_or nodes (JArr []))
  else Ok [].

(** What is made of one node of the connection. *)
Definition normalize_node (node : json) : result Obj :=
  label_conn ← py_get "labels" node;
  label_nodes ← py_get_or "nodes" (JArr []) (or_else (JObj []) label_conn);
  label_nodes ← py_iter label_nodes;
  labels ← omap_result label_entry label_nodes;
  contexts ← rollup_nodes node;
  rollup ← _normalize_open_pr_rollup contexts;
  raw_threads ← nodes_of "reviewThreads" node;
  threads ← _normalize_review_threads raw_threads;
  raw_files ← nodes_of "files" node;
  match node with
  | JObj o =>
      Ok (dict_set "files" (JArr (omap file_entry raw_files))
            (dict_set "reviewThreads" (JArr threads)
               (dict_set "statusCheckRollup" (JArr (map JObj rollup)) (dict_set "labels" (JArr labels) o))))
  | _ => no_attribute node "get"
  end.

(** One page: the pull requests of the nodes, and the next cursor when there
    is a next page. *)
Definition read_page (repo_data : json) : result (list Obj * option json) :=
  pr_conn ← py_get_or "pullRequests" (JObj []) repo_data;
  nodes ← py_get_or "nodes" (JArr []) pr_conn;
  nodes ← py_iter nodes;
  prs ← map_result normalize_node nodes;
  page_info ← py_get_or "pageInfo" (JObj []) pr_conn;
  has_next ← py_get "hasNextPage" page_info;
  if match has_next with Some b => truthy b | None => false end then
    cursor ← py_get "endCursor" page_info;
    Ok (prs, Some (default JNull cursor))
  else Ok (prs, None).

Definition page_variables (owner name : string) (cursor : json) : Obj :=
  [("owner", JStr owner); ("name", JStr name)] ++ (if truthy cursor then [("after", cursor)] else []).

(** The page loop.  [fuel] bounds the pages fetched: [None] when they are not
    enough. *)
Fixpoint fetch_pages (fuel : nat) (owner name : string) (cursor : json) (all_prs : list Obj)
  : Act (option (api (list Obj))) :=
  match fuel with
  | 0 => mret None
  | S fuel' =>
      data ← graphql _PR_GRAPHQL_QUERY (page_variables owner name cursor) token;
      match data with
      | GitHubApiError m status => mret (Some (GitHubApiError m status))
      | Answer data =>
          let repo_data := dict_get "repository" data in
          if match repo_data with Some j => truthy j | None => false end then
            page ← lift (read_page (default JNull repo_data));
            match page.2 with
            | None => mret (Some (Answer (all_prs ++ page.1)))
            | Some next => fetch_pages fuel' owner name next (all_prs ++ page.1)
            end
          else mret (Some (Answer all_prs))
      end
  end.
Definition fetch_open_prs (fuel : nat) (repo : string) : Act (option (api (list Obj))) :=
  match split_repo repo with
  | GitHubApiError m status => mret (Some (GitHubApiError m status))
  | Answer (owner, name) => fetch_pages fuel owner name JNull []
  end.

Definition fetch_branch_protection (repo : string) : Act (api (option Z)) :=
  data ← _rest_get ("/repos/" +:+ repo +:+ "/branches/main/protection");
  mret (match data with
        | GitHubApiError m status => GitHubApiError m status
        | Answer None => Answer None
        | Answer (Some data) =>
            match dict_get "required_pull_request_reviews" data with
            | Some (JObj reviews) =>
                match dict_get "required_approving_review_count" reviews with
                | Some (JInt n) => Answer (Some n)
                | Some (JBool b) => Answer (Some (if b then 1 else 0)%Z)
                | _ => Answer None
                end
            | _ => Answer None
            end
        end).

(** [node_merge_sweep_compute/adapter_github_http.py]: the API error becomes
    the protocol's transport error. *)
Definition GitHubTransportError (msg : string) : py_exn := OtherError "GitHubTransportError" msg.
Definition is_transport_error (e : py_exn) : bool :=
  match e with OtherError c _ => String.eqb c "GitHubTransportError" | _ => false end.
Definition transport {A} (x : api A) : result A :=
  match x with
  | Answer a => Ok a
  | GitHubApiError m _ => Raise (GitHubTransportError ("GitHub request failed: " +:+ m))
  end.
Definition client_fetch_open_prs (fuel : nat) (repo : string) : Act (option (list Obj)) :=
  r ← fetch_open_prs fuel repo;
  match r with
  | None => mret None
  | Some x => prs ← lift (transport x); mret (Some prs)
  end.
Definition client_fetch_branch_protection (repo : string) : Act (option Z) :=
  r ← fetch_branch_protection repo; lift (transport r).
End calls.
