(* ===== verification/PrModels.v ===== *)
(** * Pull-request records shared by the PR lifecycle nodes

    The models of [node_pr_lifecycle_orchestrator/protocols/protocol_sub_handlers.py]
    (what the orchestrator passes between its phases), of the inventory node
    ([model_pr_lifecycle_inventory.py]), of the merge and fix effects'
    commands and results, and of the worktree prune. *)
From S2P Require Import Prelude.

(** ** Inventory: the facts collected about a pull request *)

Record ModelPrCheckRun := {
  cr_name : string;
  cr_conclusion : option string;
  cr_flaky_failure_evidence : list string;
  cr_reason_code : option string
}.

Record ModelPrState := {
  ps_repo : string;
  ps_pr_number : Z;
  ps_title : string;
  ps_is_draft : bool;
  ps_merge_state_status : option string;
  ps_review_decision : option string;
  ps_head_ref : string;
  ps_check_runs : list ModelPrCheckRun;
  ps_has_conflicts : bool;
  ps_ci_passing : option bool;
  ps_coderabbit_unresolved : option Z
}.

Record ModelStuckQueueEntry := {
  sq_pr_number : Z;
  sq_repo : string;
  sq_queue_state : string;
  sq_head_sha : option string;
  sq_merge_group_run_count : option Z
}.

Record ModelPrInventoryOutput := {
  pio_pr_states : list ModelPrState;
  pio_stuck_queue_prs : list ModelStuckQueueEntry
}.

Record ModelOrgWideOpenPrRemainder := {
  rem_repo : string;
  rem_pr_number : Z;
  rem_title : string;
  rem_url : string
}.

Record ModelOrgWideOpenPrInventory := {
  ow_open_count : Z;
  ow_remainders : list ModelOrgWideOpenPrRemainder;
  ow_query_failed : bool
}.

Definition sweep_done (c : ModelOrgWideOpenPrInventory) : bool :=
  Z.eqb (ow_open_count c) 0 && negb (ow_query_failed c).

Record PrRecord := {
  pr_number : Z;
  pr_repo : string;
  pr_title : string;
  pr_branch : string;
  pr_head_sha : option string;
  pr_ticket_ids : list string;
  pr_checks_status : string;
  pr_review_status : string;
  pr_has_conflicts : bool;
  pr_failed_check_names : list string;
  pr_failed_check_flaky_evidence : list string;
  pr_failed_check_reason_codes : list string;
  pr_coderabbit_unresolved : option Z;
  pr_merge_state_status : option string;
  pr_is_draft : option bool
}.

Record InventoryResult := {
  inv_prs : list PrRecord;
  inv_total_collected : Z;
  inv_stuck_queue_prs : list ModelStuckQueueEntry
}.

(** ** Triage *)

Module PrCategory.
Inductive EnumPrCategory : Type :=
  | GREEN | RED | CONFLICTED | OCC_DEPENDENCY | NEEDS_REVIEW | UNKNOWN.
#[export] Instance EnumPrCategory_eq_dec : EqDecision EnumPrCategory.
Proof. solve_decision. Defined.
End PrCategory.
Export (hints) PrCategory.
Abbreviation EnumPrCategory := PrCategory.EnumPrCategory.

Definition category_value (c : EnumPrCategory) : string :=
  match c with
  | PrCategory.GREEN => "green"
  | PrCategory.RED => "red"
  | PrCategory.CONFLICTED => "conflicted"
  | PrCategory.OCC_DEPENDENCY => "occ_dependency"
  | PrCategory.NEEDS_REVIEW => "needs_review"
  | PrCategory.UNKNOWN => "unknown"
  end.

Inductive EnumFailureOrigin : Type :=
  | PR_SCOPED | REPO_BASELINE | EXTERNAL_DEPENDENCY | UNKNOWN_ORIGIN.
#[export] Instance EnumFailureOrigin_eq_dec : EqDecision EnumFailureOrigin.
Proof. solve_decision. Defined.

Record TriageRecord := {
  tr_pr_number : Z;
  tr_repo : string;
  tr_category : EnumPrCategory;
  tr_ticket_ids : list string;
  tr_failed_check_names : list string;
  tr_failed_check_flaky_evidence : list string;
  tr_failed_check_reason_codes : list string;
  tr_block_reason : string;
  tr_validation_failure_origin : option EnumFailureOrigin
}.
#[export] Instance TriageRecord_eq_dec : EqDecision TriageRecord.
Proof. solve_decision. Defined.

Record PrTriageResult := {
  ptr_classified : list TriageRecord;
  ptr_green_count : Z;
  ptr_non_green_count : Z
}.

(** ** Reducer intents *)

Module ReducerKind.
Inductive EnumReducerIntent : Type := MERGE | FIX | SKIP.
#[export] Instance EnumReducerIntent_eq_dec : EqDecision EnumReducerIntent.
Proof. solve_decision. Defined.
End ReducerKind.
Export (hints) ReducerKind.
Abbreviation EnumReducerIntent := ReducerKind.EnumReducerIntent.

Record ReducerIntent := {
  ri_pr_number : Z;
  ri_repo : string;
  ri_intent : EnumReducerIntent;
  ri_ticket_ids : list string;
  ri_reason : string
}.

Record ReducerResult := {
  rr_intents : list ReducerIntent;
  rr_merge_count : Z;
  rr_fix_count : Z;
  rr_skip_count : Z
}.

Record OccDependencyEdge := {
  occ_ticket_id : string;
  occ_downstream_repo : string;
  occ_downstream_pr_number : Z;
  occ_downstream_failed_check_names : list string;
  occ_reason : string;
  occ_rerun_guard_key : string
}.

(** ** Merge, fix and prune: commands and results of the effects *)

Record ModelPrMergeCommand := {
  mc_correlation_id : string;
  mc_pr_number : Z;
  mc_repo : string;
  mc_triage_verdict : string;
  mc_use_merge_queue : bool;
  mc_dry_run : bool
}.

(** The pydantic constructor: [pr_number] must be positive. *)
Definition mk_merge_command (cid : string) (n : Z) (repo verdict : string) (queue dry : bool)
  : result ModelPrMergeCommand :=
  if (0 <? n)%Z then
    Ok {| mc_correlation_id := cid; mc_pr_number := n; mc_repo := repo; mc_triage_verdict := verdict;
          mc_use_merge_queue := queue; mc_dry_run := dry |}
  else Raise (ValueError "pr_number: Input should be greater than 0").

Record ModelPrMergeResult := {
  mres_merged : bool;
  mres_error : option string
}.

Record MergeResult := {
  mr_prs_merged : Z;
  mr_prs_failed : Z
}.

Inductive EnumPrBlockReason : Type :=
  | CI_FAILURE | CODE_FAILURE | RECEIPT_FAILURE | CONFLICT | CHANGES_REQUESTED | CODERABBIT
  | DEPLOY_GATE_CONTRACT_NOT_FOUND | RECEIPT_EVIDENCE_SOURCE_AUTOBIND.
#[export] Instance EnumPrBlockReason_eq_dec : EqDecision EnumPrBlockReason.
Proof. solve_decision. Defined.

Definition block_reason_value (r : EnumPrBlockReason) : string :=
  match r with
  | CI_FAILURE => "ci_failure"
  | CODE_FAILURE => "code_failure"
  | RECEIPT_FAILURE => "receipt_failure"
  | CONFLICT => "conflict"
  | CHANGES_REQUESTED => "changes_requested"
  | CODERABBIT => "coderabbit"
  | DEPLOY_GATE_CONTRACT_NOT_FOUND => "deploy_gate_contract_not_found"
  | RECEIPT_EVIDENCE_SOURCE_AUTOBIND => "receipt_evidence_source_autobind"
  end.

(** [EnumPrBlockReason(s)]: the member with that value, [ValueError] otherwise. *)
Definition block_reason_of (s : string) : option EnumPrBlockReason :=
  find (fun r => String.eqb s (block_reason_value r))
    [CI_FAILURE; CODE_FAILURE; RECEIPT_FAILURE; CONFLICT; CHANGES_REQUESTED; CODERABBIT;
     DEPLOY_GATE_CONTRACT_NOT_FOUND; RECEIPT_EVIDENCE_SOURCE_AUTOBIND].

Record ModelPrLifecycleFixCommand := {
  fc_correlation_id : string;
  fc_pr_number : Z;
  fc_repo : string;
  fc_block_reason : EnumPrBlockReason;
  fc_ticket_id : option string;
  fc_dry_run : bool
}.

Definition mk_fix_command (cid : string) (n : Z) (repo : string) (reason : EnumPrBlockReason)
    (ticket : option string) (dry : bool) : result ModelPrLifecycleFixCommand :=
  if (0 <? n)%Z then
    Ok {| fc_correlation_id := cid; fc_pr_number := n; fc_repo := repo; fc_block_reason := reason;
          fc_ticket_id := ticket; fc_dry_run := dry |}
  else Raise (ValueError "pr_number: Input should be greater than 0").

Module DelegationOutcome.
Inductive EnumDelegationOutcome : Type := ACCEPTED | GATE_FAILED | ESCALATED | NOT_ATTEMPTED.
#[export] Instance EnumDelegationOutcome_eq_dec : EqDecision EnumDelegationOutcome.
Proof. solve_decision. Defined.
End DelegationOutcome.
Export (hints) DelegationOutcome.
Abbreviation EnumDelegationOutcome := DelegationOutcome.EnumDelegationOutcome.

(** The fields of [ModelPrLifecycleFixResult] the orchestrator reads. *)
Record ModelPrLifecycleFixResult := {
  fres_fix_applied : bool;
  fres_delegated : bool;
  fres_delegation_outcome : option EnumDelegationOutcome
}.

(** [delegation_cost_savings_usd] is left out: no code path sets it. *)
Record FixResult := {
  fr_prs_dispatched : Z;
  fr_prs_skipped : Z;
  fr_prs_delegated_fix_attempted : Z;
  fr_prs_delegated_fix_accepted : Z;
  fr_prs_delegated_fix_gate_failed : Z;
  fr_prs_delegated_fix_escalated : Z
}.

Record ModelWorktreePruneCommand := {
  wp_correlation_id : string;
  wp_ticket_id : string;
  wp_repo : string;
  wp_branch : option string;
  wp_pr_number : option Z
}.

(** The pydantic constructor: non-empty ticket and repo, positive number. *)
Definition mk_prune_command (cid ticket repo : string) (branch : option string) (n : Z)
  : result ModelWorktreePruneCommand :=
  if String.eqb ticket EmptyString then Raise (ValueError "ticket_id: String should have at least 1 character")
  else if String.eqb repo EmptyString then Raise (ValueError "repo: String should have at least 1 character")
  else if (n <=? 0)%Z then Raise (ValueError "pr_number: Input should be greater than 0")
  else Ok {| wp_correlation_id := cid; wp_ticket_id := ticket; wp_repo := repo; wp_branch := branch;
             wp_pr_number := Some n |}.

Record PruneResult := {
  prune_worktrees_pruned : Z;
  prune_worktrees_flagged_dirty : Z;
  prune_worktrees_skipped : Z
}.
