(* ===== verification/MergeControl.v ===== *)
(** * Merge control: reason codes and the outage circuit breaker

    [merge_control/reason_code_classifier.py] (the typed diagnosis of a failed
    required check) and [merge_control/outage_circuit_breaker.py] (the control
    loop that withholds mutations while the GitHub API is down). *)
From S2P Require Import Prelude.

(** ** Reason codes *)

Inductive EnumMergeCheckReasonCode : Type :=
  | STALE_CONTEXT | GITHUB_API_OUTAGE | RUNNER_INFRA | CANCELLED | PRODUCT_FAILED.
#[export] Instance EnumMergeCheckReasonCode_eq_dec : EqDecision EnumMergeCheckReasonCode.
Proof. solve_decision. Defined.

Definition reason_code_value (c : EnumMergeCheckReasonCode) : string :=
  match c with
  | STALE_CONTEXT => "stale_context"
  | GITHUB_API_OUTAGE => "github_api_outage"
  | RUNNER_INFRA => "runner_infra"
  | CANCELLED => "cancelled"
  | PRODUCT_FAILED => "product_failed"
  end.

Definition _PR_ASSOCIATED_EVENTS : list string := ["pull_request"; "pull_request_target"].

Definition _RUNNER_INFRA_STEP_SUBSTRINGS : list string :=
  ["set up job"; "set up runner"; "checkout"; "setup-uv"; "set up uv"; "setup uv"; "install uv";
   "setup-python"; "set up python"; "setup python"; "clone omni"; "download action"; "post ";
   "complete job"; "initialize containers"; "start containers"].

Definition _PRODUCT_STEP_SUBSTRINGS : list string :=
  ["lint"; "ruff"; "mypy"; "type-check"; "typecheck"; "type check"; "type safety"; "test";
   "pytest"; "format"; "compile"; "build"; "coverage"; "pre-commit"; "precommit"].

Definition _API_OUTAGE_LOG_SIGNATURES : list string :=
  ["empty reply from server"; "502 bad gateway"; "503 service unavailable"; "504 gateway time-out";
   "<!doctype html>"; "<html"; "you have exceeded a secondary rate limit";
   "api rate limit exceeded"; "could not resolve host: api.github.com"; "server error: `502";
   "server error: `503"].

Definition _RUNNER_INFRA_LOG_SIGNATURES : list string :=
  ["could not resolve host: github.com"; "could not resolve host: codeload.github.com";
   "gnutls recv error"; "rpc failed; curl 56"; "fatal: early eof";
   "unexpected disconnect while reading sideband packet"; "invalid index-pack output";
   "failed to initialize container"; "one or more containers failed to start";
   "service container postgres failed"; "failed to prepare extraction snapshot";
   "lease does not exist"; "failed to lookup address information";
   "temporary failure in name resolution";
   "failed to download distribution due to network timeout"; "request failed after 3 retries";
   "the runner has received a shutdown signal"; "lost communication with the server";
   "os._exit(1)"; "thread timeout"; "hard timeout"; "leaked thread"].

Definition _CANCELLED_CONCLUSIONS : list string := ["cancelled"; "canceled"; "timed_out"].
Definition _PRODUCT_FAIL_CONCLUSIONS : list string := ["failure"; "action_required"].

Definition _REASON_CODE_PRECEDENCE : list EnumMergeCheckReasonCode :=
  [PRODUCT_FAILED; GITHUB_API_OUTAGE; STALE_CONTEXT; RUNNER_INFRA; CANCELLED].

Definition ALL_LOG_SIGNATURES : list string :=
  _RUNNER_INFRA_LOG_SIGNATURES ++ _API_OUTAGE_LOG_SIGNATURES.

Definition text_has_api_outage_signature (text : string) : bool :=
  any_sub _API_OUTAGE_LOG_SIGNATURES (py_lower text).

Record MergeCheckFacts := {
  f_pr_number : option Z;
  f_required_context : bool;
  f_run_id : option string;
  f_attempt : option Z;
  f_run_event : option string;
  f_head_sha : option string;
  f_current_head_sha : option string;
  f_is_superseded : bool;
  f_api_error : bool;
  f_job_status : option string;
  f_job_conclusion : option string;
  f_failed_step_name : option string;
  f_log_signatures : list string
}.

Definition _matches_any (haystacks needles : list string) : bool :=
  let lowered := map py_lower (filter (fun h => truthy h = true) haystacks) in
  existsb (any_sub needles) lowered.

Definition _step_is_infra (step : string) : bool := any_sub _RUNNER_INFRA_STEP_SUBSTRINGS step.
Definition _step_is_product (step : string) : bool := any_sub _PRODUCT_STEP_SUBSTRINGS step.

(** [(x or "").strip().lower()] *)
Definition norm (o : option string) : string := py_lower (py_strip (py_opt_or o EmptyString)).

Definition classify (facts : MergeCheckFacts) : EnumMergeCheckReasonCode :=
  if f_is_superseded facts then STALE_CONTEXT
  else if f_required_context facts
          && match f_run_event facts with
             | None => false
             | Some ev => negb (str_in (py_lower (py_strip ev)) _PR_ASSOCIATED_EVENTS)
             end then STALE_CONTEXT
  else if match f_head_sha facts, f_current_head_sha facts with
          | Some h, Some c =>
              truthy h && truthy c && negb (String.eqb (py_lower (py_strip h)) (py_lower (py_strip c)))
          | _, _ => false
          end then STALE_CONTEXT
  else if f_api_error facts then GITHUB_API_OUTAGE
  else if _matches_any (f_log_signatures facts) _API_OUTAGE_LOG_SIGNATURES then GITHUB_API_OUTAGE
  else
    let step := norm (f_failed_step_name facts) in
    let conclusion := norm (f_job_conclusion facts) in
    if truthy step && _step_is_infra step then RUNNER_INFRA
    else if _matches_any (f_log_signatures facts) _RUNNER_INFRA_LOG_SIGNATURES then RUNNER_INFRA
    else if str_in conclusion _CANCELLED_CONCLUSIONS then CANCELLED
    else if str_in conclusion _PRODUCT_FAIL_CONCLUSIONS && truthy step && _step_is_product step
    then PRODUCT_FAILED
    else RUNNER_INFRA.

(** ** From a jobs-API job object *)

(** [str(d.get(k) or "").strip()] *)
Definition get_text (k : string) (d : list (string * json)) : string :=
  py_strip (match dict_get k d with
            | Some v => if truthy v then json_str v else EmptyString
            | None => EmptyString
            end).

(** [str(d.get(k)) if d.get(k) else None] *)
Definition get_opt_text (k : string) (d : list (string * json)) : option string :=
  match dict_get k d with
  | Some v => if truthy v then Some (json_str v) else None
  | None => None
  end.

(** The loop of [_failed_step_name]: ([failed], [fallback]). *)
Definition scan_step (acc : option string * option string) (raw : json) : option string * option string :=
  match raw with
  | JObj d =>
      let conclusion := py_lower (get_text "conclusion" d) in
      let name := get_text "name" d in
      if negb (truthy name) then acc
      else if String.eqb conclusion "failure" && bool_decide (acc.1 = None) then (Some name, acc.2)
      else if str_in conclusion _CANCELLED_CONCLUSIONS && bool_decide (acc.2 = None) then (acc.1, Some name)
      else acc
  | _ => acc
  end.

Definition _failed_step_name (job : list (string * json)) : option string :=
  match dict_get "steps" job with
  | Some (JArr steps) =>
      let r := foldl scan_step (None, None) steps in
      match r.1 with Some f => Some f | None => r.2 end
  | _ => None
  end.

Definition facts_from_job (job : list (string * json)) (pr : option Z) (run_ev current : option string)
    (required api_err superseded : bool) (logs : list string) : MergeCheckFacts :=
  {| f_pr_number := pr;
     f_required_context := required;
     f_run_id := match dict_get "run_id" job with
               | Some JNull | None => None
               | Some v => Some (json_str v)
               end;
     f_attempt := match dict_get "run_attempt" job with
                | Some (JInt n) => Some n
                | Some (JBool b) => Some (if b then 1 else 0)%Z
                | _ => None
                end;
     f_run_event := run_ev;
     f_head_sha := get_opt_text "head_sha" job;
     f_current_head_sha := current;
     f_is_superseded := superseded;
     f_api_error := api_err;
     f_job_status := get_opt_text "status" job;
     f_job_conclusion := get_opt_text "conclusion" job;
     f_failed_step_name := _failed_step_name job;
     f_log_signatures := logs |}.

Definition classify_job (job : list (string * json)) (pr : option Z) (run_ev current : option string)
    (required api_err superseded : bool) (logs : list string) : EnumMergeCheckReasonCode :=
  classify (facts_from_job job pr run_ev current required api_err superseded logs).

(** [classify_dict(payload)] on a payload of well-typed entries: its [job]
    object, if any, and its flat fields (the context fields are shared). *)
Definition classify_dict (job : option (list (string * json))) (flat : MergeCheckFacts)
  : EnumMergeCheckReasonCode :=
  match job with
  | Some j =>
      classify_job j (f_pr_number flat) (f_run_event flat) (f_current_head_sha flat)
        (f_required_context flat) (f_api_error flat) (f_is_superseded flat) (f_log_signatures flat)
  | None => classify flat
  end.

(** ** One diagnosis per pull request *)

Definition dominant_reason_code (reason_codes : list string) : option EnumMergeCheckReasonCode :=
  let present := filter (fun c => truthy c = true) reason_codes in
  match present with
  | [] => None
  | _ =>
      match find (fun c => str_in (reason_code_value c) present) _REASON_CODE_PRECEDENCE with
      | Some c => Some c
      | None => Some RUNNER_INFRA
      end
  end.

(** ** The outage circuit breaker *)

Inductive EnumOutageBreakerState : Type := CLOSED | OPEN.
#[export] Instance EnumOutageBreakerState_eq_dec : EqDecision EnumOutageBreakerState.
Proof. solve_decision. Defined.

Definition _DEFAULT_MAX_PROBE_ATTEMPTS : Z := 3.
Definition _OUTAGE_CODE : string := reason_code_value GITHUB_API_OUTAGE.

Record OutageCircuitBreaker := {
  state : EnumOutageBreakerState;
  max_probe_attempts : Z;
  open_count : Z;
  consecutive_probe_failures : Z;
  mutations_withheld : Z;
  last_observed_outage : bool
}.

(** [OutageCircuitBreaker(max_probe_attempts=n)]: [__post_init__] rejects [n < 1]. *)
Definition new_breaker (n : Z) : result OutageCircuitBreaker :=
  if (n <? 1)%Z then Raise (ValueError ("max_probe_attempts must be >= 1, got " +:+ pretty n))
  else Ok {| state := CLOSED; max_probe_attempts := n; open_count := 0;
             consecutive_probe_failures := 0; mutations_withheld := 0;
             last_observed_outage := false |}.

Definition is_open (b : OutageCircuitBreaker) : bool := bool_decide (state b = OPEN).
Definition mutations_allowed (b : OutageCircuitBreaker) : bool := bool_decide (state b = CLOSED).
Definition probe_budget_exhausted (b : OutageCircuitBreaker) : bool :=
  (max_probe_attempts b <=? consecutive_probe_failures b)%Z.

Definition _open (b : OutageCircuitBreaker) : OutageCircuitBreaker :=
  {| state := OPEN; max_probe_attempts := max_probe_attempts b; open_count := open_count b + 1;
     consecutive_probe_failures := 0; mutations_withheld := mutations_withheld b;
     last_observed_outage := last_observed_outage b |}.
Definition _close (b : OutageCircuitBreaker) : OutageCircuitBreaker :=
  {| state := CLOSED; max_probe_attempts := max_probe_attempts b; open_count := open_count b;
     consecutive_probe_failures := 0; mutations_withheld := mutations_withheld b;
     last_observed_outage := last_observed_outage b |}.

Definition has_outage (reason_codes : list string) : bool := str_in _OUTAGE_CODE reason_codes.

Definition observe (b : OutageCircuitBreaker) (reason_codes : list string) : OutageCircuitBreaker :=
  let outage := has_outage reason_codes in
  let b' := {| state := state b; max_probe_attempts := max_probe_attempts b;
               open_count := open_count b;
               consecutive_probe_failures := consecutive_probe_failures b;
               mutations_withheld := mutations_withheld b; last_observed_outage := outage |} in
  if outage && bool_decide (state b = CLOSED) then _open b' else b'.

(** What a call of the recovery probe does: it returns a value (its truth is
    all that counts) or raises. *)
Inductive probe_outcome : Type := Returned (passed : bool) | Raised.
Definition probe_passed (o : probe_outcome) : bool :=
  match o with Returned b => b | Raised => false end.

(** The outcome is consulted only when the probe is called. *)
Definition probe_recovery (b : OutageCircuitBreaker) (probe : probe_outcome) : OutageCircuitBreaker * bool :=
  if decide (state b = CLOSED) then (b, true)
  else if probe_budget_exhausted b then (b, false)
  else if probe_passed probe then (_close b, true)
  else ({| state := state b; max_probe_attempts := max_probe_attempts b; open_count := open_count b;
           consecutive_probe_failures := consecutive_probe_failures b + 1;
           mutations_withheld := mutations_withheld b;
           last_observed_outage := last_observed_outage b |}, false).

Definition record_withheld (b : OutageCircuitBreaker) (n : Z) : OutageCircuitBreaker :=
  if (n >? 0)%Z then
    {| state := state b; max_probe_attempts := max_probe_attempts b; open_count := open_count b;
       consecutive_probe_failures := consecutive_probe_failures b;
       mutations_withheld := mutations_withheld b + n;
       last_observed_outage := last_observed_outage b |}
  else b.

(** ** Properties of the classifier *)

(** The affirmative evidence a product verdict needs. *)
Definition product_evidence (conclusion step : string) : bool :=
  str_in conclusion _PRODUCT_FAIL_CONCLUSIONS && truthy step && _step_is_product step
  && negb (_step_is_infra step).

(** A failed conclusion is no cancellation. *)
Lemma conclusions_disjoint c :
  str_in c _PRODUCT_FAIL_CONCLUSIONS = true -> str_in c _CANCELLED_CONCLUSIONS = false.
Proof.
  intros H%str_in_spec. unfold _PRODUCT_FAIL_CONCLUSIONS in H.
  apply list_elem_of_In in H as [<-|[<-|[]]]; reflexivity.
Qed.

Lemma classify_product_failed f :
  classify f = PRODUCT_FAILED <->
  f_is_superseded f = false
  /\ (f_required_context f
      && match f_run_event f with
         | None => false
         | Some ev => negb (str_in (py_lower (py_strip ev)) _PR_ASSOCIATED_EVENTS)
         end) = false
  /\ match f_head_sha f, f_current_head_sha f with
     | Some h, Some c =>
         truthy h && truthy c && negb (String.eqb (py_lower (py_strip h)) (py_lower (py_strip c)))
     | _, _ => false
     end = false
  /\ f_api_error f = false
  /\ _matches_any (f_log_signatures f) ALL_LOG_SIGNATURES = false
  /\ product_evidence (norm (f_job_conclusion f)) (norm (f_failed_step_name f)) = true.
Proof.
  assert (_matches_any (f_log_signatures f) ALL_LOG_SIGNATURES =
          _matches_any (f_log_signatures f) _RUNNER_INFRA_LOG_SIGNATURES
          || _matches_any (f_log_signatures f) _API_OUTAGE_LOG_SIGNATURES) as ->.
  { unfold _matches_any, ALL_LOG_SIGNATURES. induction (map _ _) as [|h l IH]; [done|].
    cbn [existsb]. rewrite IH. unfold any_sub. rewrite existsb_app.
    by repeat destruct (existsb _ _). }
  unfold classify, product_evidence.
  pose proof (conclusions_disjoint (norm (f_job_conclusion f))) as Hd.
  destruct (f_is_superseded f); [naive_solver|].
  destruct (f_required_context f && _); [naive_solver|].
  destruct (match f_head_sha f with Some _ => _ | None => _ end); [naive_solver|].
  destruct (f_api_error f); [naive_solver|].
  destruct (_matches_any _ _API_OUTAGE_LOG_SIGNATURES); [rewrite orb_true_r; naive_solver|].
  destruct (_matches_any _ _RUNNER_INFRA_LOG_SIGNATURES); [by destruct (_ && _); naive_solver|].
  clear - Hd. revert Hd.
  generalize (str_in (norm (f_job_conclusion f)) _PRODUCT_FAIL_CONCLUSIONS),
    (str_in (norm (f_job_conclusion f)) _CANCELLED_CONCLUSIONS),
    (truthy (norm (f_failed_step_name f))), (_step_is_infra (norm (f_failed_step_name f))),
    (_step_is_product (norm (f_failed_step_name f))).
  intros [] [] [] [] [] Hd; simpl; split; try done; try (by intros (_&_&_&_&_&?)); by specialize (Hd eq_refl).
Qed.

(** A step of the job that [_failed_step_name] can report. *)
Definition reportable_step (name : string) (raw : json) : Prop :=
  exists d, raw = JObj d /\ get_text "name" d = name /\ truthy name = true
    /\ (py_lower (get_text "conclusion" d) = "failure"
        \/ str_in (py_lower (get_text "conclusion" d)) _CANCELLED_CONCLUSIONS = true).

Lemma scan_step_reportable steps acc (P : string -> Prop) :
  (forall n, acc.1 = Some n \/ acc.2 = Some n -> P n) ->
  (forall n raw, raw ∈ steps -> reportable_step n raw -> P n) ->
  forall n, (foldl scan_step acc steps).1 = Some n \/ (foldl scan_step acc steps).2 = Some n -> P n.
Proof.
  revert acc. induction steps as [|raw steps IH]; intros acc Hacc Hs; [done|]. simpl.
  apply IH; [|intros; eapply Hs; [by constructor|done]].
  intros n. unfold scan_step. destruct raw as [| | | | | |d]; try apply Hacc.
  destruct (truthy (get_text "name" d)) eqn:Ht; simpl; [|apply Hacc].
  destruct (String.eqb _ _ && _) eqn:E1.
  - apply andb_prop in E1 as [E1%String.eqb_eq _]. simpl. intros [[= <-]|H]; [|apply Hacc; by right].
    eapply Hs; [by constructor|]. exists d. eauto.
  - destruct (str_in _ _ && _) eqn:E2; [|apply Hacc].
    apply andb_prop in E2 as [E2 _]. simpl. intros [H|[= <-]]; [apply Hacc; by left|].
    eapply Hs; [by constructor|]. exists d. eauto.
Qed.

Lemma failed_step_name_reportable job n :
  _failed_step_name job = Some n ->
  exists steps raw, dict_get "steps" job = Some (JArr steps) /\ raw ∈ steps /\ reportable_step n raw.
Proof.
  unfold _failed_step_name. destruct (dict_get "steps" job) as [[| | | | |steps|]|] eqn:Hd; try done.
  intros H. exists steps.
  destruct (scan_step_reportable steps (None, None)
              (fun n => exists raw, raw ∈ steps /\ reportable_step n raw)) with (n := n)
    as (raw & ? & ?); [|by eauto| |by eauto].
  - simpl. naive_solver.
  - destruct (foldl _ _ _) as [[f|] g]; simpl in *; naive_solver.
Qed.

(** A product verdict is affirmative: if the classifier blames the product
    for a job, then the job's own conclusion is a failure and one of the job's
    steps failed (or was cancelled) under a name that matches a product step
    and no runner-setup step, the context is current, the API answered and no
    infrastructure or outage signature is in the log.  Everything else fails
    closed to another code. *)
Theorem product_verdict_needs_product_step job pr ev cur req err sup logs :
  classify_job job pr ev cur req err sup logs = PRODUCT_FAILED ->
  exists steps raw name,
    dict_get "steps" job = Some (JArr steps) /\ raw ∈ steps /\ reportable_step name raw
    /\ _step_is_product (norm (Some name)) = true /\ _step_is_infra (norm (Some name)) = false
    /\ str_in (norm (get_opt_text "conclusion" job)) _PRODUCT_FAIL_CONCLUSIONS = true
    /\ sup = false /\ err = false
    /\ Forall (fun sig => forall l, l ∈ logs -> truthy l = true -> py_contains sig (py_lower l) = false)
         ALL_LOG_SIGNATURES.
Proof.
  intros H%classify_product_failed. destruct H as (Hsup & _ & _ & Herr & Hlogs & Hev).
  unfold facts_from_job in *; simpl in *. unfold product_evidence in Hev.
  repeat rewrite andb_true_iff in Hev. destruct Hev as (((Hc & Ht) & Hp) & Hi).
  destruct (_failed_step_name job) as [n|] eqn:Hn; [|done].
  destruct (failed_step_name_reportable _ _ Hn) as (steps & raw & ? & ? & ?).
  exists steps, raw, n. apply negb_true_iff in Hi. split_and!; try done.
  apply Forall_forall. intros sig Hsig l Hl Htl.
  destruct (py_contains sig (py_lower l)) eqn:E; [|done]. exfalso.
  enough (_matches_any logs ALL_LOG_SIGNATURES = true) by congruence.
  unfold _matches_any, any_sub. apply existsb_exists. exists (py_lower l). split.
  - apply in_map, list_elem_of_In, list_elem_of_filter. done.
  - apply existsb_exists. exists sig. by rewrite <- list_elem_of_In.
Qed.

Definition failed_tests_job : list (string * json) :=
  [("conclusion", JStr "failure");
   ("steps", JArr [JObj [("name", JStr "Checkout"); ("conclusion", JStr "success")];
                   JObj [("name", JStr "Run pytest"); ("conclusion", JStr "failure")]])].

Lemma product_verdict_needs_product_step_witness :
  exists steps raw name,
    dict_get "steps" failed_tests_job = Some (JArr steps) /\ raw ∈ steps /\ reportable_step name raw.
Proof.
  destruct (product_verdict_needs_product_step failed_tests_job None (Some "pull_request") None
              true false false ["collected 12 items"]) as (steps & raw & name & H1 & H2 & H3 & _).
  - vm_compute. reflexivity.
  - exists steps, raw, name. auto.
Defined.

(** ** Properties of the dominant code *)

Definition precedence (c : EnumMergeCheckReasonCode) : nat :=
  match c with
  | PRODUCT_FAILED => 0 | GITHUB_API_OUTAGE => 1 | STALE_CONTEXT => 2 | RUNNER_INFRA => 3
  | CANCELLED => 4
  end.

Lemma dominant_present l c :
  truthy (reason_code_value c) = true ->
  str_in (reason_code_value c) (filter (fun s => truthy s = true) l) = true <-> reason_code_value c ∈ l.
Proof. intros Ht. rewrite str_in_spec, list_elem_of_filter. naive_solver. Qed.

Lemma dominant_reason_code_unfold l :
  dominant_reason_code l =
    if forallb (fun c => negb (truthy c)) l then None
    else if str_in "product_failed" l then Some PRODUCT_FAILED
    else if str_in "github_api_outage" l then Some GITHUB_API_OUTAGE
    else if str_in "stale_context" l then Some STALE_CONTEXT
    else if str_in "runner_infra" l then Some RUNNER_INFRA
    else if str_in "cancelled" l then Some CANCELLED
    else Some RUNNER_INFRA.
Proof.
  unfold dominant_reason_code.
  assert (forall c, str_in (reason_code_value c) (filter (fun s => truthy s = true) l)
                    = str_in (reason_code_value c) l) as Hin.
  { intros c. apply eq_true_iff_eq. rewrite dominant_present by (by destruct c). by rewrite str_in_spec. }
  assert (forallb (fun c => negb (truthy c)) l = bool_decide (filter (fun s => truthy s = true) l = [])) as ->.
  { clear. induction l as [|s l IH]; [done|]. simpl. rewrite filter_cons, IH.
    destruct (truthy s); simpl; by repeat case_bool_decide. }
  case_bool_decide as E; [by rewrite E|].
  destruct (filter _ _) as [|x k]; [done|].
  unfold _REASON_CODE_PRECEDENCE. cbn [find]. rewrite !Hin. cbn [reason_code_value].
  repeat (destruct (str_in _ l); [done|]). done.
Qed.

Lemma dominant_product l : dominant_reason_code l = Some PRODUCT_FAILED <-> "product_failed" ∈ l.
Proof.
  rewrite dominant_reason_code_unfold, <- str_in_spec. destruct (forallb _ l) eqn:E.
  - split; [done|]. intros H%str_in_spec%list_elem_of_In. rewrite forallb_forall in E. by apply E in H.
  - destruct (str_in "product_failed" l); [done|]. repeat case_match; done.
Qed.

(** The diagnosis of a pull request depends only on which codes its checks
    carry, not on their order or number: it is absent exactly when there is
    none, it is PRODUCT_FAILED exactly when some check is, a code present is
    never outranked by the answer, and codes outside the vocabulary never make
    a product failure. *)
Theorem dominant_reason_code_spec l :
  (forall l', (forall s, s ∈ l <-> s ∈ l') -> dominant_reason_code l = dominant_reason_code l')
  /\ (dominant_reason_code l = None <-> Forall (fun s => s = EmptyString) l)
  /\ (dominant_reason_code l = Some PRODUCT_FAILED <-> "product_failed" ∈ l)
  /\ (forall c d, reason_code_value c ∈ l -> dominant_reason_code l = Some d -> precedence d <= precedence c).
Proof.
  split_and!.
  - intros l' H. rewrite !dominant_reason_code_unfold.
    assert (forall s, str_in s l = str_in s l') as Hs.
    { intros s. apply eq_true_iff_eq. by rewrite !str_in_spec. }
    assert (forallb (fun c : string => negb (truthy c)) l = forallb (fun c => negb (truthy c)) l') as ->.
    { apply eq_true_iff_eq. rewrite !forallb_forall. setoid_rewrite <- list_elem_of_In. by setoid_rewrite H. }
    by rewrite !Hs.
  - rewrite dominant_reason_code_unfold, Forall_forall.
    destruct (forallb _ l) eqn:E.
    + rewrite forallb_forall in E. split; [|done]. intros _ s Hs%list_elem_of_In%E. by destruct s.
    + split; [repeat case_match; discriminate|]. intros H.
      apply not_true_iff_false in E. destruct E. apply forallb_forall.
      intros s Hs%list_elem_of_In%H. by subst.
  - apply dominant_product.
  - intros c d Hc%str_in_spec. rewrite dominant_reason_code_unfold.
    destruct (forallb _ l); [done|].
    destruct c; simpl in Hc; rewrite ?Hc; repeat case_match; intros [= <-]; simpl; try lia; congruence.
Qed.

(** ** Properties of the breaker *)

(** What a merge-controller pass does to its breaker. *)
Inductive breaker_op : Type :=
  | Observe (reason_codes : list string)
  | Probe (probe : probe_outcome)
  | RecordWithheld (n : Z).

Definition breaker_step (b : OutageCircuitBreaker) (op : breaker_op) : OutageCircuitBreaker :=
  match op with
  | Observe cs => observe b cs
  | Probe o => (probe_recovery b o).1
  | RecordWithheld n => record_withheld b n
  end.
Definition breaker_run : OutageCircuitBreaker -> list breaker_op -> OutageCircuitBreaker := foldl breaker_step.

(** The probes of a trace, in order. *)
Definition probes (ops : list breaker_op) : list probe_outcome :=
  omap (fun op => match op with Probe o => Some o | _ => None end) ops.

Definition all_fail (os : list probe_outcome) : Prop := Forall (fun o => probe_passed o = false) os.

Lemma breaker_step_max b op : max_probe_attempts (breaker_step b op) = max_probe_attempts b.
Proof. destruct op; simpl; unfold observe, probe_recovery, record_withheld; repeat case_match; done. Qed.
Lemma breaker_run_max b ops : max_probe_attempts (breaker_run b ops) = max_probe_attempts b.
Proof. revert b. induction ops; intros b; simpl; [done|]. by rewrite IHops, breaker_step_max. Qed.

(** A closed breaker opens on an outage and on nothing else. *)
Lemma closed_step b op :
  state b = CLOSED ->
  state (breaker_step b op) = OPEN <-> exists cs, op = Observe cs /\ has_outage cs = true.
Proof.
  intros Hb. destruct op as [cs|o|n]; simpl.
  - unfold observe. rewrite bool_decide_eq_true_2, andb_true_r by done.
    destruct (has_outage cs) eqn:E; simpl; split; try done; [by eauto|congruence|].
    intros (cs' & [= <-] & ?). congruence.
  - unfold probe_recovery. rewrite decide_True by done. simpl. split; [congruence|by intros (? & ? & _)].
  - unfold record_withheld. case_match; simpl; (split; [congruence|by intros (? & ? & _)]).
Qed.

Lemma opened_fresh b op :
  state b = CLOSED -> state (breaker_step b op) = OPEN ->
  consecutive_probe_failures (breaker_step b op) = 0%Z.
Proof.
  intros Hb H. apply closed_step in H as (cs & -> & Hcs); [|done]. simpl.
  unfold observe. by rewrite Hcs, bool_decide_eq_true_2.
Qed.

(** An open breaker with [k] failed probes behind it: it stays open exactly as
    long as the probes its budget still allows fail. *)
Lemma open_step b op k :
  state b = OPEN -> consecutive_probe_failures b = Z.of_nat k -> k <= Z.to_nat (max_probe_attempts b) ->
  match op with
  | Probe o =>
      if decide (k < Z.to_nat (max_probe_attempts b)) then
        if probe_passed o then state (breaker_step b op) = CLOSED
        else state (breaker_step b op) = OPEN /\ consecutive_probe_failures (breaker_step b op) = Z.of_nat (S k)
      else breaker_step b op = b
  | _ => state (breaker_step b op) = OPEN /\ consecutive_probe_failures (breaker_step b op) = Z.of_nat k
  end.
Proof.
  intros Hb Hk Hle. destruct op as [cs|o|n]; simpl.
  - unfold observe. rewrite bool_decide_eq_false_2, andb_false_r by (by rewrite Hb). done.
  - unfold probe_recovery. rewrite (decide_False (P := state b = CLOSED)) by (by rewrite Hb).
    unfold probe_budget_exhausted. rewrite Hk.
    case_decide; destruct (_ <=? _)%Z eqn:E; breflect; try lia; [|done].
    destruct (probe_passed o); simpl; [done|]. split; [done|]. lia.
  - unfold record_withheld. case_match; done.
Qed.

Lemma open_run_failing b ops k :
  state b = OPEN -> consecutive_probe_failures b = Z.of_nat k -> k <= Z.to_nat (max_probe_attempts b) ->
  all_fail (take (Z.to_nat (max_probe_attempts b) - k) (probes ops)) ->
  state (breaker_run b ops) = OPEN
  /\ consecutive_probe_failures (breaker_run b ops)
     = Z.of_nat (Nat.min (Z.to_nat (max_probe_attempts b)) (k + length (probes ops))).
Proof.
  revert b k. induction ops as [|op ops IH]; intros b k Hb Hk Hle Hf; simpl.
  { split; [done|]. lia. }
  pose proof (open_step b op k Hb Hk Hle) as H.
  pose proof (breaker_step_max b op) as Hm.
  destruct op as [cs|o|n]; [|case_decide as Hd|]; simpl in Hf.
  - destruct H as [H1 H2]. rewrite <- Hm in *. by apply IH.
  - change (probes (Probe o :: ops)) with (o :: probes ops) in *.
    replace (Z.to_nat (max_probe_attempts b) - k) with (S (Z.to_nat (max_probe_attempts b) - S k)) in Hf by lia.
    simpl in Hf. apply Forall_cons_1 in Hf as [Ho Hf]. rewrite Ho in H. destruct H as [H1 H2].
    rewrite <- Hm in *. destruct (IH _ (S k) H1 H2) as [H3 H4]; [lia|done|].
    split; [done|]. simpl in *. rewrite H4. f_equal. lia.
  - assert (k = Z.to_nat (max_probe_attempts b)) as -> by lia.
    change (breaker_run (breaker_step b (Probe o)) ops) with (breaker_run (breaker_step b (Probe o)) ops).
    rewrite H. destruct (IH b (Z.to_nat (max_probe_attempts b)) Hb Hk) as [H1 H2]; [lia| |].
    + rewrite Nat.sub_diag. apply Forall_nil_2.
    + split; [done|]. rewrite H2. change (probes (Probe o :: ops)) with (o :: probes ops). simpl. lia.
  - destruct H as [H1 H2]. rewrite <- Hm in *. by apply IH.
Qed.

(** When the breaker withholds mutations: after any sequence of
    observations, recovery probes and tallies, it is OPEN exactly when some
    observed outage opened it and every probe of that window that its budget
    of [max_probe_attempts] lets it call has failed (by returning false or by
    raising). *)
Theorem breaker_open_iff n b ops :
  new_breaker n = Ok b ->
  mutations_allowed (breaker_run b ops) = false <->
  exists pre cs post, ops = pre ++ Observe cs :: post
    /\ mutations_allowed (breaker_run b pre) = true /\ has_outage cs = true
    /\ all_fail (take (Z.to_nat n) (probes post)).
Proof.
  intros Hn. unfold new_breaker in Hn. destruct (n <? 1)%Z; [done|].
  assert (max_probe_attempts b = n) as Hmax by (by injection Hn as <-).
  assert (state b = CLOSED) as Hb by (by injection Hn as <-). clear Hn.
  assert (forall b', mutations_allowed b' = false <-> state b' = OPEN) as Hma.
  { intros b'. unfold mutations_allowed. rewrite bool_decide_eq_false. by destruct (state b'). }
  assert (forall b', mutations_allowed b' = true <-> state b' = CLOSED) as Hmc.
  { intros b'. unfold mutations_allowed. by rewrite bool_decide_eq_true. }
  rewrite Hma. setoid_rewrite Hmc. split.
  - induction ops as [|op ops IH] using rev_ind; simpl; [congruence|].
    unfold breaker_run. rewrite foldl_app. simpl. fold (breaker_run b ops).
    destruct (state (breaker_run b ops)) eqn:Hs; intros Ho.
    + apply closed_step in Ho as (cs & -> & Hcs); [|done].
      exists ops, cs, []. split_and!; try done. unfold all_fail, probes. simpl. rewrite take_nil. apply Forall_nil_2.
    + destruct (IH eq_refl) as (pre & cs & post & -> & Hpre & Hcs & Hf).
      exists pre, cs, (post ++ [op]). rewrite <- app_assoc. split_and!; try done.
      unfold breaker_run in Hs, Ho. rewrite foldl_app in Hs, Ho. simpl in Hs, Ho.
      fold (breaker_run b pre) in Hs, Ho.
      set (b1 := breaker_step (breaker_run b pre) (Observe cs)) in *.
      assert (state b1 = OPEN) as H1 by (apply closed_step; eauto).
      assert (consecutive_probe_failures b1 = Z.of_nat 0) as H2 by (by apply opened_fresh).
      assert (max_probe_attempts b1 = n) as H3.
      { subst b1. by rewrite breaker_step_max, breaker_run_max. }
      destruct (open_run_failing b1 post 0 H1 H2) as [H4 H5]; [lia|by rewrite H3, Nat.sub_0_r|].
      unfold probes. rewrite omap_app. fold (probes post). unfold all_fail.
      rewrite take_app. apply Forall_app; split; [done|].
      pose proof (open_step _ op _ H4 H5) as H6. fold (breaker_run b1 post) in Ho.
      rewrite breaker_run_max, H3 in H6. simpl in H6.
      destruct op as [|o|]; simpl; rewrite ?take_nil; try apply Forall_nil_2.
      destruct (Z.to_nat n - length (probes post)) eqn:E; [apply Forall_nil_2|].
      rewrite decide_True in H6 by lia. simpl. rewrite take_nil. constructor; [|apply Forall_nil_2].
      destruct (probe_passed o); [simpl in *|done]. specialize (H6 ltac:(lia)). change (state (probe_recovery (breaker_run b1 post) o).1 = OPEN) in Ho. congruence.
  - intros (pre & cs & post & -> & Hpre & Hcs & Hf).
    unfold breaker_run. rewrite foldl_app. simpl. fold (breaker_run b pre).
    set (b1 := breaker_step (breaker_run b pre) (Observe cs)).
    assert (state b1 = OPEN) as H1 by (apply closed_step; eauto).
    apply (open_run_failing b1 post 0); [done|by apply opened_fresh|lia|].
    subst b1. by rewrite breaker_step_max, breaker_run_max, Hmax, Nat.sub_0_r.
Qed.

Lemma breaker_open_iff_witness :
  exists b, new_breaker 2 = Ok b
    /\ mutations_allowed (breaker_run b [Observe ["github_api_outage"]; Probe Raised; Probe (Returned false);
                                         Probe (Returned true)]) = false.
Proof.
  eexists. split; [reflexivity|].
  apply (breaker_open_iff 2 _ _ eq_refl).
  exists [], ["github_api_outage"], [Probe Raised; Probe (Returned false); Probe (Returned true)].
  split_and!; try reflexivity. simpl. repeat constructor.
Defined.
