(* ===== verification/Triage.v ===== *)
(** * Triage and the arm gate

    [node_pr_lifecycle_triage_compute] (which category a pull request is in)
    and [node_pr_arm_gate_compute] (whether a merge may be armed), with their
    shared event models [events/pr_lifecycle_triage.py] and
    [events/pr_arm_gate.py]. *)
From S2P Require Import Prelude.

(** ** Triage *)

Record ModelPrInventoryItem := {
  ii_pr_number : Z;
  ii_repo : string;
  ii_title : string;
  ii_branch : string;
  ii_ticket_ids : list string;
  ii_ci_status : string;
  ii_has_conflicts : bool;
  ii_approved : bool;
  ii_review_count : Z;
  ii_open_threads : Z;
  ii_failed_check_names : list string;
  ii_failed_check_flaky_evidence : list string;
  ii_failed_check_reason_codes : list string
}.

Record ModelPrTriageInput := {
  ti_correlation_id : string;
  ti_prs : list ModelPrInventoryItem
}.

Inductive EnumPrTriageCategory : Type :=
  | GREEN | RED | CONFLICTED | OCC_DEPENDENCY | NEEDS_REVIEW.
#[export] Instance EnumPrTriageCategory_eq_dec : EqDecision EnumPrTriageCategory.
Proof. solve_decision. Defined.

Record ModelPrTriageResult := {
  res_pr_number : Z;
  res_repo : string;
  res_category : EnumPrTriageCategory;
  res_ticket_ids : list string;
  res_failed_check_names : list string;
  res_failed_check_flaky_evidence : list string;
  res_failed_check_reason_codes : list string;
  res_reason : string
}.

Record ModelPrTriageOutput := {
  out_correlation_id : string;
  out_results : list ModelPrTriageResult;
  out_total_green : Z;
  out_total_red : Z;
  out_total_conflicted : Z;
  out_total_occ_dependency : Z;
  out_total_needs_review : Z
}.

Definition _CI_FAILING_STATUSES : list string := ["failing"; "error"; "failed"].
Definition _CI_PASSING_STATUSES : list string := ["passing"; "success"].
Definition _RECEIPT_GATE_CHECK_NAME : string := "verify / verify".
Definition _OCC_PREFLIGHT_CHECK_NAME : string := "occ-preflight / eligibility".
Definition _OCC_EVIDENCE_CHECK_NAMES : list string :=
  [_RECEIPT_GATE_CHECK_NAME; _OCC_PREFLIGHT_CHECK_NAME].
Definition _COSMETIC_NON_REQUIRED_CHECK_NAMES : list string := ["Enable Auto-Merge"].

(** The set difference and the subset test of the check-name signature; a set
    of names is the list of its members, read through membership only. *)
Definition evidence_signature (names : list string) : list string :=
  filter (fun n => negb (str_in n _COSMETIC_NON_REQUIRED_CHECK_NAMES) = true) names.
Definition evidence_only (names : list string) : bool :=
  truthy names && forallb (fun n => str_in n _OCC_EVIDENCE_CHECK_NAMES) names.

Definition _is_receipt_only_failure (pr : ModelPrInventoryItem) : bool :=
  let failed := filter (fun n => truthy n = true) (map py_strip (ii_failed_check_names pr)) in
  evidence_only (evidence_signature failed).

Definition _result (pr : ModelPrInventoryItem) (category : EnumPrTriageCategory) (reason : string)
  : ModelPrTriageResult :=
  {| res_pr_number := ii_pr_number pr;
     res_repo := ii_repo pr;
     res_category := category;
     res_ticket_ids := ii_ticket_ids pr;
     res_failed_check_names := ii_failed_check_names pr;
     res_failed_check_flaky_evidence := ii_failed_check_flaky_evidence pr;
     res_failed_check_reason_codes := ii_failed_check_reason_codes pr;
     res_reason := reason |}.

Definition threads_reason (pr : ModelPrInventoryItem) : string :=
  "Approved but has " +:+ pretty (ii_open_threads pr) +:+ " unresolved review thread(s).".

Definition _classify_pr (pr : ModelPrInventoryItem) : ModelPrTriageResult :=
  if ii_has_conflicts pr then
    _result pr CONFLICTED "PR has merge conflicts and requires a rebase."
  else
    let ci_lower := py_lower (ii_ci_status pr) in
    if str_in ci_lower _CI_FAILING_STATUSES then
      if _is_receipt_only_failure pr && truthy (ii_ticket_ids pr) then
        _result pr OCC_DEPENDENCY
          "Receipt Gate and/or occ-preflight is the only failing check — classify as OCC dependency and do not dispatch product-code fixes."
      else if _is_receipt_only_failure pr then
        _result pr RED
          "Receipt Gate/occ-preflight-only failure detected, but no ticket ID was found; fallback to RED to avoid an untracked OCC dependency."
      else
        _result pr RED ("CI status is '" +:+ ii_ci_status pr +:+ "' — fix required before merge.")
    else if str_in ci_lower _CI_PASSING_STATUSES && ii_approved pr && Z.eqb (ii_open_threads pr) 0 then
      _result pr GREEN "CI passing, approved, and no unresolved threads — ready to merge."
    else if negb (ii_approved pr) then
      _result pr NEEDS_REVIEW
        (if negb (str_in ci_lower _CI_PASSING_STATUSES) then
           "CI status is '" +:+ ii_ci_status pr +:+ "' and awaiting approval."
         else if (ii_open_threads pr >? 0)%Z then threads_reason pr
         else "Awaiting approval.")
    else if (ii_open_threads pr >? 0)%Z then
      _result pr NEEDS_REVIEW (threads_reason pr)
    else
      _result pr NEEDS_REVIEW
        ("CI status is '" +:+ ii_ci_status pr +:+ "' — waiting for CI to pass before merge.").

(** One turn of the loop of [HandlerPrLifecycleTriage.handle]. *)
Definition tally (out : ModelPrTriageOutput) (pr : ModelPrInventoryItem) : ModelPrTriageOutput :=
  let r := _classify_pr pr in
  let one c := if decide (res_category r = c) then 1%Z else 0%Z in
  {| out_correlation_id := out_correlation_id out;
     out_results := out_results out ++ [r];
     out_total_green := out_total_green out + one GREEN;
     out_total_red := out_total_red out + one RED;
     out_total_conflicted := out_total_conflicted out + one CONFLICTED;
     out_total_occ_dependency := out_total_occ_dependency out + one OCC_DEPENDENCY;
     out_total_needs_review := out_total_needs_review out + one NEEDS_REVIEW |}.

Definition handle_triage (request : ModelPrTriageInput) : ModelPrTriageOutput :=
  foldl tally
    {| out_correlation_id := ti_correlation_id request; out_results := []; out_total_green := 0;
       out_total_red := 0; out_total_conflicted := 0; out_total_occ_dependency := 0;
       out_total_needs_review := 0 |} (ti_prs request).

(** ** The arm gate *)

Record ModelArmCandidate := {
  ac_repo : string;
  ac_pr_number : Z;
  ac_is_draft : option bool;
  ac_coderabbit_unresolved : option Z;
  ac_merge_state_status : option string;
  ac_status_checks : option string;
  ac_occ_companion_verified : option bool;
  ac_priority_hint : Z
}.

Inductive EnumArmDecision : Type := ARM | WITHHOLD.
#[export] Instance EnumArmDecision_eq_dec : EqDecision EnumArmDecision.
Proof. solve_decision. Defined.

Record ModelArmGateDecision := {
  ad_repo : string;
  ad_pr_number : Z;
  ad_decision : EnumArmDecision;
  ad_withheld_reasons : list string;
  ad_priority_score : Z
}.

Inductive EnumArmActionMode : Type := REPORT_ONLY | ENFORCE.
#[export] Instance EnumArmActionMode_eq_dec : EqDecision EnumArmActionMode.
Proof. solve_decision. Defined.
Definition action_mode_value (m : EnumArmActionMode) : string :=
  match m with REPORT_ONLY => "report_only" | ENFORCE => "enforce" end.

Record ModelArmGatePolicy := {
  action_mode : EnumArmActionMode;
  kill_switch : bool;
  wave_cap : Z;
  enable_stall_remediation : bool
}.
(** [ModelArmGatePolicy()] *)
Definition default_policy : ModelArmGatePolicy :=
  {| action_mode := REPORT_ONLY; kill_switch := true; wave_cap := 3; enable_stall_remediation := false |}.

Record ModelArmGateRequest := {
  ag_candidate : ModelArmCandidate;
  ag_policy : ModelArmGatePolicy
}.

Definition _REQUIRED_MERGE_STATE_STATUS : string := "CLEAN".
Definition _REQUIRED_STATUS_CHECKS : string := "SUCCESS".

(** [if cond: reasons.append(reason)] *)
Definition when_add (cond : bool) (reason : string) (reasons : list string) : list string :=
  if cond then reasons ++ [reason] else reasons.

Definition arm_reasons (request : ModelArmGateRequest) : list string :=
  let candidate := ag_candidate request in
  let policy := ag_policy request in
  let r0 := when_add (negb (bool_decide (action_mode policy = ENFORCE)))
              ("action_mode=" +:+ py_repr (action_mode_value (action_mode policy)) +:+ " (not enforce)") [] in
  let r1 := when_add (kill_switch policy) "kill_switch_engaged" r0 in
  let r2 := when_add (negb (bool_decide (ac_is_draft candidate = Some false)))
              ("is_draft=" +:+ py_repr (ac_is_draft candidate) +:+ " (not confirmed False)") r1 in
  let r3 := when_add (negb (bool_decide (ac_coderabbit_unresolved candidate = Some 0%Z)))
              ("coderabbit_unresolved=" +:+ py_repr (ac_coderabbit_unresolved candidate)
               +:+ " (not confirmed 0)") r2 in
  let r4 := when_add (negb (bool_decide (ac_merge_state_status candidate = Some _REQUIRED_MERGE_STATE_STATUS)))
              ("merge_state_status=" +:+ py_repr (ac_merge_state_status candidate)
               +:+ " (not " +:+ py_repr _REQUIRED_MERGE_STATE_STATUS +:+ ")") r3 in
  let r5 := when_add (negb (bool_decide (ac_status_checks candidate = Some _REQUIRED_STATUS_CHECKS)))
              ("status_checks=" +:+ py_repr (ac_status_checks candidate)
               +:+ " (not " +:+ py_repr _REQUIRED_STATUS_CHECKS +:+ ")") r4 in
  when_add (negb (bool_decide (ac_occ_companion_verified candidate = Some true)))
    ("occ_companion_verified=" +:+ py_repr (ac_occ_companion_verified candidate)
     +:+ " (not confirmed True)") r5.

Definition handle_arm_gate (request : ModelArmGateRequest) : ModelArmGateDecision :=
  let reasons := arm_reasons request in
  {| ad_repo := ac_repo (ag_candidate request);
     ad_pr_number := ac_pr_number (ag_candidate request);
     ad_decision := if truthy reasons then WITHHOLD else ARM;
     ad_withheld_reasons := reasons;
     ad_priority_score := ac_priority_hint (ag_candidate request) |}.

(** ** Properties of triage *)

(** The specification: what a category promises of the facts. *)
Definition category_spec (pr : ModelPrInventoryItem) (c : EnumPrTriageCategory) : Prop :=
  let failing := str_in (py_lower (ii_ci_status pr)) _CI_FAILING_STATUSES = true in
  let passing := str_in (py_lower (ii_ci_status pr)) _CI_PASSING_STATUSES = true in
  match c with
  | CONFLICTED => ii_has_conflicts pr = true
  | OCC_DEPENDENCY =>
      ii_has_conflicts pr = false /\ failing /\ _is_receipt_only_failure pr = true /\ ii_ticket_ids pr <> []
  | RED =>
      ii_has_conflicts pr = false /\ failing
      /\ (_is_receipt_only_failure pr = false \/ ii_ticket_ids pr = [])
  | GREEN =>
      ii_has_conflicts pr = false /\ passing /\ ii_approved pr = true /\ ii_open_threads pr = 0%Z
  | NEEDS_REVIEW =>
      ii_has_conflicts pr = false /\ ~ failing
      /\ ~ (passing /\ ii_approved pr = true /\ ii_open_threads pr = 0%Z)
  end.

Lemma statuses_disjoint s :
  str_in s _CI_FAILING_STATUSES = true -> str_in s _CI_PASSING_STATUSES = false.
Proof.
  intros H%str_in_spec. unfold _CI_FAILING_STATUSES in H.
  apply list_elem_of_In in H as [<-|[<-|[<-|[]]]]; reflexivity.
Qed.

Lemma category_spec_functional pr c d : category_spec pr c -> category_spec pr d -> c = d.
Proof.
  pose proof (statuses_disjoint (py_lower (ii_ci_status pr))).
  unfold category_spec. cbv zeta.
  destruct c, d; try done; intros; exfalso; destruct_and?; try destruct_or?; try congruence;
    repeat match goal with
           | H : ?P -> _, H' : ?P |- _ => specialize (H H')
           end; try congruence; naive_solver.
Qed.

Lemma classify_meets_spec pr : category_spec pr (res_category (_classify_pr pr)).
Proof.
  unfold _classify_pr. destruct (ii_has_conflicts pr) eqn:Hc; [done|].
  destruct (str_in _ _CI_FAILING_STATUSES) eqn:Hf.
  - unfold category_spec. destruct (_is_receipt_only_failure pr) eqn:Hr; simpl;
      destruct (ii_ticket_ids pr) eqn:Ht; simpl; rewrite ?Hc, ?Hf, ?Hr, ?Ht; eauto.
  - unfold category_spec. destruct (str_in _ _CI_PASSING_STATUSES) eqn:Hp, (ii_approved pr) eqn:Ha,
      (Z.eqb (ii_open_threads pr) 0) eqn:Hz, (ii_open_threads pr >? 0)%Z; simpl; breflect;
      rewrite ?Hc, ?Hf, ?Hp, ?Ha; intuition congruence.
Qed.

Lemma foldl_tally out prs :
  let r := foldl tally out prs in
  let n c := Z.of_nat (count (fun pr => bool_decide (res_category (_classify_pr pr) = c)) prs) in
  out_results r = out_results out ++ map _classify_pr prs
  /\ out_total_green r = (out_total_green out + n GREEN)%Z
  /\ out_total_red r = (out_total_red out + n RED)%Z
  /\ out_total_conflicted r = (out_total_conflicted out + n CONFLICTED)%Z
  /\ out_total_occ_dependency r = (out_total_occ_dependency out + n OCC_DEPENDENCY)%Z
  /\ out_total_needs_review r = (out_total_needs_review out + n NEEDS_REVIEW)%Z.
Proof.
  revert out. induction prs as [|pr prs IH]; intros out; simpl.
  { rewrite app_nil_r. unfold count; simpl. split_and!; [done|lia..]. }
  destruct (IH (tally out pr)) as (H1 & H2 & H3 & H4 & H5 & H6).
  rewrite H1, H2, H3, H4, H5, H6, !count_cons. simpl. rewrite <- app_assoc.
  split_and!; [done|..]; repeat case_decide; repeat case_bool_decide; try done; lia.
Qed.

(** Triage is a partition decided by the facts: each pull request, in
    order, gets the one category its facts satisfy (a conflict wins over
    failing CI, failing CI over an approval; a failure made only of OCC
    evidence checks is an OCC dependency only when a ticket is bound), and the
    five totals count the results and add up to the number of pull requests. *)
Theorem triage_partition request :
  let out := handle_triage request in
  Forall2 (fun pr r => res_pr_number r = ii_pr_number pr /\ res_repo r = ii_repo pr
                       /\ forall c, category_spec pr c <-> c = res_category r)
    (ti_prs request) (out_results out)
  /\ out_total_green out = Z.of_nat (count (fun r => bool_decide (res_category r = GREEN)) (out_results out))
  /\ (out_total_green out + out_total_red out + out_total_conflicted out
      + out_total_occ_dependency out + out_total_needs_review out
      = Z.of_nat (length (ti_prs request)))%Z.
Proof.
  unfold handle_triage. set (o0 := {| out_results := [] |}).
  destruct (foldl_tally o0 (ti_prs request)) as (H1 & H2 & H3 & H4 & H5 & H6).
  cbv zeta. rewrite H1, H2, H3, H4, H5, H6. simpl. split_and!.
  - clear. induction (ti_prs request) as [|pr prs IH]; simpl; constructor; [|done].
    pose proof (classify_meets_spec pr) as Hs. split_and!.
    1-2: unfold _classify_pr; repeat case_match; reflexivity.
    intros c. split; [|by intros ->]. intros Hc. by eapply category_spec_functional.
  - rewrite Z.add_0_l. f_equal. generalize (ti_prs request). clear. intros prs.
    induction prs as [|pr prs IH]; simpl; [done|]. rewrite !count_cons, IH. lia.
  - generalize (ti_prs request). clear. intros prs.
    induction prs as [|pr prs IH]; simpl; [done|].
    rewrite !count_cons. destruct (res_category (_classify_pr pr)); repeat case_bool_decide; try done; lia.
Qed.

(** ** Properties of the arm gate *)

Lemma when_add_nil cond reason rs : when_add cond reason rs = [] <-> cond = false /\ rs = [].
Proof. unfold when_add. destruct cond; [|naive_solver]. split; [by intros [_ ?]%app_eq_nil|by intros [? _]]. Qed.

Lemma arm_reasons_nil request :
  arm_reasons request = [] <->
  action_mode (ag_policy request) = ENFORCE /\ kill_switch (ag_policy request) = false
  /\ ac_is_draft (ag_candidate request) = Some false
  /\ ac_coderabbit_unresolved (ag_candidate request) = Some 0%Z
  /\ ac_merge_state_status (ag_candidate request) = Some "CLEAN"
  /\ ac_status_checks (ag_candidate request) = Some "SUCCESS"
  /\ ac_occ_companion_verified (ag_candidate request) = Some true.
Proof.
  unfold arm_reasons. rewrite !when_add_nil, !negb_false_iff, !bool_decide_eq_true.
  unfold _REQUIRED_MERGE_STATE_STATUS, _REQUIRED_STATUS_CHECKS. tauto.
Qed.

Lemma arm_decision_iff request :
  ad_decision (handle_arm_gate request) = ARM <-> arm_reasons request = [].
Proof. unfold handle_arm_gate; simpl. destruct (arm_reasons request); simpl; naive_solver. Qed.

(** The seven criteria, in the order the handler checks them. *)
Definition arm_criteria (request : ModelArmGateRequest) : list bool :=
  [bool_decide (action_mode (ag_policy request) = ENFORCE);
   negb (kill_switch (ag_policy request));
   bool_decide (ac_is_draft (ag_candidate request) = Some false);
   bool_decide (ac_coderabbit_unresolved (ag_candidate request) = Some 0%Z);
   bool_decide (ac_merge_state_status (ag_candidate request) = Some "CLEAN");
   bool_decide (ac_status_checks (ag_candidate request) = Some "SUCCESS");
   bool_decide (ac_occ_companion_verified (ag_candidate request) = Some true)].

Lemma when_add_length cond reason rs :
  length (when_add cond reason rs) = (if cond then 1 else 0) + length rs.
Proof. unfold when_add. destruct cond; rewrite ?length_app; simpl; lia. Qed.

Lemma arm_reasons_length request : length (arm_reasons request) = count negb (arm_criteria request).
Proof.
  unfold arm_reasons, arm_criteria. rewrite !when_add_length, !count_cons, count_nil.
  rewrite negb_involutive. simpl.
  unfold _REQUIRED_MERGE_STATE_STATUS, _REQUIRED_STATUS_CHECKS. lia.
Qed.

(** The arm gate fails closed: a merge is armed exactly when the operator
    enforces with the kill switch off and every fact about the pull request is
    positively known to be good; an unknown fact withholds, the shipped default
    policy arms nothing, and the decision lists a reason for every criterion
    that fails and for no other. *)
Theorem arm_gate_fails_closed request :
  (ad_decision (handle_arm_gate request) = ARM <->
     action_mode (ag_policy request) = ENFORCE /\ kill_switch (ag_policy request) = false
     /\ ac_is_draft (ag_candidate request) = Some false
     /\ ac_coderabbit_unresolved (ag_candidate request) = Some 0%Z
     /\ ac_merge_state_status (ag_candidate request) = Some "CLEAN"
     /\ ac_status_checks (ag_candidate request) = Some "SUCCESS"
     /\ ac_occ_companion_verified (ag_candidate request) = Some true)
  /\ length (ad_withheld_reasons (handle_arm_gate request)) = count negb (arm_criteria request)
  /\ (forall candidate, ad_decision (handle_arm_gate {| ag_candidate := candidate; ag_policy := default_policy |}) = WITHHOLD).
Proof.
  split_and!.
  - by rewrite arm_decision_iff, arm_reasons_nil.
  - simpl. apply arm_reasons_length.
  - intros c. destruct (ad_decision _) eqn:E; [|done].
    by apply arm_decision_iff, arm_reasons_nil in E as [? _].
Qed.
