(* ===== verification/PrLedger.v ===== *)
(** * The per-iteration PR ledger

    [projection/protocol_database.py] (the projection database interface and
    its in-memory adapter), [projection/pr_ledger_projection.py] (the ledger
    rows), and the orchestrator path of
    [HandlerPrLifecycleStateReducer.handle] with [_emit_ledger_rows]; the
    iteration counter is the orchestrator's [_next_iteration]. *)
From S2P Require Import Prelude PrModels.

(** ** The projection database *)

(** A column value: the projections modelled here write strings and integers. *)
Inductive cell : Type := CStr (s : string) | CInt (n : Z).
#[export] Instance cell_eq_dec : EqDecision cell.
Proof. solve_decision. Defined.
Abbreviation row := (gmap string cell).

(** What the code asks of a projection database. *)
Class ProtocolProjectionDatabaseSync (D : Type) := {
  upsert : D -> string -> string -> row -> D * result bool;
  query : D -> string -> list (string * cell) -> list row
}.

Record InmemoryDatabaseAdapter := {
  tables : gmap string (list row);
  upsert_count : Z
}.
Definition new_database : InmemoryDatabaseAdapter := {| tables := ∅; upsert_count := 0 |}.

Definition conflict_columns (conflict_key : string) : list string :=
  filter (fun k => truthy k = true) (map py_strip (py_split "," conflict_key)).

(** [all(key in existing and existing[key] == row[key] for key in keys)], the
    keys being in [row]. *)
Definition same_key (keys : list string) (r existing : row) : bool :=
  forallb (fun k => match existing !! k with
                    | Some v => bool_decide (Some v = r !! k)
                    | None => false
                    end) keys.

(** Replaces the first row with the same conflict key, if there is one. *)
Fixpoint replace_first (keys : list string) (r : row) (rows : list row) : option (list row) :=
  match rows with
  | [] => None
  | x :: rows' =>
      if same_key keys r x then Some (r :: rows')
      else match replace_first keys r rows' with
           | Some l => Some (x :: l)
           | None => None
           end
  end.

Definition inmemory_upsert (db : InmemoryDatabaseAdapter) (table conflict_key : string) (r : row)
  : InmemoryDatabaseAdapter * result bool :=
  let rows := default [] (tables db !! table) in
  (* the table exists from here on, even if the call raises *)
  let db' := {| tables := <[table := rows]> (tables db); upsert_count := upsert_count db |} in
  let conflict_keys := conflict_columns conflict_key in
  if negb (truthy conflict_keys) then
    (db', Raise (ValueError "conflict_key must contain at least one key"))
  else
    let missing := filter (fun k => r !! k = None) conflict_keys in
    if truthy missing then (db', Raise (KeyError ("row missing conflict key(s): " +:+ py_repr missing)))
    else
      let rows' := match replace_first conflict_keys r rows with
                   | Some l => l
                   | None => rows ++ [r]
                   end in
      ({| tables := <[table := rows']> (tables db); upsert_count := upsert_count db + 1 |}, Ok true).

(** [all(row.get(k) == v for k, v in filters.items())] *)
Definition matches (filters : list (string * cell)) (r : row) : bool :=
  forallb (fun kv => bool_decide (r !! kv.1 = Some kv.2)) filters.

Definition inmemory_query (db : InmemoryDatabaseAdapter) (table : string) (filters : list (string * cell))
  : list row :=
  let rows := default [] (tables db !! table) in
  if truthy filters then filter (fun r => matches filters r = true) rows else rows.

#[export] Instance inmemory_database : ProtocolProjectionDatabaseSync InmemoryDatabaseAdapter :=
  {| upsert := inmemory_upsert; query := inmemory_query |}.

(** ** Ledger rows *)

Definition PR_LEDGER_PROJECTION_TABLE : string := "pr_lifecycle_ledger_entries".
Definition PR_LEDGER_PROJECTION_CONFLICT_KEY : string := "sweep_id,repo,pr_number,iteration".
Definition PR_LEDGER_PROJECTION_FRESHNESS_SLA_SECONDS : Z := 900.

Inductive EnumPrLedgerFinalState : Type := MERGE_REQUESTED | FIX_DISPATCHED | SKIPPED.
#[export] Instance EnumPrLedgerFinalState_eq_dec : EqDecision EnumPrLedgerFinalState.
Proof. solve_decision. Defined.
Definition final_state_value (s : EnumPrLedgerFinalState) : string :=
  match s with
  | MERGE_REQUESTED => "merge_requested"
  | FIX_DISPATCHED => "fix_dispatched"
  | SKIPPED => "skipped"
  end.

(** [EnumPrLedgerAction] has the members and values of the reducer's intent
    enumeration, and the lookup by value is total on it. *)
Definition action_value (a : EnumReducerIntent) : string :=
  match a with
  | ReducerKind.MERGE => "merge"
  | ReducerKind.FIX => "fix"
  | ReducerKind.SKIP => "skip"
  end.
Definition _INTENT_VALUE_TO_LEDGER (intent : EnumReducerIntent)
  : EnumReducerIntent * EnumPrLedgerFinalState :=
  match intent with
  | ReducerKind.MERGE => (ReducerKind.MERGE, MERGE_REQUESTED)
  | ReducerKind.FIX => (ReducerKind.FIX, FIX_DISPATCHED)
  | ReducerKind.SKIP => (ReducerKind.SKIP, SKIPPED)
  end.

Record ModelPrLedgerProjectionRow := {
  lr_sweep_id : string;
  lr_iteration : Z;
  lr_found_at : datetime;
  lr_repo : string;
  lr_pr_number : Z;
  lr_initial_state : string;
  lr_action_taken : EnumReducerIntent;
  lr_evidence : string;
  lr_final_state : EnumPrLedgerFinalState;
  lr_next_check_at : datetime
}.

(** The pydantic constructor: the declared minimum lengths and bounds. *)
Definition validate_row (r : ModelPrLedgerProjectionRow) : result ModelPrLedgerProjectionRow :=
  if negb (truthy (lr_sweep_id r)) then Raise (ValueError "sweep_id: String should have at least 1 character")
  else if (lr_iteration r <? 0)%Z then Raise (ValueError "iteration: Input should be greater than or equal to 0")
  else if negb (truthy (lr_repo r)) then Raise (ValueError "repo: String should have at least 1 character")
  else if (lr_pr_number r <? 1)%Z then Raise (ValueError "pr_number: Input should be greater than or equal to 1")
  else if negb (truthy (lr_initial_state r)) then
    Raise (ValueError "initial_state: String should have at least 1 character")
  else Ok r.

Definition to_row (r : ModelPrLedgerProjectionRow) : row :=
  list_to_map [
    ("sweep_id", CStr (lr_sweep_id r)); ("iteration", CInt (lr_iteration r));
    ("found_at", CStr (json_datetime (lr_found_at r))); ("repo", CStr (lr_repo r));
    ("pr_number", CInt (lr_pr_number r)); ("initial_state", CStr (lr_initial_state r));
    ("action_taken", CStr (action_value (lr_action_taken r))); ("evidence", CStr (lr_evidence r));
    ("final_state", CStr (final_state_value (lr_final_state r)));
    ("next_check_at", CStr (json_datetime (lr_next_check_at r)))].

Definition _evidence_for (record : TriageRecord) (intent : ReducerIntent) : string :=
  if truthy (ri_reason intent) then ri_reason intent
  else if truthy (tr_block_reason record) then tr_block_reason record
  else if truthy (tr_failed_check_names record)
  then "failed: " +:+ py_join ", " (tr_failed_check_names record)
  else EmptyString.

(** [{(i.repo, i.pr_number): i for i in intents}]: the last intent of a key wins. *)
Definition intents_by_pr (intents : list ReducerIntent) : gmap (string * Z) ReducerIntent :=
  foldl (fun m i => <[(ri_repo i, ri_pr_number i) := i]> m) ∅ intents.

Definition ledger_row (sweep_id : string) (iteration : Z) (found_at : datetime)
    (by_pr : gmap (string * Z) ReducerIntent) (record : TriageRecord)
  : result ModelPrLedgerProjectionRow :=
  match by_pr !! (tr_repo record, tr_pr_number record) with
  | None =>
      Raise (ValueError ("build_ledger_rows: no reducer intent for classified PR " +:+ tr_repo record
             +:+ "#" +:+ pretty (tr_pr_number record)
             +:+ "; the reducer must emit an intent for every PR it classifies"))
  | Some intent =>
      let '(action_taken, final_state) := _INTENT_VALUE_TO_LEDGER (ri_intent intent) in
      validate_row
        {| lr_sweep_id := sweep_id; lr_iteration := iteration; lr_found_at := found_at;
           lr_repo := tr_repo record; lr_pr_number := tr_pr_number record;
           lr_initial_state := category_value (tr_category record);
           lr_action_taken := action_taken; lr_evidence := _evidence_for record intent;
           lr_final_state := final_state;
           lr_next_check_at := found_at + PR_LEDGER_PROJECTION_FRESHNESS_SLA_SECONDS * 1000000 |}
  end.

Definition build_ledger_rows (sweep_id : string) (iteration : Z) (found_at : datetime)
    (classified : list TriageRecord) (intents : list ReducerIntent)
  : result (list ModelPrLedgerProjectionRow) :=
  rows ← mapM (ledger_row sweep_id iteration found_at (intents_by_pr intents)) classified;
  Ok (sort_by (fun r => (lr_repo r, lr_pr_number r)) rows).

(** ** The reducer's orchestrator path *)

Definition intent_of (inventory_only fix_only merge_only : bool) (c : EnumPrCategory) : EnumReducerIntent :=
  if inventory_only then ReducerKind.SKIP
  else match c with
       | PrCategory.GREEN => if fix_only then ReducerKind.SKIP else ReducerKind.MERGE
       | PrCategory.OCC_DEPENDENCY => ReducerKind.SKIP
       | PrCategory.RED | PrCategory.CONFLICTED | PrCategory.NEEDS_REVIEW =>
           if merge_only then ReducerKind.SKIP else ReducerKind.FIX
       | PrCategory.UNKNOWN => ReducerKind.SKIP
       end.

Definition classify_intent (inventory_only fix_only merge_only : bool) (pr : TriageRecord) : ReducerIntent :=
  {| ri_pr_number := tr_pr_number pr;
     ri_repo := tr_repo pr;
     ri_intent := intent_of inventory_only fix_only merge_only (tr_category pr);
     ri_ticket_ids := tr_ticket_ids pr;
     ri_reason := tr_block_reason pr |}.

Definition intent_count (k : EnumReducerIntent) (intents : list ReducerIntent) : Z :=
  Z.of_nat (count (fun i => bool_decide (ri_intent i = k)) intents).

Section reducer.
Context {D : Type} `{ProtocolProjectionDatabaseSync D}.

Fixpoint upsert_all (db : D) (rows : list ModelPrLedgerProjectionRow) : D * result unit :=
  match rows with
  | [] => (db, Ok ())
  | r :: rows' =>
      match upsert db PR_LEDGER_PROJECTION_TABLE PR_LEDGER_PROJECTION_CONFLICT_KEY (to_row r) with
      | (db', Raise e) => (db', Raise e)
      | (db', Ok _) => upsert_all db' rows'
      end
  end.

(** [now] is the wall clock, read when [found_at] is not given. *)
Definition _emit_ledger_rows (classified : list TriageRecord) (intents : list ReducerIntent)
    (projection_db : option D) (sweep_id : option string) (iteration : Z)
    (found_at : option datetime) (now : datetime) : option D * result unit :=
  match projection_db, sweep_id with
  | None, None => (None, Ok ())
  | Some db, Some sid =>
      match build_ledger_rows sid iteration (default now found_at) classified intents with
      | Raise e => (Some db, Raise e)
      | Ok rows => let '(db', r) := upsert_all db rows in (Some db', r)
      end
  | _, _ =>
      (projection_db,
       Raise (ValueError ("per-iteration ledger projection requires BOTH projection_db and sweep_id; got projection_db="
              +:+ py_repr (bool_decide (is_Some projection_db)) +:+ ", sweep_id=" +:+ py_repr sweep_id)))
  end.

Definition handle_classified (classified : list TriageRecord)
    (inventory_only fix_only merge_only : bool) (projection_db : option D)
    (sweep_id : option string) (iteration : Z) (found_at : option datetime) (now : datetime)
  : option D * result ReducerResult :=
  let intents := map (classify_intent inventory_only fix_only merge_only) classified in
  let '(db', r) := _emit_ledger_rows classified intents projection_db sweep_id iteration found_at now in
  (db', _ ← r;
        Ok {| rr_intents := intents;
              rr_merge_count := intent_count ReducerKind.MERGE intents;
              rr_fix_count := intent_count ReducerKind.FIX intents;
              rr_skip_count := intent_count ReducerKind.SKIP intents |}).

(** [int(str(row["iteration"]))] *)
Definition row_iteration (r : row) : result Z :=
  match r !! "iteration" with
  | None => Raise (KeyError "'iteration'")
  | Some (CInt n) => Ok n
  | Some (CStr s) => py_int s
  end.

Definition _next_iteration (projection_db : option D) (sweep_id : string) : result Z :=
  match projection_db with
  | None => Ok 0%Z
  | Some db =>
      match query db PR_LEDGER_PROJECTION_TABLE [("sweep_id", CStr sweep_id)] with
      | [] => Ok 0%Z
      | rows =>
          ns ← mapM row_iteration rows;
          match ns with
          | [] => Raise (ValueError "max() iterable argument is empty")
          | n :: ns' => Ok (foldl Z.max n ns' + 1)%Z
          end
      end
  end.
End reducer.

(** ** Properties of the reducer's decisions *)

Lemma count_map {A B} (f : A -> B) (p : B -> bool) l : count p (map f l) = count (fun a => p (f a)) l.
Proof. induction l as [|a l IH]; simpl; [done|]. by rewrite !count_cons, IH. Qed.

Lemma intent_counts_total intents :
  (intent_count ReducerKind.MERGE intents + intent_count ReducerKind.FIX intents
   + intent_count ReducerKind.SKIP intents = Z.of_nat (length intents))%Z.
Proof.
  unfold intent_count. induction intents as [|i l IH]; [done|]. rewrite !count_cons. simpl length.
  destruct (ri_intent i); repeat case_bool_decide; try done; lia.
Qed.

(** The ledger rows do not change what is decided. *)
Lemma handle_classified_intents {D} `{ProtocolProjectionDatabaseSync D} cl io fo mo (db : option D) sid it at_ now :
  match (handle_classified cl io fo mo db sid it at_ now).2 with
  | Ok r => rr_intents r = map (classify_intent io fo mo) cl
  | Raise _ => True
  end.
Proof.
  unfold handle_classified. destruct (_emit_ledger_rows _ _ _ _ _ _ _) as [d [[]|]]; done.
Qed.

(** The reducer's decision for each pull request, in order: it asks for a
    merge exactly for a GREEN one outside [inventory_only] and [fix_only], for
    a fix exactly for a RED, CONFLICTED or NEEDS_REVIEW one outside
    [inventory_only] and [merge_only], and skips the rest; the three counts
    add up to the number of pull requests.  Without a database nothing can
    raise. *)
Theorem reducer_decides {D} `{ProtocolProjectionDatabaseSync D} cl io fo mo it at_ now :
  exists r, handle_classified (D := D) cl io fo mo None None it at_ now = (None, Ok r)
    /\ Forall2 (fun tr i =>
         ri_repo i = tr_repo tr /\ ri_pr_number i = tr_pr_number tr
         /\ (ri_intent i = ReducerKind.MERGE <-> tr_category tr = PrCategory.GREEN /\ io = false /\ fo = false)
         /\ (ri_intent i = ReducerKind.FIX <->
               tr_category tr ∈ [PrCategory.RED; PrCategory.CONFLICTED; PrCategory.NEEDS_REVIEW]
               /\ io = false /\ mo = false)) cl (rr_intents r)
    /\ (rr_merge_count r + rr_fix_count r + rr_skip_count r = Z.of_nat (length cl))%Z.
Proof.
  eexists. split; [reflexivity|]. simpl. split.
  - induction cl as [|tr cl IH]; simpl; constructor; [|done].
    unfold classify_intent; simpl. split_and!; [done..| |].
    + destruct (tr_category tr), io, fo, mo; simpl; split; try done; by intros (? & ? & ?).
    + rewrite <- (bool_decide_eq_true (_ ∈ _)).
      destruct (tr_category tr), io, fo, mo; simpl; split; try done; by intros (? & ? & ?).
  - rewrite intent_counts_total. by rewrite length_map.
Qed.

(** ** Properties of the in-memory database *)

Definition table_rows (db : InmemoryDatabaseAdapter) (table : string) : list row :=
  default [] (tables db !! table).

Lemma query_rows db table f : inmemory_query db table f = filter (fun r => matches f r = true) (table_rows db table).
Proof.
  unfold inmemory_query, table_rows. destruct f as [|kv f]; simpl; [|done].
  generalize (default [] (tables db !! table)). intros l.
  induction l as [|r l IH]; [done|]. rewrite filter_cons_True by done. by f_equal.
Qed.

Lemma replace_first_none keys r rows :
  Forall (fun x => same_key keys r x = false) rows -> replace_first keys r rows = None.
Proof. induction 1 as [|x l Hx _ IH]; simpl; [done|]. by rewrite Hx, IH. Qed.

Definition ledger_keys : list string := conflict_columns PR_LEDGER_PROJECTION_CONFLICT_KEY.
Definition row_key (r : ModelPrLedgerProjectionRow) : string * Z * string * Z :=
  (lr_repo r, lr_pr_number r, lr_sweep_id r, lr_iteration r).

Lemma to_row_sweep_id r : to_row r !! "sweep_id" = Some (CStr (lr_sweep_id r)).
Proof. done. Qed.
Lemma to_row_repo r : to_row r !! "repo" = Some (CStr (lr_repo r)).
Proof. done. Qed.
Lemma to_row_pr_number r : to_row r !! "pr_number" = Some (CInt (lr_pr_number r)).
Proof. done. Qed.
Lemma to_row_iteration r : to_row r !! "iteration" = Some (CInt (lr_iteration r)).
Proof. done. Qed.
#[local] Arguments to_row : simpl never.
Lemma ledger_keys_eq : ledger_keys = ["sweep_id"; "repo"; "pr_number"; "iteration"].
Proof. reflexivity. Qed.
Create Rewrite HintDb ledger.
#[local] Hint Rewrite to_row_sweep_id to_row_repo to_row_pr_number to_row_iteration : ledger.

Lemma ledger_keys_present r : filter (fun k => to_row r !! k = None) ledger_keys = [].
Proof.
  rewrite ledger_keys_eq. repeat (rewrite filter_cons_False; [|by autorewrite with ledger]). done.
Qed.

Lemma same_key_rows a b : same_key ledger_keys (to_row a) (to_row b) = true <-> row_key a = row_key b.
Proof.
  rewrite ledger_keys_eq. unfold same_key. cbn [forallb]. autorewrite with ledger.
  rewrite !andb_true_iff, !bool_decide_eq_true. unfold row_key. split.
  - intros (H1 & H2 & H3 & H4 & _). congruence.
  - intros H. split_and!; congruence.
Qed.

(** A row of another iteration is a different row. *)
Lemma same_key_iteration r x :
  same_key ledger_keys (to_row r) x = true ->
  x !! "sweep_id" = Some (CStr (lr_sweep_id r)) /\ x !! "iteration" = Some (CInt (lr_iteration r)).
Proof.
  rewrite ledger_keys_eq. unfold same_key. cbn [forallb]. autorewrite with ledger.
  rewrite !andb_true_iff. intros (H1 & _ & _ & H4 & _). split.
  - destruct (x !! "sweep_id"); [|done]. by apply bool_decide_eq_true in H1.
  - destruct (x !! "iteration"); [|done]. by apply bool_decide_eq_true in H4.
Qed.

#[local] Opaque to_row conflict_columns.

Lemma inmemory_upsert_fresh db t ck r :
  conflict_columns ck <> [] -> filter (fun k => r !! k = None) (conflict_columns ck) = [] ->
  Forall (fun x => same_key (conflict_columns ck) r x = false) (table_rows db t) ->
  inmemory_upsert db t ck r =
    ({| tables := <[t := table_rows db t ++ [r]]> (tables db); upsert_count := upsert_count db + 1 |}, Ok true).
Proof.
  intros Hk Hm Hf. unfold inmemory_upsert. fold (table_rows db t). rewrite Hm, (replace_first_none _ _ _ Hf).
  by destruct (conflict_columns ck).
Qed.

Lemma upsert_fresh db r :
  Forall (fun x => same_key ledger_keys (to_row r) x = false) (table_rows db PR_LEDGER_PROJECTION_TABLE) ->
  exists db', inmemory_upsert db PR_LEDGER_PROJECTION_TABLE PR_LEDGER_PROJECTION_CONFLICT_KEY (to_row r) = (db', Ok true)
    /\ table_rows db' PR_LEDGER_PROJECTION_TABLE = table_rows db PR_LEDGER_PROJECTION_TABLE ++ [to_row r].
Proof.
  intros H. eexists. split.
  - apply inmemory_upsert_fresh; [|apply ledger_keys_present|exact H].
    fold ledger_keys. by rewrite ledger_keys_eq.
  - unfold table_rows at 1. cbn [tables]. by rewrite lookup_insert_eq.
Qed.

Lemma upsert_all_fresh rows db :
  NoDup (map row_key rows) ->
  Forall (fun r => Forall (fun x => same_key ledger_keys (to_row r) x = false)
                     (table_rows db PR_LEDGER_PROJECTION_TABLE)) rows ->
  exists db', upsert_all db rows = (db', Ok ())
    /\ table_rows db' PR_LEDGER_PROJECTION_TABLE
       = table_rows db PR_LEDGER_PROJECTION_TABLE ++ map to_row rows.
Proof.
  revert db. induction rows as [|r rows IH]; intros db Hn Hf; simpl.
  { exists db. by rewrite app_nil_r. }
  apply NoDup_cons in Hn as [Hr Hn]. apply Forall_cons_1 in Hf as [Hf1 Hf].
  destruct (upsert_fresh db r Hf1) as (db1 & -> & H1).
  destruct (IH db1 Hn) as (db' & -> & H2).
  - rewrite H1. rewrite Forall_forall in Hf |- *. intros x Hx. apply Forall_app; split; [by apply Hf|].
    apply Forall_singleton. apply not_true_iff_false. rewrite same_key_rows. intros He.
    apply Hr. rewrite <- He. apply list_elem_of_fmap. eauto.
  - exists db'. split; [done|]. by rewrite H2, H1, <- app_assoc.
Qed.

(** ** Iterations append *)

Definition pr_key (tr : TriageRecord) : string * Z := (tr_repo tr, tr_pr_number tr).

(** The row [build_ledger_rows] makes of one classified pull request. *)
Definition row_of (sid : string) (it : Z) (at_ : datetime) (io fo mo : bool) (tr : TriageRecord)
  : ModelPrLedgerProjectionRow :=
  let i := classify_intent io fo mo tr in
  {| lr_sweep_id := sid; lr_iteration := it; lr_found_at := at_; lr_repo := tr_repo tr;
     lr_pr_number := tr_pr_number tr; lr_initial_state := category_value (tr_category tr);
     lr_action_taken := ri_intent i; lr_evidence := _evidence_for tr i;
     lr_final_state := (_INTENT_VALUE_TO_LEDGER (ri_intent i)).2;
     lr_next_check_at := at_ + PR_LEDGER_PROJECTION_FRESHNESS_SLA_SECONDS * 1000000 |}.

Lemma intents_by_pr_lookup io fo mo cl tr :
  NoDup (map pr_key cl) -> tr ∈ cl ->
  intents_by_pr (map (classify_intent io fo mo) cl) !! pr_key tr = Some (classify_intent io fo mo tr).
Proof.
  unfold intents_by_pr. induction cl as [|x cl IH] using rev_ind; [by intros _ ?%not_elem_of_nil|].
  rewrite map_app, map_app, foldl_app. cbn [map foldl].
  intros (Hn & Hd & _)%NoDup_app [Htr|Htr]%elem_of_app.
  - rewrite lookup_insert_ne; [by apply IH|].
    intros He. apply (Hd (pr_key tr)); [apply list_elem_of_fmap; eauto|]. apply list_elem_of_singleton.
    by rewrite <- He.
  - apply list_elem_of_singleton in Htr as ->. by rewrite lookup_insert_eq.
Qed.

Lemma mapM_Ok {A B} (f : A -> result B) (g : A -> B) l :
  Forall (fun a => f a = Ok (g a)) l -> mapM f l = Ok (map g l).
Proof. induction 1 as [|a l Ha _ IH]; simpl; [done|]. rewrite Ha. simpl. by rewrite IH. Qed.

Definition well_formed_pr (tr : TriageRecord) : Prop :=
  truthy (tr_repo tr) = true /\ (1 <= tr_pr_number tr)%Z.

Lemma build_ledger_rows_ok sid it at_ io fo mo cl :
  NoDup (map pr_key cl) -> Forall well_formed_pr cl -> truthy sid = true -> (0 <= it)%Z ->
  build_ledger_rows sid it at_ cl (map (classify_intent io fo mo) cl)
  = Ok (sort_by (fun r => (lr_repo r, lr_pr_number r)) (map (row_of sid it at_ io fo mo) cl)).
Proof.
  intros Hn Hw Hs Hi. unfold build_ledger_rows.
  rewrite (mapM_Ok _ (row_of sid it at_ io fo mo)); [done|].
  rewrite Forall_forall in Hw |- *. intros tr Htr. destruct (Hw tr Htr) as [Hr Hp].
  unfold ledger_row. fold (pr_key tr). rewrite intents_by_pr_lookup by done.
  unfold row_of. destruct (_INTENT_VALUE_TO_LEDGER _) as [a s] eqn:E.
  assert (a = ri_intent (classify_intent io fo mo tr)) as ->.
  { revert E. by destruct (ri_intent _); intros [= <- <-]. }
  unfold validate_row. cbn [lr_sweep_id lr_iteration lr_repo lr_pr_number lr_initial_state].
  rewrite Hs, Hr. simpl. destruct (Z.ltb_spec it 0); [lia|]. destruct (Z.ltb_spec (tr_pr_number tr) 1); [lia|].
  by destruct (tr_category tr).
Qed.

Lemma mapM_elem {A B} (f : A -> result B) l bs a :
  mapM f l = Ok bs -> a ∈ l -> exists b, f a = Ok b /\ b ∈ bs.
Proof.
  revert bs. induction l as [|x l IH]; intros bs; simpl; [by intros _ ?%not_elem_of_nil|].
  destruct (f x) as [y|] eqn:Hx; simpl; [|done]. destruct (mapM f l) as [ys|]; simpl; [|done].
  intros [= <-] [->|Ha]%elem_of_cons; [exists y; split; [done|constructor]|].
  destruct (IH ys eq_refl Ha) as (b & ? & ?). exists b. split; [done|by constructor].
Qed.

Lemma foldl_max n ns m : m ∈ n :: ns -> (m <= foldl Z.max n ns)%Z.
Proof.
  revert n m. induction ns as [|k ns IH]; intros n m; simpl.
  - intros H%list_elem_of_singleton. lia.
  - pose proof (IH (Z.max n k) (Z.max n k) ltac:(constructor)).
    intros [->|[->|H']%elem_of_cons]%elem_of_cons; [lia..|]. apply IH. by constructor.
Qed.

(** The next iteration is above every integer iteration of the sweep. *)
Lemma next_iteration_above db sid it x n :
  _next_iteration (Some db) sid = Ok it ->
  x ∈ table_rows db PR_LEDGER_PROJECTION_TABLE ->
  x !! "sweep_id" = Some (CStr sid) -> x !! "iteration" = Some (CInt n) -> (n < it)%Z.
Proof.
  unfold _next_iteration. cbn [query inmemory_database]. rewrite query_rows.
  set (sel := filter _ _). intros Hit Hx Hsid Hn.
  assert (x ∈ sel) as Hsel.
  { apply list_elem_of_filter. split; [|done]. unfold matches. cbn [forallb fst snd].
    by rewrite Hsid, bool_decide_eq_true_2. }
  destruct sel as [|y sel]; [by apply not_elem_of_nil in Hsel|].
  destruct (mapM row_iteration (y :: sel)) as [[|m ns]|] eqn:E; try done.
  injection Hit as <-. destruct (mapM_elem _ _ _ _ E Hsel) as (b & Hb & Hin).
  unfold row_iteration in Hb. rewrite Hn in Hb. injection Hb as <-.
  apply foldl_max in Hin. lia.
Qed.

Lemma matches_sweep sid r : matches [("sweep_id", CStr sid)] (to_row r) = bool_decide (lr_sweep_id r = sid).
Proof.
  unfold matches. cbn [forallb fst snd]. rewrite to_row_sweep_id, andb_true_r.
  apply bool_decide_ext. split; [by intros [= ->]|by intros ->].
Qed.

(** Iterations append, they never overwrite: when a pass of sweep [sid]
    records its classified pull requests under the iteration [_next_iteration]
    resolved, the call succeeds, the sweep's rows are the earlier rows
    unchanged followed by exactly one row per pull request, each carrying its
    triage category and the action decided for it, and no other sweep's rows
    change. *)
Theorem ledger_iterations_append db sid it cl io fo mo at_ now :
  NoDup (map pr_key cl) -> Forall well_formed_pr cl -> truthy sid = true ->
  _next_iteration (Some db) sid = Ok it -> (0 <= it)%Z ->
  exists db' res rows,
    handle_classified cl io fo mo (Some db) (Some sid) it at_ now = (Some db', Ok res)
    /\ rows ≡ₚ map (row_of sid it (default now at_) io fo mo) cl
    /\ inmemory_query db' PR_LEDGER_PROJECTION_TABLE [("sweep_id", CStr sid)]
       = inmemory_query db PR_LEDGER_PROJECTION_TABLE [("sweep_id", CStr sid)] ++ map to_row rows
    /\ forall sid', sid' <> sid ->
         inmemory_query db' PR_LEDGER_PROJECTION_TABLE [("sweep_id", CStr sid')]
         = inmemory_query db PR_LEDGER_PROJECTION_TABLE [("sweep_id", CStr sid')].
Proof.
  intros Hn Hw Hs Hit Hi.
  set (rows := sort_by (fun r => (lr_repo r, lr_pr_number r)) (map (row_of sid it (default now at_) io fo mo) cl)).
  assert (rows ≡ₚ map (row_of sid it (default now at_) io fo mo) cl) as Hp by apply sort_by_perm.
  assert (Forall (fun r => lr_sweep_id r = sid /\ lr_iteration r = it) rows) as Hrows.
  { rewrite Hp. apply Forall_map, Forall_true. done. }
  destruct (upsert_all_fresh rows db) as (db' & Hup & Hdb').
  - rewrite Hp, map_map. apply (NoDup_fmap_1 (fun k : string * Z * string * Z => (k.1.1.1, k.1.1.2))).
    rewrite <- list_fmap_compose. exact Hn.
  - eapply Forall_impl; [exact Hrows|]. intros r [Hr1 Hr2]. apply Forall_forall. intros x Hx.
    apply not_true_iff_false. intros [H1 H2]%same_key_iteration. rewrite Hr1 in H1. rewrite Hr2 in H2.
    pose proof (next_iteration_above _ _ _ _ _ Hit Hx H1 H2). lia.
  - eexists db', _, rows. split_and!; [|done| |].
    + unfold handle_classified, _emit_ledger_rows. rewrite build_ledger_rows_ok by done.
      fold rows. rewrite Hup. reflexivity.
    + rewrite !query_rows, Hdb', filter_app. f_equal.
      clear - Hrows. induction Hrows as [|r l [Hr _] _ IH]; [done|]. cbn [map].
      rewrite filter_cons_True; [by rewrite IH|]. rewrite matches_sweep. by apply bool_decide_eq_true.
    + intros sid' Hne. rewrite !query_rows, Hdb', filter_app.
      rewrite <- (app_nil_r (filter _ (table_rows db _))) at 2. f_equal.
      clear - Hrows Hne. induction Hrows as [|r l [Hr _] _ IH]; [done|]. cbn [map].
      rewrite filter_cons_False; [done|]. rewrite matches_sweep, bool_decide_eq_true. congruence.
Qed.

Definition sample_triage (n : Z) (c : EnumPrCategory) : TriageRecord :=
  {| tr_pr_number := n; tr_repo := "o/a"; tr_category := c; tr_ticket_ids := [];
     tr_failed_check_names := []; tr_failed_check_flaky_evidence := []; tr_failed_check_reason_codes := [];
     tr_block_reason := "because"; tr_validation_failure_origin := None |}.

Lemma ledger_iterations_append_witness :
  exists db' res rows,
    handle_classified [sample_triage 2 PrCategory.RED; sample_triage 1 PrCategory.GREEN] false false false
      (Some new_database) (Some "r1") 0 None 0 = (Some db', Ok res)
    /\ rows ≡ₚ map (row_of "r1" 0 0 false false false) [sample_triage 2 PrCategory.RED; sample_triage 1 PrCategory.GREEN].
Proof.
  destruct (ledger_iterations_append new_database "r1" 0
              [sample_triage 2 PrCategory.RED; sample_triage 1 PrCategory.GREEN] false false false None 0)
    as (db' & res & rows & H1 & H2 & _).
  - apply (bool_decide_eq_true_1 _). vm_compute. reflexivity.
  - repeat constructor; simpl; lia.
  - reflexivity.
  - reflexivity.
  - lia.
  - exists db', res, rows. auto.
Defined.
