(* ===== verification/LedgerNative.v ===== *)
(** * The derived PR ledger

    [nodes/pr_ledger_native.py]: source events, the fold of an event into an
    entry, the in-memory store, the declared phase transitions and the
    reconstruction of a ledger from its event log. *)
From S2P Require Import Prelude.

(** ** Events, entries, ledgers *)

Module LedgerKind.
Inductive EnumPrLedgerEventKind : Type :=
  | PR_INVENTORIED | WORKFLOW_RUN_OBSERVED | MERGE_GROUP_SHA_MINTED | RERUN_ATTEMPTED
  | FINAL_CONCLUSION.
#[export] Instance EnumPrLedgerEventKind_eq_dec : EqDecision EnumPrLedgerEventKind.
Proof. solve_decision. Defined.
End LedgerKind.
Export (hints) LedgerKind.
Abbreviation EnumPrLedgerEventKind := LedgerKind.EnumPrLedgerEventKind.
Definition event_kind_value (k : EnumPrLedgerEventKind) : string :=
  match k with
  | LedgerKind.PR_INVENTORIED => "pr_inventoried"
  | LedgerKind.WORKFLOW_RUN_OBSERVED => "workflow_run_observed"
  | LedgerKind.MERGE_GROUP_SHA_MINTED => "merge_group_sha_minted"
  | LedgerKind.RERUN_ATTEMPTED => "rerun_attempted"
  | LedgerKind.FINAL_CONCLUSION => "final_conclusion"
  end.

Module LedgerAction.
Inductive EnumOrchestratorAction : Type :=
  | INVENTORY | OBSERVE | ENQUEUE | REQUEUE | MERGE | FIX | SKIP.
#[export] Instance EnumOrchestratorAction_eq_dec : EqDecision EnumOrchestratorAction.
Proof. solve_decision. Defined.
End LedgerAction.
Export (hints) LedgerAction.
Abbreviation EnumOrchestratorAction := LedgerAction.EnumOrchestratorAction.

Module LedgerConclusion.
Inductive EnumPrLedgerConclusion : Type := PENDING | MERGED | FAILED | SKIPPED.
#[export] Instance EnumPrLedgerConclusion_eq_dec : EqDecision EnumPrLedgerConclusion.
Proof. solve_decision. Defined.
End LedgerConclusion.
Export (hints) LedgerConclusion.
Abbreviation EnumPrLedgerConclusion := LedgerConclusion.EnumPrLedgerConclusion.

Module LedgerPhase.
Inductive EnumPrLifecyclePhase : Type :=
  | INVENTORY | TRIAGE | BRANCH_CHECKS | MERGE_GROUP | POST_MERGE_TAIL | TERMINAL.
#[export] Instance EnumPrLifecyclePhase_eq_dec : EqDecision EnumPrLifecyclePhase.
Proof. solve_decision. Defined.
End LedgerPhase.
Export (hints) LedgerPhase.
Abbreviation EnumLedgerPhase := LedgerPhase.EnumPrLifecyclePhase.
Definition phase_value (p : EnumLedgerPhase) : string :=
  match p with
  | LedgerPhase.INVENTORY => "inventory"
  | LedgerPhase.TRIAGE => "triage"
  | LedgerPhase.BRANCH_CHECKS => "branch_checks"
  | LedgerPhase.MERGE_GROUP => "merge_group"
  | LedgerPhase.POST_MERGE_TAIL => "post_merge_tail"
  | LedgerPhase.TERMINAL => "terminal"
  end.

Definition _ALLOWED_PHASE_TRANSITIONS (from_phase to_phase : EnumLedgerPhase) : bool :=
  match from_phase, to_phase with
  | LedgerPhase.INVENTORY, LedgerPhase.TRIAGE
  | LedgerPhase.INVENTORY, LedgerPhase.TERMINAL
  | LedgerPhase.TRIAGE, LedgerPhase.BRANCH_CHECKS
  | LedgerPhase.TRIAGE, LedgerPhase.MERGE_GROUP
  | LedgerPhase.TRIAGE, LedgerPhase.TERMINAL
  | LedgerPhase.BRANCH_CHECKS, LedgerPhase.MERGE_GROUP
  | LedgerPhase.BRANCH_CHECKS, LedgerPhase.TERMINAL
  | LedgerPhase.MERGE_GROUP, LedgerPhase.POST_MERGE_TAIL
  | LedgerPhase.MERGE_GROUP, LedgerPhase.TERMINAL
  | LedgerPhase.POST_MERGE_TAIL, LedgerPhase.BRANCH_CHECKS
  | LedgerPhase.POST_MERGE_TAIL, LedgerPhase.TERMINAL => true
  | _, _ => false
  end.

Definition is_allowed_phase_transition (from_phase to_phase : EnumLedgerPhase) : bool :=
  if decide (from_phase = to_phase) then true else _ALLOWED_PHASE_TRANSITIONS from_phase to_phase.

Record ModelPrLedgerSourceEvent := {
  kind : EnumPrLedgerEventKind;
  run_id : string;
  correlation_id : string;
  repo : string;
  pr_number : Z;
  head_sha : option string;
  workflow_run_id : option Z;
  merge_group_sha : option string;
  conclusion : option EnumPrLedgerConclusion;
  orchestrator_action : EnumOrchestratorAction;
  phase : EnumLedgerPhase;
  observed_at : string
}.

(** The pydantic constructor's checks: a non-empty run id and timestamp, a
    positive pull-request number. *)
Definition source_event_valid (e : ModelPrLedgerSourceEvent) : bool :=
  truthy (run_id e) && (1 <=? pr_number e)%Z && truthy (observed_at e).

Record ModelPrLedgerProvenance := {
  pv_event_kind : EnumPrLedgerEventKind;
  pv_workflow_run : option Z;
  pv_merge_group_sha : option string;
  pv_branch_sha : option string;
  pv_orchestrator_action : EnumOrchestratorAction;
  pv_phase : EnumLedgerPhase;
  pv_observed_at : string
}.

Record ModelPrLedgerEntry := {
  le_run_id : string;
  le_correlation_id : string;
  le_repo : string;
  le_pr_number : Z;
  le_head_sha : option string;
  le_workflow_run_ids : list Z;
  le_merge_group_shas : list string;
  le_rerun_attempts : Z;
  le_conclusion : EnumPrLedgerConclusion;
  le_last_action : option EnumOrchestratorAction;
  le_last_phase : EnumLedgerPhase;
  le_first_observed_at : option string;
  le_last_observed_at : option string;
  le_provenance : list ModelPrLedgerProvenance
}.

Definition failed_in_phase (e : ModelPrLedgerEntry) : option EnumLedgerPhase :=
  if decide (le_conclusion e = LedgerConclusion.FAILED) then
    match find (fun r => bool_decide (pv_event_kind r = LedgerKind.FINAL_CONCLUSION)) (rev (le_provenance e)) with
    | Some r => Some (pv_phase r)
    | None => Some (le_last_phase e)
    end
  else None.

Record ModelPrLifecyclePhaseTransition := {
  pt_run_id : string;
  pt_correlation_id : string;
  pt_from_phase : EnumLedgerPhase;
  pt_to_phase : EnumLedgerPhase;
  pt_recorded_at : string
}.

Record ModelPrLedger := {
  lg_run_id : string;
  lg_last_event_at : option string;
  lg_entries : list ModelPrLedgerEntry;
  lg_phase_transitions : list ModelPrLifecyclePhaseTransition
}.

(** ** Folding one event *)

Definition _provenance_of (event : ModelPrLedgerSourceEvent) : ModelPrLedgerProvenance :=
  {| pv_event_kind := kind event;
     pv_workflow_run := workflow_run_id event;
     pv_merge_group_sha := merge_group_sha event;
     pv_branch_sha := head_sha event;
     pv_orchestrator_action := orchestrator_action event;
     pv_phase := phase event;
     pv_observed_at := observed_at event |}.

(** [ModelPrLedgerEntry(run_id=..., ..., first_observed_at=...)] *)
Definition new_entry (event : ModelPrLedgerSourceEvent) : ModelPrLedgerEntry :=
  {| le_run_id := run_id event; le_correlation_id := correlation_id event; le_repo := repo event;
     le_pr_number := pr_number event; le_head_sha := None; le_workflow_run_ids := [];
     le_merge_group_shas := []; le_rerun_attempts := 0; le_conclusion := LedgerConclusion.PENDING;
     le_last_action := None; le_last_phase := LedgerPhase.INVENTORY;
     le_first_observed_at := Some (observed_at event); le_last_observed_at := None;
     le_provenance := [] |}.

(** Appends [x] to [xs] when [x] is given and not in [xs] yet. *)
Definition add_new {A} `{EqDecision A} (x : option A) (xs : list A) : list A :=
  match x with
  | Some a => if decide (a ∈ xs) then xs else xs ++ [a]
  | None => xs
  end.

Definition fold_event (entry : option ModelPrLedgerEntry) (event : ModelPrLedgerSourceEvent)
  : ModelPrLedgerEntry :=
  let base := match entry with None => new_entry event | Some e => e end in
  {| le_run_id := le_run_id base;
     le_correlation_id := le_correlation_id base;
     le_repo := le_repo base;
     le_pr_number := le_pr_number base;
     le_head_sha := match head_sha event with Some h => Some h | None => le_head_sha base end;
     le_workflow_run_ids := add_new (workflow_run_id event) (le_workflow_run_ids base);
     le_merge_group_shas := add_new (merge_group_sha event) (le_merge_group_shas base);
     le_rerun_attempts :=
       if decide (kind event = LedgerKind.RERUN_ATTEMPTED)
       then (le_rerun_attempts base + 1)%Z else le_rerun_attempts base;
     le_conclusion :=
       if decide (kind event = LedgerKind.FINAL_CONCLUSION)
       then match conclusion event with Some c => c | None => le_conclusion base end
       else le_conclusion base;
     le_last_action := Some (orchestrator_action event);
     le_last_phase := phase event;
     le_first_observed_at := Some (py_opt_or (le_first_observed_at base) (observed_at event));
     le_last_observed_at := Some (observed_at event);
     le_provenance := le_provenance base ++ [_provenance_of event] |}.

(** ** The in-memory store *)

Abbreviation pr_key := (string * Z)%type.
Definition key_of (e : ModelPrLedgerSourceEvent) : pr_key := (repo e, pr_number e).

Record InMemoryPrLedgerStore := {
  _runs : gmap string (gmap pr_key ModelPrLedgerEntry);
  _last_event_at : gmap string string;
  _transitions : gmap string (list ModelPrLifecyclePhaseTransition)
}.
Definition empty_store : InMemoryPrLedgerStore :=
  {| _runs := ∅; _last_event_at := ∅; _transitions := ∅ |}.

Definition _build_ledger (rid : string) (entries : list ModelPrLedgerEntry) (last_event : option string)
    (transitions : list ModelPrLifecyclePhaseTransition) : ModelPrLedger :=
  {| lg_run_id := rid;
     lg_last_event_at := last_event;
     lg_entries := sort_by (fun e => (le_repo e, le_pr_number e)) entries;
     lg_phase_transitions := transitions |}.

(** [dict.values()]: the order of the dict does not matter, [_build_ledger]
    sorts by the key. *)
Definition values {V} (m : gmap pr_key V) : list V := (map_to_list m).*2.

Definition load (store : InMemoryPrLedgerStore) (rid : string) : ModelPrLedger :=
  _build_ledger rid (values (default ∅ (_runs store !! rid)))
    (_last_event_at store !! rid) (default [] (_transitions store !! rid)).

(** [prev is None or observed_at > prev] *)
Definition later (prev : option string) (at_ : string) : option string :=
  match prev with
  | None => Some at_
  | Some p => if py_ltb p at_ then Some at_ else Some p
  end.

Definition apply (store : InMemoryPrLedgerStore) (event : ModelPrLedgerSourceEvent)
  : InMemoryPrLedgerStore * ModelPrLedgerEntry :=
  let run := default ∅ (_runs store !! run_id event) in
  let entry := fold_event (run !! key_of event) event in
  ({| _runs := <[run_id event := <[key_of event := entry]> run]> (_runs store);
      _last_event_at :=
        match later (_last_event_at store !! run_id event) (observed_at event) with
        | Some t => <[run_id event := t]> (_last_event_at store)
        | None => _last_event_at store
        end;
      _transitions := _transitions store |}, entry).

Definition _validate_transition (t : ModelPrLifecyclePhaseTransition) : result unit :=
  if is_allowed_phase_transition (pt_from_phase t) (pt_to_phase t) then Ok ()
  else Raise (ValueError ("illegal phase transition " +:+ phase_value (pt_from_phase t) +:+ " -> "
         +:+ phase_value (pt_to_phase t)
         +:+ "; not a declared orchestrator state-machine transition")).

Definition record_transition (store : InMemoryPrLedgerStore) (t : ModelPrLifecyclePhaseTransition)
  : result InMemoryPrLedgerStore :=
  _ ← _validate_transition t;
  Ok {| _runs := _runs store; _last_event_at := _last_event_at store;
        _transitions := <[pt_run_id t := default [] (_transitions store !! pt_run_id t) ++ [t]]> (_transitions store) |}.

(** ** Reconstruction from a log *)

Definition event_key (e : ModelPrLedgerSourceEvent) : string * (Z * (string * string)) :=
  (repo e, (pr_number e, (observed_at e, event_kind_value (kind e)))).
Definition transition_key (t : ModelPrLifecyclePhaseTransition) : string * string :=
  (pt_recorded_at t, phase_value (pt_from_phase t)).

(** One turn of the replay loop. *)
Definition replay_step (acc : gmap pr_key ModelPrLedgerEntry * option string)
    (event : ModelPrLedgerSourceEvent) : gmap pr_key ModelPrLedgerEntry * option string :=
  (<[key_of event := fold_event (acc.1 !! key_of event) event]> acc.1, later acc.2 (observed_at event)).

Fixpoint validate_all (ts : list ModelPrLifecyclePhaseTransition) : result unit :=
  match ts with
  | [] => Ok ()
  | t :: ts' => _ ← _validate_transition t; validate_all ts'
  end.

Definition reconstruct_pr_ledger (events : list ModelPrLedgerSourceEvent)
    (phase_transitions : list ModelPrLifecyclePhaseTransition) : result ModelPrLedger :=
  let run_ids := sorted_set (map run_id events) in
  let transition_run_ids := sorted_set (map pt_run_id phase_transitions) in
  match run_ids with
  | [] => Raise (ValueError "reconstruct_pr_ledger requires at least one source event")
  | _ :: _ :: _ =>
      Raise (ValueError ("reconstruct_pr_ledger expects a single run_id, got " +:+ py_repr run_ids))
  | [rid] =>
      if truthy transition_run_ids && negb (bool_decide (transition_run_ids = run_ids)) then
        Raise (ValueError ("reconstruct_pr_ledger transitions must share the events' run_id; got events run_id "
               +:+ py_repr run_ids +:+ ", transitions " +:+ py_repr transition_run_ids))
      else
        _ ← validate_all phase_transitions;
        let '(entries, last_event) := foldl replay_step (∅, None) (sort_by event_key events) in
        Ok (_build_ledger rid (values entries) last_event (sort_by transition_key phase_transitions))
  end.

(** ** Properties *)

(** The entry of a pull request after its events, in order. *)
Definition entry_of (es : list ModelPrLedgerSourceEvent) : option ModelPrLedgerEntry :=
  foldl (fun acc e => Some (fold_event acc e)) None es.

Definition of_pr (k : pr_key) (es : list ModelPrLedgerSourceEvent) : list ModelPrLedgerSourceEvent :=
  filter (fun e => key_of e = k) es.

Lemma of_pr_app k es1 es2 : of_pr k (es1 ++ es2) = of_pr k es1 ++ of_pr k es2.
Proof. apply filter_app. Qed.

Lemma entry_of_snoc es e : entry_of (es ++ [e]) = Some (fold_event (entry_of es) e).
Proof. unfold entry_of. by rewrite foldl_app. Qed.

Lemma replay_lookup es k :
  (foldl replay_step (∅, None) es).1 !! k = entry_of (of_pr k es).
Proof.
  induction es as [|e es IH] using rev_ind; [done|].
  rewrite foldl_app, of_pr_app. simpl. unfold of_pr at 2. rewrite filter_cons.
  destruct (decide (key_of e = k)) as [<-|Hk].
  - rewrite entry_of_snoc, lookup_insert_eq. by rewrite IH.
  - by rewrite lookup_insert_ne, app_nil_r.
Qed.

(** The newest timestamp. *)
Lemma later_spec prev t : later prev t = Some (match prev with None => t | Some p => if py_ltb p t then t else p end).
Proof. unfold later. destruct prev; [by destruct (py_ltb _ _)|done]. Qed.

Lemma later_comm prev s t : later (later prev s) t = later (later prev t) s.
Proof.
  rewrite !later_spec. f_equal. unfold py_ltb.
  pose proof (py_leb_trans (A := string)) as Htrans.
  destruct prev as [p|];
    repeat match goal with |- context [py_leb ?a ?b] => destruct (py_leb a b) eqn:? end; simpl; try done.
  all: repeat match goal with
       | H : py_leb ?a ?b = false |- _ =>
           lazymatch goal with
           | _ : py_leb b a = true |- _ => fail
           | _ => pose proof (py_leb_total a b H)
           end
       end.
  all: simpl in *; try congruence; try (by apply py_leb_antisym; eauto).
  all: match goal with
       | H : py_leb ?a ?c = false |- _ =>
           assert (py_leb a c = true) by (eauto); congruence
       end.
Qed.

Lemma foldl_later_perm prev l k :
  l ≡ₚ k -> foldl later prev l = foldl later prev k.
Proof.
  intros H. revert prev. induction H as [|x l k _ IH|x y l|l1 l2 l3 _ IH1 _ IH2]; intros prev; simpl; try done.
  - by rewrite later_comm.
  - by rewrite IH1.
Qed.

Lemma replay_last es : (foldl replay_step (∅, None) es).2 = foldl later None (map observed_at es).
Proof.
  induction es as [|e es IH] using rev_ind; [done|].
  rewrite foldl_app, map_app, foldl_app. simpl. by rewrite IH.
Qed.

Lemma later_some prev t : exists u, later prev t = Some u.
Proof. rewrite later_spec. eauto. Qed.

(** What a sweep does to its store: it applies events and records transitions
    (an undeclared one raises and is not recorded). *)
Inductive store_op : Type :=
  | Apply (e : ModelPrLedgerSourceEvent)
  | Record_ (t : ModelPrLifecyclePhaseTransition).
Definition store_step (s : InMemoryPrLedgerStore) (op : store_op) : InMemoryPrLedgerStore :=
  match op with
  | Apply e => (apply s e).1
  | Record_ t => match record_transition s t with Ok s' => s' | Raise _ => s end
  end.
Definition store_run : list store_op -> InMemoryPrLedgerStore := foldl store_step empty_store.

Definition op_events (ops : list store_op) : list ModelPrLedgerSourceEvent :=
  omap (fun op => match op with Apply e => Some e | _ => None end) ops.
Definition op_transitions (ops : list store_op) : list ModelPrLifecyclePhaseTransition :=
  omap (fun op => match op with
                  | Record_ t => if is_allowed_phase_transition (pt_from_phase t) (pt_to_phase t)
                                 then Some t else None
                  | _ => None end) ops.

Lemma store_run_spec rid ops :
  Forall (fun e => run_id e = rid) (op_events ops) ->
  Forall (fun t => pt_run_id t = rid) (op_transitions ops) ->
  let r := foldl replay_step (∅, None) (op_events ops) in
  default ∅ (_runs (store_run ops) !! rid) = r.1
  /\ _last_event_at (store_run ops) !! rid = r.2
  /\ default [] (_transitions (store_run ops) !! rid) = op_transitions ops.
Proof.
  induction ops as [|op ops IH] using rev_ind; [done|].
  unfold op_events, op_transitions, store_run. rewrite !omap_app, !foldl_app.
  fold (op_events ops) (op_transitions ops) (store_run ops).
  intros [He He']%Forall_app [Ht Ht']%Forall_app.
  destruct (IH He Ht) as (H1 & H2 & H3). clear IH He Ht.
  destruct op as [e|t]; cbn [omap list_omap] in *; rewrite ?app_nil_r, ?foldl_app.
  - apply Forall_cons_1 in He' as [<- _]. cbn [foldl store_step]. unfold apply. cbn [fst _runs _last_event_at _transitions].
    rewrite lookup_insert_eq. simpl. rewrite H1, H2. split_and!; [done| |done].
    destruct (later_some (foldl replay_step (∅, None) (op_events ops)).2 (observed_at e)) as [u Hu].
    rewrite Hu. by rewrite lookup_insert_eq.
  - cbn [foldl store_step]. unfold record_transition, _validate_transition.
    destruct (is_allowed_phase_transition _ _); cbn in *; [|by rewrite app_nil_r].
    apply Forall_cons_1 in Ht' as [<- _]. rewrite lookup_insert_eq. simpl. by rewrite H3.
Qed.

Lemma replay_perm es es' :
  StronglySorted (fun a b => key_of a = key_of b -> py_ltb (observed_at a) (observed_at b) = true) es ->
  es' ≡ₚ es ->
  foldl replay_step (∅, None) (sort_by event_key es') = foldl replay_step (∅, None) es.
Proof.
  intros Hs Hp. apply injective_projections.
  - apply map_eq. intros k. rewrite !replay_lookup. f_equal. symmetry.
    apply (strictly_sorted_unique observed_at).
    + assert (Forall (fun e => key_of e = k) (of_pr k es)) as Hk.
      { apply Forall_forall. by intros e [? _]%list_elem_of_filter. }
      apply (StronglySorted_filter _ (fun e => key_of e = k)) in Hs. fold (of_pr k es) in Hs.
      clear Hp. induction Hs as [|x l Hl IH Hx]; [constructor|].
      apply Forall_cons_1 in Hk as [Hxk Hk]. constructor; [by apply IH|].
      rewrite Forall_forall in *. intros y Hy. apply Hx; [done|]. by rewrite Hxk, Hk.
    + assert (StronglySorted (fun a b => py_leb (event_key a) (event_key b) = true) (of_pr k (sort_by event_key es'))) as H.
      { apply StronglySorted_filter, sort_by_sorted. }
      assert (Forall (fun e => key_of e = k) (of_pr k (sort_by event_key es'))) as Hk.
      { apply Forall_forall. by intros e [? _]%list_elem_of_filter. }
      induction H as [|x l Hl IH Hx]; [constructor|].
      apply Forall_cons_1 in Hk as [Hxk Hk]. constructor; [by apply IH|].
      rewrite Forall_forall in *. intros y Hy. specialize (Hx y Hy).
      assert (key_of y = key_of x) as Hyx by (by rewrite Hxk, Hk).
      unfold key_of in Hyx. injection Hyx as Hr Hn. clear -Hx Hr Hn.
      unfold event_key in Hx. rewrite Hr, Hn, !py_leb_pair_eq in Hx. by eapply py_leb_pair_fst.
    + unfold of_pr. by rewrite sort_by_perm, Hp.
  - rewrite !replay_last. apply foldl_later_perm. by rewrite sort_by_perm, Hp.
Qed.

Lemma validate_all_ok ts :
  Forall (fun t => is_allowed_phase_transition (pt_from_phase t) (pt_to_phase t) = true) ts ->
  validate_all ts = Ok ().
Proof. induction 1 as [|t ts Ht _ IH]; simpl; [done|]. unfold _validate_transition. by rewrite Ht. Qed.

Lemma op_transitions_allowed ops :
  Forall (fun t => is_allowed_phase_transition (pt_from_phase t) (pt_to_phase t) = true) (op_transitions ops).
Proof.
  unfold op_transitions. apply Forall_forall. intros t (op & _ & Hop)%list_elem_of_omap.
  destruct op as [|u]; [done|]. destruct (is_allowed_phase_transition _ _) eqn:E; naive_solver.
Qed.

(** C32. The ledger of a run is reconstructable from its logs, if time tells its
    events apart. When the source events of each pull request were recorded with
    strictly increasing timestamps, and the phase transitions too, however the
    events of different pull requests and the transitions interleaved, replaying
    the run's event log and its transition log, each in any order, gives back
    exactly the ledger the live store holds. *)
Theorem ledger_reconstructable rid ops es' ts' :
  Forall (fun e => run_id e = rid) (op_events ops) ->
  Forall (fun t => pt_run_id t = rid) (op_transitions ops) ->
  StronglySorted (fun a b => key_of a = key_of b -> py_ltb (observed_at a) (observed_at b) = true) (op_events ops) ->
  StronglySorted (fun a b => py_ltb (pt_recorded_at a) (pt_recorded_at b) = true) (op_transitions ops) ->
  op_events ops <> [] ->
  es' ≡ₚ op_events ops -> ts' ≡ₚ op_transitions ops ->
  reconstruct_pr_ledger es' ts' = Ok (load (store_run ops) rid).
Proof.
  intros He Ht Hes Hts Hne Hpe Hpt. unfold reconstruct_pr_ledger.
  rewrite (sorted_set_single (map run_id es') rid); cycle 1.
  { intros Hn%map_eq_nil. subst. by apply Permutation_nil_l in Hpe. }
  { rewrite Hpe. apply Forall_map. eapply Forall_impl; [exact He|]. by intros e <-. }
  assert (truthy (sorted_set (map pt_run_id ts'))
          && negb (bool_decide (sorted_set (map pt_run_id ts') = [rid])) = false) as ->.
  { destruct ts' as [|t ts']; [done|]. rewrite (sorted_set_single _ rid); [by rewrite bool_decide_eq_true_2|done|].
    rewrite Hpt. apply Forall_map. eapply Forall_impl; [exact Ht|]. by intros e <-. }
  rewrite validate_all_ok by (rewrite Hpt; apply op_transitions_allowed). simpl.
  rewrite (replay_perm _ _ Hes Hpe).
  destruct (store_run_spec rid ops He Ht) as (H1 & H2 & H3).
  unfold load. rewrite H1, H2, H3. destruct (foldl replay_step _ _) as [m t]. simpl. f_equal. f_equal.
  symmetry. apply (strictly_sorted_unique pt_recorded_at); [done| |by rewrite sort_by_perm, Hpt].
  eapply StronglySorted_impl; [|apply sort_by_sorted].
  intros a b. apply py_leb_pair_fst.
Qed.

Definition sample_event (k : EnumPrLedgerEventKind) (n : Z) (at_ : string) : ModelPrLedgerSourceEvent :=
  {| kind := k; run_id := "r1"; correlation_id := "c"; repo := "o/a"; pr_number := n; head_sha := None;
     workflow_run_id := None; merge_group_sha := Some "mg-1"; conclusion := Some LedgerConclusion.MERGED;
     orchestrator_action := LedgerAction.MERGE; phase := LedgerPhase.MERGE_GROUP; observed_at := at_ |}.
Definition sample_ops : list store_op :=
  [Apply (sample_event LedgerKind.PR_INVENTORIED 1 "t1");
   Record_ {| pt_run_id := "r1"; pt_correlation_id := "c"; pt_from_phase := LedgerPhase.TRIAGE;
              pt_to_phase := LedgerPhase.MERGE_GROUP; pt_recorded_at := "t2" |};
   Apply (sample_event LedgerKind.FINAL_CONCLUSION 1 "t3");
   Apply (sample_event LedgerKind.PR_INVENTORIED 2 "t1")].

Lemma ledger_reconstructable_witness :
  reconstruct_pr_ledger (rev (op_events sample_ops)) (op_transitions sample_ops)
  = Ok (load (store_run sample_ops) "r1").
Proof.
  apply ledger_reconstructable.
  - repeat constructor.
  - repeat constructor.
  - repeat constructor; discriminate.
  - repeat constructor.
  - discriminate.
  - apply Permutation_sym, Permutation_rev.
  - reflexivity.
Defined.

(** ** What an entry says of its events *)

(** The conclusion of the last concluding event that carries one. *)
Definition last_conclusion (es : list ModelPrLedgerSourceEvent) : EnumPrLedgerConclusion :=
  default LedgerConclusion.PENDING
    (last (omap (fun e => if decide (kind e = LedgerKind.FINAL_CONCLUSION) then conclusion e else None) es)).

Lemma add_new_NoDup {A} `{EqDecision A} (x : option A) xs : NoDup xs -> NoDup (add_new x xs).
Proof.
  intros H. unfold add_new. destruct x as [a|]; [|done]. case_decide; [done|].
  apply NoDup_app. split_and!; [done|set_solver|apply NoDup_singleton].
Qed.
Lemma add_new_elem {A} `{EqDecision A} (x : option A) xs a :
  a ∈ add_new x xs <-> a ∈ xs \/ x = Some a.
Proof.
  unfold add_new. destruct x as [b|]; [|naive_solver].
  case_decide; rewrite ?elem_of_app, ?list_elem_of_singleton; naive_solver.
Qed.

Definition entry_good (x : ModelPrLedgerEntry) (l : list ModelPrLedgerSourceEvent) : Prop :=
  le_rerun_attempts x = Z.of_nat (count (fun e => bool_decide (kind e = LedgerKind.RERUN_ATTEMPTED)) l)
  /\ NoDup (le_merge_group_shas x)
  /\ (forall s, s ∈ le_merge_group_shas x <-> Some s ∈ map merge_group_sha l)
  /\ le_conclusion x = last_conclusion l
  /\ le_provenance x = map _provenance_of l.

Lemma fold_event_good base l e :
  match base with Some x => entry_good x l | None => l = [] end ->
  entry_good (fold_event base e) (l ++ [e]).
Proof.
  intros Hb. assert (entry_good (match base with Some x => x | None => new_entry e end) l) as Hg.
  { destruct base as [x|]; [done|]. subst. unfold entry_good; simpl. split_and!; try done; [constructor|].
    intros s. split; by intros ?%not_elem_of_nil. }
  destruct Hg as (H1 & H2 & H3 & H4 & H5). unfold entry_good, fold_event.
  cbn [le_rerun_attempts le_merge_group_shas le_conclusion le_provenance].
  rewrite count_app, count_cons, count_nil, !map_app.
  split_and!.
  - destruct base; cbn in H1 |- *; rewrite H1; case_decide; case_bool_decide; try done; lia.
  - by apply add_new_NoDup.
  - intros s. rewrite add_new_elem, elem_of_app, H3. cbn [map].
    rewrite list_elem_of_singleton. naive_solver.
  - unfold last_conclusion in *. rewrite omap_app, H4. cbn [omap list_omap].
    case_decide; [destruct (conclusion e)|]; by rewrite ?last_snoc, ?app_nil_r.
  - by rewrite H5.
Qed.

Lemma entry_of_good l : match entry_of l with Some x => entry_good x l | None => l = [] end.
Proof.
  induction l as [|a l IH] using rev_ind; [done|]. rewrite entry_of_snoc. by apply fold_event_good.
Qed.

(** An entry is exactly what its events say: the rerun count is the number
    of rerun events, the merge-group SHAs are those the events carry, each
    once, the conclusion is that of the last concluding event (PENDING if
    none), the provenance lists every event in order, and the last phase is
    the phase of the last event. *)
Theorem entry_faithful es e :
  exists x, entry_of (es ++ [e]) = Some x
    /\ le_rerun_attempts x
       = Z.of_nat (count (fun e => bool_decide (kind e = LedgerKind.RERUN_ATTEMPTED)) (es ++ [e]))
    /\ NoDup (le_merge_group_shas x)
    /\ (forall s, s ∈ le_merge_group_shas x <-> Some s ∈ map merge_group_sha (es ++ [e]))
    /\ le_conclusion x = last_conclusion (es ++ [e])
    /\ le_provenance x = map _provenance_of (es ++ [e])
    /\ le_last_phase x = phase e.
Proof.
  rewrite entry_of_snoc. eexists. split; [reflexivity|].
  destruct (fold_event_good _ es e (entry_of_good es)) as (H1 & H2 & H3 & H4 & H5). by split_and!.
Qed.

(** Applying an event twice is not applying it once: the rerun count and the
    provenance grow, so a store that re-applies an event is not idempotent. *)
Remark fold_event_not_idempotent :
  let e := sample_event LedgerKind.RERUN_ATTEMPTED 1 "t1" in
  let once := fold_event None e in
  le_rerun_attempts once = 1%Z /\ le_rerun_attempts (fold_event (Some once) e) = 2%Z.
Proof. split; reflexivity. Qed.

(** Two concluding events of one pull request with the same timestamp are tied
    in the replay order: reconstruction then depends on the order of the log. *)
Remark reconstruct_order_on_ties :
  let a := sample_event LedgerKind.FINAL_CONCLUSION 1 "t1" in
  let b := {| kind := kind a; run_id := run_id a; correlation_id := correlation_id a; repo := repo a;
              pr_number := pr_number a; head_sha := head_sha a; workflow_run_id := workflow_run_id a;
              merge_group_sha := merge_group_sha a; conclusion := Some LedgerConclusion.FAILED;
              orchestrator_action := orchestrator_action a; phase := phase a; observed_at := observed_at a |} in
  reconstruct_pr_ledger [a; b] [] <> reconstruct_pr_ledger [b; a] [].
Proof. vm_compute. discriminate. Qed.
