(* ===== verification/PrRouting.v ===== *)
(** * Translations and routing of the PR lifecycle orchestrator

    The pure helpers of [handler_pr_lifecycle_orchestrator.py]: how a collected
    pull-request state becomes a [PrRecord], how a [PrRecord] becomes a triage
    item and a triage result a [TriageRecord], which fix a non-green pull
    request is routed to; and [verify_target_mapping.py], which verification a
    pull request's changed files call for. *)
From S2P Require Import Prelude PrModels MergeControl Triage.

(** ** Vocabulary maps *)

Definition _CI_STATUS_MAP : list (string * string) :=
  [("success", "passing"); ("failure", "failing"); ("pending", "pending"); ("unknown", "unknown")].
Definition _REVIEW_STATUS_MAP : list (string * string) :=
  [("APPROVED", "approved"); ("CHANGES_REQUESTED", "changes_requested");
   ("REVIEW_REQUIRED", "pending"); ("COMMENT", "pending")].

(** [m.get(k)] of a constant dict. *)
Fixpoint assoc {A} (m : list (string * A)) (k : string) : option A :=
  match m with
  | [] => None
  | (k', v) :: m' => if String.eqb k k' then Some v else assoc m' k
  end.

Definition _orch_checks_to_ci_status (checks_status : string) : string :=
  default "unknown" (assoc _CI_STATUS_MAP (py_lower checks_status)).

Definition _status_checks_for_arm (checks_status : string) : option string :=
  assoc [("success", "SUCCESS"); ("failure", "FAILURE"); ("pending", "PENDING")] (py_lower checks_status).

Definition _DEFAULT_GITHUB_OWNER : string := "OmniNode-ai".
Definition _normalize_repo_slug (value : string) : string :=
  let repo := py_strip value in
  if negb (truthy repo) then EmptyString
  else if py_contains "/" repo then repo
  else _DEFAULT_GITHUB_OWNER +:+ "/" +:+ repo.

(** ** From the inventory's state to a [PrRecord] *)

Definition _map_ci_status (pr_state : ModelPrState) : string :=
  match ps_ci_passing pr_state with
  | Some true => "success"
  | Some false => "failure"
  | None => "unknown"
  end.

Definition failed_conclusion (check : ModelPrCheckRun) : bool :=
  str_in (py_lower (py_opt_or (cr_conclusion check) EmptyString))
    ["failure"; "cancelled"; "timed_out"; "action_required"].

Definition nonempty (l : list string) : list string := filter (fun s => truthy s = true) l.

Definition _failed_check_names (pr_state : ModelPrState) : list string :=
  sorted_set (nonempty (map (fun c => py_strip (cr_name c))
                          (filter (fun c => failed_conclusion c = true) (ps_check_runs pr_state)))).

Definition _failed_check_flaky_evidence (pr_state : ModelPrState) : list string :=
  sorted_set (nonempty (map py_strip
    (concat (map cr_flaky_failure_evidence
               (filter (fun c => failed_conclusion c = true) (ps_check_runs pr_state)))))).

Definition _failed_check_reason_codes (pr_state : ModelPrState) : list string :=
  sorted_set (nonempty (omap cr_reason_code
                          (filter (fun c => failed_conclusion c = true) (ps_check_runs pr_state)))).

(** The pattern [\bOMN-\d+\b], any case: the ticket that starts here, if any,
    in upper case. *)
Fixpoint leading_digits (s : string) : string * string :=
  match s with
  | String c t => if py_isdigit c then let '(d, r) := leading_digits t in (String c d, r)
                  else (EmptyString, s)
  | EmptyString => (EmptyString, EmptyString)
  end.
Definition ticket_here (s : string) : option string :=
  match s with
  | String o (String m (String n (String dash t))) =>
      if String.eqb (py_lower (String o (String m (String n (String dash EmptyString))))) "omn-" then
        let '(d, r) := leading_digits t in
        match d, r with
        | EmptyString, _ => None
        | _, String c _ => if py_isword c then None else Some ("OMN-" +:+ d)
        | _, EmptyString => Some ("OMN-" +:+ d)
        end
      else None
  | _ => None
  end.
(** [finditer]: two matches never overlap, so every position is tried. *)
Fixpoint find_tickets (after_word : bool) (s : string) : list string :=
  match s with
  | EmptyString => []
  | String c t =>
      match (if after_word then None else ticket_here s) with
      | Some ticket => ticket :: find_tickets (py_isword c) t
      | None => find_tickets (py_isword c) t
      end
  end.
Definition _extract_ticket_ids (values : list string) : list string :=
  sorted_set (concat (map (find_tickets false) values)).

Example extract_ticket_ids_ok :
  _extract_ticket_ids ["fix(omn-12): x OMN-7"; "omn-12-branch"; "xOMN-9 OMN-5a"] = ["OMN-12"; "OMN-7"].
Proof. reflexivity. Qed.

Definition _map_review_status (pr_state : ModelPrState) : string :=
  default "unknown" (assoc _REVIEW_STATUS_MAP (py_upper (py_opt_or (ps_review_decision pr_state) EmptyString))).

(** The [PrRecord] of one collected state; [ModelPrState] has no [head_sha]
    attribute, so [getattr(pr_state, "head_sha", None)] is always [None]. *)
Definition pr_record_of_state (pr_state : ModelPrState) : PrRecord :=
  {| pr_number := ps_pr_number pr_state;
     pr_repo := ps_repo pr_state;
     pr_title := ps_title pr_state;
     pr_branch := ps_head_ref pr_state;
     pr_head_sha := None;
     pr_ticket_ids := _extract_ticket_ids [ps_title pr_state; ps_head_ref pr_state];
     pr_checks_status := _map_ci_status pr_state;
     pr_review_status := _map_review_status pr_state;
     pr_has_conflicts := ps_has_conflicts pr_state;
     pr_failed_check_names := _failed_check_names pr_state;
     pr_failed_check_flaky_evidence := _failed_check_flaky_evidence pr_state;
     pr_failed_check_reason_codes := _failed_check_reason_codes pr_state;
     pr_coderabbit_unresolved := ps_coderabbit_unresolved pr_state;
     pr_merge_state_status := ps_merge_state_status pr_state;
     pr_is_draft := Some (ps_is_draft pr_state) |}.

(** ** To and from the triage node *)

(** [review_count] and [open_threads] are not passed: they keep their default 0. *)
Definition inventory_item_of (pr : PrRecord) : ModelPrInventoryItem :=
  {| ii_pr_number := pr_number pr;
     ii_repo := pr_repo pr;
     ii_title := pr_title pr;
     ii_branch := pr_branch pr;
     ii_ticket_ids := pr_ticket_ids pr;
     ii_ci_status := _orch_checks_to_ci_status (pr_checks_status pr);
     ii_has_conflicts := pr_has_conflicts pr;
     ii_approved := String.eqb (pr_review_status pr) "approved"
                    || String.eqb (py_upper (py_opt_or (pr_merge_state_status pr) EmptyString)) "CLEAN";
     ii_review_count := 0;
     ii_open_threads := 0;
     ii_failed_check_names := pr_failed_check_names pr;
     ii_failed_check_flaky_evidence := pr_failed_check_flaky_evidence pr;
     ii_failed_check_reason_codes := pr_failed_check_reason_codes pr |}.

(** [EnumPrCategory(cat_value)]: every triage category has a member with its value. *)
Definition category_of (c : EnumPrTriageCategory) : EnumPrCategory :=
  match c with
  | Triage.GREEN => PrCategory.GREEN
  | Triage.RED => PrCategory.RED
  | Triage.CONFLICTED => PrCategory.CONFLICTED
  | Triage.OCC_DEPENDENCY => PrCategory.OCC_DEPENDENCY
  | Triage.NEEDS_REVIEW => PrCategory.NEEDS_REVIEW
  end.

Definition triage_record_of (r : ModelPrTriageResult) : TriageRecord :=
  {| tr_pr_number := res_pr_number r;
     tr_repo := res_repo r;
     tr_category := category_of (res_category r);
     tr_ticket_ids := res_ticket_ids r;
     tr_failed_check_names := res_failed_check_names r;
     tr_failed_check_flaky_evidence := res_failed_check_flaky_evidence r;
     tr_failed_check_reason_codes := res_failed_check_reason_codes r;
     tr_block_reason := res_reason r;
     tr_validation_failure_origin := None |}.

Definition _call_triage (cid : string) (prs : list PrRecord) : PrTriageResult :=
  let raw := handle_triage {| ti_correlation_id := cid; ti_prs := map inventory_item_of prs |} in
  let classified := map triage_record_of (out_results raw) in
  {| ptr_classified := classified;
     ptr_green_count := Z.of_nat (count (fun t => bool_decide (tr_category t = PrCategory.GREEN)) classified);
     ptr_non_green_count :=
       Z.of_nat (count (fun t => negb (bool_decide (tr_category t = PrCategory.GREEN))) classified) |}.

(** ** Fix routing *)

Definition _DEPLOY_GATE_CHECK_SIGNATURE : string := "deploy-gate".
Definition _CODE_SIGNAL_CHECK_SUBSTRINGS : list string :=
  ["lint"; "ruff"; "mypy"; "type-check"; "typecheck"; "test"; "pytest"; "format"; "compile";
   "build"; "coverage"; "pre-commit"].
Definition _FLAKY_INFRA_CHECK_SUBSTRINGS : list string :=
  ["runner"; "self-hosted"; "fleet"; "flaky"; "network"; "timeout"; "timed out"; "set up job";
   "set up runner"; "queue"; "infrastructure"; "provision"].

Definition _has_deploy_gate_failure (names : list string) : bool :=
  existsb (fun n => py_contains _DEPLOY_GATE_CHECK_SIGNATURE (py_lower n)) names.

Definition _is_flaky_infra_only (names : list string) : bool :=
  if negb (truthy names) then false
  else
    let lowered := map py_lower names in
    if existsb (any_sub _CODE_SIGNAL_CHECK_SUBSTRINGS) lowered then false
    else forallb (any_sub _FLAKY_INFRA_CHECK_SUBSTRINGS) lowered.

Definition _has_code_signal_failure (names : list string) : bool :=
  existsb (fun n => any_sub _CODE_SIGNAL_CHECK_SUBSTRINGS (py_lower n)) names.

Definition _has_flaky_failure_evidence (pr : TriageRecord) : bool :=
  truthy (nonempty (map py_strip (tr_failed_check_flaky_evidence pr))).

Definition _block_reason_for_fix (pr : TriageRecord) : EnumPrBlockReason :=
  let block_reason := py_strip (tr_block_reason pr) in
  match (if truthy block_reason then block_reason_of block_reason else None) with
  | Some r => r
  | None =>
      let reason_lower := py_lower block_reason in
      let names := map py_strip (tr_failed_check_names pr) in
      if decide (tr_category pr = PrCategory.CONFLICTED) then CONFLICT
      else if _has_deploy_gate_failure names then DEPLOY_GATE_CONTRACT_NOT_FOUND
      else if evidence_only (evidence_signature names) then
        if truthy (tr_ticket_ids pr) then RECEIPT_EVIDENCE_SOURCE_AUTOBIND else RECEIPT_FAILURE
      else if py_contains "coderabbit" reason_lower
              || existsb (fun n => py_contains "coderabbit" (py_lower n)) names then CODERABBIT
      else if decide (tr_category pr = PrCategory.NEEDS_REVIEW) then CHANGES_REQUESTED
      else if decide (tr_category pr = PrCategory.RED) then
        match dominant_reason_code (tr_failed_check_reason_codes pr) with
        | Some PRODUCT_FAILED => CODE_FAILURE
        | Some _ => CI_FAILURE
        | None =>
            if _is_flaky_infra_only names
               || (_has_flaky_failure_evidence pr && negb (_has_code_signal_failure names))
            then CI_FAILURE else CODE_FAILURE
        end
      else CODE_FAILURE
  end.

Definition _stall_category_for_dispatch (c : EnumPrCategory) : string :=
  match c with
  | PrCategory.RED => "red"
  | PrCategory.CONFLICTED => "conflicted"
  | _ => "unknown"
  end.

(** ** Verification targets *)

Inductive EnumVerificationTarget : Type :=
  | RUNTIME_HEALTH | PROJECTION_ROW_CHECK | PROJECTION_SINK_CHECK | API_ROUTE_CHECK
  | DB_MIGRATION_CHECK | KAFKA_TOPIC_CHECK | TARGET_SKIPPED_NO_MAPPING.
#[export] Instance EnumVerificationTarget_eq_dec : EqDecision EnumVerificationTarget.
Proof. solve_decision. Defined.

Module Outcome.
Inductive EnumVerificationOutcome : Type :=
  | MERGED | VERIFICATION_FAILED | VERIFICATION_UNAVAILABLE | VERIFICATION_TIMEOUT
  | VERIFICATION_TOOL_ERROR | SKIPPED_NO_MAPPING | SKIPPED_BY_POLICY.
#[export] Instance EnumVerificationOutcome_eq_dec : EqDecision EnumVerificationOutcome.
Proof. solve_decision. Defined.
End Outcome.
Export (hints) Outcome.
Abbreviation EnumVerificationOutcome := Outcome.EnumVerificationOutcome.

(** The suffixes of a path where a name may start: the path itself and what
    follows each slash.  A pattern [(^|.*/)p] matches when [p] matches at one
    of them; paths are lines of [gh] output, so they hold no newline. *)
Fixpoint path_tails_after (s : string) : list string :=
  match s with
  | EmptyString => []
  | String c t => if Ascii.eqb c "/" then t :: path_tails_after t else path_tails_after t
  end.
Definition path_tails (s : string) : list string := s :: path_tails_after s.

Fixpoint drop_prefix (p s : string) : option string :=
  match p, s with
  | EmptyString, _ => Some s
  | String a p', String b s' => if Ascii.eqb a b then drop_prefix p' s' else None
  | String _ _, EmptyString => None
  end.

(** [handlers/handler_[^/]+\.py$] at the start of [s]. *)
Definition handler_module (s : string) : bool :=
  match drop_prefix "handlers/handler_" s with
  | Some t => py_endswith ".py" t && Nat.ltb 3 (String.length t) && negb (py_contains "/" t)
  | None => false
  end.

Definition RUNTIME_HEALTH_RULES : list (string -> bool) :=
  [fun s => py_startswith "runtime/auto_wiring/" s;
   fun s => py_startswith "auto_wiring/" s;
   fun s => String.eqb "service_kernel.py" s;
   handler_module].

(** [^src/(.*/)?name.*\.py$] *)
Definition src_module (name path : string) : bool :=
  match drop_prefix "src/" path with
  | Some rest =>
      existsb (fun s => match drop_prefix name s with
                        | Some t => py_endswith ".py" t
                        | None => false
                        end) (path_tails rest)
  | None => false
  end.

Definition TARGET_RULES : list ((string -> bool) * EnumVerificationTarget) :=
  [(src_module "projection", PROJECTION_ROW_CHECK);
   (src_module "projector", PROJECTION_ROW_CHECK);
   (src_module "handler", PROJECTION_SINK_CHECK);
   (src_module "route", API_ROUTE_CHECK);
   (src_module "api", API_ROUTE_CHECK);
   (py_startswith "pages/api/", API_ROUTE_CHECK);
   (py_startswith "drizzle/", DB_MIGRATION_CHECK);
   (py_startswith "migrations/", DB_MIGRATION_CHECK);
   (fun path => existsb (String.eqb "topics.yaml") (path_tails path), KAFKA_TOPIC_CHECK);
   (fun path => existsb (String.eqb "contract.yaml") (path_tails path), KAFKA_TOPIC_CHECK)].

Definition requires_runtime_health (changed_files : list string) : bool :=
  existsb (fun path => existsb (fun rule => existsb rule (path_tails path)) RUNTIME_HEALTH_RULES) changed_files.

Definition target_of_path (path : string) : option EnumVerificationTarget :=
  match find (fun r => r.1 path) TARGET_RULES with
  | Some r => Some r.2
  | None => None
  end.

Definition map_changed_files_to_target (changed_files : list string) : EnumVerificationTarget :=
  if requires_runtime_health changed_files then RUNTIME_HEALTH
  else match omap target_of_path changed_files with
       | t :: _ => t
       | [] => TARGET_SKIPPED_NO_MAPPING
       end.

Example map_changed_files_ok :
  map map_changed_files_to_target
    [["docs/a.md"]; ["docs/a.md"; "src/x/projection_rows.py"]; ["a/handlers/handler_x.py"];
     ["nodes/n/contract.yaml"]; []]
  = [TARGET_SKIPPED_NO_MAPPING; PROJECTION_ROW_CHECK; RUNTIME_HEALTH; KAFKA_TOPIC_CHECK;
     TARGET_SKIPPED_NO_MAPPING].
Proof. reflexivity. Qed.

(** ** Properties *)

Lemma drop_space_snoc l c : py_isspace c = false -> exists k, drop_space (l ++ [c]) = k ++ [c].
Proof.
  intros Hc. induction l as [|a l IH]; simpl; [exists []; by rewrite Hc|].
  destruct (py_isspace a); [done|]. by exists (a :: l).
Qed.

(** Stripping keeps a first character that is no space. *)
Lemma py_strip_head c t : py_isspace c = false -> exists u, py_strip (String c t) = String c u.
Proof.
  intros Hc. unfold py_strip. cbn [String.list_ascii_of_string drop_space]. rewrite Hc. cbn [rev].
  destruct (drop_space_snoc (rev (String.list_ascii_of_string t)) c Hc) as [k ->].
  rewrite rev_app_distr. cbn. eauto.
Qed.

(** The prose reasons of triage are never routing literals. *)
Lemma triage_reason_is_prose pr : block_reason_of (py_strip (res_reason (_classify_pr pr))) = None.
Proof.
  assert (forall c t, str_in (String c EmptyString) ["P"; "R"; "C"; "A"] = true ->
            block_reason_of (py_strip (String c t)) = None) as H.
  { intros c t Hc%str_in_spec.
    assert (py_isspace c = false /\ forall u, block_reason_of (String c u) = None) as [Hs Hu].
    { repeat (apply elem_of_cons in Hc as [[= ->]|Hc]; [by split|]). by apply not_elem_of_nil in Hc. }
    destruct (py_strip_head c t Hs) as [u ->]. apply Hu. }
  unfold _classify_pr.
  repeat match goal with |- context [if ?b then _ else _] => destruct b end; by apply H.
Qed.

(** The routes that come before the reason codes. *)
Definition routed_earlier (pr : TriageRecord) : bool :=
  let names := map py_strip (tr_failed_check_names pr) in
  _has_deploy_gate_failure names || evidence_only (evidence_signature names)
  || py_contains "coderabbit" (py_lower (py_strip (tr_block_reason pr)))
  || existsb (fun n => py_contains "coderabbit" (py_lower n)) names.

Lemma dominant_some l : Exists (fun s => s <> EmptyString) l -> dominant_reason_code l <> None.
Proof.
  intros H Hn. rewrite Exists_exists in H. destruct H as (s & Hs & Hne).
  unfold dominant_reason_code in Hn.
  assert (s ∈ filter (fun c : string => truthy c = true) l) as Hin.
  { apply list_elem_of_filter. split; [by destruct s|done]. }
  destruct (filter _ l); [by apply not_elem_of_nil in Hin|]. by destruct (find _ _).
Qed.

Lemma route_by_code pr :
  block_reason_of (py_strip (tr_block_reason pr)) = None ->
  tr_category pr = PrCategory.RED -> routed_earlier pr = false ->
  dominant_reason_code (tr_failed_check_reason_codes pr) <> None ->
  _block_reason_for_fix pr =
    if decide (dominant_reason_code (tr_failed_check_reason_codes pr) = Some PRODUCT_FAILED)
    then CODE_FAILURE else CI_FAILURE.
Proof.
  intros Hb Hc Hr Hd. unfold routed_earlier in Hr. rewrite !orb_false_iff in Hr.
  destruct Hr as (((H1 & H2) & H3) & H4).
  unfold _block_reason_for_fix. rewrite Hb, H1, H2, H3, H4, Hc. cbn [orb].
  destruct (dominant_reason_code _) as [d|]; [|done].
  destruct (truthy _); repeat (case_decide; try done); destruct d; done.
Qed.

Lemma call_triage_elem cid prs t :
  t ∈ ptr_classified (_call_triage cid prs) <->
  exists p, p ∈ prs /\ t = triage_record_of (_classify_pr (inventory_item_of p)).
Proof.
  unfold _call_triage. cbn [ptr_classified]. unfold handle_triage. cbn [ti_prs ti_correlation_id].
  destruct (foldl_tally {| out_correlation_id := cid; out_results := []; out_total_green := 0;
    out_total_red := 0; out_total_conflicted := 0; out_total_occ_dependency := 0;
    out_total_needs_review := 0 |} (map inventory_item_of prs)) as (H1 & _).
  rewrite H1. cbn [out_results app]. rewrite !map_map, list_elem_of_fmap. naive_solver.
Qed.

(** A red pull request gets a code fix only on affirmative evidence: when
    its failed checks carry reason codes, the pull request that triage
    classified RED is routed to a code fix exactly when one of the codes is
    product_failed (and no receipt, deploy-gate or CodeRabbit route comes
    first); with codes but no product failure it is only ever rerun or sent to
    one of those routes. *)
Theorem code_fix_needs_product_failure cid prs t :
  t ∈ ptr_classified (_call_triage cid prs) -> tr_category t = PrCategory.RED ->
  Exists (fun s => s <> EmptyString) (tr_failed_check_reason_codes t) ->
  (_block_reason_for_fix t = CODE_FAILURE <->
     "product_failed" ∈ tr_failed_check_reason_codes t /\ routed_earlier t = false)
  /\ (routed_earlier t = false -> "product_failed" ∉ tr_failed_check_reason_codes t ->
      _block_reason_for_fix t = CI_FAILURE).
Proof.
  intros Ht Hc Hcodes.
  assert (block_reason_of (py_strip (tr_block_reason t)) = None) as Hb.
  { apply call_triage_elem in Ht as (p & _ & ->). apply triage_reason_is_prose. }
  pose proof (dominant_some _ Hcodes) as Hd.
  assert (dominant_reason_code (tr_failed_check_reason_codes t) = Some PRODUCT_FAILED <->
          "product_failed" ∈ tr_failed_check_reason_codes t) as Hp.
  { apply dominant_product. }
  split.
  - destruct (routed_earlier t) eqn:Hr.
    + split; [|by intros [_ ?]]. intros He. exfalso. revert He.
      unfold routed_earlier in Hr. unfold _block_reason_for_fix. rewrite Hb.
      destruct (truthy (py_strip _)); rewrite Hc;
        (rewrite decide_False by done);
        destruct (_has_deploy_gate_failure _); try done;
        destruct (evidence_only _); [by destruct (truthy _)| |by destruct (truthy _)|];
        cbn [orb] in Hr; by rewrite Hr.
    + rewrite route_by_code by done. case_decide as H; [|by split; [|intros [?%Hp _]]].
      split; [by apply Hp in H|done].
  - intros Hr Hn. rewrite route_by_code by done. rewrite decide_False; [done|]. by rewrite Hp.
Qed.

Definition red_pr : PrRecord :=
  {| pr_number := 7; pr_repo := "o/a"; pr_title := "OMN-1"; pr_branch := "b"; pr_head_sha := None;
     pr_ticket_ids := ["OMN-1"]; pr_checks_status := "failure"; pr_review_status := "approved";
     pr_has_conflicts := false; pr_failed_check_names := ["unit tests"];
     pr_failed_check_flaky_evidence := [];
     pr_failed_check_reason_codes := ["runner_infra"; "product_failed"];
     pr_coderabbit_unresolved := None; pr_merge_state_status := None; pr_is_draft := Some false |}.

Lemma code_fix_needs_product_failure_witness :
  _block_reason_for_fix (triage_record_of (_classify_pr (inventory_item_of red_pr))) = CODE_FAILURE.
Proof.
  apply (code_fix_needs_product_failure "c" [red_pr]).
  - apply (bool_decide_eq_true_1 _). vm_compute. reflexivity.
  - vm_compute. reflexivity.
  - vm_compute. repeat constructor; discriminate.
  - split.
    + apply (bool_decide_eq_true_1 _). vm_compute. reflexivity.
    + vm_compute. reflexivity.
Defined.
