(* ===== verification/PrSweep.v ===== *)
(** * The PR lifecycle orchestrator

    [node_pr_lifecycle_orchestrator/handlers/handler_pr_lifecycle_orchestrator.py]:
    one sweep ([_run_sweep]) and the loop of sweeps ([handle]), as stateful
    computations that call their collaborators, may raise, and leave a log of
    every call they make.  The collaborators behind a protocol (the inventory,
    merge, fix and prune handlers, the GitHub command line, the event bus, the
    verification probes, the OCC read-back, the recovery probe, the clock) are
    functions of the log so far: any behaviour that depends on the calls made
    before.  Triage (unless a stub is
    wired for it), the arm gate, the breaker, the reducer and the projection
    database are the modelled ones. *)
From S2P Require Import Prelude LogMonad PrModels MergeControl Triage PrLedger LedgerNative PrRouting.

(** ** Commands, states, results *)

Record ModelPrLifecycleStartCommand := {
  c_correlation_id : string;
  c_run_id : string;
  c_dry_run : bool;
  c_inventory_only : bool;
  c_fix_only : bool;
  c_merge_only : bool;
  c_repos : string;
  c_verify : bool;
  c_loop_until_done : bool;
  c_max_sweep_passes : nat;
  c_action_mode : EnumArmActionMode;
  c_merge_queue_mutation_kill_switch : bool;
  c_merge_wave_cap : Z;
  c_enable_stall_remediation : bool
}.

(** [_coerce_repos] on a comma-separated string. *)
Definition _coerce_repos (value : string) : string :=
  py_join "," (nonempty (map _normalize_repo_slug (py_split "," value))).

Module Orch.
Inductive EnumOrchestratorState : Type :=
  | IDLE | INVENTORYING | TRIAGING | VERIFYING | MERGING | POST_MERGE_TAIL | FIXING
  | COMPLETE | FAILED.
#[export] Instance EnumOrchestratorState_eq_dec : EqDecision EnumOrchestratorState.
Proof. solve_decision. Defined.
End Orch.
Export (hints) Orch.
Abbreviation EnumOrchestratorState := Orch.EnumOrchestratorState.
Definition orch_state_value (s : EnumOrchestratorState) : string :=
  match s with
  | Orch.IDLE => "IDLE"
  | Orch.INVENTORYING => "INVENTORYING"
  | Orch.TRIAGING => "TRIAGING"
  | Orch.VERIFYING => "VERIFYING"
  | Orch.MERGING => "MERGING"
  | Orch.POST_MERGE_TAIL => "POST_MERGE_TAIL"
  | Orch.FIXING => "FIXING"
  | Orch.COMPLETE => "COMPLETE"
  | Orch.FAILED => "FAILED"
  end.
Definition _FINAL_STATE_NOT_DONE : string := "NOT_DONE".

Definition _phase_for_state (s : EnumOrchestratorState) : EnumLedgerPhase :=
  match s with
  | Orch.IDLE | Orch.INVENTORYING => LedgerPhase.INVENTORY
  | Orch.TRIAGING => LedgerPhase.TRIAGE
  | Orch.VERIFYING | Orch.FIXING => LedgerPhase.BRANCH_CHECKS
  | Orch.MERGING => LedgerPhase.MERGE_GROUP
  | Orch.POST_MERGE_TAIL => LedgerPhase.POST_MERGE_TAIL
  | Orch.COMPLETE | Orch.FAILED => LedgerPhase.TERMINAL
  end.

Record _SweepState := {
  sw_fsm : EnumOrchestratorState;
  sw_phase : EnumLedgerPhase;
  sw_prs_inventoried : Z;
  sw_prs_merged : Z;
  sw_prs_fixed : Z;
  sw_prs_skipped : Z;
  sw_prs_verified : Z;
  sw_error_message : option string;
  sw_delegated : FixResult;
  sw_org_wide_open : option ModelOrgWideOpenPrInventory;
  sw_verification_outcomes : gmap (string * Z) EnumVerificationOutcome;
  sw_prs_verification_blocked : Z;
  sw_outage_active : bool;
  sw_outage_mutations_withheld : Z
}.

(** The sum of no [FixResult]s; the sweep keeps its four delegation counters
    in [sw_delegated]. *)
Definition no_fixes : FixResult :=
  {| fr_prs_dispatched := 0; fr_prs_skipped := 0; fr_prs_delegated_fix_attempted := 0;
     fr_prs_delegated_fix_accepted := 0; fr_prs_delegated_fix_gate_failed := 0;
     fr_prs_delegated_fix_escalated := 0 |}.
Definition add_fixes (a b : FixResult) : FixResult :=
  {| fr_prs_dispatched := fr_prs_dispatched a + fr_prs_dispatched b;
     fr_prs_skipped := fr_prs_skipped a + fr_prs_skipped b;
     fr_prs_delegated_fix_attempted := fr_prs_delegated_fix_attempted a + fr_prs_delegated_fix_attempted b;
     fr_prs_delegated_fix_accepted := fr_prs_delegated_fix_accepted a + fr_prs_delegated_fix_accepted b;
     fr_prs_delegated_fix_gate_failed := fr_prs_delegated_fix_gate_failed a + fr_prs_delegated_fix_gate_failed b;
     fr_prs_delegated_fix_escalated := fr_prs_delegated_fix_escalated a + fr_prs_delegated_fix_escalated b |}.

Definition new_sweep_state : _SweepState :=
  {| sw_fsm := Orch.IDLE; sw_phase := LedgerPhase.INVENTORY; sw_prs_inventoried := 0; sw_prs_merged := 0;
     sw_prs_fixed := 0; sw_prs_skipped := 0; sw_prs_verified := 0; sw_error_message := None;
     sw_delegated := no_fixes; sw_org_wide_open := None; sw_verification_outcomes := ∅;
     sw_prs_verification_blocked := 0; sw_outage_active := false; sw_outage_mutations_withheld := 0 |}.

(** Assignments to one or two attributes of the sweep state. *)
Definition set_fsm (f : EnumOrchestratorState) (p : EnumLedgerPhase) (s : _SweepState) : _SweepState :=
  {| sw_fsm := f; sw_phase := p; sw_prs_inventoried := sw_prs_inventoried s; sw_prs_merged := sw_prs_merged s;
     sw_prs_fixed := sw_prs_fixed s; sw_prs_skipped := sw_prs_skipped s; sw_prs_verified := sw_prs_verified s;
     sw_error_message := sw_error_message s; sw_delegated := sw_delegated s;
     sw_org_wide_open := sw_org_wide_open s; sw_verification_outcomes := sw_verification_outcomes s;
     sw_prs_verification_blocked := sw_prs_verification_blocked s; sw_outage_active := sw_outage_active s;
     sw_outage_mutations_withheld := sw_outage_mutations_withheld s |}.
Definition set_inventory (n : Z) (c : option ModelOrgWideOpenPrInventory) (s : _SweepState) : _SweepState :=
  {| sw_fsm := sw_fsm s; sw_phase := sw_phase s; sw_prs_inventoried := n; sw_prs_merged := sw_prs_merged s;
     sw_prs_fixed := sw_prs_fixed s; sw_prs_skipped := sw_prs_skipped s; sw_prs_verified := sw_prs_verified s;
     sw_error_message := sw_error_message s; sw_delegated := sw_delegated s; sw_org_wide_open := c;
     sw_verification_outcomes := sw_verification_outcomes s;
     sw_prs_verification_blocked := sw_prs_verification_blocked s; sw_outage_active := sw_outage_active s;
     sw_outage_mutations_withheld := sw_outage_mutations_withheld s |}.
Definition set_counts (merged fixed skipped : Z) (d : FixResult) (s : _SweepState) : _SweepState :=
  {| sw_fsm := sw_fsm s; sw_phase := sw_phase s; sw_prs_inventoried := sw_prs_inventoried s;
     sw_prs_merged := merged; sw_prs_fixed := fixed; sw_prs_skipped := skipped;
     sw_prs_verified := sw_prs_verified s; sw_error_message := sw_error_message s; sw_delegated := d;
     sw_org_wide_open := sw_org_wide_open s; sw_verification_outcomes := sw_verification_outcomes s;
     sw_prs_verification_blocked := sw_prs_verification_blocked s; sw_outage_active := sw_outage_active s;
     sw_outage_mutations_withheld := sw_outage_mutations_withheld s |}.
Definition set_error (m : string) (s : _SweepState) : _SweepState :=
  {| sw_fsm := sw_fsm s; sw_phase := sw_phase s; sw_prs_inventoried := sw_prs_inventoried s;
     sw_prs_merged := sw_prs_merged s; sw_prs_fixed := sw_prs_fixed s; sw_prs_skipped := sw_prs_skipped s;
     sw_prs_verified := sw_prs_verified s; sw_error_message := Some m; sw_delegated := sw_delegated s;
     sw_org_wide_open := sw_org_wide_open s; sw_verification_outcomes := sw_verification_outcomes s;
     sw_prs_verification_blocked := sw_prs_verification_blocked s; sw_outage_active := sw_outage_active s;
     sw_outage_mutations_withheld := sw_outage_mutations_withheld s |}.
Definition set_verification (outcomes : gmap (string * Z) EnumVerificationOutcome) (verified blocked : Z)
    (s : _SweepState) : _SweepState :=
  {| sw_fsm := sw_fsm s; sw_phase := sw_phase s; sw_prs_inventoried := sw_prs_inventoried s;
     sw_prs_merged := sw_prs_merged s; sw_prs_fixed := sw_prs_fixed s; sw_prs_skipped := sw_prs_skipped s;
     sw_prs_verified := verified; sw_error_message := sw_error_message s; sw_delegated := sw_delegated s;
     sw_org_wide_open := sw_org_wide_open s; sw_verification_outcomes := outcomes;
     sw_prs_verification_blocked := blocked; sw_outage_active := sw_outage_active s;
     sw_outage_mutations_withheld := sw_outage_mutations_withheld s |}.
Definition set_outage (active : bool) (withheld : Z) (s : _SweepState) : _SweepState :=
  {| sw_fsm := sw_fsm s; sw_phase := sw_phase s; sw_prs_inventoried := sw_prs_inventoried s;
     sw_prs_merged := sw_prs_merged s; sw_prs_fixed := sw_prs_fixed s; sw_prs_skipped := sw_prs_skipped s;
     sw_prs_verified := sw_prs_verified s; sw_error_message := sw_error_message s;
     sw_delegated := sw_delegated s; sw_org_wide_open := sw_org_wide_open s;
     sw_verification_outcomes := sw_verification_outcomes s;
     sw_prs_verification_blocked := sw_prs_verification_blocked s; sw_outage_active := active;
     sw_outage_mutations_withheld := withheld |}.

Record ModelPrLifecycleResult := {
  r_prs_inventoried : Z;
  r_prs_merged : Z;
  r_prs_fixed : Z;
  r_prs_skipped : Z;
  r_prs_verified : Z;
  r_prs_verification_blocked : Z;
  r_verification_breakdown : list (EnumVerificationOutcome * Z);
  r_final_state : string;
  r_error_message : option string;
  r_org_wide_open_count : Z;
  r_org_wide_open_remainders : list ModelOrgWideOpenPrRemainder;
  r_delegated : FixResult;
  r_outage_active : bool;
  r_outage_mutations_withheld : Z
}.

(** ** The outside world *)

Inductive effect : Type :=
  | PhaseRecorded (t : ModelPrLifecyclePhaseTransition)
  | PhasePublished (from to : EnumOrchestratorState)
  | LedgerEvent (e : ModelPrLedgerSourceEvent)
  | ReposListed
  | OpenPrsListed (repo : string)
  | Inventoried (repo : string) (pr_numbers : list Z)
  | CensusTaken
  | RecoveryProbed
  | StallRemediated (repo : string) (n : Z)
  | OccEdgesWritten (edges : list OccDependencyEdge)
  | ChangedFilesRead (repo : string) (n : Z)
  | VerifyProbed (target : EnumVerificationTarget)
  | VerificationPublished (repo : string) (n : Z) (outcome : EnumVerificationOutcome)
  | StampReadBack (repo : string) (n : Z) (ticket : option string)
  | MergeCalled (cmd : ModelPrMergeCommand)
  | PruneCalled (cmd : ModelWorktreePruneCommand)
  | FixerDispatchPublished (repo : string) (n : Z) (stall_category : string)
  | RepoHealthClassifyPublished (repo : string) (n : Z) (origin : EnumFailureOrigin)
  | RepoHealthRepairPublished (repo : string) (n : Z)
  | FixCalled (cmd : ModelPrLifecycleFixCommand).
Abbreviation log := (list effect).

(** How a verification probe ends: the runtime-health report's
    [total_failed], or the verify node's verdict, timeout, absence or error. *)
Inductive verify_answer : Type :=
  | Verdict (all_critical_passed : bool) | TimedOut | NodeMissing | ProbeError.
(** What the inventory handler returns: the batch it collected, or a whole
    [InventoryResult], which ends the enumeration of repositories. *)
Inductive inventory_answer : Type :=
  | Collected (o : ModelPrInventoryOutput) | Prebuilt (r : InventoryResult).
Inductive prune_outcome : Type := Pruned | SkippedDirty | OtherOutcome.

Record World := {
  w_now : log -> string;
  w_wall : log -> datetime;
  w_repos : log -> list string;
  w_open_prs : log -> string -> list Z;
  w_inventory : log -> string -> list Z -> result inventory_answer;
  w_triage_stub : option PrTriageResult;
  w_census : option (log -> result ModelOrgWideOpenPrInventory);
  w_recovery_probe : option (log -> probe_outcome);
  w_stall : log -> string -> Z -> result unit;
  w_sha256_12 : string -> string;
  w_occ_merge_sha : string;
  w_changed_files : log -> string -> Z -> option (list string);
  w_runtime_failed : log -> result Z;
  w_verify : log -> verify_answer;
  w_readback : log -> string -> Z -> option string -> result bool;
  w_merge : log -> ModelPrMergeCommand -> result ModelPrMergeResult;
  w_prune : option (log -> ModelWorktreePruneCommand -> result prune_outcome);
  w_fix : log -> ModelPrLifecycleFixCommand -> result ModelPrLifecycleFixResult;
  w_publish : log -> effect -> result unit
}.

(** ** The sweep *)

Section sweep.
Context {D : Type} `{ProtocolProjectionDatabaseSync D}.
Context (w : World) (command : ModelPrLifecycleStartCommand).

(** The sweep state and the projection database, when one is wired. *)
Abbreviation St := (_SweepState * option D)%type.
Abbreviation Act := (M St effect).

Definition sweep_state : Act _SweepState := s ← get_state; mret s.1.
Definition update (f : _SweepState -> _SweepState) : Act unit := modify (fun s => (f s.1, s.2)).

Definition _record_ledger_event (k : EnumPrLedgerEventKind) (rp : string) (n : Z)
    (action : EnumOrchestratorAction) (ph : EnumLedgerPhase) (head mg : option string)
    (concl : option EnumPrLedgerConclusion) : Act unit :=
  now ← ask (w_now w);
  let event :=
    {| kind := k; run_id := c_run_id command; correlation_id := c_correlation_id command; repo := rp;
       LedgerNative.pr_number := n; head_sha := head; workflow_run_id := None; merge_group_sha := mg;
       conclusion := concl; orchestrator_action := action; phase := ph; observed_at := now |} in
  (* an event the model rejects is logged and dropped: recording is best effort *)
  when (source_event_valid event) (emit (LedgerEvent event)).

Definition _transition_phase (to_state : EnumOrchestratorState) : Act unit :=
  s ← sweep_state;
  let to_phase := _phase_for_state to_state in
  now ← ask (w_now w);
  _ ← when (negb (bool_decide (to_phase = sw_phase s)))
        (emit (PhaseRecorded {| pt_run_id := c_run_id command; pt_correlation_id := c_correlation_id command;
                                pt_from_phase := sw_phase s; pt_to_phase := to_phase;
                                pt_recorded_at := now |}));
  _ ← update (set_fsm to_state to_phase);
  let e := PhasePublished (sw_fsm s) to_state in
  call e (fun l => w_publish w l e).

(** *** Inventory *)

(** One repository: the records and stuck entries so far, or the result the
    handler ended the enumeration with. *)
Definition inventory_repo (acc : list PrRecord * list ModelStuckQueueEntry) (rp : string)
  : Act ((list PrRecord * list ModelStuckQueueEntry) + InventoryResult) :=
  pr_numbers ← call (OpenPrsListed rp) (fun l => Ok (w_open_prs w l rp));
  if negb (truthy pr_numbers) then mret (inl acc)
  else
    raw ← call (Inventoried rp pr_numbers) (fun l => w_inventory w l rp pr_numbers);
    mret (match raw with
          | Prebuilt r => inr r
          | Collected o => inl (acc.1 ++ map pr_record_of_state (pio_pr_states o), acc.2 ++ pio_stuck_queue_prs o)
          end).

Fixpoint inventory_repos (repos : list string) (acc : list PrRecord * list ModelStuckQueueEntry)
  : Act InventoryResult :=
  match repos with
  | [] => mret {| inv_prs := acc.1; inv_total_collected := Z.of_nat (length acc.1); inv_stuck_queue_prs := acc.2 |}
  | rp :: repos' =>
      r ← inventory_repo acc rp;
      match r with
      | inl acc' => inventory_repos repos' acc'
      | inr result => mret result
      end
  end.

Definition _call_inventory (repos : list string) : Act InventoryResult :=
  repos ← (if truthy repos then mret repos else call ReposListed (fun l => Ok (w_repos w l)));
  inventory_repos repos ([], []).

Definition _collect_org_wide_open_prs : Act (option ModelOrgWideOpenPrInventory) :=
  match w_census w with
  | None => mret None
  | Some collect => c ← call CensusTaken collect; mret (Some c)
  end.

Definition _collect_sweep_reason_codes (inv : InventoryResult) : list string :=
  concat (map pr_failed_check_reason_codes (inv_prs inv)).

Definition _apply_outage_breaker (inv : InventoryResult) : Act bool :=
  breaker ← lift (new_breaker _DEFAULT_MAX_PROBE_ATTEMPTS);
  let breaker := observe breaker (_collect_sweep_reason_codes inv) in
  breaker ← (match w_recovery_probe w with
             | Some probe =>
                 if is_open breaker then
                   o ← call RecoveryProbed (fun l => Ok (probe l));
                   mret (probe_recovery breaker o).1
                 else mret breaker
             | None => mret breaker
             end);
  let outage_active := is_open breaker in
  _ ← update (fun s => set_outage outage_active (sw_outage_mutations_withheld s) s);
  mret outage_active.

Definition _synthetic_merge_group_sha (rp : string) (n attempt : Z) : string :=
  "mg-" +:+ w_sha256_12 w (c_run_id command +:+ ":" +:+ rp +:+ ":" +:+ pretty n +:+ ":" +:+ pretty attempt)
  +:+ "-" +:+ pretty attempt.

Definition remediate_entry (entry : ModelStuckQueueEntry) : Act unit :=
  if negb (String.eqb (sq_queue_state entry) "AWAITING_CHECKS")
     || negb (bool_decide (sq_merge_group_run_count entry = Some 0%Z)) then mret ()
  else
    let rp := sq_repo entry in
    let n := sq_pr_number entry in
    _ ← attempt (
      _ ← call (StallRemediated rp n) (fun l => w_stall w l rp n);
      _record_ledger_event LedgerKind.RERUN_ATTEMPTED rp n LedgerAction.REQUEUE LedgerPhase.MERGE_GROUP
        (sq_head_sha entry) (Some (_synthetic_merge_group_sha rp n 2)) None);
    mret ().

Definition _remediate_stalled_queue_prs (inv : InventoryResult) : Act unit :=
  if negb (truthy (inv_stuck_queue_prs inv)) then mret ()
  else if c_dry_run command || c_inventory_only command then mret ()
  else if negb (bool_decide (c_action_mode command = ENFORCE))
          || c_merge_queue_mutation_kill_switch command
          || negb (c_enable_stall_remediation command) then mret ()
  else for_each (inv_stuck_queue_prs inv) remediate_entry.

Definition repos_filter : list string := nonempty (map py_strip (py_split "," (c_repos command))).

Definition inventory_phase : Act InventoryResult :=
  _ ← _transition_phase Orch.INVENTORYING;
  inv_result ← _call_inventory repos_filter;
  _ ← update (fun s => set_inventory (inv_total_collected inv_result) (sw_org_wide_open s) s);
  census ← _collect_org_wide_open_prs;
  _ ← update (fun s => set_inventory (sw_prs_inventoried s) census s);
  _ ← for_each (inv_prs inv_result) (fun pr =>
        s ← sweep_state;
        _record_ledger_event LedgerKind.PR_INVENTORIED (pr_repo pr) (PrModels.pr_number pr)
          LedgerAction.INVENTORY (sw_phase s) (pr_head_sha pr) None None);
  mret inv_result.

Definition withhold (n : nat) : Act unit :=
  update (fun s => set_outage (sw_outage_active s) (sw_outage_mutations_withheld s + Z.of_nat n) s).

(** The breaker, then the stall remediation it may withhold. *)
Definition outage_phase (inv_result : InventoryResult) : Act bool :=
  outage_active ← _apply_outage_breaker inv_result;
  _ ← (if (outage_active : bool) then
         when (truthy (inv_stuck_queue_prs inv_result)) (withhold (length (inv_stuck_queue_prs inv_result)))
       else _remediate_stalled_queue_prs inv_result);
  mret outage_active.

(** *** Triage and reduction *)

Definition _resolve_occ_merge_sha : string :=
  if truthy (py_strip (w_occ_merge_sha w)) then py_strip (w_occ_merge_sha w) else "unknown-occ-merge-sha".

Definition _occ_dependency_edges (classified : list TriageRecord) (intents : list ReducerIntent)
  : list OccDependencyEdge :=
  let skipped_occ := map (fun i => (ri_repo i, ri_pr_number i))
                       (filter (fun i => ri_intent i = ReducerKind.SKIP) intents) in
  concat (map (fun pr => map (fun ticket =>
      {| occ_ticket_id := ticket; occ_downstream_repo := tr_repo pr;
         occ_downstream_pr_number := tr_pr_number pr;
         occ_downstream_failed_check_names := tr_failed_check_names pr;
         occ_reason := tr_block_reason pr;
         occ_rerun_guard_key := ticket +:+ ":" +:+ tr_repo pr +:+ "#" +:+ pretty (tr_pr_number pr)
                                +:+ ":occ:" +:+ _resolve_occ_merge_sha |}) (tr_ticket_ids pr))
    (filter (fun pr => tr_category pr = PrCategory.OCC_DEPENDENCY /\ (tr_repo pr, tr_pr_number pr) ∈ skipped_occ)
       classified)).

(** [self._reducer.handle(...)]: the database keeps what was written before a raise. *)
Definition reduce_classified (classified : list TriageRecord) (iteration : Z) : Act ReducerResult :=
  s ← get_state;
  now ← ask (w_wall w);
  let '(db', r) := handle_classified classified (c_inventory_only command) (c_fix_only command)
                     (c_merge_only command) s.2
                     (match s.2 with Some _ => Some (c_run_id command) | None => None end)
                     iteration None now in
  _ ← modify (fun s => (s.1, db'));
  lift r.

(** The triage records an intent of kind [k] designates, in intent order. *)
Definition designated (k : EnumReducerIntent) (intents : list ReducerIntent) (classified : list TriageRecord)
  : list TriageRecord :=
  concat (map (fun i => filter (fun tr => tr_pr_number tr = ri_pr_number i /\ tr_repo tr = ri_repo i
                                          /\ ri_intent i = k) classified) intents).

(** The wired triage handler's verdicts: the program's triage, unless a stub
    that answers with a [PrTriageResult] is wired in its place. *)
Definition triage_inventory (inv_result : InventoryResult) : PrTriageResult :=
  match w_triage_stub w with
  | Some stubbed => stubbed
  | None => _call_triage (c_correlation_id command) (inv_prs inv_result)
  end.

Definition triage_phase (inv_result : InventoryResult) : Act (PrTriageResult * ReducerResult) :=
  _ ← _transition_phase Orch.TRIAGING;
  let triage_result := triage_inventory inv_result in
  s ← get_state;
  iteration ← lift (_next_iteration s.2 (c_run_id command));
  reducer_result ← reduce_classified (ptr_classified triage_result) iteration;
  let edges := _occ_dependency_edges (ptr_classified triage_result) (rr_intents reducer_result) in
  _ ← when (truthy edges) (emit (OccEdgesWritten edges));
  mret (triage_result, reducer_result).

(** *** Verification *)

Definition _execute_verification_probe (target : EnumVerificationTarget) : Act EnumVerificationOutcome :=
  if decide (target = RUNTIME_HEALTH) then
    r ← attempt (call (VerifyProbed target) (w_runtime_failed w));
    mret (match r with
          | Ok 0%Z => Outcome.MERGED
          | Ok _ => Outcome.VERIFICATION_FAILED
          | Raise _ => Outcome.VERIFICATION_TOOL_ERROR
          end)
  else
    r ← call (VerifyProbed target) (fun l => Ok (w_verify w l));
    mret (match r with
          | NodeMissing => Outcome.VERIFICATION_UNAVAILABLE
          | TimedOut => Outcome.VERIFICATION_TIMEOUT
          | ProbeError => Outcome.VERIFICATION_TOOL_ERROR
          | Verdict true => Outcome.MERGED
          | Verdict false => Outcome.VERIFICATION_FAILED
          end).

Definition indeterminate (o : EnumVerificationOutcome) : bool :=
  match o with
  | Outcome.VERIFICATION_UNAVAILABLE | Outcome.VERIFICATION_TIMEOUT | Outcome.VERIFICATION_TOOL_ERROR => true
  | _ => false
  end.
Definition should_block (files_unavailable : bool) (target : EnumVerificationTarget)
    (outcome : EnumVerificationOutcome) : bool :=
  let is_code_pr := files_unavailable || negb (bool_decide (target = TARGET_SKIPPED_NO_MAPPING)) in
  bool_decide (outcome = Outcome.VERIFICATION_FAILED) || (indeterminate outcome && is_code_pr).

(** The verdict for one pull request: (files unavailable, target, outcome). *)
Definition verify_pr (pr : TriageRecord) : Act (bool * EnumVerificationTarget * EnumVerificationOutcome) :=
  files ← call (ChangedFilesRead (tr_repo pr) (tr_pr_number pr))
            (fun l => Ok (w_changed_files w l (tr_repo pr) (tr_pr_number pr)));
  match files with
  | None => mret (true, TARGET_SKIPPED_NO_MAPPING, Outcome.VERIFICATION_UNAVAILABLE)
  | Some changed =>
      let target := map_changed_files_to_target changed in
      if c_dry_run command then mret (false, target, Outcome.SKIPPED_BY_POLICY)
      else if decide (target = TARGET_SKIPPED_NO_MAPPING) then mret (false, target, Outcome.SKIPPED_NO_MAPPING)
      else outcome ← _execute_verification_probe target; mret (false, target, outcome)
  end.

Definition verify_one (cleared : list TriageRecord) (pr : TriageRecord) : Act (list TriageRecord) :=
  v ← verify_pr pr;
  let '(files_unavailable, target, outcome) := v in
  _ ← update (fun s => set_verification (<[(tr_repo pr, tr_pr_number pr) := outcome]> (sw_verification_outcomes s))
                         (sw_prs_verified s) (sw_prs_verification_blocked s) s);
  let e := VerificationPublished (tr_repo pr) (tr_pr_number pr) outcome in
  _ ← attempt (call e (fun l => w_publish w l e));
  if should_block files_unavailable target outcome then
    s ← sweep_state;
    _ ← update (fun s => set_verification (sw_verification_outcomes s) (sw_prs_verified s)
                           (sw_prs_verification_blocked s + 1) s);
    _ ← _record_ledger_event LedgerKind.FINAL_CONCLUSION (tr_repo pr) (tr_pr_number pr) LedgerAction.FIX
          (sw_phase s) None None (Some LedgerConclusion.FAILED);
    mret cleared
  else
    _ ← when (bool_decide (outcome = Outcome.MERGED))
          (update (fun s => set_verification (sw_verification_outcomes s) (sw_prs_verified s + 1)
                              (sw_prs_verification_blocked s) s));
    mret (cleared ++ [pr]).

Definition _run_verification (merge_prs : list TriageRecord) : Act (list TriageRecord) :=
  fold_each merge_prs [] verify_one.

Definition verify_phase (merge_prs : list TriageRecord) : Act (list TriageRecord) :=
  if c_verify command && truthy merge_prs && negb (c_fix_only command) then
    _ ← _transition_phase Orch.VERIFYING;
    _run_verification merge_prs
  else mret merge_prs.

(** *** Merging *)

Definition policy : ModelArmGatePolicy :=
  {| action_mode := c_action_mode command; kill_switch := c_merge_queue_mutation_kill_switch command;
     wave_cap := c_merge_wave_cap command; enable_stall_remediation := c_enable_stall_remediation command |}.

Definition arm_candidate (pr : TriageRecord) (pr_record : option PrRecord) (verified : option bool)
  : ModelArmCandidate :=
  {| ac_repo := tr_repo pr;
     ac_pr_number := tr_pr_number pr;
     ac_is_draft := r ← pr_record; pr_is_draft r;
     ac_coderabbit_unresolved := r ← pr_record; pr_coderabbit_unresolved r;
     ac_merge_state_status := r ← pr_record; pr_merge_state_status r;
     ac_status_checks := r ← pr_record; _status_checks_for_arm (pr_checks_status r);
     ac_occ_companion_verified := verified;
     ac_priority_hint := 0 |}.

Definition _evaluate_arm_gate (pr : TriageRecord) (pr_record : option PrRecord) : Act EnumArmDecision :=
  verified ← (if bool_decide (action_mode policy = ENFORCE) && negb (kill_switch policy) then
                v ← call (StampReadBack (tr_repo pr) (tr_pr_number pr) None)
                      (fun l => w_readback w l (tr_repo pr) (tr_pr_number pr) None);
                mret (Some v)
              else mret None);
  mret (ad_decision (handle_arm_gate
    {| ag_candidate := arm_candidate pr pr_record verified; ag_policy := policy |})).

(** [{(p.repo, p.pr_number): p for p in inv_result.prs}] *)
Definition pr_lookup (inv : InventoryResult) : gmap (string * Z) PrRecord :=
  foldl (fun m p => <[(pr_repo p, PrModels.pr_number p) := p]> m) ∅ (inv_prs inv).

Definition arm_one (inv : InventoryResult) (armed : list TriageRecord) (pr : TriageRecord)
  : Act (list TriageRecord) :=
  decision ← _evaluate_arm_gate pr (pr_lookup inv !! (tr_repo pr, tr_pr_number pr));
  mret (if decide (decision = ARM) then armed ++ [pr] else armed).

(** (merged, failed) after one merge command; a raise of the handler counts
    as a failure, a command the model rejects raises. *)
Definition merge_one (acc : MergeResult) (pr : TriageRecord) : Act MergeResult :=
  cmd ← lift (mk_merge_command (c_correlation_id command) (tr_pr_number pr) (tr_repo pr)
                (category_value (tr_category pr)) true (c_dry_run command));
  raw ← attempt (call (MergeCalled cmd) (fun l => w_merge w l cmd));
  mret (match raw with
        | Raise _ => {| mr_prs_merged := mr_prs_merged acc; mr_prs_failed := mr_prs_failed acc + 1 |}
        | Ok r =>
            if mres_merged r then
              {| mr_prs_merged := mr_prs_merged acc + 1; mr_prs_failed := mr_prs_failed acc |}
            else if truthy (mres_error r) then
              {| mr_prs_merged := mr_prs_merged acc; mr_prs_failed := mr_prs_failed acc + 1 |}
            else acc
        end).

Definition _call_merge_fanout (prs_to_merge : list TriageRecord) (inv : InventoryResult) : Act MergeResult :=
  armed ← fold_each prs_to_merge [] (arm_one inv);
  let armed := sort_by (fun pr => (tr_repo pr, tr_pr_number pr)) armed in
  let capped := take (Z.to_nat (wave_cap policy)) armed in
  fold_each capped {| mr_prs_merged := 0; mr_prs_failed := 0 |} merge_one.

Definition branch_by_pr (inv : InventoryResult) : gmap (string * Z) string :=
  foldl (fun m r => if truthy (pr_branch r) then <[(pr_repo r, PrModels.pr_number r) := pr_branch r]> m else m)
    ∅ (inv_prs inv).

Definition prune_one (prune : log -> ModelWorktreePruneCommand -> result prune_outcome)
    (inv : InventoryResult) (tr : TriageRecord) (acc : PruneResult) (ticket_id : string) : Act PruneResult :=
  r ← attempt (
    cmd ← lift (mk_prune_command (c_correlation_id command) ticket_id (tr_repo tr)
                  (branch_by_pr inv !! (tr_repo tr, tr_pr_number tr)) (tr_pr_number tr));
    call (PruneCalled cmd) (fun l => prune l cmd));
  mret (match r with
        | Ok Pruned => {| prune_worktrees_pruned := prune_worktrees_pruned acc + 1;
                          prune_worktrees_flagged_dirty := prune_worktrees_flagged_dirty acc;
                          prune_worktrees_skipped := prune_worktrees_skipped acc |}
        | Ok SkippedDirty => {| prune_worktrees_pruned := prune_worktrees_pruned acc;
                                prune_worktrees_flagged_dirty := prune_worktrees_flagged_dirty acc + 1;
                                prune_worktrees_skipped := prune_worktrees_skipped acc |}
        | _ => {| prune_worktrees_pruned := prune_worktrees_pruned acc;
                  prune_worktrees_flagged_dirty := prune_worktrees_flagged_dirty acc;
                  prune_worktrees_skipped := prune_worktrees_skipped acc + 1 |}
        end).

Definition no_prune : PruneResult :=
  {| prune_worktrees_pruned := 0; prune_worktrees_flagged_dirty := 0; prune_worktrees_skipped := 0 |}.
Definition _prune_merged_worktrees (merged : list TriageRecord) (inv : InventoryResult) : Act PruneResult :=
  match w_prune w with
  | None => mret no_prune
  | Some prune => fold_each merged no_prune (fun acc tr => fold_each (tr_ticket_ids tr) acc (prune_one prune inv tr))
  end.

Definition merge_phase (inv_result : InventoryResult) (merge_prs : list TriageRecord) : Act unit :=
  _ ← _transition_phase Orch.MERGING;
  merge_result ← _call_merge_fanout merge_prs inv_result;
  _ ← update (fun s => set_counts (mr_prs_merged merge_result) (sw_prs_fixed s) (sw_prs_skipped s) (sw_delegated s) s);
  _ ← _transition_phase Orch.POST_MERGE_TAIL;
  _ ← for_each merge_prs (fun tr =>
        s ← sweep_state;
        _record_ledger_event LedgerKind.FINAL_CONCLUSION (tr_repo tr) (tr_pr_number tr) LedgerAction.MERGE
          (sw_phase s) None (Some (_synthetic_merge_group_sha (tr_repo tr) (tr_pr_number tr) 1))
          (Some LedgerConclusion.MERGED));
  when (mr_prs_merged merge_result >? 0)%Z (_ ← _prune_merged_worktrees merge_prs inv_result; mret ()).

(** *** Fixing *)

Definition _publish_fixer_dispatch_start (fix_prs : list TriageRecord) : Act unit :=
  for_each fix_prs (fun pr =>
    let e := FixerDispatchPublished (tr_repo pr) (tr_pr_number pr) (_stall_category_for_dispatch (tr_category pr)) in
    call e (fun l => w_publish w l e)).

Definition _publish_repo_health_fanout (fix_prs : list TriageRecord) : Act unit :=
  for_each fix_prs (fun pr =>
    match tr_validation_failure_origin pr with
    | None => mret ()
    | Some origin =>
        let e := RepoHealthClassifyPublished (tr_repo pr) (tr_pr_number pr) origin in
        _ ← attempt (call e (fun l => w_publish w l e));
        when (bool_decide (origin = REPO_BASELINE))
          (let e := RepoHealthRepairPublished (tr_repo pr) (tr_pr_number pr) in
           _ ← attempt (call e (fun l => w_publish w l e)); mret ())
    end).

Definition fix_result_of (raw : ModelPrLifecycleFixResult) (counted_as_fixed : bool) : FixResult :=
  let one (b : bool) := if b then 1%Z else 0%Z in
  let outcome k := bool_decide (fres_delegation_outcome raw = Some k) in
  {| fr_prs_dispatched := one counted_as_fixed;
     fr_prs_skipped := one (negb counted_as_fixed);
     fr_prs_delegated_fix_attempted := one (fres_delegated raw);
     fr_prs_delegated_fix_accepted := one (outcome DelegationOutcome.ACCEPTED);
     fr_prs_delegated_fix_gate_failed := one (outcome DelegationOutcome.GATE_FAILED);
     fr_prs_delegated_fix_escalated := one (outcome DelegationOutcome.ESCALATED) |}.

Definition _fix_one (pr : TriageRecord) : Act FixResult :=
  cmd ← lift (mk_fix_command (c_correlation_id command) (tr_pr_number pr) (tr_repo pr)
                (_block_reason_for_fix pr) (head (tr_ticket_ids pr)) (c_dry_run command));
  raw ← call (FixCalled cmd) (fun l => w_fix w l cmd);
  counted ← (if fres_fix_applied raw && negb (c_dry_run command) then
               call (StampReadBack (tr_repo pr) (tr_pr_number pr) (fc_ticket_id cmd))
                 (fun l => w_readback w l (tr_repo pr) (tr_pr_number pr) (fc_ticket_id cmd))
             else mret false);
  mret (fix_result_of raw counted).

(** [asyncio.gather(..., return_exceptions=True)]: every pull request is
    dispatched, then the errors, if any, are raised together.  The dispatches
    are taken one after the other, in order. *)
Definition gather_one (acc : list FixResult * nat) (pr : TriageRecord) : Act (list FixResult * nat) :=
  r ← attempt (_fix_one pr);
  mret (match r with
        | Ok f => (acc.1 ++ [f], acc.2)
        | Raise _ => (acc.1, S acc.2)
        end).
Definition _dispatch_fix_parallel (fix_prs : list TriageRecord) : Act (list FixResult) :=
  gathered ← fold_each fix_prs ([], 0) gather_one;
  match gathered.2 with
  | 0 => mret gathered.1
  | n => raise (RuntimeError ("fix dispatch errors (" +:+ pretty (Z.of_nat n) +:+
                  (if decide (n = 1) then " sub-exception)" else " sub-exceptions)")))
  end.

Definition fix_phase (fix_prs : list TriageRecord) : Act unit :=
  _ ← _transition_phase Orch.FIXING;
  _ ← _publish_fixer_dispatch_start fix_prs;
  _ ← _publish_repo_health_fanout fix_prs;
  fix_results ← _dispatch_fix_parallel fix_prs;
  let total := foldl add_fixes no_fixes fix_results in
  _ ← update (fun s => set_counts (sw_prs_merged s) (fr_prs_dispatched total)
                         (sw_prs_skipped s + fr_prs_skipped total) total s);
  for_each fix_prs (fun tr =>
    s ← sweep_state;
    _record_ledger_event LedgerKind.FINAL_CONCLUSION (tr_repo tr) (tr_pr_number tr) LedgerAction.FIX
      (sw_phase s) None None (Some LedgerConclusion.FAILED)).

(** *** The sweep *)

Definition skip_phase (skip_prs : list ReducerIntent) : Act unit :=
  _ ← update (fun s => set_counts (sw_prs_merged s) (sw_prs_fixed s) (Z.of_nat (length skip_prs)) (sw_delegated s) s);
  for_each skip_prs (fun i =>
    s ← sweep_state;
    _record_ledger_event LedgerKind.FINAL_CONCLUSION (ri_repo i) (ri_pr_number i) LedgerAction.SKIP
      (sw_phase s) None None (Some LedgerConclusion.SKIPPED)).

(** From the MERGING phase on; [merge_only] ends the sweep after a merge pass. *)
Definition act_phase (inv_result : InventoryResult) (outage_active : bool)
    (merge_prs fix_prs : list TriageRecord) : Act unit :=
  let mergeable := truthy merge_prs && negb (c_fix_only command) in
  let fixable := truthy fix_prs && negb (c_merge_only command) in
  _ ← when (mergeable && outage_active) (withhold (length merge_prs));
  _ ← when (mergeable && negb outage_active) (merge_phase inv_result merge_prs);
  if mergeable && negb outage_active && c_merge_only command then
    _transition_phase Orch.COMPLETE
  else
    _ ← when (fixable && outage_active) (withhold (length fix_prs));
    _ ← when (fixable && negb outage_active) (fix_phase fix_prs);
    _transition_phase Orch.COMPLETE.

(** Everything after the inventory and the breaker. *)
Definition plan_phase (inv_result : InventoryResult) (outage_active : bool) : Act unit :=
  if c_inventory_only command then _transition_phase Orch.COMPLETE
  else
    r ← triage_phase inv_result;
    let '(triage_result, reducer_result) := r in
    let merge_prs := designated ReducerKind.MERGE (rr_intents reducer_result) (ptr_classified triage_result) in
    let fix_prs := designated ReducerKind.FIX (rr_intents reducer_result) (ptr_classified triage_result) in
    let skip_prs := filter (fun i => ri_intent i = ReducerKind.SKIP) (rr_intents reducer_result) in
    merge_prs ← verify_phase merge_prs;
    if c_dry_run command then
      _ ← update (fun s => set_counts (sw_prs_merged s) (sw_prs_fixed s)
                             (Z.of_nat (length (rr_intents reducer_result))) (sw_delegated s) s);
      _transition_phase Orch.COMPLETE
    else
      _ ← skip_phase skip_prs;
      act_phase inv_result outage_active merge_prs fix_prs.

(** The body of the [try] of [_run_sweep]. *)
Definition sweep_body : Act unit :=
  inv_result ← inventory_phase;
  outage_active ← outage_phase inv_result;
  plan_phase inv_result outage_active.

(** *** The result *)

Definition _apply_org_wide_done_gate (s : _SweepState) : string * list ModelOrgWideOpenPrRemainder :=
  if negb (bool_decide (sw_fsm s = Orch.COMPLETE)) then (orch_state_value (sw_fsm s), [])
  else match sw_org_wide_open s with
       | None => (orch_state_value (sw_fsm s), [])
       | Some census =>
           if sweep_done census then (orch_state_value (sw_fsm s), [])
           else (_FINAL_STATE_NOT_DONE, ow_remainders census)
       end.

Definition all_outcomes : list EnumVerificationOutcome :=
  [Outcome.MERGED; Outcome.VERIFICATION_FAILED; Outcome.VERIFICATION_UNAVAILABLE;
   Outcome.VERIFICATION_TIMEOUT; Outcome.VERIFICATION_TOOL_ERROR; Outcome.SKIPPED_NO_MAPPING;
   Outcome.SKIPPED_BY_POLICY].
Definition _render_verification_breakdown (outcomes : list EnumVerificationOutcome)
  : list (EnumVerificationOutcome * Z) :=
  map (fun k => (k, Z.of_nat (count (fun o => bool_decide (o = k)) outcomes))) all_outcomes.

Definition _build_result (s : _SweepState) : ModelPrLifecycleResult :=
  let '(final_state, remainders) := _apply_org_wide_done_gate s in
  {| r_prs_inventoried := sw_prs_inventoried s;
     r_prs_merged := sw_prs_merged s;
     r_prs_fixed := sw_prs_fixed s;
     r_prs_skipped := sw_prs_skipped s;
     r_prs_verified := sw_prs_verified s;
     r_prs_verification_blocked := sw_prs_verification_blocked s;
     r_verification_breakdown := _render_verification_breakdown (map_to_list (sw_verification_outcomes s)).*2;
     r_final_state := final_state;
     r_error_message := sw_error_message s;
     r_org_wide_open_count := match sw_org_wide_open s with Some c => ow_open_count c | None => 0 end;
     r_org_wide_open_remainders := remainders;
     r_delegated := sw_delegated s;
     r_outage_active := sw_outage_active s;
     r_outage_mutations_withheld := sw_outage_mutations_withheld s |}.

Definition _run_sweep : Act ModelPrLifecycleResult :=
  _ ← update (fun _ => new_sweep_state);
  r ← attempt sweep_body;
  _ ← (match r with
       | Ok _ => mret ()
       | Raise exc =>
           _ ← update (set_error (exn_str exc));
           _transition_phase Orch.FAILED
       end);
  s ← sweep_state;
  mret (_build_result s).

(** *** The loop of sweeps *)

Definition _should_continue_sweep_loop (result : ModelPrLifecycleResult) : bool :=
  String.eqb (r_final_state result) _FINAL_STATE_NOT_DONE
  && ((r_prs_inventoried result >? 0)%Z || (r_prs_merged result >? 0)%Z
      || (r_prs_fixed result >? 0)%Z || (r_prs_verified result >? 0)%Z).

(** Passes [pass_index .. max]: [left] of them remain.  The result and the
    number of passes run. *)
Fixpoint sweep_loop (left : nat) : Act (option (ModelPrLifecycleResult * nat)) :=
  match left with
  | 0 => mret None
  | S left' =>
      result ← _run_sweep;
      if negb (String.eqb (r_final_state result) _FINAL_STATE_NOT_DONE) then mret (Some (result, 1))
      else if negb (c_loop_until_done command) || c_dry_run command || c_inventory_only command
              || negb (_should_continue_sweep_loop result) || Nat.eqb left' 0
      then mret (Some (result, 1))
      else
        rest ← sweep_loop left';
        mret (match rest with Some (r, n) => Some (r, S n) | None => Some (result, 1) end)
  end.
(** [assert result is not None] after the loop. *)
Definition handle : Act (ModelPrLifecycleResult * nat) :=
  r ← sweep_loop (c_max_sweep_passes command);
  match r with
  | Some x => mret x
  | None => raise (RuntimeError EmptyString)
  end.
End sweep.
