(* ===== verification/SweepProps.v ===== *)
(** * What a sweep may do

    Properties of [PrSweep._run_sweep]: which pull requests it merges and how
    many, what the dry run, the inventory-only run, an outage and the default
    policy withhold, the phase transitions it records, and the result it ends
    with. *)
From S2P Require Import Prelude LogMonad PrModels MergeControl Triage PrLedger LedgerNative PrRouting PrSweep.

(** ** Properties of a sweep *)

(** The calls that change something on GitHub. *)
Definition mutating (e : effect) : bool :=
  match e with MergeCalled _ | FixCalled _ | StallRemediated _ _ => true | _ => false end.
Definition quiet (e : effect) : Prop := mutating e = false.

Section properties.
Context {D : Type} `{ProtocolProjectionDatabaseSync D}.
Context (w : World) (command : ModelPrLifecycleStartCommand).
Abbreviation Act := (M (_SweepState * option D) effect).

Lemma sweep_state_quiet P : emits P (sweep_state (D := D)).
Proof. unfold sweep_state. emits_auto. Qed.
Lemma update_quiet P f : emits P (update (D := D) f).
Proof. unfold update. emits_auto. Qed.
Hint Resolve sweep_state_quiet update_quiet : onex.

Lemma record_quiet k rp n a ph h mg c : emits quiet (_record_ledger_event (D := D) w command k rp n a ph h mg c).
Proof. unfold _record_ledger_event. emits_auto. Qed.
Lemma transition_quiet to : emits quiet (_transition_phase (D := D) w command to).
Proof. unfold _transition_phase. emits_auto. Qed.
Hint Resolve record_quiet transition_quiet : onex.

Lemma inventory_repos_quiet repos : forall acc, emits quiet (inventory_repos (D := D) w repos acc).
Proof.
  induction repos as [|rp repos IH]; intros acc; cbn [inventory_repos]; [emits_auto|].
  apply emits_bind; [unfold inventory_repo; emits_auto|]. intros []; [apply IH|emits_auto].
Qed.
Lemma inventory_quiet : emits quiet (inventory_phase (D := D) w command).
Proof.
  unfold inventory_phase, _call_inventory, _collect_org_wide_open_prs.
  pose proof inventory_repos_quiet. emits_auto.
Qed.
Lemma breaker_quiet inv : emits quiet (_apply_outage_breaker (D := D) w inv).
Proof. unfold _apply_outage_breaker. emits_auto. Qed.
Lemma triage_quiet inv : emits quiet (triage_phase (D := D) w command inv).
Proof. unfold triage_phase, reduce_classified. emits_auto. Qed.
Lemma verify_quiet prs : emits quiet (verify_phase (D := D) w command prs).
Proof.
  unfold verify_phase, _run_verification, verify_one, verify_pr, _execute_verification_probe. emits_auto.
Qed.
Lemma skip_quiet l : emits quiet (skip_phase (D := D) w command l).
Proof. unfold skip_phase. emits_auto. Qed.

(** *** Merges *)

(** The facts the arm gate needs, of a collected pull request. *)
Definition arm_facts (inv : InventoryResult) (rp : string) (n : Z) : Prop :=
  exists p, p ∈ inv_prs inv /\ pr_repo p = rp /\ PrModels.pr_number p = n
    /\ pr_is_draft p = Some false /\ pr_coderabbit_unresolved p = Some 0%Z
    /\ pr_merge_state_status p = Some "CLEAN" /\ _status_checks_for_arm (pr_checks_status p) = Some "SUCCESS".
(** The facts triage needs. *)
Definition triage_facts (inv : InventoryResult) (rp : string) (n : Z) : Prop :=
  exists p, p ∈ inv_prs inv /\ pr_repo p = rp /\ PrModels.pr_number p = n
    /\ category_spec (inventory_item_of p) Triage.GREEN.
(** The OCC companion was read back. *)
Definition stamp_verified (rp : string) (n : Z) : Prop := exists l, w_readback w l rp n None = Ok true.
(** The verification phase let the pull request through: its changed files
    were enumerated, and call for no verification or for one that passed. *)
Definition verification_passed (rp : string) (n : Z) : Prop :=
  exists l fs, w_changed_files w l rp n = Some fs
    /\ let target := map_changed_files_to_target fs in
       target = TARGET_SKIPPED_NO_MAPPING
       \/ (target = RUNTIME_HEALTH /\ exists l', w_runtime_failed w l' = Ok 0%Z)
       \/ (exists l', w_verify w l' = Verdict true).

Definition merge_safe (inv : InventoryResult) (c : ModelPrMergeCommand) : Prop :=
  c_action_mode command = ENFORCE /\ c_merge_queue_mutation_kill_switch command = false
  /\ c_dry_run command = false /\ c_inventory_only command = false /\ c_fix_only command = false
  /\ mc_dry_run c = false
  /\ arm_facts inv (mc_repo c) (mc_pr_number c)
  /\ (w_triage_stub w = None -> triage_facts inv (mc_repo c) (mc_pr_number c))
  /\ stamp_verified (mc_repo c) (mc_pr_number c)
  /\ (c_verify command = true -> verification_passed (mc_repo c) (mc_pr_number c)).

Lemma pr_lookup_Some inv k p :
  pr_lookup inv !! k = Some p -> p ∈ inv_prs inv /\ (pr_repo p, PrModels.pr_number p) = k.
Proof.
  unfold pr_lookup. induction (inv_prs inv) as [|x l IH] using rev_ind; simpl; [done|].
  rewrite foldl_app. simpl. rewrite lookup_insert_Some, elem_of_app, list_elem_of_singleton. naive_solver.
Qed.

(** What the gate's ARM says of one triage record. *)
Definition armed_ok (inv : InventoryResult) (pr : TriageRecord) : Prop :=
  c_action_mode command = ENFORCE /\ c_merge_queue_mutation_kill_switch command = false
  /\ arm_facts inv (tr_repo pr) (tr_pr_number pr) /\ stamp_verified (tr_repo pr) (tr_pr_number pr).

Lemma evaluate_arm_gate_returns inv pr :
  returns quiet (_evaluate_arm_gate (D := D) w command pr (pr_lookup inv !! (tr_repo pr, tr_pr_number pr)))
    (fun d => d = ARM -> armed_ok inv pr).
Proof.
  unfold _evaluate_arm_gate.
  eapply (returns_bind _ _ _ (fun v => v = Some true -> stamp_verified (tr_repo pr) (tr_pr_number pr))).
  - destruct (_ && _); [|by apply returns_ret].
    eapply (returns_bind _ _ _ (fun v => v = true -> stamp_verified (tr_repo pr) (tr_pr_number pr))).
    + apply returns_call; [done|]. intros l a Ha ->. by exists l.
    + intros v Hv. apply returns_ret. intros [= ->]. by apply Hv.
  - intros v Hv. apply returns_ret. intros Harm. apply arm_decision_iff, arm_reasons_nil in Harm.
    unfold policy, arm_candidate in Harm. cbn [action_mode kill_switch ag_policy ag_candidate ac_is_draft
      ac_coderabbit_unresolved ac_merge_state_status ac_status_checks ac_occ_companion_verified] in Harm.
    destruct Harm as (H1 & H2 & H3 & H4 & H5 & H6 & H7).
    destruct (pr_lookup inv !! _) as [p|] eqn:Hp; [|done].
    apply pr_lookup_Some in Hp as [Hin [= Hr Hn]].
    split_and!; [done|done| |by apply Hv]. exists p. by split_and!.
Qed.

Definition only_merges (Q : ModelPrMergeCommand -> Prop) (e : effect) : Prop :=
  match e with MergeCalled c => Q c | StallRemediated _ _ => False | _ => True end.
Lemma quiet_only_merges Q e : quiet e -> only_merges Q e.
Proof. by destruct e. Qed.
Lemma quiet_only {T} Q (m : Act T) : emits quiet m -> emits (only_merges Q) m.
Proof. intros Hm. eapply emits_weaken; [exact Hm|]. intros e. apply quiet_only_merges. Qed.

Lemma fanout_merges (prs : list TriageRecord) inv (good : TriageRecord -> Prop) :
  Forall good prs ->
  emits (only_merges (fun c => exists pr, good pr /\ armed_ok inv pr /\ mc_repo c = tr_repo pr
                               /\ mc_pr_number c = tr_pr_number pr /\ mc_dry_run c = c_dry_run command))
    (_call_merge_fanout (D := D) w command prs inv).
Proof.
  intros Hgood. unfold _call_merge_fanout. set (Q := fun c => exists pr, _).
  eapply returns_emits. eapply (returns_bind _ _ _ (Forall (fun pr => good pr /\ armed_ok inv pr))).
  - apply returns_fold; [constructor|]. intros armed pr Hpr Harmed. unfold arm_one.
    eapply returns_bind.
    + eapply returns_widen; [apply (evaluate_arm_gate_returns inv pr)|apply quiet_only_merges].
    + intros d Hd. apply returns_ret. case_decide as E; [|done].
      apply Forall_app; split; [done|]. apply Forall_singleton. split; [|by apply Hd].
      rewrite Forall_forall in Hgood. by apply Hgood.
  - intros armed Harmed. apply emits_returns, emits_fold_each. intros acc pr Hpr. unfold merge_one.
    assert (good pr /\ armed_ok inv pr) as [Hg Ha].
    { rewrite Forall_forall in Harmed. apply Harmed.
      apply subseteq_take in Hpr. by rewrite sort_by_perm in Hpr. }
    eapply returns_emits, returns_bind.
    + apply (returns_lift _ _ (fun c => mc_repo c = tr_repo pr /\ mc_pr_number c = tr_pr_number pr
                                        /\ mc_dry_run c = c_dry_run command)).
      intros c. unfold mk_merge_command. destruct (0 <? tr_pr_number pr)%Z; [|done]. by intros [= <-].
    + intros c (H1 & H2 & H3). apply emits_returns. emits_auto. exists pr. by split_and!.
Qed.

Definition is_merge (e : effect) : bool := match e with MergeCalled _ => true | _ => false end.
Lemma quiet_not_merge e : quiet e -> is_merge e = false.
Proof. by destruct e. Qed.
Lemma quiet_no_merge {T} (m : Act T) : emits quiet m -> emits (fun e => is_merge e = false) m.
Proof. intros Hm. eapply emits_weaken; [exact Hm|]. apply quiet_not_merge. Qed.

Lemma fanout_wave_cap prs inv :
  at_most is_merge (Z.to_nat (c_merge_wave_cap command)) (_call_merge_fanout (D := D) w command prs inv).
Proof.
  unfold _call_merge_fanout. apply at_most_0_bind.
  - apply emits_fold_each. intros armed pr _. unfold arm_one, _evaluate_arm_gate. emits_auto.
  - intros armed. eapply at_most_weaken; [apply at_most_fold|].
    + intros acc pr. unfold merge_one. apply at_most_0_bind; [emits_auto|].
      intros c. apply at_most_bind_0; [|emits_auto].
      intros s. exists [MergeCalled c]. simpl. split; [done|]. by rewrite count_cons.
    + rewrite length_take. unfold policy. cbn [wave_cap]. lia.
Qed.
(** *** Which pull requests reach the merge phase *)

(** A pull request triage and the reducer let through. *)
Definition planned_ok (inv : InventoryResult) (tr : TriageRecord) : Prop :=
  c_inventory_only command = false /\ c_fix_only command = false
  /\ (w_triage_stub w = None -> triage_facts inv (tr_repo tr) (tr_pr_number tr)).

Lemma designated_elem k intents classified tr :
  tr ∈ designated k intents classified ->
  exists i, i ∈ intents /\ ri_intent i = k /\ ri_repo i = tr_repo tr /\ ri_pr_number i = tr_pr_number tr.
Proof.
  unfold designated. rewrite list_elem_of_In, in_concat. intros (l & Hl & Htr).
  apply list_elem_of_In, list_elem_of_fmap in Hl as (i & -> & Hi).
  apply list_elem_of_In, list_elem_of_filter in Htr as [(H1 & H2 & H3) _]. exists i. by split_and!.
Qed.

Lemma merge_intents_ok inv :
  Forall (planned_ok inv)
    (designated ReducerKind.MERGE
       (map (classify_intent (c_inventory_only command) (c_fix_only command) (c_merge_only command))
          (ptr_classified (triage_inventory w command inv)))
       (ptr_classified (triage_inventory w command inv))).
Proof.
  apply Forall_forall. intros tr Htr. apply designated_elem in Htr as (i & Hi & Hk & Hr & Hn).
  apply list_elem_of_fmap in Hi as (t & -> & Ht). unfold planned_ok. rewrite <- Hr, <- Hn.
  assert (tr_category t = PrCategory.GREEN /\ c_inventory_only command = false /\ c_fix_only command = false
    /\ ri_repo (classify_intent (c_inventory_only command) (c_fix_only command) (c_merge_only command) t) = tr_repo t
    /\ ri_pr_number (classify_intent (c_inventory_only command) (c_fix_only command) (c_merge_only command) t)
       = tr_pr_number t) as (Hg & Hi & Hf & -> & ->).
  { unfold classify_intent in *.
    destruct (c_inventory_only command), (c_fix_only command), (c_merge_only command), (tr_category t); done. }
  split_and!; [done..|]. intros Hstub. unfold triage_inventory in Ht. rewrite Hstub in Ht.
  apply call_triage_elem in Ht as (p & Hp & ->). exists p.
  pose proof (classify_meets_spec (inventory_item_of p)) as Hs. cbn [tr_category triage_record_of] in Hg.
  destruct (res_category (_classify_pr (inventory_item_of p))) eqn:E; try done.
  split_and!; try done; unfold triage_record_of, _classify_pr; cbn; repeat case_match; done.
Qed.

Lemma triage_phase_plans inv :
  returns quiet (triage_phase (D := D) w command inv)
    (fun r => Forall (planned_ok inv)
       (designated ReducerKind.MERGE (rr_intents r.2) (ptr_classified r.1))).
Proof.
  unfold triage_phase. set (cl := ptr_classified _).
  eapply returns_bind; [apply emits_returns; emits_auto|]. intros _ _.
  eapply returns_bind; [apply emits_returns; emits_auto|]. intros s _.
  eapply returns_bind; [apply emits_returns; emits_auto|]. intros it _.
  eapply (returns_bind _ _ _ (fun r => rr_intents r = map (classify_intent (c_inventory_only command)
    (c_fix_only command) (c_merge_only command)) cl)).
  - unfold reduce_classified. eapply returns_bind; [apply emits_returns; emits_auto|]. intros s' _.
    eapply returns_bind; [apply emits_returns; emits_auto|]. intros now _.
    pose proof (handle_classified_intents cl (c_inventory_only command) (c_fix_only command)
      (c_merge_only command) s'.2 (match s'.2 with Some _ => Some (c_run_id command) | None => None end)
      it None now) as Hi.
    destruct (handle_classified _ _ _ _ _ _ _ _ _) as [db' r].
    eapply returns_bind; [apply emits_returns; emits_auto|]. intros _ _.
    apply returns_lift. intros a ->. exact Hi.
  - intros r Hr. eapply returns_bind; [apply emits_returns; emits_auto|]. intros _ _.
    apply returns_ret. cbn [fst snd]. rewrite Hr. apply merge_intents_ok.
Qed.

Lemma probe_verdict t :
  returns quiet (_execute_verification_probe (D := D) w t) (fun o =>
    should_block false t o = false ->
    t = TARGET_SKIPPED_NO_MAPPING \/ (t = RUNTIME_HEALTH /\ exists l, w_runtime_failed w l = Ok 0%Z)
    \/ exists l, w_verify w l = Verdict true).
Proof.
  unfold _execute_verification_probe. destruct (decide (t = RUNTIME_HEALTH)) as [->|Ht].
  - eapply returns_bind; [apply returns_attempt, (returns_call _ _ _ (fun n => exists l, w_runtime_failed w l = Ok n)); eauto; done|].
    intros r Hr. apply returns_ret. intros Hb. right. left. split; [done|].
    destruct r as [[]|]; try (by vm_compute in Hb). by apply Hr.
  - eapply returns_bind; [apply (returns_call _ _ _ (fun v => exists l, w_verify w l = v)); [done|]|].
    + intros l a [= <-]. eauto.
    + intros v (l & Hv). apply returns_ret. intros Hb.
      destruct (decide (t = TARGET_SKIPPED_NO_MAPPING)) as [->|Hm]; [by left|].
      right; right. exists l. rewrite Hv. unfold should_block in Hb.
      rewrite (bool_decide_eq_false_2 _ Hm) in Hb. by destruct v as [[]| | |].
Qed.

Lemma verify_pr_verdict pr :
  returns quiet (verify_pr (D := D) w command pr) (fun v => let '(fu, t, o) := v in
    c_dry_run command = false -> should_block fu t o = false ->
    verification_passed (tr_repo pr) (tr_pr_number pr)).
Proof.
  unfold verify_pr. eapply returns_bind.
  - apply (returns_call _ _ _ (fun f => exists l, w_changed_files w l (tr_repo pr) (tr_pr_number pr) = f)); [done|].
    intros l a [= <-]. eauto.
  - intros [fs|] (l & Hl); [|by apply returns_ret].
    destruct (c_dry_run command); [by apply returns_ret|].
    destruct (decide (map_changed_files_to_target fs = TARGET_SKIPPED_NO_MAPPING)) as [Hm|Hm].
    + apply returns_ret. intros _ _. exists l, fs. split; [done|]. by left.
    + eapply returns_bind; [apply probe_verdict|]. intros o Ho. apply returns_ret. intros _ Hb.
      exists l, fs. split; [done|]. by apply Ho.
Qed.

Lemma verify_phase_keeps prs (good : TriageRecord -> Prop) :
  Forall good prs ->
  returns quiet (verify_phase (D := D) w command prs) (Forall (fun pr => good pr /\
    (c_verify command = true -> c_dry_run command = false -> c_fix_only command = false ->
     verification_passed (tr_repo pr) (tr_pr_number pr)))).
Proof.
  intros Hgood. unfold verify_phase. destruct (c_verify command) eqn:Hv; simpl.
  2:{ apply returns_ret. eapply Forall_impl; [exact Hgood|done]. }
  destruct prs as [|pr prs]; simpl; [by apply returns_ret|].
  destruct (c_fix_only command) eqn:Hf; simpl.
  { apply returns_ret. eapply Forall_impl; [exact Hgood|done]. }
  eapply returns_bind; [apply emits_returns; emits_auto|]. intros _ _. unfold _run_verification.
  apply returns_fold; [constructor|]. intros cleared p Hp Hc. unfold verify_one.
  eapply returns_bind; [apply verify_pr_verdict|]. intros [[fu t] o] Hpr.
  eapply returns_bind; [apply emits_returns; emits_auto|]. intros _ _.
  eapply returns_bind; [apply emits_returns; emits_auto|]. intros _ _.
  destruct (should_block fu t o) eqn:Hb.
  - eapply returns_bind; [apply emits_returns; emits_auto|]. intros s _.
    eapply returns_bind; [apply emits_returns; emits_auto|]. intros _ _.
    eapply returns_bind; [apply emits_returns; emits_auto|]. intros _ _. by apply returns_ret.
  - eapply returns_bind; [apply emits_returns; emits_auto|]. intros _ _. apply returns_ret.
    apply Forall_app; split; [done|]. apply Forall_singleton. rewrite Forall_forall in Hgood. naive_solver.
Qed.

(** *** The rest of the sweep *)

Lemma prune_quiet prs inv : emits quiet (_prune_merged_worktrees (D := D) w command prs inv).
Proof. unfold _prune_merged_worktrees, prune_one. emits_auto. Qed.
Lemma fix_no_merge Q prs : emits (only_merges Q) (fix_phase (D := D) w command prs).
Proof.
  unfold fix_phase, _publish_fixer_dispatch_start, _publish_repo_health_fanout, _dispatch_fix_parallel,
    gather_one, _fix_one, _transition_phase, _record_ledger_event, sweep_state, update. emits_auto.
Qed.

Lemma merge_phase_merges prs inv (good : TriageRecord -> Prop) :
  Forall good prs ->
  emits (only_merges (fun c => exists pr, good pr /\ armed_ok inv pr /\ mc_repo c = tr_repo pr
                               /\ mc_pr_number c = tr_pr_number pr /\ mc_dry_run c = c_dry_run command))
    (merge_phase (D := D) w command inv prs).
Proof.
  intros Hgood. unfold merge_phase.
  pose proof (fanout_merges prs inv good Hgood) as Hf. revert Hf. set (Q := fun c => exists pr, _). intros Hf.
  apply emits_bind; [apply quiet_only, transition_quiet|]. intros _.
  apply emits_bind; [exact Hf|]. intros mr.
  apply emits_bind; [apply quiet_only; emits_auto|]. intros _.
  apply emits_bind; [apply quiet_only, transition_quiet|]. intros _.
  apply emits_bind; [apply quiet_only; emits_auto|]. intros _.
  apply quiet_only, emits_when. intros _. apply emits_bind; [apply prune_quiet|]. intros. emits_auto.
Qed.

(** Everything after the breaker found no outage. *)
Lemma plan_merges inv : emits (only_merges (merge_safe inv)) (plan_phase (D := D) w command inv false).
Proof.
  unfold plan_phase. destruct (c_inventory_only command) eqn:Hio; [apply quiet_only, transition_quiet|].
  eapply returns_emits, returns_bind; [eapply returns_widen; [apply triage_phase_plans|apply quiet_only_merges]|].
  intros [tres rres] Hplan. cbn [fst snd] in Hplan.
  eapply returns_bind; [eapply returns_widen; [apply (verify_phase_keeps _ _ Hplan)|apply quiet_only_merges]|].
  intros prs Hprs. apply emits_returns.
  destruct (c_dry_run command) eqn:Hdry; [apply quiet_only; emits_auto|].
  apply emits_bind; [apply quiet_only, skip_quiet|]. intros _. unfold act_phase.
  rewrite !andb_true_r, !andb_false_r. cbn [negb when].
  apply emits_bind; [apply quiet_only; emits_auto|]. intros _.
  apply emits_bind.
  - apply emits_when. intros Hm. apply andb_true_iff in Hm as [_ Hfix]. apply negb_true_iff in Hfix.
    eapply emits_weaken; [apply (merge_phase_merges _ _ _ Hprs)|]. intros []; try done.
    unfold merge_safe; cbn. rewrite Hdry. intros (pr & ((_ & _ & Ht) & Hv) & (H1 & H2 & H3 & H4) & -> & -> & H5).
    unfold merge_safe. split_and!; try done. intros Hc. by apply Hv.
  - intros _. destruct (_ && c_merge_only command); [apply quiet_only, transition_quiet|].
    apply emits_bind; [apply quiet_only; emits_auto|]. intros _.
    apply emits_bind; [apply emits_when; intros _; apply fix_no_merge|]. intros _.
    apply quiet_only, transition_quiet.
Qed.

(** The runs in which nothing is changed. *)
Lemma plan_quiet inv (outage : bool) :
  outage = true \/ c_inventory_only command = true \/ c_dry_run command = true ->
  emits quiet (plan_phase (D := D) w command inv outage).
Proof.
  intros Hq. unfold plan_phase. destruct (c_inventory_only command); [emits_auto|].
  apply emits_bind; [apply triage_quiet|]. intros [tres rres].
  apply emits_bind; [apply verify_quiet|]. intros prs.
  destruct (c_dry_run command); [emits_auto|]. destruct Hq as [->|[?|?]]; [|done..].
  apply emits_bind; [apply skip_quiet|]. intros _. unfold act_phase.
  rewrite !andb_false_r. cbn [andb when]. emits_auto.
Qed.
Lemma outage_quiet inv :
  c_inventory_only command = true \/ c_dry_run command = true ->
  emits quiet (outage_phase (D := D) w command inv).
Proof.
  intros Hq. unfold outage_phase. apply emits_bind; [apply breaker_quiet|]. intros b.
  unfold withhold, _remediate_stalled_queue_prs. destruct b; [emits_auto|].
  apply emits_bind; [|intros; emits_auto]. destruct (negb _); [emits_auto|].
  destruct Hq as [-> | ->]; rewrite ?orb_true_r; cbn [orb]; emits_auto.
Qed.

(** *** Invariants of the sweep state *)

(** A property of the state the bookkeeping of counters does not touch. *)
Definition stable (I : _SweepState * option D -> Prop) : Prop :=
  (forall s n d, I (s, d) -> I (set_inventory n (sw_org_wide_open s) s, d))
  /\ (forall s a b c f d, I (s, d) -> I (set_counts a b c f s, d))
  /\ (forall s o v b d, I (s, d) -> I (set_verification o v b s, d))
  /\ (forall s n d, I (s, d) -> I (set_outage (sw_outage_active s) n s, d))
  /\ (forall s d d', I (s, d) -> I (s, d')).

(** The machine is in state [q], its phase derived from it. *)
Definition at_state (q : EnumOrchestratorState) (s : _SweepState * option D) : Prop :=
  sw_fsm s.1 = q /\ sw_phase s.1 = _phase_for_state q.
Definition outage_is (b : bool) (s : _SweepState * option D) : Prop := sw_outage_active s.1 = b.

(** A transition the store accepts. *)
Definition legal (e : effect) : Prop :=
  match e with
  | PhaseRecorded t => is_allowed_phase_transition (pt_from_phase t) (pt_to_phase t) = true
  | _ => True
  end.

Lemma transition_legal q to :
  is_allowed_phase_transition (_phase_for_state q) (_phase_for_state to) = true ->
  spec (at_state q) legal (_transition_phase (D := D) w command to) (fun _ => at_state to) (fun _ => True).
Proof.
  intros Hp [s l] [_ Hs]. cbn in Hs. rewrite <- Hs in Hp. unfold _transition_phase, sweep_state, update, emit,
    call, ask, when, modify, get_state, mbind, M_bind, mret, M_ret. cbn [fst snd].
  destruct (negb _); cbn [fst snd]; destruct (w_publish _ _ _); cbn [fst snd];
    eexists; rewrite <- ?app_assoc; (split; [reflexivity|]); (split; [|done]);
    cbn [app]; repeat (apply List.Forall_cons); try apply List.Forall_nil; done.
Qed.

Section stable.
Context (I : _SweepState * option D -> Prop) (P : effect -> Prop) (HI : stable I).
(** The calls other than the phase transitions. *)
Definition not_phase (e : effect) : Prop :=
  match e with PhaseRecorded _ | PhasePublished _ _ => False | _ => True end.
Context (HP : forall e, not_phase e -> P e).

Lemma sweep_state_keeps : keeps I P (sweep_state (D := D)).
Proof. unfold sweep_state. keeps_auto. Qed.
Hint Resolve sweep_state_keeps : onex.
Lemma record_keeps k rp n a ph h mg c : keeps I P (_record_ledger_event (D := D) w command k rp n a ph h mg c).
Proof.
  unfold _record_ledger_event. apply keeps_bind; [keeps_auto|]. intros now.
  apply keeps_when. intros _. by apply keeps_emit, HP.
Qed.
Hint Resolve record_keeps : onex.

Ltac call_auto := repeat (first [apply keeps_call, HP; done | apply keeps_emit, HP; done
  | progress unfold update, withhold | apply keeps_modify; intros [? ?] ?; cbn [fst snd]; destruct HI as (? & ? & ? & ? & ?); solve [eauto 2] | keeps_step]).

Lemma breaker_keeps inv :
  (forall s d b, I (s, d) -> I (set_outage b (sw_outage_mutations_withheld s) s, d)) ->
  keeps I P (_apply_outage_breaker (D := D) w inv).
Proof. intros Ho. unfold _apply_outage_breaker. call_auto. Qed.
Lemma inventory_repos_keeps repos : forall acc, keeps I P (inventory_repos (D := D) w repos acc).
Proof.
  induction repos as [|rp repos IH]; intros acc; cbn [inventory_repos]; [call_auto|].
  apply keeps_bind; [unfold inventory_repo; call_auto|]. intros []; [apply IH|call_auto].
Qed.
Hint Resolve inventory_repos_keeps : onex.
Lemma inventory_rest_keeps repos : keeps I P (_call_inventory (D := D) w repos).
Proof. unfold _call_inventory. call_auto. Qed.
Lemma census_keeps : keeps I P (_collect_org_wide_open_prs (D := D) w).
Proof. unfold _collect_org_wide_open_prs. call_auto. Qed.
Lemma stall_keeps inv : keeps I P (_remediate_stalled_queue_prs (D := D) w command inv).
Proof. unfold _remediate_stalled_queue_prs, remediate_entry. call_auto. Qed.
Hint Resolve inventory_rest_keeps census_keeps stall_keeps : onex.
Lemma withhold_keeps n : keeps I P (withhold (D := D) n).
Proof. call_auto. Qed.
Hint Resolve withhold_keeps : onex.
Lemma skip_keeps l : keeps I P (skip_phase (D := D) w command l).
Proof. unfold skip_phase. call_auto. Qed.
Lemma run_verification_keeps prs : keeps I P (_run_verification (D := D) w command prs).
Proof. unfold _run_verification, verify_one, verify_pr, _execute_verification_probe. call_auto. Qed.
Lemma fanout_keeps prs inv : keeps I P (_call_merge_fanout (D := D) w command prs inv).
Proof. unfold _call_merge_fanout, arm_one, _evaluate_arm_gate, merge_one. call_auto. Qed.
Lemma prune_keeps prs inv : keeps I P (_prune_merged_worktrees (D := D) w command prs inv).
Proof. unfold _prune_merged_worktrees, prune_one. call_auto. Qed.
Lemma dispatch_keeps prs : keeps I P (_dispatch_fix_parallel (D := D) w command prs).
Proof. unfold _dispatch_fix_parallel, gather_one, _fix_one. call_auto. Qed.
Lemma reduce_keeps cl it : keeps I P (reduce_classified (D := D) w command cl it).
Proof. unfold reduce_classified. call_auto. Qed.
Lemma publish_keeps prs :
  keeps I P (_publish_fixer_dispatch_start (D := D) w prs)
  /\ keeps I P (_publish_repo_health_fanout (D := D) w prs).
Proof. unfold _publish_fixer_dispatch_start, _publish_repo_health_fanout. split; call_auto. Qed.
End stable.

Lemma at_state_stable q : stable (at_state q).
Proof. done. Qed.
Lemma not_phase_legal e : not_phase e -> legal e.
Proof. by destruct e. Qed.
Hint Resolve at_state_stable not_phase_legal : onex.

(** [spec] with the kept invariant as both assertions. *)
Lemma keeps_to {T} I P (m : Act T) : keeps I P m -> spec I P m (fun _ => I) (fun _ => True).
Proof. intros Hm. by eapply spec_weaken. Qed.
Ltac known := eauto 4 using record_keeps, sweep_state_keeps, skip_keeps, fanout_keeps, withhold_keeps,
  prune_keeps, dispatch_keeps, reduce_keeps, inventory_rest_keeps, census_keeps with onex nocore.
Ltac go := apply keeps_to; unfold update; repeat first [solve [known] | keeps_step]; done.

Lemma inventory_legal :
  spec (at_state Orch.IDLE) legal (inventory_phase (D := D) w command)
    (fun _ => at_state Orch.INVENTORYING) (fun _ => True).
Proof.
  unfold inventory_phase. eapply spec_bind; [by apply transition_legal|]. intros ?.
  eapply spec_bind; [go|]. intros inv. eapply spec_bind; [go|]. intros ?.
  eapply spec_bind; [go|]. intros c. eapply spec_bind; [go|]. intros ?.
  eapply spec_bind; [go|]. intros ?. go.
Qed.
Lemma outage_legal q inv :
  spec (at_state q) legal (outage_phase (D := D) w command inv) (fun _ => at_state q) (fun _ => True).
Proof.
  apply keeps_to. unfold outage_phase.
  apply keeps_bind; [by apply breaker_keeps; eauto with onex|]. intros b.
  apply keeps_bind; [|intros; keeps_auto].
  destruct b; [apply keeps_when; intros _; apply withhold_keeps|apply stall_keeps]; eauto with onex.
Qed.
Lemma triage_legal inv :
  spec (at_state Orch.INVENTORYING) legal (triage_phase (D := D) w command inv)
    (fun _ => at_state Orch.TRIAGING) (fun _ => True).
Proof.
  unfold triage_phase. eapply spec_bind; [by apply transition_legal|]. intros ?.
  eapply spec_bind; [go|]. intros s. eapply spec_bind; [go|]. intros it.
  eapply spec_bind; [go|]. intros r. eapply spec_bind; [go|]. intros ?. go.
Qed.
Lemma merge_legal q inv prs :
  q = Orch.TRIAGING \/ q = Orch.VERIFYING ->
  spec (at_state q) legal (merge_phase (D := D) w command inv prs)
    (fun _ => at_state Orch.POST_MERGE_TAIL) (fun _ => True).
Proof.
  intros Hq. unfold merge_phase. eapply spec_bind; [apply transition_legal; by destruct Hq as [-> | ->]|]. intros ?.
  eapply spec_bind; [go|]. intros mr. eapply spec_bind; [go|]. intros ?.
  eapply spec_bind; [by apply transition_legal|]. intros ?. eapply spec_bind; [go|]. intros ?.
  apply keeps_to, keeps_when. intros _. apply keeps_bind; [apply prune_keeps; eauto with onex|].
  intros; keeps_auto.
Qed.
Lemma fix_legal q prs :
  q = Orch.TRIAGING \/ q = Orch.VERIFYING \/ q = Orch.POST_MERGE_TAIL ->
  spec (at_state q) legal (fix_phase (D := D) w command prs)
    (fun _ => at_state Orch.FIXING) (fun _ => True).
Proof.
  intros Hq. unfold fix_phase.
  eapply spec_bind; [apply transition_legal; by destruct Hq as [-> |[-> | ->]]|]. intros ?.
  eapply spec_bind; [apply keeps_to, publish_keeps; eauto with onex|]. intros ?.
  eapply spec_bind; [apply keeps_to, publish_keeps; eauto with onex|]. intros ?.
  eapply spec_bind; [go|]. intros r. eapply spec_bind; [go|]. intros ?. go.
Qed.
Lemma act_legal q inv outage merge_prs fix_prs :
  q = Orch.TRIAGING \/ q = Orch.VERIFYING ->
  spec (at_state q) legal (act_phase (D := D) w command inv outage merge_prs fix_prs)
    (fun _ => at_state Orch.COMPLETE) (fun _ => True).
Proof.
  intros Hq. unfold act_phase. eapply spec_bind; [go|]. intros ?.
  eapply (spec_bind _ _ _ _ (fun _ s => exists q', (q' = q \/ q' = Orch.POST_MERGE_TAIL) /\ at_state q' s)).
  - apply spec_when; [|by eauto]. intros _. eapply spec_weaken; [by apply merge_legal|done|done| |done]. eauto.
  - intros ?. apply spec_exists. intros q' Hq'.
    assert (is_allowed_phase_transition (_phase_for_state q') (_phase_for_state Orch.COMPLETE) = true) as Hc.
    { by destruct Hq' as [-> | ->], Hq as [-> | ->]. }
    destruct (_ && c_merge_only command); [by apply transition_legal|].
    eapply spec_bind; [go|]. intros ?.
    eapply (spec_bind _ _ _ _ (fun _ s => at_state q' s \/ at_state Orch.FIXING s)).
    + apply spec_when; [|by eauto]. intros _. eapply spec_weaken; [apply (fix_legal q')|done|done|by eauto|done].
      destruct Hq' as [-> | ->], Hq as [-> | ->]; eauto.
    + intros ?. apply spec_or; by apply transition_legal.
Qed.

Lemma plan_legal inv outage :
  spec (at_state Orch.INVENTORYING) legal (plan_phase (D := D) w command inv outage)
    (fun _ => at_state Orch.COMPLETE) (fun _ => True).
Proof.
  unfold plan_phase. destruct (c_inventory_only command); [by apply transition_legal|].
  eapply spec_bind; [apply triage_legal|]. intros [tres rres].
  eapply (spec_bind _ _ _ _ (fun _ s => exists q, (q = Orch.TRIAGING \/ q = Orch.VERIFYING) /\ at_state q s)).
  - unfold verify_phase. destruct (_ && _).
    + eapply spec_bind; [by apply transition_legal|]. intros ?.
      eapply spec_weaken; [apply (keeps_to (at_state Orch.VERIFYING) legal), run_verification_keeps|done|done| |done];
        eauto with onex.
    + apply spec_ret. eauto.
  - intros prs. apply spec_exists. intros q Hq.
    destruct (c_dry_run command).
    + eapply spec_bind; [go|]. intros ?. apply transition_legal. by destruct Hq as [-> | ->].
    + eapply spec_bind; [go|]. intros ?. by apply act_legal.
Qed.

Lemma body_legal :
  spec (at_state Orch.IDLE) legal (sweep_body (D := D) w command)
    (fun _ => at_state Orch.COMPLETE) (fun _ => True).
Proof.
  unfold sweep_body. eapply spec_bind; [apply inventory_legal|]. intros inv.
  eapply spec_bind; [apply outage_legal|]. intros b. apply plan_legal.
Qed.

(** *** The fields the result is built from *)

Definition any (e : effect) : Prop := True.
Lemma any_not_phase e : not_phase e -> any e.
Proof. done. Qed.
Lemma any_intro e : any e.
Proof. done. Qed.

Section fields.
Context (I : _SweepState * option D -> Prop) (HI : stable I)
  (Hfsm : forall s f p d, I (s, d) -> I (set_fsm f p s, d)).

Lemma transition_keeps to : keeps I any (_transition_phase (D := D) w command to).
Proof.
  unfold _transition_phase, sweep_state, update. keeps_auto.
  apply keeps_modify. intros [s d] Hs. by apply Hfsm.
Qed.
Hint Resolve transition_keeps : onex.
Ltac known_any := eauto 4 using record_keeps, sweep_state_keeps, skip_keeps, fanout_keeps, withhold_keeps,
  prune_keeps, dispatch_keeps, reduce_keeps, run_verification_keeps, any_not_phase with onex nocore.
Ltac go_any := unfold update; repeat first
  [ solve [known_any] | keeps_step
  | apply keeps_modify; intros [? ?] ?; cbn [fst snd]; destruct HI as (? & ? & ? & ? & ?); solve [eauto 2] ].

Lemma plan_keeps inv outage : keeps I any (plan_phase (D := D) w command inv outage).
Proof.
  unfold plan_phase, triage_phase, verify_phase, act_phase, merge_phase, fix_phase.
  pose proof (fun prs => publish_keeps I any any_not_phase prs) as Hpub.
  go_any; apply Hpub.
Qed.
Lemma outage_rest_keeps inv (b : bool) :
  spec I any (_ ← (if b then when (truthy (inv_stuck_queue_prs inv)) (withhold (length (inv_stuck_queue_prs inv)))
                   else _remediate_stalled_queue_prs (D := D) w command inv); mret b)
    (fun a s => a = b /\ I s) I.
Proof.
  pose proof (stall_keeps I any any_not_phase inv) as Hstall.
  eapply (spec_bind _ _ _ _ (fun _ => I)); [|intros ?; by apply spec_ret].
  destruct b; [|exact Hstall]. change (keeps I any (when (truthy (inv_stuck_queue_prs inv))
    (withhold (D := D) (length (inv_stuck_queue_prs inv))))). go_any.
Qed.
End fields.

Lemma outage_is_stable b : stable (outage_is b).
Proof. done. Qed.
(** The breaker's answer is the state's. *)
Lemma outage_phase_is inv :
  spec (fun _ => True) (fun _ => True) (outage_phase (D := D) w command inv) outage_is (fun _ => True).
Proof.
  unfold outage_phase. eapply (spec_bind _ _ _ _ outage_is).
  - unfold _apply_outage_breaker. eapply spec_bind; [apply emits_spec, emits_lift|]. intros b0.
    eapply spec_bind; [apply emits_spec; emits_auto|]. intros b1.
    eapply (spec_bind _ _ _ _ (fun _ => outage_is (is_open b1))); [by apply spec_modify|].
    intros ?. by apply spec_ret.
  - intros b. eapply spec_weaken; [apply (outage_rest_keeps (outage_is b) (outage_is_stable b))|try done..].
    by intros a s [-> Hs].
Qed.

(** *** A run of the sweep, cut at its phases *)

Definition start (s : (_SweepState * option D) * log) : (_SweepState * option D) * log :=
  ((new_sweep_state, s.1.2), s.2).
Definition inventoried s s1 inv : Prop := inventory_phase (D := D) w command (start s) = (s1, Ok inv).
Definition gated s1 inv s2 (b : bool) : Prop := outage_phase (D := D) w command inv s1 = (s2, Ok b).

Lemma body_cases s :
  (exists s1 x, inventory_phase (D := D) w command (start s) = (s1, Raise x)
     /\ sweep_body (D := D) w command (start s) = (s1, Raise x))
  \/ (exists s1 inv s2 x, inventoried s s1 inv /\ outage_phase (D := D) w command inv s1 = (s2, Raise x)
     /\ sweep_body (D := D) w command (start s) = (s2, Raise x))
  \/ (exists s1 inv s2 b, inventoried s s1 inv /\ gated s1 inv s2 b
     /\ sweep_body (D := D) w command (start s) = plan_phase (D := D) w command inv b s2).
Proof.
  unfold sweep_body, inventoried, gated, mbind, M_bind.
  destruct (inventory_phase w command (start s)) as [s1 [inv|x]]; [right|left; eauto].
  destruct (outage_phase w command inv s1) as [s2 [b|x]] eqn:Ho; [right|left]; repeat eexists; eauto.
Qed.

(** The run is the body, and a transition to FAILED when it raises. *)
Lemma run_cases s :
  (exists s1, sweep_body (D := D) w command (start s) = (s1, Ok ())
     /\ _run_sweep (D := D) w command s = (s1, Ok (_build_result s1.1.1)))
  \/ (exists s1 x s2 r, sweep_body (D := D) w command (start s) = (s1, Raise x)
     /\ _transition_phase (D := D) w command Orch.FAILED ((set_error (exn_str x) s1.1.1, s1.1.2), s1.2) = (s2, r)
     /\ _run_sweep (D := D) w command s
        = (s2, match r with Ok _ => Ok (_build_result s2.1.1) | Raise y => Raise y end)).
Proof.
  unfold _run_sweep, attempt, update, modify, sweep_state, get_state, mbind, M_bind, mret, M_ret.
  cbn [fst snd]. change ((new_sweep_state, s.1.2), s.2) with (start s).
  destruct (sweep_body w command (start s)) as [s1 [[]|x]]; cbn [fst snd]; [left; eauto|right].
  destruct (_transition_phase w command Orch.FAILED _) as [s2 r] eqn:Ht.
  exists s1, x, s2, r. split_and!; [done|done|]. by destruct r.
Qed.

Definition extends (s s' : (_SweepState * option D) * log) (P : effect -> Prop) : Prop :=
  exists l, s'.2 = s.2 ++ l /\ Forall P l.
Lemma extends_trans s1 s2 s3 P : extends s1 s2 P -> extends s2 s3 P -> extends s1 s3 P.
Proof.
  intros (l1 & H1 & HP1) (l2 & H2 & HP2). exists (l1 ++ l2).
  rewrite H2, H1, app_assoc. split; [done|by apply Forall_app].
Qed.
Lemma emits_extends {T} P (m : Act T) s s' r : emits P m -> m s = (s', r) -> extends s s' P.
Proof. intros Hm Hs. destruct (emits_run P m s Hm) as (l & Hl & HP). rewrite Hs in Hl. by exists l. Qed.

Lemma run_extends s s1 r P :
  (forall t, P (PhaseRecorded t)) -> (forall f t, P (PhasePublished f t)) ->
  sweep_body (D := D) w command (start s) = (s1, r) -> extends s s1 P ->
  extends s (_run_sweep (D := D) w command s).1 P.
Proof.
  intros HP1 HP2 Hb He. destruct (run_cases s) as [(s1' & Hb' & ->)|(s1' & x & s2 & r' & Hb' & Ht & ->)];
    rewrite Hb in Hb'; injection Hb' as <- _; cbn [fst]; [done|].
  eapply extends_trans; [exact He|].
  assert (emits P (_transition_phase (D := D) w command Orch.FAILED)) as Hq.
  { unfold _transition_phase, sweep_state, update. emits_auto. }
  exact (emits_extends P _ _ _ _ Hq Ht).
Qed.

(** *** Which pull requests are merged *)

(** Only [Q]-merges, with the stall remediation of the breaker's phase. *)
Definition merges_only (Q : ModelPrMergeCommand -> Prop) (e : effect) : Prop :=
  match e with MergeCalled c => Q c | _ => True end.
Lemma only_merges_only Q e : only_merges Q e -> merges_only Q e.
Proof. by destruct e. Qed.
Lemma outage_no_merge Q inv : emits (merges_only Q) (outage_phase (D := D) w command inv).
Proof.
  unfold outage_phase, _apply_outage_breaker, withhold, _remediate_stalled_queue_prs, remediate_entry,
    _record_ledger_event, sweep_state, update. emits_auto.
Qed.

Lemma extends_weaken s s' P Q : extends s s' P -> (forall e, P e -> Q e) -> extends s s' Q.
Proof. intros (l & Hl & HP) HPQ. exists l. split; [done|]. by eapply Forall_impl. Qed.
Lemma quiet_extends s s' Q : extends s s' quiet -> extends s s' (merges_only Q).
Proof. intros He. eapply extends_weaken; [exact He|]. intros e Hq. by apply only_merges_only, quiet_only_merges. Qed.
Lemma inventory_extends s s1 r :
  inventory_phase (D := D) w command (start s) = (s1, r) -> extends s s1 quiet.
Proof. intros Hi. exact (emits_extends _ _ _ _ _ inventory_quiet Hi). Qed.
Lemma body_extends_merges s s1 r :
  sweep_body (D := D) w command (start s) = (s1, r) ->
  extends s s1 (merges_only (fun c => exists s1 inv s2, inventoried s s1 inv /\ gated s1 inv s2 false
                                      /\ merge_safe inv c)).
Proof.
  set (Q := fun c => exists s1, _). intros Hb.
  destruct (body_cases s) as [(s1' & x & Hi & Hb')|[(s1' & inv & s2 & x & Hi & Ho & Hb')|
    (s1' & inv & s2 & b & Hi & Ho & Hb')]]; rewrite Hb in Hb'.
  - injection Hb' as <- _. by eapply quiet_extends, inventory_extends.
  - injection Hb' as <- _. eapply extends_trans; [by eapply quiet_extends, inventory_extends|].
    exact (emits_extends _ _ _ _ _ (outage_no_merge Q inv) Ho).
  - eapply extends_trans; [by eapply quiet_extends, inventory_extends|].
    eapply extends_trans; [exact (emits_extends _ _ _ _ _ (outage_no_merge Q inv) Ho)|].
    assert (emits (merges_only Q) (plan_phase (D := D) w command inv b)) as Hp.
    { destruct b; [eapply emits_weaken; [apply plan_quiet; auto|intros e He; by apply only_merges_only, quiet_only_merges]|].
      eapply emits_weaken; [apply plan_merges|]. intros []; try done. intros Hm. exists s1', inv, s2. by split_and!. }
    symmetry in Hb'. exact (emits_extends _ _ _ _ _ Hp Hb').
Qed.

(** C1. Every merge a sweep asks for, from whatever state it starts and
    whatever its collaborators answer, is of a pull request this sweep
    inventoried, which triage found GREEN (on the inventoried facts, unless a
    stub is wired in the program's triage's place), which is not a draft, has
    no unresolved review thread, whose merge state is CLEAN and
    whose checks are all green, whose OCC companion was read back as present,
    and which the verification phase, when asked for, did not block; the arm
    policy enforces, its kill switch is off, no outage is active, and the
    sweep is neither a dry run nor restricted to inventory or fixes. *)
Theorem merges_are_safe s :
  exists l, (_run_sweep (D := D) w command s).1.2 = s.2 ++ l
    /\ forall c, MergeCalled c ∈ l ->
         exists s1 inv s2, inventoried s s1 inv /\ gated s1 inv s2 false /\ merge_safe inv c.
Proof.
  destruct (sweep_body w command (start s)) as [s1 r] eqn:Hb.
  destruct (run_extends s s1 r _ (fun _ => Logic.I) (fun _ _ => Logic.I) Hb (body_extends_merges s s1 r Hb))
    as (l & Hl & HP).
  exists l. split; [done|]. intros c Hc. rewrite Forall_forall in HP. exact (HP _ Hc).
Qed.

(** *** How many *)

Lemma plan_wave_cap inv b :
  at_most is_merge (Z.to_nat (c_merge_wave_cap command)) (plan_phase (D := D) w command inv b).
Proof.
  unfold plan_phase. destruct (c_inventory_only command).
  { eapply at_most_weaken; [apply (emits_at_most _ 0), quiet_no_merge, transition_quiet|lia]. }
  apply at_most_0_bind; [apply quiet_no_merge, triage_quiet|]. intros [tres rres].
  apply at_most_0_bind; [apply quiet_no_merge, verify_quiet|]. intros prs.
  destruct (c_dry_run command).
  { eapply at_most_weaken; [apply (emits_at_most _ 0), quiet_no_merge; emits_auto|lia]. }
  apply at_most_0_bind; [apply quiet_no_merge, skip_quiet|]. intros _. unfold act_phase.
  apply at_most_0_bind; [apply quiet_no_merge; unfold withhold; emits_auto|]. intros _.
  apply at_most_bind_0.
  - apply at_most_when. unfold merge_phase.
    apply at_most_0_bind; [apply quiet_no_merge, transition_quiet|]. intros _.
    apply at_most_bind_0; [apply fanout_wave_cap|]. intros mr. apply quiet_no_merge.
    apply emits_bind; [emits_auto|]. intros _. apply emits_bind; [emits_auto|]. intros _.
    apply emits_bind; [emits_auto|]. intros _. apply emits_when. intros _.
    apply emits_bind; [apply prune_quiet|]. intros. emits_auto.
  - intros _. destruct (_ && c_merge_only command); [apply quiet_no_merge, transition_quiet|].
    apply emits_bind; [unfold withhold; emits_auto|]. intros _.
    apply emits_bind; [|intros; apply quiet_no_merge, transition_quiet].
    apply emits_when. intros _. eapply emits_weaken; [apply (fix_no_merge (fun _ => False))|]. by intros [].
Qed.

Lemma run_wave_cap :
  at_most is_merge (Z.to_nat (c_merge_wave_cap command)) (_run_sweep (D := D) w command).
Proof.
  unfold _run_sweep. apply at_most_0_bind; [emits_auto|]. intros _.
  apply at_most_bind_0; [|intros r; apply quiet_no_merge; emits_auto].
  apply at_most_attempt. unfold sweep_body.
  apply at_most_0_bind; [apply quiet_no_merge, inventory_quiet|]. intros inv.
  apply at_most_0_bind; [|intros b; apply plan_wave_cap].
  eapply emits_weaken; [apply (outage_no_merge (fun _ => False))|]. by intros [].
Qed.
(** One sweep asks for at most the wave cap's number of merges. *)
Theorem wave_cap_bounds_merges s :
  exists l, (_run_sweep (D := D) w command s).1.2 = s.2 ++ l
    /\ count is_merge l <= Z.to_nat (c_merge_wave_cap command).
Proof. exact (run_wave_cap s). Qed.

(** *** The runs that change nothing *)

Lemma spec_run {T} A P (m : Act T) B X s s' r :
  spec A P m B X -> A s.1 -> m s = (s', r) ->
  match r with Ok a => B a s'.1 | Raise _ => X s'.1 end.
Proof. intros Hm Hs Hr. destruct (Hm s Hs) as (l & _ & _ & HB). by rewrite Hr in HB. Qed.
Lemma gated_outage s1 inv s2 b : gated s1 inv s2 b -> outage_is b s2.1.
Proof. intros Hg. exact (spec_run _ _ _ _ _ _ _ _ (outage_phase_is inv) Logic.I Hg). Qed.

(** The breaker's verdict reaches the result. *)
Lemma run_outage s s1 inv s2 b r :
  inventoried s s1 inv -> gated s1 inv s2 b -> (_run_sweep (D := D) w command s).2 = Ok r ->
  r_outage_active r = b.
Proof.
  intros Hi Hg Hr.
  destruct (body_cases s) as [(? & ? & Hi' & _)|[(? & ? & ? & ? & Hi' & Hg' & _)|(s1' & inv' & s2' & b' & Hi' & Hg' & Hb)]];
    unfold inventoried, gated in *; rewrite Hi in Hi'; try discriminate Hi'; injection Hi' as <- <-;
    rewrite Hg in Hg'; try discriminate Hg'; injection Hg' as <- <-.
  pose proof (gated_outage _ _ _ _ Hg) as Hout.
  destruct (plan_phase w command inv b s2) as [s3 r3] eqn:Hp.
  assert (outage_is b s3.1) as H3.
  { pose proof (spec_run _ _ _ _ _ _ _ _ (plan_keeps (outage_is b) (outage_is_stable b) (fun _ _ _ _ H => H) inv b)
      Hout Hp) as H3. by destruct r3. }
  destruct (run_cases s) as [(s4 & Hb4 & Hrun)|(s4 & x & s5 & r5 & Hb4 & Ht & Hrun)];
    rewrite Hrun in Hr; cbn [snd] in Hr; rewrite Hb in Hb4; injection Hb4 as <- _.
  - injection Hr as <-. unfold _build_result. destruct (_apply_org_wide_done_gate _). exact H3.
  - assert (outage_is b s5.1) as H5.
    { pose proof (fun Hs => spec_run _ _ _ _ _ _ _ _
        (transition_keeps (outage_is b) (fun _ _ _ _ H => H) Orch.FAILED) Hs Ht) as H5.
      specialize (H5 H3). by destruct r5. }
    destruct r5; [|discriminate Hr]. injection Hr as <-. unfold _build_result.
    destruct (_apply_org_wide_done_gate _). exact H5.
Qed.

Lemma body_extends_quiet s s1 r :
  c_inventory_only command = true \/ c_dry_run command = true ->
  sweep_body (D := D) w command (start s) = (s1, r) -> extends s s1 quiet.
Proof.
  intros Hq Hb.
  assert (emits quiet (sweep_body (D := D) w command)) as Hbody.
  { unfold sweep_body. apply emits_bind; [apply inventory_quiet|]. intros inv.
    apply emits_bind; [by apply outage_quiet|]. intros b. apply plan_quiet. auto. }
  exact (emits_extends _ _ _ _ _ Hbody Hb).
Qed.

Lemma outage_raise_quiet s1 inv s2 x :
  outage_phase (D := D) w command inv s1 = (s2, Raise x) -> extends s1 s2 quiet.
Proof.
  unfold outage_phase, mbind at 1, M_bind at 1. destruct (_apply_outage_breaker w inv s1) as [s' [b|y]] eqn:Hb.
  - intros Hrest. exfalso.
    match type of Hrest with ?m s' = _ =>
      assert (spec (fun _ => True) any m (fun _ _ => True) (fun _ => False)) as Hm end.
    { assert (forall f, spec (fun _ => True) any (update (D := D) f) (fun _ _ => True) (fun _ => False)) as Hu.
      { intros f. by apply spec_modify. }
      eapply (spec_bind _ _ _ _ (fun _ _ => True)); [|intros ?; by apply spec_ret].
      destruct b; [unfold withhold; by apply spec_when|]. unfold _remediate_stalled_queue_prs.
      destruct (negb (truthy _)); [by apply spec_ret|].
      destruct (c_dry_run command || _); [by apply spec_ret|]. destruct (_ || _ || _); [by apply spec_ret|].
      apply spec_for_each. intros entry _. unfold remediate_entry. destruct (_ || _); [by apply spec_ret|].
      eapply (spec_bind _ _ _ _ (fun _ _ => True)); [|intros ?; by apply spec_ret].
      eapply spec_attempt; [|done]. apply emits_spec. unfold _record_ledger_event. emits_auto. }
    exact (spec_run _ _ _ _ _ _ _ _ Hm Logic.I Hrest).
  - intros [= <- <-]. exact (emits_extends _ _ _ _ _ (breaker_quiet inv) Hb).
Qed.

Lemma outage_verdict_quiet inv s1 s2 :
  gated s1 inv s2 true -> extends s1 s2 quiet.
Proof.
  unfold gated, outage_phase, mbind at 1, M_bind at 1.
  destruct (_apply_outage_breaker w inv s1) as [s' [b|y]] eqn:Hb; [|done]. intros Hrest.
  eapply extends_trans; [exact (emits_extends _ _ _ _ _ (breaker_quiet inv) Hb)|].
  destruct b.
  - refine (emits_extends _ _ _ _ _ _ Hrest). unfold withhold. emits_auto.
  - exfalso. pose proof (spec_run _ _ _ _ _ _ _ _ (outage_rest_keeps (fun _ => True)
      ltac:(by repeat split) inv false) Logic.I Hrest) as [Hf _]. discriminate Hf.
Qed.

Lemma body_quiet_outage s s1 rb r :
  sweep_body (D := D) w command (start s) = (s1, rb) ->
  (_run_sweep (D := D) w command s).2 = Ok r -> r_outage_active r = true -> extends s s1 quiet.
Proof.
  intros Hb Hr Hout.
  destruct (body_cases s) as [(s1' & x & Hi & Hb')|[(s1' & inv & s2 & x & Hi & Ho & Hb')|
    (s1' & inv & s2 & b & Hi & Ho & Hb')]]; rewrite Hb in Hb'.
  - injection Hb' as <- _. by eapply inventory_extends.
  - injection Hb' as <- _. eapply extends_trans; [by eapply inventory_extends|]. by eapply outage_raise_quiet.
  - assert (b = true) as ->. { by rewrite <- Hout, (run_outage _ _ _ _ _ _ Hi Ho Hr). }
    eapply extends_trans; [by eapply inventory_extends|].
    eapply extends_trans; [by eapply outage_verdict_quiet|]. symmetry in Hb'.
    refine (emits_extends _ _ _ _ _ _ Hb'). apply plan_quiet. auto.
Qed.

(** Without an enforcing policy only fixes are left. *)
Definition fixes_only (e : effect) : Prop := mutating e = true -> exists c, e = FixCalled c.
Lemma unenforced_fixes_only :
  c_action_mode command <> ENFORCE \/ c_merge_queue_mutation_kill_switch command = true ->
  emits fixes_only (sweep_body (D := D) w command).
Proof.
  intros Hpol. assert (forall T (m : Act T), emits quiet m -> emits fixes_only m) as Hq.
  { intros T m Hm. eapply emits_weaken; [exact Hm|]. intros e He Hmut. unfold quiet in He. congruence. }
  unfold sweep_body. apply emits_bind; [apply Hq, inventory_quiet|]. intros inv.
  apply emits_bind.
  - unfold outage_phase. apply emits_bind; [apply Hq, breaker_quiet|]. intros b.
    apply emits_bind; [|intros; emits_auto].
    destruct b; [apply Hq; unfold withhold; emits_auto|]. unfold _remediate_stalled_queue_prs.
    destruct (negb (truthy _)); [emits_auto|]. destruct (c_dry_run command || _); [emits_auto|].
    replace (negb (bool_decide (c_action_mode command = ENFORCE))
             || c_merge_queue_mutation_kill_switch command) with true; [cbn [orb]; emits_auto|].
    destruct Hpol as [Hpol | ->]; [by rewrite bool_decide_eq_false_2|by rewrite orb_true_r].
  - intros b. destruct b; [apply Hq, plan_quiet; auto|].
    eapply emits_weaken; [apply plan_merges|]. intros []; try done; intros Hm.
    + exfalso. destruct Hm as (H1 & H2 & _). rewrite H2 in Hpol. by destruct Hpol.
    + intros _. eauto.
Qed.

(** C30. A dry run, an inventory-only run and a sweep that reports an active
    outage call no merge, no fix and no stall remediation.  A sweep whose
    policy does not enforce, or whose kill switch is on, calls no merge and
    no remediation. *)
Theorem withheld_mutations s :
  exists l, (_run_sweep (D := D) w command s).1.2 = s.2 ++ l
    /\ (c_inventory_only command = true \/ c_dry_run command = true
        \/ (exists r, (_run_sweep (D := D) w command s).2 = Ok r /\ r_outage_active r = true) ->
        Forall quiet l)
    /\ (c_action_mode command <> ENFORCE \/ c_merge_queue_mutation_kill_switch command = true ->
        Forall fixes_only l).
Proof.
  destruct (sweep_body w command (start s)) as [s1 rb] eqn:Hb.
  destruct (run_extends s s1 rb _ (fun _ => Logic.I) (fun _ _ => Logic.I) Hb (body_extends_merges s s1 rb Hb))
    as (l & Hl & _).
  assert (forall P, (forall t, P (PhaseRecorded t)) -> (forall f t, P (PhasePublished f t)) ->
            extends s s1 P -> Forall P l) as Hall.
  { intros P H1 H2 He. destruct (run_extends s s1 rb P H1 H2 Hb He) as (l' & Hl' & HP).
    rewrite Hl in Hl'. by apply app_inv_head in Hl' as ->. }
  exists l. split_and!; [done| |]; intros Hc; apply Hall; try done.
  - destruct Hc as [?|[?|(r & Hr & Hout)]]; [eapply body_extends_quiet; eauto..|].
    by eapply body_quiet_outage.
  - exact (emits_extends _ _ _ _ _ (unenforced_fixes_only Hc) Hb).
Qed.

(** *** Phases *)

Lemma failed_legal : spec (fun _ => True) legal (_transition_phase (D := D) w command Orch.FAILED)
  (fun _ => at_state Orch.FAILED) (fun _ => True).
Proof.
  intros s _. set (p := sw_phase s.1.1).
  unfold _transition_phase, sweep_state, update, emit,
    call, ask, when, modify, get_state, mbind, M_bind, mret, M_ret. cbn [fst snd].
  destruct (negb _); cbn [fst snd]; destruct (w_publish _ _ _); cbn [fst snd];
    eexists; rewrite <- ?app_assoc; (split; [reflexivity|]); (split; [|done]);
    cbn [app]; repeat (apply List.Forall_cons); try apply List.Forall_nil; try done.
  all: cbn; by destruct (sw_phase s.1.1).
Qed.

Lemma body_legal_run s s1 r :
  sweep_body (D := D) w command (start s) = (s1, r) ->
  extends s s1 legal /\ (r = Ok () -> at_state Orch.COMPLETE s1.1).
Proof.
  intros Hb. assert (at_state Orch.IDLE (start s).1) as H0 by done.
  destruct (body_legal (start s) H0) as (l & Hl & HP & HB). rewrite Hb in Hl, HB. split.
  - by exists l.
  - intros ->. exact HB.
Qed.

Definition no_error (s : _SweepState * option D) : Prop := sw_error_message s.1 = None.
Lemma no_error_stable : stable no_error.
Proof. done. Qed.
(** The census the final gate reads is the collected one. *)
Definition census_known (s : _SweepState * option D) : Prop :=
  match w_census w with
  | None => sw_org_wide_open s.1 = None
  | Some collect => exists l c, collect l = Ok c /\ sw_org_wide_open s.1 = Some c
  end.
Lemma census_known_stable : stable census_known.
Proof. done. Qed.

Lemma inventory_fields :
  spec (fun s => no_error s /\ sw_org_wide_open s.1 = None) any (inventory_phase (D := D) w command)
    (fun _ s => no_error s /\ census_known s) (fun _ => True).
Proof.
  unfold inventory_phase.
  set (I0 := fun s : _SweepState * option D => no_error s /\ sw_org_wide_open s.1 = None).
  assert (stable I0) as HI0 by done.
  eapply spec_bind; [apply keeps_to, (transition_keeps I0); done|]. intros ?.
  eapply spec_bind; [apply keeps_to, (inventory_rest_keeps I0 any); eauto using any_not_phase|]. intros inv.
  eapply (spec_bind _ _ _ _ (fun _ => I0)); [by apply spec_modify|]. intros ?.
  eapply (spec_bind _ _ _ _ (fun c s => I0 s /\ match w_census w with None => c = None
    | Some collect => exists l x, collect l = Ok x /\ c = Some x end)).
  - unfold _collect_org_wide_open_prs. destruct (w_census w) as [collect|]; [|by apply spec_ret].
    eapply (spec_bind _ _ _ _ (fun x s => I0 s /\ exists l, collect l = Ok x)).
    + apply spec_call; [done| |done]. eauto.
    + intros c. apply spec_ret. naive_solver.
  - intros c.
    eapply (spec_bind _ _ _ _ (fun _ s => no_error s /\ census_known s)).
    + apply spec_modify. intros [s d] [[He _] Hc]. split; [exact He|]. unfold census_known.
      destruct (w_census w); cbn; naive_solver.
    + intros ?. set (I1 := fun s => no_error s /\ census_known s). assert (stable I1) as HI1 by done.
      eapply spec_bind; [apply keeps_to|intros ?; apply spec_ret; by intros s Hs].
      apply keeps_for_each. intros pr _. apply keeps_bind; [apply sweep_state_keeps|]. intros s.
      by apply record_keeps.
Qed.

Lemma body_fields :
  spec (fun s => no_error s /\ sw_org_wide_open s.1 = None) any (sweep_body (D := D) w command)
    (fun _ s => no_error s /\ census_known s) (fun _ => True).
Proof.
  set (I1 := fun s => no_error s /\ census_known s). assert (stable I1) as HI1 by done.
  unfold sweep_body. eapply spec_bind; [apply inventory_fields|]. intros inv.
  eapply (spec_bind _ _ _ _ (fun _ => I1)).
  - apply keeps_to. unfold outage_phase. apply keeps_bind; [by apply breaker_keeps|].
    intros b. eapply spec_weaken; [apply (outage_rest_keeps I1 HI1)|done..| |done]. by intros a s [_ Hs].
  - intros b. by apply keeps_to, plan_keeps.
Qed.

Lemma body_fields_run s s1 r :
  sweep_body (D := D) w command (start s) = (s1, Ok r) -> no_error s1.1 /\ census_known s1.1.
Proof.
  intros Hb. assert (no_error (start s).1 /\ sw_org_wide_open (start s).1.1 = None) as H0 by done.
  exact (spec_run _ _ _ _ _ _ _ _ body_fields H0 Hb).
Qed.

Lemma run_ends s :
  match (_run_sweep (D := D) w command s).2 with
  | Ok r => let s' := (_run_sweep (D := D) w command s).1.1 in
            r = _build_result s'.1
            /\ ((at_state Orch.COMPLETE s' /\ no_error s' /\ census_known s')
                \/ (at_state Orch.FAILED s' /\ exists x, sw_error_message s'.1 = Some (exn_str x)))
  | Raise _ => True
  end.
Proof.
  destruct (run_cases s) as [(s1 & Hb & ->)|(s1 & x & s2 & r & Hb & Ht & ->)]; cbn [fst snd];
    destruct (body_legal_run _ _ _ Hb) as [_ Hat].
  - split; [done|]. left. split; [by apply Hat|]. by eapply body_fields_run.
  - destruct r as [[]|]; [|done]. split; [done|]. right. split.
    + exact (spec_run _ _ _ _ _ _ _ _ failed_legal Logic.I Ht).
    + exists x. pose (I := fun s : _SweepState * option D => sw_error_message s.1 = Some (exn_str x)).
      assert (I (set_error (exn_str x) s1.1.1, s1.1.2)) as H0 by done.
      exact (spec_run _ _ _ _ _ ((set_error (exn_str x) s1.1.1, s1.1.2), s1.2) _ _
        (transition_keeps I (fun _ _ _ _ H => H) Orch.FAILED) H0 Ht).
Qed.
Lemma build_error s : r_error_message (_build_result s) = sw_error_message s.
Proof. unfold _build_result. by destruct (_apply_org_wide_done_gate _). Qed.

(** Every phase transition a sweep records is one the ledger store
    declares legal, whatever raises on the way, so the store never rejects
    it; and the sweep, when it returns, is in COMPLETE without an error or in
    FAILED with an exception's text. *)
Theorem phases_legal s :
  exists l, (_run_sweep (D := D) w command s).1.2 = s.2 ++ l /\ Forall legal l
  /\ match (_run_sweep (D := D) w command s).2 with
     | Ok r => let q := sw_fsm (_run_sweep (D := D) w command s).1.1.1 in
               (q = Orch.COMPLETE /\ r_error_message r = None)
               \/ (q = Orch.FAILED /\ exists x, r_error_message r = Some (exn_str x))
     | Raise _ => True
     end.
Proof.
  destruct (sweep_body w command (start s)) as [s1 rb] eqn:Hb.
  destruct (body_legal_run _ _ _ Hb) as [He _].
  assert (extends s (_run_sweep (D := D) w command s).1 legal) as (l & Hl & HP).
  { destruct (run_cases s) as [(s1' & Hb' & ->)|(s1' & x & s2 & r & Hb' & Ht & ->)];
      rewrite Hb in Hb'; injection Hb' as <- _; cbn [fst]; [done|].
    eapply extends_trans; [exact He|].
    destruct (failed_legal ((set_error (exn_str x) s1.1.1, s1.1.2), s1.2) Logic.I) as (l' & Hl' & HP' & _).
    rewrite Ht in Hl'. by exists l'. }
  exists l. split_and!; [done..|]. pose proof (run_ends s) as Hend.
  destruct (_run_sweep w command s) as [s' [r|]]; [|done]. cbn [fst snd] in *.
  destruct Hend as [-> Hend]. rewrite build_error. destruct Hend as [([Hq _] & Hn & _)|([Hq _] & x & Hx)]; eauto.
Qed.

(** No census is wired, or the one collected says the organisation is done. *)
Definition census_done : Prop :=
  match w_census w with
  | None => True
  | Some collect => exists l c, collect l = Ok c /\ sweep_done c = true
  end.

(** The final state a sweep reports: COMPLETE only when no org-wide
    census is wired or the census this sweep collected says the organisation
    is done; NOT_DONE, with the census's remainders, when it says otherwise;
    FAILED exactly with an error message. *)
Theorem done_gate s :
  match (_run_sweep (D := D) w command s).2 with
  | Raise _ => True
  | Ok r =>
      (r_final_state r = "COMPLETE" /\ r_error_message r = None /\ census_done)
      \/ (r_final_state r = "NOT_DONE" /\ r_error_message r = None
         /\ exists collect l c, w_census w = Some collect /\ collect l = Ok c /\ sweep_done c = false
            /\ r_org_wide_open_remainders r = ow_remainders c)
      \/ (r_final_state r = "FAILED" /\ r_error_message r <> None /\ r_org_wide_open_remainders r = [])
  end.
Proof.
  pose proof (run_ends s) as Hend. destruct (_run_sweep w command s) as [s' [r|]]; [|done]. cbn [fst snd] in *.
  destruct Hend as [-> Hend]. rewrite build_error. unfold _build_result, _apply_org_wide_done_gate.
  destruct Hend as [([Hq _] & Hn & Hc)|([Hq _] & x & Hx)]; rewrite Hq; cbn [negb].
  - rewrite bool_decide_eq_true_2 by done. cbn [negb]. unfold census_known in Hc. unfold census_done.
    destruct (w_census w) as [collect|] eqn:Hw.
    + destruct Hc as (l & c & Hl & Ho). rewrite Ho. destruct (sweep_done c) eqn:Hd; cbn.
      * left. naive_solver.
      * right; left. split_and!; [done..|]. by exists collect, l, c.
    + rewrite Hc. cbn. by left.
  - right; right. rewrite bool_decide_eq_false_2 by done. cbn. by rewrite Hx.
Qed.

(** *** The loop *)

Lemma loop_merge_cap left :
  at_most is_merge (left * Z.to_nat (c_merge_wave_cap command)) (sweep_loop (D := D) w command left).
Proof.
  induction left as [|left IH]; cbn [sweep_loop]; [apply emits_at_most; emits_auto|].
  apply (at_most_bind _ (Z.to_nat (c_merge_wave_cap command))); [apply run_wave_cap|]. intros r.
  destruct (negb _); [eapply at_most_weaken; [apply (emits_at_most _ 0); emits_auto|lia]|].
  destruct (_ || _); [eapply at_most_weaken; [apply (emits_at_most _ 0); emits_auto|lia]|].
  apply at_most_bind_0; [exact IH|]. intros [[]|]; emits_auto.
Qed.

(** Without an enforcing policy no pass of the loop calls a merge. *)
Lemma unenforced_no_merge :
  c_action_mode command <> ENFORCE \/ c_merge_queue_mutation_kill_switch command = true ->
  emits (fun e => is_merge e = false) (handle (D := D) w command).
Proof.
  intros Hpol. assert (emits (fun e => is_merge e = false) (_run_sweep (D := D) w command)) as Hrun.
  { unfold _run_sweep. apply emits_bind; [emits_auto|]. intros _. apply emits_bind.
    - apply emits_attempt. eapply emits_weaken; [by apply unenforced_fixes_only|].
      intros [] He; try done. unfold fixes_only in He. by destruct He.
    - intros r. apply emits_bind; [|intros; emits_auto].
      destruct r; [emits_auto|]. apply emits_bind; [emits_auto|]. intros _.
      eapply emits_weaken; [apply transition_quiet|apply quiet_not_merge]. }
  unfold handle. apply emits_bind; [|intros []; emits_auto].
  induction (c_max_sweep_passes command) as [|left IH]; cbn [sweep_loop]; [emits_auto|].
  apply emits_bind; [exact Hrun|]. intros r.
  destruct (negb _); [emits_auto|]. destruct (_ || _); [emits_auto|].
  apply emits_bind; [exact IH|]. intros; emits_auto.
Qed.

(** Why the loop stopped after [n] passes of at most [max]. *)
Definition stopped (max n : nat) (r : ModelPrLifecycleResult) : Prop :=
  r_final_state r <> _FINAL_STATE_NOT_DONE
  \/ n = max \/ c_loop_until_done command = false \/ c_dry_run command = true
  \/ c_inventory_only command = true \/ _should_continue_sweep_loop r = false.

Lemma loop_stops left s :
  match (sweep_loop (D := D) w command left s).2 with
  | Ok None => left = 0
  | Ok (Some (r, n)) => 1 <= n <= left /\ stopped left n r
  | Raise _ => True
  end.
Proof.
  revert s. induction left as [|left IH]; intros s; [done|]. cbn [sweep_loop]. unfold mbind at 1, M_bind at 1.
  destruct (_run_sweep w command s) as [s1 [r|]]; [|done].
  destruct (String.eqb_spec (r_final_state r) _FINAL_STATE_NOT_DONE) as [Hr|Hr]; cbn [negb];
    [|cbn; unfold stopped; split; [lia|by left]].
  destruct (_ || _) eqn:Hstop.
  - cbn. split; [lia|]. unfold stopped. rewrite !orb_true_iff, !negb_true_iff in Hstop.
    destruct Hstop as [[[[Hl|Hd]|Hi]|Hc]|Hz]; [by auto 7..|]. apply Nat.eqb_eq in Hz. right; left. lia.
  - rewrite !orb_false_iff in Hstop. destruct Hstop as [_ Hz]. apply Nat.eqb_neq in Hz.
    specialize (IH s1). unfold mbind, M_bind. destruct (sweep_loop w command left s1) as [s2 [[[r' n]|]|]];
      cbn in *; [|lia|done].
    split; [lia|]. unfold stopped in *. destruct IH as [_ IH]. intuition lia.
Qed.

(** C35. The loop of sweeps ends: after between one and [max_sweep_passes]
    passes, of which it stops short only when a pass is not NOT_DONE, makes
    no progress, or the command asks for no loop; it never fails the
    assertion that a pass has run; and all its passes together ask for at
    most [max_sweep_passes] times the wave cap merges. *)
Theorem loop_bounded s :
  1 <= c_max_sweep_passes command ->
  match (handle (D := D) w command s).2 with
  | Ok (r, n) => 1 <= n <= c_max_sweep_passes command /\ stopped (c_max_sweep_passes command) n r
  | Raise x => (sweep_loop (D := D) w command (c_max_sweep_passes command) s).2 = Raise x
  end
  /\ exists l, (handle (D := D) w command s).1.2 = s.2 ++ l
       /\ count is_merge l <= c_max_sweep_passes command * Z.to_nat (c_merge_wave_cap command).
Proof.
  intros Hmax. split.
  - pose proof (loop_stops (c_max_sweep_passes command) s) as Hs. unfold handle, mbind, M_bind.
    destruct (sweep_loop w command _ s) as [s' [[[r n]|]|]]; cbn in *; [done|lia|done].
  - assert (at_most is_merge (c_max_sweep_passes command * Z.to_nat (c_merge_wave_cap command))
      (handle (D := D) w command)) as Hc; [|exact (Hc s)].
    unfold handle. apply at_most_bind_0; [apply loop_merge_cap|]. intros [[]|]; emits_auto.
Qed.
End properties.

(** ** A concrete sweep *)

Definition demo_state : ModelPrState :=
  {| ps_repo := "OmniNode-ai/omnibase"; ps_pr_number := 7; ps_title := "OMN-12 tidy"; ps_is_draft := false;
     ps_merge_state_status := Some "CLEAN"; ps_review_decision := Some "APPROVED"; ps_head_ref := "tidy";
     ps_check_runs := []; ps_has_conflicts := false; ps_ci_passing := Some true;
     ps_coderabbit_unresolved := Some 0%Z |}.
(** One repository with one clean, approved, green pull request; every call succeeds. *)
Definition demo_world : World :=
  {| w_now := fun _ => "2026-01-01T00:00:00+00:00"; w_wall := fun _ => 0%Z;
     w_repos := fun _ => ["OmniNode-ai/omnibase"]; w_open_prs := fun _ _ => [7%Z];
     w_inventory := fun _ _ _ => Ok (Collected {| pio_pr_states := [demo_state]; pio_stuck_queue_prs := [] |});
     w_triage_stub := None;
     w_census := None; w_recovery_probe := None; w_stall := fun _ _ _ => Ok ();
     w_sha256_12 := fun _ => "0123456789ab"; w_occ_merge_sha := EmptyString; w_changed_files := fun _ _ _ => Some [];
     w_runtime_failed := fun _ => Ok 0%Z; w_verify := fun _ => Verdict true;
     w_readback := fun _ _ _ _ => Ok true;
     w_merge := fun _ _ => Ok {| mres_merged := true; mres_error := None |};
     w_prune := None; w_fix := fun _ _ => Raise (RuntimeError "no fixer"); w_publish := fun _ _ => Ok () |}.
Definition demo_command (mode : EnumArmActionMode) (kill_switch : bool) : ModelPrLifecycleStartCommand :=
  {| c_correlation_id := "c"; c_run_id := "r"; c_dry_run := false; c_inventory_only := false;
     c_fix_only := false; c_merge_only := false; c_repos := "OmniNode-ai/omnibase"; c_verify := false;
     c_loop_until_done := false; c_max_sweep_passes := 1; c_action_mode := mode;
     c_merge_queue_mutation_kill_switch := kill_switch; c_merge_wave_cap := 5; c_enable_stall_remediation := false |}.
Definition demo_run (mode : EnumArmActionMode) (kill_switch : bool) :=
  _run_sweep (D := InmemoryDatabaseAdapter) demo_world (demo_command mode kill_switch)
    ((new_sweep_state, None), []).
Definition demo_log (mode : EnumArmActionMode) (kill_switch : bool) : log := (demo_run mode kill_switch).1.2.
Definition concluded_merged (e : effect) : bool :=
  match e with
  | LedgerEvent ev => bool_decide (LedgerNative.conclusion ev = Some LedgerConclusion.MERGED)
  | _ => false
  end.

(** An enforcing sweep does merge the pull request ([merges_are_safe] is not vacuous). *)
Example enforced_sweep_merges : count is_merge (demo_log ENFORCE false) = 1.
Proof. reflexivity. Qed.

(** Under the default policy the arm gate withholds every merge, but the
    ledger still concludes MERGED for the pull request: the conclusion is
    recorded for every designated pull request, merged or not. *)
Remark withheld_merges_concluded_merged :
  count is_merge (demo_log REPORT_ONLY true) = 0 /\ count concluded_merged (demo_log REPORT_ONLY true) = 1.
Proof. split; reflexivity. Qed.

Lemma loop_bounded_witness :
  1 <= c_max_sweep_passes (demo_command ENFORCE false)
  /\ exists l, (handle (D := InmemoryDatabaseAdapter) demo_world (demo_command ENFORCE false)
                 ((new_sweep_state, None), [])).1.2 = [] ++ l /\ count is_merge l <= 5.
Proof.
  split; [vm_compute; lia|].
  apply (loop_bounded (D := InmemoryDatabaseAdapter) demo_world (demo_command ENFORCE false) ((new_sweep_state, None), [])).
  vm_compute; lia.
Defined.
