(* ===== verification/SweepTracks.v ===== *)
(** * Merge sweep: classification of the open pull requests

    [node_merge_sweep_compute]: the models and the classifier of
    [handlers/handler_merge_sweep.py] (the tracks, the cap on merges, the
    failure-history escalation, the ordering of Track A by a run of the PR
    lifecycle orchestrator with stub collaborators), the branch-protection
    cache, and the two entry points that build a request from what GitHub
    answers: the Kafka consumer ([consumer.py]) and the command line
    ([__main__.py]). *)
From S2P Require Import Prelude PyJson LogMonad PrModels MergeControl Triage PrLedger LedgerNative PrRouting PrSweep.

(** ** Data *)

Module Track.
Inductive EnumPRTrack : Type := A_UPDATE | A_MERGE | A_RESOLVE | B_POLISH | SKIP.
#[export] Instance EnumPRTrack_eq_dec : EqDecision EnumPRTrack.
Proof. solve_decision. Defined.
End Track.
Export (hints) Track.
Abbreviation EnumPRTrack := Track.EnumPRTrack.

Module FailureCategory.
Inductive EnumFailureCategory : Type :=
  | CI_TEST | CI_LINT | CI_GATE | PR_TITLE | CONFLICT | CHANGES_REQUESTED | THREADS_BLOCKED
  | BRANCH_STALE | SCAN_FAILED | POLISH_FAILED | NEEDS_HUMAN.
Definition value (c : EnumFailureCategory) : string :=
  match c with
  | CI_TEST => "ci_test"
  | CI_LINT => "ci_lint"
  | CI_GATE => "ci_gate"
  | PR_TITLE => "pr_title"
  | CONFLICT => "conflict"
  | CHANGES_REQUESTED => "changes_requested"
  | THREADS_BLOCKED => "threads_blocked"
  | BRANCH_STALE => "branch_stale"
  | SCAN_FAILED => "scan_failed"
  | POLISH_FAILED => "polish_failed"
  | NEEDS_HUMAN => "needs_human"
  end.
End FailureCategory.

Record ModelPRInfo := {
  pi_number : Z;
  pi_title : string;
  pi_repo : string;
  pi_mergeable : string;
  pi_merge_state_status : string;
  pi_is_draft : bool;
  pi_review_decision : option string;
  pi_required_checks_pass : bool;
  pi_required_checks_failed : bool;
  pi_required_checks_pending : bool;
  pi_labels : list string;
  pi_review_bot_gate_passed : option bool;
  pi_required_approving_review_count : option Z;
  pi_head_sha : option string;
  pi_pr_node_id : option string;
  pi_head_ref_name : option string;
  pi_base_ref_name : option string;
  pi_failing_run_id_github : option string;
  pi_failing_job_name : option string;
  pi_open_thread_comment_ids : list string;
  pi_changed_file_paths : list string
}.

#[export] Instance ModelPRInfo_eta : Eta ModelPRInfo :=
  fun r => Build_ModelPRInfo (pi_number r) (pi_title r) (pi_repo r) (pi_mergeable r) (pi_merge_state_status r)
    (pi_is_draft r) (pi_review_decision r) (pi_required_checks_pass r) (pi_required_checks_failed r)
    (pi_required_checks_pending r) (pi_labels r) (pi_review_bot_gate_passed r) (pi_required_approving_review_count r)
    (pi_head_sha r) (pi_pr_node_id r) (pi_head_ref_name r) (pi_base_ref_name r) (pi_failing_run_id_github r)
    (pi_failing_job_name r) (pi_open_thread_comment_ids r) (pi_changed_file_paths r).

Record ModelClassifiedPR := {
  cp_pr : ModelPRInfo;
  cp_track : EnumPRTrack;
  cp_reason : string;
  cp_failure_categories : list string
}.

Record ModelFailureHistoryEntry := {
  fh_first_seen : string;
  fh_last_seen : string;
  fh_consecutive_failures : Z;
  fh_total_failures : Z;
  fh_total_polishes : Z;
  fh_last_failure_categories : list string;
  fh_last_result : option string;
  fh_last_run_id : option string;
  fh_runs_seen : list string
}.

Record ModelFailureHistorySummary := {
  hs_total_tracked : Z;
  hs_stuck_prs : Z;
  hs_chronic_prs : Z;
  hs_recidivist_prs : Z;
  hs_cleaned_merged : Z
}.

Record ModelMergeSweepRequest := {
  ms_prs : list ModelPRInfo;
  ms_require_approval : bool;
  ms_merge_method : string;
  ms_max_total_merges : Z;
  ms_skip_polish : bool;
  ms_failure_history : gmap string ModelFailureHistoryEntry;
  ms_run_id : string;
  ms_use_lifecycle_ordering : bool
}.

Record ModelMergeSweepResult := {
  sr_classified : list ModelClassifiedPR;
  sr_status : string;
  sr_failure_history_summary : ModelFailureHistorySummary
}.

Definition on_track (t : EnumPRTrack) (c : ModelClassifiedPR) : bool := bool_decide (cp_track c = t).
(** The properties [track_a_update], [track_a_merge], [track_a_resolve],
    [track_b_polish] and [skipped] of the result. *)
Definition track_prs (t : EnumPRTrack) (r : ModelMergeSweepResult) : list ModelClassifiedPR :=
  filter (fun c => on_track t c = true) (sr_classified r).

(** ** The classifier *)

Definition _checks_failed (pr : ModelPRInfo) : bool := pi_required_checks_failed pr.

Definition _needs_branch_update (pr : ModelPRInfo) : bool :=
  if String.eqb (pi_mergeable pr) "MERGEABLE" then
    str_in (py_upper (pi_merge_state_status pr)) ["BEHIND"; "UNKNOWN"]
  else String.eqb (pi_mergeable pr) "UNKNOWN".

(** [count in (0, None)] *)
Definition zero_or_none (n : option Z) : bool := match n with None => true | Some k => Z.eqb k 0 end.

Definition _is_merge_ready (pr : ModelPRInfo) (require_approval : bool) : bool :=
  if negb (String.eqb (pi_mergeable pr) "MERGEABLE") then false
  else if bool_decide (pi_review_bot_gate_passed pr = Some false) then false
  else if String.eqb (py_upper (pi_merge_state_status pr)) "BLOCKED" then false
  else if negb (pi_required_checks_pass pr) then false
  else if require_approval then
    if bool_decide (pi_review_decision pr = Some "CHANGES_REQUESTED") then false
    else if bool_decide (pi_review_decision pr = Some "APPROVED") then true
    else zero_or_none (pi_required_approving_review_count pr)
  else true.

Definition _needs_thread_resolution (pr : ModelPRInfo) : bool :=
  if negb (String.eqb (pi_mergeable pr) "MERGEABLE") then false
  else if bool_decide (pi_review_bot_gate_passed pr = Some false) then true
  else if negb (String.eqb (py_upper (pi_merge_state_status pr)) "BLOCKED") then false
  else pi_required_checks_pass pr.

Definition _needs_polish (pr : ModelPRInfo) (require_approval : bool) : bool :=
  if String.eqb (pi_mergeable pr) "UNKNOWN" then false
  else if _is_merge_ready pr require_approval then false
  else if String.eqb (pi_mergeable pr) "CONFLICTING" then true
  else if _checks_failed pr then true
  else require_approval && bool_decide (pi_review_decision pr = Some "CHANGES_REQUESTED").

(** The blocking issues of a Track B pull request: (reason, category). *)
Definition polish_parts (pr : ModelPRInfo) (require_approval : bool) : list (string * string) :=
  (if String.eqb (pi_mergeable pr) "CONFLICTING"
   then [("conflicts", FailureCategory.value FailureCategory.CONFLICT)] else [])
  ++ (if _checks_failed pr then [("CI failing", FailureCategory.value FailureCategory.CI_TEST)] else [])
  ++ (if require_approval && bool_decide (pi_review_decision pr = Some "CHANGES_REQUESTED")
      then [("changes requested", FailureCategory.value FailureCategory.CHANGES_REQUESTED)] else []).

Definition _classify_pr (pr : ModelPRInfo) (require_approval : bool) : EnumPRTrack * string * list string :=
  if pi_is_draft pr then (Track.SKIP, "Draft PR", [])
  else if _needs_branch_update pr then
    (Track.A_UPDATE, "Branch stale (" +:+ pi_merge_state_status pr +:+ ")",
     [FailureCategory.value FailureCategory.BRANCH_STALE])
  else if _is_merge_ready pr require_approval then (Track.A_MERGE, "Merge-ready", [])
  else if _needs_thread_resolution pr then
    (Track.A_RESOLVE, "Blocked by unresolved review threads",
     [FailureCategory.value FailureCategory.THREADS_BLOCKED])
  else if _needs_polish pr require_approval then
    (Track.B_POLISH, "Needs polish: " +:+ py_join ", " (polish_parts pr require_approval).*1,
     (polish_parts pr require_approval).*2)
  else (Track.SKIP, "No actionable state", []).

Definition classify_one (require_approval : bool) (pr : ModelPRInfo) : ModelClassifiedPR :=
  let '(track, reason, categories) := _classify_pr pr require_approval in
  {| cp_pr := pr; cp_track := track; cp_reason := reason; cp_failure_categories := categories |}.

(** [c.track = SKIP; c.reason = reason] *)
Definition skip_with (reason : string) (c : ModelClassifiedPR) : ModelClassifiedPR :=
  {| cp_pr := cp_pr c; cp_track := Track.SKIP; cp_reason := reason;
     cp_failure_categories := cp_failure_categories c |}.

(** The cap on Track A: [merge_count] Track A pull requests have been seen. *)
Fixpoint cap_from (cap merge_count : Z) (l : list ModelClassifiedPR) : list ModelClassifiedPR :=
  match l with
  | [] => []
  | c :: l' =>
      if on_track Track.A_MERGE c then
        let merge_count := (merge_count + 1)%Z in
        (if (merge_count >? cap)%Z then skip_with "Exceeds max_total_merges cap" c else c)
          :: cap_from cap merge_count l'
      else c :: cap_from cap merge_count l'
  end.
Definition cap_merges (cap : Z) (l : list ModelClassifiedPR) : list ModelClassifiedPR :=
  if (cap >? 0)%Z then cap_from cap 0 l else l.

Definition drop_polish (skip_polish : bool) (l : list ModelClassifiedPR) : list ModelClassifiedPR :=
  if skip_polish then
    map (fun c => if on_track Track.B_POLISH c then skip_with "Polish skipped (--skip-polish)" c else c) l
  else l.

(** *** Failure history *)

Definition STUCK_THRESHOLD : Z := 3.
Definition CHRONIC_THRESHOLD : Z := 5.
Definition RECIDIVIST_POLISH_THRESHOLD : Z := 3.

Definition is_chronic (e : ModelFailureHistoryEntry) : bool :=
  (fh_consecutive_failures e >=? CHRONIC_THRESHOLD)%Z.
Definition is_recidivist (e : ModelFailureHistoryEntry) : bool :=
  (fh_total_polishes e >=? RECIDIVIST_POLISH_THRESHOLD)%Z && (fh_consecutive_failures e >? 0)%Z.

Definition _should_skip_polish (history : gmap string ModelFailureHistoryEntry) (pr_key : string)
  : bool * option string :=
  match history !! pr_key with
  | None => (false, None)
  | Some entry =>
      if is_chronic entry then
        (true, Some ("CHRONIC: " +:+ pretty (fh_consecutive_failures entry) 
                     +:+ " consecutive failures — skipping polish"))
      else if is_recidivist entry then
        (true, Some ("RECIDIVIST: polished " +:+ pretty (fh_total_polishes entry) 
                     +:+ "x, still failing — skipping polish"))
      else (false, None)
  end.

(** [f"{repo}#{number}"] *)
Definition pr_key (repo : string) (number : Z) : string := repo +:+ "#" +:+ pretty number.
Definition classified_key (c : ModelClassifiedPR) : string * Z := (pi_repo (cp_pr c), pi_number (cp_pr c)).

Definition escalate (history : gmap string ModelFailureHistoryEntry) (c : ModelClassifiedPR) : ModelClassifiedPR :=
  if on_track Track.B_POLISH c then
    let '(skip, skip_reason) := _should_skip_polish history (pr_key (pi_repo (cp_pr c)) (pi_number (cp_pr c))) in
    if (skip : bool) then skip_with (py_opt_or skip_reason "Skipped by failure history") c else c
  else c.

Definition _compute_failure_summary (history : gmap string ModelFailureHistoryEntry)
  : ModelFailureHistorySummary :=
  let entries := (map_to_list history).*2 in
  {| hs_total_tracked := Z.of_nat (size history);
     hs_stuck_prs := Z.of_nat (count (fun e => negb (is_chronic e)
                                               && (fh_consecutive_failures e >=? STUCK_THRESHOLD)%Z) entries);
     hs_chronic_prs := Z.of_nat (count is_chronic entries);
     hs_recidivist_prs := Z.of_nat (count is_recidivist entries);
     hs_cleaned_merged := 0 |}.

(** *** Ordering Track A by a run of the lifecycle orchestrator *)

Definition _review_status (pr : ModelPRInfo) : string :=
  if bool_decide (pi_review_decision pr = Some "CHANGES_REQUESTED") then "changes_requested"
  else if bool_decide (pi_review_decision pr = Some "APPROVED") then "approved"
  else if zero_or_none (pi_required_approving_review_count pr) then "approved"
  else "pending".

Definition pr_record_of (c : ModelClassifiedPR) : PrRecord :=
  {| PrModels.pr_number := pi_number (cp_pr c); pr_repo := pi_repo (cp_pr c); pr_title := pi_title (cp_pr c);
     pr_branch := EmptyString; pr_head_sha := None; pr_ticket_ids := []; pr_checks_status := "success";
     pr_review_status := _review_status (cp_pr c); pr_has_conflicts := false; pr_failed_check_names := [];
     pr_failed_check_flaky_evidence := []; pr_failed_check_reason_codes := [];
     pr_coderabbit_unresolved := Some 0%Z; pr_merge_state_status := None; pr_is_draft := None |}.

Definition triage_record_of (c : ModelClassifiedPR) : TriageRecord :=
  {| tr_pr_number := pi_number (cp_pr c); tr_repo := pi_repo (cp_pr c); tr_category := PrCategory.GREEN;
     tr_ticket_ids := []; tr_failed_check_names := []; tr_failed_check_flaky_evidence := [];
     tr_failed_check_reason_codes := []; tr_block_reason := EmptyString;
     tr_validation_failure_origin := None |}.

(** The world the orchestrator runs in: the pre-built inventory and triage, a
    merge handler that records the command it gets and merges nothing, no
    recovery probe and no census; the rest is whatever it is. *)
Definition prebuilt_world (w : World) (track_a : list ModelClassifiedPR) : World :=
  let records := map pr_record_of track_a in
  let triage := map triage_record_of track_a in
  {| w_now := w_now w; w_wall := w_wall w; w_repos := w_repos w; w_open_prs := w_open_prs w;
     w_inventory := fun _ _ _ => Ok (Prebuilt {| inv_prs := records;
                                                  inv_total_collected := Z.of_nat (length records);
                                                  inv_stuck_queue_prs := [] |});
     w_triage_stub := Some {| ptr_classified := triage; ptr_green_count := Z.of_nat (length triage);
                              ptr_non_green_count := 0 |};
     w_census := None; w_recovery_probe := None; w_stall := w_stall w; w_sha256_12 := w_sha256_12 w;
     w_occ_merge_sha := w_occ_merge_sha w; w_changed_files := w_changed_files w;
     w_runtime_failed := w_runtime_failed w; w_verify := w_verify w; w_readback := w_readback w;
     w_merge := fun _ _ => Ok {| mres_merged := false; mres_error := None |};
     w_prune := w_prune w; w_fix := w_fix w; w_publish := w_publish w |}.

(** [ModelPrLifecycleStartCommand(correlation_id=..., run_id=..., merge_only=True,
    dry_run=False)]: every other field has its declared default. *)
Definition _DEFAULT_STANDING_SWEEP_PASSES : Z := 17520.
Definition ordering_command (correlation_id : string) : ModelPrLifecycleStartCommand :=
  {| c_correlation_id := correlation_id; c_run_id := "merge-sweep-inproc-" +:+ correlation_id;
     c_dry_run := false; c_inventory_only := false; c_fix_only := false; c_merge_only := true;
     c_repos := EmptyString; c_verify := false; c_loop_until_done := true;
     c_max_sweep_passes := Z.to_nat _DEFAULT_STANDING_SWEEP_PASSES;
     c_action_mode := REPORT_ONLY; c_merge_queue_mutation_kill_switch := true; c_merge_wave_cap := 3;
     c_enable_stall_remediation := false |}.

(** [noop_merge.merge_prs] *)
Definition merge_prs_of (l : list effect) : list (string * Z) :=
  omap (fun e => match e with MergeCalled c => Some (mc_repo c, mc_pr_number c) | _ => None end) l.

(** Track A in the order the merge handler was called, then the rest of it. *)
Definition follow_key (pr_lookup : gmap (string * Z) ModelClassifiedPR)
    (acc : list ModelClassifiedPR * gset (string * Z)) (key : string * Z)
  : list ModelClassifiedPR * gset (string * Z) :=
  match pr_lookup !! key with
  | Some c => if bool_decide (key ∈ acc.2) then acc else (acc.1 ++ [c], {[key]} ∪ acc.2)
  | None => acc
  end.
Definition follow_order (merge_prs : list (string * Z)) (track_a : list ModelClassifiedPR)
  : list ModelClassifiedPR :=
  let pr_lookup := foldl (fun m c => <[classified_key c := c]> m) (∅ : gmap (string * Z) ModelClassifiedPR) track_a in
  let '(ordered, seen) := foldl (follow_key pr_lookup) ([], ∅) merge_prs in
  ordered ++ filter (fun c => classified_key c ∉ seen) track_a.

Definition _lifecycle_ordered_track_a (w : World) (correlation_id : string) (track_a : list ModelClassifiedPR)
  : list ModelClassifiedPR :=
  let '((_, l), r) := PrSweep.handle (D := InmemoryDatabaseAdapter) (prebuilt_world w track_a)
                        (ordering_command correlation_id) ((new_sweep_state, None), []) in
  match r with
  | Raise _ => track_a
  | Ok _ => follow_order (merge_prs_of l) track_a
  end.

(** The thread that runs it: [completed] is whether it ends within the minute
    it is given. *)
Definition _run_lifecycle_ordering (w : World) (correlation_id : string) (completed : bool)
    (track_a : list ModelClassifiedPR) : list ModelClassifiedPR :=
  if completed then _lifecycle_ordered_track_a w correlation_id track_a else track_a.

(** *** The handler *)

Definition actionable (c : ModelClassifiedPR) : bool := negb (on_track Track.SKIP c).

(** What [handle] has classified before the ordering. *)
Definition tracks (request : ModelMergeSweepRequest) : list ModelClassifiedPR :=
  map (escalate (ms_failure_history request))
    (drop_polish (ms_skip_polish request)
       (cap_merges (ms_max_total_merges request)
          (map (classify_one (ms_require_approval request)) (ms_prs request)))).

Definition handle (w : World) (correlation_id : string) (completed : bool) (request : ModelMergeSweepRequest)
  : ModelMergeSweepResult :=
  let classified := tracks request in
  let classified :=
    if ms_use_lifecycle_ordering request then
      let track_a := filter (fun c => on_track Track.A_MERGE c = true) classified in
      let rest := filter (fun c => on_track Track.A_MERGE c = false) classified in
      if truthy track_a then _run_lifecycle_ordering w correlation_id completed track_a ++ rest else classified
    else classified in
  {| sr_classified := classified;
     sr_status := if existsb actionable classified then "queued" else "nothing_to_merge";
     sr_failure_history_summary := _compute_failure_summary (ms_failure_history request) |}.
