(* ===== verification/SweepIntake.v ===== *)
(** * Merge sweep: from what GitHub answers to a request

    [node_merge_sweep_compute/consumer.py] (the Kafka entry point) and
    [__main__.py] (the command line): the verdict on the required checks, the
    pull-request facts, the failure history read from its file, the request
    built repository by repository, and the handling of one start command.
    GitHub is behind [GitHubPrFetchProtocol]; [branch_protection.py] caches
    what it says of a repository. *)
From S2P Require Import Prelude PyJson PyDyn LogMonad GithubApi PrModels MergeControl Triage PrLedger LedgerNative PrRouting PrSweep SweepTracks.

(** ** The interface to GitHub *)

Class GitHubPrFetchProtocol (S E : Type) := {
  gh_fetch_open_prs : string -> M S E (list Obj);
  gh_fetch_branch_protection : string -> M S E (option Z)
}.

(** ** The required checks *)

Definition failed_conclusions : list string :=
  ["ACTION_REQUIRED"; "CANCELLED"; "FAILURE"; "FAILED"; "STARTUP_FAILURE"; "STALE"; "TIMED_OUT"].

Inductive check_verdict : Type := CheckPassed | CheckFailed | CheckPending.
#[export] Instance check_verdict_eq_dec : EqDecision check_verdict.
Proof. solve_decision. Defined.

(** [str(check.get("conclusion") or "").upper()] and
    [str(check.get("status") or check.get("state") or "").upper()] *)
Definition conclusion_of (check : Obj) : string :=
  py_upper (json_str (or_else (JStr EmptyString) (dict_get "conclusion" check))).
Definition status_of (check : Obj) : string :=
  py_upper (json_str (or_else (or_else (JStr EmptyString) (dict_get "state" check)) (dict_get "status" check))).

(** What comes after the passing conclusions. *)
Definition unpassed_verdict (check : Obj) : check_verdict :=
  if str_in (conclusion_of check) failed_conclusions then CheckFailed
  else if str_in (status_of check) ["FAILURE"; "ERROR"] then CheckFailed
  else CheckPending.

(** (pass, failed, pending) of the verdicts on the required checks. *)
Definition check_state (verdicts : list check_verdict) : bool * bool * bool :=
  let failed := existsb (fun v => bool_decide (v = CheckFailed)) verdicts in
  let pending := existsb (fun v => bool_decide (v = CheckPending)) verdicts in
  (negb failed && negb pending, failed, pending).

Definition is_required (check : Obj) : bool :=
  match dict_get "isRequired" check with Some j => truthy j | None => false end.

Definition status_rollup (pr : Obj) : json := or_else (JArr []) (dict_get "statusCheckRollup" pr).

(** ** The facts of a pull request *)

Section facts.
Context `{Pydantic}.

(** The keyword arguments both entry points give [ModelPRInfo]; [labels] as
    each of them collects it. *)
Definition pr_info_of (checks : bool * bool * bool) (labels : list json) (pr : Obj) (repo : string)
    (required_approving : option Z) : result ModelPRInfo :=
  let model := "ModelPRInfo" in
  let review := match dict_get "reviewDecision" pr with
                | Some raw => if truthy raw then raw else JNull
                | None => JNull
                end in
  match dict_get "number" pr with
  | None => Raise (KeyError "number")
  | Some raw_number =>
      number ← check model (lax_int raw_number);
      title ← field_or model lax_str "title" EmptyString pr;
      mergeable ← field_or model lax_str "mergeable" "UNKNOWN" pr;
      status ← field_or model lax_str "mergeStateStatus" "UNKNOWN" pr;
      draft ← field_or model lax_bool "isDraft" false pr;
      review ← check model (nullable lax_str review);
      labels ← check model (mapM lax_str labels);
      Ok {| pi_number := number; pi_title := title; pi_repo := repo; pi_mergeable := mergeable;
            pi_merge_state_status := status; pi_is_draft := draft; pi_review_decision := review;
            pi_required_checks_pass := checks.1.1; pi_required_checks_failed := checks.1.2;
            pi_required_checks_pending := checks.2; pi_labels := labels; pi_review_bot_gate_passed := None;
            pi_required_approving_review_count := required_approving; pi_head_sha := None;
            pi_pr_node_id := None; pi_head_ref_name := None; pi_base_ref_name := None;
            pi_failing_run_id_github := None; pi_failing_job_name := None;
            pi_open_thread_comment_ids := []; pi_changed_file_paths := [] |}
  end.

Definition raw_labels (pr : Obj) : json := or_else (JArr []) (dict_get "labels" pr).
End facts.

Module Consumer.
(** A check is passed only by the conclusion SUCCESS. *)
Definition check_verdict_of (check : Obj) : check_verdict :=
  if String.eqb (conclusion_of check) "SUCCESS" then CheckPassed else unpassed_verdict check.

(** [[c for c in rollup if c.get("isRequired")]]: an entry that is no dict raises. *)
Definition required_check (c : json) : result (option Obj) :=
  match c with JObj o => Ok (if is_required o then Some o else None) | _ => no_attribute c "get" end.
Definition _required_check_state (pr : Obj) : result (bool * bool * bool) :=
  rollup ← py_iter (status_rollup pr);
  required ← omap_result required_check rollup;
  match required with
  | [] => Ok (true, false, false)
  | _ => Ok (check_state (map check_verdict_of required))
  end.

Definition _to_pr_info `{Pydantic} (pr : Obj) (repo : string) (required_approving : option Z) : result ModelPRInfo :=
  checks ← _required_check_state pr;
  (* the keyword arguments are evaluated, [number] first, before the model checks them *)
  match dict_get "number" pr with
  | None => Raise (KeyError "number")
  | Some _ =>
      labels ← py_iter (raw_labels pr);
      names ← map_result (py_item "name") labels;
      pr_info_of checks names pr repo required_approving
  end.
End Consumer.

Module Cli.
Definition pass_conclusions : list string := ["SUCCESS"; "NEUTRAL"; "SKIPPED"].
Definition pass_statuses : list string := ["SUCCESS"].
Definition check_verdict_of (check : Obj) : check_verdict :=
  if str_in (conclusion_of check) pass_conclusions || str_in (status_of check) pass_statuses then CheckPassed
  else unpassed_verdict check.

Definition _required_check_state (pr : Obj) : result (bool * bool * bool) :=
  rollup ← py_iter (status_rollup pr);
  match filter (fun o => is_required o = true) (omap as_dict rollup) with
  | [] => Ok (true, false, false)
  | required => Ok (check_state (map check_verdict_of required))
  end.

Definition _to_pr_info `{Pydantic} (pr : Obj) (repo : string) (required_approving : option Z) : result ModelPRInfo :=
  checks ← _required_check_state pr;
  match dict_get "number" pr with
  | None => Raise (KeyError "number")
  | Some _ =>
      labels ← py_iter (raw_labels pr);
      names ← map_result (fun lbl => py_item "name" (JObj lbl)) (omap as_dict labels);
      pr_info_of checks names pr repo required_approving
  end.
End Cli.

(** ** The failure history *)

Section history.
Context `{Pydantic}.

(** [ModelFailureHistoryEntry(...)] of the entries of a dict. *)
Definition history_fields : list string :=
  ["first_seen"; "last_seen"; "consecutive_failures"; "total_failures"; "total_polishes";
   "last_failure_categories"; "last_result"; "last_run_id"; "runs_seen"].
Definition history_entry (kw : Obj) : result ModelFailureHistoryEntry :=
  let model := "ModelFailureHistoryEntry" in
  first_seen ← field_req model lax_str "first_seen" kw;
  last_seen ← field_req model lax_str "last_seen" kw;
  consecutive ← field_or model lax_int "consecutive_failures" 0%Z kw;
  total ← field_or model lax_int "total_failures" 0%Z kw;
  polishes ← field_or model lax_int "total_polishes" 0%Z kw;
  categories ← field_or model (lax_list lax_str) "last_failure_categories" [] kw;
  last_result ← field_or model (nullable lax_str) "last_result" None kw;
  last_run_id ← field_or model (nullable lax_str) "last_run_id" None kw;
  runs_seen ← field_or model (lax_list lax_str) "runs_seen" [] kw;
  _ ← no_extra model history_fields kw;
  Ok {| fh_first_seen := first_seen; fh_last_seen := last_seen; fh_consecutive_failures := consecutive;
        fh_total_failures := total; fh_total_polishes := polishes; fh_last_failure_categories := categories;
        fh_last_result := last_result; fh_last_run_id := last_run_id; fh_runs_seen := runs_seen |}.

(** One entry of the file: a value that is no dict is left out. *)
Definition history_item (kv : string * json) : result (option (string * ModelFailureHistoryEntry)) :=
  match kv.2 with
  | JObj v => e ← history_entry v; Ok (Some (kv.1, e))
  | _ => Ok None
  end.
(** A file that is not there, and one that does not parse, give no history. *)
Definition _load_failure_history (file : option string) : gmap string ModelFailureHistoryEntry :=
  match file with
  | None => ∅
  | Some text =>
      let read := raw ← json_loads text;
                  match raw with
                  | JObj o => omap_result history_item o
                  | _ => no_attribute raw "items"
                  end in
      match read with
      | Ok entries => foldl (fun m e => <[e.1 := e.2]> m) ∅ entries
      | Raise _ => ∅
      end
  end.
End history.

(** ** Building a request *)

Definition _DEFAULT_REPOS : list string :=
  map (fun r => "OmniNode-ai/" +:+ r)
    ["omniclaude"; "omnibase_core"; "omnibase_infra"; "omnibase_spi"; "omniintelligence"; "omnimemory";
     "omninode_infra"; "omnidash"; "onex_change_control"; "omnimarket"; "omnibase_compat"; "omniweb"].
Definition default_repos (repos : list string) : list string := py_or repos _DEFAULT_REPOS.

Section intake.
Context {S E : Type} `{GitHubPrFetchProtocol S E} `{Pydantic}.
Abbreviation Act := (M S E).

(** [BranchProtectionCache]: what has been asked for, and the count for a
    repository, with the cache after it. *)
Definition BranchProtectionCache : Type := gmap string (option Z).
Definition required_approving_review_count (cache : BranchProtectionCache) (repo : string)
  : Act (option Z * BranchProtectionCache) :=
  match cache !! repo with
  | Some count => mret (count, cache)
  | None => count ← gh_fetch_branch_protection repo; mret (count, <[repo := count]> cache)
  end.

(** The consumer's list of repositories, from the command. *)
Definition stripped (l : list string) : list string := filter (fun r => truthy r = true) (map py_strip l).
Definition command_repos (cmd : Obj) : result (list string) :=
  match default (JStr EmptyString) (dict_get "repos" cmd) with
  | JArr l => names ← map_result (str_method "strip" py_strip) l;
              Ok (default_repos (filter (fun r => truthy r = true) names))
  | JStr s => Ok (default_repos (stripped (py_split "," s)))
  | j => no_attribute j "split"
  end.

Definition skips_repo (e : py_exn) : bool :=
  match e with ValueError _ => true | _ => is_transport_error e end.

(** One repository: what GitHub says of it, or nothing when it is skipped.
    The cache survives the exception. *)
Definition collect_repo (acc : list ModelPRInfo * BranchProtectionCache) (repo : string)
  : Act (list ModelPRInfo * BranchProtectionCache) :=
  protection ← attempt (required_approving_review_count acc.2 repo);
  match protection with
  | Raise e => if skips_repo e then mret acc else raise e
  | Ok (count, cache) =>
      fetched ← attempt (gh_fetch_open_prs repo);
      match fetched with
      | Raise e => if skips_repo e then mret (acc.1, cache) else raise e
      | Ok prs =>
          infos ← lift (map_result (fun pr => Consumer._to_pr_info pr repo count) prs);
          mret (acc.1 ++ infos, cache)
      end
  end.

(** The pydantic request over the collected facts. *)
Definition sweep_request (prs : list ModelPRInfo) (history : gmap string ModelFailureHistoryEntry) (cmd : Obj)
  : result ModelMergeSweepRequest :=
  let model := "ModelMergeSweepRequest" in
  approval ← field_or model lax_bool "require_approval" true cmd;
  method ← field_or model lax_str "merge_method" "squash" cmd;
  cap ← field_or model lax_int "max_total_merges" 0%Z cmd;
  skip ← field_or model lax_bool "skip_polish" false cmd;
  run_id ← field_or model lax_str "correlation_id" EmptyString cmd;
  ordering ← field_or model lax_bool "use_lifecycle_ordering" false cmd;
  Ok {| ms_prs := prs; ms_require_approval := approval; ms_merge_method := method; ms_max_total_merges := cap;
        ms_skip_polish := skip; ms_failure_history := history; ms_run_id := run_id;
        ms_use_lifecycle_ordering := ordering |}.

Definition _build_request (cmd : Obj) (history_file : option string) : Act ModelMergeSweepRequest :=
  repos ← lift (command_repos cmd);
  r ← fold_each repos ([], ∅) collect_repo;
  lift (sweep_request r.1 (_load_failure_history history_file) cmd).

(** The command line's loop: no exception is caught. *)
Definition cli_collect_repo (acc : list ModelPRInfo * BranchProtectionCache) (repo : string)
  : Act (list ModelPRInfo * BranchProtectionCache) :=
  r ← required_approving_review_count acc.2 repo;
  prs ← gh_fetch_open_prs repo;
  infos ← lift (map_result (fun pr => Cli._to_pr_info pr repo r.1) prs);
  mret (acc.1 ++ infos, r.2).
Definition cli_request (repos : string) (approval : bool) (method : string) (cap : Z) (skip ordering : bool)
    (history_file : option string) : Act ModelMergeSweepRequest :=
  r ← fold_each (default_repos (stripped (py_split "," repos))) ([], ∅) cli_collect_repo;
  mret {| ms_prs := r.1; ms_require_approval := approval; ms_merge_method := method; ms_max_total_merges := cap;
          ms_skip_polish := skip; ms_failure_history := _load_failure_history history_file;
          ms_run_id := EmptyString; ms_use_lifecycle_ordering := ordering |}.

(** *** One message of the consumer *)

Record CompletedPayload := {
  mp_correlation_id : json;
  mp_status : string;
  mp_track_a_count : nat;
  mp_track_a_resolve_count : nat;
  mp_track_b_count : nat;
  mp_skipped_count : nat;
  mp_failure_history_summary : ModelFailureHistorySummary
}.
Definition completed_payload (cmd : Obj) (result : ModelMergeSweepResult) : CompletedPayload :=
  {| mp_correlation_id := default (JStr "unknown") (dict_get "correlation_id" cmd);
     mp_status := sr_status result;
     mp_track_a_count := length (track_prs Track.A_MERGE result);
     mp_track_a_resolve_count := length (track_prs Track.A_RESOLVE result);
     mp_track_b_count := length (track_prs Track.B_POLISH result);
     mp_skipped_count := length (track_prs Track.SKIP result);
     mp_failure_history_summary := sr_failure_history_summary result |}.

Context (send : CompletedPayload -> Act unit).
Context (w : World) (correlation_id : string) (completed : bool).

(** The body of the loop of [_run_consumer]: a failure is logged, and the loop
    goes on. *)
Definition consume_message (value : json) (history_file : option string) : Act unit :=
  let cmd := match value with JObj o => o | _ => [] end in
  _ ← attempt (
    request ← _build_request cmd history_file;
    send (completed_payload cmd (SweepTracks.handle w correlation_id completed request)));
  mret ().
End intake.
