(* ===== verification/SweepTriage.v ===== *)
(** * Merge sweep: from classified pull requests to commands

    [node_merge_sweep_triage_orchestrator]: the command models and the
    orchestrator's decision table with its [gh] lookups
    ([handlers/handler_triage.py]), and the flag that keeps the legacy arming
    of merges off ([config/env_flags.py]).  The [gh] command line is a function
    of the calls made so far. *)
From S2P Require Import Prelude PyJson PyDyn LogMonad PrModels MergeControl Triage PrLedger LedgerNative PrRouting PrSweep SweepTracks.

(** ** The boolean environment flag *)

Definition _TRUE_VALUES : list string := ["1"; "true"; "yes"; "on"].
Definition _FALSE_VALUES : list string := ["0"; "false"; "no"; "off"].

(** [env_flag]: [raw] is the variable's value, when it is set. *)
Definition env_flag (raw : option string) (safe_default : bool) : bool :=
  match raw with
  | None => safe_default
  | Some raw =>
      let normalized := py_lower (py_strip raw) in
      if str_in normalized _TRUE_VALUES then true
      else if str_in normalized _FALSE_VALUES then false
      else safe_default
  end.

Definition LegacyMergeArmDisabledError (msg : string) : py_exn := OtherError "LegacyMergeArmDisabledError" msg.
Definition require_legacy_merge_arm_enabled (raw : option string) (env_var_name surface context : string) : result unit :=
  if env_flag raw false then Ok ()
  else Raise (LegacyMergeArmDisabledError
    (surface +:+ ": refusing to arm/merge " +:+ context +:+ " -- OMN-15053: the legacy merge-arm surface is disabled by "
     +:+ "operator decision ('nothing should merge a PR right now'). Set " +:+ env_var_name
     +:+ "=true to re-enable this surface -- that requires a fresh operator decision; see OMN-15053 for context "
     +:+ "and current status before flipping it.")).

Definition _LEGACY_ARM_ENV_VAR : string := "OMNIMARKET_LEGACY_MERGE_ARM_ENABLED".

(** ** Commands *)

Record ModelAutoMergeArmCommand := {
  am_pr_number : Z; am_repo : string; am_pr_node_id : string; am_head_ref_name : string;
  am_correlation_id : string; am_run_id : string; am_total_prs : Z
}.
Record ModelRebaseCommand := {
  rb_pr_number : Z; rb_repo : string; rb_head_ref_name : string; rb_base_ref_name : string;
  rb_head_ref_oid : string; rb_correlation_id : string; rb_run_id : string; rb_total_prs : Z
}.
Inductive retrigger_mode : Type := rerun_failed | empty_commit.
#[export] Instance retrigger_mode_eq_dec : EqDecision retrigger_mode.
Proof. solve_decision. Defined.
Record ModelCiRerunCommand := {
  rr_pr_number : Z; rr_repo : string; rr_run_id_github : string; rr_correlation_id : string;
  rr_run_id : string; rr_total_prs : Z; rr_retrigger_mode : retrigger_mode; rr_head_branch : string;
  rr_head_sha : string; rr_missing_required_contexts : list string
}.
Record ModelThreadReplyCommand := {
  tc_pr_number : Z; tc_repo : string; tc_thread_comment_ids : list string; tc_correlation_id : string;
  tc_run_id : string; tc_routing_policy : json
}.
Record ModelConflictHunkCommand := {
  ch_pr_number : Z; ch_repo : string; ch_head_ref_name : string; ch_base_ref_name : string;
  ch_conflict_files : list string; ch_correlation_id : string; ch_run_id : string; ch_routing_policy : json
}.
Record ModelCiFixCommand := {
  cf_pr_number : Z; cf_repo : string; cf_run_id_github : string; cf_failing_job_name : string;
  cf_correlation_id : string; cf_run_id : string; cf_routing_policy : json
}.
(** The fields the sweep gives; the others have their declared defaults. *)
Record ModelPrPolishStartCommand := {
  pp_correlation_id : string; pp_repo : string; pp_pr_number : Z; pp_no_push : bool; pp_no_automerge : bool;
  pp_dry_run : bool; pp_requested_at : datetime
}.

(** [validate_retrigger_variant] *)
Definition validate_retrigger_variant (c : ModelCiRerunCommand) : result ModelCiRerunCommand :=
  let reject msg := Raise (OtherError "ValidationError" msg) in
  match rr_retrigger_mode c with
  | rerun_failed => if negb (truthy (rr_run_id_github c)) then reject "rerun_failed requires run_id_github" else Ok c
  | empty_commit =>
      if truthy (rr_run_id_github c) then reject "empty_commit requires empty run_id_github"
      else if negb (truthy (rr_head_branch c)) then reject "empty_commit requires head_branch"
      else if negb (truthy (rr_head_sha c)) then reject "empty_commit requires head_sha"
      else Ok c
  end.

Inductive command : Type :=
  | Arm (c : ModelAutoMergeArmCommand)
  | Rebase (c : ModelRebaseCommand)
  | CiRerun (c : ModelCiRerunCommand)
  | ThreadReply (c : ModelThreadReplyCommand)
  | ConflictHunk (c : ModelConflictHunkCommand)
  | CiFix (c : ModelCiFixCommand)
  | PrPolish (c : ModelPrPolishStartCommand).

(** [(cmd.repo, cmd.pr_number)] *)
Definition command_key (c : command) : string * Z :=
  match c with
  | Arm c => (am_repo c, am_pr_number c)
  | Rebase c => (rb_repo c, rb_pr_number c)
  | CiRerun c => (rr_repo c, rr_pr_number c)
  | ThreadReply c => (tc_repo c, tc_pr_number c)
  | ConflictHunk c => (ch_repo c, ch_pr_number c)
  | CiFix c => (cf_repo c, cf_pr_number c)
  | PrPolish c => (pp_repo c, pp_pr_number c)
  end.

(** [cmd.model_copy(update={"total_prs": total_prs})] of the Phase 1 commands;
    the others have no such field. *)
Definition with_total (n : Z) (c : command) : command :=
  match c with
  | Arm c => Arm {| am_pr_number := am_pr_number c; am_repo := am_repo c; am_pr_node_id := am_pr_node_id c;
                    am_head_ref_name := am_head_ref_name c; am_correlation_id := am_correlation_id c;
                    am_run_id := am_run_id c; am_total_prs := n |}
  | Rebase c => Rebase {| rb_pr_number := rb_pr_number c; rb_repo := rb_repo c; rb_head_ref_name := rb_head_ref_name c;
                          rb_base_ref_name := rb_base_ref_name c; rb_head_ref_oid := rb_head_ref_oid c;
                          rb_correlation_id := rb_correlation_id c; rb_run_id := rb_run_id c; rb_total_prs := n |}
  | CiRerun c => CiRerun {| rr_pr_number := rr_pr_number c; rr_repo := rr_repo c; rr_run_id_github := rr_run_id_github c;
                            rr_correlation_id := rr_correlation_id c; rr_run_id := rr_run_id c; rr_total_prs := n;
                            rr_retrigger_mode := rr_retrigger_mode c; rr_head_branch := rr_head_branch c;
                            rr_head_sha := rr_head_sha c;
                            rr_missing_required_contexts := rr_missing_required_contexts c |}
  | _ => c
  end.
Definition command_total (c : command) : option Z :=
  match c with
  | Arm c => Some (am_total_prs c)
  | Rebase c => Some (rb_total_prs c)
  | CiRerun c => Some (rr_total_prs c)
  | _ => None
  end.

Record ModelTriageRequest := {
  tq_classification : ModelMergeSweepResult;
  tq_run_id : string;
  tq_correlation_id : string;
  tq_total_prs : Z;
  tq_emit_pr_polish_commands : bool;
  tq_dry_run : bool
}.

Definition FAILED_CHECK_CONCLUSIONS : list string :=
  ["ACTION_REQUIRED"; "CANCELLED"; "FAILURE"; "FAILED"; "STARTUP_FAILURE"; "STALE"; "TIMED_OUT"].

Definition _DEFAULT_ROUTING_POLICY : json := JObj [
  ("primary", JStr "deepseek-r1-14b"); ("fallback", JStr "qwen3-coder-30b");
  ("fallback_allowed_roles", JArr [JStr "ci_fixer"; JStr "thread_reply"; JStr "conflict_hunk"]);
  ("max_tokens", JInt 2048); ("temperature", JFloat "0.0");
  ("ci_override", JObj [("primary", JStr "deepseek-r1-14b")])].

Definition _approval_gate_cleared (review_decision : option string) (required_approving_review_count : option Z) : bool :=
  if bool_decide (review_decision = Some "CHANGES_REQUESTED") then false
  else if bool_decide (review_decision = Some "APPROVED") then true
  else zero_or_none required_approving_review_count.

Definition _has_terminal_check_failure (pr : ModelPRInfo) : bool :=
  pi_required_checks_failed pr || (negb (pi_required_checks_pass pr) && negb (pi_required_checks_pending pr)).

(** ** The GitHub lookups *)

(** How [gh] ends: its output, a non-zero exit, the thirty seconds run out, or
    a program that cannot be started. *)
Inductive gh_answer : Type :=
  | GhOutput (stdout : string) | GhFailed | GhTimeout | GhMissing (e : py_exn).

(** [s.split(sep, 1)[1]] when [sep] occurs in [s]. *)
Fixpoint after_first (sep s : string) : option string :=
  if py_startswith sep s then Some (String.substring (String.length sep) (String.length s - String.length sep) s)
  else match s with EmptyString => None | String _ t => after_first sep t end.
(** [s.split(c, 1)[0]] *)
Definition before_char (c : ascii) (s : string) : string := List.hd EmptyString (py_split c s).

Definition _run_id_from_details_url (details_url : string) : option string :=
  match after_first "/actions/runs/" details_url with
  | None => None
  | Some tail =>
      let run_id := before_char "?" (before_char "/" tail) in
      if truthy run_id then Some run_id else None
  end.

(** [except (json.JSONDecodeError, AttributeError)], and with [KeyError]. *)
Definition decode_or_attribute (e : py_exn) : bool :=
  match e with ValueError _ => true | OtherError c _ => String.eqb c "AttributeError" | _ => false end.
Definition decode_attribute_or_key (e : py_exn) : bool :=
  match e with KeyError _ => true | _ => decode_or_attribute e end.
Definition catching {A} (p : py_exn -> bool) (d : A) (r : result A) : result A :=
  match r with Ok a => Ok a | Raise e => if p e then Ok d else Raise e end.

(** [str(check.get("conclusion") or "").upper()] in the failed conclusions. *)
Definition check_failed (check : json) : result bool :=
  c ← py_get "conclusion" check;
  Ok (str_in (py_upper (json_str (or_else (JStr EmptyString) c))) FAILED_CHECK_CONCLUSIONS).
Fixpoint first_failing_run (checks : list json) : result (option string) :=
  match checks with
  | [] => Ok None
  | check :: checks' =>
      failed ← check_failed check;
      if (failed : bool) then
        url ← py_get "detailsUrl" check;
        match _run_id_from_details_url (json_str (or_else (JStr EmptyString) url)) with
        | Some run_id => if truthy run_id then Ok (Some run_id) else first_failing_run checks'
        | None => first_failing_run checks'
        end
      else first_failing_run checks'
  end.
(** [check.get("name") or check.get("context")] of the first failing check. *)
Fixpoint first_failing_job (checks : list json) : result (option json) :=
  match checks with
  | [] => Ok None
  | check :: checks' =>
      failed ← check_failed check;
      if (failed : bool) then
        name ← py_get "name" check;
        context ← py_get "context" check;
        Ok (Some (or_else (default JNull context) name))
      else first_failing_job checks'
  end.
(** The first comment with an id, of one thread that is not resolved. *)
Fixpoint first_comment_id (comments : list json) : result (option json) :=
  match comments with
  | [] => Ok None
  | comment :: comments' =>
      id ← py_get "id" comment;
      match id with
      | Some node_id => if truthy node_id then Ok (Some node_id) else first_comment_id comments'
      | None => first_comment_id comments'
      end
  end.
Definition open_thread_id (thread : json) : result (option json) :=
  resolved ← py_get "isResolved" thread;
  if match resolved with Some j => truthy j | None => false end then Ok None
  else
    comments ← py_get "comments" thread;
    comments ← py_iter (or_else (JArr []) comments);
    first_comment_id comments.
Definition changed_path (f : json) : result (option json) :=
  path ← py_get "path" f;
  if match path with Some j => truthy j | None => false end then p ← py_item "path" f; Ok (Some p) else Ok None.

(** The elements of [data.get(k) or []]. *)
Definition listed (k : string) (data : json) : result (list json) :=
  l ← py_get k data; py_iter (or_else (JArr []) l).

(** The contexts reported on the head: names of the entries that are dicts. *)
Definition reported_context (entry : json) : option string :=
  match entry with
  | JObj o =>
      let name := or_else (default JNull (dict_get "context" o)) (dict_get "name" o) in
      if truthy name then Some (json_str name) else None
  | _ => None
  end.

Section triage.
Context `{Pydantic}.
Context (w_gh : list (list string) -> list string -> gh_answer) (legacy_arm : option string) (now : datetime).
Abbreviation Act := (M unit (list string)).

(** One [gh] run: its output, or nothing when it failed or timed out. *)
Definition gh (args : list string) : Act (option string) :=
  call args (fun l => match w_gh l args with
                      | GhOutput out => Ok (Some out)
                      | GhFailed | GhTimeout => Ok None
                      | GhMissing e => Raise e
                      end).
Definition gh_pr_view (repo : string) (pr_number : Z) (fields : string) : Act (option string) :=
  gh ["gh"; "pr"; "view"; pretty pr_number; "--repo"; repo; "--json"; fields].

Definition _resolve_pr_graphql_id (repo : string) (pr_number : Z) : Act (option json * option json) :=
  out ← gh_pr_view repo pr_number "id,headRefName";
  match out with
  | None => mret (None, None)
  | Some stdout =>
      lift (catching decode_or_attribute (None, None)
        (data ← json_loads stdout;
         id ← py_get "id" data;
         head ← py_get "headRefName" data;
         Ok (id, head)))
  end.

Definition _resolve_pr_refs (repo : string) (pr_number : Z) : Act (option (json * json * json)) :=
  out ← gh_pr_view repo pr_number "headRefName,baseRefName,headRefOid";
  match out with
  | None => mret None
  | Some stdout =>
      lift (catching decode_or_attribute None
        (data ← json_loads stdout;
         head_ref ← py_get_or "headRefName" (JStr EmptyString) data;
         base_ref ← py_get_or "baseRefName" (JStr EmptyString) data;
         head_oid ← py_get_or "headRefOid" (JStr EmptyString) data;
         Ok (if negb (truthy head_ref) || negb (truthy base_ref) || negb (truthy head_oid) then None
             else Some (head_ref, base_ref, head_oid))))
  end.

Definition _resolve_failing_run_id (repo : string) (pr_number : Z) : Act (option string) :=
  out ← gh_pr_view repo pr_number "statusCheckRollup";
  match out with
  | None => mret None
  | Some stdout =>
      lift (catching decode_or_attribute None
        (data ← json_loads stdout; checks ← listed "statusCheckRollup" data; first_failing_run checks))
  end.

Definition _resolve_failing_job_name (repo : string) (pr_number : Z) : Act (option json) :=
  out ← gh_pr_view repo pr_number "statusCheckRollup";
  match out with
  | None => mret None
  | Some stdout =>
      lift (catching decode_or_attribute None
        (data ← json_loads stdout; checks ← listed "statusCheckRollup" data; first_failing_job checks))
  end.

Definition _resolve_open_thread_comment_ids (repo : string) (pr_number : Z) : Act (list json) :=
  out ← gh_pr_view repo pr_number "reviewThreads";
  match out with
  | None => mret []
  | Some stdout =>
      lift (catching decode_or_attribute []
        (data ← json_loads stdout; threads ← listed "reviewThreads" data; omap_result open_thread_id threads))
  end.

Definition _resolve_conflict_files (repo : string) (pr_number : Z) : Act (list json) :=
  out ← gh_pr_view repo pr_number "files";
  match out with
  | None => mret []
  | Some stdout =>
      lift (catching decode_attribute_or_key []
        (data ← json_loads stdout; files ← listed "files" data; omap_result changed_path files))
  end.

Definition _fetch_required_contexts (repo base_branch : string) : Act (list string) :=
  out ← gh ["gh"; "api"; "repos/" +:+ repo +:+ "/branches/" +:+ base_branch +:+ "/protection/required_status_checks";
            "--jq"; ".contexts"];
  mret (match out with
        | None => []
        | Some stdout => match json_loads stdout with
                         | Ok (JArr contexts) => map json_str contexts
                         | _ => []
                         end
        end).

(** (missing required contexts, head branch, head commit) *)
Definition no_gap : list string * string * string := ([], EmptyString, EmptyString).
Definition _resolve_event_delivery_gap (repo : string) (pr_number : Z) (base_branch : option string)
  : Act (list string * string * string) :=
  out ← gh_pr_view repo pr_number "statusCheckRollup,headRefName,headRefOid,baseRefName";
  match json_loads <$> out with
  | Some (Ok (JObj data)) =>
      let text k := json_str (or_else (JStr EmptyString) (dict_get k data)) in
      let head_branch := text "headRefName" in
      let head_sha := text "headRefOid" in
      let resolved_base_branch := py_opt_or base_branch (text "baseRefName") in
      if negb (truthy resolved_base_branch) then mret no_gap
      else
        required ← _fetch_required_contexts repo resolved_base_branch;
        if negb (truthy required) then mret no_gap
        else
          rollup ← lift (py_iter (or_else (JArr []) (dict_get "statusCheckRollup" data)));
          let reported := omap reported_context rollup in
          mret (filter (fun c => str_in c reported = false) required, head_branch, head_sha)
  | _ => mret no_gap
  end.

(** ** The decision table *)

Definition text_field (model : string) (j : json) : result string := check model (lax_str j).

(** Rule 5 *)
Definition _classify_a_resolve (pr : ModelPRInfo) (run_id correlation_id : string) : Act (option command) :=
  thread_ids ← _resolve_open_thread_comment_ids (pi_repo pr) (pi_number pr);
  if negb (truthy thread_ids) then mret None
  else
    ids ← lift (map_result (text_field "ModelThreadReplyCommand") thread_ids);
    mret (Some (ThreadReply {| tc_pr_number := pi_number pr; tc_repo := pi_repo pr; tc_thread_comment_ids := ids;
                               tc_correlation_id := correlation_id; tc_run_id := run_id;
                               tc_routing_policy := _DEFAULT_ROUTING_POLICY |})).

(** The rebase command of rules 3 and 8. *)
Definition rebase_command (pr : ModelPRInfo) (run_id correlation_id : string) (total_prs : Z) : Act (option command) :=
  refs ← _resolve_pr_refs (pi_repo pr) (pi_number pr);
  match refs with
  | None => mret None
  | Some (head_ref, base_ref, head_oid) =>
      head_ref ← lift (text_field "ModelRebaseCommand" head_ref);
      base_ref ← lift (text_field "ModelRebaseCommand" base_ref);
      head_oid ← lift (text_field "ModelRebaseCommand" head_oid);
      mret (Some (Rebase {| rb_pr_number := pi_number pr; rb_repo := pi_repo pr; rb_head_ref_name := head_ref;
                            rb_base_ref_name := base_ref; rb_head_ref_oid := head_oid;
                            rb_correlation_id := correlation_id; rb_run_id := run_id; rb_total_prs := total_prs |}))
  end.

(** Rules 2 to 4 *)
Definition _classify_track_a (pr : ModelPRInfo) (run_id correlation_id : string) (total_prs : Z) : Act (option command) :=
  let approval_cleared := _approval_gate_cleared (pi_review_decision pr) (pi_required_approving_review_count pr) in
  let in_state s := String.eqb (pi_mergeable pr) "MERGEABLE" && String.eqb (pi_merge_state_status pr) s
                    && approval_cleared && pi_required_checks_pass pr in
  if in_state "CLEAN" then
    if negb (env_flag legacy_arm false) then mret None
    else
      ids ← _resolve_pr_graphql_id (pi_repo pr) (pi_number pr);
      match ids.1 with
      | None | Some JNull => mret None
      | Some pr_node_id =>
          node_id ← lift (text_field "ModelAutoMergeArmCommand" pr_node_id);
          head ← lift (text_field "ModelAutoMergeArmCommand" (or_else (JStr EmptyString) ids.2));
          mret (Some (Arm {| am_pr_number := pi_number pr; am_repo := pi_repo pr; am_pr_node_id := node_id;
                             am_head_ref_name := head; am_correlation_id := correlation_id; am_run_id := run_id;
                             am_total_prs := total_prs |}))
      end
  else if in_state "BEHIND" then rebase_command pr run_id correlation_id total_prs
  else mret None.

(** Rules 6 to 9 *)
Definition _classify_track_b (pr : ModelPRInfo) (run_id correlation_id : string) (total_prs : Z) : Act (option command) :=
  let rp := pi_repo pr in
  let n := pi_number pr in
  let mergeable_in s := String.eqb (pi_mergeable pr) "MERGEABLE" && String.eqb (pi_merge_state_status pr) s in
  let rerun mode run head_branch head_sha missing :=
    lift (validate_retrigger_variant
      {| rr_pr_number := n; rr_repo := rp; rr_run_id_github := run; rr_correlation_id := correlation_id;
         rr_run_id := run_id; rr_total_prs := total_prs; rr_retrigger_mode := mode; rr_head_branch := head_branch;
         rr_head_sha := head_sha; rr_missing_required_contexts := missing |}) in
  if String.eqb (pi_mergeable pr) "CONFLICTING" && String.eqb (pi_merge_state_status pr) "DIRTY" then
    refs ← _resolve_pr_refs rp n;
    match refs with
    | None => mret None
    | Some (head_ref, base_ref, _) =>
        files ← _resolve_conflict_files rp n;
        head_ref ← lift (text_field "ModelConflictHunkCommand" head_ref);
        base_ref ← lift (text_field "ModelConflictHunkCommand" base_ref);
        files ← lift (map_result (text_field "ModelConflictHunkCommand") files);
        mret (Some (ConflictHunk {| ch_pr_number := n; ch_repo := rp; ch_head_ref_name := head_ref;
                                    ch_base_ref_name := base_ref; ch_conflict_files := files;
                                    ch_correlation_id := correlation_id; ch_run_id := run_id;
                                    ch_routing_policy := _DEFAULT_ROUTING_POLICY |}))
    end
  else if String.eqb (pi_merge_state_status pr) "DIRTY" then
    run ← _resolve_failing_run_id rp n;
    match run with
    | None => mret None
    | Some run_id_github =>
        job ← _resolve_failing_job_name rp n;
        name ← lift (text_field "ModelCiFixCommand" (or_else (JStr "unknown") job));
        mret (Some (CiFix {| cf_pr_number := n; cf_repo := rp; cf_run_id_github := run_id_github;
                             cf_failing_job_name := name; cf_correlation_id := correlation_id; cf_run_id := run_id;
                             cf_routing_policy := _DEFAULT_ROUTING_POLICY |}))
    end
  else if mergeable_in "BLOCKED" && _has_terminal_check_failure pr then
    run ← _resolve_failing_run_id rp n;
    match run with
    | None => mret None
    | Some run_id_github =>
        c ← rerun rerun_failed run_id_github EmptyString EmptyString [];
        mret (Some (CiRerun c))
    end
  else if mergeable_in "BLOCKED" then
    gap ← _resolve_event_delivery_gap rp n None;
    let '(missing, head_branch, head_sha) := gap in
    if truthy missing && truthy head_branch then
      c ← rerun empty_commit EmptyString head_branch head_sha missing;
      mret (Some (CiRerun c))
    else mret None
  else if mergeable_in "BEHIND" && _has_terminal_check_failure pr then
    rebase_command pr run_id correlation_id total_prs
  else mret None.

Definition _classify_to_command (classified : ModelClassifiedPR) (run_id correlation_id : string) (total_prs : Z)
  : Act (option command) :=
  let pr := cp_pr classified in
  if pi_is_draft pr then mret None
  else if bool_decide (pi_review_decision pr = Some "CHANGES_REQUESTED") then mret None
  else if String.eqb (pi_mergeable pr) "UNKNOWN" then mret None
  else if String.eqb (pi_merge_state_status pr) "UNKNOWN" then mret None
  else match cp_track classified with
       | Track.A_RESOLVE => _classify_a_resolve pr run_id correlation_id
       | Track.SKIP => mret None
       | Track.A_MERGE | Track.A_UPDATE => _classify_track_a pr run_id correlation_id total_prs
       | Track.B_POLISH => _classify_track_b pr run_id correlation_id total_prs
       end.

(** ** The handler *)

Definition polish_command (request : ModelTriageRequest) (pr : ModelPRInfo) : command :=
  PrPolish {| pp_correlation_id := tq_correlation_id request; pp_repo := pi_repo pr; pp_pr_number := pi_number pr;
              pp_no_push := tq_dry_run request; pp_no_automerge := tq_dry_run request;
              pp_dry_run := tq_dry_run request; pp_requested_at := now |}.

Definition collect_commands (request : ModelTriageRequest) (raw_cmds : list command) (classified : ModelClassifiedPR)
  : Act (list command) :=
  cmd ← _classify_to_command classified (tq_run_id request) (tq_correlation_id request) 0;
  mret (match cmd with
        | None => raw_cmds
        | Some cmd =>
            raw_cmds
            ++ (if tq_emit_pr_polish_commands request && on_track Track.B_POLISH classified
                then [polish_command request (cp_pr classified)] else [])
            ++ [cmd]
        end).

(** [len({(cmd.repo, cmd.pr_number) for cmd in raw_cmds})] *)
Definition actionable_prs (raw_cmds : list command) : Z := Z.of_nat (length (remove_dups (map command_key raw_cmds))).

Definition handle (request : ModelTriageRequest) : Act (list command) :=
  raw_cmds ← fold_each (sr_classified (tq_classification request)) [] (collect_commands request);
  mret (map (with_total (actionable_prs raw_cmds)) raw_cmds).
End triage.
