(* ===== verification/SweepReducer.v ===== *)
(** * Merge sweep: outcomes and the sweep's aggregate state

    [node_merge_sweep_auto_merge_arm_effect] (the legacy arming of a merge),
    [node_sweep_outcome_classify] (the outcome of a completion event) and
    [node_merge_sweep_state_reducer] (the counters of a sweep, its one terminal
    event and the failure history of Phase 2). *)
From S2P Require Import Prelude PyJson LogMonad SweepTracks SweepTriage PyDyn GithubApi.

(** ** Outcomes *)

Module Outcome.
Inductive EnumSweepOutcome : Type :=
  | MERGED | ARMED | REBASED | CI_RERUN_TRIGGERED | FAILED | STUCK | SUCCESS | DEGRADED | NOOP.
#[export] Instance EnumSweepOutcome_eq_dec : EqDecision EnumSweepOutcome.
Proof. solve_decision. Defined.
End Outcome.
Export (hints) Outcome.
Abbreviation EnumSweepOutcome := Outcome.EnumSweepOutcome.

Module EventType.
Inductive EnumSweepOutcomeEventType : Type :=
  | ARMED | REBASE_COMPLETED | CI_RERUN_TRIGGERED | MERGED | THREAD_REPLIED | CONFLICT_RESOLVED
  | CI_FIX_ATTEMPTED | PR_POLISH_COMPLETED.
#[export] Instance EnumSweepOutcomeEventType_eq_dec : EqDecision EnumSweepOutcomeEventType.
Proof. solve_decision. Defined.
End EventType.
Export (hints) EventType.
Abbreviation EnumSweepOutcomeEventType := EventType.EnumSweepOutcomeEventType.

Record ModelSweepOutcomeInput := {
  oi_event_type : EnumSweepOutcomeEventType;
  oi_pr_number : Z;
  oi_repo : string;
  oi_correlation_id : string;
  oi_run_id : string;
  oi_total_prs : Z;
  oi_armed : option bool;
  oi_success : option bool;
  oi_conflict_files : list string;
  oi_rerun_triggered : option bool;
  oi_reply_posted : option bool;
  oi_resolution_committed : option bool;
  oi_is_noop : option bool;
  oi_patch_applied : option bool;
  oi_local_tests_passed : option bool;
  oi_error : option string;
  oi_extra : Obj
}.

Record ModelSweepOutcomeClassified := {
  oc_event_id : string;
  oc_pr_number : Z;
  oc_repo : string;
  oc_correlation_id : string;
  oc_run_id : string;
  oc_total_prs : Z;
  oc_outcome : EnumSweepOutcome;
  oc_source_event_type : EnumSweepOutcomeEventType;
  oc_error : option string;
  oc_conflict_files : list string
}.

(** [x is True], [x is False] *)
Definition is_true (x : option bool) : bool := bool_decide (x = Some true).
Definition is_false (x : option bool) : bool := bool_decide (x = Some false).

(** [str(req.extra.get("final_phase") or "").lower()] *)
Definition final_phase (req : ModelSweepOutcomeInput) : string :=
  py_lower (json_str (or_else (JStr EmptyString) (dict_get "final_phase" (oi_extra req)))).

Definition _classify (req : ModelSweepOutcomeInput) : EnumSweepOutcome * option string * list string :=
  match oi_event_type req with
  | EventType.ARMED =>
      if is_true (oi_armed req) then (Outcome.ARMED, None, []) else (Outcome.FAILED, oi_error req, [])
  | EventType.REBASE_COMPLETED =>
      if is_true (oi_success req) then (Outcome.REBASED, None, [])
      else if truthy (oi_conflict_files req) then (Outcome.STUCK, oi_error req, oi_conflict_files req)
      else (Outcome.FAILED, oi_error req, [])
  | EventType.CI_RERUN_TRIGGERED =>
      if is_true (oi_rerun_triggered req) then (Outcome.CI_RERUN_TRIGGERED, None, [])
      else (Outcome.FAILED, oi_error req, [])
  | EventType.MERGED => (Outcome.MERGED, None, [])
  | EventType.THREAD_REPLIED =>
      if is_true (oi_reply_posted req) then (Outcome.SUCCESS, None, []) else (Outcome.DEGRADED, oi_error req, [])
  | EventType.CONFLICT_RESOLVED =>
      if is_true (oi_resolution_committed req) then (Outcome.SUCCESS, None, [])
      else if is_true (oi_is_noop req) then (Outcome.NOOP, None, [])
      else (Outcome.DEGRADED, oi_error req, [])
  | EventType.CI_FIX_ATTEMPTED =>
      if is_true (oi_is_noop req) then (Outcome.NOOP, None, [])
      else if is_true (oi_patch_applied req) && is_true (oi_local_tests_passed req) then (Outcome.SUCCESS, None, [])
      else if is_false (oi_patch_applied req) then (Outcome.FAILED, oi_error req, [])
      else (Outcome.DEGRADED, oi_error req, [])
  | EventType.PR_POLISH_COMPLETED =>
      if String.eqb (final_phase req) "done" then (Outcome.SUCCESS, None, [])
      else if String.eqb (final_phase req) "failed" then (Outcome.FAILED, oi_error req, [])
      else (Outcome.DEGRADED, oi_error req, [])
  end.

(** [event_id] is the fresh identifier of the classified event. *)
Definition classify_outcome (event_id : string) (request : ModelSweepOutcomeInput) : ModelSweepOutcomeClassified :=
  let '(outcome, error, conflict_files) := _classify request in
  {| oc_event_id := event_id; oc_pr_number := oi_pr_number request; oc_repo := oi_repo request;
     oc_correlation_id := oi_correlation_id request; oc_run_id := oi_run_id request;
     oc_total_prs := oi_total_prs request; oc_outcome := outcome;
     oc_source_event_type := oi_event_type request; oc_error := error; oc_conflict_files := conflict_files |}.

(** ** The legacy arming of a merge *)

Record ModelAutoMergeArmedEvent := {
  ae_pr_number : Z; ae_repo : string; ae_correlation_id : string; ae_run_id : string; ae_total_prs : Z;
  ae_armed : bool; ae_error : option string
}.
Record ModelAutoMergeUnarmedCleanAlertEvent := {
  al_pr_number : Z; al_repo : string; al_correlation_id : string; al_run_id : string; al_total_prs : Z;
  al_reason : string
}.
Inductive arm_event : Type :=
  | Armed (e : ModelAutoMergeArmedEvent) | UnarmedAlert (e : ModelAutoMergeUnarmedCleanAlertEvent).

Section arm.
Context (w_http : list HttpRequest -> HttpRequest -> http_answer) (legacy_arm : option string).
Context (graphql_url github_ref : string) (w_secret : list HttpRequest -> result (option string)).
Abbreviation Act := (M unit HttpRequest).

Definition _GRAPHQL_MUTATION : string :=
  "mutation($id: ID!, $method: PullRequestMergeMethod!) {"
  +:+ "  enablePullRequestAutoMerge(input: {pullRequestId: $id, mergeMethod: $method}) {"
  +:+ "    pullRequest { number }" +:+ "  }" +:+ "}".

(** (armed, error) *)
Definition _arm (pr_node_id token : string) : Act (bool * option string) :=
  let rq := {| rq_method := "POST"; rq_url := graphql_url; rq_headers := _base_headers token ++ [json_content];
               rq_body := Some (JObj [("query", JStr _GRAPHQL_MUTATION);
                                      ("variables", JObj [("id", JStr pr_node_id); ("method", JStr "SQUASH")])]) |} in
  answer ← call rq (fun l => Ok (w_http l rq));
  lift (match answer with
        | HttpError _ body text => Ok (false, Some (py_or (py_strip body) text))
        | NetworkError text => Ok (false, Some text)
        | HttpBody raw =>
            match json_loads raw with
            | Raise exc => Ok (false, Some (exn_str exc))
            | Ok body =>
                errors ← py_get "errors" body;
                match errors with
                | Some e => if truthy e then Ok (false, Some (json_dumps e)) else Ok (true, None)
                | None => Ok (true, None)
                end
            end
        end).

Definition handle_arm (request : ModelAutoMergeArmCommand) : Act (list arm_event) :=
  _ ← lift (require_legacy_merge_arm_enabled legacy_arm _LEGACY_ARM_ENV_VAR "node_merge_sweep_auto_merge_arm_effect"
              (pr_key (am_repo request) (am_pr_number request)));
  secret ← ask w_secret;
  secret ← lift secret;
  match secret with
  | None => raise (RuntimeError ("api_key_ref " +:+ py_repr github_ref +:+ " resolved to None — "
                                 +:+ "ensure GITHUB_TOKEN is set in the secret store."))
  | Some token =>
      r ← _arm (am_pr_node_id request) token;
      let '(armed, error) := r in
      let completion := Armed {| ae_pr_number := am_pr_number request; ae_repo := am_repo request;
                                 ae_correlation_id := am_correlation_id request; ae_run_id := am_run_id request;
                                 ae_total_prs := am_total_prs request; ae_armed := armed; ae_error := error |} in
      mret (if (armed : bool) then [completion]
            else [completion;
                  UnarmedAlert {| al_pr_number := am_pr_number request; al_repo := am_repo request;
                                  al_correlation_id := am_correlation_id request; al_run_id := am_run_id request;
                                  al_total_prs := am_total_prs request;
                                  al_reason := py_opt_or error "auto-merge arm failed with no error detail" |}])
  end.
End arm.

(** ** The state of a sweep *)

Record ModelPrOutcomeRecord := {
  or_pr_number : Z;
  or_repo : string;
  or_outcome : EnumSweepOutcome;
  or_terminal : bool;
  or_is_noop : bool;
  or_first_seen_at : datetime;
  or_classified_event_id : string
}.
Record ModelPrPhase2Record := {
  p2_pr_number : Z;
  p2_repo : string;
  p2_consecutive_failures : Z;
  p2_last_failure_categories : list string
}.
#[export] Instance ModelPrPhase2Record_eta : Eta ModelPrPhase2Record :=
  fun r => Build_ModelPrPhase2Record (p2_pr_number r) (p2_repo r) (p2_consecutive_failures r)
             (p2_last_failure_categories r).

Definition is_terminal_outcome (o : EnumSweepOutcome) : bool :=
  match o with Outcome.MERGED | Outcome.FAILED | Outcome.STUCK => true | _ => false end.

Record ModelMergeSweepState := {
  st_run_id : string;
  st_total_prs : Z;
  st_pr_outcomes_by_key : gmap string ModelPrOutcomeRecord;
  st_merged_count : Z;
  st_armed_count : Z;
  st_rebased_count : Z;
  st_ci_rerun_count : Z;
  st_failed_count : Z;
  st_stuck_count : Z;
  st_unresolvable_count : Z;
  st_terminal_emitted : bool;
  st_started_at : datetime;
  st_completed_at : option datetime;
  st_pr_phase2_by_key : gmap string ModelPrPhase2Record;
  st_thread_replies_posted : Z;
  st_thread_reply_failures : Z;
  st_conflicts_resolved : Z;
  st_conflict_hunk_failures : Z;
  st_ci_fixes_attempted : Z;
  st_ci_fix_failures : Z
}.
#[export] Instance ModelMergeSweepState_eta : Eta ModelMergeSweepState :=
  fun r => Build_ModelMergeSweepState (st_run_id r) (st_total_prs r) (st_pr_outcomes_by_key r) (st_merged_count r)
    (st_armed_count r) (st_rebased_count r) (st_ci_rerun_count r) (st_failed_count r) (st_stuck_count r)
    (st_unresolvable_count r) (st_terminal_emitted r) (st_started_at r) (st_completed_at r) (st_pr_phase2_by_key r)
    (st_thread_replies_posted r) (st_thread_reply_failures r) (st_conflicts_resolved r)
    (st_conflict_hunk_failures r) (st_ci_fixes_attempted r) (st_ci_fix_failures r).

(** [ModelMergeSweepState(run_id=..., total_prs=...)] created at [now]. *)
Definition new_state (run_id : string) (total_prs : Z) (now : datetime) : ModelMergeSweepState :=
  {| st_run_id := run_id; st_total_prs := total_prs; st_pr_outcomes_by_key := ∅; st_merged_count := 0;
     st_armed_count := 0; st_rebased_count := 0; st_ci_rerun_count := 0; st_failed_count := 0; st_stuck_count := 0;
     st_unresolvable_count := 0; st_terminal_emitted := false; st_started_at := now; st_completed_at := None;
     st_pr_phase2_by_key := ∅; st_thread_replies_posted := 0; st_thread_reply_failures := 0;
     st_conflicts_resolved := 0; st_conflict_hunk_failures := 0; st_ci_fixes_attempted := 0;
     st_ci_fix_failures := 0 |}.

(** ** Events and intents *)

Record ModelThreadRepliedEvent := {
  tr_correlation_id : string; tr_pr : Z; tr_repository : string; tr_comment_id : option string; tr_reply_posted : bool;
  tr_is_draft : bool; tr_used_fallback : bool
}.
Record ModelConflictResolvedEvent := {
  cv_correlation_id : string; cv_pr_number : Z; cv_repo : string; cv_resolution_committed : bool;
  cv_is_noop : bool; cv_conflict_files : list string
}.
Record CiFixResult := {
  cx_pr_number : Z; cx_repo : string; cx_run_id_github : string; cx_failing_job_name : string;
  cx_correlation_id : string; cx_patch_applied : bool; cx_local_tests_passed : bool; cx_is_noop : bool;
  cx_error : option string
}.
Inductive Phase2Event : Type :=
  | ThreadReplied (e : ModelThreadRepliedEvent)
  | ConflictResolved (e : ModelConflictResolvedEvent)
  | CiFixed (e : CiFixResult).
Inductive AnyReducerEvent : Type :=
  | Classified (e : ModelSweepOutcomeClassified) | Phase2 (e : Phase2Event).

Definition TOPIC_SWEEP_COMPLETED : string := "onex.evt.omnimarket.merge-sweep-completed.v1".
Definition NODE_ID : string := "node_merge_sweep_state_reducer".

Record CompletedEvent := {
  ce_run_id : string; ce_total_prs : Z; ce_merged_count : Z; ce_armed_count : Z; ce_rebased_count : Z;
  ce_ci_rerun_count : Z; ce_failed_count : Z; ce_stuck_count : Z; ce_completed_at : string
}.
(** The persist intent: the envelope's scope and the state it carries, with
    its correlation id. *)
Inductive intent : Type :=
  | PersistState (node_id scope_id : string) (data : ModelMergeSweepState) (at_time : datetime) (correlation_id : string)
  | Publish (topic : string) (payload : CompletedEvent).

Definition _build_persist_intent (state : ModelMergeSweepState) (correlation_id : string) (now : datetime) : intent :=
  PersistState NODE_ID (st_run_id state) state now correlation_id.

(** ** The reducer *)

Definition bump_outcome (o : EnumSweepOutcome) (s : ModelMergeSweepState) : ModelMergeSweepState :=
  match o with
  | Outcome.MERGED => s <| st_merged_count := (st_merged_count s + 1)%Z |>
  | Outcome.ARMED => s <| st_armed_count := (st_armed_count s + 1)%Z |>
  | Outcome.REBASED => s <| st_rebased_count := (st_rebased_count s + 1)%Z |>
  | Outcome.CI_RERUN_TRIGGERED => s <| st_ci_rerun_count := (st_ci_rerun_count s + 1)%Z |>
  | Outcome.FAILED => s <| st_failed_count := (st_failed_count s + 1)%Z |>
  | Outcome.STUCK => s <| st_stuck_count := (st_stuck_count s + 1)%Z |>
  | _ => s
  end.

Definition completed_event (s : ModelMergeSweepState) (now : datetime) : CompletedEvent :=
  {| ce_run_id := st_run_id s; ce_total_prs := st_total_prs s; ce_merged_count := st_merged_count s;
     ce_armed_count := st_armed_count s; ce_rebased_count := st_rebased_count s;
     ce_ci_rerun_count := st_ci_rerun_count s; ce_failed_count := st_failed_count s;
     ce_stuck_count := st_stuck_count s; ce_completed_at := isoformat now |}.

(** The clock is read once: [now] stands for the instants of one delta. *)
Definition _delta_phase1 (now : datetime) (state : ModelMergeSweepState) (event : ModelSweepOutcomeClassified)
  : ModelMergeSweepState * list intent :=
  let dedup_key := pr_key (oc_repo event) (oc_pr_number event) in
  match st_pr_outcomes_by_key state !! dedup_key with
  | Some _ => (state, [])
  | None =>
      let record := {| or_pr_number := oc_pr_number event; or_repo := oc_repo event; or_outcome := oc_outcome event;
                       or_terminal := is_terminal_outcome (oc_outcome event); or_is_noop := false;
                       or_first_seen_at := now; or_classified_event_id := oc_event_id event |} in
      let new_outcomes := <[dedup_key := record]> (st_pr_outcomes_by_key state) in
      let new_state := bump_outcome (oc_outcome event) state <| st_pr_outcomes_by_key := new_outcomes |> in
      let tracked_count := Z.of_nat (size new_outcomes) in
      if Z.eqb tracked_count (st_total_prs new_state) && negb (st_terminal_emitted new_state) then
        let new_state := new_state <| st_terminal_emitted := true |> <| st_completed_at := Some now |> in
        (new_state, [Publish TOPIC_SWEEP_COMPLETED (completed_event new_state now);
                     _build_persist_intent new_state (oc_correlation_id event) now])
      else (new_state, [_build_persist_intent new_state (oc_correlation_id event) now])
  end.

Definition phase2_repo (e : Phase2Event) : string :=
  match e with ThreadReplied e => tr_repository e | ConflictResolved e => cv_repo e | CiFixed e => cx_repo e end.
Definition phase2_pr_number (e : Phase2Event) : Z :=
  match e with ThreadReplied e => tr_pr e | ConflictResolved e => cv_pr_number e | CiFixed e => cx_pr_number e end.
Definition phase2_correlation_id (e : Phase2Event) : string :=
  match e with
  | ThreadReplied e => tr_correlation_id e
  | ConflictResolved e => cv_correlation_id e
  | CiFixed e => cx_correlation_id e
  end.

Definition _get_or_create_phase2_record (state : ModelMergeSweepState) (key : string) (pr_number : Z) (repo : string)
  : ModelPrPhase2Record :=
  default {| p2_pr_number := pr_number; p2_repo := repo; p2_consecutive_failures := 0;
             p2_last_failure_categories := [] |} (st_pr_phase2_by_key state !! key).

Definition reset_failures (r : ModelPrPhase2Record) : ModelPrPhase2Record := r <| p2_consecutive_failures := 0%Z |>.
Definition add_failure (category : string) (r : ModelPrPhase2Record) : ModelPrPhase2Record :=
  r <| p2_consecutive_failures := (p2_consecutive_failures r + 1)%Z |>
    <| p2_last_failure_categories := p2_last_failure_categories r ++ [category] |>.

(** The state with the counter of the event bumped, and the record. *)
Definition apply_phase2 (state : ModelMergeSweepState) (rec : ModelPrPhase2Record) (event : Phase2Event)
  : ModelMergeSweepState * ModelPrPhase2Record :=
  match event with
  | ThreadReplied e =>
      if tr_reply_posted e then
        (state <| st_thread_replies_posted := (st_thread_replies_posted state + 1)%Z |>, reset_failures rec)
      else (state <| st_thread_reply_failures := (st_thread_reply_failures state + 1)%Z |>,
            add_failure "thread_reply_failed" rec)
  | ConflictResolved e =>
      if cv_resolution_committed e then
        (state <| st_conflicts_resolved := (st_conflicts_resolved state + 1)%Z |>, reset_failures rec)
      else if negb (cv_is_noop e) then
        (state <| st_conflict_hunk_failures := (st_conflict_hunk_failures state + 1)%Z |>,
         add_failure "conflict_hunk_failed" rec)
      else (state, rec)
  | CiFixed e =>
      if cx_patch_applied e then
        (state <| st_ci_fixes_attempted := (st_ci_fixes_attempted state + 1)%Z |>, reset_failures rec)
      else if negb (cx_is_noop e) then
        (state <| st_ci_fix_failures := (st_ci_fix_failures state + 1)%Z |>, add_failure "ci_fix_failed" rec)
      else (state, rec)
  end.

Definition _delta_phase2 (now : datetime) (state : ModelMergeSweepState) (event : Phase2Event)
  : ModelMergeSweepState * list intent :=
  let key := pr_key (phase2_repo event) (phase2_pr_number event) in
  let rec := _get_or_create_phase2_record state key (phase2_pr_number event) (phase2_repo event) in
  let '(bumped, rec) := apply_phase2 state rec event in
  let new_state := bumped <| st_pr_phase2_by_key := <[key := rec]> (st_pr_phase2_by_key state) |> in
  (new_state, [_build_persist_intent new_state (phase2_correlation_id event) now]).

Definition delta (now : datetime) (state : ModelMergeSweepState) (event : AnyReducerEvent)
  : ModelMergeSweepState * list intent :=
  match event with
  | Classified e => _delta_phase1 now state e
  | Phase2 e => _delta_phase2 now state e
  end.

(** The runtime's entry point: the state starts afresh at every call. *)
Definition handle_reduce (now : datetime) (request : ModelSweepOutcomeClassified)
  : ModelMergeSweepState * list intent :=
  delta now (new_state (oc_run_id request) (oc_total_prs request) now) (Classified request).

(** The deltas of a sequence of (instant, event), with every intent. *)
Fixpoint run (state : ModelMergeSweepState) (events : list (datetime * AnyReducerEvent))
  : ModelMergeSweepState * list intent :=
  match events with
  | [] => (state, [])
  | (now, e) :: events' =>
      let '(state', intents) := delta now state e in
      let '(final, rest) := run state' events' in
      (final, intents ++ rest)
  end.
