(* ===== verification/SweepTrackProps.v ===== *)
(** * What the classification of a merge sweep does

    Which pull requests [SweepTracks.handle] puts on which track and in which
    order, that the ordering by a run of the lifecycle orchestrator leaves the
    listing order, how the two entry points read the required checks, and the
    pages [GithubApi.fetch_open_prs] reads. *)
From S2P Require Import Prelude PyJson PyDyn LogMonad GithubApi PrModels MergeControl Triage PrLedger LedgerNative PrRouting PrSweep SweepProps SweepTracks SweepIntake.

(** ** The ordering *)

Lemma follow_no_merge track_a : follow_order [] track_a = track_a.
Proof.
  unfold follow_order. cbn [foldl app]. induction track_a as [|c l IH]; [done|].
  rewrite filter_cons_True by apply not_elem_of_empty. by f_equal.
Qed.

Lemma no_merge_prs l : Forall (fun e => is_merge e = false) l -> merge_prs_of l = [].
Proof. unfold merge_prs_of. induction 1 as [|[] l He _ IH]; simpl in *; done. Qed.

Lemma ordered_flat w cid track_a : _lifecycle_ordered_track_a w cid track_a = track_a.
Proof.
  unfold _lifecycle_ordered_track_a.
  destruct (emits_run _ _ ((new_sweep_state, None), [])
    (unenforced_no_merge (D := InmemoryDatabaseAdapter) (prebuilt_world w track_a) (ordering_command cid)
       (or_intror eq_refl))) as (l & Hl & Hp).
  destruct (PrSweep.handle _ _ _) as [[s l'] [r|e]]; [|done]. cbn [fst snd app] in Hl. subst l'.
  by rewrite no_merge_prs, follow_no_merge.
Qed.

Lemma run_ordering_flat w cid completed track_a : _run_lifecycle_ordering w cid completed track_a = track_a.
Proof. destruct completed; [apply ordered_flat|done]. Qed.

(** Track A first, each side in the listing order. *)
Definition merge_first (l : list ModelClassifiedPR) : list ModelClassifiedPR :=
  filter (fun c => on_track Track.A_MERGE c = true) l ++ filter (fun c => on_track Track.A_MERGE c = false) l.

Lemma no_track_a l :
  filter (fun c => on_track Track.A_MERGE c = true) l = [] ->
  filter (fun c => on_track Track.A_MERGE c = false) l = l.
Proof.
  induction l as [|c l IH]; [done|]. rewrite !filter_cons. destruct (on_track Track.A_MERGE c).
  - by rewrite decide_True by done.
  - rewrite decide_False, decide_True by done. intros Hl. f_equal. auto.
Qed.

Lemma handle_classified w cid completed request :
  sr_classified (handle w cid completed request)
  = if ms_use_lifecycle_ordering request then merge_first (tracks request) else tracks request.
Proof.
  unfold handle. cbn [sr_classified]. destruct (ms_use_lifecycle_ordering request); [|done].
  unfold merge_first. rewrite run_ordering_flat.
  destruct (filter (fun c => on_track Track.A_MERGE c = true) (tracks request)) eqn:E; cbn [truthy truthy_list]; [|done].
  by rewrite no_track_a.
Qed.

Lemma filter_filter_none {A} (P Q : A -> Prop) `{forall x, Decision (P x), forall x, Decision (Q x)} (l : list A) :
  (forall x, P x -> Q x -> False) -> filter P (filter Q l) = [].
Proof.
  intros Hpq. rewrite list_filter_filter. induction l as [|x l IH]; [done|].
  rewrite filter_cons_False; [done|]. intros [? ?]. eauto.
Qed.

Lemma merge_first_track t l :
  filter (fun c => on_track t c = true) (merge_first l) = filter (fun c => on_track t c = true) l.
Proof.
  unfold merge_first, on_track. rewrite filter_app. destruct (decide (t = Track.A_MERGE)) as [->|Ht].
  - rewrite list_filter_filter_l, filter_filter_none, app_nil_r by (intros; congruence). done.
  - rewrite filter_filter_none, list_filter_filter_l; [done|..].
    + intros c H%bool_decide_eq_true. apply bool_decide_eq_false. congruence.
    + intros c H1%bool_decide_eq_true H2%bool_decide_eq_true. congruence.
Qed.

Lemma merge_first_perm l : merge_first l ≡ₚ l.
Proof.
  unfold merge_first. induction l as [|c l IH]; [done|]. rewrite !filter_cons.
  destruct (on_track Track.A_MERGE c); simpl; [by rewrite IH|]. by rewrite <- Permutation_middle, IH.
Qed.

(** ** What puts a pull request on a track *)

Definition approval_cleared (pr : ModelPRInfo) : Prop :=
  pi_review_decision pr <> Some "CHANGES_REQUESTED"
  /\ (pi_review_decision pr = Some "APPROVED" \/ pi_required_approving_review_count pr = Some 0%Z
      \/ pi_required_approving_review_count pr = None).
#[export] Instance approval_cleared_dec pr : Decision (approval_cleared pr).
Proof. unfold approval_cleared. solve_decision. Defined.

(** Mergeable, in a merge state that is not stale, unknown or blocked, with its
    required checks passed, not held by the review bot, and approved as far as
    the request and the branch ask for it. *)
Definition clear_to_merge (require_approval : bool) (pr : ModelPRInfo) : Prop :=
  pi_is_draft pr = false /\ pi_mergeable pr = "MERGEABLE"
  /\ (py_upper (pi_merge_state_status pr) ∉ ["BEHIND"; "UNKNOWN"; "BLOCKED"])
  /\ pi_required_checks_pass pr = true /\ pi_review_bot_gate_passed pr <> Some false
  /\ (require_approval = true -> approval_cleared pr).
#[export] Instance clear_to_merge_dec a pr : Decision (clear_to_merge a pr).
Proof. unfold clear_to_merge. destruct a; solve_decision. Defined.

Lemma zero_or_none_iff n : zero_or_none n = true <-> n = Some 0%Z \/ n = None.
Proof. destruct n as [n|]; simpl; [rewrite Z.eqb_eq|]; naive_solver. Qed.

Lemma merge_ready_iff pr a :
  _is_merge_ready pr a = true <->
  pi_mergeable pr = "MERGEABLE" /\ py_upper (pi_merge_state_status pr) <> "BLOCKED"
  /\ pi_required_checks_pass pr = true /\ pi_review_bot_gate_passed pr <> Some false
  /\ (a = true -> approval_cleared pr).
Proof.
  unfold _is_merge_ready, approval_cleared. rewrite <- zero_or_none_iff.
  destruct (String.eqb_spec (pi_mergeable pr) "MERGEABLE"), (String.eqb_spec (py_upper (pi_merge_state_status pr)) "BLOCKED");
    cbn [negb]; [intuition (try congruence; repeat case_bool_decide; congruence)| |intuition congruence..].
  case_bool_decide; [intuition congruence|]. destruct (pi_required_checks_pass pr); cbn [negb]; [|intuition congruence].
  destruct a; [|intuition congruence].
  case_bool_decide as H1; [intuition congruence|]. case_bool_decide as H2; intuition congruence.
Qed.

Lemma branch_update_iff pr :
  _needs_branch_update pr = true <->
  pi_mergeable pr = "UNKNOWN"
  \/ (pi_mergeable pr = "MERGEABLE" /\ py_upper (pi_merge_state_status pr) ∈ ["BEHIND"; "UNKNOWN"]).
Proof.
  unfold _needs_branch_update.
  destruct (String.eqb_spec (pi_mergeable pr) "MERGEABLE") as [E|E].
  - rewrite str_in_spec. rewrite E. intuition congruence.
  - rewrite String.eqb_eq. intuition congruence.
Qed.

Lemma classify_one_pr a pr : cp_pr (classify_one a pr) = pr.
Proof. unfold classify_one. by destruct (_classify_pr pr a) as [[? ?] ?]. Qed.

Lemma classify_one_track a pr : cp_track (classify_one a pr) = (_classify_pr pr a).1.1.
Proof. unfold classify_one. by destruct (_classify_pr pr a) as [[? ?] ?]. Qed.
Lemma classify_one_categories a pr : cp_failure_categories (classify_one a pr) = (_classify_pr pr a).2.
Proof. unfold classify_one. by destruct (_classify_pr pr a) as [[? ?] ?]. Qed.

Lemma not_stale_or_blocked (s : string) :
  s ∉ ["BEHIND"; "UNKNOWN"; "BLOCKED"] <-> (s ∉ ["BEHIND"; "UNKNOWN"]) /\ s <> "BLOCKED".
Proof.
  change ["BEHIND"; "UNKNOWN"; "BLOCKED"] with (["BEHIND"; "UNKNOWN"] ++ ["BLOCKED"]).
  rewrite elem_of_app, list_elem_of_singleton. tauto.
Qed.

Lemma classify_merge_iff a pr : cp_track (classify_one a pr) = Track.A_MERGE <-> clear_to_merge a pr.
Proof.
  rewrite classify_one_track. unfold _classify_pr, clear_to_merge. rewrite not_stale_or_blocked.
  pose proof (merge_ready_iff pr a) as Hr. pose proof (branch_update_iff pr) as Hb.
  destruct (pi_is_draft pr); [cbn [fst]; intuition congruence|].
  destruct (_needs_branch_update pr); cbn [fst].
  - destruct Hb as [Hb _]. specialize (Hb eq_refl). split; [done|].
    intros (_ & Hm & [Hs _] & _). destruct Hb as [Hb|[_ Hb]]; [congruence|done].
  - assert (py_upper (pi_merge_state_status pr) ∈ ["BEHIND"; "UNKNOWN"] -> pi_mergeable pr <> "MERGEABLE") as Hn.
    { intros Hs Hm. destruct Hb as [_ Hb]. discriminate Hb. by right. }
    destruct (_is_merge_ready pr a); cbn [fst].
    + destruct Hr as [Hr _]. destruct (Hr eq_refl) as (H1 & H2 & H3 & H4 & H5). split; [intros _|done].
      split_and!; try done. intros Hs. by apply (Hn Hs).
    + assert (~ (pi_mergeable pr = "MERGEABLE" /\ py_upper (pi_merge_state_status pr) <> "BLOCKED"
                 /\ pi_required_checks_pass pr = true /\ pi_review_bot_gate_passed pr <> Some false
                 /\ (a = true -> approval_cleared pr))) as Hr' by (rewrite <- Hr; done).
      split; [|intros (_ & H1 & [_ H2] & H3 & H4 & H5); exfalso; by apply Hr'].
      destruct (_needs_thread_resolution pr); [done|]. by destruct (_needs_polish pr a).
Qed.

(** A pull request on Track B has a blocking issue, and its categories name
    those it has. *)
Lemma classify_polish a pr :
  cp_track (classify_one a pr) = Track.B_POLISH ->
  cp_failure_categories (classify_one a pr) = (polish_parts pr a).*2 /\ polish_parts pr a <> []
  /\ pi_is_draft pr = false /\ pi_mergeable pr <> "UNKNOWN".
Proof.
  rewrite classify_one_track, classify_one_categories. unfold _classify_pr.
  destruct (pi_is_draft pr); [done|]. destruct (_needs_branch_update pr); [done|].
  destruct (_is_merge_ready pr a) eqn:Hr; [done|]. destruct (_needs_thread_resolution pr); [done|].
  destruct (_needs_polish pr a) eqn:Hp; [|done]. intros _. cbn [fst snd]. unfold _needs_polish in Hp.
  rewrite Hr in Hp. unfold polish_parts.
  destruct (String.eqb_spec (pi_mergeable pr) "UNKNOWN"); [done|].
  destruct (String.eqb (pi_mergeable pr) "CONFLICTING"), (_checks_failed pr), (a && _); try done; by split_and!.
Qed.

(** ** The stages of [tracks] *)

(** A stage keeps a pull request as it is or sends it to SKIP. *)
Definition only_skips (f : ModelClassifiedPR -> ModelClassifiedPR) : Prop :=
  forall c, f c = c \/ cp_pr (f c) = cp_pr c /\ cp_track (f c) = Track.SKIP.
(** One that looks at Track B only. *)
Definition only_polish (f : ModelClassifiedPR -> ModelClassifiedPR) : Prop :=
  forall c, f c = c \/ cp_track c = Track.B_POLISH /\ cp_pr (f c) = cp_pr c /\ cp_track (f c) = Track.SKIP.

Lemma escalate_polish history : only_polish (escalate history).
Proof.
  intros c. unfold escalate, on_track. case_bool_decide as Hc; [|by left].
  destruct (_should_skip_polish _ _) as [[] ?]; [right; by split_and!|by left].
Qed.
Lemma drop_polish_map skip l : exists f, only_polish f /\ drop_polish skip l = map f l.
Proof.
  unfold drop_polish. destruct skip; [|exists (fun c => c); rewrite map_id; split; [by left|done]].
  eexists; split; [|done]. intros c. unfold on_track. case_bool_decide; [right; by split_and!|by left].
Qed.

Lemma only_polish_map_prs f l : only_polish f -> map cp_pr (map f l) = map cp_pr l.
Proof.
  intros Hf. rewrite map_map. apply map_ext. intros c. destruct (Hf c) as [->|(_ & -> & _)]; done.
Qed.
Lemma only_polish_merge f l :
  only_polish f ->
  filter (fun c => on_track Track.A_MERGE c = true) (map f l) = filter (fun c => on_track Track.A_MERGE c = true) l.
Proof.
  intros Hf. induction l as [|c l IH]; [done|]. cbn [map]. rewrite !filter_cons, IH. unfold on_track.
  destruct (Hf c) as [->|(H1 & _ & H2)]; [done|]. rewrite H1, H2. done.
Qed.

Lemma cap_from_prs cap n l : map cp_pr (cap_from cap n l) = map cp_pr l.
Proof.
  revert n. induction l as [|c l IH]; intros n; [done|]. cbn [cap_from].
  destruct (on_track _ c); cbn [map]; rewrite IH; [|done]. by destruct (_ >? _)%Z.
Qed.
Lemma cap_from_merge cap n l : (0 <= n <= cap)%Z ->
  filter (fun c => on_track Track.A_MERGE c = true) (cap_from cap n l)
  = take (Z.to_nat (cap - n)) (filter (fun c => on_track Track.A_MERGE c = true) l).
Proof.
  revert n. induction l as [|c l IH]; intros n Hn; cbn [cap_from]; [by destruct (Z.to_nat _)|].
  destruct (on_track Track.A_MERGE c) eqn:Hc; [|rewrite !filter_cons, Hc; by apply IH].
  destruct (Z.gtb_spec (n + 1) cap) as [Hg|Hg].
  - replace (cap - n)%Z with 0%Z by lia. cbn [Z.to_nat take]. rewrite filter_cons_False by done.
    assert (forall l m, (cap <= m)%Z -> filter (fun c => on_track Track.A_MERGE c = true) (cap_from cap m l) = []) as Hall.
    { clear. induction l as [|c l IH]; intros m Hm; [done|]. cbn [cap_from].
      destruct (on_track Track.A_MERGE c) eqn:Hc; [|rewrite filter_cons_False; [by apply IH|congruence]].
      rewrite (proj2 (Z.gtb_lt _ _)) by lia. rewrite filter_cons_False by done. apply IH. lia. }
    apply Hall. lia.
  - rewrite !filter_cons, Hc. rewrite (decide_True (P := true = true)) by done. rewrite IH by lia.
    replace (Z.to_nat (cap - n)) with (S (Z.to_nat (cap - (n + 1)))) by lia. done.
Qed.

(** The pull requests the cap lets through. *)
Definition capped {A} (cap : Z) (l : list A) : list A := if (cap >? 0)%Z then take (Z.to_nat cap) l else l.

Lemma cap_merges_merge cap l :
  filter (fun c => on_track Track.A_MERGE c = true) (cap_merges cap l)
  = capped cap (filter (fun c => on_track Track.A_MERGE c = true) l).
Proof.
  unfold cap_merges, capped. destruct (Z.gtb_spec cap 0); [|done].
  rewrite cap_from_merge by lia. by rewrite Z.sub_0_r.
Qed.
Lemma cap_merges_prs cap l : map cp_pr (cap_merges cap l) = map cp_pr l.
Proof. unfold cap_merges. destruct (_ >? _)%Z; [apply cap_from_prs|done]. Qed.
Lemma cap_merges_elem cap l c :
  c ∈ cap_merges cap l -> c ∈ l \/ cp_track c = Track.SKIP.
Proof.
  unfold cap_merges. destruct (_ >? _)%Z; [|by left]. generalize 0%Z as n.
  induction l as [|d l IH]; intros n; cbn [cap_from]; [by intros ?%not_elem_of_nil|].
  destruct (on_track _ d); rewrite elem_of_cons.
  - intros [->|Hc]; [destruct (_ >? _)%Z; [by right|left; constructor]|].
    destruct (IH _ Hc); [left; by constructor|by right].
  - intros [->|Hc]; [left; constructor|]. destruct (IH _ Hc); [left; by constructor|by right].
Qed.

Lemma on_merge a pr : on_track Track.A_MERGE (classify_one a pr) = bool_decide (clear_to_merge a pr).
Proof. apply bool_decide_ext, classify_merge_iff. Qed.
Lemma merge_of_classified a prs :
  map cp_pr (filter (fun c => on_track Track.A_MERGE c = true) (map (classify_one a) prs))
  = filter (clear_to_merge a) prs.
Proof.
  induction prs as [|pr prs IH]; [done|]. cbn [map]. rewrite !filter_cons, on_merge.
  case_bool_decide.
  - rewrite !decide_True by done. cbn [map]. by rewrite classify_one_pr, IH.
  - rewrite !decide_False by done. exact IH.
Qed.

Lemma tracks_prs request : map cp_pr (tracks request) = ms_prs request.
Proof.
  unfold tracks. rewrite (only_polish_map_prs _ _ (escalate_polish _)).
  destruct (drop_polish_map (ms_skip_polish request) (cap_merges (ms_max_total_merges request)
    (map (classify_one (ms_require_approval request)) (ms_prs request)))) as (f & Hf & ->).
  rewrite (only_polish_map_prs _ _ Hf), cap_merges_prs, map_map.
  rewrite (map_ext _ id); [apply map_id|]. intros pr. apply classify_one_pr.
Qed.

Lemma tracks_merge request :
  map cp_pr (filter (fun c => on_track Track.A_MERGE c = true) (tracks request))
  = capped (ms_max_total_merges request) (filter (clear_to_merge (ms_require_approval request)) (ms_prs request)).
Proof.
  unfold tracks. rewrite (only_polish_merge _ _ (escalate_polish _)).
  destruct (drop_polish_map (ms_skip_polish request) (cap_merges (ms_max_total_merges request)
    (map (classify_one (ms_require_approval request)) (ms_prs request)))) as (f & Hf & ->).
  rewrite (only_polish_merge _ _ Hf), cap_merges_merge, <- merge_of_classified.
  unfold capped. destruct (_ >? _)%Z; [|done]. by rewrite firstn_map.
Qed.

(** The Track B of the request: what the history and [skip_polish] leave. *)
Lemma tracks_polish request c :
  c ∈ tracks request -> cp_track c = Track.B_POLISH ->
  c = classify_one (ms_require_approval request) (cp_pr c) /\ ms_skip_polish request = false
  /\ (_should_skip_polish (ms_failure_history request) (pr_key (pi_repo (cp_pr c)) (pi_number (cp_pr c)))).1 = false.
Proof.
  intros (d & -> & Hd)%list_elem_of_fmap Ht. unfold escalate in *.
  destruct (on_track Track.B_POLISH d) eqn:Hb; unfold on_track in Hb;
    [|apply bool_decide_eq_false in Hb; by destruct Hb].
  destruct (_should_skip_polish _ _) as [[] reason] eqn:Hs; [done|].
  assert (d ∈ cap_merges (ms_max_total_merges request)
            (map (classify_one (ms_require_approval request)) (ms_prs request)) /\ ms_skip_polish request = false)
    as [Hin Hk].
  { unfold drop_polish in Hd. destruct (ms_skip_polish request); [|done].
    apply list_elem_of_fmap in Hd as (e & -> & He). unfold on_track in *.
    destruct (decide (cp_track e = Track.B_POLISH)) as [E|E].
    - rewrite bool_decide_eq_true_2 in Ht by done. done.
    - rewrite bool_decide_eq_false_2 in Ht by done. done. }
  apply cap_merges_elem in Hin as [Hin|Hin]; [|congruence].
  apply list_elem_of_fmap in Hin as (pr & -> & _). rewrite Hs, classify_one_pr. by split_and!.
Qed.

(** Classification of a sweep: every pull request of the request comes out
    once, with its facts.  Those on Track A are, in listing order, the ones
    clear to merge (not a draft, mergeable, in no stale, unknown or blocked
    state, checks passed, not held by the review bot, approved as far as asked),
    the first [max_total_merges] of them when a cap is set.  One on Track B has
    a blocking issue that its categories name, polishing was not switched off,
    and its failure history does not rule it out. *)
Theorem sweep_classifies w cid completed request :
  let out := handle w cid completed request in
  map cp_pr (sr_classified out) ≡ₚ ms_prs request
  /\ map cp_pr (track_prs Track.A_MERGE out)
     = capped (ms_max_total_merges request) (filter (clear_to_merge (ms_require_approval request)) (ms_prs request))
  /\ (forall c, c ∈ track_prs Track.B_POLISH out ->
        ms_skip_polish request = false
        /\ (_should_skip_polish (ms_failure_history request) (pr_key (pi_repo (cp_pr c)) (pi_number (cp_pr c)))).1 = false
        /\ cp_failure_categories c = (polish_parts (cp_pr c) (ms_require_approval request)).*2
        /\ polish_parts (cp_pr c) (ms_require_approval request) <> []
        /\ pi_is_draft (cp_pr c) = false /\ pi_mergeable (cp_pr c) <> "UNKNOWN")
  /\ (sr_status out = "queued" <-> exists c, c ∈ sr_classified out /\ cp_track c <> Track.SKIP).
Proof.
  intros out. assert (sr_classified out = tracks request \/ sr_classified out = merge_first (tracks request)) as Hout.
  { unfold out. rewrite handle_classified. destruct (ms_use_lifecycle_ordering request); auto. }
  assert (sr_classified out ≡ₚ tracks request) as Hperm.
  { destruct Hout as [->| ->]; [done|apply merge_first_perm]. }
  split_and!.
  - rewrite <- tracks_prs. by apply Permutation_map.
  - rewrite <- tracks_merge. unfold track_prs. destruct Hout as [->| ->]; [done|]. by rewrite merge_first_track.
  - intros c [Ht Hc]%list_elem_of_filter. rewrite Hperm in Hc. apply bool_decide_eq_true in Ht.
    destruct (tracks_polish request c Hc Ht) as (He & H1 & H2). rewrite He in Ht.
    destruct (classify_polish _ _ Ht) as (H3 & H4 & H5 & H6). rewrite <- He in H3. by split_and!.
  - unfold out. unfold handle at 1. cbn [sr_status]. fold (sr_classified out).
    change (existsb actionable _) with (existsb actionable (sr_classified out)).
    destruct (existsb actionable (sr_classified out)) eqn:E; split; try done.
    + intros _. apply existsb_exists in E as (c & Hc & Ha). exists c. rewrite list_elem_of_In. split; [done|].
      unfold actionable, on_track in Ha. by apply negb_true_iff, bool_decide_eq_false in Ha.
    + intros (c & Hc & Ha). exfalso. apply not_true_iff_false in E. apply E, existsb_exists. exists c.
      rewrite <- list_elem_of_In. split; [done|]. unfold actionable, on_track. by rewrite bool_decide_eq_false_2.
Qed.

(** Ordering by the lifecycle orchestrator changes nothing: whatever its
    collaborators answer, its run under the default arm policy calls no merge,
    and the order of the calls is all the sweep takes from it; so every track
    has the listing order it has without the ordering, and the result lists
    Track A before the rest. *)
Theorem lifecycle_ordering_is_flat w cid completed request t :
  let out := handle w cid completed request in
  track_prs t out = filter (fun c => on_track t c = true) (tracks request)
  /\ (ms_use_lifecycle_ordering request = true -> sr_classified out = merge_first (tracks request))
  /\ merge_prs_of (PrSweep.handle (D := InmemoryDatabaseAdapter)
       (prebuilt_world w (track_prs Track.A_MERGE out)) (ordering_command cid) ((new_sweep_state, None), [])).1.2 = [].
Proof.
  intros out. split_and!.
  - unfold track_prs, out. rewrite handle_classified.
    destruct (ms_use_lifecycle_ordering request); [apply merge_first_track|done].
  - intros Ho. unfold out. by rewrite handle_classified, Ho.
  - destruct (emits_run _ _ ((new_sweep_state, None), []) (unenforced_no_merge (D := InmemoryDatabaseAdapter)
      (prebuilt_world w (track_prs Track.A_MERGE out)) (ordering_command cid) (or_intror eq_refl))) as (l & -> & Hp).
    by apply no_merge_prs.
Qed.

(** ** The two readings of the required checks *)

Definition pr_of_checks (checks : list Obj) : Obj := [("statusCheckRollup", JArr (map JObj checks))].

Lemma verdict_stricter c : Consumer.check_verdict_of c = CheckPassed -> Cli.check_verdict_of c = CheckPassed.
Proof.
  unfold Consumer.check_verdict_of, Cli.check_verdict_of.
  destruct (String.eqb_spec (conclusion_of c) "SUCCESS") as [->|]; [done|].
  unfold unpassed_verdict. repeat case_match; done.
Qed.
Lemma verdict_cases c :
  Cli.check_verdict_of c = Consumer.check_verdict_of c
  \/ Cli.check_verdict_of c = CheckPassed /\ Consumer.check_verdict_of c <> CheckPassed.
Proof.
  unfold Consumer.check_verdict_of, Cli.check_verdict_of.
  destruct (String.eqb_spec (conclusion_of c) "SUCCESS") as [->|]; [by left|].
  destruct (_ || _); [right|by left]. split; [done|]. unfold unpassed_verdict. repeat case_match; done.
Qed.

Definition with_checks (checks : bool * bool * bool) (i : ModelPRInfo) : ModelPRInfo :=
  i <| pi_required_checks_pass := checks.1.1 |> <| pi_required_checks_failed := checks.1.2 |>
    <| pi_required_checks_pending := checks.2 |>.

Lemma required_checks_dicts rollup required :
  omap_result Consumer.required_check rollup = Ok required ->
  filter (fun o => is_required o = true) (omap as_dict rollup) = required.
Proof.
  revert required. induction rollup as [|c rollup IH]; intros required; cbn [omap_result]; [by intros [= <-]|].
  intros (x & Hx & (ys & Hys & He)%result_bind_Ok)%result_bind_Ok. specialize (IH _ Hys).
  destruct c; try discriminate Hx. injection Hx as <-. injection He as <-.
  change (omap as_dict (JObj l :: rollup)) with (l :: omap as_dict rollup). rewrite filter_cons, <- IH.
  destruct (is_required l); [by rewrite decide_True|by rewrite decide_False].
Qed.

Lemma labels_dicts labels names :
  map_result (py_item "name") labels = Ok names ->
  map_result (fun lbl => py_item "name" (JObj lbl)) (omap as_dict labels) = Ok names.
Proof.
  revert names. induction labels as [|l labels IH]; intros names; cbn [map_result]; [done|].
  intros (x & Hx & (ys & Hys & He)%result_bind_Ok)%result_bind_Ok. specialize (IH _ Hys).
  destruct l; try discriminate Hx.
  change (omap as_dict (JObj l :: labels)) with (l :: omap as_dict labels). cbn [map_result]. by rewrite Hx, IH.
Qed.

(** (pass, failed, pending) against a reading that passes more checks. *)
Definition no_stricter (s s' : bool * bool * bool) : Prop :=
  (s.1.1 = true -> s'.1.1 = true) /\ (s'.1.2 = true -> s.1.2 = true) /\ (s'.2 = true -> s.2 = true).

Lemma existsb_weaken {A} (f g : A -> bool) l :
  (forall x, f x = true -> g x = true) -> existsb f l = true -> existsb g l = true.
Proof. intros Hfg. rewrite !existsb_exists. naive_solver. Qed.

Lemma check_state_stricter l :
  no_stricter (check_state (map Consumer.check_verdict_of l)) (check_state (map Cli.check_verdict_of l)).
Proof.
  assert (forall v, v <> CheckPassed ->
    existsb (fun v' => bool_decide (v' = v)) (map Cli.check_verdict_of l) = true ->
    existsb (fun v' => bool_decide (v' = v)) (map Consumer.check_verdict_of l) = true) as He.
  { intros v Hv. rewrite !existsb_exists. intros (x & (c & <- & Hc)%in_map_iff & Hx%bool_decide_eq_true).
    exists (Consumer.check_verdict_of c). split; [by apply in_map|]. apply bool_decide_eq_true.
    destruct (verdict_cases c) as [E|[E _]]; congruence. }
  unfold check_state, no_stricter. cbn [fst snd].
  pose proof (He CheckFailed ltac:(done)) as Hf. pose proof (He CheckPending ltac:(done)) as Hp.
  destruct (existsb _ (map Cli.check_verdict_of l)), (existsb _ (map Consumer.check_verdict_of l)),
    (existsb (fun v => bool_decide (v = CheckPending)) (map Cli.check_verdict_of l)),
    (existsb (fun v => bool_decide (v = CheckPending)) (map Consumer.check_verdict_of l)); naive_solver.
Qed.

Lemma required_state_stricter pr s :
  Consumer._required_check_state pr = Ok s ->
  exists s', Cli._required_check_state pr = Ok s' /\ no_stricter s s'.
Proof.
  unfold Consumer._required_check_state, Cli._required_check_state.
  intros (rollup & Hr & (required & Hq & Hs)%result_bind_Ok)%result_bind_Ok.
  apply required_checks_dicts in Hq. rewrite Hr. cbn [mbind result_bind]. rewrite Hq.
  destruct required as [|c required]; injection Hs as <-; eexists; (split; [done|]); [done|].
  apply (check_state_stricter (c :: required)).
Qed.

Section facts.
Context {P : Pydantic}.

Lemma pr_info_checks checks checks' labels pr repo n i :
  pr_info_of checks labels pr repo n = Ok i ->
  i = with_checks checks i /\ pr_info_of checks' labels pr repo n = Ok (with_checks checks' i).
Proof.
  unfold pr_info_of. destruct (dict_get "number" pr) as [raw|]; [|done].
  intros (number & H1 & (title & H2 & (mergeable & H3 & (status & H4 & (draft & H5 & (review & H6
    & (names & H7 & [= <-])%result_bind_Ok)%result_bind_Ok)%result_bind_Ok)%result_bind_Ok)%result_bind_Ok)%result_bind_Ok)%result_bind_Ok.
  split; [done|]. by rewrite H1, H2, H3, H4, H5, H6, H7.
Qed.

(** A pull request the consumer would merge, the command line would too. *)
Lemma consumer_info_stricter pr repo n i a :
  Consumer._to_pr_info pr repo n = Ok i ->
  exists i' s s', Cli._to_pr_info pr repo n = Ok i' /\ i = with_checks s i /\ i' = with_checks s' i /\ no_stricter s s'
    /\ (clear_to_merge a i -> clear_to_merge a i').
Proof.
  unfold Consumer._to_pr_info, Cli._to_pr_info. intros (s & Hs & Hi)%result_bind_Ok.
  destruct (required_state_stricter pr s Hs) as (s' & Hs' & Hle). rewrite Hs'. cbn [mbind result_bind].
  destruct (dict_get "number" pr) as [raw|]; [|done].
  apply result_bind_Ok in Hi as (labels & Hl & (names & Hn & Hi)%result_bind_Ok).
  rewrite Hl. cbn [mbind result_bind]. rewrite (labels_dicts _ _ Hn). cbn [mbind result_bind].
  destruct (pr_info_checks s s' _ _ _ _ _ Hi) as [H1 H2]. exists (with_checks s' i), s, s'. split_and!; try done.
  rewrite H1 at 1. unfold clear_to_merge. unfold with_checks. cbn. destruct Hle as [Hle _]. tauto.
Qed.
End facts.

Lemma map_ext_or {A B} (f g : A -> B) (l : list A) `{EqDecision B} :
  map f l = map g l \/ exists x, x ∈ l /\ f x <> g x.
Proof.
  induction l as [|x l IH]; [by left|]. destruct (decide (f x = g x)) as [E|E]; [|right; exists x; split; [constructor|done]].
  destruct IH as [IH|(y & Hy & Hn)]; [left; simpl; congruence|right; exists y; split; [by constructor|done]].
Qed.

(** A required check of the rollup that only the command line counts as passed. *)
Definition contested (pr : Obj) (check : Obj) : Prop :=
  exists rollup, py_iter (status_rollup pr) = Ok rollup /\ check ∈ omap as_dict rollup /\ is_required check = true
    /\ Cli.check_verdict_of check = CheckPassed /\ Consumer.check_verdict_of check <> CheckPassed.

Lemma required_state_contested pr s s' :
  Consumer._required_check_state pr = Ok s -> Cli._required_check_state pr = Ok s' ->
  s = s' \/ exists check, contested pr check.
Proof.
  unfold Consumer._required_check_state, Cli._required_check_state, contested.
  intros (rollup & Hr & (required & Hq & Hs)%result_bind_Ok)%result_bind_Ok. rewrite Hr. cbn [mbind result_bind].
  apply required_checks_dicts in Hq. rewrite Hq.
  destruct (map_ext_or Consumer.check_verdict_of Cli.check_verdict_of required) as [E|(c & Hc & Hn)].
  - intros Hs'. left. destruct required as [|c required]; congruence.
  - intros _. right. exists c, rollup. split; [done|]. rewrite <- Hq in Hc.
    apply list_elem_of_filter in Hc as [H1 H2]. destruct (verdict_cases c) as [E|[E1 E2]]; [congruence|]. by split_and!.
Qed.

(** The two entry points read one pull request alike except for its checks,
    and the consumer is never the laxer one: what it holds for passed the
    command line does, a pull request it puts on Track A the command line puts
    there, and they differ only over a required check that concluded NEUTRAL
    or SKIPPED or reports SUCCESS as its status alone. *)
Theorem consumer_never_laxer {P : Pydantic} pr repo n i a :
  Consumer._to_pr_info pr repo n = Ok i ->
  exists i' s s', Cli._to_pr_info pr repo n = Ok i' /\ i = with_checks s i /\ i' = with_checks s' i /\ no_stricter s s'
    /\ (cp_track (classify_one a i) = Track.A_MERGE -> cp_track (classify_one a i') = Track.A_MERGE)
    /\ (s <> s' -> exists check, contested pr check
          /\ (str_in (conclusion_of check) ["NEUTRAL"; "SKIPPED"] = true \/ status_of check = "SUCCESS")).
Proof.
  intros Hi. destruct (consumer_info_stricter pr repo n i a Hi) as (i' & s & s' & H1 & H2 & H3 & H4 & H5).
  unfold Consumer._to_pr_info in Hi. apply result_bind_Ok in Hi as (s0 & Hs & Hi).
  destruct (required_state_stricter pr s0 Hs) as (s0' & Hs' & _).
  exists i', s, s'. rewrite !classify_merge_iff. split_and!; try done. intros Hne.
  assert (s = s0 /\ s' = s0') as [-> ->].
  { destruct (dict_get "number" pr) as [raw|] eqn:Hraw; [|done].
    apply result_bind_Ok in Hi as (labels & Hl & (names & Hn & Hi)%result_bind_Ok).
    unfold Cli._to_pr_info in H1. rewrite Hs', Hraw in H1. cbn [mbind result_bind] in H1. rewrite Hl in H1.
    cbn [mbind result_bind] in H1. rewrite (labels_dicts _ _ Hn) in H1. cbn [mbind result_bind] in H1.
    destruct (pr_info_checks s0 s0' _ _ _ _ _ Hi) as [E1 E2]. rewrite E2 in H1. injection H1 as H1.
    destruct s as [[]], s' as [[]], s0 as [[]], s0' as [[]]. unfold with_checks in *. cbn in *.
    destruct i; cbn in *. split; congruence. }
  destruct (required_state_contested pr s0 s0' Hs Hs') as [E|(check & Hc)]; [congruence|].
  exists check. split; [done|]. destruct Hc as (rollup & _ & _ & _ & Hp & Hq).
  unfold Cli.check_verdict_of, Consumer.check_verdict_of in *.
  destruct (String.eqb_spec (conclusion_of check) "SUCCESS"); [done|].
  destruct (str_in (conclusion_of check) Cli.pass_conclusions) eqn:E1.
  - left. unfold Cli.pass_conclusions, str_in in *. cbn [existsb] in *.
    destruct (String.eqb_spec (conclusion_of check) "SUCCESS"); [done|]. exact E1.
  - destruct (str_in (status_of check) Cli.pass_statuses) eqn:E2; [right|exfalso; apply Hq, Hp].
    unfold Cli.pass_statuses, str_in in E2. cbn [existsb] in E2. rewrite orb_false_r in E2. by apply String.eqb_eq.
Qed.

(** A pull request whose one required check was skipped. *)
Definition skipped_check_pr : Obj :=
  [("number", JInt 7); ("mergeable", JStr "MERGEABLE"); ("mergeStateStatus", JStr "CLEAN");
   ("statusCheckRollup", JArr [JObj [("name", JStr "docs"); ("conclusion", JStr "SKIPPED");
                                     ("status", JStr "COMPLETED"); ("isRequired", JBool true)]])].
#[local] Existing Instance exact_fields.
Definition track_of (r : result ModelPRInfo) : option EnumPRTrack :=
  match r with Ok i => Some (cp_track (classify_one true i)) | Raise _ => None end.

(** The command line merges it, the consumer never touches it. *)
Example skipped_check_tracks :
  track_of (Cli._to_pr_info skipped_check_pr "o/r" None) = Some Track.A_MERGE
  /\ track_of (Consumer._to_pr_info skipped_check_pr "o/r" None) = Some Track.SKIP.
Proof. split; reflexivity. Qed.

Lemma consumer_never_laxer_witness :
  exists i i' s s', Consumer._to_pr_info skipped_check_pr "o/r" None = Ok i
    /\ Cli._to_pr_info skipped_check_pr "o/r" None = Ok i' /\ i = with_checks s i /\ i' = with_checks s' i
    /\ no_stricter s s'.
Proof.
  eexists. assert (Consumer._to_pr_info skipped_check_pr "o/r" None = Ok _) as Hi by (vm_compute; reflexivity).
  destruct (consumer_never_laxer skipped_check_pr "o/r" None _ true Hi) as (i' & s & s' & H1 & H2 & H3 & H4 & _).
  exists i', s, s'. split_and!; [exact Hi|exact H1|exact H2|exact H3|exact H4].
Defined.

(** ** The pages of the open pull requests *)

Section pages.
Context (rest_url graphql_url : string) (w_http : list HttpRequest -> HttpRequest -> http_answer) (token : string).
Context (owner name : string).

(** The data of the page asked for with a cursor after the calls [l]. *)
Definition page_call (cursor : json) : M unit HttpRequest (api Obj) :=
  graphql graphql_url w_http _PR_GRAPHQL_QUERY (page_variables owner name cursor) token.
Definition page_data (l : list HttpRequest) (cursor : json) (repo_data : option json) : Prop :=
  exists data, (page_call cursor ((), l)).2 = Ok (Answer data) /\ dict_get "repository" data = repo_data.
Definition asked (l : list HttpRequest) (cursor : json) : list HttpRequest := (page_call cursor ((), l)).1.2.

(** The pages from a cursor on: each read after the ones before it, the last
    one without a next page (or the repository gone). *)
Inductive Paged : list HttpRequest -> json -> list (list Obj) -> Prop :=
  | repository_gone l cursor repo_data :
      page_data l cursor repo_data -> truthy (default JNull repo_data) = false -> Paged l cursor []
  | last_page l cursor repo_data prs :
      page_data l cursor (Some repo_data) -> truthy repo_data = true -> read_page repo_data = Ok (prs, None) ->
      Paged l cursor [prs]
  | next_page l cursor repo_data prs next pages :
      page_data l cursor (Some repo_data) -> truthy repo_data = true -> read_page repo_data = Ok (prs, Some next) ->
      Paged (asked l cursor) next pages -> Paged l cursor (prs :: pages).

Lemma page_call_run cursor l : page_call cursor ((), l) = (((), asked l cursor), (page_call cursor ((), l)).2).
Proof. unfold asked. by destruct (page_call cursor ((), l)) as [[[] ?] ?]. Qed.

Lemma fetch_pages_all l cursor pages : Paged l cursor pages -> forall fuel acc, length pages < fuel ->
  (fetch_pages graphql_url w_http token fuel owner name cursor acc ((), l)).2 = Ok (Some (Answer (acc ++ concat pages))).
Proof.
  induction 1 as [l cursor rd (data & Hd & He) Hf|l cursor rd prs (data & Hd & He) Ht Hr
                 |l cursor rd prs next pages (data & Hd & He) Ht Hr Hp IH];
    intros [|fuel] acc Hfuel; try (simpl in Hfuel; lia); cbn [fetch_pages]; fold (page_call cursor);
    unfold mbind at 1, M_bind at 1; rewrite page_call_run, Hd; rewrite He.
  - rewrite app_nil_r. destruct rd as [j|]; [|done]. change (default JNull (Some j)) with j in Hf. by rewrite Hf.
  - rewrite Ht. unfold mbind, M_bind, lift. change (default JNull (Some rd)) with rd. rewrite Hr. cbn [fst snd concat]. by rewrite app_nil_r.
  - rewrite Ht. unfold mbind, M_bind, lift. change (default JNull (Some rd)) with rd. rewrite Hr. cbn [fst snd concat].
    rewrite (IH fuel) by (simpl in Hfuel; lia). by rewrite app_assoc.
Qed.

(** A server that keeps announcing a next page without a cursor is asked for
    its first page for ever. *)
Lemma falsy_cursor_never_ends prs :
  (forall l cursor, exists repo_data, page_data l cursor (Some repo_data) /\ truthy repo_data = true
     /\ read_page repo_data = Ok (prs, Some JNull)) ->
  forall fuel acc l cursor,
    (fetch_pages graphql_url w_http token fuel owner name cursor acc ((), l)).2 = Ok None.
Proof.
  intros Hserver. induction fuel as [|fuel IH]; intros acc l cursor; [done|]. cbn [fetch_pages]. fold (page_call cursor).
  unfold mbind at 1, M_bind at 1. rewrite page_call_run.
  destruct (Hserver l cursor) as (rd & (data & Hd & He) & Ht & Hr). rewrite Hd, He, Ht.
  unfold mbind, M_bind, lift. change (default JNull (Some rd)) with rd. rewrite Hr. cbn [fst snd]. apply IH.
Qed.
End pages.

(** Reading the open pull requests of a repository ends as soon as GitHub
    has a last page, with fuel for one call more than there are pages, and
    returns the pull requests of all of them in order; a slug without owner or
    name is refused without a call. *)
Theorem open_prs_read_every_page graphql_url w_http token repo owner name pages fuel :
  split_repo repo = Answer (owner, name) ->
  Paged graphql_url w_http token owner name [] JNull pages -> length pages < fuel ->
  (fetch_open_prs graphql_url w_http token fuel repo ((), [])).2 = Ok (Some (Answer (concat pages)))
  /\ (forall bad m status, split_repo bad = GitHubApiError m status ->
        fetch_open_prs graphql_url w_http token fuel bad ((), []) = (((), []), Ok (Some (GitHubApiError m status)))).
Proof.
  intros Hrepo Hp Hf. split.
  - unfold fetch_open_prs. rewrite Hrepo. by rewrite (fetch_pages_all _ _ _ _ _ _ _ _ Hp fuel []).
  - intros bad m status Hb. unfold fetch_open_prs. by rewrite Hb.
Qed.

(** A repository with two pages of one pull request each. *)
Definition page_body (number : Z) (info : Obj) : string :=
  json_dumps (JObj [("data", JObj [("repository", JObj [("pullRequests", JObj [
    ("nodes", JArr [JObj [("number", JInt number)]]); ("pageInfo", JObj info)])])])]).
Definition two_pages (l : list HttpRequest) (rq : HttpRequest) : http_answer :=
  match l with
  | [] => HttpBody (page_body 1 [("hasNextPage", JBool true); ("endCursor", JStr "c1")])
  | _ => HttpBody (page_body 2 [("hasNextPage", JBool false)])
  end.
Lemma open_prs_read_every_page_witness :
  exists p1 p2, (fetch_open_prs "url" two_pages "token" 3 "o/r" ((), [])).2 = Ok (Some (Answer (concat [[p1]; [p2]])))
    /\ dict_get "number" p1 = Some (JInt 1) /\ dict_get "number" p2 = Some (JInt 2).
Proof.
  eexists _, _. split.
  - apply (open_prs_read_every_page "url" two_pages "token" "o/r" "o" "r"); [reflexivity| |simpl; lia].
    eapply next_page; [eexists; split; vm_compute; reflexivity|reflexivity|vm_compute; reflexivity|].
    eapply last_page; [eexists; split; vm_compute; reflexivity|reflexivity|vm_compute; reflexivity].
  - split; reflexivity.
Defined.
