(* ===== verification/SweepTriageProps.v ===== *)
(** * What the commands of a merge sweep are justified by

    Every command [SweepTriage.handle] emits belongs to a classified pull
    request that meets the conditions of its row of the decision table, the
    count every command carries, and that the legacy arming of merges is off
    unless its flag is set. *)
From S2P Require Import Prelude PyJson PyDyn LogMonad GithubApi PrModels MergeControl Triage PrLedger LedgerNative PrRouting PrSweep SweepTracks SweepTriage SweepReducer.

(** ** The table *)

Definition approved_enough (pr : ModelPRInfo) : Prop :=
  pi_review_decision pr = Some "APPROVED" \/ pi_required_approving_review_count pr = Some 0%Z
  \/ pi_required_approving_review_count pr = None.

(** A required check failed, or none passed and none is still running. *)
Definition checks_terminally_failed (pr : ModelPRInfo) : Prop :=
  pi_required_checks_failed pr = true
  \/ (pi_required_checks_pass pr = false /\ pi_required_checks_pending pr = false).

Definition in_state (pr : ModelPRInfo) (mergeable status : string) : Prop :=
  pi_mergeable pr = mergeable /\ pi_merge_state_status pr = status.
Definition on_track_a (c : ModelClassifiedPR) : Prop := cp_track c = Track.A_MERGE \/ cp_track c = Track.A_UPDATE.

(** The row of the table for a remediation command. *)
Definition row (legacy_arm : option string) (c : ModelClassifiedPR) (cmd : command) : Prop :=
  let pr := cp_pr c in
  match cmd with
  | Arm a =>
      on_track_a c /\ in_state pr "MERGEABLE" "CLEAN" /\ approved_enough pr /\ pi_required_checks_pass pr = true
      /\ env_flag legacy_arm false = true
  | Rebase b =>
      in_state pr "MERGEABLE" "BEHIND"
      /\ ((on_track_a c /\ approved_enough pr /\ pi_required_checks_pass pr = true)
          \/ (cp_track c = Track.B_POLISH /\ checks_terminally_failed pr))
      /\ rb_head_ref_name b <> "" /\ rb_base_ref_name b <> "" /\ rb_head_ref_oid b <> ""
  | CiRerun r =>
      cp_track c = Track.B_POLISH /\ in_state pr "MERGEABLE" "BLOCKED"
      /\ match rr_retrigger_mode r with
         | rerun_failed => checks_terminally_failed pr /\ rr_run_id_github r <> ""
         | empty_commit => ~ checks_terminally_failed pr /\ rr_run_id_github r = "" /\ rr_head_branch r <> ""
                           /\ rr_head_sha r <> "" /\ rr_missing_required_contexts r <> []
         end
  | ThreadReply t => cp_track c = Track.A_RESOLVE /\ tc_thread_comment_ids t <> []
  | ConflictHunk h =>
      cp_track c = Track.B_POLISH /\ in_state pr "CONFLICTING" "DIRTY" /\ ch_head_ref_name h <> "" /\ ch_base_ref_name h <> ""
  | CiFix f =>
      cp_track c = Track.B_POLISH /\ pi_mergeable pr <> "CONFLICTING" /\ pi_merge_state_status pr = "DIRTY"
      /\ cf_run_id_github f <> ""
  | PrPolish _ => False
  end.

(** What the universal gates ask of a pull request any command is for. *)
Definition gate_open (c : ModelClassifiedPR) : Prop :=
  pi_is_draft (cp_pr c) = false /\ pi_review_decision (cp_pr c) <> Some "CHANGES_REQUESTED"
  /\ pi_mergeable (cp_pr c) <> "UNKNOWN" /\ pi_merge_state_status (cp_pr c) <> "UNKNOWN" /\ cp_track c <> Track.SKIP.

Lemma terminal_failure_iff pr : _has_terminal_check_failure pr = true <-> checks_terminally_failed pr.
Proof.
  unfold _has_terminal_check_failure, checks_terminally_failed.
  rewrite orb_true_iff, andb_true_iff, !negb_true_iff. done.
Qed.
Lemma gate_cleared_enough pr :
  _approval_gate_cleared (pi_review_decision pr) (pi_required_approving_review_count pr) = true -> approved_enough pr.
Proof.
  unfold _approval_gate_cleared, approved_enough. case_bool_decide; [done|]. case_bool_decide; [by left|].
  destruct (pi_required_approving_review_count pr) as [n|]; simpl; [|auto]. rewrite Z.eqb_eq. intros ->. auto.
Qed.

Lemma truthy_str_ne (s : string) : truthy s = true <-> s <> "".
Proof. by destruct s. Qed.
Lemma truthy_list_ne {A} (l : list A) : truthy l = true <-> l <> [].
Proof. by destruct l. Qed.

Section table.
Context {P : Pydantic} {PL : PydanticLaws}.
Context (w_gh : list (list string) -> list string -> gh_answer) (legacy_arm : option string) (now : datetime).

Lemma refs_found rp n :
  gives (_resolve_pr_refs w_gh rp n) (fun o => match o with
    | Some (head, base, oid) => truthy head = true /\ truthy base = true /\ truthy oid = true | None => True end).
Proof.
  unfold _resolve_pr_refs. eapply gives_bind; [apply gives_any|]. intros [out|] _; [|by apply gives_ret].
  apply gives_lift. intros a Ha.
  destruct (data ← json_loads out; _) as [x|e] eqn:Hx; cbn [catching] in Ha.
  - injection Ha as <-. apply result_bind_Ok in Hx as (data & _ & (head & _ & (base & _ & (oid & _ & [= <-])%result_bind_Ok)%result_bind_Ok)%result_bind_Ok).
    destruct (_ || _) eqn:E; [done|]. breflect. by split_and!.
  - destruct (decode_or_attribute e); [by injection Ha as <-|done].
Qed.

Lemma text_of_truthy model j s : truthy j = true -> text_field model j = Ok s -> s <> "".
Proof using PL.
  unfold text_field, check. destruct (lax_str j) as [t|] eqn:Ht; [|done]. apply lax_str_only in Ht as ->.
  intros Hs [= <-]. by apply truthy_str_ne.
Qed.

Lemma first_run_truthy checks r : first_failing_run checks = Ok (Some r) -> r <> "".
Proof.
  induction checks as [|c checks IH]; cbn [first_failing_run]; [done|].
  intros ([] & _ & Hr)%result_bind_Ok; [|by apply IH].
  apply result_bind_Ok in Hr as (url & _ & Hr). destruct (_run_id_from_details_url _) as [id|]; [|by apply IH].
  destruct (truthy id) eqn:Ht; [injection Hr as <-; by apply truthy_str_ne|by apply IH].
Qed.
Lemma run_id_found rp n :
  gives (_resolve_failing_run_id w_gh rp n) (fun o => match o with Some r => r <> "" | None => True end).
Proof.
  unfold _resolve_failing_run_id. eapply gives_bind; [apply gives_any|]. intros [out|] _; [|by apply gives_ret].
  apply gives_lift. intros a Ha. destruct (data ← json_loads out; _) as [x|e] eqn:Hx; cbn [catching] in Ha.
  - injection Ha as <-. apply result_bind_Ok in Hx as (data & _ & (checks & _ & Hr)%result_bind_Ok).
    destruct x as [r|]; [|done]. by apply first_run_truthy in Hr.
  - destruct (decode_or_attribute e); [by injection Ha as <-|done].
Qed.

(** A command for the pull request, justified by its row. *)
Definition justified (c : ModelClassifiedPR) (o : option command) : Prop :=
  match o with Some cmd => command_key cmd = classified_key c /\ row legacy_arm c cmd | None => True end.

Lemma rebase_justified c run cid total :
  in_state (cp_pr c) "MERGEABLE" "BEHIND" ->
  ((on_track_a c /\ approved_enough (cp_pr c) /\ pi_required_checks_pass (cp_pr c) = true)
   \/ (cp_track c = Track.B_POLISH /\ checks_terminally_failed (cp_pr c))) ->
  gives (rebase_command w_gh (cp_pr c) run cid total) (justified c).
Proof using PL.
  intros Hst Hwhy. unfold rebase_command. eapply gives_bind; [apply refs_found|].
  intros [[[head base] oid]|] Hrefs; [|by apply gives_ret]. destruct Hrefs as (H1 & H2 & H3).
  eapply gives_bind; [apply gives_lift; intros s; apply (text_of_truthy _ _ _ H1)|]. intros h Hh.
  eapply gives_bind; [apply gives_lift; intros s; apply (text_of_truthy _ _ _ H2)|]. intros b Hb.
  eapply gives_bind; [apply gives_lift; intros s; apply (text_of_truthy _ _ _ H3)|]. intros o Ho.
  apply gives_ret. split; [done|]. cbn. by split_and!.
Qed.

Lemma track_a_justified c run cid total :
  on_track_a c -> gives (_classify_track_a w_gh legacy_arm (cp_pr c) run cid total) (justified c).
Proof using PL.
  intros Ht. unfold _classify_track_a. cbv zeta.
  destruct (String.eqb_spec (pi_mergeable (cp_pr c)) "MERGEABLE") as [Hm|]; cbn [andb]; [|by apply gives_ret].
  destruct (_approval_gate_cleared _ _) eqn:Hg; [apply gate_cleared_enough in Hg|rewrite !andb_false_r; by apply gives_ret].
  destruct (pi_required_checks_pass _) eqn:Hp; [|rewrite !andb_false_r; by apply gives_ret]. rewrite !andb_true_r.
  destruct (String.eqb_spec (pi_merge_state_status (cp_pr c)) "CLEAN") as [Hs|].
  - destruct (env_flag legacy_arm false) eqn:Hf; cbn [negb]; [|by apply gives_ret].
    eapply gives_bind; [apply gives_any|]. intros [id head] _. cbn [fst snd].
    assert (forall node_id, gives (
      node_id ← lift (text_field "ModelAutoMergeArmCommand" node_id);
      head ← lift (text_field "ModelAutoMergeArmCommand" (or_else (JStr EmptyString) head));
      mret (Some (Arm {| am_pr_number := pi_number (cp_pr c); am_repo := pi_repo (cp_pr c); am_pr_node_id := node_id;
                         am_head_ref_name := head; am_correlation_id := cid; am_run_id := run;
                         am_total_prs := total |})) : M unit (list string) _) (justified c)) as Harm.
    { intros node_id. eapply gives_bind; [apply gives_any|]. intros i _.
      eapply gives_bind; [apply gives_any|]. intros h _. apply gives_ret. split; [done|]. cbn. by split_and!. }
    destruct id as [[]|]; try apply Harm; by apply gives_ret.
  - destruct (String.eqb_spec (pi_merge_state_status (cp_pr c)) "BEHIND"); [|by apply gives_ret].
    apply rebase_justified; [by split|by left].
Qed.

Lemma gap_found rp n base :
  gives (_resolve_event_delivery_gap w_gh rp n base) (fun _ => True).
Proof. apply gives_any. Qed.

Lemma rerun_valid r c : validate_retrigger_variant r = Ok c ->
  c = r /\ match rr_retrigger_mode r with
           | rerun_failed => rr_run_id_github r <> ""
           | empty_commit => rr_run_id_github r = "" /\ rr_head_branch r <> "" /\ rr_head_sha r <> ""
           end.
Proof.
  unfold validate_retrigger_variant. destruct (rr_retrigger_mode r).
  - destruct (rr_run_id_github r); [done|]. by intros [= <-].
  - destruct (rr_run_id_github r); [|done]. destruct (rr_head_branch r); [done|].
    destruct (rr_head_sha r); [done|]. by intros [= <-].
Qed.

Lemma track_b_justified c run cid total :
  cp_track c = Track.B_POLISH -> gives (_classify_track_b w_gh (cp_pr c) run cid total) (justified c).
Proof using PL.
  intros Ht. unfold _classify_track_b. cbv zeta.
  destruct (String.eqb_spec (pi_merge_state_status (cp_pr c)) "DIRTY") as [Hd|Hd]; rewrite ?andb_false_r, ?andb_true_r.
  - destruct (String.eqb_spec (pi_mergeable (cp_pr c)) "CONFLICTING") as [Hm|Hm].
    + eapply gives_bind; [apply refs_found|]. intros [[[head base] oid]|] Hrefs; [|by apply gives_ret].
      destruct Hrefs as (H1 & H2 & _). eapply gives_bind; [apply gives_any|]. intros files _.
      eapply gives_bind; [apply gives_lift; intros s; apply (text_of_truthy _ _ _ H1)|]. intros h Hh.
      eapply gives_bind; [apply gives_lift; intros s; apply (text_of_truthy _ _ _ H2)|]. intros b Hb.
      eapply gives_bind; [apply gives_any|]. intros fs _. apply gives_ret. split; [done|]. by cbn.
    + eapply gives_bind; [apply run_id_found|]. intros [r|] Hr; [|by apply gives_ret].
      eapply gives_bind; [apply gives_any|]. intros job _. eapply gives_bind; [apply gives_any|]. intros name _.
      apply gives_ret. split; [done|]. by cbn.
  - destruct (String.eqb_spec (pi_mergeable (cp_pr c)) "MERGEABLE") as [Hm|Hm]; cbn [andb]; [|by apply gives_ret].
    destruct (String.eqb_spec (pi_merge_state_status (cp_pr c)) "BLOCKED") as [Hb|Hb]; cbn [andb].
    + destruct (_has_terminal_check_failure (cp_pr c)) eqn:Hf.
      * eapply gives_bind; [apply run_id_found|]. intros [r|] Hr; [|by apply gives_ret].
        eapply gives_bind; [apply gives_lift, rerun_valid|]. intros x [-> Hx]. apply gives_ret. split; [done|].
        cbn. cbn in Hx. split_and!; try done. by apply terminal_failure_iff.
      * eapply gives_bind; [apply gives_any|]. intros [[missing branch] sha] _.
        destruct (truthy missing) eqn:Hmiss; cbn [andb]; [|by apply gives_ret].
        destruct (truthy branch); [|by apply gives_ret].
        eapply gives_bind; [apply gives_lift, rerun_valid|]. intros x [-> Hx]. apply gives_ret. split; [done|].
        cbn. cbn in Hx. destruct Hx as (H1 & H2 & H3). split_and!; try done; [|by apply truthy_list_ne].
        rewrite <- terminal_failure_iff. congruence.
    + destruct (String.eqb_spec (pi_merge_state_status (cp_pr c)) "BEHIND"); cbn [andb]; [|by apply gives_ret].
      destruct (_has_terminal_check_failure (cp_pr c)) eqn:Hf; [|by apply gives_ret].
      apply rebase_justified; [by split|]. right. split; [done|]. by apply terminal_failure_iff.
Qed.

Lemma a_resolve_justified c run cid :
  cp_track c = Track.A_RESOLVE -> gives (_classify_a_resolve w_gh (cp_pr c) run cid) (justified c).
Proof.
  intros Ht. unfold _classify_a_resolve. eapply gives_bind; [apply gives_any|]. intros [|id ids] _; [by apply gives_ret|].
  cbn [negb truthy truthy_list].
  eapply gives_bind; [apply gives_lift; intros a Ha; exact Ha|]. intros texts Htexts. apply gives_ret.
  split; [done|]. cbn. split; [done|]. apply map_result_Forall2 in Htexts. by inversion Htexts.
Qed.

Lemma command_justified c run cid total :
  gives (_classify_to_command w_gh legacy_arm c run cid total)
    (fun o => justified c o /\ (o = None \/ gate_open c)).
Proof using PL.
  assert (forall m : M unit (list string) (option command), gives m (justified c) -> gate_open c -> gives m (fun o => justified c o /\ (o = None \/ gate_open c)))
    as Hopen.
  { intros m Hm Hg. eapply gives_weaken; [exact Hm|]. intros o Ho. split; [exact Ho|by right]. }
  assert (gives (mret None : M unit (list string) _) (fun o => justified c o /\ (o = None \/ gate_open c)))
    as Hnone by (apply gives_ret; split; [done|by left]).
  unfold _classify_to_command. cbv zeta.
  destruct (pi_is_draft (cp_pr c)) eqn:Hd; [done|]. case_bool_decide as Hr; [done|].
  destruct (String.eqb_spec (pi_mergeable (cp_pr c)) "UNKNOWN"); [done|].
  destruct (String.eqb_spec (pi_merge_state_status (cp_pr c)) "UNKNOWN"); [done|].
  assert (cp_track c <> Track.SKIP -> gate_open c) as Hgate by (intros Hs; by split_and!).
  destruct (cp_track c) eqn:Ht; [..|done].
  - apply Hopen; [apply track_a_justified; by right|by apply Hgate].
  - apply Hopen; [apply track_a_justified; by left|by apply Hgate].
  - apply Hopen; [by apply a_resolve_justified|by apply Hgate].
  - apply Hopen; [by apply track_b_justified|by apply Hgate].
Qed.

(** *** The handler *)

(** A command of the output [cmds]: a remediation justified by its row, or the polish
    command beside the remediation of the same pull request. *)
Definition emitted_for (request : ModelTriageRequest) (cmds : list command) (cmd : command) : Prop :=
  exists c, c ∈ sr_classified (tq_classification request) /\ gate_open c /\ command_key cmd = classified_key c
    /\ (row legacy_arm c cmd
        \/ (tq_emit_pr_polish_commands request = true /\ cp_track c = Track.B_POLISH
            /\ cmd = polish_command now request (cp_pr c)
            /\ exists remedy, remedy ∈ cmds /\ command_key remedy = classified_key c /\ row legacy_arm c remedy)).
Lemma emitted_mono request cmds cmds' cmd : cmds ⊆ cmds' -> emitted_for request cmds cmd -> emitted_for request cmds' cmd.
Proof.
  intros Hsub (c & ? & ? & ? & [?|(? & ? & ? & r & Hr & ?)]); exists c; split_and!; try done; [by left|right].
  split_and!; try done. exists r. split; [by apply Hsub|done].
Qed.

Lemma collected request :
  gives (fold_each (sr_classified (tq_classification request)) [] (collect_commands w_gh legacy_arm now request))
    (fun raw => Forall (emitted_for request raw) raw).
Proof using PL.
  apply gives_fold; [constructor|]. intros raw c Hc Hraw. unfold collect_commands.
  eapply gives_bind; [apply command_justified|]. intros [cmd|] [Hj Hg]; apply gives_ret; [|done].
  destruct Hg as [|Hg]; [done|]. destruct Hj as [Hk Hrow]. apply Forall_app. split.
  { eapply Forall_impl; [exact Hraw|]. intros x. apply emitted_mono. set_solver. }
  apply Forall_app. split.
  - destruct (tq_emit_pr_polish_commands request) eqn:He; cbn [andb]; [|constructor].
    unfold on_track. case_bool_decide as Ht; [|constructor]. apply Forall_singleton.
    exists c. split_and!; [done|done|done|right]. split_and!; [done|done|done|]. exists cmd. split_and!; [set_solver|done|done].
  - apply Forall_singleton. exists c. split_and!; [done|done|done|by left].
Qed.

Lemma with_total_key n c : command_key (with_total n c) = command_key c.
Proof. by destruct c. Qed.
Lemma with_total_row n c cmd : row legacy_arm c (with_total n cmd) <-> row legacy_arm c cmd.
Proof. by destruct cmd. Qed.
Lemma with_total_total n c m : command_total (with_total n c) = Some m -> m = n.
Proof. destruct c; simpl; congruence. Qed.
Lemma with_total_keys n l : map command_key (map (with_total n) l) = map command_key l.
Proof. rewrite map_map. apply map_ext. intros c. apply with_total_key. Qed.

Lemma handled request :
  gives (SweepTriage.handle w_gh legacy_arm now request)
    (fun cmds => exists raw, Forall (emitted_for request raw) raw /\ cmds = map (with_total (actionable_prs raw)) raw).
Proof using PL.
  unfold SweepTriage.handle. eapply gives_bind; [apply collected|]. intros raw Hraw. apply gives_ret. by exists raw.
Qed.
Lemma triage_totals request s s' cmds cmd n :
  SweepTriage.handle w_gh legacy_arm now request s = (s', Ok cmds) -> cmd ∈ cmds ->
  command_total cmd = Some n -> n = actionable_prs cmds.
Proof using PL.
  intros Hrun. destruct (handled _ _ _ _ Hrun) as (raw & _ & ->). intros (d & -> & _)%list_elem_of_fmap.
  intros ->%with_total_total. unfold actionable_prs. by rewrite with_total_keys.
Qed.

(** C27. The commands of a sweep are justified: each is for a classified pull
    request that is not a draft, is not asked to change, has a known state and
    was not skipped, and meets the conditions of its row of the decision table
    (an arming of a clean, approved, green Track A pull request only with the
    legacy flag set; a rebase of one behind its base; a rerun only where checks
    failed or a required context never ran; and so on), or is the polish command of a
    Track B pull request, which pushes nothing in a dry run, and then a remediation of
    the same pull request that meets its row is among the commands too.  The total a Phase 1 command carries is the
    number of pull requests the commands are for. *)
Theorem triage_commands_justified request s s' cmds cmd :
  SweepTriage.handle w_gh legacy_arm now request s = (s', Ok cmds) -> cmd ∈ cmds ->
  emitted_for request cmds cmd
  /\ (forall n, command_total cmd = Some n -> n = actionable_prs cmds).
Proof using PL.
  intros Hrun Hcmd. split; [|intros n; exact (triage_totals _ _ _ _ _ n Hrun Hcmd)].
  revert Hcmd. destruct (handled _ _ _ _ Hrun) as (raw & Hraw & ->). intros (d & -> & Hd)%list_elem_of_fmap.
  rewrite Forall_forall in Hraw. destruct (Hraw _ Hd) as (c & Hc & Ho & Hk & Hrow).
  exists c. split_and!; [done|done|by rewrite with_total_key|]. destruct Hrow as [Hrow|(H1 & H2 & -> & r & Hr & Hrk & Hrr)].
  - left. by apply with_total_row.
  - right. split_and!; [done|done|done|]. exists (with_total (actionable_prs raw) r). rewrite with_total_key, with_total_row.
    split_and!; [by apply list_elem_of_fmap_2|done|done].
Qed.
End table.

(** ** The legacy arming *)

Lemma env_flag_off raw : env_flag raw false = true <-> exists s, raw = Some s /\ py_lower (py_strip s) ∈ _TRUE_VALUES.
Proof.
  unfold env_flag. destruct raw as [s|]; [|naive_solver].
  destruct (str_in (py_lower (py_strip s)) _TRUE_VALUES) eqn:E.
  - split; [|done]. intros _. eexists. split; [done|by apply str_in_spec].
  - destruct (str_in (py_lower (py_strip s)) _FALSE_VALUES); (split; [done|]);
      intros (t & [= <-] & Ht%str_in_spec); congruence.
Qed.

(** The legacy arming of merges fails closed: unless its flag is set to one
    of the four true words, triage emits no command to arm and the effect
    refuses every one with its own error before it reads a secret or calls
    GitHub.  With the flag set the effect makes at most one call, and answers
    with the completion event alone exactly if the merge was armed. *)
Theorem legacy_arming_off {P : Pydantic} {PL : PydanticLaws} w_gh w_http w_secret url ref legacy_arm now :
  ((forall s, legacy_arm = Some s -> py_lower (py_strip s) ∉ _TRUE_VALUES) ->
     (forall request s s' cmds a, SweepTriage.handle w_gh legacy_arm now request s = (s', Ok cmds) -> Arm a ∉ cmds)
     /\ (forall a s, exists msg, handle_arm w_http legacy_arm url ref w_secret a s = (s, Raise (LegacyMergeArmDisabledError msg))))
  /\ (forall a s, exists l,
        (handle_arm w_http legacy_arm url ref w_secret a s).1.2 = s.2 ++ l /\ length l <= 1
        /\ forall events, (handle_arm w_http legacy_arm url ref w_secret a s).2 = Ok events ->
             exists e, ae_pr_number e = am_pr_number a /\ ae_repo e = am_repo a /\ ae_total_prs e = am_total_prs a
               /\ (if ae_armed e then events = [Armed e] else exists alert, events = [Armed e; UnarmedAlert alert])).
Proof.
  split.
  - intros Hoff. assert (env_flag legacy_arm false = false) as Hf.
    { destruct (env_flag legacy_arm false) eqn:E; [|done]. apply env_flag_off in E as (s & Hs & Hin).
      by destruct (Hoff s Hs). }
    split.
    + intros request s s' cmds a Hrun Ha. revert Ha.
      assert (gives (SweepTriage.handle w_gh legacy_arm now request) (fun cmds => Arm a ∉ cmds)) as Hg; [|by apply (Hg _ _ _ Hrun)].
      unfold SweepTriage.handle. eapply gives_bind; [apply collected|]. intros raw Hraw. apply gives_ret.
      intros (d & Hd & Hin)%list_elem_of_fmap. rewrite Forall_forall in Hraw.
      destruct (Hraw d Hin) as (c & _ & _ & _ & [Hrow|(_ & _ & -> & _)]); [|done].
      destruct d; try done. destruct Hrow as (_ & _ & _ & _ & Hflag). congruence.
    + intros a s. unfold handle_arm. mrun. unfold require_legacy_merge_arm_enabled. rewrite Hf. by eexists.
  - intros a [[] l0]. unfold handle_arm. mrun.
    destruct (require_legacy_merge_arm_enabled _ _ _ _) as [[]|e]; [|exists []; rewrite app_nil_r; split_and!; [done|simpl; lia|done]].
    unfold ask. cbn [snd]. mrun.
    destruct (w_secret l0) as [[token|]|e]; [|exists []; rewrite app_nil_r; split_and!; [done|simpl; lia|done]..].
    unfold _arm. mrun. eexists [_]. split_and!.
    + destruct (w_http l0 _) as [raw|? ? ?|?]; cbn [fst snd]; try done.
      destruct (json_loads raw); [|done]. destruct (py_get "errors" a0) as [[e|]|]; try done. cbn. by destruct (truthy e).
    + simpl; lia.
    + intros events. destruct (_ : result (bool * option string)) as [[armed err]|e]; [|done]. cbn [fst snd].
      intros [= <-]. exists {| ae_pr_number := am_pr_number a; ae_repo := am_repo a; ae_correlation_id := am_correlation_id a;
        ae_run_id := am_run_id a; ae_total_prs := am_total_prs a; ae_armed := armed; ae_error := err |}.
      split_and!; [done..|]. destruct armed; [done|]. by eexists.
Qed.

(** A pull request asked to change is on Track B for that reason, and triage
    emits nothing for it on any track: the gate comes before the table's rows. *)
Lemma changes_requested_gets_nothing {P : Pydantic} w_gh legacy_arm c run cid total s :
  pi_review_decision (cp_pr c) = Some "CHANGES_REQUESTED" ->
  _classify_to_command w_gh legacy_arm c run cid total s = (s, Ok None).
Proof.
  intros Hr. unfold _classify_to_command. cbv zeta. destruct (pi_is_draft _); [done|].
  by rewrite bool_decide_eq_true_2.
Qed.

(** ** Concrete runs *)

Definition demo_info (number : Z) (status : string) (pass pending : bool) : ModelPRInfo :=
  {| pi_number := number; pi_title := "t"; pi_repo := "o/r"; pi_mergeable := "MERGEABLE"; pi_merge_state_status := status;
     pi_is_draft := false; pi_review_decision := Some "APPROVED"; pi_required_checks_pass := pass;
     pi_required_checks_failed := false; pi_required_checks_pending := pending; pi_labels := [];
     pi_review_bot_gate_passed := None; pi_required_approving_review_count := None; pi_head_sha := None;
     pi_pr_node_id := None; pi_head_ref_name := None; pi_base_ref_name := None; pi_failing_run_id_github := None;
     pi_failing_job_name := None; pi_open_thread_comment_ids := []; pi_changed_file_paths := [] |}.
Definition demo_classified (t : EnumPRTrack) (i : ModelPRInfo) : ModelClassifiedPR :=
  {| cp_pr := i; cp_track := t; cp_reason := "r"; cp_failure_categories := [] |}.
(** One behind its base; one on Track B whose required context never ran. *)
Definition behind_pr : ModelClassifiedPR := demo_classified Track.A_UPDATE (demo_info 1 "BEHIND" true false).
Definition stalled_pr : ModelClassifiedPR := demo_classified Track.B_POLISH (demo_info 2 "BLOCKED" false true).
Definition demo_request (prs : list ModelClassifiedPR) : ModelTriageRequest :=
  {| tq_classification := {| sr_classified := prs; sr_status := "queued";
       sr_failure_history_summary := _compute_failure_summary ∅ |};
     tq_run_id := "run"; tq_correlation_id := "cid"; tq_total_prs := 0; tq_emit_pr_polish_commands := true;
     tq_dry_run := true |}.
(** A command line that knows the branches, the one required context, and the
    head commit [head_oid]. *)
Definition demo_gh (head_oid : json) (l : list (list string)) (args : list string) : gh_answer :=
  if bool_decide (List.nth 1 args "" = "api") then GhOutput (json_dumps (JArr [JStr "build"]))
  else GhOutput (json_dumps (JObj [("headRefName", JStr "topic"); ("baseRefName", JStr "main"); ("headRefOid", head_oid);
                                   ("statusCheckRollup", JArr [])])).
#[local] Existing Instance exact_fields.
Definition demo_commands (head_oid : json) (prs : list ModelClassifiedPR) : result (list command) :=
  (SweepTriage.handle (demo_gh head_oid) None 0 (demo_request prs) ((), [])).2.
Definition command_names (r : result (list command)) : result (list string) :=
  (map (fun c => match c with
                 | Arm _ => "arm" | Rebase _ => "rebase" | CiRerun _ => "rerun" | ThreadReply _ => "reply"
                 | ConflictHunk _ => "conflict" | CiFix _ => "fix" | PrPolish _ => "polish" end)) <$> r.

Example demo_fanout :
  command_names (demo_commands (JStr "abc") [behind_pr; stalled_pr]) = Ok ["rebase"; "polish"; "rerun"].
Proof. vm_compute. reflexivity. Qed.

(** A stalled pull request whose head commit GitHub does not name makes the
    rerun command invalid, and the whole sweep raises: the pull requests before
    it and after it get no command. *)
Remark missing_sha_fails_fanout :
  demo_commands JNull [stalled_pr; behind_pr] = Raise (OtherError "ValidationError" "empty_commit requires head_sha")
  /\ command_names (demo_commands (JStr "abc") [behind_pr]) = Ok ["rebase"].
Proof. split; vm_compute; reflexivity. Qed.

Lemma triage_commands_justified_witness :
  exists s' cmds cmd, SweepTriage.handle (demo_gh (JStr "abc")) None 0 (demo_request [behind_pr; stalled_pr]) ((), []) = (s', Ok cmds)
    /\ cmd ∈ cmds /\ emitted_for None 0 (demo_request [behind_pr; stalled_pr]) cmds cmd
    /\ (forall n, command_total cmd = Some n -> n = actionable_prs cmds).
Proof.
  eexists _, _, _. split; [vm_compute; reflexivity|]. split; [apply elem_of_cons; by left|].
  apply (triage_commands_justified (PL := exact_fields_laws) (demo_gh (JStr "abc")) None 0
           (demo_request [behind_pr; stalled_pr]) ((), []) _ _ _ ltac:(vm_compute; reflexivity)).
  apply elem_of_cons. by left.
Defined.

(** Such a pull request is polished by the classifier's account. *)
Example changes_requested_on_track_b :
  let pr := {| pi_number := 3; pi_title := "t"; pi_repo := "o/r"; pi_mergeable := "MERGEABLE"; pi_merge_state_status := "CLEAN";
     pi_is_draft := false; pi_review_decision := Some "CHANGES_REQUESTED"; pi_required_checks_pass := true;
     pi_required_checks_failed := false; pi_required_checks_pending := false; pi_labels := [];
     pi_review_bot_gate_passed := None; pi_required_approving_review_count := None; pi_head_sha := None;
     pi_pr_node_id := None; pi_head_ref_name := None; pi_base_ref_name := None; pi_failing_run_id_github := None;
     pi_failing_job_name := None; pi_open_thread_comment_ids := []; pi_changed_file_paths := [] |} in
  (cp_track (classify_one true pr), cp_failure_categories (classify_one true pr)) = (Track.B_POLISH, ["changes_requested"]).
Proof. reflexivity. Qed.

(** The flag set to [flase], a typo: the effect refuses to arm. *)
Definition demo_arm : ModelAutoMergeArmCommand :=
  {| am_pr_number := 1; am_repo := "o/r"; am_pr_node_id := "PR_1"; am_head_ref_name := "topic"; am_correlation_id := "cid";
     am_run_id := "run"; am_total_prs := 1 |}.
Lemma legacy_arming_off_witness :
  exists msg, handle_arm (fun _ _ => NetworkError "down") (Some "flase") "url" "GITHUB_TOKEN" (fun _ => Ok None) demo_arm ((), [])
              = (((), []), Raise (LegacyMergeArmDisabledError msg)).
Proof.
  refine (proj2 (proj1 (legacy_arming_off (PL := exact_fields_laws) (demo_gh JNull) (fun _ _ => NetworkError "down")
    (fun _ => Ok None) "url" "GITHUB_TOKEN" (Some "flase") 0) _) demo_arm ((), [])).
  intros s [= <-]. rewrite <- str_in_spec. vm_compute. discriminate.
Defined.
