(* ===== verification/SweepReducerProps.v ===== *)
(** * What the aggregate state of a merge sweep counts

    The counters, the terminal event and the Phase 2 history
    [SweepReducer.run] keeps over any sequence of events, in terms of the
    events alone; and when a sweep whose commands triage emitted completes. *)
From S2P Require Import Prelude PyJson PyDyn LogMonad GithubApi PrModels MergeControl Triage PrLedger LedgerNative PrRouting PrSweep SweepTracks SweepTriage SweepReducer SweepTriageProps.

(** ** The key of a pull request is injective *)

Lemma digits_no_hash (d : list ascii) : Forall (fun c => py_isdigit c = true) d -> ("#"%char) ∉ d.
Proof. rewrite Forall_forall. intros Hd Hin. by apply Hd in Hin. Qed.

Lemma pretty_no_hash (n : Z) : ("#"%char) ∉ los (pretty n).
Proof.
  assert (forall p, ("#"%char) ∉ los (pretty (Z.pos p))) as Hpos.
  { intros p. destruct (pretty_pos_chars p) as (c & d & -> & Hc & _ & Hd & _). apply digits_no_hash. by constructor. }
  destruct n as [|p|p]; [|apply Hpos|].
  - change (los (pretty 0%Z)) with ["0"%char]. by intros ?%list_elem_of_singleton.
  - change (los (pretty (Z.neg p))) with (ascii_of_nat 45 :: los (pretty (Z.pos p))).
    intros [?|?]%elem_of_cons; [done|by eapply Hpos].
Qed.

(** What follows the last occurrence of an element determines the split. *)
Lemma split_last {A} (x : A) a b d e : x ∉ d -> x ∉ e -> a ++ x :: d = b ++ x :: e -> a = b /\ d = e.
Proof.
  revert b. induction a as [|y a IH]; intros [|z b] Hd He; simpl; intros Heq; simplify_eq/=.
  - done.
  - exfalso. apply Hd. rewrite elem_of_app. right. constructor.
  - exfalso. apply He. rewrite elem_of_app. right. constructor.
  - edestruct (IH b Hd He) as [-> ->]; done.
Qed.

Lemma los_inj s t : los s = los t -> s = t.
Proof. intros H. rewrite <- (String.string_of_list_ascii_of_string s), H. apply String.string_of_list_ascii_of_string. Qed.

Lemma pr_key_inj r n r' n' : pr_key r n = pr_key r' n' -> (r, n) = (r', n').
Proof.
  unfold pr_key. intros H%(f_equal los). rewrite !los_app in H.
  apply split_last in H as [H1%los_inj H2%los_inj]; [|apply pretty_no_hash..].
  apply (inj pretty) in H2. congruence.
Qed.

(** ** The first classified outcome of every pull request *)

Definition event_key (e : ModelSweepOutcomeClassified) : string * Z := (oc_repo e, oc_pr_number e).

Fixpoint firsts (seen : list (string * Z)) (events : list (datetime * AnyReducerEvent)) : list ModelSweepOutcomeClassified :=
  match events with
  | [] => []
  | (_, Classified e) :: events' =>
      if bool_decide (event_key e ∈ seen) then firsts seen events' else e :: firsts (event_key e :: seen) events'
  | (_, Phase2 _) :: events' => firsts seen events'
  end.

Definition outcomes_of (o : EnumSweepOutcome) (es : list ModelSweepOutcomeClassified) : Z :=
  Z.of_nat (count (fun e => bool_decide (oc_outcome e = o)) es).

(** The counter of an outcome, when there is one. *)
Definition counter (o : EnumSweepOutcome) (s : ModelMergeSweepState) : option Z :=
  match o with
  | Outcome.MERGED => Some (st_merged_count s)
  | Outcome.ARMED => Some (st_armed_count s)
  | Outcome.REBASED => Some (st_rebased_count s)
  | Outcome.CI_RERUN_TRIGGERED => Some (st_ci_rerun_count s)
  | Outcome.FAILED => Some (st_failed_count s)
  | Outcome.STUCK => Some (st_stuck_count s)
  | _ => None
  end.

(** What a state that has recorded [es] holds. *)
Record recorded (rid : string) (total : Z) (es : list ModelSweepOutcomeClassified) (s : ModelMergeSweepState) : Prop := {
  rec_run : st_run_id s = rid;
  rec_total : st_total_prs s = total;
  rec_keys : NoDup (map event_key es);
  rec_outcomes : forall r n, (or_outcome <$> st_pr_outcomes_by_key s !! pr_key r n)
                   = oc_outcome <$> List.find (fun e => bool_decide (event_key e = (r, n))) es;
  rec_size : size (st_pr_outcomes_by_key s) = length es;
  rec_counters : forall o c, counter o s = Some c -> c = outcomes_of o es;
  rec_terminal : st_terminal_emitted s = bool_decide (1 <= total <= Z.of_nat (length es))%Z
}.

Definition is_publish (i : intent) : bool := match i with Publish _ _ => true | _ => false end.
(** The completed event of a sweep whose recorded outcomes were [es] at [now]. *)
Definition completed_of (rid : string) (total : Z) (es : list ModelSweepOutcomeClassified) (now : datetime) : CompletedEvent :=
  {| ce_run_id := rid; ce_total_prs := total; ce_merged_count := outcomes_of Outcome.MERGED es;
     ce_armed_count := outcomes_of Outcome.ARMED es; ce_rebased_count := outcomes_of Outcome.REBASED es;
     ce_ci_rerun_count := outcomes_of Outcome.CI_RERUN_TRIGGERED es; ce_failed_count := outcomes_of Outcome.FAILED es;
     ce_stuck_count := outcomes_of Outcome.STUCK es; ce_completed_at := isoformat now |}.

Lemma outcomes_of_snoc o es e :
  outcomes_of o (es ++ [e]) = (outcomes_of o es + (if bool_decide (oc_outcome e = o) then 1 else 0))%Z.
Proof. unfold outcomes_of. rewrite count_app, count_cons, count_nil. destruct (bool_decide _); lia. Qed.

Lemma recorded_new rid total now : recorded rid total [] (new_state rid total now).
Proof.
  split; try done.
  - constructor.
  - by intros [] c [= <-].
  - cbn. by rewrite bool_decide_eq_false_2 by lia.
Qed.

Lemma bump_counter o o' s c :
  counter o (bump_outcome o' s) = Some c ->
  exists c', counter o s = Some c' /\ c = (c' + (if bool_decide (o' = o) then 1 else 0))%Z.
Proof.
  intros Hc. destruct o, o'; cbn in Hc; try discriminate Hc; injection Hc as <-; eexists; (split; [reflexivity|]);
    case_bool_decide; try done; lia.
Qed.
Lemma bump_rest o s :
  st_run_id (bump_outcome o s) = st_run_id s /\ st_total_prs (bump_outcome o s) = st_total_prs s
  /\ st_terminal_emitted (bump_outcome o s) = st_terminal_emitted s
  /\ st_pr_phase2_by_key (bump_outcome o s) = st_pr_phase2_by_key s.
Proof. by destruct o. Qed.

Lemma find_key es (k : string * Z) :
  List.find (fun e => bool_decide (event_key e = k)) es = None <-> k ∉ map event_key es.
Proof.
  induction es as [|e es IH]; cbn [List.find map]; [split; [intros _; apply not_elem_of_nil|done]|].
  rewrite not_elem_of_cons. case_bool_decide; [naive_solver congruence|]. rewrite IH. naive_solver congruence.
Qed.
Lemma find_snoc {A} (p : A -> bool) l x :
  List.find p (l ++ [x]) = match List.find p l with Some y => Some y | None => if p x then Some x else None end.
Proof. induction l as [|y l IH]; cbn; [done|]. by destruct (p y). Qed.

(** What one Phase 1 event does to such a state. *)
Definition phase1_spec (rid : string) (total : Z) (es : list ModelSweepOutcomeClassified) (now : datetime)
    (e : ModelSweepOutcomeClassified) (s s' : ModelMergeSweepState) (intents : list intent) : Prop :=
  if bool_decide (event_key e ∈ map event_key es) then s' = s /\ intents = []
  else recorded rid total (es ++ [e]) s' /\ st_pr_phase2_by_key s' = st_pr_phase2_by_key s
       /\ intents = (if bool_decide (total = Z.of_nat (length es) + 1)%Z
                     then [Publish TOPIC_SWEEP_COMPLETED (completed_of rid total (es ++ [e]) now)] else [])
                    ++ [PersistState NODE_ID rid s' now (oc_correlation_id e)].

Lemma lookup_key rid total es s e :
  recorded rid total es s ->
  st_pr_outcomes_by_key s !! pr_key (oc_repo e) (oc_pr_number e) = None <-> event_key e ∉ map event_key es.
Proof.
  intros Hs. rewrite <- find_key. pose proof (rec_outcomes _ _ _ _ Hs (oc_repo e) (oc_pr_number e)) as Hf.
  fold (event_key e) in Hf. destruct (_ !! _), (List.find _ es); try done; cbn in Hf; by split.
Qed.

Lemma recorded_snoc rid total es s e (s' : ModelMergeSweepState) record :
  recorded rid total es s -> event_key e ∉ map event_key es -> or_outcome record = oc_outcome e ->
  st_run_id s' = st_run_id s -> st_total_prs s' = st_total_prs s ->
  st_pr_outcomes_by_key s' = <[pr_key (oc_repo e) (oc_pr_number e) := record]> (st_pr_outcomes_by_key s) ->
  (forall o, counter o s' = counter o (bump_outcome (oc_outcome e) s)) ->
  st_terminal_emitted s' = bool_decide (1 <= total <= Z.of_nat (length (es ++ [e])))%Z ->
  recorded rid total (es ++ [e]) s'.
Proof.
  intros Hs Hk Ho Hr Ht Hm Hc Hterm. pose proof (proj2 (lookup_key _ _ _ _ e Hs) Hk) as Hnone.
  split; [by rewrite Hr, (rec_run _ _ _ _ Hs)|by rewrite Ht, (rec_total _ _ _ _ Hs)| | | | |done].
  - rewrite map_app. apply NoDup_app. split_and!; [apply Hs| |apply NoDup_singleton].
    intros k Hin ->%list_elem_of_singleton. done.
  - intros r n. rewrite Hm, find_snoc. destruct (decide (event_key e = (r, n))) as [E|E].
    + injection E as <- <-. rewrite lookup_insert_eq. cbn. rewrite (proj2 (find_key es (oc_repo e, oc_pr_number e)) Hk).
      rewrite bool_decide_eq_true_2 by done. cbn. by rewrite Ho.
    + rewrite lookup_insert_ne; [|intros Hx; apply E; by apply pr_key_inj in Hx].
      rewrite (rec_outcomes _ _ _ _ Hs). rewrite (bool_decide_eq_false_2 _ E). by destruct (List.find _ es).
  - rewrite Hm, map_size_insert_None, (rec_size _ _ _ _ Hs), length_app by done. cbn. lia.
  - intros o c. rewrite Hc. intros (c' & Hc' & ->)%bump_counter. rewrite outcomes_of_snoc.
    by rewrite (rec_counters _ _ _ _ Hs o c').
Qed.

Lemma completed_event_of rid total es s now :
  recorded rid total es s -> completed_event s now = completed_of rid total es now.
Proof.
  intros Hs. unfold completed_event, completed_of.
  rewrite (rec_run _ _ _ _ Hs), (rec_total _ _ _ _ Hs).
  rewrite (rec_counters _ _ _ _ Hs Outcome.MERGED _ eq_refl), (rec_counters _ _ _ _ Hs Outcome.ARMED _ eq_refl),
    (rec_counters _ _ _ _ Hs Outcome.REBASED _ eq_refl), (rec_counters _ _ _ _ Hs Outcome.CI_RERUN_TRIGGERED _ eq_refl),
    (rec_counters _ _ _ _ Hs Outcome.FAILED _ eq_refl), (rec_counters _ _ _ _ Hs Outcome.STUCK _ eq_refl). done.
Qed.

Lemma phase1_step rid total es now e s :
  recorded rid total es s ->
  phase1_spec rid total es now e s (_delta_phase1 now s e).1 (_delta_phase1 now s e).2.
Proof.
  intros Hs. unfold phase1_spec, _delta_phase1. cbv zeta.
  pose proof (lookup_key _ _ _ _ e Hs) as Hk.
  destruct (st_pr_outcomes_by_key s !! _) as [old|] eqn:Hold.
  - rewrite bool_decide_eq_true_2; [done|]. destruct (decide (event_key e ∈ map event_key es)) as [|n]; [done|]. by apply Hk in n.
  - specialize (proj1 Hk eq_refl) as Hnew. rewrite bool_decide_eq_false_2 by done.
    destruct (bump_rest (oc_outcome e) s) as (H1 & H2 & H3 & H4).
    set (record := {| or_pr_number := _ |}). set (outcomes := <[_ := record]> _).
    assert (size outcomes = S (length es)) as Hsize.
    { unfold outcomes. by rewrite map_size_insert_None, (rec_size _ _ _ _ Hs). }
    set (base := bump_outcome (oc_outcome e) s <| st_pr_outcomes_by_key := outcomes |>).
    change (st_total_prs base) with (st_total_prs (bump_outcome (oc_outcome e) s)).
    change (st_terminal_emitted base) with (st_terminal_emitted (bump_outcome (oc_outcome e) s)).
    rewrite H2, H3, Hsize.
    rewrite (rec_total _ _ _ _ Hs), (rec_terminal _ _ _ _ Hs).
    destruct (Z.eqb_spec (Z.of_nat (S (length es))) total) as [Et|Et]; cbn [andb].
    + rewrite (bool_decide_eq_false_2 (1 <= total <= Z.of_nat (length es))%Z) by lia. cbn [negb fst snd].
      rewrite (bool_decide_eq_true_2 (total = _)) by lia.
      set (s' := base <| st_terminal_emitted := true |> <| st_completed_at := Some now |>).
      assert (recorded rid total (es ++ [e]) s') as Hrec.
      { apply (recorded_snoc _ _ _ s _ _ record); [done|done|done|exact H1|exact H2|done|by intros []|].
        rewrite length_app. cbn. by rewrite bool_decide_eq_true_2 by lia. }
      split_and!; [done|exact H4|]. unfold _build_persist_intent. rewrite (completed_event_of _ _ _ _ now Hrec).
      by rewrite (rec_run _ _ _ _ Hrec).
    + rewrite (bool_decide_eq_false_2 (total = _)) by lia. cbn [fst snd app].
      assert (recorded rid total (es ++ [e]) base) as Hrec.
      { apply (recorded_snoc _ _ _ s _ _ record); [done|done|done|exact H1|exact H2|done|by intros []|].
        change (st_terminal_emitted base) with (st_terminal_emitted (bump_outcome (oc_outcome e) s)). rewrite H3, (rec_terminal _ _ _ _ Hs), length_app. cbn.
        apply bool_decide_ext. lia. }
      split_and!; [done|exact H4|]. unfold _build_persist_intent. by rewrite (rec_run _ _ _ _ Hrec).
Qed.

Lemma phase2_keeps rid total es s rec e :
  recorded rid total es s -> recorded rid total es (apply_phase2 s rec e).1.
Proof.
  intros [H1 H2 H3 H4 H5 H6 H7].
  destruct e as [e|e|e]; cbn [apply_phase2];
    [destruct (tr_reply_posted e)|destruct (cv_resolution_committed e); [|destruct (negb (cv_is_noop e))]
    |destruct (cx_patch_applied e); [|destruct (negb (cx_is_noop e))]]; split; done.
Qed.
Lemma phase2_step rid total es now s e :
  recorded rid total es s -> recorded rid total es (_delta_phase2 now s e).1
  /\ filter (fun i => is_publish i = true) (_delta_phase2 now s e).2 = [].
Proof.
  intros Hs. unfold _delta_phase2. cbv zeta. set (rec := _get_or_create_phase2_record _ _ _ _).
  pose proof (phase2_keeps _ _ _ s rec e Hs) as Hk. destruct (apply_phase2 s rec e) as [bumped rec'].
  split; [|done]. destruct Hk as [H1 H2 H3 H4 H5 H6 H7]. by split.
Qed.

Lemma firsts_ext a b events : (forall k, k ∈ a <-> k ∈ b) -> firsts a events = firsts b events.
Proof.
  revert a b. induction events as [|[t [e|e]] events IH]; intros a b Hab; [done| |by apply IH].
  cbn [firsts]. rewrite (bool_decide_ext _ _ (Hab (event_key e))). destruct (bool_decide _); [by apply IH|].
  f_equal. apply IH. intros k. rewrite !elem_of_cons. by rewrite Hab.
Qed.

Lemma run_cons s t e events :
  run s ((t, e) :: events) = ((run (delta t s e).1 events).1, (delta t s e).2 ++ (run (delta t s e).1 events).2).
Proof. cbn [run]. destruct (delta t s e) as [s' il]. cbn [fst snd]. by destruct (run s' events). Qed.

(** The terminal events of a run, by what was recorded before and what it records. *)
Definition published (rid : string) (total : Z) (before after : list ModelSweepOutcomeClassified) (events : list (datetime * AnyReducerEvent))
    (out : list intent) : Prop :=
  if bool_decide (Z.of_nat (length before) < total <= Z.of_nat (length after))%Z then
    exists t, t ∈ events.*1 /\ out = [Publish TOPIC_SWEEP_COMPLETED (completed_of rid total (take (Z.to_nat total) after) t)]
  else out = [].

Lemma run_recorded rid total events : forall es s, recorded rid total es s ->
  let after := es ++ firsts (map event_key es) events in
  recorded rid total after (run s events).1
  /\ published rid total es after events (filter (fun i => is_publish i = true) (run s events).2).
Proof.
  induction events as [|[t e] events IH]; intros es s Hs; cbv zeta.
  - cbn. rewrite app_nil_r. split; [done|]. unfold published. by rewrite bool_decide_eq_false_2 by lia.
  - rewrite run_cons. cbn [fst snd]. rewrite filter_app. destruct e as [e|e]; cbn [firsts delta].
    + pose proof (phase1_step rid total es t e s Hs) as Hstep. unfold phase1_spec in Hstep.
      destruct (_delta_phase1 t s e) as [s' il]. cbn [fst snd] in *.
      destruct (bool_decide (event_key e ∈ map event_key es)) eqn:Hin.
      * destruct Hstep as [-> ->]. destruct (IH es s Hs) as [H1 H2]. split; [exact H1|]. revert H2. unfold published.
        rewrite filter_nil. cbn [app]. clear Hin. case_bool_decide; [|done].
        intros (t' & Ht & Ho). exists t'. split; [by constructor|exact Ho].
      * destruct Hstep as (Hrec & _ & ->). destruct (IH _ _ Hrec) as [H1 H2].
        rewrite (firsts_ext (event_key e :: map event_key es) (map event_key (es ++ [e])));
          [|intros k; rewrite map_app, elem_of_cons, elem_of_app; cbn [map]; rewrite list_elem_of_singleton; tauto].
        rewrite <- app_assoc in H1, H2. cbn [app] in H1, H2.
        split; [exact H1|]. revert H2. unfold published. set (fs := firsts _ events).
        rewrite filter_app, !length_app. cbn [length]. rewrite filter_cons_False, filter_nil, app_nil_r by done.
        destruct (decide (total = Z.of_nat (length es) + 1)%Z) as [Et|Et].
        -- rewrite (bool_decide_eq_true_2 _ Et), filter_cons_True, filter_nil by done.
           rewrite bool_decide_eq_false_2 by lia. intros ->. rewrite bool_decide_eq_true_2 by lia.
           exists t. split; [constructor|]. rewrite app_nil_r.
           replace (Z.to_nat total) with (length (es ++ [e])) by (rewrite length_app; cbn; lia).
           change (e :: fs) with ([e] ++ fs). by rewrite app_assoc, take_app_length.
        -- rewrite (bool_decide_eq_false_2 _ Et), filter_nil. cbn [app].
           clear Hin. case_bool_decide as D1; case_bool_decide as D2; try (exfalso; lia); [|done].
           intros (t' & Ht & Ho). exists t'. split; [by constructor|exact Ho].
    + destruct (phase2_step rid total es t s e Hs) as [Hrec Hno].
      destruct (_delta_phase2 t s e) as [s' il]. cbn [fst snd] in *. destruct (IH es s' Hrec) as [H1 H2].
      split; [exact H1|]. rewrite Hno. cbn [app]. revert H2. unfold published. destruct (bool_decide _); [|done].
      intros (t' & Ht & Ho). exists t'. split; [by constructor|exact Ho].
Qed.

(** C28. After any sequence of events, of both phases, in any order and with any
    repetition, the state of a sweep holds for every pull request the first
    outcome classified for it and no other, each counter is the number of pull
    requests whose first outcome it counts, and the completed event has been
    published at most once: exactly if the sweep counts at least one pull
    request and as many have an outcome, with the counters at the moment the
    last of them was recorded. *)
Theorem sweep_counters rid total t0 events :
  let fs := firsts [] events in
  recorded rid total fs (run (new_state rid total t0) events).1
  /\ published rid total [] fs events (filter (fun i => is_publish i = true) (run (new_state rid total t0) events).2).
Proof. exact (run_recorded rid total events [] _ (recorded_new rid total t0)). Qed.

(** ** Completion *)

Lemma firsts_keys seen events k :
  k ∈ map event_key (firsts seen events) <->
  (k ∉ seen) /\ exists t e, (t, Classified e) ∈ events /\ event_key e = k.
Proof.
  revert seen. induction events as [|[t [e|e]] events IH]; intros seen; cbn [firsts map].
  - split; [by intros ?%not_elem_of_nil|]. intros (_ & t & e & H & _). by apply not_elem_of_nil in H.
  - case_bool_decide as Hs.
    + rewrite IH. split.
      * intros (H1 & t' & e' & H2 & H3). split; [done|]. exists t', e'. split; [by constructor|done].
      * intros (H1 & t' & e' & H2 & H3). split; [done|].
        apply elem_of_cons in H2 as [[= -> ->]|H2]; [congruence|]. by exists t', e'.
    + cbn [map]. rewrite elem_of_cons, IH, elem_of_cons. split.
      * intros [->|(H1 & t' & e' & H2 & H3)].
        -- split; [done|]. exists t, e. split; [constructor|done].
        -- split; [tauto|]. exists t', e'. split; [by constructor|done].
      * intros (H1 & t' & e' & H2 & H3). destruct (decide (k = event_key e)) as [|Hk]; [by left|]. right.
        split; [tauto|]. apply elem_of_cons in H2 as [[= -> ->]|H2]; [congruence|]. by exists t', e'.
  - rewrite IH. split; intros (H1 & t' & e' & H2 & H3); (split; [done|]); exists t', e'; (split; [|done]).
    + by constructor.
    + by apply elem_of_cons in H2 as [?|H2].
Qed.

Lemma NoDup_covers {A} (l k : list A) : NoDup l -> NoDup k -> l ⊆ k -> (length k <= length l <-> k ⊆ l).
Proof.
  intros Hl Hk Hlk. assert (l ⊆+ k) as Hsub by (apply NoDup_submseteq; [done|exact Hlk]). split.
  - intros Hlen. apply submseteq_length_Permutation in Hsub; [|done]. intros x Hx. by rewrite Hsub.
  - intros Hkl. by apply submseteq_length, NoDup_submseteq.
Qed.

(** Outcomes of pull requests the commands are for, and of no other. *)
Definition outcomes_for (cmds : list command) (events : list (datetime * AnyReducerEvent)) : Prop :=
  forall t e, (t, Classified e) ∈ events -> event_key e ∈ map command_key cmds.
Definition has_outcome (events : list (datetime * AnyReducerEvent)) (k : string * Z) : Prop :=
  exists t e, (t, Classified e) ∈ events /\ event_key e = k.

Lemma filter_count {A} (p : A -> bool) l : count p l = length (filter (fun x => p x = true) l).
Proof. done. Qed.

(** C29. A sweep completes exactly when every pull request it has a command for
    has a classified outcome, provided outcomes come only of pull requests with
    commands, as the effects that carry out the commands report them: with the
    state seeded by the total the commands carry, and such outcomes in any order,
    any number of them, between any Phase 2 events, the completed event is
    published once if each of them has one, and never if one has none, whether
    its command carries the total or not. The reducer itself does not ask whether
    an outcome is of a commanded pull request. *)
Theorem sweep_completes {P : Pydantic} {PL : PydanticLaws} w_gh legacy_arm now request s s' cmds rid t0 events :
  SweepTriage.handle w_gh legacy_arm now request s = (s', Ok cmds) -> cmds <> [] -> outcomes_for cmds events ->
  let total := actionable_prs cmds in
  let published := count is_publish (run (new_state rid total t0) events).2 in
  (forall cmd n, cmd ∈ cmds -> command_total cmd = Some n -> n = total)
  /\ ((forall k, k ∈ map command_key cmds -> has_outcome events k) -> published = 1)
  /\ ((exists k, k ∈ map command_key cmds /\ ~ has_outcome events k) -> published = 0).
Proof.
  intros Hrun Hne Hfor total pub.
  set (keys := remove_dups (map command_key cmds)). set (fs := map event_key (firsts [] events)).
  destruct (run_recorded rid total events [] _ (recorded_new rid total t0)) as [Hrec Hpub]. cbn [map app] in *.
  assert (NoDup fs) as Hnd by apply Hrec.
  assert (fs ⊆ keys) as Hsub.
  { intros k. unfold fs, keys. rewrite firsts_keys, elem_of_remove_dups. intros (_ & t & e & Ht & <-). by eapply Hfor. }
  pose proof (NoDup_covers fs keys Hnd (NoDup_remove_dups _) Hsub) as Hcov.
  assert (length fs = length (firsts [] events)) as Hlen by apply length_map.
  assert (0 < length keys) as Hpos.
  { destruct cmds as [|c cmds']; [done|]. unfold keys.
    assert (command_key c ∈ remove_dups (map command_key (c :: cmds'))) as Hin by (rewrite elem_of_remove_dups; constructor).
    destruct (remove_dups _); [by apply not_elem_of_nil in Hin|simpl; lia]. }
  assert (pub = if bool_decide (length keys <= length fs) then 1 else 0) as Hp.
  { unfold pub. rewrite filter_count. unfold published in Hpub. unfold total, actionable_prs in *.
    fold keys in Hpub |- *. cbn [length] in Hpub.
    case_bool_decide as D1; case_bool_decide as D2; try (exfalso; lia).
    - destruct Hpub as (t & _ & ->). done.
    - by rewrite Hpub. }
  split_and!.
  - intros cmd n Hc Hn. exact (triage_totals w_gh legacy_arm now request s s' cmds cmd n Hrun Hc Hn).
  - intros Hall. rewrite Hp, bool_decide_eq_true_2; [done|]. apply Hcov. intros k. unfold keys, fs.
    rewrite elem_of_remove_dups, firsts_keys. intros Hk. split; [apply not_elem_of_nil|]. by apply Hall.
  - intros (k & Hk & Hno). rewrite Hp, bool_decide_eq_false_2; [done|]. rewrite Hcov. intros Hkf. apply Hno.
    assert (k ∈ fs) as Hin by (apply Hkf; unfold keys; by rewrite elem_of_remove_dups).
    unfold fs in Hin. by apply firsts_keys in Hin as [_ ?].
Qed.

Definition demo_outcome (number : Z) (o : EnumSweepOutcome) : ModelSweepOutcomeClassified :=
  {| oc_event_id := "e"; oc_pr_number := number; oc_repo := "o/r"; oc_correlation_id := "cid"; oc_run_id := "run";
     oc_total_prs := 2; oc_outcome := o; oc_source_event_type := EventType.REBASE_COMPLETED; oc_error := None;
     oc_conflict_files := [] |}.
(** Both pull requests of [demo_request] have an outcome, one of them twice. *)
Definition demo_events : list (datetime * AnyReducerEvent) :=
  [(1%Z, Classified (demo_outcome 2 Outcome.CI_RERUN_TRIGGERED)); (2%Z, Classified (demo_outcome 2 Outcome.FAILED));
   (3%Z, Classified (demo_outcome 1 Outcome.REBASED))].
#[local] Existing Instance exact_fields.
Lemma sweep_completes_witness :
  exists s' cmds, SweepTriage.handle (demo_gh (JStr "abc")) None 0 (demo_request [behind_pr; stalled_pr]) ((), []) = (s', Ok cmds)
    /\ actionable_prs cmds = 2%Z /\ count is_publish (run (new_state "run" (actionable_prs cmds) 0) demo_events).2 = 1.
Proof.
  eexists _, _. split; [vm_compute; reflexivity|]. split; [vm_compute; reflexivity|].
  apply (sweep_completes (PL := exact_fields_laws) (demo_gh (JStr "abc")) None 0 (demo_request [behind_pr; stalled_pr])
           ((), []) _ _ "run" 0 demo_events ltac:(vm_compute; reflexivity)).
  - done.
  - intros t e He. unfold demo_events in He.
    repeat (apply elem_of_cons in He as [[= -> ->]|He]; [apply list_elem_of_In; cbn; tauto|]). by apply not_elem_of_nil in He.
  - intros k Hk. apply list_elem_of_In in Hk. cbn in Hk. destruct_or?; try done; subst k.
    + exists 3%Z, (demo_outcome 1 Outcome.REBASED). split; [apply list_elem_of_In; cbn; tauto|done].
    + exists 1%Z, (demo_outcome 2 Outcome.CI_RERUN_TRIGGERED). split; [apply list_elem_of_In; cbn; tauto|done].
    + exists 1%Z, (demo_outcome 2 Outcome.CI_RERUN_TRIGGERED). split; [apply list_elem_of_In; cbn; tauto|done].
Defined.

(** An outcome of a pull request without a command counts like the others: the
    sweep completes while pull request 1 has none. *)
Example foreign_outcome_completes :
  let events := [(1%Z, Classified (demo_outcome 2 Outcome.CI_RERUN_TRIGGERED)); (2%Z, Classified (demo_outcome 9 Outcome.REBASED))] in
  count is_publish (run (new_state "run" 2 0) events).2 = 1.
Proof. vm_compute. reflexivity. Qed.

(** ** Phase 2 *)

Definition phase2_key (e : Phase2Event) : string * Z := (phase2_repo e, phase2_pr_number e).
(** What an event says of the attempt it reports. *)
Inductive attempt_verdict : Type := Succeeded | FailedAs (category : string) | Neutral.
Definition verdict_of (e : Phase2Event) : attempt_verdict :=
  match e with
  | ThreadReplied e => if tr_reply_posted e then Succeeded else FailedAs "thread_reply_failed"
  | ConflictResolved e =>
      if cv_resolution_committed e then Succeeded else if cv_is_noop e then Neutral else FailedAs "conflict_hunk_failed"
  | CiFixed e => if cx_patch_applied e then Succeeded else if cx_is_noop e then Neutral else FailedAs "ci_fix_failed"
  end.

(** The attempts reported for a pull request, in order. *)
Definition phase2_events (events : list (datetime * AnyReducerEvent)) : list Phase2Event :=
  omap (fun te => match te.2 with Phase2 e => Some e | Classified _ => None end) events.
Definition attempts (k : string * Z) (es : list Phase2Event) : list attempt_verdict :=
  map verdict_of (filter (fun e => phase2_key e = k) es).
Definition failures (l : list attempt_verdict) : list string :=
  omap (fun v => match v with FailedAs c => Some c | _ => None end) l.
(** The attempts after the last success. *)
Definition since_success (l : list attempt_verdict) : list attempt_verdict :=
  foldl (fun acc v => match v with Succeeded => [] | _ => acc ++ [v] end) [] l.

(** The six aggregate counters: successes and failures of each kind. *)
Definition phase2_counters (s : ModelMergeSweepState) : list Z :=
  [st_thread_replies_posted s; st_thread_reply_failures s; st_conflicts_resolved s; st_conflict_hunk_failures s;
   st_ci_fixes_attempted s; st_ci_fix_failures s].
Definition of_kind (kind : nat) (e : Phase2Event) : bool :=
  match e with ThreadReplied _ => Nat.eqb kind 0 | ConflictResolved _ => Nat.eqb kind 1 | CiFixed _ => Nat.eqb kind 2 end.
Definition succeeded (e : Phase2Event) : bool := match verdict_of e with Succeeded => true | _ => false end.
Definition failed (e : Phase2Event) : bool := match verdict_of e with FailedAs _ => true | _ => false end.
Definition counts (es : list Phase2Event) : list Z :=
  concat (map (fun kind => [Z.of_nat (count (fun e => of_kind kind e && succeeded e) es);
                            Z.of_nat (count (fun e => of_kind kind e && failed e) es)]) [0; 1; 2]).

(** The record kept of a pull request after its attempts. *)
Definition phase2_record (k : string * Z) (l : list attempt_verdict) : option ModelPrPhase2Record :=
  match l with
  | [] => None
  | _ => Some {| p2_pr_number := k.2; p2_repo := k.1; p2_consecutive_failures := Z.of_nat (length (failures (since_success l)));
                 p2_last_failure_categories := failures l |}
  end.

Record phase2_recorded (es : list Phase2Event) (s : ModelMergeSweepState) : Prop := {
  p2r_records : forall r n, st_pr_phase2_by_key s !! pr_key r n = phase2_record (r, n) (attempts (r, n) es);
  p2r_counters : phase2_counters s = counts es
}.

Lemma failures_app l m : failures (l ++ m) = failures l ++ failures m.
Proof. apply omap_app. Qed.
Lemma since_success_snoc l v :
  since_success (l ++ [v]) = match v with Succeeded => [] | _ => since_success l ++ [v] end.
Proof. unfold since_success. rewrite foldl_app. by destruct v. Qed.
Lemma attempts_snoc k es e :
  attempts k (es ++ [e]) = attempts k es ++ (if bool_decide (phase2_key e = k) then [verdict_of e] else []).
Proof.
  unfold attempts. rewrite filter_app, map_app. f_equal. rewrite filter_cons, filter_nil.
  case_bool_decide; [by rewrite decide_True|by rewrite decide_False].
Qed.

(** The suffix that [since_success] takes. *)
Lemma since_success_suffix l : exists pre,
  l = pre ++ since_success l /\ (Succeeded ∉ since_success l) /\ (pre = [] \/ last pre = Some Succeeded).
Proof.
  induction l as [|v l IH] using rev_ind.
  - exists []. split_and!; [done|apply not_elem_of_nil|by left].
  - rewrite since_success_snoc. destruct IH as (pre & Hl & Hs & Hp).
    assert (v = Succeeded \/ v <> Succeeded) as [->|Hv] by (destruct v; [by left|by right..]).
    + exists (l ++ [Succeeded]). rewrite app_nil_r. split_and!; [done|apply not_elem_of_nil|right; apply last_snoc].
    + exists pre. replace (match v with Succeeded => [] | _ => since_success l ++ [v] end) with (since_success l ++ [v])
        by (by destruct v). rewrite app_assoc, <- Hl. split_and!; [done| |done].
      rewrite elem_of_app, list_elem_of_singleton. intros [?|?]; congruence.
Qed.

Definition record_after (k : string * Z) (l : list attempt_verdict) : ModelPrPhase2Record :=
  {| p2_pr_number := k.2; p2_repo := k.1; p2_consecutive_failures := Z.of_nat (length (failures (since_success l)));
     p2_last_failure_categories := failures l |}.
Lemma phase2_record_after k l v : phase2_record k (l ++ [v]) = Some (record_after k (l ++ [v])).
Proof. unfold phase2_record. by destruct l. Qed.

Lemma apply_phase2_record s e l :
  (apply_phase2 s (record_after (phase2_key e) l) e).2 = record_after (phase2_key e) (l ++ [verdict_of e]).
Proof.
  assert (forall c, add_failure c (record_after (phase2_key e) l) = record_after (phase2_key e) (l ++ [FailedAs c])) as Hadd.
  { intros c. unfold add_failure, record_after. cbn. rewrite since_success_snoc, !failures_app, length_app. cbn.
    f_equal. lia. }
  assert (reset_failures (record_after (phase2_key e) l) = record_after (phase2_key e) (l ++ [Succeeded])) as Hreset.
  { unfold reset_failures, record_after. cbn. rewrite since_success_snoc, failures_app. cbn. by rewrite app_nil_r. }
  assert (record_after (phase2_key e) l = record_after (phase2_key e) (l ++ [Neutral])) as Hsame.
  { unfold record_after. rewrite since_success_snoc, !failures_app. cbn. by rewrite !app_nil_r. }
  destruct e as [e|e|e]; cbn [apply_phase2 verdict_of].
  - destruct (tr_reply_posted e); cbn [snd]; auto.
  - destruct (cv_resolution_committed e); [cbn [snd]; auto|]. destruct (cv_is_noop e); cbn [negb snd]; auto.
  - destruct (cx_patch_applied e); [cbn [snd]; auto|]. destruct (cx_is_noop e); cbn [negb snd]; auto.
Qed.

Lemma counts_snoc es e :
  counts (es ++ [e]) = zip_with Z.add (counts es) (counts [e]).
Proof.
  unfold counts. cbn [map concat app]. rewrite !count_app, !Nat2Z.inj_add. done.
Qed.
Lemma counts_single e :
  counts [e] = concat (map (fun kind => [if of_kind kind e && succeeded e then 1 else 0; if of_kind kind e && failed e then 1 else 0]%Z)
                 [0; 1; 2]).
Proof.
  unfold counts. cbn [map concat app]. rewrite !count_cons, !count_nil.
  destruct e; cbn [of_kind Nat.eqb andb]; by destruct (succeeded _), (failed _).
Qed.
Lemma apply_phase2_counters s rec e :
  phase2_counters (apply_phase2 s rec e).1 = zip_with Z.add (phase2_counters s) (counts [e]).
Proof.
  rewrite counts_single. unfold succeeded, failed. destruct e as [e|e|e]; cbn [apply_phase2 verdict_of].
  - destruct (tr_reply_posted e); cbn; unfold phase2_counters; cbn; by rewrite ?Z.add_0_r.
  - destruct (cv_resolution_committed e), (cv_is_noop e); cbn; unfold phase2_counters; cbn; by rewrite ?Z.add_0_r.
  - destruct (cx_patch_applied e), (cx_is_noop e); cbn; unfold phase2_counters; cbn; by rewrite ?Z.add_0_r.
Qed.

Lemma phase2_recorded_step now es s e :
  phase2_recorded es s -> phase2_recorded (es ++ [e]) (_delta_phase2 now s e).1.
Proof.
  intros [Hr Hc]. unfold _delta_phase2. cbv zeta.
  set (k := phase2_key e). set (l := attempts k es).
  assert (_get_or_create_phase2_record s (pr_key (phase2_repo e) (phase2_pr_number e)) (phase2_pr_number e) (phase2_repo e)
          = record_after k l) as ->.
  { unfold _get_or_create_phase2_record. rewrite Hr. fold (phase2_key e). fold k. fold l. by destruct l. }
  pose proof (apply_phase2_record s e l) as Hrec. fold k in Hrec.
  pose proof (apply_phase2_counters s (record_after k l) e) as Hcnt.
  destruct (apply_phase2 s (record_after k l) e) as [bumped rec']. cbn [fst snd] in *. subst rec'. split.
  - intros r n. cbn [st_pr_phase2_by_key updater]. rewrite attempts_snoc.
    destruct (decide (phase2_key e = (r, n))) as [E|E].
    + rewrite bool_decide_eq_true_2 by done. injection E as <- <-. rewrite lookup_insert_eq.
      fold (phase2_key e). fold k. fold l. by rewrite phase2_record_after.
    + rewrite bool_decide_eq_false_2, app_nil_r by done. rewrite lookup_insert_ne; [apply Hr|].
      intros Hx. apply E. by apply pr_key_inj in Hx.
  - rewrite counts_snoc, <- Hc. exact Hcnt.
Qed.

Lemma phase1_counters t s e : phase2_counters (_delta_phase1 t s e).1 = phase2_counters s.
Proof.
  unfold _delta_phase1. cbv zeta. destruct (_ !! _); [done|].
  destruct (_ && _); destruct (oc_outcome e); done.
Qed.

Lemma run_phase2 events : forall es s, phase2_recorded es s -> (exists rid total fs, recorded rid total fs s) ->
  phase2_recorded (es ++ phase2_events events) (run s events).1.
Proof.
  induction events as [|[t [e|e]] events IH]; intros es s Hs Hrec; [by rewrite app_nil_r|..]; rewrite run_cons;
    cbn [fst delta]; destruct Hrec as (rid & total & fs & Hrec).
  - pose proof (phase1_step rid total fs t e s Hrec) as Hstep. unfold phase1_spec in Hstep.
    change (phase2_events ((t, Classified e) :: events)) with (phase2_events events).
    pose proof (phase1_counters t s e) as Hcnt.
    destruct (_delta_phase1 t s e) as [s' il]. cbn [fst snd] in *.
    destruct (bool_decide _); [destruct Hstep as [-> _]; apply IH; eauto|].
    destruct Hstep as (Hrec' & Hsame & _). apply IH; [|eauto]. destruct Hs as [H1 H2]. split.
    + intros r n. by rewrite Hsame.
    + by rewrite Hcnt.
  - change (phase2_events ((t, Phase2 e) :: events)) with (e :: phase2_events events).
    rewrite (cons_middle e es (phase2_events events)), app_assoc.
    apply IH; [by apply phase2_recorded_step|]. exists rid, total, fs. by apply phase2_step.
Qed.

(** The failure history of a pull request is that of its own Phase 2
    attempts alone, whatever other events come between: it has a record exactly
    if an attempt was reported, whose consecutive failures are the failures
    after its last success (an attempt with nothing to do is neither), whose
    categories are those of all its failures in order, and the six counters are
    the successes and failures of each kind over all pull requests. *)
Theorem phase2_history rid total t0 events r n :
  let s := (run (new_state rid total t0) events).1 in
  let l := attempts (r, n) (phase2_events events) in
  st_pr_phase2_by_key s !! pr_key r n = phase2_record (r, n) l
  /\ (exists pre, l = pre ++ since_success l /\ (Succeeded ∉ since_success l) /\ (pre = [] \/ last pre = Some Succeeded))
  /\ phase2_counters s = counts (phase2_events events).
Proof.
  intros s l. destruct (run_phase2 events [] (new_state rid total t0)) as [H1 H2].
  - by split.
  - do 3 eexists. apply recorded_new.
  - split_and!; [apply H1|apply since_success_suffix|exact H2].
Qed.

(** An attempt reported as applied, tested and a no-op at once is classified as
    a no-op. *)
Remark noop_before_success event_id :
  oc_outcome (classify_outcome event_id
    {| oi_event_type := EventType.CI_FIX_ATTEMPTED; oi_pr_number := 1; oi_repo := "o/r"; oi_correlation_id := "c";
       oi_run_id := "r"; oi_total_prs := 1; oi_armed := None; oi_success := None; oi_conflict_files := [];
       oi_rerun_triggered := None; oi_reply_posted := None; oi_resolution_committed := None; oi_is_noop := Some true;
       oi_patch_applied := Some true; oi_local_tests_passed := Some true; oi_error := None; oi_extra := [] |})
  = Outcome.NOOP.
Proof. reflexivity. Qed.

(** Handled one message at a time, each from a fresh state, a sweep of more than
    one pull request never completes. *)
Lemma fresh_state_never_completes now request :
  (1 < oc_total_prs request)%Z -> count is_publish (handle_reduce now request).2 = 0.
Proof.
  intros Ht. unfold handle_reduce. cbn [delta].
  pose proof (phase1_step _ _ [] now request _ (recorded_new (oc_run_id request) (oc_total_prs request) now)) as Hs.
  unfold phase1_spec in Hs. cbn [map] in Hs. rewrite bool_decide_eq_false_2 in Hs by apply not_elem_of_nil.
  destruct Hs as (_ & _ & ->). cbn [length]. by rewrite bool_decide_eq_false_2 by lia.
Qed.
