(* ===== verification/PrLifecycle.v ===== *)
(** * The PR lifecycle state reducer

    [node_pr_lifecycle_state_reducer/handlers/handler_pr_lifecycle_state_reducer.py]
    and its [models/]: the sweep FSM ([delta]), its entry flags, the
    repo-health folds, the topic dispatch of [handle_dict] and the DAG
    ordering of pull requests. *)
From S2P Require Import Prelude Fsm.

(** ** Events, intents, state *)

Inductive EnumPrLifecyclePhase : Type :=
  | IDLE | INVENTORYING | TRIAGED | REBASING | FIXING | MERGING | COMPLETE | FAILED.
#[export] Instance EnumPrLifecyclePhase_eq_dec : EqDecision EnumPrLifecyclePhase.
Proof. solve_decision. Defined.

Inductive EnumPrLifecycleEventTrigger : Type :=
  | START_RECEIVED | INVENTORY_COMPLETE | REBASE_PENDING | REBASE_COMPLETE
  | FIXES_PENDING | NO_FIXES_NEEDED | FIXES_COMPLETE | MERGE_COMPLETE | ERROR.
#[export] Instance EnumPrLifecycleEventTrigger_eq_dec : EqDecision EnumPrLifecycleEventTrigger.
Proof. solve_decision. Defined.

Record ModelPrLifecycleEvent := {
  ev_correlation_id : string;
  ev_source_phase : EnumPrLifecyclePhase;
  ev_trigger : EnumPrLifecycleEventTrigger;
  ev_success : bool;
  ev_timestamp : datetime;
  ev_error_message : option string;
  ev_prs_inventoried : Z;
  ev_prs_blocked : Z;
  ev_prs_fixed : Z;
  ev_prs_merged : Z
}.

Inductive EnumPrLifecycleIntentType : Type :=
  | START_INVENTORY | START_REBASE | START_FIX | START_MERGE | SWEEP_COMPLETE | SWEEP_FAILED.
#[export] Instance EnumPrLifecycleIntentType_eq_dec : EqDecision EnumPrLifecycleIntentType.
Proof. solve_decision. Defined.

(** The reducer never sets [payload]: it is the empty dict. *)
Record ModelPrLifecycleIntent := {
  it_intent_type : EnumPrLifecycleIntentType;
  it_correlation_id : string;
  it_from_phase : EnumPrLifecyclePhase
}.

Record ModelPrLifecycleEntryFlags := {
  dry_run : bool;
  inventory_only : bool;
  fix_only : bool
}.

Record ModelRepoHealthLaneState := {
  classified_count : Z;
  pr_scoped_count : Z;
  repo_baseline_count : Z;
  external_dependency_count : Z;
  unknown_count : Z;
  repair_tasks_emitted : Z;
  repair_task_refs : list string
}.

Record ModelPrLifecycleState := {
  correlation_id : string;
  phase : EnumPrLifecyclePhase;
  entry_flags : ModelPrLifecycleEntryFlags;
  started_at : option datetime;
  last_phase_at : option datetime;
  error_message : option string;
  prs_inventoried : Z;
  prs_blocked : Z;
  prs_fixed : Z;
  prs_merged : Z;
  prs_processed : Z;
  repo_health : ModelRepoHealthLaneState
}.

(** The models' defaults: the state of a new sweep. *)
Definition new_repo_health : ModelRepoHealthLaneState :=
  {| classified_count := 0; pr_scoped_count := 0; repo_baseline_count := 0;
     external_dependency_count := 0; unknown_count := 0;
     repair_tasks_emitted := 0; repair_task_refs := [] |}.
Definition new_sweep (cid : string) (flags : ModelPrLifecycleEntryFlags) : ModelPrLifecycleState :=
  {| correlation_id := cid; phase := IDLE; entry_flags := flags; started_at := None;
     last_phase_at := None; error_message := None; prs_inventoried := 0; prs_blocked := 0;
     prs_fixed := 0; prs_merged := 0; prs_processed := 0; repo_health := new_repo_health |}.

(** ** DAG dependency ordering *)

Definition _REPO_DEPENDENCY_TIERS : gmap string Z := list_to_map [
  ("omnibase_compat", 0); ("omnibase_spi", 1); ("omnibase_core", 2); ("omnibase_infra", 3);
  ("omnimarket", 4); ("omniclaude", 5); ("omniintelligence", 6); ("omnimemory", 7);
  ("omninode_infra", 8); ("onex_change_control", 9); ("omnidash", 10); ("omniweb", 11)]%Z.

Definition _UNKNOWN_TIER : Z := 99.
Definition _GREEN_CATEGORY : string := "green".

Definition _repo_slug (repo : string) : string := List.last (py_split "/" repo) EmptyString.

Section dag_ordering.
(** The ordering reads only [.repo] and [.category] of a PR object. *)
Context {PR : Type} (pr_repo pr_category : PR -> string).

Definition _sort_key (pr : PR) : Z * Z :=
  (default _UNKNOWN_TIER (_REPO_DEPENDENCY_TIERS !! _repo_slug (pr_repo pr)),
   if String.eqb (pr_category pr) _GREEN_CATEGORY then 0%Z else 1%Z).

Definition _apply_dag_ordering (prs : list PR) : list PR :=
  sort_by _sort_key prs.
End dag_ordering.

(** ** The FSM *)

Definition _TRANSITIONS (p : EnumPrLifecyclePhase) (t : EnumPrLifecycleEventTrigger)
  : option EnumPrLifecyclePhase :=
  match p, t with
  | IDLE, START_RECEIVED => Some INVENTORYING
  | INVENTORYING, INVENTORY_COMPLETE => Some TRIAGED
  | INVENTORYING, ERROR => Some FAILED
  | TRIAGED, REBASE_PENDING => Some REBASING
  | TRIAGED, FIXES_PENDING => Some FIXING
  | TRIAGED, NO_FIXES_NEEDED => Some MERGING
  | TRIAGED, ERROR => Some FAILED
  | REBASING, REBASE_COMPLETE => Some MERGING
  | REBASING, ERROR => Some FAILED
  | FIXING, FIXES_COMPLETE => Some MERGING
  | FIXING, ERROR => Some FAILED
  | MERGING, MERGE_COMPLETE => Some COMPLETE
  | MERGING, ERROR => Some FAILED
  | _, _ => None
  end.

Definition _PHASE_INTENTS (p : EnumPrLifecyclePhase) : option EnumPrLifecycleIntentType :=
  match p with
  | INVENTORYING => Some START_INVENTORY
  | REBASING => Some START_REBASE
  | FIXING => Some START_FIX
  | MERGING => Some START_MERGE
  | COMPLETE => Some SWEEP_COMPLETE
  | FAILED => Some SWEEP_FAILED
  | IDLE | TRIAGED => None
  end.

Definition _TERMINAL_PHASES (p : EnumPrLifecyclePhase) : bool :=
  match p with COMPLETE | FAILED => true | _ => false end.

Definition _is_transition_allowed (from_phase to_phase : EnumPrLifecyclePhase)
    (flags : ModelPrLifecycleEntryFlags) : bool :=
  if decide (to_phase = FAILED) then true
  else if inventory_only flags then
    match from_phase, to_phase with
    | IDLE, INVENTORYING | INVENTORYING, TRIAGED => true
    | _, _ => false
    end
  else if fix_only flags then
    negb (match from_phase, to_phase with
          | TRIAGED, MERGING | FIXING, MERGING => true
          | _, _ => false
          end)
  else true.

(** [update["x"] = event.x if event.x > 0], the previous value otherwise. *)
Definition captured (event_value state_value : Z) : Z :=
  if (event_value >? 0)%Z then event_value else state_value.

(** The state update of [delta] once [to_phase] is settled. *)
Definition transition_state (state : ModelPrLifecycleState) (event : ModelPrLifecycleEvent)
    (to_phase : EnumPrLifecyclePhase) : ModelPrLifecycleState :=
  {| correlation_id := correlation_id state;
     phase := to_phase;
     entry_flags := entry_flags state;
     started_at := if decide (phase state = IDLE) then Some (ev_timestamp event) else started_at state;
     last_phase_at := Some (ev_timestamp event);
     error_message := if decide (to_phase = FAILED) then ev_error_message event else None;
     prs_inventoried := captured (ev_prs_inventoried event) (prs_inventoried state);
     prs_blocked := captured (ev_prs_blocked event) (prs_blocked state);
     prs_fixed := captured (ev_prs_fixed event) (prs_fixed state);
     prs_merged := captured (ev_prs_merged event) (prs_merged state);
     prs_processed :=
       if decide (to_phase = COMPLETE) then
         if (ev_prs_inventoried event >? prs_inventoried state)%Z
         then (prs_inventoried state + ev_prs_inventoried event)%Z
         else prs_inventoried state
       else prs_processed state;
     repo_health := repo_health state |}.

(** The intents of [delta] once [to_phase] is settled: [dry_run] keeps only
    the two sweep-end intents. *)
Definition transition_intents (state : ModelPrLifecycleState) (to_phase : EnumPrLifecyclePhase)
  : list ModelPrLifecycleIntent :=
  match _PHASE_INTENTS to_phase with
  | None => []
  | Some ty =>
      if dry_run (entry_flags state)
         && negb (bool_decide (ty = SWEEP_COMPLETE) || bool_decide (ty = SWEEP_FAILED))
      then []
      else [{| it_intent_type := ty; it_correlation_id := correlation_id state;
               it_from_phase := to_phase |}]
  end.

Definition delta (state : ModelPrLifecycleState) (event : ModelPrLifecycleEvent)
  : ModelPrLifecycleState * list ModelPrLifecycleIntent :=
  if negb (bool_decide (ev_correlation_id event = correlation_id state)) then (state, [])
  else if negb (bool_decide (ev_source_phase event = phase state)) then (state, [])
  else if _TERMINAL_PHASES (phase state) then (state, [])
  else match _TRANSITIONS (phase state) (ev_trigger event) with
       | None => (state, [])
       | Some to_phase =>
           let to_phase :=
             if _is_transition_allowed (phase state) to_phase (entry_flags state)
             then to_phase else COMPLETE in
           (transition_state state event to_phase, transition_intents state to_phase)
       end.

#[export] Instance pr_lifecycle_reducer :
  Reducer ModelPrLifecycleState ModelPrLifecycleEvent ModelPrLifecycleIntent := delta.

(** ** Repo-health folds *)

Definition _REPO_HEALTH_CLASSIFIED_TOPIC_SUFFIX : string := "repo-health-classified.v1".
Definition _REPO_HEALTH_REPAIR_EMITTED_TOPIC_SUFFIX : string := "repo-health-repair-emitted.v1".

Definition with_repo_health (state : ModelPrLifecycleState) (rh : ModelRepoHealthLaneState)
  : ModelPrLifecycleState :=
  {| correlation_id := correlation_id state; phase := phase state;
     entry_flags := entry_flags state; started_at := started_at state;
     last_phase_at := last_phase_at state; error_message := error_message state;
     prs_inventoried := prs_inventoried state; prs_blocked := prs_blocked state;
     prs_fixed := prs_fixed state; prs_merged := prs_merged state;
     prs_processed := prs_processed state; repo_health := rh |}.

(** The counter a classification label increments ([_CLASSIFICATION_FIELD],
    [unknown_count] by default). *)
Inductive counter_field : Type := PrScoped | RepoBaseline | ExternalDependency | Unknown.
#[export] Instance counter_field_eq_dec : EqDecision counter_field.
Proof. solve_decision. Defined.
Definition _CLASSIFICATION_FIELD (label : string) : counter_field :=
  if String.eqb label "pr_scoped" then PrScoped
  else if String.eqb label "repo_baseline" then RepoBaseline
  else if String.eqb label "external_dependency" then ExternalDependency
  else Unknown.

Definition bump (f g : counter_field) (n : Z) : Z := if decide (f = g) then (n + 1)%Z else n.

Definition fold_repo_health_classified (state : ModelPrLifecycleState)
    (classification : string) (ticket_ref : option string) : ModelPrLifecycleState :=
  let rh := repo_health state in
  let f := _CLASSIFICATION_FIELD classification in
  with_repo_health state
    {| classified_count := classified_count rh + 1;
       pr_scoped_count := bump f PrScoped (pr_scoped_count rh);
       repo_baseline_count := bump f RepoBaseline (repo_baseline_count rh);
       external_dependency_count := bump f ExternalDependency (external_dependency_count rh);
       unknown_count := bump f Unknown (unknown_count rh);
       repair_tasks_emitted := repair_tasks_emitted rh;
       repair_task_refs := repair_task_refs rh |}.

(** [tuple(dict.fromkeys(xs))]: first occurrences, in order. *)
Definition dict_fromkeys (l : list string) : list string :=
  foldl (fun acc x => if decide (x ∈ acc) then acc else acc ++ [x]) [] l.

Definition fold_repo_health_repair_emitted (state : ModelPrLifecycleState)
    (ticket_ref : option string) : ModelPrLifecycleState :=
  let rh := repo_health state in
  with_repo_health state
    {| classified_count := classified_count rh;
       pr_scoped_count := pr_scoped_count rh;
       repo_baseline_count := repo_baseline_count rh;
       external_dependency_count := external_dependency_count rh;
       unknown_count := unknown_count rh;
       repair_tasks_emitted := repair_tasks_emitted rh + 1;
       repair_task_refs :=
         match ticket_ref with
         | Some t => dict_fromkeys (repair_task_refs rh ++ [t])
         | None => repair_task_refs rh
         end |}.

(** ** [handle_dict]: dispatch on the topic *)

Section handle_dict.
(** The event payload is an untyped dict; [get_str] reads an optional string
    entry and [parse_event] is the pydantic constructor of the FSM event. *)
Context {Raw : Type} (get_str : Raw -> string -> option string)
  (parse_event : Raw -> result ModelPrLifecycleEvent).

Definition handle_dict (event_topic : string) (state : ModelPrLifecycleState) (event_data : Raw)
  : result (ModelPrLifecycleState * list ModelPrLifecycleIntent) :=
  if py_endswith _REPO_HEALTH_CLASSIFIED_TOPIC_SUFFIX event_topic then
    Ok (fold_repo_health_classified state
          (default "unknown" (get_str event_data "classification"))
          (get_str event_data "ticket_ref"), [])
  else if py_endswith _REPO_HEALTH_REPAIR_EMITTED_TOPIC_SUFFIX event_topic then
    Ok (fold_repo_health_repair_emitted state (get_str event_data "ticket_ref"), [])
  else
    event ← parse_event event_data;
    Ok (delta state event).
End handle_dict.

(** ** Properties of one step *)

Definition is_sweep_end (i : ModelPrLifecycleIntent) : bool :=
  bool_decide (it_intent_type i = SWEEP_COMPLETE) || bool_decide (it_intent_type i = SWEEP_FAILED).

(** A step is either a rejection or one settled transition. *)
Lemma delta_cases s e :
  delta s e = (s, []) \/
  exists p, _TERMINAL_PHASES (phase s) = false /\ _TRANSITIONS (phase s) (ev_trigger e) = Some p /\
    let q := if _is_transition_allowed (phase s) p (entry_flags s) then p else COMPLETE in
    delta s e = (transition_state s e q, transition_intents s q).
Proof.
  unfold delta. destruct (bool_decide _); [simpl|by left].
  destruct (bool_decide _); [simpl|by left].
  destruct (_TERMINAL_PHASES _); [by left|].
  destruct (_TRANSITIONS _ _) as [p|]; [right; by exists p|by left].
Qed.

Lemma delta_accept s e p :
  ev_correlation_id e = correlation_id s -> ev_source_phase e = phase s ->
  _TERMINAL_PHASES (phase s) = false -> _TRANSITIONS (phase s) (ev_trigger e) = Some p ->
  _is_transition_allowed (phase s) p (entry_flags s) = true ->
  delta s e = (transition_state s e p, transition_intents s p).
Proof.
  intros Hc Hs Ht Hp Ha. unfold delta.
  rewrite !bool_decide_eq_true_2 by done. simpl. by rewrite Ht, Hp, Ha.
Qed.

Lemma run_accept s e es p :
  ev_correlation_id e = correlation_id s -> ev_source_phase e = phase s ->
  _TERMINAL_PHASES (phase s) = false -> _TRANSITIONS (phase s) (ev_trigger e) = Some p ->
  _is_transition_allowed (phase s) p (entry_flags s) = true ->
  run s (e :: es) = ((run (transition_state s e p) es).1,
                     transition_intents s p ++ (run (transition_state s e p) es).2).
Proof. intros. simpl. unfold reduce, pr_lifecycle_reducer. by erewrite delta_accept. Qed.

Lemma delta_terminal s e : _TERMINAL_PHASES (phase s) = true -> delta s e = (s, []).
Proof. intros H. destruct (delta_cases s e) as [|(p & Hp & _)]; [done|congruence]. Qed.

Lemma delta_flags s e : entry_flags (delta s e).1 = entry_flags s.
Proof. destruct (delta_cases s e) as [->|(p & _ & _ & ->)]; done. Qed.

(** The step relation on phases: what the table and the flags let happen. *)
Definition phase_step (flags : ModelPrLifecycleEntryFlags) (p q : EnumPrLifecyclePhase) : Prop :=
  exists t r, _TERMINAL_PHASES p = false /\ _TRANSITIONS p t = Some r /\
    q = if _is_transition_allowed p r flags then r else COMPLETE.

Lemma delta_step s e :
  delta s e = (s, []) \/
  (phase_step (entry_flags s) (phase s) (phase (delta s e).1) /\
   (delta s e).2 = transition_intents s (phase (delta s e).1)).
Proof.
  destruct (delta_cases s e) as [H|(p & Ht & Hp & H)]; [by left|right].
  simpl in H. rewrite H. split; [|done]. eexists _, _. eauto.
Qed.

(** The lifecycle stage of a phase; an intent carries the stage of its phase. *)
Definition stage (p : EnumPrLifecyclePhase) : nat :=
  match p with
  | IDLE => 0 | INVENTORYING | TRIAGED => 1 | REBASING | FIXING => 2 | MERGING => 3
  | COMPLETE | FAILED => 4
  end.
Definition intent_stage (t : EnumPrLifecycleIntentType) : nat :=
  match t with
  | START_INVENTORY => 1 | START_REBASE | START_FIX => 2 | START_MERGE => 3
  | SWEEP_COMPLETE | SWEEP_FAILED => 4
  end.

Lemma phase_step_stage flags p q :
  phase_step flags p q -> stage p <= stage q /\ (_PHASE_INTENTS q <> None -> stage p < stage q).
Proof.
  intros (t & r & Hp & Hr & ->).
  unfold _is_transition_allowed.
  destruct p, t; simplify_eq/=; repeat case_match; simplify_eq/=; split; try lia; by intros [].
Qed.

Lemma transition_intents_stage s q :
  Forall (fun i => intent_stage (it_intent_type i) = stage q /\ _PHASE_INTENTS q <> None) (transition_intents s q).
Proof. unfold transition_intents. destruct q; simpl; repeat case_match; by repeat constructor. Qed.

Lemma delta_stage s e : stage (phase s) <= stage (phase (delta s e).1).
Proof. destruct (delta_step s e) as [->|[H _]]; [simpl; lia|]. by apply phase_step_stage in H as [? _]. Qed.

Lemma delta_intents s e :
  Forall (fun i => stage (phase s) < intent_stage (it_intent_type i)
                   /\ intent_stage (it_intent_type i) <= stage (phase (delta s e).1)) (delta s e).2.
Proof.
  destruct (delta_step s e) as [->|[H ->]]; [by constructor|].
  apply phase_step_stage in H as [_ H].
  eapply Forall_impl; [apply transition_intents_stage|].
  intros i [-> Hi]. split; [by apply H|done].
Qed.

Lemma delta_intents_short s e : length (delta s e).2 <= 1.
Proof.
  destruct (delta_step s e) as [->|[_ ->]]; [simpl; lia|].
  unfold transition_intents. destruct (_PHASE_INTENTS _); [|simpl; lia]. destruct (_ && _); simpl; lia.
Qed.

(** ** Properties of runs *)

Lemma run_stage s es :
  Forall (fun i => stage (phase s) < intent_stage (it_intent_type i)) (run s es).2.
Proof.
  revert s. induction es as [|e es IH]; intros s; simpl; [done|].
  apply Forall_app; split.
  - eapply Forall_impl; [apply delta_intents|]. simpl. tauto.
  - eapply Forall_impl; [apply IH|]. simpl. intros i Hi.
    pose proof (delta_stage s e). change (reduce s e) with (delta s e) in Hi. lia.
Qed.

(** A sweep asks for its work in lifecycle order and at most once each:
    along any sequence of events, accepted or rejected, the intents emitted
    have strictly increasing stages (inventory, then rebase or fix, then
    merge, then the end of the sweep), so no effect is requested twice. *)
Theorem sweep_intents_in_order flags cid es :
  StronglySorted (fun i j => intent_stage (it_intent_type i) < intent_stage (it_intent_type j))
    (run (new_sweep cid flags) es).2.
Proof.
  generalize (new_sweep cid flags). induction es as [|e es IH]; intros s; simpl; [constructor|].
  change (reduce s e) with (delta s e).
  pose proof (delta_intents_short s e) as Hl. pose proof (delta_intents s e) as Hi.
  destruct (delta s e) as [s' [|i [|j k]]]; simpl in *; [apply IH| |lia].
  apply Forall_singleton in Hi as [_ Hi]. constructor; [apply IH|].
  eapply Forall_impl; [apply run_stage|]. simpl. lia.
Qed.

Definition ended (s : ModelPrLifecycleState) : nat := if _TERMINAL_PHASES (phase s) then 1 else 0.

Lemma delta_end_count s e : count is_sweep_end (delta s e).2 + ended s = ended (delta s e).1.
Proof.
  destruct (delta_step s e) as [->|[H ->]]; [reflexivity|].
  destruct H as (t & r & Hp & _ & _). unfold ended at 1. rewrite Hp.
  unfold ended, transition_intents. destruct (phase (delta s e).1); simpl; rewrite ?andb_false_r; repeat case_match; reflexivity.
Qed.

Lemma run_end_count s es : count is_sweep_end (run s es).2 + ended s = ended (run s es).1.
Proof.
  revert s. induction es as [|e es IH]; intros s; simpl; [reflexivity|].
  change (reduce s e) with (delta s e). rewrite count_app, <- IH, <- delta_end_count. lia.
Qed.

(** A sweep ends exactly once: a run from a new sweep emits one
    SWEEP_COMPLETE or SWEEP_FAILED intent if it has reached a terminal phase
    and none before, and the events that follow change nothing. *)
Theorem sweep_ends_once flags cid es es' :
  let r := run (new_sweep cid flags) es in
  count is_sweep_end r.2 = (if _TERMINAL_PHASES (phase r.1) then 1 else 0)
  /\ (if _TERMINAL_PHASES (phase r.1) then run r.1 es' = (r.1, []) else True).
Proof.
  intros r. pose proof (run_end_count (new_sweep cid flags) es) as H. split.
  - unfold ended in H. simpl in H. rewrite Nat.add_0_r in H. apply H.
  - destruct (_TERMINAL_PHASES (phase r.1)) eqn:Ht; [|done].
    apply run_absorbed. intros e. by apply delta_terminal.
Qed.

(** Which intents a sweep with given flags may emit, as long as its phase stays
    in [ok]. *)
Lemma run_allowed flags (ok : EnumPrLifecyclePhase -> Prop) (good : EnumPrLifecycleIntentType -> Prop)
    (evt : ModelPrLifecycleEvent -> Prop) s es :
  entry_flags s = flags -> ok (phase s) -> Forall evt es ->
  (forall s e, entry_flags s = flags -> ok (phase s) -> evt e ->
     ok (phase (delta s e).1) /\ Forall (fun i => good (it_intent_type i)) (delta s e).2) ->
  ok (phase (run s es).1) /\ Forall (fun i => good (it_intent_type i)) (run s es).2.
Proof.
  intros Hf Hok Hes Hstep. revert s Hf Hok.
  induction Hes as [|e es He Hes IH]; intros s Hf Hok; simpl; [done|].
  change (reduce s e) with (delta s e).
  destruct (Hstep s e Hf Hok He) as [Hok' Hi].
  destruct (IH (delta s e).1) as [H1 H2]; [by rewrite delta_flags|done|].
  split; [done|]. by apply Forall_app.
Qed.

(** [inventory_only] stops after triage: such a sweep never asks for a
    rebase, a fix or a merge, whatever events arrive, and never enters their
    phases. *)
Theorem inventory_only_stops flags cid es :
  inventory_only flags = true ->
  let r := run (new_sweep cid flags) es in
  (phase r.1 ∉ [REBASING; FIXING; MERGING])
  /\ Forall (fun i => it_intent_type i ∉ [START_REBASE; START_FIX; START_MERGE]) r.2.
Proof.
  intros Hi. apply (run_allowed flags (fun p => p ∉ [REBASING; FIXING; MERGING])
           (fun t => t ∉ [START_REBASE; START_FIX; START_MERGE]) (fun _ => True)).
  - done.
  - simpl. set_solver.
  - apply Forall_true. done.
  - intros s e Hf Hok _. destruct (delta_step s e) as [->|[(t & r & Hp & Hr & Hq) ->]]; [by split|].
    rewrite Hq. unfold _is_transition_allowed, transition_intents. rewrite Hf, Hi.
    destruct (phase s), t; try discriminate Hp; try discriminate Hr;
      injection Hr as <-; simpl;
      (split; [set_solver | try destruct (dry_run _); repeat constructor; set_solver]).
Qed.

Lemma inventory_only_stops_witness :
  phase (run (new_sweep "c" {| dry_run := false; inventory_only := true; fix_only := false |}) []).1
    ∉ [REBASING; FIXING; MERGING].
Proof.
  apply (inventory_only_stops {| dry_run := false; inventory_only := true; fix_only := false |} "c" []).
  reflexivity.
Defined.

(** The same sweep with [dry_run] off. *)
Definition wet (flags : ModelPrLifecycleEntryFlags) : ModelPrLifecycleEntryFlags :=
  {| dry_run := false; inventory_only := inventory_only flags; fix_only := fix_only flags |}.
Definition wet_state (s : ModelPrLifecycleState) : ModelPrLifecycleState :=
  {| correlation_id := correlation_id s; phase := phase s; entry_flags := wet (entry_flags s);
     started_at := started_at s; last_phase_at := last_phase_at s; error_message := error_message s;
     prs_inventoried := prs_inventoried s; prs_blocked := prs_blocked s; prs_fixed := prs_fixed s;
     prs_merged := prs_merged s; prs_processed := prs_processed s; repo_health := repo_health s |}.

Lemma delta_wet s e : (delta (wet_state s) e).1 = wet_state (delta s e).1.
Proof.
  unfold delta. simpl. case_match; [done|]. case_match; [done|]. case_match; [done|].
  case_match; [|done]. unfold _is_transition_allowed; simpl.
  repeat case_match; reflexivity.
Qed.
Lemma run_wet s es : (run (wet_state s) es).1 = wet_state (run s es).1.
Proof.
  revert s. induction es as [|e es IH]; intros s; simpl; [done|].
  change (reduce ?a e) with (delta a e). by rewrite delta_wet, IH.
Qed.

(** A dry run emits no side-effect intent: the only intents of any run are
    SWEEP_COMPLETE and SWEEP_FAILED; and the flag changes no transition: the
    phase and every counter are those of the same sweep without it. *)
Theorem dry_run_no_side_effects flags cid es :
  dry_run flags = true ->
  Forall (fun i => is_sweep_end i = true) (run (new_sweep cid flags) es).2
  /\ (run (new_sweep cid (wet flags)) es).1 = wet_state (run (new_sweep cid flags) es).1.
Proof.
  intros Hd. split; [|apply (run_wet (new_sweep cid flags))].
  apply (run_intents (fun s => dry_run (entry_flags s) = true)); [| |done].
  - intros s e Hs. change (reduce s e) with (delta s e). by rewrite delta_flags.
  - intros s e Hs. change (reduce s e) with (delta s e).
    destruct (delta_step s e) as [->|[_ ->]]; [constructor|].
    unfold transition_intents. rewrite Hs.
    destruct (_PHASE_INTENTS _) as [[]|]; repeat constructor.
Qed.

Lemma dry_run_no_side_effects_witness :
  Forall (fun i => is_sweep_end i = true)
    (run (new_sweep "c" {| dry_run := true; inventory_only := false; fix_only := false |}) []).2.
Proof.
  apply (dry_run_no_side_effects {| dry_run := true; inventory_only := false; fix_only := false |} "c" []).
  reflexivity.
Defined.

(** [fix_only] lets a sweep merge only through a rebase: without a
    REBASE_PENDING event it never asks for a merge, whatever else arrives; and
    the rebase route does reach MERGING and asks for one, although the module's
    description says the flag skips MERGING. *)
Theorem fix_only_merges_only_after_rebase flags cid es :
  fix_only flags = true ->
  (Forall (fun e => ev_trigger e <> REBASE_PENDING) es ->
   Forall (fun i => it_intent_type i <> START_MERGE) (run (new_sweep cid flags) es).2)
  /\ (inventory_only flags = false -> dry_run flags = false ->
      exists es', phase (run (new_sweep cid flags) es').1 = MERGING
        /\ START_MERGE ∈ map it_intent_type (run (new_sweep cid flags) es').2).
Proof.
  intros Hf. split.
  - intros Hes.
    apply (run_allowed flags (fun p => p ∉ [REBASING; MERGING]) (fun t => t <> START_MERGE)
             (fun e => ev_trigger e <> REBASE_PENDING)); try done.
    + simpl. set_solver.
    + intros s e Hfl Hok He. destruct (delta_cases s e) as [->|(p & Ht & Hp & Heq)]; [by split|].
      simpl in Heq. rewrite Heq. unfold _is_transition_allowed, transition_intents. rewrite Hfl, Hf.
      destruct (phase s), (ev_trigger e); try discriminate Ht; try discriminate Hp;
        try (exfalso; set_solver); injection Hp as <-; simpl;
        destruct (inventory_only flags), (dry_run flags); simpl;
        (split; [set_solver | repeat constructor; discriminate]).
  - intros Hi Hd. destruct flags as [d i f]. simpl in *. subst.
    set (ev p t := {| ev_correlation_id := cid; ev_source_phase := p; ev_trigger := t; ev_success := true;
                      ev_timestamp := 0; ev_error_message := None; ev_prs_inventoried := 0;
                      ev_prs_blocked := 0; ev_prs_fixed := 0; ev_prs_merged := 0 |}).
    exists [ev IDLE START_RECEIVED; ev INVENTORYING INVENTORY_COMPLETE;
            ev TRIAGED REBASE_PENDING; ev REBASING REBASE_COMPLETE].
    do 4 (erewrite run_accept by reflexivity). simpl.
    split; [reflexivity|]. set_solver.
Qed.
Lemma fix_only_merges_only_after_rebase_witness :
  Forall (fun i => it_intent_type i <> START_MERGE)
    (run (new_sweep "c" {| dry_run := false; inventory_only := false; fix_only := true |}) []).2.
Proof.
  apply (fix_only_merges_only_after_rebase {| dry_run := false; inventory_only := false; fix_only := true |} "c" []);
    [reflexivity|constructor].
Defined.

(** ** Interleaving FSM events and repo-health events *)

(** The FSM neither reads nor writes the repo-health lane. *)
Lemma delta_repo_health rh s e :
  delta (with_repo_health s rh) e = (with_repo_health (delta s e).1 rh, (delta s e).2).
Proof. unfold delta; simpl. by repeat case_match. Qed.
Lemma run_repo_health rh s es :
  run (with_repo_health s rh) es = (with_repo_health (run s es).1 rh, (run s es).2).
Proof.
  revert s. induction es as [|e es IH]; intros s; simpl; [done|].
  change (reduce ?a e) with (delta a e). rewrite delta_repo_health. simpl. by rewrite IH.
Qed.
Lemma with_repo_health_same s : with_repo_health s (repo_health s) = s.
Proof. by destruct s. Qed.

Section messages.
Context {Raw : Type} (get_str : Raw -> string -> option string)
  (parse_event : Raw -> result ModelPrLifecycleEvent).
Implicit Types (m : string * Raw) (ms : list (string * Raw)).

Definition is_health (topic : string) : bool :=
  py_endswith _REPO_HEALTH_CLASSIFIED_TOPIC_SUFFIX topic
  || py_endswith _REPO_HEALTH_REPAIR_EMITTED_TOPIC_SUFFIX topic.

(** A sequence of messages through [handle_dict], stopping at the first
    message that raises. *)
Fixpoint run_dict (s : ModelPrLifecycleState) ms
  : result (ModelPrLifecycleState * list ModelPrLifecycleIntent) :=
  match ms with
  | [] => Ok (s, [])
  | m :: ms' =>
      r ← handle_dict get_str parse_event m.1 s m.2;
      r' ← run_dict r.1 ms';
      Ok (r'.1, r.2 ++ r'.2)
  end.

(** The repo-health lane after a message of one of its two topics. *)
Definition fold_health (rh : ModelRepoHealthLaneState) m : ModelRepoHealthLaneState :=
  let s := with_repo_health (new_sweep EmptyString {| dry_run := false; inventory_only := false; fix_only := false |}) rh in
  repo_health
    (if py_endswith _REPO_HEALTH_CLASSIFIED_TOPIC_SUFFIX m.1
     then fold_repo_health_classified s (default "unknown" (get_str m.2 "classification")) (get_str m.2 "ticket_ref")
     else if py_endswith _REPO_HEALTH_REPAIR_EMITTED_TOPIC_SUFFIX m.1
     then fold_repo_health_repair_emitted s (get_str m.2 "ticket_ref") else s).

Lemma handle_dict_health s m :
  is_health m.1 = true ->
  handle_dict get_str parse_event m.1 s m.2 = Ok (with_repo_health s (fold_health (repo_health s) m), []).
Proof.
  unfold is_health, handle_dict, fold_health. intros H.
  destruct (py_endswith _ _); [done|]. simpl in H. by rewrite H.
Qed.
Lemma handle_dict_fsm s m :
  is_health m.1 = false ->
  handle_dict get_str parse_event m.1 s m.2 = (e ← parse_event m.2; Ok (delta s e)).
Proof.
  unfold is_health, handle_dict. intros [H1 H2]%orb_false_elim. by rewrite H1, H2.
Qed.

Lemma run_dict_split s ms :
  run_dict s ms =
    (es ← mapM parse_event (map snd (filter (fun m => is_health m.1 = false) ms));
     Ok (with_repo_health (run s es).1
           (foldl fold_health (repo_health s) (filter (fun m => is_health m.1 = true) ms)),
         (run s es).2)).
Proof.
  revert s. induction ms as [|m ms IH]; intros s; simpl.
  { by rewrite with_repo_health_same. }
  rewrite !filter_cons. destruct (is_health m.1) eqn:Hm; simpl.
  - rewrite handle_dict_health by done. simpl. rewrite IH. simpl.
    destruct (mapM _ _) as [es|]; simpl; [|done].
    by rewrite run_repo_health.
  - rewrite handle_dict_fsm by done. destruct (parse_event m.2) as [e|]; simpl; [|done].
    rewrite IH. destruct (mapM _ _) as [es|]; simpl; [|done].
    change (reduce s e) with (delta s e).
    replace (repo_health (delta s e).1) with (repo_health s); [done|].
    destruct (delta_cases s e) as [->|(p & _ & _ & ->)]; done.
Qed.

(** The two lanes of the reducer do not interfere, whatever the
    interleaving: processing a mixed sequence of messages is running the FSM
    on its own messages and folding the repo-health messages on the side;
    the phase, the counters and the emitted intents depend on the first
    only, and the sequence raises exactly when one of its FSM messages does
    not parse. *)
Theorem repo_health_noninterference s ms :
  run_dict s ms =
    match mapM parse_event (map snd (filter (fun m => is_health m.1 = false) ms)) with
    | Raise x => Raise x
    | Ok es =>
        Ok (with_repo_health (run s es).1
              (foldl fold_health (repo_health s) (filter (fun m => is_health m.1 = true) ms)),
            (run s es).2)
    end.
Proof. apply run_dict_split. Qed.

(** What the repo-health lane promises of its counters. *)
Definition health_wf (rh : ModelRepoHealthLaneState) : Prop :=
  (classified_count rh = pr_scoped_count rh + repo_baseline_count rh
                         + external_dependency_count rh + unknown_count rh)%Z
  /\ NoDup (repair_task_refs rh)
  /\ (Z.of_nat (length (repair_task_refs rh)) <= repair_tasks_emitted rh)%Z.

Lemma dict_fromkeys_snoc (l : list string) x :
  NoDup l -> dict_fromkeys (l ++ [x]) = if decide (x ∈ l) then l else l ++ [x].
Proof.
  intros Hl. unfold dict_fromkeys. rewrite foldl_app. simpl.
  enough (foldl (fun acc x => if decide (x ∈ acc) then acc else acc ++ [x]) [] l = l) as -> by done.
  assert (forall acc k : list string, NoDup (acc ++ k) ->
    foldl (fun acc x => if decide (x ∈ acc) then acc else acc ++ [x]) acc k = acc ++ k) as H.
  { intros acc k. revert acc. induction k as [|y k IH]; intros acc H; simpl; [by rewrite app_nil_r|].
    rewrite decide_False.
    - rewrite IH; by rewrite <- app_assoc.
    - apply NoDup_app in H as (_ & H & _). intros ?. apply (H y); [done|constructor]. }
  apply (H []), Hl.
Qed.

Lemma fold_health_wf rh m : health_wf rh -> health_wf (fold_health rh m).
Proof.
  intros (Hc & Hn & Hl). unfold fold_health. case_match; [|case_match; [|by split]].
  - unfold health_wf; simpl. unfold bump. split; [|done].
    destruct (_CLASSIFICATION_FIELD _); simpl; lia.
  - unfold health_wf; simpl. split; [done|]. destruct (get_str _ _) as [t|]; [|split; [done|lia]].
    rewrite dict_fromkeys_snoc by done. case_decide; [split; [done|lia]|].
    rewrite length_app. simpl. split; [|lia].
    apply NoDup_app. split_and!; [done|set_solver|apply NoDup_singleton].
Qed.

(** The repo-health lane accounts for every message: after any
    interleaving of messages the classified total is the sum of the four
    classes (a label outside the four counts as unknown), the repair-task
    references hold no duplicate, and at least as many repair tasks were
    counted as references are held. *)
Theorem repo_health_accounts cid flags ms :
  match run_dict (new_sweep cid flags) ms with
  | Ok (s, _) => health_wf (repo_health s)
  | Raise _ => True
  end.
Proof.
  rewrite run_dict_split. destruct (mapM _ _) as [es|]; simpl; [|done].
  assert (forall rh l, health_wf rh -> health_wf (foldl fold_health rh l)) as H.
  { intros rh l. revert rh. induction l; intros rh Hrh; simpl; [done|]. by apply IHl, fold_health_wf. }
  apply H. split_and!; [done|constructor|done].
Qed.
End messages.

(** ** Merge order *)

Section merge_order.
Context {PR : Type} (pr_repo pr_category : PR -> string).

(** The merge order is dependency-safe: [_apply_dag_ordering] returns a
    permutation of the pull requests in which a lower tier comes before a
    higher one and, within a tier, a green pull request before the others;
    and pull requests of the same tier and greenness keep their order. *)
Theorem dag_ordering_safe (prs : list PR) (k : Z * Z) :
  let key := _sort_key pr_repo pr_category in
  let l := _apply_dag_ordering pr_repo pr_category prs in
  l ≡ₚ prs
  /\ StronglySorted (fun a b => ((key a).1 < (key b).1 \/ (key a).1 = (key b).1 /\ (key a).2 <= (key b).2)%Z) l
  /\ filter (fun a => key a = k) l = filter (fun a => key a = k) prs.
Proof.
  intros key l. split_and!.
  - apply sort_by_perm.
  - eapply StronglySorted_impl; [|apply sort_by_sorted].
    intros a b. unfold py_leb, py_ord_prod, py_leb, py_ord_Z. unfold key; repeat case_match; intros; breflect; try done; lia.
  - apply sort_by_stable.
Qed.
End merge_order.
