(* ===== verification/PrReview.v ===== *)
(** * PR review: the state machine, the GitHub effect, the orchestrator

    [review/pr_review_fsm.py] (the phase machine with its consecutive-failure
    breaker and the verdict derived from its state),
    [node_github_review_effect] (posting, watching and reporting threads),
    [node_judge_verdict_parse_compute] (the judge's answer) and
    [node_pr_review_orchestrator] (the pipeline that drives them).  The GitHub
    bridge, the inference adapter, the diff effect, the prompt builder, the
    response parser and the aggregator answer as functions of the calls made
    so far; [json.loads] is a function of the text.  Times are left out: the
    durations and stamps of threads and verdicts, which nothing reads back. *)
From S2P Require Import Prelude Fsm LogMonad.

(** ** Data *)

Module Phase.
Inductive EnumFsmPhase : Type :=
  | INIT | FETCH_DIFF | REVIEW | POST_THREADS | WATCH | JUDGE_VERIFY | REPORT | DONE | FAILED.
#[export] Instance EnumFsmPhase_eq_dec : EqDecision EnumFsmPhase.
Proof. solve_decision. Defined.
End Phase.
Export (hints) Phase.
Abbreviation EnumFsmPhase := Phase.EnumFsmPhase.
Definition fsm_phase_value (p : EnumFsmPhase) : string :=
  match p with
  | Phase.INIT => "init"
  | Phase.FETCH_DIFF => "fetch_diff"
  | Phase.REVIEW => "review"
  | Phase.POST_THREADS => "post_threads"
  | Phase.WATCH => "watch"
  | Phase.JUDGE_VERIFY => "judge_verify"
  | Phase.REPORT => "report"
  | Phase.DONE => "done"
  | Phase.FAILED => "failed"
  end.

Record DiffHunk := {
  dh_file_path : string;
  dh_start_line : Z;
  dh_end_line : Z;
  dh_content : string
}.

Inductive EnumFindingSeverity : Type := CRITICAL | MAJOR | MINOR | NIT.
#[export] Instance EnumFindingSeverity_eq_dec : EqDecision EnumFindingSeverity.
Proof. solve_decision. Defined.
Definition severity_value (s : EnumFindingSeverity) : string :=
  match s with CRITICAL => "critical" | MAJOR => "major" | MINOR => "minor" | NIT => "nit" end.

Record PrReviewFindingEvidence := {
  evi_file_path : option string;
  evi_line_start : option Z;
  evi_line_end : option Z
}.

Record ReviewFinding := {
  fi_id : string;
  fi_severity : EnumFindingSeverity;
  fi_title : string;
  fi_description : string;
  fi_suggestion : option string;
  fi_evidence : PrReviewFindingEvidence;
  fi_confidence : string;
  fi_source_model : string
}.

Module Thread.
Inductive EnumThreadStatus : Type :=
  | PENDING | POSTED | RESOLVED | VERIFIED_PASS | VERIFIED_FAIL | ESCALATED.
#[export] Instance EnumThreadStatus_eq_dec : EqDecision EnumThreadStatus.
Proof. solve_decision. Defined.
End Thread.
Export (hints) Thread.
Abbreviation EnumThreadStatus := Thread.EnumThreadStatus.

Record ThreadState := {
  th_finding_id : string;
  th_github_thread_id : option Z;
  th_status : EnumThreadStatus;
  th_verify_attempts : Z;
  th_judge_reasoning : option string
}.

Record ReviewRequest := {
  rq_correlation_id : string;
  rq_pr_number : Z;
  rq_repo : string;
  rq_reviewer_models : list string;
  rq_judge_model : string;
  rq_dry_run : bool;
  rq_max_findings_per_pr : nat
}.

Inductive EnumPrVerdict : Type := CLEAN | RISKS_NOTED | BLOCKING_ISSUE.
#[export] Instance EnumPrVerdict_eq_dec : EqDecision EnumPrVerdict.
Proof. solve_decision. Defined.

Record ReviewVerdict := {
  rv_correlation_id : string;
  rv_pr_number : Z;
  rv_repo : string;
  rv_verdict : EnumPrVerdict;
  rv_total_findings : Z;
  rv_threads_posted : Z;
  rv_threads_verified_pass : Z;
  rv_threads_verified_fail : Z;
  rv_threads_pending : Z;
  rv_judge_model_used : string;
  rv_summary : string
}.

(** ** The phase machine *)

Definition MAX_CONSECUTIVE_FAILURES : nat := 3.

Definition _PHASE_ORDER : list EnumFsmPhase :=
  [Phase.FETCH_DIFF; Phase.REVIEW; Phase.POST_THREADS; Phase.WATCH; Phase.JUDGE_VERIFY; Phase.REPORT].
Definition TERMINAL_PHASES : list EnumFsmPhase := [Phase.DONE; Phase.FAILED].

(** [l.index(x)] *)
Fixpoint index_of (x : EnumFsmPhase) (l : list EnumFsmPhase) : option nat :=
  match l with
  | [] => None
  | y :: l' => if decide (y = x) then Some 0 else S <$> index_of x l'
  end.

Definition next_phase (current : EnumFsmPhase) : result EnumFsmPhase :=
  if decide (current = Phase.INIT) then Ok Phase.FETCH_DIFF
  else if decide (current = Phase.REPORT) then Ok Phase.DONE
  else if decide (current ∈ TERMINAL_PHASES) then
    Raise (ValueError ("No next phase from terminal state: " +:+ fsm_phase_value current))
  else match index_of current _PHASE_ORDER with
       | None => Raise (ValueError "tuple.index(x): x not in tuple")
       | Some idx => match _PHASE_ORDER !! (idx + 1) with
                     | Some p => Ok p
                     | None => Raise (ValueError "tuple index out of range")
                     end
       end.

Record ModelPrReviewBotState := {
  bs_correlation_id : string;
  bs_pr_number : Z;
  bs_repo : string;
  bs_current_phase : EnumFsmPhase;
  bs_consecutive_failures : nat;
  bs_max_consecutive_failures : nat;
  bs_dry_run : bool;
  bs_judge_model : string;
  bs_diff_hunks : list DiffHunk;
  bs_findings : list ReviewFinding;
  bs_thread_states : list ThreadState;
  bs_error_message : option string
}.

Record ModelPhaseTransitionEvent := {
  tev_correlation_id : string;
  tev_pr_number : Z;
  tev_repo : string;
  tev_from_phase : EnumFsmPhase;
  tev_to_phase : EnumFsmPhase;
  tev_success : bool;
  tev_error_message : option string
}.

Definition start_state (request : ReviewRequest) : ModelPrReviewBotState :=
  {| bs_correlation_id := rq_correlation_id request;
     bs_pr_number := rq_pr_number request;
     bs_repo := rq_repo request;
     bs_current_phase := Phase.INIT;
     bs_consecutive_failures := 0;
     bs_max_consecutive_failures := MAX_CONSECUTIVE_FAILURES;
     bs_dry_run := rq_dry_run request;
     bs_judge_model := rq_judge_model request;
     bs_diff_hunks := []; bs_findings := []; bs_thread_states := [];
     bs_error_message := None |}.

(** The arguments of [advance] besides the state. *)
Record phase_outcome := {
  po_phase_success : bool;
  po_error_message : option string;
  po_diff_hunks : option (list DiffHunk);
  po_findings : option (list ReviewFinding);
  po_thread_states : option (list ThreadState)
}.

(** [error_message or f"Circuit breaker: ..."] *)
Definition breaker_message (error_message : option string) (n : nat) : string :=
  py_opt_or error_message ("Circuit breaker: " +:+ pretty (Z.of_nat n) +:+ " consecutive failures").

Definition advance (state : ModelPrReviewBotState) (o : phase_outcome)
  : result (ModelPrReviewBotState * ModelPhaseTransitionEvent) :=
  let from_phase := bs_current_phase state in
  let event to success err :=
    {| tev_correlation_id := bs_correlation_id state; tev_pr_number := bs_pr_number state;
       tev_repo := bs_repo state; tev_from_phase := from_phase; tev_to_phase := to;
       tev_success := success; tev_error_message := err |} in
  let updated to failures err diff findings threads :=
    {| bs_correlation_id := bs_correlation_id state; bs_pr_number := bs_pr_number state;
       bs_repo := bs_repo state; bs_current_phase := to; bs_consecutive_failures := failures;
       bs_max_consecutive_failures := bs_max_consecutive_failures state;
       bs_dry_run := bs_dry_run state; bs_judge_model := bs_judge_model state;
       bs_diff_hunks := default (bs_diff_hunks state) diff;
       bs_findings := default (bs_findings state) findings;
       bs_thread_states := default (bs_thread_states state) threads;
       bs_error_message := err |} in
  if decide (from_phase ∈ TERMINAL_PHASES) then
    Raise (ValueError ("Cannot advance from terminal phase: " +:+ fsm_phase_value from_phase))
  else if negb (po_phase_success o) then
    let new_failures := bs_consecutive_failures state + 1 in
    let '(to_phase, err) :=
      if bs_max_consecutive_failures state <=? new_failures
      then (Phase.FAILED, Some (breaker_message (po_error_message o) new_failures))
      else (from_phase, po_error_message o) in
    Ok (updated to_phase new_failures err None None None, event to_phase false err)
  else
    to_phase ← next_phase from_phase;
    Ok (updated to_phase 0 None (po_diff_hunks o) (po_findings o) (po_thread_states o),
        event to_phase true None).

Definition status_count (k : EnumThreadStatus -> bool) (threads : list ThreadState) : Z :=
  Z.of_nat (count (fun t => k (th_status t)) threads).

Definition make_verdict (state : ModelPrReviewBotState) (judge_model_used : string) : ReviewVerdict :=
  let judge_used := py_or judge_model_used (bs_judge_model state) in
  let threads := bs_thread_states state in
  let n k := status_count (fun s => bool_decide (s = k)) threads in
  let build verdict posted pass fail pending summary :=
    {| rv_correlation_id := bs_correlation_id state; rv_pr_number := bs_pr_number state;
       rv_repo := bs_repo state; rv_verdict := verdict;
       rv_total_findings := Z.of_nat (length (bs_findings state));
       rv_threads_posted := posted; rv_threads_verified_pass := pass;
       rv_threads_verified_fail := fail; rv_threads_pending := pending;
       rv_judge_model_used := judge_used; rv_summary := summary |} in
  if decide (bs_current_phase state = Phase.FAILED) then
    build BLOCKING_ISSUE 0%Z 0%Z 0%Z 0%Z
      ("FSM terminated in FAILED: " +:+ py_opt_or (bs_error_message state) "unknown error")
  else
    build (if (n Thread.VERIFIED_FAIL >? 0)%Z then BLOCKING_ISSUE
           else if truthy (bs_findings state) then RISKS_NOTED else CLEAN)
      (status_count (fun s => negb (bool_decide (s = Thread.PENDING))) threads)
      (n Thread.VERIFIED_PASS) (n Thread.VERIFIED_FAIL) (n Thread.PENDING) EmptyString.

(** ** The phase machine is a [RetryFsm] *)

Definition phases_left (p : EnumFsmPhase) : nat :=
  match p with
  | Phase.INIT => 7
  | Phase.FETCH_DIFF => 6
  | Phase.REVIEW => 5
  | Phase.POST_THREADS => 4
  | Phase.WATCH => 3
  | Phase.JUDGE_VERIFY => 2
  | Phase.REPORT => 1
  | Phase.DONE | Phase.FAILED => 0
  end.

Definition bot_terminal (s : ModelPrReviewBotState) : bool :=
  bool_decide (bs_current_phase s ∈ TERMINAL_PHASES).
Definition bot_wf (s : ModelPrReviewBotState) : Prop :=
  bot_terminal s = false -> bs_consecutive_failures s < bs_max_consecutive_failures s.

Lemma next_phase_spec p :
  p ∉ TERMINAL_PHASES ->
  exists p', next_phase p = Ok p' /\ phases_left p = 1 + phases_left p' /\ p' <> Phase.FAILED.
Proof.
  unfold TERMINAL_PHASES. intros Hp. destruct p; try (exfalso; apply Hp; set_solver).
  all: eexists; split_and!; [reflexivity|reflexivity|discriminate].
Qed.

(** What one step does, by the two ways it can go. *)
Lemma advance_ok s o :
  bot_terminal s = false ->
  exists s' e, advance s o = Ok (s', e)
    /\ bs_max_consecutive_failures s' = bs_max_consecutive_failures s
    /\ bs_correlation_id s' = bs_correlation_id s
    /\ if po_phase_success o then
         bs_consecutive_failures s' = 0 /\ bs_error_message s' = None
         /\ next_phase (bs_current_phase s) = Ok (bs_current_phase s')
         /\ bs_findings s' = default (bs_findings s) (po_findings o)
         /\ bs_thread_states s' = default (bs_thread_states s) (po_thread_states o)
       else
         bs_consecutive_failures s' = S (bs_consecutive_failures s)
         /\ bs_findings s' = bs_findings s /\ bs_thread_states s' = bs_thread_states s
         /\ if bs_max_consecutive_failures s <=? S (bs_consecutive_failures s)
            then bs_current_phase s' = Phase.FAILED
                 /\ bs_error_message s' =
                    Some (breaker_message (po_error_message o) (S (bs_consecutive_failures s)))
            else bs_current_phase s' = bs_current_phase s.
Proof.
  intros Ht. unfold bot_terminal in Ht. apply bool_decide_eq_false in Ht.
  unfold advance. rewrite decide_False by done. rewrite Nat.add_1_r.
  destruct (po_phase_success o); simpl.
  - destruct (next_phase_spec _ Ht) as (p' & Hn & _). rewrite Hn. simpl.
    do 2 eexists. split; [reflexivity|]. by split_and!.
  - destruct (bs_max_consecutive_failures s <=? S (bs_consecutive_failures s)) eqn:E; simpl;
      do 2 eexists; split_and!; try reflexivity; rewrite E; try split; reflexivity.
Qed.

#[export] Program Instance pr_review_fsm : RetryFsm ModelPrReviewBotState phase_outcome := {
  rf_advance s o := fst <$> advance s o;
  rf_success := po_phase_success;
  rf_terminal := bot_terminal;
  rf_failures := bs_consecutive_failures;
  rf_max := bs_max_consecutive_failures;
  rf_rank s := phases_left (bs_current_phase s);
  rf_wf := bot_wf
}.
Next Obligation.
  intros s o Ht. apply bool_decide_eq_true in Ht. unfold advance. rewrite decide_True by done. eauto.
Qed.
Next Obligation.
  intros s o _ Ht. destruct (advance_ok s o Ht) as (s' & e & -> & _). by exists s'.
Qed.
Next Obligation.
  intros s o s' Hwf Ha. cbv beta in Ha. destruct (bot_terminal s) eqn:Ht.
  { apply bool_decide_eq_true in Ht. unfold advance in Ha. by rewrite decide_True in Ha. }
  destruct (advance_ok s o Ht) as (s1 & e & Heq & Hm & _ & Hcase). rewrite Heq in Ha.
  injection Ha as <-. split; [|done]. intros Ht'. rewrite Hm.
  specialize (Hwf Ht). destruct (po_phase_success o); [lia|]. destruct Hcase as (Hf & _ & _ & Hcase).
  rewrite Hf. destruct (_ <=? _) eqn:E; [|by apply Nat.leb_gt in E].
  destruct Hcase as [Hp _]. unfold bot_terminal in Ht'. by rewrite Hp in Ht'.
Qed.
Next Obligation.
  intros s o s' Hwf Hs Ha. cbv beta in Hs, Ha. destruct (bot_terminal s) eqn:Ht.
  { apply bool_decide_eq_true in Ht. unfold advance in Ha. by rewrite decide_True in Ha. }
  destruct (advance_ok s o Ht) as (s1 & e & Heq & _ & _ & Hcase). rewrite Heq in Ha.
  injection Ha as <-. rewrite Hs in Hcase. destruct Hcase as (Hf & _ & Hn & _).
  apply bool_decide_eq_false in Ht. destruct (next_phase_spec _ Ht) as (p' & Hn' & Hl & Hp').
  rewrite Hn' in Hn. injection Hn as ->. split_and!; [done|done|]. unfold bot_terminal.
  rewrite bool_decide_eq_true. revert Hp'. by destruct (bs_current_phase s1); set_solver.
Qed.
Next Obligation.
  intros s o s' Hwf Hs Ha. cbv beta in Hs, Ha. destruct (bot_terminal s) eqn:Ht.
  { apply bool_decide_eq_true in Ht. unfold advance in Ha. by rewrite decide_True in Ha. }
  destruct (advance_ok s o Ht) as (s1 & e & Heq & _ & _ & Hcase). rewrite Heq in Ha.
  injection Ha as <-. rewrite Hs in Hcase. destruct Hcase as (Hf & _ & _ & Hcase).
  split; [done|]. destruct (_ <=? _) eqn:E.
  - destruct Hcase as [Hp _]. apply Nat.leb_le in E. unfold bot_terminal. rewrite Hp. split; [|done].
    split; [by intros _|done].
  - apply Nat.leb_gt in E. split; [|by rewrite Hcase]. unfold bot_terminal in *. rewrite Hcase, Ht.
    split; [done|lia].
Qed.
Next Obligation.
  intros s Hwf Ht. split; [by apply Hwf|]. unfold bot_terminal in Ht. apply bool_decide_eq_false in Ht.
  destruct (next_phase_spec _ Ht) as (p' & _ & Hl & _). lia.
Qed.

(** ** The judge's answer *)

(** [parse_judge_response]: [json_loads] answers with the value or the decode
    error's text.  The result model refuses an empty reasoning. *)
Definition FENCE : string := "```".
Definition strip_fences (raw : string) : string :=
  let cleaned := py_strip raw in
  if py_startswith FENCE cleaned then
    let lines := py_splitlines cleaned in
    py_join (String "010" EmptyString)
      (match last lines with
       | Some l => if py_startswith FENCE l then take (length lines - 2) (drop 1 lines) else drop 1 lines
       | None => drop 1 lines
       end)
  else cleaned.

Definition mk_judge_result (passed : bool) (reasoning : string) : result (bool * string) :=
  if truthy reasoning then Ok (passed, reasoning)
  else Raise (ValueError "reasoning: String should have at least 1 character").

Definition malformed (exc : string) : result (bool * string) :=
  mk_judge_result false
    ("Judge model returned malformed JSON (parse error: " +:+ exc +:+ "). Treating as FAIL.").

Definition parse_judge_response (json_loads : string -> string + json) (raw : string) : result (bool * string) :=
  match json_loads (strip_fences raw) with
  | inl exc => malformed exc
  | inr (JObj data) =>
      let get k d := match dict_get k data with Some v => json_str v | None => d end in
      let verdict := py_upper (get "verdict" EmptyString) in
      let reasoning := get "reasoning" "No reasoning provided." in
      if negb (str_in verdict ["PASS"; "FAIL"]) then
        mk_judge_result false ("Judge returned unknown verdict " +:+ py_repr verdict +:+ ". Treating as FAIL.")
      else mk_judge_result (String.eqb verdict "PASS") reasoning
  | inr other => malformed (py_repr_str (json_type other) +:+ " object has no attribute 'get'")
  end.

(** ** The GitHub review effect *)

Record ReviewThread := {
  gt_id : Z;
  gt_body : string;
  gt_user_login : string;
  gt_in_reply_to_id : option Z;
  gt_resolved : bool
}.

Definition _BOT_LOGIN : string := "onexbot[bot]".
Definition finding_marker (finding_id : string) : string := "<!-- onexbot:finding:" +:+ finding_id +:+ " -->".
Definition _VERIFY_TRIGGER : string := "@onexbot-judge verify".
Definition _MAX_VERIFY_ATTEMPTS : Z := 3.
Definition _THREAD_SEVERITIES : list EnumFindingSeverity := [MAJOR; CRITICAL].

Definition nl : string := String "010" EmptyString.

(** The pin sign before "File" is written as its UTF-8 bytes. *)
Definition pin : string :=
  String "240" (String "159" (String "147" (String "141" EmptyString))).
Definition _build_thread_body (finding : ReviewFinding) : string :=
  let ev := fi_evidence finding in
  let suggestion_block := match fi_suggestion finding with
    | Some s => if truthy s then nl +:+ nl +:+ "**Suggested fix**: " +:+ s else EmptyString
    | None => EmptyString
    end in
  let file_ref := match evi_file_path ev with
    | Some path =>
        if truthy path then
          let line o d := match o with Some n => if truthy n then pretty n else d | None => d end in
          let start := line (evi_line_start ev) "?" in
          let end_ := line (evi_line_end ev) start in
          nl +:+ nl +:+ pin +:+ " File: `" +:+ path +:+ "`, lines " +:+ start +:+ "-" +:+ end_
        else EmptyString
    | None => EmptyString
    end in
  finding_marker (fi_id finding) +:+ nl +:+ "**[PR-BOT] Finding: " +:+ fi_title finding +:+ "**"
  +:+ " (severity: " +:+ severity_value (fi_severity finding) +:+ ", confidence: " +:+ fi_confidence finding
  +:+ ")" +:+ nl +:+ nl +:+ fi_description finding +:+ file_ref +:+ suggestion_block +:+ nl +:+ nl
  +:+ "**Resolution required before merge.** This thread will be verified by the "
  +:+ "judge model before it can be dismissed. Post a reply explaining the fix and "
  +:+ "tag `@onexbot-judge verify`.".

(** The calls of a review run. *)
Inductive review_effect : Type :=
  | TokenResolved
  | MetadataFetched
  | ThreadsFetched
  | ThreadPosted (finding_id head_sha path : string) (line : Z)
  | CommentPosted (finding_id : string)
  | SummaryPosted (finding_ids : list string)
  | ReportPosted (verdict : ReviewVerdict)
  | DiffFetched
  | AdapterResolved
  | PromptBuilt
  | Inferred (model_key : string)
  | ResponseParsed (model_key raw : string)
  | Aggregated (findings : list ReviewFinding)
  | JudgeInferred (finding_id : string).
Abbreviation rlog := (list review_effect).

Record ReviewWorld := {
  rw_bridge_injected : bool;
  rw_token : rlog -> result string;
  rw_head_sha : rlog -> result string;
  rw_threads : rlog -> result (list ReviewThread);
  rw_post_thread : rlog -> ReviewFinding -> result Z;
  rw_post_comment : rlog -> string -> result Z;
  rw_post_summary : rlog -> list ReviewFinding -> result Z;
  rw_post_report : rlog -> ReviewVerdict -> result Z;
  rw_diff : rlog -> result string;
  rw_adapter : rlog -> result unit;
  rw_prompt : rlog -> string -> result unit;
  rw_infer : rlog -> string -> result string;
  rw_parse : rlog -> string -> string -> result (list ReviewFinding);
  rw_aggregate : rlog -> list ReviewFinding -> result unit;
  rw_judge : rlog -> string -> result string;
  rw_json_loads : string -> string + json
}.

Section review.
Context (w : ReviewWorld) (command : ReviewRequest).
Abbreviation Act := (M unit review_effect).

(** The EFFECT's command model requires a repository name. *)
Definition github_command : Act unit :=
  when (negb (truthy (rq_repo command)))
    (raise (ValueError "repo: String should have at least 1 character")).

Definition _resolve_bridge : Act unit :=
  if rw_bridge_injected w then mret ()
  else if rq_dry_run command then mret ()
  else
    token ← call TokenResolved (rw_token w);
    when (negb (truthy (py_strip token)))
      (raise (ValueError "AdapterGithubReviewBridge requires a non-empty token")).

Definition new_thread (finding : ReviewFinding) (id : option Z) (status : EnumThreadStatus) : ThreadState :=
  {| th_finding_id := fi_id finding; th_github_thread_id := id; th_status := status;
     th_verify_attempts := 0; th_judge_reasoning := None |}.

(** A posted thread, or a pending one when the post raised. *)
Definition posted (finding : ReviewFinding) (r : result Z) : ThreadState :=
  match r with
  | Ok id => new_thread finding (Some id) Thread.POSTED
  | Raise _ => new_thread finding None Thread.PENDING
  end.

Definition find_existing (finding : ReviewFinding) (cached_threads : list ReviewThread) : option ReviewThread :=
  find (fun t => String.eqb (gt_user_login t) _BOT_LOGIN && py_contains (finding_marker (fi_id finding)) (gt_body t))
    cached_threads.

Definition _post_finding_thread (finding : ReviewFinding) (head_sha : string) (cached_threads : list ReviewThread)
  : Act ThreadState :=
  match find_existing finding cached_threads with
  | Some existing => mret (new_thread finding (Some (gt_id existing)) Thread.POSTED)
  | None =>
      let file_path := py_opt_or (evi_file_path (fi_evidence finding)) EmptyString in
      match evi_line_start (fi_evidence finding) with
      | Some line =>
          if truthy file_path && truthy head_sha then
            r ← attempt (call (ThreadPosted (fi_id finding) head_sha file_path line)
                  (fun l => rw_post_thread w l finding));
            mret (posted finding r)
          else
            r ← attempt (call (CommentPosted (fi_id finding))
                  (fun l => rw_post_comment w l (_build_thread_body finding)));
            mret (posted finding r)
      | None =>
          r ← attempt (call (CommentPosted (fi_id finding))
                (fun l => rw_post_comment w l (_build_thread_body finding)));
          mret (posted finding r)
      end
  end.

Definition is_thread_finding (f : ReviewFinding) : bool := bool_decide (fi_severity f ∈ _THREAD_SEVERITIES).

(** [except Exception: default] *)
Definition or_default {A} (d : A) (m : Act A) : Act A :=
  r ← attempt m; mret (match r with Ok a => a | Raise _ => d end).

Definition effect_post_threads (findings : list ReviewFinding) : Act (list ThreadState) :=
  let thread_findings := take (rq_max_findings_per_pr command) (filter (fun f => is_thread_finding f = true) findings) in
  let minor_findings := filter (fun f => is_thread_finding f = false) findings in
  if rq_dry_run command then mret (map (fun f => new_thread f None Thread.PENDING) thread_findings)
  else
    head_sha ← (if truthy thread_findings
                then or_default EmptyString (call MetadataFetched (rw_head_sha w)) else mret EmptyString);
    existing ← (if truthy thread_findings then or_default [] (call ThreadsFetched (rw_threads w)) else mret []);
    states ← fold_each thread_findings [] (fun acc f =>
               t ← _post_finding_thread f head_sha existing; mret (acc ++ [t]));
    _ ← when (truthy minor_findings)
          (_ ← attempt (call (SummaryPosted (map fi_id minor_findings)) (fun l => rw_post_summary w l minor_findings));
           mret ());
    mret states.

Definition set_status (k : EnumThreadStatus) (reasoning : option string) (attempts : Z) (t : ThreadState) : ThreadState :=
  {| th_finding_id := th_finding_id t; th_github_thread_id := th_github_thread_id t; th_status := k;
     th_verify_attempts := attempts; th_judge_reasoning := reasoning |}.

Definition _evaluate_thread (state : ThreadState) (id : Z) (root_thread : ReviewThread)
    (all_threads : list ReviewThread) : ThreadState :=
  let thread_comments :=
    filter (fun t => gt_id t = id \/ gt_in_reply_to_id t = Some id) all_threads in
  let verify_requests :=
    filter (fun c => py_contains _VERIFY_TRIGGER (gt_body c) = true /\ gt_user_login c <> _BOT_LOGIN)
      thread_comments in
  if negb (gt_resolved root_thread) && negb (truthy verify_requests) then state
  else if (_MAX_VERIFY_ATTEMPTS <=? th_verify_attempts state)%Z then
    set_status Thread.ESCALATED (th_judge_reasoning state) (th_verify_attempts state) state
  else
    let reply_bodies := map gt_body (filter (fun c => gt_user_login c <> _BOT_LOGIN) thread_comments) in
    set_status Thread.RESOLVED
      (if truthy reply_bodies then Some (py_join (nl +:+ "---" +:+ nl) reply_bodies) else None)
      (th_verify_attempts state) state.

(** A posted thread with its comment's id. *)
Definition watched_id (t : ThreadState) : option Z :=
  if decide (th_status t = Thread.POSTED) then th_github_thread_id t else None.

Definition effect_watch_threads (thread_states : list ThreadState) : Act (list ThreadState) :=
  let watchable := filter (fun t => watched_id t <> None) thread_states in
  if negb (truthy watchable) || rq_dry_run command then mret thread_states
  else
    all_threads ← call ThreadsFetched (rw_threads w);
    let thread_map : gmap Z ReviewThread := foldl (fun m t => <[gt_id t := t]> m) ∅ all_threads in
    mret (map (fun state =>
      match watched_id state with
      | None => state
      | Some id => match thread_map !! id with
                   | None => state
                   | Some root => _evaluate_thread state id root all_threads
                   end
      end) thread_states).

Definition effect_post_report (verdict : ReviewVerdict) : Act unit :=
  if rq_dry_run command then mret ()
  else _ ← call (ReportPosted verdict) (fun l => rw_post_report w l verdict); mret ().

(** ** The orchestrator *)

Definition MAX_VERIFY_ATTEMPTS : Z := 3.

(** One reviewer model; a failed inference is skipped, a failed parse raises. *)
Definition review_with (findings : list ReviewFinding) (model_key : string) : Act (list ReviewFinding) :=
  raw ← attempt (call (Inferred model_key) (fun l => rw_infer w l model_key));
  match raw with
  | Raise _ => mret findings
  | Ok text =>
      parsed ← call (ResponseParsed model_key text) (fun l => rw_parse w l model_key text);
      mret (findings ++ parsed)
  end.

Definition _fan_out_review (diff_content : string) : Act (list ReviewFinding) :=
  _ ← call AdapterResolved (rw_adapter w);
  _ ← call PromptBuilt (fun l => rw_prompt w l diff_content);
  fold_each (rq_reviewer_models command) [] review_with.

Definition _aggregate (findings : list ReviewFinding) : Act unit :=
  if truthy findings then call (Aggregated findings) (fun l => rw_aggregate w l findings) else mret ().

Definition _post_threads (findings : list ReviewFinding) : Act (list ThreadState) :=
  _ ← github_command; _ ← _resolve_bridge; effect_post_threads findings.
Definition _watch_threads (thread_states : list ThreadState) : Act (list ThreadState) :=
  if negb (truthy thread_states) then mret thread_states
  else _ ← github_command; _ ← _resolve_bridge; effect_watch_threads thread_states.
Definition _post_report (verdict : ReviewVerdict) : Act unit :=
  _ ← github_command; _ ← _resolve_bridge; effect_post_report verdict.

Definition _call_judge (finding : ReviewFinding) : Act (bool * string) :=
  _ ← call AdapterResolved (rw_adapter w);
  raw ← attempt (call (JudgeInferred (fi_id finding)) (fun l => rw_judge w l (fi_id finding)));
  match raw with
  | Raise exc => mret (false, "Judge model call failed: " +:+ exn_str exc +:+ ". Treating as FAIL.")
  | Ok text => lift (parse_judge_response (rw_json_loads w) text)
  end.

Definition judge_thread (findings_by_id : gmap string ReviewFinding) (thread : ThreadState) : Act ThreadState :=
  if negb (bool_decide (th_status thread = Thread.RESOLVED)) then mret thread
  else if (MAX_VERIFY_ATTEMPTS <=? th_verify_attempts thread)%Z then
    mret (set_status Thread.ESCALATED
            (Some ("Escalated after " +:+ pretty MAX_VERIFY_ATTEMPTS +:+ " verification attempts. "
                   +:+ "Human review required.")) (th_verify_attempts thread) thread)
  else
    match findings_by_id !! th_finding_id thread with
    | None => mret thread
    | Some finding =>
        v ← _call_judge finding;
        let '(passed, reasoning) := v : bool * string in
        mret (set_status (if passed then Thread.VERIFIED_PASS else Thread.VERIFIED_FAIL) (Some reasoning)
                (th_verify_attempts thread + 1) thread)
    end.

Definition _judge_verify (findings : list ReviewFinding) (thread_states : list ThreadState)
  : Act (list ThreadState) :=
  if negb (existsb (fun t => bool_decide (th_status t = Thread.RESOLVED)) thread_states) then mret thread_states
  else
    let findings_by_id : gmap string ReviewFinding := foldl (fun m f => <[fi_id f := f]> m) ∅ findings in
    fold_each thread_states [] (fun acc t => t' ← judge_thread findings_by_id t; mret (acc ++ [t'])).

Definition success (findings : option (list ReviewFinding)) (threads : option (list ThreadState)) : phase_outcome :=
  {| po_phase_success := true; po_error_message := None; po_diff_hunks := None;
     po_findings := findings; po_thread_states := threads |}.
(** [state, _ = advance(state, ...)] *)
Definition step (state : ModelPrReviewBotState) (o : phase_outcome) : Act ModelPrReviewBotState :=
  lift (fst <$> advance state o).

Definition _run_pipeline (state : ModelPrReviewBotState) : Act ModelPrReviewBotState :=
  state ← step state (success None None);
  diff_content ← call DiffFetched (rw_diff w);
  state ← step state (success None None);
  findings ← _fan_out_review diff_content;
  _ ← _aggregate findings;
  state ← step state (success (Some findings) None);
  thread_states ← _post_threads findings;
  state ← step state (success None (Some thread_states));
  thread_states ← _watch_threads thread_states;
  state ← step state (success None (Some thread_states));
  thread_states ← _judge_verify findings thread_states;
  state ← step state (success None (Some thread_states));
  _ ← _post_report (make_verdict state (rq_judge_model command));
  step state (success None None).

Definition failure (error_message : string) : phase_outcome :=
  {| po_phase_success := false; po_error_message := Some error_message; po_diff_hunks := None;
     po_findings := None; po_thread_states := None |}.

(** The [while] loop of [_force_failed], with the number of turns left. *)
Fixpoint fail_loop (fuel : nat) (state : ModelPrReviewBotState) (error_message : string)
  : result ModelPrReviewBotState :=
  if decide (bs_current_phase state = Phase.FAILED) then Ok state
  else match fuel with
       | 0 => Raise (RuntimeError "out of fuel")
       | S fuel' => s ← (fst <$> advance state (failure error_message)); fail_loop fuel' s error_message
       end.
Definition _force_failed (state : ModelPrReviewBotState) (error_message : string)
  : result ModelPrReviewBotState :=
  if decide (bs_current_phase state ∈ TERMINAL_PHASES) then Ok state
  else fail_loop (bs_max_consecutive_failures state) state error_message.

(** [handle]: an exception leaves [state] at the start state, for the pipeline
    only returns the state it reached when it completes. *)
Definition review_handle : Act (EnumFsmPhase * ReviewVerdict) :=
  let start := start_state command in
  r ← attempt (_run_pipeline start);
  state ← lift (match r with
                | Ok state => Ok state
                | Raise exc => _force_failed start (exn_str exc)
                end);
  mret (bs_current_phase state, make_verdict state (rq_judge_model command)).
End review.
