(* ===== verification/PrReviewProps.v ===== *)
(** * What a pull-request review promises

    Properties of [PrReview]: the phase machine stops, the orchestrator always
    answers and fails closed, a thread is verified only on the judge's explicit
    PASS, a dry run writes nothing, threads are capped and not posted twice. *)
From S2P Require Import Prelude Fsm LogMonad PrReview.

(** ** The phase machine *)

Lemma start_wf rq : bot_wf (start_state rq).
Proof. intros _. simpl. unfold MAX_CONSECUTIVE_FAILURES. lia. Qed.
Lemma start_not_terminal rq : bot_terminal (start_state rq) = false.
Proof. reflexivity. Qed.

Lemma fail_loop_spec n s msg :
  bot_terminal s = false -> bs_consecutive_failures s + n = bs_max_consecutive_failures s -> 0 < n ->
  exists s', fail_loop n s msg = Ok s' /\ bs_current_phase s' = Phase.FAILED
    /\ bs_correlation_id s' = bs_correlation_id s
    /\ bs_findings s' = bs_findings s /\ bs_thread_states s' = bs_thread_states s
    /\ bs_error_message s' = Some (breaker_message (Some msg) (bs_max_consecutive_failures s)).
Proof.
  revert s. induction n as [|n IH]; intros s Ht Hn Hpos; [lia|]. cbn [fail_loop].
  rewrite decide_False.
  2:{ intros Hf. unfold bot_terminal in Ht. by rewrite Hf in Ht. }
  destruct (advance_ok s (failure msg) Ht) as (s1 & e & -> & Hm & Hc & Hf & Hfi & Hth & Hcase). simpl.
  destruct (_ <=? _) eqn:E.
  - destruct Hcase as [Hp He]. apply Nat.leb_le in E. exists s1. assert (n = 0) as -> by lia.
    cbn [fail_loop]. rewrite decide_True by done. split_and!; try done.
    rewrite He. by replace (S (bs_consecutive_failures s)) with (bs_max_consecutive_failures s) by lia.
  - apply Nat.leb_gt in E. destruct (IH s1) as (s' & Hs' & Hp & Hc' & Hfi' & Hth' & He); [|lia|lia|].
    + unfold bot_terminal in *. by rewrite Hcase.
    + exists s'. rewrite <- Hm. split_and!; try congruence. exact He.
Qed.

Lemma failures_run os s :
  bot_terminal s = false -> Forall (fun o => po_phase_success o = false) os ->
  bs_consecutive_failures s < bs_max_consecutive_failures s ->
  bs_consecutive_failures s + length os <= bs_max_consecutive_failures s ->
  exists s', drive s os = Ok s'
    /\ bs_current_phase s' = if bs_consecutive_failures s + length os <? bs_max_consecutive_failures s
                             then bs_current_phase s else Phase.FAILED.
Proof.
  revert s. induction os as [|o os IH]; intros s Ht Hall Hlt Hle.
  - exists s. split; [done|]. rewrite (proj2 (Nat.ltb_lt _ _)); [done|]. simpl. lia.
  - apply Forall_cons_1 in Hall as [Ho Hall]. cbn [drive]. change (rf_terminal s) with (bot_terminal s).
    rewrite Ht. change (rf_advance s o) with (fst <$> advance s o).
    destruct (advance_ok s o Ht) as (s1 & e & -> & Hm & _ & Hcase). rewrite Ho in Hcase.
    destruct Hcase as (Hf & _ & _ & Hcase). simpl. simpl in Hle.
    destruct (_ <=? _) eqn:E.
    + apply Nat.leb_le in E. assert (length os = 0) as Hl by lia. apply nil_length_inv in Hl as ->.
      exists s1. split; [done|]. destruct Hcase as [-> _]. rewrite (proj2 (Nat.ltb_ge _ _)); [done|]. simpl. lia.
    + apply Nat.leb_gt in E. destruct (IH s1) as (s' & Hs' & Hp); [|done|lia|lia|].
      * unfold bot_terminal in *. by rewrite Hcase.
      * exists s'. split; [done|]. rewrite Hp, Hm, Hf, Hcase.
        by replace (S (bs_consecutive_failures s) + length os) with (bs_consecutive_failures s + S (length os)) by lia.
Qed.

(** The review machine stops: from the start, whatever the outcomes of the
    phases, at most 21 of them (three tries for each of the seven phases) lead
    to DONE or FAILED; and the breaker trips at exactly the maximum of
    consecutive failures: fewer leave the machine in its phase. *)
Theorem review_fsm_stops rq os :
  (21 <= length os -> exists s, drive (start_state rq) os = Ok s /\ bs_current_phase s ∈ TERMINAL_PHASES)
  /\ (forall s, bs_current_phase s ∉ TERMINAL_PHASES -> bs_consecutive_failures s = 0 ->
        length os <= bs_max_consecutive_failures s -> 0 < bs_max_consecutive_failures s ->
        Forall (fun o => po_phase_success o = false) os ->
        exists s', drive s os = Ok s'
          /\ (length os < bs_max_consecutive_failures s -> bs_current_phase s' = bs_current_phase s)
          /\ (length os = bs_max_consecutive_failures s -> bs_current_phase s' = Phase.FAILED)).
Proof.
  split.
  - intros Hl. destruct (drive_terminates (F := pr_review_fsm) os (start_state rq) (start_wf rq)) as (s & Hs & Ht & _); [exact Hl|].
    exists s. split; [done|]. by apply bool_decide_eq_true in Ht.
  - intros s Ht H0 Hle Hpos Hall.
    destruct (failures_run os s) as (s' & Hs' & Hp); [by apply bool_decide_eq_false|done|lia|lia|].
    exists s'. split; [done|]. rewrite Hp, H0. split; intros Hn.
    + by rewrite (proj2 (Nat.ltb_lt _ _)).
    + by rewrite (proj2 (Nat.ltb_ge _ _)) by lia.
Qed.

(** ** The pipeline *)

Section pipeline.
Context (w : ReviewWorld) (command : ReviewRequest).
Abbreviation Act := (M unit review_effect).
Abbreviation any := (fun _ : review_effect => True).

(** Nothing is verified before the judge. *)
Definition unjudged (t : ThreadState) : Prop := th_status t <> Thread.VERIFIED_PASS /\ th_status t <> Thread.VERIFIED_FAIL.

Definition at_phase (p : EnumFsmPhase) (st : ModelPrReviewBotState) : Prop := bs_current_phase st = p.

Lemma step_returns P st o p p' (Q : ModelPrReviewBotState -> Prop) :
  at_phase p st -> next_phase p = Ok p' -> po_phase_success o = true ->
  (forall st', at_phase p' st' ->
     bs_findings st' = default (bs_findings st) (po_findings o) ->
     bs_thread_states st' = default (bs_thread_states st) (po_thread_states o) -> Q st') ->
  returns (S := unit) P (step st o) Q.
Proof.
  intros Hp Hn Ho HQ. apply returns_lift. intros st'.
  assert (bot_terminal st = false) as Ht.
  { unfold bot_terminal. apply bool_decide_eq_false. unfold at_phase in Hp. rewrite Hp.
    destruct p; try discriminate Hn; set_solver. }
  destruct (advance_ok st o Ht) as (s1 & e & Heq & _ & _ & Hcase). rewrite Heq, Ho in *.
  destruct Hcase as (_ & _ & Hn' & Hf & Hth). intros [= <-]. apply HQ; [|done|done].
  unfold at_phase in *. rewrite Hp, Hn in Hn'. by injection Hn'.
Qed.

Lemma any_returns {T} (m : Act T) : emits any m -> returns any m (fun _ => True).
Proof. apply emits_returns. Qed.
Hint Resolve any_returns : onex.

(** The judge said PASS, in so many words, for this finding. *)
Definition explicit_pass (text : string) : Prop :=
  exists data v, rw_json_loads w (strip_fences text) = inr (JObj data)
    /\ dict_get "verdict" data = Some v /\ py_upper (json_str v) = "PASS".
Definition judged_pass (t : ThreadState) : Prop :=
  th_status t = Thread.VERIFIED_PASS ->
  exists l text, rw_judge w l (th_finding_id t) = Ok text /\ explicit_pass text.

Lemma parse_judge_passes raw r :
  parse_judge_response (rw_json_loads w) raw = Ok (true, r) -> explicit_pass raw.
Proof.
  unfold parse_judge_response, malformed, mk_judge_result, explicit_pass.
  destruct (rw_json_loads w (strip_fences raw)) as [exc|[| | | | | |data]].
  2-7: by destruct (truthy _).
  1: by destruct (truthy _).
  destruct (negb (str_in _ _)); [by destruct (truthy _)|].
  destruct (truthy _); [|done]. intros [= Hv _]. apply String.eqb_eq in Hv.
  destruct (dict_get "verdict" data) as [v|] eqn:Hd; [|done]. by exists data, v.
Qed.

Lemma findings_by_id_Some (fs : list ReviewFinding) k f :
  foldl (fun (m : gmap string ReviewFinding) f => <[fi_id f := f]> m) ∅ fs !! k = Some f -> fi_id f = k /\ f ∈ fs.
Proof.
  induction fs as [|x fs IH] using rev_ind; simpl; [done|].
  rewrite foldl_app. simpl. rewrite lookup_insert_Some, elem_of_app, list_elem_of_singleton. naive_solver.
Qed.

Lemma new_unjudged f id k : k = Thread.PENDING \/ k = Thread.POSTED -> unjudged (new_thread f id k).
Proof. by intros [-> | ->]. Qed.
Lemma posted_unjudged f r : unjudged (posted f r).
Proof. destruct r; apply new_unjudged; auto. Qed.

Lemma post_finding_unjudged f sha cached : returns any (_post_finding_thread w f sha cached) unjudged.
Proof.
  unfold _post_finding_thread. destruct (find_existing _ _); [apply returns_ret, new_unjudged; auto|].
  destruct (evi_line_start _); [destruct (_ && _)|].
  all: eapply returns_bind; [apply any_returns; emits_auto|]; intros r _; apply returns_ret, posted_unjudged.
Qed.

Lemma effect_post_unjudged fs : returns any (effect_post_threads w command fs) (Forall unjudged).
Proof.
  unfold effect_post_threads. destruct (rq_dry_run command).
  { apply returns_ret. apply Forall_fmap, Forall_forall. intros f _. apply new_unjudged. auto. }
  eapply returns_bind; [apply any_returns; unfold or_default; emits_auto|]. intros sha _.
  eapply returns_bind; [apply any_returns; unfold or_default; emits_auto|]. intros cached _.
  eapply returns_bind.
  - apply (returns_fold _ _ _ _ (Forall unjudged)); [constructor|]. intros acc f _ Hacc.
    eapply returns_bind; [apply post_finding_unjudged|]. intros t Ht. apply returns_ret.
    apply Forall_app; split; [done|]. by apply Forall_singleton.
  - intros states Hs. eapply returns_bind; [apply any_returns; emits_auto|]. intros _ _. by apply returns_ret.
Qed.
Lemma post_threads_unjudged fs : returns any (_post_threads w command fs) (Forall unjudged).
Proof.
  unfold _post_threads, github_command, _resolve_bridge.
  eapply returns_bind; [apply any_returns; emits_auto|]. intros _ _.
  eapply returns_bind; [apply any_returns; emits_auto|]. intros _ _. apply effect_post_unjudged.
Qed.

Lemma evaluate_unjudged t id root all : unjudged t -> unjudged (_evaluate_thread t id root all).
Proof. unfold _evaluate_thread. intros Ht. repeat case_match; done. Qed.

Lemma watch_unjudged ts : Forall unjudged ts -> returns any (_watch_threads w command ts) (Forall unjudged).
Proof.
  intros Hts. unfold _watch_threads, github_command, _resolve_bridge, effect_watch_threads.
  destruct (negb (truthy ts)); [by apply returns_ret|].
  eapply returns_bind; [apply any_returns; emits_auto|]. intros _ _.
  eapply returns_bind; [apply any_returns; emits_auto|]. intros _ _.
  destruct (_ || _); [by apply returns_ret|].
  eapply returns_bind; [apply any_returns; emits_auto|]. intros threads _. apply returns_ret.
  apply Forall_fmap. eapply Forall_impl; [exact Hts|]. intros t Ht. simpl.
  destruct (watched_id t); [|done]. destruct (_ !! _); [|done]. by apply evaluate_unjudged.
Qed.

Lemma judge_thread_passes fs t :
  unjudged t ->
  returns any (judge_thread w (foldl (fun m f => <[fi_id f := f]> m) ∅ fs) t) judged_pass.
Proof.
  intros [Hp Hf]. unfold judge_thread, judged_pass.
  destruct (negb _); [apply returns_ret; by intros ?|].
  destruct (_ <=? _)%Z; [by apply returns_ret|].
  destruct (_ !! _) as [f|] eqn:Hf'; [|apply returns_ret; by intros ?].
  apply findings_by_id_Some in Hf' as [Hid _]. unfold _call_judge.
  eapply (returns_bind _ _ _ (fun v => v.1 = true ->
    exists l text, rw_judge w l (fi_id f) = Ok text /\ explicit_pass text)).
  - eapply returns_bind; [apply any_returns; emits_auto|]. intros _ _.
    eapply returns_bind.
    + apply returns_attempt, (returns_call _ _ _ (fun text => exists l, rw_judge w l (fi_id f) = Ok text)); [done|].
      intros l a Ha. by exists l.
    + intros [text|exc] Hr; [|by apply returns_ret].
      destruct (Hr text eq_refl) as [l Hl].
      apply returns_lift. intros [[] r] Ha Hv; [|done]. exists l, text. split; [done|].
      by eapply parse_judge_passes.
  - intros [[] r] Hv; apply returns_ret; [|done]. intros _. cbn. rewrite <- Hid. by apply Hv.
Qed.

Lemma judge_verify_passes fs ts :
  Forall unjudged ts -> returns any (_judge_verify w fs ts) (Forall judged_pass).
Proof.
  intros Hts. unfold _judge_verify. destruct (negb _).
  { apply returns_ret. eapply Forall_impl; [exact Hts|]. by intros t [Hp _] ?. }
  apply returns_fold; [constructor|]. intros acc t Ht Hacc.
  rewrite Forall_forall in Hts. eapply returns_bind; [apply judge_thread_passes, Hts, Ht|].
  intros t' Ht'. apply returns_ret. apply Forall_app; split; [done|]. by apply Forall_singleton.
Qed.

Lemma pipeline_returns :
  returns any (_run_pipeline w command (start_state command))
    (fun st => at_phase Phase.DONE st /\ Forall judged_pass (bs_thread_states st)).
Proof.
  unfold _run_pipeline.
  eapply returns_bind; [by eapply (step_returns _ _ _ Phase.INIT _ (at_phase Phase.FETCH_DIFF))|]. intros s1 H1.
  eapply returns_bind; [apply any_returns; emits_auto|]. intros diff _.
  eapply returns_bind; [by eapply (step_returns _ _ _ _ _ (at_phase Phase.REVIEW))|]. intros s2 H2.
  eapply returns_bind; [apply any_returns; unfold _fan_out_review, review_with; emits_auto|]. intros fs _.
  eapply returns_bind; [apply any_returns; unfold _aggregate; emits_auto|]. intros _ _.
  eapply returns_bind; [by eapply (step_returns _ _ _ _ _ (at_phase Phase.POST_THREADS))|]. intros s3 H3.
  eapply returns_bind; [apply post_threads_unjudged|]. intros ts Hts.
  eapply returns_bind; [by eapply (step_returns _ _ _ _ _ (at_phase Phase.WATCH))|]. intros s4 H4.
  eapply returns_bind; [by apply watch_unjudged|]. intros ts' Hts'.
  eapply returns_bind; [by eapply (step_returns _ _ _ _ _ (at_phase Phase.JUDGE_VERIFY))|]. intros s5 H5.
  eapply returns_bind; [by apply judge_verify_passes|]. intros ts'' Hts''.
  eapply (returns_bind _ _ _ (fun s => at_phase Phase.REPORT s /\ bs_thread_states s = ts'')).
  { eapply step_returns; [exact H5|reflexivity|done|]. by intros st' ? _ ?. }
  intros s6 [H6 Ht6].
  eapply returns_bind; [apply any_returns; unfold _post_report, github_command, _resolve_bridge, effect_post_report; emits_auto|].
  intros _ _. eapply step_returns; [exact H6|reflexivity|done|]. intros st' Hp _ Hth.
  split; [exact Hp|]. by rewrite Hth, Ht6.
Qed.

(** ** The answer *)

Lemma returns_run {T} P (m : Act T) (Q : T -> Prop) s a :
  returns P m Q -> (m s).2 = Ok a -> Q a.
Proof. intros Hm Ha. destruct (Hm s I) as (l & _ & _ & HQ). by rewrite Ha in HQ. Qed.

Lemma verdict_done st jm :
  at_phase Phase.DONE st ->
  let v := make_verdict st jm in
  (rv_verdict v = BLOCKING_ISSUE <-> Exists (fun t => th_status t = Thread.VERIFIED_FAIL) (bs_thread_states st))
  /\ (rv_verdict v = CLEAN <->
        bs_findings st = [] /\ Forall (fun t => th_status t <> Thread.VERIFIED_FAIL) (bs_thread_states st)).
Proof.
  intros Hp. unfold make_verdict, at_phase in *. rewrite Hp, decide_False by done. cbn [rv_verdict].
  unfold status_count. set (n := count _ _).
  assert (0 < n <-> Exists (fun t => th_status t = Thread.VERIFIED_FAIL) (bs_thread_states st)) as Hn.
  { subst n. induction (bs_thread_states st) as [|t ts IH]; [unfold count; simpl; split; [lia|by inversion 1]|].
    rewrite count_cons, Exists_cons, <- IH. case_bool_decide; simpl; intuition lia. }
  assert (Forall (fun t => th_status t <> Thread.VERIFIED_FAIL) (bs_thread_states st) <-> n = 0) as Hf.
  { transitivity (~ Exists (fun t => th_status t = Thread.VERIFIED_FAIL) (bs_thread_states st));
      [split; [apply Forall_not_Exists|apply not_Exists_Forall, _]|rewrite <- Hn; lia]. }
  rewrite Hf, <- Hn. destruct (Z.gtb_spec (Z.of_nat n) 0).
  - intuition (discriminate || lia).
  - destruct (bs_findings st); simpl; intuition (discriminate || lia).
Qed.

(** C37. The orchestrator always answers, and fails closed: when anything in the
    pipeline raises, the event says FAILED with a BLOCKING_ISSUE verdict that
    carries the exception's text; otherwise it says DONE, with BLOCKING_ISSUE
    exactly when a thread failed verification, and CLEAN exactly when there
    are no findings and no thread failed verification. *)
Theorem review_fails_closed s :
  exists p v, (review_handle w command s).2 = Ok (p, v)
    /\ match (_run_pipeline w command (start_state command) s).2 with
       | Raise x =>
           p = Phase.FAILED /\ rv_verdict v = BLOCKING_ISSUE
           /\ rv_summary v = "FSM terminated in FAILED: " +:+ breaker_message (Some (exn_str x)) 3
       | Ok st =>
           p = Phase.DONE
           /\ (rv_verdict v = BLOCKING_ISSUE <->
                Exists (fun t => th_status t = Thread.VERIFIED_FAIL) (bs_thread_states st))
           /\ (rv_verdict v = CLEAN <->
                bs_findings st = [] /\ Forall (fun t => th_status t <> Thread.VERIFIED_FAIL) (bs_thread_states st))
       end.
Proof.
  unfold review_handle, attempt, lift, mbind, M_bind, mret, M_ret.
  destruct (_run_pipeline w command (start_state command) s) as [s' [st|x]] eqn:Hr; cbn [fst snd].
  - assert (at_phase Phase.DONE st) as Hp.
    { eapply (returns_run _ _ _ s _ pipeline_returns). by rewrite Hr. }
    do 2 eexists. split; [reflexivity|]. split; [exact Hp|]. by apply verdict_done.
  - destruct (fail_loop_spec 3 (start_state command) (exn_str x)) as (st & Hst & Hp & _ & _ & _ & He);
      [done|done|lia|].
    unfold _force_failed. rewrite decide_False by set_solver.
    change (bs_max_consecutive_failures (start_state command)) with 3. rewrite Hst.
    do 2 eexists. split; [reflexivity|]. split; [exact Hp|]. unfold make_verdict.
    rewrite decide_True by done. cbn [rv_verdict rv_summary]. split; [done|].
    rewrite He. unfold py_opt_or, breaker_message, py_opt_or. simpl.
    destruct (truthy (exn_str x)) eqn:Ht; [by rewrite Ht|done].
Qed.

(** C36. A thread of a completed review is VERIFIED_PASS only if the judge model,
    asked about that thread's finding, answered a JSON object whose verdict is
    PASS: a failed call, malformed JSON or any other verdict never passes. *)
Theorem passes_are_judged s st :
  (_run_pipeline w command (start_state command) s).2 = Ok st ->
  Forall judged_pass (bs_thread_states st).
Proof. intros Hr. by eapply (returns_run _ _ _ s st pipeline_returns). Qed.

(** ** What it writes *)

Definition github_call (e : review_effect) : bool :=
  match e with
  | TokenResolved | MetadataFetched | ThreadsFetched | ThreadPosted _ _ _ _ | CommentPosted _
  | SummaryPosted _ | ReportPosted _ => true
  | _ => false
  end.
Definition is_thread_post (e : review_effect) : bool :=
  match e with ThreadPosted _ _ _ _ | CommentPosted _ => true | _ => false end.

Lemma watch_dry ts :
  rq_dry_run command = true -> emits (fun e => github_call e = false) (_watch_threads w command ts).
Proof.
  intros Hd. unfold _watch_threads, github_command, _resolve_bridge, effect_watch_threads.
  rewrite Hd, orb_true_r. emits_auto.
Qed.

(** A dry run makes no call to the GitHub bridge and resolves no token. *)
Theorem dry_review_calls_nothing s :
  rq_dry_run command = true ->
  exists l, (review_handle w command s).1.2 = s.2 ++ l /\ Forall (fun e => github_call e = false) l.
Proof.
  intros Hd. apply emits_run. pose proof (fun ts => watch_dry ts Hd) as Hwatch.
  unfold review_handle, _run_pipeline, step, _fan_out_review, review_with, _aggregate,
    _post_threads, _judge_verify, judge_thread, _call_judge, _post_report, github_command,
    _resolve_bridge, effect_post_threads, effect_post_report.
  rewrite Hd. emits_auto; apply Hwatch.
Qed.

Lemma post_finding_at_most f sha cached : at_most is_thread_post 1 (_post_finding_thread w f sha cached).
Proof.
  assert (forall e (m : rlog -> result Z), at_most is_thread_post 1
            (r ← attempt (call e m); mret (posted f r) : Act ThreadState)) as Hone.
  { intros e m. apply at_most_bind_0; [|intros; emits_auto]. apply at_most_attempt.
    intros s. exists [e]. simpl. split; [done|]. rewrite count_cons. destruct (is_thread_post e); unfold count; simpl; lia. }
  unfold _post_finding_thread. destruct (find_existing _ _).
  { eapply at_most_weaken; [apply (emits_at_most _ 0); emits_auto|lia]. }
  destruct (evi_line_start _); [destruct (_ && _)|]; apply Hone.
Qed.
Lemma effect_post_at_most fs :
  at_most is_thread_post (rq_max_findings_per_pr command) (effect_post_threads w command fs).
Proof.
  unfold effect_post_threads. destruct (rq_dry_run command).
  { eapply at_most_weaken; [apply (emits_at_most _ 0); emits_auto|lia]. }
  apply at_most_0_bind; [unfold or_default; emits_auto|]. intros sha.
  apply at_most_0_bind; [unfold or_default; emits_auto|]. intros cached.
  apply at_most_bind_0; [|intros; emits_auto]. eapply at_most_weaken; [apply at_most_fold|].
  - intros acc f. apply at_most_bind_0; [apply post_finding_at_most|intros; emits_auto].
  - rewrite length_take. lia.
Qed.
Lemma thread_cap : at_most is_thread_post (rq_max_findings_per_pr command) (review_handle w command).
Proof.
  unfold review_handle. apply at_most_bind_0; [|intros; emits_auto]. apply at_most_attempt.
  unfold _run_pipeline, step.
  apply at_most_0_bind; [emits_auto|]. intros s1.
  apply at_most_0_bind; [emits_auto|]. intros diff.
  apply at_most_0_bind; [emits_auto|]. intros s2.
  apply at_most_0_bind; [unfold _fan_out_review, review_with; emits_auto|]. intros fs.
  apply at_most_0_bind; [unfold _aggregate; emits_auto|]. intros _.
  apply at_most_0_bind; [emits_auto|]. intros s3.
  apply at_most_bind_0.
  - unfold _post_threads, github_command, _resolve_bridge.
    apply at_most_0_bind; [emits_auto|]. intros _.
    apply at_most_0_bind; [emits_auto|]. intros _. apply effect_post_at_most.
  - intros ts. unfold _watch_threads, _judge_verify, judge_thread, _call_judge, _post_report, github_command,
      _resolve_bridge, effect_watch_threads, effect_post_report. emits_auto.
Qed.

(** A review posts at most [max_findings_per_pr] finding threads. *)
Theorem threads_capped s :
  exists l, (review_handle w command s).1.2 = s.2 ++ l
    /\ count is_thread_post l <= rq_max_findings_per_pr command.
Proof.
  apply thread_cap.
Qed.

(** ** Posting again *)

Lemma marker_in_body f : py_contains (finding_marker (fi_id f)) (_build_thread_body f) = true.
Proof.
  unfold _build_thread_body. cbv zeta. generalize (finding_marker (fi_id f)). intros m.
  match goal with |- py_contains m (m +:+ ?rest) = true => generalize rest end. intros rest.
  assert (py_startswith m (m +:+ rest) = true) as Hs.
  { induction m as [|c m IH]; [done|]. simpl. by rewrite Ascii.eqb_refl. }
  destruct m as [|c m]; [by destruct rest|]. change (String c m +:+ rest) with (String c (m +:+ rest)) in *.
  cbn [py_contains]. by rewrite Hs.
Qed.

(** GitHub lists the bot's thread of every finding that deserves one. *)
Definition already_posted (fs : list ReviewFinding) (ts : list ReviewThread) : Prop :=
  forall f, f ∈ fs -> is_thread_finding f = true ->
    exists t, t ∈ ts /\ gt_user_login t = _BOT_LOGIN /\ gt_body t = _build_thread_body f.

Lemma existing_found f fs ts :
  already_posted fs ts -> f ∈ fs -> is_thread_finding f = true -> find_existing f ts <> None.
Proof.
  intros Hall Hf Ht Hn. destruct (Hall f Hf Ht) as (t & Hin & Hl & Hb).
  unfold find_existing in Hn. apply list_elem_of_In in Hin. pose proof (find_none _ _ Hn t Hin) as Hno.
  cbv beta in Hno. by rewrite Hl, Hb, marker_in_body, String.eqb_refl in Hno.
Qed.

Abbreviation no_thread_post := (fun e => is_thread_post e = false).

(** [except Exception] never raises itself. *)
Lemma or_default_spec {T} (d : T) (c : Act T) (B : T -> unit -> Prop) :
  spec (fun _ => True) no_thread_post c B (fun _ => False) \/ emits no_thread_post c /\ (forall a s, B a s) ->
  spec (fun _ => True) no_thread_post (or_default d c) B (fun _ => False).
Proof.
  intros [Hc|[Hc HB]]; unfold or_default.
  - eapply (spec_bind _ _ _ _ (fun r s => exists a, r = Ok a /\ B a s)).
    + eapply (spec_attempt _ _ _ _ (fun _ => False)); [|done]. eapply spec_weaken; [exact Hc|done..| |done]. eauto.
    + intros r. apply spec_ret. by intros s (a & -> & HB).
  - eapply (spec_bind _ _ _ _ (fun _ _ => True)); [eapply spec_attempt; [exact Hc|done]|].
    intros r. by apply spec_ret.
Qed.

Lemma post_again fs :
  rq_dry_run command = false ->
  (forall l, exists ts, rw_threads w l = Ok ts /\ already_posted fs ts) ->
  spec (fun _ => True) no_thread_post (effect_post_threads w command fs)
    (fun states _ => Forall (fun t => th_status t = Thread.POSTED) states) (fun _ => False).
Proof.
  intros Hd Hts. unfold effect_post_threads. rewrite Hd. set (tfs := take _ _).
  assert (forall f, f ∈ tfs -> f ∈ fs /\ is_thread_finding f = true) as Hsub.
  { intros f Hf. apply subseteq_take in Hf. by apply list_elem_of_filter in Hf as [? ?]. }
  eapply (spec_bind _ _ _ _ (fun _ _ => True)).
  { destruct (truthy tfs); [|by apply spec_ret]. apply or_default_spec. right. split; [emits_auto|done]. }
  intros sha. eapply (spec_bind _ _ _ _ (fun ts _ => forall f, f ∈ tfs -> find_existing f ts <> None)).
  { destruct tfs as [|f0 tfs'] eqn:Htfs; [apply spec_ret; by intros _ _ f Hf%not_elem_of_nil|].
    apply or_default_spec. left. apply spec_call_total; [done|]. intros l.
    destruct (Hts l) as (ts & Hok & Hall). exists ts. split; [done|]. intros _ _ f Hf.
    destruct (Hsub f Hf). by eapply existing_found. }
  intros ts. eapply (spec_bind _ _ _ _ (fun states _ => Forall (fun t => th_status t = Thread.POSTED) states)).
  - set (I := fun (acc : list ThreadState) (_ : unit) => (forall f, f ∈ tfs -> find_existing f ts <> None)
      /\ Forall (fun t => th_status t = Thread.POSTED) acc).
    eapply (spec_weaken (I []) _ no_thread_post _ _ I _ (fun _ => False));
      [|intros s Hs; split; [exact Hs|constructor]|done|by intros a s [_ Ha]|done].
    apply (spec_fold_each I). intros acc f Hf. apply spec_pre. intros Hex. unfold _post_finding_thread.
    specialize (Hex f Hf) as Hex'. destruct (find_existing f ts) as [t|]; [|done].
    apply spec_ret. intros s Hacc. split; [done|]. apply Forall_app; split; [done|]. by apply Forall_singleton.
  - intros states. eapply (spec_bind _ _ _ _ (fun _ _ => Forall (fun t => th_status t = Thread.POSTED) states));
      [|intros ?; by apply spec_ret].
    apply spec_when; [|done]. intros _. eapply (spec_bind _ _ _ _ (fun _ _ => Forall _ states));
      [|intros ?; by apply spec_ret].
    apply (spec_attempt _ _ _ _ (fun _ => Forall (fun t => th_status t = Thread.POSTED) states)); [|done].
    by apply spec_call.
Qed.

(** Posting again posts nothing: when GitHub lists, for every finding that
    deserves a thread, a comment of the bot with the body a previous run posted,
    then posting the findings creates no thread and no finding comment, and
    every finding is reported as posted. *)
Theorem no_duplicate_threads fs s :
  rq_dry_run command = false ->
  (forall l, exists ts, rw_threads w l = Ok ts /\ already_posted fs ts) ->
  exists l states, (effect_post_threads w command fs s).1.2 = s.2 ++ l
    /\ Forall (fun e => is_thread_post e = false) l
    /\ (effect_post_threads w command fs s).2 = Ok states
    /\ Forall (fun t => th_status t = Thread.POSTED) states.
Proof.
  intros Hd Hts. destruct (post_again fs Hd Hts s I) as (l & Hl & HP & Hr).
  destruct (effect_post_threads w command fs s) as [s' [states|]]; [|done]. by exists l, states.
Qed.

(** ** No reviewer answers *)

(** Computations that never raise. *)
Definition total {T} (m : Act T) (Q : T -> Prop) : Prop :=
  spec (fun _ => True) any m (fun a _ => Q a) (fun _ => False).
Lemma total_bind {T U} (m : Act T) (k : T -> Act U) (Q : T -> Prop) (R : U -> Prop) :
  total m Q -> (forall a, Q a -> total (k a) R) -> total (m ≫= k) R.
Proof. intros Hm Hk. eapply spec_bind; [exact Hm|]. intros a s Hs. by apply (Hk a Hs s). Qed.
Lemma total_ret {T} (a : T) (Q : T -> Prop) : Q a -> total (mret a) Q.
Proof. intros Ha. by apply spec_ret. Qed.
Lemma total_call {T} e (answer : rlog -> result T) (Q : T -> Prop) :
  (forall l, exists a, answer l = Ok a /\ Q a) -> total (call e answer) Q.
Proof. intros Ha. apply spec_call_total; [done|]. intros l. destruct (Ha l) as (a & ? & ?). by exists a. Qed.
Lemma total_step st o p p' (Q : ModelPrReviewBotState -> Prop) :
  at_phase p st -> next_phase p = Ok p' -> po_phase_success o = true ->
  (forall st', at_phase p' st' ->
     bs_findings st' = default (bs_findings st) (po_findings o) ->
     bs_thread_states st' = default (bs_thread_states st) (po_thread_states o) -> Q st') ->
  total (step st o) Q.
Proof.
  intros Hp Hn Ho HQ s _. pose proof (step_returns any st o p p' Q Hp Hn Ho HQ s I) as (l & Hl & HP & Hr).
  exists l. split_and!; [done..|]. unfold step, lift in *. cbn [fst snd] in *.
  destruct (fst <$> advance st o) eqn:E; [done|].
  assert (bot_terminal st = false) as Ht.
  { unfold bot_terminal. apply bool_decide_eq_false. unfold at_phase in Hp. rewrite Hp.
    destruct p; try discriminate Hn; set_solver. }
  destruct (advance_ok st o Ht) as (s1 & ev & Heq & _). by rewrite Heq in E.
Qed.

Definition empty_run (p : EnumFsmPhase) (st : ModelPrReviewBotState) : Prop :=
  at_phase p st /\ bs_findings st = [] /\ bs_thread_states st = [].

Lemma no_findings_pipeline :
  rq_repo command <> EmptyString -> rw_bridge_injected w = true ->
  (forall l k, exists x, rw_infer w l k = Raise x) ->
  (forall l, exists d, rw_diff w l = Ok d) -> (forall l, rw_adapter w l = Ok ()) ->
  (forall l d, rw_prompt w l d = Ok ()) -> (forall l v, exists n, rw_post_report w l v = Ok n) ->
  total (_run_pipeline w command (start_state command)) (empty_run Phase.DONE).
Proof.
  intros Hrepo Hb Hinfer Hdiff Had Hpr Hrep.
  assert (total (github_command command) (fun _ => True)) as Hcmd.
  { unfold github_command. destruct (rq_repo command); [done|]. by apply total_ret. }
  assert (total (_resolve_bridge w command) (fun _ => True)) as Hbr.
  { unfold _resolve_bridge. rewrite Hb. by apply total_ret. }
  assert (forall st p p' f t, empty_run p st -> next_phase p = Ok p' -> default [] f = [] -> default [] t = [] ->
    total (step st (success f t)) (empty_run p')) as Hstep.
  { intros st p p' f t (Hp & Hf & Ht) Hn Hdf Hdt. eapply total_step; [exact Hp|exact Hn|done|].
    intros st' Hp' Hf' Ht'. split_and!; [done|..]; rewrite ?Hf', ?Ht', ?Hf, ?Ht; done. }
  unfold _run_pipeline.
  eapply total_bind; [by apply (Hstep _ Phase.INIT)|]. intros s1 H1.
  eapply total_bind; [apply (total_call _ _ (fun _ => True)); intros l; destruct (Hdiff l); eauto|]. intros diff _.
  eapply total_bind; [by eapply Hstep|]. intros s2 H2.
  eapply (total_bind _ _ (fun fs => fs = [])).
  { unfold _fan_out_review.
    eapply (total_bind _ _ (fun _ => True)); [apply total_call; intros l; rewrite Had; eauto|]. intros _ _.
    eapply (total_bind _ _ (fun _ => True)); [apply total_call; intros l; rewrite Hpr; eauto|]. intros _ _.
    eapply (spec_weaken (fun _ => ([] : list ReviewFinding) = []) _ any _ _ (fun fs _ => fs = []) _ (fun _ => False));
      [|done..]. apply (spec_fold_each (fun fs _ => fs = [])). intros fs k _. unfold review_with.
    eapply (spec_bind _ _ _ _ (fun r _ => fs = [] /\ exists x, r = Raise x)).
    - intros s Hs. exists [Inferred k]. unfold attempt, call. simpl. destruct (Hinfer s.2 k) as [x ->].
      split_and!; [done|by constructor|done|by exists x].
    - intros [text|x]; [intros s [_ [x ?]]; done|]. apply spec_ret. by intros s [-> _]. }
  intros fs ->. eapply (total_bind _ _ (fun _ => True)); [by apply total_ret|]. intros _ _.
  eapply total_bind; [by eapply Hstep|]. intros s3 H3.
  eapply (total_bind _ _ (fun ts => ts = [])).
  { unfold _post_threads. eapply total_bind; [exact Hcmd|]. intros _ _. eapply total_bind; [exact Hbr|]. intros _ _.
    unfold effect_post_threads. rewrite filter_nil, take_nil. destruct (rq_dry_run command); [by apply total_ret|].
    eapply (total_bind _ _ (fun _ => True)); [by apply total_ret|]. intros sha _.
    eapply (total_bind _ _ (fun _ => True)); [by apply total_ret|]. intros ts _.
    eapply (total_bind _ _ (fun ts => ts = [])); [by apply total_ret|]. intros ts' ->.
    eapply (total_bind _ _ (fun _ => True)); [by apply total_ret|]. intros _ _. by apply total_ret. }
  intros ts ->. eapply total_bind; [by eapply Hstep|]. intros s4 H4.
  eapply (total_bind _ _ (fun ts => ts = [])); [by apply total_ret|]. intros ts ->.
  eapply total_bind; [by eapply Hstep|]. intros s5 H5.
  eapply (total_bind _ _ (fun ts => ts = [])); [by apply total_ret|]. intros ts ->.
  eapply total_bind; [by eapply Hstep|]. intros s6 H6.
  eapply (total_bind _ _ (fun _ => True)).
  { unfold _post_report. eapply total_bind; [exact Hcmd|]. intros _ _. eapply total_bind; [exact Hbr|]. intros _ _.
    unfold effect_post_report. destruct (rq_dry_run command); [by apply total_ret|].
    eapply (total_bind _ _ (fun _ => True)); [apply total_call; intros l; destruct (Hrep l (make_verdict s6 (rq_judge_model command))); eauto|].
    intros _ _. by apply total_ret. }
  intros _ _. by eapply Hstep.
Qed.

(** A review in which every reviewer model's inference fails is reported
    DONE and CLEAN: the failures are skipped one by one, and no findings means
    CLEAN, although a run that produced no review says nothing about the pull
    request. *)
Theorem unreviewed_is_clean s :
  rq_repo command <> EmptyString -> rw_bridge_injected w = true ->
  (forall l k, exists x, rw_infer w l k = Raise x) ->
  (forall l, exists d, rw_diff w l = Ok d) -> (forall l, rw_adapter w l = Ok ()) ->
  (forall l d, rw_prompt w l d = Ok ()) -> (forall l v, exists n, rw_post_report w l v = Ok n) ->
  exists v, (review_handle w command s).2 = Ok (Phase.DONE, v) /\ rv_verdict v = CLEAN.
Proof.
  intros H1 H2 H3 H4 H5 H6 H7.
  destruct (no_findings_pipeline H1 H2 H3 H4 H5 H6 H7 s I) as (l & _ & _ & Hr).
  unfold review_handle, attempt, lift, mbind, M_bind, mret, M_ret.
  destruct (_run_pipeline w command (start_state command) s) as [s' [st|x]]; [|done].
  destruct Hr as (Hp & Hf & Ht). cbn [fst snd]. eexists. unfold at_phase in Hp. rewrite Hp.
  split; [reflexivity|]. apply verdict_done; [done|]. by rewrite Hf, Ht.
Qed.
End pipeline.

(** ** A concrete review *)

Definition demo_finding : ReviewFinding :=
  {| fi_id := "f1"; fi_severity := MAJOR; fi_title := "Unchecked index"; fi_description := "may overflow";
     fi_suggestion := None;
     fi_evidence := {| evi_file_path := Some "a.py"; evi_line_start := Some 3%Z; evi_line_end := None |};
     fi_confidence := "high"; fi_source_model := "local" |}.
Definition demo_threads : list ReviewThread :=
  [{| gt_id := 1; gt_body := _build_thread_body demo_finding; gt_user_login := _BOT_LOGIN;
      gt_in_reply_to_id := None; gt_resolved := false |};
   {| gt_id := 2; gt_body := "fixed @onexbot-judge verify"; gt_user_login := "dev";
      gt_in_reply_to_id := Some 1%Z; gt_resolved := false |}].
(** One finding, whose thread the author asked to verify; the judge says [verdict]. *)
Definition demo_review (infer : result string) (verdict : string) : ReviewWorld :=
  {| rw_bridge_injected := true; rw_token := fun _ => Ok "t"; rw_head_sha := fun _ => Ok "abc";
     rw_threads := fun _ => Ok demo_threads; rw_post_thread := fun _ _ => Ok 1%Z;
     rw_post_comment := fun _ _ => Ok 1%Z; rw_post_summary := fun _ _ => Ok 9%Z;
     rw_post_report := fun _ _ => Ok 10%Z; rw_diff := fun _ => Ok "diff"; rw_adapter := fun _ => Ok ();
     rw_prompt := fun _ _ => Ok (); rw_infer := fun _ _ => infer; rw_parse := fun _ _ _ => Ok [demo_finding];
     rw_aggregate := fun _ _ => Ok (); rw_judge := fun _ _ => Ok "{}";
     rw_json_loads := fun _ => inr (JObj [("verdict", JStr verdict); ("reasoning", JStr "seen")]) |}.
Definition demo_request (dry : bool) : ReviewRequest :=
  {| rq_correlation_id := "c"; rq_pr_number := 7; rq_repo := "o/r"; rq_reviewer_models := ["local"];
     rq_judge_model := "judge"; rq_dry_run := dry; rq_max_findings_per_pr := 20 |}.
Definition demo_pipeline (verdict : string) : result ModelPrReviewBotState :=
  (_run_pipeline (demo_review (Ok "raw") verdict) (demo_request false) (start_state (demo_request false)) (tt, [])).2.
Definition demo_statuses (verdict : string) : result (list EnumThreadStatus) :=
  (fun st => map th_status (bs_thread_states st)) <$> demo_pipeline verdict.

Example demo_pass : demo_statuses "pass" = Ok [Thread.VERIFIED_PASS].
Proof. vm_compute. reflexivity. Qed.
Example demo_fail : demo_statuses "fine" = Ok [Thread.VERIFIED_FAIL].
Proof. vm_compute. reflexivity. Qed.

Lemma passes_are_judged_witness :
  match demo_pipeline "pass" with
  | Ok st => Forall (judged_pass (demo_review (Ok "raw") "pass")) (bs_thread_states st)
  | Raise _ => False
  end.
Proof.
  destruct (demo_pipeline "pass") as [st|x] eqn:E; [|by vm_compute in E].
  apply (passes_are_judged (demo_review (Ok "raw") "pass") (demo_request false) (tt, [])). exact E.
Defined.

Lemma dry_review_calls_nothing_witness :
  exists l, (review_handle (demo_review (Ok "raw") "pass") (demo_request true) (tt, [])).1.2 = [] ++ l
    /\ Forall (fun e => github_call e = false) l.
Proof.
  apply (dry_review_calls_nothing (demo_review (Ok "raw") "pass") (demo_request true) (tt, [])). reflexivity.
Defined.

Lemma no_duplicate_threads_witness :
  exists l states, (effect_post_threads (demo_review (Ok "raw") "pass") (demo_request false) [demo_finding] (tt, [])).1.2 = [] ++ l
    /\ Forall (fun e => is_thread_post e = false) l
    /\ (effect_post_threads (demo_review (Ok "raw") "pass") (demo_request false) [demo_finding] (tt, [])).2 = Ok states
    /\ Forall (fun t => th_status t = Thread.POSTED) states.
Proof.
  apply (no_duplicate_threads (demo_review (Ok "raw") "pass") (demo_request false) [demo_finding] (tt, [])).
  - reflexivity.
  - intros l. exists demo_threads. split; [reflexivity|]. intros f Hf _. apply list_elem_of_singleton in Hf as ->.
    eexists. split; [constructor|]. split; reflexivity.
Defined.

Lemma unreviewed_is_clean_witness :
  exists v, (review_handle (demo_review (Raise (RuntimeError "down")) "pass") (demo_request false) (tt, [])).2
              = Ok (Phase.DONE, v) /\ rv_verdict v = CLEAN.
Proof.
  apply (unreviewed_is_clean (demo_review (Raise (RuntimeError "down")) "pass") (demo_request false) (tt, [])).
  all: first [discriminate|reflexivity|intros; eexists; reflexivity].
Defined.
