(* ===== verification/Deployment.v ===== *)
(** * Runtime deployment: the shared models and the production gates

    [events/runtime_deployment.py]: the phases of a redeploy, the commands and
    events the redeploy nodes exchange, the same-digest gate, the production
    promotion gate, the target binding of the deploy effect; and
    [node_prod_promotion_gate_compute], which decides for a lane.

    The lane enum is a wire enum of another package: a class with the members
    this code names.  A correlation id is its text; a time is a UTC instant. *)
From S2P Require Import Prelude.
#[local] Set Implicit Arguments.

(** ** Lanes *)

(** [EnumRuntimeLane]: distinct members, and a member is found by its value. *)
Class RuntimeLane (L : Type) := {
  lane_eq_dec :: EqDecision L;
  DEV : L;
  STABILITY_TEST : L;
  PROD : L;
  lane_value : L -> string;
  lane_of_value : string -> option L;
  lane_of_value_value l : lane_of_value (lane_value l) = Some l;
  lane_value_of v l : lane_of_value v = Some l -> lane_value l = v;
  dev_not_prod : DEV <> PROD
}.

Definition DEFAULT_PREVIOUS_IMAGE : string := "omninode-runtime:v2.3.1".
Definition DEFAULT_REQUESTER : string := "node_redeploy_orchestrator".

(** ** Phases *)

Module RedeployPhase.
Inductive EnumRedeployPhase : Type :=
  | IDLE | SYNC_CLONES | UPDATE_PINS | REBUILD | SEED_INFISICAL | VERIFY_HEALTH | DONE | FAILED
  | PROBING | SWEEPING | EVIDENCE_REDUCING | OCC_DRAFTING | OCC_VALIDATING | READINESS_SCORING
  | READY | BLOCKED | ROLLING_BACK | ROLLED_BACK.
#[export] Instance EnumRedeployPhase_eq_dec : EqDecision EnumRedeployPhase.
Proof. solve_decision. Defined.
End RedeployPhase.
Export (hints) RedeployPhase.
Abbreviation EnumRedeployPhase := RedeployPhase.EnumRedeployPhase.
Definition redeploy_phase_value (p : EnumRedeployPhase) : string :=
  match p with
  | RedeployPhase.IDLE => "idle"
  | RedeployPhase.SYNC_CLONES => "sync_clones"
  | RedeployPhase.UPDATE_PINS => "update_pins"
  | RedeployPhase.REBUILD => "rebuild"
  | RedeployPhase.SEED_INFISICAL => "seed_infisical"
  | RedeployPhase.VERIFY_HEALTH => "verify_health"
  | RedeployPhase.DONE => "done"
  | RedeployPhase.FAILED => "failed"
  | RedeployPhase.PROBING => "probing"
  | RedeployPhase.SWEEPING => "sweeping"
  | RedeployPhase.EVIDENCE_REDUCING => "evidence_reducing"
  | RedeployPhase.OCC_DRAFTING => "occ_drafting"
  | RedeployPhase.OCC_VALIDATING => "occ_validating"
  | RedeployPhase.READINESS_SCORING => "readiness_scoring"
  | RedeployPhase.READY => "ready"
  | RedeployPhase.BLOCKED => "blocked"
  | RedeployPhase.ROLLING_BACK => "rolling_back"
  | RedeployPhase.ROLLED_BACK => "rolled_back"
  end.

Definition _PHASE_SEQUENCE : list EnumRedeployPhase :=
  [RedeployPhase.SYNC_CLONES; RedeployPhase.UPDATE_PINS; RedeployPhase.REBUILD;
   RedeployPhase.SEED_INFISICAL; RedeployPhase.VERIFY_HEALTH; RedeployPhase.DONE].
Definition _VERIFICATION_SEQUENCE : list EnumRedeployPhase :=
  [RedeployPhase.PROBING; RedeployPhase.SWEEPING; RedeployPhase.EVIDENCE_REDUCING;
   RedeployPhase.OCC_DRAFTING; RedeployPhase.OCC_VALIDATING; RedeployPhase.READINESS_SCORING].
Definition TERMINAL_PHASES : list EnumRedeployPhase :=
  [RedeployPhase.DONE; RedeployPhase.FAILED; RedeployPhase.READY; RedeployPhase.BLOCKED;
   RedeployPhase.ROLLED_BACK].
Definition ROLLBACK_ELIGIBLE_PHASES : list EnumRedeployPhase :=
  [RedeployPhase.VERIFY_HEALTH; RedeployPhase.PROBING; RedeployPhase.REBUILD].

(** [sequence.index(current)] and the element after it. *)
Fixpoint after_in (current : EnumRedeployPhase) (l : list EnumRedeployPhase) : result EnumRedeployPhase :=
  match l with
  | [] => Raise (ValueError "tuple.index(x): x not in tuple")
  | p :: l' =>
      if decide (p = current)
      then match l' with
           | q :: _ => Ok q
           | [] => Raise (RuntimeError "tuple index out of range")
           end
      else after_in current l'
  end.

Definition next_phase (current : EnumRedeployPhase) : result EnumRedeployPhase :=
  if decide (current ∈ TERMINAL_PHASES) then
    Raise (ValueError ("Cannot advance from terminal phase: " +:+ redeploy_phase_value current))
  else if decide (current = RedeployPhase.IDLE) then Ok RedeployPhase.SYNC_CLONES
  else after_in current _PHASE_SEQUENCE.

Definition next_verification_phase (current : EnumRedeployPhase) : result EnumRedeployPhase :=
  if decide (current = RedeployPhase.VERIFY_HEALTH) then Ok RedeployPhase.PROBING
  else if decide (current = RedeployPhase.READINESS_SCORING) then
    Raise (ValueError "READINESS_SCORING transitions to READY or BLOCKED via the gate")
  else if decide (current ∈ _VERIFICATION_SEQUENCE) then after_in current _VERIFICATION_SEQUENCE
  else Raise (ValueError ("Not a verification phase: " +:+ redeploy_phase_value current)).

(** ** Grants, readiness, gate inputs *)

Module Occ.
Inductive EnumOccGateState : Type := MERGED | RECEIPT_GATE_PASS | PENDING | BLOCKED.
#[export] Instance EnumOccGateState_eq_dec : EqDecision EnumOccGateState.
Proof. solve_decision. Defined.
End Occ.
Export (hints) Occ.
Abbreviation EnumOccGateState := Occ.EnumOccGateState.
Definition occ_gate_value (s : EnumOccGateState) : string :=
  match s with
  | Occ.MERGED => "merged"
  | Occ.RECEIPT_GATE_PASS => "receipt-gate-pass"
  | Occ.PENDING => "pending"
  | Occ.BLOCKED => "blocked"
  end.
Definition _OCC_SATISFIED : list EnumOccGateState := [Occ.MERGED; Occ.RECEIPT_GATE_PASS].

Inductive EnumProdGrantReason : Type :=
  | MISSING_PROMOTION_GRANT | EXPIRED_PROMOTION_GRANT | GRANT_LANE_MISMATCH | GRANT_DIGEST_MISMATCH
  | GRANT_BATCH_MISMATCH | SELF_GRANTED | CANDIDATE_NOT_AUTHORIZED.
#[export] Instance EnumProdGrantReason_eq_dec : EqDecision EnumProdGrantReason.
Proof. solve_decision. Defined.
Definition grant_reason_value (r : EnumProdGrantReason) : string :=
  match r with
  | MISSING_PROMOTION_GRANT => "missing_promotion_grant"
  | EXPIRED_PROMOTION_GRANT => "expired_promotion_grant"
  | GRANT_LANE_MISMATCH => "grant_lane_mismatch"
  | GRANT_DIGEST_MISMATCH => "grant_digest_mismatch"
  | GRANT_BATCH_MISMATCH => "grant_batch_mismatch"
  | SELF_GRANTED => "self_granted"
  | CANDIDATE_NOT_AUTHORIZED => "candidate_not_authorized"
  end.

Inductive EnumPromotionClass : Type := CLEAN_MAIN | STABILITY_CANDIDATE.
#[export] Instance EnumPromotionClass_eq_dec : EqDecision EnumPromotionClass.
Proof. solve_decision. Defined.
Definition promotion_class_value (c : EnumPromotionClass) : string :=
  match c with CLEAN_MAIN => "clean-main" | STABILITY_CANDIDATE => "stability-candidate" end.

Record ModelStabilityReadiness (L : Type) := {
  sr_runtime_lane : L;
  sr_image_digest : string;
  sr_promotion_batch_id : option string;
  sr_ready : bool
}.
Record ModelProdGateDecision := {
  dg_allowed : bool;
  dg_image_digest : option string;
  dg_reason : string
}.
(** [readiness_state] is a string literal type of another package. *)
Record ModelReadinessProjectionFact (L : Type) := {
  rp_runtime_lane : L;
  rp_readiness_state : string;
  rp_image_digest : string;
  rp_promotion_batch_id : string
}.
Record ModelProdPromotionGrant (L : Type) := {
  g_grant_id : string;
  g_approved_lane : L;
  g_approved_image_digest : string;
  g_approved_promotion_batch_id : string;
  g_approved_by : string;
  g_created_at : datetime;
  g_expires_at : datetime;
  g_consumed_at : option datetime;
  g_consumed_by_correlation_id : option string;
  g_authorizes_candidate : bool
}.
Record ModelProdPromotionInputs (L : Type) := {
  in_requested_image_digest : option string;
  in_promotion_batch_id : option string;
  in_readiness_projection : option (ModelReadinessProjectionFact L);
  in_occ_gate_state : EnumOccGateState;
  in_rollback_target : option string;
  in_requested_by : string;
  in_promotion_grant : option (ModelProdPromotionGrant L);
  in_promotion_class : EnumPromotionClass;
  in_non_main_lineage : bool;
  in_evaluated_at : datetime
}.
Record ModelProdPromotionGateDecision := {
  pg_allowed : bool;
  pg_image_digest : option string;
  pg_rollback_target : option string;
  pg_reason : string
}.

Module Health.
Inductive EnumProdHealth : Type := HEALTHY | UNHEALTHY | UNKNOWN.
#[export] Instance EnumProdHealth_eq_dec : EqDecision EnumProdHealth.
Proof. solve_decision. Defined.
End Health.
Export (hints) Health.
Abbreviation EnumProdHealth := Health.EnumProdHealth.
Record ModelProdHealthFact (L : Type) := {
  hf_lane : L;
  hf_health : EnumProdHealth;
  hf_probed_at : datetime;
  hf_source : string
}.

(** ** The same-digest gate *)

Section gates.
Context {L : Type} `{RuntimeLane L}.
Implicit Types (inputs : ModelProdPromotionInputs L) (grant : option (ModelProdPromotionGrant L)).

(** [s.strip()] is empty, or there is no string. *)
Definition blank (s : option string) : bool :=
  match s with None => true | Some s => negb (truthy (py_strip s)) end.

Definition as_stability_readiness (fact : ModelReadinessProjectionFact L) : ModelStabilityReadiness L :=
  {| sr_runtime_lane := rp_runtime_lane fact; sr_image_digest := rp_image_digest fact;
     sr_promotion_batch_id := Some (rp_promotion_batch_id fact);
     sr_ready := String.eqb (rp_readiness_state fact) "READY" |}.

Definition digest_blocked (reason : string) : ModelProdGateDecision :=
  {| dg_allowed := false; dg_image_digest := None; dg_reason := reason |}.
Definition evaluate_prod_digest_gate (requested_digest : option string)
    (stability_readiness : option (ModelStabilityReadiness L)) : ModelProdGateDecision :=
  if blank requested_digest then digest_blocked "prod deploy requires a pinned image_digest"
  else match stability_readiness with
  | None => digest_blocked
      "no stability-test readiness event exists for the requested digest; prod is blocked"
  | Some r =>
      if negb (sr_ready r) then
        digest_blocked "stability-test readiness failed for the digest; prod is blocked"
      else if negb (bool_decide (Some (sr_image_digest r) = requested_digest)) then
        digest_blocked
          ("prod digest does not match the latest stability-test READY digest ("
           +:+ py_repr (sr_image_digest r) +:+ " != " +:+ py_repr requested_digest +:+ ")")
      else
        {| dg_allowed := true; dg_image_digest := Some (sr_image_digest r);
           dg_reason := "stability-test READY for matching digest; prod reuses it (no rebuild)" |}
  end.

(** ** The promotion gate *)

Definition blocked (rollback_target : option string) (reason : string) : ModelProdPromotionGateDecision :=
  {| pg_allowed := false; pg_image_digest := None; pg_rollback_target := rollback_target;
     pg_reason := reason |}.
Definition _grant_blocked (inputs : ModelProdPromotionInputs L) (reason : EnumProdGrantReason) (detail : string)
  : ModelProdPromotionGateDecision :=
  blocked (in_rollback_target inputs) (grant_reason_value reason +:+ ": " +:+ detail).

Definition candidate_detail (c : EnumPromotionClass) (non_main : bool) : string :=
  "image is a stability-candidate / non-main-lineage build (promotion_class="
  +:+ py_repr (promotion_class_value c) +:+ ", non_main_lineage=" +:+ py_repr non_main
  +:+ "); it is pinnable to dev/stability only and is refused for prod absent a grant that "
  +:+ "explicitly authorizes the candidate class".
Definition is_candidate (c : EnumPromotionClass) (non_main : bool) : bool :=
  bool_decide (c = STABILITY_CANDIDATE) || non_main.
Definition authorizes grant : bool :=
  match grant with Some g => g_authorizes_candidate g | None => false end.

Definition _evaluate_candidate_lineage inputs : option ModelProdPromotionGateDecision :=
  if negb (is_candidate (in_promotion_class inputs) (in_non_main_lineage inputs)) then None
  else if authorizes (in_promotion_grant inputs) then None
  else Some (_grant_blocked inputs CANDIDATE_NOT_AUTHORIZED
               (candidate_detail (in_promotion_class inputs) (in_non_main_lineage inputs))).

Definition _evaluate_promotion_grant inputs : option ModelProdPromotionGateDecision :=
  match in_promotion_grant inputs with
  | None => Some (_grant_blocked inputs MISSING_PROMOTION_GRANT
                    "prod promotion requires an approver-issued promotion grant; none present")
  | Some g =>
      if negb (bool_decide (g_approved_lane g = PROD)) then
        Some (_grant_blocked inputs GRANT_LANE_MISMATCH
                ("promotion grant authorizes a different lane (" +:+ py_repr (lane_value (g_approved_lane g))
                 +:+ " != prod)"))
      else if negb (bool_decide (Some (g_approved_image_digest g) = in_requested_image_digest inputs)) then
        Some (_grant_blocked inputs GRANT_DIGEST_MISMATCH
                ("promotion grant digest does not match the request (" +:+ py_repr (g_approved_image_digest g)
                 +:+ " != " +:+ py_repr (in_requested_image_digest inputs) +:+ ")"))
      else if negb (bool_decide (Some (g_approved_promotion_batch_id g) = in_promotion_batch_id inputs)) then
        Some (_grant_blocked inputs GRANT_BATCH_MISMATCH
                ("promotion grant batch does not match the request ("
                 +:+ py_repr (g_approved_promotion_batch_id g) +:+ " != "
                 +:+ py_repr (in_promotion_batch_id inputs) +:+ ")"))
      else if (g_expires_at g <? in_evaluated_at inputs)%Z then
        Some (_grant_blocked inputs EXPIRED_PROMOTION_GRANT
                ("promotion grant has expired (evaluated_at=" +:+ isoformat (in_evaluated_at inputs)
                 +:+ " > expires_at=" +:+ isoformat (g_expires_at g) +:+ ")"))
      else None
  end.

Definition evaluate_prod_promotion_gate inputs : ModelProdPromotionGateDecision :=
  match _evaluate_candidate_lineage inputs with
  | Some candidate_block => candidate_block
  | None =>
  match in_readiness_projection inputs with
  | None => blocked (in_rollback_target inputs)
      "no reducer-owned readiness projection exists for the prod request; promotion is blocked"
  | Some projection =>
  if negb (bool_decide (Some (rp_promotion_batch_id projection) = in_promotion_batch_id inputs)) then
    blocked (in_rollback_target inputs)
      ("readiness projection promotion batch does not match the prod request ("
       +:+ py_repr (rp_promotion_batch_id projection) +:+ " != "
       +:+ py_repr (in_promotion_batch_id inputs) +:+ ")")
  else if negb (String.eqb (rp_readiness_state projection) "READY") then
    blocked (in_rollback_target inputs)
      ("stability-test readiness projection is not READY (" +:+ py_repr (rp_readiness_state projection)
       +:+ "); prod promotion is blocked")
  else
  let digest_gate := evaluate_prod_digest_gate (in_requested_image_digest inputs)
                       (Some (as_stability_readiness projection)) in
  if negb (dg_allowed digest_gate) then blocked (in_rollback_target inputs) (dg_reason digest_gate)
  else if negb (bool_decide (in_occ_gate_state inputs ∈ _OCC_SATISFIED)) then
    blocked (in_rollback_target inputs)
      ("OCC evidence is not durable (" +:+ occ_gate_value (in_occ_gate_state inputs)
       +:+ "); prod promotion requires a merged OCC PR or Receipt Gate PASS")
  else if blank (in_rollback_target inputs) then
    blocked None "prod promotion requires a known rollback target"
  else
  match _evaluate_promotion_grant inputs with
  | Some grant_block => grant_block
  | None =>
      {| pg_allowed := true; pg_image_digest := dg_image_digest digest_gate;
         pg_rollback_target := in_rollback_target inputs;
         pg_reason := "readiness projection READY for matching digest and batch, OCC evidence durable, rollback target known, promotion grant authorized; prod reuses the stability digest (no rebuild)" |}
  end
  end
  end.

(** ** The binding the deploy effect checks *)

Definition verify_prod_deploy_grant_binding (runtime_lane : L) (image_digest promotion_batch_id : option string)
    grant (evaluated_at : option datetime) : option (EnumProdGrantReason * string) :=
  if negb (bool_decide (runtime_lane = PROD)) then None
  else match grant with
  | None => Some (MISSING_PROMOTION_GRANT, "prod deploy refused: no verified promotion grant on the command")
  | Some g =>
      if negb (bool_decide (g_approved_lane g = PROD)) then
        Some (GRANT_LANE_MISMATCH, "prod deploy refused: grant lane "
                +:+ py_repr (lane_value (g_approved_lane g)) +:+ " != prod")
      else if negb (bool_decide (Some (g_approved_image_digest g) = image_digest)) then
        Some (GRANT_DIGEST_MISMATCH, "prod deploy refused: grant digest "
                +:+ py_repr (g_approved_image_digest g) +:+ " != command digest " +:+ py_repr image_digest)
      else if negb (bool_decide (Some (g_approved_promotion_batch_id g) = promotion_batch_id)) then
        Some (GRANT_BATCH_MISMATCH, "prod deploy refused: grant batch "
                +:+ py_repr (g_approved_promotion_batch_id g) +:+ " != command batch "
                +:+ py_repr promotion_batch_id)
      else if match evaluated_at with None => true | Some t => (g_expires_at g <? t)%Z end then
        Some (EXPIRED_PROMOTION_GRANT, "prod deploy refused: grant expired (evaluated_at="
                +:+ opt_datetime_str evaluated_at +:+ ", expires_at=" +:+ datetime_str (g_expires_at g) +:+ ")")
      else None
  end.
End gates.

(** ** Commands and events between the redeploy nodes *)

Inductive EnumRedeployScope : Type := FULL | RUNTIME | CORE.
Inductive EnumBuildSource : Type := WORKSPACE | RELEASE.
Module Redeploy.
Inductive EnumRedeployStatus : Type := SUCCESS | FAILED.
#[export] Instance EnumRedeployStatus_eq_dec : EqDecision EnumRedeployStatus.
Proof. solve_decision. Defined.
End Redeploy.
Export (hints) Redeploy.
Abbreviation EnumRedeployStatus := Redeploy.EnumRedeployStatus.

Record ModelRedeployCommand (L : Type) := {
  rc_correlation_id : string;
  rc_versions : gmap string string;
  rc_skip_sync : bool;
  rc_verify_only : bool;
  rc_dry_run : bool;
  rc_requested_at : datetime;
  rc_runtime_lane : L;
  rc_image_ref : option string;
  rc_image_digest : option string;
  rc_promotion_batch_id : option string
}.
(** [validate_prod_pins] *)
Definition redeploy_command_valid {L} `{RuntimeLane L} (c : ModelRedeployCommand L) : bool :=
  negb (bool_decide (rc_runtime_lane c = PROD))
  || (truthy (rc_image_digest c) && truthy (rc_promotion_batch_id c)).

Record ModelRedeployState (L : Type) := {
  rs_correlation_id : string;
  rs_current_phase : EnumRedeployPhase;
  rs_versions : gmap string string;
  rs_skip_sync : bool;
  rs_verify_only : bool;
  rs_dry_run : bool;
  rs_consecutive_failures : nat;
  rs_max_consecutive_failures : nat;
  rs_phases_completed : nat;
  rs_error_message : option string;
  rs_runtime_lane : L;
  rs_image_digest : option string;
  rs_promotion_batch_id : option string;
  rs_previous_image : option string;
  rs_rolled_back : bool
}.
Record ModelRedeployPhaseEvent := {
  pe_correlation_id : string;
  pe_from_phase : EnumRedeployPhase;
  pe_to_phase : EnumRedeployPhase;
  pe_success : bool;
  pe_error_message : option string
}.
Record ModelRedeployCompletedEvent := {
  ce_correlation_id : string;
  ce_final_phase : EnumRedeployPhase;
  ce_phases_completed : nat;
  ce_error_message : option string
}.
Record ModelRedeployRolledBackEvent (L : Type) := {
  rb_correlation_id : string;
  rb_runtime_lane : L;
  rb_restored_image : string;
  rb_failure_reason : string;
  rb_failed_phase : EnumRedeployPhase
}.
Record ModelDeployRefusedEvent (L : Type) := {
  rf_correlation_id : string;
  rf_runtime_lane : L;
  rf_requested_image_digest : option string;
  rf_promotion_batch_id : option string;
  rf_grant_id : option string;
  rf_reason : EnumProdGrantReason;
  rf_detail : string
}.
Record ModelHealthCheck := {
  hc_service : string;
  hc_endpoint : string;
  hc_pass : bool;
  hc_latency_ms : Z
}.
Record ModelDeployRebuildCommand (L : Type) := {
  rbc_correlation_id : string;
  rbc_requested_by : string;
  rbc_scope : EnumRedeployScope;
  rbc_runtime_lane : L;
  rbc_build_source : EnumBuildSource;
  rbc_services : list string;
  rbc_git_ref : string;
  rbc_image_ref : option string;
  rbc_image_digest : option string
}.
Record ModelProdPromotionGateCommand (L : Type) := {
  gc_correlation_id : string;
  gc_runtime_lane : L;
  gc_requested_image_digest : option string;
  gc_promotion_batch_id : option string;
  gc_readiness_projection : option (ModelReadinessProjectionFact L);
  gc_occ_gate_state : EnumOccGateState;
  gc_rollback_target : option string;
  gc_previous_image : option string;
  gc_promotion_class : EnumPromotionClass;
  gc_non_main_lineage : bool;
  gc_requested_by : string;
  gc_promotion_grant : option (ModelProdPromotionGrant L);
  gc_evaluated_at : option datetime;
  gc_prod_health : option (ModelProdHealthFact L)
}.
Record ModelDeployPublishCommand (L : Type) := {
  dp_correlation_id : string;
  dp_scope : EnumRedeployScope;
  dp_git_ref : string;
  dp_runtime_lane : L;
  dp_promotion_batch_id : option string;
  dp_promotion_grant : option (ModelProdPromotionGrant L);
  dp_evaluated_at : option datetime;
  dp_build_source : EnumBuildSource;
  dp_services : list string;
  dp_image_ref : option string;
  dp_image_digest : option string;
  dp_requested_by : string;
  dp_smoke_test : bool;
  dp_rollback_target : string
}.

Module GrantResolution.
Inductive EnumGrantResolution : Type := RESOLVED | ABSENT | EXPIRED | CONSUMED | SELF_GRANTED.
#[export] Instance EnumGrantResolution_eq_dec : EqDecision EnumGrantResolution.
Proof. solve_decision. Defined.
End GrantResolution.
Export (hints) GrantResolution.
Abbreviation EnumGrantResolution := GrantResolution.EnumGrantResolution.

Record ModelProdPromotionGrantResolveCommand := {
  gr_correlation_id : string;
  gr_requested_image_digest : option string;
  gr_promotion_batch_id : option string;
  gr_requested_by : string;
  gr_evaluated_at : datetime
}.
Record ModelGrantProvenance := {
  gp_source_commit_sha : string;
  gp_grant_file_path : string;
  gp_grant_id : option string;
  gp_file_sha256 : string;
  gp_codeowners_match : bool
}.
Record ModelProdPromotionGrantResolvedEvent (L : Type) := {
  ge_correlation_id : string;
  ge_resolution : EnumGrantResolution;
  ge_grant : option (ModelProdPromotionGrant L);
  ge_evaluated_at : datetime;
  ge_provenance : ModelGrantProvenance
}.
Record ModelRuntimeImageBuilt (L : Type) := {
  ib_correlation_id : string;
  ib_digest : string;
  ib_source_sha : string;
  ib_build_source : EnumBuildSource;
  ib_promotion_class : EnumPromotionClass;
  ib_provenance : string;
  ib_runtime_lane : L;
  ib_promotion_batch_id : option string;
  ib_image_ref : option string
}.

(** ** The gate of a lane: [node_prod_promotion_gate_compute] *)

Section evaluate_gate.
Context {L : Type} `{RuntimeLane L}.

(** [x or y] where both may be absent. *)
Definition or_else (x y : option string) : option string := if truthy x then x else y.

Definition gate_inputs (command : ModelProdPromotionGateCommand L) (evaluated_at : datetime)
  : ModelProdPromotionInputs L :=
  {| in_requested_image_digest := gc_requested_image_digest command;
     in_promotion_batch_id := gc_promotion_batch_id command;
     in_readiness_projection := gc_readiness_projection command;
     in_occ_gate_state := gc_occ_gate_state command;
     in_rollback_target := or_else (gc_rollback_target command) (gc_previous_image command);
     in_requested_by := gc_requested_by command;
     in_promotion_grant := gc_promotion_grant command;
     in_promotion_class := gc_promotion_class command;
     in_non_main_lineage := gc_non_main_lineage command;
     in_evaluated_at := evaluated_at |}.

Definition evaluate_gate (command : ModelProdPromotionGateCommand L) : result ModelProdPromotionGateDecision :=
  let rollback_target := or_else (gc_rollback_target command) (gc_previous_image command) in
  if negb (bool_decide (gc_runtime_lane command = PROD)) then
    Ok {| pg_allowed := true; pg_image_digest := gc_requested_image_digest command;
          pg_rollback_target := rollback_target;
          pg_reason := lane_value (gc_runtime_lane command) +:+ " lane is not gated; deploy may proceed" |}
  else if is_candidate (gc_promotion_class command) (gc_non_main_lineage command)
          && negb (authorizes (gc_promotion_grant command)) then
    Ok (blocked rollback_target
          (grant_reason_value CANDIDATE_NOT_AUTHORIZED +:+ ": "
           +:+ candidate_detail (gc_promotion_class command) (gc_non_main_lineage command)))
  else match gc_readiness_projection command with
  | None =>
      let digest_gate := evaluate_prod_digest_gate (L := L) (gc_requested_image_digest command) None in
      Ok {| pg_allowed := dg_allowed digest_gate; pg_image_digest := dg_image_digest digest_gate;
            pg_rollback_target := rollback_target; pg_reason := dg_reason digest_gate |}
  | Some _ =>
      match gc_evaluated_at command with
      | None => Raise (ValueError "prod promotion gate requires a deterministic evaluated_at stamped by the orchestrator/runtime; the compute never calls datetime.now()")
      | Some t => Ok (evaluate_prod_promotion_gate (gate_inputs command t))
      end
  end.
End evaluate_gate.
