(* ===== verification/Redeploy.v ===== *)
(** * Redeploy: the reducer, the grant resolver, the orchestrator, the deploy effect

    [node_redeploy_fsm_reducer] (the phase machine), [grant_resolver.py] of
    [node_prod_promotion_grant_resolver_effect] (what the trust anchor's bytes
    say about a request), [health_resolver.py], [node_redeploy_orchestrator]
    (which command follows which event) and [node_redeploy_deploy_effect]
    (refuse, or publish the rebuild command, wait for the agent, roll back).

    Validation and dumping of models, the YAML parser, the JSON parser and the
    message bus are functions the definitions take as arguments.  Durations,
    log lines, topic keys and consumer groups are left out. *)
From S2P Require Import Prelude Fsm LogMonad Deployment.
#[local] Set Implicit Arguments.

(** ** The phase machine *)

Section fsm.
Context {L : Type} `{RuntimeLane L}.
Implicit Types (state : ModelRedeployState L).

Record ModelRedeployAdvanceCommand := {
  ac_state : ModelRedeployState L;
  ac_phase_success : bool;
  ac_error_message : option string
}.

Definition start_state (command : ModelRedeployCommand L) : ModelRedeployState L :=
  {| rs_correlation_id := rc_correlation_id command; rs_current_phase := RedeployPhase.IDLE;
     rs_versions := rc_versions command; rs_skip_sync := rc_skip_sync command;
     rs_verify_only := rc_verify_only command; rs_dry_run := rc_dry_run command;
     rs_consecutive_failures := 0; rs_max_consecutive_failures := 3; rs_phases_completed := 0;
     rs_error_message := None; rs_runtime_lane := rc_runtime_lane command;
     rs_image_digest := rc_image_digest command; rs_promotion_batch_id := rc_promotion_batch_id command;
     rs_previous_image := None; rs_rolled_back := false |}.

(** [state.model_copy(update=...)] *)
Definition redeploy_copy state (phase : EnumRedeployPhase) (failures completed : nat) (error : option string)
  : ModelRedeployState L :=
  {| rs_correlation_id := rs_correlation_id state; rs_current_phase := phase;
     rs_versions := rs_versions state; rs_skip_sync := rs_skip_sync state;
     rs_verify_only := rs_verify_only state; rs_dry_run := rs_dry_run state;
     rs_consecutive_failures := failures; rs_max_consecutive_failures := rs_max_consecutive_failures state;
     rs_phases_completed := completed; rs_error_message := error;
     rs_runtime_lane := rs_runtime_lane state; rs_image_digest := rs_image_digest state;
     rs_promotion_batch_id := rs_promotion_batch_id state;
     rs_previous_image := rs_previous_image state; rs_rolled_back := rs_rolled_back state |}.

Definition advance state (phase_success : bool) (error_message : option string)
  : result (ModelRedeployState L * ModelRedeployPhaseEvent) :=
  let from_phase := rs_current_phase state in
  let event to_phase ok err :=
    {| pe_correlation_id := rs_correlation_id state; pe_from_phase := from_phase; pe_to_phase := to_phase;
       pe_success := ok; pe_error_message := err |} in
  if decide (from_phase ∈ TERMINAL_PHASES) then
    Raise (ValueError ("Cannot advance from terminal phase: " +:+ redeploy_phase_value from_phase))
  else if negb phase_success then
    let new_failures := rs_consecutive_failures state + 1 in
    if rs_max_consecutive_failures state <=? new_failures then
      let err := py_opt_or error_message
                   ("Circuit breaker: " +:+ pretty (Z.of_nat new_failures) +:+ " consecutive failures") in
      Ok (redeploy_copy state RedeployPhase.FAILED new_failures (rs_phases_completed state) (Some err),
          event RedeployPhase.FAILED false error_message)
    else
      Ok (redeploy_copy state from_phase new_failures (rs_phases_completed state) error_message,
          event from_phase false error_message)
  else
    to_phase ← next_phase from_phase;
    Ok (redeploy_copy state to_phase 0 (rs_phases_completed state + 1) None, event to_phase true None).

Definition make_completed_event state : ModelRedeployCompletedEvent :=
  {| ce_correlation_id := rs_correlation_id state; ce_final_phase := rs_current_phase state;
     ce_phases_completed := rs_phases_completed state; ce_error_message := rs_error_message state |}.

(** [HandlerRedeployFsm.handle]: the one projection it returns. *)
Definition fsm_handle (command : ModelRedeployAdvanceCommand) : result (ModelRedeployState L) :=
  fst <$> advance (ac_state command) (ac_phase_success command) (ac_error_message command).
End fsm.
Arguments ModelRedeployAdvanceCommand : clear implicits.

(** ** The grant resolver *)

(** What [yaml.safe_load] gives.  A sequence, a float or a date says only what
    [str] makes of it where the code asks for no more. *)
Inductive yaml_value : Type :=
  | YNull
  | YBool (b : bool)
  | YInt (n : Z)
  | YStr (s : string)
  | YDatetime (t : datetime)
  | YList (l : list yaml_value)
  | YMap (d : list (string * yaml_value))
  | YOther (text : string).

Fixpoint yaml_get (k : string) (d : list (string * yaml_value)) : option yaml_value :=
  match d with
  | [] => None
  | (k', v) :: d' => if String.eqb k' k then Some v else yaml_get k d'
  end.

Section resolver.
Context {L : Type} `{RuntimeLane L}.
(** [yaml.safe_load], [repr] of a loaded value, [datetime.fromisoformat],
    [UUID(str)] (its text) and the digest of the file's bytes. *)
Context (safe_load : string -> result yaml_value) (yaml_repr : yaml_value -> string)
  (fromisoformat : string -> result datetime) (uuid : string -> result string) (sha256 : string -> string).
Implicit Types (entry : list (string * yaml_value)).

Record ModelGrantResolution := {
  res_outcome : EnumGrantResolution;
  res_grant : option (ModelProdPromotionGrant L);
  res_grant_id : option string
}.

Definition _REQUIRED_ENTRY_FIELDS : list string :=
  ["grant_id"; "runtime_lane"; "image_digest"; "promotion_batch_id"; "approved_by"; "expires_at";
   "created_at"; "reason"].

Definition yaml_str (v : yaml_value) : string :=
  match v with
  | YNull => "None"
  | YBool b => py_repr b
  | YInt n => pretty n
  | YStr s => s
  | YDatetime t => datetime_str t
  | YOther text => text
  | YList _ | YMap _ => yaml_repr v
  end.
(** [str(entry.get(k))] *)
Definition get_str k entry : string := yaml_str (default YNull (yaml_get k entry)).
(** [entry[k]] *)
Definition entry_item k entry : result yaml_value :=
  match yaml_get k entry with Some v => Ok v | None => Raise (KeyError (py_repr k)) end.

(** [s.replace(Z, +00:00)] *)
Fixpoint replace_z (s : string) : string :=
  match s with
  | EmptyString => EmptyString
  | String c s' => (if Ascii.eqb c "Z" then "+00:00" else String c EmptyString) +:+ replace_z s'
  end.

Definition _coerce_datetime (value : yaml_value) : result datetime :=
  match value with
  | YDatetime t => Ok t
  | YStr s => fromisoformat (replace_z s)
  | _ => Raise (TypeError ("grant timestamp must be a datetime or ISO-8601 string; got " +:+ yaml_repr value))
  end.

Definition _is_consumed entry : bool :=
  match yaml_get "consumed" entry with Some (YBool true) => true | _ => false end.

Definition _matches_key entry (requested_image_digest promotion_batch_id : option string) : bool :=
  if negb (String.eqb (get_str "runtime_lane" entry) (lane_value PROD)) then false
  else match requested_image_digest, promotion_batch_id with
       | Some digest, Some batch =>
           String.eqb (get_str "image_digest" entry) digest
           && String.eqb (get_str "promotion_batch_id" entry) batch
       | _, _ => false
       end.

(** An optional item, [None] when absent or null. *)
Definition optional {A} (f : yaml_value -> result A) (o : option yaml_value) : result (option A) :=
  match o with
  | None | Some YNull => Ok None
  | Some v => Some <$> f v
  end.

Definition min_length (field s : string) : result string :=
  if truthy s then Ok s else Raise (ValueError (field +:+ ": String should have at least 1 character")).

Definition _materialize_grant entry : result (ModelProdPromotionGrant L) :=
  grant_id ← (yaml_str <$> entry_item "grant_id" entry);
  lane ← (yaml_str <$> entry_item "runtime_lane" entry);
  approved_lane ← (match lane_of_value lane with
                   | Some l => Ok l
                   | None => Raise (ValueError (py_repr lane +:+ " is not a valid EnumRuntimeLane"))
                   end);
  digest ← (yaml_str <$> entry_item "image_digest" entry);
  batch ← (yaml_str <$> entry_item "promotion_batch_id" entry);
  approved_by ← (yaml_str <$> entry_item "approved_by" entry);
  created ← (entry_item "created_at" entry ≫= _coerce_datetime);
  expires ← (entry_item "expires_at" entry ≫= _coerce_datetime);
  consumed_at ← optional _coerce_datetime (yaml_get "consumed_at" entry);
  consumed_by ← optional (fun v => uuid (yaml_str v)) (yaml_get "consumed_by_correlation_id" entry);
  grant_id ← min_length "grant_id" grant_id;
  digest ← min_length "approved_image_digest" digest;
  batch ← min_length "approved_promotion_batch_id" batch;
  approved_by ← min_length "approved_by" approved_by;
  Ok {| g_grant_id := grant_id; g_approved_lane := approved_lane; g_approved_image_digest := digest;
        g_approved_promotion_batch_id := batch; g_approved_by := approved_by; g_created_at := created;
        g_expires_at := expires; g_consumed_at := consumed_at;
        g_consumed_by_correlation_id := consumed_by; g_authorizes_candidate := false |}.

Definition missing_fields entry : list string :=
  sorted_set (filter (fun k => yaml_get k entry = None) _REQUIRED_ENTRY_FIELDS).

Fixpoint parse_entries_from (index : Z) (entries : list yaml_value) : result (list (list (string * yaml_value))) :=
  match entries with
  | [] => Ok []
  | YMap entry :: entries' =>
      match missing_fields entry with
      | [] => (cons entry) <$> parse_entries_from (index + 1) entries'
      | missing => Raise (ValueError ("grant entry #" +:+ pretty index +:+ " missing required fields: "
                                      +:+ py_repr missing))
      end
  | _ :: _ => Raise (ValueError ("grant entry #" +:+ pretty index +:+ " must be a mapping"))
  end.

(** [raw.strip()] is empty: only the ASCII whitespace of a byte string. *)
Definition bytes_blank (raw : string) : bool :=
  forallb (fun c => let n := nat_of_ascii c in ((9 <=? n) && (n <=? 13)) || (n =? 32)) (String.list_ascii_of_string raw).

Definition _parse_entries (raw : string) : result (list (list (string * yaml_value))) :=
  data ← (if bytes_blank raw then Ok YNull else safe_load raw);
  match data with
  | YNull => Ok []
  | YMap d =>
      match yaml_get "entries" d with
      | None | Some YNull => Raise (ValueError "grant file missing top-level 'entries' key")
      | Some (YList entries) => parse_entries_from 0 entries
      | Some _ => Raise (ValueError "grant file 'entries' must be a list")
      end
  | _ => Raise (ValueError "grant file must be a YAML mapping at the top level")
  end.

Definition not_resolved (outcome : EnumGrantResolution) (grant_id : option string) : ModelGrantResolution :=
  {| res_outcome := outcome; res_grant := None; res_grant_id := grant_id |}.

(** The turn of the loop that finds a matching entry. *)
Definition resolve_entry entry (evaluated_at : datetime) : result ModelGrantResolution :=
  grant_id ← (yaml_str <$> entry_item "grant_id" entry);
  if _is_consumed entry then Ok (not_resolved GrantResolution.CONSUMED (Some grant_id))
  else
    expires ← (entry_item "expires_at" entry ≫= _coerce_datetime);
    if (expires <? evaluated_at)%Z then Ok (not_resolved GrantResolution.EXPIRED (Some grant_id))
    else
      grant ← _materialize_grant entry;
      Ok {| res_outcome := GrantResolution.RESOLVED; res_grant := Some grant; res_grant_id := Some grant_id |}.

Fixpoint resolve_entries (entries : list (list (string * yaml_value)))
    (requested_image_digest promotion_batch_id : option string) (evaluated_at : datetime)
  : result ModelGrantResolution :=
  match entries with
  | [] => Ok (not_resolved GrantResolution.ABSENT None)
  | entry :: entries' =>
      if negb (_matches_key entry requested_image_digest promotion_batch_id)
      then resolve_entries entries' requested_image_digest promotion_batch_id evaluated_at
      else resolve_entry entry evaluated_at
  end.
Definition resolve_grant (raw : string) (requested_image_digest promotion_batch_id : option string)
    (requested_by : string) (evaluated_at : datetime) : result ModelGrantResolution :=
  entries ← _parse_entries raw;
  resolve_entries entries requested_image_digest promotion_batch_id evaluated_at.

(** [prune_expired]: the entries kept (the caller dumps them), the ids dropped,
    whether one was expired. *)
Record ModelPruneResult := {
  pr_kept : list (list (string * yaml_value));
  pr_pruned_grant_ids : list string;
  pr_had_expired : bool
}.
Definition _is_entry_expired entry (evaluated_at : datetime) : result bool :=
  expires ← (entry_item "expires_at" entry ≫= _coerce_datetime);
  Ok (expires <? evaluated_at)%Z.
Definition prune_entry (evaluated_at : datetime) (acc : ModelPruneResult) entry : result ModelPruneResult :=
  expired ← _is_entry_expired entry evaluated_at;
  let had := pr_had_expired acc || expired in
  if expired || _is_consumed entry then
    grant_id ← (yaml_str <$> entry_item "grant_id" entry);
    Ok {| pr_kept := pr_kept acc; pr_pruned_grant_ids := pr_pruned_grant_ids acc ++ [grant_id];
          pr_had_expired := had |}
  else Ok {| pr_kept := pr_kept acc ++ [entry]; pr_pruned_grant_ids := pr_pruned_grant_ids acc;
             pr_had_expired := had |}.
Fixpoint prune_entries (evaluated_at : datetime) (acc : ModelPruneResult)
    (entries : list (list (string * yaml_value))) : result ModelPruneResult :=
  match entries with
  | [] => Ok acc
  | entry :: entries' => acc ← prune_entry evaluated_at acc entry; prune_entries evaluated_at acc entries'
  end.
Definition prune_expired (raw : string) (evaluated_at : datetime) : result ModelPruneResult :=
  entries ← _parse_entries raw;
  prune_entries evaluated_at {| pr_kept := []; pr_pruned_grant_ids := []; pr_had_expired := false |} entries.

(** *** The resolver effect *)

Definition GRANT_FILE_PATH : string := "grants/prod_promotion_grants.yaml".
Record ModelGrantFetch := {
  gf_raw : string;
  gf_source_commit_sha : string;
  gf_codeowners_match : bool
}.
Definition resolver_handle (fetch : result ModelGrantFetch) (command : ModelProdPromotionGrantResolveCommand)
  : result (ModelProdPromotionGrantResolvedEvent L) :=
  fetched ← fetch;
  resolution ← resolve_grant (gf_raw fetched) (gr_requested_image_digest command)
                 (gr_promotion_batch_id command) (gr_requested_by command) (gr_evaluated_at command);
  Ok {| ge_correlation_id := gr_correlation_id command; ge_resolution := res_outcome resolution;
        ge_grant := if decide (res_outcome resolution = GrantResolution.RESOLVED) then res_grant resolution else None;
        ge_evaluated_at := gr_evaluated_at command;
        ge_provenance :=
          {| gp_source_commit_sha := gf_source_commit_sha fetched; gp_grant_file_path := GRANT_FILE_PATH;
             gp_grant_id := res_grant_id resolution; gp_file_sha256 := sha256 (gf_raw fetched);
             gp_codeowners_match := gf_codeowners_match fetched |} |}.
End resolver.
Arguments ModelGrantResolution : clear implicits.

(** ** The health classifier *)

Record ModelProbeResult := {
  pb_reachable : bool;
  pb_status_code : option Z
}.
Definition classify_health (r : ModelProbeResult) : EnumProdHealth :=
  match pb_reachable r, pb_status_code r with
  | true, Some code =>
      if (200 <=? code)%Z && (code <? 300)%Z then Health.HEALTHY else Health.UNHEALTHY
  | _, _ => Health.UNKNOWN
  end.

(** ** The orchestrator *)

Record ModelRedeployStartCommand (L : Type) := {
  st_correlation_id : string;
  st_scope : EnumRedeployScope;
  st_git_ref : string;
  st_runtime_lane : L;
  st_build_source : EnumBuildSource;
  st_services : list string;
  st_image_ref : option string;
  st_image_digest : option string;
  st_promotion_batch_id : option string;
  st_requested_by : string;
  st_smoke_test : bool;
  st_previous_image : string;
  st_readiness_projection : option (ModelReadinessProjectionFact L);
  st_occ_gate_state : EnumOccGateState;
  st_rollback_target : option string;
  st_promotion_grant : option (ModelProdPromotionGrant L);
  st_dry_run : bool
}.

(** What the bus delivers: a model the node knows, a mapping, any other model
    (by its dump), or anything else (by the name of its type). *)
Inductive redeploy_payload (L : Type) : Type :=
  | StartPayload (start : ModelRedeployStartCommand L)
  | RedeployPayload (command : ModelRedeployCommand L)
  | ImageBuiltPayload (built : ModelRuntimeImageBuilt L)
  | MappingPayload (data : list (string * json))
  | ModelPayload (dump : list (string * json))
  | OtherPayload (type_name : string).
Arguments MappingPayload {L}.
Arguments ModelPayload {L}.
Arguments OtherPayload {L}.

(** A command or event the orchestrator publishes. *)
Inductive redeploy_event (L : Type) : Type :=
  | GrantResolve (c : ModelProdPromotionGrantResolveCommand)
  | GateEvaluate (c : ModelProdPromotionGateCommand L)
  | DeployPublish (c : ModelDeployPublishCommand L)
  | RedeployCompleted (e : ModelRedeployCompletedEvent).
Arguments GrantResolve {L}.
Arguments RedeployCompleted {L}.

Record ModelEventEnvelope (P : Type) := {
  env_payload : P;
  env_correlation_id : option string;
  env_event_type : option string
}.

Definition orchestrator_publish_topics : list string :=
  ["onex.cmd.omnimarket.prod-promotion-grant-resolve.v1";
   "onex.cmd.omnimarket.prod-promotion-gate-evaluate.v1";
   "onex.cmd.omnimarket.redeploy-deploy-publish.v1";
   "onex.evt.omnimarket.redeploy-phase-transition.v1";
   "onex.evt.omnimarket.redeploy-completed.v1";
   "onex.cmd.omnimarket.readiness-gate-start.v1"].
Definition _topic_with_suffix (topics : list string) (suffix : string) : result string :=
  match filter (fun t => py_endswith suffix t = true) topics with
  | [t] => Ok t
  | matches => Raise (ValueError ("Contract must declare exactly one topic ending in " +:+ py_repr suffix
                                  +:+ "; found " +:+ py_repr matches))
  end.
Definition topic_of {L} (e : redeploy_event L) : result string :=
  _topic_with_suffix orchestrator_publish_topics
    (match e with
     | GrantResolve _ => "prod-promotion-grant-resolve.v1"
     | GateEvaluate _ => "prod-promotion-gate-evaluate.v1"
     | DeployPublish _ => "redeploy-deploy-publish.v1"
     | RedeployCompleted _ => "redeploy-completed.v1"
     end).

Definition _DRY_RUN_PHASES_SIMULATED : nat := 6.

Section orchestrator.
Context {L : Type} `{RuntimeLane L}.
(** Validation and dumping of the models: [Model.model_validate],
    [model.model_dump]. *)
Record RedeployCodec := {
  validate_start : list (string * json) -> result (ModelRedeployStartCommand L);
  validate_built : list (string * json) -> result (ModelRuntimeImageBuilt L);
  validate_decision : list (string * json) -> result ModelProdPromotionGateDecision;
  validate_gate_command : list (string * json) -> result (ModelProdPromotionGateCommand L);
  validate_resolved : list (string * json) -> result (ModelProdPromotionGrantResolvedEvent L);
  dump_start : ModelRedeployStartCommand L -> list (string * json);
  dump_redeploy : ModelRedeployCommand L -> list (string * json);
  dump_built : ModelRuntimeImageBuilt L -> list (string * json)
}.
Context (codec : RedeployCodec) (now : datetime).
Implicit Types (start : ModelRedeployStartCommand L) (payload : redeploy_payload L).

(** [ModelRedeployStartCommand(correlation_id=...)]: the defaults. *)
Definition new_start (correlation_id : string) (lane : L) (image_ref digest batch rollback : option string)
    (build_source : EnumBuildSource) (requested_by : string) : ModelRedeployStartCommand L :=
  {| st_correlation_id := correlation_id; st_scope := FULL; st_git_ref := "origin/main";
     st_runtime_lane := lane; st_build_source := build_source; st_services := [];
     st_image_ref := image_ref; st_image_digest := digest; st_promotion_batch_id := batch;
     st_requested_by := requested_by; st_smoke_test := false; st_previous_image := DEFAULT_PREVIOUS_IMAGE;
     st_readiness_projection := None; st_occ_gate_state := Occ.PENDING; st_rollback_target := rollback;
     st_promotion_grant := None; st_dry_run := false |}.

Definition dict_setdefault (k : string) (v : json) (d : list (string * json)) : list (string * json) :=
  match dict_get k d with Some _ => d | None => d ++ [(k, v)] end.

(** The dump of a payload that has one. *)
Definition payload_dump payload : option (list (string * json)) :=
  match payload with
  | StartPayload s => Some (dump_start codec s)
  | RedeployPayload c => Some (dump_redeploy codec c)
  | ImageBuiltPayload b => Some (dump_built codec b)
  | ModelPayload d => Some d
  | MappingPayload _ | OtherPayload _ => None
  end.
Definition payload_type payload : string :=
  match payload with OtherPayload t => t | _ => EmptyString end.

Definition _coerce_start payload (correlation_id : string) : result (ModelRedeployStartCommand L) :=
  match payload with
  | StartPayload s => Ok s
  | RedeployPayload c =>
      Ok (new_start (rc_correlation_id c) (rc_runtime_lane c) (rc_image_ref c) (rc_image_digest c)
            (rc_promotion_batch_id c) None RELEASE DEFAULT_REQUESTER)
  | MappingPayload d => validate_start codec (dict_setdefault "correlation_id" (JStr correlation_id) d)
  | _ =>
      match payload_dump payload with
      | Some d => validate_start codec d
      | None => Raise (TypeError ("redeploy-start payload must be ModelRedeployStartCommand or a mapping; got "
                                  +:+ payload_type payload))
      end
  end.

Definition _coerce_image_built payload (correlation_id : string) : result (ModelRuntimeImageBuilt L) :=
  match payload with
  | ImageBuiltPayload b => Ok b
  | MappingPayload d => validate_built codec (dict_setdefault "correlation_id" (JStr correlation_id) d)
  | _ =>
      match payload_dump payload with
      | Some d => validate_built codec d
      | None => Raise (TypeError ("runtime-image-built payload must be ModelRuntimeImageBuilt or a mapping; got "
                                  +:+ payload_type payload))
      end
  end.

Definition _as_mapping payload : option (list (string * json)) :=
  match payload with MappingPayload d => Some d | _ => payload_dump payload end.
Definition _as_dict (candidate : json) : result (list (string * json)) :=
  match candidate with
  | JObj d => Ok d
  | other => Raise (TypeError ("expected a mapping/model; got " +:+ json_type other))
  end.
(** [mapping.get(k)], with a null as absent. *)
Definition get_opt (k : string) (d : list (string * json)) : option json :=
  match dict_get k d with Some JNull | None => None | Some v => Some v end.

Definition _coerce_gate_result payload (correlation_id : string)
  : result (ModelProdPromotionGateDecision * ModelRedeployStartCommand L
            * option (ModelProdPromotionGateCommand L)) :=
  match _as_mapping payload with
  | None => Raise (TypeError ("gate-evaluated payload must be a mapping or model; got " +:+ payload_type payload))
  | Some mapping =>
      raw ← _as_dict (default (JObj mapping) (dict_get "decision" mapping));
      decision ← validate_decision codec raw;
      start ← (match get_opt "start" mapping with
               | Some s => d ← _as_dict s; validate_start codec d
               | None => Ok (new_start correlation_id DEV None (pg_image_digest decision) None
                               (pg_rollback_target decision) RELEASE DEFAULT_REQUESTER)
               end);
      gate_command ← (match get_opt "command" mapping with
                      | Some c => d ← _as_dict c; Some <$> validate_gate_command codec d
                      | None => Ok None
                      end);
      Ok (decision, start, gate_command)
  end.

Definition _coerce_grant_resolved payload (correlation_id : string)
  : result (ModelProdPromotionGrantResolvedEvent L * ModelRedeployStartCommand L) :=
  match _as_mapping payload with
  | None => Raise (TypeError ("grant-resolved payload must be a mapping or model; got " +:+ payload_type payload))
  | Some mapping =>
      raw ← _as_dict (default (JObj mapping) (dict_get "resolved" mapping));
      resolved ← validate_resolved codec raw;
      start ← (match get_opt "start" mapping with
               | Some s => d ← _as_dict s; validate_start codec d
               | None =>
                   Ok (new_start (py_or (ge_correlation_id resolved) correlation_id) PROD None
                         (@g_approved_image_digest L <$> ge_grant resolved)
                         (@g_approved_promotion_batch_id L <$> ge_grant resolved) None RELEASE DEFAULT_REQUESTER)
               end);
      Ok (resolved, start)
  end.

Definition event (correlation_id : string) (e : redeploy_event L)
  : result (list (ModelEventEnvelope (redeploy_event L))) :=
  topic ← topic_of e;
  Ok [{| env_payload := e; env_correlation_id := Some correlation_id; env_event_type := Some topic |}].

Definition _emit_dry_run_completed start : result (list (ModelEventEnvelope (redeploy_event L))) :=
  event (st_correlation_id start)
    (RedeployCompleted
       (if decide (st_runtime_lane start = PROD) then
          {| ce_correlation_id := st_correlation_id start; ce_final_phase := RedeployPhase.BLOCKED;
             ce_phases_completed := 0;
             ce_error_message := Some "dry-run: prod lane requires a live prod-promotion-gate evaluation against an out-of-band-resolved grant; a dry-run cannot resolve that grant, so no promotion is simulated and no gate bypass is possible." |}
        else
          {| ce_correlation_id := st_correlation_id start; ce_final_phase := RedeployPhase.DONE;
             ce_phases_completed := _DRY_RUN_PHASES_SIMULATED; ce_error_message := None |})).

Definition _emit_grant_resolve start : result (list (ModelEventEnvelope (redeploy_event L))) :=
  event (st_correlation_id start)
    (GrantResolve
       {| gr_correlation_id := st_correlation_id start; gr_requested_image_digest := st_image_digest start;
          gr_promotion_batch_id := st_promotion_batch_id start; gr_requested_by := st_requested_by start;
          gr_evaluated_at := now |}).

Definition _emit_gate_evaluate start (grant : option (ModelProdPromotionGrant L)) (evaluated_at : option datetime)
  : result (list (ModelEventEnvelope (redeploy_event L))) :=
  event (st_correlation_id start)
    (GateEvaluate
       {| gc_correlation_id := st_correlation_id start; gc_runtime_lane := st_runtime_lane start;
          gc_requested_image_digest := st_image_digest start; gc_promotion_batch_id := st_promotion_batch_id start;
          gc_readiness_projection := st_readiness_projection start; gc_occ_gate_state := st_occ_gate_state start;
          gc_rollback_target := st_rollback_target start; gc_previous_image := Some (st_previous_image start);
          gc_promotion_class := CLEAN_MAIN; gc_non_main_lineage := false;
          gc_requested_by := st_requested_by start; gc_promotion_grant := grant;
          gc_evaluated_at := evaluated_at; gc_prod_health := None |}).

Definition _on_start payload (correlation_id : string) : result (list (ModelEventEnvelope (redeploy_event L))) :=
  start ← _coerce_start payload correlation_id;
  if st_dry_run start then _emit_dry_run_completed start
  else if decide (st_runtime_lane start = PROD) then _emit_grant_resolve start
  else _emit_gate_evaluate start None None.

Definition _on_grant_resolved payload (correlation_id : string)
  : result (list (ModelEventEnvelope (redeploy_event L))) :=
  rs ← _coerce_grant_resolved payload correlation_id;
  let '(resolved, start) := rs : _ * _ in
  let grant := if decide (ge_resolution resolved = GrantResolution.RESOLVED) then ge_grant resolved else None in
  _emit_gate_evaluate start grant (Some (ge_evaluated_at resolved)).

Definition publish_command start (decision : ModelProdPromotionGateDecision)
    (gate_command : option (ModelProdPromotionGateCommand L)) (correlation_id : string)
  : ModelDeployPublishCommand L :=
  {| dp_correlation_id := correlation_id; dp_scope := st_scope start; dp_git_ref := st_git_ref start;
     dp_runtime_lane := st_runtime_lane start;
     dp_promotion_batch_id :=
       match gate_command with
       | Some c => gc_promotion_batch_id c
       | None => st_promotion_batch_id start
       end;
     dp_promotion_grant := gate_command ≫= @gc_promotion_grant L;
     dp_evaluated_at := gate_command ≫= @gc_evaluated_at L;
     dp_build_source := st_build_source start; dp_services := st_services start;
     dp_image_ref := st_image_ref start;
     dp_image_digest := or_else (pg_image_digest decision) (st_image_digest start);
     dp_requested_by := st_requested_by start; dp_smoke_test := st_smoke_test start;
     dp_rollback_target :=
       py_opt_or (pg_rollback_target decision) (py_opt_or (st_rollback_target start) (st_previous_image start)) |}.

Definition _on_gate_evaluated payload (correlation_id : string)
  : result (list (ModelEventEnvelope (redeploy_event L))) :=
  g ← _coerce_gate_result payload correlation_id;
  let '(decision, start, gate_command) := g : _ * _ * _ in
  if negb (pg_allowed decision) then
    event correlation_id
      (RedeployCompleted {| ce_correlation_id := correlation_id; ce_final_phase := RedeployPhase.BLOCKED;
                            ce_phases_completed := 0; ce_error_message := Some (pg_reason decision) |})
  else event correlation_id (DeployPublish (publish_command start decision gate_command correlation_id)).

Definition image_start (built : ModelRuntimeImageBuilt L) : ModelRedeployStartCommand L :=
  new_start (ib_correlation_id built) (ib_runtime_lane built) (ib_image_ref built) (Some (ib_digest built))
    (ib_promotion_batch_id built) None (ib_build_source built) "node_redeploy_orchestrator[image-built]".
Definition _on_image_built payload (correlation_id : string)
  : result (list (ModelEventEnvelope (redeploy_event L))) :=
  built ← _coerce_image_built payload correlation_id;
  let start := image_start built in
  if decide (st_runtime_lane start = PROD) then _emit_grant_resolve start
  else _emit_gate_evaluate start None None.

(** [handle]; [fresh] is the id drawn when the envelope carries none. *)
Definition orchestrator_handle (fresh : string) (envelope : ModelEventEnvelope (redeploy_payload L))
  : result (list (ModelEventEnvelope (redeploy_event L))) :=
  let event_type := py_opt_or (env_event_type envelope) EmptyString in
  let correlation_id := py_opt_or (env_correlation_id envelope) fresh in
  let payload := env_payload envelope in
  if py_endswith "prod-promotion-grant-resolved.v1" event_type then _on_grant_resolved payload correlation_id
  else if py_endswith "prod-promotion-gate-evaluated.v1" event_type then _on_gate_evaluated payload correlation_id
  else if py_endswith "runtime-image-built.v1" event_type then _on_image_built payload correlation_id
  else _on_start payload correlation_id.
End orchestrator.
Arguments RedeployCodec : clear implicits.

(** ** The deploy effect *)

Record ModelDeployRebuildCompleted (L : Type) := {
  dc_correlation_id : string;
  dc_git_sha : string;
  dc_runtime_lane : option L;
  dc_image_ref : option string;
  dc_image_digest : option string;
  dc_services_restarted : list string;
  dc_phase_results : list (string * string);
  dc_status : EnumRedeployStatus;
  dc_errors : list string;
  dc_health_checks : list ModelHealthCheck
}.
Record ModelRedeployResult (L : Type) := {
  rr_correlation_id : string;
  rr_success : bool;
  rr_status : EnumRedeployStatus;
  rr_git_sha : string;
  rr_runtime_lane : option L;
  rr_image_ref : option string;
  rr_image_digest : option string;
  rr_services_restarted : list string;
  rr_phase_results : list (string * string);
  rr_errors : list string;
  rr_timed_out : bool;
  rr_health_checks : list ModelHealthCheck
}.

(** The value of a bus message: bytes or text to decode, or a decoded value. *)
Inductive message_value : Type := RawMessage (text : string) | DecodedMessage (value : json).

(** What the effect does to the bus. *)
Inductive deploy_effect (L : Type) : Type :=
  | Subscribed
  | Unsubscribed
  | RebuildPublished (c : ModelDeployRebuildCommand L) (signature : option string)
  | RefusalPublished (e : ModelDeployRefusedEvent L)
  | RollbackPublished (e : ModelRedeployRolledBackEvent L).
Arguments Subscribed {L}.
Arguments Unsubscribed {L}.

Inductive effect_event (L : Type) : Type :=
  | DeployRefused (e : ModelDeployRefusedEvent L)
  | RolledBack (e : ModelRedeployRolledBackEvent L).
(** The output of the handler: its events, and its metrics as flags. *)
Record DeployOutput (L : Type) := {
  do_events : list (effect_event L);
  do_rebuild_success : bool;
  do_timed_out : bool;
  do_rolled_back : bool;
  do_deploy_refused : bool
}.

(** *** Completion messages *)

(** [d[k] = v] *)
Fixpoint dict_set (k : string) (v : json) (d : list (string * json)) : list (string * json) :=
  match d with
  | [] => [(k, v)]
  | (k', v') :: d' => if String.eqb k' k then (k, v) :: d' else (k', v') :: dict_set k v d'
  end.
Definition json_is (s : string) (v : json) : bool :=
  match v with JStr t => String.eqb t s | _ => false end.
(** [x or {}], [x or []] *)
Definition or_empty (o : option json) : option json :=
  match o with Some v => if truthy v then Some v else None | None => None end.

Section deploy.
Context {L : Type} `{RuntimeLane L}.
(** [dict(l)] of a list; [json.loads]; the completion model; [s] the HMAC of
    the command's canonical JSON under the secret [s]. *)
Record DeployWorld := {
  dw_dict_of_list : list json -> result (list (string * json));
  dw_json_loads : string -> result json;
  dw_validate_completed : list (string * json) -> result (ModelDeployRebuildCompleted L);
  dw_secret : option string;
  dw_hmac : string -> ModelDeployRebuildCommand L -> string;
  (** the messages the completion topic delivers before the timeout *)
  dw_messages : list (deploy_effect L) -> list message_value;
  (** subscribing, unsubscribing and publishing may raise *)
  dw_bus : list (deploy_effect L) -> deploy_effect L -> result unit;
  dw_timeout_s : string
}.
Context (w : DeployWorld).
Abbreviation Act := (M unit (deploy_effect L)).

(** [dict(x or {})] *)
Definition dict_of (o : option json) : result (list (string * json)) :=
  match or_empty o with
  | None => Ok []
  | Some (JObj d) => Ok d
  | Some (JArr l) => dw_dict_of_list w l
  | Some other => Raise (TypeError (py_repr_str (json_type other) +:+ " object is not iterable"))
  end.
(** [list(x or [])] is not empty *)
Definition nonempty_list (o : option json) : result bool :=
  match or_empty o with
  | None => Ok false
  | Some (JObj _ | JArr _ | JStr _) => Ok true
  | Some other => Raise (TypeError (py_repr_str (json_type other) +:+ " object is not iterable"))
  end.

Definition normal_phase (status : json) (pr : string * json) : string * json :=
  let '(phase, r) := pr in
  (phase, if json_is "in_progress" r then
            JStr (if String.eqb phase "publish" then "success"
                  else if json_is "failed" status then "failed" else "pending")
          else r).

Definition _normalize_completion_payload (payload : list (string * json)) : result (list (string * json)) :=
  phase_results ← dict_of (dict_get "phase_results" payload);
  errors ← nonempty_list (dict_get "errors" payload);
  let non_publish_in_progress :=
    existsb (fun pr => negb (String.eqb pr.1 "publish") && json_is "in_progress" pr.2) phase_results in
  let failed_phase := existsb (fun pr => json_is "failed" pr.2) phase_results in
  let '(status, normalized) :=
    match get_opt "status" payload with
    | Some s => (s, payload)
    | None =>
        let s := JStr (if errors || failed_phase || non_publish_in_progress then "failed" else "success") in
        (s, dict_set "status" s payload)
    end in
  Ok (dict_set "phase_results" (JObj (map (normal_phase status) phase_results)) normalized).

(** [_on_completion] on one message, while the future is not done: what it sets. *)
Definition _on_completion (corr_id : string) (message : message_value)
  : option (ModelDeployRebuildCompleted L) :=
  let outcome :=
    payload ← (match message with RawMessage s => dw_json_loads w s | DecodedMessage v => Ok v end);
    match payload with
    | JObj d =>
        if negb (match dict_get "correlation_id" d with
                 | Some v => json_is corr_id v
                 | None => String.eqb corr_id EmptyString
                 end) then Ok None
        else
          d ← _normalize_completion_payload d;
          Some <$> dw_validate_completed w d
    | other => Raise (TypeError (py_repr_str (json_type other) +:+ " object has no attribute 'get'"))
    end in
  match outcome with Ok o => o | Raise _ => None end.
(** The completion the messages set: the first one accepted. *)
Fixpoint completion (corr_id : string) (messages : list message_value)
  : option (ModelDeployRebuildCompleted L) :=
  match messages with
  | [] => None
  | m :: ms => match _on_completion corr_id m with Some c => Some c | None => completion corr_id ms end
  end.

(** *** The handler *)

Definition _rollback_reason (r : ModelRedeployResult L) (smoke_test : bool) : option string :=
  if rr_timed_out r then Some "deploy agent timed out before completion; rolling back"
  else if negb (rr_success r) then None
  else
    let failing_health := filter (fun hc => hc_pass hc = false) (rr_health_checks r) in
    if truthy failing_health then
      Some ("post-deploy health check failed (" +:+ py_join ", " (map hc_endpoint failing_health)
            +:+ "); rolling back")
    else if smoke_test then Some "post-deploy smoke test failed (no live runtime proof); rolling back"
    else None.

Definition bus (e : deploy_effect L) : Act unit := call e (fun l => dw_bus w l e).

(** [validate_prod_digest] *)
Definition mk_rebuild_command (command : ModelDeployPublishCommand L) : result (ModelDeployRebuildCommand L) :=
  if bool_decide (dp_runtime_lane command = PROD) && negb (truthy (dp_image_digest command)) then
    Raise (ValueError "prod runtime_lane requires image_digest: production deploys the exact stability-proven digest")
  else
    Ok {| rbc_correlation_id := dp_correlation_id command; rbc_requested_by := dp_requested_by command;
          rbc_scope := dp_scope command; rbc_runtime_lane := dp_runtime_lane command;
          rbc_build_source := dp_build_source command; rbc_services := dp_services command;
          rbc_git_ref := dp_git_ref command; rbc_image_ref := dp_image_ref command;
          rbc_image_digest := dp_image_digest command |}.

Definition _sign_envelope (c : ModelDeployRebuildCommand L) : option string :=
  let secret := py_strip (default EmptyString (dw_secret w)) in
  if truthy secret then Some (dw_hmac w secret c) else None.

Definition timed_out_result (corr_id : string) : ModelRedeployResult L :=
  {| rr_correlation_id := corr_id; rr_success := false; rr_status := Redeploy.FAILED;
     rr_git_sha := EmptyString; rr_runtime_lane := None; rr_image_ref := None; rr_image_digest := None;
     rr_services_restarted := []; rr_phase_results := [];
     rr_errors := ["Timed out after " +:+ dw_timeout_s w +:+ "s waiting for deploy agent completion (correlation_id="
                   +:+ corr_id +:+ ")"];
     rr_timed_out := true; rr_health_checks := [] |}.
Definition completed_result (corr_id : string) (c : ModelDeployRebuildCompleted L) : ModelRedeployResult L :=
  {| rr_correlation_id := corr_id; rr_success := bool_decide (dc_status c = Redeploy.SUCCESS);
     rr_status := dc_status c; rr_git_sha := dc_git_sha c; rr_runtime_lane := dc_runtime_lane c;
     rr_image_ref := dc_image_ref c; rr_image_digest := dc_image_digest c;
     rr_services_restarted := dc_services_restarted c; rr_phase_results := dc_phase_results c;
     rr_errors := dc_errors c; rr_timed_out := false; rr_health_checks := dc_health_checks c |}.

Definition publish_and_monitor (command : ModelDeployPublishCommand L) : Act (ModelRedeployResult L) :=
  let corr_id := dp_correlation_id command in
  rebuild_command ← lift (mk_rebuild_command command);
  _ ← bus Subscribed;
  _ ← bus (RebuildPublished rebuild_command (_sign_envelope rebuild_command));
  messages ← ask (dw_messages w);
  _ ← bus Unsubscribed;
  mret (match completion corr_id messages with
        | None => timed_out_result corr_id
        | Some c => completed_result corr_id c
        end).

Definition rollback (command : ModelDeployPublishCommand L) (failure_reason : string)
  : Act (ModelRedeployRolledBackEvent L) :=
  restored ← lift (min_length "restored_image" (dp_rollback_target command));
  let e := {| rb_correlation_id := dp_correlation_id command; rb_runtime_lane := dp_runtime_lane command;
              rb_restored_image := restored; rb_failure_reason := failure_reason;
              rb_failed_phase := RedeployPhase.VERIFY_HEALTH |} in
  _ ← bus (RollbackPublished e);
  mret e.

Definition _refuse (command : ModelDeployPublishCommand L) (refusal : EnumProdGrantReason * string)
  : Act (DeployOutput L) :=
  let e := {| rf_correlation_id := dp_correlation_id command; rf_runtime_lane := dp_runtime_lane command;
              rf_requested_image_digest := dp_image_digest command;
              rf_promotion_batch_id := dp_promotion_batch_id command;
              rf_grant_id := @g_grant_id L <$> dp_promotion_grant command;
              rf_reason := refusal.1; rf_detail := refusal.2 |} in
  _ ← bus (RefusalPublished e);
  mret {| do_events := [DeployRefused e]; do_rebuild_success := false; do_timed_out := false;
          do_rolled_back := false; do_deploy_refused := true |}.

Definition deploy_handle (command : ModelDeployPublishCommand L) : Act (DeployOutput L) :=
  match verify_prod_deploy_grant_binding (dp_runtime_lane command) (dp_image_digest command)
          (dp_promotion_batch_id command) (dp_promotion_grant command) (dp_evaluated_at command) with
  | Some refusal => _refuse command refusal
  | None =>
      result ← publish_and_monitor command;
      let reason := _rollback_reason result (dp_smoke_test command) in
      emitted ← (match reason with
                 | Some r => e ← rollback command r; mret [RolledBack e]
                 | None => mret []
                 end);
      mret {| do_events := emitted; do_rebuild_success := rr_success result;
              do_timed_out := rr_timed_out result;
              do_rolled_back := bool_decide (is_Some reason); do_deploy_refused := false |}
  end.
End deploy.
Arguments DeployWorld : clear implicits.
