(* ===== verification/RedeployProps.v ===== *)
(** * What a redeploy promises

    Properties of [Deployment] and [Redeploy]: the phase machine stops, the
    production gate allows exactly the authorised promotions, the grant
    resolver reads exactly the live entries of the trust anchor, the deploy
    effect publishes nothing unbound, and along the whole chain a production
    rebuild is asked for only under a live grant of the anchor. *)
From S2P Require Import Prelude Fsm LogMonad Deployment Redeploy.

(** ** The phase machine *)

Section machine.
Context {L : Type} `{RuntimeLane L}.
Implicit Types (s : ModelRedeployState L).

(** The phases a deploy has left. *)
Definition deploys_left (p : EnumRedeployPhase) : nat :=
  match p with
  | RedeployPhase.IDLE => 6
  | RedeployPhase.SYNC_CLONES => 5
  | RedeployPhase.UPDATE_PINS => 4
  | RedeployPhase.REBUILD => 3
  | RedeployPhase.SEED_INFISICAL => 2
  | RedeployPhase.VERIFY_HEALTH => 1
  | _ => 0
  end.
Definition redeploy_terminal s : bool := bool_decide (rs_current_phase s ∈ TERMINAL_PHASES).
Definition redeploy_wf s : Prop :=
  redeploy_terminal s = false ->
  rs_consecutive_failures s < rs_max_consecutive_failures s /\ 1 <= deploys_left (rs_current_phase s).

Lemma deploy_next p :
  1 <= deploys_left p ->
  exists p', next_phase p = Ok p' /\ deploys_left p = 1 + deploys_left p'
    /\ (p' ∈ TERMINAL_PHASES <-> deploys_left p' = 0).
Proof.
  intros Hp. destruct p; simpl in Hp; try lia.
  all: eexists; split_and!; [vm_compute; reflexivity|reflexivity|].
  all: unfold TERMINAL_PHASES; simpl; split; intros Hx; first [lia|set_solver].
Qed.

Lemma advance_failure s err :
  redeploy_terminal s = false ->
  exists s' e, advance s false err = Ok (s', e)
    /\ rs_max_consecutive_failures s' = rs_max_consecutive_failures s
    /\ rs_consecutive_failures s' = S (rs_consecutive_failures s)
    /\ rs_phases_completed s' = rs_phases_completed s
    /\ rs_current_phase s' = if rs_max_consecutive_failures s <=? S (rs_consecutive_failures s)
                             then RedeployPhase.FAILED else rs_current_phase s.
Proof.
  intros Ht. apply bool_decide_eq_false in Ht. unfold advance. rewrite decide_False by done.
  rewrite Nat.add_1_r. simpl. destruct (_ <=? _) eqn:E; do 2 eexists; split_and!; reflexivity.
Qed.
Lemma advance_success s err :
  redeploy_terminal s = false -> 1 <= deploys_left (rs_current_phase s) ->
  exists s' e, advance s true err = Ok (s', e)
    /\ rs_max_consecutive_failures s' = rs_max_consecutive_failures s
    /\ rs_consecutive_failures s' = 0
    /\ rs_phases_completed s' = S (rs_phases_completed s)
    /\ deploys_left (rs_current_phase s) = 1 + deploys_left (rs_current_phase s')
    /\ (redeploy_terminal s' = true <-> deploys_left (rs_current_phase s') = 0).
Proof.
  intros Ht Hd. apply bool_decide_eq_false in Ht. unfold advance. rewrite decide_False by done. simpl.
  destruct (deploy_next _ Hd) as (p' & -> & Hl & Hp). simpl. rewrite Nat.add_1_r.
  do 2 eexists. split_and!; [reflexivity..|exact Hl|]. unfold redeploy_terminal. simpl.
  by rewrite bool_decide_eq_true.
Qed.

#[export] Program Instance redeploy_fsm : RetryFsm (ModelRedeployState L) (bool * option string) := {
  rf_advance s i := fst <$> advance s i.1 i.2;
  rf_success := fst;
  rf_terminal := redeploy_terminal;
  rf_failures := @rs_consecutive_failures L;
  rf_max := @rs_max_consecutive_failures L;
  rf_rank s := deploys_left (rs_current_phase s);
  rf_wf := redeploy_wf
}.
Next Obligation.
  intros s i Ht. apply bool_decide_eq_true in Ht. unfold advance. rewrite decide_True by done. eauto.
Qed.
Next Obligation.
  intros s [[] err] Hwf Ht; simpl; destruct (Hwf Ht) as [_ Hd].
  - destruct (advance_success s err Ht Hd) as (s' & e & -> & _). by exists s'.
  - destruct (advance_failure s err Ht) as (s' & e & -> & _). by exists s'.
Qed.
Next Obligation.
  intros s [[] err] s' Hwf Ha; simpl in Ha; destruct (redeploy_terminal s) eqn:Ht.
  1,3: apply bool_decide_eq_true in Ht; unfold advance in Ha; by rewrite decide_True in Ha.
  all: destruct (Hwf Ht) as [Hf Hd].
  - destruct (advance_success s err Ht Hd) as (s1 & e & Heq & Hm & Hc & _ & Hl & Hp). rewrite Heq in Ha.
    injection Ha as <-. split; [|done]. intros Ht'. split; [lia|].
    destruct (deploys_left (rs_current_phase s1)) eqn:E; [|lia].
    rewrite (proj2 Hp) in Ht' by done. done.
  - destruct (advance_failure s err Ht) as (s1 & e & Heq & Hm & Hc & _ & Hp). rewrite Heq in Ha.
    injection Ha as <-. split; [|done]. intros Ht'. rewrite Hm, Hc.
    destruct (_ <=? _) eqn:E; [unfold redeploy_terminal in Ht'; by rewrite Hp in Ht'|].
    apply Nat.leb_gt in E. rewrite Hp. lia.
Qed.
Next Obligation.
  intros s [ok err] s' Hwf Hs Ha; simpl in Hs, Ha; subst ok. destruct (redeploy_terminal s) eqn:Ht.
  { apply bool_decide_eq_true in Ht; unfold advance in Ha; by rewrite decide_True in Ha. }
  destruct (Hwf Ht) as [_ Hd].
  destruct (advance_success s err Ht Hd) as (s1 & e & Heq & _ & Hc & _ & Hl & Hp). rewrite Heq in Ha.
  by injection Ha as <-.
Qed.
Next Obligation.
  intros s [ok err] s' Hwf Hs Ha; simpl in Hs, Ha; subst ok. destruct (redeploy_terminal s) eqn:Ht.
  { apply bool_decide_eq_true in Ht; unfold advance in Ha; by rewrite decide_True in Ha. }
  destruct (advance_failure s err Ht) as (s1 & e & Heq & _ & Hc & _ & Hp). rewrite Heq in Ha.
  injection Ha as <-. split; [done|]. unfold redeploy_terminal in *. rewrite Hp.
  destruct (_ <=? _) eqn:E; [apply Nat.leb_le in E|apply Nat.leb_gt in E].
  - split; [split; intros _; [lia|reflexivity]|intros Hx; discriminate Hx].
  - split; [split; [intros Hx; congruence|lia]|done].
Qed.
Next Obligation. intros s Hwf Ht. exact (Hwf Ht). Qed.

(** What a run keeps: it stays on the deploy's path, and counts its phases. *)
Definition on_path s : Prop :=
  redeploy_wf s
  /\ if decide (rs_current_phase s = RedeployPhase.FAILED) then rs_phases_completed s <= 5
     else (1 <= deploys_left (rs_current_phase s) \/ rs_current_phase s = RedeployPhase.DONE)
          /\ deploys_left (rs_current_phase s) + rs_phases_completed s = 6.

Lemma next_on_path p p' :
  next_phase p = Ok p' -> p' <> RedeployPhase.FAILED
  /\ (1 <= deploys_left p -> 1 <= deploys_left p' \/ p' = RedeployPhase.DONE).
Proof. destruct p; vm_compute; intros [= <-]; (split; [discriminate|]); intros _; first [by right|left; lia]. Qed.

Lemma on_path_step s i s' :
  on_path s -> redeploy_terminal s = false -> fst <$> advance s i.1 i.2 = Ok s' -> on_path s'.
Proof.
  intros [Hwf Hp] Ht Ha. split; [change (rf_wf s) in Hwf; exact (proj1 (rf_preserves s i s' Hwf Ha))|].
  destruct (Hwf Ht) as [Hf Hd]. destruct i as [[] err]; simpl in Ha.
  - rewrite decide_False in Hp by (intros E; rewrite E in Hd; simpl in Hd; lia). destruct Hp as [_ Hp].
    unfold advance in Ha. apply bool_decide_eq_false in Ht. rewrite decide_False in Ha by done. simpl in Ha.
    destruct (deploy_next _ Hd) as (p' & Hn & Hl & _). rewrite Hn in Ha. simpl in Ha. injection Ha as <-. simpl.
    destruct (next_on_path _ _ Hn) as [Hnf Hor]. rewrite decide_False by done. split; [by apply Hor|lia].
  - rewrite decide_False in Hp by (intros E; rewrite E in Hd; simpl in Hd; lia). destruct Hp as [Hor Hp].
    destruct (advance_failure s err Ht) as (s1 & e & Heq & _ & _ & Hc & Hph). rewrite Heq in Ha.
    injection Ha as <-. rewrite Hph, Hc. destruct (_ <=? _).
    + rewrite decide_True by done. lia.
    + rewrite decide_False by (intros E; rewrite E in Hd; simpl in Hd; lia). by split.
Qed.

Lemma start_on_path (command : ModelRedeployCommand L) : on_path (start_state command).
Proof.
  split; [intros _; simpl; lia|]. by split; [left; simpl; lia|].
Qed.

(** A run always returns: the machine raises only in a terminal phase. *)
Lemma redeploy_runs (command : ModelRedeployCommand L) os : is_ok (drive (start_state command) os).
Proof.
  enough (forall s, rf_wf s -> is_ok (drive s os)) as Hr by apply Hr, start_on_path.
  induction os as [|i os IH]; intros s Hwf; cbn [drive]; [by eexists|].
  destruct (rf_terminal s) eqn:Ht; [by eexists|].
  destruct (rf_total s i Hwf Ht) as [s1 Hs1]. rewrite Hs1. cbn. apply IH. by eapply rf_preserves.
Qed.

(** A redeploy always returns and stops: from the start, at most 18 outcomes (three tries for
    each of the six phases) lead to DONE or FAILED; it is DONE exactly when all
    six phases were completed. *)
Theorem redeploy_fsm_stops (command : ModelRedeployCommand L) os :
  exists s, drive (start_state command) os = Ok s
  /\ (rs_current_phase s = RedeployPhase.DONE <-> rs_phases_completed s = 6)
  /\ (18 <= length os -> rs_current_phase s ∈ [RedeployPhase.DONE; RedeployPhase.FAILED]).
Proof.
  destruct (redeploy_runs command os) as [s Hs]. exists s. split; [exact Hs|].
  pose proof (drive_invariant on_path os _ s on_path_step (start_on_path command) Hs) as [_ Hp].
  destruct (decide (rs_current_phase s = RedeployPhase.FAILED)) as [Hf|Hn].
  { rewrite Hf. split; [split; [done|lia]|]. intros _. set_solver. }
  destruct Hp as [Hor Hp]. split.
  - split; intros E; [rewrite E in Hp; simpl in Hp; lia|]. destruct Hor; [lia|done].
  - intros Hl. destruct (drive_terminates os (start_state command)) as (s' & Hs' & Ht & _);
      [apply start_on_path|exact Hl|]. rewrite Hs in Hs'. injection Hs' as <-.
    apply bool_decide_eq_true in Ht. destruct Hor as [Hor| ->]; [|set_solver]. exfalso.
    unfold TERMINAL_PHASES in Ht. revert Ht Hor. destruct (rs_current_phase s); simpl; intros; try lia; set_solver.
Qed.

(** The phases of the verification and rollback segments cannot be advanced:
    the successor is looked up in the deploy sequence. *)
Remark verification_never_advances s err :
  rs_current_phase s ∈ RedeployPhase.ROLLING_BACK :: _VERIFICATION_SEQUENCE ->
  advance s true err = Raise (ValueError "tuple.index(x): x not in tuple").
Proof.
  unfold _VERIFICATION_SEQUENCE, advance. intros Hp.
  repeat (apply elem_of_cons in Hp as [->|Hp]; [by vm_compute|]). by apply not_elem_of_nil in Hp.
Qed.
End machine.

(** ** The production gate *)

Section gate.
Context {L : Type} `{RuntimeLane L}.
Implicit Types (g : ModelProdPromotionGrant L) (c : ModelProdPromotionGateCommand L).

(** A grant that authorises a request at a time. *)
Definition grant_covers g (digest batch : option string) (t : datetime) : Prop :=
  g_approved_lane g = PROD /\ Some (g_approved_image_digest g) = digest
  /\ Some (g_approved_promotion_batch_id g) = batch /\ (t <= g_expires_at g)%Z.

(** A readiness fact that proves a request. *)
Definition proven (p : ModelReadinessProjectionFact L) (digest batch : option string) : Prop :=
  rp_readiness_state p = "READY" /\ Some (rp_image_digest p) = digest /\ Some (rp_promotion_batch_id p) = batch.

(** What a production promotion takes. *)
Definition promotable c : Prop :=
  exists p g t,
    gc_readiness_projection c = Some p /\ proven p (gc_requested_image_digest c) (gc_promotion_batch_id c)
    /\ blank (gc_requested_image_digest c) = false
    /\ gc_occ_gate_state c ∈ [Occ.MERGED; Occ.RECEIPT_GATE_PASS]
    /\ blank (or_else (gc_rollback_target c) (gc_previous_image c)) = false
    /\ gc_evaluated_at c = Some t /\ gc_promotion_grant c = Some g
    /\ grant_covers g (gc_requested_image_digest c) (gc_promotion_batch_id c) t
    /\ (gc_promotion_class c = STABILITY_CANDIDATE \/ gc_non_main_lineage c = true ->
        g_authorizes_candidate g = true).

Lemma grant_block_None (inputs : ModelProdPromotionInputs L) :
  _evaluate_promotion_grant inputs = None <->
  exists g, in_promotion_grant inputs = Some g
    /\ grant_covers g (in_requested_image_digest inputs) (in_promotion_batch_id inputs) (in_evaluated_at inputs).
Proof.
  unfold _evaluate_promotion_grant, grant_covers. destruct (in_promotion_grant inputs) as [g|];
    [|split; [done|by intros (? & ? & _)]].
  split.
  - intros Hn. exists g. by_cases. breflect. split_and!; try done; lia.
  - intros (g' & [= <-] & H1 & H2 & H3 & H4). rewrite !bool_decide_eq_true_2 by done. simpl.
    by rewrite (proj2 (Z.ltb_ge _ _)).
Qed.

Lemma candidate_block (inputs : ModelProdPromotionInputs L) :
  match _evaluate_candidate_lineage inputs with
  | None => is_candidate (in_promotion_class inputs) (in_non_main_lineage inputs) = true ->
            authorizes (in_promotion_grant inputs) = true
  | Some d => pg_allowed d = false
              /\ is_candidate (in_promotion_class inputs) (in_non_main_lineage inputs) = true
              /\ authorizes (in_promotion_grant inputs) = false
  end.
Proof.
  unfold _evaluate_candidate_lineage. destruct (is_candidate _ _); simpl; [|done].
  by destruct (authorizes _) eqn:E; simpl.
Qed.

Lemma digest_gate_allowed digest (r : option (ModelStabilityReadiness L)) :
  dg_allowed (evaluate_prod_digest_gate digest r) = true <->
  blank digest = false /\ exists s, r = Some s /\ sr_ready s = true /\ Some (sr_image_digest s) = digest.
Proof.
  unfold evaluate_prod_digest_gate. destruct (blank digest); [split; [done|by intros [? _]]|].
  destruct r as [s|]; [|split; [done|by intros (_ & ? & ? & _)]].
  split.
  - intros Ha. split; [done|]. exists s. by_cases. by breflect.
  - intros (_ & s' & [= <-] & -> & Hd). simpl. by rewrite bool_decide_eq_true_2.
Qed.
Lemma digest_gate_digest digest (r : option (ModelStabilityReadiness L)) :
  dg_allowed (evaluate_prod_digest_gate digest r) = true ->
  dg_image_digest (evaluate_prod_digest_gate digest r) = digest.
Proof. unfold evaluate_prod_digest_gate, digest_blocked. by_cases. by breflect. Qed.

(** The gate on its inputs: allowed exactly when every check passes, and then
    with the requested digest and the known rollback target. *)
Lemma promotion_gate_allowed (inputs : ModelProdPromotionInputs L) :
  pg_allowed (evaluate_prod_promotion_gate inputs) = true <->
  _evaluate_candidate_lineage inputs = None
  /\ (exists p, in_readiness_projection inputs = Some p
        /\ proven p (in_requested_image_digest inputs) (in_promotion_batch_id inputs))
  /\ blank (in_requested_image_digest inputs) = false
  /\ in_occ_gate_state inputs ∈ _OCC_SATISFIED
  /\ blank (in_rollback_target inputs) = false
  /\ _evaluate_promotion_grant inputs = None.
Proof.
  unfold evaluate_prod_promotion_gate, blocked. pose proof (candidate_block inputs) as Hcand.
  destruct (_evaluate_candidate_lineage inputs) as [d|]; [split; [naive_solver congruence|by intros [? _]]|].
  destruct (in_readiness_projection inputs) as [p|]; [|split; [done|by intros (_ & (? & ? & _) & _)]].
  pose proof (digest_gate_allowed (in_requested_image_digest inputs) (Some (as_stability_readiness p))) as Hd.
  unfold proven. split.
  - intros Ha. split; [done|].
    destruct (bool_decide (Some (rp_promotion_batch_id p) = _)) eqn:Eb; [|done].
    destruct (String.eqb (rp_readiness_state p) "READY") eqn:Er; [|done].
    destruct (dg_allowed _) eqn:Edg; [|done].
    destruct (proj1 Hd eq_refl) as (Hb & s & [= <-] & Hr & Hdig).
    destruct (bool_decide (_ ∈ _OCC_SATISFIED)) eqn:Eo; [|done].
    destruct (blank (in_rollback_target inputs)); [done|].
    apply String.eqb_eq in Er. breflect.
    assert (_evaluate_promotion_grant inputs = None) as ->.
    { simpl in Ha. unfold _evaluate_promotion_grant in *. by_cases. }
    split_and!; try done. by exists p.
  - intros (_ & (p' & [= <-] & Hr & Hdig & Hbatch) & Hb & Ho & Hroll & ->).
    rewrite bool_decide_eq_true_2 by done. rewrite Hr. simpl.
    assert (dg_allowed (evaluate_prod_digest_gate (in_requested_image_digest inputs) (Some (as_stability_readiness p))) = true) as ->.
    { apply Hd. split; [done|]. eexists. split_and!; [reflexivity| |done]. simpl. by rewrite Hr. }
    simpl. rewrite bool_decide_eq_true_2 by done. simpl. by rewrite Hroll.
Qed.

Lemma promotion_gate_carries (inputs : ModelProdPromotionInputs L) :
  pg_allowed (evaluate_prod_promotion_gate inputs) = true ->
  pg_image_digest (evaluate_prod_promotion_gate inputs) = in_requested_image_digest inputs
  /\ pg_rollback_target (evaluate_prod_promotion_gate inputs) = in_rollback_target inputs.
Proof.
  intros Ha. pose proof (proj1 (promotion_gate_allowed inputs) Ha)
    as (Hc & (p & Hp & Hr & Hdig & Hbatch) & Hb & Ho & Hroll & Hg).
  assert (dg_allowed (evaluate_prod_digest_gate (in_requested_image_digest inputs) (Some (as_stability_readiness p))) = true) as Hd.
  { apply digest_gate_allowed. split; [done|]. eexists. split_and!; [reflexivity| |done]. simpl. by rewrite Hr. }
  unfold evaluate_prod_promotion_gate. rewrite Hc, Hp, bool_decide_eq_true_2, Hr, Hd by done. simpl.
  rewrite bool_decide_eq_true_2, Hroll, Hg by done. simpl. split; [|done]. by apply digest_gate_digest.
Qed.

Lemma gate_cases c :
  match evaluate_gate c with
  | Ok d => (pg_allowed d = true <-> gc_runtime_lane c <> PROD \/ promotable c)
            /\ (pg_allowed d = true -> pg_image_digest d = gc_requested_image_digest c)
  | Raise x => gc_runtime_lane c = PROD /\ is_Some (gc_readiness_projection c) /\ gc_evaluated_at c = None
  end.
Proof.
  unfold evaluate_gate. destruct (bool_decide (gc_runtime_lane c = PROD)) eqn:El; breflect; simpl; [|tauto].
  assert (forall d, pg_allowed d = false -> ~ promotable c ->
    (pg_allowed d = true <-> gc_runtime_lane c <> PROD \/ promotable c)
    /\ (pg_allowed d = true -> pg_image_digest d = gc_requested_image_digest c)) as Hno.
  { intros d -> Hn. split; [|done]. split; [done|]. by intros [?|?]. }
  destruct (is_candidate _ _ && _) eqn:Ec; breflect.
  { apply Hno; [done|]. intros (p & g & t & _ & _ & _ & _ & _ & _ & Hg & _ & Hauth).
    unfold is_candidate in *. rewrite Hg in *. simpl in *.
    rewrite Hauth in *; [done|]. apply orb_true_iff in H0 as [?|?]; breflect; tauto. }
  destruct (gc_readiness_projection c) as [p|] eqn:Ep.
  2:{ apply Hno; [|intros (? & ? & ? & ? & _); congruence]. simpl.
      unfold evaluate_prod_digest_gate. by destruct (blank _). }
  destruct (gc_evaluated_at c) as [t|] eqn:Et; [|done].
  split; [|intros Ha; by apply promotion_gate_carries in Ha as [-> _]].
  rewrite promotion_gate_allowed, grant_block_None. simpl. pose proof (candidate_block (gate_inputs c t)) as Hcand.
  split.
  - intros (Hc & (p' & Hp' & Hpr) & Hb & Ho & Hr & (g & Hg & Hcov)). right. rewrite Hc in Hcand. simpl in *.
    exists p', g, t. split_and!; try done. rewrite Hg in Hcand. intros Hx. apply Hcand.
    unfold is_candidate. destruct Hx as [->| ->]; [done|by rewrite orb_true_r].
  - intros [?|(p' & g & t' & Hp' & Hpr & Hb & Ho & Hr & Ht' & Hg & Hcov & Hauth)]; [done|].
    rewrite Ep in Hp'. injection Hp' as <-. rewrite Et in Ht'. injection Ht' as <-.
    split_and!; try done; [|by exists p|by exists g].
    destruct (_evaluate_candidate_lineage _) as [d|] eqn:E; [|done]. exfalso. simpl in Hcand.
    destruct Hcand as (_ & H1 & H2). rewrite Hg in H2. simpl in H2. rewrite Hauth in H2; [done|].
    unfold is_candidate in H1. apply orb_true_iff in H1 as [?|?]; breflect; tauto.
Qed.

(** The production gate fails closed: for the prod lane it allows exactly
    the promotions with a READY readiness fact for the same digest and batch,
    durable OCC evidence, a known rollback target and a grant for the lane,
    digest and batch that has not expired (one that authorises candidates when
    the image is one); it then carries the requested digest.  It raises only
    when a readiness fact comes without an evaluation time.  Other lanes pass. *)
Theorem gate_allows_iff c :
  match evaluate_gate c with
  | Ok d => (pg_allowed d = true <-> gc_runtime_lane c <> PROD \/ promotable c)
            /\ (pg_allowed d = true -> pg_image_digest d = gc_requested_image_digest c)
  | Raise x => gc_runtime_lane c = PROD /\ is_Some (gc_readiness_projection c) /\ gc_evaluated_at c = None
  end.
Proof. exact (gate_cases c). Qed.
End gate.

(** ** The grant resolver *)

Section resolver.
Context {L : Type} `{RuntimeLane L}.
Context (safe_load : string -> result yaml_value) (yaml_repr : yaml_value -> string)
  (fromisoformat : string -> result datetime) (uuid : string -> result string).
Implicit Types (entry : list (string * yaml_value)) (entries : list (list (string * yaml_value))).
Abbreviation entry_expiry entry := (entry_item "expires_at" entry ≫= _coerce_datetime yaml_repr fromisoformat).
Abbreviation resolve := (resolve_entries yaml_repr fromisoformat uuid (L := L)).
Abbreviation prune := (prune_entries yaml_repr fromisoformat).

(** An entry of the anchor that authorises a request at a time. *)
Definition live_entry entry (digest batch : string) (t : datetime) : Prop :=
  get_str yaml_repr "runtime_lane" entry = lane_value (PROD : L)
  /\ get_str yaml_repr "image_digest" entry = digest /\ get_str yaml_repr "promotion_batch_id" entry = batch
  /\ yaml_get "consumed" entry <> Some (YBool true)
  /\ exists expires, entry_expiry entry = Ok expires /\ (t <= expires)%Z.

Lemma matches_key_spec entry digest batch :
  _matches_key (L := L) yaml_repr entry digest batch = true <->
  get_str yaml_repr "runtime_lane" entry = lane_value (PROD : L)
  /\ Some (get_str yaml_repr "image_digest" entry) = digest
  /\ Some (get_str yaml_repr "promotion_batch_id" entry) = batch.
Proof.
  unfold _matches_key. destruct (String.eqb _ (lane_value PROD)) eqn:El; simpl.
  - apply String.eqb_eq in El. destruct digest as [d|], batch as [b|]; [|naive_solver..].
    rewrite andb_true_iff, !String.eqb_eq. naive_solver congruence.
  - apply String.eqb_neq in El. naive_solver.
Qed.

Lemma consumed_spec entry : _is_consumed entry = true <-> yaml_get "consumed" entry = Some (YBool true).
Proof. unfold _is_consumed. split; [by by_cases|by intros ->]. Qed.

(** The grant an entry materializes into carries the entry's own facts. *)
Lemma entry_item_str k entry v : entry_item k entry = Ok v -> get_str yaml_repr k entry = yaml_str yaml_repr v.
Proof. unfold entry_item, get_str. destruct (yaml_get k entry); [by intros [= ->]|done]. Qed.

Lemma bind_ok {A B} (m : result A) (k : A -> result B) b :
  (a ← m; k a) = Ok b -> exists a, m = Ok a /\ k a = Ok b.
Proof. destruct m as [a|]; [|done]. intros Hb. by exists a. Qed.
Lemma fmap_ok {A B} (f : A -> B) (m : result A) b : f <$> m = Ok b -> exists a, m = Ok a /\ b = f a.
Proof. destruct m as [a|]; [|done]. intros [= <-]. by exists a. Qed.
Lemma min_length_ok field s r : min_length field s = Ok r -> r = s.
Proof. unfold min_length. destruct (truthy s); [by intros [= <-]|done]. Qed.

Lemma materialized entry (g : ModelProdPromotionGrant L) :
  _materialize_grant yaml_repr fromisoformat uuid entry = Ok g ->
  lane_value (g_approved_lane g) = get_str yaml_repr "runtime_lane" entry
  /\ g_approved_image_digest g = get_str yaml_repr "image_digest" entry
  /\ g_approved_promotion_batch_id g = get_str yaml_repr "promotion_batch_id" entry
  /\ entry_expiry entry = Ok (g_expires_at g) /\ g_authorizes_candidate g = false.
Proof.
  unfold _materialize_grant. intros Hm.
  repeat (apply bind_ok in Hm as (? & ? & Hm)).
  repeat match goal with Hx : _ <$> _ = Ok _ |- _ => apply fmap_ok in Hx as (? & Hx & ->) end.
  repeat match goal with Hx : min_length _ _ = Ok _ |- _ => apply min_length_ok in Hx as -> end.
  injection Hm as <-. simpl.
  match goal with Hx : match lane_of_value ?v with _ => _ end = _ |- _ =>
    destruct (lane_of_value v) eqn:El; [injection Hx as ->|done] end.
  split_and!; [|symmetry; by apply entry_item_str..|done|done].
  rewrite (lane_value_of _ El). symmetry. by apply entry_item_str.
Qed.

(** [e] is the first entry of the anchor that matches the request. *)
Definition first_match entries (digest batch : option string) entry : Prop :=
  exists pre post, entries = pre ++ entry :: post
    /\ Forall (fun x => _matches_key (L := L) yaml_repr x digest batch = false) pre
    /\ _matches_key (L := L) yaml_repr entry digest batch = true.
Definition no_match entries (digest batch : option string) : Prop :=
  Forall (fun x => _matches_key (L := L) yaml_repr x digest batch = false) entries.

Lemma resolve_first entries digest batch t :
  (no_match entries digest batch /\ resolve entries digest batch t = Ok (not_resolved GrantResolution.ABSENT None))
  \/ exists entry, first_match entries digest batch entry
       /\ resolve entries digest batch t = resolve_entry yaml_repr fromisoformat uuid entry t.
Proof.
  induction entries as [|x entries IH]; simpl; [left; split; [constructor|done]|].
  destruct (_matches_key yaml_repr x digest batch) eqn:E; simpl.
  - right. exists x. split; [|done]. by exists [], entries.
  - destruct IH as [[Hn Hr]|(y & (pre & post & -> & Hpre & Hy) & Hr)].
    + left. by split; [constructor|].
    + right. exists y. split; [|done]. exists (x :: pre), post. by split_and!; [|constructor|].
Qed.

Lemma resolve_entry_spec entry t :
  match resolve_entry (L := L) yaml_repr fromisoformat uuid entry t with
  | Raise _ => True
  | Ok r =>
      (res_outcome r = GrantResolution.CONSUMED /\ res_grant r = None /\ _is_consumed entry = true)
      \/ (_is_consumed entry = false /\ exists expires, entry_expiry entry = Ok expires
          /\ ((res_outcome r = GrantResolution.EXPIRED /\ res_grant r = None /\ (expires < t)%Z)
              \/ exists g, res_outcome r = GrantResolution.RESOLVED /\ res_grant r = Some g /\ (t <= expires)%Z
                   /\ _materialize_grant yaml_repr fromisoformat uuid entry = Ok g))
  end.
Proof.
  unfold resolve_entry. destruct (yaml_str _ <$> _); [|done]. simpl.
  destruct (_is_consumed entry) eqn:Ec; [by left|]. destruct (entry_expiry entry) as [e|]; [|done]. simpl.
  destruct (e <? t)%Z eqn:E; breflect; [right; split; [done|]; exists e; split; [done|]; by left|].
  destruct (_materialize_grant _ _ _ entry) as [g|] eqn:Em; [|done]. simpl.
  right. split; [done|]. exists e. split; [done|]. right. exists g. by split_and!.
Qed.

Lemma materialized_covers entry g digest batch t expires :
  _matches_key (L := L) yaml_repr entry digest batch = true ->
  _materialize_grant yaml_repr fromisoformat uuid entry = Ok g ->
  entry_expiry entry = Ok expires -> (t <= expires)%Z -> grant_covers g digest batch t.
Proof.
  intros Hm Hg He Ht. apply matches_key_spec in Hm as (Hl & Hd & Hb).
  apply materialized in Hg as (Hgl & Hgd & Hgb & Hge & _). rewrite He in Hge. injection Hge as ->.
  unfold grant_covers. rewrite Hgd, Hgb.
  split_and!; try done. rewrite Hl in Hgl. pose proof (lane_of_value_value (g_approved_lane g)) as H1.
  rewrite Hgl, lane_of_value_value in H1. by injection H1.
Qed.

Lemma resolve_grant_cases raw digest batch requested_by t :
  match resolve_grant (L := L) safe_load yaml_repr fromisoformat uuid raw digest batch requested_by t with
  | Raise x =>
      _parse_entries safe_load raw = Raise x
      \/ exists entries entry, _parse_entries safe_load raw = Ok entries /\ first_match entries digest batch entry
           /\ resolve_entry (L := L) yaml_repr fromisoformat uuid entry t = Raise x
  | Ok r =>
      exists entries, _parse_entries safe_load raw = Ok entries
      /\ match res_outcome r with
         | GrantResolution.RESOLVED =>
             exists entry d b g, first_match entries digest batch entry /\ digest = Some d /\ batch = Some b
               /\ live_entry entry d b t /\ res_grant r = Some g /\ grant_covers g digest batch t
               /\ g_authorizes_candidate g = false
         | GrantResolution.CONSUMED =>
             res_grant r = None
             /\ exists entry, first_match entries digest batch entry /\ yaml_get "consumed" entry = Some (YBool true)
         | GrantResolution.EXPIRED =>
             res_grant r = None
             /\ exists entry expires, first_match entries digest batch entry
                  /\ entry_expiry entry = Ok expires /\ (expires < t)%Z
         | GrantResolution.ABSENT => res_grant r = None /\ no_match entries digest batch
         | GrantResolution.SELF_GRANTED => False
         end
  end.
Proof.
  unfold resolve_grant. destruct (_parse_entries safe_load raw) as [entries|x] eqn:Hp; [|by left].
  change (Ok entries ≫= ?k) with (k entries). cbv beta.
  destruct (resolve_first entries digest batch t) as [[Hn ->]|(entry & Hf & ->)]; [by exists entries|].
  pose proof (resolve_entry_spec entry t) as Hs.
  destruct (resolve_entry _ _ _ entry t) as [r|x] eqn:Hr; [|right; by exists entries, entry].
  exists entries. split; [done|].
  destruct Hs as [(-> & Hg & Hc)|(Hc & e & He & [(-> & Hg & Hlt)|(g & -> & Hg & Hle & Hm)])].
  - split; [done|]. exists entry. by rewrite <- consumed_spec.
  - split; [done|]. by exists entry, e.
  - destruct Hf as (pre & post & Hents & Hpre & Hmatch).
    pose proof (materialized_covers _ _ _ _ _ _ Hmatch Hm He Hle) as Hcov.
    apply matches_key_spec in Hmatch as Hk. destruct Hk as (Hl & Hd & Hb).
    exists entry, (get_str yaml_repr "image_digest" entry), (get_str yaml_repr "promotion_batch_id" entry), g.
    split_and!; try done; [by exists pre, post| |by apply materialized in Hm as (_ & _ & _ & _ & ?)].
    split_and!; try done; [rewrite <- consumed_spec; by rewrite Hc|by exists e].
Qed.

(** The resolver reads the trust anchor: the first entry for the prod lane,
    digest and batch of the request decides.  Only an entry that is not marked
    consumed and has not expired resolves, and its grant covers exactly the
    request and never authorises a candidate; a consumed, an expired or no
    entry gives no grant. *)
Theorem resolver_reads_the_anchor raw digest batch requested_by t :
  match resolve_grant (L := L) safe_load yaml_repr fromisoformat uuid raw digest batch requested_by t with
  | Raise x =>
      _parse_entries safe_load raw = Raise x
      \/ exists entries entry, _parse_entries safe_load raw = Ok entries /\ first_match entries digest batch entry
           /\ resolve_entry (L := L) yaml_repr fromisoformat uuid entry t = Raise x
  | Ok r =>
      exists entries, _parse_entries safe_load raw = Ok entries
      /\ match res_outcome r with
         | GrantResolution.RESOLVED =>
             exists entry d b g, first_match entries digest batch entry /\ digest = Some d /\ batch = Some b
               /\ live_entry entry d b t /\ res_grant r = Some g /\ grant_covers g digest batch t
               /\ g_authorizes_candidate g = false
         | GrantResolution.CONSUMED =>
             res_grant r = None
             /\ exists entry, first_match entries digest batch entry /\ yaml_get "consumed" entry = Some (YBool true)
         | GrantResolution.EXPIRED =>
             res_grant r = None
             /\ exists entry expires, first_match entries digest batch entry
                  /\ entry_expiry entry = Ok expires /\ (expires < t)%Z
         | GrantResolution.ABSENT => res_grant r = None /\ no_match entries digest batch
         | GrantResolution.SELF_GRANTED => False
         end
  end.
Proof. exact (resolve_grant_cases raw digest batch requested_by t). Qed.

(** What pruning at a time keeps: entries neither consumed nor expired. *)
Definition unspent (t : datetime) entry : Prop :=
  _is_consumed entry = false /\ exists e, entry_expiry entry = Ok e /\ (t <= e)%Z.
Definition spent (t : datetime) entry : Prop :=
  exists e, entry_expiry entry = Ok e /\ (_is_consumed entry = true \/ (e < t)%Z).

(** The entries split, in order, into the kept and the dropped ones. *)
Inductive prunes (t : datetime) : list (list (string * yaml_value)) -> list (list (string * yaml_value)) -> Prop :=
  | prunes_nil : prunes t [] []
  | prunes_keep entry entries kept : unspent t entry -> prunes t entries kept ->
      prunes t (entry :: entries) (entry :: kept)
  | prunes_drop entry entries kept : spent t entry -> prunes t entries kept -> prunes t (entry :: entries) kept.

Lemma prune_entry_spec t acc entry :
  match prune_entry yaml_repr fromisoformat t acc entry with
  | Raise x => entry_expiry entry = Raise x \/ entry_item "grant_id" entry = Raise x
  | Ok r =>
      (unspent t entry /\ pr_kept r = pr_kept acc ++ [entry] /\ pr_had_expired r = pr_had_expired acc)
      \/ (spent t entry /\ pr_kept r = pr_kept acc
          /\ exists e, entry_expiry entry = Ok e /\ pr_had_expired r = pr_had_expired acc || (e <? t)%Z)
  end.
Proof.
  unfold prune_entry, _is_entry_expired, unspent, spent. destruct (entry_expiry entry) as [e|x]; [|by left].
  simpl. destruct (e <? t)%Z eqn:E; simpl; breflect.
  - destruct (entry_item "grant_id" entry) as [v|x]; simpl; [|by right]. right. split_and!; [eauto|done|].
    exists e. by rewrite (proj2 (Z.ltb_lt _ _)).
  - destruct (_is_consumed entry) eqn:Ec; simpl.
    + destruct (entry_item "grant_id" entry) as [v|x]; simpl; [|by right]. right. split_and!; [eauto|done|].
      exists e. by rewrite (proj2 (Z.ltb_ge _ _)).
    + left. rewrite orb_false_r. split_and!; eauto.
Qed.

Lemma prune_entries_spec t acc entries :
  match prune t acc entries with
  | Raise x => exists entry, entry ∈ entries /\ (entry_expiry entry = Raise x \/ entry_item "grant_id" entry = Raise x)
  | Ok r => exists kept, prunes t entries kept /\ pr_kept r = pr_kept acc ++ kept
             /\ (pr_had_expired r = true <-> pr_had_expired acc = true
                  \/ Exists (fun entry => exists e, entry_expiry entry = Ok e /\ (e < t)%Z) entries)
  end.
Proof.
  revert acc. induction entries as [|entry entries IH]; intros acc; cbn [prune_entries].
  { exists []. split_and!; [constructor|by rewrite app_nil_r|rewrite Exists_nil; tauto]. }
  pose proof (prune_entry_spec t acc entry) as Hs.
  destruct (prune_entry _ _ t acc entry) as [r1|x]; [|exists entry; split; [constructor|done]].
  change (Ok r1 ≫= ?k) with (k r1). cbv beta. specialize (IH r1). destruct (prune t r1 entries) as [r|x].
  2:{ destruct IH as (y & Hy & Hx). exists y. split; [by constructor|done]. }
  destruct IH as (kept & Hp & Hk & Hh).
  destruct Hs as [(Hu & Hk1 & Hh1)|(Hsp & Hk1 & e & He & Hh1)].
  - exists (entry :: kept). split_and!; [by constructor|by rewrite Hk, Hk1, <- app_assoc|].
    rewrite Hh, Hh1, Exists_cons. destruct Hu as (_ & e & He & Hle). split; [tauto|].
    intros [?|[(e' & He' & ?)|?]]; [tauto| |tauto]. rewrite He in He'. injection He' as <-. lia.
  - exists kept. split_and!; [by constructor|by rewrite Hk, Hk1|].
    rewrite Hh, Hh1, Exists_cons, orb_true_iff, Z.ltb_lt. split; [naive_solver|].
    intros [?|[(e' & He' & ?)|?]]; [tauto| |tauto]. rewrite He in He'. injection He' as <-. tauto.
Qed.

Lemma prunes_resolved t entries kept digest batch r :
  prunes t entries kept -> resolve entries digest batch t = Ok r -> res_outcome r = GrantResolution.RESOLVED ->
  resolve kept digest batch t = Ok r.
Proof.
  intros Hp. induction Hp as [|entry entries kept Hu Hp IH|entry entries kept Hsp Hp IH]; intros Hr Ho; simpl in *; [by injection Hr as <-| |].
  - destruct (_matches_key _ _ _ _); simpl in *; [done|by apply IH].
  - destruct (_matches_key _ _ _ _); simpl in *; [|by apply IH]. exfalso.
    destruct Hsp as (e & He & Hsp). pose proof (resolve_entry_spec entry t) as Hs. rewrite Hr in Hs.
    destruct Hs as [(Hx & _)|(Hc & e' & He' & [(Hx & _)|(g & _ & _ & Hle & _)])]; [congruence..|].
    rewrite He in He'. injection He' as <-. destruct Hsp; [congruence|lia].
Qed.
Lemma prunes_live t entries kept digest batch r :
  prunes t entries kept -> resolve kept digest batch t = Ok r ->
  res_outcome r = GrantResolution.RESOLVED \/ res_outcome r = GrantResolution.ABSENT.
Proof.
  intros Hp. induction Hp as [|entry entries kept (Hc & e & He & Hle) Hp IH|entry entries kept Hsp Hp IH];
    intros Hr; simpl in *; [| |by apply IH].
  - injection Hr as <-. by right.
  - destruct (_matches_key _ _ _ _); simpl in *; [|by apply IH].
    pose proof (resolve_entry_spec entry t) as Hs. rewrite Hr in Hs.
    destruct Hs as [(_ & _ & ?)|(_ & e' & He' & [(_ & _ & Hlt)|(g & ? & _)])]; [congruence| |by left].
    rewrite He in He'. injection He' as <-. lia.
Qed.

(** Pruning the anchor drops exactly the consumed and the expired entries,
    in order, and says whether one was expired.  A request that resolved to a
    grant still resolves to the same one; after pruning nothing resolves to a
    consumed or an expired entry.  It raises only where an entry's expiry or id
    cannot be read. *)
Theorem prune_keeps_live_grants entries t :
  match prune t {| pr_kept := []; pr_pruned_grant_ids := []; pr_had_expired := false |} entries with
  | Raise x => exists entry, entry ∈ entries /\ (entry_expiry entry = Raise x \/ entry_item "grant_id" entry = Raise x)
  | Ok r =>
      prunes t entries (pr_kept r)
      /\ (pr_had_expired r = true <-> Exists (fun entry => exists e, entry_expiry entry = Ok e /\ (e < t)%Z) entries)
      /\ forall digest batch,
          (forall o, resolve entries digest batch t = Ok o -> res_outcome o = GrantResolution.RESOLVED ->
             resolve (pr_kept r) digest batch t = Ok o)
          /\ (forall o, resolve (pr_kept r) digest batch t = Ok o ->
             res_outcome o = GrantResolution.RESOLVED \/ res_outcome o = GrantResolution.ABSENT)
  end.
Proof.
  pose proof (prune_entries_spec t {| pr_kept := []; pr_pruned_grant_ids := []; pr_had_expired := false |} entries) as Hs.
  destruct (prune t _ entries) as [r|x]; [|done]. destruct Hs as (kept & Hp & -> & Hh). simpl in *.
  split_and!; [done|rewrite Hh; naive_solver|]. intros digest batch.
  split; [by eauto using prunes_resolved|by eauto using prunes_live].
Qed.
End resolver.

(** ** The deploy effect *)

Section deploy.
Context {L : Type} `{RuntimeLane L} (w : DeployWorld L).
Implicit Types (command : ModelDeployPublishCommand L).
Abbreviation Act := (M unit (deploy_effect L)).

(** A production command bound to a verified grant. *)
Definition bound command : Prop :=
  dp_runtime_lane command = PROD ->
  exists g t, dp_promotion_grant command = Some g /\ dp_evaluated_at command = Some t
    /\ grant_covers g (dp_image_digest command) (dp_promotion_batch_id command) t.

Definition is_rebuild (e : deploy_effect L) : bool := match e with RebuildPublished _ _ => true | _ => false end.
Definition is_refusal (e : deploy_effect L) : bool := match e with RefusalPublished _ => true | _ => false end.

Lemma binding_None command :
  verify_prod_deploy_grant_binding (dp_runtime_lane command) (dp_image_digest command)
    (dp_promotion_batch_id command) (dp_promotion_grant command) (dp_evaluated_at command) = None
  <-> bound command.
Proof.
  unfold verify_prod_deploy_grant_binding, bound, grant_covers.
  destruct (bool_decide (dp_runtime_lane command = PROD)) eqn:El; breflect; simpl; [|tauto].
  destruct (dp_promotion_grant command) as [g|]; [|split; [done|intros Hb; by destruct (Hb El) as (? & ? & ? & _)]].
  split.
  - intros Hv _. exists g. destruct (dp_evaluated_at command) as [t|].
    + exists t. by_cases. breflect. by split_and!.
    + exfalso. by_cases.
  - intros Hb. destruct (Hb El) as (g' & t & [= <-] & -> & H1 & H2 & H3 & H4).
    rewrite !bool_decide_eq_true_2 by done. simpl. by rewrite (proj2 (Z.ltb_ge _ _)).
Qed.

(** The rebuild command of a deploy command. *)
Definition rebuilds command (c : ModelDeployRebuildCommand L) : Prop :=
  rbc_correlation_id c = dp_correlation_id command /\ rbc_runtime_lane c = dp_runtime_lane command
  /\ rbc_image_digest c = dp_image_digest command /\ rbc_git_ref c = dp_git_ref command
  /\ rbc_scope c = dp_scope command /\ rbc_services c = dp_services command.

Lemma mk_rebuild_ok command c : mk_rebuild_command command = Ok c -> rebuilds command c.
Proof. unfold mk_rebuild_command. destruct (_ && _); [done|]. by intros [= <-]. Qed.

Definition monitored command (e : deploy_effect L) : Prop :=
  match e with
  | RebuildPublished c _ => rebuilds command c
  | Subscribed | Unsubscribed => True
  | RefusalPublished _ | RollbackPublished _ => False
  end.
Lemma monitor_emits command :
  returns (S := unit) (monitored command) (publish_and_monitor w command) (fun _ => True).
Proof.
  unfold publish_and_monitor, bus.
  eapply returns_bind; [apply (returns_lift _ _ (fun c => rebuilds command c)); apply mk_rebuild_ok|]. intros c Hc.
  apply emits_returns. emits_auto.
Qed.
Lemma monitor_once command : at_most is_rebuild 1 (S := unit) (publish_and_monitor w command).
Proof.
  unfold publish_and_monitor, bus.
  apply at_most_0_bind; [emits_auto|]. intros c.
  apply at_most_0_bind; [emits_auto|]. intros _.
  apply (at_most_bind_0 (S := unit)); [|intros _; emits_auto].
  intros s. exists [RebuildPublished c (_sign_envelope w c)]. by split.
Qed.

Lemma rollback_emits command r : emits (S := unit) (fun e => exists b, e = RollbackPublished b
  /\ rb_restored_image b = dp_rollback_target command /\ rb_runtime_lane b = dp_runtime_lane command)
  (rollback w command r).
Proof.
  unfold rollback, bus.
  eapply returns_emits, returns_bind; [apply (returns_lift _ _ (fun a => a = dp_rollback_target command)); apply min_length_ok|].
  intros a ->. apply emits_returns. emits_auto. by eexists.
Qed.

(** What a deploy that goes through may publish. *)
Definition deployed command (e : deploy_effect L) : Prop :=
  match e with
  | RebuildPublished c _ => rebuilds command c
  | RollbackPublished b => rb_restored_image b = dp_rollback_target command
                           /\ rb_runtime_lane b = dp_runtime_lane command
  | RefusalPublished _ => False
  | Subscribed | Unsubscribed => True
  end.

Lemma rollback_step command (reason : option string) :
  emits (S := unit) (fun e => is_rebuild e = false /\ deployed command e)
    (match reason with
     | Some r => e ← rollback w command r; mret [RolledBack e]
     | None => mret []
     end).
Proof.
  destruct reason as [r|]; [|emits_auto]. apply emits_bind; [|intros; emits_auto].
  eapply emits_weaken; [apply rollback_emits|]. intros e (b & -> & ? & ?). by split.
Qed.

Lemma deploy_bound_emits command : bound command -> emits (S := unit) (deployed command) (deploy_handle w command).
Proof.
  intros Hb. unfold deploy_handle. rewrite (proj2 (binding_None command) Hb).
  apply emits_bind.
  - eapply emits_weaken; [eapply returns_emits, monitor_emits|]. by intros [].
  - intros r. apply emits_bind; [|intros; emits_auto].
    eapply emits_weaken; [apply rollback_step|]. by intros e [_ ?].
Qed.
Lemma deploy_once command : at_most is_rebuild 1 (S := unit) (deploy_handle w command).
Proof.
  unfold deploy_handle. destruct (verify_prod_deploy_grant_binding _ _ _ _ _) as [refusal|].
  - apply (at_most_weaken _ 0); [|lia]. apply emits_at_most. unfold _refuse, bus. emits_auto.
  - apply (at_most_bind_0 (S := unit)); [apply monitor_once|]. intros r.
    apply emits_bind; [|intros; emits_auto]. eapply emits_weaken; [apply rollback_step|]. by intros e [? _].
Qed.

(** C31. The deploy effect publishes nothing unbound: a command for the prod
    lane whose grant does not cover its lane, digest and batch at its
    evaluation time is answered with one refusal and nothing else; any other
    command leads to no refusal, to at most one rebuild command, for the
    command's own lane, digest and ref, and to a rollback to its target. *)
Theorem deploy_effect_bound command s :
  exists l, (deploy_handle w command s).1.2 = s.2 ++ l
    /\ count is_rebuild l <= 1
    /\ (bound command -> Forall (deployed command) l)
    /\ (~ bound command ->
         exists e, l = [RefusalPublished e] /\ rf_requested_image_digest e = dp_image_digest command
           /\ rf_runtime_lane e = dp_runtime_lane command /\ rf_promotion_batch_id e = dp_promotion_batch_id command).
Proof.
  destruct (deploy_once command s) as (l & Hl & Hc). exists l. split_and!; [done|done| |].
  - intros Hb. destruct (emits_run _ _ s (deploy_bound_emits command Hb)) as (l' & Hl' & HP).
    rewrite Hl in Hl'. by apply app_inv_head in Hl' as ->.
  - intros Hb. destruct (verify_prod_deploy_grant_binding (dp_runtime_lane command) (dp_image_digest command)
      (dp_promotion_batch_id command) (dp_promotion_grant command) (dp_evaluated_at command)) as [refusal|] eqn:Hv.
    2:{ by apply binding_None in Hv. }
    revert Hl. unfold deploy_handle. rewrite Hv. unfold _refuse, bus, call, mbind, M_bind, mret, M_ret. cbn [fst snd].
    destruct (dw_bus w s.2 _); cbn [fst snd]; intros Hl; apply app_inv_head in Hl as <-; by eexists.
Qed.

(** The deploy failed after it went live: the agent never answered, or it
    reported success with a failing health check or under a smoke test. *)
Definition failed_live command (answer : option (ModelDeployRebuildCompleted L)) : Prop :=
  match answer with
  | None => True
  | Some c => dc_status c = Redeploy.SUCCESS
              /\ (Exists (fun hc => hc_pass hc = false) (dc_health_checks c) \/ dp_smoke_test command = true)
  end.
Definition result_of command (answer : option (ModelDeployRebuildCompleted L)) : ModelRedeployResult L :=
  match answer with
  | None => timed_out_result w (dp_correlation_id command)
  | Some c => completed_result (dp_correlation_id command) c
  end.

Lemma failing_checks l :
  truthy (filter (fun hc => hc_pass hc = false) l) = true <-> Exists (fun hc => hc_pass hc = false) l.
Proof.
  induction l as [|x l IH]; [rewrite Exists_nil; done|]. rewrite Exists_cons, filter_cons.
  case_decide; [split; [by left|done]|]. rewrite IH. tauto.
Qed.

Lemma rollback_reason_spec command answer :
  is_Some (_rollback_reason (result_of command answer) (dp_smoke_test command)) <-> failed_live command answer.
Proof.
  unfold _rollback_reason, failed_live. destruct answer as [c|]; simpl; [|by split; eauto].
  destruct (bool_decide (dc_status c = Redeploy.SUCCESS)) eqn:E; breflect; simpl; [|split; [by intros []|tauto]].
  rewrite <- failing_checks. destruct (truthy _); [split; [by eauto|by eexists]|].
  destruct (dp_smoke_test command); (split; [by intros []; eauto|]); [by eexists|]. by intros (_ & [?|?]).
Qed.

(** Where a deploy may raise from. *)
Definition deploy_raises command (x : py_exn) : Prop :=
  mk_rebuild_command command = Raise x \/ dp_rollback_target command = EmptyString
  \/ exists l e, dw_bus w l e = Raise x.

Lemma bus_run e s :
  bus w e s = ((s.1, s.2 ++ [e]), dw_bus w s.2 e).
Proof. reflexivity. Qed.

Lemma monitor_run command s :
  match (publish_and_monitor w command s).2 with
  | Ok r => exists c, mk_rebuild_command command = Ok c
      /\ r = result_of command (completion w (dp_correlation_id command)
               (dw_messages w (s.2 ++ [Subscribed; RebuildPublished c (_sign_envelope w c)])))
  | Raise x => deploy_raises command x
  end.
Proof.
  unfold publish_and_monitor, lift, ask, mbind, M_bind, mret, M_ret, deploy_raises.
  destruct (mk_rebuild_command command) as [c|x]; [|by left].
  rewrite bus_run. destruct (dw_bus w s.2 Subscribed) eqn:E1; [|right; right; by eauto].
  rewrite bus_run. cbn [fst snd].
  destruct (dw_bus w _ (RebuildPublished c _)) eqn:E2; [|right; right; by eauto].
  rewrite bus_run. cbn [fst snd].
  destruct (dw_bus w _ Unsubscribed) eqn:E3; [|right; right; by eauto].
  exists c. split; [done|]. rewrite <- app_assoc. by destruct (completion _ _ _).
Qed.

Lemma rollback_run command r s :
  match (rollback w command r s).2 with Ok _ => True | Raise x => deploy_raises command x end.
Proof.
  unfold rollback, lift, mbind, M_bind, mret, M_ret, min_length, deploy_raises.
  destruct (truthy (dp_rollback_target command)) eqn:E.
  - rewrite bus_run. cbn [fst snd]. destruct (dw_bus w s.2 _) eqn:Eb; [done|right; right; by eauto].
  - right; left. by destruct (dp_rollback_target command).
Qed.

Lemma answer_flags command answer :
  (rr_timed_out (result_of command answer) = true <-> answer = None)
  /\ (rr_success (result_of command answer) = true <-> exists a, answer = Some a /\ dc_status a = Redeploy.SUCCESS).
Proof.
  destruct answer as [a|]; simpl; (split; [by split|]).
  - rewrite bool_decide_eq_true. split; [by exists a|]. by intros (a' & [= <-] & ?).
  - split; [done|]. by intros (a & ? & _).
Qed.

(** A deploy that went through is rolled back exactly when the agent never
    answered in time, or reported success with a failing health check or under
    a smoke test; a deploy the agent reports as failed is not.  The handler
    raises only for a prod command without a digest, an empty rollback target,
    or when the bus raises. *)
Theorem rollback_exactly_when_failed_live command s :
  match (deploy_handle w command s).2 with
  | Ok out =>
      (do_deploy_refused out = true <-> ~ bound command)
      /\ (bound command -> exists c,
           mk_rebuild_command command = Ok c
           /\ let answer := completion w (dp_correlation_id command)
                (dw_messages w (s.2 ++ [Subscribed; RebuildPublished c (_sign_envelope w c)])) in
              (do_rolled_back out = true <-> failed_live command answer)
              /\ (do_timed_out out = true <-> answer = None)
              /\ (do_rebuild_success out = true <-> exists a, answer = Some a /\ dc_status a = Redeploy.SUCCESS))
  | Raise x => deploy_raises command x
  end.
Proof.
  unfold deploy_handle. destruct (verify_prod_deploy_grant_binding _ _ _ _ _) as [refusal|] eqn:Hv.
  - assert (~ bound command) as Hb by (intros Hb; apply binding_None in Hb; congruence).
    unfold _refuse, mbind, M_bind, mret, M_ret. rewrite bus_run.
    destruct (dw_bus w s.2 _) eqn:E; cbn [fst snd]; [|right; right; by eauto]. by split; [|done].
  - apply binding_None in Hv. pose proof (monitor_run command s) as Hm. unfold mbind, M_bind, mret, M_ret.
    destruct (publish_and_monitor w command s) as [s1 [r|x]]; [|done]. cbn [fst snd] in *.
    destruct Hm as (c & Hc & ->). set (answer := completion _ _ _) in *.
    pose proof (rollback_reason_spec command answer) as Hr.
    destruct (_rollback_reason (result_of command answer) (dp_smoke_test command)) as [reason|].
    1: pose proof (rollback_run command reason s1) as Hrun; unfold mbind, M_bind, mret, M_ret in *;
       destruct (rollback w command reason s1) as [s2 [b|x]]; [|done].
    all: cbn [fst snd do_deploy_refused do_rolled_back do_timed_out do_rebuild_success]; split; [by split|].
    all: intros _; exists c; split; [done|]; cbv zeta; rewrite bool_decide_eq_true, Hr; split; [done|].
    all: by apply answer_flags.
Qed.
End deploy.

(** ** The orchestrator, and the chain to a production rebuild *)

Section orchestrator.
Context {L : Type} `{RuntimeLane L} (codec : RedeployCodec L) (now : datetime) (fresh : string).
Implicit Types (start : ModelRedeployStartCommand L) (env : ModelEventEnvelope (redeploy_payload L)).
Abbreviation handle := (orchestrator_handle codec now fresh).

Lemma event_ok cid (e : redeploy_event L) :
  exists topic, event cid e =
    Ok [{| env_payload := e; env_correlation_id := Some cid; env_event_type := Some topic |}].
Proof. unfold event, topic_of. destruct e; vm_compute; by eexists. Qed.

(** One event, and what it says. *)
Definition sends (r : result (list (ModelEventEnvelope (redeploy_event L)))) (Q : redeploy_event L -> Prop)
    (X : py_exn -> Prop) : Prop :=
  match r with
  | Ok out => exists e cid topic,
      out = [{| env_payload := e; env_correlation_id := Some cid; env_event_type := Some topic |}] /\ Q e
  | Raise x => X x
  end.
Lemma sends_event cid e (Q : redeploy_event L -> Prop) X : Q e -> sends (event cid e) Q X.
Proof. intros HQ. destruct (event_ok cid e) as [topic ->]. by exists e, cid, topic. Qed.
Lemma sends_bind {A} (m : result A) k (Q : redeploy_event L -> Prop) (X : py_exn -> Prop) :
  (forall x, m = Raise x -> X x) -> (forall a, m = Ok a -> sends (k a) Q X) -> sends (a ← m; k a) Q X.
Proof. intros HX Hk. destruct m as [a|x]; simpl; [by apply Hk|by apply HX]. Qed.

(** The payload does not decode. *)
Definition undecodable env (x : py_exn) : Prop :=
  let cid := py_opt_or (env_correlation_id env) fresh in
  _coerce_start codec (env_payload env) cid = Raise x
  \/ _coerce_image_built codec (env_payload env) cid = Raise x
  \/ _coerce_grant_resolved codec (env_payload env) cid = Raise x
  \/ _coerce_gate_result codec (env_payload env) cid = Raise x.

(** What each event the orchestrator sends is grounded in. *)
Definition grounded env (e : redeploy_event L) : Prop :=
  let cid := py_opt_or (env_correlation_id env) fresh in
  match e with
  | GrantResolve c => gr_evaluated_at c = now
  | GateEvaluate c =>
      (forall g, gc_promotion_grant c = Some g -> exists resolved start,
         _coerce_grant_resolved codec (env_payload env) cid = Ok (resolved, start)
         /\ ge_resolution resolved = GrantResolution.RESOLVED /\ ge_grant resolved = Some g
         /\ gc_evaluated_at c = Some (ge_evaluated_at resolved))
      /\ gc_promotion_class c = CLEAN_MAIN /\ gc_non_main_lineage c = false /\ gc_prod_health c = None
  | DeployPublish c => exists d start gc,
      _coerce_gate_result codec (env_payload env) cid = Ok (d, start, gc) /\ pg_allowed d = true
      /\ dp_promotion_grant c = gc ≫= @gc_promotion_grant L /\ dp_evaluated_at c = gc ≫= @gc_evaluated_at L
  | RedeployCompleted e =>
      (exists start, _coerce_start codec (env_payload env) cid = Ok start /\ st_dry_run start = true
         /\ (ce_final_phase e = RedeployPhase.DONE <-> st_runtime_lane start <> PROD)
         /\ (ce_final_phase e = RedeployPhase.BLOCKED <-> st_runtime_lane start = PROD))
      \/ (exists d start gc, _coerce_gate_result codec (env_payload env) cid = Ok (d, start, gc)
         /\ pg_allowed d = false /\ ce_final_phase e = RedeployPhase.BLOCKED
         /\ ce_error_message e = Some (pg_reason d))
  end.

(** Every step of the orchestrator sends one event, grounded in what it was
    handed: a grant in a gate command is the one the resolver resolved, never
    the start request's; a deploy is published only under an allowing gate
    decision, with the grant of the echoed gate command; a redeploy is reported
    complete only for a dry run (DONE off the prod lane, BLOCKED on it) or for
    a refused gate.  No gate command carries a candidate class or a health fact. *)
Theorem orchestrator_grounded env :
  sends (handle env) (grounded env) (undecodable env).
Proof.
  unfold orchestrator_handle. set (cid := py_opt_or (env_correlation_id env) fresh).
  assert (forall start X, sends (_emit_gate_evaluate start None None) (grounded env) X) as Hgate.
  { intros start X. apply sends_event. by split_and!. }
  assert (forall start X, sends (_emit_grant_resolve now start) (grounded env) X) as Hresolve.
  { intros start X. by apply sends_event. }
  unfold _on_grant_resolved, _on_gate_evaluated, _on_image_built, _on_start.
  destruct (py_endswith _ _); [|destruct (py_endswith _ _); [|destruct (py_endswith _ _)]].
  - apply sends_bind; [by right; right; left|]. intros [resolved start] Hr.
    apply sends_event. split_and!; try done. intros g Hg. exists resolved, start. simpl in Hg.
    case_decide; [|done]. by split_and!.
  - apply sends_bind; [by right; right; right|]. intros [[d start] gc] Hr.
    destruct (pg_allowed d) eqn:Ha; cbn [negb]; apply sends_event; [by exists d, start, gc|].
    right. by exists d, start, gc.
  - apply sends_bind; [by right; left|]. intros built Hb. destruct (decide _); [apply Hresolve|apply Hgate].
  - apply sends_bind; [by left|]. intros start Hs. destruct (st_dry_run start) eqn:Hd.
    + apply sends_event. left. exists start. case_decide; split_and!; done.
    + destruct (decide _); [apply Hresolve|apply Hgate].
Qed.

(** A gate decision that comes back alone, without the start request, is
    deployed to the dev lane, whatever lane it was taken for. *)
Remark bare_decision_deploys_dev fields d cid :
  dict_get "decision" fields = None -> get_opt "start" fields = None -> get_opt "command" fields = None ->
  validate_decision codec fields = Ok d -> pg_allowed d = true ->
  exists c, _on_gate_evaluated codec (MappingPayload fields) cid = event cid (DeployPublish c)
    /\ dp_runtime_lane c = DEV /\ dp_promotion_grant c = None.
Proof.
  intros H1 H2 H3 H4 H5. unfold _on_gate_evaluated, _coerce_gate_result. simpl. rewrite H1. cbn [default].
  change (_as_dict (JObj fields)) with (Ok fields). simpl. rewrite H4. simpl. rewrite H2, H3. simpl. rewrite H5.
  by eexists.
Qed.

(** A resolution that comes back alone never passes the gate: the request
    rebuilt from it has no readiness fact. *)
Remark bare_resolution_is_refused fields resolved cid :
  dict_get "resolved" fields = None -> get_opt "start" fields = None ->
  validate_resolved codec fields = Ok resolved ->
  exists out c d, _on_grant_resolved codec (MappingPayload fields) cid = Ok out
    /\ map (fun x => env_payload x) out = [GateEvaluate c] /\ evaluate_gate c = Ok d /\ pg_allowed d = false.
Proof.
  intros H1 H2 H3. unfold _on_grant_resolved, _coerce_grant_resolved. simpl. rewrite H1. cbn [default].
  change (_as_dict (JObj fields)) with (Ok fields). simpl. rewrite H3. simpl. rewrite H2. simpl.
  do 3 eexists. split; [reflexivity|]. split; [reflexivity|]. unfold evaluate_gate. simpl. rewrite bool_decide_eq_true_2 by done. simpl.
  split; [reflexivity|]. simpl. unfold evaluate_prod_digest_gate. by destruct (blank _).
Qed.
End orchestrator.

(** ** A production redeploy, end to end *)

Section chain.
Context {L : Type} `{RuntimeLane L} (codec : RedeployCodec L) (now : datetime) (fresh cid : string).
Context (safe_load : string -> result yaml_value) (yaml_repr : yaml_value -> string)
  (fromisoformat : string -> result datetime) (uuid : string -> result string) (sha256 : string -> string).
Implicit Types (start : ModelRedeployStartCommand L).

(** The id the orchestrator works under. *)
Definition run_id : string := py_opt_or (Some cid) fresh.
Definition bus_event (topic : string) (p : redeploy_payload L) : ModelEventEnvelope (redeploy_payload L) :=
  {| env_payload := p; env_correlation_id := Some cid; env_event_type := Some topic |}.
Definition answers (topic : string) (p : redeploy_payload L) (e : redeploy_event L) : Prop :=
  exists out, orchestrator_handle codec now fresh (bus_event topic p) = Ok out /\ e ∈ map (fun x => env_payload x) out.

(** The nodes wired by the bus: each answer is handed to the next node, with
    the start request and the gate command echoed as the orchestrator reads
    them back. *)
Inductive prod_chain start (fetched : ModelGrantFetch) (dp : ModelDeployPublishCommand L) : Prop :=
  | prod_chain_intro rc ev p_resolved gc d p_gate :
      answers "onex.cmd.omnimarket.redeploy-start.v1" (StartPayload start) (GrantResolve rc) ->
      resolver_handle safe_load yaml_repr fromisoformat uuid sha256 (Ok fetched) rc = Ok ev ->
      _coerce_grant_resolved codec p_resolved run_id = Ok (ev, start) ->
      answers "onex.evt.omnimarket.prod-promotion-grant-resolved.v1" p_resolved (GateEvaluate gc) ->
      evaluate_gate gc = Ok d ->
      _coerce_gate_result codec p_gate run_id = Ok (d, start, Some gc) ->
      answers "onex.evt.omnimarket.prod-promotion-gate-evaluated.v1" p_gate (DeployPublish dp) ->
      prod_chain start fetched dp.

(** What a production rebuild of a digest rests on. *)
Definition authorized start (fetched : ModelGrantFetch) (digest : string) : Prop :=
  exists batch entries entry p,
    st_image_digest start = Some digest /\ st_promotion_batch_id start = Some batch
    /\ _parse_entries safe_load (gf_raw fetched) = Ok entries
    /\ first_match (L := L) yaml_repr entries (Some digest) (Some batch) entry
    /\ live_entry (L := L) yaml_repr fromisoformat entry digest batch now
    /\ st_readiness_projection start = Some p /\ proven p (Some digest) (Some batch)
    /\ st_occ_gate_state start ∈ [Occ.MERGED; Occ.RECEIPT_GATE_PASS]
    /\ blank (or_else (st_rollback_target start) (Some (st_previous_image start))) = false.

Lemma one_event topic (e e' : redeploy_event L) id :
  e' ∈ map (fun x => env_payload x) [{| env_payload := e; env_correlation_id := id; env_event_type := topic |}] -> e' = e.
Proof. intros He. by apply list_elem_of_singleton in He. Qed.

Lemma chain_start start rc :
  answers "onex.cmd.omnimarket.redeploy-start.v1" (StartPayload start) (GrantResolve rc) ->
  st_runtime_lane start = PROD /\ gr_requested_image_digest rc = st_image_digest start
  /\ gr_promotion_batch_id rc = st_promotion_batch_id start /\ gr_evaluated_at rc = now.
Proof.
  intros (out & Ho & He). change (_on_start codec now (StartPayload start) run_id = Ok out) in Ho.
  unfold _on_start in Ho. simpl in Ho. destruct (st_dry_run start).
  { unfold _emit_dry_run_completed in Ho. injection Ho as <-. by apply one_event in He. }
  destruct (decide (st_runtime_lane start = PROD)) as [Hl|]; injection Ho as <-; apply one_event in He; [|done].
  injection He as ->. by split_and!.
Qed.

Lemma chain_gate start p ev gc :
  _coerce_grant_resolved codec p run_id = Ok (ev, start) ->
  answers "onex.evt.omnimarket.prod-promotion-grant-resolved.v1" p (GateEvaluate gc) ->
  gc_runtime_lane gc = st_runtime_lane start /\ gc_requested_image_digest gc = st_image_digest start
  /\ gc_promotion_batch_id gc = st_promotion_batch_id start
  /\ gc_readiness_projection gc = st_readiness_projection start
  /\ gc_occ_gate_state gc = st_occ_gate_state start /\ gc_rollback_target gc = st_rollback_target start
  /\ gc_previous_image gc = Some (st_previous_image start)
  /\ (forall g, gc_promotion_grant gc = Some g -> ge_resolution ev = GrantResolution.RESOLVED).
Proof.
  intros Hc (out & Ho & He). change (_on_grant_resolved codec p run_id = Ok out) in Ho.
  unfold _on_grant_resolved in Ho. rewrite Hc in Ho. simpl in Ho. injection Ho as <-.
  apply one_event in He. injection He as ->. simpl. split_and!; try done. intros g. by case_decide.
Qed.

Lemma chain_deploy start p gc d dp :
  _coerce_gate_result codec p run_id = Ok (d, start, Some gc) ->
  answers "onex.evt.omnimarket.prod-promotion-gate-evaluated.v1" p (DeployPublish dp) ->
  pg_allowed d = true /\ dp = publish_command start d (Some gc) run_id.
Proof.
  intros Hc (out & Ho & He). change (_on_gate_evaluated codec p run_id = Ok out) in Ho.
  unfold _on_gate_evaluated in Ho. rewrite Hc in Ho. cbn in Ho.
  destruct (pg_allowed d); simpl in Ho; injection Ho as <-; apply one_event in He; [|done].
  by injection He.
Qed.

Lemma resolver_resolved fetched rc ev :
  resolver_handle (L := L) safe_load yaml_repr fromisoformat uuid sha256 (Ok fetched) rc = Ok ev ->
  ge_resolution ev = GrantResolution.RESOLVED ->
  exists entries entry d b, _parse_entries safe_load (gf_raw fetched) = Ok entries
    /\ first_match (L := L) yaml_repr entries (gr_requested_image_digest rc) (gr_promotion_batch_id rc) entry
    /\ gr_requested_image_digest rc = Some d /\ gr_promotion_batch_id rc = Some b
    /\ live_entry (L := L) yaml_repr fromisoformat entry d b (gr_evaluated_at rc).
Proof.
  unfold resolver_handle. simpl.
  pose proof (resolve_grant_cases safe_load yaml_repr fromisoformat uuid (L := L) (gf_raw fetched)
    (gr_requested_image_digest rc) (gr_promotion_batch_id rc) (gr_requested_by rc) (gr_evaluated_at rc)) as Hs.
  destruct (resolve_grant _ _ _ _ _ _ _ _ _) as [r|]; [|done]. simpl. intros [= <-]. simpl. intros Hr.
  rewrite Hr in Hs. destruct Hs as (entries & He & entry & d & b & g & Hf & Hd & Hb & Hlive & _).
  by exists entries, entry, d, b.
Qed.

(** C2. A production rebuild is asked of the deploy agent only for the digest
    of the start request, and only if the trust anchor's first entry for that
    digest and batch is live at the orchestrator's clock, the readiness fact is
    READY for them, the OCC evidence is durable and a rollback target is known.
    A grant attached to the start request plays no part. *)
Theorem prod_rebuild_authorized start fetched dp w s l c signature :
  prod_chain start fetched dp ->
  (deploy_handle w dp s).1.2 = s.2 ++ l -> RebuildPublished c signature ∈ l ->
  rbc_runtime_lane c = PROD /\ exists digest, rbc_image_digest c = Some digest /\ authorized start fetched digest.
Proof.
  intros [rc ev p1 gc d p2 H1 H2 H3 H4 H5 H6 H7] Hl Hc.
  apply chain_start in H1 as (Hlane & Hrd & Hrb & Hrt).
  destruct (chain_gate _ _ _ _ H3 H4) as (Gl & Gd & Gb & Gp & Go & Gr & Gi & Gg).
  destruct (chain_deploy _ _ _ _ _ H6 H7) as [Hallow ->].
  pose proof (gate_cases gc) as Hgate. rewrite H5 in Hgate. destruct Hgate as [Hiff Hdig].
  destruct (proj1 Hiff Hallow) as [Hn|(p & g & t & Hp & Hpr & Hb & Ho & Hroll & Ht & Hg & Hcov & _)]; [congruence|].
  destruct (resolver_resolved _ _ _ H2 (Gg g Hg)) as (entries & entry & dg & b & He & Hf & Hd & Hbt & Hlive).
  rewrite Hrd in *. rewrite Hrb in *. rewrite Hrt in *. rewrite Gd, Gb, Hd, Hbt in *.
  assert (bound (publish_command start d (Some gc) run_id)) as Hbound.
  { intros _. exists g, t. simpl. rewrite Hdig by done. split_and!; [done..|]. rewrite Gb. simpl.
    destruct Hcov as (? & ? & ? & ?). unfold or_else. destruct dg; [done|]. by split_and!. }
  destruct (emits_run _ _ s (deploy_bound_emits w _ Hbound)) as (l' & Hl' & HP). rewrite Hl in Hl'.
  apply app_inv_head in Hl' as ->. rewrite Forall_forall in HP. apply HP in Hc as (_ & -> & -> & _). simpl.
  split; [done|]. exists dg. rewrite Hdig by done. split; [by destruct dg|].
  exists b, entries, entry, p. by rewrite Hd, Hbt, <- Gp, <- Go, <- Gr, <- Gi.
Qed.
End chain.

(** ** A concrete production redeploy *)

Inductive demo_lane : Type := DevLane | StabilityLane | ProdLane.
#[export] Instance demo_lane_eq_dec : EqDecision demo_lane.
Proof. solve_decision. Defined.
#[export] Program Instance demo_lanes : RuntimeLane demo_lane := {
  DEV := DevLane; STABILITY_TEST := StabilityLane; PROD := ProdLane;
  lane_value l := match l with DevLane => "dev" | StabilityLane => "stability-test" | ProdLane => "prod" end;
  lane_of_value v := if String.eqb v "dev" then Some DevLane
                     else if String.eqb v "stability-test" then Some StabilityLane
                     else if String.eqb v "prod" then Some ProdLane else None
}.
Next Obligation. by intros []. Defined.
Next Obligation.
  intros v l. cbv beta.
  destruct (String.eqb v "dev") eqn:E1; [apply String.eqb_eq in E1 as ->; by intros [= <-]|].
  destruct (String.eqb v "stability-test") eqn:E2; [apply String.eqb_eq in E2 as ->; by intros [= <-]|].
  destruct (String.eqb v "prod") eqn:E3; [apply String.eqb_eq in E3 as ->; by intros [= <-]|discriminate].
Defined.
Next Obligation. discriminate. Defined.

Definition demo_start : ModelRedeployStartCommand demo_lane :=
  {| st_correlation_id := "c1"; st_scope := RUNTIME; st_git_ref := "v2.4.0"; st_runtime_lane := ProdLane;
     st_build_source := RELEASE; st_services := []; st_image_ref := None; st_image_digest := Some "sha256:aa";
     st_promotion_batch_id := Some "b7"; st_requested_by := "release"; st_smoke_test := false;
     st_previous_image := "omninode-runtime:v2.3.1";
     st_readiness_projection := Some {| rp_runtime_lane := StabilityLane; rp_readiness_state := "READY";
                                        rp_image_digest := "sha256:aa"; rp_promotion_batch_id := "b7" |};
     st_occ_gate_state := Occ.MERGED; st_rollback_target := None; st_promotion_grant := None;
     st_dry_run := false |}.
Definition demo_entry (lifecycle : list (string * yaml_value)) : list (string * yaml_value) :=
  [("grant_id", YStr "g1"); ("runtime_lane", YStr "prod"); ("image_digest", YStr "sha256:aa");
   ("promotion_batch_id", YStr "b7"); ("approved_by", YStr "lead"); ("created_at", YDatetime 100);
   ("expires_at", YDatetime 900); ("reason", YStr "release")] ++ lifecycle.
Definition demo_load (lifecycle : list (string * yaml_value)) (_ : string) : result yaml_value :=
  Ok (YMap [("entries", YList [YMap (demo_entry lifecycle)])]).
Definition demo_fetch : ModelGrantFetch :=
  {| gf_raw := "entries"; gf_source_commit_sha := "abc"; gf_codeowners_match := true |}.
Definition demo_repr (_ : yaml_value) : string := "?".
Definition demo_time (_ : string) : result datetime := Raise (ValueError "Invalid isoformat string").
Definition demo_resolve_command : ModelProdPromotionGrantResolveCommand :=
  {| gr_correlation_id := "c1"; gr_requested_image_digest := Some "sha256:aa"; gr_promotion_batch_id := Some "b7";
     gr_requested_by := "release"; gr_evaluated_at := 500 |}.
Definition demo_resolve (lifecycle : list (string * yaml_value))
  : result (ModelProdPromotionGrantResolvedEvent demo_lane) :=
  resolver_handle (demo_load lifecycle) demo_repr demo_time Ok (fun s => s) (Ok demo_fetch) demo_resolve_command.
Definition demo_grant : ModelProdPromotionGrant demo_lane :=
  {| g_grant_id := "g1"; g_approved_lane := ProdLane; g_approved_image_digest := "sha256:aa";
     g_approved_promotion_batch_id := "b7"; g_approved_by := "lead"; g_created_at := 100; g_expires_at := 900;
     g_consumed_at := None; g_consumed_by_correlation_id := None; g_authorizes_candidate := false |}.
Definition demo_resolved : ModelProdPromotionGrantResolvedEvent demo_lane :=
  {| ge_correlation_id := "c1"; ge_resolution := GrantResolution.RESOLVED; ge_grant := Some demo_grant;
     ge_evaluated_at := 500;
     ge_provenance := {| gp_source_commit_sha := "abc"; gp_grant_file_path := GRANT_FILE_PATH;
                         gp_grant_id := Some "g1"; gp_file_sha256 := "entries"; gp_codeowners_match := true |} |}.
Definition demo_gate : ModelProdPromotionGateCommand demo_lane :=
  {| gc_correlation_id := "c1"; gc_runtime_lane := ProdLane; gc_requested_image_digest := Some "sha256:aa";
     gc_promotion_batch_id := Some "b7"; gc_readiness_projection := st_readiness_projection demo_start;
     gc_occ_gate_state := Occ.MERGED; gc_rollback_target := None;
     gc_previous_image := Some "omninode-runtime:v2.3.1"; gc_promotion_class := CLEAN_MAIN;
     gc_non_main_lineage := false; gc_requested_by := "release"; gc_promotion_grant := Some demo_grant;
     gc_evaluated_at := Some 500%Z; gc_prod_health := None |}.
Definition demo_decision : ModelProdPromotionGateDecision :=
  match evaluate_gate demo_gate with Ok d => d | Raise _ => blocked None EmptyString end.
Definition demo_codec : RedeployCodec demo_lane :=
  {| validate_start := fun _ => Ok demo_start; validate_built := fun _ => Raise (ValueError "built");
     validate_decision := fun _ => Ok demo_decision; validate_gate_command := fun _ => Ok demo_gate;
     validate_resolved := fun _ => Ok demo_resolved; dump_start := fun _ => []; dump_redeploy := fun _ => [];
     dump_built := fun _ => [] |}.
Definition demo_publish : ModelDeployPublishCommand demo_lane :=
  publish_command demo_start demo_decision (Some demo_gate) "c1".
Definition demo_completed (ok : bool) : ModelDeployRebuildCompleted demo_lane :=
  {| dc_correlation_id := "c1"; dc_git_sha := "abc"; dc_runtime_lane := None; dc_image_ref := None;
     dc_image_digest := None; dc_services_restarted := []; dc_phase_results := [];
     dc_status := Redeploy.SUCCESS; dc_errors := [];
     dc_health_checks := [{| hc_service := "runtime"; hc_endpoint := "http://r/health"; hc_pass := ok; hc_latency_ms := 3 |}] |}.
Definition demo_world (ok : bool) : DeployWorld demo_lane :=
  {| dw_dict_of_list := fun _ => Ok []; dw_json_loads := fun _ => Raise (ValueError "json");
     dw_validate_completed := fun _ => Ok (demo_completed ok); dw_secret := None; dw_hmac := fun _ _ => EmptyString;
     dw_messages := fun _ => [RawMessage "noise"; DecodedMessage (JObj [("correlation_id", JStr "other")]);
                              DecodedMessage (JObj [("correlation_id", JStr "c1")])];
     dw_bus := fun _ _ => Ok (); dw_timeout_s := "600.0" |}.
Definition demo_payload : redeploy_payload demo_lane :=
  MappingPayload [("resolved", JObj []); ("decision", JObj []); ("start", JObj []); ("command", JObj [])].

Lemma demo_chain :
  prod_chain demo_codec 500 "f" "c1" (demo_load []) demo_repr demo_time Ok (fun s => s)
    demo_start demo_fetch demo_publish.
Proof.
  apply (prod_chain_intro _ _ _ _ _ _ _ _ _ _ _ _ demo_resolve_command demo_resolved demo_payload demo_gate
           demo_decision demo_payload).
  1,4,7: eexists; split; [vm_compute; reflexivity|apply list_elem_of_singleton; vm_compute; reflexivity].
  all: vm_compute; reflexivity.
Defined.

(** The chain does deploy: the rebuild is published, and not rolled back. *)
Example demo_deploys :
  ((fun o => do_rebuild_success o) <$> (deploy_handle (demo_world true) demo_publish (tt, [])).2) = Ok true
  /\ ((fun o => do_rolled_back o) <$> (deploy_handle (demo_world true) demo_publish (tt, [])).2) = Ok false
  /\ ((fun o => do_rolled_back o) <$> (deploy_handle (demo_world false) demo_publish (tt, [])).2) = Ok true.
Proof. vm_compute. by split_and!. Qed.

Definition demo_rebuild : ModelDeployRebuildCommand demo_lane :=
  {| rbc_correlation_id := "c1"; rbc_requested_by := "release"; rbc_scope := RUNTIME;
     rbc_runtime_lane := ProdLane; rbc_build_source := RELEASE; rbc_services := []; rbc_git_ref := "v2.4.0";
     rbc_image_ref := None; rbc_image_digest := Some "sha256:aa" |}.
Lemma prod_rebuild_authorized_witness :
  rbc_runtime_lane demo_rebuild = PROD
  /\ exists digest, rbc_image_digest demo_rebuild = Some digest
      /\ authorized 500 (demo_load []) demo_repr demo_time demo_start demo_fetch digest.
Proof.
  apply (prod_rebuild_authorized demo_codec 500 "f" "c1" (demo_load []) demo_repr demo_time Ok (fun s => s)
    demo_start demo_fetch demo_publish (demo_world true) (tt, [])
    [Subscribed; RebuildPublished demo_rebuild None; Unsubscribed] demo_rebuild None demo_chain).
  - vm_compute. reflexivity.
  - do 2 constructor.
Defined.

(** An entry that carries the time it was consumed at, and no [consumed] mark,
    still resolves: a spent grant is told only by the mark. *)
Remark spent_grant_resolves :
  (fun ev => (ge_resolution ev, @g_consumed_at demo_lane <$> ge_grant ev))
    <$> demo_resolve [("consumed_at", YDatetime 200)] = Ok (GrantResolution.RESOLVED, Some (Some 200%Z)).
Proof. vm_compute. reflexivity. Qed.
Example consumed_grant_refused :
  @ge_resolution demo_lane <$> demo_resolve [("consumed", YBool true)] = Ok GrantResolution.CONSUMED.
Proof. vm_compute. reflexivity. Qed.
