(* ===== verification/DelegationModels.v ===== *)
(** * The records of the delegation nodes

    What the orchestrator ([node_delegation_orchestrator]), the routing reducer
    ([node_delegation_routing_reducer]), the quality gate and the escalation
    decision exchange, and the parsed configuration they read.  The classes that
    [omnibase_core] declares (the wire DTOs) are records of the fields this code
    reads and writes. *)
From S2P Require Import Prelude PyFloat PyJson.

(** ** States and events of the workflow *)

Module WfState.
Inductive EnumDelegationState :=
  | RECEIVED | ROUTED | EXECUTING | INFERENCE_COMPLETED | GATE_EVALUATED | ESCALATING | COMPLETED | FAILED.
End WfState.
Import WfState (EnumDelegationState).

#[export] Instance EnumDelegationState_eq_dec : EqDecision EnumDelegationState.
Proof. solve_decision. Defined.

Definition delegation_state_value (s : EnumDelegationState) : string :=
  match s with
  | WfState.RECEIVED => "RECEIVED"
  | WfState.ROUTED => "ROUTED"
  | WfState.EXECUTING => "EXECUTING"
  | WfState.INFERENCE_COMPLETED => "INFERENCE_COMPLETED"
  | WfState.GATE_EVALUATED => "GATE_EVALUATED"
  | WfState.ESCALATING => "ESCALATING"
  | WfState.COMPLETED => "COMPLETED"
  | WfState.FAILED => "FAILED"
  end.

(** The lifecycle types the code tells apart; the other members are one case. *)
Module Lifecycle.
Inductive EnumAgentTaskLifecycleType :=
  | SUBMITTED | ACCEPTED | PROGRESS | ARTIFACT | COMPLETED | OTHER (member : string).
End Lifecycle.
Import Lifecycle (EnumAgentTaskLifecycleType).

Module FailureClass.
Inductive EnumDelegationFailureClass :=
  | MODEL_UNAVAILABLE | RATE_LIMITED | TIMEOUT | INVALID_JSON | QUALITY_GATE_FAILED
  | CONTEXT_TOO_LARGE | PRICING_UNKNOWN | PROVIDER_AUTH_FAILED | UNKNOWN.
End FailureClass.
Import FailureClass (EnumDelegationFailureClass).

#[export] Instance EnumDelegationFailureClass_eq_dec : EqDecision EnumDelegationFailureClass.
Proof. solve_decision. Defined.

(** ** Requests *)

Record ModelBudgetLimits := {
  bl_max_tokens : Z;
  bl_max_cost_usd : float;
  bl_max_time_s : float
}.

(** [context_pack] and [context_pack_hash] are read with [getattr(.., "") or ""]:
    [None] stands for a missing field. *)
Record ModelDelegationRequest := {
  rq_correlation_id : string;
  rq_task_type : string;
  rq_prompt : string;
  rq_context_pack : option string;
  rq_context_pack_hash : option string;
  rq_output_schema_key : option string;
  rq_compliance_budget : option ModelBudgetLimits;
  rq_quality_contract_mode : string;
  rq_acceptance_criteria : list string;
  rq_tenant_id : option string
}.

Record ModelInvocationCommand := {
  ic_correlation_id : string;
  ic_target_ref : string
}.

(** ** Routing: the tiers, the backends, the decision *)

Inductive EnumTierCostType := FREE_LOCAL | METERED | BUDGETED.
#[export] Instance EnumTierCostType_eq_dec : EqDecision EnumTierCostType.
Proof. solve_decision. Defined.

Record ModelTierCost := {
  tc_cost_type : EnumTierCostType;
  tc_rate_per_1k_usd : float;
  tc_monthly_cap_usd : option float;
  tc_overage_rate_per_1k_usd : float
}.

Record ModelTierModel := {
  tm_id : string;
  tm_backend_ref : string;
  tm_max_context_tokens : Z;
  tm_use_for : list string;
  tm_fast_path_threshold_tokens : option Z
}.

Record ModelRoutingTier := {
  rt_name : string;
  rt_models : list ModelTierModel;
  rt_eval_before_accept : bool;
  rt_eval_model : option string;
  rt_max_retries : Z;
  rt_cost_per_1k_tokens : float;
  rt_cost : option ModelTierCost
}.

Record BifrostBackendRef := {
  bb_endpoint_url : string;
  bb_model_name : string;
  bb_timeout_ms : Z;
  bb_max_tokens : Z;
  bb_api_key_ref : option string;
  bb_extra_headers : option (list (string * string));
  bb_api_key_env : option string
}.

Record ModelRoutingIntent := {
  ri_payload : ModelDelegationRequest;
  ri_min_tier_name : option string;
  ri_excluded_backend_refs : list string
}.

Record ModelRoutingDecision := {
  rd_correlation_id : string;
  rd_task_type : string;
  rd_selected_model : string;
  rd_selected_backend_id : string;
  rd_endpoint_url : string;
  rd_api_key_ref : option string;
  rd_extra_headers : option (list (string * string));
  rd_cost_tier : string;
  rd_max_context_tokens : Z;
  rd_timeout_ms : Z;
  rd_max_tokens : Z;
  rd_system_prompt : string;
  rd_rationale : string;
  rd_dod_deterministic : list string;
  rd_dod_heuristic : list string;
  rd_tier_name : string;
  rd_selected_backend_ref : string
}.

(** ** Inference and the quality gate *)

(** [provider_request_options] and [tenant_id] are set only when the class has
    the field: [None] leaves the field to its default. *)
Record ModelInferenceIntent := {
  ii_base_url : string;
  ii_model : string;
  ii_system_prompt : string;
  ii_prompt : string;
  ii_max_tokens : Z;
  ii_temperature : float;
  ii_timeout_seconds : float;
  ii_correlation_id : string;
  ii_api_key_ref : option string;
  ii_extra_headers : option (list (string * string));
  ii_provider_request_options : option Obj;
  ii_tenant_id : option (option string)
}.

Record ModelInferenceResponseData := {
  ir_correlation_id : string;
  ir_content : string;
  ir_model_used : string;
  ir_llm_call_id : string;
  ir_latency_ms : Z;
  ir_prompt_tokens : Z;
  ir_completion_tokens : Z;
  ir_total_tokens : Z;
  ir_error_message : string;
  ir_tenant_id : option string
}.

Inductive EnumQualityGateCategory := GatePass | GateFailDeterministic | GateFailHeuristic.
#[export] Instance EnumQualityGateCategory_eq_dec : EqDecision EnumQualityGateCategory.
Proof. solve_decision. Defined.
Definition gate_category_value (c : EnumQualityGateCategory) : string :=
  match c with
  | GatePass => "pass"
  | GateFailDeterministic => "fail_deterministic"
  | GateFailHeuristic => "fail_heuristic"
  end.

Record ModelQualityGateInput := {
  gi_correlation_id : string;
  gi_task_type : string;
  gi_llm_response_content : string;
  gi_expected_markers : list string;
  gi_min_response_length : Z;
  gi_dod_deterministic : list string;
  gi_dod_heuristic : list string;
  gi_quality_contract_mode : string;
  gi_acceptance_criteria : list string
}.

Record ModelQualityGateResult := {
  gr_correlation_id : string;
  gr_passed : bool;
  gr_fail_category : EnumQualityGateCategory;
  gr_quality_score : float;
  gr_failure_reasons : list string;
  gr_fallback_recommended : bool;
  gr_score_source : string
}.

Definition SCORE_SOURCE_DETERMINISTIC_ACCEPTANCE : string := "deterministic_acceptance".
Definition SCORE_SOURCE_COMBINED : string := "combined".

(** A remote agent's event; [artifact] holds the plain values. *)
Record ModelAgentTaskLifecycleEvent := {
  le_correlation_id : string;
  le_lifecycle_type : EnumAgentTaskLifecycleType;
  le_error : option string;
  le_artifact : option Obj;
  le_remote_task_handle : option string
}.

(** ** What the orchestrator reports *)

Record ModelDelegationEscalationAttempt := {
  ea_tier_name : string;
  ea_model_used : string;
  ea_quality_score : float;
  ea_required_bar : option float;
  ea_actual_score : option float;
  ea_authority_source : option string;
  ea_score_source : option string;
  ea_failure_reasons : list string;
  ea_prompt_tokens : Z;
  ea_completion_tokens : Z;
  ea_cost_usd : float;
  ea_latency_ms : Z;
  ea_fallback_recommended : bool;
  ea_attempted_at : datetime;
  ea_routing_decision_id : option string
}.
#[export] Instance eta_ModelDelegationEscalationAttempt : Eta ModelDelegationEscalationAttempt := fun a => {|
  ea_tier_name := ea_tier_name a; ea_model_used := ea_model_used a; ea_quality_score := ea_quality_score a;
  ea_required_bar := ea_required_bar a; ea_actual_score := ea_actual_score a;
  ea_authority_source := ea_authority_source a; ea_score_source := ea_score_source a;
  ea_failure_reasons := ea_failure_reasons a; ea_prompt_tokens := ea_prompt_tokens a;
  ea_completion_tokens := ea_completion_tokens a; ea_cost_usd := ea_cost_usd a; ea_latency_ms := ea_latency_ms a;
  ea_fallback_recommended := ea_fallback_recommended a; ea_attempted_at := ea_attempted_at a;
  ea_routing_decision_id := ea_routing_decision_id a |}.

Record ModelLlmDelegationEscalationTriggeredEvent := {
  ee_correlation_id : string;
  ee_causation_id : string;
  ee_request_id : string;
  ee_task_type : string;
  ee_task_id : option string;
  ee_model_id : string;
  ee_attempt_number : Z;
  ee_failure_class : EnumDelegationFailureClass;
  ee_escalation_reason : string;
  ee_next_model_id : option string;
  ee_created_at : datetime
}.

(** The canonical terminal; the class ([Completed] or [Failed]) is the message. *)
Record ModelDelegationResult := {
  dr_correlation_id : string;
  dr_task_type : string;
  dr_model_used : string;
  dr_endpoint_url : string;
  dr_content : string;
  dr_quality_passed : bool;
  dr_quality_score : float;
  dr_latency_ms : Z;
  dr_prompt_tokens : Z;
  dr_completion_tokens : Z;
  dr_total_tokens : Z;
  dr_fallback_to_claude : bool;
  dr_failure_reason : string;
  dr_tokens_to_compliance : Z;
  dr_compliance_attempts : Z;
  dr_escalation_count : Z;
  dr_escalation_history : list ModelDelegationEscalationAttempt;
  dr_terminal_failure_reason : option string;
  dr_routing_tiers_hash : option string;
  dr_escalation_config_hash : option string;
  dr_attempts_count : Z;
  dr_cumulative_attempt_cost : float;
  dr_cumulative_input_tokens : Z;
  dr_cumulative_output_tokens : Z;
  dr_final_attempt_cost : float;
  dr_context_pack_hash : string;
  dr_cost_tier_name : string;
  dr_tenant_id : option string
}.

(** The typed input of [handle], one constructor per declared event model, and
    what the per-step handlers return. *)
Inductive DelegationWorkflowInput :=
  | InRequest (request : ModelDelegationRequest)
  | InInvocation (command : ModelInvocationCommand)
  | InDecision (decision : ModelRoutingDecision)
  | InResponse (response : ModelInferenceResponseData)
  | InGate (gate : ModelQualityGateResult)
  | InLifecycle (event : ModelAgentTaskLifecycleEvent)
  | InOther (type_name : string).

Inductive DelegationOutput :=
  | OutRouting (intent : ModelRoutingIntent)
  | OutInvocation (command : ModelInvocationCommand)
  | OutInference (intent : ModelInferenceIntent)
  | OutGate (payload : ModelQualityGateInput)
  | OutEscalation (event : ModelLlmDelegationEscalationTriggeredEvent)
  | OutCompleted (r : ModelDelegationResult)
  | OutFailed (r : ModelDelegationResult).
