(* ===== verification/DelegationPricing.v ===== *)
(** * Pricing a delegated task

    [pricing.py]: the cost of the tokens a tier served under its typed cost
    model, the premium counterfactual, and the saving.  The tier registry
    ([_load_routing_config]) is a list of tiers; the price of the premium model
    comes from the manifest of another package, as an optional entry. *)
From S2P Require Import Prelude PyFloat DelegationModels.

#[local] Open Scope Z_scope.

(** A field declared [ge=0.0] refuses negative values and nans. *)
Definition ge_zero (field : string) (x : float) : result float :=
  if fge x fzero then Ok x
  else Raise (ValueError (field +:+ ": Input should be greater than or equal to 0")).

Record ModelTierCostResult := {
  cost_cash_cost_usd : float;
  cost_headroom_consumed_usd : float;
  cost_measurement_source : string
}.
Definition mk_tier_cost_result (cash headroom : float) (source : string) : result ModelTierCostResult :=
  cash ← ge_zero "cash_cost_usd" cash;
  headroom ← ge_zero "headroom_consumed_usd" headroom;
  Ok {| cost_cash_cost_usd := cash; cost_headroom_consumed_usd := headroom; cost_measurement_source := source |}.

(** [round(rate * tokens / 1000.0, 10)] *)
Definition rate_cost (rate : float) (tokens : Z) : result float :=
  x ← fdiv (rate * float_of_Z tokens)%float (float_of_Z 1000); Ok (py_round x 10).

Definition compute_tier_cost_usd (cost : option ModelTierCost) (prompt_tokens completion_tokens : Z)
    (remaining_budget_usd : option float) : result ModelTierCostResult :=
  match cost with
  | None => mk_tier_cost_result fzero fzero "no_cost_model"
  | Some cost =>
      let total_tokens := prompt_tokens + completion_tokens in
      match tc_cost_type cost with
      | FREE_LOCAL => mk_tier_cost_result fzero fzero "free_local"
      | METERED =>
          cash ← rate_cost (tc_rate_per_1k_usd cost) total_tokens;
          mk_tier_cost_result cash fzero "metered"
      | BUDGETED =>
          in_budget_cost ← rate_cost (tc_rate_per_1k_usd cost) total_tokens;
          let headroom := default fzero remaining_budget_usd in
          if fle in_budget_cost headroom then mk_tier_cost_result fzero in_budget_cost "budgeted_in_budget"
          else if fle headroom fzero then
            cash ← rate_cost (tc_overage_rate_per_1k_usd cost) total_tokens;
            mk_tier_cost_result cash fzero "budgeted_overage"
          else
            in_budget_tokens ←
              (if fgt (tc_rate_per_1k_usd cost) fzero then
                 q ← fdiv (headroom * float_of_Z 1000)%float (tc_rate_per_1k_usd cost); py_trunc q
               else Ok total_tokens);
            let in_budget_tokens := Z.min in_budget_tokens total_tokens in
            let overage_tokens := total_tokens - in_budget_tokens in
            cash ← rate_cost (tc_overage_rate_per_1k_usd cost) overage_tokens;
            consumed ← rate_cost (tc_rate_per_1k_usd cost) in_budget_tokens;
            mk_tier_cost_result cash consumed "budgeted_split"
      end
  end.

Definition cost_type_value (t : EnumTierCostType) : string :=
  match t with FREE_LOCAL => "free_local" | METERED => "metered" | BUDGETED => "budgeted" end.

Record ModelActualCostMeasurement := {
  ac_cash_cost_usd : float;
  ac_cost_savings_usd : float;
  ac_headroom_consumed_usd : float;
  ac_cost_tier_type : string;
  ac_cost_tier_name : string;
  ac_cost_measurement_source : string
}.

Record ModelPremiumCounterfactual := {
  pc_model : string;
  pc_price_in_per_1k : decimal;
  pc_price_out_per_1k : decimal;
  pc_as_of : string;
  pc_tokens_in : Z;
  pc_tokens_out : Z;
  pc_counterfactual_cost_usd : decimal;
  pc_pricing_source : string;
  pc_measured : bool
}.

(** An entry of the pricing manifest. *)
Record ModelPricingEntry := {
  pe_input_cost_per_1k : float;
  pe_output_cost_per_1k : float;
  pe_effective_date : string
}.

Definition DEFAULT_BASELINE_MODEL : string := "claude-opus-4-6".

Section pricing.
Context (routing_tiers : list ModelRoutingTier) (get_entry : string -> option ModelPricingEntry).

(** The cost model of the first tier of that name. *)
Definition resolve_tier_cost (tier_name : string) : option ModelTierCost :=
  if truthy tier_name then
    match list_find (fun t => rt_name t = tier_name) routing_tiers with
    | Some (_, tier) => rt_cost tier
    | None => None
    end
  else None.

Definition recompute_actual_cost_and_savings (tier_name : string) (prompt_tokens completion_tokens : Z)
    (premium_counterfactual : option ModelPremiumCounterfactual) (remaining_budget_usd : option float)
    : result ModelActualCostMeasurement :=
  let cost := resolve_tier_cost tier_name in
  tier_result ← compute_tier_cost_usd cost prompt_tokens completion_tokens remaining_budget_usd;
  let tier_type := match cost with Some c => cost_type_value (tc_cost_type c) | None => "" end in
  let savings :=
    match premium_counterfactual with
    | None => fzero
    | Some p => float_of_dec (dec_sub (pc_counterfactual_cost_usd p) (dec_of_float (cost_cash_cost_usd tier_result)))
    end in
  Ok {| ac_cash_cost_usd := cost_cash_cost_usd tier_result;
        ac_cost_savings_usd := savings;
        ac_headroom_consumed_usd := cost_headroom_consumed_usd tier_result;
        ac_cost_tier_type := tier_type;
        ac_cost_tier_name := tier_name;
        ac_cost_measurement_source := cost_measurement_source tier_result |}.

Definition build_premium_counterfactual (prompt_tokens completion_tokens : Z) (premium_model : string)
    (measured : bool) (pricing_source : string) : option ModelPremiumCounterfactual :=
  match get_entry premium_model with
  | None => None
  | Some entry =>
      let price_in := dec_of_float (pe_input_cost_per_1k entry) in
      let price_out := dec_of_float (pe_output_cost_per_1k entry) in
      let counterfactual_cost :=
        dec_div1000 (dec_add (dec_mul price_in (dec_of_Z prompt_tokens)) (dec_mul price_out (dec_of_Z completion_tokens))) in
      Some {| pc_model := premium_model;
              pc_price_in_per_1k := price_in;
              pc_price_out_per_1k := price_out;
              pc_as_of := pe_effective_date entry;
              pc_tokens_in := prompt_tokens;
              pc_tokens_out := completion_tokens;
              pc_counterfactual_cost_usd := counterfactual_cost;
              pc_pricing_source := pricing_source;
              pc_measured := measured |}
  end.
End pricing.

(** ** Lemmas *)

(** A double that is not a nan and has a positive sign. *)
Definition nonneg (x : float) : Prop :=
  match x with S754_zero s | S754_infinity s | S754_finite s _ _ => s = false | S754_nan => False end.

Lemma nonneg_fge x : nonneg x -> fge x fzero = true.
Proof. destruct x as [[]|[]| |[] m e]; try done. Qed.

Lemma shr_1_nonneg r : 0 <= shr_m r -> 0 <= shr_m (shr_1 r).
Proof. destruct r as [[|[p|p|]|[p|p|]] rr rs]; simpl; lia. Qed.
Lemma iter_shr_nonneg p r : 0 <= shr_m r -> 0 <= shr_m (SpecFloat.iter_pos shr_1 p r).
Proof. revert r. induction p; simpl; intros; auto using shr_1_nonneg. Qed.
Lemma shr_fexp_nonneg m e l : 0 <= m -> 0 <= shr_m (shr_fexp 53 1024 m e l).1.
Proof.
  intros Hm. unfold shr_fexp, shr.
  assert (0 <= shr_m (shr_record_of_loc m l)) by (by destruct l as [|[]]).
  destruct (_ - _); simpl; auto using iter_shr_nonneg.
Qed.
Lemma round_nearest_nonneg m l : 0 <= m -> 0 <= round_nearest_even m l.
Proof. intros. destruct l as [|[]]; simpl; try lia. destruct (Z.even m); lia. Qed.

(** Rounding keeps the sign it is given. *)
Lemma binary_round_aux_nonneg m e l : 0 <= m -> nonneg (binary_round_aux 53 1024 false m e l).
Proof.
  intros Hm. unfold binary_round_aux.
  pose proof (shr_fexp_nonneg m e l Hm) as H1. destruct (shr_fexp 53 1024 m e l) as [r1 e1]. simpl in H1.
  pose proof (shr_fexp_nonneg (round_nearest_even (shr_m r1) (loc_of_shr_record r1)) e1 loc_Exact
                (round_nearest_nonneg _ _ H1)) as H2.
  destruct (shr_fexp 53 1024 _ e1 loc_Exact) as [r2 e2]. simpl in H2.
  destruct (shr_m r2); simpl; try lia. by case_match.
Qed.
Lemma rat_nonneg n d : 0 <= n -> nonneg (rat n d).
Proof.
  intros Hn. unfold rat. destruct n as [|p|p]; [done| |lia].
  destruct (SFdiv_core_binary _ _ _ _ _ _) as [[q e] l] eqn:E. apply binary_round_aux_nonneg.
  unfold SFdiv_core_binary in E. rewrite (surjective_pairing (Z.div_eucl _ _)) in E. injection E as <- _ _.
  assert (forall a b, (Z.div_eucl a b).1 = a / b) as -> by (intros; unfold Z.div; by destruct (Z.div_eucl a b)).
  apply Z.div_pos; [|lia]. case_match; try lia. by apply Z.shiftl_nonneg.
Qed.
Lemma of_decimal_nonneg n k : 0 <= n -> nonneg (of_decimal n k).
Proof. intros. unfold of_decimal. case_match; apply rat_nonneg; [|done]. apply Z.mul_nonneg_nonneg; [done|]. by apply Z.pow_nonneg. Qed.
Lemma round_half_even_nonneg n d : 0 <= n -> 0 <= round_half_even n d.
Proof.
  intros. unfold round_half_even. assert (0 <= n / Z.pos d) by (apply Z.div_pos; lia).
  destruct (_ ?= _); [destruct (Z.even _)| |]; lia.
Qed.
Lemma py_round_nonneg x k : 0 <= k -> nonneg x -> nonneg (py_round x k).
Proof.
  intros Hk Hx. destruct x as [s|s| |s m e]; try done. simpl in Hx. subst s.
  unfold py_round, fneg. apply of_decimal_nonneg. unfold scale10.
  rewrite (proj2 (Z.leb_le 0 k) Hk). apply round_half_even_nonneg.
  apply Z.mul_nonneg_nonneg; [|by apply Z.pow_nonneg].
  destruct e; simpl; lia.
Qed.

(** A non-negative finite rate prices any number of tokens, at a non-negative
    cost. *)
Definition good_rate (x : float) : Prop := nonneg x /\ is_finite x = true.
Definition good_tokens (n : Z) : Prop := 0 <= n /\ is_finite (float_of_Z n) = true.

Lemma fmul_nonneg x y : good_rate x -> good_rate y -> nonneg (x * y)%float.
Proof.
  intros [Hx Fx] [Hy Fy].
  destruct x as [s|s| |s m e], y as [t|t| |t m' e']; try done; simpl in Hx, Hy; subst s t; try done.
  apply binary_round_aux_nonneg. lia.
Qed.
Lemma div1000_nonneg x : nonneg x -> exists q, fdiv x (float_of_Z 1000) = Ok q /\ nonneg q.
Proof.
  intros Hx. destruct (float_of_Z 1000) as [s|s| |s m e] eqn:E; try (vm_compute in E; discriminate).
  assert (s = false) as -> by (vm_compute in E; congruence).
  eexists. split; [reflexivity|].
  destruct x as [t|t| |t m' e']; try done; simpl in Hx; subst t; try done.
  unfold SFdiv. destruct (SFdiv_core_binary _ _ _ _ _ _) as [[q e2] l] eqn:Eq. apply binary_round_aux_nonneg.
  unfold SFdiv_core_binary in Eq. rewrite (surjective_pairing (Z.div_eucl _ _)) in Eq. injection Eq as <- _ _.
  assert (forall a b, (Z.div_eucl a b).1 = a / b) as -> by (intros; unfold Z.div; by destruct (Z.div_eucl a b)).
  apply Z.div_pos; [|lia]. case_match; try lia. apply Z.shiftl_nonneg. lia.
Qed.
Lemma rate_cost_nonneg rate tokens : good_rate rate -> good_tokens tokens ->
  exists x, rate_cost rate tokens = Ok x /\ nonneg x.
Proof.
  intros Hr [Ht Hf]. unfold rate_cost.
  assert (nonneg (rate * float_of_Z tokens)%float) as Hm.
  { apply fmul_nonneg; [done|]. split; [by apply rat_nonneg|done]. }
  destruct (div1000_nonneg _ Hm) as (q & -> & Hq). eexists. split; [reflexivity|]. by apply py_round_nonneg.
Qed.

(** Tiers whose rates are non-negative numbers: every served request is priced. *)
Definition good_tier (t : ModelRoutingTier) : Prop :=
  match rt_cost t with
  | Some c => good_rate (tc_rate_per_1k_usd c) /\ good_rate (tc_overage_rate_per_1k_usd c)
  | None => True
  end.
Lemma mk_tier_cost_ok cash headroom source : nonneg cash -> nonneg headroom ->
  mk_tier_cost_result cash headroom source =
    Ok {| cost_cash_cost_usd := cash; cost_headroom_consumed_usd := headroom; cost_measurement_source := source |}.
Proof. intros H1 H2. unfold mk_tier_cost_result, ge_zero. by rewrite !nonneg_fge. Qed.

(** With no known headroom (the workflow knows none) nothing raises. *)
Lemma compute_tier_cost_ok cost p c : 0 <= p -> 0 <= c -> is_finite (float_of_Z (p + c)) = true ->
  (forall x, cost = Some x -> good_rate (tc_rate_per_1k_usd x) /\ good_rate (tc_overage_rate_per_1k_usd x)) ->
  exists r, compute_tier_cost_usd cost p c None = Ok r /\ nonneg (cost_cash_cost_usd r).
Proof.
  intros Hp Hc Hf Hcost. destruct cost as [cost|]; [|by eexists].
  destruct (Hcost cost eq_refl) as [Hr Ho]. unfold compute_tier_cost_usd.
  assert (good_tokens (p + c)) as Ht by (split; [lia|done]).
  destruct (rate_cost_nonneg _ _ Hr Ht) as (x & Ex & Hx). destruct (rate_cost_nonneg _ _ Ho Ht) as (y & Ey & Hy).
  destruct (tc_cost_type cost); [by eexists| |].
  - rewrite Ex. cbn [mbind result_bind]. rewrite mk_tier_cost_ok by done. by eexists.
  - rewrite Ex. cbn [mbind result_bind]. change (default fzero None) with fzero.
    destruct (fle x fzero); [rewrite mk_tier_cost_ok by done; by eexists|].
    change (fle fzero fzero) with true. cbn iota. rewrite Ey. cbn [mbind result_bind].
    rewrite mk_tier_cost_ok by done. by eexists.
Qed.

Lemma resolve_tier_cost_good tiers name x : Forall good_tier tiers -> resolve_tier_cost tiers name = Some x ->
  good_rate (tc_rate_per_1k_usd x) /\ good_rate (tc_overage_rate_per_1k_usd x).
Proof.
  intros Hg. unfold resolve_tier_cost. destruct (truthy name); [|done].
  destruct (list_find _ tiers) as [[i t]|] eqn:E; [|done]. apply list_find_Some in E as (Hi & _ & _).
  intros Hx. rewrite Forall_lookup in Hg. specialize (Hg i t Hi). unfold good_tier in Hg. by rewrite Hx in Hg.
Qed.
Lemma recompute_ok tiers name p c cf : Forall good_tier tiers -> 0 <= p -> 0 <= c ->
  is_finite (float_of_Z (p + c)) = true ->
  exists m, recompute_actual_cost_and_savings tiers name p c cf None = Ok m
    /\ nonneg (ac_cash_cost_usd m) /\ ac_cost_tier_name m = name /\ (cf = None -> ac_cost_savings_usd m = fzero).
Proof.
  intros Hg Hp Hc Hf. unfold recompute_actual_cost_and_savings.
  destruct (compute_tier_cost_ok (resolve_tier_cost tiers name) p c) as (r & -> & Hr); try done.
  { intros x. by apply resolve_tier_cost_good. }
  eexists. split; [reflexivity|]. repeat split; [done|]. by intros ->.
Qed.

Example metered_cost :
  let tier := {| tc_cost_type := METERED; tc_rate_per_1k_usd := lit "0.002"; tc_monthly_cap_usd := None;
                 tc_overage_rate_per_1k_usd := fzero |} in
  match compute_tier_cost_usd (Some tier) 1200 345 None with
  | Ok r => float_repr (cost_cash_cost_usd r) = "0.00309"
  | Raise _ => False
  end.
Proof. vm_compute. reflexivity. Qed.
