(* ===== verification/DelegationRouting.v ===== *)
(** * The routing reducer of delegations

    [node_delegation_routing_reducer/handlers/handler_delegation_routing.py] and
    [handler_routing_intent.py]: which tier, model and backend serve a request,
    the next tier of an escalation, the sibling backend of a same-tier retry.

    The process environment is a [RoutingEnv]: the parsed tiers, the bifrost
    backends and the task-class contract (each loaded once), the value of
    [ONEX_DELEGATION_ALLOW_PAID], and the secret store. *)
From S2P Require Import Prelude PyFloat PyJson DelegationModels.

#[local] Open Scope Z_scope.

(** A backend as the bifrost loader returns it. *)
Record BifrostBackendConfig := {
  bc_backend_id : string;
  bc_endpoint_url : option string;
  bc_model_name : option string;
  bc_timeout_ms : Z;
  bc_max_tokens : Z;
  bc_resolved_secret_ref : option string;
  bc_extra_headers : option (list (string * string));
  bc_api_key_env : option string
}.

Record RoutingEnv := {
  re_tiers : result (list ModelRoutingTier);
  re_bifrost : result (list BifrostBackendConfig);
  re_contract : option Obj;
  re_allow_paid : string;
  re_api_key_ref_available : option string -> option string -> bool;
  re_uuid5 : string -> string
}.

Definition ProtocolConfigurationError (msg : string) : py_exn := OtherError "ProtocolConfigurationError" msg.

(** ** The captured-outcome overlay *)

Record ModelTierRoiSignal := {
  rs_tier_name : string;
  rs_sample_count : Z;
  rs_success_count : Z;
  rs_success_rate : float;
  rs_suppressed : bool
}.
Record ModelRoutingRoiOverlay := {
  ov_task_type : string;
  ov_min_samples : Z;
  ov_success_floor : float;
  ov_signals : list ModelTierRoiSignal
}.
Definition suppressed_tiers (o : ModelRoutingRoiOverlay) : list string :=
  map rs_tier_name (List.filter rs_suppressed (ov_signals o)).
Definition _roi_suppressed_tiers (o : option ModelRoutingRoiOverlay) : list string :=
  match o with Some o => suppressed_tiers o | None => [] end.

(** ** Prompts, costs, gates *)

Definition _SYSTEM_PROMPTS : list (string * string) := [
  ("test",
   "You are a test generation assistant. Write comprehensive pytest unit tests " +:+
   "for the provided code. Include edge cases, error paths, and clear assertions. " +:+
   "Use @pytest.mark.unit decorator on all tests.");
  ("document",
   "You are a documentation assistant. Write clear, comprehensive docstrings " +:+
   "and documentation for the provided code. Follow Google-style docstrings " +:+
   "with Args, Returns, and Raises sections.");
  ("research",
   "You are a code research assistant. Analyze the provided code and answer " +:+
   "questions about its behavior, architecture, and design decisions. " +:+
   "Be thorough and cite specific lines when relevant.");
  ("code_generation",
   "You are a code generation assistant. Implement the requested functionality " +:+
   "following existing patterns, conventions, and architecture in the codebase.");
  ("code_review",
   "You are a code review assistant. Identify bugs, style violations, and " +:+
   "architectural issues in the provided code. Be specific and actionable.");
  ("refactor",
   "You are a refactoring assistant. Improve the structure, readability, and " +:+
   "maintainability of the provided code without changing its behavior.");
  ("reasoning",
   "You are a reasoning assistant. Think through the problem step by step " +:+
   "and provide a well-structured analysis.");
  ("planning",
   "You are a planning assistant. Break down the requested work into clear, " +:+
   "actionable steps with explicit acceptance criteria.");
  ("review",
   "You are a review assistant. Evaluate the provided artifacts against " +:+
   "the stated requirements and report any gaps or issues.");
  ("summarization",
   "You are a summarization assistant. Produce a concise, accurate summary " +:+
   "of the provided content.");
  ("simple_tasks",
   "You are a helpful assistant. Complete the requested task accurately.");
  ("escalation",
   "You are an expert assistant handling a complex task that requires deep " +:+
   "reasoning and careful consideration. Approach this methodically.");
  ("complex_reasoning",
   "You are an expert reasoning assistant. Analyze the problem deeply, " +:+
   "consider edge cases, and provide a comprehensive solution.");
  ("agent_orchestration",
   "You are an orchestration assistant. Coordinate the required sub-tasks " +:+
   "and ensure each is completed correctly before proceeding.")
].

Definition _CLOUD_BLOCKED_POLICY : string := "blocked".
Definition _LOCAL_TIERS : list string := ["local"].
Definition _ALLOW_PAID_FALSY : list string := ["0"; "false"; "no"; "off"].

(** [d.get(k)] of a constant table. *)
Definition table_get {A} (k : string) (l : list (string * A)) : option A :=
  option_map snd (List.find (fun kv => String.eqb kv.1 k) l).

Definition _estimate_prompt_tokens (prompt : string) : Z := Z.of_nat (String.length prompt) / 4.

Section routing.
Context (env : RoutingEnv).

Definition _paid_escalation_allowed : bool :=
  negb (str_in (py_lower (py_strip (re_allow_paid env))) _ALLOW_PAID_FALSY).

Definition _backend_id_for_model (model_id : string) : string :=
  re_uuid5 env ("omninode.ai/backends/" +:+ model_id).

Definition _backend_secret_available (backend : BifrostBackendRef) : bool :=
  re_api_key_ref_available env (bb_api_key_ref backend) (bb_api_key_env backend).

(** ** Configuration *)

Definition _get_config : result (list ModelRoutingTier) := re_tiers env.

(** The errors of loading the contract that are reported as a configuration
    error; another one is raised as it is. *)
Definition is_load_error (e : py_exn) : bool :=
  match e with
  | ValueError _ => true
  | OtherError c _ => str_in c ["FileNotFoundError"; "YAMLError"]
  | _ => false
  end.
Definition exn_class (e : py_exn) : string :=
  match e with
  | ValueError _ => "ValueError"
  | TypeError _ => "TypeError"
  | KeyError _ => "KeyError"
  | RuntimeError _ => "RuntimeError"
  | AssertionError _ => "AssertionError"
  | ZeroDivisionError _ => "ZeroDivisionError"
  | OverflowError _ => "OverflowError"
  | OtherError c _ => c
  end.

Definition backend_ref_of (backend : BifrostBackendConfig) : option BifrostBackendRef :=
  let url := py_strip (default "" (bc_endpoint_url backend)) in
  let model_name := py_strip (default "" (bc_model_name backend)) in
  if truthy (bc_backend_id backend) && truthy url && truthy model_name then
    Some {| bb_endpoint_url := url;
            bb_model_name := model_name;
            bb_timeout_ms := bc_timeout_ms backend;
            bb_max_tokens := bc_max_tokens backend;
            bb_api_key_ref := bc_resolved_secret_ref backend;
            bb_extra_headers := match bc_extra_headers backend with Some (_ :: _) as h => h | _ => None end;
            bb_api_key_env := match bc_api_key_env backend with
                              | Some k => if truthy (py_strip k) then Some (py_strip k) else None
                              | None => None
                              end |}
  else None.

Definition collect_backends (l : list BifrostBackendConfig) : gmap string BifrostBackendRef :=
  fold_left (fun m b => match backend_ref_of b with Some r => <[bc_backend_id b := r]> m | None => m end) l ∅.

Definition _load_bifrost_endpoints : result (gmap string BifrostBackendRef) :=
  match re_bifrost env with
  | Raise exc =>
      if is_load_error exc then
        Raise (ProtocolConfigurationError
          ("Failed to load bifrost delegation config for endpoint resolution " +:+
           "(" +:+ exn_class exc +:+ ": " +:+ exn_str exc +:+ "). The routing reducer cannot resolve " +:+
           "any backend endpoint without a valid bifrost contract."))
      else Raise exc
  | Ok backends =>
      let refs := collect_backends backends in
      if bool_decide (refs = ∅) then
        Raise (ProtocolConfigurationError
          ("Bifrost delegation config declared " +:+ pretty (Z.of_nat (length backends)) +:+
           " backend(s) but none carry a complete " +:+
           "endpoint_url and model_name. No backend endpoint is resolvable; " +:+
           "populate endpoint_url/model_name in the contract or overlay."))
      else Ok refs
  end.

Definition _get_task_class_contract : option Obj := re_contract env.

(** ** The task-class contract *)

Definition get_obj (k : string) (o : Obj) : option Obj :=
  match dict_get k o with Some (JObj l) => Some l | _ => None end.
Definition get_list (k : string) (o : Obj) : option (list json) :=
  match dict_get k o with Some (JArr l) => Some l | _ => None end.
(** A non-empty string under a key. *)
Definition get_name (k : string) (o : Obj) : option string :=
  match dict_get k o with Some (JStr s) => if truthy s then Some s else None | _ => None end.

Definition _get_contract_model_ref (task_type : string) (contract : option Obj) : option string :=
  match contract with
  | None => None
  | Some raw =>
      match overrides ← get_obj "task_model_overrides" raw; get_name task_type overrides with
      | Some override => Some override
      | None => get_name "default_task_model_ref" raw
      end
  end.

Definition _task_class_entry (contract : option Obj) (task_type : string) : option Obj :=
  c ← contract; task_classes ← get_obj "task_classes" c; get_obj task_type task_classes.

(** [float(x)] where [isinstance(x, (int, float))]: booleans are integers. *)
Definition as_number (j : json) : option float :=
  match j with
  | JInt n => Some (float_of_Z n)
  | JFloat r => Some (lit r)
  | JBool b => Some (if b then fone else fzero)
  | _ => None
  end.

Definition _tier_allowed_by_contract (tier : ModelRoutingTier) (entry : option Obj) : bool :=
  if fgt (rt_cost_per_1k_tokens tier) fzero && negb _paid_escalation_allowed then false
  else match entry with
  | None => str_in (rt_name tier) _LOCAL_TIERS
  | Some entry =>
      let blocked := match dict_get "cloud_routing_policy" entry with
                     | Some (JStr p) => String.eqb p _CLOUD_BLOCKED_POLICY
                     | _ => false
                     end in
      if blocked && negb (str_in (rt_name tier) _LOCAL_TIERS) then false
      else match ceiling ← dict_get "pricing_ceiling_per_1k_tokens" entry; as_number ceiling with
      | Some ceiling => negb (fgt (rt_cost_per_1k_tokens tier) (ceiling + lit "1e-9")%float)
      | None => true
      end
  end.

(** [{t.name: t for t in tiers}.get(name)]: of two tiers of a name, the last. *)
Definition tier_by_name (tiers : list ModelRoutingTier) (name : string) : option ModelRoutingTier :=
  List.find (fun t => String.eqb (rt_name t) name) (rev tiers).

Fixpoint order_tiers (tiers : list ModelRoutingTier) (names : list json) (ordered : list ModelRoutingTier)
    (seen : list string) : result (list ModelRoutingTier) :=
  match names with
  | [] => Ok ordered
  | JStr name :: names =>
      match tier_by_name tiers name with
      | Some t => if str_in name seen then order_tiers tiers names ordered seen
                  else order_tiers tiers names (ordered ++ [t]) (name :: seen)
      | None => Raise (ProtocolConfigurationError "task-class escalation_policy.tier_order references unknown routing tier")
      end
  | _ :: _ => Raise (ProtocolConfigurationError "task-class escalation_policy.tier_order references unknown routing tier")
  end.

Definition _tier_order_from_contract (config : list ModelRoutingTier) (entry : option Obj) : result (list ModelRoutingTier) :=
  match e ← entry; escalation ← get_obj "escalation_policy" e; get_list "tier_order" escalation with
  | Some ((_ :: _) as tier_order) => order_tiers config tier_order [] []
  | _ => Ok config
  end.

Definition string_items (l : option (list json)) : list string :=
  match l with
  | Some l => omap (fun j => match j with JStr s => Some s | _ => None end) l
  | None => []
  end.
Definition _definition_of_done_checks (entry : option Obj) : list string * list string :=
  match e ← entry; get_obj "definition_of_done" e with
  | Some dod => (string_items (get_list "deterministic" dod), string_items (get_list "heuristic" dod))
  | None => ([], [])
  end.
Definition resolve_task_class_dod_checks (task_type : string) : list string * list string :=
  _definition_of_done_checks (_task_class_entry _get_task_class_contract task_type).

(** ** Selection in a tier *)

Section select.
Context (task_type : string) (estimated_tokens : Z) (bifrost_backends : gmap string BifrostBackendRef)
  (exclude_backend_refs : list string).

(** Not excluded, resolvable, with its secret, and large enough. *)
Definition usable (model : ModelTierModel) : bool :=
  negb (str_in (tm_backend_ref model) exclude_backend_refs)
  && match bifrost_backends !! tm_backend_ref model with
     | Some backend => _backend_secret_available backend
     | None => false
     end
  && (estimated_tokens <=? tm_max_context_tokens model).
Definition serves (model : ModelTierModel) : bool := str_in task_type (tm_use_for model).
Definition fast_path (model : ModelTierModel) : bool :=
  match tm_fast_path_threshold_tokens model with Some t => estimated_tokens <=? t | None => false end.

Definition pinned_model (tier_models : list ModelTierModel) (contract_model_ref : option string) : option ModelTierModel :=
  match contract_model_ref with
  | None => None
  | Some ref =>
      let id_matches := List.filter (fun m => String.eqb (tm_id m) ref && usable m) tier_models in
      match List.find serves id_matches with
      | Some model => Some model
      | None => if truthy exclude_backend_refs then None else head id_matches
      end
  end.

Definition _select_model_for_task (tier_models : list ModelTierModel) (contract_model_ref : option string) : option ModelTierModel :=
  match pinned_model tier_models contract_model_ref with
  | Some model => Some model
  | None =>
      match List.find (fun m => serves m && fast_path m && usable m) tier_models with
      | Some model => Some model
      | None => List.find (fun m => serves m && usable m) tier_models
      end
  end.
End select.

(** ** The ladder *)

Definition _tier_can_route_task (tier : ModelRoutingTier) (task_type : string)
    (bifrost_backends : gmap string BifrostBackendRef) (contract : option Obj) : bool :=
  let entry := _task_class_entry contract task_type in
  if _tier_allowed_by_contract tier entry then
    match _select_model_for_task task_type 0 bifrost_backends [] (rt_models tier)
            (_get_contract_model_ref task_type contract) with
    | Some _ => true
    | None => false
    end
  else false.

(** The tiers strictly after the first one of that name (a later one of the same
    name is passed over). *)
Fixpoint tiers_after (name : string) (found : bool) (tiers : list ModelRoutingTier) : list ModelRoutingTier :=
  match tiers with
  | [] => []
  | t :: tiers =>
      if String.eqb (rt_name t) name then tiers_after name true tiers
      else if found then t :: tiers_after name found tiers else tiers_after name found tiers
  end.

(** A first pass that honours the suppression, and a second one without it when
    there is a suppression at all. *)
Definition with_failsafe {A} (suppressed : list string) (pass : list string -> option A) : option A :=
  match pass suppressed with
  | Some a => Some a
  | None => if truthy suppressed then pass [] else None
  end.

Definition next_eligible_tier (current_tier_name : string) (excluded_tiers : list string)
    (task_type : option string) (roi_overlay : option ModelRoutingRoiOverlay) : result (option string) :=
  config ← _get_config;
  match task_type with
  | None =>
      Ok (with_failsafe (_roi_suppressed_tiers roi_overlay) (fun extra_skip =>
        option_map rt_name (List.find (fun t => negb (str_in (rt_name t) (excluded_tiers ++ extra_skip)))
                              (tiers_after current_tier_name false config))))
  | Some task_type =>
      bifrost_backends ← _load_bifrost_endpoints;
      let contract := _get_task_class_contract in
      let entry := _task_class_entry contract task_type in
      tiers ← _tier_order_from_contract config entry;
      Ok (with_failsafe (_roi_suppressed_tiers roi_overlay) (fun extra_skip =>
        option_map rt_name (List.find (fun t => negb (str_in (rt_name t) (excluded_tiers ++ extra_skip))
                                                && _tier_can_route_task t task_type bifrost_backends contract)
                              (tiers_after current_tier_name false tiers))))
  end.

Definition first_eligible_tier (task_type : string) (roi_overlay : option ModelRoutingRoiOverlay) : result (option string) :=
  let contract := _get_task_class_contract in
  match _task_class_entry contract task_type with
  | None => Ok None
  | Some entry =>
      match escalation ← get_obj "escalation_policy" entry; dict_get "tier_order" escalation with
      | Some order =>
          if truthy order then
            config ← _get_config;
            bifrost_backends ← _load_bifrost_endpoints;
            ordered ← _tier_order_from_contract config (Some entry);
            Ok (with_failsafe (_roi_suppressed_tiers roi_overlay) (fun skip =>
              option_map rt_name (List.find (fun t => negb (str_in (rt_name t) skip)
                                                      && _tier_can_route_task t task_type bifrost_backends contract) ordered)))
          else Ok None
      | None => Ok None
      end
  end.

Definition NO_HIGHER_TIER_REASON_TOKEN : string := "no_higher_tier_available".

Definition _tier_skip_reason (tier : ModelRoutingTier) (task_type : string) (excluded_tiers : list string)
    (contract : option Obj) : string :=
  if str_in (rt_name tier) excluded_tiers then "excluded"
  else
    let entry := _task_class_entry contract task_type in
    if _tier_allowed_by_contract tier entry then "no_routable_backend_for_task"
    else
      let policy := e ← entry; dict_get "cloud_routing_policy" e in
      match policy with
      | Some (JStr p) =>
          if String.eqb p _CLOUD_BLOCKED_POLICY && negb (str_in (rt_name tier) _LOCAL_TIERS)
          then "cloud_routing_blocked" else "above_pricing_ceiling"
      | _ => "above_pricing_ceiling"
      end.

Definition describe_no_higher_tier_available (current_tier_name : string) (excluded_tiers : list string)
    (task_type : string) : result string :=
  config ← _get_config;
  bifrost_backends ← _load_bifrost_endpoints;
  let contract := _get_task_class_contract in
  let entry := _task_class_entry contract task_type in
  tiers ← _tier_order_from_contract config entry;
  let policy_order := map rt_name tiers in
  let after_current := tiers_after current_tier_name false tiers in
  Ok (if negb (str_in current_tier_name policy_order) then
        NO_HIGHER_TIER_REASON_TOKEN +:+ ": task_class='" +:+ task_type +:+ "' " +:+
        "current_tier='" +:+ current_tier_name +:+ "' is not in the declared " +:+
        "escalation policy tier_order=" +:+ py_repr policy_order
      else match after_current with
      | [] =>
          NO_HIGHER_TIER_REASON_TOKEN +:+ ": task_class='" +:+ task_type +:+ "' exhausted " +:+
          "escalation policy tier_order=" +:+ py_repr policy_order +:+ " — " +:+
          "current_tier='" +:+ current_tier_name +:+ "' is the final (ceiling) tier; " +:+
          "no higher tier is declared for this task class"
      | _ =>
          let skipped := map (fun tier => rt_name tier +:+ "(" +:+
                                 _tier_skip_reason tier task_type excluded_tiers contract +:+ ")") after_current in
          NO_HIGHER_TIER_REASON_TOKEN +:+ ": task_class='" +:+ task_type +:+ "' exhausted " +:+
          "escalation policy tier_order=" +:+ py_repr policy_order +:+ " — " +:+
          "current_tier='" +:+ current_tier_name +:+ "'; no usable higher tier: " +:+
          py_join ", " skipped
      end).

(** ** Lookups in the tier registry *)

(** The first tier of a name. *)
Definition find_tier (tier_name : string) (tiers : list ModelRoutingTier) : option ModelRoutingTier :=
  List.find (fun t => String.eqb (rt_name t) tier_name) tiers.

Definition tier_for_backend (backend_id : string) : result (option string) :=
  config ← _get_config;
  Ok (option_map rt_name
        (List.find (fun t => existsb (fun m => String.eqb (tm_backend_ref m) backend_id) (rt_models t)) config)).

Definition sibling_backend_available_in_tier (tier_name task_type : string) (exclude_backend_refs : list string)
    : result (option string) :=
  config ← _get_config;
  match find_tier tier_name config with
  | None => Ok None
  | Some matching_tier =>
      bifrost_backends ← _load_bifrost_endpoints;
      Ok (option_map tm_backend_ref
            (_select_model_for_task task_type 0 bifrost_backends exclude_backend_refs (rt_models matching_tier)
               (_get_contract_model_ref task_type _get_task_class_contract)))
  end.
Definition backend_id_for_tier (tier_name task_type : string) : result (option string) :=
  config ← _get_config;
  match find_tier tier_name config with
  | None => Ok None
  | Some matching_tier =>
      bifrost_backends ← _load_bifrost_endpoints;
      Ok (option_map tm_backend_ref
            (_select_model_for_task task_type 0 bifrost_backends [] (rt_models matching_tier)
               (_get_contract_model_ref task_type _get_task_class_contract)))
  end.

Definition resolve_task_class_max_escalations (task_type : string) : option Z :=
  e ← _task_class_entry _get_task_class_contract task_type;
  escalation ← get_obj "escalation_policy" e;
  match dict_get "max_escalations" escalation with
  | Some (JInt raw) => if raw <? 0 then None else Some raw
  | _ => None
  end.

Definition is_free_tier (tier_name : string) : result bool :=
  config ← _get_config;
  Ok (match find_tier tier_name config with
      | Some tier =>
          match rt_cost tier with
          | Some cost => bool_decide (tc_cost_type cost = FREE_LOCAL)
          | None => feq (rt_cost_per_1k_tokens tier) fzero
          end
      | None => false
      end).

Definition tier_max_retries (tier_name : string) : result Z :=
  config ← _get_config;
  match find_tier tier_name config with
  | Some tier => Ok (rt_max_retries tier)
  | None => Raise (ValueError ("tier " +:+ py_repr tier_name +:+ " is not declared in routing_tiers.yaml; known tiers: "
                               +:+ py_repr (map rt_name config)))
  end.

(** ** The decision *)

(** The tiers from the first one named [min_tier_name] on. *)
Fixpoint tiers_from (name : string) (tiers : list ModelRoutingTier) : list ModelRoutingTier :=
  match tiers with
  | [] => []
  | t :: tiers' => if String.eqb (rt_name t) name then tiers else tiers_from name tiers'
  end.

Section delta.
Context (request : ModelDelegationRequest) (min_tier_name : option string) (excluded_backend_refs : list string)
  (bifrost_backends : gmap string BifrostBackendRef) (entry : option Obj) (contract_model_ref : option string)
  (roi_skip : list string).
Let task_type := rq_task_type request.
Let estimated_tokens := _estimate_prompt_tokens (rq_prompt request).

Definition cost_tier_of (tier_name : string) : string :=
  default tier_name (table_get tier_name [("local", "low"); ("cheap_cloud", "medium"); ("claude", "high")]).

Definition rationale_of (tier : ModelRoutingTier) (selected : ModelTierModel) : string :=
  "Task '" +:+ task_type +:+ "' (~" +:+ pretty estimated_tokens +:+ " tokens) routed to " +:+
  tm_id selected +:+ " via tier '" +:+ rt_name tier +:+ "' " +:+
  "(max_context=" +:+ pretty (tm_max_context_tokens selected) +:+ ")." +:+
  match tm_fast_path_threshold_tokens selected with
  | Some t => if truthy t && (estimated_tokens <=? t)
              then " Fast-path: tokens within " +:+ pretty t +:+ " threshold." else ""
  | None => ""
  end +:+
  match contract_model_ref with
  | Some ref => if String.eqb (tm_id selected) ref then " Contract-override: model='" +:+ ref +:+ "'." else ""
  | None => ""
  end +:+
  match entry with
  | Some entry =>
      let policy_str := match dict_get "cloud_routing_policy" entry with Some (JStr s) => s | _ => "allowed" end in
      " Contract-driven: task_class='" +:+ task_type +:+ "' policy='" +:+ policy_str +:+ "'."
  | None => ""
  end +:+
  match min_tier_name with Some m => " Escalated: min_tier_name='" +:+ m +:+ "'." | None => "" end +:+
  (if truthy roi_skip
   then " ROI-demoted past " +:+ py_repr (sorted_set roi_skip) +:+ " (captured-outcome read-back, OMN-14001)."
   else "").

Definition decision_for (tier : ModelRoutingTier) (selected : ModelTierModel) (backend : BifrostBackendRef) : ModelRoutingDecision :=
  let '(dod_deterministic, dod_heuristic) := _definition_of_done_checks entry in
  {| rd_correlation_id := rq_correlation_id request;
     rd_task_type := task_type;
     rd_selected_model := if str_in (rt_name tier) _LOCAL_TIERS then tm_id selected else bb_model_name backend;
     rd_selected_backend_id := _backend_id_for_model (tm_id selected);
     rd_endpoint_url := bb_endpoint_url backend;
     rd_api_key_ref := bb_api_key_ref backend;
     rd_extra_headers := bb_extra_headers backend;
     rd_cost_tier := cost_tier_of (rt_name tier);
     rd_max_context_tokens := tm_max_context_tokens selected;
     rd_timeout_ms := bb_timeout_ms backend;
     rd_max_tokens := bb_max_tokens backend;
     rd_system_prompt := default ("You are a helpful assistant completing a " +:+ task_type +:+ " task.")
                           (table_get task_type _SYSTEM_PROMPTS);
     rd_rationale := rationale_of tier selected;
     rd_dod_deterministic := dod_deterministic;
     rd_dod_heuristic := dod_heuristic;
     rd_tier_name := rt_name tier;
     rd_selected_backend_ref := tm_backend_ref selected |}.

(** What one tier offers, if it is allowed. *)
Definition route_tier (tier : ModelRoutingTier) : option ModelRoutingDecision :=
  if str_in (rt_name tier) roi_skip then None
  else if negb (_tier_allowed_by_contract tier entry) then None
  else
    selected ← _select_model_for_task task_type estimated_tokens bifrost_backends excluded_backend_refs
                 (rt_models tier) contract_model_ref;
    backend ← bifrost_backends !! tm_backend_ref selected;
    Some (decision_for tier selected backend).

Fixpoint route_tiers (tiers : list ModelRoutingTier) : option ModelRoutingDecision :=
  match tiers with
  | [] => None
  | tier :: tiers => match route_tier tier with Some d => Some d | None => route_tiers tiers end
  end.
Definition _route (tiers : list ModelRoutingTier) : option ModelRoutingDecision :=
  route_tiers (match min_tier_name with Some m => tiers_from m tiers | None => tiers end).
End delta.

Definition delta (request : ModelDelegationRequest) (min_tier_name : option string)
    (roi_overlay : option ModelRoutingRoiOverlay) (excluded_backend_refs : list string) : result ModelRoutingDecision :=
  config ← _get_config;
  bifrost_backends ← _load_bifrost_endpoints;
  let task_type := rq_task_type request in
  let contract := _get_task_class_contract in
  let entry := _task_class_entry contract task_type in
  tiers ← _tier_order_from_contract config entry;
  let contract_model_ref := _get_contract_model_ref task_type contract in
  match with_failsafe (_roi_suppressed_tiers roi_overlay) (fun roi_skip =>
          _route request min_tier_name excluded_backend_refs bifrost_backends entry contract_model_ref roi_skip tiers) with
  | Some decision => Ok decision
  | None =>
      Raise (ProtocolConfigurationError
        ("No tier has a configured endpoint for task_type='" +:+ task_type +:+ "'. " +:+
         "Populate endpoint_url fields in bifrost_overrides.yaml, " +:+
         "or set BIFROST_OVERLAY_PATH to an overlay with endpoint_url fields."))
  end.

(** [HandlerRoutingIntent.handle] *)
Definition handle_routing_intent (intent : ModelRoutingIntent) : result ModelRoutingDecision :=
  delta (ri_payload intent) (ri_min_tier_name intent) None (ri_excluded_backend_refs intent).
End routing.
