(* ===== verification/DelegationLadder.v ===== *)
(** * What a routing decision may be

    Soundness of the routing reducer: the tier, model and backend of a decision,
    the contract's limits, the escalation target and its agreement with the
    decision that follows. *)
From S2P Require Import Prelude PyFloat PyJson DelegationModels DelegationRouting.

#[local] Open Scope Z_scope.

(** ** Selection *)

Section select.
Context (env : RoutingEnv) (task_type : string) (refs : gmap string BifrostBackendRef) (ex : list string).

Lemma find_some_iff {A} (p : A -> bool) l : (exists x, List.find p l = Some x) <-> exists x, x ∈ l /\ p x = true.
Proof.
  split.
  - intros [x Hx]. apply find_some in Hx as [Hin Hp]. exists x. by rewrite list_elem_of_In.
  - intros (x & Hin & Hp). destruct (List.find p l) eqn:E; [by eexists|].
    rewrite list_elem_of_In in Hin. by rewrite (find_none _ _ E _ Hin) in Hp.
Qed.

(** A selected model belongs to the tier, is usable, and serves the task unless
    the contract pins it by id. *)
Lemma select_sound est models pin m : _select_model_for_task env task_type est refs ex models pin = Some m ->
  m ∈ models /\ usable env est refs ex m = true
  /\ (serves task_type m = true \/ pin = Some (tm_id m) /\ ex = []).
Proof.
  unfold _select_model_for_task, pinned_model. intros H.
  assert (forall p x, List.find p models = Some x -> x ∈ models /\ p x = true) as Hfind.
  { intros p x Hx. apply find_some in Hx as [Hx Hp]. by rewrite list_elem_of_In. }
  assert (forall x, List.find (fun m => serves task_type m && fast_path est m && usable env est refs ex m) models = Some x \/
    List.find (fun m => serves task_type m && usable env est refs ex m) models = Some x ->
    x ∈ models /\ usable env est refs ex x = true /\ (serves task_type x = true \/ pin = Some (tm_id x) /\ ex = [])) as Hgen.
  { intros x [Hx|Hx]; apply Hfind in Hx as [Hx Hp]; breflect; auto. }
  assert (match List.find (fun m => serves task_type m && fast_path est m && usable env est refs ex m) models with
          | Some m => Some m
          | None => List.find (fun m => serves task_type m && usable env est refs ex m) models
          end = Some m -> m ∈ models /\ usable env est refs ex m = true /\ (serves task_type m = true \/ pin = Some (tm_id m) /\ ex = [])) as Hgen'.
  { destruct (List.find _ models) eqn:E; [intros [= <-]|]; eauto. }
  destruct pin as [ref|]; [|by apply Hgen'].
  set (ids := List.filter _ models) in H.
  assert (forall x, x ∈ ids -> x ∈ models /\ tm_id x = ref /\ usable env est refs ex x = true) as Hids.
  { intros x Hx. unfold ids in Hx. rewrite list_elem_of_In, filter_In in Hx. destruct Hx as [Hx Hp]. breflect.
    rewrite list_elem_of_In. apply String.eqb_eq in H0. done. }
  destruct (List.find (serves task_type) ids) as [x|] eqn:Ef.
  - injection H as ->. apply find_some in Ef as [Hin Hs]. rewrite <- list_elem_of_In in Hin.
    destruct (Hids _ Hin) as (? & ? & ?). auto.
  - destruct ex as [|e ex'] eqn:Eex; cbn in H; [|by apply Hgen'].
    destruct ids as [|x ids'] eqn:Eids; cbn in H; [by apply Hgen'|]. injection H as ->.
    destruct (Hids m) as (? & <- & ?); [by constructor|]. auto.
Qed.

(** Whether anything is selected does not depend on the prompt, once it fits. *)
Lemma select_some_fits est models pin : 0 <= est -> Forall (fun m => est <= tm_max_context_tokens m) models ->
  is_Some (_select_model_for_task env task_type 0 refs ex models pin) <->
  is_Some (_select_model_for_task env task_type est refs ex models pin).
Proof.
  intros He Hfit.
  assert (forall m, m ∈ models -> usable env 0 refs ex m = usable env est refs ex m) as Hu.
  { intros m Hm. rewrite Forall_forall in Hfit. specialize (Hfit m Hm). unfold usable.
    by rewrite !(proj2 (Z.leb_le _ _)) by lia. }
  assert (forall pin, pinned_model env task_type 0 refs ex models pin = pinned_model env task_type est refs ex models pin) as Hp.
  { intros [ref|]; [|done]. unfold pinned_model.
    assert (List.filter (fun m => String.eqb (tm_id m) ref && usable env 0 refs ex m) models
      = List.filter (fun m => String.eqb (tm_id m) ref && usable env est refs ex m) models) as ->; [|done].
    apply filter_ext_in. intros m Hm. rewrite <- list_elem_of_In in Hm. by rewrite Hu. }
  unfold _select_model_for_task. rewrite Hp. destruct (pinned_model _ _ _ _ _ _ _); [done|].
  assert (forall e, (forall m, m ∈ models -> usable env 0 refs ex m = usable env e refs ex m) ->
    is_Some (match List.find (fun m => serves task_type m && fast_path e m && usable env e refs ex m) models with
             | Some m => Some m
             | None => List.find (fun m => serves task_type m && usable env e refs ex m) models
             end) <-> exists m, m ∈ models /\ serves task_type m = true /\ usable env 0 refs ex m = true) as Hiff.
  { intros e Heq. split.
    - intros [m Hm]. destruct (List.find _ models) as [m'|] eqn:E.
      + apply find_some in E as [Hin Hb]. rewrite <- list_elem_of_In in Hin. breflect. exists m'. by rewrite Heq.
      + apply find_some in Hm as [Hin Hb]. rewrite <- list_elem_of_In in Hin. breflect. exists m. by rewrite Heq.
    - intros (m & Hin & Hs & Hm). destruct (List.find _ models) eqn:E; [done|].
      apply find_some_iff. exists m. split; [done|]. by rewrite Hs, <- Heq, Hm. }
  by rewrite (Hiff 0), (Hiff est).
Qed.
End select.

(** ** The ladder *)

Lemma order_tiers_sub config names ordered seen tiers : order_tiers config names ordered seen = Ok tiers ->
  Forall (fun t => t ∈ config) ordered -> Forall (fun t => t ∈ config) tiers.
Proof.
  revert ordered seen. induction names as [|[| | | |n|l|l] names IH]; intros ordered seen; simpl; try done; [by intros [= <-]|].
  destruct (tier_by_name config n) as [t|] eqn:Et; [|done]. intros H Ho.
  assert (t ∈ config) as Ht.
  { unfold tier_by_name in Et. apply find_some in Et as [Hin _]. rewrite <- in_rev in Hin. by rewrite list_elem_of_In. }
  destruct (str_in n seen); eapply IH in H; try done. apply Forall_app. auto.
Qed.
Lemma ladder_sub config entry tiers : _tier_order_from_contract config entry = Ok tiers -> Forall (fun t => t ∈ config) tiers.
Proof.
  unfold _tier_order_from_contract. intros H.
  assert (Ok config = Ok tiers -> Forall (fun t => t ∈ config) tiers) as Hid.
  { intros [= <-]. by apply Forall_forall. }
  destruct (e ← entry; escalation ← get_obj "escalation_policy" e; get_list "tier_order" escalation) as [[|j l]|]; eauto.
  by eapply order_tiers_sub.
Qed.

Lemma tiers_from_split name tiers : exists pre, tiers = pre ++ tiers_from name tiers.
Proof.
  induction tiers as [|t tiers [pre IH]]; [by exists []|]. simpl.
  destruct (String.eqb _ _); [by exists []|]. exists (t :: pre). simpl. by rewrite <- IH.
Qed.
Lemma tiers_from_head name tiers t rest : tiers_from name tiers = t :: rest -> rt_name t = name.
Proof.
  induction tiers as [|t' tiers IH]; [done|]. simpl. destruct (String.eqb (rt_name t') name) eqn:E; [|done].
  intros [= <- _]. by apply String.eqb_eq.
Qed.

(** The first tier of a ladder that routes. *)
Lemma route_tiers_first {env req min ex refs entry pin skip} tiers d :
  route_tiers env req min ex refs entry pin skip tiers = Some d <->
  exists pre t post, tiers = pre ++ t :: post
    /\ Forall (fun t => route_tier env req min ex refs entry pin skip t = None) pre
    /\ route_tier env req min ex refs entry pin skip t = Some d.
Proof.
  induction tiers as [|t tiers IH]; simpl.
  - split; [done|]. by intros ([] & ? & ? & ? & _).
  - destruct (route_tier env req min ex refs entry pin skip t) as [d'|] eqn:E.
    + split.
      * intros [= ->]. by exists [], t, tiers.
      * intros ([|t' pre] & u & post & Heq & Hpre & Hu); simplify_eq/=; try congruence.
        apply Forall_cons_1 in Hpre as [Ht _]. congruence.
    + rewrite IH. split.
      * intros (pre & u & post & -> & Hpre & Hu). exists (t :: pre), u, post. split; [done|]. split; [by constructor|done].
      * intros ([|t' pre] & u & post & Heq & Hpre & Hu); simplify_eq/=; try congruence.
        apply Forall_cons_1 in Hpre as [_ Hpre]. eauto 10.
Qed.

(** What a tier that routes offers. *)
Record offers (env : RoutingEnv) (req : ModelDelegationRequest) (ex : list string) (refs : gmap string BifrostBackendRef)
    (entry : option Obj) (pin : option string) (t : ModelRoutingTier) (d : ModelRoutingDecision) : Prop := {
  of_allowed : _tier_allowed_by_contract env t entry = true;
  of_tier : rd_tier_name d = rt_name t;
  of_request : rd_correlation_id d = rq_correlation_id req /\ rd_task_type d = rq_task_type req;
  of_model : exists m backend, m ∈ rt_models t
    /\ (serves (rq_task_type req) m = true \/ pin = Some (tm_id m) /\ ex = [])
    /\ refs !! tm_backend_ref m = Some backend /\ _backend_secret_available env backend = true
    /\ ¬ tm_backend_ref m ∈ ex
    /\ _estimate_prompt_tokens (rq_prompt req) <= tm_max_context_tokens m
    /\ rd_selected_backend_ref d = tm_backend_ref m /\ rd_max_context_tokens d = tm_max_context_tokens m
    /\ rd_endpoint_url d = bb_endpoint_url backend /\ rd_max_tokens d = bb_max_tokens backend
    /\ rd_api_key_ref d = bb_api_key_ref backend /\ rd_timeout_ms d = bb_timeout_ms backend
}.

Lemma usable_spec env est refs ex m : usable env est refs ex m = true ->
  ¬ tm_backend_ref m ∈ ex /\ est <= tm_max_context_tokens m
  /\ exists backend, refs !! tm_backend_ref m = Some backend /\ _backend_secret_available env backend = true.
Proof.
  unfold usable. intros H. breflect. split; [|split; [done|]].
  - rewrite <- str_in_spec. congruence.
  - destruct (refs !! tm_backend_ref m); [by eexists|done].
Qed.

Lemma route_tier_offers {env req min ex refs entry pin skip} t d :
  route_tier env req min ex refs entry pin skip t = Some d ->
  offers env req ex refs entry pin t d /\ ¬ rt_name t ∈ skip.
Proof.
  unfold route_tier. destruct (str_in (rt_name t) skip) eqn:Es; [done|].
  destruct (_tier_allowed_by_contract env t entry) eqn:Ea; cbn [negb]; [|done].
  destruct (_select_model_for_task _ _ _ _ _ _ _) as [m|] eqn:Em; [|done]. cbn [mbind option_bind].
  destruct (refs !! tm_backend_ref m) as [b|] eqn:Eb; [|done]. cbn [mbind option_bind]. intros [= <-].
  apply select_sound in Em as (Hin & Hu & Hs). apply usable_spec in Hu as (Hex & Hfit & b' & Hb' & Hsec).
  rewrite Eb in Hb'. injection Hb' as <-.
  unfold decision_for. destruct (_definition_of_done_checks entry) as [dd dh].
  split; [|rewrite <- str_in_spec; congruence]. constructor; cbn; try done. exists m, b. repeat split; done.
Qed.
Lemma route_tier_some {env req min ex refs entry pin skip} t :
  is_Some (route_tier env req min ex refs entry pin skip t) <->
  str_in (rt_name t) skip = false /\ _tier_allowed_by_contract env t entry = true
  /\ is_Some (_select_model_for_task env (rq_task_type req) (_estimate_prompt_tokens (rq_prompt req)) refs ex (rt_models t) pin).
Proof.
  unfold route_tier. destruct (str_in (rt_name t) skip); [split; [by intros []|by intros [? _]]|].
  destruct (_tier_allowed_by_contract env t entry); cbn [negb]; [|split; [by intros []|by intros (_ & ? & _)]].
  destruct (_select_model_for_task _ _ _ _ _ _ _) as [m|] eqn:Em; [|split; [by intros []|by intros (_ & _ & [])]].
  cbn [mbind option_bind]. pose proof Em as Hm. apply select_sound in Hm as (_ & Hu & _).
  apply usable_spec in Hu as (_ & _ & b & Hb & _). rewrite Hb. cbn. split; eauto.
Qed.

(** ** The decision *)

Section delta.
Context (env : RoutingEnv) (req : ModelDelegationRequest) (min : option string) (ex : list string).
Let t := rq_task_type req.
Let entry := _task_class_entry (_get_task_class_contract env) t.
Let pin := _get_contract_model_ref t (_get_task_class_contract env).

(** The ladder a request walks: the class's order, from the escalation target on. *)
Definition walk (tiers : list ModelRoutingTier) : list ModelRoutingTier :=
  match min with Some m => tiers_from m tiers | None => tiers end.

Lemma delta_first config refs tiers d :
  _get_config env = Ok config -> _load_bifrost_endpoints env = Ok refs -> _tier_order_from_contract config entry = Ok tiers ->
  delta env req min None ex = Ok d <->
  exists pre u post, walk tiers = pre ++ u :: post
    /\ Forall (fun u => route_tier env req min ex refs entry pin [] u = None) pre
    /\ route_tier env req min ex refs entry pin [] u = Some d.
Proof.
  intros Hc Hb Ht. unfold delta. rewrite Hc, Hb. cbn [mbind result_bind]. fold t entry. rewrite Ht. cbn [mbind result_bind].
  unfold with_failsafe. cbn [_roi_suppressed_tiers]. fold pin. unfold _route. fold (walk tiers).
  rewrite <- route_tiers_first. destruct (route_tiers _ _ _ _ _ _ _ _ _); cbn; split; congruence.
Qed.

Lemma delta_inv d : delta env req min None ex = Ok d -> exists config refs tiers,
  _get_config env = Ok config /\ _load_bifrost_endpoints env = Ok refs /\ _tier_order_from_contract config entry = Ok tiers.
Proof.
  unfold delta. fold t entry. destruct (_get_config env) as [config|]; [|done]. destruct (_load_bifrost_endpoints env) as [refs|]; [|done].
  cbn [mbind result_bind]. destruct (_tier_order_from_contract config entry) as [tiers|] eqn:E; [|done]. eauto 10.
Qed.

(** A decision names a declared tier that offers it; every earlier tier of the
    walk offers nothing. *)
Lemma delta_sound d : delta env req min None ex = Ok d ->
  exists config refs tiers pre u post,
    _get_config env = Ok config /\ _load_bifrost_endpoints env = Ok refs /\ _tier_order_from_contract config entry = Ok tiers
    /\ walk tiers = pre ++ u :: post /\ u ∈ config /\ offers env req ex refs entry pin u d
    /\ Forall (fun u => _tier_allowed_by_contract env u entry = true ->
         _select_model_for_task env t (_estimate_prompt_tokens (rq_prompt req)) refs ex (rt_models u) pin = None) pre.
Proof.
  intros Hd. destruct (delta_inv d Hd) as (config & refs & tiers & Hc & Hb & Ht).
  destruct (proj1 (delta_first config refs tiers d Hc Hb Ht) Hd) as (pre & u & post & Hw & Hpre & Hu).
  exists config, refs, tiers, pre, u, post. repeat (split; [done|]). split; [|split].
  - pose proof (ladder_sub _ _ _ Ht) as Hsub. rewrite Forall_forall in Hsub. apply Hsub.
    assert (exists pre', tiers = pre' ++ walk tiers) as [pre' ->].
    { unfold walk. destruct min; [apply tiers_from_split|by exists []]. }
    rewrite Hw. apply elem_of_app. right. apply elem_of_app. right. constructor.
  - by apply route_tier_offers in Hu as [? _].
  - eapply Forall_impl; [exact Hpre|]. intros x Hx Ha.
    destruct (_select_model_for_task _ _ _ _ _ _ _) eqn:E; [|done].
    assert (is_Some (route_tier env req min ex refs entry pin [] x)) as [? Hs]; [|congruence].
    apply route_tier_some. split; [done|]. split; [done|]. fold t. rewrite E. by eexists.
Qed.
End delta.

(** What the contract forbids. *)
Lemma allowed_spec env tier entry : _tier_allowed_by_contract env tier entry = true ->
  (fgt (rt_cost_per_1k_tokens tier) fzero = true -> _paid_escalation_allowed env = true)
  /\ (entry = None -> rt_name tier = "local")
  /\ (forall e, entry = Some e -> dict_get "cloud_routing_policy" e = Some (JStr _CLOUD_BLOCKED_POLICY) -> rt_name tier = "local")
  /\ (forall e c, entry = Some e -> (ceiling ← dict_get "pricing_ceiling_per_1k_tokens" e; as_number ceiling) = Some c ->
       fgt (rt_cost_per_1k_tokens tier) (c + lit "1e-9")%float = false).
Proof.
  assert (str_in (rt_name tier) _LOCAL_TIERS = true -> rt_name tier = "local") as Hl.
  { rewrite str_in_spec. intros [?|[]%not_elem_of_nil]%elem_of_cons. done. }
  unfold _tier_allowed_by_contract. intros H.
  destruct (fgt _ _ && negb _) eqn:Ep; [done|]. split.
  { intros Hf. rewrite Hf in Ep. by apply negb_false_iff in Ep. }
  clear Ep. destruct entry as [e|]; [|split; [auto|done]]. split; [done|].
  destruct (_ && negb _) eqn:Eb; [done|]. split.
  - intros e' [= <-] Hpol. rewrite Hpol in Eb. cbn in Eb. apply negb_false_iff in Eb. auto.
  - intros e' c [= <-] Hc. by rewrite Hc, negb_true_iff in H.
Qed.

(** ** Escalation targets *)

Lemma tiers_after_found name tiers : tiers_after name true tiers = List.filter (fun t => negb (String.eqb (rt_name t) name)) tiers.
Proof. induction tiers as [|t tiers IH]; [done|]. simpl. destruct (String.eqb _ _); simpl; by rewrite IH. Qed.
Lemma tiers_after_split name tiers u : u ∈ tiers_after name false tiers ->
  exists pre cur post, tiers = pre ++ cur :: post /\ rt_name cur = name /\ u ∈ post /\ rt_name u <> name.
Proof.
  induction tiers as [|t tiers IH]; simpl; [by intros ?%not_elem_of_nil|].
  destruct (String.eqb (rt_name t) name) eqn:E.
  - rewrite tiers_after_found, list_elem_of_In, filter_In, negb_true_iff. intros [Hin Hne].
    exists [], t, tiers. apply String.eqb_eq in E. apply String.eqb_neq in Hne. by rewrite list_elem_of_In.
  - intros Hu. destruct (IH Hu) as (pre & cur & post & -> & ?). by exists (t :: pre), cur, post.
Qed.

Lemma with_failsafe_some {A} suppressed (pass : list string -> option A) a : with_failsafe suppressed pass = Some a ->
  exists skip, pass skip = Some a.
Proof. unfold with_failsafe. destruct (pass suppressed) eqn:E; [intros [= <-]; eauto|]. destruct (truthy suppressed); [eauto|done]. Qed.

(** The escalation target is a tier strictly after the current one in the
    class's ladder, not excluded, with a backend for the task. *)
Lemma next_tier_sound env cur ex t overlay n : next_eligible_tier env cur ex (Some t) overlay = Ok (Some n) ->
  exists config refs tiers pre c mid u post,
    _get_config env = Ok config /\ _load_bifrost_endpoints env = Ok refs
    /\ _tier_order_from_contract config (_task_class_entry (_get_task_class_contract env) t) = Ok tiers
    /\ tiers = pre ++ c :: mid ++ u :: post /\ rt_name c = cur /\ rt_name u = n /\ n <> cur
    /\ ¬ n ∈ ex /\ _tier_can_route_task env u t refs (_get_task_class_contract env) = true.
Proof.
  unfold next_eligible_tier. destruct (_get_config env) as [config|]; [|done]. destruct (_load_bifrost_endpoints env) as [refs|]; [|done].
  cbn [mbind result_bind]. destruct (_tier_order_from_contract config _) as [tiers|] eqn:Et; [|done]. cbn [mbind result_bind].
  intros [= Hpass]. apply with_failsafe_some in Hpass as [skip Hpass].
  destruct (List.find _ _) as [u|] eqn:Ef; cbn in Hpass; [|done]. injection Hpass as <-.
  apply find_some in Ef as [Hin Hp]. rewrite <- list_elem_of_In in Hin.
  apply tiers_after_split in Hin as (pre & c & post & Htiers & Hc & Hu & Hne).
  apply list_elem_of_split in Hu as (mid & post' & ->). breflect.
  exists config, refs, tiers, pre, c, mid, u, post'. repeat (split; [done|]). split; [|done].
  intros Hex. assert (str_in (rt_name u) (ex ++ skip) = true) by (apply str_in_spec, elem_of_app; by left). congruence.
Qed.

Lemma tiers_from_nodup u tiers pre post : NoDup (map rt_name tiers) -> tiers = pre ++ u :: post -> tiers_from (rt_name u) tiers = u :: post.
Proof.
  intros Hnd ->. induction pre as [|x pre IH]; simpl in *.
  - by rewrite String.eqb_refl.
  - apply NoDup_cons in Hnd as [Hx Hnd]. destruct (String.eqb (rt_name x) (rt_name u)) eqn:E; [|by apply IH].
    exfalso. apply Hx. apply String.eqb_eq in E. rewrite E, map_app. apply elem_of_app. right. by left.
Qed.

(** A ladder with distinct names and a prompt every model takes: the router's
    next decision is on the very tier the escalation chose. *)
Lemma escalation_lands env req cur ex n config :
  next_eligible_tier env cur ex (Some (rq_task_type req)) None = Ok (Some n) ->
  _get_config env = Ok config ->
  (forall tiers, _tier_order_from_contract config (_task_class_entry (_get_task_class_contract env) (rq_task_type req)) = Ok tiers ->
     NoDup (map rt_name tiers)) ->
  Forall (fun u => Forall (fun m => _estimate_prompt_tokens (rq_prompt req) <= tm_max_context_tokens m) (rt_models u)) config ->
  exists d, delta env req (Some n) None [] = Ok d /\ rd_tier_name d = n.
Proof.
  intros Hn Hconf Hnd Hfit.
  destruct (next_tier_sound _ _ _ _ _ _ Hn) as (config' & refs & tiers & pre & c & mid & u & post & Hc & Hb & Ht & Heq & Hcur & Hu & Hne & Hex & Hcan).
  rewrite Hconf in Hc. injection Hc as <-. specialize (Hnd tiers Ht).
  set (entry := _task_class_entry _ _) in *. set (pin := _get_contract_model_ref (rq_task_type req) (_get_task_class_contract env)).
  assert (u ∈ config) as Huin.
  { pose proof (ladder_sub _ _ _ Ht) as Hsub. rewrite Forall_forall in Hsub. apply Hsub. rewrite Heq.
    apply elem_of_app. right. right. apply elem_of_app. right. left. }
  assert (is_Some (route_tier env req (Some n) [] refs entry pin [] u)) as [d Hd].
  { apply route_tier_some. unfold _tier_can_route_task in Hcan. fold entry pin in Hcan.
    destruct (_tier_allowed_by_contract env u entry); [|done]. split; [done|]. split; [done|].
    rewrite Forall_forall in Hfit. apply (select_some_fits env (rq_task_type req) refs [] _ (rt_models u) pin).
    - unfold _estimate_prompt_tokens. apply Z.div_pos; lia.
    - by apply Hfit.
    - destruct (_select_model_for_task _ _ _ _ _ _ _); [by eexists|done]. }
  exists d. assert (delta env req (Some n) None [] = Ok d) as Hdelta.
  { apply (delta_first env req (Some n) [] config refs tiers d Hconf Hb Ht). exists [], u, post.
    split; [|split; [constructor|done]]. unfold walk. rewrite <- Hu.
    by rewrite (tiers_from_nodup u tiers (pre ++ c :: mid) post) by (try done; rewrite Heq; by rewrite <- app_assoc). }
  apply route_tier_offers in Hd as [Hd _]. pose proof (of_tier _ _ _ _ _ _ _ _ Hd) as Htn.
  split; [done|]. congruence.
Qed.

(** ** Siblings *)

Lemma sibling_sound env tier t ex s : sibling_backend_available_in_tier env tier t ex = Ok (Some s) ->
  ¬ s ∈ ex /\ exists config u m, _get_config env = Ok config /\ u ∈ config /\ rt_name u = tier /\ m ∈ rt_models u /\ tm_backend_ref m = s.
Proof.
  unfold sibling_backend_available_in_tier. destruct (_get_config env) as [config|]; [|done]. cbn [mbind result_bind].
  destruct (find_tier tier config) as [u|] eqn:Eu; [|done]. destruct (_load_bifrost_endpoints env) as [refs|]; [|done].
  cbn [mbind result_bind]. destruct (_select_model_for_task _ _ _ _ _ _ _) as [m|] eqn:Em; [|done]. cbn. intros [= <-].
  apply select_sound in Em as (Hin & Hu & _). apply usable_spec in Hu as (Hex & _). split; [done|].
  unfold find_tier in Eu. apply find_some in Eu as [Hui Hname]. apply String.eqb_eq in Hname.
  exists config, u, m. by rewrite (list_elem_of_In config).
Qed.
