(* ===== verification/InferenceProtocol.v ===== *)
(** * The inference protocol

    [inference/protocol_config.py]: the configured profiles that insert a
    directive into the outbound prompts of a model and add provider request
    options.  [fnmatchcase] is the matcher of Python's module [fnmatch]. *)
From S2P Require Import Prelude PyFloat PyJson.

(** ** Shell patterns *)

Inductive glob_token :=
  | GStar
  | GAny
  | GChar (c : ascii)
  | GSet (negated : bool) (ranges : list (ascii * ascii)).

(** The ranges of a bracket's text: [a-z] where a [-] stands between two
    characters, single characters otherwise. *)
Fixpoint glob_ranges (fuel : nat) (l : chars) : list (ascii * ascii) :=
  match fuel, l with
  | S fuel, a :: d :: b :: l' =>
      if Nat.eqb (nat_of_ascii d) 45 then (a, b) :: glob_ranges fuel l' else (a, a) :: glob_ranges fuel (d :: b :: l')
  | S fuel, a :: l' => (a, a) :: glob_ranges fuel l'
  | _, _ => []
  end.
Fixpoint until_bracket (l : chars) : option (chars * chars) :=
  match l with
  | [] => None
  | c :: l' => if Nat.eqb (nat_of_ascii c) 93 then Some ([], l')
               else '(a, r) ← until_bracket l'; Some (c :: a, r)
  end.
(** The text after an opening bracket, and what follows the closing one: the
    first character of the set may be a closing bracket. *)
Definition glob_bracket (l : chars) : option (glob_token * chars) :=
  let '(neg, l1) := match l with
                    | c :: l' => if Nat.eqb (nat_of_ascii c) 33 then (true, l') else (false, l)
                    | [] => (false, [])
                    end in
  '(stuff, r) ← match l1 with
                | c :: l' => '(a, r) ← (if Nat.eqb (nat_of_ascii c) 93 then until_bracket l'
                                         else until_bracket l1);
                             Some (if Nat.eqb (nat_of_ascii c) 93 then c :: a else a, r)
                | [] => None
                end;
  Some (GSet neg (glob_ranges (length stuff) stuff), r).
Fixpoint glob_parse (fuel : nat) (l : chars) : list glob_token :=
  match fuel, l with
  | S fuel, c :: l' =>
      let n := nat_of_ascii c in
      if Nat.eqb n 42 then GStar :: glob_parse fuel l'
      else if Nat.eqb n 63 then GAny :: glob_parse fuel l'
      else if Nat.eqb n 91 then
        match glob_bracket l' with
        | Some (t, r) => t :: glob_parse fuel r
        | None => GChar c :: glob_parse fuel l'
        end
      else GChar c :: glob_parse fuel l'
  | _, _ => []
  end.
Definition in_range (c : ascii) (r : ascii * ascii) : bool :=
  Nat.leb (nat_of_ascii r.1) (nat_of_ascii c) && Nat.leb (nat_of_ascii c) (nat_of_ascii r.2).
Definition glob_one (t : glob_token) (c : ascii) : bool :=
  match t with
  | GStar => false
  | GAny => true
  | GChar d => Ascii.eqb c d
  | GSet neg ranges => xorb neg (existsb (in_range c) ranges)
  end.
Fixpoint glob_match (p : list glob_token) (l : chars) : bool :=
  match p with
  | [] => match l with [] => true | _ => false end
  | GStar :: p' =>
      (fix star l := glob_match p' l || match l with [] => false | _ :: l' => star l' end) l
  | t :: p' => match l with c :: l' => glob_one t c && glob_match p' l' | [] => false end
  end.
Definition fnmatchcase (name pat : string) : bool :=
  glob_match (glob_parse (String.length pat) (los pat)) (los name).

Example fnmatch_examples :
  map (fun p => fnmatchcase "qwen3.6-27b-mtp" p) ["*qwen*"; "qwen3.?-*"; "qwen[0-9].*"; "qwen[!0-9]*"; "gemini-*"; "qwen3.6-27b-mtp"; "[*"]
  = [true; true; true; false; false; true; false].
Proof. reflexivity. Qed.

(** ** The configuration *)

Inductive EnumPlacement := user_prefix | system_suffix.

Record ModelInferencePromptDirective := {
  pd_placement : EnumPlacement;
  pd_text : string;
  pd_separator : string;
  pd_apply_once : bool
}.
Record ModelInferenceProtocolProfile := {
  pp_profile_id : string;
  pp_enabled : bool;
  pp_backend_ids : list string;
  pp_task_types : list string;
  pp_model_name_patterns : list string;
  pp_system_prompt_contains : list string;
  pp_directive : ModelInferencePromptDirective;
  pp_request_options : Obj
}.
Record ModelInferenceProtocolConfig := {
  pg_schema_version : string;
  pg_profiles : list ModelInferenceProtocolProfile
}.

(** [s.lstrip()] *)
Definition py_lstrip (s : string) : string := String.string_of_list_ascii (drop_space (los s)).

Definition _apply_directive (directive : ModelInferencePromptDirective) (system_prompt prompt : string) : string * string :=
  match pd_placement directive with
  | user_prefix =>
      if pd_apply_once directive && py_startswith (pd_text directive) (py_lstrip prompt) then (system_prompt, prompt)
      else (system_prompt, pd_text directive +:+ pd_separator directive +:+ prompt)
  | system_suffix =>
      if pd_apply_once directive && py_contains (pd_text directive) system_prompt then (system_prompt, prompt)
      else (system_prompt +:+ pd_separator directive +:+ pd_text directive, prompt)
  end.

(** Nested dicts are merged, other values replaced; the overlay's values are
    walked, so the recursion is on it. *)
Fixpoint merge_value (fuel : nat) (existing : option json) (value : json) : json :=
  match fuel, existing, value with
  | S fuel, Some (JObj base), JObj overlay =>
      JObj (fold_left (fun merged kv => dict_set kv.1 (merge_value fuel (dict_get kv.1 merged) kv.2) merged) overlay base)
  | _, _, _ => value
  end.
Fixpoint json_depth (j : json) : nat :=
  match j with
  | JArr l => S (fold_right (fun x n => Nat.max (json_depth x) n) 0 l)
  | JObj l => S (fold_right (fun kv n => Nat.max (json_depth kv.2) n) 0 l)
  | _ => 1
  end.
Definition _merge_request_options (base overlay : Obj) : Obj :=
  match merge_value (json_depth (JObj overlay)) (Some (JObj base)) (JObj overlay) with JObj l => l | _ => base end.

Definition _profile_matches (profile : ModelInferenceProtocolProfile) (system_prompt model : string)
    (task_type backend_id : option string) : bool :=
  if negb (pp_enabled profile) then false
  else if truthy (pp_backend_ids profile)
          && negb (match backend_id with Some b => str_in b (pp_backend_ids profile) | None => false end) then false
  else if truthy (pp_model_name_patterns profile)
          && negb (existsb (fun pattern => fnmatchcase (py_lower model) (py_lower pattern)) (pp_model_name_patterns profile))
  then false
  else
    let by_prompt :=
      match task_type with
      | None => if truthy (pp_system_prompt_contains profile)
                then existsb (fun marker => py_contains (py_lower marker) (py_lower system_prompt)) (pp_system_prompt_contains profile)
                else true
      | Some _ => true
      end in
    if truthy (pp_task_types profile) then
      match task_type with
      | Some t => str_in t (pp_task_types profile)
      | None => if truthy (pp_system_prompt_contains profile) then by_prompt else false
      end
    else by_prompt.

Definition apply_profile (model : string) (task_type backend_id : option string) (acc : string * string * Obj)
    (profile : ModelInferenceProtocolProfile) : string * string * Obj :=
  let '(next_system_prompt, next_prompt, request_options) := acc in
  if _profile_matches profile next_system_prompt model task_type backend_id then
    let '(next_system_prompt, next_prompt) := _apply_directive (pp_directive profile) next_system_prompt next_prompt in
    (next_system_prompt, next_prompt, _merge_request_options request_options (pp_request_options profile))
  else acc.

Definition apply_inference_protocol (config : ModelInferenceProtocolConfig) (system_prompt prompt model : string)
    (task_type backend_id : option string) : string * string * Obj :=
  fold_left (apply_profile model task_type backend_id) (pg_profiles config) (system_prompt, prompt, []).

Definition apply_inference_protocol_directives (config : ModelInferenceProtocolConfig) (system_prompt prompt model : string)
    (task_type backend_id : option string) : string * string :=
  let '(s, p, _) := apply_inference_protocol config system_prompt prompt model task_type backend_id in (s, p).

Example merge_nested :
  _merge_request_options [("a", JObj [("x", JInt 1); ("y", JInt 2)]); ("b", JInt 0)] [("a", JObj [("y", JInt 3)]); ("c", JNull)]
  = [("a", JObj [("x", JInt 1); ("y", JInt 3)]); ("b", JInt 0); ("c", JNull)].
Proof. reflexivity. Qed.

(** ** The fuel is enough *)

(** A merge within the depth of the overlay does not run out. *)
Lemma merge_value_fuel value : forall n m existing, json_depth value <= n -> json_depth value <= m ->
  merge_value n existing value = merge_value m existing value.
Proof.
  induction value as [|bo|i|f|st|l _|l IH] using json_nested_ind; intros [|n] [|m] existing Hn Hm; try (cbn in *; lia); try (by destruct existing as [[]|]).
  destruct existing as [[| | | | | |base]|]; try done. cbn [merge_value]. f_equal.
  assert (Forall (fun kv => json_depth kv.2 <= n /\ json_depth kv.2 <= m) l) as Hd.
  { cbn [json_depth] in Hn, Hm. clear IH. revert Hn Hm. induction l as [|kv l IHl]; intros Hn Hm; constructor; cbn in Hn, Hm; [lia|].
    apply IHl; lia. }
  clear Hn Hm. revert base. induction l as [|kv l IHl]; intros base; [done|].
  apply Forall_cons_1 in IH as [IHkv IH]. apply Forall_cons_1 in Hd as [[? ?] Hd]. cbn.
  rewrite (IHkv n m) by done. by apply IHl.
Qed.

(** The recursion of the source. *)
Lemma merge_request_options_eq base overlay : _merge_request_options base overlay =
  fold_left (fun merged kv =>
    dict_set kv.1 (match dict_get kv.1 merged, kv.2 with
                   | Some (JObj existing), JObj value => JObj (_merge_request_options existing value)
                   | _, value => value
                   end) merged) overlay base.
Proof.
  unfold _merge_request_options at 1. cbn [json_depth merge_value].
  set (n := fold_right _ 0 overlay).
  assert (Forall (fun kv => json_depth kv.2 <= n) overlay) as Hd.
  { subst n. induction overlay as [|kv l IHl]; constructor; cbn; [lia|]. eapply Forall_impl; [exact IHl|]. simpl. lia. }
  clearbody n. revert base. induction Hd as [|kv l Hkv _ IH]; intros base; [done|]. cbn. rewrite <- IH.
  do 2 f_equal. destruct (dict_get kv.1 base) as [[| | | | | |e]|]; destruct kv.2 as [| | | | | |v];
    try (by destruct n); try done. unfold _merge_request_options. rewrite (merge_value_fuel _ n (json_depth (JObj v))) by done. done.
Qed.

(** Every step of the pattern parser leaves a shorter text. *)
Lemma until_bracket_length l a r : until_bracket l = Some (a, r) -> length r < length l.
Proof.
  revert a. induction l as [|c l IH]; intros a; [done|]. cbn. destruct (Nat.eqb _ _); [intros [= <- <-]; lia|].
  destruct (until_bracket l) as [[a' r']|]; [|done]. intros [= <- <-]. specialize (IH _ eq_refl). lia.
Qed.
Lemma glob_bracket_length l t r : glob_bracket l = Some (t, r) -> length r < length l.
Proof.
  unfold glob_bracket. destruct (match l with [] => _ | _ => _ end) as [neg l1] eqn:E1.
  assert (length l1 <= length l) as Hl.
  { destruct l; [by injection E1 as <- <-|]. destruct (Nat.eqb _ _); injection E1 as <- <-; cbn; lia. }
  destruct l1 as [|c l1]; [done|]. cbn [length] in Hl. destruct (Nat.eqb _ _).
  - destruct (until_bracket l1) as [[a r']|] eqn:E; [|done]. intros [= <- <-]. apply until_bracket_length in E. lia.
  - destruct (until_bracket (c :: l1)) as [[a r']|] eqn:E; [|done]. intros [= <- <-]. apply until_bracket_length in E. cbn in E. lia.
Qed.
Lemma glob_parse_fuel n m l : length l <= n -> length l <= m -> glob_parse n l = glob_parse m l.
Proof.
  revert m l. induction n as [|n IH]; intros [|m] [|c l] Hn Hm; try done; cbn in Hn, Hm; try lia. cbn [glob_parse].
  assert (glob_parse n l = glob_parse m l) as -> by (apply IH; lia).
  destruct (glob_bracket l) as [[t r]|] eqn:E; [|done]. apply glob_bracket_length in E.
  by rewrite (IH m r) by lia.
Qed.
