(* ===== verification/ComplianceLoop.v ===== *)
(** * The schema-compliance loop

    One attempt of the loop and what it calls:
    [node_budget_policy_compute/handlers/handler_budget_policy.py],
    [node_schema_repair_compute/handlers/handler_schema_repair.py],
    [node_output_schema_registry_compute/handlers/handler_output_schema_registry.py]
    and [node_delegation_orchestrator/handlers/handler_compliance_loop.py].  The
    JSON schema of a registered class is an argument. *)
From S2P Require Import Prelude PyFloat PyJson DelegationModels.

#[local] Open Scope Z_scope.

(** ** The budget policy *)

Inductive EnumBudgetAction := CONTINUE | WARN | THROTTLE | ABORT.
#[export] Instance EnumBudgetAction_eq_dec : EqDecision EnumBudgetAction.
Proof. solve_decision. Defined.
Inductive EnumTaskPriority := LOW | NORMAL | HIGH | CRITICAL.
Definition task_priority_value (p : EnumTaskPriority) : string :=
  match p with LOW => "LOW" | NORMAL => "NORMAL" | HIGH => "HIGH" | CRITICAL => "CRITICAL" end.

Record ModelBudgetUsage := { bu_tokens : Z; bu_cost_usd : float; bu_elapsed_time_s : float }.
Record ModelBudgetPolicyRequest := {
  bp_current_usage : ModelBudgetUsage;
  bp_budget_limits : ModelBudgetLimits;
  bp_task_priority : EnumTaskPriority
}.
Record ModelBudgetPolicyResult := {
  br_action : EnumBudgetAction;
  br_reason : string;
  br_dimensions_exceeded : list string;
  br_recommended_action : string
}.

Definition _WARN_THRESHOLD : float := rat 80 100.
Definition _ABORT_MULTIPLIER_CRITICAL : float := rat 120 100.
Definition _abort_multiplier (priority : EnumTaskPriority) : float :=
  match priority with CRITICAL => _ABORT_MULTIPLIER_CRITICAL | _ => fone end.

(** [n / d] on integers: the quotient, correctly rounded. *)
Definition int_truediv (n d : Z) : result float :=
  match d with
  | Z0 => Raise (ZeroDivisionError "division by zero")
  | Zpos p => Ok (rat n p)
  | Zneg p => Ok (rat (- n) p)
  end.

Definition _usage_ratios (request : ModelBudgetPolicyRequest) : result (list (string * float)) :=
  let u := bp_current_usage request in
  let lim := bp_budget_limits request in
  tokens ← int_truediv (bu_tokens u) (bl_max_tokens lim);
  cost ← fdiv (bu_cost_usd u) (bl_max_cost_usd lim);
  time ← fdiv (bu_elapsed_time_s u) (bl_max_time_s lim);
  Ok [("tokens", tokens); ("cost_usd", cost); ("elapsed_time_s", time)].

(** The class of one ratio. *)
Definition dimension_action (abort_mult ratio : float) : EnumBudgetAction :=
  if fgt ratio abort_mult then ABORT
  else if fge ratio fone then THROTTLE
  else if fge ratio _WARN_THRESHOLD then WARN else CONTINUE.
Definition dimensions_at (a : EnumBudgetAction) (abort_mult : float) (ratios : list (string * float)) : list string :=
  map fst (List.filter (fun dr => bool_decide (dimension_action abort_mult dr.2 = a)) ratios).

Definition budget_policy (request : ModelBudgetPolicyRequest) : result ModelBudgetPolicyResult :=
  ratios ← _usage_ratios request;
  let abort_mult := _abort_multiplier (bp_task_priority request) in
  let aborted := dimensions_at ABORT abort_mult ratios in
  let throttled := dimensions_at THROTTLE abort_mult ratios in
  let warned := dimensions_at WARN abort_mult ratios in
  let priority := task_priority_value (bp_task_priority request) in
  Ok (if truthy aborted then
        {| br_action := ABORT;
           br_reason := "Hard limit exceeded on: " +:+ py_join ", " aborted +:+ ". " +:+
                        "Task priority=" +:+ priority +:+ ", " +:+
                        "abort multiplier=" +:+ float_repr abort_mult +:+ ".";
           br_dimensions_exceeded := aborted ++ throttled ++ warned;
           br_recommended_action := "Stop task immediately and release resources." |}
      else if truthy throttled then
        {| br_action := THROTTLE;
           br_reason := "At or above limit on: " +:+ py_join ", " throttled +:+ ". " +:+
                        "Task priority=" +:+ priority +:+ ".";
           br_dimensions_exceeded := throttled ++ warned;
           br_recommended_action := "Reduce output quality or speed to stay within budget. " +:+
                                    "Consider checkpointing progress." |}
      else if truthy warned then
        {| br_action := WARN;
           br_reason := "Approaching limit (>" +:+
                        match py_trunc (_WARN_THRESHOLD * float_of_Z 100)%float with Ok n => pretty n | Raise _ => "" end +:+
                        "%) on: " +:+ py_join ", " warned +:+ ". " +:+
                        "Task priority=" +:+ priority +:+ ".";
           br_dimensions_exceeded := warned;
           br_recommended_action := "Monitor usage closely. Prepare to throttle if consumption continues." |}
      else
        {| br_action := CONTINUE;
           br_reason := "All dimensions within budget.";
           br_dimensions_exceeded := [];
           br_recommended_action := "No action required." |}).

(** ** The repair prompt *)

Inductive EnumRepairStatus := REPAIR_OK.
Record ModelSchemaRepairRequest := {
  sr_malformed_output : string;
  sr_validation_errors : list Obj;
  sr_target_schema : Obj;
  sr_original_prompt : string;
  sr_run_id : string
}.
Record ModelSchemaRepairResult := {
  sx_status : EnumRepairStatus;
  sx_repair_prompt : string;
  sx_error_summary : string;
  sx_repairable : bool;
  sx_run_id : string
}.

(** The loop over the errors changes nothing. *)
Definition _is_repairable (validation_errors : list Obj) : bool := truthy validation_errors.

Definition _format_error (error : Obj) : string :=
  let field_path := match dict_get "loc" error with
                    | None => ""
                    | Some (JArr loc) => py_join " -> " (map json_str loc)
                    | Some loc => json_str loc
                    end in
  let msg := match dict_get "msg" error with Some m => json_str m | None => "unknown error" end in
  let err_type := match dict_get "type" error with Some t => json_str t | None => "unknown" end in
  "  - field '" +:+ field_path +:+ "': " +:+ msg +:+ " (type: " +:+ err_type +:+ ")".

Definition newline : string := String (ascii_of_nat 10) "".

Definition _build_error_summary (validation_errors : list Obj) : string :=
  match validation_errors with
  | [] => "No validation errors reported."
  | _ =>
      py_join newline ((pretty (Z.of_nat (length validation_errors)) +:+ " validation error(s) found:")
                       :: map _format_error validation_errors)
  end.

(** [s.replace(old, new)] for a non-empty [old]: left to right, no overlap. *)
Fixpoint py_replace_from (skip : nat) (old new s : string) : string :=
  match s with
  | EmptyString => EmptyString
  | String c t =>
      match skip with
      | S skip => py_replace_from skip old new t
      | O => if py_startswith old s then new +:+ py_replace_from (String.length old - 1) old new t
             else String c (py_replace_from 0 old new t)
      end
  end.
Definition py_replace : string -> string -> string -> string := py_replace_from 0.

Definition fence : string := "```".
Definition _escape_markdown_fence (value : string) : string := py_replace fence "\`\`\`" value.

Definition _build_repair_prompt (request : ModelSchemaRepairRequest) (error_summary : string) : string :=
  let schema_str := json_dumps_indent 0 (JObj (sr_target_schema request)) in
  let safe_malformed_output := _escape_markdown_fence (sr_malformed_output request) in
  py_join newline [
    "Your previous response did not conform to the required JSON schema.";
    "You must produce a corrected response that strictly validates.";
    "";
    "## Original Prompt";
    "";
    sr_original_prompt request;
    "";
    "## Your Previous (Invalid) Response";
    "";
    fence;
    safe_malformed_output;
    fence;
    "";
    "## What Went Wrong";
    "";
    error_summary;
    "";
    "## Required Schema";
    "";
    "Your response MUST be valid JSON that matches this schema exactly:";
    "";
    fence +:+ "json";
    schema_str;
    fence;
    "";
    "## Instructions";
    "";
    "1. Output ONLY valid JSON — no prose, no markdown fences, no explanation.";
    "2. Include every required field listed in the schema.";
    "3. Do not include fields not defined in the schema.";
    "4. Correct each field listed under 'What Went Wrong' above.";
    "5. If a field value is unknown, use an appropriate empty/default value";
    "   (empty string for str, 0 for int/float, [] for arrays, {} for objects).";
    "";
    "Respond with corrected JSON only:"].

Definition schema_repair (request : ModelSchemaRepairRequest) : ModelSchemaRepairResult :=
  let error_summary := _build_error_summary (sr_validation_errors request) in
  {| sx_status := REPAIR_OK;
     sx_repair_prompt := _build_repair_prompt request error_summary;
     sx_error_summary := error_summary;
     sx_repairable := _is_repairable (sr_validation_errors request);
     sx_run_id := sr_run_id request |}.

(** ** The schema registry *)

Definition _REGISTRY : list string := ["delegation_result"; "review_output"; "plan_document"].

Section registry.
Context (model_json_schema : string -> Obj).

Definition _get_schema (key : string) : option Obj :=
  if str_in key _REGISTRY then Some (model_json_schema key) else None.
Definition known_schema_keys : list string := sort_by id _REGISTRY.

Record ModelSchemaRegistryResult := {
  sg_ok : bool;
  sg_schema_key : string;
  sg_json_schema : option Obj;
  sg_error : string
}.
Definition schema_registry (schema_key : string) : ModelSchemaRegistryResult :=
  match _get_schema schema_key with
  | None => {| sg_ok := false; sg_schema_key := schema_key; sg_json_schema := None;
               sg_error := "Unknown schema key: " +:+ py_repr schema_key +:+ ". " +:+
                           "Known keys: " +:+ py_repr known_schema_keys |}
  | Some schema => {| sg_ok := true; sg_schema_key := schema_key; sg_json_schema := Some schema; sg_error := "" |}
  end.

(** ** Validation of a candidate *)

(** The Python type a JSON type name stands for; booleans are no numbers. *)
Definition json_type_matches (value : json) (expected : string) : bool :=
  let one_of t := str_in (json_type value) t in
  if String.eqb expected "string" then one_of ["str"]
  else if String.eqb expected "integer" then one_of ["int"]
  else if String.eqb expected "number" then one_of ["int"; "float"]
  else if String.eqb expected "boolean" then one_of ["bool"]
  else if String.eqb expected "array" then one_of ["list"]
  else if String.eqb expected "object" then one_of ["dict"]
  else if String.eqb expected "null" then one_of ["NoneType"]
  else true.
Fixpoint _matches_json_type (value expected : json) : bool :=
  match expected with
  | JArr l => existsb (_matches_json_type value) l
  | JStr s => json_type_matches value s
  | _ => true
  end.

Definition validation_error (type : string) (loc : string) (msg : string) (input : json) : Obj :=
  [("type", JStr type); ("loc", JArr [JStr loc]); ("msg", JStr msg); ("input", input)].

(** [field_name not in candidate] for the names of [required]: only a string can
    be a key. *)
Definition missing_error (candidate : Obj) (field_name : json) : option Obj :=
  match field_name with
  | JStr f => if dict_has f candidate then None
              else Some (validation_error "missing" f "Field required" (JObj candidate))
  | _ => Some [("type", JStr "missing"); ("loc", JArr [field_name]); ("msg", JStr "Field required"); ("input", JObj candidate)]
  end.
Definition type_error (candidate : Obj) (field : string * json) : option Obj :=
  actual ← dict_get field.1 candidate;
  match field.2 with
  | JObj field_schema =>
      match dict_get "type" field_schema with
      | None | Some JNull => None
      | Some expected_type =>
          if _matches_json_type actual expected_type then None
          else Some (validation_error "type_error" field.1
                 ("Expected JSON " +:+ json_str expected_type +:+ ", got " +:+ json_type actual) actual)
      end
  | _ => None
  end.

Definition _check_required_and_types (candidate : json) (target_schema : Obj) : list Obj :=
  match candidate with
  | JObj candidate =>
      match default (JObj []) (dict_get "properties" target_schema) with
      | JObj properties =>
          let required := match default (JArr []) (dict_get "required" target_schema) with JArr l => l | _ => [] end in
          omap (missing_error candidate) required ++ omap (type_error candidate) properties
      | _ => []
      end
  | _ => [validation_error "type_error" "__root__" ("Expected JSON object, got " +:+ json_type candidate) candidate]
  end.

Definition _validate_against_schema (candidate_output : string) (target_schema : Obj) : list Obj :=
  match json_loads candidate_output with
  | Raise e => [validation_error "json_invalid" "__root__" ("Output is not valid JSON: " +:+ exn_str e) (JStr candidate_output)]
  | Ok parsed => _check_required_and_types parsed target_schema
  end.

(** ** One iteration *)

Record ModelComplianceLoopResult := {
  cl_compliant : bool;
  cl_validated_output : string;
  cl_tokens_to_compliance : Z;
  cl_compliance_attempts : Z;
  cl_repair_prompt : string;
  cl_budget_action : EnumBudgetAction;
  cl_abort_reason : string
}.

Definition evaluate (candidate_output schema_key original_prompt : string)
    (attempt_number cumulative_tokens attempt_tokens : Z) (budget_limits : ModelBudgetLimits)
    (elapsed_time_s cost_usd : float) (task_priority : EnumTaskPriority) (run_id : string) : result ModelComplianceLoopResult :=
  let running_tokens := cumulative_tokens + attempt_tokens in
  match _get_schema schema_key with
  | None =>
      Ok {| cl_compliant := false; cl_validated_output := ""; cl_tokens_to_compliance := running_tokens;
            cl_compliance_attempts := attempt_number; cl_repair_prompt := ""; cl_budget_action := ABORT;
            cl_abort_reason := "Unknown output schema key: " +:+ py_repr schema_key |}
  | Some target_schema =>
      match _validate_against_schema candidate_output target_schema with
      | [] =>
          Ok {| cl_compliant := true; cl_validated_output := candidate_output; cl_tokens_to_compliance := running_tokens;
                cl_compliance_attempts := attempt_number; cl_repair_prompt := ""; cl_budget_action := CONTINUE;
                cl_abort_reason := "" |}
      | validation_errors =>
          let repair_result := schema_repair {|
            sr_malformed_output := candidate_output; sr_validation_errors := validation_errors;
            sr_target_schema := target_schema; sr_original_prompt := original_prompt; sr_run_id := run_id |} in
          budget_result ← budget_policy {|
            bp_current_usage := {| bu_tokens := running_tokens; bu_cost_usd := cost_usd; bu_elapsed_time_s := elapsed_time_s |};
            bp_budget_limits := budget_limits; bp_task_priority := task_priority |};
          let aborts := bool_decide (br_action budget_result = ABORT) in
          Ok (if aborts || negb (sx_repairable repair_result) then
                {| cl_compliant := false; cl_validated_output := ""; cl_tokens_to_compliance := running_tokens;
                   cl_compliance_attempts := attempt_number; cl_repair_prompt := ""; cl_budget_action := ABORT;
                   cl_abort_reason :=
                     if aborts then br_reason budget_result
                     else "Schema-repair classified errors as non-repairable: " +:+ sx_error_summary repair_result |}
              else
                {| cl_compliant := false; cl_validated_output := ""; cl_tokens_to_compliance := running_tokens;
                   cl_compliance_attempts := attempt_number; cl_repair_prompt := sx_repair_prompt repair_result;
                   cl_budget_action := br_action budget_result; cl_abort_reason := "" |})
      end
  end.
End registry.

(** ** When an iteration returns, and what it returns *)

Definition limits_ok (b : ModelBudgetLimits) : Prop :=
  bl_max_tokens b <> 0 /\ is_ok (fdiv fzero (bl_max_cost_usd b)) /\ is_ok (fdiv fzero (bl_max_time_s b)).

Lemma budget_policy_ok tokens b prio : limits_ok b ->
  is_ok (budget_policy {| bp_current_usage := {| bu_tokens := tokens; bu_cost_usd := fzero; bu_elapsed_time_s := fzero |};
                          bp_budget_limits := b; bp_task_priority := prio |}).
Proof.
  intros (Ht & [c Hc] & [t Htm]). unfold budget_policy, _usage_ratios. cbn.
  assert (is_ok (int_truediv tokens (bl_max_tokens b))) as [x ->].
  { unfold int_truediv. destruct (bl_max_tokens b); [done|by eexists..]. }
  cbn. rewrite Hc. cbn. rewrite Htm. cbn. by eexists.
Qed.

Section evaluate.
Context (schema : string -> Obj) (candidate key prompt : string) (n cumulative attempt : Z) (b : ModelBudgetLimits)
  (prio : EnumTaskPriority) (run : string).

Lemma evaluate_ok : limits_ok b -> is_ok (evaluate schema candidate key prompt n cumulative attempt b fzero fzero prio run).
Proof.
  intros Hb. unfold evaluate. destruct (_get_schema schema key) as [target|]; [|by eexists].
  destruct (_validate_against_schema candidate target) as [|e l]; [by eexists|].
  destruct (budget_policy_ok (cumulative + attempt) b prio Hb) as [r ->]. by eexists.
Qed.

Lemma py_join_cons_ne sep w ws : ws <> [] -> py_join sep (w :: ws) = w +:+ sep +:+ py_join sep ws.
Proof. by destruct ws. Qed.
Lemma repair_prompt_nonempty r summary : _build_repair_prompt r summary <> "".
Proof. unfold _build_repair_prompt. rewrite py_join_cons_ne by done. done. Qed.

(** The loop goes on with a repair prompt exactly when the candidate failed and
    the budget allows it. *)
Lemma evaluate_cases r :
  evaluate schema candidate key prompt n cumulative attempt b fzero fzero prio run = Ok r ->
  cl_tokens_to_compliance r = cumulative + attempt /\ cl_compliance_attempts r = n
  /\ (cl_compliant r = true <-> exists target, _get_schema schema key = Some target /\ _validate_against_schema candidate target = [])
  /\ (cl_compliant r = true -> cl_validated_output r = candidate /\ cl_repair_prompt r = "")
  /\ (cl_repair_prompt r <> "" <-> cl_compliant r = false /\ cl_budget_action r <> ABORT).
Proof.
  unfold evaluate. destruct (_get_schema schema key) as [target|].
  2: { intros [= <-]. cbn. repeat split; try done; [by intros (? & ? & _)|by intros [_ ?]]. }
  destruct (_validate_against_schema candidate target) as [|e l] eqn:Ev.
  { intros [= <-]. cbn. repeat split; try done; [eauto|by intros [? _]]. }
  destruct (budget_policy _) as [br|] eqn:Eb; [|done]. cbn.
  case_bool_decide as Ha; cbn; intros [= <-]; cbn; repeat split; try done.
  all: try (intros (? & [= <-] & ?); congruence).
  all: try by intros [_ ?].
Qed.
End evaluate.
