(* ===== verification/DelegationBar.v ===== *)
(** * The required bar, its evidence, and the escalation decision

    [node_delegation_orchestrator/quality_bar_authority.py],
    [models/delegation/quality_bar_evidence.py],
    [node_delegation_escalation_decision_compute] with the request and the
    result of [routing/model_escalation_decision_*.py]. *)
From S2P Require Import Prelude PyFloat PyJson DelegationModels DelegationRouting.

#[local] Open Scope Z_scope.

(** ** The required bar *)

Definition RequiredBarAuthorityError (msg : string) : py_exn := OtherError "RequiredBarAuthorityError" msg.
Definition is_bar_error (e : py_exn) : bool :=
  match e with OtherError c _ => String.eqb c "RequiredBarAuthorityError" | _ => false end.

Record RequiredBarAuthority := {
  ra_required_bar : float;
  ra_authority_source : string;
  ra_score_source : string;
  ra_request_override_applied : bool;
  ra_override_within_bounds : bool
}.

Definition _bar_value (raw : option json) (field_name : string) : result float :=
  let err := Raise (RequiredBarAuthorityError (field_name +:+ " must be a number in [0, 1]")) in
  value ← match raw with
          | Some (JInt n) => Ok (float_of_Z n)
          | Some (JFloat r) => Ok (lit r)
          | Some (JStr s) => match py_float s with Ok x => Ok x | Raise _ => err end
          | _ => err
          end;
  if negb (is_finite value) || flt value fzero || fgt value fone then err else Ok value.

Definition _quality_gate_policy (entry : Obj) : option Obj :=
  match get_obj "quality_gate" entry with
  | Some policy => Some policy
  | None => if dict_has "required_bar" entry then Some entry else None
  end.

Definition _score_source (policy : Obj) : string :=
  match dict_get "score_source" policy with
  | Some (JStr raw) => if truthy (py_strip raw) then py_strip raw else "quality_gate_graded_score"
  | _ => "quality_gate_graded_score"
  end.

Definition _workflow_override (policy : Obj) (workflow_name : option string) : result (option float) :=
  match workflow_name with
  | None => Ok None
  | Some w =>
      match get_obj "workflow_overrides" policy with
      | None => Ok None
      | Some raw_overrides =>
          match dict_get w raw_overrides with
          | None | Some JNull => Ok None
          | Some raw =>
              let raw := match raw with JObj o => dict_get "required_bar" o | _ => Some raw end in
              v ← _bar_value raw ("workflow_overrides." +:+ w +:+ ".required_bar"); Ok (Some v)
          end
      end
  end.

Definition _override_bounds (policy : Obj) : result (float * float) :=
  match get_obj "request_override_bounds" policy with
  | None => Raise (RequiredBarAuthorityError "request_override_bounds must be declared with min/max")
  | Some raw_bounds =>
      min_bar ← _bar_value (dict_get "min" raw_bounds) "request_override_bounds.min";
      max_bar ← _bar_value (dict_get "max" raw_bounds) "request_override_bounds.max";
      if fgt min_bar max_bar then
        Raise (RequiredBarAuthorityError "request_override_bounds.min must be <= request_override_bounds.max")
      else Ok (min_bar, max_bar)
  end.

Definition _assert_within_bounds (value min_bar max_bar : float) (source : string) : result unit :=
  if fle min_bar value && fle value max_bar then Ok ()
  else Raise (RequiredBarAuthorityError
    (source +:+ " required_bar " +:+ format_fixed 3 value +:+ " outside declared bounds " +:+
     "[" +:+ format_fixed 3 min_bar +:+ ", " +:+ format_fixed 3 max_bar +:+ "]")).

Definition resolve_required_bar_authority (env : RoutingEnv) (task_type : string) (workflow_name : option string)
    (request_override : option float) : result RequiredBarAuthority :=
  match _task_class_entry (_get_task_class_contract env) task_type with
  | None => Raise (RequiredBarAuthorityError
              ("required_bar missing: task_class " +:+ py_repr task_type +:+ " is not declared"))
  | Some entry =>
      match policy ← _quality_gate_policy entry; bar ← dict_get "required_bar" policy; Some (policy, bar) with
      | None => Raise (RequiredBarAuthorityError ("required_bar missing for task_class " +:+ py_repr task_type))
      | Some (policy, bar) =>
          required_bar ← _bar_value (Some bar) "required_bar";
          '(min_bar, max_bar) ← _override_bounds policy;
          let score_source := _score_source policy in
          workflow_bar ← _workflow_override policy workflow_name;
          let workflow_source := "workflow:" +:+ opt_str workflow_name in
          '(required_bar, authority_source) ←
            match workflow_bar with
            | Some w => _ ← _assert_within_bounds w min_bar max_bar workflow_source; Ok (w, workflow_source)
            | None => Ok (required_bar, "task_class:" +:+ task_type)
            end;
          match request_override with
          | Some o =>
              _ ← _assert_within_bounds o min_bar max_bar "request_override";
              Ok {| ra_required_bar := o; ra_authority_source := "request_override"; ra_score_source := score_source;
                    ra_request_override_applied := true; ra_override_within_bounds := true |}
          | None =>
              Ok {| ra_required_bar := required_bar; ra_authority_source := authority_source; ra_score_source := score_source;
                    ra_request_override_applied := false; ra_override_within_bounds := true |}
          end
      end
  end.

(** ** The evidence labels *)

Definition _LABEL_PREFIX : string := "p3.".
Definition bool_label (b : bool) : string := py_lower (py_repr b).

Definition format_quality_bar_labels (required_bar actual_score : float) (escalation_count : Z)
    (authority_source score_source : string) (request_override_applied override_within_bounds : bool) : list string :=
  [_LABEL_PREFIX +:+ "required_bar=" +:+ format_fixed 3 required_bar;
   _LABEL_PREFIX +:+ "actual_score=" +:+ format_fixed 3 actual_score;
   _LABEL_PREFIX +:+ "escalation_count=" +:+ pretty escalation_count;
   _LABEL_PREFIX +:+ "authority_source=" +:+ authority_source;
   _LABEL_PREFIX +:+ "score_source=" +:+ score_source;
   _LABEL_PREFIX +:+ "request_override_applied=" +:+ bool_label request_override_applied;
   _LABEL_PREFIX +:+ "override_within_bounds=" +:+ bool_label override_within_bounds].

(** [s.removeprefix(p)] of a string that starts with [p]; [s.partition("=")]. *)
Definition drop_prefix (p s : string) : string :=
  String.substring (String.length p) (String.length s - String.length p) s.
Fixpoint partition_eq (s : string) : option (string * string) :=
  match s with
  | EmptyString => None
  | String c t => if Nat.eqb (nat_of_ascii c) 61 then Some (EmptyString, t)
                  else '(k, v) ← partition_eq t; Some (String c k, v)
  end.
Definition label_value (label : string) : option (string * string) :=
  if py_startswith _LABEL_PREFIX label then
    match partition_eq (drop_prefix _LABEL_PREFIX label) with
    | Some (String c k, v) => Some (String c k, v)
    | _ => None
    end
  else None.
Definition _label_values (labels : list string) : Obj :=
  fold_left (fun values label => match label_value label with Some (k, v) => dict_set k (JStr v) values | None => values end)
    labels [].

(** The first of the keys with a value, in the payload, then in the labels. *)
Definition not_none (j : option json) : option json := match j with Some JNull => None | _ => j end.
Definition first_key (d : Obj) (keys : list string) : option json :=
  head (omap (fun k => not_none (dict_get k d)) keys).
Definition _first_value (payload label_values : Obj) (keys : list string) : option json :=
  match first_key payload keys with Some v => Some v | None => first_key label_values keys end.
Definition finite_value (x : float) : option float := if is_finite x then Some x else None.
Definition _first_float (payload label_values : Obj) (keys : list string) : option float :=
  match _first_value payload label_values keys with
  | Some (JInt n) => finite_value (float_of_Z n)
  | Some (JFloat r) => finite_value (lit r)
  | Some (JStr s) => match py_float s with Ok x => finite_value x | Raise _ => None end
  | _ => None
  end.
Definition _first_int (payload label_values : Obj) (keys : list string) : option Z :=
  v ← _first_float payload label_values keys; match py_trunc v with Ok n => Some n | Raise _ => None end.
Definition _first_bool (payload label_values : Obj) (keys : list string) : option bool :=
  match _first_value payload label_values keys with
  | Some (JBool b) => Some b
  | Some (JStr s) =>
      let lowered := py_lower (py_strip s) in
      if str_in lowered ["true"; "1"; "yes"] then Some true
      else if str_in lowered ["false"; "0"; "no"] then Some false else None
  | _ => None
  end.
Definition _first_str (payload label_values : Obj) (keys : list string) : option string :=
  v ← _first_value payload label_values keys;
  let text := py_strip (json_str v) in if truthy text then Some text else None.

(** The evidence dict: the fields found. *)
Record QualityBarEvidence := {
  qe_required_bar : option float;
  qe_actual_score : option float;
  qe_escalation_count : option Z;
  qe_authority_source : option string;
  qe_score_source : option string;
  qe_request_override_applied : option bool;
  qe_override_within_bounds : option bool
}.
Definition extract_quality_bar_evidence (payload : Obj) (checked_labels : list string) : QualityBarEvidence :=
  let label_values := _label_values checked_labels in
  {| qe_required_bar := _first_float payload label_values ["required_bar"; "requiredBar"];
     qe_actual_score := _first_float payload label_values
       ["actual_score"; "actualScore"; "quality_score"; "qualityScore"];
     qe_escalation_count := _first_int payload label_values ["escalation_count"; "escalationCount"];
     qe_authority_source := _first_str payload label_values
       ["authority_source"; "authoritySource"; "required_bar_source"; "requiredBarSource"];
     qe_score_source := _first_str payload label_values ["score_source"; "scoreSource"];
     qe_request_override_applied := _first_bool payload label_values ["request_override_applied"; "requestOverrideApplied"];
     qe_override_within_bounds := _first_bool payload label_values ["override_within_bounds"; "overrideWithinBounds"] |}.

(** ** The escalation decision *)

Record ModelEscalationDecisionRequest := {
  dq_escalation_count : Z;
  dq_max_escalation_attempts : Z;
  dq_current_tier_name : option string;
  dq_error_retryable : bool;
  dq_next_tier_name : option string;
  dq_non_retryable_reason : string;
  dq_no_higher_tier_reason : option string
}.
Record ModelEscalationDecisionResult := {
  ds_can_escalate : bool;
  ds_next_tier_name : option string;
  ds_terminal_failure_reason : option string
}.

(** Both counts are declared [ge=0]. *)
Definition validate_decision_request (r : ModelEscalationDecisionRequest) : result ModelEscalationDecisionRequest :=
  if (dq_escalation_count r <? 0) || (dq_max_escalation_attempts r <? 0)
  then Raise (ValueError "Input should be greater than or equal to 0") else Ok r.

Definition _verdict_is_consistent (r : ModelEscalationDecisionResult) : result ModelEscalationDecisionResult :=
  match ds_can_escalate r, ds_next_tier_name r, ds_terminal_failure_reason r with
  | true, None, _ => Raise (ValueError "can_escalate=True requires next_tier_name to be set")
  | true, Some _, Some _ => Raise (ValueError "can_escalate=True must not carry a terminal_failure_reason")
  | false, _, None => Raise (ValueError "can_escalate=False requires terminal_failure_reason to be set")
  | false, Some _, Some _ => Raise (ValueError "can_escalate=False must not carry next_tier_name")
  | _, _, _ => Ok r
  end.

Definition _MAX_ATTEMPTS_REACHED_REASON : string := "max_escalation_attempts_reached".
Definition _CURRENT_TIER_UNKNOWN_REASON : string := "current_tier_unknown".

Definition _terminal (reason : string) : result ModelEscalationDecisionResult :=
  _verdict_is_consistent {| ds_can_escalate := false; ds_next_tier_name := None; ds_terminal_failure_reason := Some reason |}.

Definition decide_escalation (request : ModelEscalationDecisionRequest) : result ModelEscalationDecisionResult :=
  if negb (dq_error_retryable request) then _terminal (dq_non_retryable_reason request)
  else if dq_max_escalation_attempts request <=? dq_escalation_count request then _terminal _MAX_ATTEMPTS_REACHED_REASON
  else match dq_current_tier_name request with
  | None => _terminal _CURRENT_TIER_UNKNOWN_REASON
  | Some _ =>
      match dq_next_tier_name request with
      | None =>
          match dq_no_higher_tier_reason request with
          | None => Raise (ValueError
              ("next_tier_name is None but no_higher_tier_reason was not " +:+
               "supplied; the orchestrator must resolve the precise " +:+
               "no-higher-tier reason before delegating the decision."))
          | Some reason => _terminal reason
          end
      | Some next => _verdict_is_consistent {| ds_can_escalate := true; ds_next_tier_name := Some next; ds_terminal_failure_reason := None |}
      end
  end.

(** A verdict is one of two: escalate to a tier, or end with a reason. *)
Definition verdict_spec (request : ModelEscalationDecisionRequest) (v : ModelEscalationDecisionResult) : Prop :=
  (ds_can_escalate v = true /\ ds_terminal_failure_reason v = None /\ ds_next_tier_name v = dq_next_tier_name request
   /\ is_Some (ds_next_tier_name v) /\ is_Some (dq_current_tier_name request)
   /\ dq_error_retryable request = true /\ dq_escalation_count request < dq_max_escalation_attempts request)
  \/ (ds_can_escalate v = false /\ ds_next_tier_name v = None
   /\ ds_terminal_failure_reason v =
        (if negb (dq_error_retryable request) then Some (dq_non_retryable_reason request)
        else if dq_max_escalation_attempts request <=? dq_escalation_count request then Some _MAX_ATTEMPTS_REACHED_REASON
        else match dq_current_tier_name request with
             | None => Some _CURRENT_TIER_UNKNOWN_REASON
             | Some _ => dq_no_higher_tier_reason request
             end)
   /\ is_Some (ds_terminal_failure_reason v)).

Lemma decide_escalation_spec request v : decide_escalation request = Ok v -> verdict_spec request v.
Proof.
  unfold decide_escalation, _terminal, _verdict_is_consistent, verdict_spec. intros H.
  destruct (dq_error_retryable request); cbn in *; [|injection H as <-; right; cbn; eauto].
  destruct (_ <=? _) eqn:E; cbn in *; [injection H as <-; right; cbn; eauto|]. apply Z.leb_gt in E.
  destruct (dq_current_tier_name request); cbn in *; [|injection H as <-; right; cbn; eauto].
  destruct (dq_next_tier_name request); cbn in *; [injection H as <-; left; cbn; eauto 10|].
  destruct (dq_no_higher_tier_reason request); cbn in *; [injection H as <-; right; cbn; eauto|done].
Qed.

(** The only raise left is a missing reason. *)
Lemma decide_escalation_ok request :
  (dq_next_tier_name request = None -> dq_error_retryable request = true ->
   dq_escalation_count request < dq_max_escalation_attempts request -> is_Some (dq_current_tier_name request) ->
   is_Some (dq_no_higher_tier_reason request)) ->
  is_ok (decide_escalation request).
Proof.
  intros H. unfold decide_escalation, _terminal, _verdict_is_consistent.
  destruct (dq_error_retryable request); cbn; [|by eexists].
  destruct (_ <=? _) eqn:E; [by eexists|]. apply Z.leb_gt in E.
  destruct (dq_current_tier_name request); [|by eexists]. destruct (dq_next_tier_name request); [by eexists|].
  destruct (H eq_refl eq_refl E) as [x ->]; [by eexists|]. by eexists.
Qed.

(** Resolving the bar raises nothing but its own error. *)
Lemma bar_value_raises raw f e : _bar_value raw f = Raise e -> is_bar_error e = true.
Proof.
  unfold _bar_value. intros H.
  destruct raw as [[| |n|r|s|l|o]|]; cbn in H; try (injection H as <-; done).
  all: try (destruct (py_float s); cbn in H; [|injection H as <-; done]).
  all: destruct (_ || _); [injection H as <-; done|done].
Qed.
Lemma bounds_raises policy e : _override_bounds policy = Raise e -> is_bar_error e = true.
Proof.
  unfold _override_bounds. intros H. destruct (get_obj _ _); [|by injection H as <-].
  destruct (_bar_value _ "request_override_bounds.min") eqn:E1; cbn in H; [|injection H as <-; by eapply bar_value_raises].
  destruct (_bar_value _ "request_override_bounds.max") eqn:E2; cbn in H; [|injection H as <-; by eapply bar_value_raises].
  destruct (fgt _ _); [by injection H as <-|done].
Qed.
Lemma resolve_bar_raises env t e : resolve_required_bar_authority env t None None = Raise e -> is_bar_error e = true.
Proof.
  unfold resolve_required_bar_authority. intros H.
  destruct (_task_class_entry _ _) as [entry|]; [|by injection H as <-].
  destruct (_quality_gate_policy entry) as [policy|]; cbn [mbind option_bind result_bind] in H; [|by injection H as <-].
  destruct (dict_get _ policy) as [bar|]; cbn [mbind option_bind result_bind] in H; [|by injection H as <-].
  destruct (_bar_value _ _) eqn:E1; cbn [mbind option_bind result_bind] in H; [|injection H as <-; by eapply bar_value_raises].
  destruct (_override_bounds policy) as [[lo hi]|] eqn:E2; cbn [mbind option_bind result_bind] in H; [done|].
  injection H as <-. by eapply bounds_raises.
Qed.
