(* ===== verification/DelegationWorkflow.v ===== *)
(** * The delegation workflow

    [node_delegation_orchestrator]: [handlers/handler_delegation_workflow.py],
    [lifecycle_reactor.py] and the state machine of [contract.yaml].

    A handler mutates one workflow object, found in the dict of workflows by its
    correlation id: a body is a computation on that object ([W]), and what it did
    is in the dict afterwards even when it raised ([on_workflow]).  The clock, the
    settings and the routing configuration are a [World]; every read of the clock
    and of the settings is a logged call, answered from the reads before it. *)
From S2P Require Import Prelude PyFloat PyJson LogMonad DelegationModels DelegationPricing DelegationRouting InferenceProtocol ComplianceLoop DelegationBar.
Import WfState (EnumDelegationState) FailureClass (EnumDelegationFailureClass) Lifecycle (EnumAgentTaskLifecycleType).

#[local] Open Scope Z_scope.

(** ** The declared state machine *)

(** [fsm.transitions] of the contract. *)
Definition fsm_transitions : list (string * string) := [
  ("RECEIVED", "ROUTED");
  ("ROUTED", "ROUTED");
  ("ROUTED", "EXECUTING");
  ("ROUTED", "INFERENCE_COMPLETED");
  ("EXECUTING", "COMPLETED");
  ("EXECUTING", "FAILED");
  ("INFERENCE_COMPLETED", "GATE_EVALUATED");
  ("GATE_EVALUATED", "ESCALATING");
  ("ESCALATING", "ROUTED");
  ("GATE_EVALUATED", "COMPLETED");
  ("GATE_EVALUATED", "FAILED");
  ("GATE_EVALUATED", "ROUTED");
  ("ROUTED", "ESCALATING");
  ("ROUTED", "FAILED");
  ("ROUTED", "COMPLETED")].

Definition all_states : list EnumDelegationState :=
  [WfState.RECEIVED; WfState.ROUTED; WfState.EXECUTING; WfState.INFERENCE_COMPLETED; WfState.GATE_EVALUATED;
   WfState.ESCALATING; WfState.COMPLETED; WfState.FAILED].
(** [EnumDelegationState(value)] *)
Definition delegation_state_of (value : string) : option EnumDelegationState :=
  List.find (fun s => String.eqb (delegation_state_value s) value) all_states.

Definition _build_declared_transitions (transitions : list (string * string)) : list (EnumDelegationState * EnumDelegationState) :=
  omap (fun ft => from ← delegation_state_of ft.1; to ← delegation_state_of ft.2; Some (from, to)) transitions.
Definition _DECLARED_TRANSITIONS : list (EnumDelegationState * EnumDelegationState) :=
  Eval vm_compute in _build_declared_transitions fsm_transitions.

Definition declared (from to : EnumDelegationState) : bool := bool_decide ((from, to) ∈ _DECLARED_TRANSITIONS).

(** ** The state of a workflow *)

Record DelegationWorkflowState := {
  wf_correlation_id : string;
  wf_state : EnumDelegationState;
  wf_request : option ModelDelegationRequest;
  wf_routing_decision : option ModelRoutingDecision;
  wf_invocation_command : option ModelInvocationCommand;
  wf_inference_content : option string;
  wf_inference_model_used : option string;
  wf_inference_latency_ms : Z;
  wf_inference_prompt_tokens : Z;
  wf_inference_completion_tokens : Z;
  wf_inference_total_tokens : Z;
  wf_inference_llm_call_id : string;
  wf_context_pack_hash : string;
  wf_gate_result : option ModelQualityGateResult;
  wf_started_at_ns : Z;
  wf_compliance_attempts : Z;
  wf_accumulated_tokens : Z;
  wf_inference_intent_in_flight : bool;
  wf_routing_intent_replayed : bool;
  wf_escalation_count : Z;
  wf_current_tier_name : option string;
  wf_escalation_history : list ModelDelegationEscalationAttempt;
  wf_cumulative_attempt_cost_usd : float;
  wf_cumulative_attempt_prompt_tokens : Z;
  wf_cumulative_attempt_completion_tokens : Z;
  wf_local_retry_count : Z;
  wf_local_retry_tier : option string;
  wf_same_tier_failed_backend_refs : list string;
  wf_same_tier_failed_backend_tier : option string;
  wf_tenant_id : option string
}.
#[export] Instance eta_DelegationWorkflowState : Eta DelegationWorkflowState := fun w => {|
  wf_correlation_id := wf_correlation_id w; wf_state := wf_state w; wf_request := wf_request w;
  wf_routing_decision := wf_routing_decision w; wf_invocation_command := wf_invocation_command w;
  wf_inference_content := wf_inference_content w; wf_inference_model_used := wf_inference_model_used w;
  wf_inference_latency_ms := wf_inference_latency_ms w; wf_inference_prompt_tokens := wf_inference_prompt_tokens w;
  wf_inference_completion_tokens := wf_inference_completion_tokens w;
  wf_inference_total_tokens := wf_inference_total_tokens w; wf_inference_llm_call_id := wf_inference_llm_call_id w;
  wf_context_pack_hash := wf_context_pack_hash w; wf_gate_result := wf_gate_result w;
  wf_started_at_ns := wf_started_at_ns w; wf_compliance_attempts := wf_compliance_attempts w;
  wf_accumulated_tokens := wf_accumulated_tokens w; wf_inference_intent_in_flight := wf_inference_intent_in_flight w;
  wf_routing_intent_replayed := wf_routing_intent_replayed w; wf_escalation_count := wf_escalation_count w;
  wf_current_tier_name := wf_current_tier_name w; wf_escalation_history := wf_escalation_history w;
  wf_cumulative_attempt_cost_usd := wf_cumulative_attempt_cost_usd w;
  wf_cumulative_attempt_prompt_tokens := wf_cumulative_attempt_prompt_tokens w;
  wf_cumulative_attempt_completion_tokens := wf_cumulative_attempt_completion_tokens w;
  wf_local_retry_count := wf_local_retry_count w; wf_local_retry_tier := wf_local_retry_tier w;
  wf_same_tier_failed_backend_refs := wf_same_tier_failed_backend_refs w;
  wf_same_tier_failed_backend_tier := wf_same_tier_failed_backend_tier w; wf_tenant_id := wf_tenant_id w |}.

(** [DelegationWorkflowState(correlation_id=.., request=.., context_pack_hash=..,
    tenant_id=..)] with its defaults. *)
Definition new_workflow (cid : string) (request : ModelDelegationRequest) (context_pack_hash : string)
    (started_at_ns : Z) (tenant_id : option string) : DelegationWorkflowState := {|
  wf_correlation_id := cid; wf_state := WfState.RECEIVED; wf_request := Some request;
  wf_routing_decision := None; wf_invocation_command := None;
  wf_inference_content := None; wf_inference_model_used := None;
  wf_inference_latency_ms := 0; wf_inference_prompt_tokens := 0;
  wf_inference_completion_tokens := 0; wf_inference_total_tokens := 0; wf_inference_llm_call_id := "";
  wf_context_pack_hash := context_pack_hash; wf_gate_result := None;
  wf_started_at_ns := started_at_ns; wf_compliance_attempts := 0;
  wf_accumulated_tokens := 0; wf_inference_intent_in_flight := false;
  wf_routing_intent_replayed := false; wf_escalation_count := 0;
  wf_current_tier_name := None; wf_escalation_history := [];
  wf_cumulative_attempt_cost_usd := fzero; wf_cumulative_attempt_prompt_tokens := 0;
  wf_cumulative_attempt_completion_tokens := 0; wf_local_retry_count := 0; wf_local_retry_tier := None;
  wf_same_tier_failed_backend_refs := []; wf_same_tier_failed_backend_tier := None; wf_tenant_id := tenant_id |}.

(** ** What a handler reads *)

Inductive Read := ReadTimeNs | ReadNow | ReadSettings.

Record World := {
  w_routing : RoutingEnv;
  (** the registry and the manifest [pricing.py] loads *)
  w_pricing_tiers : list ModelRoutingTier;
  w_pricing_entry : string -> option ModelPricingEntry;
  w_protocol : result ModelInferenceProtocolConfig;
  w_json_schema : string -> Obj;
  w_time_ns : list Read -> Z;
  w_now : list Read -> datetime;
  w_onex_tenant_id : list Read -> string;
  (** the SHA-256 of the file the hash is taken of, if there is one *)
  w_routing_tiers_file : option string;
  w_lifecycle_value : EnumAgentTaskLifecycleType -> string;
  (** fields the installed wire classes declare *)
  w_intent_has_provider_options : bool;
  w_intent_has_tenant_id : bool;
  w_routing_intent_has_exclusions : bool
}.

Definition W (A : Type) : Type := M DelegationWorkflowState Read A.

Section workflow.
Context (world : World).

Definition read_time_ns : W Z := call ReadTimeNs (fun l => Ok (w_time_ns world l)).
Definition read_now : W datetime := call ReadNow (fun l => Ok (w_now world l)).
(** [get_settings().onex_tenant_id or None] *)
Definition setting_tenant {S} : M S Read (option string) :=
  call ReadSettings (fun l => Ok (let t := w_onex_tenant_id world l in if truthy t then Some t else None)).
(** [assert x is not None] *)
Definition require {A} (x : option A) : W A :=
  match x with Some a => mret a | None => raise (AssertionError "") end.

Definition wf_update (f : DelegationWorkflowState -> DelegationWorkflowState) : W unit := modify f.

(** ** Pure helpers *)

Definition _MAX_INFERENCE_ESCALATION_ATTEMPTS : Z := 2.
Definition _INFERENCE_ERROR_EXCLUDED_TIERS : list string := [].
Definition _NON_RETRYABLE_INFERENCE_ERROR_MARKERS : list string := ["empty message content"; "empty choices array"].
Definition _TASK_TEMPERATURE : list (string * float) := [("test", rat 3 10); ("document", rat 5 10); ("research", rat 7 10)].
Definition temperature_of (task_type : string) : float := default (rat 3 10) (table_get task_type _TASK_TEMPERATURE).

Definition _should_escalate_inference_error (error_message : string) : bool :=
  negb (any_sub _NON_RETRYABLE_INFERENCE_ERROR_MARKERS (py_lower error_message)).

Definition _inference_error_failure_class (error_message : string) : EnumDelegationFailureClass :=
  let normalized := py_lower error_message in
  if any_sub ["finish_reason=length"; "truncat"] normalized then FailureClass.CONTEXT_TOO_LARGE
  else if any_sub ["timed out"; "timeout"] normalized then FailureClass.TIMEOUT
  else if any_sub ["rate limit"; "429"] normalized then FailureClass.RATE_LIMITED
  else if any_sub ["401"; "unauthorized"; "auth"] normalized then FailureClass.PROVIDER_AUTH_FAILED
  else if any_sub ["unavailable"; "connection"; "503"] normalized then FailureClass.MODEL_UNAVAILABLE
  else FailureClass.UNKNOWN.

Definition _record_inference_response (response : ModelInferenceResponseData) : W unit :=
  wf_update (fun w => w
    <| wf_inference_intent_in_flight := false |>
    <| wf_inference_content := Some (ir_content response) |>
    <| wf_inference_model_used := Some (ir_model_used response) |>
    <| wf_inference_latency_ms := ir_latency_ms response |>
    <| wf_inference_prompt_tokens := ir_prompt_tokens response |>
    <| wf_inference_completion_tokens := ir_completion_tokens response |>
    <| wf_inference_total_tokens := ir_prompt_tokens response + ir_completion_tokens response |>
    <| wf_inference_llm_call_id := ir_llm_call_id response |>).

Definition _inference_timeout_seconds (w : DelegationWorkflowState) : float :=
  match wf_routing_decision w with
  | None => float_of_Z 30
  | Some d =>
      match fdiv (float_of_Z (rd_timeout_ms d)) (float_of_Z 1000) with
      | Ok x => fmax fone (fmin (float_of_Z 600) x)
      | Raise _ => fone
      end
  end.

Definition _resolve_tenant_id : W (option string) :=
  w ← get_state;
  if truthy (wf_tenant_id w) then mret (wf_tenant_id w)
  else match r ← wf_request w; if truthy (rq_tenant_id r) then rq_tenant_id r else None with
       | Some t => mret (Some t)
       | None => setting_tenant
       end.

Definition _normalized_context_pack (request : ModelDelegationRequest) : string :=
  py_strip (default "" (rq_context_pack request)).
Definition _context_pack_hash_for_event (request : ModelDelegationRequest) : string :=
  if truthy (_normalized_context_pack request) then py_strip (default "" (rq_context_pack_hash request)) else "".
Definition _prompt_with_context_pack (request : ModelDelegationRequest) (prompt : string) : string :=
  let context_pack := _normalized_context_pack request in
  if truthy context_pack then context_pack +:+ newline +:+ newline +:+ prompt else prompt.

(** [_build_model_inference_intent]; a field the class does not declare is left
    out. *)
Definition _build_model_inference_intent (base_url model system_prompt prompt : string) (max_tokens : Z)
    (temperature timeout_seconds : float) (correlation_id : string) (api_key_ref : option string)
    (extra_headers : option (list (string * string))) (provider_request_options : Obj) (tenant_id : option string)
    : ModelInferenceIntent :=
  {| ii_base_url := base_url;
     ii_model := model;
     ii_system_prompt := system_prompt;
     ii_prompt := prompt;
     ii_max_tokens := max_tokens;
     ii_temperature := temperature;
     ii_timeout_seconds := timeout_seconds;
     ii_correlation_id := correlation_id;
     ii_api_key_ref := api_key_ref;
     ii_extra_headers := extra_headers;
     ii_provider_request_options :=
       if truthy provider_request_options && w_intent_has_provider_options world
       then Some provider_request_options else None;
     ii_tenant_id := if w_intent_has_tenant_id world then Some tenant_id else None |}.

(** The intent of an attempt under a decision, as the first attempt, an
    escalation and a repair build it. *)
Definition inference_intent (decision : ModelRoutingDecision) (request : ModelDelegationRequest) (prompt : string)
    : W ModelInferenceIntent :=
  config ← lift (w_protocol world);
  let '(system_prompt, prompt, provider_request_options) :=
    apply_inference_protocol config (rd_system_prompt decision) (_prompt_with_context_pack request prompt)
      (rd_selected_model decision) (Some (rq_task_type request)) None in
  w ← get_state;
  tenant_id ← _resolve_tenant_id;
  mret (_build_model_inference_intent (rd_endpoint_url decision) (rd_selected_model decision) system_prompt prompt
          (rd_max_tokens decision) (temperature_of (rq_task_type request)) (_inference_timeout_seconds w)
          (wf_correlation_id w) (rd_api_key_ref decision) (rd_extra_headers decision) provider_request_options tenant_id).

Definition _routing_tiers_hash : option string := w_routing_tiers_file world.

(** ** Advancing *)

Definition InvalidStateTransitionError (msg : string) : py_exn := OtherError "InvalidStateTransitionError" msg.

Definition _advance (target : EnumDelegationState) : W unit :=
  w ← get_state;
  if declared (wf_state w) target then wf_update (fun w => w <| wf_state := target |>)
  else raise (InvalidStateTransitionError
    ("Invalid state transition: " +:+ delegation_state_value (wf_state w) +:+ " -> " +:+ delegation_state_value target +:+
     " for correlation_id=" +:+ wf_correlation_id w)).

Definition next_state_from_lifecycle (lifecycle : EnumAgentTaskLifecycleType) : EnumDelegationState :=
  match lifecycle with
  | Lifecycle.SUBMITTED | Lifecycle.ACCEPTED | Lifecycle.PROGRESS | Lifecycle.ARTIFACT => WfState.EXECUTING
  | Lifecycle.COMPLETED => WfState.COMPLETED
  | Lifecycle.OTHER _ => WfState.FAILED
  end.

(** The reset every re-route makes before it advances to [ROUTED]. *)
Definition reset_inference : W unit :=
  wf_update (fun w => w
    <| wf_inference_content := None |>
    <| wf_inference_model_used := None |>
    <| wf_inference_intent_in_flight := false |>
    <| wf_routing_decision := None |>).

Definition gate_intent (response : ModelInferenceResponseData)
    (request : ModelDelegationRequest) (decision : ModelRoutingDecision) : DelegationOutput :=
  OutGate {| gi_correlation_id := ir_correlation_id response;
             gi_task_type := rq_task_type request;
             gi_llm_response_content := ir_content response;
             gi_expected_markers := [];
             gi_min_response_length := 60;
             gi_dod_deterministic := rd_dod_deterministic decision;
             gi_dod_heuristic := rd_dod_heuristic decision;
             gi_quality_contract_mode := rq_quality_contract_mode request;
             gi_acceptance_criteria := rq_acceptance_criteria request |}.

(** [_evaluate_compliance] *)
Definition _evaluate_compliance (response : ModelInferenceResponseData) : W (list DelegationOutput) :=
  w ← get_state;
  request ← require (wf_request w);
  schema_key ← require (rq_output_schema_key request);
  budget ← require (rq_compliance_budget request);
  decision ← require (wf_routing_decision w);
  result ← lift (evaluate (w_json_schema world) (ir_content response) schema_key (rq_prompt request)
                   (wf_compliance_attempts w) (wf_accumulated_tokens w) (ir_total_tokens response) budget
                   fzero fzero NORMAL (wf_correlation_id w));
  _ ← wf_update (fun w => w <| wf_accumulated_tokens := cl_tokens_to_compliance result |>);
  if cl_compliant result || String.eqb (cl_repair_prompt result) "" then
    _ ← _advance WfState.INFERENCE_COMPLETED;
    _ ← _record_inference_response response;
    mret [gate_intent response request decision]
  else
    _ ← _advance WfState.ROUTED;
    _ ← wf_update (fun w => w <| wf_compliance_attempts := wf_compliance_attempts w + 1 |>
                              <| wf_inference_intent_in_flight := true |>);
    intent ← inference_intent decision request (cl_repair_prompt result);
    mret [OutInference intent].

(** ** Escalation *)

Definition _decide_escalation (w : DelegationWorkflowState) (max_escalation_attempts : Z) (excluded_tiers : list string)
    (error_retryable : bool) (non_retryable_reason : string) (task_type : option string) : result ModelEscalationDecisionResult :=
  '(next_tier, no_higher_tier_reason) ←
    match wf_current_tier_name w with
    | Some tier =>
        if error_retryable && (wf_escalation_count w <? max_escalation_attempts) then
          next_tier ← next_eligible_tier (w_routing world) tier excluded_tiers task_type None;
          match next_tier with
          | Some _ => Ok (next_tier, None)
          | None =>
              reason ← match task_type with
                       | Some t => describe_no_higher_tier_available (w_routing world) tier excluded_tiers t
                       | None => Ok NO_HIGHER_TIER_REASON_TOKEN
                       end;
              Ok (None, Some reason)
          end
        else Ok (None, None)
    | None => Ok (None, None)
    end;
  request ← validate_decision_request {|
    dq_escalation_count := wf_escalation_count w;
    dq_max_escalation_attempts := max_escalation_attempts;
    dq_current_tier_name := wf_current_tier_name w;
    dq_error_retryable := error_retryable;
    dq_next_tier_name := next_tier;
    dq_non_retryable_reason := non_retryable_reason;
    dq_no_higher_tier_reason := no_higher_tier_reason |};
  decide_escalation request.

Definition _build_escalation_event (failure_class : EnumDelegationFailureClass) (escalation_reason : string)
    (model_id : option string) : W ModelLlmDelegationEscalationTriggeredEvent :=
  w ← get_state;
  request ← require (wf_request w);
  let resolved_model_id := match model_id with Some m => m | None => py_opt_or (wf_inference_model_used w) "unknown" end in
  now ← read_now;
  mret {| ee_correlation_id := wf_correlation_id w;
          ee_causation_id := wf_correlation_id w;
          ee_request_id := wf_correlation_id w;
          ee_task_type := rq_task_type request;
          ee_task_id := None;
          ee_model_id := resolved_model_id;
          ee_attempt_number := wf_escalation_count w + 1;
          ee_failure_class := failure_class;
          ee_escalation_reason := escalation_reason;
          ee_next_model_id := None;
          ee_created_at := now |}.

Definition _score_vs_bar_reason (gate : ModelQualityGateResult) (bar : RequiredBarAuthority) (pre_filter_rejected : bool) : string :=
  let detail :=
    (if pre_filter_rejected then "pre_filter_rejected" else "score_below_required_bar") +:+
    ": actual_score=" +:+ format_fixed 3 (gr_quality_score gate) +:+ " " +:+
    "required_bar=" +:+ format_fixed 3 (ra_required_bar bar) +:+ " " +:+
    "authority_source=" +:+ ra_authority_source bar +:+ " " +:+
    "score_source=" +:+ ra_score_source bar in
  if truthy (gr_failure_reasons gate) then detail +:+ "; failures=" +:+ py_join "; " (gr_failure_reasons gate) else detail.

Definition _measure_terminal_cost (tier_name : string) (prompt_tokens completion_tokens : Z)
    (premium_counterfactual : option ModelPremiumCounterfactual) : result ModelActualCostMeasurement :=
  recompute_actual_cost_and_savings (w_pricing_tiers world) tier_name prompt_tokens completion_tokens premium_counterfactual None.

Definition _record_escalation_attempt (attempt : ModelDelegationEscalationAttempt) (prompt_tokens completion_tokens : Z) : W float :=
  measurement ← lift (_measure_terminal_cost (ea_tier_name attempt) prompt_tokens completion_tokens None);
  let priced_attempt := attempt <| ea_prompt_tokens := prompt_tokens |>
                                <| ea_completion_tokens := completion_tokens |>
                                <| ea_cost_usd := ac_cash_cost_usd measurement |> in
  _ ← wf_update (fun w => w <| wf_escalation_history := wf_escalation_history w ++ [priced_attempt] |>);
  mret (ac_cash_cost_usd measurement).

Definition _bank_attempt_spend (cost_usd : float) (prompt_tokens completion_tokens : Z) : W unit :=
  wf_update (fun w => w
    <| wf_cumulative_attempt_cost_usd := (wf_cumulative_attempt_cost_usd w + cost_usd)%float |>
    <| wf_cumulative_attempt_prompt_tokens := wf_cumulative_attempt_prompt_tokens w + prompt_tokens |>
    <| wf_cumulative_attempt_completion_tokens := wf_cumulative_attempt_completion_tokens w + completion_tokens |>).

Definition mk_routing_intent (request : ModelDelegationRequest) (min_tier : option string) (excluded : list string) : DelegationOutput :=
  OutRouting {| ri_payload := request; ri_min_tier_name := min_tier; ri_excluded_backend_refs := excluded |}.

(** The sibling backend of the tier, after a transport failure. *)
Definition _maybe_retry_sibling_backend (failed_backend_ref : string) (attempt_cost_usd : float)
    (prompt_tokens completion_tokens : Z) : W (option (list DelegationOutput)) :=
  w ← get_state;
  match wf_current_tier_name w, wf_request w with
  | Some tier, Some request =>
      if negb (truthy failed_backend_ref) then mret None
      else
        _ ← when (negb (bool_decide (wf_same_tier_failed_backend_tier w = Some tier)))
              (wf_update (fun w => w <| wf_same_tier_failed_backend_tier := Some tier |>
                                     <| wf_same_tier_failed_backend_refs := [] |>));
        w ← get_state;
        _ ← when (negb (str_in failed_backend_ref (wf_same_tier_failed_backend_refs w)))
              (wf_update (fun w => w <| wf_same_tier_failed_backend_refs := wf_same_tier_failed_backend_refs w ++ [failed_backend_ref] |>));
        w ← get_state;
        let excluded := wf_same_tier_failed_backend_refs w in
        sibling ← lift (sibling_backend_available_in_tier (w_routing world) tier (rq_task_type request) excluded);
        match sibling with
        | None => mret None
        | Some _ =>
            _ ← _bank_attempt_spend attempt_cost_usd prompt_tokens completion_tokens;
            _ ← reset_inference;
            _ ← _advance WfState.ROUTED;
            mret (Some [mk_routing_intent request (Some tier)
                          (if w_routing_intent_has_exclusions world then sorted_set excluded else [])])
        end
  | _, _ => mret None
  end.

(** The same free tier again, within its retry budget. *)
Definition _maybe_retry_local (attempt_cost_usd : float) : W (option (list DelegationOutput)) :=
  w ← get_state;
  match wf_current_tier_name w with
  | None => mret None
  | Some tier =>
      free ← lift (is_free_tier (w_routing world) tier);
      if negb free then mret None
      else
        _ ← when (negb (bool_decide (wf_local_retry_tier w = Some tier)))
              (wf_update (fun w => w <| wf_local_retry_tier := Some tier |> <| wf_local_retry_count := 0 |>));
        w ← get_state;
        budget ← lift (tier_max_retries (w_routing world) tier);
        if budget <=? wf_local_retry_count w then mret None
        else
          _ ← wf_update (fun w => w <| wf_local_retry_count := wf_local_retry_count w + 1 |>);
          _ ← _bank_attempt_spend attempt_cost_usd (wf_inference_prompt_tokens w) (wf_inference_completion_tokens w);
          _ ← reset_inference;
          _ ← _advance WfState.ROUTED;
          request ← require (wf_request w);
          mret (Some [mk_routing_intent request (Some tier) []])
  end.

(** Escalating to [next_tier]: bank, count, reset, re-route. *)
Definition escalate_to (next_tier : string) (cost_usd : float) (prompt_tokens completion_tokens : Z)
    (event : ModelLlmDelegationEscalationTriggeredEvent) : W (list DelegationOutput) :=
  _ ← _bank_attempt_spend cost_usd prompt_tokens completion_tokens;
  _ ← _advance WfState.ESCALATING;
  _ ← wf_update (fun w => w <| wf_escalation_count := wf_escalation_count w + 1 |>);
  _ ← reset_inference;
  _ ← _advance WfState.ROUTED;
  w ← get_state;
  request ← require (wf_request w);
  mret [mk_routing_intent request (Some next_tier) []; OutEscalation event].

(** ** The terminal *)

(** What a terminal site resolves its outcome into.  The dumps of the attempts
    are the attempts. *)
Record TerminalEmissionInputs := {
  te_completed : bool;
  te_correlation_id : string;
  te_task_type : string;
  te_model_used : string;
  te_endpoint_url : string;
  te_content : string;
  te_quality_passed : bool;
  te_quality_score : float;
  te_latency_ms : Z;
  te_prompt_tokens : Z;
  te_completion_tokens : Z;
  te_total_tokens : Z;
  te_fallback_to_claude : bool;
  te_failure_reason : string;
  te_tokens_to_compliance : Z;
  te_compliance_attempts : Z;
  te_cost_tier_name : string;
  te_premium_counterfactual : option ModelPremiumCounterfactual;
  te_escalation_count : Z;
  te_escalation_history : list ModelDelegationEscalationAttempt;
  te_terminal_failure_reason : option string;
  te_routing_tiers_hash : option string;
  te_escalation_config_hash : option string;
  te_attempts_count : Z;
  te_model_name : string;
  te_session_id : option string;
  te_quality_gates_checked : list string;
  te_quality_gates_failed : list string;
  te_llm_call_id : string;
  te_context_pack_hash : string;
  te_prior_attempt_cost_usd : float;
  te_prior_attempt_prompt_tokens : Z;
  te_prior_attempt_completion_tokens : Z;
  te_tenant_id : option string
}.

Record _HoistedTierCost := {
  ho_measurement : ModelActualCostMeasurement;
  ho_prompt_tokens : Z;
  ho_completion_tokens : Z
}.

(** The loop over the reversed history. *)
Fixpoint hoist_from (entries : list ModelDelegationEscalationAttempt) : result (option _HoistedTierCost) :=
  match entries with
  | [] => Ok None
  | entry :: entries =>
      if negb (truthy (ea_tier_name entry)) then hoist_from entries
      else if (ea_prompt_tokens entry <=? 0) && (ea_completion_tokens entry <=? 0) then hoist_from entries
      else
        measurement ← _measure_terminal_cost (ea_tier_name entry) (ea_prompt_tokens entry) (ea_completion_tokens entry) None;
        if fgt (ac_cash_cost_usd measurement) fzero then
          Ok (Some {| ho_measurement := measurement; ho_prompt_tokens := ea_prompt_tokens entry;
                      ho_completion_tokens := ea_completion_tokens entry |})
        else hoist_from entries
  end.
Definition _hoist_metered_history_tier (escalation_history : list ModelDelegationEscalationAttempt)
    : result (option _HoistedTierCost) := hoist_from (rev escalation_history).

(** What the terminal reports of cost and tokens: the final tier's measurement
    with what earlier attempts banked, or the hoisted tier's. *)
Record TerminalAccount := {
  ta_cost : ModelActualCostMeasurement;
  ta_total_cost_usd : float;
  ta_total_savings_usd : float;
  ta_served_input_tokens : Z;
  ta_served_output_tokens : Z;
  ta_served_total_tokens : Z;
  ta_cumulative_input_tokens : Z;
  ta_cumulative_output_tokens : Z
}.

Definition terminal_account (inputs : TerminalEmissionInputs) : result TerminalAccount :=
  cost ← _measure_terminal_cost (te_cost_tier_name inputs) (te_prompt_tokens inputs) (te_completion_tokens inputs)
           (te_premium_counterfactual inputs);
  let total_cost_usd := (ac_cash_cost_usd cost + te_prior_attempt_cost_usd inputs)%float in
  let cumulative_input_tokens := te_prompt_tokens inputs + te_prior_attempt_prompt_tokens inputs in
  let cumulative_output_tokens := te_completion_tokens inputs + te_prior_attempt_completion_tokens inputs in
  let account :=
    {| ta_cost := cost;
       ta_total_cost_usd := total_cost_usd;
       ta_total_savings_usd := fmax fzero (ac_cost_savings_usd cost - te_prior_attempt_cost_usd inputs)%float;
       ta_served_input_tokens := te_prompt_tokens inputs;
       ta_served_output_tokens := te_completion_tokens inputs;
       ta_served_total_tokens := te_total_tokens inputs;
       ta_cumulative_input_tokens := cumulative_input_tokens;
       ta_cumulative_output_tokens := cumulative_output_tokens |} in
  if negb (te_completed inputs) && fle total_cost_usd fzero
     && (cumulative_input_tokens =? 0) && (cumulative_output_tokens =? 0)
  then
    hoisted ← _hoist_metered_history_tier (te_escalation_history inputs);
    match hoisted with
    | Some h =>
        Ok {| ta_cost := ho_measurement h;
              ta_total_cost_usd := ac_cash_cost_usd (ho_measurement h);
              ta_total_savings_usd := ac_cost_savings_usd (ho_measurement h);
              ta_served_input_tokens := ho_prompt_tokens h;
              ta_served_output_tokens := ho_completion_tokens h;
              ta_served_total_tokens := ho_prompt_tokens h + ho_completion_tokens h;
              ta_cumulative_input_tokens := ho_prompt_tokens h;
              ta_cumulative_output_tokens := ho_completion_tokens h |}
    | None => Ok account
    end
  else Ok account.

Definition delegation_result (inputs : TerminalEmissionInputs) (a : TerminalAccount) : ModelDelegationResult :=
  {| dr_correlation_id := te_correlation_id inputs;
     dr_task_type := te_task_type inputs;
     dr_model_used := te_model_used inputs;
     dr_endpoint_url := te_endpoint_url inputs;
     dr_content := te_content inputs;
     dr_quality_passed := te_quality_passed inputs;
     dr_quality_score := te_quality_score inputs;
     dr_latency_ms := te_latency_ms inputs;
     dr_prompt_tokens := ta_served_input_tokens a;
     dr_completion_tokens := ta_served_output_tokens a;
     dr_total_tokens := ta_served_total_tokens a;
     dr_fallback_to_claude := te_fallback_to_claude inputs;
     dr_failure_reason := te_failure_reason inputs;
     dr_tokens_to_compliance := te_tokens_to_compliance inputs;
     dr_compliance_attempts := te_compliance_attempts inputs;
     dr_escalation_count := te_escalation_count inputs;
     dr_escalation_history := te_escalation_history inputs;
     dr_terminal_failure_reason := te_terminal_failure_reason inputs;
     dr_routing_tiers_hash := te_routing_tiers_hash inputs;
     dr_escalation_config_hash := te_escalation_config_hash inputs;
     dr_attempts_count := te_attempts_count inputs;
     dr_cumulative_attempt_cost := ta_total_cost_usd a;
     dr_cumulative_input_tokens := ta_cumulative_input_tokens a;
     dr_cumulative_output_tokens := ta_cumulative_output_tokens a;
     dr_final_attempt_cost := ac_cash_cost_usd (ta_cost a);
     dr_context_pack_hash := te_context_pack_hash inputs;
     dr_cost_tier_name := ac_cost_tier_name (ta_cost a);
     dr_tenant_id := te_tenant_id inputs |}.

Definition _emit_terminal (inputs : TerminalEmissionInputs) : W (list DelegationOutput) :=
  a ← lift (terminal_account inputs);
  let r := delegation_result inputs a in
  if fge (ta_total_savings_usd a) fzero
  then mret [if te_completed inputs then OutCompleted r else OutFailed r]
  else raise (AssertionError "").

Definition _gate_terminal_inputs (gate : ModelQualityGateResult) (elapsed_ms tokens_to_compliance compliance_attempts : Z)
    (completed fallback_to_claude : bool) (failure_reason : string) (terminal_failure_reason : option string)
    (required_bar_authority : option RequiredBarAuthority) : W TerminalEmissionInputs :=
  w ← get_state;
  request ← require (wf_request w);
  decision ← require (wf_routing_decision w);
  model_used ← require (wf_inference_model_used w);
  let premium_counterfactual :=
    if completed then
      build_premium_counterfactual (w_pricing_entry world) (wf_inference_prompt_tokens w) (wf_inference_completion_tokens w)
        DEFAULT_BASELINE_MODEL false "pricing_manifest"
    else None in
  let quality_gates_checked :=
    match required_bar_authority with
    | Some bar => format_quality_bar_labels (ra_required_bar bar) (gr_quality_score gate) (wf_escalation_count w)
                    (ra_authority_source bar) (ra_score_source bar) (ra_request_override_applied bar)
                    (ra_override_within_bounds bar)
    | None => ["required_bar_missing"]
    end in
  tenant_id ← _resolve_tenant_id;
  mret {| te_completed := completed;
          te_correlation_id := gr_correlation_id gate;
          te_task_type := rq_task_type request;
          te_model_used := model_used;
          te_endpoint_url := rd_endpoint_url decision;
          te_content := default "" (wf_inference_content w);
          te_quality_passed := completed;
          te_quality_score := gr_quality_score gate;
          te_latency_ms := elapsed_ms;
          te_prompt_tokens := wf_inference_prompt_tokens w;
          te_completion_tokens := wf_inference_completion_tokens w;
          te_total_tokens := wf_inference_total_tokens w;
          te_fallback_to_claude := fallback_to_claude;
          te_failure_reason := failure_reason;
          te_tokens_to_compliance := tokens_to_compliance;
          te_compliance_attempts := compliance_attempts;
          te_cost_tier_name := default "" (wf_current_tier_name w);
          te_premium_counterfactual := premium_counterfactual;
          te_escalation_count := wf_escalation_count w;
          te_escalation_history := wf_escalation_history w;
          te_terminal_failure_reason := terminal_failure_reason;
          te_routing_tiers_hash := _routing_tiers_hash;
          te_escalation_config_hash := None;
          te_attempts_count := wf_escalation_count w + 1;
          te_model_name := rd_selected_model decision;
          te_session_id := None;
          te_quality_gates_checked := quality_gates_checked;
          te_quality_gates_failed := if completed then [] else gr_failure_reasons gate;
          te_llm_call_id := wf_inference_llm_call_id w;
          te_context_pack_hash := wf_context_pack_hash w;
          te_prior_attempt_cost_usd := wf_cumulative_attempt_cost_usd w;
          te_prior_attempt_prompt_tokens := wf_cumulative_attempt_prompt_tokens w;
          te_prior_attempt_completion_tokens := wf_cumulative_attempt_completion_tokens w;
          te_tenant_id := tenant_id |}.

(** [(time.time_ns() - workflow.started_at_ns) // 1_000_000] *)
Definition elapsed_ms : W Z :=
  t ← read_time_ns; w ← get_state; mret ((t - wf_started_at_ns w) / 1000000).
End workflow.
