(* ===== verification/DelegationHandlers.v ===== *)
(** * The per-step handlers of a delegation

    [HandlerDelegationWorkflow]: one handler per declared event model, on the
    workflow of the event's correlation id, and the dispatch of [handle] on the
    dict of workflows. *)
From S2P Require Import Prelude PyFloat PyJson LogMonad DelegationModels DelegationPricing DelegationRouting ComplianceLoop DelegationBar DelegationWorkflow.
Import WfState (EnumDelegationState) FailureClass (EnumDelegationFailureClass) Lifecycle (EnumAgentTaskLifecycleType).

#[local] Open Scope Z_scope.

(** The dict of workflows, by correlation id. *)
Abbreviation Workflows := (gmap string DelegationWorkflowState).

Section handlers.
Context (world : World).

(** ** A request *)

(** A request for a workflow that exists: replayed once, before any decision. *)
Definition replay_request (request : ModelDelegationRequest) : W (list DelegationOutput) :=
  w ← get_state;
  if bool_decide (wf_state w = WfState.RECEIVED) && bool_decide (wf_routing_decision w = None)
     && negb (wf_routing_intent_replayed w)
  then
    _ ← wf_update (fun w => w <| wf_routing_intent_replayed := true |>);
    mret [mk_routing_intent (default request (wf_request w)) None []]
  else mret [].

Definition handle_invocation_command (command : ModelInvocationCommand) : W (list DelegationOutput) :=
  w ← get_state;
  if bool_decide (wf_state w = WfState.RECEIVED) then
    _ ← _advance WfState.ROUTED;
    _ ← wf_update (fun w => w <| wf_invocation_command := Some command |>);
    mret [OutInvocation command]
  else mret [].

(** ** A routing decision *)

(** [decision.tier_name or None] *)
Definition tier_of_decision (decision : ModelRoutingDecision) : option string :=
  if truthy (rd_tier_name decision) then Some (rd_tier_name decision) else None.

(** The attempt under [decision], unless one is in flight. *)
Definition dispatch_inference (decision : ModelRoutingDecision) : W (list DelegationOutput) :=
  w ← get_state;
  if wf_inference_intent_in_flight w then mret []
  else
    _ ← wf_update (fun w => w <| wf_inference_intent_in_flight := true |>);
    request ← require (wf_request w);
    intent ← inference_intent world decision request (rq_prompt request);
    mret [OutInference intent].

Definition adopt_decision (decision : ModelRoutingDecision) (attempts : Z -> Z) : W unit :=
  wf_update (fun w => w
    <| wf_routing_decision := Some decision |>
    <| wf_current_tier_name := tier_of_decision decision |>
    <| wf_compliance_attempts := attempts (wf_compliance_attempts w) |>).

Definition handle_routing_decision (decision : ModelRoutingDecision) : W (list DelegationOutput) :=
  w ← get_state;
  match wf_state w, wf_routing_decision w, wf_inference_content w with
  | WfState.RECEIVED, _, _ =>
      _ ← _advance WfState.ROUTED;
      _ ← adopt_decision decision (fun _ => 1);
      dispatch_inference decision
  | WfState.ROUTED, None, _ =>
      _ ← adopt_decision decision (fun n => n + 1);
      dispatch_inference decision
  | WfState.ROUTED, Some _, None => dispatch_inference decision
  | _, _, _ => mret []
  end.

(** ** An inference response *)

Definition failed_attempt (w : DelegationWorkflowState) (decision : ModelRoutingDecision) (error_message model_used : string)
    (elapsed : Z) (now : datetime) : ModelDelegationEscalationAttempt :=
  {| ea_tier_name := py_opt_or (wf_current_tier_name w) "unknown";
     ea_model_used := model_used;
     ea_quality_score := fzero;
     ea_required_bar := None;
     ea_actual_score := None;
     ea_authority_source := None;
     ea_score_source := None;
     ea_failure_reasons := [error_message];
     ea_prompt_tokens := 0;
     ea_completion_tokens := 0;
     ea_cost_usd := fzero;
     ea_latency_ms := elapsed;
     ea_fallback_recommended := true;
     ea_attempted_at := now;
     ea_routing_decision_id := Some (rd_selected_backend_id decision) |}.

(** The terminal of an error that cannot escalate; the tokens are those
    [_record_inference_response] has just stored. *)
Definition error_terminal_inputs (response : ModelInferenceResponseData) (request : ModelDelegationRequest)
    (decision : ModelRoutingDecision) (model_used : string) (elapsed : Z) (terminal_failure_reason : option string)
    : W TerminalEmissionInputs :=
  tenant_id ← _resolve_tenant_id world;
  w ← get_state;
  mret {| te_completed := false;
          te_correlation_id := ir_correlation_id response;
          te_task_type := rq_task_type request;
          te_model_used := model_used;
          te_endpoint_url := rd_endpoint_url decision;
          te_content := ir_content response;
          te_quality_passed := false;
          te_quality_score := fzero;
          te_latency_ms := elapsed;
          te_prompt_tokens := wf_inference_prompt_tokens w;
          te_completion_tokens := wf_inference_completion_tokens w;
          te_total_tokens := wf_inference_total_tokens w;
          te_fallback_to_claude := false;
          te_failure_reason := ir_error_message response;
          te_tokens_to_compliance := wf_accumulated_tokens w;
          te_compliance_attempts := py_or (wf_compliance_attempts w) 1;
          te_cost_tier_name := default "" (wf_current_tier_name w);
          te_premium_counterfactual := None;
          te_escalation_count := wf_escalation_count w;
          te_escalation_history := wf_escalation_history w;
          te_terminal_failure_reason := terminal_failure_reason;
          te_routing_tiers_hash := _routing_tiers_hash world;
          te_escalation_config_hash := None;
          te_attempts_count := wf_escalation_count w + 1;
          te_model_name := rd_selected_model decision;
          te_session_id := None;
          te_quality_gates_checked := ["length"; "refusal"; "markers"];
          te_quality_gates_failed := [ir_error_message response];
          te_llm_call_id := ir_llm_call_id response;
          te_context_pack_hash := wf_context_pack_hash w;
          te_prior_attempt_cost_usd := wf_cumulative_attempt_cost_usd w;
          te_prior_attempt_prompt_tokens := wf_cumulative_attempt_prompt_tokens w;
          te_prior_attempt_completion_tokens := wf_cumulative_attempt_completion_tokens w;
          te_tenant_id := tenant_id |}.

(** After the failed attempt is recorded and no sibling backend is left. *)
Definition escalate_or_fail (response : ModelInferenceResponseData) (request : ModelDelegationRequest)
    (decision : ModelRoutingDecision) (model_used : string) (elapsed : Z) (attempt_cost_usd : float)
    : W (list DelegationOutput) :=
  let error_message := ir_error_message response in
  w ← get_state;
  verdict ← lift (_decide_escalation world w _MAX_INFERENCE_ESCALATION_ATTEMPTS _INFERENCE_ERROR_EXCLUDED_TIERS
                    (_should_escalate_inference_error error_message) "non_retryable_inference_response"
                    (Some (rq_task_type request)));
  if ds_can_escalate verdict then
    next_tier ← require (ds_next_tier_name verdict);
    event ← _build_escalation_event world (_inference_error_failure_class error_message) error_message (Some model_used);
    escalate_to next_tier attempt_cost_usd (ir_prompt_tokens response) (ir_completion_tokens response) event
  else
    _ ← _record_inference_response response;
    inputs ← error_terminal_inputs response request decision model_used elapsed (ds_terminal_failure_reason verdict);
    _ ← _advance WfState.FAILED;
    _emit_terminal world inputs.

Definition handle_inference_error (response : ModelInferenceResponseData) (request : ModelDelegationRequest)
    (decision : ModelRoutingDecision) : W (list DelegationOutput) :=
  elapsed ← elapsed_ms world;
  let model_used := py_or (ir_model_used response) (rd_selected_model decision) in
  now ← read_now world;
  w ← get_state;
  attempt_cost_usd ← _record_escalation_attempt world
    (failed_attempt w decision (ir_error_message response) model_used elapsed now)
    (ir_prompt_tokens response) (ir_completion_tokens response);
  sibling_retry_intents ←
    (if _should_escalate_inference_error (ir_error_message response) then
       _maybe_retry_sibling_backend world (rd_selected_backend_ref decision) attempt_cost_usd
         (ir_prompt_tokens response) (ir_completion_tokens response)
     else mret None);
  match sibling_retry_intents with
  | Some intents => mret intents
  | None => escalate_or_fail response request decision model_used elapsed attempt_cost_usd
  end.

Definition handle_inference_response (response : ModelInferenceResponseData) : W (list DelegationOutput) :=
  w ← get_state;
  if negb (bool_decide (wf_state w = WfState.ROUTED)) then mret []
  else
    request ← require (wf_request w);
    match wf_routing_decision w with
    | None => mret []
    | Some decision =>
        if truthy (ir_error_message response) then handle_inference_error response request decision
        else match rq_output_schema_key request with
        | None =>
            _ ← _advance WfState.INFERENCE_COMPLETED;
            _ ← _record_inference_response response;
            _ ← wf_update (fun w => w <| wf_accumulated_tokens := ir_total_tokens response |>);
            mret [gate_intent response request decision]
        | Some _ => _evaluate_compliance world response
        end
    end.

(** ** A quality gate result *)

Definition pre_filter_rejected (gate : ModelQualityGateResult) : bool :=
  String.eqb (gate_category_value (gr_fail_category gate)) "fail_deterministic".
Definition judge_unavailable_floor (gate : ModelQualityGateResult) : bool :=
  gr_passed gate && String.eqb (gr_score_source gate) SCORE_SOURCE_DETERMINISTIC_ACCEPTANCE.
Definition quality_accepted (bar : RequiredBarAuthority) (gate : ModelQualityGateResult) : bool :=
  negb (pre_filter_rejected gate) && gr_passed gate
  && (judge_unavailable_floor gate || negb (flt (gr_quality_score gate) (ra_required_bar bar))).

Definition rejected_attempt (w : DelegationWorkflowState) (decision : ModelRoutingDecision) (gate : ModelQualityGateResult)
    (bar : RequiredBarAuthority) (elapsed : Z) (now : datetime) : ModelDelegationEscalationAttempt :=
  {| ea_tier_name := py_opt_or (wf_current_tier_name w) "unknown";
     ea_model_used := py_opt_or (wf_inference_model_used w) "unknown";
     ea_quality_score := gr_quality_score gate;
     ea_required_bar := Some (ra_required_bar bar);
     ea_actual_score := Some (gr_quality_score gate);
     ea_authority_source := Some (ra_authority_source bar);
     ea_score_source := Some (ra_score_source bar);
     ea_failure_reasons := gr_failure_reasons gate;
     ea_prompt_tokens := 0;
     ea_completion_tokens := 0;
     ea_cost_usd := fzero;
     ea_latency_ms := elapsed;
     ea_fallback_recommended := true;
     ea_attempted_at := now;
     ea_routing_decision_id := Some (rd_selected_backend_id decision) |}.

(** The two terminals of a gate. *)
Definition gate_terminal (gate : ModelQualityGateResult) (elapsed tokens_to_compliance compliance_attempts : Z)
    (completed fallback_to_claude : bool) (failure_reason : string) (terminal_failure_reason : option string)
    (bar : option RequiredBarAuthority) : W (list DelegationOutput) :=
  inputs ← _gate_terminal_inputs world gate elapsed tokens_to_compliance compliance_attempts completed
             fallback_to_claude failure_reason terminal_failure_reason bar;
  _ ← _advance (if completed then WfState.COMPLETED else WfState.FAILED);
  _emit_terminal world inputs.

(** Past the free tier's retries: the next tier, or the end. *)
Definition escalate_or_reject (gate : ModelQualityGateResult) (bar : RequiredBarAuthority) (request : ModelDelegationRequest)
    (elapsed tokens_to_compliance compliance_attempts : Z) (rejected_attempt_cost_usd : float)
    (max_escalation_attempts : Z) (excluded_tiers : list string) : W (list DelegationOutput) :=
  w ← get_state;
  verdict ← lift (_decide_escalation world w max_escalation_attempts excluded_tiers true
                    "non_retryable_quality_result" (Some (rq_task_type request)));
  let reason := _score_vs_bar_reason gate bar (pre_filter_rejected gate) in
  if ds_can_escalate verdict then
    next_tier ← require (ds_next_tier_name verdict);
    event ← _build_escalation_event world FailureClass.QUALITY_GATE_FAILED reason None;
    escalate_to next_tier rejected_attempt_cost_usd (wf_inference_prompt_tokens w)
      (wf_inference_completion_tokens w) event
  else
    gate_terminal gate elapsed tokens_to_compliance compliance_attempts false true reason
      (ds_terminal_failure_reason verdict) (Some bar).

(** A result below the bar: record it, retry a free tier, escalate, or end. *)
Definition reject_result (gate : ModelQualityGateResult) (bar : RequiredBarAuthority) (request : ModelDelegationRequest)
    (decision : ModelRoutingDecision) (elapsed tokens_to_compliance compliance_attempts : Z)
    (max_escalation_attempts : Z) (excluded_tiers : list string) : W (list DelegationOutput) :=
  now ← read_now world;
  w ← get_state;
  rejected_attempt_cost_usd ← _record_escalation_attempt world (rejected_attempt w decision gate bar elapsed now)
                                (wf_inference_prompt_tokens w) (wf_inference_completion_tokens w);
  retry_local_intents ← _maybe_retry_local world rejected_attempt_cost_usd;
  match retry_local_intents with
  | Some intents => mret intents
  | None => escalate_or_reject gate bar request elapsed tokens_to_compliance compliance_attempts
              rejected_attempt_cost_usd max_escalation_attempts excluded_tiers
  end.

Definition handle_gate_result (gate : ModelQualityGateResult) (max_escalation_attempts : Z) (excluded_tiers : list string)
    : W (list DelegationOutput) :=
  w ← get_state;
  if negb (bool_decide (wf_state w = WfState.INFERENCE_COMPLETED)) then mret []
  else
    _ ← _advance WfState.GATE_EVALUATED;
    _ ← wf_update (fun w => w <| wf_gate_result := Some gate |>);
    request ← require (wf_request w);
    decision ← require (wf_routing_decision w);
    _ ← require (wf_inference_content w);
    _ ← require (wf_inference_model_used w);
    elapsed ← elapsed_ms world;
    let compliance_attempts := py_or (wf_compliance_attempts w) 1 in
    let tokens_to_compliance := py_or (wf_accumulated_tokens w) (wf_inference_total_tokens w) in
    match resolve_required_bar_authority (w_routing world) (rq_task_type request) None None with
    | Raise exc =>
        if is_bar_error exc then
          gate_terminal gate elapsed tokens_to_compliance compliance_attempts false false
            ("required_bar_missing: " +:+ exn_str exc) (Some "required_bar_missing") None
        else raise exc
    | Ok bar =>
        if quality_accepted bar gate then
          gate_terminal gate elapsed tokens_to_compliance compliance_attempts true false "" None (Some bar)
        else
          reject_result gate bar request decision elapsed tokens_to_compliance compliance_attempts
            max_escalation_attempts excluded_tiers
    end.

(** ** A remote agent's lifecycle event *)

(** [json.dumps(plain, sort_keys=True)] *)
Fixpoint sort_keys (j : json) : json :=
  match j with
  | JArr l => JArr (map sort_keys l)
  | JObj l => JObj (sort_by fst (map (fun kv => (kv.1, sort_keys kv.2)) l))
  | _ => j
  end.
Definition _render_lifecycle_content (event : ModelAgentTaskLifecycleEvent) : string :=
  match le_artifact event with
  | Some plain => json_dumps (sort_keys (JObj plain))
  | None => py_opt_or (le_error event) (w_lifecycle_value world (le_lifecycle_type event))
  end.

Definition lifecycle_terminal_inputs (event : ModelAgentTaskLifecycleEvent) (request : ModelDelegationRequest)
    (completed : bool) (elapsed : Z) : W TerminalEmissionInputs :=
  tenant_id ← _resolve_tenant_id world;
  w ← get_state;
  let delegated_to := match wf_invocation_command w with Some c => ic_target_ref c | None => "remote-agent" end in
  let failure_reason := default "" (le_error event) in
  mret {| te_completed := completed;
          te_correlation_id := le_correlation_id event;
          te_task_type := rq_task_type request;
          te_model_used := delegated_to;
          te_endpoint_url := delegated_to;
          te_content := _render_lifecycle_content event;
          te_quality_passed := completed;
          te_quality_score := if completed then fone else fzero;
          te_latency_ms := elapsed;
          te_prompt_tokens := 0;
          te_completion_tokens := 0;
          te_total_tokens := 0;
          te_fallback_to_claude := false;
          te_failure_reason := failure_reason;
          te_tokens_to_compliance := 0;
          te_compliance_attempts := 1;
          te_cost_tier_name := default "" (wf_current_tier_name w);
          te_premium_counterfactual := None;
          te_escalation_count := 0;
          te_escalation_history := [];
          te_terminal_failure_reason := None;
          te_routing_tiers_hash := None;
          te_escalation_config_hash := None;
          te_attempts_count := 1;
          te_model_name := delegated_to;
          te_session_id := None;
          te_quality_gates_checked := ["agent-task-lifecycle"];
          te_quality_gates_failed := if truthy failure_reason then [failure_reason] else [];
          te_llm_call_id := default "" (le_remote_task_handle event);
          te_context_pack_hash := wf_context_pack_hash w;
          te_prior_attempt_cost_usd := fzero;
          te_prior_attempt_prompt_tokens := 0;
          te_prior_attempt_completion_tokens := 0;
          te_tenant_id := tenant_id |}.

Definition handle_agent_task_lifecycle (event : ModelAgentTaskLifecycleEvent) : W (list DelegationOutput) :=
  w ← get_state;
  let next_state := next_state_from_lifecycle (le_lifecycle_type event) in
  if bool_decide (next_state = WfState.EXECUTING) then
    _ ← when (bool_decide (wf_state w = WfState.ROUTED)) (_advance WfState.EXECUTING);
    mret []
  else if negb (bool_decide (wf_state w ∈ [WfState.ROUTED; WfState.EXECUTING])) then mret []
  else
    _ ← when (negb (bool_decide (wf_state w = next_state))) (_advance next_state);
    request ← require (wf_request w);
    elapsed ← elapsed_ms world;
    inputs ← lifecycle_terminal_inputs event request (bool_decide (next_state = WfState.COMPLETED)) elapsed;
    _emit_terminal world inputs.

(** ** The dict of workflows *)

(** A step on the workflow of a correlation id; nothing without one. *)
Definition on_workflow (cid : string) (body : W (list DelegationOutput)) : M Workflows Read (list DelegationOutput) :=
  fun s =>
    match s.1 !! cid with
    | None => (s, Ok [])
    | Some w => let '((w', l), r) := body (w, s.2) in ((<[cid := w']> s.1, l), r)
    end.

Definition handle_delegation_request (request : ModelDelegationRequest) : M Workflows Read (list DelegationOutput) :=
  let cid := rq_correlation_id request in
  workflows ← get_state;
  if bool_decide (is_Some (workflows !! cid)) then on_workflow cid (replay_request request)
  else
    tenant_id ← (if truthy (rq_tenant_id request) then mret (rq_tenant_id request) else setting_tenant world);
    started_at_ns ← call ReadTimeNs (fun l => Ok (w_time_ns world l));
    _ ← modify (fun m => <[cid := new_workflow cid request (_context_pack_hash_for_event request) started_at_ns tenant_id]> m);
    mret [mk_routing_intent request None []].

(** [handle]: the dispatch on the class of the payload. *)
Definition handle (input : DelegationWorkflowInput) : M Workflows Read (list DelegationOutput) :=
  match input with
  | InRequest request => handle_delegation_request request
  | InInvocation command => on_workflow (ic_correlation_id command) (handle_invocation_command command)
  | InDecision decision => on_workflow (rd_correlation_id decision) (handle_routing_decision decision)
  | InResponse response => on_workflow (ir_correlation_id response) (handle_inference_response response)
  | InGate gate => on_workflow (gr_correlation_id gate) (handle_gate_result gate 2 [])
  | InLifecycle event => on_workflow (le_correlation_id event) (handle_agent_task_lifecycle event)
  | InOther type_name => raise (ValueError ("Unsupported delegation workflow payload: " +:+ type_name))
  end.
End handlers.
