(* ===== verification/DelegationCodec.v ===== *)
(** * The durable state of a delegation

    [node_delegation_orchestrator/state_codec.py]: the JSON codec of a workflow
    state, the mapping the handler uses as its dict of workflows, and the flush
    the runtime calls after a dispatch.

    The type adapter that dumps and validates a state is another library's: two
    functions, and what a theorem needs of them is a hypothesis on the state it
    is about.  The rows a dispatch is bound to hold string objects, told apart by
    identity as [is] does; [None] for the rows stands for the unset context. *)
From S2P Require Import Prelude PyFloat PyJson LogMonad DelegationModels DelegationWorkflow DelegationHandlers.
Import WfState (EnumDelegationState).

(** ** The codec *)

Definition _IN_FLIGHT_KEY : string := "in_flight".

Section codec.
Context (dump_json : DelegationWorkflowState -> string) (validate_json : string -> result DelegationWorkflowState).

Definition encode (state : DelegationWorkflowState) : result string :=
  payload ← json_loads (dump_json state);
  match payload with
  | JObj o => Ok (json_dumps (JObj (dict_set _IN_FLIGHT_KEY (JBool (wf_inference_intent_in_flight state)) o)))
  | _ => Raise (TypeError ("'" +:+ json_type payload +:+ "' object does not support item assignment"))
  end.

Definition decode (raw : string) : result DelegationWorkflowState :=
  payload ← json_loads raw;
  let payload := match payload with JObj o => JObj (dict_pop _IN_FLIGHT_KEY o) | _ => payload end in
  validate_json (json_dumps payload).

(** What the adapter does for a state: its dump is an object, without the key of
    the codec, that it validates back to the state. *)
Record adapter_reads_back (s : DelegationWorkflowState) : Prop := {
  ad_object : exists o, json_loads (dump_json s) = Ok (JObj o) /\ json_wf (JObj o) = true /\ dict_has _IN_FLIGHT_KEY o = false
    /\ validate_json (json_dumps (JObj o)) = Ok s
}.

(** A string object. *)
Record StrObj := { so_id : nat; so_text : string }.
Definition same_obj (a b : option StrObj) : bool :=
  match a, b with
  | None, None => true
  | Some a, Some b => Nat.eqb (so_id a) (so_id b)
  | _, _ => false
  end.

Abbreviation Rows := (gmap string (option StrObj * Z)).
Abbreviation Cache := (gmap string (option StrObj * DelegationWorkflowState)).

(** The proxy with what it reads: the bound rows and the process-wide dict. *)
Record Proxy := {
  px_rows : option Rows;
  px_cache : Cache;
  px_shared : Workflows
}.
#[export] Instance eta_Proxy : Eta Proxy := fun p =>
  {| px_rows := px_rows p; px_cache := px_cache p; px_shared := px_shared p |}.

Abbreviation P := (M Proxy Read).

(** [rows.get(str(cid), (None, 0))[0]] *)
Definition bound_payload (rows : Rows) (cid : string) : option StrObj :=
  match rows !! cid with Some (payload_json, _) => payload_json | None => None end.

(** The cached entry, if it was read from the row bound now. *)
Definition fresh_hit (cache : Cache) (payload_json : option StrObj) (cid : string) : option DelegationWorkflowState :=
  match cache !! cid with
  | Some (source, state) => if same_obj source payload_json then Some state else None
  | None => None
  end.

Definition _lookup_bound (cid : string) (rows : Rows) : P (option DelegationWorkflowState) :=
  p ← get_state;
  let payload_json := bound_payload rows cid in
  match fresh_hit (px_cache p) payload_json cid with
  | Some state => mret (Some state)
  | None =>
      match payload_json with
      | None => mret None
      | Some text =>
          decoded ← lift (decode (so_text text));
          _ ← modify (fun p => p <| px_cache := <[cid := (payload_json, decoded)]> (px_cache p) |>);
          mret (Some decoded)
      end
  end.

Definition key_error {A} (cid : string) : P A := raise (KeyError cid).

Definition __getitem__ (cid : string) : P DelegationWorkflowState :=
  p ← get_state;
  match px_rows p with
  | None => match px_shared p !! cid with Some w => mret w | None => key_error cid end
  | Some rows =>
      state ← _lookup_bound cid rows;
      match state with Some w => mret w | None => key_error cid end
  end.

Definition __setitem__ (cid : string) (state : DelegationWorkflowState) : P unit :=
  p ← get_state;
  match px_rows p with
  | None => modify (fun p => p <| px_shared := <[cid := state]> (px_shared p) |>)
  | Some rows => modify (fun p => p <| px_cache := <[cid := (bound_payload rows cid, state)]> (px_cache p) |>)
  end.

Definition __delitem__ (cid : string) : P unit :=
  p ← get_state;
  match px_rows p with
  | None => match px_shared p !! cid with
            | Some _ => modify (fun p => p <| px_shared := delete cid (px_shared p) |>)
            | None => key_error cid
            end
  | Some _ => match px_cache p !! cid with
              | Some _ => modify (fun p => p <| px_cache := delete cid (px_cache p) |>)
              | None => key_error cid
              end
  end.

Definition __contains__ (cid : string) : P bool :=
  p ← get_state;
  mret match px_rows p with
       | None => bool_decide (is_Some (px_shared p !! cid))
       | Some rows =>
           let payload_json := bound_payload rows cid in
           match fresh_hit (px_cache p) payload_json cid with
           | Some _ => true
           | None => match payload_json with Some _ => true | None => false end
           end
       end.

Definition __iter__ : P (gset string) :=
  p ← get_state;
  mret match px_rows p with None => dom (px_shared p) | Some _ => dom (px_cache p) end.
Definition __len__ : P nat :=
  p ← get_state;
  mret match px_rows p with None => size (px_shared p) | Some _ => size (px_cache p) end.

(** [self._cache.pop(cid)], then the encoding: the entry is gone even if the
    encoding raises. *)
Definition proxy_flush (cid : string) : P string :=
  p ← get_state;
  match px_cache p !! cid with
  | None => key_error cid
  | Some (_, state) =>
      _ ← modify (fun p => p <| px_cache := delete cid (px_cache p) |>);
      lift (encode state)
  end.

(** The comprehension over the entries; the cache is cleared after it. *)
Definition flush_all : P (gmap string string) :=
  p ← get_state;
  flushed ← lift (map_fold (fun cid entry acc => acc ← acc; encoded ← encode entry.2; Ok (<[cid := encoded]> acc))
                    (Ok ∅) (px_cache p));
  _ ← modify (fun p => p <| px_cache := ∅ |>);
  mret flushed.

(** [StateIoCodec.flush]: only a missing entry is no error. *)
Definition codec_flush (cid : string) : P (option string) :=
  encoded ← attempt (proxy_flush cid);
  match encoded with
  | Ok text => mret (Some text)
  | Raise (KeyError _) => mret None
  | Raise x => raise x
  end.

(** ** The handler on the proxy *)

(** [Mapping.get]: [None] when the item raises a [KeyError]. *)
Definition proxy_get (cid : string) : P (option DelegationWorkflowState) :=
  w ← attempt (__getitem__ cid);
  match w with
  | Ok w => mret (Some w)
  | Raise (KeyError _) => mret None
  | Raise x => raise x
  end.

(** The object a lookup returned is the one the mapping holds: what a handler
    assigns to its fields is seen through the mapping. *)
Definition write_back (cid : string) (w : DelegationWorkflowState) (p : Proxy) : Proxy :=
  match px_rows p with
  | None => p <| px_shared := <[cid := w]> (px_shared p) |>
  | Some _ => match px_cache p !! cid with
              | Some (source, _) => p <| px_cache := <[cid := (source, w)]> (px_cache p) |>
              | None => p
              end
  end.

(** A handler's body on the object found. *)
Definition run_on (cid : string) (body : W (list DelegationOutput)) (w : DelegationWorkflowState) : P (list DelegationOutput) :=
  fun s => let '((w', l), r) := body (w, s.2) in ((write_back cid w' s.1, l), r).

Definition proxy_on_workflow (cid : string) (body : W (list DelegationOutput)) : P (list DelegationOutput) :=
  w ← proxy_get cid;
  match w with
  | None => mret []
  | Some w => run_on cid body w
  end.

Section handle.
Context (world : World).

Definition proxy_delegation_request (request : ModelDelegationRequest) : P (list DelegationOutput) :=
  let cid := rq_correlation_id request in
  present ← __contains__ cid;
  if (present : bool) then
    w ← __getitem__ cid;
    run_on cid (replay_request request) w
  else
    tenant_id ← (if truthy (rq_tenant_id request) then mret (rq_tenant_id request) else setting_tenant world);
    started_at_ns ← call ReadTimeNs (fun l => Ok (w_time_ns world l));
    _ ← __setitem__ cid (new_workflow cid request (_context_pack_hash_for_event request) started_at_ns tenant_id);
    mret [mk_routing_intent request None []].

Definition proxy_handle (input : DelegationWorkflowInput) : P (list DelegationOutput) :=
  match input with
  | InRequest request => proxy_delegation_request request
  | InInvocation command => proxy_on_workflow (ic_correlation_id command) (handle_invocation_command command)
  | InDecision decision => proxy_on_workflow (rd_correlation_id decision) (handle_routing_decision world decision)
  | InResponse response => proxy_on_workflow (ir_correlation_id response) (handle_inference_response world response)
  | InGate gate => proxy_on_workflow (gr_correlation_id gate) (handle_gate_result world gate 2 [])
  | InLifecycle event => proxy_on_workflow (le_correlation_id event) (handle_agent_task_lifecycle world event)
  | InOther type_name => raise (ValueError ("Unsupported delegation workflow payload: " +:+ type_name))
  end.
End handle.

(** ** Round trip *)

Lemma json_wf_set k b o : json_wf (JObj o) = true -> dict_has k o = false -> json_wf (JObj (dict_set k (JBool b) o)) = true.
Proof.
  intros Hwf Hk. assert (dict_get k o = None) as Hn by (unfold dict_has in Hk; by destruct (dict_get k o)).
  rewrite dict_set_fresh by done. cbn in *. breflect. apply andb_true_intro. split.
  - apply bool_decide_eq_true. unfold dict_keys. rewrite map_app. apply NoDup_app. split; [done|]. split; [|apply NoDup_singleton].
    intros x Hx ->%list_elem_of_singleton. by apply dict_get_None in Hn.
  - rewrite forallb_app, H0. done.
Qed.

Lemma encode_decode s : adapter_reads_back s ->
  exists text o, encode s = Ok text /\ decode text = Ok s
    /\ json_loads text = Ok (JObj o) /\ dict_get _IN_FLIGHT_KEY o = Some (JBool (wf_inference_intent_in_flight s)).
Proof.
  intros [(o & Hl & Hwf & Hk & Hv)]. unfold encode. rewrite Hl. cbn [mbind result_bind].
  assert (dict_get _IN_FLIGHT_KEY o = None) as Hn by (unfold dict_has in Hk; by destruct (dict_get _IN_FLIGHT_KEY o)).
  eexists _, _. split; [done|]. unfold decode. rewrite loads_dumps by (by apply json_wf_set). cbn [mbind result_bind].
  rewrite dict_pop_fresh by done. split; [done|]. split; [done|]. by rewrite dict_get_set, String.eqb_refl.
Qed.

(** ** The mapping and the dict *)

(** What the mapping stands for: the dict of the workflows a lookup would find.
    [None]: the bound row does not decode. *)
Definition view (p : Proxy) (cid : string) : result (option DelegationWorkflowState) :=
  match px_rows p with
  | None => Ok (px_shared p !! cid)
  | Some rows =>
      let payload_json := bound_payload rows cid in
      match fresh_hit (px_cache p) payload_json cid with
      | Some w => Ok (Some w)
      | None => match payload_json with
                | None => Ok None
                | Some text => w ← decode (so_text text); Ok (Some w)
                end
      end
  end.

(** The dict [m] is what the mapping shows. *)
Definition shows (p : Proxy) (m : Workflows) : Prop := forall cid, view p cid = Ok (m !! cid).

Lemma same_obj_refl o : same_obj o o = true.
Proof. destruct o; [apply Nat.eqb_refl|done]. Qed.

(** An entry a lookup of this dispatch may rely on. *)
Definition loaded (p : Proxy) (cid : string) : Prop :=
  match px_rows p with
  | None => True
  | Some rows => exists source w, px_cache p !! cid = Some (source, w) /\ same_obj source (bound_payload rows cid) = true
  end.

Lemma fresh_hit_other cache cid cid' payload entry : cid' <> cid ->
  fresh_hit (<[cid := entry]> cache) payload cid' = fresh_hit cache payload cid'.
Proof. intros Hne. unfold fresh_hit. by rewrite lookup_insert_ne. Qed.
Lemma fresh_hit_insert cache cid payload source w : same_obj source payload = true ->
  fresh_hit (<[cid := (source, w)]> cache) payload cid = Some w.
Proof. intros Hs. unfold fresh_hit. by rewrite lookup_insert_eq, Hs. Qed.

(** Putting an entry read from the bound row in the cache. *)
Lemma view_insert p rows cid source w cid' : px_rows p = Some rows -> same_obj source (bound_payload rows cid) = true ->
  view (p <| px_cache := <[cid := (source, w)]> (px_cache p) |>) cid' = if decide (cid' = cid) then Ok (Some w) else view p cid'.
Proof.
  intros Hr Hs. unfold view. cbn. rewrite Hr. destruct (decide (cid' = cid)) as [->|Hne].
  - by rewrite fresh_hit_insert.
  - by rewrite fresh_hit_other.
Qed.
Lemma shows_insert p rows m cid source w : px_rows p = Some rows -> same_obj source (bound_payload rows cid) = true ->
  (forall cid', cid' <> cid -> view p cid' = Ok (m !! cid')) ->
  shows (p <| px_cache := <[cid := (source, w)]> (px_cache p) |>) (<[cid := w]> m).
Proof.
  intros Hr Hs Hv cid'. rewrite (view_insert p rows) by done. destruct (decide (cid' = cid)) as [->|Hne].
  - by rewrite lookup_insert_eq.
  - rewrite lookup_insert_ne by done. by apply Hv.
Qed.

Lemma write_back_shows p m cid w : shows p m -> loaded p cid -> shows (write_back cid w p) (<[cid := w]> m).
Proof.
  intros Hp Hl. unfold write_back, loaded in *. destruct (px_rows p) as [rows|] eqn:Hr.
  - destruct Hl as (source & w0 & -> & Hs). eapply shows_insert; [exact Hr|done|]. intros cid' _. apply Hp.
  - intros cid'. specialize (Hp cid'). unfold view in *. cbn. rewrite Hr in *. injection Hp as Hp.
    destruct (decide (cid' = cid)) as [->|Hne]; [by rewrite !lookup_insert_eq|by rewrite !lookup_insert_ne, Hp].
Qed.

(** A lookup finds what the dict holds, and leaves the mapping showing the same
    dict. *)
Lemma getitem_shows p m cid l : shows p m -> exists p',
  __getitem__ cid (p, l) = ((p', l), match m !! cid with Some w => Ok w | None => Raise (KeyError cid) end)
  /\ shows p' m /\ (is_Some (m !! cid) -> loaded p' cid).
Proof.
  intros Hp. pose proof (Hp cid) as Hv. unfold __getitem__, view in *. mrun.
  destruct (px_rows p) as [rows|] eqn:Hr.
  2: { injection Hv as ->. exists p. unfold loaded. rewrite Hr. by destruct (m !! cid). }
  unfold _lookup_bound. mrun.
  destruct (fresh_hit (px_cache p) (bound_payload rows cid) cid) as [w|] eqn:Ef.
  - injection Hv as <-. exists p. split; [done|]. split; [done|]. intros _. unfold loaded. rewrite Hr.
    unfold fresh_hit in Ef. destruct (px_cache p !! cid) as [[source w']|]; [|done].
    destruct (same_obj source _) eqn:Es; [|done]. eauto.
  - destruct (bound_payload rows cid) as [text|] eqn:Eb.
    + destruct (decode (so_text text)) as [w|] eqn:Ed; [|done]. cbn [mbind result_bind] in Hv. injection Hv as Hv.
      mrun. eexists. split; [by rewrite <- Hv|]. split.
      * assert (<[cid := w]> m = m) as <- by (by apply insert_id).
        eapply shows_insert; [exact Hr|rewrite Eb; apply same_obj_refl|]. intros cid' _. apply Hp.
      * intros _. unfold loaded. cbn. rewrite Hr. exists (Some text), w. rewrite lookup_insert_eq, Eb. split; [done|]. apply same_obj_refl.
    + injection Hv as <-. exists p. split; [done|]. split; [done|]. by intros [].
Qed.

(** [cid in proxy] is true exactly when [proxy[cid]] succeeds. *)
Lemma contains_shows p m cid l : shows p m -> __contains__ cid (p, l) = ((p, l), Ok (bool_decide (is_Some (m !! cid)))).
Proof.
  intros Hp. pose proof (Hp cid) as Hv. unfold __contains__, view in *. mrun.
  destruct (px_rows p) as [rows|]; [|by injection Hv as ->].
  destruct (fresh_hit _ _ _); [by injection Hv as <-|]. destruct (bound_payload rows cid); [|by injection Hv as <-].
  destruct (decode _); [|done]. cbn in Hv. by injection Hv as <-.
Qed.

Lemma setitem_shows p m cid w l : shows p m -> exists p', __setitem__ cid w (p, l) = ((p', l), Ok ()) /\ shows p' (<[cid := w]> m).
Proof.
  intros Hp. unfold __setitem__. mrun. destruct (px_rows p) as [rows|] eqn:Hr.
  - eexists. split; [done|]. eapply shows_insert; [exact Hr|apply same_obj_refl|]. intros cid' _. apply Hp.
  - eexists. split; [done|]. intros cid'. specialize (Hp cid'). unfold view in *. cbn. rewrite Hr in *. injection Hp as Hp.
    destruct (decide (cid' = cid)) as [->|Hne]; [by rewrite !lookup_insert_eq|by rewrite !lookup_insert_ne, Hp].
Qed.

(** One dispatch on the mapping and one on the dict it shows. *)
Definition agree (r : (Proxy * list Read) * result (list DelegationOutput)) (r' : (Workflows * list Read) * result (list DelegationOutput)) : Prop :=
  shows r.1.1 r'.1.1 /\ r.1.2 = r'.1.2 /\ r.2 = r'.2.

Lemma run_on_agrees p m cid body w l : shows p m -> m !! cid = Some w -> loaded p cid ->
  agree (run_on cid body w (p, l)) (on_workflow cid body (m, l)).
Proof.
  intros Hp Hm Hl. unfold run_on, on_workflow. cbn [fst snd]. rewrite Hm.
  destruct (body (w, l)) as [[w' l'] r]. split; [|done]. by apply write_back_shows.
Qed.
Lemma on_workflow_agrees p m cid body l : shows p m -> agree (proxy_on_workflow cid body (p, l)) (on_workflow cid body (m, l)).
Proof.
  intros Hp. destruct (getitem_shows p m cid l Hp) as (p' & Hg & Hp' & Hl).
  unfold proxy_on_workflow, proxy_get, attempt. mrun. rewrite Hg.
  destruct (m !! cid) as [w|] eqn:Em; cbn [mret M_ret].
  - apply run_on_agrees; auto.
  - unfold on_workflow. cbn [fst snd]. by rewrite Em.
Qed.

Lemma dispatch_agrees world p m i l : shows p m -> agree (proxy_handle world i (p, l)) (handle world i (m, l)).
Proof.
  intros Hp. destruct i as [r| | | | | |]; cbn [proxy_handle handle]; try (by apply on_workflow_agrees); [|done].
  unfold proxy_delegation_request, handle_delegation_request. mrun.
  rewrite (contains_shows p m) by done. case_bool_decide as Hin.
  - destruct (getitem_shows p m (rq_correlation_id r) l Hp) as (p' & Hg & Hp' & Hl). mrun. rewrite Hg.
    destruct Hin as [w Hw]. rewrite Hw in *. apply run_on_agrees; eauto.
  - assert (forall t l, agree ((started_at_ns ← call ReadTimeNs (fun l => Ok (w_time_ns world l));
        _ ← __setitem__ (rq_correlation_id r) (new_workflow (rq_correlation_id r) r (_context_pack_hash_for_event r) started_at_ns t);
        mret [mk_routing_intent r None []]) (p, l))
      ((started_at_ns ← call ReadTimeNs (fun l => Ok (w_time_ns world l));
        _ ← modify (fun m => <[rq_correlation_id r := new_workflow (rq_correlation_id r) r (_context_pack_hash_for_event r) started_at_ns t]> m);
        mret [mk_routing_intent r None []]) (m, l))) as Hnew.
    { intros t l'. mrun.
      destruct (setitem_shows p m (rq_correlation_id r) (new_workflow (rq_correlation_id r) r (_context_pack_hash_for_event r)
        (w_time_ns world l') t) (l' ++ [ReadTimeNs]) Hp) as (p' & -> & Hs). by split. }
    destruct (truthy (rq_tenant_id r)); [apply Hnew|]. mrun. apply Hnew.
Qed.

(** ** Flushing *)

(** After a dispatch, the flush of a correlation id hands out the encoding of
    what the handler left, once. *)
Lemma flush_spec p m cid l rows : px_rows p = Some rows -> shows p m -> loaded p cid ->
  match m !! cid with
  | Some w => codec_flush cid (p, l) =
      (((p <| px_cache := delete cid (px_cache p) |>, l)), match encode w with Ok t => Ok (Some t) | Raise x => match x with KeyError _ => Ok None | _ => Raise x end end)
  | None => False
  end.
Proof.
  intros Hr Hp Hl. unfold loaded in Hl. rewrite Hr in Hl. destruct Hl as (source & w & Hc & Hs).
  pose proof (Hp cid) as Hv. unfold view, fresh_hit in Hv. rewrite Hr, Hc, Hs in Hv. injection Hv as <-.
  unfold codec_flush, attempt, proxy_flush. mrun. rewrite Hc.
  mrun. destruct (encode w) as [t|[]]; done.
Qed.
Lemma flush_untouched p cid l : px_cache p !! cid = None -> codec_flush cid (p, l) = ((p, l), Ok None).
Proof. intros Hc. unfold codec_flush, attempt, proxy_flush. mrun. by rewrite Hc. Qed.

(** Rows bound anew, as objects no entry was read from, show what they hold; an
    entry left behind by a dispatch that was not flushed does not count. *)
Lemma rebind_shows p rows m :
  (forall cid source w, px_cache p !! cid = Some (source, w) -> same_obj source (bound_payload rows cid) = false) ->
  (forall cid, match bound_payload rows cid with
               | None => m !! cid = None
               | Some text => exists w, decode (so_text text) = Ok w /\ m !! cid = Some w
               end) ->
  shows (p <| px_rows := Some rows |>) m.
Proof.
  intros Hfresh Hrows cid. specialize (Hrows cid). unfold view. cbn -[decode]. unfold fresh_hit.
  assert (match px_cache p !! cid with
          | Some (source, state) => if same_obj source (bound_payload rows cid) then Some state else None
          | None => None
          end = None) as ->.
  { destruct (px_cache p !! cid) as [[source w]|] eqn:Ec; [|done]. by rewrite (Hfresh _ _ _ Ec). }
  destruct (bound_payload rows cid); [|by rewrite Hrows]. destruct Hrows as (w & Hd & ->). by rewrite Hd.
Qed.
End codec.
