(* ===== verification/DelegationSpec.v ===== *)
(** * What a delegation promises

    The abstract machine of one delegation: the phases a correlation id goes
    through, what each event makes the orchestrator emit, and what it may not
    ignore.  [DelegationRefine] shows that the handlers implement it; the
    guarantees proved here on its executions are guarantees of the handlers. *)
From S2P Require Import Prelude.

#[local] Open Scope Z_scope.

(** ** The machine *)

(** Before its request a delegation is [Absent]; in [Routing] a decision is
    awaited, in [Inferring] a response, in [Judging] a gate result. *)
Inductive Phase :=
  | Absent | Received (replayed : bool) | Routing | Inferring | Judging | Executing | Completed | Failed.
#[export] Instance Phase_eq_dec : EqDecision Phase.
Proof. solve_decision. Defined.

Inductive Label := LRequest | LInvocation | LDecision | LResponse | LGate | LLifecycle.
#[export] Instance Label_eq_dec : EqDecision Label.
Proof. solve_decision. Defined.

Inductive Kind := KRouting | KInvocation | KInference | KGate | KEscalation | KCompleted | KFailed.
#[export] Instance Kind_eq_dec : EqDecision Kind.
Proof. solve_decision. Defined.

Record Abs := { a_phase : Phase; a_escalations : Z }.
Definition absent : Abs := {| a_phase := Absent; a_escalations := 0 |}.

Definition max_escalations : Z := 2.

(** The events a phase must react to. *)
Definition expects (p : Phase) (l : Label) : bool :=
  match p, l with
  | Absent, LRequest
  | Received false, LRequest | Received _, LInvocation | Received _, LDecision
  | Routing, LDecision | Routing, LLifecycle
  | Inferring, LResponse | Inferring, LLifecycle
  | Judging, LGate => true
  | _, _ => false
  end.

Inductive astep : Abs -> Label -> list Kind -> Abs -> Prop :=
  | a_ignore a l : expects (a_phase a) l = false -> astep a l [] a
  | a_create : astep absent LRequest [KRouting] {| a_phase := Received false; a_escalations := 0 |}
  | a_replay n :
      astep {| a_phase := Received false; a_escalations := n |} LRequest [KRouting]
            {| a_phase := Received true; a_escalations := n |}
  | a_invoke b n :
      astep {| a_phase := Received b; a_escalations := n |} LInvocation [KInvocation]
            {| a_phase := Routing; a_escalations := n |}
  | a_decide p n : (exists b, p = Received b) \/ p = Routing ->
      astep {| a_phase := p; a_escalations := n |} LDecision [KInference]
            {| a_phase := Inferring; a_escalations := n |}
  | a_answer n :
      astep {| a_phase := Inferring; a_escalations := n |} LResponse [KGate]
            {| a_phase := Judging; a_escalations := n |}
  | a_repair n :
      astep {| a_phase := Inferring; a_escalations := n |} LResponse [KInference]
            {| a_phase := Inferring; a_escalations := n |}
  (** the same tier again: a sibling backend, or a free tier's next draft *)
  | a_retry p l n : (p, l) = (Inferring, LResponse) \/ (p, l) = (Judging, LGate) ->
      astep {| a_phase := p; a_escalations := n |} l [KRouting]
            {| a_phase := Routing; a_escalations := n |}
  | a_escalate p l n : (p, l) = (Inferring, LResponse) \/ (p, l) = (Judging, LGate) -> n < max_escalations ->
      astep {| a_phase := p; a_escalations := n |} l [KRouting; KEscalation]
            {| a_phase := Routing; a_escalations := n + 1 |}
  | a_fail p l n : (p, l) = (Inferring, LResponse) \/ (p, l) = (Judging, LGate) ->
      astep {| a_phase := p; a_escalations := n |} l [KFailed]
            {| a_phase := Failed; a_escalations := n |}
  | a_accept n :
      astep {| a_phase := Judging; a_escalations := n |} LGate [KCompleted]
            {| a_phase := Completed; a_escalations := n |}
  | a_execute p n : p = Routing \/ p = Inferring ->
      astep {| a_phase := p; a_escalations := n |} LLifecycle []
            {| a_phase := Executing; a_escalations := n |}
  | a_remote_done p n : p = Routing \/ p = Inferring \/ p = Executing ->
      astep {| a_phase := p; a_escalations := n |} LLifecycle [KCompleted]
            {| a_phase := Completed; a_escalations := n |}
  | a_remote_failed p n : p = Routing \/ p = Inferring \/ p = Executing ->
      astep {| a_phase := p; a_escalations := n |} LLifecycle [KFailed]
            {| a_phase := Failed; a_escalations := n |}.
Create HintDb delegation.
#[export] Hint Constructors astep : delegation.

Lemma completes_on a l ks a' : astep a l ks a' -> KCompleted ∈ ks -> l = LGate \/ l = LLifecycle.
Proof. destruct 1; rewrite ?elem_of_cons, ?elem_of_nil; intuition discriminate. Qed.

Lemma judges_on a l ks a' : astep a l ks a' -> KGate ∈ ks -> l = LResponse.
Proof. destruct 1; rewrite ?elem_of_cons, ?elem_of_nil; intuition discriminate. Qed.

(** An awaited event is answered, but for a remote task's report that it is
    executing. *)
Lemma expected_answered a l ks a' : expects (a_phase a) l = true -> astep a l ks a' ->
  ks <> [] \/ l = LLifecycle /\ a_phase a' = Executing.
Proof. intros He Hs. destruct Hs; cbn in *; try congruence; auto. Qed.

(** A sequence of events and all it made the delegation emit. *)
Inductive aexec : Abs -> list Label -> list Kind -> Abs -> Prop :=
  | aexec_nil a : aexec a [] [] a
  | aexec_cons a l ls ks a1 ks' a' : astep a l ks a1 -> aexec a1 ls ks' a' -> aexec a (l :: ls) (ks ++ ks') a'.

Lemma aexec_app a ls1 ks1 a1 ls2 ks2 a2 :
  aexec a ls1 ks1 a1 -> aexec a1 ls2 ks2 a2 -> aexec a (ls1 ++ ls2) (ks1 ++ ks2) a2.
Proof. induction 1; intros H2; [done|]. simpl. rewrite <- app_assoc. econstructor; eauto. Qed.

(** ** Guarantees *)

Definition is_end (k : Kind) : bool := bool_decide (k = KCompleted \/ k = KFailed).
Definition is_inference (k : Kind) : bool := bool_decide (k = KInference).
Definition is_escalation (k : Kind) : bool := bool_decide (k = KEscalation).
Definition is_routing (k : Kind) : bool := bool_decide (k = KRouting).
Definition is_response (l : Label) : bool := bool_decide (l = LResponse).
Definition is_answer (l : Label) : bool := bool_decide (l = LResponse \/ l = LGate).
Definition finished (p : Phase) : bool := match p with Completed | Failed => true | _ => false end.

(** A weight that an execution can only pay from its phase's balance, topped up
    by events: the one induction the counting guarantees share. *)
Lemma aexec_balance (w: Kind -> bool) (income : Label -> nat) (balance : Abs -> nat) :
  (forall a l ks a', astep a l ks a' -> 0 <= a_escalations a <= max_escalations ->
     (count w ks + balance a' <= balance a + income l)%nat) ->
  forall a ls ks a', aexec a ls ks a' -> 0 <= a_escalations a <= max_escalations ->
    (count w ks + balance a' <= balance a + sum_list_with income ls)%nat /\ 0 <= a_escalations a' <= max_escalations.
Proof.
  intros Hstep. induction 1 as [a|a l ls ks a1 ks' a' Hs _ IH]; intros Ha; simpl.
  - unfold count. simpl. split; [lia|done].
  - assert (0 <= a_escalations a1 <= max_escalations) as Ha1.
    { destruct Hs; simpl in *; unfold max_escalations in *; lia. }
    specialize (IH Ha1) as [IH ?]. specialize (Hstep _ _ _ _ Hs Ha). rewrite count_app. split; [lia|done].
Qed.

Ltac balance_cases :=
  let Hs := fresh in let Ha := fresh in intros ? ? ? ? Hs Ha; destruct Hs; unfold max_escalations in *; simpl in *;
  repeat match goal with
  | H : _ \/ _ |- _ => destruct H
  | H : exists _, _ |- _ => destruct H
  | H : (_, _) = (_, _) |- _ => injection H as -> ->
  end; subst; rewrite ?count_cons, ?count_nil; cbn; try lia.

(** A delegation ends at most once, and what has ended emits nothing. *)
Lemma one_end ls ks a : aexec absent ls ks a -> (count is_end ks <= 1)%nat.
Proof.
  intros H.
  destruct (aexec_balance is_end (fun _ => 0%nat) (fun a => if finished (a_phase a) then 0 else 1)%nat) with (2 := H) as [Hc _];
    [|done|].
  - balance_cases. all: repeat case_match; lia.
  - cbn in Hc. replace (sum_list_with (fun _ => 0%nat) ls) with 0%nat in Hc; [lia|].
    clear. induction ls; simpl; auto.
Qed.
Lemma finished_is_final a ls ks a' : finished (a_phase a) = true -> aexec a ls ks a' -> ks = [] /\ a' = a.
Proof.
  intros Hf H. induction H as [|a l ls ks a1 ks' a' Hs _ IH]; [done|].
  assert (ks = [] /\ a1 = a) as [-> ->].
  { destruct Hs; try done; simpl in Hf;
    repeat match goal with
    | H : _ \/ _ |- _ => destruct H
    | H : exists _, _ |- _ => destruct H
    | H : (_, _) = (_, _) |- _ => injection H as -> ->
    end; subst; done. }
  by apply IH.
Qed.

(** Two escalations, no more. *)
Lemma escalations_bounded ls ks a : aexec absent ls ks a ->
  (count is_escalation ks <= 2)%nat /\ Z.of_nat (count is_escalation ks) = a_escalations a.
Proof.
  intros H.
  destruct (aexec_balance is_escalation (fun _ => 0%nat) (fun a => Z.to_nat (max_escalations - a_escalations a)))
    with (2 := H) as [Hc Ha]; [balance_cases|done|].
  assert (forall a ls ks a', aexec a ls ks a' ->
    a_escalations a' = a_escalations a + Z.of_nat (count is_escalation ks)) as Hsum.
  { clear. induction 1 as [|a l ls ks a1 ks' a' Hs _ IH]; [rewrite count_nil; lia|].
    rewrite IH, count_app. destruct Hs; simpl; rewrite ?count_cons, ?count_nil; cbn; lia. }
  specialize (Hsum _ _ _ _ H). simpl in Hsum. unfold max_escalations in *. split; lia.
Qed.

(** At most one inference is outstanding: an attempt needs the answer to the one
    before. *)
Lemma one_inference_in_flight ls ks a : aexec absent ls ks a ->
  (count is_inference ks <= 1 + count is_response ls)%nat.
Proof.
  intros H.
  destruct (aexec_balance is_inference (fun l => if is_response l then 1 else 0)%nat
    (fun a => match a_phase a with Inferring | Executing | Completed | Failed => 0 | _ => 1 end)%nat) with (2 := H) as [Hc _]; [|done|].
  - balance_cases. all: repeat case_match; try done; lia.
  - cbn in Hc. assert (sum_list_with (fun l => if is_response l then 1 else 0)%nat ls = count is_response ls) as Hs.
    { clear. induction ls as [|l ls IH]; simpl; [done|]. rewrite count_cons, IH. done. }
    lia.
Qed.
