(* ===== verification/DelegationRefine.v ===== *)
(** * The handlers implement the abstract delegation

    The invariant of a workflow between two handlers, the effect of each piece of
    a handler as a weakest-precondition rule, and one lemma per handler: from a
    workflow that satisfies the invariant it takes a step of [DelegationSpec].
    What may raise is collected in [Behaves]: with [Bad := True] nothing is
    assumed, with [Bad := False] the lemmas say that no handler raises. *)
From S2P Require Import Prelude PyFloat PyJson LogMonad DelegationModels DelegationPricing DelegationRouting InferenceProtocol ComplianceLoop DelegationBar DelegationWorkflow DelegationHandlers DelegationSpec.
Import WfState (EnumDelegationState).

#[local] Open Scope Z_scope.

(** ** Kinds and correlation ids of what is emitted *)

Definition kind_of (o : DelegationOutput) : Kind :=
  match o with
  | OutRouting _ => KRouting
  | OutInvocation _ => KInvocation
  | OutInference _ => KInference
  | OutGate _ => KGate
  | OutEscalation _ => KEscalation
  | OutCompleted _ => KCompleted
  | OutFailed _ => KFailed
  end.
Definition output_cid (o : DelegationOutput) : string :=
  match o with
  | OutRouting i => rq_correlation_id (ri_payload i)
  | OutInvocation c => ic_correlation_id c
  | OutInference i => ii_correlation_id i
  | OutGate g => gi_correlation_id g
  | OutEscalation e => ee_correlation_id e
  | OutCompleted r | OutFailed r => dr_correlation_id r
  end.

(** ** The invariant *)

(** Token counts of a priced attempt. *)
Definition tokens_ok (p c : Z) : Prop := 0 <= p /\ 0 <= c /\ is_finite (float_of_Z (p + c)) = true.

Definition attempts_ok (h : list ModelDelegationEscalationAttempt) : Prop :=
  Forall (fun a => tokens_ok (ea_prompt_tokens a) (ea_completion_tokens a)) h.

(** A request that asks for a schema brings usable limits. *)
Definition request_ok (r : ModelDelegationRequest) : Prop :=
  match rq_output_schema_key r with
  | None => True
  | Some _ => match rq_compliance_budget r with Some b => limits_ok b | None => False end
  end.

(** Each state with what its handler relies on; the two states a handler only
    passes through are never left behind. *)
Definition state_ok (w : DelegationWorkflowState) : Prop :=
  match wf_state w with
  | WfState.RECEIVED => wf_routing_decision w = None /\ wf_inference_content w = None
      /\ wf_inference_intent_in_flight w = false /\ wf_escalation_count w = 0
  | WfState.ROUTED => wf_inference_content w = None
      /\ wf_inference_intent_in_flight w = bool_decide (is_Some (wf_routing_decision w))
  | WfState.INFERENCE_COMPLETED => is_Some (wf_routing_decision w) /\ is_Some (wf_inference_content w)
      /\ is_Some (wf_inference_model_used w) /\ wf_inference_intent_in_flight w = false
  | WfState.GATE_EVALUATED | WfState.ESCALATING => False
  | WfState.EXECUTING | WfState.COMPLETED | WfState.FAILED => True
  end.

(** The history accounts for what was banked: every recorded attempt, once. *)
Definition spent (f : ModelDelegationEscalationAttempt -> Z) (h : list ModelDelegationEscalationAttempt) : Z :=
  foldr (fun a n => f a + n) 0 h.
Definition spent_usd (h : list ModelDelegationEscalationAttempt) : float :=
  fold_left (fun x a => (x + ea_cost_usd a)%float) h fzero.
Definition balanced (h : list ModelDelegationEscalationAttempt) (w : DelegationWorkflowState) : Prop :=
  wf_cumulative_attempt_prompt_tokens w = spent ea_prompt_tokens h
  /\ wf_cumulative_attempt_completion_tokens w = spent ea_completion_tokens h
  /\ wf_cumulative_attempt_cost_usd w = spent_usd h.

(** The running totals are those of the history, all of it but the last attempt of a
    delegation that failed on it. *)
Definition books (w : DelegationWorkflowState) : Prop := exists prior last,
  wf_escalation_history w = prior ++ last /\ balanced prior w /\ (last = [] \/ wf_state w = WfState.FAILED /\ length last = 1%nat).

(** [Odd]: the inputs may carry token counts or budgets outside their ranges. *)
Record Inv (Odd : Prop) (w : DelegationWorkflowState) : Prop := {
  inv_request : exists r, wf_request w = Some r /\ rq_correlation_id r = wf_correlation_id w /\ (request_ok r \/ Odd);
  inv_state : state_ok w;
  inv_count : 0 <= wf_escalation_count w <= max_escalations;
  inv_tokens : tokens_ok (wf_inference_prompt_tokens w) (wf_inference_completion_tokens w) \/ Odd;
  inv_history : attempts_ok (wf_escalation_history w) \/ Odd;
  inv_total : wf_inference_total_tokens w = wf_inference_prompt_tokens w + wf_inference_completion_tokens w;
  inv_balance : books w
}.
Lemma books_of w : balanced (wf_escalation_history w) w -> books w.
Proof. intros H. exists (wf_escalation_history w), []. rewrite app_nil_r. auto. Qed.

Definition phase_of (w : DelegationWorkflowState) : Phase :=
  match wf_state w with
  | WfState.RECEIVED => Received (wf_routing_intent_replayed w)
  | WfState.ROUTED => match wf_routing_decision w with None => Routing | Some _ => Inferring end
  | WfState.INFERENCE_COMPLETED | WfState.GATE_EVALUATED | WfState.ESCALATING => Judging
  | WfState.EXECUTING => Executing
  | WfState.COMPLETED => Completed
  | WfState.FAILED => Failed
  end.
Definition abs_of (w : DelegationWorkflowState) : Abs :=
  {| a_phase := phase_of w; a_escalations := wf_escalation_count w |}.

(** ** What may raise *)

Class Behaves (world : World) (Bad : Prop) : Prop := {
  bh_price tier p c cf : tokens_ok p c -> is_ok (_measure_terminal_cost world tier p c cf) \/ Bad;
  bh_decide w n ex retryable reason t : 0 <= wf_escalation_count w -> 0 <= n ->
    is_ok (_decide_escalation world w n ex retryable reason (Some t)) \/ Bad;
  bh_sibling tier t ex : is_ok (sibling_backend_available_in_tier (w_routing world) tier t ex) \/ Bad;
  bh_free tier : is_ok (is_free_tier (w_routing world) tier) \/ Bad;
  bh_retries tier : is_free_tier (w_routing world) tier = Ok true -> is_ok (tier_max_retries (w_routing world) tier) \/ Bad;
  bh_protocol : is_ok (w_protocol world) \/ Bad
}.
#[export] Instance behaves_any world : Behaves world True.
Proof. constructor; intros; by right. Qed.

(** Case analysis on a call that is [Ok] or [Bad]. *)
Lemma or_bad {A} (r : result A) (Bad : Prop) : is_ok r \/ Bad -> forall x, r = Raise x -> Bad.
Proof. intros [[a ->]|H]; [done|by intros]. Qed.

Section rules.
Context (world : World) (Bad Odd : Prop) `{!Behaves world Bad} (HOdd : Odd -> Bad).
Abbreviation X := (fun _ : DelegationWorkflowState => Bad).
Abbreviation St := (DelegationWorkflowState * list Read)%type.
Implicit Types (w : DelegationWorkflowState) (l : list Read).

(** ** Rules *)

Lemma wp_require {A} (x : option A) a (Q : A -> St -> Prop) s : x = Some a -> Q a s -> wp (require x) Q X s.
Proof. by intros ->. Qed.
Lemma wp_update f (Q : unit -> St -> Prop) w l : Q () (f w, l) -> wp (wf_update f) Q X (w, l).
Proof. done. Qed.
Lemma wp_advance t (Q : unit -> St -> Prop) w l :
  declared (wf_state w) t = true -> Q () (w <| wf_state := t |>, l) -> wp (_advance t) Q X (w, l).
Proof. intros Hd HQ. unfold _advance. apply wp_bind, wp_get. cbn [fst]. by rewrite Hd. Qed.
Lemma wp_time (Q : Z -> St -> Prop) w l : (forall t l', Q t (w, l')) -> wp (read_time_ns world) Q X (w, l).
Proof. intros H. by apply wp_call. Qed.
Lemma wp_now (Q : Z -> St -> Prop) w l : (forall t l', Q t (w, l')) -> wp (read_now world) Q X (w, l).
Proof. intros H. by apply wp_call. Qed.
Lemma wp_elapsed (Q : Z -> St -> Prop) w l : (forall t l', Q t (w, l')) -> wp (elapsed_ms world) Q X (w, l).
Proof. intros H. apply wp_bind, wp_time. intros t l'. by apply wp_bind, wp_get, wp_ret. Qed.
Lemma wp_tenant (Q : option string -> St -> Prop) w l :
  (forall t l', Q t (w, l')) -> wp (_resolve_tenant_id world) Q X (w, l).
Proof.
  intros H. apply wp_bind, wp_get. cbn [fst]. case_match; [by apply wp_ret|].
  case_match; [by apply wp_ret|]. apply wp_call; [|done]. intros a [= <-]. apply H.
Qed.
Lemma wp_inference_intent d r prompt (Q : ModelInferenceIntent -> St -> Prop) w l :
  (forall i l', ii_correlation_id i = wf_correlation_id w -> Q i (w, l')) ->
  wp (inference_intent world d r prompt) Q X (w, l).
Proof.
  intros H. apply wp_bind, wp_lift; [|by apply or_bad, bh_protocol]. intros config _.
  destruct (apply_inference_protocol _ _ _ _ _ _) as [[sp p] o]. apply wp_bind, wp_get. apply wp_bind, wp_tenant.
  intros t l'. by apply wp_ret, H.
Qed.

Lemma wp_record_response r (Q : unit -> St -> Prop) w l :
  (forall w', wf_inference_intent_in_flight w' = false -> wf_inference_content w' = Some (ir_content r) ->
     wf_inference_model_used w' = Some (ir_model_used r) ->
     wf_inference_prompt_tokens w' = ir_prompt_tokens r -> wf_inference_completion_tokens w' = ir_completion_tokens r ->
     w' = w <| wf_inference_intent_in_flight := false |> <| wf_inference_content := Some (ir_content r) |>
            <| wf_inference_model_used := Some (ir_model_used r) |> <| wf_inference_latency_ms := ir_latency_ms r |>
            <| wf_inference_prompt_tokens := ir_prompt_tokens r |> <| wf_inference_completion_tokens := ir_completion_tokens r |>
            <| wf_inference_total_tokens := ir_prompt_tokens r + ir_completion_tokens r |>
            <| wf_inference_llm_call_id := ir_llm_call_id r |> ->
     Q () (w', l)) ->
  wp (_record_inference_response r) Q X (w, l).
Proof. intros H. by apply H. Qed.

(** Recording an attempt appends it, priced, to the history. *)
Definition priced (a : ModelDelegationEscalationAttempt) (p c : Z) (cost : float) : ModelDelegationEscalationAttempt :=
  a <| ea_prompt_tokens := p |> <| ea_completion_tokens := c |> <| ea_cost_usd := cost |>.
Lemma wp_record_attempt a p c (Q : float -> St -> Prop) w l : tokens_ok p c \/ Odd ->
  (forall m, _measure_terminal_cost world (ea_tier_name a) p c None = Ok m ->
    Q (ac_cash_cost_usd m)
      (w <| wf_escalation_history := wf_escalation_history w ++ [priced a p c (ac_cash_cost_usd m)] |>, l)) ->
  wp (_record_escalation_attempt world a p c) Q X (w, l).
Proof.
  intros Ht H. apply wp_bind, wp_lift.
  - intros m Hm. apply wp_bind, wp_update, wp_ret. by apply H.
  - intros x Hx. destruct Ht as [Ht|]; [|by apply HOdd]. by eapply or_bad, Hx; apply bh_price.
Qed.
Lemma wp_event fc reason mid (Q : ModelLlmDelegationEscalationTriggeredEvent -> St -> Prop) w l r :
  wf_request w = Some r ->
  (forall e l', ee_correlation_id e = wf_correlation_id w -> ee_attempt_number e = wf_escalation_count w + 1 -> Q e (w, l')) ->
  wp (_build_escalation_event world fc reason mid) Q X (w, l).
Proof.
  intros Hr H. apply wp_bind, wp_get. cbn [fst]. apply wp_bind. eapply wp_require; [exact Hr|].
  apply wp_bind, wp_now. intros t l'. by apply wp_ret, H.
Qed.

(** Banking an attempt's spend, and clearing the attempt for the next one. *)
Definition banked (cost : float) (p c : Z) (w : DelegationWorkflowState) : DelegationWorkflowState := w
  <| wf_cumulative_attempt_cost_usd := (wf_cumulative_attempt_cost_usd w + cost)%float |>
  <| wf_cumulative_attempt_prompt_tokens := wf_cumulative_attempt_prompt_tokens w + p |>
  <| wf_cumulative_attempt_completion_tokens := wf_cumulative_attempt_completion_tokens w + c |>.
Definition rerouted (w : DelegationWorkflowState) : DelegationWorkflowState := w
  <| wf_inference_content := None |>
  <| wf_inference_model_used := None |>
  <| wf_inference_intent_in_flight := false |>
  <| wf_routing_decision := None |>
  <| wf_state := WfState.ROUTED |>.

Lemma wp_escalate_to next cost p c event (Q : list DelegationOutput -> St -> Prop) w l r :
  wf_request w = Some r -> declared (wf_state w) WfState.ESCALATING = true ->
  Q [mk_routing_intent r (Some next) []; OutEscalation event]
    (rerouted (banked cost p c (w <| wf_escalation_count := wf_escalation_count w + 1 |>)), l) ->
  wp (escalate_to next cost p c event) Q X (w, l).
Proof.
  intros Hr Hd HQ. apply wp_bind, wp_update, wp_bind, wp_advance; [done|]. apply wp_bind, wp_update.
  apply wp_bind, wp_update, wp_bind, wp_advance; [done|]. apply wp_bind, wp_get, wp_bind.
  eapply wp_require; [exact Hr|]. by apply wp_ret.
Qed.

(** The tier bookkeeping of the two same-tier retries. *)
Definition sibling_tier (tier : string) (w : DelegationWorkflowState) : DelegationWorkflowState :=
  if bool_decide (wf_same_tier_failed_backend_tier w = Some tier) then w
  else w <| wf_same_tier_failed_backend_tier := Some tier |> <| wf_same_tier_failed_backend_refs := [] |>.
Definition sibling_failed (tier ref : string) (w : DelegationWorkflowState) : DelegationWorkflowState :=
  let w := sibling_tier tier w in
  if str_in ref (wf_same_tier_failed_backend_refs w) then w
  else w <| wf_same_tier_failed_backend_refs := wf_same_tier_failed_backend_refs w ++ [ref] |>.

Lemma wp_maybe_sibling ref cost p c (Q : option (list DelegationOutput) -> St -> Prop) w l :
  wf_state w = WfState.ROUTED ->
  Q None (w, l) ->
  (forall tier r, wf_current_tier_name w = Some tier -> wf_request w = Some r -> truthy ref = true ->
     Q None (sibling_failed tier ref w, l) /\
     forall sibling excluded, sibling_backend_available_in_tier (w_routing world) tier (rq_task_type r) excluded = Ok (Some sibling) ->
       excluded = wf_same_tier_failed_backend_refs (sibling_failed tier ref w) ->
       Q (Some [mk_routing_intent r (Some tier) (if w_routing_intent_has_exclusions world then sorted_set excluded else [])])
         (rerouted (banked cost p c (sibling_failed tier ref w)), l)) ->
  wp (_maybe_retry_sibling_backend world ref cost p c) Q X (w, l).
Proof.
  intros Hs H0 H. apply wp_bind, wp_get. cbn [fst].
  destruct (wf_current_tier_name w) as [tier|] eqn:Et; [|by apply wp_ret].
  destruct (wf_request w) as [r|] eqn:Er; [|by apply wp_ret].
  destruct (truthy ref) eqn:Ef; [|by apply wp_ret]. cbn [negb].
  destruct (H tier r) as [Hn Hy]; [done..|]. clear H.
  assert (forall Q' : unit -> St -> Prop, Q' () (sibling_tier tier w, l) ->
    wp (when (negb (bool_decide (wf_same_tier_failed_backend_tier w = Some tier)))
      (wf_update (fun w => w <| wf_same_tier_failed_backend_tier := Some tier |>
                             <| wf_same_tier_failed_backend_refs := [] |>))) Q' X (w, l)) as Hw.
  { intros Q' HQ. unfold sibling_tier in HQ. apply wp_when; intros Hb; by case_bool_decide. }
  apply wp_bind, Hw, wp_bind, wp_get. cbn [fst].
  assert (forall Q' : unit -> St -> Prop, Q' () (sibling_failed tier ref w, l) ->
    wp (when (negb (str_in ref (wf_same_tier_failed_backend_refs (sibling_tier tier w))))
      (wf_update (fun w => w <| wf_same_tier_failed_backend_refs := wf_same_tier_failed_backend_refs w ++ [ref] |>)))
      Q' X (sibling_tier tier w, l)) as Hw'.
  { intros Q' HQ. unfold sibling_failed in HQ. apply wp_when; intros Hb; by destruct (str_in _ _). }
  apply wp_bind, Hw', wp_bind, wp_get, wp_bind, wp_lift; [|by apply or_bad, bh_sibling].
  intros [sibling|] Hsib; [|by apply wp_ret].
  apply wp_bind, wp_update, wp_bind, wp_update, wp_bind, wp_advance.
  - cbn. unfold sibling_failed, sibling_tier. by repeat case_match; cbn; rewrite Hs.
  - apply wp_ret. by eapply Hy.
Qed.

Definition local_retry (tier : string) (w : DelegationWorkflowState) : DelegationWorkflowState :=
  if bool_decide (wf_local_retry_tier w = Some tier) then w
  else w <| wf_local_retry_tier := Some tier |> <| wf_local_retry_count := 0 |>.

Lemma wp_maybe_local cost (Q : option (list DelegationOutput) -> St -> Prop) w l r :
  wf_state w = WfState.GATE_EVALUATED -> wf_request w = Some r ->
  Q None (w, l) ->
  (forall tier, wf_current_tier_name w = Some tier -> is_free_tier (w_routing world) tier = Ok true ->
     Q None (local_retry tier w, l) /\
     forall budget, tier_max_retries (w_routing world) tier = Ok budget -> wf_local_retry_count (local_retry tier w) < budget ->
       Q (Some [mk_routing_intent r (Some tier) []])
         (rerouted (banked cost (wf_inference_prompt_tokens w) (wf_inference_completion_tokens w)
            (local_retry tier w <| wf_local_retry_count := wf_local_retry_count (local_retry tier w) + 1 |>)), l)) ->
  wp (_maybe_retry_local world cost) Q X (w, l).
Proof.
  intros Hs Hr H0 H. apply wp_bind, wp_get. cbn [fst].
  destruct (wf_current_tier_name w) as [tier|] eqn:Et; [|by apply wp_ret].
  apply wp_bind, wp_lift; [|by apply or_bad, bh_free]. intros free Hf.
  destruct free; [|by apply wp_ret]. cbn [negb]. destruct (H tier) as [Hn Hy]; [done..|]. clear H.
  assert (forall Q' : unit -> St -> Prop, Q' () (local_retry tier w, l) ->
    wp (when (negb (bool_decide (wf_local_retry_tier w = Some tier)))
      (wf_update (fun w => w <| wf_local_retry_tier := Some tier |> <| wf_local_retry_count := 0 |>))) Q' X (w, l)) as Hw.
  { intros Q' HQ. unfold local_retry in HQ. apply wp_when; intros Hb; by case_bool_decide. }
  apply wp_bind, Hw, wp_bind, wp_get, wp_bind, wp_lift; [|by apply or_bad, bh_retries]. intros budget Hb. cbn [fst].
  destruct (budget <=? _) eqn:Ele; [by apply wp_ret|]. apply Z.leb_gt in Ele.
  assert (wf_state (local_retry tier w) = WfState.GATE_EVALUATED /\ wf_request (local_retry tier w) = Some r
    /\ wf_inference_prompt_tokens (local_retry tier w) = wf_inference_prompt_tokens w
    /\ wf_inference_completion_tokens (local_retry tier w) = wf_inference_completion_tokens w) as (Hs' & Hr' & Hp & Hc).
  { unfold local_retry. by case_bool_decide. }
  apply wp_bind, wp_update, wp_bind, wp_update, wp_bind, wp_update, wp_bind, wp_advance; [by cbn; rewrite Hs'|].
  apply wp_bind. eapply wp_require; [exact Hr'|]. apply wp_ret. rewrite Hp, Hc. by apply (Hy budget).
Qed.

(** ** The terminal *)

Lemma measure_no_saving tier p c m : _measure_terminal_cost world tier p c None = Ok m -> ac_cost_savings_usd m = fzero.
Proof.
  unfold _measure_terminal_cost, recompute_actual_cost_and_savings. intros H.
  destruct (compute_tier_cost_usd _ _ _ _); [|done]. by injection H as <-.
Qed.
Lemma measure_tier tier p c cf m : _measure_terminal_cost world tier p c cf = Ok m -> ac_cost_tier_name m = tier.
Proof.
  unfold _measure_terminal_cost, recompute_actual_cost_and_savings. intros H.
  destruct (compute_tier_cost_usd _ _ _ _); [|done]. by injection H as <-.
Qed.

(** What a hoisted tier is: priced above zero, from an attempt that served tokens. *)
Definition hoisted_from (h : _HoistedTierCost) (history : list ModelDelegationEscalationAttempt) : Prop :=
  ac_cost_savings_usd (ho_measurement h) = fzero /\ fgt (ac_cash_cost_usd (ho_measurement h)) fzero = true
  /\ exists a, a ∈ history /\ ho_prompt_tokens h = ea_prompt_tokens a /\ ho_completion_tokens h = ea_completion_tokens a
    /\ (0 < ea_prompt_tokens a \/ 0 < ea_completion_tokens a).
Definition hoist_post (history : list ModelDelegationEscalationAttempt) (r : result (option _HoistedTierCost)) : Prop :=
  match r with
  | Ok None => True
  | Ok (Some h) => hoisted_from h history
  | Raise _ => Bad
  end.

Lemma hoist_from_sound history : attempts_ok history \/ Odd -> hoist_post history (hoist_from world history).
Proof using Behaves0 HOdd.
  induction history as [|a history IH]; intros Hl; [done|].
  assert (hoist_post (a :: history) (hoist_from world history)) as IH'.
  { assert (attempts_ok history \/ Odd) as Hl' by (destruct Hl as [[_ ?]%Forall_cons_1|]; auto).
    specialize (IH Hl'). destruct (hoist_from world history) as [[h|]|]; [|done..].
    destruct IH as (? & ? & b & Hb & H). do 2 (split; [done|]). exists b. split; [by constructor|done]. }
  simpl. destruct (negb _); [exact IH'|]. destruct (_ && _) eqn:Ez; [exact IH'|].
  destruct (_measure_terminal_cost _ _ _ _ _) as [m|x] eqn:Em; simpl.
  - destruct (fgt _ _) eqn:Ef; [|exact IH']. split; [by eapply measure_no_saving|]. split; [done|].
    exists a. split; [constructor|]. split; [done|]. split; [done|].
    apply andb_false_iff in Ez as [Ez|Ez]; apply Z.leb_gt in Ez; auto.
  - destruct Hl as [[Ha _]%Forall_cons_1|]; [|by apply HOdd]. by eapply or_bad, Em; apply bh_price.
Qed.

Lemma terminal_account_sound inputs :
  tokens_ok (te_prompt_tokens inputs) (te_completion_tokens inputs) \/ Odd ->
  attempts_ok (te_escalation_history inputs) \/ Odd ->
  match terminal_account world inputs with
  | Ok a => fge (ta_total_savings_usd a) fzero = true
  | Raise _ => Bad
  end.
Proof using Behaves0 HOdd.
  intros Ht Hh. unfold terminal_account.
  destruct (_measure_terminal_cost _ _ _ _ _) as [m|x] eqn:Em; simpl.
  2: { destruct Ht as [Ht|]; [|by apply HOdd]. by eapply or_bad, Em; apply bh_price. }
  destruct (negb _ && _ && _ && _); [|apply fmax_zero].
  assert (attempts_ok (rev (te_escalation_history inputs)) \/ Odd)
    as Hr by (destruct Hh as [Hh|]; [left; by apply Forall_rev|by right]).
  pose proof (hoist_from_sound _ Hr) as H. unfold _hoist_metered_history_tier.
  destruct (hoist_from _ _) as [[h|]|]; simpl; [|apply fmax_zero|done].
  by destruct H as (-> & _).
Qed.

(** The bill after the attempts [prior]: each of them and the one being reported,
    once. *)
Definition billed (prior : list ModelDelegationEscalationAttempt) (r : ModelDelegationResult) : Prop :=
  exists last, dr_escalation_history r = prior ++ last
    /\ (last = [] \/ exists a, last = [a] /\ ea_prompt_tokens a = dr_prompt_tokens r /\ ea_completion_tokens a = dr_completion_tokens r)
    /\ dr_cumulative_input_tokens r = spent ea_prompt_tokens prior + dr_prompt_tokens r
    /\ dr_cumulative_output_tokens r = spent ea_completion_tokens prior + dr_completion_tokens r
    /\ dr_cumulative_attempt_cost r = (dr_final_attempt_cost r + spent_usd prior)%float.
Definition bill_inputs (prior : list ModelDelegationEscalationAttempt) (inputs : TerminalEmissionInputs) : Prop :=
  exists last, te_escalation_history inputs = prior ++ last
    /\ (last = [] \/ exists a, last = [a] /\ ea_prompt_tokens a = te_prompt_tokens inputs
                                      /\ ea_completion_tokens a = te_completion_tokens inputs)
    /\ te_prior_attempt_prompt_tokens inputs = spent ea_prompt_tokens prior
    /\ te_prior_attempt_completion_tokens inputs = spent ea_completion_tokens prior
    /\ te_prior_attempt_cost_usd inputs = spent_usd prior.
(** The attempts a terminal answers for: those recorded before, or none where a
    remote agent reports the end. *)
Definition answers_for (L : Label) (h : list ModelDelegationEscalationAttempt) : list ModelDelegationEscalationAttempt :=
  match L with LLifecycle => [] | _ => h end.
Definition end_ok (h : list ModelDelegationEscalationAttempt) (L : Label) (o : DelegationOutput) : Prop :=
  match o with
  | OutCompleted r | OutFailed r =>
      dr_total_tokens r = dr_prompt_tokens r + dr_completion_tokens r /\ (Odd \/ billed (answers_for L h) r)
  | _ => True
  end.

Lemma spent_nonneg f h : Forall (fun a => 0 <= f a) h -> 0 <= spent f h.
Proof using Type. induction 1; simpl; lia. Qed.
Lemma spent_zero f h : Forall (fun a => 0 <= f a) h -> spent f h <= 0 -> Forall (fun a => f a = 0) h.
Proof using Type.
  induction 1 as [|a h Ha Hh IH]; simpl; intros Hs; [constructor|]. pose proof (spent_nonneg f h Hh).
  constructor; [lia|apply IH; lia].
Qed.
Lemma spent_snoc f h a : spent f (h ++ [a]) = spent f h + f a.
Proof using Type. induction h; simpl; lia. Qed.

(** On inputs that balance the hoist changes nothing: a terminal without tokens
    has a history without tokens. *)
Lemma hoist_is_noop prior inputs m : attempts_ok (te_escalation_history inputs) -> bill_inputs prior inputs ->
  0 <= te_prompt_tokens inputs -> 0 <= te_completion_tokens inputs ->
  te_prompt_tokens inputs + te_prior_attempt_prompt_tokens inputs = 0 ->
  te_completion_tokens inputs + te_prior_attempt_completion_tokens inputs = 0 ->
  _hoist_metered_history_tier world (te_escalation_history inputs) = Ok m -> m = None.
Proof using Behaves0 HOdd.
  intros Hok (last & Hh & Hlast & Hpp & Hpc & _) Hp Hc Zp Zc Hm.
  assert (attempts_ok prior /\ attempts_ok last) as [Hprior Hlok] by (rewrite Hh in Hok; by apply Forall_app in Hok).
  pose proof (spent_nonneg ea_prompt_tokens prior ltac:(eapply Forall_impl; [exact Hprior|]; simpl; intros ? H; apply H)).
  pose proof (spent_nonneg ea_completion_tokens prior ltac:(eapply Forall_impl; [exact Hprior|]; simpl; intros ? H'; apply H')).
  assert (Forall (fun a => ea_prompt_tokens a = 0 /\ ea_completion_tokens a = 0) (te_escalation_history inputs)) as Hz.
  { rewrite Hh. apply Forall_app. split.
    - apply Forall_and. split; apply spent_zero; try lia; (eapply Forall_impl; [exact Hprior|]); simpl; intros ? H'; apply H'.
    - destruct Hlast as [-> |(a & -> & Ha & Hb)]; repeat constructor; lia. }
  pose proof (hoist_from_sound (rev (te_escalation_history inputs)) (or_introl (Forall_rev Hok))) as Hs.
  unfold _hoist_metered_history_tier in Hm. rewrite Hm in Hs. destruct m as [h|]; [|done].
  destruct Hs as (_ & _ & a & Ha & _ & _ & Hpos). rewrite list_elem_of_In, <- in_rev, <- list_elem_of_In in Ha.
  rewrite Forall_forall in Hz. specialize (Hz a Ha). lia.
Qed.

Lemma emitted_end_ok prior inputs a :
  te_total_tokens inputs = te_prompt_tokens inputs + te_completion_tokens inputs ->
  tokens_ok (te_prompt_tokens inputs) (te_completion_tokens inputs) \/ Odd ->
  attempts_ok (te_escalation_history inputs) \/ Odd ->
  bill_inputs prior inputs ->
  terminal_account world inputs = Ok a ->
  let r := delegation_result inputs a in
  dr_total_tokens r = dr_prompt_tokens r + dr_completion_tokens r /\ (Odd \/ billed prior r).
Proof using Behaves0 HOdd.
  intros Htot Ht Hh HL. unfold terminal_account.
  destruct (_measure_terminal_cost _ _ _ _ _) as [m|x] eqn:Em; cbn [mbind result_bind]; [|done].
  set (base := Build_TerminalAccount _ _ _ _ _ _ _ _).
  assert (billed prior (delegation_result inputs base)) as Hbase.
  { destruct HL as (last & H1 & H2 & H3 & H4 & H5). exists last. cbn. rewrite H3, H4, H5. repeat split; try done; lia. }
  destruct (negb _ && _ && _ && _) eqn:Ez.
  2: { intros [= <-]. split; [exact Htot|]. auto. }
  destruct (_hoist_metered_history_tier _ _) as [[h|]|] eqn:Eh; cbn [mbind result_bind]; intros [= <-].
  - cbn. split; [done|]. destruct Ht as [(? & ? & _)|]; [|auto]. destruct Hh as [Hh|]; [|auto].
    breflect. by specialize (hoist_is_noop _ _ _ Hh HL ltac:(done) ltac:(done) ltac:(done) ltac:(done) Eh).
  - split; [exact Htot|]. auto.
Qed.

Lemma wp_emit_terminal L h inputs (Q : list DelegationOutput -> St -> Prop) s :
  tokens_ok (te_prompt_tokens inputs) (te_completion_tokens inputs) \/ Odd ->
  attempts_ok (te_escalation_history inputs) \/ Odd ->
  te_total_tokens inputs = te_prompt_tokens inputs + te_completion_tokens inputs ->
  bill_inputs (answers_for L h) inputs ->
  (forall o, output_cid o = te_correlation_id inputs -> end_ok h L o ->
     kind_of o = (if te_completed inputs then KCompleted else KFailed) -> Q [o] s) ->
  wp (_emit_terminal world inputs) Q X s.
Proof using Behaves0 HOdd.
  intros Ht Hh Htot HL HQ. pose proof (terminal_account_sound _ Ht Hh) as Ha.
  apply wp_bind, wp_lift; [|by intros x Hx; rewrite Hx in Ha].
  intros a Ea. rewrite Ea in Ha. rewrite Ha. pose proof (emitted_end_ok _ inputs a Htot Ht Hh HL Ea).
  apply wp_ret, HQ; by destruct (te_completed inputs).
Qed.

(** ** One lemma per handler *)

Record Post (w : DelegationWorkflowState) (L : Label) (outs : list DelegationOutput) (s : St) : Prop := {
  post_inv : Inv Odd s.1;
  post_cid : wf_correlation_id s.1 = wf_correlation_id w;
  post_outs : Forall (fun o => output_cid o = wf_correlation_id w /\ end_ok (wf_escalation_history w) L o) outs;
  post_step : astep (abs_of w) L (map kind_of outs) (abs_of s.1)
}.

(** Closes the fields of the invariant a step leaves alone. *)
Ltac keep_inv := constructor; cbn; try solve [done | by apply books_of | eauto | left; done | right; done | right; eauto].

Lemma inv_balanced w : Inv Odd w -> wf_state w <> WfState.FAILED -> balanced (wf_escalation_history w) w.
Proof using Type.
  intros [_ _ _ _ _ _ (prior & last & -> & Hb & [-> |[? _]])] ?; [|done]. by rewrite app_nil_r.
Qed.

(** A handler that does nothing. *)
Lemma post_ignore w L l : Inv Odd w -> expects (phase_of w) L = false -> Post w L [] (w, l).
Proof using Type. intros Hi He. constructor; [done|done|constructor|]. by apply a_ignore. Qed.

Lemma replay_request_refines r w l : Inv Odd w ->
  wp (replay_request r) (Post w LRequest) X (w, l).
Proof using Type.
  intros Hi. apply wp_bind, wp_get. cbn [fst]. pose proof Hi as [(r' & Hr & Hc & Hok) Hs Hn Ht Hh Htot Hbal].
  destruct (_ && _ && _) eqn:Eb.
  - breflect. apply wp_bind, wp_update, wp_ret. rewrite Hr. cbn [default].
    pose proof (inv_balanced w Hi ltac:(congruence)).
    constructor; cbn [fst snd]; [keep_inv|done|by repeat constructor|].
    unfold abs_of, phase_of. cbn. rewrite H, H0. constructor.
  - apply wp_ret, post_ignore; [done|]. unfold phase_of, state_ok in *.
    destruct (wf_state w); try done; [|by destruct (wf_routing_decision w)].
    destruct Hs as (Hd & _). rewrite Hd, !bool_decide_true in Eb by done.
    by destruct (wf_routing_intent_replayed w).
Qed.

Lemma invocation_refines c w l : Inv Odd w -> ic_correlation_id c = wf_correlation_id w ->
  wp (handle_invocation_command c) (Post w LInvocation) X (w, l).
Proof using Type.
  intros Hi Hc. apply wp_bind, wp_get. cbn [fst]. pose proof Hi as [Hr Hs Hn Ht Hh Htot Hbal]. case_bool_decide as Es.
  - unfold state_ok in Hs. rewrite Es in Hs. destruct Hs as (Hd & Hcont & Hf & H0).
    apply wp_bind, wp_advance; [by rewrite Es|]. apply wp_bind, wp_update, wp_ret.
    pose proof (inv_balanced w Hi ltac:(congruence)).
    constructor; cbn [fst snd]; [keep_inv; unfold state_ok; cbn; by rewrite Hd|done|by repeat constructor|].
    unfold abs_of, phase_of. cbn. rewrite Es, Hd. constructor.
  - apply wp_ret, post_ignore; [done|]. unfold phase_of. destruct (wf_state w); try done. by destruct (wf_routing_decision w).
Qed.

(** Dispatching the attempt of a decision that has just been adopted. *)
Lemma dispatch_refines w0 d n w l : Inv Odd w0 -> wf_inference_intent_in_flight w0 = false -> wf_inference_content w0 = None ->
  (wf_state w0 = WfState.RECEIVED \/ wf_state w0 = WfState.ROUTED /\ wf_routing_decision w0 = None) ->
  w = w0 <| wf_state := WfState.ROUTED |> <| wf_routing_decision := Some d |>
         <| wf_current_tier_name := tier_of_decision d |> <| wf_compliance_attempts := n |> ->
  wp (dispatch_inference world d) (Post w0 LDecision) X (w, l).
Proof using Behaves0 HOdd.
  intros Hi Hf Hcont Hst ->. pose proof Hi as [(r & Hr & Hc & Hok) Hs Hn Ht Hh Htot Hbal].
  pose proof (inv_balanced w0 Hi ltac:(naive_solver congruence)). apply wp_bind, wp_get. cbn. rewrite Hf.
  apply wp_bind, wp_update, wp_bind. eapply wp_require; [exact Hr|].
  apply wp_bind, wp_inference_intent. intros i l' Hcid. apply wp_ret.
  constructor; cbn [fst snd]; [keep_inv|done|by repeat constructor|].
  unfold abs_of, phase_of. cbn. destruct Hst as [Hst|[Hst Hd]]; rewrite Hst, ?Hd; apply a_decide; eauto.
Qed.

Lemma decision_refines d w l : Inv Odd w ->
  wp (handle_routing_decision world d) (Post w LDecision) X (w, l).
Proof using Behaves0 HOdd.
  intros Hi. apply wp_bind, wp_get. cbn [fst]. pose proof Hi as [Hr Hs Hn Ht Hh Htot Hbal]. unfold state_ok in Hs.
  assert (expects (phase_of w) LDecision = false -> wp (mret []) (Post w LDecision) X (w, l)) as Hign.
  { intros He. by apply wp_ret, post_ignore. }
  destruct (wf_state w) eqn:Es; try (apply Hign; unfold phase_of; by rewrite Es).
  - destruct Hs as (Hd & Hcont & Hf & H0).
    apply wp_bind, wp_advance; [by rewrite Es|]. apply wp_bind, wp_update. eapply dispatch_refines; eauto.
  - destruct Hs as (Hcont & Hf). destruct (wf_routing_decision w) as [d'|] eqn:Ed; cbn in Hf.
    + rewrite Hcont. apply wp_bind, wp_get. cbn [fst]. rewrite Hf. apply Hign. unfold phase_of. by rewrite Es, Ed.
    + apply wp_bind, wp_update. eapply (dispatch_refines w d (wf_compliance_attempts w + 1)); [done..|by right|].
      destruct w; cbn in *. by subst.
Qed.

(** What a decision of [_decide_escalation] says. *)
Lemma decide_verdict w n ex retryable reason t v : _decide_escalation world w n ex retryable reason t = Ok v ->
  (ds_can_escalate v = true /\ is_Some (ds_next_tier_name v) /\ retryable = true /\ wf_escalation_count w < n)
  \/ (ds_can_escalate v = false /\ is_Some (ds_terminal_failure_reason v)).
Proof using Type.
  unfold _decide_escalation.
  lazymatch goal with |- context [mbind _ ?m] => destruct m as [[next why]|]; [|done] end.
  cbn [mbind result_bind]. unfold validate_decision_request. destruct (_ || _); [done|]. cbn [mbind result_bind].
  intros [H|H]%decide_escalation_spec; cbn in H; [left|right]; naive_solver.
Qed.

Lemma abs_rerouted w : abs_of (rerouted w) = {| a_phase := Routing; a_escalations := wf_escalation_count w |}.
Proof using Type. done. Qed.

(** One more attempt in the history. *)
Lemma attempts_ok_snoc h a p c cost : attempts_ok h \/ Odd -> tokens_ok p c \/ Odd -> attempts_ok (h ++ [priced a p c cost]) \/ Odd.
Proof using Type. intros [Hh|] [Ht|]; auto. left. apply Forall_app. split; [done|]. by constructor. Qed.

Lemma sibling_failed_same {T} (f : DelegationWorkflowState -> T) tier ref w :
  (forall w a, f (w <| wf_same_tier_failed_backend_tier := a |>) = f w) ->
  (forall w b, f (w <| wf_same_tier_failed_backend_refs := b |>) = f w) -> f (sibling_failed tier ref w) = f w.
Proof using Type.
  intros H1 H2. unfold sibling_failed, sibling_tier. repeat case_match; rewrite ?H2, ?H1; done.
Qed.
Lemma local_retry_same {T} (f : DelegationWorkflowState -> T) tier w :
  (forall w a b, f (w <| wf_local_retry_tier := a |> <| wf_local_retry_count := b |>) = f w) -> f (local_retry tier w) = f w.
Proof using Type. intros H. unfold local_retry. case_match; by rewrite ?H. Qed.

(** What recording an attempt and the tier bookkeeping leave alone, and the one
    attempt, not yet banked, they add to the history. *)
Record Recorded (w0 : DelegationWorkflowState) (p c : Z) (cost : float) (w : DelegationWorkflowState) : Prop := {
  rec_cid : wf_correlation_id w = wf_correlation_id w0;
  rec_request : wf_request w = wf_request w0;
  rec_count : wf_escalation_count w = wf_escalation_count w0;
  rec_ok : attempts_ok (wf_escalation_history w) \/ Odd;
  rec_prompt : wf_inference_prompt_tokens w = wf_inference_prompt_tokens w0;
  rec_completion : wf_inference_completion_tokens w = wf_inference_completion_tokens w0;
  rec_total : wf_inference_total_tokens w = wf_inference_total_tokens w0;
  rec_history : exists a, wf_escalation_history w = wf_escalation_history w0 ++ [a]
    /\ ea_prompt_tokens a = p /\ ea_completion_tokens a = c /\ ea_cost_usd a = cost;
  rec_bank : balanced (wf_escalation_history w0) w
}.

Lemma record_recorded w0 w p c cost a : Inv Odd w0 -> wf_state w0 <> WfState.FAILED -> tokens_ok p c \/ Odd ->
  wf_correlation_id w = wf_correlation_id w0 -> wf_request w = wf_request w0 ->
  wf_escalation_count w = wf_escalation_count w0 ->
  wf_inference_prompt_tokens w = wf_inference_prompt_tokens w0 ->
  wf_inference_completion_tokens w = wf_inference_completion_tokens w0 ->
  wf_inference_total_tokens w = wf_inference_total_tokens w0 ->
  wf_escalation_history w = wf_escalation_history w0 -> balanced (wf_escalation_history w0) w ->
  Recorded w0 p c cost (w <| wf_escalation_history := wf_escalation_history w ++ [priced a p c cost] |>).
Proof using Type.
  intros Hi Hs Ht ? ? ? ? ? ? Hh Hb. constructor; cbn; try done.
  - apply attempts_ok_snoc; [|done]. rewrite Hh. apply Hi.
  - rewrite Hh. by eexists.
Qed.
Lemma recorded_balances w0 p c cost w : Recorded w0 p c cost w -> balanced (wf_escalation_history w) (banked cost p c w).
Proof using Type.
  intros [_ _ _ _ _ _ _ (a & -> & <- & <- & <-) (Hp & Hc & Hu)]. unfold balanced, spent_usd. cbn.
  rewrite Hp, Hc, Hu, !spent_snoc, fold_left_app. done.
Qed.
Lemma sibling_failed_recorded w0 p c cost tier ref w : Recorded w0 p c cost w -> Recorded w0 p c cost (sibling_failed tier ref w).
Proof using Type.
  intros []. constructor; unfold balanced in *; rewrite !sibling_failed_same by done; done.
Qed.
Lemma local_retry_recorded w0 p c cost tier w : Recorded w0 p c cost w -> Recorded w0 p c cost (local_retry tier w).
Proof using Type. intros []. constructor; unfold balanced in *; rewrite !local_retry_same by done; done. Qed.

(** Any way of leaving a recorded attempt for a new routing intent. *)
Lemma reroute_refines w0 w L cost p c n outs l :
  Inv Odd w0 -> (phase_of w0, L) = (Inferring, LResponse) \/ (phase_of w0, L) = (Judging, LGate) ->
  Recorded w0 p c cost (w <| wf_escalation_count := wf_escalation_count w0 |>) -> wf_escalation_count w = n ->
  Forall (fun o => output_cid o = wf_correlation_id w0) outs ->
  (n = wf_escalation_count w0 /\ map kind_of outs = [KRouting]
   \/ n = wf_escalation_count w0 + 1 /\ wf_escalation_count w0 < max_escalations /\ map kind_of outs = [KRouting; KEscalation]) ->
  Post w0 L outs (rerouted (banked cost p c w), l).
Proof using Behaves0 HOdd.
  intros [(r & Hr & Hc & Hok) Hs Hn Ht Hh Htot Hbal] Hp HR Hcount Houts Hk.
  pose proof (recorded_balances _ _ _ _ _ HR) as Hb. destruct HR as [Rc Rr _ Ro Rp Rcm Rt _ _]. cbn in *.
  constructor; cbn [fst].
  - keep_inv; [rewrite Rr, Rc; eauto|rewrite Hcount; lia|by rewrite Rp, Rcm|congruence].
  - done.
  - assert (forall o, o ∈ outs -> end_ok (wf_escalation_history w0) L o) as He.
    { intros o Ho. assert (kind_of o ∈ map kind_of outs) as Hko by (by apply list_elem_of_fmap_2).
      destruct o; try done; exfalso; destruct Hk as [[_ Hk]|(_ & _ & Hk)]; rewrite Hk in Hko; set_solver. }
    rewrite Forall_forall in *. eauto.
  - unfold abs_of at 1. rewrite abs_rerouted. cbn. rewrite Hcount.
    destruct Hk as [[-> ->]|(-> & Hlt & ->)]; [by apply a_retry|by apply a_escalate].
Qed.

Lemma mk_routing_cid r min ex cid : rq_correlation_id r = cid -> output_cid (mk_routing_intent r min ex) = cid.
Proof using Type. by intros <-. Qed.

Lemma escalate_or_fail_refines resp r d model elapsed cost w0 w l :
  Inv Odd w0 -> phase_of w0 = Inferring -> wf_state w = WfState.ROUTED ->
  wf_request w0 = Some r -> ir_correlation_id resp = wf_correlation_id w0 ->
  tokens_ok (ir_prompt_tokens resp) (ir_completion_tokens resp) \/ Odd ->
  Recorded w0 (ir_prompt_tokens resp) (ir_completion_tokens resp) cost w ->
  wp (escalate_or_fail world resp r d model elapsed cost) (Post w0 LResponse) X (w, l).
Proof using Behaves0 HOdd.
  intros Hi Hp Fs Hr Hcid Htok R. pose proof Hi as [(r' & Hr' & Hrc & Hrok) Hs Hn Ht Hh Htot Hbal].
  pose proof R as [Fc Fr Fn Fh _ _ _ (a & Ea & Eap & Eac & _) (Bp & Bc & Bu)].
  rewrite Hr in Hr'. injection Hr' as <-. apply wp_bind, wp_get. apply wp_bind, wp_lift.
  2: { intros x. apply or_bad, bh_decide; [cbn; rewrite Fn; lia|done]. }
  intros v Hv. cbn [fst] in *. apply decide_verdict in Hv as [(Hcan & [next Hnext] & _ & Hlt)|(Hcan & [why Hwhy])]; rewrite Hcan.
  - apply wp_bind. eapply wp_require; [exact Hnext|]. apply wp_bind.
    eapply wp_event; [by rewrite Fr|]. intros e l' He _. eapply wp_escalate_to; [by rewrite Fr|by rewrite Fs|].
    eapply (reroute_refines w0); [done|left; by rewrite Hp|by destruct R|done| |].
    + repeat constructor; cbn; congruence.
    + right. cbn. unfold _MAX_INFERENCE_ESCALATION_ATTEMPTS, max_escalations in *. rewrite Fn in *. split; [done|]. split; [lia|done].
  - apply wp_bind, wp_record_response. intros w' _ _ _ _ _ ->. apply wp_bind.
    apply wp_bind, wp_tenant. intros t l'. apply wp_bind, wp_get, wp_ret. apply wp_bind, wp_advance; [by cbn; rewrite Fs|].
    apply (wp_emit_terminal LResponse (wf_escalation_history w0)); cbn; [done|done|done| |].
    + exists [a]. cbn. eauto 10.
    + intros o Ho He Hk. constructor; cbn [fst snd].
      * keep_inv; [rewrite Fr, Fc; eauto|by rewrite Fn|]. exists (wf_escalation_history w0), [a].
        split; [exact Ea|]. split; [exact (conj Bp (conj Bc Bu))|by right].
      * done.
      * repeat constructor; [by rewrite Ho|done].
      * cbn. rewrite Hk. unfold abs_of. rewrite Hp. cbn. rewrite Fn. apply a_fail. by left.
Qed.

Lemma inference_error_refines resp r d w l :
  Inv Odd w -> wf_state w = WfState.ROUTED -> wf_routing_decision w = Some d -> wf_request w = Some r ->
  ir_correlation_id resp = wf_correlation_id w ->
  tokens_ok (ir_prompt_tokens resp) (ir_completion_tokens resp) \/ Odd ->
  wp (handle_inference_error world resp r d) (Post w LResponse) X (w, l).
Proof using Behaves0 HOdd.
  intros Hi Hs Hd Hr Hcid Htok. assert (phase_of w = Inferring) as Hp by (unfold phase_of; by rewrite Hs, Hd).
  pose proof Hi as [(r' & Hr' & Hrc & Hrok) _ Hn Ht Hh Htot Hbal]. rewrite Hr in Hr'. injection Hr' as <-.
  pose proof (inv_balanced w Hi ltac:(congruence)) as Hb.
  apply wp_bind, wp_elapsed. intros el l1. apply wp_bind, wp_now. intros now l2. apply wp_bind, wp_get. cbn [fst].
  apply wp_bind, wp_record_attempt; [done|]. intros m _.
  pose proof (record_recorded w w _ _ (ac_cash_cost_usd m) (failed_attempt w d (ir_error_message resp)
    (py_or (ir_model_used resp) (rd_selected_model d)) el now) Hi ltac:(congruence) Htok eq_refl eq_refl eq_refl eq_refl eq_refl
    eq_refl eq_refl Hb) as R.
  set (w1 := w <| wf_escalation_history := _ |>) in *.
  assert (wf_state w1 = WfState.ROUTED /\ wf_request w1 = Some r) as [Hs1 Hr1] by done. clearbody w1.
  pose proof (fun tier ref => sibling_failed_recorded _ _ _ _ tier ref _ R) as R2.
  apply wp_bind. destruct (_should_escalate_inference_error _); [|apply wp_ret; by eapply escalate_or_fail_refines].
  apply wp_maybe_sibling; [done|by eapply escalate_or_fail_refines|].
  intros tier r' _ Hr' _. rewrite Hr1 in Hr'. injection Hr' as <-. specialize (R2 tier (rd_selected_backend_ref d)).
  split.
  - eapply escalate_or_fail_refines; [done|done|by rewrite sibling_failed_same|done..].
  - intros sib ex _ _. apply wp_ret. eapply (reroute_refines w); [done|left; by rewrite Hp|by destruct R2|done|by repeat constructor|].
    left. split; [apply R2|done].
Qed.

Lemma compliance_refines resp r d w l :
  Inv Odd w -> wf_state w = WfState.ROUTED -> wf_routing_decision w = Some d -> wf_request w = Some r ->
  rq_output_schema_key r <> None ->
  ir_correlation_id resp = wf_correlation_id w ->
  tokens_ok (ir_prompt_tokens resp) (ir_completion_tokens resp) \/ Odd ->
  wp (_evaluate_compliance world resp) (Post w LResponse) X (w, l).
Proof using Behaves0 HOdd.
  intros Hi Hs Hd Hr Hkey Hcid Htok. assert (phase_of w = Inferring) as Hp by (unfold phase_of; by rewrite Hs, Hd).
  pose proof Hi as [(r' & Hr' & Hrc & Hrok) Hst Hn Ht Hh Htot Hbal]. rewrite Hr in Hr'. injection Hr' as <-.
  pose proof (inv_balanced w Hi ltac:(congruence)) as Hb.
  unfold state_ok in Hst. rewrite Hs in Hst. destruct Hst as [Hcont _].
  apply wp_bind, wp_get. cbn [fst]. apply wp_bind. eapply wp_require; [exact Hr|].
  pose proof Hrok as Hreq. unfold request_ok in Hrok. destruct (rq_output_schema_key r) as [key|] eqn:Ek; [|done].
  apply wp_bind. eapply wp_require; [done|]. apply wp_bind.
  destruct (rq_compliance_budget r) as [b|] eqn:Eb; [|destruct Hrok; [done|by apply wp_raise, HOdd]].
  eapply wp_require; [done|]. apply wp_bind. eapply wp_require; [exact Hd|]. apply wp_bind, wp_lift.
  2: { intros x Hx. destruct Hrok; [|by apply HOdd]. eapply or_bad, Hx. left. by apply evaluate_ok. }
  intros v _. apply wp_bind, wp_update.
  destruct (_ || _).
  - apply wp_bind, wp_advance; [by cbn; rewrite Hs|]. apply wp_bind, wp_record_response. intros w' _ _ _ _ _ ->. apply wp_ret.
    constructor; cbn [fst snd]; [|done|by repeat constructor|].
    + keep_inv; unfold state_ok; cbn; rewrite Hd; eauto.
    + unfold abs_of. rewrite Hp. apply a_answer.
  - apply wp_bind, wp_advance; [by cbn; rewrite Hs|]. apply wp_bind, wp_update, wp_bind.
    apply wp_inference_intent. intros i l' Hi'. apply wp_ret.
    constructor; cbn [fst snd]; [|done|by repeat constructor|].
    + keep_inv; unfold state_ok; cbn; by rewrite Hd.
    + unfold abs_of at 1. rewrite Hp. unfold abs_of, phase_of. cbn. rewrite Hd. apply a_repair.
Qed.

Lemma response_refines resp w l : Inv Odd w -> ir_correlation_id resp = wf_correlation_id w ->
  tokens_ok (ir_prompt_tokens resp) (ir_completion_tokens resp) \/ Odd ->
  wp (handle_inference_response world resp) (Post w LResponse) X (w, l).
Proof using Behaves0 HOdd.
  intros Hi Hcid Htok. apply wp_bind, wp_get. cbn [fst]. case_bool_decide as Hs; cbn [negb].
  2: { apply wp_ret, post_ignore; [done|]. unfold phase_of. by destruct (wf_state w), (wf_routing_intent_replayed w). }
  pose proof Hi as [(r & Hr & Hrc & Hrok) Hst Hn Ht Hh Htot Hbal]. pose proof (inv_balanced w Hi ltac:(congruence)) as Hb.
  apply wp_bind. eapply wp_require; [exact Hr|].
  destruct (wf_routing_decision w) as [d|] eqn:Hd.
  2: { apply wp_ret, post_ignore; [done|]. unfold phase_of. by rewrite Hs, Hd. }
  destruct (truthy (ir_error_message resp)); [by eapply inference_error_refines|].
  destruct (rq_output_schema_key r) as [key|] eqn:Ek; [by eapply compliance_refines; rewrite ?Ek|].
  apply wp_bind, wp_advance; [by cbn; rewrite Hs|]. apply wp_bind, wp_record_response. intros w' _ _ _ _ _ ->.
  apply wp_bind, wp_update, wp_ret. constructor; cbn [fst snd]; [|done|by repeat constructor|].
  - keep_inv; unfold state_ok; cbn; rewrite Hd; eauto.
  - unfold abs_of, phase_of. cbn. rewrite Hs, Hd. apply a_answer.
Qed.

(** ** The gate *)

(** A workflow in [GATE_EVALUATED], reached from [w0], with the attempt the gate
    judged still in place. *)
Record Gated (w0 : DelegationWorkflowState) (r : ModelDelegationRequest) (d : ModelRoutingDecision) (w : DelegationWorkflowState)
    : Prop := {
  gd_cid : wf_correlation_id w = wf_correlation_id w0;
  gd_request : wf_request w = Some r;
  gd_decision : wf_routing_decision w = Some d;
  gd_model : is_Some (wf_inference_model_used w);
  gd_state : wf_state w = WfState.GATE_EVALUATED;
  gd_count : wf_escalation_count w = wf_escalation_count w0;
  gd_prompt : wf_inference_prompt_tokens w = wf_inference_prompt_tokens w0;
  gd_completion : wf_inference_completion_tokens w = wf_inference_completion_tokens w0;
  gd_total : wf_inference_total_tokens w = wf_inference_total_tokens w0;
  (** the attempt is in the history, or not yet *)
  gd_ok : attempts_ok (wf_escalation_history w) \/ Odd;
  gd_history : exists last, wf_escalation_history w = wf_escalation_history w0 ++ last
    /\ (last = [] \/ exists a, last = [a] /\ ea_prompt_tokens a = wf_inference_prompt_tokens w
                                       /\ ea_completion_tokens a = wf_inference_completion_tokens w);
  gd_bank : balanced (wf_escalation_history w0) w
}.

Lemma gate_terminal_refines gate el tok att (completed fallback : bool) reason why bar w0 w l r d :
  Inv Odd w0 -> phase_of w0 = Judging -> wf_request w0 = Some r -> gr_correlation_id gate = wf_correlation_id w0 -> Gated w0 r d w ->
  (completed = true -> wf_escalation_history w = wf_escalation_history w0) ->
  wp (gate_terminal world gate el tok att completed fallback reason why bar) (Post w0 LGate) X (w, l).
Proof using Behaves0 HOdd.
  intros Hi Hp Hr0 Hcid [Gc Gr Gd [model Gm] Gs Gn Gp Gct Gt Gok (last & Gh & Glast) Gb] Hcomp.
  pose proof Hi as [Hreq _ Hn Ht Hh Htot Hbal].
  apply wp_bind. apply wp_bind, wp_get. cbn [fst]. apply wp_bind. eapply wp_require; [exact Gr|].
  apply wp_bind. eapply wp_require; [exact Gd|]. apply wp_bind. eapply wp_require; [exact Gm|].
  apply wp_bind, wp_tenant. intros t l'. apply wp_ret.
  apply wp_bind, wp_advance; [rewrite Gs; by destruct completed|].
  apply (wp_emit_terminal LGate (wf_escalation_history w0)); cbn; [by rewrite Gp, Gct|done|congruence| |].
  - exists last. cbn. by destruct Gb as (-> & -> & ->).
  - intros o Ho He Hk. constructor; cbn [fst snd].
    + keep_inv; [|by destruct completed|by rewrite Gn|by rewrite Gp, Gct|congruence|].
      * rewrite Gr, Gc. destruct Hreq as (r' & Hr' & H). exists r'. split; [congruence|done].
      * exists (wf_escalation_history w0), last. split; [done|]. split; [done|]. destruct completed; cbn.
        -- left. apply (app_inv_head (wf_escalation_history w0)). by rewrite <- Gh, Hcomp, app_nil_r.
        -- destruct Glast as [|(a & -> & _)]; auto.
    + done.
    + repeat constructor; [by rewrite Ho|done].
    + unfold abs_of. rewrite Hp. unfold phase_of. cbn. rewrite Hk, Gn.
      destruct completed; [apply a_accept|apply a_fail; by right].
Qed.

(** A gated workflow whose attempt is recorded. *)
Definition Rejected (w0 : DelegationWorkflowState) (r : ModelDelegationRequest) (d : ModelRoutingDecision) (cost : float)
    (w : DelegationWorkflowState) : Prop :=
  Gated w0 r d w /\ Recorded w0 (wf_inference_prompt_tokens w) (wf_inference_completion_tokens w) cost w.
Lemma local_retry_rejected w0 r d cost tier w : Rejected w0 r d cost w -> Rejected w0 r d cost (local_retry tier w).
Proof using Type.
  intros [[] HR]. split.
  - constructor; unfold balanced in *; rewrite !local_retry_same by done; done.
  - rewrite (local_retry_same wf_inference_prompt_tokens), (local_retry_same wf_inference_completion_tokens) by done.
    by apply local_retry_recorded.
Qed.

Lemma escalate_or_reject_refines gate bar el tok att cost ex w0 w l r d :
  Inv Odd w0 -> phase_of w0 = Judging -> wf_request w0 = Some r -> gr_correlation_id gate = wf_correlation_id w0 ->
  Rejected w0 r d cost w ->
  wp (escalate_or_reject world gate bar r el tok att cost 2 ex) (Post w0 LGate) X (w, l).
Proof using Behaves0 HOdd.
  intros Hi Hp Hr0 Hcid [G R]. pose proof Hi as [(r' & Hr' & Hrc & Hrok) _ Hn Ht Hh Htot Hbal]. rewrite Hr0 in Hr'. injection Hr' as <-.
  pose proof (gd_cid _ _ _ _ G) as Gc. pose proof (gd_request _ _ _ _ G) as Gr. pose proof (gd_count _ _ _ _ G) as Gn.
  apply wp_bind, wp_get, wp_bind, wp_lift.
  2: { intros x. apply or_bad, bh_decide; [cbn; rewrite Gn; lia|done]. }
  intros v Hv. cbn [fst] in *. apply decide_verdict in Hv as [(Hcan & [next Hnext] & _ & Hlt)|(Hcan & [why Hwhy])]; rewrite Hcan.
  - apply wp_bind. eapply wp_require; [exact Hnext|]. apply wp_bind.
    eapply wp_event; [exact Gr|]. intros e l2 He _. eapply wp_escalate_to; [exact Gr|by rewrite (gd_state _ _ _ _ G)|].
    eapply (reroute_refines w0); [done|right; by rewrite Hp|by destruct R|done| |].
    + repeat constructor; cbn; congruence.
    + right. cbn. unfold max_escalations in *. rewrite Gn in *. split; [done|]. split; [lia|done].
  - by eapply gate_terminal_refines.
Qed.

Lemma reject_refines gate bar el tok att ex w0 w l r d :
  Inv Odd w0 -> phase_of w0 = Judging -> wf_request w0 = Some r -> gr_correlation_id gate = wf_correlation_id w0 -> Gated w0 r d w ->
  wf_escalation_history w = wf_escalation_history w0 ->
  wp (reject_result world gate bar r d el tok att 2 ex) (Post w0 LGate) X (w, l).
Proof using Behaves0 HOdd.
  intros Hi Hp Hr0 Hcid G Hhist. pose proof Hi as [(r' & Hr' & Hrc & Hrok) _ Hn Ht Hh Htot Hbal].
  rewrite Hr0 in Hr'. injection Hr' as <-.
  assert (wf_state w0 <> WfState.FAILED) as Hnf by (unfold phase_of in Hp; intros E; by rewrite E in Hp).
  apply wp_bind, wp_now. intros now l1. apply wp_bind, wp_get. cbn [fst].
  apply wp_bind, wp_record_attempt; [by rewrite (gd_prompt _ _ _ _ G), (gd_completion _ _ _ _ G)|]. intros m _.
  set (att' := rejected_attempt _ _ _ _ _ _).
  assert (Rejected w0 r d (ac_cash_cost_usd m) (w <| wf_escalation_history := wf_escalation_history w ++
    [priced att' (wf_inference_prompt_tokens w) (wf_inference_completion_tokens w) (ac_cash_cost_usd m)] |>)) as R.
  { pose proof G as [Gc Gr Gd Gm Gs Gn Gp Gct Gt Gok Gh Gb]. split.
    - constructor; cbn; try done.
      + apply attempts_ok_snoc; [done|]. by rewrite Gp, Gct.
      + rewrite Hhist. eexists. split; [done|]. right. by eexists.
    - apply record_recorded; try done; [by rewrite Gp, Gct|congruence]. }
  set (w1 := w <| wf_escalation_history := _ |>) in *.
  change (wf_inference_prompt_tokens w) with (wf_inference_prompt_tokens w1).
  clearbody w1. clear G Hhist. apply wp_bind. pose proof R as [G1 R1].
  eapply wp_maybe_local; [by destruct G1|by destruct G1|by eapply escalate_or_reject_refines|].
  intros tier _ _. pose proof (local_retry_rejected _ _ _ _ tier _ R) as R2.
  split; [by eapply escalate_or_reject_refines|].
  intros budget _ _. apply wp_ret. destruct R2 as [G2 R2].
  rewrite (local_retry_same wf_inference_prompt_tokens), (local_retry_same wf_inference_completion_tokens) in R2 by done.
  eapply (reroute_refines w0); [done|right; by rewrite Hp|by destruct R2|done| |].
  - by repeat constructor.
  - left. split; [apply R2|done].
Qed.

Lemma gate_refines gate ex w l : Inv Odd w -> gr_correlation_id gate = wf_correlation_id w ->
  wp (handle_gate_result world gate 2 ex) (Post w LGate) X (w, l).
Proof using Behaves0 HOdd.
  intros Hi Hcid. apply wp_bind, wp_get. cbn [fst]. case_bool_decide as Hs; cbn [negb].
  2: { apply wp_ret, post_ignore; [done|]. unfold phase_of, state_ok in *.
       destruct Hi as [_ Hst _ _ _ _ _]. unfold state_ok in Hst.
       destruct (wf_state w), (wf_routing_intent_replayed w); try done; by destruct (wf_routing_decision w). }
  assert (phase_of w = Judging) as Hp by (unfold phase_of; by rewrite Hs).
  pose proof Hi as [(r & Hr & Hrc & Hrok) Hst Hn Ht Hh Htot Hbal]. unfold state_ok in Hst. rewrite Hs in Hst.
  pose proof (inv_balanced w Hi ltac:(congruence)) as Hb.
  destruct Hst as ([d Hd] & [content Hcont] & [model Hm] & Hf).
  apply wp_bind, wp_advance; [by rewrite Hs|]. apply wp_bind, wp_update.
  apply wp_bind. eapply wp_require; [exact Hr|]. apply wp_bind. eapply wp_require; [exact Hd|].
  apply wp_bind. eapply wp_require; [exact Hcont|]. apply wp_bind. eapply wp_require; [exact Hm|].
  apply wp_bind, wp_elapsed. intros el l1.
  set (w1 := w <| wf_state := _ |> <| wf_gate_result := _ |>).
  assert (Gated w r d w1) as G.
  { constructor; cbn; eauto. exists []. rewrite app_nil_r. auto. }
  destruct (resolve_required_bar_authority _ _ _ _) as [bar|x] eqn:Ebar.
  - destruct (quality_accepted bar gate); [by eapply gate_terminal_refines|by eapply reject_refines].
  - rewrite (resolve_bar_raises _ _ _ Ebar). by eapply gate_terminal_refines.
Qed.

(** ** The remote agent *)

Lemma lifecycle_refines e w l : Inv Odd w -> le_correlation_id e = wf_correlation_id w ->
  wp (handle_agent_task_lifecycle world e) (Post w LLifecycle) X (w, l).
Proof using Behaves0 HOdd.
  intros Hi Hcid. apply wp_bind, wp_get. cbn [fst]. pose proof Hi as [Hreq Hst Hn Ht Hh Htot Hbal].
  assert (next_state_from_lifecycle (le_lifecycle_type e) = WfState.EXECUTING \/
    next_state_from_lifecycle (le_lifecycle_type e) = WfState.COMPLETED \/
    next_state_from_lifecycle (le_lifecycle_type e) = WfState.FAILED) as Hnext by (destruct (le_lifecycle_type e); auto).
  case_bool_decide as Hx.
  - apply wp_bind, wp_when; intros Hb; [apply bool_decide_eq_true in Hb|apply bool_decide_eq_false in Hb].
    + apply wp_advance; [by rewrite Hb|]. apply wp_ret. pose proof (inv_balanced w Hi ltac:(congruence)) as Hb'.
      constructor; cbn [fst snd]; [|done|constructor|].
      * keep_inv.
      * unfold abs_of, phase_of. cbn. rewrite Hb. destruct (wf_routing_decision w); apply a_execute; auto.
    + apply wp_ret, post_ignore; [done|]. unfold phase_of. by destruct (wf_state w), (wf_routing_intent_replayed w).
  - case_bool_decide as Hin; cbn [negb].
    2: { apply wp_ret, post_ignore; [done|]. unfold phase_of.
         destruct (wf_state w), (wf_routing_intent_replayed w); try done; exfalso; apply Hin; by repeat constructor. }
    assert (wf_state w = WfState.ROUTED \/ wf_state w = WfState.EXECUTING) as Hw.
    { apply elem_of_cons in Hin as [?|[?|[]%not_elem_of_nil]%elem_of_cons]; auto. }
    destruct Hnext as [?|Hnext]; [done|]. destruct Hreq as (r & Hr & Hrc & Hrok).
    apply wp_bind. rewrite bool_decide_false by (by destruct Hw as [-> | ->], Hnext as [-> | ->]). apply wp_advance.
    { by destruct Hw as [-> | ->], Hnext as [-> | ->]. }
    apply wp_bind. eapply wp_require; [exact Hr|]. apply wp_bind, wp_elapsed. intros el l1.
    apply wp_bind, wp_bind, wp_tenant. intros t l2. apply wp_bind, wp_get, wp_ret.
    assert (balanced (wf_escalation_history w) w) as Hb by (apply inv_balanced; [done|by destruct Hw as [-> | ->]]).
    apply (wp_emit_terminal LLifecycle (wf_escalation_history w)); cbn; [left; vm_compute; done|left; constructor|done|by exists []; cbn; auto 10|]. intros o Ho He Hk.
    assert (phase_of w = Routing \/ phase_of w = Inferring \/ phase_of w = Executing) as Hp.
    { unfold phase_of. destruct Hw as [-> | ->]; [destruct (wf_routing_decision w)|]; auto. }
    constructor; cbn [fst snd]; [|done|repeat constructor; [by rewrite Ho|done]|].
    + keep_inv. by destruct Hnext as [-> | ->].
    + cbn [map]. rewrite Hk. unfold abs_of. destruct Hnext as [Hc|Hc]; rewrite Hc; unfold phase_of at 2; cbn; rewrite ?Hc;
        [by apply a_remote_done|by apply a_remote_failed].
Qed.
End rules.
