(* ===== verification/DelegationSystem.v ===== *)
(** * Runs of the orchestrator

    The workflows driven by a sequence of inputs, in the two ways the code keeps
    them.  Deployed, they are rows: a row is written after its handler returned, so
    a dispatch that raises leaves them as they were ([commit]).  In one process they
    are a dict whose entries the handlers change in place, so what a raising
    dispatch had changed stays ([in_place]).  The two agree on every run in which
    nothing raises.  Each correlation id's share of a run over the rows is an
    execution of the abstract delegation. *)
From S2P Require Import Prelude PyFloat PyJson Fsm LogMonad DelegationModels DelegationPricing DelegationRouting ComplianceLoop DelegationBar DelegationWorkflow DelegationHandlers DelegationSpec DelegationRefine.
Import WfState (EnumDelegationState).

#[local] Open Scope Z_scope.

Definition input_cid (i : DelegationWorkflowInput) : string :=
  match i with
  | InRequest r => rq_correlation_id r
  | InInvocation c => ic_correlation_id c
  | InDecision d => rd_correlation_id d
  | InResponse r => ir_correlation_id r
  | InGate g => gr_correlation_id g
  | InLifecycle e => le_correlation_id e
  | InOther _ => ""
  end.
Definition label_of (i : DelegationWorkflowInput) : option Label :=
  match i with
  | InRequest _ => Some LRequest
  | InInvocation _ => Some LInvocation
  | InDecision _ => Some LDecision
  | InResponse _ => Some LResponse
  | InGate _ => Some LGate
  | InLifecycle _ => Some LLifecycle
  | InOther _ => None
  end.
(** Inputs the declared event models admit. *)
Definition input_ok (i : DelegationWorkflowInput) : Prop :=
  match i with
  | InRequest r => request_ok r
  | InResponse r => tokens_ok (ir_prompt_tokens r) (ir_completion_tokens r)
  | InOther _ => False
  | _ => True
  end.

(** The workflows, and what was read of the outside so far. *)
Definition Sys : Type := Workflows * list Read.
(** A dispatch with the workflows kept in rows, which are flushed only after it
    returned: what it changed before a raise is not kept. *)
#[export] Instance commit (world : World) : Reducer Sys DelegationWorkflowInput DelegationOutput := fun s i =>
  match handle world i s with
  | (s', Ok outs) => (s', outs)
  | (s', Raise _) => ((s.1, s'.2), [])
  end.
(** A dispatch on the dict of the process: what it changed before a raise stays. *)
Definition in_place (world : World) : Reducer Sys DelegationWorkflowInput DelegationOutput := fun s i =>
  match handle world i s with
  | (s', Ok outs) => (s', outs)
  | (s', Raise _) => (s', [])
  end.
Definition run_of (world : World) (inputs : list DelegationWorkflowInput) : Sys * list DelegationOutput :=
  @run _ _ _ (commit world) (∅, []) inputs.

Definition dict_run_of (world : World) (inputs : list DelegationWorkflowInput) : Sys * list DelegationOutput :=
  @run _ _ _ (in_place world) (∅, []) inputs.
(** The inputs of a run over the rows whose dispatch returned. *)
Fixpoint handled (world : World) (s : Sys) (inputs : list DelegationWorkflowInput) : list DelegationWorkflowInput :=
  match inputs with
  | [] => []
  | i :: inputs' =>
      (match (handle world i s).2 with Ok _ => [i] | Raise _ => [] end) ++ handled world (commit world s i).1 inputs'
  end.

(** What a run emits, and is asked, for one correlation id. *)
Definition outputs_of (cid : string) (outs : list DelegationOutput) : list DelegationOutput :=
  filter (fun o => output_cid o = cid) outs.
Definition labels_of (cid : string) (inputs : list DelegationWorkflowInput) : list Label :=
  omap (fun i => if bool_decide (input_cid i = cid) then label_of i else None) inputs.

Definition abs_at (m : Workflows) (cid : string) : Abs :=
  match m !! cid with None => absent | Some w => abs_of w end.
Definition history_at (m : Workflows) (cid : string) : list ModelDelegationEscalationAttempt :=
  match m !! cid with None => [] | Some w => wf_escalation_history w end.
Definition SInv (Odd : Prop) (m : Workflows) : Prop :=
  map_Forall (fun cid w => Inv Odd w /\ wf_correlation_id w = cid) m.

Lemma outputs_of_same cid outs : Forall (fun o => output_cid o = cid) outs -> outputs_of cid outs = outs.
Proof. intros H. unfold outputs_of. induction H; [done|]. rewrite filter_cons_True by done. by f_equal. Qed.
Lemma outputs_of_other cid cid' outs : Forall (fun o => output_cid o = cid') outs -> cid' <> cid -> outputs_of cid outs = [].
Proof. intros H Hne. unfold outputs_of. induction H; [done|]. rewrite filter_cons_False by congruence. done. Qed.
Lemma outputs_of_app cid l k : outputs_of cid (l ++ k) = outputs_of cid l ++ outputs_of cid k.
Proof. unfold outputs_of. by rewrite filter_app. Qed.

Section system.
Context (world : World) (Bad Odd : Prop) `{!Behaves world Bad} (HOdd : Odd -> Bad).

(** What one dispatch does. *)
Record SPost (m : Workflows) (i : DelegationWorkflowInput) (L : Label) (outs : list DelegationOutput) (m' : Workflows) : Prop := {
  sp_inv : SInv Odd m';
  sp_outs : Forall (fun o => output_cid o = input_cid i /\ end_ok Odd (history_at m (input_cid i)) L o) outs;
  sp_step : astep (abs_at m (input_cid i)) L (map kind_of outs) (abs_at m' (input_cid i));
  sp_frame : forall cid, cid <> input_cid i -> m' !! cid = m !! cid
}.

Lemma on_workflow_refines m l cid body i L :
  SInv Odd m -> input_cid i = cid -> expects Absent L = false ->
  (forall w l, Inv Odd w -> wf_correlation_id w = cid -> wp body (Post Odd w L) (fun _ => Bad) (w, l)) ->
  wp (on_workflow cid body) (fun outs s => SPost m i L outs s.1) (fun _ => Bad) (m, l).
Proof using Type.
  intros Hm Hi He Hb. unfold wp, on_workflow. cbn [fst snd].
  destruct (m !! cid) as [w|] eqn:Ew.
  - destruct (Hm cid w Ew) as [Hw Hcid]. specialize (Hb w l Hw Hcid). unfold wp in Hb.
    destruct (body (w, l)) as [[w' l'] [outs|x]]; [|done]. destruct Hb as [Hinv Hc Ho Hs]. cbn [fst snd] in *.
    constructor; cbn [fst snd]; rewrite ?Hi.
    + apply map_Forall_insert_2; [split; congruence|done].
    + eapply Forall_impl; [exact Ho|]. simpl. intros o [? ?]. unfold history_at. rewrite Ew. split; [congruence|done].
    + unfold abs_at. by rewrite Ew, lookup_insert_eq.
    + intros c Hne. by rewrite lookup_insert_ne.
  - constructor; rewrite ?Hi; [done|constructor| |done]. unfold abs_at. cbn [fst]. rewrite Ew. by apply a_ignore.
Qed.

Lemma request_refines r m l : SInv Odd m -> request_ok r \/ Odd ->
  wp (handle_delegation_request world r) (fun outs s => SPost m (InRequest r) LRequest outs s.1) (fun _ => Bad) (m, l).
Proof using Type.
  intros Hm Hr. apply wp_bind, wp_get. cbn [fst]. case_bool_decide as Hin.
  - destruct Hin as [w Ew]. destruct (Hm _ w Ew) as [Hw Hcid].
    pose proof (replay_request_refines Bad Odd r w l Hw) as Hb. unfold wp, on_workflow in *. cbn [fst snd]. rewrite Ew.
    destruct (replay_request r (w, l)) as [[w' l'] [outs|x]]; [|done]. destruct Hb as [Hinv Hc Ho Hs]. cbn [fst snd] in *.
    constructor; cbn [input_cid fst snd].
    + apply map_Forall_insert_2; [split; congruence|done].
    + eapply Forall_impl; [exact Ho|]. simpl. intros o [? ?]. unfold history_at. rewrite Ew. split; [congruence|done].
    + unfold abs_at. by rewrite Ew, lookup_insert_eq.
    + intros c Hne. by rewrite lookup_insert_ne.
  - rewrite <- eq_None_not_Some in Hin. apply wp_bind.
    assert (forall t l', wp (started_at_ns ← call ReadTimeNs (fun l => Ok (w_time_ns world l));
      _ ← modify (fun m => <[rq_correlation_id r := new_workflow (rq_correlation_id r) r (_context_pack_hash_for_event r) started_at_ns t]> m);
      mret [mk_routing_intent r None []]) (fun outs s => SPost m (InRequest r) LRequest outs s.1) (fun _ : Workflows => Bad) (m, l')) as Hnew.
    { intros t l'. apply wp_bind, wp_call; [|done]. intros ns _. apply wp_bind, wp_modify, wp_ret.
      constructor; cbn [input_cid fst snd].
      - apply map_Forall_insert_2; [|done]. split; [|done].
        constructor; cbn; [eauto|done|done|left; vm_compute; done|left; constructor|done|by apply books_of].
      - by repeat constructor.
      - unfold abs_at. rewrite Hin, lookup_insert_eq. apply a_create.
      - intros c Hne. by rewrite lookup_insert_ne. }
    destruct (truthy (rq_tenant_id r)); [apply wp_ret, Hnew|]. apply wp_call; [|done]. intros t _. apply Hnew.
Qed.

Lemma handle_refines m l i L : SInv Odd m -> label_of i = Some L -> input_ok i \/ Odd ->
  wp (handle world i) (fun outs s => SPost m i L outs s.1) (fun _ => Bad) (m, l).
Proof using Behaves0 HOdd.
  intros Hm HL Hok. destruct i; cbn in HL; simplify_eq; cbn [handle].
  - by apply request_refines.
  - apply on_workflow_refines; try done. intros w l' Hw Hc. by apply invocation_refines.
  - apply on_workflow_refines; try done. intros w l' Hw Hc. by apply decision_refines.
  - apply on_workflow_refines; try done. intros w l' Hw Hc. by apply response_refines.
  - apply on_workflow_refines; try done. intros w l' Hw Hc. by apply gate_refines.
  - apply on_workflow_refines; try done. intros w l' Hw Hc. by apply lifecycle_refines.
Qed.

(** One committed dispatch: a step of the abstract delegation of its
    correlation id, or, if it raised, nothing. *)
Lemma commit_post s i L : SInv Odd s.1 -> input_ok i \/ Odd -> label_of i = Some L ->
  is_ok (handle world i s).2 /\ SPost s.1 i L (commit world s i).2 (commit world s i).1.1
  \/ Bad /\ (exists x, (handle world i s).2 = Raise x) /\ (commit world s i).2 = [] /\ (commit world s i).1.1 = s.1.
Proof using Behaves0 HOdd.
  intros Hs Hok HL. unfold commit. destruct s as [m l]. cbn [fst snd] in *.
  pose proof (handle_refines m l i L Hs HL Hok) as H. unfold wp in H.
  destruct (handle world i (m, l)) as [[m' l'] [outs|x]]; cbn [fst snd] in *; [left; split; [by eexists|done]|right; eauto].
Qed.
Lemma commit_step s i : SInv Odd s.1 -> input_ok i \/ Odd ->
  let r := commit world s i in
  SInv Odd r.1.1
  /\ forall cid, aexec (abs_at s.1 cid) (labels_of cid (handled world s [i])) (map kind_of (outputs_of cid r.2)) (abs_at r.1.1 cid).
Proof using Behaves0 HOdd.
  intros Hs Hok. cbn [handled]. destruct (label_of i) as [L|] eqn:EL.
  2: { destruct i; try done. destruct s as [m l]. cbn. split; [done|]. intros cid. constructor. }
  destruct (commit_post s i L Hs Hok EL) as [([outs0 Er] & [Hinv Ho Hstep Hframe])|(HB & (x & Er) & -> & ->)]; rewrite Er.
  - split; [done|]. intros cid. unfold labels_of. cbn [omap list_omap app]. destruct (decide (input_cid i = cid)) as [<-|Hne].
    + rewrite bool_decide_true by done. rewrite EL. cbn.
      rewrite outputs_of_same by (eapply Forall_impl; [exact Ho|]; by intros o []).
      rewrite <- (app_nil_r (map kind_of _)). econstructor; [exact Hstep|constructor].
    + rewrite bool_decide_false by done.
      rewrite (outputs_of_other cid (input_cid i)) by first [done|eapply Forall_impl; [exact Ho|]; by intros o []].
      unfold abs_at. rewrite Hframe by congruence. constructor.
  - split; [done|]. intros cid. cbn. constructor.
Qed.
Lemma handled_cons s i inputs : handled world s (i :: inputs) = handled world s [i] ++ handled world (commit world s i).1 inputs.
Proof using Type. cbn [handled]. by rewrite app_nil_r. Qed.
Lemma labels_of_app cid a b : labels_of cid (a ++ b) = labels_of cid a ++ labels_of cid b.
Proof using Type. unfold labels_of. apply omap_app. Qed.

Lemma run_from_refines inputs s : SInv Odd s.1 -> Forall (fun i => input_ok i \/ Odd) inputs ->
  let r := @run _ _ _ (commit world) s inputs in
  SInv Odd r.1.1
  /\ forall cid, aexec (abs_at s.1 cid) (labels_of cid (handled world s inputs)) (map kind_of (outputs_of cid r.2)) (abs_at r.1.1 cid).
Proof using Behaves0 HOdd.
  intros Hs Hok. revert s Hs. induction Hok as [|i inputs Hi _ IH]; intros s Hs; cbn [run].
  - split; [done|]. intros cid. constructor.
  - destruct (commit_step s i Hs Hi) as [Hs' Hc]. destruct (IH _ Hs') as [Hr Hrun]. split; [exact Hr|]. intros cid.
    rewrite handled_cons, labels_of_app. cbn [snd]. unfold reduce. rewrite outputs_of_app, map_app. by eapply aexec_app.
Qed.
(** Nothing raises where nothing bad can happen. *)
Lemma all_handled inputs s : (Bad -> False) -> SInv Odd s.1 -> Forall input_ok inputs -> handled world s inputs = inputs.
Proof using Behaves0 HOdd.
  intros HB Hs Hok. revert s Hs. induction Hok as [|i inputs Hi _ IH]; intros s Hs; [done|]. rewrite handled_cons.
  destruct (label_of i) as [L|] eqn:EL; [|by destruct i]. cbn [handled].
  destruct (commit_post s i L Hs (or_introl Hi) EL) as [([outs Er] & HP)|(? & _)]; [|by destruct HB].
  rewrite Er. cbn. rewrite IH; [done|]. by destruct HP.
Qed.
End system.

(** ** Runs from the start *)

Lemma SInv_empty Odd : SInv Odd ∅.
Proof. apply map_Forall_empty. Qed.

(** Whatever the world and the inputs, a run keeps the invariant, and each
    correlation id's outputs are those of an abstract delegation. *)
Lemma run_refines world inputs cid :
  aexec absent (labels_of cid (handled world (∅, []) inputs)) (map kind_of (outputs_of cid (run_of world inputs).2))
    (abs_at (run_of world inputs).1.1 cid).
Proof.
  destruct (run_from_refines world True True (fun H => H) inputs (∅, []) (SInv_empty True)) as [_ H]; [|exact (H cid)].
  apply Forall_true. by right.
Qed.
Lemma handled_sublist world inputs s : sublist (handled world s inputs) inputs.
Proof.
  revert s. induction inputs as [|i inputs IH]; intros s; cbn [handled]; [done|].
  destruct (handle world i s).2; cbn; [by apply sublist_skip|by apply sublist_cons].
Qed.
Lemma labels_sublist cid a b : sublist a b -> sublist (labels_of cid a) (labels_of cid b).
Proof.
  induction 1 as [|i a b _ IH|i a b _ IH]; [done|..]; unfold labels_of in *; simpl; repeat case_match; simplify_eq; try done;
    by constructor.
Qed.
(** As long as nothing raises the dict is what the rows hold. *)
Lemma in_place_agrees world inputs s : handled world s inputs = inputs ->
  @run _ _ _ (in_place world) s inputs = @run _ _ _ (commit world) s inputs.
Proof.
  revert s. induction inputs as [|i inputs IH]; intros s Hh; [done|]. cbn [handled] in Hh. cbn [run]. unfold reduce.
  assert (in_place world s i = commit world s i /\ handled world (commit world s i).1 inputs = inputs) as [-> Hi].
  - unfold in_place, commit in *. destruct (handle world i s) as [s' [outs|x]]; cbn [fst snd] in Hh.
    + by injection Hh.
    + exfalso. pose proof (sublist_length _ _ (handled_sublist world inputs (s.1, s'.2))) as Hl. rewrite app_nil_l in Hh.
      rewrite Hh in Hl. simpl in Hl. lia.
  - by rewrite (IH _ Hi).
Qed.
Lemma run_reaches world inputs : SInv True (run_of world inputs).1.1.
Proof.
  apply (run_from_refines world True True (fun H => H) inputs (∅, []) (SInv_empty True)).
  apply Forall_true. by right.
Qed.
Lemma run_reaches_ok world inputs : Forall input_ok inputs -> SInv False (run_of world inputs).1.1.
Proof.
  intros Hok. apply (run_from_refines world True False (fun H => I) inputs (∅, []) (SInv_empty False)).
  eapply Forall_impl; [exact Hok|]. auto.
Qed.

(** ** A configured world *)

(** What a deployment's configuration provides: the registry, backends that
    resolve, ladders that name declared tiers, rates that are non-negative
    numbers, the inference protocol. *)
Record configured (world : World) : Prop := {
  cf_tiers : exists tiers, re_tiers (w_routing world) = Ok tiers
    /\ forall t, is_ok (_tier_order_from_contract tiers (_task_class_entry (re_contract (w_routing world)) t));
  cf_bifrost : is_ok (_load_bifrost_endpoints (w_routing world));
  cf_rates : Forall good_tier (w_pricing_tiers world);
  cf_protocol : is_ok (w_protocol world)
}.

Section configured.
Context (world : World) (Hc : configured world).
Implicit Types (tier t : string) (ex : list string).

Lemma next_eligible_ok tier ex t : is_ok (next_eligible_tier (w_routing world) tier ex (Some t) None).
Proof using Hc.
  destruct Hc as [(tiers & Ht & Hord) [refs Hb] _ _]. unfold next_eligible_tier, _get_config, _get_task_class_contract.
  rewrite Ht, Hb. cbn [mbind result_bind]. destruct (Hord t) as [ord ->]. by eexists.
Qed.
Lemma describe_ok tier ex t : is_ok (describe_no_higher_tier_available (w_routing world) tier ex t).
Proof using Hc.
  destruct Hc as [(tiers & Ht & Hord) [refs Hb] _ _]. unfold describe_no_higher_tier_available, _get_config, _get_task_class_contract.
  rewrite Ht, Hb. cbn [mbind result_bind]. destruct (Hord t) as [ord ->]. by eexists.
Qed.
Lemma decide_ok w n ex retryable reason t : 0 <= wf_escalation_count w -> 0 <= n ->
  is_ok (_decide_escalation world w n ex retryable reason (Some t)).
Proof using Hc.
  intros Hn Hmax. unfold _decide_escalation. set (r := match wf_current_tier_name w with Some _ => _ | None => _ end).
  assert (exists next why, r = Ok (next, why) /\ (next = None -> retryable = true -> wf_escalation_count w < n ->
    is_Some (wf_current_tier_name w) -> is_Some why)) as (next & why & -> & Hwhy).
  { unfold r. destruct (wf_current_tier_name w) as [tier|]; [|exists None, None; split; [done|]; by intros _ _ _ []].
    destruct (retryable && _) eqn:E.
    - destruct (next_eligible_ok tier ex t) as [[next|] ->]; cbn [mbind result_bind]; [by eexists _, _|].
      destruct (describe_ok tier ex t) as [why ->]. cbn. eexists _, _. split; [done|]. by eexists.
    - eexists _, _. split; [done|]. intros _ -> Hlt. apply Z.ltb_lt in Hlt. by rewrite Hlt in E. }
  cbn [mbind result_bind]. unfold validate_decision_request. cbn.
  rewrite (proj2 (Z.ltb_ge _ 0)), (proj2 (Z.ltb_ge _ 0)) by done. cbn.
  by apply decide_escalation_ok.
Qed.

Lemma configured_behaves : Behaves world False.
Proof using Hc.
  pose proof Hc as [(tiers & Ht & Hord) [refs Hb] Hrates Hproto]. constructor.
  - intros tier p c cf (Hp & Hcm & Hf). left. destruct (recompute_ok (w_pricing_tiers world) tier p c cf) as (m & Hm & _); try done.
    by exists m.
  - intros. left. by apply decide_ok.
  - intros tier t ex. left. unfold sibling_backend_available_in_tier, _get_config. rewrite Ht. cbn [mbind result_bind].
    destruct (find_tier tier tiers); [|by eexists]. rewrite Hb. by eexists.
  - intros tier. left. unfold is_free_tier, _get_config. rewrite Ht. by eexists.
  - intros tier. left. unfold is_free_tier, tier_max_retries, _get_config in *. rewrite Ht in *. cbn [mbind result_bind] in *.
    destruct (find_tier tier tiers); [by eexists|done].
  - by left.
Qed.

(** With admissible inputs no dispatch raises, and every awaited event moves the
    delegation. *)
Lemma configured_step inputs i L : Forall input_ok inputs -> input_ok i -> label_of i = Some L ->
  let s := (run_of world inputs).1 in
  SPost False s.1 i L (commit world s i).2 (commit world s i).1.1.
Proof using Hc.
  intros Hin Hi HL. pose proof configured_behaves. cbn zeta.
  destruct (commit_post world False False (fun H => H) (run_of world inputs).1 i L) as [[_ H']|[[] _]]; auto using run_reaches_ok.
Qed.

Lemma configured_handled inputs : Forall input_ok inputs -> handled world (∅, []) inputs = inputs.
Proof using Hc.
  pose proof configured_behaves. by apply (all_handled world False False (fun H => H)), SInv_empty.
Qed.
Lemma configured_dict inputs : Forall input_ok inputs -> dict_run_of world inputs = run_of world inputs.
Proof using Hc. intros Hin. by apply in_place_agrees, configured_handled. Qed.
End configured.

(** ** Acceptance *)

(** Routed anew or failed: neither completed nor handed to the gate. *)
Definition retreats (outs : list DelegationOutput) : Prop := Forall (fun o => kind_of o ∈ [KRouting; KEscalation; KFailed]) outs.
Lemma retreats_spec outs r : retreats outs -> ¬ OutCompleted r ∈ outs.
Proof. unfold retreats. rewrite Forall_forall. intros H Hin. specialize (H _ Hin). set_solver. Qed.
Lemma retreats_gate outs g : retreats outs -> ¬ OutGate g ∈ outs.
Proof. unfold retreats. rewrite Forall_forall. intros H Hin. specialize (H _ Hin). set_solver. Qed.

Section acceptance.
Context (world : World).
Abbreviation any := (fun _ : Read => True).

Lemma emits_require {A} (x : option A) : emits any (require x).
Proof. unfold require. destruct x; eauto with onex nocore. Qed.
Lemma emits_advance t : emits any (_advance t).
Proof. unfold _advance, wf_update. by emits_auto. Qed.
Lemma emits_tenant : emits any (_resolve_tenant_id world).
Proof. unfold _resolve_tenant_id, setting_tenant. by emits_auto. Qed.

(** The rejecting side of the gate completes nothing, whatever the workflow. *)
Lemma emit_failed inputs : te_completed inputs = false -> returns any (_emit_terminal world inputs) retreats.
Proof.
  intros Hf. apply returns_seq; [apply emits_lift|]. intros a. rewrite Hf.
  destruct (fge _ _); [|by apply spec_raise]. apply returns_ret. by repeat constructor.
Qed.
Lemma gate_terminal_failed gate el tok att fb reason why bar :
  returns any (gate_terminal world gate el tok att false fb reason why bar) retreats.
Proof.
  eapply (returns_bind _ _ _ (fun inputs => te_completed inputs = false)).
  - do 4 (apply returns_seq; [first [apply emits_get|apply emits_require]|intros ?]).
    apply returns_seq; [apply emits_tenant|]. intros t. by apply returns_ret.
  - intros inputs Hin. apply returns_seq; [apply emits_advance|]. intros _. by apply emit_failed.
Qed.
Lemma escalate_to_retreats next cost p c e : returns any (escalate_to next cost p c e) retreats.
Proof.
  do 7 (apply returns_seq; [unfold _bank_attempt_spend, reset_inference, wf_update;
    first [apply emits_modify|apply emits_advance|apply emits_get|apply emits_require]|intros ?]).
  apply returns_ret. by repeat constructor.
Qed.
Lemma local_retreats cost : returns any (_maybe_retry_local world cost) (fun o => forall outs, o = Some outs -> retreats outs).
Proof.
  assert (returns any (mret None : W (option (list DelegationOutput))) (fun o => forall outs, o = Some outs -> retreats outs)) as Hn
    by (by apply returns_ret).
  apply returns_seq; [apply emits_get|]. intros w. destruct (wf_current_tier_name w) as [tier|]; [|exact Hn].
  apply returns_seq; [apply emits_lift|]. intros free. destruct free; [|exact Hn]. cbn [negb].
  apply returns_seq; [apply emits_when; intros; apply emits_modify|]. intros _. apply returns_seq; [apply emits_get|]. intros w'.
  apply returns_seq; [apply emits_lift|]. intros budget. destruct (_ <=? _); [exact Hn|].
  do 5 (apply returns_seq; [unfold _bank_attempt_spend, reset_inference, wf_update;
    first [apply emits_modify|apply emits_advance|apply emits_require]|intros ?]).
  apply returns_ret. intros outs [= <-]. by repeat constructor.
Qed.
Lemma event_emits fc reason mid : emits any (_build_escalation_event world fc reason mid).
Proof.
  unfold _build_escalation_event, read_now. apply emits_bind; [apply emits_get|]. intros w2.
  apply emits_bind; [apply emits_require|]. intros r2. apply emits_bind; [by apply emits_call|]. intros t. apply emits_ret.
Qed.
Lemma reject_retreats gate bar r d el tok att n ex :
  returns any (reject_result world gate bar r d el tok att n ex) retreats.
Proof.
  apply returns_seq; [by apply emits_call|]. intros now. apply returns_seq; [apply emits_get|]. intros w.
  apply returns_seq; [unfold _record_escalation_attempt, wf_update; by emits_auto|]. intros cost.
  eapply returns_bind; [apply local_retreats|]. intros o Ho. destruct o as [outs|]; [apply returns_ret; by apply Ho|].
  apply returns_seq; [apply emits_get|]. intros w'. apply returns_seq; [apply emits_lift|]. intros v.
  destruct (ds_can_escalate v); [|apply gate_terminal_failed].
  apply returns_seq; [apply emits_require|]. intros next. apply returns_seq; [apply event_emits|intros e; apply escalate_to_retreats].
Qed.

(** An error response is never handed to the gate. *)
Lemma sibling_retreats ref cost p c :
  returns any (_maybe_retry_sibling_backend world ref cost p c) (fun o => forall outs, o = Some outs -> retreats outs).
Proof.
  assert (returns any (mret None : W (option (list DelegationOutput))) (fun o => forall outs, o = Some outs -> retreats outs)) as Hn
    by (by apply returns_ret).
  apply returns_seq; [apply emits_get|]. intros w. destruct (wf_current_tier_name w) as [tier|]; [|exact Hn].
  destruct (wf_request w) as [r|]; [|exact Hn]. destruct (negb _); [exact Hn|].
  apply returns_seq; [apply emits_when; intros; apply emits_modify|]. intros _. apply returns_seq; [apply emits_get|]. intros w1.
  apply returns_seq; [apply emits_when; intros; apply emits_modify|]. intros _. apply returns_seq; [apply emits_get|]. intros w2.
  apply returns_seq; [apply emits_lift|]. intros [sib|]; [|exact Hn].
  do 3 (apply returns_seq; [unfold _bank_attempt_spend, reset_inference, wf_update; first [apply emits_modify|apply emits_advance]|intros ?]).
  apply returns_ret. intros outs [= <-]. by repeat constructor.
Qed.
Lemma inference_error_retreats resp r d : returns any (handle_inference_error world resp r d) retreats.
Proof.
  apply returns_seq; [unfold elapsed_ms, read_time_ns; by emits_auto|]. intros el. apply returns_seq; [by apply emits_call|]. intros now.
  apply returns_seq; [apply emits_get|]. intros w. apply returns_seq; [unfold _record_escalation_attempt, wf_update; by emits_auto|]. intros cost.
  eapply returns_bind.
  { instantiate (1 := fun o => forall outs, o = Some outs -> retreats outs). destruct (_should_escalate_inference_error _);
      [apply sibling_retreats|by apply returns_ret]. }
  intros [outs|] Ho; [apply returns_ret; by apply Ho|]. apply returns_seq; [apply emits_get|]. intros w'.
  apply returns_seq; [apply emits_lift|]. intros v. destruct (ds_can_escalate v).
  - apply returns_seq; [apply emits_require|]. intros next. apply returns_seq; [apply event_emits|]. intros e. apply escalate_to_retreats.
  - apply returns_seq; [apply emits_modify|]. intros _.
    eapply (returns_bind _ _ _ (fun inputs => te_completed inputs = false)).
    + apply returns_seq; [apply emits_tenant|]. intros t. apply returns_seq; [apply emits_get|]. intros w2. by apply returns_ret.
    + intros inputs Hin. apply returns_seq; [apply emits_advance|]. intros _. by apply emit_failed.
Qed.

Lemma lifecycle_retreats e : next_state_from_lifecycle (le_lifecycle_type e) <> WfState.COMPLETED ->
  returns any (handle_agent_task_lifecycle world e) retreats.
Proof.
  intros Hne. apply returns_seq; [apply emits_get|]. intros w. cbn zeta. case_bool_decide.
  { apply returns_seq; [apply emits_when; intros; apply emits_advance|]. intros _. apply returns_ret. constructor. }
  case_bool_decide; [|apply returns_ret; constructor]. cbn [negb].
  apply returns_seq; [apply emits_when; intros; apply emits_advance|]. intros _.
  apply returns_seq; [apply emits_require|]. intros r. apply returns_seq; [unfold elapsed_ms, read_time_ns; by emits_auto|]. intros el.
  rewrite bool_decide_false by done.
  eapply (returns_bind _ _ _ (fun inputs => te_completed inputs = false)); [|intros inputs Hin; by apply emit_failed].
  apply returns_seq; [apply emits_tenant|]. intros t. apply returns_seq; [apply emits_get|]. intros w'. by apply returns_ret.
Qed.

(** What a completion at the gate rests on. *)
Definition accepted (gate : ModelQualityGateResult) (r : ModelDelegationResult) : Prop :=
  exists bar, resolve_required_bar_authority (w_routing world) (dr_task_type r) None None = Ok bar
    /\ gr_passed gate = true /\ gr_fail_category gate <> GateFailDeterministic
    /\ (flt (gr_quality_score gate) (ra_required_bar bar) = false \/ gr_score_source gate = SCORE_SOURCE_DETERMINISTIC_ACCEPTANCE)
    /\ dr_quality_passed r = true /\ dr_quality_score r = gr_quality_score gate.

Lemma quality_accepted_spec bar gate : quality_accepted bar gate = true ->
  gr_passed gate = true /\ gr_fail_category gate <> GateFailDeterministic
  /\ (flt (gr_quality_score gate) (ra_required_bar bar) = false \/ gr_score_source gate = SCORE_SOURCE_DETERMINISTIC_ACCEPTANCE).
Proof.
  unfold quality_accepted, judge_unavailable_floor, pre_filter_rejected. intros H. breflect. split; [done|]. split.
  - intros Hd. by rewrite Hd in H.
  - apply orb_prop in H0 as [H0|H0]; breflect; [right; by apply String.eqb_eq|by left].
Qed.

Lemma returns_wp {T} (m : M DelegationWorkflowState Read T) (R : T -> Prop) s :
  returns any m R -> wp m (fun a _ => R a) (fun _ => True) s.
Proof. intros H. destruct (H s I) as (l & _ & _ & Hr). unfold wp. by destruct (m s) as [? []]. Qed.

Lemma gate_accepts gate ex w l : (exists r, wf_request w = Some r) ->
  wp (handle_gate_result world gate 2 ex) (fun outs _ => forall r, OutCompleted r ∈ outs ->
    accepted gate r /\ wf_inference_content w = Some (dr_content r)) (fun _ => True) (w, l).
Proof.
  intros [r Hr]. apply wp_bind, wp_get. cbn [fst]. destruct (negb _); [by apply wp_ret; intros r' ?%not_elem_of_nil|].
  assert (forall (m : W (list DelegationOutput)) s, returns any m retreats ->
    wp m (fun outs _ => forall r, OutCompleted r ∈ outs ->
      accepted gate r /\ wf_inference_content w = Some (dr_content r)) (fun _ => True) s) as Hno.
  { intros m s Hm. eapply wp_mono; [by apply returns_wp|]. intros outs s' Ho r' Hin. exfalso. by apply (retreats_spec outs r' Ho). }
  apply wp_bind, wp_bind, wp_get. cbn [fst]. destruct (declared _ _); [|by apply wp_raise].
  apply wp_update, wp_bind, wp_update, wp_bind. eapply wp_require; [exact Hr|]. unfold require.
  destruct (wf_routing_decision w) as [d|] eqn:Hd; [|by apply wp_bind, wp_raise].
  destruct (wf_inference_content w) as [content|] eqn:Hcont; [|by apply wp_bind, wp_ret, wp_bind, wp_raise].
  destruct (wf_inference_model_used w) as [model|] eqn:Hm; [|by do 2 (apply wp_bind, wp_ret); apply wp_bind, wp_raise].
  do 3 (apply wp_bind, wp_ret). apply wp_bind, wp_elapsed. intros el l1.
  destruct (resolve_required_bar_authority _ _ _ _) as [bar|x] eqn:Ebar.
  2: { destruct (is_bar_error x); [|by apply wp_raise]. apply Hno, gate_terminal_failed. }
  destruct (quality_accepted bar gate) eqn:Eq; [|apply Hno, reject_retreats].
  apply quality_accepted_spec in Eq as (Hp & Hc & Hs).
  apply wp_bind, wp_bind, wp_get. cbn [fst]. apply wp_bind. eapply wp_require; [exact Hr|].
  apply wp_bind. eapply wp_require; [exact Hd|]. apply wp_bind. eapply wp_require; [exact Hm|].
  apply wp_bind, wp_tenant. intros t l2. apply wp_ret. apply wp_bind, wp_bind, wp_get. cbn [fst].
  destruct (declared _ _); [|by apply wp_raise]. apply wp_update, wp_bind, wp_lift; [|done]. intros a _.
  destruct (fge _ _); [|by apply wp_raise]. apply wp_ret. cbn. rewrite Hcont. intros r' [[= ->]|?%not_elem_of_nil]%elem_of_cons; [|done].
  split; [by exists bar|done].
Qed.

(** The answer a workflow awaits the verdict of. *)
Definition awaits_verdict (g : ModelQualityGateInput) (w : DelegationWorkflowState) : Prop :=
  wf_state w = WfState.INFERENCE_COMPLETED /\ wf_inference_content w = Some (gi_llm_response_content g).
Lemma response_awaits resp w l :
  wp (handle_inference_response world resp)
    (fun outs s => forall g, OutGate g ∈ outs -> awaits_verdict g s.1 /\ gi_correlation_id g = ir_correlation_id resp) (fun _ => True) (w, l).
Proof.
  assert (forall s : DelegationWorkflowState * list Read, (forall g, OutGate g ∈ ([] : list DelegationOutput) ->
    awaits_verdict g s.1 /\ gi_correlation_id g = ir_correlation_id resp)) as Hnil by by (intros s g ?%not_elem_of_nil).
  apply wp_bind, wp_get. cbn [fst]. case_bool_decide as Hs; cbn [negb]; [|by apply wp_ret, Hnil].
  apply wp_bind. destruct (wf_request w) as [r|] eqn:Hr; [|by apply wp_raise]. apply wp_ret.
  destruct (wf_routing_decision w) as [d|] eqn:Hd; [|by apply wp_ret, Hnil].
  destruct (truthy (ir_error_message resp)).
  { eapply wp_mono; [by apply returns_wp, inference_error_retreats|]. intros outs s Ho g Hg. by destruct (retreats_gate outs g Ho). }
  destruct (rq_output_schema_key r) as [key|] eqn:Ek.
  - apply wp_bind, wp_get. cbn [fst]. apply wp_bind. eapply wp_require; [exact Hr|]. apply wp_bind. eapply wp_require; [exact Ek|].
    apply wp_bind. destruct (rq_compliance_budget r) as [b|]; [|by apply wp_raise]. apply wp_ret. apply wp_bind. eapply wp_require; [exact Hd|].
    apply wp_bind, wp_lift; [|done]. intros v _. apply wp_bind, wp_update. destruct (_ || _).
    + apply wp_bind, wp_advance; [by cbn; rewrite Hs|]. apply wp_bind, wp_update, wp_ret. cbn.
      intros g [[= ->]|?%not_elem_of_nil]%elem_of_cons; [|done]. by split.
    + apply wp_bind, wp_advance; [by cbn; rewrite Hs|]. apply wp_bind, wp_update, wp_bind.
      unfold inference_intent. match goal with |- wp ?m _ _ ?s => enough (wp m (fun _ _ => True) (fun _ => True) s) as Hany end.
      { eapply wp_mono; [exact Hany|]. intros i s' _. apply wp_ret. by intros g [[=]|?%not_elem_of_nil]%elem_of_cons. }
      apply returns_wp with (R := fun _ => True). by emits_auto.
  - apply wp_bind, wp_advance; [by cbn; rewrite Hs|]. apply wp_bind, wp_update, wp_bind, wp_update, wp_ret. cbn.
    intros g [[= ->]|?%not_elem_of_nil]%elem_of_cons; [|done]. by split.
Qed.
(** While it waits nothing but a gate result touches the workflow. *)
Lemma verdict_awaited g s i cid w : s.1 !! cid = Some w -> awaits_verdict g w ->
  (forall gate, i = InGate gate -> gr_correlation_id gate <> cid) -> (commit world s i).1.1 !! cid = Some w.
Proof.
  intros Hw [Hst _] Hi. unfold commit.
  assert (forall c body, (c = cid -> wp body (fun _ s' => s'.1 = w) (fun _ => True) (w, s.2)) ->
    (match on_workflow c body s with (s', Ok outs) => (s', outs) | (s', Raise _) => ((s.1, s'.2), []) end).1.1 !! cid = Some w) as Hon.
  { intros c body Hb. unfold on_workflow. destruct (s.1 !! c) as [wc|] eqn:Ec; [|done]. destruct (decide (c = cid)) as [->|Hne].
    - rewrite Hw in Ec. injection Ec as <-. specialize (Hb eq_refl). unfold wp in Hb.
      destruct (body (w, s.2)) as [[w' l'] [outs|x]]; cbn in *; [by rewrite lookup_insert_eq, Hb|done].
    - destruct (body (wc, s.2)) as [[w' l'] [outs|x]]; cbn; [by rewrite lookup_insert_ne|done]. }
  destruct i as [r|c|d|resp|gate|e|n]; cbn [handle].
  - unfold handle_delegation_request. mrun.
    case_bool_decide as Hin; [apply Hon; intros _; apply wp_bind, wp_get; cbn [fst]; rewrite Hst; by apply wp_ret|].
    assert (rq_correlation_id r <> cid) as Hne by (intros E; rewrite E in Hin; by destruct Hin; eexists).
    destruct (truthy (rq_tenant_id r)); unfold setting_tenant; mrun; cbn; by rewrite lookup_insert_ne.
  - apply Hon. intros _. apply wp_bind, wp_get. cbn [fst]. rewrite Hst. by apply wp_ret.
  - apply Hon. intros _. apply wp_bind, wp_get. cbn [fst]. rewrite Hst. by apply wp_ret.
  - apply Hon. intros _. apply wp_bind, wp_get. cbn [fst]. rewrite Hst. by apply wp_ret.
  - apply Hon. intros E. by destruct (Hi gate eq_refl).
  - apply Hon. intros _. apply wp_bind, wp_get. cbn [fst]. rewrite Hst. destruct (next_state_from_lifecycle _); by apply wp_ret.
  - done.
Qed.
End acceptance.

(** What a completion of the gate rests on: the gate's verdict, and the answer the
    workflow stores. *)
Lemma gate_completion world inputs gate r :
  OutCompleted r ∈ (commit world (run_of world inputs).1 (InGate gate)).2 ->
  accepted world gate r /\ exists w, (run_of world inputs).1.1 !! gr_correlation_id gate = Some w /\ wf_inference_content w = Some (dr_content r).
Proof.
  intros Hin. pose proof (run_reaches world inputs) as Hs. set (s := (run_of world inputs).1) in *. clearbody s.
  unfold commit in Hin. cbn [handle] in Hin. unfold on_workflow in Hin.
  destruct (s.1 !! gr_correlation_id gate) as [w|] eqn:Ew; [|by apply not_elem_of_nil in Hin].
  destruct (Hs _ _ Ew) as [[(r' & Hr' & _) _ _ _ _ _ _] _].
  pose proof (gate_accepts world gate [] w s.2 (ex_intro _ _ Hr')) as Hg. unfold wp in Hg.
  destruct (handle_gate_result _ _ _ _ _) as [[w' l'] [outs|x]]; [|by apply not_elem_of_nil in Hin].
  destruct (Hg r Hin) as [Ha Hc]. split; [exact Ha|by exists w].
Qed.

(** Who completes a delegation. *)
Lemma completed_needs world inputs i r :
  OutCompleted r ∈ (commit world (run_of world inputs).1 i).2 ->
  (exists gate, i = InGate gate /\ accepted world gate r)
  \/ (exists e, i = InLifecycle e /\ next_state_from_lifecycle (le_lifecycle_type e) = WfState.COMPLETED).
Proof.
  intros Hin. pose proof Hin as Hrun. pose proof (run_reaches world inputs) as Hs. set (s := (run_of world inputs).1) in Hin, Hs. clearbody s.
  destruct (label_of i) as [L|] eqn:EL.
  2: { destruct i; try done. unfold commit, handle in Hin. cbn in Hin. by apply not_elem_of_nil in Hin. }
  assert (forall outs, SPost True s.1 i L outs (commit world s i).1.1 -> OutCompleted r ∈ outs -> L = LGate \/ L = LLifecycle) as HL.
  { intros outs [_ _ Hst _] Ho. apply (completes_on _ _ _ _ Hst). by apply (list_elem_of_fmap_2 kind_of) in Ho. }
  destruct (commit_post world True True (fun H => H) s i L Hs (or_intror I) EL) as [[_ HS]|(_ & _ & Hnil & _)].
  2: { rewrite Hnil in Hin. by apply not_elem_of_nil in Hin. }
  specialize (HL _ HS Hin). clear HS. destruct i; cbn in EL; simplify_eq; try (by destruct HL).
  - left. exists gate. split; [done|]. by apply (gate_completion world inputs).
  - right. exists event. split; [done|]. unfold commit in Hin. cbn [handle] in Hin. unfold on_workflow in Hin.
    destruct (s.1 !! le_correlation_id event) as [w|] eqn:Ew; [|by apply not_elem_of_nil in Hin].
    destruct (decide (next_state_from_lifecycle (le_lifecycle_type event) = WfState.COMPLETED)) as [|Hne]; [done|exfalso].
    pose proof (returns_wp _ _ (w, s.2) (lifecycle_retreats world event Hne)) as Hg. unfold wp in Hg.
    destruct (handle_agent_task_lifecycle _ _ _) as [[w' l'] [outs|x]]; [|by apply not_elem_of_nil in Hin].
    by apply (retreats_spec outs r).
Qed.

(** An answer handed to the gate is the one its delegation then stores. *)
Lemma emitted_gate world inputs i g :
  OutGate g ∈ (commit world (run_of world inputs).1 i).2 ->
  exists w, (commit world (run_of world inputs).1 i).1.1 !! gi_correlation_id g = Some w /\ awaits_verdict g w.
Proof.
  intros Hin. pose proof (run_reaches world inputs) as Hs. set (s := (run_of world inputs).1) in *. clearbody s.
  destruct (label_of i) as [L|] eqn:EL.
  2: { destruct i; try done. unfold commit, handle in Hin. cbn in Hin. by apply not_elem_of_nil in Hin. }
  destruct (commit_post world True True (fun H => H) s i L Hs (or_intror I) EL) as [[_ [_ _ Hst _]]|(_ & _ & Hnil & _)].
  2: { rewrite Hnil in Hin. by apply not_elem_of_nil in Hin. }
  pose proof (list_elem_of_fmap_2 kind_of _ _ Hin) as Hk. apply (judges_on _ _ _ _ Hst) in Hk. subst L.
  destruct i as [| | |resp| | |]; try discriminate EL. unfold commit in *. cbn [handle] in *. unfold on_workflow in *.
  destruct (s.1 !! ir_correlation_id resp) as [w|] eqn:Ew; [|by apply not_elem_of_nil in Hin].
  pose proof (response_awaits world resp w s.2) as Hr. unfold wp in Hr.
  destruct (handle_inference_response _ _ _) as [[w' l'] [outs|x]]; [|by apply not_elem_of_nil in Hin].
  destruct (Hr g Hin) as [Ha ->]. exists w'. split; [|exact Ha]. cbn. by rewrite lookup_insert_eq.
Qed.
Lemma run_awaits world g inputs s w : s.1 !! gi_correlation_id g = Some w -> awaits_verdict g w ->
  Forall (fun i => forall gate, i = InGate gate -> gr_correlation_id gate <> gi_correlation_id g) inputs ->
  (@run _ _ _ (commit world) s inputs).1.1 !! gi_correlation_id g = Some w.
Proof.
  revert s. induction inputs as [|i inputs IH]; intros s Hw Ha Hin; [done|]. apply Forall_cons in Hin as [Hi Hin]. cbn [run fst].
  apply IH; [by eapply verdict_awaited|done|done].
Qed.
