(* ===== verification/DelegationDurable.v ===== *)
(** * Delegations across dispatches

    What the mapping of [DelegationCodec] gives the runtime: rows are bound, one
    input is handled, the correlation id is flushed and its row written.  The
    binding and the row store are the runtime's; [reads] is what is asked of
    them.  The workflows kept this way and the ones kept in a dict answer every
    sequence of inputs alike. *)
From S2P Require Import Prelude PyFloat PyJson Fsm LogMonad DelegationModels DelegationWorkflow DelegationHandlers DelegationCodec DelegationSpec DelegationRefine DelegationSystem.

Abbreviation Rows := (gmap string (option StrObj * Z)).
Abbreviation Cache := (gmap string (option StrObj * DelegationWorkflowState)).

(** [rows] holds the texts of [db], as objects the cache has not seen. *)
Definition reads (db : gmap string string) (cache : Cache) (rows : Rows) : Prop := forall cid,
  match db !! cid with
  | None => bound_payload rows cid = None
  | Some text => exists o, bound_payload rows cid = Some o /\ so_text o = text
      /\ forall source w, cache !! cid = Some (source, w) -> same_obj source (Some o) = false
  end.

(** What outlives a dispatch: the rows, and the process's cache. *)
Record Durable := { du_db : gmap string string; du_cache : Cache }.

Section durable.
Context (dump_json : DelegationWorkflowState -> string) (validate_json : string -> result DelegationWorkflowState).
Context (world : World) (bind : gmap string string -> Cache -> Rows).

Definition bound (s : Durable) : Proxy :=
  {| px_rows := Some (bind (du_db s) (du_cache s)); px_cache := du_cache s; px_shared := ∅ |}.

#[local] Instance durable_dispatch : Reducer (Durable * list Read) DelegationWorkflowInput DelegationOutput := fun s i =>
  let cid := input_cid i in
  match proxy_handle validate_json world i (bound s.1, s.2) with
  | (s1, Raise _) => (({| du_db := du_db s.1; du_cache := px_cache s1.1 |}, s1.2), [])
  | (s1, Ok outs) =>
      match codec_flush dump_json cid s1 with
      | (s2, Ok (Some text)) => (({| du_db := <[cid := text]> (du_db s.1); du_cache := px_cache s2.1 |}, s2.2), outs)
      | (s2, _) => (({| du_db := du_db s.1; du_cache := px_cache s2.1 |}, s2.2), outs)
      end
  end.

(** ** What a dispatch leaves in the cache *)

Lemma getitem_cache p rows m cid l : px_rows p = Some rows -> shows validate_json p m ->
  let p' := (__getitem__ validate_json cid (p, l)).1.1 in
  px_rows p' = Some rows /\ (forall c, c <> cid -> px_cache p' !! c = px_cache p !! c)
  /\ (m !! cid = None -> p' = p).
Proof.
  intros Hr Hp. pose proof (Hp cid) as Hv. unfold view in Hv. rewrite Hr in Hv.
  unfold __getitem__, _lookup_bound. mrun. rewrite Hr. mrun.
  destruct (fresh_hit _ _ _) as [w|]; [by injection Hv as <-|].
  destruct (bound_payload rows cid) as [o|]; [|done]. destruct (decode _ _) as [w|]; [|done].
  cbn [mbind result_bind] in Hv. injection Hv as Hv. mrun. cbn. split; [done|]. split; [|by rewrite <- Hv].
  intros c Hne. by rewrite lookup_insert_ne.
Qed.

(** What a dispatch does to the mapping: nothing, or the entry of its
    correlation id is loaded. *)
Record Touched (p : Proxy) (m : Workflows) (cid : string) (rows : Rows) (p1 : Proxy) (m1 : Workflows)
    (r : result (list DelegationOutput)) : Prop := {
  to_rows : px_rows p1 = Some rows;
  to_others : forall c, c <> cid -> px_cache p1 !! c = px_cache p !! c;
  to_own : px_cache p1 = px_cache p /\ m1 = m /\ (m !! cid = None \/ forall outs, r <> Ok outs)
    \/ loaded p1 cid /\ is_Some (m1 !! cid) /\ (is_Some (m !! cid) \/ exists outs, r = Ok outs)
}.

Lemma run_on_touched p m cid body w l rows p' : px_rows p' = Some rows -> loaded p' cid -> m !! cid = Some w ->
  (forall c, c <> cid -> px_cache p' !! c = px_cache p !! c) ->
  let a := run_on cid body w (p', l) in let b := on_workflow cid body (m, l) in
  Touched p m cid rows a.1.1 b.1.1 a.2.
Proof.
  intros Hr Hl Hm Ho. unfold run_on, on_workflow. cbn [fst snd]. rewrite Hm. destruct (body (w, l)) as [[w' l'] r]. cbn [fst snd].
  unfold write_back. rewrite Hr. pose proof Hl as Hl'. unfold loaded in Hl'. rewrite Hr in Hl'. destruct Hl' as (source & w0 & Hc & Hs).
  rewrite Hc. constructor; cbn.
  - done.
  - intros c Hne. rewrite lookup_insert_ne by done. by apply Ho.
  - right. unfold loaded. cbn. rewrite Hr, !lookup_insert_eq. split; [eauto|]. rewrite Hm. eauto.
Qed.
Lemma on_workflow_touched p rows m cid body l : px_rows p = Some rows -> shows validate_json p m ->
  let a := proxy_on_workflow validate_json cid body (p, l) in let b := on_workflow cid body (m, l) in
  Touched p m cid rows a.1.1 b.1.1 a.2.
Proof.
  intros Hr Hp. cbn zeta.
  destruct (getitem_shows validate_json p m cid l Hp) as (p' & Hg & Hp' & Hl).
  pose proof (getitem_cache p rows m cid l Hr Hp) as Hc. rewrite Hg in Hc. cbn [fst] in Hc. destruct Hc as (Hr' & Ho & Hn).
  unfold proxy_on_workflow, proxy_get, attempt. mrun. rewrite Hg.
  destruct (m !! cid) as [w|] eqn:Em; cbn [mret M_ret].
  - apply run_on_touched; eauto.
  - rewrite Hn by done. unfold on_workflow. cbn [fst snd]. rewrite Em. constructor; auto.
Qed.

Lemma dispatch_touched p rows m i l : px_rows p = Some rows -> shows validate_json p m ->
  let a := proxy_handle validate_json world i (p, l) in let b := handle world i (m, l) in
  Touched p m (input_cid i) rows a.1.1 b.1.1 a.2.
Proof.
  intros Hr Hp. destruct i as [r| | | | | |]; cbn [proxy_handle handle]; try (by apply on_workflow_touched).
  2: { constructor; [done|done|]. left. split; [done|]. split; [done|]. by right. }
  cbn zeta. unfold proxy_delegation_request, handle_delegation_request. mrun.
  rewrite (contains_shows validate_json p m) by done. case_bool_decide as Hin.
  - destruct (getitem_shows validate_json p m (rq_correlation_id r) l Hp) as (p' & Hg & Hp' & Hl).
    pose proof (getitem_cache p rows m (rq_correlation_id r) l Hr Hp) as Hc. rewrite Hg in Hc. cbn [fst] in Hc.
    destruct Hc as (Hr' & Ho & _). mrun. rewrite Hg. destruct Hin as [w Hw]. rewrite Hw in *. apply run_on_touched; eauto.
  - assert (forall t l, let a := (started_at_ns ← call ReadTimeNs (fun l => Ok (w_time_ns world l));
        _ ← __setitem__ (rq_correlation_id r) (new_workflow (rq_correlation_id r) r (_context_pack_hash_for_event r) started_at_ns t);
        mret [mk_routing_intent r None []]) (p, l) in
      let b := (started_at_ns ← call ReadTimeNs (fun l => Ok (w_time_ns world l));
        _ ← modify (fun m => <[rq_correlation_id r := new_workflow (rq_correlation_id r) r (_context_pack_hash_for_event r) started_at_ns t]> m);
        mret [mk_routing_intent r None []]) (m, l) in
      Touched p m (rq_correlation_id r) rows a.1.1 b.1.1 a.2) as Hnew.
    { intros t l'. cbn zeta. mrun. unfold __setitem__. mrun. rewrite Hr. mrun. constructor; cbn.
      - done.
      - intros c Hne. by rewrite lookup_insert_ne.
      - right. unfold loaded. cbn. rewrite Hr, !lookup_insert_eq. split; [|eauto]. eexists _, _. split; [done|]. apply same_obj_refl. }
    destruct (truthy (rq_tenant_id r)); [apply Hnew|]. mrun. apply Hnew.
Qed.

(** ** The rows and the dict *)

(** The rows decode to the dict; what lingers in the cache came from a row. *)
Record Stored (s : Durable) (m : Workflows) : Prop := {
  st_rows : forall cid, match du_db s !! cid with
                        | None => m !! cid = None
                        | Some text => exists w, decode validate_json text = Ok w /\ m !! cid = Some w
                        end;
  st_cache : forall cid source w, du_cache s !! cid = Some (source, w) -> is_Some source /\ is_Some (du_db s !! cid)
}.

Lemma Stored_empty : Stored {| du_db := ∅; du_cache := ∅ |} ∅.
Proof. constructor; [done|]. intros cid source w. cbn. by rewrite lookup_empty. Qed.

Hypothesis bind_reads : forall db cache, reads db cache (bind db cache).

Lemma bound_shows s m : Stored s m -> shows validate_json (bound s) m.
Proof.
  intros [Hrows Hcache]. pose proof (bind_reads (du_db s) (du_cache s)) as Hb.
  apply (rebind_shows validate_json {| px_rows := None; px_cache := du_cache s; px_shared := ∅ |}).
  - cbn. intros cid source w Hc. destruct (Hcache _ _ _ Hc) as [_ [text Ht]]. specialize (Hb cid). rewrite Ht in Hb.
    destruct Hb as (o & -> & _ & Hf). eauto.
  - intros cid. specialize (Hb cid). specialize (Hrows cid). destruct (du_db s !! cid) as [text|].
    + destruct Hb as (o & -> & -> & _). done.
    + by rewrite Hb.
Qed.

(** One dispatch: the rows again decode to the dict a dispatch on it leaves, and
    the outputs and reads are the same. *)
Lemma durable_step s l m i : Stored s m ->
  (forall w, (commit world (m, l) i).1.1 !! input_cid i = Some w -> adapter_reads_back dump_json validate_json w) ->
  let a := durable_dispatch (s, l) i in let b := commit world (m, l) i in
  Stored a.1.1 b.1.1 /\ a.1.2 = b.1.2 /\ a.2 = b.2.
Proof.
  intros Hs Had. pose proof (bound_shows s m Hs) as Hp. cbn zeta. revert Had. unfold commit, durable_dispatch.
  destruct Hs as [Hrows Hcache].
  pose proof (dispatch_agrees validate_json world (bound s) m i l Hp) as (Hp1 & Hl & Hr).
  pose proof (dispatch_touched (bound s) _ m i l eq_refl Hp) as [Hr1 Hothers Hown]. cbn zeta in *. cbn [fst snd].
  destruct (proxy_handle validate_json world i (bound s, l)) as [[p1 l1] r].
  destruct (handle world i (m, l)) as [[m1 l1'] r']. cbn [fst snd] in *. subst l1' r'. cbn [bound px_cache px_rows] in *.
  set (cid := input_cid i) in *.
  assert (forall c source w, px_cache p1 !! c = Some (source, w) -> c <> cid -> is_Some source /\ is_Some (du_db s !! c)) as Hoth.
  { intros c source w Hc Hne. rewrite Hothers in Hc by done. by eapply Hcache. }
  destruct r as [outs|x].
  2: { intros _. cbn. split; [|done]. constructor; cbn; [done|]. intros c source w Hc. destruct (decide (c = cid)) as [->|Hne]; [|by eapply Hoth].
    destruct Hown as [(He & _)|(Hld & _ & [Hm|[? ?]])]; [rewrite He in Hc; by eapply Hcache| |done].
    unfold loaded in Hld. rewrite Hr1 in Hld. destruct Hld as (source' & w' & Hc' & Hsame). rewrite Hc in Hc'. injection Hc' as <- <-.
    pose proof (Hrows cid) as Hrow. pose proof (bind_reads (du_db s) (du_cache s) cid) as Hb.
    destruct (du_db s !! cid) as [text|]; [|destruct Hm; congruence].
    destruct Hb as (o & Ho & _). rewrite Ho in Hsame. destruct source; [by eauto|done]. }
  cbn [fst snd]. intros Had. destruct Hown as [(He & -> & [Hm|Hno])|(Hld & [w1 Hw1] & _)]; [| by destruct (Hno outs) |].
  - assert (px_cache p1 !! cid = None) as Hnone.
    { rewrite He. destruct (du_cache s !! cid) as [[source w]|] eqn:Ec; [|done]. destruct (Hcache _ _ _ Ec) as [_ [text Ht]].
      specialize (Hrows cid). rewrite Ht in Hrows. destruct Hrows as (? & _ & ?). congruence. }
    rewrite flush_untouched by done. cbn. split; [|done]. constructor; cbn; [done|]. by rewrite He.
  - pose proof (flush_spec dump_json validate_json p1 m1 cid l1 _ Hr1 Hp1 Hld) as Hf. rewrite Hw1 in Hf. rewrite Hf.
    destruct (encode_decode dump_json validate_json w1 (Had w1 Hw1)) as (text & o & -> & Hd & _). cbn. split; [|done].
    constructor; cbn.
    + intros c. destruct (decide (c = cid)) as [->|Hne].
      { rewrite lookup_insert_eq. eauto. }
      rewrite lookup_insert_ne by done. pose proof (Hp c) as Hv. pose proof (Hp1 c) as Hv1. unfold view in Hv, Hv1.
      rewrite Hr1 in Hv1. cbn [bound px_rows px_cache] in Hv. unfold fresh_hit in Hv1, Hv. rewrite Hothers in Hv1 by done.
      rewrite Hv in Hv1. injection Hv1 as <-. apply Hrows.
    + intros c source w. destruct (decide (c = cid)) as [->|Hne]; [by rewrite lookup_delete_eq|].
      rewrite lookup_delete_ne, lookup_insert_ne by done. intros Hc. by eapply Hoth.
Qed.

(** Any sequence of inputs, from empty rows and an empty dict. *)
Lemma durable_run inputs s l m : Stored s m ->
  (forall n cid w, (@run _ _ _ (commit world) (m, l) (take n inputs)).1.1 !! cid = Some w -> adapter_reads_back dump_json validate_json w) ->
  let a := run (s, l) inputs in let b := @run _ _ _ (commit world) (m, l) inputs in
  Stored a.1.1 b.1.1 /\ a.1.2 = b.1.2 /\ a.2 = b.2.
Proof.
  revert s l m. induction inputs as [|i inputs IH]; intros s l m Hs Had; [done|]. cbn [run].
  destruct (durable_step s l m i Hs) as (Hs' & Hl & Ho).
  { intros w Hw. apply (Had 1%nat (input_cid i)). cbn [take run]. done. }
  unfold reduce in *. destruct (durable_dispatch (s, l) i) as [[s1 l1] o1]. destruct (commit world (m, l) i) as [[m1 l1'] o1'] eqn:Ec.
  cbn [fst snd] in *. subst l1' o1'. destruct (IH s1 l1 m1 Hs') as (H1 & H2 & H3).
  { intros n cid w Hw. apply (Had (S n) cid). cbn [take run]. unfold reduce. rewrite Ec. exact Hw. }
  by rewrite H3.
Qed.
End durable.
