(* ===== verification/DelegationProps.v ===== *)
(** * Guarantees of the delegation workflow

    What the orchestrator, the router, the compliance loop and the durable store
    promise, with a small deployment on which the theorems are instantiated. *)
From S2P Require Import Prelude PyFloat PyJson Fsm LogMonad DelegationModels DelegationPricing DelegationRouting DelegationLadder InferenceProtocol ComplianceLoop DelegationBar DelegationWorkflow DelegationHandlers DelegationCodec DelegationSpec DelegationRefine DelegationSystem DelegationDurable.
Import WfState (EnumDelegationState).

#[local] Open Scope Z_scope.

(** ** A deployment *)

Definition sample_model (id backend : string) (ctx : Z) : ModelTierModel := {|
  tm_id := id; tm_backend_ref := backend; tm_max_context_tokens := ctx; tm_use_for := ["test"];
  tm_fast_path_threshold_tokens := None |}.
Definition sample_cost (t : EnumTierCostType) (rate : float) : ModelTierCost := {|
  tc_cost_type := t; tc_rate_per_1k_usd := rate; tc_monthly_cap_usd := None; tc_overage_rate_per_1k_usd := fzero |}.
Definition sample_tiers : list ModelRoutingTier := [
  {| rt_name := "local"; rt_models := [sample_model "qwen" "b-a" 4000; sample_model "deep" "b-b" 4000];
     rt_eval_before_accept := false; rt_eval_model := None; rt_max_retries := 1; rt_cost_per_1k_tokens := fzero;
     rt_cost := Some (sample_cost FREE_LOCAL fzero) |};
  {| rt_name := "cheap_cloud"; rt_models := [sample_model "glm" "b-c" 20];
     rt_eval_before_accept := false; rt_eval_model := None; rt_max_retries := 0; rt_cost_per_1k_tokens := lit "0.002";
     rt_cost := Some (sample_cost METERED (lit "0.002")) |}].
Definition sample_backend (id : string) : BifrostBackendConfig := {|
  bc_backend_id := id; bc_endpoint_url := Some ("http://" +:+ id); bc_model_name := Some id; bc_timeout_ms := 30000;
  bc_max_tokens := 1024; bc_resolved_secret_ref := None; bc_extra_headers := None; bc_api_key_env := None |}.
Definition sample_contract : Obj := [
  ("task_classes", JObj [("test", JObj [
     ("escalation_policy", JObj [("tier_order", JArr [JStr "local"; JStr "cheap_cloud"])]);
     ("cloud_routing_policy", JStr "allowed");
     ("quality_gate", JObj [("required_bar", JFloat "0.85");
        ("request_override_bounds", JObj [("min", JFloat "0.5"); ("max", JFloat "1.0")])])])])].
Definition sample_env : RoutingEnv := {|
  re_tiers := Ok sample_tiers;
  re_bifrost := Ok (map sample_backend ["b-a"; "b-b"; "b-c"]);
  re_contract := Some sample_contract;
  re_allow_paid := "1";
  re_api_key_ref_available := fun _ _ => true;
  re_uuid5 := fun s => s |}.
Definition sample_world : World := {|
  w_routing := sample_env;
  w_pricing_tiers := sample_tiers;
  w_pricing_entry := fun _ => None;
  w_protocol := Ok {| pg_schema_version := "1"; pg_profiles := [] |};
  w_json_schema := fun _ => [];
  w_time_ns := fun l => 1000000 * Z.of_nat (length l);
  w_now := fun l => Z.of_nat (length l);
  w_onex_tenant_id := fun _ => "";
  w_routing_tiers_file := None;
  w_lifecycle_value := fun _ => "";
  w_intent_has_provider_options := true;
  w_intent_has_tenant_id := true;
  w_routing_intent_has_exclusions := true |}.

Definition sample_request (prompt : string) : ModelDelegationRequest := {|
  rq_correlation_id := "c1"; rq_task_type := "test"; rq_prompt := prompt; rq_context_pack := None;
  rq_context_pack_hash := None; rq_output_schema_key := None; rq_compliance_budget := None;
  rq_quality_contract_mode := "strict"; rq_acceptance_criteria := []; rq_tenant_id := None |}.
Definition sample_response (error : string) : ModelInferenceResponseData := {|
  ir_correlation_id := "c1"; ir_content := "def test(): pass"; ir_model_used := "qwen"; ir_llm_call_id := "call";
  ir_latency_ms := 5; ir_prompt_tokens := 12; ir_completion_tokens := 30; ir_total_tokens := 42;
  ir_error_message := error; ir_tenant_id := None |}.
Definition sample_gate (passed : bool) (score : float) : ModelQualityGateResult := {|
  gr_correlation_id := "c1"; gr_passed := passed; gr_fail_category := if passed then GatePass else GateFailHeuristic;
  gr_quality_score := score; gr_failure_reasons := []; gr_fallback_recommended := negb passed;
  gr_score_source := SCORE_SOURCE_COMBINED |}.

(** The router's answers to the intents among [outs]. *)
Definition route_answers (env : RoutingEnv) (outs : list DelegationOutput) : list DelegationWorkflowInput :=
  omap (fun o => match o with
                 | OutRouting i => match handle_routing_intent env i with Ok d => Some (InDecision d) | Raise _ => None end
                 | _ => None
                 end) outs.

(** A delegation up to its first decision, with one answer and with failing ones. *)
Definition sample_prompt : string := "Write a test".
Definition sample_start : list DelegationWorkflowInput :=
  InRequest (sample_request sample_prompt)
  :: route_answers sample_env [mk_routing_intent (sample_request sample_prompt) None []].
Definition sample_answered : list DelegationWorkflowInput := sample_start ++ [InResponse (sample_response "")].

Lemma sample_configured : configured sample_world.
Proof.
  constructor.
  - exists sample_tiers. split; [done|]. intros t. cbn [w_routing sample_world re_contract sample_env].
    destruct (decide ("test" = t)) as [<-|Hne]; [vm_compute; by eexists|].
    unfold _task_class_entry, sample_contract, get_obj. cbn -[String.eqb]. rewrite String.eqb_refl. cbn -[String.eqb].
    apply String.eqb_neq in Hne as ->. by eexists.
  - vm_compute. by eexists.
  - repeat constructor; vm_compute; done.
  - by eexists.
Qed.
Lemma route_answers_ok env outs : Forall input_ok (route_answers env outs).
Proof.
  apply Forall_forall. intros i (o & _ & Ho)%list_elem_of_omap. destruct o as [r| | | | | |]; try discriminate Ho.
  destruct (handle_routing_intent env r); [|discriminate Ho]. injection Ho as <-. exact I.
Qed.
Lemma sample_start_ok : Forall input_ok sample_start.
Proof. constructor; [exact I|apply route_answers_ok]. Qed.
Lemma sample_response_ok error : input_ok (InResponse (sample_response error)).
Proof. repeat split; vm_compute; done. Qed.

(** A row store for the sample: texts that name the state, objects numbered past
    those the cache holds. *)
Definition sample_dump (w : DelegationWorkflowState) : string :=
  json_dumps (JObj [("state", JStr (if wf_inference_intent_in_flight w then "ROUTED" else "RECEIVED"))]).
Definition sample_states : list DelegationWorkflowState :=
  omap (fun n => (run_of sample_world (take n sample_start)).1.1 !! "c1") [1%nat; 2%nat].
Definition sample_validate (text : string) : result DelegationWorkflowState :=
  match List.find (fun w => String.eqb (sample_dump w) text) sample_states with
  | Some w => Ok w
  | None => Raise (ValueError "no such state")
  end.
Definition entry_id (e : string * (option StrObj * DelegationWorkflowState)) : nat :=
  match e.2.1 with Some o => so_id o | None => 0 end.
Definition sample_bind (db : gmap string string) (cache : Cache) : Rows :=
  (fun text => (Some {| so_id := S (sum_list_with entry_id (map_to_list cache)); so_text := text |}, 0)) <$> db.
Lemma sample_bind_reads db cache : reads db cache (sample_bind db cache).
Proof.
  intros cid. unfold bound_payload, sample_bind. rewrite lookup_fmap. destruct (db !! cid) as [text|]; cbn; [|done].
  eexists. split; [done|]. split; [done|]. intros [o|] w Hc; [|done]. cbn. apply Nat.eqb_neq.
  apply elem_of_map_to_list in Hc. apply (sum_list_with_in _ entry_id) in Hc. unfold entry_id at 1 in Hc. cbn in Hc. lia.
Qed.
Lemma sample_states_read_back n cid w :
  (run_of sample_world (take n sample_start)).1.1 !! cid = Some w -> adapter_reads_back sample_dump sample_validate w.
Proof.
  assert (forall w, w ∈ sample_states -> adapter_reads_back sample_dump sample_validate w) as Hs.
  { intros w' Hw. constructor. eexists. split; [|split; [|split]].
    - apply loads_dumps. by destruct (wf_inference_intent_in_flight w').
    - by destruct (wf_inference_intent_in_flight w').
    - done.
    - change (sample_validate (sample_dump w') = Ok w').
      assert (map wf_inference_intent_in_flight sample_states = [false; true]) as E by (by vm_compute).
      unfold sample_validate. revert E Hw. generalize sample_states as ws. intros [|w1 [|w2 [|]]] E; try done. injection E as E1 E2.
      unfold sample_dump. cbn [List.find].
      intros [->|[->|[]%not_elem_of_nil]%elem_of_cons]%elem_of_cons; rewrite ?E1, ?E2; done. }
  intros Hw. apply Hs. apply elem_of_map_to_list, (list_elem_of_fmap_2 snd) in Hw. cbn [snd] in Hw.
  destruct n as [|[|n]].
  - by apply not_elem_of_nil in Hw.
  - assert (snd <$> map_to_list (run_of sample_world (take 1 sample_start)).1.1 = take 1 sample_states) as E by (by vm_compute).
    rewrite E in Hw. apply elem_of_take in Hw as (k & Hk & _). exact (list_elem_of_lookup_2 _ _ _ Hk).
  - rewrite take_ge in Hw by (vm_compute; lia).
    assert (snd <$> map_to_list (run_of sample_world sample_start).1.1 = drop 1 sample_states) as E by (by vm_compute).
    rewrite E in Hw. rewrite <- (take_drop 1 sample_states). apply elem_of_app. right. exact Hw.
Qed.

(** ** The orchestrator *)

(** C3. The orchestrator, its workflows kept in rows, implements the abstract
    delegation: whatever the world answers and whatever is delivered in whatever
    order, the abstract machine, fed exactly those events of a correlation id whose
    dispatch returned, emits what the run emits for it and ends in the state of its
    stored workflow.  In a configured world, on admissible inputs, those are all
    the events, and the workflows kept in a dict behave alike. *)
Theorem orchestrator_refines world inputs cid :
  aexec absent (labels_of cid (handled world (∅, []) inputs)) (map kind_of (outputs_of cid (run_of world inputs).2))
    (abs_at (run_of world inputs).1.1 cid)
  /\ (configured world -> Forall input_ok inputs ->
       handled world (∅, []) inputs = inputs /\ dict_run_of world inputs = run_of world inputs).
Proof.
  split; [exact (run_refines world inputs cid)|]. intros Hc Hin. split; [by apply configured_handled|by apply configured_dict].
Qed.

(** C33. A delegation ends at most once, and once it ended nothing is emitted for
    it any more, whatever is delivered afterwards. *)
Theorem delegation_ends_once world inputs later cid :
  (count is_end (map kind_of (outputs_of cid (run_of world (inputs ++ later)).2)) <= 1)%nat
  /\ (finished (a_phase (abs_at (run_of world inputs).1.1 cid)) = true ->
       outputs_of cid (run_of world (inputs ++ later)).2 = outputs_of cid (run_of world inputs).2
       /\ abs_at (run_of world (inputs ++ later)).1.1 cid = abs_at (run_of world inputs).1.1 cid).
Proof.
  split.
  - eapply one_end, run_refines.
  - intros Hf. pose proof (run_reaches world inputs) as Hs. unfold run_of in *. rewrite run_app.
    destruct (@run _ _ _ (commit world) (∅, []) inputs) as [s outs]. cbn [fst snd] in *.
    destruct (run_from_refines world True True (fun H => H) later s Hs) as [_ H].
    { apply Forall_true. by right. }
    specialize (H cid) as He. apply finished_is_final in He as [Hk Ha]; [|done].
    destruct (@run _ _ _ (commit world) s later) as [s' outs']. cbn [fst snd] in *.
    rewrite outputs_of_app, Ha. apply map_eq_nil in Hk. by rewrite Hk, app_nil_r.
Qed.

(** A delegation escalates at most twice, and starts an inference only after
    a response to the one before: its effort is bounded by what it was answered. *)
Theorem delegation_effort_bounded world inputs cid :
  let kinds := map kind_of (outputs_of cid (run_of world inputs).2) in
  (count is_escalation kinds <= 2)%nat
  /\ (count is_inference kinds <= 1 + count is_response (labels_of cid inputs))%nat.
Proof.
  pose proof (run_refines world inputs cid) as H. cbn zeta. split.
  - by eapply escalations_bounded.
  - etrans; [by eapply one_inference_in_flight|]. apply le_n_S, count_sublist, labels_sublist, handled_sublist.
Qed.

(** C34. In a configured world no awaited event is lost: its dispatch does not
    raise, and answers with an output, but for the report that a remote task is
    executing, which moves the delegation. *)
Theorem delegation_responsive world inputs i L : configured world -> Forall input_ok (inputs ++ [i]) -> label_of i = Some L ->
  let s := (run_of world inputs).1 in
  expects (a_phase (abs_at s.1 (input_cid i))) L = true ->
  is_ok (handle world i s).2
  /\ ((commit world s i).2 <> []
      \/ L = LLifecycle /\ a_phase (abs_at (commit world s i).1.1 (input_cid i)) = Executing).
Proof.
  intros Hc [Hin [Hi _]%Forall_cons_1]%Forall_app HL s He.
  destruct (configured_step world Hc inputs i L Hin Hi HL) as [_ _ Hst _]. fold s in Hst.
  apply expected_answered in Hst; [|done].
  assert ((commit world s i).2 <> [] \/ L = LLifecycle /\ a_phase (abs_at (commit world s i).1.1 (input_cid i)) = Executing) as Hout.
  { destruct Hst as [Hne|?]; [left|by right]. intros Hnil. by rewrite Hnil in Hne. }
  split; [|exact Hout]. unfold commit in Hout. destruct (handle world i s) as [s' [outs|x]]; [by eexists|].
  destruct Hout as [?|[-> Hp]]; [done|]. cbn in Hp. by rewrite Hp in He.
Qed.
(** The response to the first inference: it is awaited, and answered. *)
Lemma delegation_responsive_witness :
  let s := (run_of sample_world sample_start).1 in let i := InResponse (sample_response "") in
  is_ok (handle sample_world i s).2
  /\ ((commit sample_world s i).2 <> []
      \/ LResponse = LLifecycle /\ a_phase (abs_at (commit sample_world s i).1.1 (input_cid i)) = Executing).
Proof.
  apply (delegation_responsive sample_world sample_start (InResponse (sample_response "")) LResponse sample_configured).
  - apply Forall_app. split; [exact sample_start_ok|]. constructor; [apply sample_response_ok|constructor].
  - reflexivity.
  - vm_compute. reflexivity.
Defined.

(** C4. Nothing completes a delegation but a gate result that passed, without a
    deterministic failure, at a score not below the bar of its task class (or
    under deterministic acceptance), or a remote agent's completion. *)
Theorem completed_is_accepted world inputs i r :
  OutCompleted r ∈ (commit world (run_of world inputs).1 i).2 ->
  (exists gate, i = InGate gate /\ accepted world gate r)
  \/ (exists e, i = InLifecycle e /\ next_state_from_lifecycle (le_lifecycle_type e) = WfState.COMPLETED).
Proof. exact (completed_needs world inputs i r). Qed.
Lemma completed_is_accepted_witness : exists r,
  (exists gate, InGate (sample_gate true (lit "0.9")) = InGate gate /\ accepted sample_world gate r)
  \/ (exists e, InGate (sample_gate true (lit "0.9")) = InLifecycle e
       /\ next_state_from_lifecycle (le_lifecycle_type e) = WfState.COMPLETED).
Proof.
  eexists. apply (completed_is_accepted sample_world sample_answered).
  vm_compute. left.
Defined.

(** C7. The terminal a response or a gate result ends a delegation with bills every
    attempt once: its history is the recorded one and at most the attempt reported,
    its cumulative tokens and cost are those of the recorded attempts and of its own;
    the terminal of a remote agent bills no recorded attempt, only itself.  Either
    way its total is the sum of its parts. *)
Theorem terminal_bills_each_attempt world inputs i o : Forall input_ok (inputs ++ [i]) ->
  o ∈ (commit world (run_of world inputs).1 i).2 ->
  match o with
  | OutCompleted r | OutFailed r =>
      dr_total_tokens r = dr_prompt_tokens r + dr_completion_tokens r
      /\ billed (match i with InLifecycle _ => [] | _ => history_at (run_of world inputs).1.1 (input_cid i) end) r
  | _ => True
  end.
Proof.
  intros [Hin [Hi _]%Forall_cons_1]%Forall_app Ho. destruct (label_of i) as [L|] eqn:EL; [|by destruct i].
  destruct (commit_post world True False (fun _ => I) (run_of world inputs).1 i L) as [[_ [_ Hout _ _]]|(_ & _ & Hnil & _)];
    [by apply run_reaches_ok|by left|done| |by rewrite Hnil in Ho; apply not_elem_of_nil in Ho].
  rewrite Forall_forall in Hout. destruct (Hout o Ho) as [_ Hend]. unfold end_ok in Hend.
  destruct o; try done; destruct Hend as [? [[]|Hb]]; (split; [done|]); by destruct i; cbn in EL; simplify_eq.
Qed.
(** One accepted attempt. *)
Lemma terminal_bills_each_attempt_witness : exists r,
  dr_total_tokens r = dr_prompt_tokens r + dr_completion_tokens r
  /\ billed (history_at (run_of sample_world sample_answered).1.1 "c1") r.
Proof.
  eexists. refine (terminal_bills_each_attempt sample_world sample_answered (InGate (sample_gate true (lit "0.9"))) (OutCompleted _) _ _).
  - apply Forall_app. split; [|by constructor]. apply Forall_app. split; [exact sample_start_ok|].
    constructor; [apply sample_response_ok|constructor].
  - vm_compute. left.
Defined.

(** C38. The workflows kept in rows stay well formed: each is under its own
    correlation id, its fields are what its state's handler relies on, its counters
    are in range and its running totals are those of its history, all of it but the
    last attempt of a delegation that failed on it.  In a configured world the same
    holds of the workflows kept in a dict. *)
Theorem workflows_well_formed world inputs : Forall input_ok inputs ->
  SInv False (run_of world inputs).1.1 /\ (configured world -> SInv False (dict_run_of world inputs).1.1).
Proof.
  intros Hin. pose proof (run_reaches_ok world inputs Hin). split; [done|]. intros Hc. by rewrite configured_dict.
Qed.
Lemma workflows_well_formed_witness : SInv False (run_of sample_world sample_answered).1.1
  /\ (configured sample_world -> SInv False (dict_run_of sample_world sample_answered).1.1).
Proof.
  apply (workflows_well_formed sample_world). apply Forall_app. split; [exact sample_start_ok|].
  constructor; [apply sample_response_ok|constructor].
Defined.

(** The escalation verdict: an escalation names its target, is allowed only
    for a retryable failure below the limit with a known tier, and a refusal
    says why, by the first of the conditions that fails. *)
Theorem escalation_verdict request v : decide_escalation request = Ok v -> verdict_spec request v.
Proof. exact (decide_escalation_spec request v). Qed.
Lemma escalation_verdict_witness :
  let request := {| dq_escalation_count := 2; dq_max_escalation_attempts := 2; dq_current_tier_name := Some "local";
    dq_error_retryable := true; dq_next_tier_name := Some "cheap_cloud"; dq_non_retryable_reason := "";
    dq_no_higher_tier_reason := None |} in
  exists v, decide_escalation request = Ok v /\ verdict_spec request v.
Proof. eexists. split; [vm_compute; reflexivity|]. apply escalation_verdict. vm_compute. reflexivity. Defined.

(** ** The router *)

(** C39. A routing decision made without measured outcomes names a tier of the
    registry that the contract allows and that offers its model: declared there,
    serving the task class or, when no backend is excluded, pinned for it by the
    contract, reachable, its key available, not excluded, its context wide enough
    for the prompt; and every tier before it on the walk was disallowed or had no
    such model. *)
Theorem routing_decision_sound env req min ex d : delta env req min None ex = Ok d ->
  let contract := _get_task_class_contract env in
  let entry := _task_class_entry contract (rq_task_type req) in
  let pin := _get_contract_model_ref (rq_task_type req) contract in
  exists config refs tiers pre u post,
    _get_config env = Ok config /\ _load_bifrost_endpoints env = Ok refs /\ _tier_order_from_contract config entry = Ok tiers
    /\ walk min tiers = pre ++ u :: post /\ u ∈ config /\ offers env req ex refs entry pin u d
    /\ Forall (fun u => _tier_allowed_by_contract env u entry = true ->
         _select_model_for_task env (rq_task_type req) (_estimate_prompt_tokens (rq_prompt req)) refs ex (rt_models u) pin = None) pre
    /\ (fgt (rt_cost_per_1k_tokens u) fzero = true -> _paid_escalation_allowed env = true)
    /\ (entry = None -> rt_name u = "local").
Proof.
  intros Hd. destruct (delta_sound env req min ex d Hd) as (config & refs & tiers & pre & u & post & H1 & H2 & H3 & H4 & H5 & H6 & H7).
  exists config, refs, tiers, pre, u, post. destruct (allowed_spec env u _ (of_allowed _ _ _ _ _ _ _ _ H6)) as (? & ? & _). auto 10.
Qed.
Lemma routing_decision_sound_witness :
  let req := sample_request sample_prompt in
  let contract := _get_task_class_contract sample_env in
  let entry := _task_class_entry contract "test" in
  let pin := _get_contract_model_ref "test" contract in
  exists d config refs tiers pre u post,
    _get_config sample_env = Ok config /\ _load_bifrost_endpoints sample_env = Ok refs /\ _tier_order_from_contract config entry = Ok tiers
    /\ walk (Some "cheap_cloud") tiers = pre ++ u :: post /\ u ∈ config /\ offers sample_env req [] refs entry pin u d
    /\ Forall (fun u => _tier_allowed_by_contract sample_env u entry = true ->
         _select_model_for_task sample_env "test" (_estimate_prompt_tokens (rq_prompt req)) refs [] (rt_models u) pin = None) pre
    /\ (fgt (rt_cost_per_1k_tokens u) fzero = true -> _paid_escalation_allowed sample_env = true)
    /\ (entry = None -> rt_name u = "local").
Proof. eexists. apply (routing_decision_sound sample_env (sample_request sample_prompt) (Some "cheap_cloud") []). vm_compute. reflexivity. Defined.

(** An escalation goes up: its target comes after the current tier on the
    ladder of the task class, is another tier, was not excluded, and can route
    the task, whatever tiers the measured outcomes suppress. *)
Theorem escalation_goes_up env cur ex t overlay n : next_eligible_tier env cur ex (Some t) overlay = Ok (Some n) ->
  exists config refs tiers pre c mid u post,
    _get_config env = Ok config /\ _load_bifrost_endpoints env = Ok refs
    /\ _tier_order_from_contract config (_task_class_entry (_get_task_class_contract env) t) = Ok tiers
    /\ tiers = pre ++ c :: mid ++ u :: post /\ rt_name c = cur /\ rt_name u = n /\ n <> cur
    /\ ¬ n ∈ ex /\ _tier_can_route_task env u t refs (_get_task_class_contract env) = true.
Proof. exact (next_tier_sound env cur ex t overlay n). Qed.
Lemma escalation_goes_up_witness :
  exists config refs tiers pre c mid u post,
    _get_config sample_env = Ok config /\ _load_bifrost_endpoints sample_env = Ok refs
    /\ _tier_order_from_contract config (_task_class_entry (_get_task_class_contract sample_env) "test") = Ok tiers
    /\ tiers = pre ++ c :: mid ++ u :: post /\ rt_name c = "local" /\ rt_name u = "cheap_cloud" /\ "cheap_cloud" <> "local"
    /\ ¬ "cheap_cloud" ∈ ([] : list string) /\ _tier_can_route_task sample_env u "test" refs (_get_task_class_contract sample_env) = true.
Proof. apply (escalation_goes_up sample_env "local" [] "test" None "cheap_cloud"). vm_compute. reflexivity. Defined.

(** The probe and the router agree: on ladders with distinct names, a request
    whose prompt every model takes is routed to exactly the tier the escalation
    chose. *)
Theorem escalation_lands_on_target env req cur ex n config :
  next_eligible_tier env cur ex (Some (rq_task_type req)) None = Ok (Some n) ->
  _get_config env = Ok config ->
  (forall tiers, _tier_order_from_contract config (_task_class_entry (_get_task_class_contract env) (rq_task_type req)) = Ok tiers ->
     NoDup (map rt_name tiers)) ->
  Forall (fun u => Forall (fun m => _estimate_prompt_tokens (rq_prompt req) <= tm_max_context_tokens m) (rt_models u)) config ->
  exists d, delta env req (Some n) None [] = Ok d /\ rd_tier_name d = n.
Proof. exact (escalation_lands env req cur ex n config). Qed.
Lemma escalation_lands_on_target_witness :
  exists d, delta sample_env (sample_request sample_prompt) (Some "cheap_cloud") None [] = Ok d /\ rd_tier_name d = "cheap_cloud".
Proof.
  apply (escalation_lands_on_target sample_env (sample_request sample_prompt) "local" [] "cheap_cloud" sample_tiers).
  - vm_compute. reflexivity.
  - reflexivity.
  - intros tiers [= <-]. refine (bool_decide_eq_true_1 (NoDup ["local"; "cheap_cloud"]) _). vm_compute. reflexivity.
  - repeat constructor; vm_compute; discriminate.
Defined.

(** ** Schema compliance *)

(** The compliance loop answers for every admissible budget; the candidate is
    passed on only if it meets the schema, and a repair is asked for exactly when
    it does not and the budget allows another attempt. *)
Theorem compliance_verdict schema candidate key prompt n cumulative attempt b prio run : limits_ok b ->
  exists r, evaluate schema candidate key prompt n cumulative attempt b fzero fzero prio run = Ok r
  /\ cl_tokens_to_compliance r = cumulative + attempt /\ cl_compliance_attempts r = n
  /\ (cl_compliant r = true <-> exists target, _get_schema schema key = Some target /\ _validate_against_schema candidate target = [])
  /\ (cl_compliant r = true -> cl_validated_output r = candidate /\ cl_repair_prompt r = "")
  /\ (cl_repair_prompt r <> "" <-> cl_compliant r = false /\ cl_budget_action r <> ABORT).
Proof.
  intros Hb. destruct (evaluate_ok schema candidate key prompt n cumulative attempt b prio run Hb) as [r Hr].
  exists r. split; [done|]. by apply evaluate_cases in Hr.
Qed.
Lemma compliance_verdict_witness :
  let b := {| bl_max_tokens := 1000; bl_max_cost_usd := fone; bl_max_time_s := fone |} in
  exists r, evaluate (fun _ => []) "not json" "k" "p" 1 0 10 b fzero fzero NORMAL "run" = Ok r
  /\ cl_tokens_to_compliance r = 0 + 10 /\ cl_compliance_attempts r = 1
  /\ (cl_compliant r = true <-> exists target, _get_schema (fun _ => []) "k" = Some target /\ _validate_against_schema "not json" target = [])
  /\ (cl_compliant r = true -> cl_validated_output r = "not json" /\ cl_repair_prompt r = "")
  /\ (cl_repair_prompt r <> "" <-> cl_compliant r = false /\ cl_budget_action r <> ABORT).
Proof. apply compliance_verdict. repeat split; [discriminate|vm_compute; by eexists|vm_compute; by eexists]. Defined.

(** ** The durable store *)

(** Encoding a workflow and decoding the row gives the workflow back, and the
    row carries the in-flight flag the staleness sweep reads. *)
Theorem state_codec_roundtrip dump_json validate_json s : adapter_reads_back dump_json validate_json s ->
  exists text o, encode dump_json s = Ok text /\ decode validate_json text = Ok s
    /\ json_loads text = Ok (JObj o) /\ dict_get _IN_FLIGHT_KEY o = Some (JBool (wf_inference_intent_in_flight s)).
Proof. exact (encode_decode dump_json validate_json s). Qed.
Lemma state_codec_roundtrip_witness : exists w text o, encode sample_dump w = Ok text /\ decode sample_validate text = Ok w
    /\ json_loads text = Ok (JObj o) /\ dict_get _IN_FLIGHT_KEY o = Some (JBool (wf_inference_intent_in_flight w)).
Proof.
  destruct ((run_of sample_world (take 2 sample_start)).1.1 !! "c1") as [w|] eqn:E; [|vm_compute in E; discriminate E].
  exists w. apply (state_codec_roundtrip sample_dump sample_validate w). exact (sample_states_read_back 2 "c1" w E).
Defined.

(** C8. Workflows kept in rows, bound before each dispatch and flushed after it,
    answer every sequence of inputs as the dict of one process does, as long as no
    dispatch raises: the same outputs, the same reads, and rows that decode to the
    dict.  A dispatch that raises leaves the rows, unlike the dict, as they were. *)
Theorem durable_equals_dict dump_json validate_json world bind inputs :
  (forall db cache, reads db cache (bind db cache)) ->
  (forall n cid w, (run_of world (take n inputs)).1.1 !! cid = Some w -> adapter_reads_back dump_json validate_json w) ->
  let a := @run _ _ _ (durable_dispatch dump_json validate_json world bind) ({| du_db := ∅; du_cache := ∅ |}, []) inputs in
  let same b := a.2 = b.2 /\ a.1.2 = b.1.2 /\ Stored validate_json a.1.1 b.1.1 in
  (handled world (∅, []) inputs = inputs -> same (dict_run_of world inputs)) /\ same (run_of world inputs).
Proof.
  intros Hb Had a same. assert (same (run_of world inputs)) as Hs.
  { destruct (durable_run dump_json validate_json world bind Hb inputs _ [] ∅ (Stored_empty validate_json) Had) as (? & ? & ?). done. }
  split; [|exact Hs]. intros Hh. unfold dict_run_of. by rewrite in_place_agrees.
Qed.
Lemma durable_equals_dict_witness :
  let a := @run _ _ _ (durable_dispatch sample_dump sample_validate sample_world sample_bind)
    ({| du_db := ∅; du_cache := ∅ |}, []) sample_start in
  let b := dict_run_of sample_world sample_start in
  a.2 = b.2 /\ a.1.2 = b.1.2 /\ Stored sample_validate a.1.1 b.1.1.
Proof.
  exact (proj1 (durable_equals_dict _ _ sample_world sample_bind sample_start sample_bind_reads sample_states_read_back)
    (configured_handled sample_world sample_configured sample_start sample_start_ok)).
Defined.

(** ** What the handlers do not promise *)

(** The escalation probe asks for a model that takes a prompt of no tokens, the
    router for one that takes the prompt: a long prompt is escalated to a tier
    that cannot take it, and the re-routing raises. *)
Definition long_prompt : string := py_join " " (repeat "word" 60).
Remark escalation_strands_long_prompts :
  next_eligible_tier sample_env "local" [] (Some "test") None = Ok (Some "cheap_cloud")
  /\ (forall d, delta sample_env (sample_request long_prompt) (Some "cheap_cloud") None [] <> Ok d).
Proof. split; [vm_compute; reflexivity|]. intros d. vm_compute. discriminate. Qed.

(** An error response delivered twice: once the delegation was routed anew, the
    duplicate fails the attempt that is under way, and escalates. *)
Definition sample_error : DelegationWorkflowInput := InResponse (sample_response "connection reset by peer").
Definition sample_rerouted : list DelegationWorkflowInput :=
  sample_start ++ [sample_error]
  ++ route_answers sample_env (commit sample_world (run_of sample_world sample_start).1 sample_error).2.
Remark duplicate_error_fails_the_new_attempt :
  map kind_of (run_of sample_world sample_rerouted).2 = [KRouting; KInference; KRouting; KInference]
  /\ map kind_of (commit sample_world (run_of sample_world sample_rerouted).1 sample_error).2 = [KRouting; KEscalation].
Proof. split; vm_compute; reflexivity. Qed.
