(* ===== verification/QualityChecks.v ===== *)
(** * Delegation quality gate: the checks

    The definition-of-done checks of
    [nodes/node_delegation_quality_gate_reducer/handlers/handler_quality_gate.py]:
    each looks at a model's answer and returns the reason it fails, or nothing.
    Python's and YAML's parsers are arguments; JSON's is the one of [PyJson]. *)
From S2P Require Import Prelude PyJson PyRegex.

(** ** Patterns *)

Definition chr (n : nat) : ascii := ascii_of_nat n.
Definition rseq (l : list re) : re := foldr Cat Eps l.
Fixpoint ralt (l : list re) : re :=
  match l with [] => Cls (fun _ => false) | [r] => r | r :: l => Alt r (ralt l) end.
Definition rchar (c : ascii) : re := Cls (Ascii.eqb c).
Definition rlit (s : string) : re := rseq (map rchar (los s)).
(** Lower-case text under [(?i)]. *)
Definition rlit_i (s : string) : re := rseq (map (fun c => Cls (fun x => Ascii.eqb c (py_lower_ascii x))) (los s)).
Definition rany : re := Cls (fun _ => true).
Definition rspace : re := Cls py_isspace.
Definition rnonspace : re := Cls (fun c => negb (py_isspace c)).
Definition rdigit : re := Cls py_isdigit.
Definition is_letter (c : ascii) : bool :=
  let n := nat_of_ascii c in (Nat.leb 65 n && Nat.leb n 90) || (Nat.leb 97 n && Nat.leb n 122).
Definition one_of (s : string) : ascii -> bool := fun c => existsb (Ascii.eqb c) (los s).
Definition rstar : re -> re := Star true.
Definition rplus (r : re) : re := Cat r (Star true r).
Definition ropt (r : re) : re := Alt r Eps.

Definition MAX_WORDS_PER_SENTENCE_RE : re :=
  rseq [AtStart; rlit "max_words_per_sentence_"; Grp (Cat (Cls (fun c => py_isdigit c && negb (Ascii.eqb c "0"))) (rstar rdigit)); AtEnd].
Definition _MIN_LENGTH_CHECK_RE : re := rseq [AtStart; rlit "min_length_chars_"; Grp (rplus rdigit); AtEnd].

Definition _LINE_CITATION_RE : re := ralt
  [rseq [Bound; rlit_i "line"; rplus rspace; rplus rdigit; Bound];
   rseq [Bound; rlit_i "lines"; rplus rspace; rplus rdigit; ropt (rseq [rchar "-"; rplus rdigit]); Bound];
   rseq [Bound; rlit_i "l"; rplus rdigit; Bound];
   rseq [rchar ":"; Cls (fun c => py_isdigit c && negb (Ascii.eqb c "0")); rstar rdigit]].

Definition author_name : re := Cat (Cls is_letter) (rplus (Cls (fun c => is_letter c || one_of ".'-" c))).
Definition _SOURCE_CITATION_RE : re := ralt
  [rseq [Bound; rlit_i "reference"; ropt (rlit_i "s"); Bound];
   rseq [Bound; rlit_i "citation"; ropt (rlit_i "s"); Bound];
   rseq [Bound; rlit_i "bibliograph"];
   rseq [Bound; rlit_i "source"; ropt (rlit_i "s"); Bound];
   rseq [Bound; rlit_i "see"; rplus rspace; ralt (map rlit_i ["also"; "section"; "chapter"; "appendix"; "figure"; "table"; "eq"])];
   rseq [Bound; rlit_i "according"; rplus rspace; rlit_i "to"; Bound];
   rseq [Bound; rlit_i "as"; rplus rspace; rlit_i "shown"; rplus rspace; rlit_i "in"; Bound];
   rseq [Bound; rlit_i "cf"; rchar "."; rspace];
   rseq [Bound; rlit_i "per"; rplus rspace; rchar "["];
   rseq [Bound; ralt (map rlit_i ["theorem"; "lemma"; "corollary"; "proposition"; "proof"; "equation"; "figure";
     "table"; "appendix"; "chapter"; "section"; "page"]); rplus rspace; rdigit];
   rseq [rchar "["; rstar rspace; rplus rdigit; rstar rspace; rchar "]"];
   rseq [rchar "("; rstar rspace; author_name;
     ropt (rseq [rplus rspace; ralt [rseq [rlit_i "et"; rplus rspace; rlit_i "al"; ropt (rchar ".")]; rlit_i "and"; rchar "&"];
       rplus rspace; author_name]);
     rstar rspace; ropt (rchar ","); rstar rspace; rdigit; rdigit; rdigit; rdigit; ropt (Cls is_letter); rstar rspace; rchar ")"];
   rseq [rlit_i "http"; ropt (rlit_i "s"); rlit "://"; rnonspace];
   rseq [Bound; rlit_i "doi"; rchar ":"; rstar rspace; rnonspace]].

Definition _SENTENCE_RE : re := Cat (rplus (Cls (fun c => negb (one_of ".!?" c)))) (Cls (one_of ".!?")).
Definition _THINKING_TRACE_RE : re := rseq [rlit "<think>"; Star false rany; rlit "</think>"; rstar rspace].
Definition _LEADING_ERROR_RE : re := rseq [NotAfter is_letter; rlit_i "error"; rstar rspace; rchar ":"].

Definition cr : ascii := chr 13.
Definition lf : ascii := chr 10.
Definition in_line : re := Cls (fun c => negb (Ascii.eqb c cr) && negb (Ascii.eqb c lf)).
Definition fence : string := "```".
Definition _MARKDOWN_FENCE_RE : re :=
  rseq [rlit fence; rstar in_line; ropt (rchar cr); rchar lf; Grp (Star false rany); rlit fence].
Definition _MARKDOWN_FENCE_WITH_LANG_RE : re :=
  rseq [rlit fence; Grp (rstar (Cls (fun c => is_letter c || py_isdigit c || one_of "_-" c))); rstar in_line; ropt (rchar cr);
    rchar lf; Grp (Star false rany); rlit fence].

(** [re.match(r, s).group(1)] and [int] of it: Python refuses more than 4300 digits. *)
Definition match_group (r : re) (s : string) : option string := m ← re_match r s; sol <$> last (p_groups m).
Definition int_of_digits (d : string) : result Z :=
  if Nat.ltb 4300 (String.length d)
  then Raise (ValueError ("Exceeds the limit (4300 digits) for integer string conversion: value has "
                          +:+ pretty (String.length d) +:+ " digits; use sys.set_int_max_str_digits() to increase the limit"))
  else py_int d.

(** ** More of [str] *)

Definition py_lstrip (s : string) : string := sol (drop_space (los s)).
Definition py_rstrip (s : string) : string := sol (rev (drop_space (rev (los s)))).
Fixpoint drop_while (p : ascii -> bool) (l : chars) : chars :=
  match l with c :: l' => if p c then drop_while p l' else l | [] => [] end.
(** [s.strip(cs)] *)
Definition strip_chars (cs : chars) (s : string) : string :=
  let p c := existsb (Ascii.eqb c) cs in sol (rev (drop_while p (rev (drop_while p (los s))))).
(** [s.split()] *)
Fixpoint split_from (l : chars) (word : chars) : list string :=
  let flush := match word with [] => [] | _ => [sol (rev word)] end in
  match l with
  | [] => flush
  | c :: l' => if py_isspace c then flush ++ split_from l' [] else split_from l' (c :: word)
  end.
Definition py_words (s : string) : list string := split_from (los s) [].
(** [s[:n]] and the last character. *)
Definition prefix_of (n : nat) (s : string) : string := sol (take n (los s)).
Definition last_char (s : string) : option ascii := last (los s).
Definition ends_in (cs : chars) (s : string) : bool :=
  match last_char s with Some c => existsb (Ascii.eqb c) cs | None => false end.
Definition py_len (s : string) : Z := Z.of_nat (String.length s).
Definition triple (q : ascii) : string := String q (String q (String q "")).

(** ** Word lists of the checks *)

Definition _REFUSAL_PHRASES : list string :=
  ["i cannot"; "i'm sorry"; "as an ai"; "traceback"; "cannot be fulfilled"; "cannot be completed"; "unable to complete";
   "unable to fulfill"; "unable to process"; "not able to"; "not possible"; "i refuse"; "i will not"; "i won't";
   "i am unable"; "i'm unable"; "this is not something"; "that is not something"; "i don't have the ability";
   "i do not have the ability"; "cannot assist"; "can't assist"].
Definition _REFUSAL_SHORT_WORD_THRESHOLD : nat := 5.
Definition _NEGATION_TOKENS : list string :=
  ["no"; "nope"; "nah"; "n/a"; "na"; "none"; "never"; "nothing"; "not"; "cannot"; "cant"; "impossible"; "unavailable";
   "unknown"; "undefined"; "null"; "nil"; "void"; "false"; "negative"; "declined"; "denied"; "refused"; "skip"; "skipped"].
Definition _DANGLING_TRAILING_WORDS : list string :=
  ["a"; "an"; "the"; "and"; "or"; "but"; "nor"; "so"; "yet"; "for"; "of"; "to"; "in"; "on"; "at"; "by"; "with"; "from";
   "as"; "is"; "are"; "was"; "were"; "be"; "been"; "that"; "which"; "this"; "these"; "those"; "if"; "when"; "while";
   "because"; "into"; "onto"; "than"; "then"].
Definition _ACCURACY_UNCERTAINTY_PHRASES : list string :=
  ["cannot verify"; "can't verify"; "unable to verify"; "not verified"; "unverified"; "not sure"; "i don't know";
   "i do not know"; "may be inaccurate"; "might be inaccurate"; "could be inaccurate"; "without evidence"].
Definition _TRUNCATION_TRAILING_TOKENS : chars := los "(,=[{-:;".
Definition _TERMINAL_PUNCTUATION : chars := los ".!?')]}`" ++ [dq].
(** The characters the checks strip from a word. *)
Definition word_edges : chars := los ".,;:!?'()[]{}`-" ++ [dq].
Definition _HEURISTIC_CONTAINS_ANY_CHECKS : list (string * (string * list string)) :=
  [("follows_google_style", ("TASK_MISMATCH", ["args:"; "returns:"]));
   ("explains_tradeoffs", ("TASK_MISMATCH", ["tradeoff"; "trade-off"; "risk"; "benefit"; "cost"]));
   ("follows_codebase_conventions", ("TASK_MISMATCH", ["pytest"; "ruff"; "typing"; "typed"; "contract"]));
   ("no_obvious_regressions", ("TASK_MISMATCH", ["regression"; "backward"; "compatib"; "existing tests"; "no break"]));
   ("covers_edge_cases", ("TASK_MISMATCH", ["edge"; "boundary"; "empty"; "none"; "invalid"]));
   ("covers_error_paths", ("TASK_MISMATCH", ["error"; "exception"; "raises"; "failure"; "fail"; "false"; "invalid"; "none"; "unknown"; "empty"]));
   ("step_by_step_explanation", ("TASK_MISMATCH", ["step"; "1."; "first"; "then"]));
   ("methodical_analysis", ("TASK_MISMATCH", ["because"; "therefore"; "evidence"; "risk"]));
   ("sub_tasks_verified", ("TASK_MISMATCH", ["verified"; "passed"; "evidence"; "check"]));
   ("structured_output", ("TASK_MISMATCH", ["1."; "2."; "- "; "* "; "step"; "phase"; "first"; "then"]));
   ("covers_dependencies", ("TASK_MISMATCH", ["depend"; "requires"; "prerequisite"; "after"; "before"; "blocks"; "order"; "sequence"]))].

(** ** Fences and thinking traces *)

Definition _strip_thinking_traces (content : string) : string := re_remove _THINKING_TRACE_RE content.
Definition _strip_markdown_code_fence (content : string) : string :=
  let stripped := py_strip content in
  if negb (py_startswith fence stripped) then content
  else
    let lines := py_splitlines stripped in
    if Nat.leb 2 (length lines) && String.eqb (py_strip (default "" (last lines))) fence
    then py_join (String lf "") (removelast (tail lines)) else content.
Definition _extract_fenced_code_blocks (content : string) : list string :=
  map (fun groups => default "" (groups !! 0)) (re_groups _MARKDOWN_FENCE_RE content).
Definition _extract_fenced_code_blocks_with_lang (content : string) : list (string * string) :=
  map (fun groups => (py_lower (default "" (groups !! 0)), default "" (groups !! 1))) (re_groups _MARKDOWN_FENCE_WITH_LANG_RE content).
Definition _remove_fenced_code_blocks (content : string) : string := py_strip (re_remove _MARKDOWN_FENCE_RE content).
Definition _YAML_FENCE_LANG_TAGS : list string := ["yaml"; "yml"].
Definition _JSON_FENCE_LANG_TAGS : list string := ["json"].

(** ** Checks *)

Definition _check_output_parses (content : string) : option string :=
  if String.eqb (py_strip content) "" then Some "MALFORMED: empty response fails output_parses"
  else if py_startswith "traceback" (py_lower (default "" (head (py_splitlines (py_strip content)))))
  then Some "MALFORMED: bare traceback fails output_parses" else None.

Definition _check_signature_preserved (content : string) : option string :=
  if ends_in (los "(,=[{") (py_rstrip content)
  then Some "MALFORMED: response truncated mid-token fails signature_preserved" else None.

Definition normalized_token (word : string) : string := strip_chars word_edges (py_lower word).
Definition detected_phrases (phrases : list string) (text : string) : list string :=
  filter (fun p => py_contains p text = true) phrases.
Definition _check_no_refusal (content : string) : option string :=
  let stripped := py_strip content in
  let words := py_words stripped in
  let normalized_tokens := map normalized_token words in
  if Nat.ltb 0 (length words) && Nat.leb (length words) _REFUSAL_SHORT_WORD_THRESHOLD
     && forallb (fun token => String.eqb token "" || str_in token _NEGATION_TOKENS) normalized_tokens
  then Some ("REFUSAL: ultra-short content-free response (no task content): " +:+ py_repr_str (py_join " " normalized_tokens))
  else
    let first_200 := py_lower (prefix_of 200 stripped) in
    let detected := detected_phrases _REFUSAL_PHRASES first_200
                    ++ if re_search _LEADING_ERROR_RE first_200 then ["error:"] else [] in
    match detected with
    | [] => None
    | _ => Some ("REFUSAL: detected refusal phrases: " +:+ py_join ", " detected)
    end.

Definition _check_min_length (content : string) (threshold : Z) : option string :=
  if (py_len content <? threshold)%Z
  then Some ("WEAK_OUTPUT: response length " +:+ pretty (py_len content) +:+ " below minimum " +:+ pretty threshold) else None.

Definition has_triple_quote (s : string) : bool := py_contains (triple dq) s || py_contains (triple sq) s.
Definition _check_semantic_adequacy (content : string) : option string :=
  let stripped := py_strip content in
  if String.eqb stripped "" then Some "WEAK_OUTPUT: response is empty, fails semantic_adequacy"
  else if ends_in _TRUNCATION_TRAILING_TOKENS stripped
  then Some "WEAK_OUTPUT: response truncated mid-token, fails semantic_adequacy"
  else if truthy (_extract_fenced_code_blocks content) || has_triple_quote stripped then None
  else if ends_in _TERMINAL_PUNCTUATION stripped then None
  else
    let words := py_words stripped in
    let last_word := normalized_token (default "" (last words)) in
    if str_in last_word _DANGLING_TRAILING_WORDS
    then Some ("WEAK_OUTPUT: response truncated mid-clause (ends on '" +:+ last_word +:+ "'), fails semantic_adequacy")
    else if Nat.ltb (length words) 2
    then Some "WEAK_OUTPUT: response is a bare single-word fragment, fails semantic_adequacy" else None.

(** A parser returns, raises its syntax error (its text), or raises something else. *)
Inductive parse_outcome := Parsed | SyntaxFault (msg : string) | Crashed (e : py_exn).
Class Parsers := { ast_parse : string -> parse_outcome; yaml_safe_load : string -> parse_outcome }.

Definition parse_reason (language : string) (o : parse_outcome) : result (option string) :=
  match o with
  | Parsed => Ok None
  | SyntaxFault msg => Ok (Some ("MALFORMED: response does not compile as " +:+ language +:+ ": " +:+ msg))
  | Crashed e => Raise e
  end.
(** [json.loads]; a [JSONDecodeError] is a [ValueError] of [json_loads]. *)
Definition json_parse (body : string) : parse_outcome :=
  match json_loads body with Ok _ => Parsed | Raise (ValueError msg) => SyntaxFault msg | Raise e => Crashed e end.

(** The first reason, later elements unevaluated. *)
Fixpoint first_reason {A} (f : A -> result (option string)) (l : list A) : result (option string) :=
  match l with
  | [] => Ok None
  | x :: l => r ← f x; match r with Some reason => Ok (Some reason) | None => first_reason f l end
  end.

Section compiles.
Context `{Parsers}.
Definition check_block (block : string * string) : result (option string) :=
  if str_in block.1 _YAML_FENCE_LANG_TAGS then parse_reason "YAML" (yaml_safe_load block.2)
  else if str_in block.1 _JSON_FENCE_LANG_TAGS then parse_reason "JSON" (json_parse block.2)
  else parse_reason "Python" (ast_parse block.2).
Definition _check_compiles_without_errors (content : string) : result (option string) :=
  match _extract_fenced_code_blocks_with_lang content with
  | [] => parse_reason "Python" (ast_parse (_strip_markdown_code_fence content))
  | tagged_blocks => first_reason check_block tagged_blocks
  end.
End compiles.

Definition _check_final_artifact_only (content : string) : option string :=
  if truthy (_extract_fenced_code_blocks content) && truthy (_remove_fenced_code_blocks content)
  then Some "TASK_MISMATCH: response includes non-artifact prose outside code block" else None.
Definition _check_uses_pytest_mark_unit (content : string) : option string :=
  if py_contains "@pytest.mark.unit" content then None else Some "TASK_MISMATCH: missing @pytest.mark.unit".
Definition _check_docstring_present (content : string) : option string :=
  if has_triple_quote content then None else Some "TASK_MISMATCH: missing docstring".
Definition _check_response_non_empty (content : string) : option string :=
  if String.eqb (py_strip content) "" then Some "MALFORMED: empty response" else None.
Definition _check_plain_text_only (content : string) : option string :=
  let text := py_lstrip (py_lower content) in
  if py_contains fence content || py_startswith "def " text || py_startswith "class " text
  then Some "TASK_MISMATCH: expected plain text, found code" else None.

Definition _sentences (content : string) : list string := map py_strip (re_texts _SENTENCE_RE content).
Definition _check_exactly_two_sentences (content : string) : option string :=
  let count := length (_sentences content) in
  if Nat.eqb count 2 then None else Some ("TASK_MISMATCH: expected exactly 2 sentences, found " +:+ pretty count).
Definition long_sentences (threshold : Z) (sentences : list string) : list nat :=
  map fst (filter (fun p => (Z.of_nat (length (py_words p.2)) >? threshold)%Z = true) (zip (seq 1 (length sentences)) sentences)).
Definition _check_max_words_per_sentence (content : string) (threshold : Z) : option string :=
  match _sentences content with
  | [] => Some "TASK_MISMATCH: no sentences found"
  | sentences =>
      match long_sentences threshold sentences with
      | [] => None
      | long => Some ("TASK_MISMATCH: sentences exceed " +:+ pretty threshold +:+ " words: " +:+ py_join ", " (map pretty long))
      end
  end.

Definition _check_contains_any (content check_name category : string) (markers : list string) : option string :=
  if any_sub markers (py_lower content) then None else Some (category +:+ ": failed " +:+ check_name).
Definition _check_covers_args_returns_raises (content : string) : option string :=
  match filter (fun m => py_contains m (py_lower content) = false) ["args:"; "returns:"] with
  | [] => None
  | missing => Some ("TASK_MISMATCH: missing documentation sections: " +:+ py_join ", " missing)
  end.
Definition _check_cites_specific_lines (content : string) : option string :=
  if re_search _LINE_CITATION_RE content then None else Some "TASK_MISMATCH: missing specific line citations".
Definition _check_cites_sources (content : string) : option string :=
  if re_search _SOURCE_CITATION_RE content then None else Some "TASK_MISMATCH: missing source citations or references".
Definition _check_concise (content : string) : option string :=
  if Nat.ltb 250 (length (py_words content)) then Some "WEAK_OUTPUT: response is not concise" else None.
Definition _check_accurate (content : string) : option string :=
  match detected_phrases _ACCURACY_UNCERTAINTY_PHRASES (py_lower content) with
  | [] => None
  | detected => Some ("TASK_MISMATCH: response explicitly disclaims accuracy: " +:+ py_join ", " detected)
  end.

(** ** The dispatch of check names *)

Definition _UNEVALUATED_DETERMINISTIC_CHECKS : list string := ["passes_existing_tests"].
Definition _REJECT_ONLY_DETERMINISTIC_CHECKS : list string :=
  ["output_parses"; "signature_preserved"; "response_non_empty"; "task_completed"; "exactly_two_sentences";
   "plain_text_only"; "no_refusal"].

Section deterministic.
Context `{Parsers}.

(** One evaluated check of the deterministic band, by its name. *)
Definition deterministic_check (content check : string) : result (option string) :=
  if String.eqb check "output_parses" then Ok (_check_output_parses content)
  else if String.eqb check "signature_preserved" then Ok (_check_signature_preserved content)
  else if String.eqb check "compiles_without_errors" then _check_compiles_without_errors content
  else if String.eqb check "final_artifact_only" then Ok (_check_final_artifact_only content)
  else if String.eqb check "uses_pytest_mark_unit" then Ok (_check_uses_pytest_mark_unit content)
  else if String.eqb check "docstring_present" then Ok (_check_docstring_present content)
  else if str_in check ["response_non_empty"; "task_completed"] then Ok (_check_response_non_empty content)
  else if String.eqb check "exactly_two_sentences" then Ok (_check_exactly_two_sentences content)
  else if String.eqb check "plain_text_only" then Ok (_check_plain_text_only content)
  else if String.eqb check "no_refusal" then Ok (_check_no_refusal content)
  else
    match match_group MAX_WORDS_PER_SENTENCE_RE check with
    | Some digits => threshold ← int_of_digits digits; Ok (_check_max_words_per_sentence content threshold)
    | None => Ok (Some ("MALFORMED: unsupported deterministic DoD check '" +:+ check +:+ "'"))
    end.

(** The failures and the skipped checks, in the declared order. *)
Fixpoint _evaluate_deterministic_checks (content : string) (dod_deterministic : list string) : result (list string * list string) :=
  match dod_deterministic with
  | [] => Ok ([], [])
  | check :: rest =>
      if str_in check _UNEVALUATED_DETERMINISTIC_CHECKS then
        '(failures, skipped) ← _evaluate_deterministic_checks content rest; Ok (failures, check :: skipped)
      else
        reason ← deterministic_check content check;
        '(failures, skipped) ← _evaluate_deterministic_checks content rest;
        Ok (option_list reason ++ failures, skipped)
  end.
End deterministic.

Definition _HEURISTIC_SIMPLE_CHECKS : list (string * (string -> option string)) :=
  [("no_refusal", _check_no_refusal); ("covers_args_returns_raises", _check_covers_args_returns_raises);
   ("cites_specific_lines", _check_cites_specific_lines); ("cites_sources", _check_cites_sources);
   ("concise", _check_concise); ("accurate", _check_accurate); ("semantic_adequacy", _check_semantic_adequacy)].
Definition _REJECT_ONLY_HEURISTIC_CHECKS : list string :=
  ["no_refusal"; "accurate"; "concise"; "covers_args_returns_raises"; "cites_specific_lines"; "cites_sources"]
  ++ map fst _HEURISTIC_CONTAINS_ANY_CHECKS.
(** A constant table's entry. *)
Fixpoint table_find {A} (k : string) (l : list (string * A)) : option A :=
  match l with [] => None | (x, a) :: l => if String.eqb k x then Some a else table_find k l end.

Definition _apply_heuristic_check (check content : string) : option string :=
  match table_find check _HEURISTIC_SIMPLE_CHECKS with
  | Some fn => fn content
  | None =>
      match table_find check _HEURISTIC_CONTAINS_ANY_CHECKS with
      | Some (category, markers) => _check_contains_any content check category markers
      | None => None
      end
  end.
Definition known_checks : list string := map fst _HEURISTIC_SIMPLE_CHECKS ++ map fst _HEURISTIC_CONTAINS_ANY_CHECKS.

(** One check of the heuristic band: a heuristic failure, a deterministic one. *)
Definition heuristic_check (content check : string) : result (option string * option string) :=
  match _apply_heuristic_check check content with
  | Some reason => Ok (Some reason, None)
  | None =>
      if str_in check known_checks then Ok (None, None)
      else
        match match_group _MIN_LENGTH_CHECK_RE check with
        | Some digits => threshold ← int_of_digits digits; Ok (_check_min_length content threshold, None)
        | None => Ok (None, Some ("MALFORMED: unsupported heuristic DoD check '" +:+ check +:+ "'"))
        end
  end.
Fixpoint _evaluate_heuristic_checks (content : string) (dod_heuristic : list string) : result (list string * list string) :=
  match dod_heuristic with
  | [] => Ok ([], [])
  | check :: rest =>
      '(heuristic, deterministic) ← heuristic_check content check;
      '(heuristic_failures, det_failures) ← _evaluate_heuristic_checks content rest;
      Ok (option_list heuristic ++ heuristic_failures, option_list deterministic ++ det_failures)
  end.

Definition _run_contract_checks `{Parsers} (content : string) (dod_deterministic dod_heuristic : list string)
    : result (list string * list string * list string) :=
  '(det_failures, skipped_deterministic) ← _evaluate_deterministic_checks content dod_deterministic;
  '(heuristic_failures, extra_det_failures) ← _evaluate_heuristic_checks content dod_heuristic;
  Ok (det_failures ++ extra_det_failures, heuristic_failures, skipped_deterministic).

(** The criteria a request may name; [models/delegation/wire/model_delegation_request.py]. *)
Definition SUPPORTED_ACCEPTANCE_CRITERIA : list string :=
  ["compiles_without_errors"; "concise"; "covers_args_returns_raises"; "covers_edge_cases"; "covers_error_paths";
   "cites_specific_lines"; "docstring_present"; "exactly_two_sentences"; "explains_tradeoffs"; "final_artifact_only";
   "follows_codebase_conventions"; "follows_google_style"; "methodical_analysis"; "no_obvious_regressions"; "no_refusal";
   "output_parses"; "passes_existing_tests"; "plain_text_only"; "response_non_empty"; "signature_preserved";
   "step_by_step_explanation"; "sub_tasks_verified"; "task_completed"; "uses_pytest_mark_unit"].
Definition validate_acceptance_criteria (criteria : list string) : result (list string) :=
  match filter (fun item => str_in item SUPPORTED_ACCEPTANCE_CRITERIA || bool_decide (is_Some (re_match MAX_WORDS_PER_SENTENCE_RE item)) = false) criteria with
  | [] => Ok criteria
  | unsupported => Raise (ValueError ("unsupported acceptance criteria: " +:+ py_join ", " (sort_by id unsupported)))
  end.

(** ** Which checks only reject *)

Definition re_matches_start (r : re) (s : string) : bool := bool_decide (is_Some (re_match r s)).
Definition _is_reject_only_deterministic_check (check : string) : bool :=
  str_in check _REJECT_ONLY_DETERMINISTIC_CHECKS || re_matches_start MAX_WORDS_PER_SENTENCE_RE check.
Definition _is_reject_only_heuristic_check (check : string) : bool :=
  str_in check _REJECT_ONLY_HEURISTIC_CHECKS || re_matches_start _MIN_LENGTH_CHECK_RE check.
Definition grants_authority (check : string) : bool :=
  negb (_is_reject_only_deterministic_check check) && negb (str_in check _UNEVALUATED_DETERMINISTIC_CHECKS).
Definition _has_adequacy_authority (dod_deterministic dod_heuristic : list string) : bool :=
  existsb grants_authority dod_deterministic
  || existsb (fun check => negb (_is_reject_only_heuristic_check check)) dod_heuristic.

(** ** Examples *)

Example no_is_refused : _check_no_refusal " No. " = Some "REFUSAL: ultra-short content-free response (no task content): 'no'".
Proof. vm_compute. reflexivity. Qed.
Example error_refused : map _check_no_refusal ["Error: boom"; "raises ZeroDivisionError: always"; "It is not possible to do it"] =
  [Some "REFUSAL: detected refusal phrases: error:"; None; Some "REFUSAL: detected refusal phrases: not possible"].
Proof. vm_compute. reflexivity. Qed.
Example dangling : map _check_semantic_adequacy ["The change adds a"; "positive label"; "positive"; "Done."; "f("] =
  [Some "WEAK_OUTPUT: response truncated mid-clause (ends on 'a'), fails semantic_adequacy"; None;
   Some "WEAK_OUTPUT: response is a bare single-word fragment, fails semantic_adequacy"; None;
   Some "WEAK_OUTPUT: response truncated mid-token, fails semantic_adequacy"].
Proof. vm_compute. reflexivity. Qed.
Example citations : map _check_cites_sources ["see Theorem 4"; "as shown in it"; "(Smith, 2020)"; "[ 12 ]"; "a claim"; "HTTPS://x"] =
  [None; None; None; None; Some "TASK_MISMATCH: missing source citations or references"; None].
Proof. vm_compute. reflexivity. Qed.
Example line_citations : map (re_search _LINE_CITATION_RE) ["at line 12"; "lines 3-4"; "L7"; "a.py:12"; "online 12"; "XL7 :0"] =
  [true; true; true; true; false; false].
Proof. vm_compute. reflexivity. Qed.
Example sentences : _sentences "One two. Three?  Four" = ["One two."; "Three?"].
Proof. vm_compute. reflexivity. Qed.
Definition fenced : string := "text ```Python x" +:+ String lf ("a = 1" +:+ String lf "``` tail").
Example fences : (_extract_fenced_code_blocks_with_lang fenced, _remove_fenced_code_blocks fenced, _strip_thinking_traces "<think>a</think>  b<think>c</think>")
  = ([("python", "a = 1" +:+ String lf "")], "text  tail", "b").
Proof. vm_compute. reflexivity. Qed.
Example words_limit : match_group MAX_WORDS_PER_SENTENCE_RE "max_words_per_sentence_20" = Some "20"
  /\ match_group MAX_WORDS_PER_SENTENCE_RE "max_words_per_sentence_020" = None
  /\ match_group _MIN_LENGTH_CHECK_RE ("min_length_chars_7" +:+ String lf "") = Some "7".
Proof. vm_compute. done. Qed.
(** The author-year form with "et al." and no second name is not recognised. *)
Example et_al : map _check_cites_sources ["(Smith et al., 2020)"; "(Smith et al. Lee, 2020)"] =
  [Some "TASK_MISMATCH: missing source citations or references"; None].
Proof. vm_compute. reflexivity. Qed.
