(* ===== verification/QualityGate.v ===== *)
(** * Delegation quality gate: the verdict

    [delta] of [nodes/node_delegation_quality_gate_reducer/handlers/handler_quality_gate.py]:
    the checks of [QualityChecks] weighed into a verdict with its score and its
    acceptance evidence, the judge's part in it, the caller-declared response
    schema and the fallback checks.  The validator of JSON Schema is an argument. *)
From S2P Require Import Prelude PyFloat PyJson PyRegex PyHash DelegationModels QualityChecks.

(** ** The verdict *)

(** The fields of a [ModelQualityGateResult] that only the gate writes; the rest is
    [DelegationModels.ModelQualityGateResult], as its readers see it. *)
Record AcceptanceEvidence := {
  ev_score_source : string;
  ev_acceptance_version : string;
  ev_corpus_hash : string;
  ev_validator_or_artifact_hash : string;
  ev_acceptance_command : string;
  ev_actual_score : option float;
  ev_pass : option bool;
  ev_failure_cases : list string;
  ev_skipped_checks : list string
}.
Definition no_evidence : AcceptanceEvidence := {|
  ev_score_source := ""; ev_acceptance_version := ""; ev_corpus_hash := ""; ev_validator_or_artifact_hash := "";
  ev_acceptance_command := ""; ev_actual_score := None; ev_pass := None; ev_failure_cases := []; ev_skipped_checks := []
|}.
Record GateVerdict := { gv_result : ModelQualityGateResult; gv_evidence : AcceptanceEvidence }.
Definition gv_passed (v : GateVerdict) : bool := gr_passed (gv_result v).

(** The model's own validation: [actual_score] lies between 0 and 1. *)
Definition score_in_range (s : option float) : bool :=
  match s with Some x => fle fzero x && fle x fone | None => true end.
Definition mk_verdict (gate_input : ModelQualityGateInput) (passed : bool) (category : EnumQualityGateCategory) (score : float)
    (reasons : list string) (fallback : bool) (evidence : AcceptanceEvidence) : result GateVerdict :=
  if score_in_range (ev_actual_score evidence) then Ok {|
    gv_result := {| gr_correlation_id := gi_correlation_id gate_input; gr_passed := passed; gr_fail_category := category;
      gr_quality_score := score; gr_failure_reasons := reasons; gr_fallback_recommended := fallback;
      gr_score_source := ev_score_source evidence |};
    gv_evidence := evidence |}
  else Raise (OtherError "ValidationError" "actual_score").

(** ** Scores *)

Definition _COMBINED_DETERMINISTIC_WEIGHT : float := lit "0.6".
Definition _COMBINED_JUDGE_WEIGHT : float := lit "0.4".
Definition _combined_quality_score (deterministic_score judge_adequacy_score : float) : result float :=
  let weighted := fadd (fmul _COMBINED_DETERMINISTIC_WEIGHT deterministic_score) (fmul _COMBINED_JUDGE_WEIGHT judge_adequacy_score) in
  q ← fdiv weighted (fadd _COMBINED_DETERMINISTIC_WEIGHT _COMBINED_JUDGE_WEIGHT);
  Ok (py_round q 3).

(** [n / d] of two counts; the callers divide by positive counts only. *)
Definition count_ratio (n d : nat) : float := rat (Z.of_nat n) (Pos.of_nat d).

Definition _deterministic_acceptance_score (deterministic_total deterministic_failures : nat) : float :=
  match deterministic_total with
  | O => fzero
  | _ => py_round (count_ratio (deterministic_total - deterministic_failures) deterministic_total) 3
  end.
Definition _evaluated_deterministic_total (dod_deterministic deterministic_failures skipped_deterministic : list string) : nat :=
  (length dod_deterministic - length skipped_deterministic) `max` length deterministic_failures.

Definition _DETERMINISTIC_BAND_WEIGHT : float := lit "0.6".
Definition _HEURISTIC_BAND_WEIGHT : float := lit "0.4".
Definition _band_fraction (total failures : nat) : float :=
  match total with O => fone | _ => count_ratio (total - failures) total end.
(** A band with checks adds its weight, and its weighted fraction. *)
Definition add_band (weight : float) (total failures : nat) (sums : float * float) : float * float :=
  match total with
  | O => sums
  | _ => (fadd sums.1 weight, fadd sums.2 (fmul weight (_band_fraction total failures)))
  end.
Definition _graded_quality_score (deterministic_total deterministic_failures heuristic_total heuristic_failures : nat) : result float :=
  if Nat.eqb deterministic_total 0 && Nat.eqb heuristic_total 0 then Ok fzero
  else
    let '(active_weight, weighted_sum) :=
      add_band _HEURISTIC_BAND_WEIGHT heuristic_total heuristic_failures
        (add_band _DETERMINISTIC_BAND_WEIGHT deterministic_total deterministic_failures (fzero, fzero)) in
    q ← fdiv weighted_sum active_weight;
    Ok (py_round q 3).

Example graded : (_graded_quality_score 3 0 3 2, _graded_quality_score 0 0 0 0, _graded_quality_score 2 2 0 0) =
  (Ok (lit "0.733"), Ok fzero, Ok fzero).
Proof. vm_compute. reflexivity. Qed.
Example combined : _combined_quality_score fone (lit "0.5") = Ok (lit "0.8").
Proof. vm_compute. reflexivity. Qed.

(** ** Reasons and evidence *)

Definition _FALLBACK_VERDICT_PREFIXES : list string := ["REFUSAL"; "WEAK_OUTPUT"; "TASK_MISMATCH"].
Definition _recommends_fallback (failure_reasons : list string) : bool :=
  existsb (fun reason => existsb (fun prefix => py_startswith prefix reason) _FALLBACK_VERDICT_PREFIXES) failure_reasons.

Definition _ACCEPTANCE_VERSION : string := "delegation-deterministic-acceptance.v1".
Definition _VERIFIABLE_TASK_TYPES : list string := ["code_generation"; "test"; "validator_generation"; "refactor"].
Definition _JUDGE_FAIL_REASON : string :=
  "JUDGE_FAIL: llm-judge adequacy verdict=fail vetoes acceptance (deterministic floor passed but judge rejected the candidate)".
Definition _NO_ADEQUACY_AUTHORITY_REASON : string :=
  "TASK_MISMATCH: no deterministic acceptance or judge adequacy authority; schema/length/no-refusal/marker checks are reject-only".
Definition _EMPTY_RESPONSE_FLOOR_REASON : string := "MALFORMED: empty response".

Definition _stable_hash (value : json) : string := sha256_hex (json_dumps_compact value).
Definition _artifact_hash (content : string) : string := sha256_hex content.

Definition corpus_identity (task_type : string) (dod_deterministic : list string) : json := JObj
  [("acceptance_version", JStr _ACCEPTANCE_VERSION); ("score_source", JStr SCORE_SOURCE_DETERMINISTIC_ACCEPTANCE);
   ("task_type", JStr task_type); ("checks", JArr (map JStr dod_deterministic))].
Definition _deterministic_acceptance_evidence (task_type content : string)
    (dod_deterministic deterministic_failures skipped_deterministic : list string) : AcceptanceEvidence :=
  let evaluated_total := _evaluated_deterministic_total dod_deterministic deterministic_failures skipped_deterministic in
  {| ev_score_source := SCORE_SOURCE_DETERMINISTIC_ACCEPTANCE;
     ev_acceptance_version := _ACCEPTANCE_VERSION;
     ev_corpus_hash := _stable_hash (corpus_identity task_type dod_deterministic);
     ev_validator_or_artifact_hash := _artifact_hash content;
     ev_acceptance_command := "uv run python -m omnimarket.nodes.node_delegation_quality_gate_reducer --score-source="
       +:+ SCORE_SOURCE_DETERMINISTIC_ACCEPTANCE +:+ " --task-type=" +:+ task_type;
     ev_actual_score := Some (_deterministic_acceptance_score evaluated_total (length deterministic_failures));
     ev_pass := Some (Nat.ltb 0 evaluated_total && negb (truthy deterministic_failures));
     ev_failure_cases := deterministic_failures;
     ev_skipped_checks := skipped_deterministic |}.

Definition _is_verifiable_deterministic_acceptance (gate_input : ModelQualityGateInput) (dod_deterministic : list string) : bool :=
  str_in (gi_task_type gate_input) _VERIFIABLE_TASK_TYPES && existsb grants_authority dod_deterministic.

(** ** The fallback checks *)

Definition _TASK_MARKERS : list (string * list string) :=
  [("test", ["def test_"; "@pytest.mark"]); ("document", ["args:"; "returns:"; triple dq]); ("research", [])].
Definition _MIN_LENGTHS : list (string * Z) := [("document", 100%Z); ("test", 80%Z); ("research", 60%Z)].
Definition _WEIGHT_LENGTH : float := lit "0.4".
Definition _WEIGHT_NO_REFUSAL : float := lit "0.3".
Definition _WEIGHT_MARKERS : float := lit "0.3".

(** A score and the reason it is not full. *)
Definition scored : Type := float * option string.
Definition score_length (content : string) (min_length : Z) : scored :=
  match _check_min_length content min_length with None => (fone, None) | Some r => (fzero, Some r) end.
Definition score_refusal (content : string) : scored :=
  match detected_phrases _REFUSAL_PHRASES (py_lower (prefix_of 200 content)) with
  | [] => (fone, None)
  | detected => (fzero, Some ("REFUSAL: detected refusal phrases: " +:+ py_join ", " detected))
  end.
Definition score_markers (content : string) (expected_markers : list string) : scored :=
  match expected_markers with
  | [] => (fone, None)
  | _ =>
      let is_in m := py_contains (py_lower m) (py_lower content) in
      let score := count_ratio (count is_in expected_markers) (length expected_markers) in
      (score, if flt score fone
              then Some ("TASK_MISMATCH: missing expected markers: "
                         +:+ py_join ", " (filter (fun m => is_in m = false) expected_markers)) else None)
  end.
Definition _run_legacy_checks (gate_input : ModelQualityGateInput) : result GateVerdict :=
  let content := _strip_thinking_traces (gi_llm_response_content gate_input) in
  let task_type := gi_task_type gate_input in
  let '(length_score, r1) := score_length content (default (gi_min_response_length gate_input) (table_find task_type _MIN_LENGTHS)) in
  let '(refusal_score, r2) := score_refusal content in
  let '(marker_score, r3) := score_markers content
    (py_or (gi_expected_markers gate_input) (default [] (table_find task_type _TASK_MARKERS))) in
  let failure_reasons := py_or (option_list r1 ++ option_list r2 ++ option_list r3) [_NO_ADEQUACY_AUTHORITY_REASON] in
  let quality_score := fadd (fadd (fmul length_score _WEIGHT_LENGTH) (fmul refusal_score _WEIGHT_NO_REFUSAL))
                            (fmul marker_score _WEIGHT_MARKERS) in
  mk_verdict gate_input false GateFailHeuristic (py_round quality_score 3) failure_reasons (_recommends_fallback failure_reasons) no_evidence.

(** ** The caller-declared response schema *)

(** [str] of the parts of the path to what is wrong, and the message. *)
Record SchemaError := { se_path : list string; se_message : string }.
(** [check_schema] of the validator the schema names, and its [iter_errors]. *)
Class SchemaValidator := {
  check_schema : Obj -> result unit;
  iter_errors : Obj -> json -> result (list SchemaError)
}.

(** Lists are ordered lexicographically. *)
Fixpoint list_leb {A} `{PyOrd A} (x y : list A) : bool :=
  match x, y with
  | [], _ => true
  | _ :: _, [] => false
  | a :: x, b :: y => if py_leb a b then if py_leb b a then list_leb x y else true else false
  end.
#[export] Instance py_ord_list {A} `{PyOrd A} : PyOrd (list A) := list_leb.

Definition schema_reason (e : SchemaError) : string :=
  "SCHEMA_VIOLATION: " +:+ py_or (py_join "." (se_path e)) "<root>" +:+ ": " +:+ se_message e.
Definition _schema_violation_reasons `{SchemaValidator} (candidate : json) (response_contract : Obj) : result (list string) :=
  _ ← check_schema response_contract;
  errors ← iter_errors response_contract candidate;
  Ok (map schema_reason (sort_by se_path errors)).

Definition _evaluate_response_contract `{SchemaValidator} (gate_input : ModelQualityGateInput) (response_contract : Obj)
    : result GateVerdict :=
  let content := py_strip (_strip_thinking_traces (gi_llm_response_content gate_input)) in
  let rejected reasons := mk_verdict gate_input false GateFailDeterministic fzero reasons true no_evidence in
  if String.eqb content "" then rejected ["MALFORMED: empty response fails response_contract validation"]
  else
    match json_loads content with
    | Raise (ValueError msg) => rejected ["MALFORMED: response is not valid JSON: " +:+ msg]
    | Raise e => Raise e
    | Ok candidate =>
        reasons ← _schema_violation_reasons candidate response_contract;
        match reasons with
        | [] => mk_verdict gate_input true GatePass fone [] false no_evidence
        | _ => rejected reasons
        end
    end.

(** ** The verdict on declared checks *)

Inductive EnumDelegationJudgeVerdict := JudgePass | JudgeBorderline | JudgeFail | JudgeFailed.
#[export] Instance EnumDelegationJudgeVerdict_eq_dec : EqDecision EnumDelegationJudgeVerdict.
Proof. solve_decision. Defined.

(** The declared checks: the task class's, the request's, or both. *)
Definition effective_dod (gate_input : ModelQualityGateInput) : list string * list string :=
  if String.eqb (gi_quality_contract_mode gate_input) "replace_task_class"
  then (gi_acceptance_criteria gate_input, [])
  else (gi_dod_deterministic gate_input ++ gi_acceptance_criteria gate_input, gi_dod_heuristic gate_input).

(** The empty answer fails on the verifiable path whatever is declared. *)
Definition with_empty_floor (authority : bool) (content : string) (det_failures : list string) : list string :=
  if authority && String.eqb (py_strip content) "" && negb (str_in _EMPTY_RESPONSE_FLOOR_REASON det_failures)
  then _EMPTY_RESPONSE_FLOOR_REASON :: det_failures else det_failures.

(** The score and the evidence when no deterministic check failed. *)
Definition accepted_score (authority : bool) (judge_adequacy_score : option float) (deterministic_total : nat) (quality_score : float)
    (evidence : AcceptanceEvidence) : result (float * AcceptanceEvidence) :=
  match judge_adequacy_score with
  | Some judge =>
      if authority then
        score ← _combined_quality_score (_band_fraction deterministic_total 0) judge;
        Ok (score, {| ev_score_source := SCORE_SOURCE_COMBINED; ev_acceptance_version := ev_acceptance_version evidence;
                      ev_corpus_hash := ev_corpus_hash evidence; ev_validator_or_artifact_hash := ev_validator_or_artifact_hash evidence;
                      ev_acceptance_command := ev_acceptance_command evidence; ev_actual_score := Some score;
                      ev_pass := ev_pass evidence; ev_failure_cases := ev_failure_cases evidence;
                      ev_skipped_checks := ev_skipped_checks evidence |})
      else Ok (quality_score, evidence)
  | None => Ok (quality_score, evidence)
  end.

Section gate.
Context `{Parsers, SchemaValidator}.

Definition judged (gate_input : ModelQualityGateInput) (dod_deterministic dod_heuristic : list string) (authority : bool)
    (heuristic_failures : list string) (judge_verdict : option EnumDelegationJudgeVerdict) (quality_score : float)
    (evidence : AcceptanceEvidence) : result GateVerdict :=
  if authority then
    if bool_decide (judge_verdict = Some JudgeFail)
    then mk_verdict gate_input false GateFailHeuristic quality_score [_JUDGE_FAIL_REASON] true evidence
    else mk_verdict gate_input true GatePass quality_score [] false evidence
  else if truthy heuristic_failures
  then mk_verdict gate_input false GateFailHeuristic quality_score heuristic_failures (_recommends_fallback heuristic_failures) evidence
  else if negb (_has_adequacy_authority dod_deterministic dod_heuristic)
  then mk_verdict gate_input false GateFailHeuristic quality_score [_NO_ADEQUACY_AUTHORITY_REASON] true no_evidence
  else mk_verdict gate_input true GatePass quality_score [] false evidence.

Definition delta_declared (gate_input : ModelQualityGateInput) (dod_deterministic dod_heuristic : list string)
    (judge_adequacy_score : option float) (judge_verdict : option EnumDelegationJudgeVerdict) : result GateVerdict :=
  let content := _strip_thinking_traces (gi_llm_response_content gate_input) in
  '(det_failures, heuristic_failures, skipped) ← _run_contract_checks content dod_deterministic dod_heuristic;
  let authority := _is_verifiable_deterministic_acceptance gate_input dod_deterministic in
  let det_failures := with_empty_floor authority content det_failures in
  let evidence :=
    if authority then _deterministic_acceptance_evidence (gi_task_type gate_input) content dod_deterministic det_failures skipped
    else no_evidence in
  let total := _evaluated_deterministic_total dod_deterministic det_failures skipped in
  quality_score ← _graded_quality_score total (length det_failures) (length dod_heuristic) (length heuristic_failures);
  if truthy det_failures
  then mk_verdict gate_input false GateFailDeterministic quality_score (det_failures ++ heuristic_failures) true evidence
  else
    '(score, evidence) ← accepted_score authority judge_adequacy_score total quality_score evidence;
    judged gate_input dod_deterministic dod_heuristic authority heuristic_failures judge_verdict score evidence.

Definition delta (gate_input : ModelQualityGateInput) (judge_adequacy_score : option float)
    (judge_verdict : option EnumDelegationJudgeVerdict) (response_contract : option Obj) : result GateVerdict :=
  match response_contract with
  | Some contract => _evaluate_response_contract gate_input contract
  | None =>
      let '(dod_deterministic, dod_heuristic) := effective_dod gate_input in
      if truthy dod_deterministic || truthy dod_heuristic
      then delta_declared gate_input dod_deterministic dod_heuristic judge_adequacy_score judge_verdict
      else _run_legacy_checks gate_input
  end.
End gate.
