(* ===== verification/QualityJudge.v ===== *)
(** * Delegation quality gate: the judge and the handler

    [judge/handler_judge_adequacy.py]: the adequacy prompt, the parsing of the
    model's answer, the verdict and its reproducible event
    ([events/delegation_judge_verdict.py]); and [HandlerQualityGateIntent], which
    asks the judge for the combinable task classes and applies [delta].  The
    inference bridge is an argument: which model it resolves to and what it answers. *)
From S2P Require Import Prelude PyFloat PyJson PyRegex PyHash DelegationModels DelegationRouting QualityChecks QualityGate.

(** ** The verdict event *)

Definition verdict_value (v : EnumDelegationJudgeVerdict) : string :=
  match v with JudgePass => "pass" | JudgeBorderline => "borderline" | JudgeFail => "fail" | JudgeFailed => "judge_failed" end.

Record ModelDelegationJudgeVerdictEvent := {
  jv_correlation_id : string;
  jv_task_type : string;
  jv_score_source : string;
  jv_judge_model : string;
  jv_judge_model_version : string;
  jv_judge_provider : string;
  jv_rubric_id : string;
  jv_rubric_hash : string;
  jv_prompt_hash : string;
  jv_input_hash : string;
  jv_temperature : float;
  jv_judge_node_version : string;
  jv_reasoning_hash : string;
  jv_verdict : EnumDelegationJudgeVerdict;
  jv_actual_score : option float;
  jv_failure_kind : option string;
  jv_failure_message : option string;
  jv_event_hash : string
}.

Definition is_hex (c : ascii) : bool := hex_char c.
Fixpoint repeat_re (n : nat) (r : re) : re := match n with O => Eps | S n => Cat r (repeat_re n r) end.
Definition _SHA256_RE : re := rseq [AtStart; rlit "sha256:"; repeat_re 64 (Cls is_hex); AtEnd].

Definition sha256_text (value : string) : string := "sha256:" +:+ sha256_hex value.
Definition sha256_json (value : json) : string := "sha256:" +:+ sha256_hex (json_dumps_compact value).

Definition opt_json {A} (f : A -> json) (o : option A) : json := match o with Some a => f a | None => JNull end.
Definition identity_bundle (e : ModelDelegationJudgeVerdictEvent) : json := JObj
  [("correlation_id", JStr (jv_correlation_id e)); ("task_type", JStr (jv_task_type e));
   ("score_source", JStr (jv_score_source e)); ("judge_model", JStr (jv_judge_model e));
   ("judge_model_version", JStr (jv_judge_model_version e)); ("judge_provider", JStr (jv_judge_provider e));
   ("rubric_id", JStr (jv_rubric_id e)); ("rubric_hash", JStr (jv_rubric_hash e));
   ("prompt_hash", JStr (jv_prompt_hash e)); ("input_hash", JStr (jv_input_hash e));
   ("temperature", JFloat (float_repr (jv_temperature e))); ("judge_node_version", JStr (jv_judge_node_version e));
   ("reasoning_hash", JStr (jv_reasoning_hash e)); ("verdict", JStr (verdict_value (jv_verdict e)));
   ("actual_score", opt_json (fun s => JFloat (float_repr s)) (jv_actual_score e));
   ("failure_kind", opt_json JStr (jv_failure_kind e)); ("failure_message", opt_json JStr (jv_failure_message e))].
Definition compute_event_hash (e : ModelDelegationJudgeVerdictEvent) : string := sha256_json (identity_bundle e).

Definition _validate_hash (value : string) : bool := re_matches_start _SHA256_RE value.
(** A failed judgement carries no score but its cause; any other carries a score. *)
Definition _validate_failure_semantics (e : ModelDelegationJudgeVerdictEvent) : bool :=
  match jv_verdict e, jv_actual_score e with
  | JudgeFailed, Some _ => false
  | JudgeFailed, None => truthy (jv_failure_kind e) && truthy (jv_failure_message e)
  | _, Some _ => true
  | _, None => false
  end.
Definition event_valid (e : ModelDelegationJudgeVerdictEvent) : bool :=
  forallb truthy [jv_task_type e; jv_judge_model e; jv_judge_model_version e; jv_judge_provider e; jv_rubric_id e; jv_judge_node_version e]
  && forallb _validate_hash [jv_rubric_hash e; jv_prompt_hash e; jv_input_hash e; jv_reasoning_hash e; jv_event_hash e]
  && fle fzero (jv_temperature e) && fle (jv_temperature e) (float_of_Z 2)
  && score_in_range (jv_actual_score e) && _validate_failure_semantics e.
Definition mk_event (e : ModelDelegationJudgeVerdictEvent) : result ModelDelegationJudgeVerdictEvent :=
  if event_valid e then Ok e else Raise (OtherError "ValidationError" "ModelDelegationJudgeVerdictEvent").

(** What the caller of [build_delegation_judge_verdict_event] gives. *)
Record JudgeCall := {
  jc_correlation_id : string; jc_task_type : string; jc_judge_model : string; jc_judge_model_version : string;
  jc_judge_provider : string; jc_rubric_id : string; jc_rubric_hash : string; jc_prompt : string; jc_judged_input : string;
  jc_temperature : float; jc_judge_node_version : string
}.
Definition event_of (c : JudgeCall) (reasoning : string) (verdict : EnumDelegationJudgeVerdict) (actual_score : option float)
    (failure_kind failure_message : option string) (event_hash : string) : ModelDelegationJudgeVerdictEvent := {|
  jv_correlation_id := jc_correlation_id c; jv_task_type := jc_task_type c; jv_score_source := "reproducible_judge";
  jv_judge_model := jc_judge_model c; jv_judge_model_version := jc_judge_model_version c; jv_judge_provider := jc_judge_provider c;
  jv_rubric_id := jc_rubric_id c; jv_rubric_hash := jc_rubric_hash c; jv_prompt_hash := sha256_text (jc_prompt c);
  jv_input_hash := sha256_text (jc_judged_input c); jv_temperature := jc_temperature c;
  jv_judge_node_version := jc_judge_node_version c; jv_reasoning_hash := sha256_text reasoning; jv_verdict := verdict;
  jv_actual_score := actual_score; jv_failure_kind := failure_kind; jv_failure_message := failure_message;
  jv_event_hash := event_hash
|}.
Definition no_hash : string := "sha256:" +:+ sol (replicate 64 "0"%char).
Definition build_delegation_judge_verdict_event (c : JudgeCall) (reasoning : string) (verdict : EnumDelegationJudgeVerdict)
    (actual_score : option float) (failure_kind failure_message : option string) : result ModelDelegationJudgeVerdictEvent :=
  draft ← mk_event (event_of c reasoning verdict actual_score failure_kind failure_message no_hash);
  mk_event (event_of c reasoning verdict actual_score failure_kind failure_message (sha256_json (identity_bundle draft))).

(** ** The judge *)

(** A rubric of [configs/delegation_judge_rubrics.v1.yaml]: the fields the judge reads. *)
Record Rubric := {
  rb_temperature : float; rb_judge_model_version : string; rb_judge_node_version : string; rb_rubric_hash : string;
  rb_pass_min_score : float; rb_borderline_min_score : float
}.
Definition _CODE_RUBRIC_ID : string := "delegation_code_adequacy_v1".
Definition delegation_code_adequacy_v1 : Rubric := {|
  rb_temperature := fzero; rb_judge_model_version := "routing-contract:cloud-glm";
  rb_judge_node_version := "delegation-judge-verdict/1.0.0";
  rb_rubric_hash := "sha256:f2ffc154eb8b2031ebf499fa12de0f64581b9500bdc955145ee642fac1250142";
  rb_pass_min_score := lit "0.80"; rb_borderline_min_score := lit "0.60"
|}.

Definition nl : string := String lf "".
Definition _build_user_prompt (task_type prompt candidate_output : string) (acceptance_criteria : list string) : string :=
  let criteria_block :=
    match acceptance_criteria with
    | [] => "(none declared; judge against the task request)"
    | _ => py_join nl (map (fun c => "- " +:+ c) acceptance_criteria)
    end in
  "## Task type" +:+ nl +:+ task_type +:+ nl +:+ nl +:+ "## Requested task" +:+ nl +:+ prompt +:+ nl +:+ nl
  +:+ "## Acceptance criteria" +:+ nl +:+ criteria_block +:+ nl +:+ nl +:+ "## Candidate answer" +:+ nl +:+ candidate_output +:+ nl +:+ nl
  +:+ "Score how adequately the candidate answer fulfills the requested task.".

(** [re.search(r"\{.*\}", raw, DOTALL).group()] *)
Definition _JSON_OBJECT_RE : re := rseq [rchar "{"; rstar rany; rchar "}"].
(** [float(value)] of a JSON value, a [bool] excepted: [None] if it is refused. *)
Definition json_to_float (j : json) : result (option float) :=
  match j with
  | JInt n =>
      let x := float_of_Z n in
      if is_finite x then Ok (Some x) else Raise (OverflowError "int too large to convert to float")
  | JFloat r => Ok (Some (lit r))
  | JStr s => Ok (scan_float s)
  | _ => Ok None
  end.
Definition in_unit (x : float) : bool := fle fzero x && fle x fone.
Definition _parse_adequacy (raw : string) : result (option (float * string)) :=
  match re_texts _JSON_OBJECT_RE raw with
  | [] => Ok None
  | text :: _ =>
      match json_loads text with
      | Raise (ValueError _) => Ok None
      | Raise e => Raise e
      | Ok (JObj data) =>
          match dict_get "adequacy_score" data with
          | None | Some (JBool _) => Ok None
          | Some raw_score =>
              score ← json_to_float raw_score;
              Ok (x ← score; if in_unit x
                             then Some (x, default "No reasoning provided." (json_str <$> dict_get "reasoning" data)) else None)
          end
      | Ok _ => Ok None
      end
  end.
Definition _verdict_for_score (score : float) (rubric : Rubric) : EnumDelegationJudgeVerdict :=
  if fge score (rb_pass_min_score rubric) then JudgePass
  else if fge score (rb_borderline_min_score rubric) then JudgeBorderline else JudgeFail.

(** The injected inference adapter: the model it resolves to and its answer. *)
Class InferenceBridge := {
  resolved_model_id : result string;
  infer : forall (model_key user_prompt : string) (temperature : float), result string
}.

Section judge.
Context `{InferenceBridge}.

(** The recorded model: the resolved one, or the one known before. *)
Definition _resolve_judge_model_key (judge_model_key : string) : string :=
  match resolved_model_id with Ok id => id | Raise _ => judge_model_key end.

Definition judge_call (rubric : Rubric) (judge_model correlation_id task_type user_prompt candidate_output : string) : JudgeCall := {|
  jc_correlation_id := correlation_id; jc_task_type := task_type; jc_judge_model := judge_model;
  jc_judge_model_version := rb_judge_model_version rubric; jc_judge_provider := "routing-contract";
  jc_rubric_id := _CODE_RUBRIC_ID; jc_rubric_hash := rb_rubric_hash rubric; jc_prompt := user_prompt;
  jc_judged_input := candidate_output; jc_temperature := rb_temperature rubric; jc_judge_node_version := rb_judge_node_version rubric
|}.
(** The event and the model key remembered. *)
Definition score (rubric : Rubric) (judge_model_key correlation_id task_type prompt candidate_output : string)
    (acceptance_criteria : list string) : result ModelDelegationJudgeVerdictEvent * string :=
  let user_prompt := _build_user_prompt task_type prompt candidate_output acceptance_criteria in
  let judge_model := _resolve_judge_model_key judge_model_key in
  let c := judge_call rubric judge_model correlation_id task_type user_prompt candidate_output in
  let event :=
    match infer judge_model user_prompt (rb_temperature rubric) with
    | Raise exc =>
        let text := exn_class exc +:+ ": " +:+ exn_str exc in
        build_delegation_judge_verdict_event c text JudgeFailed None (Some "JUDGE_LLM_CALL_FAILED") (Some text)
    | Ok raw =>
        parsed ← _parse_adequacy raw;
        match parsed with
        | None =>
            build_delegation_judge_verdict_event c "unparseable judge response" JudgeFailed None (Some "JUDGE_PARSE_FAILED")
              (Some ("Could not parse adequacy score from response (len=" +:+ pretty (py_len raw) +:+ ")"))
        | Some (x, reasoning) =>
            build_delegation_judge_verdict_event c reasoning (_verdict_for_score x rubric) (Some x) None None
        end
    end in
  (event, judge_model).
End judge.

(** ** The handler *)

Definition JUDGE_COMBINABLE_TASK_TYPES : list string := ["code_generation"; "test"; "validator_generation"; "refactor"].
Definition judge_task (task_type : string) : string :=
  "Judge whether the candidate adequately fulfills a " +:+ task_type +:+ " task that satisfies the declared acceptance criteria.".

Section handler.
Context `{Parsers, SchemaValidator, InferenceBridge}.

Definition handle (gate_input : ModelQualityGateInput) : result GateVerdict := delta gate_input None None None.

(** What [delta] is told of a judgement. *)
Definition heard (e : ModelDelegationJudgeVerdictEvent) : option float * option EnumDelegationJudgeVerdict :=
  match jv_verdict e with JudgeFailed => (None, None) | v => (jv_actual_score e, Some v) end.
(** The published events, and the model key the judge remembers. *)
Definition handle_async (gate_input : ModelQualityGateInput) (judge_model_key : string)
    : result (GateVerdict * option ModelDelegationJudgeVerdictEvent) * string :=
  if str_in (gi_task_type gate_input) JUDGE_COMBINABLE_TASK_TYPES then
    let '(event, key) := score delegation_code_adequacy_v1 judge_model_key (gi_correlation_id gate_input) (gi_task_type gate_input)
      (judge_task (gi_task_type gate_input)) (gi_llm_response_content gate_input) (gi_acceptance_criteria gate_input) in
    (e ← event; v ← delta gate_input (heard e).1 (heard e).2 None; Ok (v, Some e), key)
  else (v ← delta gate_input None None None; Ok (v, None), judge_model_key).
End handler.
