(* ===== verification/QualityGateLaws.v ===== *)
(** * Delegation quality gate: its laws

    Which answers the gate passes, stated apart from the way it computes them;
    what the judge, the unevaluated checks and a response schema change. *)
From S2P Require Import Prelude PyFloat PyJson PyRegex PyHash DelegationModels DelegationRouting QualityChecks QualityGate QualityJudge.

(** ** Running the checks *)

Definition unevaluated (check : string) : bool := str_in check _UNEVALUATED_DETERMINISTIC_CHECKS.
Definition evaluated (dod : list string) : list string := filter (fun check => unevaluated check = false) dod.
Lemma evaluated_cons check dod : evaluated (check :: dod) = if unevaluated check then evaluated dod else check :: evaluated dod.
Proof.
  unfold evaluated. rewrite filter_cons. destruct (unevaluated check); [by rewrite decide_False|by rewrite decide_True].
Qed.

Section laws.
Context `{Parsers, SchemaValidator}.

(** The failures are the reasons of the evaluated checks, in order. *)
Lemma deterministic_failures_spec content dod failures skipped :
  _evaluate_deterministic_checks content dod = Ok (failures, skipped) ->
  skipped = filter (fun check => unevaluated check = true) dod
  /\ exists reasons, Forall2 (fun check r => deterministic_check content check = Ok r) (evaluated dod) reasons
       /\ failures = concat (map option_list reasons).
Proof.
  revert failures skipped. induction dod as [|check rest IH]; intros failures skipped; cbn [_evaluate_deterministic_checks].
  - intros [= <- <-]. split; [done|]. by exists [].
  - rewrite filter_cons, evaluated_cons. fold (unevaluated check). destruct (unevaluated check).
    + intros ([f s] & E & [= <- <-])%result_bind_Ok.
      destruct (IH _ _ E) as (-> & reasons & Hr & ->). split; [by rewrite decide_True|]. by exists reasons.
    + intros (reason & Hc & ([f s] & E & [= <- <-])%result_bind_Ok)%result_bind_Ok.
      destruct (IH _ _ E) as (-> & reasons & Hr & ->). split; [by rewrite decide_False|].
      exists (reason :: reasons). split; [by constructor|done].
Qed.
Lemma heuristic_failures_spec content dod failures extra :
  _evaluate_heuristic_checks content dod = Ok (failures, extra) ->
  exists reasons, Forall2 (fun check r => heuristic_check content check = Ok r) dod reasons
    /\ failures = concat (map (fun r => option_list r.1) reasons) /\ extra = concat (map (fun r => option_list r.2) reasons).
Proof.
  revert failures extra. induction dod as [|check rest IH]; intros failures extra; cbn [_evaluate_heuristic_checks].
  - intros [= <- <-]. by exists [].
  - intros (r & Hc & Hr)%result_bind_Ok. destruct r as [h d]. apply result_bind_Ok in Hr as ([hf df] & E & [= <- <-]).
    destruct (IH _ _ E) as (reasons & Hr & -> & ->). exists ((h, d) :: reasons). split; [by constructor|done].
Qed.

(** ** What is accepted *)

Definition det_holds (content check : string) : Prop := unevaluated check = true \/ deterministic_check content check = Ok None.
Definition heuristic_supported (content check : string) : Prop := exists r, heuristic_check content check = Ok (r, None).
Definition heuristic_holds (content check : string) : Prop := heuristic_check content check = Ok (None, None).

Lemma concat_options_nil {A B} (f : A -> option B) l : concat (map (fun x => option_list (f x)) l) = [] <-> Forall (fun x => f x = None) l.
Proof.
  induction l as [|x l IH]; cbn; [done|]. rewrite Forall_cons. destruct (f x); cbn; [|tauto]. split; [done|by intros [? _]].
Qed.
(** Whether all checks gave a result with [P], told from the list of the results. *)
Lemma all_results {A} (f : string -> result A) (P : A -> Prop) dod rs : Forall2 (fun check r => f check = Ok r) dod rs ->
  Forall P rs <-> Forall (fun check => exists r, f check = Ok r /\ P r) dod.
Proof.
  induction 1 as [|check r dod rs Hc _ IH]; [done|]. rewrite !Forall_cons, IH. split; intros [Hp ?]; (split; [|done]); [eauto|].
  destruct Hp as (r' & Hr & ?). congruence.
Qed.

Lemma no_deterministic_failure content dod failures skipped :
  _evaluate_deterministic_checks content dod = Ok (failures, skipped) -> failures = [] <-> Forall (det_holds content) dod.
Proof.
  intros (_ & rs & Hr & ->)%deterministic_failures_spec. rewrite (concat_options_nil (fun r => r)), (all_results _ _ _ _ Hr).
  rewrite !Forall_forall. unfold det_holds. split.
  - intros Hall check Hin. destruct (unevaluated check) eqn:E; [by left|right].
    destruct (Hall check) as (r & ? & ->); [by apply list_elem_of_filter|done].
  - intros Hall check Hc. apply list_elem_of_filter in Hc as [E Hin]. destruct (Hall check Hin); [congruence|eauto].
Qed.
Lemma no_unsupported content dod failures extra : _evaluate_heuristic_checks content dod = Ok (failures, extra) ->
  (extra = [] <-> Forall (heuristic_supported content) dod) /\ (extra = [] -> failures = [] <-> Forall (heuristic_holds content) dod).
Proof.
  intros (rs & Hr & -> & ->)%heuristic_failures_spec. rewrite !concat_options_nil.
  assert (Forall (fun x : option string * option string => x.2 = None) rs <-> Forall (heuristic_supported content) dod) as Hs.
  { rewrite (all_results _ _ _ _ Hr). apply Forall_iff. intros check. unfold heuristic_supported. split.
    - intros ([r d] & ? & [= ->]). eauto.
    - intros [r ?]. by exists (r, None). }
  split; [done|]. intros Hn. rewrite (all_results _ _ _ _ Hr). rewrite !Forall_forall. unfold heuristic_holds. split.
  - intros Hall check Hin. destruct (Hall check Hin) as ([r d] & Hc & Hr0). cbn in Hr0. subst r.
    apply Hs in Hn. rewrite Forall_forall in Hn. destruct (Hn check Hin) as [r' Hr']. congruence.
  - intros Hall check Hin. eauto.
Qed.

(** The answer [content] stands up to the checks [det], [heur] and to a verdict of
    the judge. *)
Record Accepts (gate_input : ModelQualityGateInput) (content : string) (det heur : list string)
    (verdict : option EnumDelegationJudgeVerdict) : Prop := {
  ac_deterministic : Forall (det_holds content) det;
  ac_supported : Forall (heuristic_supported content) heur;
  ac_authority :
    if _is_verifiable_deterministic_acceptance gate_input det
    then py_strip content <> "" /\ verdict <> Some JudgeFail
    else Forall (heuristic_holds content) heur /\ _has_adequacy_authority det heur = true
}.
Definition answer_of (gate_input : ModelQualityGateInput) : string := _strip_thinking_traces (gi_llm_response_content gate_input).

Lemma mk_verdict_passed gate_input passed c q rs fb ev v : mk_verdict gate_input passed c q rs fb ev = Ok v ->
  gv_result v = {| gr_correlation_id := gi_correlation_id gate_input; gr_passed := passed; gr_fail_category := c; gr_quality_score := q;
    gr_failure_reasons := rs; gr_fallback_recommended := fb; gr_score_source := ev_score_source ev |} /\ gv_evidence v = ev.
Proof. unfold mk_verdict. by destruct (score_in_range _); [intros [= <-]|]. Qed.

Lemma with_empty_floor_nil authority content det : with_empty_floor authority content det = [] <->
  det = [] /\ (authority = true -> py_strip content <> "").
Proof.
  unfold with_empty_floor. destruct authority; cbn [andb]; [|naive_solver].
  destruct (String.eqb_spec (py_strip content) "") as [E|E]; cbn [andb]; [|naive_solver].
  destruct (str_in _ det) eqn:Es; cbn [negb].
  - split; [intros ->; done|]. intros [-> ?]. done.
  - split; [done|]. intros [_ Hne]. by destruct Hne.
Qed.

Lemma declared_accepts gate_input det heur judge verdict v :
  delta_declared gate_input det heur judge verdict = Ok v ->
  gv_passed v = true <-> Accepts gate_input (answer_of gate_input) det heur verdict.
Proof.
  unfold delta_declared. fold (answer_of gate_input). set (content := answer_of gate_input).
  intros ([[df hf] skipped] & Hrun & Hv)%result_bind_Ok. unfold _run_contract_checks in Hrun.
  apply result_bind_Ok in Hrun as ([df0 sk0] & Hdet & Hrun). apply result_bind_Ok in Hrun as ([hf0 extra] & Hheur & [= <- <- <-]).
  apply no_deterministic_failure in Hdet. apply no_unsupported in Hheur as [Hsup Hheur].
  set (authority := _is_verifiable_deterministic_acceptance gate_input det) in *.
  pose proof (with_empty_floor_nil authority content (df0 ++ extra)) as Hfloor.
  set (fl := with_empty_floor authority content (df0 ++ extra)) in *. clearbody fl.
  apply result_bind_Ok in Hv as (q & _ & Hv).
  assert (Accepts gate_input content det heur verdict -> fl = []) as Hok.
  { intros [Hd Hs Hac]. apply Hfloor. rewrite (proj2 Hdet Hd), (proj2 Hsup Hs). split; [done|].
    intros Ha. fold authority in Hac. rewrite Ha in Hac. by destruct Hac. }
  unfold gv_passed. destruct fl as [|x fl]; cbn [truthy truthy_list] in Hv.
  2: { apply mk_verdict_passed in Hv as [-> _]. cbn. split; [done|]. intros Ha. by discriminate (Hok Ha). }
  destruct Hfloor as [Hfloor _]. destruct (Hfloor eq_refl) as [[-> ->]%app_nil Hempty].
  apply result_bind_Ok in Hv as ([q' ev] & _ & Hv). unfold judged in Hv.
  assert (Forall (det_holds content) det) as Hd by by apply Hdet. assert (Forall (heuristic_supported content) heur) as Hs by by apply Hsup.
  specialize (Hheur eq_refl). destruct authority eqn:Ea; cbn [negb] in Hv.
  - case_bool_decide as Ej; apply mk_verdict_passed in Hv as [-> _]; cbn; fold authority.
    + split; [done|]. intros [_ _ Hac]. fold authority in Hac. rewrite Ea in Hac. by destruct Hac.
    + split; [|done]. intros _. split; [done..|]. fold authority. rewrite Ea. auto.
  - destruct hf0 as [|y hf0]; cbn [truthy truthy_list] in Hv.
    + destruct (_has_adequacy_authority det heur) eqn:Eh; cbn [negb] in Hv; apply mk_verdict_passed in Hv as [-> _]; cbn.
      * split; [|done]. intros _. split; [done..|]. fold authority. rewrite Ea. split; [by apply Hheur|done].
      * split; [done|]. intros [_ _ Hac]. fold authority in Hac. rewrite Ea in Hac. destruct Hac. congruence.
    + apply mk_verdict_passed in Hv as [-> _]; cbn. split; [done|]. intros [_ _ Hac]. fold authority in Hac. rewrite Ea in Hac.
      destruct Hac as [Hall _]. by apply Hheur in Hall.
Qed.

(** A deterministic check that does not hold blocks. *)
Lemma declared_blocks gate_input det heur judge verdict v : delta_declared gate_input det heur judge verdict = Ok v ->
  ~ Forall (det_holds (answer_of gate_input)) det -> gv_passed v = false /\ gr_fail_category (gv_result v) = GateFailDeterministic.
Proof.
  unfold delta_declared. fold (answer_of gate_input). set (content := answer_of gate_input).
  intros ([[df hf] skipped] & Hrun & Hv)%result_bind_Ok Hno. unfold _run_contract_checks in Hrun.
  apply result_bind_Ok in Hrun as ([df0 sk0] & Hdet & Hrun). apply result_bind_Ok in Hrun as ([hf0 extra] & _ & [= <- <- <-]).
  apply no_deterministic_failure in Hdet. pose proof (with_empty_floor_nil (_is_verifiable_deterministic_acceptance gate_input det) content (df0 ++ extra)) as Hfloor.
  set (fl := with_empty_floor _ content (df0 ++ extra)) in *. clearbody fl. apply result_bind_Ok in Hv as (q & _ & Hv).
  destruct fl as [|x fl]; cbn [truthy truthy_list] in Hv.
  2: { apply mk_verdict_passed in Hv as [Hr _]. unfold gv_passed. by rewrite Hr. }
  destruct Hfloor as [Hfloor _]. destruct (Hfloor eq_refl) as [[-> _]%app_nil _]. by destruct Hno; apply Hdet.
Qed.

Lemma nothing_declared_never_passes gate_input v : _run_legacy_checks gate_input = Ok v -> gv_passed v = false.
Proof.
  unfold _run_legacy_checks. destruct (score_length _ _), (score_refusal _), (score_markers _ _).
  intros [E _]%mk_verdict_passed. unfold gv_passed. by rewrite E.
Qed.

Lemma no_check_no_authority gate_input : _is_verifiable_deterministic_acceptance gate_input [] = false.
Proof. unfold _is_verifiable_deterministic_acceptance. by rewrite andb_false_r. Qed.

Lemma delta_accepts gate_input judge verdict v :
  delta gate_input judge verdict None = Ok v ->
  gv_passed v = true <-> Accepts gate_input (answer_of gate_input) (effective_dod gate_input).1 (effective_dod gate_input).2 verdict.
Proof.
  unfold delta. destruct (effective_dod gate_input) as [det heur]. cbn [fst snd].
  destruct (truthy det || truthy heur) eqn:E; [apply declared_accepts|].
  intros Hv%nothing_declared_never_passes. rewrite Hv. split; [done|]. destruct det, heur; try done.
  intros [_ _ Hac]. rewrite no_check_no_authority in Hac. by destruct Hac.
Qed.

(** The verdict is of the delegation the input is of. *)
Lemma delta_correlation gate_input judge verdict v : delta gate_input judge verdict None = Ok v ->
  gr_correlation_id (gv_result v) = gi_correlation_id gate_input.
Proof.
  assert (forall p c q rs fb ev, mk_verdict gate_input p c q rs fb ev = Ok v -> gr_correlation_id (gv_result v) = gi_correlation_id gate_input) as Hv.
  { by intros p c q rs fb ev [-> _]%mk_verdict_passed. }
  unfold delta. destruct (effective_dod gate_input) as [det heur]. destruct (truthy det || truthy heur).
  - unfold delta_declared. intros ([[df hf] sk] & _ & Hd)%result_bind_Ok. apply result_bind_Ok in Hd as (q & _ & Hd).
    destruct (truthy _); [by apply Hv in Hd|]. apply result_bind_Ok in Hd as ([q' ev] & _ & Hd). unfold judged in Hd.
    repeat match type of Hd with (if ?b then _ else _) = _ => destruct b end; by apply Hv in Hd.
  - unfold _run_legacy_checks. destruct (score_length _ _), (score_refusal _), (score_markers _ _). apply Hv.
Qed.

Lemma delta_blocks gate_input judge verdict v check : delta gate_input judge verdict None = Ok v ->
  check ∈ (effective_dod gate_input).1 -> ~ det_holds (answer_of gate_input) check ->
  gv_passed v = false /\ gr_fail_category (gv_result v) = GateFailDeterministic.
Proof.
  unfold delta. destruct (effective_dod gate_input) as [det heur]. cbn [fst]. intros Hv Hin Hno.
  destruct det as [|c det]; [by apply not_elem_of_nil in Hin|]. cbn [truthy truthy_list orb] in Hv.
  apply (declared_blocks _ _ _ _ _ _ Hv). rewrite Forall_forall. intros Hall. by apply Hno, Hall.
Qed.

(** ** What never decides *)

(** Checks that only reject cannot make an answer pass. *)
Lemma reject_only_not_accepted gate_input content det heur verdict :
  Forall (fun check => grants_authority check = false) det ->
  Forall (fun check => _is_reject_only_heuristic_check check = true) heur ->
  ~ Accepts gate_input content det heur verdict.
Proof.
  intros Hd Hh [_ _ Hac].
  assert (existsb grants_authority det = false) as Ed.
  { apply not_true_iff_false. intros (c & Hin & Hg)%existsb_exists. rewrite Forall_forall in Hd.
    rewrite Hd in Hg; [done|]. by apply list_elem_of_In. }
  assert (existsb (fun check => negb (_is_reject_only_heuristic_check check)) heur = false) as Eh.
  { apply not_true_iff_false. intros (c & Hin & Hg)%existsb_exists. rewrite Forall_forall in Hh.
    rewrite Hh in Hg; [done|]. by apply list_elem_of_In. }
  unfold _is_verifiable_deterministic_acceptance in Hac. rewrite Ed, andb_false_r in Hac. destruct Hac as [_ Hac].
  unfold _has_adequacy_authority in Hac. by rewrite Ed, Eh in Hac.
Qed.

(** The judge's verdict can only take an acceptance back. *)
Lemma accepts_verdict gate_input content det heur verdict : Accepts gate_input content det heur verdict <->
  Accepts gate_input content det heur None
  /\ (_is_verifiable_deterministic_acceptance gate_input det = true -> verdict <> Some JudgeFail).
Proof.
  destruct (_is_verifiable_deterministic_acceptance gate_input det) eqn:E; split.
  - intros [Hd Hs Hac]. rewrite E in Hac. destruct Hac as [Hne Hv]. split; [split; [done..|]|done]. by rewrite E.
  - intros [[Hd Hs Hac] Hv]. rewrite E in Hac. split; [done..|]. rewrite E. split; [apply Hac|auto].
  - intros [Hd Hs Hac]. rewrite E in Hac. split; [split; [done..|]|done]. by rewrite E.
  - intros [[Hd Hs Hac] Hv]. rewrite E in Hac. split; [done..|]. by rewrite E.
Qed.
Definition vetoes (gate_input : ModelQualityGateInput) (verdict : option EnumDelegationJudgeVerdict) : bool :=
  _is_verifiable_deterministic_acceptance gate_input (effective_dod gate_input).1 && bool_decide (verdict = Some JudgeFail).
Lemma judge_vetoes gate_input judge verdict v v0 :
  delta gate_input judge verdict None = Ok v -> delta gate_input None None None = Ok v0 ->
  gv_passed v = gv_passed v0 && negb (vetoes gate_input verdict).
Proof.
  intros Hv%delta_accepts Hv0%delta_accepts. rewrite accepts_verdict in Hv. unfold vetoes.
  apply eq_bool_prop_intro. rewrite !Is_true_true, andb_true_iff, Hv, Hv0, negb_true_iff, andb_false_iff, bool_decide_eq_false.
  destruct (_is_verifiable_deterministic_acceptance _ _); intuition congruence.
Qed.

(** An unevaluated check counts for nothing. *)
Lemma evaluate_evaluated content det failures skipped : _evaluate_deterministic_checks content det = Ok (failures, skipped) ->
  _evaluate_deterministic_checks content (evaluated det) = Ok (failures, []) /\ length det = length (evaluated det) + length skipped.
Proof.
  revert failures skipped. induction det as [|check rest IH]; intros failures skipped; cbn [_evaluate_deterministic_checks].
  - by intros [= <- <-].
  - rewrite evaluated_cons. fold (unevaluated check). destruct (unevaluated check) eqn:E.
    + intros ([f s] & Ef & [= <- <-])%result_bind_Ok. apply IH in Ef as [-> Hl].
      split; [done|]. cbn [length]. rewrite Hl. lia.
    + intros (reason & Hc & ([f s] & Ef & [= <- <-])%result_bind_Ok)%result_bind_Ok. apply IH in Ef as [Ef Hl].
      cbn [_evaluate_deterministic_checks]. fold (unevaluated check). rewrite E, Hc. cbn [mbind result_bind]. rewrite Ef.
      cbn [length]. split; [done|]. by rewrite Hl.
Qed.
Lemma evaluate_raises content det e : _evaluate_deterministic_checks content det = Raise e ->
  _evaluate_deterministic_checks content (evaluated det) = Raise e.
Proof.
  induction det as [|check rest IH]; cbn [_evaluate_deterministic_checks]; [done|].
  rewrite evaluated_cons. fold (unevaluated check). destruct (unevaluated check) eqn:E.
  - destruct (_evaluate_deterministic_checks content rest) as [[f s]|x]; [done|]. exact IH.
  - cbn [_evaluate_deterministic_checks]. fold (unevaluated check). rewrite E.
    destruct (deterministic_check content check) as [r|x]; cbn [mbind result_bind]; [|done].
    destruct (_evaluate_deterministic_checks content rest) as [[f s]|x]; [done|]. intros [= ->]. by rewrite IH.
Qed.
Lemma evaluated_authority det : existsb grants_authority (evaluated det) = existsb grants_authority det.
Proof.
  induction det as [|c l IH]; [done|]. rewrite evaluated_cons. cbn [existsb]. unfold grants_authority at 2.
  fold (unevaluated c). destruct (unevaluated c) eqn:E; [by rewrite andb_false_r|].
  cbn [existsb]. unfold grants_authority at 1. fold (unevaluated c). by rewrite E, IH.
Qed.
Lemma mk_verdict_result gate_input passed c q rs fb ev ev' : ev_actual_score ev = ev_actual_score ev' -> ev_score_source ev = ev_score_source ev' ->
  gv_result <$> mk_verdict gate_input passed c q rs fb ev = gv_result <$> mk_verdict gate_input passed c q rs fb ev'.
Proof. unfold mk_verdict. intros -> ->. by destruct (score_in_range _). Qed.

Lemma judged_result gate_input det det' heur authority hf verdict q ev ev' :
  _has_adequacy_authority det heur = _has_adequacy_authority det' heur ->
  ev_actual_score ev = ev_actual_score ev' -> ev_score_source ev = ev_score_source ev' ->
  gv_result <$> judged gate_input det heur authority hf verdict q ev = gv_result <$> judged gate_input det' heur authority hf verdict q ev'.
Proof.
  unfold judged. intros -> Hs Hc. destruct authority; [by destruct (bool_decide _); apply mk_verdict_result|].
  destruct (truthy hf); [by apply mk_verdict_result|]. by destruct (negb _); apply mk_verdict_result.
Qed.

Lemma unevaluated_no_effect gate_input det heur judge verdict :
  gv_result <$> delta_declared gate_input det heur judge verdict = gv_result <$> delta_declared gate_input (evaluated det) heur judge verdict.
Proof.
  unfold delta_declared, _run_contract_checks, _is_verifiable_deterministic_acceptance. rewrite evaluated_authority.
  set (content := _strip_thinking_traces _).
  destruct (_evaluate_deterministic_checks content det) as [[df skipped]|x] eqn:Ed; [|by rewrite (evaluate_raises _ _ _ Ed)].
  destruct (evaluate_evaluated _ _ _ _ Ed) as [-> Hlen]. cbn [mbind result_bind].
  destruct (_evaluate_heuristic_checks content heur) as [[hf extra]|x]; [|done]. cbn [mbind result_bind].
  set (authority := str_in _ _ && _). set (fl := with_empty_floor authority content _).
  assert (_evaluated_deterministic_total det fl skipped = _evaluated_deterministic_total (evaluated det) fl []) as Ht.
  { unfold _evaluated_deterministic_total. rewrite Hlen. cbn [length]. lia. }
  rewrite Ht. destruct (_graded_quality_score _ _ _ _) as [q|x]; [|done]. cbn [mbind result_bind].
  assert (ev_actual_score (if authority then _deterministic_acceptance_evidence (gi_task_type gate_input) content det fl skipped else no_evidence)
    = ev_actual_score (if authority then _deterministic_acceptance_evidence (gi_task_type gate_input) content (evaluated det) fl [] else no_evidence)) as Hs.
  { destruct authority; [|done]. cbn [_deterministic_acceptance_evidence ev_actual_score]. by rewrite Ht. }
  assert (ev_score_source (if authority then _deterministic_acceptance_evidence (gi_task_type gate_input) content det fl skipped else no_evidence)
    = ev_score_source (if authority then _deterministic_acceptance_evidence (gi_task_type gate_input) content (evaluated det) fl [] else no_evidence)) as Hc.
  { by destruct authority. }
  set (ev := if authority then _ else no_evidence) in *. set (ev' := if authority then _ else no_evidence) in *. clearbody ev ev'.
  destruct (truthy fl); [by apply mk_verdict_result|].
  assert (_has_adequacy_authority det heur = _has_adequacy_authority (evaluated det) heur) as Ha.
  { unfold _has_adequacy_authority. by rewrite evaluated_authority. }
  unfold accepted_score. clearbody authority. destruct judge as [j|]; [destruct authority|]; cbn [mbind result_bind].
  - destruct (_combined_quality_score _ _) as [sc|x]; [|done]. cbn [mbind result_bind]. by apply judged_result.
  - by apply judged_result.
  - by apply judged_result.
Qed.

(** ** A response schema *)

Lemma sort_by_nil {A K} `{PyOrd K} (key : A -> K) l : sort_by key l = [] <-> l = [].
Proof. pose proof (sort_by_perm key l) as Hp. split; intros E; [rewrite E in Hp; by apply Permutation_nil_l in Hp|subst l; by apply Permutation_nil_r in Hp]. Qed.

(** The answer is JSON that the schema has nothing against. *)
Definition conforms (contract : Obj) (content : string) : Prop :=
  exists candidate, json_loads content = Ok candidate /\ check_schema contract = Ok tt /\ iter_errors contract candidate = Ok [].
Lemma contract_decides gate_input judge verdict contract v :
  delta gate_input judge verdict (Some contract) = Ok v ->
  gv_passed v = true <-> py_strip (answer_of gate_input) <> "" /\ conforms contract (py_strip (answer_of gate_input)).
Proof.
  cbn [delta]. unfold _evaluate_response_contract. fold (answer_of gate_input). set (content := py_strip (answer_of gate_input)).
  assert (forall c q rs fb ev, mk_verdict gate_input false c q rs fb ev = Ok v -> gv_passed v = true -> False) as Hno.
  { intros c q rs fb ev [E _]%mk_verdict_passed. unfold gv_passed. by rewrite E. }
  destruct (String.eqb_spec content "") as [E|E]; [intros Hv; split; [intros Hp; by destruct (Hno _ _ _ _ _ Hv Hp)|by intros [? _]]|].
  unfold conforms. destruct (json_loads content) as [candidate|x] eqn:Ej.
  2: { intros Hv. split; [|intros (_ & j & ? & _); congruence]. intros Hp. by destruct x; try done; destruct (Hno _ _ _ _ _ Hv Hp). }
  unfold _schema_violation_reasons. intros (rs & (u & Hc & (errors & He & [= <-])%result_bind_Ok)%result_bind_Ok & Hv)%result_bind_Ok.
  destruct u, (map schema_reason (sort_by se_path errors)) as [|r rs] eqn:Em.
  - apply map_eq_nil, sort_by_nil in Em as ->. apply mk_verdict_passed in Hv as [Hr _]. unfold gv_passed. rewrite Hr. cbn. split; [|done]. eauto.
  - split; [intros Hp; by destruct (Hno _ _ _ _ _ Hv Hp)|]. intros (_ & j & [= <-] & _ & He'). assert (errors = []) as -> by congruence. done.
Qed.
End laws.

(** ** The judge *)

Lemma parsed_in_unit raw x reasoning : _parse_adequacy raw = Ok (Some (x, reasoning)) -> in_unit x = true.
Proof.
  unfold _parse_adequacy. destruct (re_texts _ raw) as [|text l]; [done|]. destruct (json_loads text) as [[]|[]]; try done.
  destruct (dict_get _ _) as [j|]; [|done]. intros H.
  assert (exists f, json_to_float j = Ok f /\ (x0 ← f; if in_unit x0 then Some (x0, default "No reasoning provided." (json_str <$> dict_get "reasoning" l0)) else None) = Some (x, reasoning)) as (f & _ & Hf).
  { destruct j; try done; apply result_bind_Ok in H as (f & ? & [= Hf]); by exists f. }
  destruct f as [y|]; [|done]. cbn in Hf. destruct (in_unit y) eqn:E; [|done]. by injection Hf as -> _.
Qed.

(** A digest has the recorded form. *)
Lemma match_chars p cs : Forall (fun c => p c = true) cs -> forall s rest, p_rest s = cs ++ rest ->
  exists s', Match (repeat_re (length cs) (Cls p)) s s' /\ p_rest s' = rest.
Proof.
  induction 1 as [|c cs Hc _ IH]; intros s rest Hs; cbn [length repeat_re]; [exists s; split; [constructor|done]|].
  destruct (IH (step c (cs ++ rest) s) rest eq_refl) as (s' & Hm & Hr). exists s'. split; [|done].
  econstructor; [|exact Hm]. by constructor.
Qed.
Lemma match_lit l : forall s rest, p_rest s = l ++ rest -> exists s', Match (rseq (map rchar l)) s s' /\ p_rest s' = rest.
Proof.
  induction l as [|c l IH]; intros s rest Hs; [exists s; split; [constructor|done]|].
  destruct (IH (step c (l ++ rest) s) rest eq_refl) as (s' & Hm & Hr). exists s'. split; [|done].
  econstructor; [|exact Hm]. constructor; [done|]. apply Ascii.eqb_refl.
Qed.
Lemma digest_valid cs : length cs = 64 -> Forall (fun c => hex_char c = true) cs -> _validate_hash ("sha256:" +:+ sol cs) = true.
Proof.
  intros Hl Hf. unfold _validate_hash, re_matches_start. rewrite bool_decide_eq_true. unfold re_match.
  rewrite los_app. unfold sol. rewrite los_of_list.
  destruct (match_lit (los "sha256:") (at_pos None (los "sha256:" ++ cs)) cs eq_refl) as (s1 & Hm1 & Hr1).
  destruct (match_chars hex_char cs Hf s1 []) as (s2 & Hm2 & Hr2); [by rewrite app_nil_r|]. rewrite Hl in Hm2.
  assert (Match _SHA256_RE (at_pos None (los "sha256:" ++ cs)) s2) as Hm.
  { unfold _SHA256_RE. cbn [rseq foldr]. eapply m_cat; [by apply m_start|]. eapply m_cat; [exact Hm1|]. eapply m_cat; [exact Hm2|].
    eapply m_cat; [apply m_end; by rewrite Hr2|constructor]. }
  eapply run_complete; [exact Hm|eauto].
Qed.
Lemma sha256_valid text : _validate_hash (sha256_text text) = true.
Proof.
  unfold sha256_text. destruct (sha256_hex_chars text) as (cs & E & Hl & Hf).
  assert (sha256_hex text = sol cs) as ->; [|by apply digest_valid]. unfold sol. by rewrite <- E, String.string_of_list_ascii_of_string.
Qed.

(** An event carries the digest of the rest of it. *)
Lemma built_event c reasoning verdict actual kind msg e :
  build_delegation_judge_verdict_event c reasoning verdict actual kind msg = Ok e ->
  e = event_of c reasoning verdict actual kind msg (compute_event_hash e) /\ event_valid e = true.
Proof.
  unfold build_delegation_judge_verdict_event, mk_event. intros (draft & Hd & He)%result_bind_Ok.
  destruct (event_valid (event_of _ _ _ _ _ _ no_hash)); [|done]. injection Hd as <-.
  destruct (event_valid (event_of _ _ _ _ _ _ (sha256_json _))) eqn:Ev; [|done]. injection He as <-. split; [|exact Ev]. reflexivity.
Qed.

(** Every judgement with the code rubric makes an event. *)
Lemma build_ok c reasoning verdict actual kind msg :
  forallb truthy [jc_task_type c; jc_judge_model c; jc_judge_model_version c; jc_judge_provider c; jc_rubric_id c; jc_judge_node_version c] = true ->
  _validate_hash (jc_rubric_hash c) = true -> fle fzero (jc_temperature c) = true -> fle (jc_temperature c) (float_of_Z 2) = true ->
  score_in_range actual = true -> _validate_failure_semantics (event_of c reasoning verdict actual kind msg "") = true ->
  is_ok (build_delegation_judge_verdict_event c reasoning verdict actual kind msg).
Proof.
  intros Ht Hr H0 H2 Hs Hf.
  assert (forall h, _validate_hash h = true -> event_valid (event_of c reasoning verdict actual kind msg h) = true) as Hv.
  { intros h Hh. unfold event_valid. cbn -[_validate_hash fle float_of_Z fzero _validate_failure_semantics truthy score_in_range sha256_text forallb].
    rewrite Ht. cbn [forallb]. rewrite Hr, !sha256_valid, Hh, H0, H2, Hs. exact Hf. }
  unfold build_delegation_judge_verdict_event, mk_event. rewrite Hv by (by apply digest_valid; [reflexivity|repeat constructor]).
  cbn [mbind result_bind]. rewrite Hv by apply sha256_valid. by eexists.
Qed.

Section judge_laws.
Context `{InferenceBridge}.

(** The model answered with a score, or the judgement is recorded as failed. *)
Lemma score_event key cid task_type prompt candidate criteria : task_type <> "" -> _resolve_judge_model_key key <> "" ->
  (forall raw, infer (_resolve_judge_model_key key) (_build_user_prompt task_type prompt candidate criteria) fzero = Ok raw -> is_ok (_parse_adequacy raw)) ->
  exists e, (score delegation_code_adequacy_v1 key cid task_type prompt candidate criteria).1 = Ok e /\ jv_judge_model e = _resolve_judge_model_key key
    /\ (jv_verdict e = JudgeFailed \/ exists x, jv_actual_score e = Some x /\ in_unit x = true
          /\ jv_verdict e = _verdict_for_score x delegation_code_adequacy_v1).
Proof.
  intros Ht Hk Hraw. unfold score. cbn [fst]. change (rb_temperature delegation_code_adequacy_v1) with fzero.
  set (up := _build_user_prompt _ _ _ _) in *. set (k := _resolve_judge_model_key key) in *.
  set (c := judge_call delegation_code_adequacy_v1 k cid task_type up candidate).
  assert (forall reasoning verdict actual kind msg, score_in_range actual = true ->
    _validate_failure_semantics (event_of c reasoning verdict actual kind msg "") = true ->
    exists e, build_delegation_judge_verdict_event c reasoning verdict actual kind msg = Ok e /\ jv_judge_model e = k
      /\ jv_verdict e = verdict /\ jv_actual_score e = actual) as Hb.
  { intros reasoning verdict actual kind msg Hs Hf.
    destruct (build_ok c reasoning verdict actual kind msg) as [e He]; try done.
    - cbn. clear -Ht Hk. destruct task_type, k; done.
    - exists e. split; [done|]. apply built_event in He as [-> _]. done. }
  assert (forall text, text <> "" -> exists e, build_delegation_judge_verdict_event c text JudgeFailed None (Some "JUDGE_LLM_CALL_FAILED") (Some text) = Ok e
     /\ jv_judge_model e = k /\ jv_verdict e = JudgeFailed /\ jv_actual_score e = None) as Hfail.
  { intros text Hne. apply Hb; [done|]. by destruct text. }
  destruct (infer k up fzero) as [raw|x].
  - destruct (Hraw raw eq_refl) as [[[x reasoning]|] Hp]; rewrite Hp; cbn [mbind result_bind].
    + apply parsed_in_unit in Hp. destruct (Hb reasoning (_verdict_for_score x delegation_code_adequacy_v1) (Some x) None None Hp) as (e & He & Hm & Hv & Hs).
      { unfold _verdict_for_score. by destruct (fge _ _); [|destruct (fge _ _)]. }
      exists e. split; [done|]. split; [done|]. right. by exists x.
    + edestruct Hb as (e & He & Hm & Hv & _); [..|exists e; split; [exact He|split; [done|by left]]]; done.
  - destruct (Hfail (exn_class x +:+ ": " +:+ exn_str x)) as (e & He & Hm & Hv & _); [by destruct x; try done; destruct cls|].
    exists e. auto.
Qed.

Lemma event_describes_itself c reasoning verdict actual kind msg e :
  build_delegation_judge_verdict_event c reasoning verdict actual kind msg = Ok e ->
  jv_event_hash e = compute_event_hash e /\ _validate_hash (jv_event_hash e) = true /\ (jv_verdict e = JudgeFailed -> jv_actual_score e = None).
Proof.
  intros [He Hv]%built_event. split_and!.
  - by rewrite He at 1.
  - unfold event_valid in Hv. breflect. by cbn [forallb] in *; breflect.
  - intros Hf. unfold event_valid in Hv. apply andb_prop in Hv as [_ Hv]. unfold _validate_failure_semantics in Hv. rewrite Hf in Hv.
    by destruct (jv_actual_score e).
Qed.
Lemma score_self_describing rubric key cid task_type prompt candidate criteria e :
  (score rubric key cid task_type prompt candidate criteria).1 = Ok e ->
  jv_event_hash e = compute_event_hash e /\ _validate_hash (jv_event_hash e) = true /\ (jv_verdict e = JudgeFailed -> jv_actual_score e = None).
Proof.
  unfold score. cbn [fst]. destruct (infer _ _ _) as [raw|x]; [|apply event_describes_itself].
  intros ([[x reasoning]|] & _ & He)%result_bind_Ok; by apply event_describes_itself in He.
Qed.
End judge_laws.

(** ** The handler *)

Section handler_laws.
Context `{Parsers, SchemaValidator, InferenceBridge}.

Lemma async_runs_delta gate_input key v e k : handle_async gate_input key = (Ok (v, e), k) ->
  exists j verdict, delta gate_input j verdict None = Ok v
    /\ match e with
       | None => j = None /\ verdict = None /\ str_in (gi_task_type gate_input) JUDGE_COMBINABLE_TASK_TYPES = false
       | Some ev => (j, verdict) = heard ev /\ str_in (gi_task_type gate_input) JUDGE_COMBINABLE_TASK_TYPES = true
       end.
Proof.
  unfold handle_async. destruct (str_in _ JUDGE_COMBINABLE_TASK_TYPES).
  - destruct (score _ _ _ _ _ _ _) as [ev key']. intros [= Hr <-].
    apply result_bind_Ok in Hr as (e' & _ & (v' & Hv & [= <- <-])%result_bind_Ok). destruct (heard e') as [j verdict]. by exists j, verdict.
  - intros [= Hr <-]. apply result_bind_Ok in Hr as (v' & Hv & [= <- <-]). by exists None, None.
Qed.
Lemma heard_fail ev : (heard ev).2 = Some JudgeFail <-> jv_verdict ev = JudgeFail.
Proof. unfold heard. by destruct (jv_verdict ev). Qed.
Lemma heard_failed ev : jv_verdict ev = JudgeFailed -> heard ev = (None, None).
Proof. unfold heard. by intros ->. Qed.
End handler_laws.
