(* ===== verification/QualityProps.v ===== *)
(** * Delegation quality gate: properties

    What the gate's verdict rests on, alone and in the delegation workflow. *)
From S2P Require Import Prelude Fsm PyFloat PyJson PyRegex DelegationModels DelegationRouting DelegationBar DelegationWorkflow DelegationHandlers DelegationSpec DelegationRefine DelegationSystem DelegationProps QualityChecks QualityGate QualityJudge QualityGateLaws.

(** ** Concrete parsers, schemas and judges *)

(** Parsers that read every text, and one that reads none. *)
#[local] Instance reads_all : Parsers := {| ast_parse := fun _ => Parsed; yaml_safe_load := fun _ => Parsed |}.
(** A validator whose schemas name one required member. *)
#[local] Instance requires_member : SchemaValidator := {|
  check_schema := fun _ => Ok tt;
  iter_errors := fun schema j =>
    match dict_get "required" schema, j with
    | Some (JStr k), JObj l => Ok (if dict_has k l then [] else [{| se_path := []; se_message := "missing " +:+ k |}])
    | _, _ => Ok []
    end
|}.
(** A judge that answers with [text], and one that cannot be reached. *)
Definition judge_saying (text : string) : InferenceBridge := {| resolved_model_id := Ok "glm-5.2"; infer := fun _ _ _ => Ok text |}.
Definition judge_down : InferenceBridge :=
  {| resolved_model_id := Raise (RuntimeError "no route"); infer := fun _ _ _ => Raise (RuntimeError "no route") |}.

(** A gate input of [task_type] with the checks of [code_generation]'s contract. *)
Definition code_checks : list string := ["compiles_without_errors"; "final_artifact_only"; "passes_existing_tests"].
Definition code_markers : list string := ["no_refusal"; "follows_codebase_conventions"; "no_obvious_regressions"].
Definition gate_input_of (task_type content : string) (det heur criteria : list string) : ModelQualityGateInput := {|
  gi_correlation_id := "c1"; gi_task_type := task_type; gi_llm_response_content := content; gi_expected_markers := [];
  gi_min_response_length := 60; gi_dod_deterministic := det; gi_dod_heuristic := heur;
  gi_quality_contract_mode := "extend_task_class"; gi_acceptance_criteria := criteria
|}.
Definition code_input (content : string) : ModelQualityGateInput := gate_input_of "code_generation" content code_checks code_markers [].
Definition quote (s : string) : string := String dq (s +:+ String dq "").
Definition judge_text (score : string) : string := "Sure: {" +:+ quote "adequacy_score" +:+ ": " +:+ score +:+ "}".

(** The verdict of a call, short. *)
Definition summary (r : result GateVerdict) : result (bool * EnumQualityGateCategory * string * list string) :=
  v ← r; Ok (gv_passed v, gr_fail_category (gv_result v), float_repr (gr_quality_score (gv_result v)), gr_failure_reasons (gv_result v)).
Definition async_summary (b : InferenceBridge) (gate_input : ModelQualityGateInput) : result (bool * EnumQualityGateCategory * string * list string) :=
  summary (fst <$> (handle_async (H1 := b) gate_input "routing-resolved").1).

Example judged_code :
  map (fun b => async_summary b (code_input "x = 1")) [judge_saying (judge_text "0.9"); judge_saying (judge_text "0.3"); judge_down; judge_saying "no"] =
  [Ok (true, GatePass, "0.96", []); Ok (false, GateFailHeuristic, "0.72", [_JUDGE_FAIL_REASON]);
   Ok (true, GatePass, "0.733", []); Ok (true, GatePass, "0.733", [])].
Proof. vm_compute. reflexivity. Qed.

(** ** What passes *)

(** C6. What an answer must do to pass the gate. Under a caller's response schema
    it passes exactly if it is not empty, is JSON and the schema has nothing against
    it, whatever checks are declared and whatever the judge says. Without one it
    passes exactly if every evaluated deterministic check holds, every heuristic name
    is known, and either a verifiable task class holds acceptance authority, the
    answer is not empty and the judge did not fail it, or every heuristic check holds
    and one of the checks has adequacy authority. *)
Theorem gate_passes_exactly `{Parsers, SchemaValidator} gate_input judge_adequacy_score judge_verdict response_contract v :
  delta gate_input judge_adequacy_score judge_verdict response_contract = Ok v ->
  gv_passed v = true <->
    match response_contract with
    | Some contract => py_strip (answer_of gate_input) <> "" /\ conforms contract (py_strip (answer_of gate_input))
    | None => Accepts gate_input (answer_of gate_input) (effective_dod gate_input).1 (effective_dod gate_input).2 judge_verdict
    end.
Proof.
  destruct response_contract as [contract|].
  - exact (contract_decides gate_input judge_adequacy_score judge_verdict contract v).
  - exact (delta_accepts gate_input judge_adequacy_score judge_verdict v).
Qed.
Lemma gate_passes_exactly_witness :
  (exists v, gv_passed v = true <-> Accepts (code_input "x = 1") "x = 1" code_checks code_markers (Some JudgeBorderline))
  /\ (exists v, gv_passed v = true <-> py_strip " {} " <> "" /\ conforms [("required", JStr "a")] (py_strip " {} ")).
Proof.
  split; eexists.
  - apply (gate_passes_exactly (code_input "x = 1") (Some (lit "0.7")) (Some JudgeBorderline) None). vm_compute. reflexivity.
  - apply (gate_passes_exactly (code_input " {} ") None None (Some [("required", JStr "a")])). vm_compute. reflexivity.
Defined.

(** C5. A delegation that completes on the verdict of the gate's handler returns
    the answer that verdict is about. The orchestrator handed [gate_input] to the gate
    on [j]; [between] then and the verdict's arrival no other verdict of the delegation
    came. If the verdict completes the delegation, the content returned is the one of
    [gate_input], and it met the gate's criterion with what the judge the handler asked
    said: every evaluated deterministic check held, every heuristic name was known, and
    on a verifiable task class the answer was not empty and the judge did not fail it,
    elsewhere every heuristic check held and one check had adequacy authority. Its
    score is not below the bar, unless the judge gave no score. *)
Theorem completion_needs_accepted_answer `{Parsers, SchemaValidator, InferenceBridge} world before j between gate_input key v e k r :
  OutGate gate_input ∈ (commit world (run_of world before).1 j).2 ->
  Forall (fun i => forall gate, i = InGate gate -> gr_correlation_id gate <> gi_correlation_id gate_input) between ->
  handle_async gate_input key = (Ok (v, e), k) ->
  OutCompleted r ∈ (commit world (run_of world (before ++ j :: between)).1 (InGate (gv_result v))).2 ->
  dr_content r = gi_llm_response_content gate_input
  /\ Accepts gate_input (answer_of gate_input) (effective_dod gate_input).1 (effective_dod gate_input).2 (e ≫= fun ev => (heard ev).2)
  /\ exists bar, resolve_required_bar_authority (w_routing world) (dr_task_type r) None None = Ok bar
       /\ (flt (gr_quality_score (gv_result v)) (ra_required_bar bar) = false
           \/ gr_score_source (gv_result v) = SCORE_SOURCE_DETERMINISTIC_ACCEPTANCE).
Proof.
  intros (w & Hw & Ha)%emitted_gate Hbet (js & verdict & Hv & He)%async_runs_delta [(bar & Hb & Hp & _ & Hs & _) (w' & Hw' & Hc)]%gate_completion.
  rewrite (delta_correlation _ _ _ _ Hv) in Hw'.
  assert ((run_of world (before ++ j :: between)).1.1 !! gi_correlation_id gate_input = Some w) as Hw2.
  { unfold run_of in *. rewrite run_app. cbn [fst Fsm.run]. by apply (run_awaits world gate_input). }
  rewrite Hw2 in Hw'. injection Hw' as <-. destruct Ha as [_ Ha]. rewrite Ha in Hc. injection Hc as Hc.
  split; [done|]. split; [|by exists bar]. apply delta_accepts in Hv.
  assert ((e ≫= fun ev => (heard ev).2) = verdict) as ->; [|by apply Hv].
  destruct e as [ev|]; cbn; [destruct He as [<- _]; done|by destruct He as (_ & -> & _)].
Qed.
(** A delegation with acceptance criteria of its own, up to its routing decision,
    the gate's input for its first answer, and what comes before the verdict. *)
Definition judged_request : ModelDelegationRequest := {|
  rq_correlation_id := "c1"; rq_task_type := "test"; rq_prompt := sample_prompt; rq_context_pack := None; rq_context_pack_hash := None;
  rq_output_schema_key := None; rq_compliance_budget := None; rq_quality_contract_mode := "extend_task_class";
  rq_acceptance_criteria := code_checks; rq_tenant_id := None |}.
Definition judged_start : list DelegationWorkflowInput :=
  InRequest judged_request :: route_answers sample_env [mk_routing_intent judged_request None []].
Definition judged_input : ModelQualityGateInput := gate_input_of "test" "def test(): pass" [] [] code_checks.
Definition judged_between : list DelegationWorkflowInput := [InResponse (sample_response "late")].

Lemma completion_needs_accepted_answer_witness : exists v e r,
  dr_content r = "def test(): pass"
  /\ Accepts judged_input "def test(): pass" code_checks [] (e ≫= fun ev => (heard ev).2)
  /\ exists bar, resolve_required_bar_authority (w_routing sample_world) (dr_task_type r) None None = Ok bar
       /\ (flt (gr_quality_score (gv_result v)) (ra_required_bar bar) = false
           \/ gr_score_source (gv_result v) = SCORE_SOURCE_DETERMINISTIC_ACCEPTANCE).
Proof.
  do 3 eexists. eapply (completion_needs_accepted_answer (H1 := judge_saying (judge_text "0.9")) sample_world judged_start
    (InResponse (sample_response "")) judged_between judged_input "routing-resolved").
  - vm_compute. left.
  - repeat constructor. discriminate.
  - vm_compute. reflexivity.
  - vm_compute. left.
Defined.

(** The judge can only take an acceptance back: what the handler passes with it,
    the deterministic gate passes without it; what it turns down instead, the judge
    has failed; and a judge that fails to judge changes nothing at all. *)
Theorem judge_only_vetoes `{Parsers, SchemaValidator, InferenceBridge} gate_input key v e k v0 :
  handle_async gate_input key = (Ok (v, e), k) -> handle gate_input = Ok v0 ->
  (gv_passed v = true -> gv_passed v0 = true)
  /\ (gv_passed v0 = true -> gv_passed v = false -> exists ev, e = Some ev /\ jv_verdict ev = JudgeFail)
  /\ ((forall ev, e = Some ev -> jv_verdict ev = JudgeFailed) -> v = v0).
Proof.
  intros (j & verdict & Hv & He)%async_runs_delta Hv0. unfold handle in Hv0. pose proof (judge_vetoes _ _ _ _ _ Hv Hv0) as Hp.
  split_and!.
  - rewrite Hp. by intros [? _]%andb_prop.
  - intros Hp0 Hn. rewrite Hp0, Hn in Hp. unfold vetoes in Hp. apply (f_equal negb) in Hp. rewrite negb_andb, !negb_involutive in Hp.
    destruct (bool_decide (verdict = Some JudgeFail)) eqn:Eb; [|by rewrite andb_false_r in Hp].
    apply bool_decide_eq_true in Eb. destruct e as [ev|]; [|destruct He as (_ & -> & _); done]. exists ev. split; [done|].
    apply heard_fail. destruct He as [<- _]. done.
  - intros Hf. destruct e as [ev|]; [|destruct He as (-> & -> & _); congruence].
    destruct He as [He _]. rewrite (heard_failed ev (Hf ev eq_refl)) in He. injection He as -> ->. congruence.
Qed.
Lemma judge_only_vetoes_witness : exists v e v0,
  (gv_passed v = true -> gv_passed v0 = true)
  /\ (gv_passed v0 = true -> gv_passed v = false -> exists ev, e = Some ev /\ jv_verdict ev = JudgeFail)
  /\ ((forall ev, e = Some ev -> jv_verdict ev = JudgeFailed) -> v = v0).
Proof.
  do 3 eexists. eapply (judge_only_vetoes (H1 := judge_saying (judge_text "0.3")) (code_input "x = 1") "routing-resolved"); vm_compute; reflexivity.
Defined.

(** Checks that can only reject never make an answer pass: whatever it says and
    whatever the judge thinks, a gate with no other check turns it down. *)
Theorem reject_only_never_promotes `{Parsers, SchemaValidator} gate_input judge_adequacy_score judge_verdict v :
  Forall (fun check => grants_authority check = false) (effective_dod gate_input).1 ->
  Forall (fun check => _is_reject_only_heuristic_check check = true) (effective_dod gate_input).2 ->
  delta gate_input judge_adequacy_score judge_verdict None = Ok v -> gv_passed v = false.
Proof.
  intros Hd Hh Hv. apply not_true_iff_false. intros Hp. apply (delta_accepts _ _ _ _ Hv) in Hp.
  by eapply reject_only_not_accepted.
Qed.
Lemma reject_only_never_promotes_witness : exists v,
  delta (gate_input_of "test" "All is well." ["no_refusal"; "passes_existing_tests"; "max_words_per_sentence_9"] ["concise"; "min_length_chars_3"] [])
    (Some fone) (Some JudgePass) None = Ok v /\ gv_passed v = false.
Proof.
  eexists. split; [vm_compute; reflexivity|].
  apply (reject_only_never_promotes (gate_input_of "test" "All is well." ["no_refusal"; "passes_existing_tests"; "max_words_per_sentence_9"]
    ["concise"; "min_length_chars_3"] []) (Some fone) (Some JudgePass)); [repeat constructor; vm_compute; reflexivity..|vm_compute; reflexivity].
Defined.

(** A check without an executor counts for nothing: verdict, category, score,
    reasons and score source are those of the same checks without it. *)
Theorem unevaluated_counts_for_nothing `{Parsers, SchemaValidator} gate_input det heur judge_adequacy_score judge_verdict :
  gv_result <$> delta_declared gate_input det heur judge_adequacy_score judge_verdict =
  gv_result <$> delta_declared gate_input (filter (fun check => str_in check _UNEVALUATED_DETERMINISTIC_CHECKS = false) det) heur
    judge_adequacy_score judge_verdict.
Proof. exact (unevaluated_no_effect gate_input det heur judge_adequacy_score judge_verdict). Qed.

(** A response schema is the only authority when it is given: the answer passes
    exactly if it is not empty, is JSON, and the schema has nothing against it,
    whatever checks are declared and whatever the judge says. *)
Theorem schema_is_sole_authority `{Parsers, SchemaValidator} gate_input judge_adequacy_score judge_verdict contract v :
  delta gate_input judge_adequacy_score judge_verdict (Some contract) = Ok v ->
  gv_passed v = true <-> py_strip (answer_of gate_input) <> "" /\ conforms contract (py_strip (answer_of gate_input)).
Proof. exact (contract_decides gate_input judge_adequacy_score judge_verdict contract v). Qed.
Lemma schema_is_sole_authority_witness : exists v, gv_passed v = true <->
  py_strip (answer_of (gate_input_of "test" " {} " ["no_refusal"] [] [])) <> ""
  /\ conforms [("required", JStr "a")] (py_strip (answer_of (gate_input_of "test" " {} " ["no_refusal"] [] []))).
Proof.
  eexists. eapply (schema_is_sole_authority (gate_input_of "test" " {} " ["no_refusal"] [] []) None None [("required", JStr "a")]).
  vm_compute. reflexivity.
Defined.

(** Every judgement is recorded: unless the model's score is an integer no float
    can hold, [score] returns an event, either a failed judgement without a score or
    one with a score between 0 and 1 and the verdict of its rubric; and the event
    carries the digest of everything else in it. *)
Theorem judgements_recorded `{InferenceBridge} key correlation_id task_type prompt candidate criteria :
  task_type <> "" -> _resolve_judge_model_key key <> "" ->
  (forall raw, infer (_resolve_judge_model_key key) (_build_user_prompt task_type prompt candidate criteria) fzero = Ok raw -> is_ok (_parse_adequacy raw)) ->
  exists e, (score delegation_code_adequacy_v1 key correlation_id task_type prompt candidate criteria).1 = Ok e
    /\ jv_event_hash e = compute_event_hash e /\ _validate_hash (jv_event_hash e) = true
    /\ (jv_verdict e = JudgeFailed /\ jv_actual_score e = None
        \/ exists x, jv_actual_score e = Some x /\ in_unit x = true /\ jv_verdict e = _verdict_for_score x delegation_code_adequacy_v1).
Proof.
  intros Ht Hk Hraw. destruct (score_event key correlation_id task_type prompt candidate criteria Ht Hk Hraw) as (e & He & Hm & Hv).
  exists e. split; [done|]. destruct (score_self_describing _ _ _ _ _ _ _ _ He) as (Hh & Hok & Hf). split_and!; [done|done|].
  destruct Hv as [Hv|Hv]; [left; auto|by right].
Qed.
Lemma judgements_recorded_witness : exists e,
  (score (H := judge_down) delegation_code_adequacy_v1 "routing-resolved" "c1" "test" "p" "x" []).1 = Ok e
  /\ jv_event_hash e = compute_event_hash e /\ _validate_hash (jv_event_hash e) = true
  /\ (jv_verdict e = JudgeFailed /\ jv_actual_score e = None
      \/ exists x, jv_actual_score e = Some x /\ in_unit x = true /\ jv_verdict e = _verdict_for_score x delegation_code_adequacy_v1).
Proof. apply (judgements_recorded (H := judge_down)); [discriminate|discriminate|]. intros raw H. discriminate H. Defined.

(** ** What the gate lets through and blocks *)

(** A criterion a request may name and the deterministic band does not know
    blocks every answer: a gate input that carries one is turned down as a
    deterministic failure, so the delegation can only end rejected. *)
Theorem heuristic_criterion_blocks_all `{Parsers, SchemaValidator} gate_input judge_adequacy_score judge_verdict v criterion :
  criterion ∈ gi_acceptance_criteria gate_input ->
  str_in criterion SUPPORTED_ACCEPTANCE_CRITERIA = true -> str_in criterion known_checks = true -> criterion <> "no_refusal" ->
  delta gate_input judge_adequacy_score judge_verdict None = Ok v ->
  gv_passed v = false /\ gr_fail_category (gv_result v) = GateFailDeterministic.
Proof.
  intros Hin Hs Hk Hn Hv. apply (delta_blocks _ _ _ _ criterion Hv).
  { unfold effective_dod. destruct (String.eqb _ _); [done|]. cbn. apply elem_of_app. by right. }
  intros [Hu|Hu]; apply str_in_spec in Hk; cbn in Hk.
  all: repeat (apply elem_of_cons in Hk as [->|Hk]; [by try discriminate Hu|]); by apply not_elem_of_nil in Hk.
Qed.
Lemma heuristic_criterion_blocks_all_witness : exists v,
  delta (gate_input_of "test" "x" [] [] ["concise"]) None None None = Ok v
  /\ gv_passed v = false /\ gr_fail_category (gv_result v) = GateFailDeterministic.
Proof.
  eexists. split; [vm_compute; reflexivity|].
  apply (heuristic_criterion_blocks_all (gate_input_of "test" "x" [] [] ["concise"]) None None _ "concise");
    [left|reflexivity|reflexivity|discriminate|vm_compute; reflexivity].
Defined.

(** A one-word refusal passes as code when the judge cannot be asked: it parses as
    Python, and the heuristic that would detect it is not consulted. *)
Remark refusal_passes_without_judge :
  async_summary judge_down (code_input "No") = Ok (true, GatePass, "0.6", []) /\ is_Some (_check_no_refusal "No").
Proof. split; [vm_compute; reflexivity|]. vm_compute. eauto. Qed.
