(* ===== verification/BackendResolution.v ===== *)
(** * Delegation: the backend of a call

    [routing/delegation_backend_resolution.py]: the declared backends merged with
    the overlay of the installation, and the one a call goes to.  The parsed YAML
    files and the entry of the secret store are arguments. *)
From S2P Require Import Prelude PyFloat PyJson.

Record ModelResolvedDelegationBackend := {
  rb_backend_id : string;
  rb_model_id : string;
  rb_endpoint_ref : string;
  rb_tier : string;
  rb_max_tokens : Z;
  rb_timeout_ms : Z;
  rb_extra_headers : list (string * string);
  rb_secret_ref : option string;
  rb_api_key_env : option string
}.

(** ** Merging the overlay *)

(** [b["backend_id"]] as the key of a dict. *)
Definition backend_key (b : Obj) : result json :=
  match dict_get "backend_id" b with
  | None => Raise (KeyError "backend_id")
  | Some (JArr _) => Raise (TypeError "unhashable type: 'list'")
  | Some (JObj _) => Raise (TypeError "unhashable type: 'dict'")
  | Some j => Ok j
  end.
Fixpoint keyed (l : list Obj) : result (list (json * Obj)) :=
  match l with
  | [] => Ok []
  | b :: l => k ← backend_key b; rest ← keyed l; Ok ((k, b) :: rest)
  end.
(** The key's last entry: a dict comprehension keeps the last one. *)
Definition scalar_eqb (a b : json) : bool :=
  match a, b with
  | JStr x, JStr y => String.eqb x y
  | JInt x, JInt y => Z.eqb x y
  | JBool x, JBool y => Bool.eqb x y
  | JFloat x, JFloat y => feq (lit x) (lit y)
  | JNull, JNull => true
  | _, _ => false
  end.
Definition overlay_entry (k : json) (overlay_by_id : list (json * Obj)) : option Obj :=
  snd <$> last (List.filter (fun kb => scalar_eqb kb.1 k) overlay_by_id).
(** [{**backend, **override}] *)
Definition dict_update (base overlay : Obj) : Obj := fold_left (fun o kv => dict_set kv.1 kv.2 o) overlay base.

Fixpoint merge_each (overlay_by_id : list (json * Obj)) (backends : list Obj) : result (list Obj) :=
  match backends with
  | [] => Ok []
  | b :: l =>
      k ← backend_key b;
      rest ← merge_each overlay_by_id l;
      Ok (match overlay_entry k overlay_by_id with Some override => dict_update b override | None => b end :: rest)
  end.
Definition _merge_overlay (backends overlay_backends : list Obj) : result (list Obj) :=
  overlay_by_id ← keyed overlay_backends;
  merge_each overlay_by_id backends.

(** The parsed sources: the committed file and the overlay file, when they exist,
    and, when a store is given, its entry. *)
Record BifrostSources := {
  bs_config : option (list Obj);
  bs_store : option (option (list Obj));
  bs_overlay : option (list Obj)
}.
Definition load_bifrost_backends (s : BifrostSources) : result (list Obj) :=
  let backends := default [] (bs_config s) in
  match bs_store s with
  | Some (Some store_overlay) => _merge_overlay backends store_overlay
  | _ => match bs_overlay s with Some file_overlay_backends => _merge_overlay backends file_overlay_backends | None => Ok backends end
  end.

(** ** Selecting *)

(** [s in j] for a value read from a file. *)
Definition py_in (s : string) (j : json) : result bool :=
  match j with
  | JArr l => Ok (existsb (fun x => match x with JStr t => String.eqb s t | _ => false end) l)
  | JStr t => Ok (py_contains s t)
  | JObj o => Ok (dict_has s o)
  | _ => Raise (TypeError ("argument of type '" +:+ json_type j +:+ "' is not iterable"))
  end.
Definition has_endpoint (backend : Obj) : bool := truthy (dict_get "endpoint_url" backend).
(** [task_type in capabilities or task_type in use_for] *)
Definition lists_task (task_type : string) (backend : Obj) : result bool :=
  capable ← py_in task_type (default (JArr []) (dict_get "capabilities" backend));
  match capable with true => Ok true | false => py_in task_type (default (JArr []) (dict_get "use_for" backend)) end.
(** The first backend with an endpoint that lists the task type. *)
Fixpoint listing (task_type : string) (backends : list Obj) : result (option Obj) :=
  match backends with
  | [] => Ok None
  | backend :: l =>
      if has_endpoint backend then
        lists ← lists_task task_type backend;
        if (lists : bool) then Ok (Some backend) else listing task_type l
      else listing task_type l
  end.
Definition _select_backend (backends : list Obj) (task_type : string) : result (option Obj) :=
  first ← listing task_type backends;
  Ok (match first with Some b => Some b | None => List.find has_endpoint backends end).
Definition _select_backend_by_id (backends : list Obj) (backend_id : string) : option Obj :=
  List.find (fun b => match dict_get "backend_id" b with Some (JStr i) => String.eqb i backend_id | _ => false end
                      && has_endpoint b) backends.

(** ** Resolving *)

(** A text field that is not blank. *)
Definition text_field (k : string) (o : Obj) : option string :=
  match dict_get k o with Some (JStr s) => if String.eqb (py_strip s) "" then None else Some s | _ => None end.
(** An integer field; a [bool] is none. *)
Definition int_field (k : string) (o : Obj) : option Z := match dict_get k o with Some (JInt n) => Some n | _ => None end.
Definition id_repr (backend : Obj) : string := json_repr (default JNull (dict_get "backend_id" backend)).
Definition required {A} (o : option A) (e : py_exn) : result A := match o with Some a => Ok a | None => Raise e end.
Definition at_least_one (backend : Obj) (field meaning : string) (n : Z) : result Z :=
  if (n <? 1)%Z
  then Raise (RuntimeError ("backend " +:+ id_repr backend +:+ " declares " +:+ field +:+ "=" +:+ pretty n +:+ "; the per-backend "
                            +:+ meaning +:+ " must be >= 1."))
  else Ok n.

Definition resolve_fields (backend : Obj) : result ModelResolvedDelegationBackend :=
  endpoint_url ← required (text_field "endpoint_url" backend)
    (RuntimeError ("backend " +:+ id_repr backend +:+ " resolved a non-string or empty endpoint_url; the overlay must supply the COMPLETE URL."));
  model_name ← required (text_field "model_name" backend)
    (RuntimeError ("backend " +:+ id_repr backend +:+ " has no model_name; the overlay must resolve the model identifier at deploy time."));
  raw_max_tokens ← required (int_field "max_tokens" backend)
    (RuntimeError ("backend " +:+ id_repr backend +:+ " has no integer max_tokens; the routing contract (bifrost_delegation.yaml + overlay) must declare a per-backend output-token budget (OMN-13161)."));
  max_tokens ← at_least_one backend "max_tokens" "output-token budget" raw_max_tokens;
  raw_timeout_ms ← required (int_field "timeout_ms" backend)
    (RuntimeError ("backend " +:+ id_repr backend +:+ " has no integer timeout_ms; the routing contract (bifrost_delegation.yaml + overlay) must declare a per-backend HTTP timeout (OMN-13170)."));
  timeout_ms ← at_least_one backend "timeout_ms" "HTTP timeout" raw_timeout_ms;
  extra_headers ← (match dict_get "extra_headers" backend with
                   | Some (JObj o) => Ok (map (fun kv => (kv.1, json_str kv.2)) o)
                   | Some j => if truthy j then Raise (OtherError "AttributeError" ("'" +:+ json_type j +:+ "' object has no attribute 'items'")) else Ok []
                   | None => Ok []
                   end : result (list (string * string)));
  backend_id ← required (dict_get "backend_id" backend) (KeyError "backend_id");
  if String.eqb (json_str backend_id) "" then Raise (OtherError "ValidationError" "backend_id")
  else Ok {| rb_backend_id := json_str backend_id; rb_model_id := model_name; rb_endpoint_ref := endpoint_url;
             rb_tier := match dict_get "tier" backend with Some j => json_str j | None => "unknown" end;
             rb_max_tokens := max_tokens; rb_timeout_ms := timeout_ms; rb_extra_headers := extra_headers;
             rb_secret_ref := text_field "secret_ref" backend; rb_api_key_env := text_field "api_key_env" backend |}.

Definition BIFROST_OVERLAY_STORE_KEY : string := "delegation.bifrost.overlay".
Definition resolve_delegation_backend (sources : BifrostSources) (overlay_path task_type : string) (backend_id : option string)
    : result ModelResolvedDelegationBackend :=
  merged ← load_bifrost_backends sources;
  let place := "(store key '" +:+ BIFROST_OVERLAY_STORE_KEY +:+ "' or file " +:+ overlay_path +:+ ")." in
  backend ← (match backend_id with
             | Some i =>
                 required (_select_backend_by_id merged i)
                   (RuntimeError ("No delegation backend " +:+ py_repr_str i +:+ " with a populated endpoint_url found in the bifrost config. Declare a COMPLETE endpoint_url for it in the committed config or the overlay " +:+ place))
             | None =>
                 selected ← _select_backend merged task_type;
                 required selected
                   (RuntimeError ("No delegation backend with a populated endpoint_url found in the bifrost config. Supply COMPLETE local endpoint URLs in the overlay " +:+ place))
             end : result Obj);
  resolve_fields backend.

Definition resolve_effective_max_tokens (requested : option Z) (backend_max_tokens : Z) : result Z :=
  if (backend_max_tokens <? 1)%Z then Raise (ValueError ("backend_max_tokens must be >= 1, got " +:+ pretty backend_max_tokens))
  else
    match requested with
    | None => Ok backend_max_tokens
    | Some n => if (n <? 1)%Z then Raise (ValueError ("requested max_tokens must be >= 1, got " +:+ pretty n))
                else Ok (n `min` backend_max_tokens)%Z
    end.
Definition resolve_timeout_seconds (backend_timeout_ms : Z) : result float :=
  if (backend_timeout_ms <? 1)%Z then Raise (ValueError ("backend_timeout_ms must be >= 1, got " +:+ pretty backend_timeout_ms))
  else fdiv (float_of_Z backend_timeout_ms) (lit "1000.0").
