(* ===== verification/LlmCall.v ===== *)
(** * Delegation: one call of a model

    [nodes/node_llm_delegation_call_effect/handlers/handler_llm_delegation_call.py]:
    the endpoint check, the health cache, the payload, what a provider's response
    or failure becomes, and its cost.  The transport, the secret store and the
    parsed price registry are arguments. *)
From S2P Require Import Prelude PyDyn PyFloat PyJson PyHash DelegationModels.
Import FailureClass.

(** Without the hashes and the provenance that only the events of a call carry. *)
Record ModelLlmDelegationCallRequest := {
  lc_request_id : string;
  lc_correlation_id : string;
  lc_model_id : string;
  lc_endpoint_ref : string;
  lc_prompt : string;
  lc_system_prompt : string;
  lc_task_type : string;
  lc_max_tokens : Z;
  lc_temperature : float;
  lc_timeout_seconds : float;
  lc_model_tier : string;
  lc_provider : string;
  lc_extra_headers : list (string * string);
  lc_provider_request_options : Obj;
  lc_secret_ref : option string;
  lc_api_key_env : option string
}.

Inductive EnumCostBasis := CLOUD_API_COST | ZERO_MARGINAL_API_COST | COST_UNKNOWN.
Inductive EnumUsageSource := MEASURED | ESTIMATED | USAGE_UNKNOWN.
(** Without the two fields of a gate no call sets. *)
Record ModelLlmDelegationCallResult := {
  cr_request_id : string;
  cr_success : bool;
  cr_content : option string;
  cr_output_hash : option string;
  cr_tokens_in : Z;
  cr_tokens_out : Z;
  cr_latency_ms : Z;
  cr_actual_cost_usd : decimal;
  cr_opus_equivalent_cost_usd : decimal;
  cr_savings_usd : decimal;
  cr_usage_source : EnumUsageSource;
  cr_cost_basis : EnumCostBasis;
  cr_failure_class : option EnumDelegationFailureClass;
  cr_error_message : option string;
  cr_endpoint_healthy : bool
}.

Definition dec_zero : decimal := dec_of_Z 0.
Definition _failure_result (request_id : string) (failure_class : EnumDelegationFailureClass) (error_message : string)
    (endpoint_healthy : bool) : ModelLlmDelegationCallResult := {|
  cr_request_id := request_id; cr_success := false; cr_content := None; cr_output_hash := None; cr_tokens_in := 0; cr_tokens_out := 0;
  cr_latency_ms := 0; cr_actual_cost_usd := dec_zero; cr_opus_equivalent_cost_usd := dec_zero; cr_savings_usd := dec_zero;
  cr_usage_source := USAGE_UNKNOWN; cr_cost_basis := COST_UNKNOWN; cr_failure_class := Some failure_class;
  cr_error_message := Some error_message; cr_endpoint_healthy := endpoint_healthy
|}.

(** ** Cost *)

Definition cents (n : Z) : decimal := {| dec_coef := n; dec_exp := -2 |}.
Definition _FALLBACK_PRICE_PER_1M : list (string * (decimal * decimal)) :=
  [("local", (cents 0, cents 0)); ("cheap_cloud", (cents 200, cents 200)); ("claude", (cents 1500, cents 7500));
   ("default", (cents 15, cents 60))].
Definition _OPUS_PRICE_IN_PER_1M : decimal := cents 1500.
Definition _OPUS_PRICE_OUT_PER_1M : decimal := cents 7500.

(** [Decimal(str(v))] of a number of the registry; other values are refused. *)
Definition registry_decimal (j : json) : option decimal :=
  match j with
  | JInt n => Some (dec_of_Z n)
  | JFloat r => Some (dec_of_float (lit r))
  | JStr s => '(n, e) ← scan_number (los (py_strip s)); Some {| dec_coef := n; dec_exp := e |}
  | _ => None
  end.
(** [registry] is the parsed [routing_tiers.yaml], if it can be read. *)
Fixpoint tier_price (tier_name : string) (tiers : list json) : option decimal :=
  match tiers with
  | [] => None
  | JObj tier :: tiers =>
      if match dict_get "name" tier with Some (JStr n) => String.eqb n tier_name | _ => false end
      then cost_per_1k ← dict_get "cost_per_1k_tokens" tier; price ← registry_decimal cost_per_1k;
           Some (dec_mul price (dec_of_Z 1000))
      else tier_price tier_name tiers
  | _ :: tiers => tier_price tier_name tiers
  end.
Definition _get_tier_price_per_1m (registry : option json) (tier_name : string) : option (decimal * decimal) :=
  match registry with
  | Some (JObj raw) =>
      match dict_get "tiers" raw with Some (JArr tiers) => price ← tier_price tier_name tiers; Some (price, price) | _ => None end
  | _ => None
  end.

Fixpoint price_entry (tier_name : string) (l : list (string * (decimal * decimal))) : option (decimal * decimal) :=
  match l with [] => None | (n, p) :: l => if String.eqb tier_name n then Some p else price_entry tier_name l end.
Definition fallback_price (tier_name : string) : decimal * decimal :=
  match price_entry tier_name _FALLBACK_PRICE_PER_1M with Some p => p | None => (cents 15, cents 60) end.
(** [(in * price_in + out * price_out) / Decimal("1000000")] *)
Definition per_million (tokens_in tokens_out : Z) (price_in price_out : decimal) : decimal :=
  let sum := dec_add (dec_mul (dec_of_Z tokens_in) price_in) (dec_mul (dec_of_Z tokens_out) price_out) in
  dec_round {| dec_coef := dec_coef sum; dec_exp := dec_exp sum - 6 |}.
Definition _compute_cost (registry : option json) (tokens_in tokens_out : Z) (model_tier : string) : decimal * decimal * decimal :=
  let '(price_in, price_out) := default (fallback_price model_tier) (_get_tier_price_per_1m registry model_tier) in
  let actual := per_million tokens_in tokens_out price_in price_out in
  let opus_equiv := per_million tokens_in tokens_out _OPUS_PRICE_IN_PER_1M _OPUS_PRICE_OUT_PER_1M in
  (actual, opus_equiv, dec_sub opus_equiv actual).

Example cost_of_claude : (float_of_dec (_compute_cost None 1000 200 "claude").1.1, float_of_dec (_compute_cost None 1000 200 "local").2)
  = (lit "0.03", lit "0.03").
Proof. vm_compute. reflexivity. Qed.

(** ** The endpoint *)

Definition _resolve_endpoint (endpoint_ref : string) : result string :=
  let value := py_strip endpoint_ref in
  if py_startswith "http://" value || py_startswith "https://" value then Ok value
  else Raise (ValueError "endpoint_ref must be a resolved http(s) endpoint URL").

(** The health cache: the time of the check and its outcome, per endpoint. *)
Definition HealthCache : Type := gmap string (float * bool).
Definition _HEALTH_CACHE_TTL_SECONDS : float := float_of_Z 60.
Definition _is_endpoint_healthy (cache : HealthCache) (now : float) (probe : string -> bool) (endpoint_url : string) : bool * HealthCache :=
  let check := let healthy := probe endpoint_url in (healthy, <[endpoint_url := (now, healthy)]> cache) in
  match cache !! endpoint_url with
  | Some (ts, healthy) => if flt (fsub now ts) _HEALTH_CACHE_TTL_SECONDS then (healthy, cache) else check
  | None => check
  end.

(** ** The call *)

Definition message (role content : string) : json := JObj [("role", JStr role); ("content", JStr content)].
Definition call_payload (request : ModelLlmDelegationCallRequest) : Obj :=
  let messages := (if truthy (lc_system_prompt request) then [message "system" (lc_system_prompt request)] else [])
                  ++ [message "user" (lc_prompt request)] in
  fold_left (fun o kv => dict_set kv.1 kv.2 o) (lc_provider_request_options request)
    [("model", JStr (lc_model_id request)); ("messages", JArr messages); ("max_tokens", JInt (lc_max_tokens request));
     ("temperature", JFloat (float_repr (lc_temperature request)))].

(** The headers: the static ones and the resolved key's. *)
Definition dict_put (k v : string) (l : list (string * string)) : list (string * string) :=
  if existsb (fun kv => String.eqb kv.1 k) l then map (fun kv => if String.eqb kv.1 k then (k, v) else kv) l else l ++ [(k, v)].
Definition _resolve_outbound_headers (api_key : result (option string)) (request : ModelLlmDelegationCallRequest)
    : result (list (string * string)) :=
  key ← api_key;
  Ok (match key with Some k => dict_put "Authorization" ("Bearer " +:+ k) (lc_extra_headers request) | None => lc_extra_headers request end).

(** What the transport does with a request. *)
Inductive HttpOutcome :=
  | HttpResponse (latency_ms : Z) (body : Obj)
  | HttpTimeout
  | HttpStatus (status_code : Z) (text : string)
  | HttpFailed (text : string).

(** [int(v or 0)] of a usage field. *)
Definition usage_count (v : option json) : result Z :=
  match v with
  | None => Ok 0%Z
  | Some j =>
      if negb (truthy j) then Ok 0%Z
      else json_int j
  end.
(** [j.get(k)] of a value that should be a dict. *)
Definition get_of (j : json) (k : string) : result (option json) :=
  match j with JObj o => Ok (dict_get k o)
  | _ => Raise (OtherError "AttributeError" ("'" +:+ json_type j +:+ "' object has no attribute 'get'")) end.
Definition truthy_or (j : option json) (other : json) : json := match j with Some j => if truthy j then j else other | None => other end.
Definition _extract_usage (response_json : Obj) : result (Z * Z) :=
  let usage := truthy_or (dict_get "usage" response_json) (JObj []) in
  tin ← get_of usage "prompt_tokens";
  tokens_in ← usage_count tin;
  tout ← get_of usage "completion_tokens";
  tokens_out ← usage_count tout;
  Ok (tokens_in, tokens_out).

(** [choices[0].get("message", {}).get("content") or ""] *)
Definition first_choice (choices : json) : result json :=
  match choices with
  | JArr (c :: _) => Ok c
  | JStr s => Ok (JStr (match s with String c _ => String c "" | EmptyString => "" end))
  | JObj _ => Raise (OtherError "KeyError" "0")
  | _ => Raise (TypeError ("'" +:+ json_type choices +:+ "' object is not subscriptable"))
  end.
Definition response_content (choices : json) : result string :=
  choice ← first_choice choices;
  msg ← get_of choice "message";
  content ← get_of (default (JObj []) msg) "content";
  match truthy_or content (JStr "") with
  | JStr s => Ok s
  | j => Raise (OtherError "AttributeError" ("'" +:+ json_type j +:+ "' object has no attribute 'encode'"))
  end.

Definition completed_result (registry : option json) (request : ModelLlmDelegationCallRequest) (latency_ms : Z) (response_json : Obj)
    (choices : json) : result ModelLlmDelegationCallResult :=
  content ← response_content choices;
  '(tokens_in, tokens_out) ← _extract_usage response_json;
  let '(actual, opus, savings) := _compute_cost registry tokens_in tokens_out (lc_model_tier request) in
  Ok {| cr_request_id := lc_request_id request; cr_success := true; cr_content := Some content;
        cr_output_hash := Some (sha256_hex content); cr_tokens_in := tokens_in; cr_tokens_out := tokens_out;
        cr_latency_ms := latency_ms; cr_actual_cost_usd := actual; cr_opus_equivalent_cost_usd := opus; cr_savings_usd := savings;
        cr_usage_source := MEASURED; cr_cost_basis := CLOUD_API_COST; cr_failure_class := None; cr_error_message := None;
        cr_endpoint_healthy := true |}.

(** What calls go through: the secret store and the transport. *)
Record LlmTransport := {
  tr_api_key : option string -> option string -> result (option string);
  tr_probe_health : string -> bool;
  tr_post : string -> Obj -> float -> list (string * string) -> HttpOutcome
}.
Definition http_failure_class (status_code : Z) : EnumDelegationFailureClass :=
  if Z.eqb status_code 429 then RATE_LIMITED else MODEL_UNAVAILABLE.
Definition _execute_call (tr : LlmTransport) (registry : option json) (request : ModelLlmDelegationCallRequest) (endpoint_url : string)
    : result ModelLlmDelegationCallResult :=
  let failed c text := Ok (_failure_result (lc_request_id request) c text true) in
  match _resolve_outbound_headers (tr_api_key tr (lc_secret_ref request) (lc_api_key_env request)) request with
  | Raise e => failed UNKNOWN (exn_str e)
  | Ok headers =>
      match tr_post tr endpoint_url (call_payload request) (lc_timeout_seconds request) headers with
      | HttpTimeout => failed TIMEOUT "request timed out"
      | HttpStatus code text => failed (http_failure_class code) text
      | HttpFailed text => failed UNKNOWN text
      | HttpResponse latency_ms response_json =>
          let choices := truthy_or (dict_get "choices" response_json) (JArr []) in
          if negb (truthy choices) then failed INVALID_JSON "API returned empty choices array"
          else completed_result registry request latency_ms response_json choices
      end
  end.

(** [__call__]: the result and the health cache after it. *)
Definition llm_call (tr : LlmTransport) (registry : option json) (now : float) (cache : HealthCache)
    (request : ModelLlmDelegationCallRequest) : result ModelLlmDelegationCallResult * HealthCache :=
  match _resolve_endpoint (lc_endpoint_ref request) with
  | Raise e => (Ok (_failure_result (lc_request_id request) MODEL_UNAVAILABLE (exn_str e) false), cache)
  | Ok endpoint_url =>
      let '(healthy, cache') := _is_endpoint_healthy cache now (tr_probe_health tr) endpoint_url in
      if healthy then (_execute_call tr registry request endpoint_url, cache')
      else (Ok (_failure_result (lc_request_id request) MODEL_UNAVAILABLE
                  ("endpoint " +:+ lc_endpoint_ref request +:+ " failed health probe") false), cache')
  end.
