(* ===== verification/LocalDispatch.v ===== *)
(** * Delegation: the local dispatch port

    [nodes/node_delegate_skill_orchestrator/ports/port_local_delegation_dispatch.py]:
    a delegation without a bus.  One process routes, calls the model behind a
    killable child process, gates the answer and climbs the ladder, in a loop that
    ends with an evidence row and a response. *)
From S2P Require Import Prelude PyFloat PyJson PyRegex DelegationModels DelegationRouting InferenceProtocol ComplianceLoop DelegationBar QualityChecks QualityGate QualityJudge BackendResolution LlmCall.
Import FailureClass.

(** ** The world of a dispatch *)

(** What a child process does with a call: it sends a result or the class and text
    of an exception, it ends without a message, or it is killed at the deadline. *)
Inductive EffectOutcome :=
  | EffectOk (r : ModelLlmDelegationCallResult)
  | EffectError (cls msg : string)
  | EffectDied (exitcode : string)
  | EffectExpired.

(** The effect and the judge may answer differently at every call; [n] counts the
    calls made before. *)
Record LocalWorld := {
  lw_routing : RoutingEnv;
  lw_protocol : result ModelInferenceProtocolConfig;
  lw_backends : BifrostSources;
  lw_overlay_path : string;
  lw_onex_tenant_id : string;
  lw_request_id : nat -> string;
  lw_effect : nat -> ModelLlmDelegationCallRequest -> EffectOutcome;
  lw_judge : nat -> InferenceBridge;
  lw_roi_overlay : string -> option ModelRoutingRoiOverlay
}.

(** The arguments of [dispatch]. *)
Record LocalRequest := {
  lq_prompt : string;
  lq_task_type : string;
  lq_correlation_id : string;
  lq_max_tokens : option Z;
  lq_source_session_id : option string;
  lq_quality_contract_mode : string;
  lq_acceptance_criteria : list string;
  lq_tenant_id : option string;
  lq_backend_id : option string;
  lq_response_contract : option Obj
}.

Definition failure_class_value (c : EnumDelegationFailureClass) : string :=
  match c with
  | MODEL_UNAVAILABLE => "model_unavailable" | RATE_LIMITED => "rate_limited" | TIMEOUT => "timeout" | INVALID_JSON => "invalid_json"
  | QUALITY_GATE_FAILED => "quality_gate_failed" | CONTEXT_TOO_LARGE => "context_too_large" | PRICING_UNKNOWN => "pricing_unknown"
  | PROVIDER_AUTH_FAILED => "provider_auth_failed" | UNKNOWN => "unknown"
  end.
Definition _NON_RETRYABLE_TRANSPORT_FAILURE_CLASSES : list EnumDelegationFailureClass := [PROVIDER_AUTH_FAILED; INVALID_JSON].
Definition _is_retryable_transport_failure (failure_class : option EnumDelegationFailureClass) : bool :=
  match failure_class with Some c => bool_decide (c ∉ _NON_RETRYABLE_TRANSPORT_FAILURE_CLASSES) | None => true end.
Definition _DEFAULT_MAX_ESCALATIONS : Z := 2.
Definition _DISPATCH_TIMEOUT_BUFFER_SECONDS : float := float_of_Z 10.
Definition _RESERVED_PROVIDER_REQUEST_KEYS : list string := ["model"; "messages"; "max_tokens"; "temperature"].
Definition _TASK_TYPE_SYSTEM_PROMPTS : list (string * string) :=
  [("test", "You are an expert test engineer. Write comprehensive, well-structured tests.");
   ("document", "You are a technical writer. Write clear, accurate documentation.");
   ("research", "You are a senior software engineer. Analyze the topic thoroughly and provide a detailed, well-structured response.");
   ("code_generation", "You are an expert software engineer. Write clean, production-quality code.");
   ("code_review", "You are a code review assistant. Identify bugs, style violations, and architectural issues in the provided code. Be specific and actionable.");
   ("refactor", "You are an expert software engineer specializing in refactoring. Improve code quality while preserving behavior.");
   ("reasoning", "You are an expert analyst. Think step-by-step and provide well-reasoned conclusions.");
   ("review", "You are a senior code reviewer. Provide thorough, actionable feedback.")].
Definition local_system_prompt (task_type : string) : string :=
  default "You are a senior software engineer. Analyze the topic thoroughly and provide a detailed, well-structured response."
    (table_get task_type _TASK_TYPE_SYSTEM_PROMPTS).

(** [str(UUID(s))]: [None] where [UUID] raises a [ValueError].  [int(hex, 16)]
    takes a sign, a [0x] and single underscores, as [int] does. *)
Fixpoint hex_int (l : list ascii) (acc : Z) (after_digit : bool) : option Z :=
  match l with
  | [] => if after_digit then Some acc else None
  | c :: l' =>
      match hex_value c with
      | Some d => hex_int l' (16 * acc + Z.of_nat d) true
      | None => if Nat.eqb (nat_of_ascii c) 95 && after_digit then hex_int l' acc false else None
      end
  end.
Definition hex_unsigned (l : list ascii) : option Z :=
  match l with
  | "0"%char :: ("x"%char | "X"%char) :: "_"%char :: l' => hex_int l' 0 false
  | "0"%char :: ("x"%char | "X"%char) :: l' => hex_int l' 0 false
  | _ => hex_int l 0 false
  end.
Definition py_int16 (s : string) : option Z :=
  match los (py_strip s) with
  | "-"%char :: l => option_map Z.opp (hex_unsigned l)
  | "+"%char :: l => hex_unsigned l
  | l => hex_unsigned l
  end.
Fixpoint hex_fixed (width : nat) (n : Z) : string :=
  match width with
  | O => ""
  | S w => hex_fixed w (n / 16) +:+ String (hex_digit (Z.to_nat (n mod 16))) ""
  end.
Definition py_uuid (s : string) : option string :=
  let hex := py_replace "-" "" (strip_chars (los "{}") (py_replace "uuid:" "" (py_replace "urn:" "" s))) in
  if negb (Nat.eqb (String.length hex) 32) then None
  else
    n ← py_int16 hex;
    if (0 <=? n)%Z && (n <? 2 ^ 128)%Z then
      let h := hex_fixed 32 n in
      Some (py_join "-" (map (fun p => String.substring p.1 p.2 h) [(0, 8); (8, 4); (12, 4); (16, 4); (20, 12)]))
    else None.
Example uuid_text : map py_uuid ["{12345678-1234-5678-1234-56781234567A}"; "session-1"]
  = [Some "12345678-1234-5678-1234-56781234567a"; None].
Proof. vm_compute. reflexivity. Qed.

(** ** One attempt *)

Section dispatch.
Context `{Parsers, SchemaValidator} (world : LocalWorld) (request : LocalRequest).
Abbreviation env := (lw_routing world).
Abbreviation task_type := (lq_task_type request).

(** The call's request under the backend, with the protocol's directives applied. *)
Definition call_request (n : nat) (backend : ModelResolvedDelegationBackend) : result ModelLlmDelegationCallRequest :=
  effective_max_tokens ← resolve_effective_max_tokens (lq_max_tokens request) (rb_max_tokens backend);
  timeout_seconds ← resolve_timeout_seconds (rb_timeout_ms backend);
  config ← lw_protocol world;
  let '(system_prompt, prompt, options) :=
    apply_inference_protocol config (local_system_prompt task_type) (lq_prompt request) (rb_model_id backend)
      (Some task_type) (Some (rb_backend_id backend)) in
  match filter (fun k => dict_has k options = true) _RESERVED_PROVIDER_REQUEST_KEYS with
  | [] => Ok {| lc_request_id := lw_request_id world n; lc_correlation_id := lq_correlation_id request; lc_model_id := rb_model_id backend;
                lc_endpoint_ref := rb_endpoint_ref backend; lc_prompt := prompt; lc_system_prompt := system_prompt;
                lc_task_type := task_type; lc_max_tokens := effective_max_tokens; lc_temperature := lit "0.3";
                lc_timeout_seconds := timeout_seconds; lc_model_tier := rb_tier backend; lc_provider := rb_backend_id backend;
                lc_extra_headers := rb_extra_headers backend; lc_provider_request_options := options;
                lc_secret_ref := rb_secret_ref backend; lc_api_key_env := rb_api_key_env backend |}
  | reserved => Raise (ValueError ("provider request options cannot override: " +:+ py_join ", " (sort_by id reserved)))
  end.

(** [_run_effect_handler_with_killable_timeout]: [None] at the deadline. *)
Definition _run_effect_handler_with_killable_timeout (outcome : EffectOutcome) : result (option ModelLlmDelegationCallResult) :=
  match outcome with
  | EffectOk r => Ok (Some r)
  | EffectError cls msg => Raise (RuntimeError (cls +:+ ": " +:+ msg))
  | EffectDied exitcode => Raise (RuntimeError ("delegation effect process exited without returning a result (exitcode=" +:+ exitcode +:+ ")"))
  | EffectExpired => Ok None
  end.

(** [_evaluate_quality_gate]: the verdict and the judge's remembered model. *)
Definition local_gate_input (content : string) : ModelQualityGateInput :=
  let '(dod_deterministic, dod_heuristic) := resolve_task_class_dod_checks env task_type in
  {| gi_correlation_id := lq_correlation_id request; gi_task_type := task_type; gi_llm_response_content := content;
     gi_expected_markers := []; gi_min_response_length := 60; gi_dod_deterministic := dod_deterministic;
     gi_dod_heuristic := dod_heuristic; gi_quality_contract_mode := lq_quality_contract_mode request;
     gi_acceptance_criteria := lq_acceptance_criteria request |}.
Definition _evaluate_quality_gate (n : nat) (judge_model_key content : string) : result GateVerdict * string :=
  let gate_input := local_gate_input content in
  match lq_response_contract request with
  | None =>
      if str_in task_type JUDGE_COMBINABLE_TASK_TYPES then
        let '(event, key) := score (H := lw_judge world n) delegation_code_adequacy_v1 judge_model_key (lq_correlation_id request) task_type
          (judge_task task_type) content (lq_acceptance_criteria request) in
        (e ← event; delta gate_input (heard e).1 (heard e).2 None, key)
      else (delta gate_input None None None, judge_model_key)
  | Some contract => (delta gate_input None None (Some contract), judge_model_key)
  end.

(** [_AttemptOutcome] *)
Inductive AttemptOutcome :=
  | TransportFailed (r : ModelLlmDelegationCallResult) (c : option EnumDelegationFailureClass) (msg : string)
  | Answered (r : ModelLlmDelegationCallResult) (gate : GateVerdict).

Definition deadline_message (backend : ModelResolvedDelegationBackend) (timeout_seconds : float) : string :=
  "delegation call did not return within " +:+ format_fixed 0 (fadd timeout_seconds _DISPATCH_TIMEOUT_BUFFER_SECONDS)
  +:+ "s (endpoint " +:+ rb_endpoint_ref backend +:+ " unreachable or unresponsive)".
(** [_run_single_attempt] and the classification of what it returns. *)
Definition _run_single_attempt (n : nat) (judge_model_key : string) (backend : ModelResolvedDelegationBackend)
    : result (AttemptOutcome * string) :=
  call ← call_request n backend;
  outcome ← _run_effect_handler_with_killable_timeout (lw_effect world n call);
  match outcome with
  | None =>
      let msg := deadline_message backend (lc_timeout_seconds call) in
      Ok (TransportFailed (_failure_result (lc_request_id call) TIMEOUT msg false) (Some TIMEOUT) msg, judge_model_key)
  | Some r =>
      if cr_success r then
        let '(gate, key) := _evaluate_quality_gate n judge_model_key (default "" (cr_content r)) in
        g ← gate; Ok (Answered r g, key)
      else Ok (TransportFailed r (cr_failure_class r) (py_opt_or (cr_error_message r) "delegation call failed"), judge_model_key)
  end.

(** ** Acceptance and the ladder *)

Definition _is_quality_accepted (gate : ModelQualityGateResult) : result bool :=
  if String.eqb (gate_category_value (gr_fail_category gate)) "fail_deterministic" then Ok false
  else if gr_passed gate && String.eqb (gr_score_source gate) SCORE_SOURCE_DETERMINISTIC_ACCEPTANCE then Ok true
  else
    match resolve_required_bar_authority env task_type None None with
    | Raise e => if is_bar_error e then Ok (gr_passed gate) else Raise e
    | Ok authority => Ok (if flt (gr_quality_score gate) (ra_required_bar authority) then false else gr_passed gate)
    end.

Definition resolve_backend (backend_id : option string) : result ModelResolvedDelegationBackend :=
  resolve_delegation_backend (lw_backends world) (lw_overlay_path world) task_type backend_id.
(** [None] for a backend that cannot be resolved. *)
Definition try_backend (backend_id : string) : result (option ModelResolvedDelegationBackend) :=
  match resolve_backend (Some backend_id) with
  | Ok b => Ok (Some b)
  | Raise (RuntimeError _) => Ok None
  | Raise e => Raise e
  end.
Definition tier_backend (tier : option string) : result (option ModelResolvedDelegationBackend) :=
  match tier with
  | None => Ok None
  | Some t => id ← backend_id_for_tier env t task_type; match id with Some i => try_backend i | None => Ok None end
  end.
Definition roi_overlay : option ModelRoutingRoiOverlay := lw_roi_overlay world task_type.
Definition _resolve_initial_backend : result ModelResolvedDelegationBackend :=
  match lq_backend_id request with
  | Some backend_id => resolve_backend (Some backend_id)
  | None =>
      first_tier ← first_eligible_tier env task_type roi_overlay;
      found ← tier_backend first_tier;
      match found with Some b => Ok b | None => resolve_backend None end
  end.
Definition _resolve_next_backend (current_tier : string) (excluded_tiers : list string)
    : result (option ModelResolvedDelegationBackend) :=
  next_tier ← next_eligible_tier env current_tier excluded_tiers (Some task_type) roi_overlay;
  tier_backend next_tier.
Definition max_escalations : Z := default _DEFAULT_MAX_ESCALATIONS (resolve_task_class_max_escalations env task_type).

(** ** The loop *)

(** An entry of [attempts]; a transport failure has no score but its cause. *)
Record Attempt := {
  at_tier : string;
  at_backend_id : string;
  at_model_id : string;
  at_passed : bool;
  at_score : option float;
  at_cost : decimal;
  at_savings : decimal;
  at_content : string;
  at_failure : option (option EnumDelegationFailureClass * string)
}.
Definition mk_attempt (backend : ModelResolvedDelegationBackend) (passed : bool) (score : option float) (r : ModelLlmDelegationCallResult)
    (failure : option (option EnumDelegationFailureClass * string)) : Attempt := {|
  at_tier := rb_tier backend; at_backend_id := rb_backend_id backend; at_model_id := rb_model_id backend; at_passed := passed;
  at_score := score; at_cost := cr_actual_cost_usd r; at_savings := cr_savings_usd r; at_content := default "" (cr_content r);
  at_failure := failure
|}.

Record LoopState := {
  ls_backend : ModelResolvedDelegationBackend;
  ls_excluded : list string;
  ls_cost : decimal;
  ls_savings : decimal;
  ls_attempts : list Attempt;
  ls_escalations : Z;
  ls_best_content : string;
  ls_best_score : float;
  ls_retries : gmap string Z;
  ls_judge_key : string
}.
Definition start_state (backend : ModelResolvedDelegationBackend) : LoopState := {|
  ls_backend := backend; ls_excluded := []; ls_cost := dec_zero; ls_savings := dec_zero; ls_attempts := []; ls_escalations := 0;
  ls_best_content := ""; ls_best_score := float_of_Z (-1); ls_retries := ∅; ls_judge_key := "routing-resolved"
|}.

(** How a dispatch ends: completed or failed, at which answer, after which state. *)
Record LocalTerminal := {
  lt_completed : bool;
  lt_result : ModelLlmDelegationCallResult;
  lt_gate : option GateVerdict;
  lt_message : string;
  lt_state : LoopState
}.
Inductive LoopStep := Again (s : LoopState) | Done (t : LocalTerminal).

(** An attempt enters the account before anything is decided on it. *)
Definition bank (s : LoopState) (key : string) (a : Attempt) : LoopState := {|
  ls_backend := ls_backend s; ls_excluded := ls_excluded s; ls_cost := dec_add (ls_cost s) (at_cost a);
  ls_savings := dec_add (ls_savings s) (at_savings a); ls_attempts := ls_attempts s ++ [a]; ls_escalations := ls_escalations s;
  ls_best_content := ls_best_content s; ls_best_score := ls_best_score s; ls_retries := ls_retries s; ls_judge_key := key
|}.
Definition remember_best (s : LoopState) (content : string) (score : float) : LoopState :=
  if truthy content && fgt score (ls_best_score s) then {|
    ls_backend := ls_backend s; ls_excluded := ls_excluded s; ls_cost := ls_cost s; ls_savings := ls_savings s;
    ls_attempts := ls_attempts s; ls_escalations := ls_escalations s; ls_best_content := content; ls_best_score := score;
    ls_retries := ls_retries s; ls_judge_key := ls_judge_key s |} else s.
Definition exclude (tier : string) (s : LoopState) : LoopState := {|
  ls_backend := ls_backend s; ls_excluded := tier :: ls_excluded s; ls_cost := ls_cost s; ls_savings := ls_savings s;
  ls_attempts := ls_attempts s; ls_escalations := ls_escalations s; ls_best_content := ls_best_content s; ls_best_score := ls_best_score s;
  ls_retries := ls_retries s; ls_judge_key := ls_judge_key s
|}.
Definition retry_local (tier : string) (s : LoopState) : LoopState := {|
  ls_backend := ls_backend s; ls_excluded := ls_excluded s; ls_cost := ls_cost s; ls_savings := ls_savings s;
  ls_attempts := ls_attempts s; ls_escalations := ls_escalations s; ls_best_content := ls_best_content s; ls_best_score := ls_best_score s;
  ls_retries := <[tier := (default 0 (ls_retries s !! tier) + 1)%Z]> (ls_retries s); ls_judge_key := ls_judge_key s
|}.
Definition escalate (backend : ModelResolvedDelegationBackend) (s : LoopState) : LoopState := {|
  ls_backend := backend; ls_excluded := ls_excluded s; ls_cost := ls_cost s; ls_savings := ls_savings s;
  ls_attempts := ls_attempts s; ls_escalations := (ls_escalations s + 1)%Z; ls_best_content := ls_best_content s;
  ls_best_score := ls_best_score s; ls_retries := ls_retries s; ls_judge_key := ls_judge_key s
|}.

Definition current_tier_of (backend : ModelResolvedDelegationBackend) : result string :=
  t ← tier_for_backend env (rb_backend_id backend); Ok (py_opt_or t (rb_tier backend)).
(** The next backend within the budget. *)
Definition next_backend (s : LoopState) (current_tier : string) : result (option ModelResolvedDelegationBackend) :=
  if (ls_escalations s <? max_escalations)%Z then _resolve_next_backend current_tier (ls_excluded s) else Ok None.
Definition climb (s : LoopState) (next : option ModelResolvedDelegationBackend) (t : LocalTerminal) : LoopStep :=
  match next with Some backend => Again (escalate backend s) | None => Done t end.

Definition after_transport_failure (s : LoopState) (key : string) (r : ModelLlmDelegationCallResult)
    (c : option EnumDelegationFailureClass) (msg : string) : result LoopStep :=
  current_tier ← current_tier_of (ls_backend s);
  let s := exclude current_tier s in
  next ← (if _is_retryable_transport_failure c then next_backend s current_tier else Ok None);
  let s := bank s key (mk_attempt (ls_backend s) false None r (Some (c, msg))) in
  Ok (climb s next {| lt_completed := false; lt_result := r; lt_gate := None; lt_message := msg; lt_state := s |}).

Definition may_retry_local (s : LoopState) (current_tier : string) : result bool :=
  free ← is_free_tier env current_tier;
  match free with
  | true => budget ← tier_max_retries env current_tier; Ok (Z.ltb (default 0%Z (ls_retries s !! current_tier)) budget)
  | false => Ok false
  end.
Definition after_rejection (s : LoopState) (r : ModelLlmDelegationCallResult) (gate : GateVerdict) : result LoopStep :=
  let msg := py_join "; " (gr_failure_reasons (gv_result gate)) in
  current_tier ← current_tier_of (ls_backend s);
  retry ← may_retry_local s current_tier;
  match retry with
  | true => Ok (Again (retry_local current_tier s))
  | false =>
      let s := exclude current_tier s in
      next ← next_backend s current_tier;
      Ok (climb s next {| lt_completed := false; lt_result := r; lt_gate := Some gate; lt_message := msg; lt_state := s |})
  end.

Definition loop_step (s : LoopState) : result LoopStep :=
  '(outcome, key) ← _run_single_attempt (length (ls_attempts s)) (ls_judge_key s) (ls_backend s);
  match outcome with
  | TransportFailed r c msg => after_transport_failure s key r c msg
  | Answered r gate =>
      quality_passed ← _is_quality_accepted (gv_result gate);
      let s := bank s key (mk_attempt (ls_backend s) quality_passed (Some (gr_quality_score (gv_result gate))) r None) in
      let s := remember_best s (default "" (cr_content r)) (gr_quality_score (gv_result gate)) in
      match quality_passed with
      | true => Ok (Done {| lt_completed := true; lt_result := r; lt_gate := Some gate; lt_message := ""; lt_state := s |})
      | false => after_rejection s r gate
      end
  end.
(** [while True]: [None] when the fuel runs out. *)
Fixpoint dispatch_loop (fuel : nat) (s : LoopState) : option (result LocalTerminal) :=
  match fuel with
  | O => None
  | S fuel =>
      match loop_step s with
      | Raise e => Some (Raise e)
      | Ok (Done t) => Some (Ok t)
      | Ok (Again s) => dispatch_loop fuel s
      end
  end.

(** ** What is returned and what is recorded *)

(** An attempt as the caller reads it; only a transport failure says why. *)
Definition attempt_json (a : Attempt) : json :=
  JObj ([("tier", JStr (at_tier a)); ("backend_id", JStr (at_backend_id a)); ("model_id", JStr (at_model_id a));
         ("quality_gate_passed", JBool (at_passed a));
         ("quality_score", match at_score a with Some q => JFloat (float_repr q) | None => JNull end);
         ("cost_usd", JFloat (float_repr (float_of_dec (at_cost a))))]
        ++ match at_failure a with
           | Some (c, msg) => [("failure_class", match c with Some c => JStr (failure_class_value c) | None => JNull end);
                               ("error_message", JStr msg)]
           | None => []
           end).

(** The dict [dispatch] returns, one per [return]. *)
Definition response_of (t : LocalTerminal) : Obj :=
  let s := lt_state t in
  let r := lt_result t in
  let content := default "" (cr_content r) in
  let delegated := [("delegated_to", JStr (rb_endpoint_ref (ls_backend s))); ("model_name", JStr (rb_model_id (ls_backend s)))] in
  let account := [("escalation_count", JInt (ls_escalations s)); ("cost_usd", JFloat (float_repr (float_of_dec (ls_cost s))));
                  ("attempts", JArr (map attempt_json (ls_attempts s)))] in
  match lt_gate t with
  | None =>
      [("status", JStr "failed"); ("content", JStr (ls_best_content s)); ("error_message", JStr (lt_message t));
       ("correlation_id", JStr (lq_correlation_id request))] ++ delegated ++ account
  | Some gate =>
      [("status", JStr (if lt_completed t then "completed" else "failed"));
       ("content", JStr (if lt_completed t then content else py_opt_or (Some (ls_best_content s)) content))] ++ delegated
      ++ [("quality_gate_passed", JBool (lt_completed t));
          ("quality_score", JFloat (float_repr (gr_quality_score (gv_result gate))));
          ("quality_gates_failed", JArr (map JStr (gr_failure_reasons (gv_result gate))));
          ("delegation_latency_ms", JInt (cr_latency_ms r)); ("input_tokens", JInt (cr_tokens_in r));
          ("output_tokens", JInt (cr_tokens_out r)); ("total_tokens", JInt (cr_tokens_in r + cr_tokens_out r));
          ("correlation_id", JStr (lq_correlation_id request))] ++ account
  end.

(** The payload [_project_evidence] hands to the projection. *)
Definition evidence_of (t : LocalTerminal) : Obj :=
  let s := lt_state t in
  let r := lt_result t in
  let tenant_id := py_opt_or (lq_tenant_id request) (lw_onex_tenant_id world) in
  [("status", JStr (if lt_completed t then "completed" else "failed")); ("correlation_id", JStr (lq_correlation_id request));
   ("task_type", JStr task_type); ("provider", JStr (rb_endpoint_ref (ls_backend s))); ("model_name", JStr (rb_model_id (ls_backend s)));
   ("prompt_text", JStr (lq_prompt request)); ("response", JStr (py_opt_or (cr_content r) (lt_message t)));
   ("quality_gate_passed", JBool (lt_completed t));
   ("quality_gates_failed", JArr (if lt_completed t then [] else [JStr (lt_message t)]));
   ("error_message", JStr (lt_message t)); ("escalation_count", JInt (ls_escalations s));
   ("metrics", JObj [("input_tokens", JInt (cr_tokens_in r)); ("output_tokens", JInt (cr_tokens_out r));
                     ("total_tokens", JInt (cr_tokens_in r + cr_tokens_out r)); ("latency_ms", JInt (cr_latency_ms r));
                     ("cost_usd", JFloat (float_repr (float_of_dec (ls_cost s))));
                     ("cost_savings_usd", JFloat (float_repr (float_of_dec (ls_savings s))))])]
  ++ match lq_source_session_id request with
     | Some sid => if truthy sid then match py_uuid sid with Some u => [("session_id", JStr u)] | None => [] end else []
     | None => []
     end
  ++ (if truthy tenant_id then [("tenant_id", JStr tenant_id)] else []).

(** [dispatch]: the loop from the initial backend, then the response and the one
    evidence payload that goes with it. *)
Definition run_dispatch (fuel : nat) : option (result LocalTerminal) :=
  match _resolve_initial_backend with
  | Raise e => Some (Raise e)
  | Ok backend => dispatch_loop fuel (start_state backend)
  end.
Definition dispatch (fuel : nat) : option (result (Obj * Obj)) :=
  option_map (fun terminal => t ← terminal; Ok (response_of t, evidence_of t)) (run_dispatch fuel).
End dispatch.
