(* ===== verification/LocalDispatchLaws.v ===== *)
(** * The local dispatch port: the laws of its loop

    What one turn of the loop may do, the invariants every turn keeps, and the
    measure that ends it. *)
From S2P Require Import Prelude PyFloat PyJson PyRegex DelegationModels DelegationRouting DelegationLadder DelegationBar QualityChecks QualityGate QualityJudge BackendResolution LlmCall LocalDispatch.

#[local] Open Scope nat_scope.

Section laws.
Context {P : Parsers} {V : SchemaValidator} (world : LocalWorld) (request : LocalRequest).
Abbreviation env := (lw_routing world).

(** ** One turn *)

(** The state after an answer: banked, and remembered when it is the best. *)
Definition answered (s : LoopState) (key : string) (accepted : bool) (r : ModelLlmDelegationCallResult) (gate : GateVerdict) : LoopState :=
  remember_best (bank s key (mk_attempt (ls_backend s) accepted (Some (gr_quality_score (gv_result gate))) r None))
    (default "" (cr_content r)) (gr_quality_score (gv_result gate)).
Abbreviation attempt s := (_run_single_attempt world request (length (ls_attempts s)) (ls_judge_key s) (ls_backend s)).
Abbreviation accepts gate := (_is_quality_accepted world request (gv_result gate)).

(** A turn fails in transport, accepts, drafts again on a free tier, or rejects. *)
Inductive Turn (s : LoopState) : LoopStep -> Prop :=
  | turn_transport r c msg key tier next :
      attempt s = Ok (TransportFailed r c msg, key) -> current_tier_of world (ls_backend s) = Ok tier ->
      (if _is_retryable_transport_failure c then next_backend world request (exclude tier s) tier else Ok None) = Ok next ->
      let s' := bank (exclude tier s) key (mk_attempt (ls_backend s) false None r (Some (c, msg))) in
      Turn s (climb s' next {| lt_completed := false; lt_result := r; lt_gate := None; lt_message := msg; lt_state := s' |})
  | turn_accept r gate key :
      attempt s = Ok (Answered r gate, key) -> accepts gate = Ok true ->
      Turn s (Done {| lt_completed := true; lt_result := r; lt_gate := Some gate; lt_message := ""; lt_state := answered s key true r gate |})
  | turn_retry r gate key tier :
      attempt s = Ok (Answered r gate, key) -> accepts gate = Ok false -> current_tier_of world (ls_backend s) = Ok tier ->
      may_retry_local world (answered s key false r gate) tier = Ok true ->
      Turn s (Again (retry_local tier (answered s key false r gate)))
  | turn_reject r gate key tier next :
      attempt s = Ok (Answered r gate, key) -> accepts gate = Ok false -> current_tier_of world (ls_backend s) = Ok tier ->
      may_retry_local world (answered s key false r gate) tier = Ok false ->
      let s' := exclude tier (answered s key false r gate) in
      next_backend world request s' tier = Ok next ->
      Turn s (climb s' next {| lt_completed := false; lt_result := r; lt_gate := Some gate;
                               lt_message := py_join "; " (gr_failure_reasons (gv_result gate)); lt_state := s' |}).

Lemma answered_backend s key b r gate : ls_backend (answered s key b r gate) = ls_backend s.
Proof. unfold answered, remember_best. by destruct (_ && _). Qed.

Lemma loop_step_turn s st : loop_step world request s = Ok st -> Turn s st.
Proof.
  unfold loop_step. intros ([o key] & Eo & Hs)%result_bind_Ok. destruct o as [r c msg|r gate].
  - unfold after_transport_failure in Hs.
    apply result_bind_Ok in Hs as (tier & Et & Hs). apply result_bind_Ok in Hs as (next & En & Hs).
    injection Hs as <-. by eapply turn_transport.
  - apply result_bind_Ok in Hs as ([] & Ea & Hs).
    + injection Hs as <-. by apply turn_accept.
    + unfold after_rejection in Hs. fold (answered s key false r gate) in Hs. rewrite answered_backend in Hs.
      apply result_bind_Ok in Hs as (tier & Et & Hs). apply result_bind_Ok in Hs as ([] & Er & Hs).
      * injection Hs as <-. by eapply turn_retry.
      * apply result_bind_Ok in Hs as (next & En & Hs). injection Hs as <-. by eapply turn_reject.
Qed.

(** What holds at the start and after every turn holds when the loop ends. *)
Lemma loop_ind (I : LoopState -> Prop) (Q : LocalTerminal -> Prop) fuel s t :
  (forall s s', I s -> Turn s (Again s') -> I s') -> (forall s t, I s -> Turn s (Done t) -> Q t) ->
  I s -> dispatch_loop world request fuel s = Some (Ok t) -> Q t.
Proof.
  intros Hagain Hdone. revert s. induction fuel as [|fuel IH]; [done|]. intros s Hs. simpl.
  destruct (loop_step world request s) as [[s'|t']|] eqn:E; [| |done]; apply loop_step_turn in E.
  - apply IH. by eapply Hagain.
  - intros [= <-]. by eapply Hdone.
Qed.

(** ** The loop ends *)

(** The retries a tier has left, and the calls a dispatch has left after this one. *)
Definition tiers : list ModelRoutingTier := match _get_config env with Ok config => config | Raise _ => [] end.
Definition drafts_left (s : LoopState) (tier : ModelRoutingTier) : nat :=
  Z.to_nat (rt_max_retries tier - default 0%Z (ls_retries s !! rt_name tier)).
Definition calls_left (s : LoopState) : nat :=
  Z.to_nat (max_escalations world request - ls_escalations s) + sum_list_with (drafts_left s) tiers.

Lemma climb_again s next t s' : climb s next t = Again s' -> exists b, next = Some b /\ s' = escalate b s.
Proof. destruct next as [b|]; [intros [= <-]; eauto|done]. Qed.
Lemma climb_done s next t t' : climb s next t = Done t' -> next = None /\ t' = t.
Proof. destruct next; [done|]. by intros [= <-]. Qed.
Lemma next_backend_budget s tier b : next_backend world request s tier = Ok (Some b) ->
  (ls_escalations s < max_escalations world request)%Z /\ _resolve_next_backend world request tier (ls_excluded s) = Ok (Some b).
Proof. unfold next_backend. destruct (_ <? _)%Z eqn:E; [|done]. apply Z.ltb_lt in E. done. Qed.
Lemma may_retry_budget s tier : may_retry_local world s tier = Ok true ->
  exists T, T ∈ tiers /\ rt_name T = tier /\ (default 0 (ls_retries s !! tier) < rt_max_retries T)%Z.
Proof.
  unfold may_retry_local. intros ([] & Ef & Hb)%result_bind_Ok; [|done].
  apply result_bind_Ok in Hb as (budget & Eb & [= Hlt]). apply Z.ltb_lt in Hlt.
  unfold tier_max_retries in Eb. apply result_bind_Ok in Eb as (config & Ec & Eb). unfold tiers. rewrite Ec.
  destruct (find_tier tier config) as [T|] eqn:EfT; [|done]. injection Eb as <-.
  apply find_some in EfT as [Hin Hn]. apply String.eqb_eq in Hn. rewrite <- list_elem_of_In in Hin. by exists T.
Qed.

Lemma answered_fields s key b r gate : let s' := answered s key b r gate in
  ls_retries s' = ls_retries s /\ ls_escalations s' = ls_escalations s /\ ls_excluded s' = ls_excluded s
  /\ ls_attempts s' = ls_attempts s ++ [mk_attempt (ls_backend s) b (Some (gr_quality_score (gv_result gate))) r None]
  /\ ls_cost s' = dec_add (ls_cost s) (cr_actual_cost_usd r) /\ ls_savings s' = dec_add (ls_savings s) (cr_savings_usd r).
Proof. unfold answered, remember_best. by destruct (_ && _). Qed.

Lemma sum_list_with_lt {A} (f g : A -> nat) l x : (forall y, g y <= f y) -> x ∈ l -> g x < f x ->
  sum_list_with g l < sum_list_with f l.
Proof.
  intros Hle Hx Hlt. assert (forall l, sum_list_with g l <= sum_list_with f l) as Hsum.
  { intros k. induction k as [|y k IH]; simpl; [done|]. specialize (Hle y). lia. }
  induction Hx as [y l|y z l Hin IH]; simpl.
  - specialize (Hsum l). lia.
  - specialize (Hle z). specialize (IH Hlt). lia.
Qed.
Lemma retry_left s tier : may_retry_local world s tier = Ok true -> calls_left (retry_local tier s) < calls_left s.
Proof.
  intros (T & Hin & <- & Hlt)%may_retry_budget. unfold calls_left. cbn [ls_escalations retry_local].
  apply Nat.add_lt_mono_l, (sum_list_with_lt _ _ _ T); [|done|].
  - intros y. unfold drafts_left. cbn [ls_retries retry_local]. destruct (decide (rt_name T = rt_name y)) as [->|Hne].
    + rewrite lookup_insert_eq. simpl. lia.
    + by rewrite lookup_insert_ne.
  - unfold drafts_left. cbn [ls_retries retry_local]. rewrite lookup_insert_eq. simpl. lia.
Qed.
Lemma calls_left_eq s s' : ls_escalations s = ls_escalations s' -> ls_retries s = ls_retries s' -> calls_left s = calls_left s'.
Proof. intros He Hr. unfold calls_left, drafts_left. by rewrite He, Hr. Qed.
Lemma escalate_left s s' tier b : next_backend world request s tier = Ok (Some b) ->
  ls_escalations s' = ls_escalations s -> ls_retries s' = ls_retries s -> calls_left (escalate b s') < calls_left s.
Proof.
  intros [Hlt _]%next_backend_budget He Hr. unfold calls_left, drafts_left. cbn [ls_escalations ls_retries escalate]. rewrite He, Hr. lia.
Qed.

(** A turn that goes on uses up one call, and enters one attempt in the account. *)
Lemma turn_left s s' : Turn s (Again s') ->
  calls_left s' < calls_left s /\ length (ls_attempts s') = S (length (ls_attempts s)).
Proof.
  intros Ht. remember (Again s') as st eqn:Est. destruct Ht as [r c msg key tier next Ea Et En s1|r gate key Ea Eq|r gate key tier Ea Eq Et Er|r gate key tier next Ea Eq Et Er s1 En].
  - apply climb_again in Est as (b & -> & ->). destruct (_is_retryable_transport_failure c); [|done].
    split; [by eapply (escalate_left (exclude tier s))|]. subst s1. cbn. rewrite length_app. simpl. lia.
  - done.
  - injection Est as <-. destruct (answered_fields s key false r gate) as (Hr & He & _ & Hat & _).
    split; [|cbn [ls_attempts retry_local]; rewrite Hat, length_app; simpl; lia].
    apply retry_left in Er. by rewrite (calls_left_eq _ s He Hr) in Er.
  - apply climb_again in Est as (b & -> & ->). destruct (answered_fields s key false r gate) as (Hr & He & _ & Hat & _).
    split; [|subst s1; cbn [ls_attempts escalate exclude]; rewrite Hat, length_app; simpl; lia].
    apply (escalate_left s1 s1) in En; [|done|done]. by rewrite (calls_left_eq s1 s He Hr) in En.
Qed.

(** Fuel beyond the calls left is enough, and more of it changes nothing. *)
Lemma loop_ends fuel fuel' s : calls_left s < fuel -> calls_left s < fuel' ->
  dispatch_loop world request fuel s <> None /\ dispatch_loop world request fuel s = dispatch_loop world request fuel' s.
Proof.
  revert fuel' s. induction fuel as [|fuel IH]; intros [|fuel'] s Hf Hf'; try lia. simpl.
  destruct (loop_step world request s) as [[s'|t]|e] eqn:E; [|done|done].
  apply loop_step_turn, turn_left in E as [Hlt _]. apply IH; lia.
Qed.
Lemma loop_calls fuel s t : dispatch_loop world request fuel s = Some (Ok t) ->
  length (ls_attempts s) < length (ls_attempts (lt_state t)) <= S (calls_left s + length (ls_attempts s)).
Proof.
  revert s. induction fuel as [|fuel IH]; [done|]. intros s. simpl.
  destruct (loop_step world request s) as [[s'|t']|e] eqn:E; [| |done]; apply loop_step_turn in E.
  - intros Hl%IH. apply turn_left in E as [? ?]. lia.
  - intros [= <-]. remember (Done t') as st eqn:Est. destruct E as [r c msg key tier next Ea Et En s1|r gate key Ea Eq|r gate key tier Ea Eq Et Er|r gate key tier next Ea Eq Et Er s1 En].
    + apply climb_done in Est as [_ ->]. subst s1. cbn. rewrite length_app. simpl. lia.
    + injection Est as <-. destruct (answered_fields s key true r gate) as (_ & _ & _ & Hat & _). cbn [lt_state]. rewrite Hat, length_app. simpl. lia.
    + done.
    + apply climb_done in Est as [_ ->]. destruct (answered_fields s key false r gate) as (_ & _ & _ & Hat & _).
      subst s1. cbn [lt_state ls_attempts exclude]. rewrite Hat, length_app. simpl. lia.
Qed.

(** ** The schedule of the calls *)

(** The ladder's name for an attempt's tier. *)
Definition tier_name (backend_id tier : string) : string :=
  match tier_for_backend env backend_id with Ok t => py_opt_or t tier | Raise _ => tier end.
Definition ladder_tier (a : Attempt) : string := tier_name (at_backend_id a) (at_tier a).
Abbreviation current s := (tier_name (rb_backend_id (ls_backend s)) (rb_tier (ls_backend s))).
Definition draft_budget (tier : string) : nat :=
  match is_free_tier env tier, tier_max_retries env tier with Ok true, Ok n => Z.to_nat n | _, _ => 0 end.
(** The calls of a climb: on every tier a first one and so many retries. *)
Definition calls_of (climb : list (string * nat)) : list string := concat (map (fun b => replicate (S b.2) b.1) climb).

(** A registry whose tiers have names and whose backends belong to one tier. *)
Record WellTiered (config : list ModelRoutingTier) : Prop := {
  tiers_named : Forall (fun T => rt_name T <> "") config;
  backends_owned T T' m m' : T ∈ config -> T' ∈ config -> m ∈ rt_models T -> m' ∈ rt_models T' ->
    tm_backend_ref m = tm_backend_ref m' -> rt_name T = rt_name T'
}.
Definition ladder (config : list ModelRoutingTier) : result (list ModelRoutingTier) :=
  _tier_order_from_contract config (_task_class_entry (_get_task_class_contract env) (lq_task_type request)).

Lemma resolved_id sources path t i b : resolve_delegation_backend sources path t (Some i) = Ok b -> rb_backend_id b = i.
Proof.
  unfold resolve_delegation_backend, resolve_fields. intros (merged & _ & (o & Eo & Hb)%result_bind_Ok)%result_bind_Ok.
  unfold required in Eo. destruct (_select_backend_by_id merged i) as [o'|] eqn:Ef; [|done]. injection Eo as ->.
  unfold _select_backend_by_id in Ef. apply find_some in Ef as [_ Hid]. breflect.
  do 7 (apply result_bind_Ok in Hb as (? & _ & Hb)). apply result_bind_Ok in Hb as (j & Ej & Hb).
  unfold required in Ej. destruct (dict_get "backend_id" o) as [[]|]; try done. injection Ej as <-. cbn [json_str] in Hb. destruct (String.eqb _ ""); [done|]. injection Hb as <-. by apply String.eqb_eq.
Qed.

Lemma current_tier_name b tier : current_tier_of world b = Ok tier -> tier_name (rb_backend_id b) (rb_tier b) = tier.
Proof. unfold current_tier_of, tier_name. destruct (tier_for_backend _ _); [|done]. by intros [= <-]. Qed.
(** A tier's backend is known under the tier's name. *)
Lemma tier_backend_name n b config : _get_config env = Ok config -> WellTiered config ->
  tier_backend world request (Some n) = Ok (Some b) -> tier_name (rb_backend_id b) (rb_tier b) = n.
Proof.
  intros Hc [Hnamed Hown] Hb. unfold tier_backend in Hb. apply result_bind_Ok in Hb as ([i|] & Ei & Hb); [|done].
  unfold try_backend, resolve_backend in Hb. destruct (resolve_delegation_backend _ _ _ _) as [b'|[]] eqn:Er; try done. injection Hb as ->.
  apply resolved_id in Er. unfold backend_id_for_tier in Ei. rewrite Hc in Ei. cbn [mbind result_bind] in Ei.
  destruct (find_tier n config) as [T|] eqn:EfT; [|done]. apply result_bind_Ok in Ei as (refs & _ & [= Hi]).
  destruct (_select_model_for_task _ _ _ _ _ _ _) as [m|] eqn:Em; [|done]. injection Hi as Hi.
  apply select_sound in Em as [Hm _]. apply find_some in EfT as [HT Hn]. apply String.eqb_eq in Hn. rewrite <- list_elem_of_In in HT.
  unfold tier_name, tier_for_backend. rewrite Hc, Er. cbn [mbind result_bind].
  destruct (List.find _ config) as [T'|] eqn:Ef; simpl.
  - apply find_some in Ef as [HT' Hm']. rewrite <- list_elem_of_In in HT'. apply existsb_exists in Hm' as (m' & Hm' & Heq).
    apply String.eqb_eq in Heq. rewrite <- list_elem_of_In in Hm'.
    rewrite (Hown T' T m' m) by congruence. rewrite Forall_forall in Hnamed. specialize (Hnamed T HT). rewrite Hn in *. by destruct n.
  - pose proof (find_none _ _ Ef T) as Hnone. rewrite <- list_elem_of_In in Hnone. specialize (Hnone HT).
    apply not_true_iff_false in Hnone as []. apply existsb_exists. exists m. rewrite <- list_elem_of_In, String.eqb_eq. done.
Qed.

(** Where a dispatch stands: the climb behind it, [r] retries into the current
    tier. *)
Definition on_ladder (climb : list (string * nat)) : Prop :=
  length climb <= 1 \/ exists config tiers, _get_config env = Ok config /\ ladder config = Ok tiers
                       /\ sublist (map fst climb) (map rt_name tiers).
Definition scheduled (attempts : list Attempt) (climb : list (string * nat)) : Prop :=
  map ladder_tier attempts = calls_of climb /\ Forall (fun b => b.2 <= draft_budget b.1) climb.
Record Scheduled (s : LoopState) (climb : list (string * nat)) (r : nat) : Prop := {
  sc_calls : map ladder_tier (ls_attempts s) = calls_of climb ++ replicate r (current s);
  sc_budgets : Forall (fun b => b.2 <= draft_budget b.1) climb /\ r <= draft_budget (current s);
  sc_retries : default 0%Z (ls_retries s !! current s) = Z.of_nat r;
  sc_fresh n : is_Some (ls_retries s !! n) -> n ∈ current s :: ls_excluded s;
  sc_excluded : map fst climb = rev (ls_excluded s);
  sc_escalations : ls_escalations s = Z.of_nat (length climb) /\ (ls_escalations s <= max_escalations world request)%Z;
  sc_ladder : climb = [] \/ exists config tiers pre c post, _get_config env = Ok config /\ ladder config = Ok tiers
    /\ tiers = pre ++ c :: post /\ rt_name c = current s /\ sublist (map fst climb) (map rt_name pre)
}.

Lemma max_escalations_pos : (0 <= max_escalations world request)%Z.
Proof.
  unfold max_escalations. destruct (resolve_task_class_max_escalations _ _) as [n|] eqn:E; [|done]. simpl.
  unfold resolve_task_class_max_escalations in E.
  repeat match type of E with mbind _ ?x = _ => let y := fresh in let Ey := fresh in destruct x as [y|] eqn:Ey; [|done]; cbn [mbind option_bind] in E end.
  destruct (dict_get _ _) as [[| |raw| | | |]|]; try done. destruct (raw <? 0)%Z eqn:El; [done|]. injection E as <-. by apply Z.ltb_ge.
Qed.
Lemma start_scheduled b : Scheduled (start_state b) [] 0.
Proof.
  split; simpl; try done; try (by left); [by split; [constructor|lia]|by intros n [? ?%lookup_empty_Some]|].
  split; [done|apply max_escalations_pos].
Qed.

Lemma calls_of_snoc climb n r : calls_of (climb ++ [(n, r)]) = calls_of climb ++ replicate (S r) n.
Proof. unfold calls_of. rewrite map_app, concat_app. simpl. by rewrite app_nil_r. Qed.
(** One more attempt on the current tier completes its part of the climb. *)
Lemma scheduled_end s climb r attempts a : Scheduled s climb r -> ladder_tier a = current s -> attempts = ls_attempts s ++ [a] ->
  scheduled attempts (climb ++ [(current s, r)]) /\ on_ladder (climb ++ [(current s, r)]).
Proof.
  intros [Hcalls [Hb Hr] _ _ _ _ Hl] Ha ->. split; [split|].
  - rewrite map_app, Hcalls, calls_of_snoc, <- app_assoc. simpl. by rewrite Ha, <- replicate_S_end.
  - apply Forall_app. by repeat constructor.
  - destruct Hl as [->|(config & tiers & pre & c & post & Hc & Ht & -> & Hn & Hsub)]; [by left; simpl|].
    right. exists config, (pre ++ c :: post). repeat (split; [done|]). rewrite !map_app. simpl. rewrite Hn.
    apply sublist_app; [done|]. apply sublist_skip, sublist_nil_l.
Qed.

Lemma NoDup_split {A} (f : A -> string) pre c post pre' c' post' : NoDup (map f (pre ++ c :: post)) ->
  pre ++ c :: post = pre' ++ c' :: post' -> f c = f c' -> pre = pre' /\ post = post'.
Proof.
  revert pre'. induction pre as [|x pre IH]; intros [|x' pre']; simpl; intros Hnd Heq Hf.
  - by injection Heq.
  - injection Heq as -> ->. apply NoDup_cons in Hnd as [[] _]. rewrite Hf, map_app. apply elem_of_app. right. by left.
  - injection Heq as -> <-. apply NoDup_cons in Hnd as [[] _]. rewrite <- Hf, map_app. apply elem_of_app. right. by left.
  - injection Heq as -> Heq. apply NoDup_cons in Hnd as [_ Hnd]. destruct (IH pre' Hnd Heq Hf) as [-> ->]. done.
Qed.

(** An escalation goes on up the ladder. *)
Lemma scheduled_escalate config s climb r x s' a b : _get_config env = Ok config -> WellTiered config ->
  (forall tiers, ladder config = Ok tiers -> NoDup (map rt_name tiers)) ->
  Scheduled s climb r -> ls_attempts s' = ls_attempts s ++ [a] -> ladder_tier a = current s -> ls_retries s' = ls_retries s ->
  ls_escalations s' = ls_escalations s -> ls_excluded s' = current s :: ls_excluded s ->
  ls_excluded x = ls_excluded s' -> ls_escalations x = ls_escalations s ->
  next_backend world request x (current s) = Ok (Some b) ->
  Scheduled (escalate b s') (climb ++ [(current s, r)]) 0.
Proof.
  intros Hc Hwt Hnd Hs Hat Ha Hret Hesc Hex Hexx Hescx [Hlt Hn]%next_backend_budget. rewrite Hescx in Hlt.
  destruct (scheduled_end s climb r _ a Hs Ha Hat) as [[Hcalls Hbud] _].
  destruct Hs as [_ _ _ Hfresh Hexcl [He _] Hl]. unfold _resolve_next_backend in Hn.
  apply result_bind_Ok in Hn as ([n|] & Hn & Hb); [|done]. apply (tier_backend_name n b config Hc Hwt) in Hb.
  apply next_tier_sound in Hn as (config' & refs & tiers & pre & c & mid & u & post & Hc' & _ & Ht & -> & Hcur & Hu & Hne & Hnex & _).
  rewrite Hc in Hc'. injection Hc' as <-. fold (ladder config) in Ht. rewrite Hexx in Hnex.
  split; cbn [ls_backend ls_attempts ls_retries ls_excluded ls_escalations escalate]; rewrite ?Hb.
  - by rewrite Hcalls, app_nil_r.
  - split; [done|]. lia.
  - rewrite Hret. destruct (ls_retries s !! n) eqn:E; [|done]. destruct Hnex. rewrite Hex. apply Hfresh. by rewrite E.
  - intros k Hk. rewrite Hret in Hk. apply Hfresh in Hk. rewrite Hex. set_solver.
  - rewrite Hex, map_app, Hexcl. done.
  - rewrite Hesc, length_app. simpl. lia.
  - right. exists config, (pre ++ c :: mid ++ u :: post), (pre ++ c :: mid), u, post. split; [done|]. split; [done|].
    split; [by rewrite <- app_assoc|]. split; [done|]. rewrite !map_app. simpl.
    destruct Hl as [->|(config'' & tiers' & pre' & c' & post' & Hc'' & Ht' & Heq & Hcur' & Hsub)].
    + simpl. apply sublist_inserts_l. rewrite Hcur. apply sublist_skip, sublist_nil_l.
    + rewrite Hc in Hc''. injection Hc'' as <-. rewrite Ht in Ht'. injection Ht' as <-.
      destruct (NoDup_split rt_name pre c (mid ++ u :: post) pre' c' post' (Hnd _ Ht) Heq) as [<- _]; [congruence|].
      apply sublist_app; [done|]. rewrite Hcur. apply sublist_skip, sublist_nil_l.
Qed.

Lemma scheduled_turn config s climb r s' : _get_config env = Ok config -> WellTiered config ->
  (forall tiers, ladder config = Ok tiers -> NoDup (map rt_name tiers)) ->
  Scheduled s climb r -> Turn s (Again s') -> exists climb' r', Scheduled s' climb' r'.
Proof.
  intros Hc Hwt Hnd Hs Ht. remember (Again s') as st eqn:Est.
  destruct Ht as [q c msg key tier next Ea Et En s1|q gate key Ea Eq|q gate key tier Ea Eq Et Er|q gate key tier next Ea Eq Et Er s1 En]; [| done| |].
  - apply climb_again in Est as (b & -> & ->). apply current_tier_name in Et as <-. destruct (_is_retryable_transport_failure c); [|done].
    eexists _, _. by eapply (scheduled_escalate config s climb r (exclude (current s) s) s1).
  - injection Est as <-. apply current_tier_name in Et as <-.
    destruct (answered_fields s key false q gate) as (Hr & He & Hx & Hat & _). pose proof (answered_backend s key false q gate) as Hbk.
    destruct (may_retry_budget _ _ Er) as (T & HT & HTn & Hlt). rewrite Hr in Hlt.
    assert (Hbud : S r <= draft_budget (current s)).
    { destruct Hs as [_ _ Hret _ _ _ _]. rewrite Hret in Hlt. clear -Er Hlt Hret Hr. unfold may_retry_local in Er. unfold draft_budget.
      apply result_bind_Ok in Er as ([] & -> & Er); [|done]. apply result_bind_Ok in Er as (n & -> & [= Er]).
      rewrite Hr, Hret in Er. apply Z.ltb_lt in Er. lia. }
    exists climb, (S r). destruct Hs as [Hcalls [Hb Hr'] Hret Hfresh Hexcl Hesc Hl].
    split; cbn [ls_backend ls_attempts ls_retries ls_excluded ls_escalations retry_local]; rewrite ?Hbk; try done.
    + rewrite Hat, map_app, Hcalls, <- app_assoc. simpl. by rewrite <- replicate_S_end.
    + rewrite Hr, Hret, lookup_insert_eq. simpl. lia.
    + intros k. rewrite Hr, Hx. intros [v Hv]. apply lookup_insert_Some in Hv as [[<- _]|[_ Hv]]; [left|]. apply Hfresh. by rewrite Hv.
    + by rewrite Hx.
    + by rewrite He.
  - apply climb_again in Est as (b & -> & ->). apply current_tier_name in Et as <-.
    destruct (answered_fields s key false q gate) as (Hr & He & Hx & Hat & _).
    eexists _, _. eapply (scheduled_escalate config s climb r s1 s1); try done. subst s1. cbn. by rewrite Hx.
Qed.

(** The last call enters the account. *)
Lemma done_call s t : Turn s (Done t) -> exists a, (at_backend_id a = rb_backend_id (ls_backend s) /\ at_tier a = rb_tier (ls_backend s))
  /\ ls_attempts (lt_state t) = ls_attempts s ++ [a] /\ ls_escalations (lt_state t) = ls_escalations s.
Proof.
  intros Ht. remember (Done t) as st eqn:Est.
  destruct Ht as [q c msg key tier next Ea Et En s1|q gate key Ea Eq|q gate key tier Ea Eq Et Er|q gate key tier next Ea Eq Et Er s1 En]; [| |done|].
  - apply climb_done in Est as [_ ->]. by eexists (mk_attempt _ _ _ _ _).
  - injection Est as <-. destruct (answered_fields s key true q gate) as (_ & He & _ & Hat & _). by eexists (mk_attempt _ _ _ _ _).
  - apply climb_done in Est as [_ ->]. destruct (answered_fields s key false q gate) as (_ & He & _ & Hat & _). by eexists (mk_attempt _ _ _ _ _).
Qed.
Lemma scheduled_done s climb r t : Scheduled s climb r -> Turn s (Done t) ->
  let climb' := climb ++ [(current s, r)] in
  scheduled (ls_attempts (lt_state t)) climb' /\ on_ladder climb'
  /\ length climb' = S (Z.to_nat (ls_escalations (lt_state t))).
Proof.
  intros Hs (a & [Hb Ht] & Hat & He)%done_call. set (climb' := climb ++ _).
  assert (ladder_tier a = current s) as Ha by (unfold ladder_tier; by rewrite Hb, Ht).
  destruct (scheduled_end s climb r _ a Hs Ha Hat) as [? ?]. split; [done|]. split; [done|].
  destruct Hs as [_ _ _ _ _ [Hesc _] _]. rewrite He, Hesc. unfold climb'. rewrite length_app. simpl. lia.
Qed.

(** Every run follows a schedule. *)
Lemma run_scheduled config fuel t : _get_config env = Ok config -> WellTiered config ->
  (forall tiers, ladder config = Ok tiers -> NoDup (map rt_name tiers)) ->
  run_dispatch world request fuel = Some (Ok t) ->
  exists climb, scheduled (ls_attempts (lt_state t)) climb /\ on_ladder climb
    /\ length climb = S (Z.to_nat (ls_escalations (lt_state t))).
Proof.
  intros Hc Hwt Hnd. unfold run_dispatch. destruct (_resolve_initial_backend world request) as [b|]; [|done].
  apply (loop_ind (fun s => exists climb r, Scheduled s climb r) (fun t => exists climb, scheduled (ls_attempts (lt_state t)) climb /\ on_ladder climb
    /\ length climb = S (Z.to_nat (ls_escalations (lt_state t))))).
  - intros s s' (climb & r & Hs). by apply (scheduled_turn config s climb r).
  - intros s t' (climb & r & Hs) Ht. exists (climb ++ [(current s, r)]). by apply scheduled_done.
  - exists [], 0. apply start_scheduled.
Qed.

(** ** The steps from call to call *)

(** How the calls of a dispatch go on from one that was not accepted, on any
    registry: with the escalations so far and the tiers drafted on again.  A backend
    goes by the first tier that lists it. *)
Inductive Climbing : list Attempt -> nat -> list string -> Prop :=
  | climbing_first a : Climbing [a] 0 []
  | climbing_again before a b ups again : Climbing (before ++ [a]) ups again -> at_passed a = false ->
      at_backend_id b = at_backend_id a -> is_free_tier env (ladder_tier a) = Ok true ->
      count_occ String.string_dec again (ladder_tier a) < draft_budget (ladder_tier a) ->
      Climbing ((before ++ [a]) ++ [b]) ups (ladder_tier a :: again)
  | climbing_up before a b ups again config lower c mid u upper : Climbing (before ++ [a]) ups again -> at_passed a = false ->
      (Z.of_nat ups < max_escalations world request)%Z ->
      _get_config env = Ok config -> ladder config = Ok (lower ++ c :: mid ++ u :: upper) ->
      rt_name c = ladder_tier a -> rt_name u ∉ map ladder_tier (before ++ [a]) ->
      backend_id_for_tier env (rt_name u) (lq_task_type request) = Ok (Some (at_backend_id b)) ->
      Climbing ((before ++ [a]) ++ [b]) (S ups) again.

Definition call_on (s : LoopState) (a : Attempt) : Prop := at_backend_id a = rb_backend_id (ls_backend s) /\ at_tier a = rb_tier (ls_backend s).
Lemma call_on_tier s a : call_on s a -> ladder_tier a = current s.
Proof. intros [Hb Ht]. unfold ladder_tier. by rewrite Hb, Ht. Qed.

(** Where a dispatch stands, whatever the next call's answer. *)
Record Standing (s : LoopState) (ups : nat) (again : list string) : Prop := {
  sd_next a : call_on s a -> Climbing (ls_attempts s ++ [a]) ups again;
  sd_escalations : ls_escalations s = Z.of_nat ups /\ (ls_escalations s <= max_escalations world request)%Z;
  sd_retries k : default 0%Z (ls_retries s !! k) = Z.of_nat (count_occ String.string_dec again k);
  sd_left a : a ∈ ls_attempts s -> ladder_tier a ∈ current s :: ls_excluded s
}.
Lemma start_standing b : Standing (start_state b) 0 [].
Proof.
  split; simpl; [constructor|split; [done|apply max_escalations_pos]| |by intros a ?%not_elem_of_nil]. intros k. by rewrite lookup_empty.
Qed.

Lemma may_retry_draft s tier k : may_retry_local world s tier = Ok true -> default 0%Z (ls_retries s !! tier) = Z.of_nat k ->
  is_free_tier env tier = Ok true /\ k < draft_budget tier.
Proof.
  unfold may_retry_local, draft_budget. intros ([] & -> & Er)%result_bind_Ok Hk; [|done]. split; [done|].
  apply result_bind_Ok in Er as (n & -> & [= Er]). rewrite Hk in Er. apply Z.ltb_lt in Er. lia.
Qed.
Lemma tier_backend_id n b : tier_backend world request (Some n) = Ok (Some b) ->
  backend_id_for_tier env n (lq_task_type request) = Ok (Some (rb_backend_id b)).
Proof.
  unfold tier_backend. intros ([i|] & -> & Hb)%result_bind_Ok; [|done]. unfold try_backend, resolve_backend in Hb.
  destruct (resolve_delegation_backend _ _ _ _) as [b'|[]] eqn:Er; try done. injection Hb as ->. by apply resolved_id in Er as ->.
Qed.

Lemma standing_escalate s ups again x s' a b : Standing s ups again -> call_on s a -> at_passed a = false ->
  ls_attempts s' = ls_attempts s ++ [a] -> ls_retries s' = ls_retries s -> ls_escalations s' = ls_escalations s ->
  ls_excluded s' = current s :: ls_excluded s -> ls_excluded x = ls_excluded s' -> ls_escalations x = ls_escalations s ->
  next_backend world request x (current s) = Ok (Some b) -> Standing (escalate b s') (S ups) again.
Proof.
  intros [Hnext [He Hle] Hret Hleft] Ha Hp Hat Hr Hes Hx Hexx Hescx [Hlt Hn]%next_backend_budget. rewrite Hescx in Hlt.
  unfold _resolve_next_backend in Hn. apply result_bind_Ok in Hn as ([n|] & Hn & Hb); [|done]. apply tier_backend_id in Hb.
  apply next_tier_sound in Hn as (config & refs & tiers & lower & c & mid & u & upper & Hc & _ & Ht & -> & Hcur & Hu & _ & Hnex & _).
  rewrite Hexx, Hx in Hnex. specialize (Hnext a Ha). pose proof (call_on_tier s a Ha) as Htier.
  assert (forall y, y ∈ ls_attempts s ++ [a] -> ladder_tier y ∈ current s :: ls_excluded s) as Hall.
  { intros y [Hy|Hy%list_elem_of_singleton]%elem_of_app; [by apply Hleft|]. subst y. rewrite Htier. by left. }
  split; cbn [ls_backend ls_attempts ls_retries ls_excluded ls_escalations escalate].
  - intros y [Hy _]. cbn [ls_backend escalate] in Hy. rewrite Hat.
    apply (climbing_up _ a y ups again config lower c mid u upper); rewrite ?Hu, ?Hy; try done; [by rewrite <- He|congruence|].
    intros (y' & Hy' & Hin)%list_elem_of_fmap. apply Hnex. rewrite Hy'. by apply Hall.
  - rewrite Hes. lia.
  - intros k. by rewrite Hr.
  - intros y Hy. rewrite Hat in Hy. rewrite Hx. right. by apply Hall.
Qed.
Lemma standing_turn s ups again s' : Standing s ups again -> Turn s (Again s') -> exists ups' again', Standing s' ups' again'.
Proof.
  intros Hs Ht. remember (Again s') as st eqn:Est.
  destruct Ht as [q c msg key tier next Ea Et En s1|q gate key Ea Eq|q gate key tier Ea Eq Et Er|q gate key tier next Ea Eq Et Er s1 En]; [|done| |].
  - apply climb_again in Est as (b & -> & ->). apply current_tier_name in Et as <-. destruct (_is_retryable_transport_failure c); [|done].
    eexists _, _. by eapply (standing_escalate s ups again (exclude (current s) s) s1 (mk_attempt (ls_backend s) false None q (Some (c, msg)))).
  - injection Est as <-. apply current_tier_name in Et as <-.
    destruct (answered_fields s key false q gate) as (Hr & He & Hx & Hat & _). pose proof (answered_backend s key false q gate) as Hbk.
    set (a := mk_attempt _ _ _ _ _) in Hat. assert (call_on s a) as Ha by done. pose proof (call_on_tier s a Ha) as Htier.
    destruct Hs as [Hnext Hesc Hret Hleft].
    destruct (may_retry_draft _ _ (count_occ String.string_dec again (current s)) Er) as [Hfree Hlt]; [by rewrite Hr, Hret|].
    exists ups, (current s :: again). split; cbn [ls_backend ls_attempts ls_retries ls_excluded ls_escalations retry_local]; rewrite ?Hbk, ?Hat, ?He, ?Hx; [|done| |].
    + intros y [Hy _]. cbn [ls_backend retry_local] in Hy. rewrite Hbk in Hy. rewrite <- Htier.
      apply climbing_again; rewrite ?Htier; try done. by apply Hnext.
    + intros k. rewrite Hr. destruct (decide (current s = k)) as [<-|Hne].
      * rewrite lookup_insert_eq, count_occ_cons_eq by done. rewrite Hret. simpl. lia.
      * by rewrite lookup_insert_ne, count_occ_cons_neq.
    + intros y [Hy|Hy%list_elem_of_singleton]%elem_of_app; [by apply Hleft|]. subst y. rewrite Htier. by left.
  - apply climb_again in Est as (b & -> & ->). apply current_tier_name in Et as <-.
    destruct (answered_fields s key false q gate) as (Hr & He & Hx & Hat & _).
    eexists _, _. eapply (standing_escalate s ups again s1 s1 (mk_attempt (ls_backend s) false _ q None)); try done. subst s1. cbn. by rewrite Hx.
Qed.
Lemma run_climbs fuel t : run_dispatch world request fuel = Some (Ok t) ->
  (exists again, Climbing (ls_attempts (lt_state t)) (Z.to_nat (ls_escalations (lt_state t))) again)
  /\ (0 <= ls_escalations (lt_state t) <= max_escalations world request)%Z.
Proof.
  unfold run_dispatch. destruct (_resolve_initial_backend world request) as [b|]; [|done].
  apply (loop_ind (fun s => exists ups again, Standing s ups again) (fun t =>
    (exists again, Climbing (ls_attempts (lt_state t)) (Z.to_nat (ls_escalations (lt_state t))) again)
    /\ (0 <= ls_escalations (lt_state t) <= max_escalations world request)%Z)).
  - intros s s' (ups & again & Hs). by apply (standing_turn s ups again).
  - intros s t' (ups & again & [Hnext [He Hle] _ _]) (a & Ha & -> & ->)%done_call. rewrite He, Nat2Z.id. split; [|lia].
    exists again. by apply Hnext.
  - exists 0, []. apply start_standing.
Qed.

(** ** The account and the best answer *)

Definition total (f : Attempt -> decimal) (attempts : list Attempt) : decimal := fold_left dec_add (map f attempts) dec_zero.
(** A rejected answer with text; the one kept scored above all before it. *)
Definition authored (a : Attempt) : option (string * float) :=
  match at_score a with Some q => if truthy (at_content a) then Some (at_content a, q) else None | None => None end.
Definition better (best : string * float) (a : Attempt) : string * float :=
  match authored a with Some c => if fgt c.2 best.2 then c else best | None => best end.
Definition best_of (attempts : list Attempt) : string * float := fold_left better attempts ("", float_of_Z (-1)).
Lemma total_snoc f l a : total f (l ++ [a]) = dec_add (total f l) (f a).
Proof. unfold total. by rewrite map_app, fold_left_app. Qed.
Lemma best_of_snoc l a : best_of (l ++ [a]) = better (best_of l) a.
Proof. unfold best_of. by rewrite fold_left_app. Qed.

Record Accounted (s : LoopState) : Prop := {
  acc_cost : ls_cost s = total at_cost (ls_attempts s);
  acc_savings : ls_savings s = total at_savings (ls_attempts s);
  acc_best : (ls_best_content s, ls_best_score s) = best_of (ls_attempts s)
}.
Lemma accounted_bank s s' key a : ls_cost s' = ls_cost s -> ls_savings s' = ls_savings s -> ls_attempts s' = ls_attempts s ->
  ls_best_content s' = ls_best_content s -> ls_best_score s' = ls_best_score s -> authored a = None ->
  Accounted s -> Accounted (bank s' key a).
Proof.
  intros H1 H2 H3 H4 H5 Ha [Hc Hs Hb].
  split; cbn [bank ls_cost ls_savings ls_attempts ls_best_content ls_best_score]; rewrite ?H1, ?H2, ?H3, ?H4, ?H5, ?total_snoc.
  - by rewrite Hc.
  - by rewrite Hs.
  - rewrite best_of_snoc, <- Hb. unfold better. by rewrite Ha.
Qed.
Lemma accounted_answered s key b r gate : Accounted s -> Accounted (answered s key b r gate).
Proof.
  intros [Hc Hs Hb]. destruct (answered_fields s key b r gate) as (_ & _ & _ & Hat & Hco & Hsa).
  split; rewrite Hat, ?total_snoc.
  - by rewrite Hco, Hc.
  - by rewrite Hsa, Hs.
  - rewrite best_of_snoc, <- Hb. unfold better, authored, answered, remember_best.
    cbn [at_score at_content mk_attempt bank ls_best_score ls_best_content]. destruct (truthy _); cbn; [|done]. by destruct (fgt _ _).
Qed.
Lemma accounted_retry tier s : Accounted s -> Accounted (retry_local tier s).
Proof. by intros []. Qed.
Lemma accounted_exclude tier s : Accounted s -> Accounted (exclude tier s).
Proof. by intros []. Qed.
Lemma accounted_escalate b s : Accounted s -> Accounted (escalate b s).
Proof. by intros []. Qed.
Lemma accounted_turn s st : Accounted s -> Turn s st ->
  match st with Again s' => Accounted s' | Done t => Accounted (lt_state t) end.
Proof.
  intros Hs Ht. destruct Ht as [q c msg key tier next Ea Et En s1|q gate key Ea Eq|q gate key tier Ea Eq Et Er|q gate key tier next Ea Eq Et Er s1 En].
  - assert (Accounted s1) by by apply (accounted_bank s). destruct next; simpl; [by apply accounted_escalate|done].
  - by apply accounted_answered.
  - by apply accounted_retry, accounted_answered.
  - assert (Accounted s1) by by apply accounted_exclude, accounted_answered. destruct next; simpl; [by apply accounted_escalate|done].
Qed.
Lemma run_accounted fuel t : run_dispatch world request fuel = Some (Ok t) -> Accounted (lt_state t).
Proof.
  unfold run_dispatch. destruct (_resolve_initial_backend world request) as [b|]; [|done].
  apply (loop_ind Accounted (fun t => Accounted (lt_state t))); [| |by split].
  - intros s s' Hs Ht. exact (accounted_turn s (Again s') Hs Ht).
  - intros s t' Hs Ht. exact (accounted_turn s (Done t') Hs Ht).
Qed.

(** The kept answer is an attempt's, and no other scored above it. *)
Lemma best_of_spec l : let best := best_of l in
  (forall a c, a ∈ l -> authored a = Some c -> fgt c.2 best.2 = false)
  /\ (best = ("", float_of_Z (-1)) \/ exists a, a ∈ l /\ authored a = Some best).
Proof.
  induction l as [|a l [IHb IHs]] using rev_ind; [split; [by intros a c ?%not_elem_of_nil|by left]|].
  rewrite best_of_snoc. unfold better. destruct (authored a) as [c|] eqn:Ea; [destruct (fgt c.2 (best_of l).2) eqn:Eg|].
  - split; [|right; exists a; split; [set_solver|done]]. intros a' c' [Hin|Hin%list_elem_of_singleton]%elem_of_app Ha'.
    + apply not_true_iff_false. intros Hgt. specialize (IHb a' c' Hin Ha'). unfold fgt in *.
      by rewrite (flt_trans _ _ _ Eg Hgt) in IHb.
    + subst a'. rewrite Ea in Ha'. injection Ha' as <-. apply flt_irrefl.
  - split; [|destruct IHs as [?|(a' & ? & ?)]; [by left|right; exists a'; set_solver]].
    intros a' c' [Hin|Hin%list_elem_of_singleton]%elem_of_app Ha'; [by eapply IHb|]. subst a'. rewrite Ea in Ha'. by injection Ha' as <-.
  - split; [|destruct IHs as [?|(a' & ? & ?)]; [by left|right; exists a'; set_solver]].
    intros a' c' [Hin|Hin%list_elem_of_singleton]%elem_of_app Ha'; [by eapply IHb|]. subst a'. by rewrite Ea in Ha'.
Qed.

(** ** How a run ends *)

Definition none_passed (attempts : list Attempt) : Prop := Forall (fun a => at_passed a = false) attempts.
(** What a terminal says of the last attempt, the only one that may have passed. *)
Record Terminated (t : LocalTerminal) : Prop := {
  te_last : exists pre a, ls_attempts (lt_state t) = pre ++ [a] /\ none_passed pre /\ at_passed a = lt_completed t
    /\ at_backend_id a = rb_backend_id (ls_backend (lt_state t)) /\ at_model_id a = rb_model_id (ls_backend (lt_state t));
  te_accepted : lt_completed t = true -> exists gate key key', lt_gate t = Some gate
    /\ _is_quality_accepted world request (gv_result gate) = Ok true
    /\ _run_single_attempt world request (Nat.pred (length (ls_attempts (lt_state t)))) key (ls_backend (lt_state t))
       = Ok (Answered (lt_result t) gate, key')
}.
Lemma turn_none_passed s s' : none_passed (ls_attempts s) -> Turn s (Again s') -> none_passed (ls_attempts s').
Proof.
  unfold none_passed. intros Hs Ht. remember (Again s') as st eqn:Est.
  destruct Ht as [q c msg key tier next Ea Et En s1|q gate key Ea Eq|q gate key tier Ea Eq Et Er|q gate key tier next Ea Eq Et Er s1 En].
  - apply climb_again in Est as (b & -> & ->). cbn. apply Forall_app. by repeat constructor.
  - done.
  - injection Est as <-. destruct (answered_fields s key false q gate) as (_ & _ & _ & Hat & _). cbn [ls_attempts retry_local].
    rewrite Hat. apply Forall_app. by repeat constructor.
  - apply climb_again in Est as (b & -> & ->). destruct (answered_fields s key false q gate) as (_ & _ & _ & Hat & _).
    subst s1. cbn [ls_attempts escalate exclude]. rewrite Hat. apply Forall_app. by repeat constructor.
Qed.
Lemma turn_terminated s t : none_passed (ls_attempts s) -> Turn s (Done t) -> Terminated t.
Proof.
  intros Hs Ht. remember (Done t) as st eqn:Est.
  destruct Ht as [q c msg key tier next Ea Et En s1|q gate key Ea Eq|q gate key tier Ea Eq Et Er|q gate key tier next Ea Eq Et Er s1 En].
  - apply climb_done in Est as [_ ->]. split; cbn; [by eexists _, (mk_attempt _ _ _ _ _)|done].
  - injection Est as <-. destruct (answered_fields s key true q gate) as (_ & _ & _ & Hat & _). split; cbn [lt_state lt_completed lt_gate lt_result].
    + rewrite Hat, answered_backend. by eexists _, (mk_attempt _ _ _ _ _).
    + intros _. exists gate, (ls_judge_key s), key. rewrite Hat, answered_backend, length_app, Nat.add_comm. by split.
  - done.
  - apply climb_done in Est as [_ ->]. destruct (answered_fields s key false q gate) as (_ & _ & _ & Hat & _).
    split; subst s1; cbn [lt_state lt_completed exclude ls_attempts ls_backend]; [|done].
    rewrite Hat, answered_backend. by eexists _, (mk_attempt _ _ _ _ _).
Qed.
Lemma run_terminated fuel t : run_dispatch world request fuel = Some (Ok t) -> Terminated t.
Proof.
  unfold run_dispatch. destruct (_resolve_initial_backend world request) as [b|]; [|done].
  apply (loop_ind (fun s => none_passed (ls_attempts s)) Terminated); [apply turn_none_passed|apply turn_terminated|by constructor].
Qed.

(** What acceptance rests on: the bar, where the class declares one. *)
Lemma accepted_meets_bar gate : _is_quality_accepted world request gate = Ok true ->
  gr_passed gate = true
  /\ (gr_score_source gate = SCORE_SOURCE_DETERMINISTIC_ACCEPTANCE
      \/ match resolve_required_bar_authority env (lq_task_type request) None None with
         | Ok bar => flt (gr_quality_score gate) (ra_required_bar bar) = false
         | Raise e => is_bar_error e = true
         end).
Proof.
  unfold _is_quality_accepted. destruct (String.eqb _ "fail_deterministic"); [done|].
  destruct (gr_passed gate && _) eqn:Ed; [intros _; breflect; split; [done|left; by apply String.eqb_eq]|].
  destruct (resolve_required_bar_authority _ _ _ _) as [bar|e].
  - intros [= Hb]. destruct (flt _ _); [done|]. auto.
  - destruct (is_bar_error e); [|done]. intros [= Hb]. auto.
Qed.

(** ** The dispatch as a whole *)

(** The calls a dispatch may make beyond the first. *)
Definition call_budget : nat := Z.to_nat (max_escalations world request) + sum_list_with (fun T => Z.to_nat (rt_max_retries T)) tiers.
Lemma start_left b : calls_left (start_state b) = call_budget.
Proof.
  unfold calls_left, call_budget. cbn [ls_escalations start_state]. rewrite Z.sub_0_r. f_equal. induction tiers as [|T l IH]; [done|].
  simpl. rewrite IH. unfold drafts_left. cbn [ls_retries start_state]. by rewrite lookup_empty, Z.sub_0_r.
Qed.
Lemma dispatch_run_ends fuel : call_budget < fuel ->
  run_dispatch world request fuel <> None /\ run_dispatch world request fuel = run_dispatch world request (S call_budget).
Proof.
  intros Hf. unfold run_dispatch. destruct (_resolve_initial_backend world request) as [b|]; [|done].
  apply loop_ends; rewrite start_left; lia.
Qed.
Lemma run_calls fuel t : run_dispatch world request fuel = Some (Ok t) -> 1 <= length (ls_attempts (lt_state t)) <= S call_budget.
Proof.
  unfold run_dispatch. destruct (_resolve_initial_backend world request) as [b|]; [|done].
  intros Ht%loop_calls. rewrite start_left in Ht. simpl in Ht. lia.
Qed.
Lemma dispatch_run fuel response evidence : dispatch world request fuel = Some (Ok (response, evidence)) ->
  exists t, run_dispatch world request fuel = Some (Ok t) /\ response = response_of request t /\ evidence = evidence_of world request t.
Proof. unfold dispatch. destruct (run_dispatch _ _ _) as [[t|]|]; try done. intros [= <- <-]. eauto. Qed.
Lemma response_score t gate : lt_gate t = Some gate ->
  dict_get "quality_score" (response_of request t) = Some (JFloat (float_repr (gr_quality_score (gv_result gate)))).
Proof. unfold response_of. by intros ->. Qed.
Lemma response_attempts t : dict_get "attempts" (response_of request t) = Some (JArr (map attempt_json (ls_attempts (lt_state t)))).
Proof. unfold response_of. by destruct (lt_gate t). Qed.
Lemma response_cost t : dict_get "cost_usd" (response_of request t) = Some (JFloat (float_repr (float_of_dec (ls_cost (lt_state t))))).
Proof. unfold response_of. by destruct (lt_gate t). Qed.

(** The verdict on an answer is the gate's, with what a judge said of it. *)
Lemma evaluated_by_delta n key content gate : (_evaluate_quality_gate world request n key content).1 = Ok gate ->
  exists judge verdict, delta (local_gate_input world request content) judge verdict (lq_response_contract request) = Ok gate.
Proof.
  unfold _evaluate_quality_gate. destruct (lq_response_contract request) as [contract|]; [by exists None, None|].
  destruct (str_in _ _); [|intros Eg; eauto].
  destruct (score _ _ _ _ _ _ _) as [event key2]. intros (e & _ & Hd)%result_bind_Ok. by eexists _, _.
Qed.
Lemma attempt_gated n key b r gate key' : _run_single_attempt world request n key b = Ok (Answered r gate, key') ->
  (exists call, call_request world request n b = Ok call /\ lw_effect world n call = EffectOk r) /\ cr_success r = true
  /\ (_evaluate_quality_gate world request n key (default "" (cr_content r))).1 = Ok gate.
Proof.
  unfold _run_single_attempt. intros (call & Hcall & (o & Ho & Hr)%result_bind_Ok)%result_bind_Ok. destruct o as [r'|]; [|done].
  destruct (cr_success r') eqn:Es; [|done]. destruct (_evaluate_quality_gate _ _ _ _ _) as [g k] eqn:Eg.
  apply result_bind_Ok in Hr as (g' & -> & [= <- <- <-]). split; [|by rewrite Eg]. exists call. split; [done|].
  unfold _run_effect_handler_with_killable_timeout in Ho. destruct (lw_effect world n call); try discriminate Ho. congruence.
Qed.
(** A completed run was gated. *)
Lemma response_status t : Terminated t ->
  dict_get "status" (response_of request t) = Some (JStr (if lt_completed t then "completed" else "failed")).
Proof.
  intros [_ Hacc]. unfold response_of. destruct (lt_gate t) as [g|] eqn:Eg; [done|].
  destruct (lt_completed t) eqn:Ec; [|done]. destruct (Hacc eq_refl) as (? & ? & ? & ? & _). congruence.
Qed.
Lemma response_content_of t : dict_get "content" (response_of request t) = Some (JStr (
  if lt_gate t is Some _ then if lt_completed t then default "" (cr_content (lt_result t))
                    else py_opt_or (Some (ls_best_content (lt_state t))) (default "" (cr_content (lt_result t)))
  else ls_best_content (lt_state t))).
Proof. unfold response_of. by destruct (lt_gate t). Qed.
(** A score above the one of no answer. *)
Definition scored (a : Attempt) (q : float) : Prop := authored a = Some (at_content a, q).
Lemma authored_scored a c : authored a = Some c -> scored a c.2 /\ c.1 = at_content a /\ truthy c.1 = true.
Proof.
  unfold scored, authored. destruct (at_score a) as [q|]; [|done]. destruct (truthy (at_content a)) eqn:E; [|done]. by intros [= <-].
Qed.
End laws.
