(* ===== verification/LocalDispatchProps.v ===== *)
(** * The local dispatch port: properties

    That a dispatch ends, which calls it makes, what it returns, and that it
    accepts what the bus accepts. *)
From S2P Require Import Prelude PyFloat PyJson PyRegex DelegationModels DelegationRouting DelegationBar InferenceProtocol DelegationHandlers DelegationProps QualityChecks QualityGate QualityJudge QualityGateLaws BackendResolution LlmCall LocalDispatch LocalDispatchLaws QualityProps.

#[local] Open Scope nat_scope.

(** ** A deployment *)

#[local] Instance local_parsers : Parsers := {| ast_parse := fun _ => Parsed; yaml_safe_load := fun _ => Parsed |}.
#[local] Instance local_schemas : SchemaValidator := {| check_schema := fun _ => Ok tt; iter_errors := fun _ _ => Ok [] |}.

Definition local_model (id backend : string) : ModelTierModel := {|
  tm_id := id; tm_backend_ref := backend; tm_max_context_tokens := 4000; tm_use_for := ["code_generation"];
  tm_fast_path_threshold_tokens := None |}.
Definition local_tiers : list ModelRoutingTier := [
  {| rt_name := "local"; rt_models := [local_model "qwen" "b-a"]; rt_eval_before_accept := false; rt_eval_model := None;
     rt_max_retries := 1; rt_cost_per_1k_tokens := fzero; rt_cost := Some (sample_cost FREE_LOCAL fzero) |};
  {| rt_name := "cheap_cloud"; rt_models := [local_model "glm" "b-c"]; rt_eval_before_accept := false; rt_eval_model := None;
     rt_max_retries := 3; rt_cost_per_1k_tokens := lit "0.002"; rt_cost := Some (sample_cost METERED (lit "0.002")) |}].
Definition strs (l : list string) : json := JArr (map JStr l).
Definition local_contract : Obj := [
  ("task_classes", JObj [("code_generation", JObj [
     ("definition_of_done", JObj [("deterministic", strs code_checks); ("heuristic", strs code_markers)]);
     ("escalation_policy", JObj [("tier_order", strs ["local"; "cheap_cloud"]); ("max_escalations", JInt 2)]);
     ("cloud_routing_policy", JStr "allowed");
     ("quality_gate", JObj [("required_bar", JFloat "0.85");
        ("request_override_bounds", JObj [("min", JFloat "0.5"); ("max", JFloat "1.0")])])])])].
Definition local_env : RoutingEnv := {|
  re_tiers := Ok local_tiers; re_bifrost := Ok (map sample_backend ["b-a"; "b-c"]); re_contract := Some local_contract;
  re_allow_paid := "1"; re_api_key_ref_available := fun _ _ => true; re_uuid5 := fun s => s |}.
Definition local_backend (id tier : string) : Obj := [
  ("backend_id", JStr id); ("endpoint_url", JStr ("http://" +:+ id)); ("model_name", JStr id); ("max_tokens", JInt 1024);
  ("timeout_ms", JInt 30000); ("tier", JStr tier)].
(** A model that answers [content] at [cents] a call, and a rate limit. *)
Definition answer (content : string) (cost : Z) : EffectOutcome := EffectOk {|
  cr_request_id := "r"; cr_success := true; cr_content := Some content; cr_output_hash := None; cr_tokens_in := 10; cr_tokens_out := 20;
  cr_latency_ms := 7; cr_actual_cost_usd := cents cost; cr_opus_equivalent_cost_usd := cents 5; cr_savings_usd := cents (5 - cost);
  cr_usage_source := MEASURED; cr_cost_basis := CLOUD_API_COST; cr_failure_class := None; cr_error_message := None; cr_endpoint_healthy := true |}.
Definition rate_limited : EffectOutcome := EffectOk (_failure_result "r" FailureClass.RATE_LIMITED "HTTP 429" true).
Definition local_world (effect : nat -> EffectOutcome) (judge : nat -> string) : LocalWorld := {|
  lw_routing := local_env; lw_protocol := Ok {| pg_schema_version := "1"; pg_profiles := [] |};
  lw_backends := {| bs_config := Some [local_backend "b-a" "local"; local_backend "b-c" "cheap_cloud"]; bs_store := None; bs_overlay := None |};
  lw_overlay_path := "overlay.yaml"; lw_onex_tenant_id := "acme"; lw_request_id := fun _ => "r"; lw_effect := fun n _ => effect n;
  lw_judge := fun n => judge_saying (judge_text (judge n)); lw_roi_overlay := fun _ => None |}.
Definition local_request : LocalRequest := {|
  lq_prompt := "Write x"; lq_task_type := "code_generation"; lq_correlation_id := "c1"; lq_max_tokens := None; lq_source_session_id := None;
  lq_quality_contract_mode := "extend_task_class"; lq_acceptance_criteria := []; lq_tenant_id := None; lq_backend_id := None;
  lq_response_contract := None |}.
(** Two rejected drafts of the free tier, then an accepted paid answer; and two
    rejected drafts, then a rate limit. *)
Definition climbs : LocalWorld :=
  local_world (fun n => if n <? 2 then answer "x = 1" 0 else answer "x = 2" 3) (fun n => if n <? 2 then "0.3" else "0.9").
Definition fails : LocalWorld :=
  local_world (fun n => match n with 0 => answer "x = 1" 0 | 1 => answer "x = 2" 0 | _ => rate_limited end)
    (fun n => match n with 0 => "0.4" | _ => "0.3" end).

Definition outcome (world : LocalWorld) : option (result (list (option json) * nat)) :=
  option_map (fun r => '(response, _) ← r;
    Ok (map (fun k => dict_get k response) ["status"; "content"; "delegated_to"; "escalation_count"; "cost_usd"],
        match dict_get "attempts" response with Some (JArr l) => length l | _ => 0 end)) (dispatch world local_request 9).
Example climbs_outcome : map outcome [climbs; fails] =
  [Some (Ok ([Some (JStr "completed"); Some (JStr "x = 2"); Some (JStr "http://b-c"); Some (JInt 1); Some (JFloat "0.03")], 3));
   Some (Ok ([Some (JStr "failed"); Some (JStr "x = 1"); Some (JStr "http://b-c"); Some (JInt 1); Some (JFloat "0.0")], 3))].
Proof. vm_compute. reflexivity. Qed.

(** ** The loop ends *)

(** C11. A dispatch ends: with fuel for one call, the escalations of the task class
    and the retries of every tier it returns or raises, more fuel changes nothing,
    and a response lists at least one call and no more than that many. *)
Theorem local_dispatch_ends `{Parsers, SchemaValidator} world request fuel : call_budget world request < fuel ->
  dispatch world request fuel <> None
  /\ dispatch world request fuel = dispatch world request (S (call_budget world request))
  /\ forall response evidence, dispatch world request fuel = Some (Ok (response, evidence)) ->
       exists calls, dict_get "attempts" response = Some (JArr calls) /\ 1 <= length calls <= S (call_budget world request).
Proof.
  intros Hf. destruct (dispatch_run_ends world request fuel Hf) as [Hsome Heq]. split_and!.
  - unfold dispatch. by destruct (run_dispatch world request fuel).
  - unfold dispatch. by rewrite Heq.
  - intros response evidence (t & Ht & -> & _)%dispatch_run. exists (map attempt_json (ls_attempts (lt_state t))).
    rewrite response_attempts, length_map. split; [done|]. by eapply run_calls.
Qed.
Lemma local_dispatch_ends_witness :
  call_budget climbs local_request = 6 /\ dispatch climbs local_request 7 <> None
  /\ dispatch climbs local_request 7 = dispatch climbs local_request (S (call_budget climbs local_request))
  /\ forall response evidence, dispatch climbs local_request 7 = Some (Ok (response, evidence)) ->
       exists calls, dict_get "attempts" response = Some (JArr calls) /\ 1 <= length calls <= S (call_budget climbs local_request).
Proof. split; [vm_compute; reflexivity|]. apply (local_dispatch_ends climbs local_request 7). vm_compute. repeat constructor. Defined.

(** C10. The calls follow a schedule. On any registry a call follows one that was not
    accepted, and either repeats its backend, on a free tier within the retries of that
    tier, or escalates within the budget to the backend of a tier that stands on the
    task class's ladder above the tier of the call before and that no call before was
    on; a backend goes by the first tier that lists it. On a registry of named tiers
    whose backends each belong to one tier, and with a ladder that names no tier
    twice, the calls therefore go up the ladder tier after tier, never back, once each
    plus the retries of free ones, and the escalations are the tiers left. *)
Theorem local_dispatch_schedule `{Parsers, SchemaValidator} world request fuel config t :
  _get_config (lw_routing world) = Ok config -> run_dispatch world request fuel = Some (Ok t) ->
  let s := lt_state t in
  ((exists again, Climbing world request (ls_attempts s) (Z.to_nat (ls_escalations s)) again)
   /\ (0 <= ls_escalations s <= max_escalations world request)%Z)
  /\ (WellTiered config -> (forall tiers, ladder world request config = Ok tiers -> NoDup (map rt_name tiers)) ->
      exists climb, map (ladder_tier world) (ls_attempts s) = concat (map (fun b => replicate (S b.2) b.1) climb)
        /\ Forall (fun b => b.2 <= draft_budget world b.1) climb
        /\ (length climb <= 1 \/ exists tiers, ladder world request config = Ok tiers /\ sublist (map fst climb) (map rt_name tiers))
        /\ length climb = S (Z.to_nat (ls_escalations s))).
Proof.
  intros Hc Ht. cbn zeta. split; [by apply (run_climbs world request fuel)|]. intros Hwt Hnd.
  destruct (run_scheduled world request config fuel t Hc Hwt Hnd Ht) as (climb & [Hcalls Hb] & Hl & He).
  exists climb. split; [done|]. split; [done|]. split; [|done].
  destruct Hl as [Hl|(config' & tiers & Hc' & Hl)]; [by left|]. rewrite Hc in Hc'. injection Hc' as <-. right. by exists tiers.
Qed.
Lemma climbs_well_tiered : WellTiered local_tiers.
Proof.
  split; [by repeat constructor|]. intros T T' m m' HT HT' Hm Hm'.
  repeat first [apply elem_of_cons in HT as [->|HT]|by apply not_elem_of_nil in HT];
  repeat first [apply elem_of_cons in HT' as [->|HT']|by apply not_elem_of_nil in HT'];
  apply list_elem_of_singleton in Hm as ->; apply list_elem_of_singleton in Hm' as ->; done.
Qed.
Lemma local_dispatch_schedule_witness : exists t, run_dispatch climbs local_request 7 = Some (Ok t) /\
  let s := lt_state t in
  ((exists again, Climbing climbs local_request (ls_attempts s) (Z.to_nat (ls_escalations s)) again)
   /\ (0 <= ls_escalations s <= max_escalations climbs local_request)%Z)
  /\ (exists climb, map (ladder_tier climbs) (ls_attempts s) = concat (map (fun b => replicate (S b.2) b.1) climb)
        /\ Forall (fun b => b.2 <= draft_budget climbs b.1) climb
        /\ (length climb <= 1 \/ exists tiers, ladder climbs local_request local_tiers = Ok tiers /\ sublist (map fst climb) (map rt_name tiers))
        /\ length climb = S (Z.to_nat (ls_escalations s))).
Proof.
  eexists. split; [vm_compute; reflexivity|].
  eassert (_ /\ (WellTiered local_tiers -> _ -> _)) as [Hany Htiered].
  { apply (local_dispatch_schedule climbs local_request 7 local_tiers); vm_compute; reflexivity. }
  split; [exact Hany|]. apply Htiered; [exact climbs_well_tiered|]. vm_compute. intros tiers [= <-]. repeat constructor; set_solver.
Defined.

(** A backend that two tiers list goes by the first one: the escalation that should
    leave the second tier stays on it, and a paid model is called again. *)
Definition shared_tiers : list ModelRoutingTier := local_tiers ++ [
  {| rt_name := "claude"; rt_models := [local_model "glm" "b-c"]; rt_eval_before_accept := false; rt_eval_model := None;
     rt_max_retries := 2; rt_cost_per_1k_tokens := lit "0.002"; rt_cost := Some (sample_cost METERED (lit "0.002")) |}].

Definition shared_contract : Obj := [
  ("task_classes", JObj [("code_generation", JObj [
     ("definition_of_done", JObj [("deterministic", strs code_checks); ("heuristic", strs code_markers)]);
     ("escalation_policy", JObj [("tier_order", strs ["local"; "cheap_cloud"; "claude"]); ("max_escalations", JInt 3)]);
     ("cloud_routing_policy", JStr "allowed");
     ("quality_gate", JObj [("required_bar", JFloat "0.85");
        ("request_override_bounds", JObj [("min", JFloat "0.5"); ("max", JFloat "1.0")])])])])].
Definition shares : LocalWorld :=
  let world := local_world (fun n => answer "x = 1" (if n <? 2 then 0 else 3)) (fun _ => "0.3") in {|
  lw_routing := {| re_tiers := Ok shared_tiers; re_bifrost := Ok (map sample_backend ["b-a"; "b-c"]); re_contract := Some shared_contract;
    re_allow_paid := "1"; re_api_key_ref_available := fun _ _ => true; re_uuid5 := fun s => s |};
  lw_protocol := lw_protocol world; lw_backends := lw_backends world; lw_overlay_path := lw_overlay_path world;
  lw_onex_tenant_id := lw_onex_tenant_id world; lw_request_id := lw_request_id world; lw_effect := lw_effect world;
  lw_judge := lw_judge world; lw_roi_overlay := lw_roi_overlay world |}.
Remark shared_backend_called_again : option_map (fun r => map at_backend_id ∘ ls_attempts ∘ lt_state <$> r)
  (run_dispatch shares local_request 12) = Some (Ok ["b-a"; "b-a"; "b-c"; "b-c"; "b-c"]).
Proof. vm_compute. reflexivity. Qed.

(** ** What is returned *)

(** The account is complete.  The response and the evidence row of a dispatch
    agree on how it ended and on its cost, which is the sum of what every call
    cost, the rejected ones included; the savings are summed alike; and it ended
    at its last call, the only one that may have been accepted. *)
Theorem local_dispatch_accounts `{Parsers, SchemaValidator} world request fuel response evidence :
  dispatch world request fuel = Some (Ok (response, evidence)) ->
  exists calls last completed, dict_get "attempts" response = Some (JArr (map attempt_json (calls ++ [last])))
    /\ Forall (fun a => at_passed a = false) calls /\ at_passed last = completed
    /\ (let status := Some (JStr (if completed then "completed" else "failed")) in
         dict_get "status" response = status /\ dict_get "status" evidence = status)
    /\ let cost := Some (JFloat (float_repr (float_of_dec (fold_left dec_add (map at_cost (calls ++ [last])) dec_zero)))) in
       dict_get "cost_usd" response = cost
       /\ exists metrics, dict_get "metrics" evidence = Some (JObj metrics) /\ dict_get "cost_usd" metrics = cost
            /\ dict_get "cost_savings_usd" metrics =
                 Some (JFloat (float_repr (float_of_dec (fold_left dec_add (map at_savings (calls ++ [last])) dec_zero)))).
Proof.
  intros (t & Ht & -> & ->)%dispatch_run. pose proof (run_terminated _ _ _ _ Ht) as Hterm. pose proof (response_status world request t Hterm) as Hst.
  destruct (run_accounted _ _ _ _ Ht) as [Hc Hs _], Hterm as [(calls & last & Hat & Hnone & Hp & _) _].
  exists calls, last, (lt_completed t). rewrite response_attempts, response_cost. rewrite Hat in *. unfold total in *.
  rewrite <- Hc, <- Hs. repeat (split; [done|]). by eexists.
Qed.
Lemma local_dispatch_accounts_witness : exists response evidence calls last completed,
  dict_get "attempts" response = Some (JArr (map attempt_json (calls ++ [last])))
    /\ Forall (fun a => at_passed a = false) calls /\ at_passed last = completed
    /\ (let status := Some (JStr (if completed : bool then "completed" else "failed")) in
         dict_get "status" response = status /\ dict_get "status" evidence = status)
    /\ let cost := Some (JFloat (float_repr (float_of_dec (fold_left dec_add (map at_cost (calls ++ [last])) dec_zero)))) in
       dict_get "cost_usd" response = cost
       /\ exists metrics, dict_get "metrics" evidence = Some (JObj metrics) /\ dict_get "cost_usd" metrics = cost
            /\ dict_get "cost_savings_usd" metrics =
                 Some (JFloat (float_repr (float_of_dec (fold_left dec_add (map at_savings (calls ++ [last])) dec_zero)))).
Proof. eexists _, _. eapply (local_dispatch_accounts climbs local_request 9). vm_compute. reflexivity. Defined.

(** A failed dispatch returns its best work.  Its content is that of a call
    above whose gate score no other call with text scored; or no call with text
    scored above -1. *)
Theorem failed_dispatch_returns_best `{Parsers, SchemaValidator} world request fuel response evidence :
  dispatch world request fuel = Some (Ok (response, evidence)) -> dict_get "status" response = Some (JStr "failed") ->
  exists calls content, dict_get "attempts" response = Some (JArr (map attempt_json calls))
    /\ dict_get "content" response = Some (JStr content)
    /\ ((exists a q, a ∈ calls /\ at_content a = content /\ content <> "" /\ at_score a = Some q
           /\ forall b q', b ∈ calls -> at_content b <> "" -> at_score b = Some q' -> fgt q' q = false)
        \/ (forall b q', b ∈ calls -> at_content b <> "" -> at_score b = Some q' -> fgt q' (float_of_Z (-1)) = false)).
Proof.
  intros (t & Ht & -> & ->)%dispatch_run. pose proof (run_terminated _ _ _ _ Ht) as Hterm. rewrite (response_status world request t Hterm).
  destruct (run_accounted _ _ _ _ Ht) as [_ _ Hbest]. destruct (lt_completed t) eqn:Ec; [done|]. intros _.
  eexists (ls_attempts (lt_state t)), _. rewrite response_attempts, response_content_of, Ec. split; [done|]. split; [done|].
  destruct (best_of_spec (ls_attempts (lt_state t))) as [Hmax Hwho]. rewrite <- Hbest in *. cbn [fst snd] in *.
  assert (forall b q', b ∈ ls_attempts (lt_state t) -> at_content b <> "" -> at_score b = Some q' -> fgt q' (ls_best_score (lt_state t)) = false) as Hm.
  { intros b q' Hb Hne Hq. apply (Hmax b (at_content b, q') Hb). unfold authored. rewrite Hq. by destruct (at_content b). }
  destruct Hwho as [Hnone|(a & Hin & Ha)].
  - right. pose proof (f_equal snd Hnone) as Hq0. cbn [snd] in Hq0. by rewrite <- Hq0.
  - left. unfold authored in Ha. destruct (at_score a) as [q|] eqn:Eq; [|done]. destruct (at_content a) as [|ch text] eqn:Eat; [done|].
    injection Ha as Hb0 Hq0. exists a, q. rewrite <- Hb0, Eat. subst q. by destruct (lt_gate t).
Qed.
Lemma failed_dispatch_returns_best_witness : exists response evidence, dispatch fails local_request 9 = Some (Ok (response, evidence))
  /\ exists calls content, dict_get "attempts" response = Some (JArr (map attempt_json calls))
    /\ dict_get "content" response = Some (JStr content)
    /\ ((exists a q, a ∈ calls /\ at_content a = content /\ content <> "" /\ at_score a = Some q
           /\ forall b q', b ∈ calls -> at_content b <> "" -> at_score b = Some q' -> fgt q' q = false)
        \/ (forall b q', b ∈ calls -> at_content b <> "" -> at_score b = Some q' -> fgt q' (float_of_Z (-1)) = false)).
Proof.
  eexists _, _. split; [vm_compute; reflexivity|]. eapply (failed_dispatch_returns_best fails local_request 9); vm_compute; reflexivity.
Defined.

(** C9. A completed dispatch returns an answer its gate accepted. The content of the
    response is the answer of the dispatch's last call, the score of the response is
    the one the gate gave to that content; the content conforms to the caller's schema,
    or without one meets the gate's criterion under the verdict the gate was given;
    and that score is not below the bar of the task class, unless no bar is declared or
    no judge gave a score. *)
Theorem completed_dispatch_accepted `{Parsers, SchemaValidator} world request fuel response evidence :
  dispatch world request fuel = Some (Ok (response, evidence)) -> dict_get "status" response = Some (JStr "completed") ->
  exists calls key call answer gate judge verdict,
    let content := default "" (cr_content answer) in let last := Nat.pred (length calls) in
    let gate_input := local_gate_input world request content in
    dict_get "attempts" response = Some (JArr calls) /\ lw_effect world last call = EffectOk answer
    /\ dict_get "content" response = Some (JStr content)
    /\ dict_get "quality_score" response = Some (JFloat (float_repr (gr_quality_score (gv_result gate))))
    /\ (_evaluate_quality_gate world request last key content).1 = Ok gate
    /\ delta gate_input judge verdict (lq_response_contract request) = Ok gate
    /\ match lq_response_contract request with
       | Some contract => py_strip (answer_of gate_input) <> "" /\ conforms contract (py_strip (answer_of gate_input))
       | None => Accepts gate_input (answer_of gate_input) (effective_dod gate_input).1 (effective_dod gate_input).2 verdict
       end
    /\ (gr_score_source (gv_result gate) = SCORE_SOURCE_DETERMINISTIC_ACCEPTANCE
        \/ match resolve_required_bar_authority (lw_routing world) (lq_task_type request) None None with
           | Ok bar => flt (gr_quality_score (gv_result gate)) (ra_required_bar bar) = false
           | Raise e => is_bar_error e = true
           end).
Proof.
  intros (t & Ht & -> & ->)%dispatch_run. pose proof (run_terminated _ _ _ _ Ht) as Hterm.
  rewrite (response_status world request t Hterm), response_content_of, response_attempts. destruct Hterm as [_ Hacc].
  destruct (lt_completed t); [|done]. intros _. destruct (Hacc eq_refl) as (gate & key & key' & Hg & Hok & Hrun).
  rewrite (response_score request t gate Hg), Hg. apply attempt_gated in Hrun as ((call & _ & Hcall) & _ & Hev).
  destruct (evaluated_by_delta _ _ _ _ _ _ Hev) as (judge & verdict & Hd). apply accepted_meets_bar in Hok as [Hp Hbar].
  exists (map attempt_json (ls_attempts (lt_state t))), key, call, (lt_result t), gate, judge, verdict. cbn zeta. rewrite length_map.
  split_and!; try done. destruct (lq_response_contract request) as [contract|].
  - by apply (contract_decides _ _ _ _ _ Hd).
  - by apply (delta_accepts _ _ _ _ Hd).
Qed.
Lemma completed_dispatch_accepted_witness : exists response evidence, dispatch climbs local_request 9 = Some (Ok (response, evidence)) /\
  exists calls key call answer gate judge verdict,
    let content := default "" (cr_content answer) in let last := Nat.pred (length calls) in
    let gate_input := local_gate_input climbs local_request content in
    dict_get "attempts" response = Some (JArr calls) /\ lw_effect climbs last call = EffectOk answer
    /\ dict_get "content" response = Some (JStr content)
    /\ dict_get "quality_score" response = Some (JFloat (float_repr (gr_quality_score (gv_result gate))))
    /\ (_evaluate_quality_gate climbs local_request last key content).1 = Ok gate
    /\ delta gate_input judge verdict (lq_response_contract local_request) = Ok gate
    /\ match lq_response_contract local_request with
       | Some contract => py_strip (answer_of gate_input) <> "" /\ conforms contract (py_strip (answer_of gate_input))
       | None => Accepts gate_input (answer_of gate_input) (effective_dod gate_input).1 (effective_dod gate_input).2 verdict
       end
    /\ (gr_score_source (gv_result gate) = SCORE_SOURCE_DETERMINISTIC_ACCEPTANCE
        \/ match resolve_required_bar_authority (lw_routing climbs) (lq_task_type local_request) None None with
           | Ok bar => flt (gr_quality_score (gv_result gate)) (ra_required_bar bar) = false
           | Raise e => is_bar_error e = true
           end).
Proof.
  eexists _, _. split; [vm_compute; reflexivity|]. eapply (completed_dispatch_accepted climbs local_request 9); vm_compute; reflexivity.
Defined.

(** The two dispatch paths accept the same.  Where the task class has a bar the
    port accepts a gate result exactly if the bus does; where it has none, which
    the bus fails, the gate's verdict alone decides, and a deterministic rejection
    is never accepted. *)
Theorem local_accepts_as_bus `{Parsers, SchemaValidator} world request gate :
  _is_quality_accepted world request gate =
  Ok match resolve_required_bar_authority (lw_routing world) (lq_task_type request) None None with
     | Ok bar => quality_accepted bar gate
     | Raise _ => negb (pre_filter_rejected gate) && gr_passed gate
     end.
Proof.
  unfold _is_quality_accepted, quality_accepted, pre_filter_rejected, judge_unavailable_floor.
  destruct (resolve_required_bar_authority _ _ _ _) as [bar|e] eqn:Eb; [|rewrite (resolve_bar_raises _ _ _ Eb)];
    destruct (String.eqb (gate_category_value (gr_fail_category gate)) "fail_deterministic"), (gr_passed gate),
      (String.eqb (gr_score_source gate) SCORE_SOURCE_DETERMINISTIC_ACCEPTANCE); try done; cbn; try done;
    by destruct (flt _ _).
Qed.

(** ** The call under the port *)

(** The call never reports a failed authentication: whatever the transport and the
    secret store do, the failure of a call is retryable for the port unless the
    response has no choices, so a rejected key is climbed past like an outage. *)
Theorem call_never_reports_auth tr registry now cache call r :
  (llm_call tr registry now cache call).1 = Ok r -> cr_success r = false ->
  cr_failure_class r <> Some FailureClass.PROVIDER_AUTH_FAILED
  /\ (_is_retryable_transport_failure (cr_failure_class r) = false <->
       cr_failure_class r = Some FailureClass.INVALID_JSON /\ cr_error_message r = Some "API returned empty choices array").
Proof.
  intros Hr Hf.
  assert (exists c text healthy, r = _failure_result (lc_request_id call) c text healthy
    /\ (c ∈ [FailureClass.MODEL_UNAVAILABLE; FailureClass.RATE_LIMITED; FailureClass.TIMEOUT; FailureClass.UNKNOWN]
        \/ c = FailureClass.INVALID_JSON /\ text = "API returned empty choices array")) as (c & text & healthy & -> & Hc).
  { assert (_failed : forall c text healthy, c ∈ [FailureClass.MODEL_UNAVAILABLE; FailureClass.RATE_LIMITED; FailureClass.TIMEOUT; FailureClass.UNKNOWN] ->
      Ok (_failure_result (lc_request_id call) c text healthy) = Ok r ->
      exists c text healthy, r = _failure_result (lc_request_id call) c text healthy
        /\ (c ∈ [FailureClass.MODEL_UNAVAILABLE; FailureClass.RATE_LIMITED; FailureClass.TIMEOUT; FailureClass.UNKNOWN]
            \/ c = FailureClass.INVALID_JSON /\ text = "API returned empty choices array")).
    { intros c text healthy Hin [= <-]. exists c, text, healthy. auto. }
    unfold llm_call in Hr. destruct (_resolve_endpoint _) as [url|e]; [|by eapply _failed, Hr; set_solver].
    destruct (_is_endpoint_healthy _ _ _ _) as [[] cache']; [|by eapply _failed, Hr; set_solver]. cbn [fst] in Hr. unfold _execute_call in Hr.
    destruct (_resolve_outbound_headers _ _) as [headers|e]; [|by eapply _failed, Hr; set_solver].
    destruct (tr_post tr _ _ _ _) as [latency body| |code msg|msg].
    - destruct (negb _); [injection Hr as <-; by eexists _, _, _; split; [done|right]|]. unfold completed_result in Hr.
      apply result_bind_Ok in Hr as (content & _ & Hr). apply result_bind_Ok in Hr as ([tin tout] & _ & Hr).
      destruct (_compute_cost _ _ _ _) as [[actual opus] savings]. injection Hr as <-. done.
    - by eapply _failed, Hr; set_solver.
    - eapply _failed, Hr. unfold http_failure_class. destruct (_ =? _)%Z; set_solver.
    - by eapply _failed, Hr; set_solver. }
  cbn [cr_failure_class cr_error_message _failure_result]. destruct Hc as [Hc|[-> ->]]; [|done].
  repeat (apply elem_of_cons in Hc as [->|Hc]; [by split; [|split; [|intros [[=] _]]]|]). by apply not_elem_of_nil in Hc.
Qed.
Definition refused_call : ModelLlmDelegationCallRequest := {|
  lc_request_id := "r"; lc_correlation_id := "c1"; lc_model_id := "glm"; lc_endpoint_ref := "https://b-c"; lc_prompt := "Write x"; lc_system_prompt := "";
  lc_task_type := "code_generation"; lc_max_tokens := 1024; lc_temperature := lit "0.3"; lc_timeout_seconds := float_of_Z 30;
  lc_model_tier := "cheap_cloud"; lc_provider := "b-c"; lc_extra_headers := []; lc_provider_request_options := [];
  lc_secret_ref := Some "llm.glm.api_key"; lc_api_key_env := None |}.
Definition refusing : LlmTransport := {|
  tr_api_key := fun _ _ => Ok (Some "expired"); tr_probe_health := fun _ => true; tr_post := fun _ _ _ _ => HttpStatus 401 "401 Unauthorized" |}.
Lemma call_never_reports_auth_witness : exists r, (llm_call refusing None fzero ∅ refused_call).1 = Ok r
  /\ cr_failure_class r = Some FailureClass.MODEL_UNAVAILABLE
  /\ cr_failure_class r <> Some FailureClass.PROVIDER_AUTH_FAILED
  /\ (_is_retryable_transport_failure (cr_failure_class r) = false <->
       cr_failure_class r = Some FailureClass.INVALID_JSON /\ cr_error_message r = Some "API returned empty choices array").
Proof.
  eexists. split; [vm_compute; reflexivity|]. split; [reflexivity|].
  eapply (call_never_reports_auth refusing None fzero ∅ refused_call); vm_compute; reflexivity.
Defined.
