(* ===== verification/RoiOverlay.v ===== *)
(** * Delegation: the overlay of captured outcomes

    [routing/roi_overlay.py]: the rows of [context_roi_scores] become, per tier of
    the registry, a success rate and the verdict whether routing passes the tier
    over.  The rows of the table and [datetime.fromisoformat] are arguments; a
    naive time is read as UTC. *)
From S2P Require Import Prelude PyFloat PyJson DelegationModels DelegationRouting.

(** ** The knobs *)

Definition DEFAULT_ROI_MIN_SAMPLES : Z := 5.
Definition DEFAULT_ROI_SUCCESS_FLOOR : float := lit "0.5".
(** The environment variables, where they are set. *)
Record RoiKnobs := {
  kn_min_samples : option string;
  kn_success_floor : option string;
  kn_lookback_rows : option string;
  kn_window_seconds : option string
}.
Definition resolve_roi_min_samples (knobs : RoiKnobs) : Z :=
  match kn_min_samples knobs with
  | None => DEFAULT_ROI_MIN_SAMPLES
  | Some raw => match py_int raw with Ok value => if (1 <=? value)%Z then value else DEFAULT_ROI_MIN_SAMPLES | Raise _ => DEFAULT_ROI_MIN_SAMPLES end
  end.
Definition resolve_roi_success_floor (knobs : RoiKnobs) : float :=
  match kn_success_floor knobs with
  | None => DEFAULT_ROI_SUCCESS_FLOOR
  | Some raw =>
      match py_float raw with
      | Ok value => if fle fzero value && fle value fone then value else DEFAULT_ROI_SUCCESS_FLOOR
      | Raise _ => DEFAULT_ROI_SUCCESS_FLOOR
      end
  end.
Definition resolve_roi_lookback_rows (knobs : RoiKnobs) : option Z :=
  match kn_lookback_rows knobs with
  | None => None
  | Some raw => match py_int raw with Ok value => if (1 <=? value)%Z then Some value else None | Raise _ => None end
  end.
Definition resolve_roi_window_seconds (knobs : RoiKnobs) : option float :=
  match kn_window_seconds knobs with
  | None => None
  | Some raw => match py_float raw with Ok value => if fgt value fzero then Some value else None | Raise _ => None end
  end.

(** ** Time spans *)

(** [timedelta(seconds=s)] in microseconds, and [now - span]. *)
Definition timedelta_seconds (s : float) : result Z :=
  whole ← py_trunc s;
  let us := match fmul (fsub s (float_of_Z whole)) (float_of_Z 1000000) with
            | S754_finite sign m e => let n := round_half_even (frac m e).1 (frac m e).2 in if sign then (- n)%Z else n
            | _ => 0%Z
            end in
  let total := (whole * 1000000 + us)%Z in
  let days := (total / 86400000000)%Z in
  if (999999999 <? Z.abs days)%Z then Raise (OverflowError ("days=" +:+ pretty days +:+ "; must have magnitude <= 999999999"))
  else Ok total.
(** The first microsecond of year 1 and the last one of year 9999. *)
Definition datetime_min : datetime := (-62135596800000000)%Z.
Definition datetime_max : datetime := 253402300799999999%Z.
Definition datetime_sub (t : datetime) (span : Z) : result datetime :=
  let r := (t - span)%Z in
  if (datetime_min <=? r)%Z && (r <=? datetime_max)%Z then Ok r else Raise (OverflowError "date value out of range").

Example timedelta_ok : map timedelta_seconds [lit "1.5"; lit "0.0000005"; lit "0.0000015"; lit "90000.25"] = [Ok 1500000; Ok 0; Ok 2; Ok 90000250000]%Z.
Proof. vm_compute. reflexivity. Qed.

(** ** Rows *)

(** A cell is a JSON value or a time. *)
Inductive cell := CJson (j : json) | CTime (t : datetime).
Definition Row : Type := list (string * cell).
Fixpoint row_get (k : string) (row : Row) : option cell :=
  match row with [] => None | (k', c) :: row => if String.eqb k' k then Some c else row_get k row end.

Definition _row_success (row : Row) : bool :=
  match row_get "final_success" row with
  | Some (CJson (JBool b)) => b
  | Some (CJson (JInt n)) => negb (Z.eqb n 0)
  | Some (CJson (JFloat r)) => negb (feq (lit r) fzero)
  | Some (CJson (JStr s)) => str_in (py_lower (py_strip s)) ["t"; "true"; "1"; "yes"]
  | _ => false
  end.
Definition _row_sort_key (row : Row) : string :=
  let text k := match row_get k row with
                | Some (CJson JNull) | None => None
                | Some (CJson j) => Some (json_str j)
                | Some (CTime t) => Some (datetime_str t)
                end in
  match text "correlation_id" with Some s => s | None => default "" (text "id") end.

Section overlay.
Context (fromisoformat : string -> result datetime).

Definition _row_created_at (row : Row) : option datetime :=
  match row_get "created_at" row with
  | Some (CTime t) => Some t
  | Some (CJson (JStr s)) =>
      let raw := py_strip s in
      if String.eqb raw "" then None
      else
        let raw := if py_endswith "Z" raw || py_endswith "z" raw then String.substring 0 (String.length raw - 1) raw +:+ "+00:00" else raw in
        match fromisoformat raw with Ok t => Some t | Raise _ => None end
  | _ => None
  end.

(** ** The cohort of a tier *)

(** [l[-k:]] *)
Definition last_slice {A} (k : Z) (l : list A) : list A :=
  if (0 <? k)%Z then drop (length l - Z.to_nat k) l else drop (Z.to_nat (- k)) l.
(** The rows on the recency axis, in its order. *)
Definition ranked (cutoff : option datetime) (rows : list Row) : list (datetime * string * Row) :=
  sort_by (fun item => item.1)
    (omap (fun row =>
       match _row_created_at row with
       | None => None
       | Some created => if match cutoff with Some c => (created <? c)%Z | None => false end then None
                         else Some (created, _row_sort_key row, row)
       end) rows).
Definition recent (lookback_rows : option Z) (cutoff : option datetime) (rows : list Row) : list Row :=
  let kept := map snd (ranked cutoff rows) in
  match lookback_rows with Some k => last_slice k kept | None => kept end.
Definition window_cutoff (window_seconds : option float) (now : datetime) : result (option datetime) :=
  match window_seconds with
  | None => Ok None
  | Some s => span ← timedelta_seconds s; cutoff ← datetime_sub now span; Ok (Some cutoff)
  end.
Definition _apply_recency_window (tier_rows : list (string * list Row)) (lookback_rows : option Z) (window_seconds : option float)
    (now : datetime) : result (list (string * list Row)) :=
  cutoff ← window_cutoff window_seconds now;
  Ok (omap (fun '(tier, rows) =>
        match recent lookback_rows cutoff rows with [] => None | kept => Some (tier, kept) end) tier_rows).

(** ** The overlay *)

Context (tier_of_endpoint : string -> result (option string)).

(** The tier of a row; a row without one is passed over. *)
Definition row_tier (row : Row) : result (option string) :=
  match row_get "endpoint_ref" row with
  | Some (CJson (JStr endpoint)) =>
      if String.eqb endpoint "" then Ok None
      else tier ← tier_of_endpoint endpoint; Ok (match tier with Some t => if String.eqb t "" then None else Some t | None => None end)
  | _ => Ok None
  end.
(** [d.setdefault(k, v0)] and an update of the entry, which keeps its place. *)
Fixpoint upsert {A} (k : string) (v0 : A) (f : A -> A) (l : list (string * A)) : list (string * A) :=
  match l with
  | [] => [(k, f v0)]
  | (k', v) :: l => if String.eqb k' k then (k', f v) :: l else (k', v) :: upsert k v0 f l
  end.
Fixpoint each_row {A} (f : string -> Row -> A -> A) (rows : list Row) (acc : A) : result A :=
  match rows with
  | [] => Ok acc
  | row :: rows =>
      tier ← row_tier row;
      each_row f rows (match tier with Some t => f t row acc | None => acc end)
  end.
(** [(success_count, sample_count)] per tier. *)
Definition count_row (tier : string) (row : Row) (counts : list (string * (Z * Z))) : list (string * (Z * Z)) :=
  upsert tier (0, 0)%Z (fun c => ((if _row_success row then c.1 + 1 else c.1)%Z, (c.2 + 1)%Z)) counts.
Definition group_row (tier : string) (row : Row) (tier_rows : list (string * list Row)) : list (string * list Row) :=
  upsert tier [] (fun rows => rows ++ [row]) tier_rows.
Definition cohort_count (rows : list Row) : Z * Z :=
  (Z.of_nat (length (List.filter _row_success rows)), Z.of_nat (length rows)).

Definition tier_signal (min_samples : Z) (success_floor : float) (tier : string) (counts : Z * Z) : result ModelTierRoiSignal :=
  let '(success_count, sample_count) := counts in
  success_rate ← (if Z.eqb sample_count 0 then Ok fzero else fdiv (float_of_Z success_count) (float_of_Z sample_count));
  Ok {| rs_tier_name := tier; rs_sample_count := sample_count; rs_success_count := success_count; rs_success_rate := success_rate;
        rs_suppressed := (min_samples <=? sample_count)%Z && flt success_rate success_floor |}.
Fixpoint tier_signals (min_samples : Z) (success_floor : float) (counts : list (string * (Z * Z))) : result (list ModelTierRoiSignal) :=
  match counts with
  | [] => Ok []
  | (tier, c) :: counts => s ← tier_signal min_samples success_floor tier c; rest ← tier_signals min_samples success_floor counts; Ok (s :: rest)
  end.

(** The arguments of [build_roi_overlay] that may be left to the environment. *)
Record RoiArgs := {
  ra_min_samples : option Z;
  ra_success_floor : option float;
  ra_lookback_rows : option Z;
  ra_window_seconds : option float
}.
Definition tier_counts (lookback_rows : option Z) (window_seconds : option float) (now : datetime) (rows : list Row)
    : result (list (string * (Z * Z))) :=
  match lookback_rows, window_seconds with
  | None, None => each_row count_row rows []
  | _, _ =>
      tier_rows ← each_row group_row rows [];
      windowed ← _apply_recency_window tier_rows lookback_rows window_seconds now;
      Ok (map (fun '(tier, kept) => (tier, cohort_count kept)) windowed)
  end.
Definition build_roi_overlay (knobs : RoiKnobs) (args : RoiArgs) (now : datetime) (task_type : string) (rows : list Row)
    : result ModelRoutingRoiOverlay :=
  let resolved_min := default (resolve_roi_min_samples knobs) (ra_min_samples args) in
  let resolved_floor := default (resolve_roi_success_floor knobs) (ra_success_floor args) in
  let resolved_lookback := match ra_lookback_rows args with Some k => Some k | None => resolve_roi_lookback_rows knobs end in
  let resolved_window := match ra_window_seconds args with Some s => Some s | None => resolve_roi_window_seconds knobs end in
  counts ← tier_counts resolved_lookback resolved_window now rows;
  signals ← tier_signals resolved_min resolved_floor (sort_by fst counts);
  if truthy task_type && (1 <=? resolved_min)%Z && fle fzero resolved_floor && fle resolved_floor fone then
    Ok {| ov_task_type := task_type; ov_min_samples := resolved_min; ov_success_floor := resolved_floor; ov_signals := signals |}
  else Raise (OtherError "ValidationError" "ModelRoutingRoiOverlay").

(** [resolve_roi_overlay]: [None] when the table cannot be read. *)
Definition resolve_roi_overlay (knobs : RoiKnobs) (args : RoiArgs) (now : datetime) (task_type : string) (query : result (list Row))
    : result (option ModelRoutingRoiOverlay) :=
  match query with
  | Raise _ => Ok None
  | Ok rows => overlay ← build_roi_overlay knobs args now task_type rows; Ok (Some overlay)
  end.
End overlay.

Definition no_args : RoiArgs := {| ra_min_samples := None; ra_success_floor := None; ra_lookback_rows := None; ra_window_seconds := None |}.
(** The local port's reader over a database, if it was given one: no overlay on any
    error. *)
Definition _default_roi_overlay_reader (fromisoformat : string -> result datetime) (env : RoutingEnv) (knobs : RoiKnobs) (now : datetime)
    (roi_db : option (result (list Row))) (task_type : string) : option ModelRoutingRoiOverlay :=
  match roi_db with
  | None => None
  | Some query => match resolve_roi_overlay fromisoformat (tier_for_backend env) knobs no_args now task_type query with Ok o => o | Raise _ => None end
  end.
