(* ===== verification/RoiProps.v ===== *)
(** * The overlay of captured outcomes: properties

    The overlay measures each tier's cohort of rows, in whatever order they are
    read, and what routing makes of it. *)
From S2P Require Import Prelude PyFloat PyJson DelegationModels DelegationRouting DelegationLadder DelegationProps RoiOverlay.

#[local] Open Scope nat_scope.

(** ** Dicts that are updated in place *)

Section upsert.
Context {A : Type} (v0 : A).

Fixpoint aget (k : string) (l : list (string * A)) : option A :=
  match l with [] => None | (k', v) :: l => if String.eqb k' k then Some v else aget k l end.
Lemma aget_upsert k f k' l : aget k' (upsert k v0 f l) = if String.eqb k k' then Some (f (default v0 (aget k l))) else aget k' l.
Proof.
  induction l as [|[k2 v] l IH]; simpl; [by destruct (String.eqb k k')|].
  destruct (String.eqb_spec k2 k) as [->|Hne]; simpl; [by destruct (String.eqb k k')|]. rewrite IH.
  destruct (String.eqb_spec k k') as [->|]; [|done]. by destruct (String.eqb_spec k2 k').
Qed.
Lemma upsert_keys k f l : map fst (upsert k v0 f l) = if str_in k (map fst l) then map fst l else map fst l ++ [k].
Proof.
  induction l as [|[k2 v] l IH]; simpl; [done|]. unfold str_in in *. simpl. rewrite (String.eqb_sym k k2).
  destruct (String.eqb k2 k); simpl; [done|]. rewrite IH. by destruct (existsb _ _).
Qed.
Lemma upsert_nodup k f l : NoDup (map fst l) -> NoDup (map fst (upsert k v0 f l)).
Proof.
  rewrite upsert_keys. intros Hnd. destruct (str_in k (map fst l)) eqn:E; [done|].
  apply NoDup_app. split; [done|]. split; [|by repeat constructor; apply not_elem_of_nil].
  intros x Hx ->%list_elem_of_singleton. apply str_in_spec in Hx. congruence.
Qed.
Lemma aget_in k v l : aget k l = Some v -> (k, v) ∈ l.
Proof. induction l as [|[k' v'] l IH]; simpl; [done|]. destruct (String.eqb_spec k' k) as [->|]; [intros [= ->]; left|right; auto]. Qed.
Lemma aget_of_in k v l : NoDup (map fst l) -> (k, v) ∈ l -> aget k l = Some v.
Proof.
  induction l as [|[k' v'] l IH]; simpl; [by intros _ ?%not_elem_of_nil|]. rewrite NoDup_cons. intros [Hk Hnd] [[= <- <-]|Hin]%elem_of_cons.
  - by rewrite String.eqb_refl.
  - destruct (String.eqb_spec k' k) as [->|]; [|auto]. destruct Hk. change k with (fst (k, v)). by apply list_elem_of_fmap_2.
Qed.
(** Distinct keys: the entries are the keys with what they hold. *)
Lemma entries_of l g : NoDup (map fst l) -> (forall k, k ∈ map fst l -> aget k l = Some (g k)) -> l = map (fun k => (k, g k)) (map fst l).
Proof.
  intros Hnd Hg. rewrite map_map. rewrite <- (map_id l) at 1. apply map_ext_in. intros [k v] Hin. rewrite <- list_elem_of_In in Hin.
  pose proof (aget_of_in _ _ _ Hnd Hin) as Hv. simpl. rewrite (Hg k) in Hv by (change k with (fst (k, v)); by apply list_elem_of_fmap_2).
  by injection Hv as ->.
Qed.
End upsert.

(** ** The rows of a tier *)

Section cohorts.
Context (fromisoformat : string -> result datetime) (tier_of_endpoint : string -> result (option string)).
Abbreviation row_tier := (row_tier tier_of_endpoint).

Definition on_tier (tier : string) (row : Row) : bool :=
  match row_tier row with Ok (Some t) => String.eqb t tier | _ => false end.
Definition rows_of (tier : string) (rows : list Row) : list Row := List.filter (on_tier tier) rows.
Definition tiers_of (rows : list Row) : list string := omap (fun row => match row_tier row with Ok t => t | Raise _ => None end) rows.

Lemma rows_of_snoc tier rows row : rows_of tier (rows ++ [row]) = rows_of tier rows ++ if on_tier tier row then [row] else [].
Proof. unfold rows_of. by rewrite List.filter_app. Qed.
Lemma rows_of_nil tier rows : rows_of tier rows = [] <-> tier ∉ tiers_of rows.
Proof.
  unfold rows_of, tiers_of. induction rows as [|row rows IH]; [split; [intros _; apply not_elem_of_nil|done]|]. simpl. unfold on_tier at 1.
  destruct (row_tier row) as [[t|]|]; [|done..]. destruct (String.eqb_spec t tier) as [->|Hne]; [split; [done|set_solver]|]. rewrite IH. set_solver.
Qed.

(** Folding the rows into a dict leaves under each tier what its rows make. *)
Lemma each_row_spec {A} (v0 : A) (step : Row -> A -> A) (g : list Row -> A) seen rows acc d :
  (forall l row, step row (if decide (l = []) then v0 else g l) = g (l ++ [row])) ->
  each_row tier_of_endpoint (fun t row => upsert t v0 (step row)) rows acc = Ok d ->
  NoDup (map fst acc) ->
  (forall k, aget k acc = if decide (rows_of k seen = []) then None else Some (g (rows_of k seen))) ->
  NoDup (map fst d) /\ forall k, aget k d = if decide (rows_of k (seen ++ rows) = []) then None else Some (g (rows_of k (seen ++ rows))).
Proof.
  intros Hg. revert seen acc. induction rows as [|row rows IH]; intros seen acc; simpl.
  - rewrite app_nil_r. by intros [= <-].
  - intros (t & Et & Hd)%result_bind_Ok Hnd Hacc. replace (seen ++ row :: rows) with ((seen ++ [row]) ++ rows) by by rewrite <- app_assoc.
    eapply IH; [exact Hd| |].
    + destruct t as [t|]; [by apply upsert_nodup|done].
    + intros k. rewrite rows_of_snoc. unfold on_tier. rewrite Et. destruct t as [t|]; [|by rewrite app_nil_r].
      rewrite aget_upsert. destruct (String.eqb_spec t k) as [->|Hne]; [|by rewrite app_nil_r].
      rewrite decide_False by (intros []%app_eq_nil; done). f_equal. rewrite <- Hg. f_equal. rewrite Hacc. by destruct (decide _).
Qed.
Lemma each_row_keys {A} (v0 : A) (step : Row -> A -> A) (g : list Row -> A) rows d :
  (forall l row, step row (if decide (l = []) then v0 else g l) = g (l ++ [row])) ->
  each_row tier_of_endpoint (fun t row => upsert t v0 (step row)) rows [] = Ok d ->
  NoDup (map fst d) /\ (forall k, k ∈ map fst d <-> k ∈ tiers_of rows) /\ d = map (fun k => (k, g (rows_of k rows))) (map fst d).
Proof.
  intros Hg Hd. destruct (each_row_spec v0 step g [] rows [] d Hg Hd) as [Hnd Hget]; [constructor|by intros k|].
  assert (forall k, k ∈ map fst d <-> k ∈ tiers_of rows) as Hk.
  { intros k. specialize (Hget k). simpl in Hget. split.
    - intros ([k' v] & -> & Hin)%list_elem_of_fmap. apply aget_of_in in Hin; [|done]. simpl in *. rewrite Hin in Hget.
      destruct (decide _) as [|Hne]; [done|]. rewrite rows_of_nil in Hne. by apply dec_stable.
    - intros Hin. destruct (decide _) as [Hnil|]; [by apply rows_of_nil in Hnil|]. apply aget_in in Hget.
      change k with (fst (k, g (rows_of k rows))). by apply list_elem_of_fmap_2. }
  split; [done|]. split; [done|]. apply entries_of; [done|]. intros k Hin. rewrite (Hget k). simpl.
  rewrite decide_False; [done|]. rewrite rows_of_nil. intros Hn. by apply Hn, Hk.
Qed.
Lemma count_step l row : (let c := if decide (l = []) then (0, 0)%Z else cohort_count l in
  ((if _row_success row then c.1 + 1 else c.1)%Z, (c.2 + 1)%Z)) = cohort_count (l ++ [row]).
Proof.
  assert ((if decide (l = []) then (0, 0)%Z else cohort_count l) = cohort_count l) as -> by by destruct (decide (l = [])) as [->|].
  unfold cohort_count. simpl. rewrite List.filter_app, !length_app. simpl. destruct (_row_success row); simpl; f_equal; lia.
Qed.
Lemma group_step l (row : Row) : (if decide (l = []) then [] else l) ++ [row] = l ++ [row].
Proof. by destruct (decide (l = [])) as [->|]. Qed.

(** ** What the overlay measures *)

(** All rows of a tier, or the recent ones where a window is set. *)
Definition cohort (lookback_rows : option Z) (window_seconds : option float) (cutoff : option datetime) (rows : list Row) : list Row :=
  match lookback_rows, window_seconds with None, None => rows | _, _ => recent fromisoformat lookback_rows cutoff rows end.
Definition nonempty {A} (l : list A) : bool := match l with [] => false | _ => true end.

Lemma sort_entries {A} (g : string -> A) l : sort_by fst (map (fun k => (k, g k)) l) = map (fun k => (k, g k)) (sort_by id l).
Proof.
  assert (forall k m, insert_sorted (fun a b : string * A => py_leb a.1 b.1) (k, g k) (map (fun k => (k, g k)) m)
    = map (fun k => (k, g k)) (insert_sorted (fun a b => py_leb a b) k m)) as Hins.
  { intros k m. induction m as [|x m IHm]; [done|]. simpl. destruct (py_leb k x); [done|]. simpl. by rewrite IHm. }
  unfold sort_by, py_sorted. induction l as [|k l IH]; [done|]. simpl. rewrite IH. apply Hins.
Qed.
Lemma filter_perm {A} (p : A -> bool) l k : l ≡ₚ k -> List.filter p l ≡ₚ List.filter p k.
Proof. induction 1; simpl; repeat case_match; eauto using Permutation. Qed.
Lemma filter_sorted {A} (R : A -> A -> Prop) (p : A -> bool) l : StronglySorted R l -> StronglySorted R (List.filter p l).
Proof.
  induction 1 as [|x l Hl IH Hx]; simpl; [constructor|]. destruct (p x); [|done]. constructor; [done|].
  rewrite Forall_forall in *. intros y Hy. apply Hx. rewrite list_elem_of_In, filter_In, <- list_elem_of_In in Hy. by destruct Hy.
Qed.
Lemma sort_filter (p : string -> bool) keys rows : NoDup keys -> (forall k, k ∈ keys <-> k ∈ tiers_of rows) ->
  sort_by id (List.filter p keys) = List.filter p (sorted_set (tiers_of rows)).
Proof.
  intros Hnd Hk. apply (StronglySorted_unique_strong (fun a b => py_leb (id a) (id b) = true)).
  - intros a b _ _. apply py_leb_antisym.
  - apply sort_by_sorted.
  - apply filter_sorted, sort_by_sorted.
  - rewrite sort_by_perm. apply filter_perm. unfold sorted_set. rewrite sort_by_perm.
    apply NoDup_Permutation; [done|apply NoDup_remove_dups|]. intros x. by rewrite elem_of_remove_dups.
Qed.


Lemma windowed_counts (g : string -> list Row) lookback cutoff keys :
  map (fun '(tier, kept) => (tier, cohort_count kept))
    (omap (fun '(tier, rows) => match recent fromisoformat lookback cutoff rows with [] => None | kept => Some (tier, kept) end)
      (map (fun k => (k, g k)) keys))
  = map (fun k => (k, cohort_count (recent fromisoformat lookback cutoff (g k))))
      (List.filter (fun k => nonempty (recent fromisoformat lookback cutoff (g k))) keys).
Proof.
  induction keys as [|k keys IH]; [done|]. cbn [map List.filter omap list_omap]. fold (recent fromisoformat lookback cutoff (g k)).
  unfold nonempty at 1. destruct (recent _ _ _ (g k)) eqn:E; cbn; [exact IH|]. rewrite E. by rewrite IH.
Qed.
Lemma filter_all {A} (p : A -> bool) l : (forall x, x ∈ l -> p x = true) -> List.filter p l = l.
Proof.
  induction l as [|x l IH]; [done|]. intros Hp. simpl. rewrite (Hp x) by left. f_equal. apply IH. intros y Hy. apply Hp. by right.
Qed.

(** The counts, sorted: the tiers with a cohort, each with the size of it and the
    number of its successes. *)
Lemma tier_counts_spec lookback window now rows counts :
  tier_counts fromisoformat tier_of_endpoint lookback window now rows = Ok counts ->
  exists cutoff, window_cutoff window now = Ok cutoff
    /\ let kept tier := cohort lookback window cutoff (rows_of tier rows) in
       sort_by fst counts = map (fun tier => (tier, cohort_count (kept tier)))
                              (List.filter (fun tier => nonempty (kept tier)) (sorted_set (tiers_of rows))).
Proof.
  intros Hc. assert (lookback = None /\ window = None \/ exists cutoff tier_rows, window_cutoff window now = Ok cutoff
    /\ each_row tier_of_endpoint group_row rows [] = Ok tier_rows
    /\ cohort lookback window cutoff = recent fromisoformat lookback cutoff
    /\ counts = map (fun '(tier, kept) => (tier, cohort_count kept))
         (omap (fun '(tier, rows) => match recent fromisoformat lookback cutoff rows with [] => None | kept => Some (tier, kept) end) tier_rows))
    as [[-> ->]|(cutoff & tier_rows & Hcut & Hg & Hco & ->)].
  { unfold tier_counts, _apply_recency_window, cohort in *. destruct lookback, window; [right..|by left];
      apply result_bind_Ok in Hc as (tier_rows & Hg & (w & (cutoff & Hcut & [= <-])%result_bind_Ok & [= <-])%result_bind_Ok);
      by exists cutoff, tier_rows. }
  - exists None. split; [done|]. simpl in Hc. apply (each_row_keys (0, 0)%Z (fun row c => ((if _row_success row then c.1 + 1 else c.1)%Z, (c.2 + 1)%Z)) cohort_count) in Hc
      as (Hnd & Hk & ->); [|apply count_step].
    rewrite sort_entries. cbn [cohort]. f_equal. rewrite <- (sort_filter _ _ _ Hnd Hk). f_equal. symmetry. apply filter_all.
    intros k Hin%Hk. destruct (rows_of k rows) eqn:E; [by apply rows_of_nil in E|done].
  - exists cutoff. split; [done|]. apply (each_row_keys [] (fun row rows => rows ++ [row]) (fun rows => rows)) in Hg
      as (Hnd & Hk & ->); [|apply group_step].
    rewrite windowed_counts, sort_entries, Hco. f_equal. by apply sort_filter.
Qed.

(** A signal says what the cohort of its tier is. *)
Definition measures (ov : ModelRoutingRoiOverlay) (kept : list Row) (tier : string) (s : ModelTierRoiSignal) : Prop :=
  rs_tier_name s = tier /\ rs_sample_count s = Z.of_nat (length kept)
  /\ rs_success_count s = Z.of_nat (length (List.filter _row_success kept))
  /\ fdiv (float_of_Z (rs_success_count s)) (float_of_Z (rs_sample_count s)) = Ok (rs_success_rate s)
  /\ rs_suppressed s = (ov_min_samples ov <=? rs_sample_count s)%Z && flt (rs_success_rate s) (ov_success_floor ov).
Lemma tier_signals_spec ov (kept : string -> list Row) names signals : Forall (fun tier => nonempty (kept tier) = true) names ->
  tier_signals (ov_min_samples ov) (ov_success_floor ov) (map (fun tier => (tier, cohort_count (kept tier))) names) = Ok signals ->
  Forall2 (fun tier s => measures ov (kept tier) tier s) names signals.
Proof.
  intros Hne. revert signals. induction Hne as [|tier names Hn Hne IH]; intros signals; [intros [= <-]; constructor|].
  cbn [map tier_signals]. intros (s & Hs & (rest & Hr & [= <-])%result_bind_Ok)%result_bind_Ok. constructor; [|by apply IH].
  unfold tier_signal, cohort_count in Hs. apply result_bind_Ok in Hs as (rate & Hrate & [= <-]).
  split; [done|]. split; [done|]. split; [done|]. split; [|done]. cbn [rs_success_count rs_sample_count rs_success_rate].
  destruct (Z.eqb_spec (Z.of_nat (length (kept tier))) 0) as [E|]; [|done]. destruct (kept tier); [done|]. simpl in E. lia.
Qed.

(** The knobs in force. *)
Definition lookback_of (knobs : RoiKnobs) (args : RoiArgs) : option Z :=
  match ra_lookback_rows args with Some k => Some k | None => resolve_roi_lookback_rows knobs end.
Definition window_of (knobs : RoiKnobs) (args : RoiArgs) : option float :=
  match ra_window_seconds args with Some s => Some s | None => resolve_roi_window_seconds knobs end.
Lemma build_spec knobs args now task_type rows ov :
  build_roi_overlay fromisoformat tier_of_endpoint knobs args now task_type rows = Ok ov ->
  exists counts signals, tier_counts fromisoformat tier_of_endpoint (lookback_of knobs args) (window_of knobs args) now rows = Ok counts
    /\ tier_signals (ov_min_samples ov) (ov_success_floor ov) (sort_by fst counts) = Ok signals /\ ov_signals ov = signals.
Proof.
  unfold build_roi_overlay. intros (counts & Hc & (signals & Hs & Hov)%result_bind_Ok)%result_bind_Ok. exists counts, signals.
  split; [exact Hc|]. destruct (_ && _); [|done]. injection Hov as <-. by split.
Qed.
Lemma overlay_spec knobs args now task_type rows ov :
  build_roi_overlay fromisoformat tier_of_endpoint knobs args now task_type rows = Ok ov ->
  exists cutoff, window_cutoff (window_of knobs args) now = Ok cutoff
    /\ let kept tier := cohort (lookback_of knobs args) (window_of knobs args) cutoff (rows_of tier rows) in
       Forall2 (fun tier s => measures ov (kept tier) tier s)
         (List.filter (fun tier => nonempty (kept tier)) (sorted_set (tiers_of rows))) (ov_signals ov).
Proof.
  intros (counts & signals & Hc & Hs & ->)%build_spec. apply tier_counts_spec in Hc as (cutoff & Hcut & Hsort). exists cutoff.
  split; [done|]. rewrite Hsort in Hs. apply tier_signals_spec; [|exact Hs]. rewrite Forall_forall. intros tier Hin.
  rewrite list_elem_of_In, filter_In in Hin. by destruct Hin.
Qed.

(** ** The order of the rows *)

Lemma each_row_ok {A} (f : string -> Row -> A -> A) rows acc :
  is_ok (each_row tier_of_endpoint f rows acc) <-> Forall (fun row => is_ok (row_tier row)) rows.
Proof.
  revert acc. induction rows as [|row rows IH]; intros acc; simpl; [split; [constructor|by eexists]|]. rewrite Forall_cons.
  destruct (row_tier row) as [t|e]; simpl; [|split; [by intros [? [=]]|by intros [[? [=]] _]]].
  rewrite IH. split; [intros Hr; split; [by eexists|done]|by intros []].
Qed.
Lemma recent_perm cutoff rows rows' : rows ≡ₚ rows' -> recent fromisoformat None cutoff rows ≡ₚ recent fromisoformat None cutoff rows'.
Proof. intros Hp. unfold recent, ranked. apply Permutation_map. rewrite !sort_by_perm. by apply omap_Permutation. Qed.
Lemma cohort_perm window cutoff rows rows' : rows ≡ₚ rows' -> cohort None window cutoff rows ≡ₚ cohort None window cutoff rows'.
Proof. unfold cohort. destruct window; [apply recent_perm|done]. Qed.
Lemma cohort_count_perm rows rows' : rows ≡ₚ rows' -> cohort_count rows = cohort_count rows' /\ nonempty rows = nonempty rows'.
Proof.
  intros Hp. split; [unfold cohort_count; by rewrite (filter_perm _ _ _ Hp), Hp|].
  destruct rows, rows'; try done; [by apply Permutation_nil_l in Hp|by symmetry in Hp; apply Permutation_nil_l in Hp].
Qed.
End cohorts.

(** ** What the overlay says *)

Section reading.
Context (fromisoformat : string -> result datetime) (tier_of_endpoint : string -> result (option string)).

Lemma tier_counts_ok lookback window now rows : is_ok (tier_counts fromisoformat tier_of_endpoint lookback window now rows) <->
  Forall (fun row => is_ok (row_tier tier_of_endpoint row)) rows /\ (lookback = None /\ window = None \/ is_ok (window_cutoff window now)).
Proof.
  unfold tier_counts, _apply_recency_window.
  destruct lookback, window; [..|rewrite (each_row_ok tier_of_endpoint count_row rows []); split; [auto|by intros []]].
  all: rewrite <- (each_row_ok tier_of_endpoint group_row rows []).
  all: destruct (each_row tier_of_endpoint group_row rows []) as [d|e], (window_cutoff _ now) as [cutoff|e']; cbn [mbind result_bind].
  all: split; [intros [x Hx]; try done; split; first [by eexists|right; by eexists]|].
  all: intros [[x Hx] [[]|[y Hy]]]; try done; by eexists.
Qed.

(** The overlay measures the outcomes: it has one signal per tier with rows in
    force, in the order of their names, which counts those rows and the successful
    ones among them and suppresses the tier exactly if they are at least the
    minimum and succeed at a rate below the floor. *)
Theorem overlay_measures_outcomes knobs args now task_type rows ov :
  build_roi_overlay fromisoformat tier_of_endpoint knobs args now task_type rows = Ok ov ->
  exists cutoff, window_cutoff (window_of knobs args) now = Ok cutoff
    /\ let kept tier := cohort fromisoformat (lookback_of knobs args) (window_of knobs args) cutoff (rows_of tier_of_endpoint tier rows) in
       Forall2 (fun tier s => rs_tier_name s = tier /\ rs_sample_count s = Z.of_nat (length (kept tier))
                  /\ rs_success_count s = Z.of_nat (length (List.filter _row_success (kept tier)))
                  /\ fdiv (float_of_Z (rs_success_count s)) (float_of_Z (rs_sample_count s)) = Ok (rs_success_rate s)
                  /\ rs_suppressed s = (ov_min_samples ov <=? rs_sample_count s)%Z && flt (rs_success_rate s) (ov_success_floor ov))
         (List.filter (fun tier => nonempty (kept tier)) (sorted_set (tiers_of tier_of_endpoint rows))) (ov_signals ov).
Proof. exact (overlay_spec fromisoformat tier_of_endpoint knobs args now task_type rows ov). Qed.

(** Without a row limit the order in which the rows are read does not matter. *)
Theorem overlay_order_free knobs args now task_type rows rows' ov : lookback_of knobs args = None -> rows ≡ₚ rows' ->
  build_roi_overlay fromisoformat tier_of_endpoint knobs args now task_type rows = Ok ov ->
  build_roi_overlay fromisoformat tier_of_endpoint knobs args now task_type rows' = Ok ov.
Proof.
  intros Hl Hp Hb. unfold build_roi_overlay in *. fold (lookback_of knobs args) (window_of knobs args) in *. rewrite Hl in *.
  apply result_bind_Ok in Hb as (counts & Hc & Hb).
  assert (is_ok (tier_counts fromisoformat tier_of_endpoint None (window_of knobs args) now rows')) as [counts' Hc'].
  { assert (is_ok (tier_counts fromisoformat tier_of_endpoint None (window_of knobs args) now rows)) as [Hok Hw]%tier_counts_ok by by eexists.
    apply tier_counts_ok. by rewrite <- Hp. }
  rewrite Hc'. cbn [mbind result_bind].
  apply tier_counts_spec in Hc as (cutoff & Hcut & Hs), Hc' as (cutoff' & Hcut' & Hs'). rewrite Hcut in Hcut'. injection Hcut' as <-.
  assert (forall tier, cohort_count (cohort fromisoformat None (window_of knobs args) cutoff (rows_of tier_of_endpoint tier rows))
      = cohort_count (cohort fromisoformat None (window_of knobs args) cutoff (rows_of tier_of_endpoint tier rows'))
    /\ nonempty (cohort fromisoformat None (window_of knobs args) cutoff (rows_of tier_of_endpoint tier rows))
      = nonempty (cohort fromisoformat None (window_of knobs args) cutoff (rows_of tier_of_endpoint tier rows'))) as Hsame.
  { intros tier. by apply cohort_count_perm, cohort_perm, filter_perm. }
  assert (sort_by fst counts' = sort_by fst counts) as ->; [|exact Hb]. rewrite Hs, Hs'.
  assert (sorted_set (tiers_of tier_of_endpoint rows') = sorted_set (tiers_of tier_of_endpoint rows)) as ->
    by by apply sorted_set_perm, omap_Permutation.
  erewrite filter_ext by (intros tier; symmetry; apply (Hsame tier)). apply map_ext. intros tier. by rewrite (proj1 (Hsame tier)).
Qed.
End reading.

(** ** What routing makes of it *)

Section failsafe.
Context (ex : list string) (p : ModelRoutingTier -> bool) (l : list ModelRoutingTier).
Definition eligible (skip : list string) : option string :=
  option_map rt_name (List.find (fun t => negb (str_in (rt_name t) (ex ++ skip)) && p t) l).

Lemma eligible_none skip : eligible [] = None -> eligible skip = None.
Proof.
  unfold eligible. destruct (List.find _ l) eqn:E; [done|]. intros _. destruct (List.find _ l) as [t|] eqn:E' at 1; [|done].
  apply find_some in E' as [Hin Hp]. pose proof (find_none _ _ E t Hin) as Hn. simpl in Hn. rewrite app_nil_r in Hn. breflect.
  rewrite H0, andb_true_r in Hn. apply negb_false_iff, str_in_spec in Hn.
  apply not_true_iff_false in H. destruct H. apply str_in_spec, elem_of_app. by left.
Qed.
Lemma eligible_not_skipped skip n : eligible skip = Some n -> n ∉ skip.
Proof.
  unfold eligible. destruct (List.find _ l) as [t|] eqn:E; [|done]. intros [= <-]. apply find_some in E as [_ Hp]. breflect.
  intros Hin. apply not_true_iff_false in H as []. apply str_in_spec, elem_of_app. by right.
Qed.
Lemma eligible_kept skip n : eligible [] = Some n -> n ∉ skip -> eligible skip = Some n.
Proof.
  unfold eligible. induction l as [|t l' IH]; [done|]. cbn [List.find]. rewrite app_nil_r in *.
  destruct (negb (str_in (rt_name t) ex) && p t) eqn:Et.
  - cbn. intros [= <-] Hn. breflect. replace (str_in (rt_name t) (ex ++ skip)) with false; [by rewrite H0|].
    symmetry. apply not_true_iff_false. intros Hin. apply str_in_spec, elem_of_app in Hin as [Hin|Hin]; [|done]. apply str_in_spec in Hin. congruence.
  - intros He Hn. replace (negb (str_in (rt_name t) (ex ++ skip)) && p t) with false; [by apply IH|]. symmetry.
    apply andb_false_iff in Et as [Et|Et]; [|by rewrite Et, andb_false_r]. apply negb_false_iff, str_in_spec in Et.
    replace (str_in (rt_name t) (ex ++ skip)) with true; [done|]. symmetry. apply str_in_spec, elem_of_app. by left.
Qed.
(** The static choice, and the one with suppressed tiers. *)
Lemma failsafe_spec sup : let r := with_failsafe sup eligible in let r0 := with_failsafe [] eligible in
  (r = None <-> r0 = None) /\ (forall n, r0 = Some n -> n ∉ sup -> r = r0) /\ (forall n, r = Some n -> n ∈ sup -> r = r0).
Proof.
  assert (with_failsafe [] eligible = eligible []) as -> by (unfold with_failsafe; by destruct (eligible [])).
  unfold with_failsafe. destruct (eligible sup) as [m|] eqn:Es.
  - cbn. split_and!.
    + split; [done|]. intros H. by rewrite (eligible_none sup H) in Es.
    + intros n Hn Hs. rewrite (eligible_kept sup n Hn Hs) in Es. by rewrite Hn, Es.
    + intros n [= <-] Hs. by apply eligible_not_skipped in Es.
  - destruct sup as [|s sup]; cbn; [rewrite Es; by split_and!|done].
Qed.
End failsafe.

(** Suppression never strands a delegation: with the overlay there is an eligible
    tier, first or next, exactly if there is one without; a static choice that is
    not suppressed is kept; and a suppressed tier is chosen only as the static
    choice, when no other is eligible. *)
Theorem suppression_never_strands env t overlay :
  let steers (r r0 : option string) :=
    (r = None <-> r0 = None) /\ (forall n, r0 = Some n -> n ∉ _roi_suppressed_tiers overlay -> r = r0)
    /\ (forall n, r = Some n -> n ∈ _roi_suppressed_tiers overlay -> r = r0) in
  (forall r, first_eligible_tier env t overlay = Ok r -> exists r0, first_eligible_tier env t None = Ok r0 /\ steers r r0)
  /\ (forall cur ex r, next_eligible_tier env cur ex (Some t) overlay = Ok r ->
        exists r0, next_eligible_tier env cur ex (Some t) None = Ok r0 /\ steers r r0).
Proof.
  intros steers. assert (steers None None) as Hnone by by split_and!. split.
  - intros r. unfold first_eligible_tier. destruct (_task_class_entry _ _) as [entry|]; [|intros [= <-]; eauto].
    destruct (escalation ← _; _) as [order|]; [|intros [= <-]; eauto]. destruct (truthy order); [|intros [= <-]; eauto].
    destruct (_get_config env) as [config|]; [|done]. destruct (_load_bifrost_endpoints env) as [refs|]; [|done]. cbn [mbind result_bind].
    destruct (_tier_order_from_contract config _) as [tiers|]; [|done]. cbn [mbind result_bind]. intros [= <-].
    eexists. split; [reflexivity|]. exact (failsafe_spec [] _ tiers _).
  - intros cur ex r. unfold next_eligible_tier.
    destruct (_get_config env) as [config|]; [|done]. destruct (_load_bifrost_endpoints env) as [refs|]; [|done]. cbn [mbind result_bind].
    destruct (_tier_order_from_contract config _) as [tiers|]; [|done]. cbn [mbind result_bind]. intros [= <-].
    eexists. split; [reflexivity|]. exact (failsafe_spec ex _ _ _).
Qed.

(** ** On a deployment *)

(** Rows of the deployment's backends: [b-a] is the local tier's, [b-c] the
    cloud's; times in seconds. *)
Definition outcome_row (id backend : string) (success : bool) (seconds : Z) : Row :=
  [("id", CJson (JStr id)); ("endpoint_ref", CJson (JStr backend)); ("final_success", CJson (JBool success)); ("created_at", CTime (seconds * 1000000))].
(** The local tier did well at first and fails of late. *)
Definition regressed : list Row :=
  map (fun i => outcome_row (pretty i) "b-a" true i) [0; 1; 2; 3; 4; 5; 6]%Z
  ++ map (fun i => outcome_row (pretty i) "b-a" false i) [100; 101; 102; 103; 104; 105]%Z
  ++ [outcome_row "x" "b-c" true 100; outcome_row "y" "b-z" false 100].
Definition knobs_with (window : option string) : RoiKnobs :=
  {| kn_min_samples := None; kn_success_floor := None; kn_lookback_rows := None; kn_window_seconds := window |}.
Definition no_iso (s : string) : result datetime := Raise (ValueError ("Invalid isoformat string: " +:+ py_repr s)).
Definition reader (window : option string) : string -> option ModelRoutingRoiOverlay :=
  _default_roi_overlay_reader no_iso sample_env (knobs_with window) 110000000 (Some (Ok regressed)).

(** Over the whole history the tier is kept, over the last minute it is
    suppressed, and routing starts one tier up. *)
Example regression_seen : map (fun w => (option_map suppressed_tiers (reader w "test"), first_eligible_tier sample_env "test" (reader w "test")))
    [None; Some "60"; Some "-1"; Some "inf"] =
  [(Some [], Ok (Some "local")); (Some ["local"], Ok (Some "cheap_cloud")); (Some [], Ok (Some "local")); (None, Ok (Some "local"))].
Proof. vm_compute. reflexivity. Qed.

(** [resolve_roi_overlay] itself is not fail-open: a window no [timedelta] holds is
    an error of the aggregation, which only the port's reader catches. *)
Example resolve_not_fail_open :
  resolve_roi_overlay no_iso (tier_for_backend sample_env) (knobs_with (Some "inf")) no_args 110000000 "test" (Ok regressed)
  = Raise (OverflowError "cannot convert float infinity to integer").
Proof. vm_compute. reflexivity. Qed.

Lemma overlay_measures_outcomes_witness : exists ov cutoff,
  build_roi_overlay no_iso (tier_for_backend sample_env) (knobs_with (Some "60")) no_args 110000000 "test" regressed = Ok ov
  /\ window_cutoff (Some (lit "60")) 110000000 = Ok cutoff
    /\ let kept tier := cohort no_iso None (Some (lit "60")) cutoff (rows_of (tier_for_backend sample_env) tier regressed) in
       Forall2 (fun tier s => rs_tier_name s = tier /\ rs_sample_count s = Z.of_nat (length (kept tier))
                  /\ rs_success_count s = Z.of_nat (length (List.filter _row_success (kept tier)))
                  /\ fdiv (float_of_Z (rs_success_count s)) (float_of_Z (rs_sample_count s)) = Ok (rs_success_rate s)
                  /\ rs_suppressed s = (ov_min_samples ov <=? rs_sample_count s)%Z && flt (rs_success_rate s) (ov_success_floor ov))
         (List.filter (fun tier => nonempty (kept tier)) (sorted_set (tiers_of (tier_for_backend sample_env) regressed))) (ov_signals ov).
Proof.
  assert (is_ok (build_roi_overlay no_iso (tier_for_backend sample_env) (knobs_with (Some "60")) no_args 110000000 "test" regressed)) as [ov Hov]
    by (eexists; vm_compute; reflexivity).
  destruct (overlay_measures_outcomes no_iso (tier_for_backend sample_env) (knobs_with (Some "60")) no_args 110000000 "test" regressed ov Hov)
    as (cutoff & Hcut & Hsig).
  exists ov, cutoff. split; [exact Hov|]. split; [exact Hcut|]. exact Hsig.
Defined.
Lemma overlay_order_free_witness : exists ov,
  build_roi_overlay no_iso (tier_for_backend sample_env) (knobs_with (Some "60")) no_args 110000000 "test" regressed = Ok ov
  /\ build_roi_overlay no_iso (tier_for_backend sample_env) (knobs_with (Some "60")) no_args 110000000 "test" (reverse regressed) = Ok ov.
Proof.
  assert (is_ok (build_roi_overlay no_iso (tier_for_backend sample_env) (knobs_with (Some "60")) no_args 110000000 "test" regressed)) as [ov Hov]
    by (eexists; vm_compute; reflexivity).
  exists ov. split; [exact Hov|].
  apply (overlay_order_free no_iso (tier_for_backend sample_env) (knobs_with (Some "60")) no_args 110000000 "test" regressed); [reflexivity| |exact Hov].
  symmetry. apply reverse_Permutation.
Defined.
Lemma suppression_never_strands_witness :
  let steers (r r0 : option string) :=
    (r = None <-> r0 = None) /\ (forall n, r0 = Some n -> n ∉ _roi_suppressed_tiers (reader (Some "60") "test") -> r = r0)
    /\ (forall n, r = Some n -> n ∈ _roi_suppressed_tiers (reader (Some "60") "test") -> r = r0) in
  exists r0, first_eligible_tier sample_env "test" None = Ok r0 /\ steers (Some "cheap_cloud") r0.
Proof.
  intros steers. apply (proj1 (suppression_never_strands sample_env "test" (reader (Some "60") "test"))). vm_compute. reflexivity.
Defined.
