(* ===== verification/RoutingFeedback.v ===== *)
(** * Delegation: routing feedback

    [nodes/node_delegation_routing_feedback_reducer]: the terminal events of model
    calls are folded into counters per model and task type.  What the runtime
    delivers is unwrapped and normalised first; what cannot be attributed is a
    no-op.  Reading a stored row back into [ModelRoutingFeedback] is an argument. *)
From S2P Require Import Prelude PyFloat PyJson.

Inductive EnumDelegationFeedbackEventType := COMPLETED | ESCALATION_TRIGGERED | ALL_TIERS_FAILED.
#[export] Instance feedback_type_eq_dec : EqDecision EnumDelegationFeedbackEventType.
Proof. solve_decision. Defined.
Definition feedback_type_value (t : EnumDelegationFeedbackEventType) : string :=
  match t with
  | COMPLETED => "delegation-call-completed"
  | ESCALATION_TRIGGERED => "delegation-escalation-triggered"
  | ALL_TIERS_FAILED => "delegation-all-tiers-failed"
  end.
(** [EnumDelegationFeedbackEventType(raw)] *)
Definition feedback_type_of (raw : string) : option EnumDelegationFeedbackEventType :=
  List.find (fun t => String.eqb (feedback_type_value t) raw) [COMPLETED; ESCALATION_TRIGGERED; ALL_TIERS_FAILED].

Record ModelDelegationFeedbackEvent := {
  fe_event_type : EnumDelegationFeedbackEventType;
  fe_correlation_id : string;
  fe_request_id : string;
  fe_task_type : string;
  fe_model_id : string;
  fe_success : bool;
  fe_is_escalation : bool;
  fe_latency_ms : Z;
  fe_source_topic : string
}.
Record ModelRoutingFeedback := {
  rf_model_id : string;
  rf_task_type : string;
  rf_success_count : Z;
  rf_failure_count : Z;
  rf_escalation_count : Z;
  rf_total_count : Z;
  rf_success_rate : float;
  rf_escalation_rate : float;
  rf_avg_latency_ms : float;
  rf_window_start : string;
  rf_last_updated : string
}.
(** [model_dump(mode="json")] *)
Definition feedback_json (f : ModelRoutingFeedback) : json := JObj [
  ("model_id", JStr (rf_model_id f)); ("task_type", JStr (rf_task_type f)); ("success_count", JInt (rf_success_count f));
  ("failure_count", JInt (rf_failure_count f)); ("escalation_count", JInt (rf_escalation_count f)); ("total_count", JInt (rf_total_count f));
  ("success_rate", JFloat (float_repr (rf_success_rate f))); ("escalation_rate", JFloat (float_repr (rf_escalation_rate f)));
  ("avg_latency_ms", JFloat (float_repr (rf_avg_latency_ms f))); ("window_start", JStr (rf_window_start f));
  ("last_updated", JStr (rf_last_updated f))].

(** ** Unwrapping what is delivered *)

Definition _DISPATCH_MARKERS : list string :=
  ["_db"; "_event_type"; "_topic"; "_partition"; "_offset"; "_terminal_event_id"; "_state"; "envelope_id"; "envelope_timestamp";
   "partition_key"; "__debug_trace"].
Definition _TOPIC_TO_EVENT_TYPE : list (string * EnumDelegationFeedbackEventType) :=
  [("onex.evt.omnimarket.delegation-call-completed.v1", COMPLETED);
   ("onex.evt.omnimarket.delegation-escalation-triggered.v1", ESCALATION_TRIGGERED);
   ("onex.evt.omnimarket.delegation-all-tiers-failed.v1", ALL_TIERS_FAILED)].
Definition topic_event_type (topic : string) : option EnumDelegationFeedbackEventType :=
  snd <$> List.find (fun kv => String.eqb kv.1 topic) _TOPIC_TO_EVENT_TYPE.

(** A delivery: a dict, a model as its dump, or another value; and its [topic]
    attribute. *)
Record Delivery := { dv_value : json; dv_topic : option string }.
Definition _as_mapping (j : json) : option Obj := match j with JObj o => Some o | _ => None end.
Fixpoint unwrap (fuel : nat) (current : json) : json :=
  match fuel with
  | O => current
  | S fuel =>
      match _as_mapping current with
      | None => current
      | Some mapping => match dict_get "payload" mapping with Some payload => unwrap fuel payload | None => current end
      end
  end.
Definition _unwrap_envelope : json -> json := unwrap 8.
Definition _strip_markers (payload : Obj) : Obj := List.filter (fun kv => negb (str_in kv.1 _DISPATCH_MARKERS)) payload.

(** The first text of the keys that is not empty. *)
Definition text_at (k : string) (o : Obj) : option string :=
  match dict_get k o with Some (JStr s) => if String.eqb s "" then None else Some s | _ => None end.
Definition first_of (a b : option string) : option string := match a with Some _ => a | None => b end.
Definition mapping_topic (raw_mapping : Obj) : option string :=
  first_of (text_at "_topic" raw_mapping)
    (first_of (text_at "topic" raw_mapping)
      (first_of (match dict_get "__debug_trace" raw_mapping with Some (JObj debug_trace) => text_at "topic" debug_trace | _ => None end)
        (match dict_get "event_type" raw_mapping with
         | Some (JStr event_type) => match topic_event_type event_type with Some _ => Some event_type | None => None end
         | _ => None
         end))).
Definition _resolve_source_topic (raw_input : Delivery) (payload : Obj) : string :=
  let of_mapping := raw_mapping ← _as_mapping (dv_value raw_input); mapping_topic raw_mapping in
  let of_attribute := match dv_topic raw_input with Some t => if String.eqb t "" then None else Some t | None => None end in
  default "" (first_of of_mapping (first_of of_attribute (text_at "source_topic" payload))).
Definition _resolve_state (raw_input : Delivery) : Obj :=
  match _as_mapping (dv_value raw_input) with
  | None => []
  | Some raw_mapping =>
      match dict_get "_state" raw_mapping with
      | Some (JObj state) => state
      | _ => match dict_get "state" raw_mapping with Some (JObj state) => state | _ => [] end
      end
  end.

(** ** Normalising the event *)

Definition _resolve_model_id (payload : Obj) (event_type : EnumDelegationFeedbackEventType) : string :=
  match text_at "model_id" payload with
  | Some model_id => model_id
  | None =>
      if decide (event_type = ALL_TIERS_FAILED) then
        match dict_get "attempted_models" payload with
        | Some (JArr attempted) => match last attempted with Some (JStr model) => model | _ => "" end
        | _ => ""
        end
      else ""
  end.
Definition _resolve_event_type (payload : Obj) (source_topic : string) : option EnumDelegationFeedbackEventType :=
  match topic_event_type source_topic with
  | Some t => Some t
  | None => match dict_get "event_type" payload with Some (JStr raw) => feedback_type_of raw | _ => None end
  end.
(** [str(payload.get(k) or "")] *)
Definition id_text (k : string) (payload : Obj) : string :=
  match dict_get k payload with Some j => if truthy j then json_str j else "" | None => "" end.
Definition latency_of (payload : Obj) : result Z :=
  match dict_get "latency_ms" payload with
  | Some (JInt n) => Ok n
  | Some (JBool b) => Ok (Z.b2z b)
  | Some (JFloat r) => py_trunc (lit r)
  | _ => Ok 0%Z
  end.
Definition _build_feedback_event (payload : Obj) (source_topic : string) : result (option ModelDelegationFeedbackEvent) :=
  if negb (truthy payload) then Ok None
  else
    match _resolve_event_type payload source_topic, text_at "task_type" payload with
    | Some event_type, Some task_type =>
        let model_id := _resolve_model_id payload event_type in
        if String.eqb model_id "" then Ok None
        else
          '(success, is_escalation, latency_ms) ←
            (match event_type with
             | COMPLETED =>
                 latency ← latency_of payload;
                 Ok (match dict_get "success" payload with Some j => truthy j | None => false end, false, latency)
             | ESCALATION_TRIGGERED => Ok (false, true, 0%Z)
             | ALL_TIERS_FAILED => Ok (false, false, 0%Z)
             end : result (bool * bool * Z));
          Ok (Some {| fe_event_type := event_type; fe_correlation_id := id_text "correlation_id" payload;
                      fe_request_id := id_text "request_id" payload; fe_task_type := task_type; fe_model_id := model_id;
                      fe_success := success; fe_is_escalation := is_escalation; fe_latency_ms := latency_ms;
                      fe_source_topic := source_topic |})
    | _, _ => Ok None
    end.

(** The event in a delivery, if it can be attributed. *)
Definition delivered_event (input_data : Delivery) : result (option ModelDelegationFeedbackEvent) :=
  match _as_mapping (_unwrap_envelope (dv_value input_data)) with
  | None => Ok None
  | Some domain_mapping =>
      let payload := _strip_markers domain_mapping in
      _build_feedback_event payload (_resolve_source_topic input_data payload)
  end.

(** ** Accumulating *)

Definition _feedback_key (model_id task_type : string) : string := model_id +:+ ":" +:+ task_type.
Definition _compute_rates (success_count escalation_count total_count : Z) : result (float * float) :=
  if Z.eqb total_count 0 then Ok (fzero, fzero)
  else
    success_rate ← fdiv (float_of_Z success_count) (float_of_Z total_count);
    escalation_rate ← fdiv (float_of_Z escalation_count) (float_of_Z total_count);
    Ok (success_rate, escalation_rate).
Definition fresh_feedback (event : ModelDelegationFeedbackEvent) (now : string) : ModelRoutingFeedback := {|
  rf_model_id := fe_model_id event; rf_task_type := fe_task_type event; rf_success_count := 0; rf_failure_count := 0;
  rf_escalation_count := 0; rf_total_count := 0; rf_success_rate := fzero; rf_escalation_rate := fzero; rf_avg_latency_ms := fzero;
  rf_window_start := now; rf_last_updated := ""
|}.
Definition next_average (event : ModelDelegationFeedbackEvent) (existing : ModelRoutingFeedback) : result float :=
  if bool_decide (fe_event_type event = COMPLETED) && (0 <? fe_latency_ms event)%Z then
    let prev_latency_total := fmul (rf_avg_latency_ms existing) (float_of_Z (rf_total_count existing)) in
    fdiv (fadd prev_latency_total (float_of_Z (fe_latency_ms event))) (float_of_Z (rf_total_count existing + 1))
  else Ok (rf_avg_latency_ms existing).
Definition add_event (event : ModelDelegationFeedbackEvent) (existing : ModelRoutingFeedback) (now : string) : result ModelRoutingFeedback :=
  let new_total := (rf_total_count existing + 1)%Z in
  let new_success := (rf_success_count existing + (if fe_success event then 1 else 0))%Z in
  let new_failure := (rf_failure_count existing + (if fe_success event then 0 else 1))%Z in
  let new_escalation := (rf_escalation_count existing + (if fe_is_escalation event then 1 else 0))%Z in
  new_avg_latency ← next_average event existing;
  '(success_rate, escalation_rate) ← _compute_rates new_success new_escalation new_total;
  Ok {| rf_model_id := fe_model_id event; rf_task_type := fe_task_type event; rf_success_count := new_success; rf_failure_count := new_failure;
        rf_escalation_count := new_escalation; rf_total_count := new_total; rf_success_rate := success_rate;
        rf_escalation_rate := escalation_rate; rf_avg_latency_ms := new_avg_latency; rf_window_start := rf_window_start existing;
        rf_last_updated := now |}.

(** The counters in the order their keys came up. *)
Definition FeedbackState : Type := list (string * ModelRoutingFeedback).
Fixpoint state_get (k : string) (state : FeedbackState) : option ModelRoutingFeedback :=
  match state with [] => None | (k', f) :: state => if String.eqb k' k then Some f else state_get k state end.
Fixpoint state_set (k : string) (f : ModelRoutingFeedback) (state : FeedbackState) : FeedbackState :=
  match state with
  | [] => [(k, f)]
  | (k', f') :: state => if String.eqb k' k then (k', f) :: state else (k', f') :: state_set k f state
  end.

Section handler.
(** [ModelRoutingFeedback] with the fields of a stored row. *)
Context (feedback_of_json : json -> result ModelRoutingFeedback).

Fixpoint rehydrate (state : Obj) : result FeedbackState :=
  match state with
  | [] => Ok []
  | (k, v) :: state => f ← feedback_of_json v; rest ← rehydrate state; Ok ((k, f) :: rest)
  end.
(** [accumulate]; an empty entry of the key counts as none, and every entry has to
    be a row. *)
Definition accumulate (event : ModelDelegationFeedbackEvent) (state : Obj) (now : string) : result (ModelRoutingFeedback * FeedbackState) :=
  let key := _feedback_key (fe_model_id event) (fe_task_type event) in
  existing ← (match dict_get key state with
              | Some raw => if truthy raw then feedback_of_json raw else Ok (fresh_feedback event now)
              | None => Ok (fresh_feedback event now)
              end : result ModelRoutingFeedback);
  updated ← add_event event existing now;
  new_state ← rehydrate state;
  Ok (updated, state_set key updated new_state).

Definition _noop_result (state : Obj) : Obj := [("feedback", JNull); ("state", JObj state); ("event", JNull); ("skipped", JBool true)].
Definition handle (now : string) (input_data : Delivery) : result Obj :=
  let state := _resolve_state input_data in
  built ← delivered_event input_data;
  match built with
  | None => Ok (_noop_result state)
  | Some event =>
      '(updated_feedback, new_state) ← accumulate event state now;
      let feedback := feedback_json updated_feedback in
      Ok [("feedback", feedback); ("state", JObj (map (fun kv => (kv.1, feedback_json kv.2)) new_state));
          ("event", JObj [("correlation_id", JStr (fe_correlation_id event)); ("feedback", feedback);
                          ("source_topic", JStr (fe_source_topic event))]);
          ("skipped", JBool false)]
  end.
End handler.
