(* ===== verification/FeedbackProps.v ===== *)
(** * Routing feedback: properties

    The counters after any run of deliveries are those of the events delivered. *)
From S2P Require Import Prelude PyFloat PyJson RoutingFeedback.

#[local] Open Scope nat_scope.

(** ** What a delivery reports

    Read off the documents, not off the handler: a terminal event of a model call
    names what became of the call, of which model, for which task type. *)

Record outcome := { o_model : string; o_task : string; o_success : bool; o_escalation : bool }.
Definition o_key (o : outcome) : string := o_model o +:+ ":" +:+ o_task o.
(** The envelopes around an event, at most [n] of them. *)
Inductive Carries : nat -> json -> json -> Prop :=
  | carries_bare n j : (forall o, j = JObj o -> n <> 0 -> dict_get "payload" o = None) -> Carries n j j
  | carries_payload n o p j : dict_get "payload" o = Some p -> Carries n p j -> Carries (S n) (JObj o) j.
(** The text of a field, empty where there is none. *)
Definition field (k : string) (o : Obj) : string := match dict_get k o with Some (JStr s) => s | _ => "" end.
Definition subject (kind : string) : string := "onex.evt.omnimarket." +:+ kind +:+ ".v1".
Definition kinds : list string := ["delegation-call-completed"; "delegation-escalation-triggered"; "delegation-all-tiers-failed"].
Definition is_subject (topic : string) : bool := str_in topic (map subject kinds).
(** Where the topic of a delivery can be read, the most trusted place first. *)
Definition topics_named (d : Obj * option string) (payload : Obj) : list string :=
  [field "_topic" d.1; field "topic" d.1; match dict_get "__debug_trace" d.1 with Some (JObj trace) => field "topic" trace | _ => "" end;
   (if is_subject (field "event_type" d.1) then field "event_type" d.1 else ""); default "" d.2; field "source_topic" payload].
Definition topic_named (d : Obj * option string) (payload : Obj) : string :=
  default "" (List.find (fun t => negb (String.eqb t "")) (topics_named d payload)).
(** The topic says the kind of the event; on another topic its [event_type] does. *)
Definition OfKind (d : Obj * option string) (payload : Obj) (kind : string) : Prop :=
  topic_named d payload = subject kind \/ is_subject (topic_named d payload) = false /\ dict_get "event_type" payload = Some (JStr kind).
Definition listed_last (payload : Obj) (model : string) : Prop :=
  exists attempted, dict_get "attempted_models" payload = Some (JArr attempted) /\ last attempted = Some (JStr model).

(** A completed call succeeded where it says so; an escalation is one, and no
    success; when every tier failed, the last model attempted failed. *)
Inductive Tells (d : Obj * option string) (payload : Obj) : outcome -> Prop :=
  | tells_completed model task : OfKind d payload "delegation-call-completed" ->
      field "model_id" payload = model -> field "task_type" payload = task -> model <> "" -> task <> "" ->
      Tells d payload {| o_model := model; o_task := task; o_success := default false (truthy <$> dict_get "success" payload); o_escalation := false |}
  | tells_escalation model task : OfKind d payload "delegation-escalation-triggered" ->
      field "model_id" payload = model -> field "task_type" payload = task -> model <> "" -> task <> "" ->
      Tells d payload {| o_model := model; o_task := task; o_success := false; o_escalation := true |}
  | tells_all_failed model task : OfKind d payload "delegation-all-tiers-failed" ->
      field "model_id" payload = model \/ field "model_id" payload = "" /\ listed_last payload model ->
      field "task_type" payload = task -> model <> "" -> task <> "" ->
      Tells d payload {| o_model := model; o_task := task; o_success := false; o_escalation := false |}.
Definition Reports (d : Obj * option string) (o : outcome) : Prop := exists payload, Carries 8 (JObj d.1) (JObj payload) /\ Tells d payload o.
(** What a delivery reports, if it reports anything. *)
Definition Reported (d : Obj * option string) (r : option outcome) : Prop :=
  match r with Some o => Reports d o | None => forall o, ~ Reports d o end.

(** ** The handler reads what is reported *)

Definition outcome_of (e : ModelDelegationFeedbackEvent) : outcome :=
  {| o_model := fe_model_id e; o_task := fe_task_type e; o_success := fe_success e; o_escalation := fe_is_escalation e |}.
Definition plain (d : Obj * option string) : Delivery := {| dv_value := JObj d.1; dv_topic := d.2 |}.

Lemma carries_unwrap n j i : Carries n j i <-> unwrap n j = i.
Proof.
  split.
  - induction 1 as [n j Hbare|n o p j Hp _ IH]; simpl; [|by rewrite Hp].
    destruct n as [|n]; [done|]. simpl. destruct j; try done. simpl. by rewrite (Hbare _ eq_refl).
  - intros <-. revert j. induction n as [|n IH]; intros j; [by apply carries_bare|]. simpl.
    destruct j as [| | | | | |o]; try (by apply carries_bare). simpl. destruct (dict_get "payload" o) as [p|] eqn:Hp.
    + by eapply carries_payload.
    + apply carries_bare. by intros ? [= <-] _.
Qed.
Lemma text_field k o : text_at k o = if String.eqb (field k o) "" then None else Some (field k o).
Proof. unfold text_at, field. by destruct (dict_get k o) as [[]|]. Qed.
Lemma strip_get k o : str_in k _DISPATCH_MARKERS = false -> dict_get k (_strip_markers o) = dict_get k o.
Proof.
  intros Hk. induction o as [|[k' v] o IH]; [done|]. simpl. destruct (str_in k' _DISPATCH_MARKERS) eqn:Hk'; simpl; rewrite IH; [|done].
  by destruct (String.eqb_spec k' k) as [->|]; [congruence|].
Qed.
Lemma strip_field k o : str_in k _DISPATCH_MARKERS = false -> field k (_strip_markers o) = field k o.
Proof. intros Hk. unfold field. by rewrite strip_get. Qed.
Lemma strip_text k o : str_in k _DISPATCH_MARKERS = false -> text_at k (_strip_markers o) = text_at k o.
Proof. intros Hk. by rewrite !text_field, strip_field. Qed.

Lemma subject_type topic : match topic_event_type topic with Some t => topic = subject (feedback_type_value t) | None => is_subject topic = false end.
Proof.
  unfold topic_event_type, is_subject, str_in, _TOPIC_TO_EVENT_TYPE. cbn [List.find existsb map kinds fst].
  rewrite !(String.eqb_sym topic).
  change (subject "delegation-call-completed") with "onex.evt.omnimarket.delegation-call-completed.v1".
  change (subject "delegation-escalation-triggered") with "onex.evt.omnimarket.delegation-escalation-triggered.v1".
  change (subject "delegation-all-tiers-failed") with "onex.evt.omnimarket.delegation-all-tiers-failed.v1".
  repeat (case String.eqb_spec; [by intros <-|intros _]). done.
Qed.
Lemma type_subject t : topic_event_type (subject (feedback_type_value t)) = Some t.
Proof. by destruct t. Qed.
Lemma type_value t : feedback_type_of (feedback_type_value t) = Some t.
Proof. by destruct t. Qed.
Lemma value_type raw t : feedback_type_of raw = Some t -> raw = feedback_type_value t.
Proof. unfold feedback_type_of. intros [_ ->%String.eqb_eq]%List.find_some. done. Qed.

Lemma topic_read d payload : _resolve_source_topic (plain d) (_strip_markers payload) = topic_named d payload.
Proof.
  destruct d as [o topic]. unfold _resolve_source_topic, topic_named, topics_named, mapping_topic, plain.
  cbn [dv_value dv_topic _as_mapping fst snd mbind option_bind]. rewrite strip_text by done. rewrite !text_field.
  assert (match dict_get "event_type" o with
          | Some (JStr event_type) => match topic_event_type event_type with Some _ => Some event_type | None => None end
          | _ => None
          end = let t := if is_subject (field "event_type" o) then field "event_type" o else "" in if String.eqb t "" then None else Some t) as ->.
  { unfold field. destruct (dict_get "event_type" o) as [[| | | |t| |]|]; try done. pose proof (subject_type t) as Ht.
    destruct (topic_event_type t) as [[]|]; [by subst..|]. by rewrite Ht. }
  assert (match topic with Some t => if String.eqb t "" then None else Some t | None => None end
          = if String.eqb (default "" topic) "" then None else Some (default "" topic)) as -> by by destruct topic.
  assert (match dict_get "__debug_trace" o with Some (JObj debug_trace) => text_at "topic" debug_trace | _ => None end
          = let t := match dict_get "__debug_trace" o with Some (JObj trace) => field "topic" trace | _ => "" end in if String.eqb t "" then None else Some t) as ->.
  { destruct (dict_get "__debug_trace" o) as [[]|]; try done. apply text_field. }
  cbv zeta. cbn [List.find].
  repeat (match goal with |- context [String.eqb ?x ""] => destruct (String.eqb x "") eqn:?; cbn [first_of negb default] end; try done).
Qed.
Lemma kind_read d payload t : _resolve_event_type (_strip_markers payload) (topic_named d payload) = Some t <-> OfKind d payload (feedback_type_value t).
Proof.
  unfold _resolve_event_type, OfKind. rewrite strip_get by done. pose proof (subject_type (topic_named d payload)) as Ht.
  destruct (topic_event_type (topic_named d payload)) as [t'|] eqn:Htype.
  - split; [intros [= <-]; by left|]. intros [Heq|[Hno _]].
    + by rewrite Heq, type_subject in Htype.
    + rewrite Ht in Hno. by destruct t'.
  - split.
    + destruct (dict_get "event_type" payload) as [[]|]; try done. intros ->%value_type. by right.
    + intros [Heq|[_ ->]]; [by rewrite Heq, type_subject in Htype|]. apply type_value.
Qed.

Lemma model_read payload t : let model := _resolve_model_id (_strip_markers payload) t in model <> "" ->
  forall model', (field "model_id" payload = model' \/ t = ALL_TIERS_FAILED /\ field "model_id" payload = "" /\ listed_last payload model') /\ model' <> "" <-> model' = model.
Proof.
  unfold _resolve_model_id, listed_last. rewrite strip_text by done. rewrite text_field, strip_get by done.
  destruct (String.eqb_spec (field "model_id" payload) "") as [He|He]; cbv zeta; intros Hm model'.
  - destruct (decide (t = ALL_TIERS_FAILED)) as [->|]; [|done].
    destruct (dict_get "attempted_models" payload) as [[| | | | |l|]|]; try done. destruct (last l) as [[| | | |m| |]|] eqn:Hl; try done. split.
    + intros [[<-|(_ & _ & l' & [= <-] & Hl')] Hne]; [done|]. by simplify_eq.
    + intros ->. split; [|done]. right. split; [done|]. split; [done|]. by exists l.
  - split; [intros [[<-|(_ & He' & _)] _]; done|]. intros ->. by split; [left|].
Qed.
Lemma model_unread payload t model : _resolve_model_id (_strip_markers payload) t = "" ->
  field "model_id" payload = model \/ t = ALL_TIERS_FAILED /\ field "model_id" payload = "" /\ listed_last payload model -> model = "".
Proof.
  unfold _resolve_model_id, listed_last. rewrite strip_text by done. rewrite text_field, strip_get by done.
  destruct (String.eqb_spec (field "model_id" payload) "") as [He|He]; [|done]. intros Hm [<-|(-> & _ & l & Hl & Hlast)]; [done|].
  rewrite Hl, Hlast in Hm. done.
Qed.
(** The outcome of an event of a kind. *)
Definition says_of (payload : Obj) (t : EnumDelegationFeedbackEventType) (model task : string) : outcome :=
  {| o_model := model; o_task := task;
     o_success := match t with COMPLETED => default false (truthy <$> dict_get "success" payload) | _ => false end;
     o_escalation := match t with ESCALATION_TRIGGERED => true | _ => false end |}.
Lemma tells_iff d payload o : Tells d payload o <-> exists t, OfKind d payload (feedback_type_value t) /\ o = says_of payload t (o_model o) (o_task o)
  /\ ((field "model_id" payload = o_model o \/ t = ALL_TIERS_FAILED /\ field "model_id" payload = "" /\ listed_last payload (o_model o)) /\ o_model o <> "")
  /\ field "task_type" payload = o_task o /\ o_task o <> "".
Proof.
  split.
  - destruct 1 as [model task|model task|model task ? [|[]]]; [exists COMPLETED|exists ESCALATION_TRIGGERED|exists ALL_TIERS_FAILED..]; naive_solver.
  - intros (t & Hk & -> & Hm & Ht & Hne). destruct t; cbn in *.
    + apply tells_completed; naive_solver.
    + apply tells_escalation; naive_solver.
    + apply tells_all_failed; naive_solver.
Qed.
Lemma event_reported d payload r : _build_feedback_event (_strip_markers payload) (topic_named d payload) = Ok r ->
  match r with Some e => Tells d payload (outcome_of e) | None => forall o, ~ Tells d payload o end.
Proof.
  unfold _build_feedback_event. destruct (negb (truthy (_strip_markers payload))) eqn:Hempty.
  { intros [= <-] o (t & _ & _ & _ & Ht & Hne)%tells_iff. apply Hne. rewrite <- Ht, <- (strip_field "task_type") by done.
    by destruct (_strip_markers payload). }
  rewrite strip_text by done. rewrite text_field. destruct (_resolve_event_type _ _) as [t|] eqn:Hkind.
  2: { intros [= <-] o (t & Hk%kind_read & _)%tells_iff. congruence. }
  destruct (String.eqb_spec (field "task_type" payload) "") as [He|He].
  { intros [= <-] o (t' & _ & _ & _ & Ht & Hne)%tells_iff. congruence. }
  destruct (String.eqb_spec (_resolve_model_id (_strip_markers payload) t) "") as [Hm|Hm].
  { intros [= <-] o (t' & Hk & _ & (Hmodel & Hne) & _)%tells_iff. apply Hne. apply kind_read in Hk. assert (t' = t) as -> by congruence.
    by apply (model_unread payload t). }
  intros ([[success is_escalation] latency] & Hs & [= <-])%result_bind_Ok. apply tells_iff. exists t. apply kind_read in Hkind.
  split; [done|]. split; [|split; [by apply model_read|done]].
  cbv [outcome_of says_of]; cbn. f_equal; destruct t; cbn in Hs.
  all: try (apply result_bind_Ok in Hs as (? & _ & Hs)); injection Hs as <- <- <-; try done.
  rewrite strip_get by done. by destruct (dict_get "success" payload).
Qed.
(** The handler takes up what a delivery reports, and nothing else. *)
Lemma delivered_reported d r : delivered_event (plain d) = Ok r -> Reported d (outcome_of <$> r).
Proof.
  unfold delivered_event. cbn [dv_value plain]. destruct (_as_mapping _) as [payload|] eqn:Hmap.
  - assert (Carries 8 (JObj d.1) (JObj payload)) as Hc.
    { apply carries_unwrap. unfold _unwrap_envelope in Hmap. destruct (unwrap 8 (JObj d.1)); try done. by injection Hmap as ->. }
    change {| dv_value := JObj d.1; dv_topic := d.2 |} with (plain d). rewrite topic_read. intros Hr%event_reported.
    destruct r as [e|]; [by exists payload|]. intros o (payload' & Hc' & Ht). apply carries_unwrap in Hc, Hc'. rewrite Hc in Hc'.
    injection Hc' as <-. by apply (Hr o).
  - intros [= <-] o (payload' & Hc & _). apply carries_unwrap in Hc. unfold _unwrap_envelope in Hmap. by rewrite Hc in Hmap.
Qed.

(** ** Threading the state *)

Section feedback.
Context (feedback_of_json : json -> result ModelRoutingFeedback).

(** The runtime hands the handler a dict and the state it returned before. *)
Definition with_state (state : Obj) (d : Obj * option string) : Delivery :=
  {| dv_value := JObj (dict_set "_state" (JObj state) d.1); dv_topic := d.2 |}.
Fixpoint feed (deliveries : list (string * (Obj * option string))) (state : Obj) : result Obj :=
  match deliveries with
  | [] => Ok state
  | (now, d) :: deliveries =>
      answer ← handle feedback_of_json now (with_state state d);
      feed deliveries (match dict_get "state" answer with Some (JObj state') => state' | _ => [] end)
  end.
Definition event_in (d : Obj * option string) : option ModelDelegationFeedbackEvent :=
  match delivered_event (plain d) with Ok e => e | Raise _ => None end.

Lemma strip_state v o : _strip_markers (dict_set "_state" v o) = _strip_markers o.
Proof.
  induction o as [|[k w] o IH]; [done|]. simpl. destruct (String.eqb_spec k "_state") as [->|Hne]; [done|]. simpl. by rewrite IH.
Qed.
(** The state rides along without touching the event. *)
Lemma delivered_with_state state d : delivered_event (with_state state d) = delivered_event (plain d).
Proof.
  destruct d as [o topic]. unfold delivered_event, with_state, plain, _unwrap_envelope, _resolve_source_topic, mapping_topic, text_at.
  cbn [dv_value dv_topic unwrap _as_mapping fst snd mbind option_bind].
  rewrite !(dict_get_set "_state"). cbn [String.eqb Ascii.eqb Bool.eqb].
  destruct (dict_get "payload" o) as [payload|]; [done|]. cbn [_as_mapping]. by rewrite strip_state.
Qed.
Lemma state_rides_along state d : _resolve_state (with_state state d) = state.
Proof. unfold _resolve_state, with_state. cbn [dv_value _as_mapping]. by rewrite dict_get_set. Qed.

(** ** Rows *)

Definition rows (state : FeedbackState) : Obj := map (fun kv => (kv.1, feedback_json kv.2)) state.
Lemma rows_get k state : dict_get k (rows state) = feedback_json <$> state_get k state.
Proof. induction state as [|[k' f] state IH]; [done|]. simpl. by destruct (String.eqb k' k). Qed.
Lemma state_get_set k f k' state : state_get k' (state_set k f state) = if String.eqb k k' then Some f else state_get k' state.
Proof.
  induction state as [|[k2 v] state IH]; simpl; [done|]. destruct (String.eqb_spec k2 k) as [->|Hne]; simpl; [by destruct (String.eqb k k')|].
  rewrite IH. destruct (String.eqb_spec k2 k') as [->|]; [|done]. by destruct (String.eqb_spec k k') as [->|].
Qed.

(** What a row counts, and of what. *)
Record SameCounts (f g : ModelRoutingFeedback) : Prop := {
  sc_model : rf_model_id f = rf_model_id g;
  sc_task : rf_task_type f = rf_task_type g;
  sc_total : rf_total_count f = rf_total_count g;
  sc_success : rf_success_count f = rf_success_count g;
  sc_failure : rf_failure_count f = rf_failure_count g;
  sc_escalation : rf_escalation_count f = rf_escalation_count g
}.
(** Reading a dumped row keeps its texts and integers. *)
Context (reads_back : forall f, exists g, feedback_of_json (feedback_json f) = Ok g /\ SameCounts f g).
Lemma rehydrate_rows state : exists state', rehydrate feedback_of_json (rows state) = Ok state'
  /\ forall k, option_Forall2 SameCounts (state_get k state) (state_get k state').
Proof using reads_back.
  induction state as [|[k f] state (state' & IH & Hs)]; simpl; [exists []; split; [done|constructor]|].
  destruct (reads_back f) as (g & Hg & Hfg). exists ((k, g) :: state'). rewrite Hg, IH. split; [done|]. intros k'. simpl.
  destruct (String.eqb k k'); [by constructor|apply Hs].
Qed.

(** ** The counters *)

Definition outcomes_at (k : string) (outcomes : list outcome) : list outcome := List.filter (fun o => String.eqb (o_key o) k) outcomes.
Definition number (p : outcome -> bool) (l : list outcome) : Z := Z.of_nat (length (List.filter p l)).
(** A row counts the outcomes. *)
Record Counts (f : ModelRoutingFeedback) (outcomes : list outcome) : Prop := {
  ct_total : rf_total_count f = Z.of_nat (length outcomes);
  ct_success : rf_success_count f = number o_success outcomes;
  ct_failure : rf_failure_count f = number (fun o => negb (o_success o)) outcomes;
  ct_escalation : rf_escalation_count f = number o_escalation outcomes
}.
(** Its rates: the share of the successes and that of the escalations. *)
Record Rates (f : ModelRoutingFeedback) (outcomes : list outcome) : Prop := {
  rt_success : fdiv (float_of_Z (number o_success outcomes)) (float_of_Z (Z.of_nat (length outcomes))) = Ok (rf_success_rate f);
  rt_escalation : fdiv (float_of_Z (number o_escalation outcomes)) (float_of_Z (Z.of_nat (length outcomes))) = Ok (rf_escalation_rate f)
}.
Lemma same_counts f g (events : list outcome) : SameCounts f g -> Counts f events -> Counts g events.
Proof. intros [] []. split; congruence. Qed.
Definition counted (state : FeedbackState) (outcomes : list outcome) : Prop :=
  forall k, match state_get k state with Some f => Counts f (outcomes_at k outcomes) | None => outcomes_at k outcomes = [] end.

Lemma number_snoc p l e : number p (l ++ [e]) = (number p l + if p e then 1 else 0)%Z.
Proof. unfold number. rewrite List.filter_app, length_app. simpl. destruct (p e); simpl; lia. Qed.
Lemma add_event_counts e f now f' outcomes : Counts f outcomes -> add_event e f now = Ok f' ->
  Counts f' (outcomes ++ [outcome_of e]) /\ Rates f' (outcomes ++ [outcome_of e]).
Proof.
  intros [Ht Hs Hf He]. unfold add_event. intros (avg & _ & ([sr er] & Hr & [= <-])%result_bind_Ok)%result_bind_Ok.
  unfold _compute_rates in Hr. rewrite Ht, Hs, He in Hr. destruct (Z.eqb_spec (Z.of_nat (length outcomes) + 1) 0); [lia|].
  apply result_bind_Ok in Hr as (sr' & Hsr & (er' & Her & [= -> ->])%result_bind_Ok).
  assert (Z.of_nat (length (outcomes ++ [outcome_of e])) = Z.of_nat (length outcomes) + 1)%Z as Hlen by (rewrite length_app; simpl; lia).
  split; split; cbn; rewrite ?number_snoc, ?Hlen, ?Ht, ?Hs, ?Hf, ?He; try done. cbn. by destruct (fe_success e).
Qed.
Lemma fresh_counts e now : Counts (fresh_feedback e now) [].
Proof. by split. Qed.

Lemma event_in_reported d r : delivered_event (plain d) = Ok r -> event_in d = r /\ Reported d (outcome_of <$> event_in d).
Proof. intros Hr. unfold event_in. rewrite Hr. split; [done|]. by apply delivered_reported. Qed.
Lemma handle_counted now d state outcomes answer : counted state outcomes -> handle feedback_of_json now (with_state (rows state) d) = Ok answer ->
  Reported d (outcome_of <$> event_in d) /\
  match event_in d with
  | None => answer = _noop_result (rows state)
  | Some e => exists f state', dict_get "feedback" answer = Some (feedback_json f) /\ dict_get "state" answer = Some (JObj (rows state'))
      /\ Counts f (outcomes_at (o_key (outcome_of e)) outcomes ++ [outcome_of e]) /\ Rates f (outcomes_at (o_key (outcome_of e)) outcomes ++ [outcome_of e])
      /\ counted state' (outcomes ++ [outcome_of e])
  end.
Proof using reads_back.
  intros Hc. unfold handle. rewrite delivered_with_state, state_rides_along. intros (e & He & Ha)%result_bind_Ok.
  destruct (event_in_reported d e He) as [Hev Hrep]. rewrite Hev in Hrep |- *. split; [done|]. destruct e as [e|]; [|by injection Ha as <-].
  apply result_bind_Ok in Ha as ([f state'] & Hacc & [= <-]).
  unfold accumulate in Hacc. change (_feedback_key (fe_model_id e) (fe_task_type e)) with (o_key (outcome_of e)) in Hacc.
  set (k := o_key (outcome_of e)) in *. rewrite rows_get in Hacc.
  apply result_bind_Ok in Hacc as (existing & Hex & (f' & Hadd & Hacc)%result_bind_Ok).
  destruct (rehydrate_rows state) as (read & Hread & Hsame). rewrite Hread in Hacc. injection Hacc as -> <-.
  assert (Counts existing (outcomes_at k outcomes)) as Hcount.
  { specialize (Hc k). destruct (state_get k state) as [f0|]; simpl in Hex.
    - destruct (reads_back f0) as (g & Hg & Hfg). rewrite Hg in Hex. injection Hex as <-. by eapply same_counts.
    - injection Hex as <-. rewrite Hc. apply fresh_counts. }
  destruct (add_event_counts _ _ _ _ _ Hcount Hadd) as [Hf Hrates]. exists f, (state_set k f read).
  split; [done|]. split; [done|]. split; [done|]. split; [done|].
  intros k'. rewrite state_get_set. unfold outcomes_at. rewrite List.filter_app. simpl. fold k. destruct (String.eqb_spec k k') as [<-|Hne]; [done|].
  rewrite app_nil_r. specialize (Hc k'). specialize (Hsame k'). destruct Hsame as [f1 f2 Hff|]; [|done]. by eapply same_counts.
Qed.
Lemma feed_counted deliveries state outcomes state' : counted state outcomes -> feed deliveries (rows state) = Ok state' ->
  exists reports s, Forall2 (fun d r => Reported d.2 r) deliveries reports /\ state' = rows s /\ counted s (outcomes ++ omap id reports).
Proof using reads_back.
  revert state outcomes. induction deliveries as [|[now d] deliveries IH]; intros state outcomes Hc; simpl.
  - intros [= <-]. exists [], state. by rewrite app_nil_r.
  - intros (answer & Ha & Hf)%result_bind_Ok. destruct (handle_counted now d state outcomes answer Hc Ha) as [Hrep Hd].
    destruct (event_in d) as [e|].
    + destruct Hd as (f & s & _ & Hs & _ & _ & Hcs). rewrite Hs in Hf. destruct (IH s _ Hcs Hf) as (reports & s' & Hreps & -> & Hc').
      exists (Some (outcome_of e) :: reports), s'. rewrite <- app_assoc in Hc'. split; [by constructor|done].
    + rewrite Hd in Hf. destruct (IH state outcomes Hc Hf) as (reports & s' & Hreps & -> & Hc'). exists (None :: reports), s'. split; [by constructor|done].
Qed.
End feedback.

(** C40. The feedback state counts what the events report.  After any run of
    deliveries, each with the state the one before returned, every delivery so far
    reported an outcome or nothing, and the next one, where it reports something, is
    answered with a row that counts the outcomes of its model and task key with it:
    their number, the successes, the others and the escalations, and as rates the
    successes and the escalations over the number.  A completed call is a success
    where its event says so, an escalation is an escalation and no success, and when
    all tiers failed the last model attempted has failed.  A delivery that reports
    nothing is answered with the state as it was. *)
Theorem feedback_counts_events feedback_of_json deliveries state now d answer :
  (forall f, exists g, feedback_of_json (feedback_json f) = Ok g /\ SameCounts f g) ->
  feed feedback_of_json deliveries [] = Ok state -> handle feedback_of_json now (with_state state d) = Ok answer ->
  exists reports, Forall2 (fun d r => Reported d.2 r) deliveries reports /\
    ((forall o, ~ Reports d o) /\ answer = _noop_result state
     \/ exists o f, Reports d o /\ dict_get "feedback" answer = Some (feedback_json f)
         /\ Counts f (outcomes_at (o_key o) (omap id reports) ++ [o]) /\ Rates f (outcomes_at (o_key o) (omap id reports) ++ [o])).
Proof.
  intros Hread Hf Ha. destruct (feed_counted feedback_of_json Hread deliveries [] [] state) as (reports & s & Hreps & -> & Hc); [by intros ?|exact Hf|].
  exists reports. split; [done|]. destruct (handle_counted feedback_of_json Hread now d s _ answer Hc Ha) as [Hrep Hd].
  destruct (event_in d) as [e|]; [|by left]. right. destruct Hd as (f & state' & ? & _ & ? & ? & _). by exists (outcome_of e), f.
Qed.

(** ** On a deployment *)

(** A reader of rows: every field of the model, nothing else. *)
Definition read_row (j : json) : result ModelRoutingFeedback :=
  match j with
  | JObj [("model_id", JStr m); ("task_type", JStr t); ("success_count", JInt s); ("failure_count", JInt f); ("escalation_count", JInt e);
          ("total_count", JInt n); ("success_rate", JFloat sr); ("escalation_rate", JFloat er); ("avg_latency_ms", JFloat l);
          ("window_start", JStr w); ("last_updated", JStr u)] =>
      Ok {| rf_model_id := m; rf_task_type := t; rf_success_count := s; rf_failure_count := f; rf_escalation_count := e; rf_total_count := n;
            rf_success_rate := lit sr; rf_escalation_rate := lit er; rf_avg_latency_ms := lit l; rf_window_start := w; rf_last_updated := u |}
  | _ => Raise (OtherError "ValidationError" "ModelRoutingFeedback")
  end.
Definition completed (model task : string) (success : bool) (latency : Z) : Obj * option string :=
  ([("_topic", JStr "onex.evt.omnimarket.delegation-call-completed.v1");
    ("payload", JObj [("model_id", JStr model); ("task_type", JStr task); ("success", JBool success); ("latency_ms", JInt latency)])], None).
Definition tiers_failed (models : list string) (task : string) : Obj * option string :=
  ([("event_type", JStr "delegation-all-tiers-failed"); ("attempted_models", JArr (map JStr models)); ("task_type", JStr task)], None).
Definition fed (deliveries : list (Obj * option string)) : result Obj := feed read_row (map (fun d => ("t", d)) deliveries) [].
(** The total, the successes, the failures and the average of a row. *)
Definition row_summary (o : Obj) : list (string * list (option json)) :=
  map (fun kv => (kv.1, match kv.2 with
                        | JObj row => map (fun k => dict_get k row) ["total_count"; "success_count"; "failure_count"; "avg_latency_ms"]
                        | _ => []
                        end)) o.

(** The average weighs a call without a latency like one at the average so far:
    100 ms, a failure, 200 ms make 133 ms and not 150. *)
Example average_drifts :
  (row_summary <$> fed [completed "qwen" "test" true 100; tiers_failed ["glm"; "qwen"] "test"; completed "qwen" "test" true 200]) =
  Ok [("qwen:test", [Some (JInt 3); Some (JInt 2); Some (JInt 1); Some (JFloat "133.33333333333334")])].
Proof. vm_compute. reflexivity. Qed.
(** Two models can share a key. *)
Example keys_collide :
  (row_summary <$> fed [completed "qwen:7b" "test" true 100; completed "qwen" "7b:test" false 0]) =
  Ok [("qwen:7b:test", [Some (JInt 2); Some (JInt 1); Some (JInt 1); Some (JFloat "100.0")])].
Proof. vm_compute. reflexivity. Qed.

Lemma feedback_counts_events_witness : exists state answer,
  let deliveries := [("t1", completed "qwen" "test" true 100); ("t2", tiers_failed ["glm"; "qwen"] "test")] in
  let d := completed "qwen" "test" false 80 in
  feed read_row deliveries [] = Ok state /\ handle read_row "t3" (with_state state d) = Ok answer
  /\ exists reports, Forall2 (fun d r => Reported d.2 r) deliveries reports /\
    ((forall o, ~ Reports d o) /\ answer = _noop_result state
     \/ exists o f, Reports d o /\ dict_get "feedback" answer = Some (feedback_json f)
         /\ Counts f (outcomes_at (o_key o) (omap id reports) ++ [o]) /\ Rates f (outcomes_at (o_key o) (omap id reports) ++ [o])).
Proof.
  eexists _, _. cbv zeta. split; [vm_compute; reflexivity|]. split; [vm_compute; reflexivity|].
  eapply (feedback_counts_events read_row [("t1", completed "qwen" "test" true 100); ("t2", tiers_failed ["glm"; "qwen"] "test")] _ "t3"
            (completed "qwen" "test" false 80)); [|vm_compute; reflexivity|vm_compute; reflexivity].
  intros f. eexists. split; [reflexivity|]. by split.
Defined.
