(* ===== verification/SwarmPlan.v ===== *)
(** * Swarm dispatch: endpoints and subtasks

    What happens to a task before it is fanned out: the health of the endpoints
    ([node_swarm_endpoint_health_effect]), the decomposition of the task into
    subtasks with dependencies ([node_swarm_decomposer_compute]) and the choice
    of an endpoint for each ([node_swarm_registry_compute]).  The parsed registry
    file, HTTP and the clock are arguments. *)
From S2P Require Import Prelude PyFloat PyJson PyHash PyDyn LogMonad.

(** [raw.get("endpoints", [])] of the parsed registry file, each entry a
    [get]-able value. *)
Definition registry_entries (raw : json) : result (list json) :=
  entries ← py_get_or "endpoints" (JArr []) raw; py_iter entries.
(** [str(ep_data.get(k, d))] *)
Definition text_of (k d : string) (ep_data : json) : result string :=
  v ← py_get_or k (JStr d) ep_data; Ok (json_str v).

Definition RecursionError : py_exn := OtherError "RecursionError" "maximum recursion depth exceeded".

(** ** Health of the endpoints *)

Module Health.
Inductive EnumEndpointStatus : Type := REACHABLE | UNREACHABLE | TIMEOUT | AUTH_FAILED | UNKNOWN.
#[export] Instance EnumEndpointStatus_eq_dec : EqDecision EnumEndpointStatus.
Proof. solve_decision. Defined.
Definition status_value (s : EnumEndpointStatus) : string :=
  match s with
  | REACHABLE => "reachable" | UNREACHABLE => "unreachable" | TIMEOUT => "timeout"
  | AUTH_FAILED => "auth_failed" | UNKNOWN => "unknown"
  end.
Inductive EnumModelStatus : Type := MODEL_AVAILABLE | MODEL_UNAVAILABLE | MODEL_UNKNOWN.
Definition model_status_value (s : EnumModelStatus) : string :=
  match s with MODEL_AVAILABLE => "available" | MODEL_UNAVAILABLE => "unavailable" | MODEL_UNKNOWN => "unknown" end.

Record ModelSwarmEndpoint := {
  he_id : string; he_base_url : string; he_health_check_path : string; he_model_id : string; he_provider : string
}.
Record ModelSwarmHealthCheckRequest := {
  hr_endpoints : list ModelSwarmEndpoint; hr_endpoint_ids : list string; hr_correlation_id : string; hr_run_id : string
}.
Record EndpointHealth := {
  eh_endpoint_id : string; eh_endpoint_status : EnumEndpointStatus; eh_model_status : EnumModelStatus;
  eh_latency_ms : option Z; eh_error : option string; eh_checked_at : string
}.
Record ModelSwarmHealthCheckResult := {
  hc_endpoint_health : list (string * EndpointHealth); hc_checked_at : string; hc_run_id : string
}.

(** [model_dump()] *)
Definition health_json (h : EndpointHealth) : json := JObj [
  ("endpoint_id", JStr (eh_endpoint_id h)); ("endpoint_status", JStr (status_value (eh_endpoint_status h)));
  ("model_status", JStr (model_status_value (eh_model_status h)));
  ("latency_ms", from_option JInt JNull (eh_latency_ms h)); ("error", from_option JStr JNull (eh_error h));
  ("checked_at", JStr (eh_checked_at h))].
Definition health_result_json (r : ModelSwarmHealthCheckResult) : Obj := [
  ("endpoint_health", JObj (map (fun kv => (kv.1, health_json kv.2)) (hc_endpoint_health r)));
  ("checked_at", JStr (hc_checked_at r)); ("run_id", JStr (hc_run_id r))].

(** One entry of the registry; an entry without an id is passed over. *)
Definition load_entry (endpoints : list (string * ModelSwarmEndpoint)) (ep_data : json)
  : result (list (string * ModelSwarmEndpoint)) :=
  ep_id ← text_of "id" EmptyString ep_data;
  if negb (truthy ep_id) then Ok endpoints
  else
    base_url ← text_of "base_url" EmptyString ep_data;
    path ← text_of "health_check_path" "/health" ep_data;
    model_id ← text_of "model_id" EmptyString ep_data;
    provider ← text_of "provider" EmptyString ep_data;
    Ok (dict_set ep_id {| he_id := ep_id; he_base_url := base_url; he_health_check_path := path;
                          he_model_id := model_id; he_provider := provider |} endpoints).
Fixpoint load_entries {A} (f : A -> json -> result A) (acc : A) (l : list json) : result A :=
  match l with [] => Ok acc | x :: l' => acc' ← f acc x; load_entries f acc' l' end.
(** [registry] is the parsed file, or the exception of reading it. *)
Definition _load_endpoint_registry (registry : result json) : list (string * ModelSwarmEndpoint) :=
  match raw ← registry; entries ← registry_entries raw; load_entries load_entry [] entries with
  | Ok endpoints => endpoints
  | Raise _ => []
  end.

(** How one HTTP request ends. *)
Inductive http_outcome : Type :=
  | HttpDone (status_code : Z) (body : string) | HttpTimedOut (msg : string) | HttpBroke (msg : string).

(** What is asked of the outside; the answer to each question depends on the
    ones before it. *)
Inductive HealthIo : Type := ClockRead | NowRead | Got (url : string).

(** [s.rstrip("/")] *)
Fixpoint drop_slashes (l : list ascii) : list ascii :=
  match l with c :: l' => if Ascii.eqb c "/" then drop_slashes l' else l | [] => [] end.
Definition rstrip_slash (s : string) : string :=
  String.string_of_list_ascii (rev (drop_slashes (rev (String.list_ascii_of_string s)))).

Section health.
Context (registry : result json) (w_get : list HealthIo -> string -> http_outcome).
Context (w_clock : list HealthIo -> float) (w_now : list HealthIo -> datetime).
Abbreviation Act := (M unit HealthIo).

Definition _resolve_endpoints (request : ModelSwarmHealthCheckRequest) : list ModelSwarmEndpoint :=
  if truthy (hr_endpoints request) then hr_endpoints request
  else if negb (truthy (hr_endpoint_ids request)) then []
  else omap (fun ep_id => dict_get ep_id (_load_endpoint_registry registry)) (hr_endpoint_ids request).

Definition http_get (url : string) : Act http_outcome := call (Got url) (fun l => Ok (w_get l url)).
(** [time.monotonic()], [datetime.now(UTC)] *)
Definition monotonic : Act float := call ClockRead (fun l => Ok (w_clock l)).
Definition utc_now : Act datetime := call NowRead (fun l => Ok (w_now l)).
Definition elapsed_ms (t0 : float) : Act Z :=
  now ← monotonic; lift (py_trunc (fmul (fsub now t0) (float_of_Z 1000))).

Definition _check_health (url : string) (t0 : float) : Act (EnumEndpointStatus * option string * Z) :=
  outcome ← http_get url;
  latency_ms ← elapsed_ms t0;
  mret (match outcome with
        | HttpDone code _ =>
            if (200 <=? code)%Z && (code <? 300)%Z then (REACHABLE, None, latency_ms)
            else if (code =? 401)%Z || (code =? 403)%Z then (AUTH_FAILED, Some ("HTTP " +:+ pretty code), latency_ms)
            else (UNREACHABLE, Some ("HTTP " +:+ pretty code), latency_ms)
        | HttpTimedOut msg => (TIMEOUT, Some msg, latency_ms)
        | HttpBroke msg => (UNREACHABLE, Some msg, latency_ms)
        end).

(** The ids a models endpoint lists. *)
Definition listed_ids (body : string) : result (list string) :=
  data ← json_loads body;
  models ← py_get_or "data" (JArr []) data;
  models ← py_iter models;
  map_result (text_of "id" EmptyString) models.
Definition _check_model (url model_id : string) : Act EnumModelStatus :=
  outcome ← http_get url;
  mret (match outcome with
        | HttpDone code body =>
            if (code <? 200)%Z || (300 <=? code)%Z then MODEL_UNKNOWN
            else match listed_ids body with
                 | Ok ids => if str_in model_id ids then MODEL_AVAILABLE else MODEL_UNAVAILABLE
                 | Raise _ => MODEL_UNKNOWN
                 end
        | _ => MODEL_UNKNOWN
        end).

Definition _probe_endpoint (endpoint : ModelSwarmEndpoint) : Act EndpointHealth :=
  checked_at ← utc_now;
  let base := rstrip_slash (he_base_url endpoint) in
  t0 ← monotonic;
  h ← _check_health (base +:+ he_health_check_path endpoint) t0;
  model_status ← (if decide (h.1.1 = REACHABLE) then _check_model (base +:+ "/v1/models") (he_model_id endpoint)
                  else mret MODEL_UNKNOWN);
  mret {| eh_endpoint_id := he_id endpoint; eh_endpoint_status := h.1.1; eh_model_status := model_status;
          eh_latency_ms := Some h.2; eh_error := h.1.2; eh_checked_at := isoformat checked_at |}.

Definition check_endpoints (request : ModelSwarmHealthCheckRequest) : Act ModelSwarmHealthCheckResult :=
  now ← utc_now;
  results ← fold_each (_resolve_endpoints request) []
              (fun results endpoint => health ← _probe_endpoint endpoint; mret (dict_set (he_id endpoint) health results));
  mret {| hc_endpoint_health := results; hc_checked_at := isoformat now; hc_run_id := hr_run_id request |}.
End health.
End Health.

(** ** Decomposition *)

Module Decomposer.
Inductive EnumSubtaskCategory : Type := CODE | REASONING | SYNTHESIS | ANALYSIS | PLANNING | GENERAL.
Definition category_value (c : EnumSubtaskCategory) : string :=
  match c with
  | CODE => "code" | REASONING => "reasoning" | SYNTHESIS => "synthesis" | ANALYSIS => "analysis"
  | PLANNING => "planning" | GENERAL => "general"
  end.
(** [EnumSubtaskCategory(raw)], or GENERAL for any other text. *)
Definition category_of (raw : string) : EnumSubtaskCategory :=
  default GENERAL (List.find (fun c => String.eqb (category_value c) raw)
                     [CODE; REASONING; SYNTHESIS; ANALYSIS; PLANNING; GENERAL]).
Inductive EnumDecompositionStatus : Type :=
  | SUCCEEDED | FAILED_FALLBACK_PASSTHROUGH | PASSTHROUGH_TOKEN_THRESHOLD | PASSTHROUGH_CALLER_DISABLED.
#[export] Instance EnumDecompositionStatus_eq_dec : EqDecision EnumDecompositionStatus.
Proof. solve_decision. Defined.
Definition decomposition_status_value (s : EnumDecompositionStatus) : string :=
  match s with
  | SUCCEEDED => "succeeded" | FAILED_FALLBACK_PASSTHROUGH => "failed_fallback_passthrough"
  | PASSTHROUGH_TOKEN_THRESHOLD => "passthrough_token_threshold"
  | PASSTHROUGH_CALLER_DISABLED => "passthrough_caller_disabled"
  end.

Record ModelSubtask := {
  ds_subtask_id : string; ds_description : string; ds_model_affinity : string; ds_depends_on : list string;
  ds_estimated_tokens : Z; ds_token_estimation_method : string; ds_category : EnumSubtaskCategory
}.
Record ModelDecomposition := {
  dc_original_task : string; dc_original_task_hash : string; dc_subtasks : list ModelSubtask;
  dc_decomposition_model : string; dc_decomposition_endpoint_id : string; dc_decomposition_latency_ms : Z;
  dc_decomposition_status : EnumDecompositionStatus; dc_decomposition_run_id : string; dc_correlation_id : string;
  dc_warnings : list string
}.
Record ModelSwarmDecomposeRequest := {
  dq_planner_output : string; dq_planner_model_id : string; dq_planner_output_hash : string;
  dq_endpoint_ids : list string; dq_original_task : string; dq_correlation_id : string; dq_run_id : string;
  dq_decompose : bool; dq_token_threshold : Z; dq_context_window_limit : Z; dq_max_subtasks : Z
}.
Record ModelSwarmDecomposeResult := {
  dr_decomposition : ModelDecomposition; dr_status : EnumDecompositionStatus; dr_warnings : list string; dr_run_id : string
}.

(** [s[:16]] *)
Definition first16 (s : string) : string := String.substring 0 16 s.
Definition make_subtask_id (original_task_hash : string) (subtask_index : nat) (description : string) : string :=
  first16 (sha256_hex (original_task_hash +:+ pretty subtask_index +:+ sha256_hex description)).
Definition _task_hash (task : string) : string := first16 (sha256_hex task).

Definition _passthrough_subtask (task task_hash : string) : ModelSubtask :=
  {| ds_subtask_id := make_subtask_id task_hash 0 task; ds_description := task; ds_model_affinity := EmptyString;
     ds_depends_on := []; ds_estimated_tokens := 0; ds_token_estimation_method := "char_ratio"; ds_category := GENERAL |}.

(** One entry of [depends_on]: an index into the subtasks becomes its id, an
    index out of range is left out, what is no number stays as text. *)
Definition resolve_dep (subtask_ids : list string) (d : json) : result (option string) :=
  match json_int d with
  | Ok dep_idx => Ok (if (0 <=? dep_idx)%Z then subtask_ids !! Z.to_nat dep_idx else None)
  | Raise (ValueError _) | Raise (TypeError _) => Ok (Some (json_str d))
  | Raise e => Raise e
  end.
Definition parse_entry (endpoint_ids subtask_ids : list string) (idx : nat) (entry : json) : result ModelSubtask :=
  description ← text_of "description" EmptyString entry;
  affinity ← text_of "model_affinity" EmptyString entry;
  raw_depends ← py_get_or "depends_on" (JArr []) entry;
  depends_on ← (match raw_depends with JArr l => omap_result (resolve_dep subtask_ids) l | _ => Ok [] end);
  tokens ← py_get_or "estimated_tokens" (JInt 0) entry;
  tokens ← json_int tokens;
  method ← text_of "token_estimation_method" "char_ratio" entry;
  category ← text_of "category" "general" entry;
  Ok {| ds_subtask_id := default EmptyString (subtask_ids !! idx); ds_description := description;
        ds_model_affinity := if truthy affinity && negb (str_in affinity endpoint_ids) then EmptyString else affinity;
        ds_depends_on := depends_on; ds_estimated_tokens := tokens; ds_token_estimation_method := method;
        ds_category := category_of category |}.
Definition subtask_id_of (task_hash : string) (ie : nat * json) : result string :=
  description ← text_of "description" EmptyString ie.2; Ok (make_subtask_id task_hash ie.1 description).
(** [_parse_subtasks], of the decoded planner output. *)
Definition parse_planned (data : json) (original_task_hash : string) (endpoint_ids : list string)
  : result (list ModelSubtask) :=
  raw_subtasks ← py_get_or "subtasks" (JArr []) data;
  raw_subtasks ← py_iter raw_subtasks;
  let enumerated := combine (seq 0 (length raw_subtasks)) raw_subtasks in
  subtask_ids ← map_result (subtask_id_of original_task_hash) enumerated;
  map_result (fun ie => parse_entry endpoint_ids subtask_ids ie.1 ie.2) enumerated.
(** With the caller's [except (json.JSONDecodeError, KeyError, TypeError)]. *)
Definition _parse_subtasks (raw_json original_task_hash : string) (endpoint_ids : list string)
  : result (list ModelSubtask) :=
  match json_loads raw_json with
  | Raise _ => Ok []
  | Ok data =>
      match parse_planned data original_task_hash endpoint_ids with
      | Ok subtasks => Ok subtasks
      | Raise (KeyError _) | Raise (TypeError _) => Ok []
      | Raise e => Raise e
      end
  end.

(** *** Cycles *)

Inductive Color : Type := _WHITE | _GRAY | _BLACK.
#[export] Instance Color_eq_dec : EqDecision Color.
Proof. solve_decision. Defined.

(** [{st.subtask_id: st for st in cleaned}] *)
Definition id_to_subtask (l : list ModelSubtask) : list (string * ModelSubtask) := dict_index ds_subtask_id l.

Section cycle.
Context (deps : string -> list string).

(** The dependencies of one node: [true] at the first that closes a cycle.
    [visit] is the recursive call. *)
Fixpoint visit_deps (visit : string -> gmap string Color -> result (bool * gmap string Color)) (l : list string)
    (color : gmap string Color) : result (bool * gmap string Color) :=
  match l with
  | [] => Ok (false, color)
  | dep :: l' =>
      match color !! dep with
      | None => visit_deps visit l' color
      | Some _GRAY => Ok (true, color)
      | Some _WHITE =>
          '(found, color) ← visit dep color;
          if (found : bool) then Ok (true, color) else visit_deps visit l' color
      | Some _BLACK => visit_deps visit l' color
      end
  end.
(** [depth] is how many calls deep the interpreter lets [dfs] go. *)
Fixpoint dfs (depth : nat) (node_id : string) (color : gmap string Color) : result (bool * gmap string Color) :=
  match depth with
  | 0 => Raise RecursionError
  | S depth' =>
      '(found, color) ← visit_deps (dfs depth') (deps node_id) (<[node_id := _GRAY]> color);
      if (found : bool) then Ok (true, color) else Ok (false, <[node_id := _BLACK]> color)
  end.
(** The outer loop: the node whose search found a cycle. *)
Fixpoint first_cyclic (depth : nat) (ids : list string) (color : gmap string Color) : result (option string) :=
  match ids with
  | [] => Ok None
  | sid :: ids' =>
      match color !! sid with
      | Some _WHITE =>
          '(found, color) ← dfs depth sid color;
          if (found : bool) then Ok (Some sid) else first_cyclic depth ids' color
      | _ => first_cyclic depth ids' color
      end
  end.
End cycle.

(** [id_to_subtask[node_id].depends_on] *)
Definition deps_of (m : list (string * ModelSubtask)) (node_id : string) : list string :=
  match dict_get node_id m with Some st => ds_depends_on st | None => [] end.
Definition all_white (ids : list string) : gmap string Color := foldl (fun m k => <[k := _WHITE]> m) ∅ ids.
Definition _detect_cycle (depth : nat) (m : list (string * ModelSubtask)) : result (option string) :=
  found ← first_cyclic (deps_of m) depth (dict_keys m) (all_white (dict_keys m));
  Ok (match found with
      | Some sid => Some ("dependency cycle detected involving subtask " +:+ py_repr sid)
      | None => None
      end).

(** *** Validation *)

Definition blank_reason (l : list ModelSubtask) : option string :=
  match List.find (fun st => negb (truthy (py_strip (ds_description st)))) l with
  | Some st => Some ("subtask " +:+ py_repr (ds_subtask_id st) +:+ " has empty description")
  | None => None
  end.
Definition unknown_affinity (endpoint_ids : list string) (st : ModelSubtask) : bool :=
  truthy (ds_model_affinity st) && truthy endpoint_ids && negb (str_in (ds_model_affinity st) endpoint_ids).
Definition clean_affinity (endpoint_ids : list string) (st : ModelSubtask) : ModelSubtask :=
  if unknown_affinity endpoint_ids st
  then {| ds_subtask_id := ds_subtask_id st; ds_description := ds_description st; ds_model_affinity := EmptyString;
          ds_depends_on := ds_depends_on st; ds_estimated_tokens := ds_estimated_tokens st;
          ds_token_estimation_method := ds_token_estimation_method st; ds_category := ds_category st |}
  else st.
Definition affinity_warning (st : ModelSubtask) : string :=
  "subtask " +:+ py_repr (ds_subtask_id st) +:+ " has unknown model_affinity " +:+ py_repr (ds_model_affinity st) +:+ "; cleared".
(** The first dependency that is no subtask. *)
Fixpoint dangling (known_ids : list string) (l : list ModelSubtask) : option string :=
  match l with
  | [] => None
  | st :: l' =>
      match List.find (fun dep => negb (str_in dep known_ids)) (ds_depends_on st) with
      | Some dep => Some ("subtask " +:+ py_repr (ds_subtask_id st) +:+ " has dangling dependency " +:+ py_repr dep)
      | None => dangling known_ids l'
      end
  end.
Definition context_warnings (limit : Z) (l : list ModelSubtask) : list string :=
  if (limit >? 0)%Z then
    map (fun st => "subtask " +:+ py_repr (ds_subtask_id st) +:+ " estimated_tokens " +:+ pretty (ds_estimated_tokens st)
                   +:+ " exceeds context_window_limit " +:+ pretty limit +:+ "; dispatcher will handle")
      (filter (fun st => (ds_estimated_tokens st >? limit)%Z = true) l)
  else [].

(** (cleaned, warnings, rejection) *)
Definition validate_decomposition (depth : nat) (subtasks : list ModelSubtask) (endpoint_ids : list string)
    (context_window_limit : Z) : result (list ModelSubtask * list string * option string) :=
  match blank_reason subtasks with
  | Some reason => Ok ([], [], Some reason)
  | None =>
      let warnings := map affinity_warning (filter (fun st => unknown_affinity endpoint_ids st = true) subtasks) in
      let cleaned := map (clean_affinity endpoint_ids) subtasks in
      match dangling (map ds_subtask_id cleaned) cleaned with
      | Some reason => Ok ([], warnings, Some reason)
      | None =>
          cycle_reason ← _detect_cycle depth (id_to_subtask cleaned);
          match cycle_reason with
          | Some reason => Ok ([], warnings, Some reason)
          | None => Ok (cleaned, warnings ++ context_warnings context_window_limit cleaned, None)
          end
      end
  end.

(** *** The handler *)

(** [new_run_id] and [new_correlation_id] are the fresh uuids. *)
Definition decompose_result (request : ModelSwarmDecomposeRequest) (new_run_id new_correlation_id task_hash : string)
    (subtasks : list ModelSubtask) (status : EnumDecompositionStatus) (warnings : list string) : ModelSwarmDecomposeResult :=
  {| dr_decomposition :=
       {| dc_original_task := dq_original_task request; dc_original_task_hash := task_hash; dc_subtasks := subtasks;
          dc_decomposition_model := dq_planner_model_id request;
          dc_decomposition_endpoint_id := List.hd EmptyString (dq_endpoint_ids request); dc_decomposition_latency_ms := 0;
          dc_decomposition_status := status; dc_decomposition_run_id := new_run_id;
          dc_correlation_id := py_or (dq_correlation_id request) new_correlation_id; dc_warnings := warnings |};
     dr_status := status; dr_warnings := warnings; dr_run_id := py_or (dq_run_id request) new_run_id |}.

Definition handle (depth : nat) (new_run_id new_correlation_id : string) (request : ModelSwarmDecomposeRequest)
  : result ModelSwarmDecomposeResult :=
  let original_task := dq_original_task request in
  let task_hash := _task_hash (py_or original_task (dq_planner_output_hash request)) in
  let answer := decompose_result request new_run_id new_correlation_id task_hash in
  let passthrough := [_passthrough_subtask original_task task_hash] in
  if negb (dq_decompose request) then Ok (answer passthrough PASSTHROUGH_CALLER_DISABLED [])
  else if truthy original_task && (Z.of_nat (String.length original_task) <? dq_token_threshold request)%Z then
    Ok (answer passthrough PASSTHROUGH_TOKEN_THRESHOLD [])
  else
    subtasks ← _parse_subtasks (dq_planner_output request) task_hash (dq_endpoint_ids request);
    if negb (truthy subtasks) then Ok (answer passthrough FAILED_FALLBACK_PASSTHROUGH [])
    else
      v ← validate_decomposition depth subtasks (dq_endpoint_ids request) (dq_context_window_limit request);
      let '(cleaned, warns, rejection) := v in
      if truthy rejection then Ok (answer passthrough FAILED_FALLBACK_PASSTHROUGH [default EmptyString rejection])
      else Ok (answer cleaned SUCCEEDED warns).

(** [model_dump()] *)
Definition subtask_json (st : ModelSubtask) : json := JObj [
  ("subtask_id", JStr (ds_subtask_id st)); ("description", JStr (ds_description st));
  ("model_affinity", JStr (ds_model_affinity st)); ("depends_on", JArr (map JStr (ds_depends_on st)));
  ("estimated_tokens", JInt (ds_estimated_tokens st)); ("token_estimation_method", JStr (ds_token_estimation_method st));
  ("category", JStr (category_value (ds_category st)))].
Definition decomposition_json (d : ModelDecomposition) : json := JObj [
  ("original_task", JStr (dc_original_task d)); ("original_task_hash", JStr (dc_original_task_hash d));
  ("subtasks", JArr (map subtask_json (dc_subtasks d))); ("decomposition_model", JStr (dc_decomposition_model d));
  ("decomposition_endpoint_id", JStr (dc_decomposition_endpoint_id d));
  ("decomposition_latency_ms", JInt (dc_decomposition_latency_ms d));
  ("decomposition_status", JStr (decomposition_status_value (dc_decomposition_status d)));
  ("decomposition_run_id", JStr (dc_decomposition_run_id d)); ("correlation_id", JStr (dc_correlation_id d));
  ("warnings", JArr (map JStr (dc_warnings d)))].
Definition decompose_result_json (r : ModelSwarmDecomposeResult) : Obj := [
  ("decomposition", decomposition_json (dr_decomposition r));
  ("status", JStr (decomposition_status_value (dr_status r))); ("warnings", JArr (map JStr (dr_warnings r)));
  ("run_id", JStr (dr_run_id r))].
End Decomposer.

(** ** Choice of the endpoints *)

Module Registry.
Definition _VALID_CAPABILITIES : list string :=
  ["code_generation"; "structured_output"; "refactoring"; "reasoning"; "analysis"; "math"; "planning"; "synthesis";
   "general"; "embeddings"].
Inductive EnumEndpointStatus : Type := reachable | unreachable | timeout.
#[export] Instance EnumEndpointStatus_eq_dec : EqDecision EnumEndpointStatus.
Proof. solve_decision. Defined.
Definition endpoint_status_of (s : string) : option EnumEndpointStatus :=
  if String.eqb s "reachable" then Some reachable
  else if String.eqb s "unreachable" then Some unreachable
  else if String.eqb s "timeout" then Some timeout else None.

(** The fields the selection reads; [capabilities] are the values. *)
Record ModelRegistryEndpoint := {
  re_id : string; re_base_url : string; re_model_id : string; re_provider : string; re_capabilities : list string;
  re_context_window : option Z; re_endpoint_ref : string
}.
Record ModelSubtask := {
  rs_subtask_id : string; rs_description : string; rs_category : string; rs_estimated_tokens : Z;
  rs_model_affinity : string; rs_depends_on : list string
}.
Record ModelEndpointHealth := { rh_endpoint_id : string; rh_endpoint_status : EnumEndpointStatus }.
Record ModelSwarmEndpointSelectionRequest := {
  rq_subtasks : list ModelSubtask; rq_endpoint_health : list (string * ModelEndpointHealth); rq_run_id : string
}.
Record ModelEndpointSelectionEvidence := { ev_subtask_id : string; ev_assigned_endpoint_id : string; ev_reason : string }.
Record ModelSwarmEndpointSelectionResult := {
  rr_assignments : list (string * string); rr_unroutable_subtasks : list string;
  rr_selection_evidence : list ModelEndpointSelectionEvidence; rr_run_id : string
}.

Definition _is_healthy (health : option ModelEndpointHealth) : bool :=
  match health with Some h => bool_decide (rh_endpoint_status h = reachable) | None => false end.
Definition _fits_context (endpoint : ModelRegistryEndpoint) (estimated_tokens : Z) : bool :=
  match re_context_window endpoint with None => true | Some w => (w >=? estimated_tokens)%Z end.

Definition capable_healthy (subtask : ModelSubtask) (endpoint_health : list (string * ModelEndpointHealth))
    (ep : ModelRegistryEndpoint) : bool :=
  str_in (rs_category subtask) (re_capabilities ep) && _is_healthy (dict_get (re_id ep) endpoint_health).
Definition known_fit (subtask : ModelSubtask) (ep : ModelRegistryEndpoint) : bool :=
  bool_decide (is_Some (re_context_window ep)) && _fits_context ep (rs_estimated_tokens subtask).
Definition unknown_ctx (ep : ModelRegistryEndpoint) : bool := bool_decide (re_context_window ep = None).

(** The affinity endpoint, when it will do. *)
Definition affinity_match (subtask : ModelSubtask) (endpoints : list ModelRegistryEndpoint)
    (endpoint_health : list (string * ModelEndpointHealth)) : bool :=
  let affinity := rs_model_affinity subtask in
  truthy affinity
  && match List.find (fun ep => String.eqb (re_id ep) affinity) endpoints with
     | Some ep => _is_healthy (dict_get affinity endpoint_health)
                  && str_in (rs_category subtask) (re_capabilities ep) && _fits_context ep (rs_estimated_tokens subtask)
     | None => false
     end.
Definition _select_for_subtask (subtask : ModelSubtask) (endpoints : list ModelRegistryEndpoint)
    (endpoint_health : list (string * ModelEndpointHealth)) : option string * string :=
  let affinity := rs_model_affinity subtask in
  let category := rs_category subtask in
  if affinity_match subtask endpoints endpoint_health then (Some affinity, "affinity match: " +:+ affinity)
  else
    let capable := List.filter (capable_healthy subtask endpoint_health) endpoints in
    let fit := List.filter (known_fit subtask) capable in
    let ordered := if truthy fit then fit else List.filter unknown_ctx capable in
    match ordered with
    | ep :: _ =>
        (Some (re_id ep),
         "capability match: " +:+ re_id ep +:+ " supports " +:+ py_repr category
         +:+ (if truthy affinity && negb (String.eqb (re_id ep) affinity)
              then " (affinity " +:+ py_repr affinity +:+ " unavailable)" else EmptyString))
    | [] => (None, "no healthy endpoint supports category " +:+ py_repr category)
    end.

Definition select_one (endpoints : list ModelRegistryEndpoint) (endpoint_health : list (string * ModelEndpointHealth))
    (acc : list (string * string) * list string * list ModelEndpointSelectionEvidence) (subtask : ModelSubtask)
  : list (string * string) * list string * list ModelEndpointSelectionEvidence :=
  let '(assignments, unroutable, evidence) := acc in
  match _select_for_subtask subtask endpoints endpoint_health with
  | (Some endpoint_id, reason) =>
      (dict_set (rs_subtask_id subtask) endpoint_id assignments, unroutable,
       evidence ++ [{| ev_subtask_id := rs_subtask_id subtask; ev_assigned_endpoint_id := endpoint_id; ev_reason := reason |}])
  | (None, _) => (assignments, unroutable ++ [rs_subtask_id subtask], evidence)
  end.
Definition handle (endpoints : list ModelRegistryEndpoint) (request : ModelSwarmEndpointSelectionRequest)
  : ModelSwarmEndpointSelectionResult :=
  let '(assignments, unroutable, evidence) :=
    foldl (select_one endpoints (rq_endpoint_health request)) ([], [], []) (rq_subtasks request) in
  {| rr_assignments := assignments; rr_unroutable_subtasks := unroutable; rr_selection_evidence := evidence;
     rr_run_id := rq_run_id request |}.

(** *** What a request is read from *)

Section request.
Context `{Pydantic}.

Definition subtask_of_json (j : json) : option ModelSubtask :=
  match j with
  | JObj kw =>
      let model := "ModelSubtask" in
      match subtask_id ← field_req model lax_str "subtask_id" kw;
            description ← field_req model lax_str "description" kw;
            category ← field_req model lax_str "category" kw;
            tokens ← field_or model lax_int "estimated_tokens" 0%Z kw;
            affinity ← field_or model lax_str "model_affinity" EmptyString kw;
            depends_on ← field_or model (lax_list lax_str) "depends_on" [] kw;
            _ ← no_extra model ["subtask_id"; "description"; "category"; "estimated_tokens"; "model_affinity"; "depends_on"] kw;
            Ok {| rs_subtask_id := subtask_id; rs_description := description; rs_category := category;
                  rs_estimated_tokens := tokens; rs_model_affinity := affinity; rs_depends_on := depends_on |} with
      | Ok s => Some s
      | Raise _ => None
      end
  | _ => None
  end.

(** [_promote_status]: a status without an endpoint status stands for it. *)
Definition _promote_status (values : Obj) : Obj :=
  match dict_get "endpoint_status" values, dict_get "status" values with
  | None, Some s => dict_set "endpoint_status" s values
  | _, _ => values
  end.
Definition endpoint_status_field (j : json) : option EnumEndpointStatus :=
  match j with JStr s => endpoint_status_of s | _ => None end.
Definition model_status_field (j : json) : option string :=
  match j with JStr s => if str_in s ["available"; "unavailable"; "unknown"] then Some s else None | _ => None end.
Definition health_of_json (j : json) : option ModelEndpointHealth :=
  match j with
  | JObj values =>
      let model := "ModelEndpointHealth" in
      let kw := _promote_status values in
      match endpoint_id ← field_req model lax_str "endpoint_id" kw;
            endpoint_status ← field_or model endpoint_status_field "endpoint_status" unreachable kw;
            _ ← field_or model model_status_field "model_status" "unknown" kw;
            _ ← field_or model lax_str "status" EmptyString kw;
            _ ← field_or model (nullable lax_int) "latency_ms" None kw;
            _ ← field_or model (nullable lax_str) "error" None kw;
            _ ← no_extra model ["endpoint_id"; "endpoint_status"; "model_status"; "status"; "latency_ms"; "error"] kw;
            Ok {| rh_endpoint_id := endpoint_id; rh_endpoint_status := endpoint_status |} with
      | Ok h => Some h
      | Raise _ => None
      end
  | _ => None
  end.
(** A field of type [dict[str, T]]. *)
Definition lax_dict {A} (f : json -> option A) (j : json) : option (list (string * A)) :=
  match j with JObj o => mapM (fun kv => (fun a => (kv.1, a)) <$> f kv.2) o | _ => None end.
Definition selection_request (kw : Obj) : result ModelSwarmEndpointSelectionRequest :=
  let model := "ModelSwarmEndpointSelectionRequest" in
  subtasks ← field_req model (lax_list subtask_of_json) "subtasks" kw;
  health ← field_req model (lax_dict health_of_json) "endpoint_health" kw;
  _ ← field_or model lax_str "registry_hash" EmptyString kw;
  _ ← field_or model lax_str "correlation_id" EmptyString kw;
  run_id ← field_or model lax_str "run_id" EmptyString kw;
  _ ← no_extra model ["subtasks"; "endpoint_health"; "registry_hash"; "correlation_id"; "run_id"] kw;
  Ok {| rq_subtasks := subtasks; rq_endpoint_health := health; rq_run_id := run_id |}.
End request.
End Registry.
