(* ===== verification/SwarmFanout.v ===== *)
(** * Swarm dispatch: the fan-out

    [node_swarm_fanout_orchestrator]: the subtasks are laid out in waves along
    their dependencies, the commands of a wave are published and its terminal
    events collected before the next wave starts.  The monotonic clock, the
    publisher and the poll of the subscriber are arguments; every use of them is
    logged, and what they answer depends on the log. *)
From S2P Require Import Prelude PyFloat PyJson PyHash PyDyn LogMonad SwarmPlan.

Inductive EnumExecutionStatus : Type := SUCCEEDED | FAILED | TIMEOUT | SKIPPED_DEPENDENCY_FAILED.
#[export] Instance EnumExecutionStatus_eq_dec : EqDecision EnumExecutionStatus.
Proof. solve_decision. Defined.
Definition execution_status_value (s : EnumExecutionStatus) : string :=
  match s with
  | SUCCEEDED => "succeeded" | FAILED => "failed" | TIMEOUT => "timeout"
  | SKIPPED_DEPENDENCY_FAILED => "skipped_dependency_failed"
  end.

Record ModelSubtask := {
  fs_subtask_id : string; fs_description : string; fs_model_affinity : string; fs_depends_on : list string;
  fs_estimated_tokens : Z; fs_category : string
}.
Record ModelSwarmConfig := {
  cf_max_parallel_subtasks : Z; cf_max_subtasks_per_endpoint : Z; cf_per_endpoint_timeout_seconds : Z;
  cf_total_run_timeout_seconds : Z; cf_retry_policy_max_retries : Z; cf_fallback_policy_enabled : bool
}.
Record ModelSwarmEndpoint := {
  fe_endpoint_id : string; fe_base_url : string; fe_model_id : string; fe_endpoint_ref : string; fe_status : string;
  fe_capabilities : list string
}.
Record ModelSwarmFanoutRequest := {
  fq_subtasks : list ModelSubtask; fq_assignments : list (string * string); fq_endpoints : list ModelSwarmEndpoint;
  fq_endpoint_health : Obj; fq_config : ModelSwarmConfig; fq_correlation_id : string; fq_run_id : string;
  fq_endpoint_registry_hash : string; fq_routing_policy_hash : string
}.
Record ModelSwarmDispatch := {
  fd_subtask_id : string; fd_endpoint_id : string; fd_model_id : string; fd_base_url : string;
  fd_endpoint_status : string; fd_execution_status : EnumExecutionStatus; fd_response_text : string;
  fd_failure_class : string; fd_failure_reason : string; fd_retry_count : Z; fd_fallback_endpoint_id : string;
  fd_started_at : string; fd_completed_at : string; fd_latency_ms : Z; fd_wave : Z
}.
Record ModelSwarmFanoutResult := {
  fr_dispatches : list ModelSwarmDispatch; fr_wall_latency_ms : Z; fr_sum_subtask_latency_ms : Z; fr_run_id : string;
  fr_completed_count : Z; fr_failed_count : Z; fr_degraded : bool; fr_aggregation_mode : string;
  fr_endpoint_registry_hash : string; fr_routing_policy_hash : string; fr_projection_ref : string
}.

(** A dispatch with the other fields at their defaults. *)
Definition new_dispatch (subtask_id endpoint_id model_id base_url : string) (status : EnumExecutionStatus)
    (failure_reason : string) (latency_ms wave : Z) : ModelSwarmDispatch :=
  {| fd_subtask_id := subtask_id; fd_endpoint_id := endpoint_id; fd_model_id := model_id; fd_base_url := base_url;
     fd_endpoint_status := EmptyString; fd_execution_status := status; fd_response_text := EmptyString;
     fd_failure_class := EmptyString; fd_failure_reason := failure_reason; fd_retry_count := 0;
     fd_fallback_endpoint_id := EmptyString; fd_started_at := EmptyString; fd_completed_at := EmptyString;
     fd_latency_ms := latency_ms; fd_wave := wave |}.

(** [model_dump()] *)
Definition dispatch_json (d : ModelSwarmDispatch) : json := JObj [
  ("subtask_id", JStr (fd_subtask_id d)); ("endpoint_id", JStr (fd_endpoint_id d)); ("model_id", JStr (fd_model_id d));
  ("base_url", JStr (fd_base_url d)); ("endpoint_status", JStr (fd_endpoint_status d));
  ("execution_status", JStr (execution_status_value (fd_execution_status d)));
  ("response_text", JStr (fd_response_text d)); ("failure_class", JStr (fd_failure_class d));
  ("failure_reason", JStr (fd_failure_reason d)); ("retry_count", JInt (fd_retry_count d));
  ("fallback_endpoint_id", JStr (fd_fallback_endpoint_id d)); ("started_at", JStr (fd_started_at d));
  ("completed_at", JStr (fd_completed_at d)); ("latency_ms", JInt (fd_latency_ms d)); ("wave", JInt (fd_wave d))].
Definition fanout_result_json (r : ModelSwarmFanoutResult) : Obj := [
  ("dispatches", JArr (map dispatch_json (fr_dispatches r))); ("wall_latency_ms", JInt (fr_wall_latency_ms r));
  ("sum_subtask_latency_ms", JInt (fr_sum_subtask_latency_ms r)); ("run_id", JStr (fr_run_id r));
  ("completed_count", JInt (fr_completed_count r)); ("failed_count", JInt (fr_failed_count r));
  ("degraded", JBool (fr_degraded r)); ("aggregation_mode", JStr (fr_aggregation_mode r));
  ("endpoint_registry_hash", JStr (fr_endpoint_registry_hash r));
  ("routing_policy_hash", JStr (fr_routing_policy_hash r)); ("projection_ref", JStr (fr_projection_ref r))].

(** ** Waves *)

(** [{s.subtask_id: s for s in subtasks}] *)
Definition id_to_subtask (subtasks : list ModelSubtask) : list (string * ModelSubtask) :=
  dict_index fs_subtask_id subtasks.

Section waves.
Context (deps : string -> option (list string)).

(** [max(_wave_of(dep) for dep in depends_on)]; [wave] is the recursive call and
    [m] the largest so far. *)
Fixpoint max_wave_of (wave : string -> gmap string nat -> result (nat * gmap string nat)) (depends_on : list string)
    (m : nat) (assigned : gmap string nat) : result (nat * gmap string nat) :=
  match depends_on with
  | [] => Ok (m, assigned)
  | dep :: l =>
      '(w, assigned) ← wave dep assigned;
      max_wave_of wave l (m `max` w) assigned
  end.
(** [depth] is how many calls deep the interpreter lets it go. *)
Fixpoint _wave_of (depth : nat) (subtask_id : string) (assigned : gmap string nat) : result (nat * gmap string nat) :=
  match depth with
  | 0 => Raise RecursionError
  | S depth' =>
      match assigned !! subtask_id with
      | Some w => Ok (w, assigned)
      | None =>
          match deps subtask_id with
          | None => Raise (KeyError subtask_id)
          | Some [] => Ok (0, <[subtask_id := 0]> assigned)
          | Some depends_on =>
              '(m, assigned) ← max_wave_of (_wave_of depth') depends_on 0 assigned;
              Ok (m + 1, <[subtask_id := m + 1]> assigned)
          end
      end
  end.
(** [for s in subtasks: _wave_of(s.subtask_id)] *)
Fixpoint assign_waves (depth : nat) (ids : list string) (assigned : gmap string nat) : result (gmap string nat) :=
  match ids with
  | [] => Ok assigned
  | sid :: ids' =>
      '(_, assigned) ← _wave_of depth sid assigned;
      assign_waves depth ids' assigned
  end.
End waves.

(** [max(assigned.values())] *)
Definition max_value (assigned : gmap string nat) : nat := map_fold (fun _ w m => w `max` m) 0 assigned.
(** [waves[assigned[s.subtask_id]].append(s)] *)
Definition append_to_wave (assigned : gmap string nat) (waves : list (list ModelSubtask)) (s : ModelSubtask)
  : list (list ModelSubtask) :=
  alter (fun wave => wave ++ [s]) (default 0 (assigned !! fs_subtask_id s)) waves.
Definition deps_of (subtasks : list ModelSubtask) (sid : string) : option (list string) :=
  fs_depends_on <$> dict_get sid (id_to_subtask subtasks).
Definition _compute_waves (depth : nat) (subtasks : list ModelSubtask) : result (list (list ModelSubtask)) :=
  assigned ← assign_waves (deps_of subtasks) depth (map fs_subtask_id subtasks) ∅;
  if bool_decide (assigned = ∅) then Ok []
  else
    let waves := foldl (append_to_wave assigned) (replicate (max_value assigned + 1) []) subtasks in
    Ok (map (sort_by fs_subtask_id) waves).

(** ** Endpoints *)

(** One entry of the registry file. *)
Definition load_entry (endpoints : list (string * ModelSwarmEndpoint)) (ep_data : json)
  : result (list (string * ModelSwarmEndpoint)) :=
  ep_id ← text_of "id" EmptyString ep_data;
  if negb (truthy ep_id) then Ok endpoints
  else
    base_url ← text_of "base_url" EmptyString ep_data;
    model_id ← text_of "model_id" EmptyString ep_data;
    endpoint_ref ← text_of "endpoint_ref" EmptyString ep_data;
    capabilities ← py_get_or "capabilities" (JArr []) ep_data;
    capabilities ← py_iter capabilities;
    Ok (dict_set ep_id {| fe_endpoint_id := ep_id; fe_base_url := base_url; fe_model_id := model_id;
                          fe_endpoint_ref := endpoint_ref; fe_status := "reachable";
                          fe_capabilities := map json_str capabilities |} endpoints).
(** [registry] is the parsed file, or the exception of reading it. *)
Definition _load_endpoint_registry (registry : result json) : list (string * ModelSwarmEndpoint) :=
  match raw ← registry; entries ← registry_entries raw; Health.load_entries load_entry [] entries with
  | Ok endpoints => endpoints
  | Raise _ => []
  end.
Definition _resolve_endpoint_map (registry : result json) (request : ModelSwarmFanoutRequest)
  : list (string * ModelSwarmEndpoint) :=
  if truthy (fq_endpoints request) then
    dict_index fe_endpoint_id (fq_endpoints request)
  else if truthy (fq_endpoint_health request) then
    let endpoints := _load_endpoint_registry registry in
    foldl (fun resolved ep_id =>
             match dict_get ep_id endpoints with Some ep => dict_set ep_id ep resolved | None => resolved end)
      [] (dict_keys (fq_endpoint_health request))
  else [].

(** ** One wave *)

Definition publish_topics : list string :=
  ["onex.evt.omnimarket.swarm-fanout-completed.v1"; "onex.cmd.omnimarket.delegation-execute.v1"].
Definition subscribe_topics : list string :=
  ["onex.cmd.omnimarket.swarm-fanout.v1"; "onex.evt.omnimarket.delegation-call-completed.v1";
   "onex.evt.omnimarket.delegation-escalation-triggered.v1"; "onex.evt.omnimarket.delegation-all-tiers-failed.v1"].
(** [next(t for t in publish_topics if ...)]: the contract has one. *)
Definition delegation_execute_topic : string :=
  default EmptyString (List.find (py_contains "delegation-execute") publish_topics).
Definition completion_topics : list string :=
  List.filter (any_sub ["delegation-call-completed"; "delegation-escalation-triggered"; "delegation-all-tiers-failed"])
    subscribe_topics.

Definition _correlation_id (run_id subtask_id : string) : string := run_id +:+ "-" +:+ subtask_id.
Definition _owns_correlation_id (run_id correlation_id : string) : bool := py_startswith (run_id +:+ "-") correlation_id.

Definition execute_command (request : ModelSwarmFanoutRequest) (subtask : ModelSubtask) (endpoint : ModelSwarmEndpoint)
  : Obj := [
  ("request_id", JStr (fq_run_id request +:+ "-" +:+ fs_subtask_id subtask));
  ("correlation_id", JStr (_correlation_id (fq_run_id request) (fs_subtask_id subtask)));
  ("causation_id", JStr (fq_run_id request)); ("model_id", JStr (fe_model_id endpoint));
  ("endpoint_ref", JStr (fe_endpoint_ref endpoint)); ("prompt", JStr (fs_description subtask));
  ("prompt_hash", JStr (sha256_hex (fs_description subtask)));
  ("max_tokens", JInt (py_or (fs_estimated_tokens subtask) 2048%Z)); ("task_type", JStr "swarm_subtask");
  ("task_id", JStr (fs_subtask_id subtask)); ("routing_policy_hash", JStr (fq_routing_policy_hash request));
  ("registry_hash", JStr (fq_endpoint_registry_hash request))].

(** What is asked of the outside. *)
Inductive FanoutIo : Type :=
  | ClockRead
  | Published (topic : string) (command : Obj)
  | Polled (topics : list string) (run_id : string) (timeout_seconds : float).

(** The subtasks waited for, by correlation id, with the endpoint each was sent to. *)
Definition Pending : Type := list (string * (ModelSubtask * option ModelSwarmEndpoint)).

(** The endpoint a command can be sent to. *)
Definition sendable (request : ModelSwarmFanoutRequest) (endpoint_map : list (string * ModelSwarmEndpoint))
    (subtask : ModelSubtask) : option ModelSwarmEndpoint :=
  let endpoint_id := default EmptyString (dict_get (fs_subtask_id subtask) (fq_assignments request)) in
  match dict_get endpoint_id endpoint_map with
  | Some endpoint => if truthy (fe_endpoint_ref endpoint) then Some endpoint else None
  | None => None
  end.
(** The terminal event of each correlation id of this run, the last polled. *)
Definition collect_results (run_id : string) (raw_events : list Obj) : list (string * Obj) :=
  foldl (fun results raw_ev =>
           let corr_id := json_str (default (JStr EmptyString) (dict_get "correlation_id" raw_ev)) in
           if _owns_correlation_id run_id corr_id then dict_set corr_id raw_ev results else results)
    [] raw_events.

Definition event_success (event : Obj) : bool :=
  truthy (default (JBool true) (dict_get "success" event))
  && negb (py_contains "all-tiers-failed" (json_str (default (JStr EmptyString) (dict_get "_topic" event)))).
Definition dispatch_of (wave_num : nat) (results : list (string * Obj))
    (p : string * (ModelSubtask * option ModelSwarmEndpoint)) : result ModelSwarmDispatch :=
  let subtask := p.2.1 in
  match p.2.2 with
  | None =>
      Ok (new_dispatch (fs_subtask_id subtask) EmptyString EmptyString EmptyString FAILED "no_endpoint_assigned" 0
            (Z.of_nat wave_num))
  | Some endpoint =>
      match dict_get p.1 results with
      | None =>
          Ok (new_dispatch (fs_subtask_id subtask) (fe_endpoint_id endpoint) (fe_model_id endpoint)
                (fe_base_url endpoint) TIMEOUT "no_terminal_event_received" 0 (Z.of_nat wave_num))
      | Some event =>
          let success := event_success event in
          latency_ms ← py_int (json_str (default (JInt 0) (dict_get "latency_ms" event)));
          Ok (new_dispatch (fs_subtask_id subtask) (fe_endpoint_id endpoint)
                (json_str (default (JStr (fe_model_id endpoint)) (dict_get "model_id" event))) (fe_base_url endpoint)
                (if success then SUCCEEDED else FAILED)
                (if success then EmptyString
                 else json_str (default (JStr EmptyString) (dict_get "failure_class" event)))
                latency_ms (Z.of_nat wave_num))
      end
  end.

Section fanout.
Context (registry : result json) (depth : nat).
Context (w_monotonic : list FanoutIo -> float).
Context (w_publish : list FanoutIo -> string -> Obj -> result unit).
Context (w_poll : list FanoutIo -> list string -> string -> float -> result (list Obj)).
Abbreviation Act := (M unit FanoutIo).

Definition monotonic : Act float := call ClockRead (fun l => Ok (w_monotonic l)).
Definition publish (topic : string) (command : Obj) : Act unit :=
  call (Published topic command) (fun l => w_publish l topic command).
Definition poll (topics : list string) (run_id : string) (timeout_seconds : float) : Act (list Obj) :=
  call (Polled topics run_id timeout_seconds) (fun l => w_poll l topics run_id timeout_seconds).

Definition send_one (request : ModelSwarmFanoutRequest) (endpoint_map : list (string * ModelSwarmEndpoint))
    (total_deadline : float) (pending : Pending) (subtask : ModelSubtask) : Act Pending :=
  now ← monotonic;
  let time_left := fsub total_deadline now in
  if fle time_left fzero then mret pending
  else
    let corr_id := _correlation_id (fq_run_id request) (fs_subtask_id subtask) in
    match sendable request endpoint_map subtask with
    | None => mret (dict_set corr_id (subtask, None) pending)
    | Some endpoint =>
        _ ← publish delegation_execute_topic (execute_command request subtask endpoint);
        mret (dict_set corr_id (subtask, Some endpoint) pending)
    end.
Definition _dispatch_wave (wave_num : nat) (subtasks : list ModelSubtask) (request : ModelSwarmFanoutRequest)
    (endpoint_map : list (string * ModelSwarmEndpoint)) (total_deadline : float) : Act (list ModelSwarmDispatch) :=
  pending ← fold_each subtasks [] (send_one request endpoint_map total_deadline);
  if negb (truthy pending) then mret []
  else
    now ← monotonic;
    let time_left := fmax (fsub total_deadline now) fone in
    raw_events ← poll completion_topics (fq_run_id request)
                   (fmin (float_of_Z (cf_per_endpoint_timeout_seconds (fq_config request))) time_left);
    lift (map_result (dispatch_of wave_num (collect_results (fq_run_id request) raw_events)) pending).

(** ** The whole fan-out *)

Definition skipped_dispatch (wave_num : nat) (subtask : ModelSubtask) : ModelSwarmDispatch :=
  new_dispatch (fs_subtask_id subtask) EmptyString EmptyString EmptyString SKIPPED_DEPENDENCY_FAILED
    "dependency_failed" 0 (Z.of_nat wave_num).
Definition blocked (failed_ids : gset string) (subtask : ModelSubtask) : bool :=
  existsb (fun dep => bool_decide (dep ∈ failed_ids)) (fs_depends_on subtask).
(** The first loop over a wave: (all_dispatches, failed_ids, runnable). *)
Definition triage_one (wave_num : nat) (acc : list ModelSwarmDispatch * gset string * list ModelSubtask)
    (subtask : ModelSubtask) : list ModelSwarmDispatch * gset string * list ModelSubtask :=
  let '(all_dispatches, failed_ids, runnable) := acc in
  if blocked failed_ids subtask
  then (all_dispatches ++ [skipped_dispatch wave_num subtask], {[fs_subtask_id subtask]} ∪ failed_ids, runnable)
  else (all_dispatches, failed_ids, runnable ++ [subtask]).
Definition record_dispatch (acc : list ModelSwarmDispatch * gset string) (d : ModelSwarmDispatch)
  : list ModelSwarmDispatch * gset string :=
  (acc.1 ++ [d], if decide (fd_execution_status d = SUCCEEDED) then acc.2 else {[fd_subtask_id d]} ∪ acc.2).
Definition run_wave (request : ModelSwarmFanoutRequest) (endpoint_map : list (string * ModelSwarmEndpoint))
    (total_deadline : float) (acc : list ModelSwarmDispatch * gset string) (wave : nat * list ModelSubtask)
  : Act (list ModelSwarmDispatch * gset string) :=
  let '(all_dispatches, failed_ids, runnable) := foldl (triage_one wave.1) (acc.1, acc.2, []) wave.2 in
  if negb (truthy runnable) then mret (all_dispatches, failed_ids)
  else
    wave_dispatches ← _dispatch_wave wave.1 runnable request endpoint_map total_deadline;
    mret (foldl record_dispatch (all_dispatches, failed_ids) wave_dispatches).

Definition handle (request : ModelSwarmFanoutRequest) : Act ModelSwarmFanoutResult :=
  let endpoint_map := _resolve_endpoint_map registry request in
  waves ← lift (_compute_waves depth (fq_subtasks request));
  now ← monotonic;
  let total_deadline := fadd now (float_of_Z (cf_total_run_timeout_seconds (fq_config request))) in
  wall_start ← monotonic;
  acc ← fold_each (combine (seq 0 (length waves)) waves) ([], ∅) (run_wave request endpoint_map total_deadline);
  wall_end ← monotonic;
  wall_latency_ms ← lift (py_trunc (fmul (fsub wall_end wall_start) (float_of_Z 1000)));
  let all_dispatches := acc.1 in
  let completed_count := count (fun d => bool_decide (fd_execution_status d = SUCCEEDED)) all_dispatches in
  let failed_count := (Z.of_nat (length all_dispatches) - Z.of_nat completed_count)%Z in
  mret {| fr_dispatches := all_dispatches; fr_wall_latency_ms := wall_latency_ms;
          fr_sum_subtask_latency_ms := foldr Z.add 0%Z (map fd_latency_ms all_dispatches);
          fr_run_id := fq_run_id request; fr_completed_count := Z.of_nat completed_count;
          fr_failed_count := failed_count; fr_degraded := (failed_count >? 0)%Z;
          fr_aggregation_mode := "collect_all"; fr_endpoint_registry_hash := fq_endpoint_registry_hash request;
          fr_routing_policy_hash := fq_routing_policy_hash request; fr_projection_ref := EmptyString |}.
End fanout.
