(* ===== verification/SwarmPlanProps.v ===== *)
(** * Swarm dispatch: a plan can be scheduled

    The decomposer's depth-first search lets through only subtasks whose
    dependencies can be ordered; from such an order the recursion that lays out
    the waves ends, and puts every subtask after the ones it depends on. *)
From S2P Require Import Prelude PyJson PyDyn SwarmPlan SwarmFanout.

(** ** Orders along the dependencies *)

(** [topo deps D L]: [L] lists nodes without repetition, each after those of its
    dependencies that are in [D]. *)
Inductive topo (deps : string -> list string) (D : gset string) : list string -> Prop :=
  | topo_nil : topo deps D []
  | topo_snoc L n :
      topo deps D L -> n ∉ L -> (forall d, d ∈ deps n -> d ∈ D -> d ∈ L) -> topo deps D (L ++ [n]).

(** The place of a node in the order. *)
Fixpoint place (L : list string) (n : string) : nat :=
  match L with [] => 0 | x :: L' => if decide (n = x) then 0 else S (place L' n) end.
Lemma place_app L k n : n ∈ L -> place (L ++ k) n = place L n.
Proof. induction L as [|x L IH]; simpl; [set_solver|]. case_decide; [done|]. intros Hn. rewrite IH; set_solver. Qed.
Lemma place_lt L n : n ∈ L -> place L n < length L.
Proof.
  induction L as [|x L IH]; simpl; [set_solver|]. case_decide; [lia|]. intros Hn.
  enough (place L n < length L) by lia. apply IH. set_solver.
Qed.
Lemma place_snoc L n : n ∉ L -> place (L ++ [n]) n = length L.
Proof.
  induction L as [|x L IH]; simpl; [by rewrite decide_True|]. intros Hn.
  rewrite decide_False by set_solver. rewrite IH; set_solver.
Qed.
Lemma topo_place deps D L n d : topo deps D L -> n ∈ L -> d ∈ deps n -> d ∈ D -> d ∈ L /\ place L d < place L n.
Proof.
  induction 1 as [|L m HL IH Hm Hd]; intros Hn Hdn HD; [set_solver|].
  apply elem_of_app in Hn as [Hn|Hn].
  - destruct IH as [HdL Hlt]; [done..|]. rewrite elem_of_app, !place_app by done. auto.
  - apply list_elem_of_singleton in Hn as ->. pose proof (Hd d Hdn HD) as HdL.
    rewrite elem_of_app, place_app, place_snoc by done. auto using place_lt.
Qed.

(** ** The depth-first search of the decomposer *)

Module Search.
Import Decomposer.

Section search.
Context (deps : string -> list string) (D : gset string).

(** The black nodes are ordered in [L]; a search leaves the gray ones as they are. *)
Definition good (color : gmap string Color) (L : list string) : Prop :=
  topo deps D L /\ (forall k, color !! k = Some _BLACK <-> k ∈ L) /\ dom color = D.
Definition same_gray (c c' : gmap string Color) : Prop := forall k, c !! k = Some _GRAY <-> c' !! k = Some _GRAY.

Definition search_ok (visit : string -> gmap string Color -> result (bool * gmap string Color)) : Prop :=
  forall n color color' L, color !! n = Some _WHITE -> visit n color = Ok (false, color') -> good color L ->
    exists L', good color' (L ++ L') /\ same_gray color color' /\ n ∈ L ++ L'.

Lemma same_gray_refl c : same_gray c c.
Proof. done. Qed.
Lemma visit_deps_ok visit l color color' L :
  search_ok visit -> visit_deps visit l color = Ok (false, color') -> good color L ->
  exists L', good color' (L ++ L') /\ same_gray color color' /\ forall d, d ∈ l -> d ∈ D -> d ∈ L ++ L'.
Proof.
  intros Hv. revert color L. induction l as [|d l IH]; intros color L; simpl.
  - intros [= ->] HL. exists []. rewrite app_nil_r. split_and!; [done|apply same_gray_refl|set_solver].
  - destruct (color !! d) as [[| |]|] eqn:Ed.
    + intros ([found c1] & E1 & E2)%result_bind_Ok HL. destruct found; [done|].
      destruct (Hv _ _ _ _ Ed E1 HL) as (L1 & H1 & G1 & M1).
      destruct (IH _ _ E2 H1) as (L2 & H2 & G2 & M2). exists (L1 ++ L2). rewrite app_assoc.
      split_and!; [done|intros k; by rewrite (G1 k), (G2 k)|].
      intros x Hx HD. apply elem_of_cons in Hx as [->|Hx]; [set_solver|auto].
    + done.
    + intros E HL. destruct (IH _ _ E HL) as (L1 & H1 & G1 & M1). exists L1. split_and!; [done..|].
      intros x Hx HD. apply elem_of_cons in Hx as [->|Hx]; [|auto]. apply elem_of_app. left. by apply HL.
    + intros E HL. destruct (IH _ _ E HL) as (L1 & H1 & G1 & M1). exists L1. split_and!; [done..|].
      intros x Hx HD. apply elem_of_cons in Hx as [->|Hx]; [|auto].
      destruct HL as (_ & _ & <-). apply elem_of_dom in HD as [? ?]. congruence.
Qed.
Lemma good_gray color L n : good color L -> color !! n = Some _WHITE -> good (<[n := _GRAY]> color) L.
Proof.
  intros (HL & HB & HD) Hn. split_and!; [done| |rewrite dom_insert_lookup_L by eauto; done].
  intros k. rewrite <- HB. destruct (decide (k = n)) as [->|]; [|by rewrite lookup_insert_ne by done].
  rewrite lookup_insert_eq, Hn. by split.
Qed.
Lemma dfs_ok depth : search_ok (dfs deps depth).
Proof.
  induction depth as [|depth IH]; intros n color color' L Hn; simpl; [done|].
  intros ([found c1] & E1 & E2)%result_bind_Ok HL. destruct found; simplify_eq.
  destruct (visit_deps_ok _ _ _ _ _ IH E1 (good_gray _ _ _ HL Hn)) as (L1 & (HL1 & HB1 & HD1) & G1 & M1).
  assert (c1 !! n = Some _GRAY) as Hg by (apply G1, lookup_insert_eq).
  exists (L1 ++ [n]). rewrite app_assoc. split_and!.
  - split_and!.
    + constructor; [done| |intros; by apply M1]. rewrite <- HB1, Hg. done.
    + intros k. rewrite elem_of_app, list_elem_of_singleton, <- HB1.
      destruct (decide (k = n)) as [->|]; [rewrite lookup_insert_eq; naive_solver|].
      rewrite lookup_insert_ne by done. naive_solver.
    + rewrite dom_insert_lookup_L by eauto. done.
  - intros k. destruct (decide (k = n)) as [->|]; [rewrite lookup_insert_eq, Hn; by split|].
    rewrite lookup_insert_ne by done. rewrite <- (G1 k). by rewrite lookup_insert_ne by done.
  - set_solver.
Qed.
Lemma first_cyclic_ok depth ids color L :
  first_cyclic deps depth ids color = Ok None -> good color L -> (forall k, color !! k <> Some _GRAY) ->
  exists L' color', good color' (L ++ L') /\ forall n, n ∈ ids -> n ∈ D -> n ∈ L ++ L'.
Proof.
  revert color L. induction ids as [|n ids IH]; intros color L; simpl.
  - intros _ HL _. exists [], color. rewrite app_nil_r. split; [done|set_solver].
  - destruct (color !! n) as [[| |]|] eqn:En.
    + intros ([found c1] & E1 & E2)%result_bind_Ok HL Hg. destruct found; [done|].
      destruct (dfs_ok _ _ _ _ _ En E1 HL) as (L1 & H1 & G1 & M1).
      destruct (IH _ _ E2 H1) as (L2 & c2 & H2 & M2); [intros k Hk; by apply (Hg k), G1|].
      exists (L1 ++ L2), c2. rewrite app_assoc. split; [done|]. intros x Hx HD. apply elem_of_cons in Hx as [->|Hx]; [set_solver|auto].
    + intros _ _ Hg. by destruct (Hg n).
    + intros E HL Hg. destruct (IH _ _ E HL Hg) as (L1 & c1 & H1 & M1). exists L1, c1. split; [done|].
      intros x Hx HD. apply elem_of_cons in Hx as [->|Hx]; [|auto]. apply elem_of_app. left. by apply HL.
    + intros E HL Hg. destruct (IH _ _ E HL Hg) as (L1 & c1 & H1 & M1). exists L1, c1. split; [done|].
      intros x Hx HD. apply elem_of_cons in Hx as [->|Hx]; [|auto].
      destruct HL as (_ & _ & <-). apply elem_of_dom in HD as [? ?]. congruence.
Qed.

(** *** It ends: a nested call has one white node less *)

Definition whites (color : gmap string Color) : nat := size (filter (fun kv => kv.2 = _WHITE) color).

Lemma whites_insert color n c : c <> _WHITE -> color !! n = Some _WHITE -> S (whites (<[n := c]> color)) = whites color.
Proof.
  intros Hc Hn. unfold whites. rewrite map_filter_insert_False by done.
  rewrite map_filter_delete, map_size_delete.
  assert (filter (fun kv : string * Color => kv.2 = _WHITE) color !! n = Some _WHITE) as Hf by (by apply map_lookup_filter_Some).
  rewrite Hf. simpl. assert (size (filter (fun kv : string * Color => kv.2 = _WHITE) color) <> 0); [|lia].
  intros Hz%map_size_empty_inv. by rewrite Hz, lookup_empty in Hf.
Qed.
Lemma whites_insert_le color n c : c <> _WHITE -> whites (<[n := c]> color) <= whites color.
Proof.
  intros Hc. unfold whites. rewrite map_filter_insert_False by done. rewrite map_filter_delete, map_size_delete.
  destruct (_ !! n); simpl; lia.
Qed.
Definition search_ends (bound : nat) (visit : string -> gmap string Color -> result (bool * gmap string Color)) : Prop :=
  forall n color, color !! n = Some _WHITE -> whites color <= bound ->
    exists b color', visit n color = Ok (b, color') /\ whites color' <= whites color.
Lemma visit_deps_ends bound visit l color :
  search_ends bound visit -> whites color <= bound ->
  exists b color', visit_deps visit l color = Ok (b, color') /\ whites color' <= whites color.
Proof.
  intros Hv. revert color. induction l as [|d l IH]; intros color Hw; simpl; [by eauto|].
  destruct (color !! d) as [[| |]|] eqn:Ed; [|by eauto..].
  destruct (Hv d color Ed Hw) as ([|] & c1 & E1 & H1); rewrite E1; simpl; [by eauto|].
  destruct (IH c1) as (b & c2 & E2 & H2); [lia|]. rewrite E2. eauto with lia.
Qed.
Lemma dfs_ends depth : search_ends depth (dfs deps depth).
Proof.
  induction depth as [|depth IH]; intros n color Hn Hw.
  - exfalso. pose proof (whites_insert color n _GRAY ltac:(done) Hn). lia.
  - pose proof (whites_insert color n _GRAY ltac:(done) Hn) as Hg. simpl.
    destruct (visit_deps_ends depth (dfs deps depth) (deps n) (<[n := _GRAY]> color) IH) as ([|] & c1 & E1 & H1); [lia| |];
      rewrite E1; simpl; do 2 eexists; (split; [done|]); [lia|].
    pose proof (whites_insert_le c1 n _BLACK ltac:(done)). lia.
Qed.
Lemma first_cyclic_ends depth ids color : whites color <= depth -> exists o, first_cyclic deps depth ids color = Ok o.
Proof.
  revert color. induction ids as [|n ids IH]; intros color Hw; simpl; [by eauto|].
  destruct (color !! n) as [[| |]|] eqn:En; [|by auto..].
  destruct (dfs_ends depth n color En Hw) as ([|] & c1 & E1 & H1); rewrite E1; simpl; [by eauto|]. apply IH. lia.
Qed.
End search.

(** *** All white *)

Lemma all_white_lookup ids k : all_white ids !! k = if decide (k ∈ ids) then Some _WHITE else None.
Proof.
  unfold all_white. induction ids as [|n ids IH] using rev_ind; [done|]. rewrite foldl_app. simpl.
  destruct (decide (k = n)) as [->|Hne].
  - rewrite lookup_insert_eq, decide_True by set_solver. done.
  - rewrite lookup_insert_ne, IH by done. repeat case_decide; set_solver.
Qed.
Lemma all_white_good deps ids : good deps (list_to_set ids) (all_white ids) [].
Proof.
  split_and!; [constructor| |].
  - intros k. rewrite all_white_lookup. case_decide; split; set_solver.
  - apply set_eq. intros k. rewrite elem_of_dom, all_white_lookup, elem_of_list_to_set. case_decide; [by eauto|].
    split; [by intros [? ?]|done].
Qed.
Lemma whites_all ids : whites (all_white ids) <= length ids.
Proof.
  unfold whites. etrans; [apply map_size_filter|]. unfold all_white.
  induction ids as [|n ids IH] using rev_ind; [done|]. rewrite foldl_app, length_app. simpl.
  rewrite map_size_insert. destruct (_ !! n); simpl; lia.
Qed.
Lemma dict_set_length {V} k (v : V) l : length (dict_set k v l) <= S (length l).
Proof. induction l as [|[k' v'] l IH]; simpl; [done|]. destruct (String.eqb k' k); simpl; lia. Qed.
Lemma dict_index_length {A} (key : A -> string) l : length (dict_index key l) <= length l.
Proof.
  induction l as [|x l IH] using rev_ind; [done|]. rewrite dict_index_snoc, length_app. simpl.
  pose proof (dict_set_length (key x) x (dict_index key l)). lia.
Qed.

(** What the search lets through has an order; it never runs out of a depth of
    one call per subtask. *)
Lemma detect_cycle_None depth l :
  _detect_cycle depth (id_to_subtask l) = Ok None ->
  exists L, topo (deps_of (id_to_subtask l)) (list_to_set (map ds_subtask_id l)) L
    /\ forall n, n ∈ L <-> n ∈ map ds_subtask_id l.
Proof.
  unfold _detect_cycle. intros ([sid|] & E & E2)%result_bind_Ok; [done|].
  assert (list_to_set (dict_keys (id_to_subtask l)) = (list_to_set (map ds_subtask_id l) : gset string)) as Hd.
  { apply set_eq. intros k. rewrite !elem_of_list_to_set. apply dict_index_keys. }
  destruct (first_cyclic_ok _ _ _ _ _ [] E (all_white_good _ _)) as (L & c & (HL & HB & HD) & Hall).
  { intros k. rewrite all_white_lookup. by case_decide. }
  rewrite Hd in *. exists L. split; [done|]. intros n. split; intros Hn.
  - apply HB in Hn. apply (elem_of_list_to_set (C := gset string)). rewrite <- HD. apply elem_of_dom. by eauto.
  - apply Hall; [by apply dict_index_keys|]. by apply elem_of_list_to_set.
Qed.
Lemma detect_cycle_ends depth l : length l <= depth -> exists o, _detect_cycle depth (id_to_subtask l) = Ok o.
Proof.
  intros Hl. unfold _detect_cycle.
  destruct (first_cyclic_ends (deps_of (id_to_subtask l)) depth (dict_keys (id_to_subtask l))
              (all_white (dict_keys (id_to_subtask l)))) as [o Eo]; [|rewrite Eo; simpl; by eauto].
  etrans; [apply whites_all|]. unfold dict_keys. rewrite length_map. etrans; [apply dict_index_length|done].
Qed.
End Search.

(** ** The waves of the fan-out *)

Section waves.
Context (deps : string -> option (list string)) (rank : string -> nat).
Context (ranked : forall n ds d, deps n = Some ds -> d ∈ ds -> is_Some (deps d) /\ rank d < rank n).

(** Each node is one wave after the last of its dependencies. *)
Definition layered (a : gmap string nat) : Prop := forall n w, a !! n = Some w ->
  exists ds, deps n = Some ds /\ (forall d, d ∈ ds -> exists w', a !! d = Some w' /\ w' < w)
    /\ (w = 0 \/ exists d, d ∈ ds /\ a !! d = Some (w - 1)).
(** Only nodes below [bound] are added. *)
Definition extends (bound : nat) (a a' : gmap string nat) : Prop :=
  a ⊆ a' /\ forall k, is_Some (a' !! k) -> is_Some (a !! k) \/ rank k < bound.
Definition wave_ok (bound : nat) (wave : string -> gmap string nat -> result (nat * gmap string nat)) : Prop :=
  forall n a, is_Some (deps n) -> rank n < bound -> layered a ->
    exists w a', wave n a = Ok (w, a') /\ layered a' /\ extends (S (rank n)) a a' /\ a' !! n = Some w.

Lemma wave_extends_refl bound a : extends bound a a.
Proof. split; auto. Qed.
Lemma wave_extends_trans b b' b'' a a' a'' : extends b a a' -> extends b' a' a'' -> b <= b'' -> b' <= b'' -> extends b'' a a''.
Proof.
  intros [S1 H1] [S2 H2] ? ?. split; [by etrans|]. intros k Hk.
  destruct (H2 k Hk) as [Hk'|]; [|right; lia]. destruct (H1 k Hk'); [by left|right; lia].
Qed.

Lemma max_wave_of_ok bound wave ds m a :
  wave_ok bound wave -> (forall d, d ∈ ds -> is_Some (deps d) /\ rank d < bound) -> layered a ->
  exists m' a', max_wave_of wave ds m a = Ok (m', a') /\ layered a' /\ extends bound a a' /\ m <= m'
    /\ (forall d, d ∈ ds -> exists w, a' !! d = Some w /\ w <= m') /\ (m' = m \/ exists d, d ∈ ds /\ a' !! d = Some m').
Proof.
  intros Hw. revert m a. induction ds as [|d ds IH]; intros m a Hds Ha; simpl.
  - exists m, a. split_and!; [done..|apply wave_extends_refl|done|set_solver|by left].
  - destruct (Hds d) as [Hd Hb]; [left|]. destruct (Hw d a Hd Hb Ha) as (w & a1 & -> & H1 & X1 & L1). simpl.
    destruct (IH (m `max` w) a1) as (m' & a2 & -> & H2 & X2 & Hm & Hall & Hone); [intros; apply Hds; by right|done|].
    pose proof (lookup_weaken _ _ _ _ L1 (proj1 X2)) as L2.
    exists m', a2. split_and!; [done|done|eapply wave_extends_trans; [done|done|lia|done]|lia| |].
    + intros x [->|Hx]%elem_of_cons; [exists w; split; [done|lia]|auto].
    + destruct Hone as [->|(x & Hx & Hxm)]; [|right; exists x; split; [by right|done]].
      destruct (Nat.max_spec m w) as [[_ ->]|[_ ->]]; [|by left]. right. exists d. split; [left|done].
Qed.
Lemma layered_insert a n w ds :
  layered a -> a !! n = None -> deps n = Some ds -> (forall d, d ∈ ds -> exists w', a !! d = Some w' /\ w' < w) ->
  (w = 0 \/ exists d, d ∈ ds /\ a !! d = Some (w - 1)) -> layered (<[n := w]> a).
Proof.
  intros Ha Hn Hds Hall Hone.
  assert (forall d w', a !! d = Some w' -> <[n := w]> a !! d = Some w') as Hmono.
  { intros d w' Hd. rewrite lookup_insert_ne; [done|]. intros ->. congruence. }
  intros k v. destruct (decide (k = n)) as [->|Hne].
  - rewrite lookup_insert_eq. intros [= <-]. exists ds. naive_solver.
  - rewrite lookup_insert_ne by done. intros Hk. destruct (Ha k v Hk) as (ds' & Hds' & H1 & H2). exists ds'. naive_solver.
Qed.
Lemma wave_of_ok depth : wave_ok depth (_wave_of deps depth).
Proof.
  induction depth as [|depth IH]; intros n a [ds Hn] Hr Ha; [lia|]. simpl.
  destruct (a !! n) as [w|] eqn:En; [exists w, a; split_and!; [done..|apply wave_extends_refl|done]|]. rewrite Hn.
  assert (forall w a', layered a' -> extends (rank n) a a' -> (forall d, d ∈ ds -> exists w', a' !! d = Some w' /\ w' < w) ->
    (w = 0 \/ exists d, d ∈ ds /\ a' !! d = Some (w - 1)) ->
    layered (<[n := w]> a') /\ extends (S (rank n)) a (<[n := w]> a') /\ <[n := w]> a' !! n = Some w) as Hins.
  { intros w a' Ha' [Hsub Hdom] Hall Hone.
    assert (a' !! n = None) as Hn'.
    { destruct (a' !! n) eqn:E; [|done]. destruct (Hdom n) as [[? ?]|]; [by eauto|congruence|lia]. }
    split_and!; [by eapply layered_insert|split|apply lookup_insert_eq].
    - by apply insert_subseteq_r.
    - intros k Hk. destruct (decide (k = n)) as [->|]; [right; lia|]. rewrite lookup_insert_ne in Hk by done.
      destruct (Hdom k Hk); [by left|right; lia]. }
  destruct ds as [|d0 ds].
  - exists 0, (<[n := 0]> a). split; [done|]. apply Hins; [done|apply wave_extends_refl|set_solver|by left].
  - assert (forall d, d ∈ d0 :: ds -> is_Some (deps d) /\ rank d < rank n) as Hds by (intros; by eapply ranked).
    destruct (max_wave_of_ok (rank n) (_wave_of deps depth) (d0 :: ds) 0 a) as (m & a' & E & Ha' & Hx & _ & Hall & Hone);
      [intros k a0 Hk Hrk; apply IH; [done|lia]|done|done|].
    set (wave := max_wave_of _ _ _ _) in *. rewrite E. simpl. exists (m + 1), (<[n := m + 1]> a'). split; [done|].
    apply Hins; [done|done| |].
    + intros d Hd. destruct (Hall d Hd) as (w & ? & ?). exists w. split; [done|lia].
    + right. replace (m + 1 - 1) with m by lia. destruct Hone as [->|?]; [|done].
      exists d0. split; [left|]. destruct (Hall d0) as (w & Hw & ?); [left|]. by replace 0 with w by lia.
Qed.
Lemma assign_waves_ok depth ids a :
  (forall n, n ∈ ids -> is_Some (deps n) /\ rank n < depth) -> layered a ->
  exists a', assign_waves deps depth ids a = Ok a' /\ layered a' /\ a ⊆ a' /\ forall n, n ∈ ids -> is_Some (a' !! n).
Proof.
  revert a. induction ids as [|n ids IH]; intros a Hids Ha; simpl; [exists a; split_and!; [done..|set_solver]|].
  destruct (Hids n) as [Hd Hr]; [left|]. destruct (wave_of_ok depth n a Hd Hr Ha) as (w & a1 & -> & H1 & [S1 _] & L1). simpl.
  destruct (IH a1) as (a2 & -> & H2 & S2 & Hall); [intros; apply Hids; by right|done|].
  exists a2. split_and!; [done|done|by etrans|]. intros k [->|Hk]%elem_of_cons; [|auto].
  eexists. by eapply lookup_weaken.
Qed.
End waves.

Lemma max_value_spec (a : gmap string nat) :
  (forall n w, a !! n = Some w -> w <= max_value a) /\ (a <> ∅ -> exists n, a !! n = Some (max_value a)).
Proof.
  enough ((forall n w, a !! n = Some w -> w <= max_value a) /\ (a <> ∅ -> exists n, a !! n = Some (max_value a))
          /\ (a = ∅ -> max_value a = 0)) by naive_solver.
  unfold max_value. apply (map_fold_weak_ind (fun m (a : gmap string nat) =>
    (forall n w, a !! n = Some w -> w <= m) /\ (a <> ∅ -> exists n, a !! n = Some m) /\ (a = ∅ -> m = 0))).
  - split_and!; [|done..]. intros n w. by rewrite lookup_empty.
  - intros k w a' m Hk (H1 & H2 & H3). split_and!.
    + intros n v. destruct (decide (n = k)) as [->|]; [rewrite lookup_insert_eq; intros [= ->]; lia|].
      rewrite lookup_insert_ne by done. intros Hn%H1. lia.
    + intros _. destruct (decide (m <= w)) as [Hle|Hgt].
      * exists k. rewrite lookup_insert_eq. f_equal. lia.
      * destruct H2 as [n Hn]; [intros ->; rewrite H3 in Hgt by done; lia|].
        exists n. rewrite lookup_insert_ne by (intros ->; congruence). rewrite Hn. f_equal. lia.
    + intros E. by apply insert_non_empty in E.
Qed.

(** The list of lists a position picks. *)
Lemma append_waves_lookup assigned l ws i :
  foldl (append_to_wave assigned) ws l !! i
  = (fun w => w ++ filter (fun s => default 0 (assigned !! fs_subtask_id s) = i) l) <$> ws !! i.
Proof.
  revert ws. induction l as [|s l IH]; intros ws; simpl.
  - destruct (ws !! i); simpl; [by rewrite app_nil_r|done].
  - rewrite IH. unfold append_to_wave. rewrite filter_cons. case_decide as Hd.
    + subst i. rewrite list_lookup_alter_eq. destruct (ws !! _); simpl; [|done]. by rewrite <- app_assoc.
    + by rewrite list_lookup_alter_ne by done.
Qed.
Lemma concat_alter_snoc {A} (x : A) i (ws : list (list A)) :
  i < length ws -> concat (alter (fun w => w ++ [x]) i ws) ≡ₚ x :: concat ws.
Proof.
  revert i. induction ws as [|w ws IH]; intros [|i] Hi; csimpl in *; try lia.
  - rewrite <- app_assoc. simpl. by rewrite Permutation_middle.
  - rewrite IH by lia. by rewrite Permutation_middle.
Qed.
Lemma append_waves_concat assigned l ws :
  (forall s, s ∈ l -> default 0 (assigned !! fs_subtask_id s) < length ws) ->
  concat (foldl (append_to_wave assigned) ws l) ≡ₚ concat ws ++ l.
Proof.
  revert ws. induction l as [|s l IH]; intros ws Hl; simpl; [by rewrite app_nil_r|].
  rewrite IH; unfold append_to_wave.
  - rewrite concat_alter_snoc by (apply Hl; left). by rewrite <- Permutation_middle.
  - intros s' Hs'. rewrite length_alter. apply Hl. by right.
Qed.
Lemma concat_map_perm {A} (f : list A -> list A) ws : (forall l, f l ≡ₚ l) -> concat (map f ws) ≡ₚ concat ws.
Proof. intros Hf. induction ws as [|w ws IH]; simpl; [done|]. by rewrite Hf, IH. Qed.
Lemma concat_replicate_nil {A} n : concat (replicate n (@nil A)) = [].
Proof. by induction n. Qed.

Section schedule.
Context (l : list ModelSubtask) (a : gmap string nat).
Context (assigned : forall s, s ∈ l -> exists w, a !! fs_subtask_id s = Some w).
Abbreviation waves := (map (sort_by fs_subtask_id) (foldl (append_to_wave a) (replicate (max_value a + 1) []) l)).

Lemma wave_at i : i <= max_value a -> exists wave, waves !! i = Some wave.
Proof.
  intros Hi. rewrite list_lookup_fmap, append_waves_lookup, lookup_replicate_2 by lia. simpl. eauto.
Qed.
Lemma wave_holds i wave : waves !! i = Some wave ->
  i <= max_value a /\ forall s, s ∈ wave <-> s ∈ l /\ a !! fs_subtask_id s = Some i.
Proof using assigned.
  rewrite list_lookup_fmap, append_waves_lookup.
  destruct (decide (i < max_value a + 1)) as [Hi|Hi].
  - rewrite lookup_replicate_2 by done. simpl. intros [= <-]. split; [lia|]. intros s. rewrite sort_by_perm, list_elem_of_filter.
    split; [intros [Hd Hs]|by intros [Hs ->]]. split; [done|]. destruct (assigned s Hs) as [w Hw]. rewrite Hw in *. by subst.
  - rewrite lookup_ge_None_2 by (rewrite length_replicate; lia). done.
Qed.
Lemma waves_concat : concat waves ≡ₚ l.
Proof using assigned.
  rewrite (concat_map_perm (sort_by fs_subtask_id)) by (intros; apply sort_by_perm).
  rewrite append_waves_concat, concat_replicate_nil; [done|].
  intros s Hs. destruct (assigned s Hs) as [w Hw]. rewrite Hw, length_replicate. simpl.
  pose proof (proj1 (max_value_spec a) _ _ Hw). lia.
Qed.
(** In a layered assignment no number up to the largest is left out. *)
Lemma layered_no_gap deps i : layered deps a -> a <> ∅ -> i <= max_value a -> exists n, a !! n = Some i.
Proof.
  intros Hlay Hne. remember (max_value a - i) as k eqn:Ek. revert i Ek. induction k as [|k IH]; intros i Ek Hle.
  - replace i with (max_value a) by lia. by apply max_value_spec.
  - destruct (IH (S i)) as [n Hn]; [lia..|]. destruct (Hlay n (S i) Hn) as (ds & _ & _ & [|(d & _ & Hd)]); [done|].
    exists d. rewrite Hd. f_equal. lia.
Qed.
End schedule.

Lemma deps_of_Some l n ds : deps_of l n = Some ds -> exists s, s ∈ l /\ fs_subtask_id s = n /\ fs_depends_on s = ds.
Proof.
  unfold deps_of. destruct (dict_get n _) as [s|] eqn:E; [|done]. intros [= <-]. apply dict_index_Some in E as [? ?]. by exists s.
Qed.
Lemma deps_of_elem l s : NoDup (map fs_subtask_id l) -> s ∈ l -> deps_of l (fs_subtask_id s) = Some (fs_depends_on s).
Proof. intros Hnd Hs. unfold deps_of, id_to_subtask. by rewrite dict_index_elem. Qed.

(** Every subtask in one wave, no wave empty, dependencies in earlier waves. *)
Definition scheduled (l : list ModelSubtask) (waves : list (list ModelSubtask)) : Prop :=
  concat waves ≡ₚ l /\ Forall (fun w => w <> []) waves
  /\ forall i wave s d, waves !! i = Some wave -> s ∈ wave -> d ∈ fs_depends_on s ->
       exists j wave' s', j < i /\ waves !! j = Some wave' /\ s' ∈ wave' /\ fs_subtask_id s' = d.

Lemma compute_waves_ok depth l (rank : string -> nat) :
  (forall n ds d, deps_of l n = Some ds -> d ∈ ds -> is_Some (deps_of l d) /\ rank d < rank n) ->
  (forall s, s ∈ l -> rank (fs_subtask_id s) < depth) -> NoDup (map fs_subtask_id l) ->
  exists waves, _compute_waves depth l = Ok waves /\ scheduled l waves.
Proof.
  intros Hrk Hdep Hnd.
  destruct (assign_waves_ok (deps_of l) rank Hrk depth (map fs_subtask_id l) ∅) as (a & Ea & Hlay & _ & Hall).
  { intros n (s & -> & Hs)%list_elem_of_fmap. split; [|by apply Hdep]. by rewrite deps_of_elem. }
  { intros n w. by rewrite lookup_empty. }
  assert (forall s, s ∈ l -> exists w, a !! fs_subtask_id s = Some w) as Hasg.
  { intros s Hs. destruct (Hall (fs_subtask_id s)) as [w Hw]; [by apply list_elem_of_fmap_2|]. eauto. }
  unfold _compute_waves. rewrite Ea. simpl. case_bool_decide as Hemp; eexists; (split; [done|]).
  { destruct l as [|s l]; [split_and!; [done|constructor|by intros i]|].
    destruct (Hasg s) as (w & Hw); [left|]. by rewrite Hemp, lookup_empty in Hw. }
  split_and!; [by apply waves_concat| |].
  - apply Forall_lookup. intros i wave Hi ->. destruct (wave_holds l a Hasg i [] Hi) as [Hle Hin].
    destruct (layered_no_gap a (deps_of l) i Hlay Hemp Hle) as [n Hn].
    destruct (Hlay n i Hn) as (ds & Hds & _). destruct (deps_of_Some l n ds Hds) as (s & Hs & <- & _).
    by apply (not_elem_of_nil s), Hin.
  - intros i wave s d Hi Hs Hd. apply (wave_holds l a Hasg i wave Hi) in Hs as [Hs Ha].
    destruct (Hlay _ _ Ha) as (ds & Hds & Hlt & _). rewrite deps_of_elem in Hds by done. injection Hds as <-.
    destruct (Hlt d Hd) as (j & Hj & Hji). pose proof (proj1 (max_value_spec a) _ _ Ha).
    destruct (wave_at l a j) as [wave' Hw']; [lia|].
    destruct (Hlay _ _ Hj) as (ds & Hds & _). destruct (deps_of_Some l d ds Hds) as (s' & Hs' & <- & _).
    exists j, wave', s'. split_and!; [done..| |done]. by apply (wave_holds l a Hasg j wave' Hw').
Qed.

(** *** Every layout that succeeds *)

Section succeeds.
Context (deps : string -> option (list string)).

(** [n] and all it depends on, directly or not, are there, and no cycle is. *)
Inductive sound : string -> Prop :=
  | sound_intro n ds : deps n = Some ds -> (forall d, d ∈ ds -> sound d) -> sound n.
Definition all_sound (a : gmap string nat) : Prop := forall k w, a !! k = Some w -> sound k.
Definition wave_sound (wave : string -> gmap string nat -> result (nat * gmap string nat)) : Prop :=
  forall n a w a', wave n a = Ok (w, a') -> all_sound a -> sound n /\ all_sound a'.
Lemma max_wave_sound wave ds : wave_sound wave -> forall m a w a',
  max_wave_of wave ds m a = Ok (w, a') -> all_sound a -> (forall d, d ∈ ds -> sound d) /\ all_sound a'.
Proof.
  intros Hw. induction ds as [|d ds IH]; intros m a w a'; simpl.
  - intros [= _ <-] Ha. split; [by intros d ?%not_elem_of_nil|done].
  - intros ([w1 a1] & H1 & H2)%result_bind_Ok Ha. destruct (Hw _ _ _ _ H1 Ha) as [Hd Ha1]. destruct (IH _ _ _ _ H2 Ha1) as [Hds Ha2].
    split; [|done]. by intros d' [->|?]%elem_of_cons; [|apply Hds].
Qed.
Lemma wave_of_sound depth : wave_sound (_wave_of deps depth).
Proof.
  induction depth as [|depth IH]; intros n a w a'; [done|]. simpl. destruct (a !! n) as [w0|] eqn:En.
  - intros [= _ <-] Ha. split; [by eapply Ha|done].
  - destruct (deps n) as [ds|] eqn:Ed; [|done].
    assert (forall k a1, (forall d, d ∈ ds -> sound d) -> all_sound a1 -> sound n /\ all_sound (<[n := k]> a1)) as Hins.
    { intros k a1 Hds Ha1. assert (sound n) as Hn by by econstructor. split; [done|].
      intros x v [[<- _]|[_ Hx]]%lookup_insert_Some; [done|by eapply Ha1]. }
    destruct ds as [|d ds].
    + intros [= _ <-] Ha. apply Hins; [by intros d ?%not_elem_of_nil|done].
    + intros ([m a1] & Hm & [= _ <-])%result_bind_Ok Ha. destruct (max_wave_sound _ _ IH _ _ _ _ Hm Ha) as [Hds Ha1]. by apply Hins.
Qed.
Lemma assign_waves_sound depth ids : forall a a',
  assign_waves deps depth ids a = Ok a' -> all_sound a -> forall n, n ∈ ids -> sound n.
Proof.
  induction ids as [|n ids IH]; intros a a'; simpl; [by intros _ _ n ?%not_elem_of_nil|].
  intros ([w a1] & Hw & H)%result_bind_Ok Ha. destruct (wave_of_sound _ _ _ _ _ Hw Ha) as [Hn Ha1].
  intros n' [->|Hin]%elem_of_cons; [done|]. by eapply IH.
Qed.

(** How far the dependencies of a sound subtask go down. *)
Fixpoint height (fuel : nat) (n : string) : nat :=
  match fuel with
  | O => 0
  | S fuel => match deps n with Some ds => S (max_list_with (height fuel) ds) | None => 0 end
  end.
Definition stable (k : nat) (n : string) : Prop := forall j, k <= j -> height j n = height k n.
Lemma stable_le k k' n : k <= k' -> stable k n -> stable k' n.
Proof. intros Hk H j Hj. rewrite (H j), (H k'); lia. Qed.
Lemma common_stable (ds : list string) : (forall d, d ∈ ds -> exists k, stable k d) -> exists k, forall d, d ∈ ds -> stable k d.
Proof.
  induction ds as [|d ds IH]; intros H; [exists 0; by intros d ?%not_elem_of_nil|].
  destruct IH as [k Hk]; [intros d' Hd; apply H; by right|]. destruct (H d ltac:(left)) as [k' Hk']. exists (k `max` k').
  intros d' [->|Hd]%elem_of_cons; [apply (stable_le k')|apply (stable_le k)]; auto; lia.
Qed.
Lemma max_list_with_ext (f g : string -> nat) l : (forall x, x ∈ l -> f x = g x) -> max_list_with f l = max_list_with g l.
Proof. induction l as [|x l IH]; intros H; simpl; [done|]. rewrite (H x ltac:(left)), IH; [done|]. intros y Hy. apply H. by right. Qed.
Lemma max_list_with_ge (f : string -> nat) l x : x ∈ l -> f x <= max_list_with f l.
Proof. induction 1; simpl; lia. Qed.
Lemma sound_stable n : sound n -> exists k, stable k n.
Proof.
  induction 1 as [n ds Hn _ IH]. destruct (common_stable ds IH) as [k Hk]. exists (S k). intros [|j] Hj; [lia|]. simpl. rewrite Hn. f_equal.
  apply max_list_with_ext. intros d Hd. apply (Hk d Hd). lia.
Qed.

(** Deeper calls compute the same. *)
Lemma max_wave_mono wave wave' ds : (forall n a r, wave n a = Ok r -> wave' n a = Ok r) ->
  forall m (a : gmap string nat) r, max_wave_of wave ds m a = Ok r -> max_wave_of wave' ds m a = Ok r.
Proof.
  intros Hw. induction ds as [|d ds IH]; intros m a r; simpl; [done|].
  intros ([w1 a1] & H1 & H2)%result_bind_Ok. rewrite (Hw _ _ _ H1). simpl. by apply IH.
Qed.
Lemma wave_of_mono depth depth' : depth <= depth' -> forall n a r, _wave_of deps depth n a = Ok r -> _wave_of deps depth' n a = Ok r.
Proof.
  revert depth'. induction depth as [|depth IH]; intros [|depth'] Hle n a r; [done|done|lia|]. simpl.
  destruct (a !! n); [done|]. destruct (deps n) as [[|d ds]|]; [done| |done].
  intros ([m a1] & Hm & Hr)%result_bind_Ok. rewrite (max_wave_mono _ (_wave_of deps depth') _ (IH depth' ltac:(lia)) _ _ _ Hm). exact Hr.
Qed.
Lemma assign_waves_mono depth depth' ids : depth <= depth' -> forall a r,
  assign_waves deps depth ids a = Ok r -> assign_waves deps depth' ids a = Ok r.
Proof.
  intros Hle. induction ids as [|n ids IH]; intros a r; simpl; [done|].
  intros ([w a1] & Hw & Hr)%result_bind_Ok. rewrite (wave_of_mono _ _ Hle _ _ _ Hw). simpl. by apply IH.
Qed.
End succeeds.

Lemma compute_waves_mono depth depth' l waves : depth <= depth' -> _compute_waves depth l = Ok waves -> _compute_waves depth' l = Ok waves.
Proof. intros Hle. unfold _compute_waves. intros (a & Ha & Hw)%result_bind_Ok. by rewrite (assign_waves_mono _ _ _ _ Hle _ _ Ha). Qed.

(** Whatever layout of distinct subtasks succeeds puts each in one wave, after those
    it depends on. *)
Lemma computed_scheduled depth l waves : NoDup (map fs_subtask_id l) -> _compute_waves depth l = Ok waves -> scheduled l waves.
Proof.
  intros Hnd Hw. pose proof Hw as Hw0. unfold _compute_waves in Hw0. apply result_bind_Ok in Hw0 as (a & Ha & _).
  assert (forall n, n ∈ map fs_subtask_id l -> sound (deps_of l) n) as Hsound.
  { eapply assign_waves_sound; [exact Ha|]. by intros k w ?%lookup_empty_Some. }
  destruct (common_stable (deps_of l) (map fs_subtask_id l)) as [k Hk]; [intros n Hn; by apply sound_stable, Hsound|].
  set (rank := height (deps_of l) (S k)).
  destruct (compute_waves_ok (S (max_list_with rank (map fs_subtask_id l))) l rank) as (waves' & Hw' & Hs).
  - intros n ds d Hn Hd. pose proof Hn as (st & Hst & <- & _)%deps_of_Some.
    destruct (Hsound (fs_subtask_id st)) as [n0 ds' Hn' Hds]; [by apply list_elem_of_fmap_2|].
    rewrite Hn in Hn'. injection Hn' as <-. destruct (Hds d Hd) as [d ds' Hd' _]. split; [by rewrite Hd'|].
    assert (d ∈ map fs_subtask_id l) as Hin by (apply deps_of_Some in Hd' as (st' & Hst' & <- & _); by apply list_elem_of_fmap_2).
    unfold rank. rewrite (Hk d Hin (S k)) by lia. simpl. rewrite Hn. pose proof (max_list_with_ge (height (deps_of l) k) ds d Hd). lia.
  - intros st Hst. pose proof (max_list_with_ge rank (map fs_subtask_id l) (fs_subtask_id st) (list_elem_of_fmap_2 fs_subtask_id _ _ Hst)). lia.
  - exact Hnd.
  - set (depth' := S _) in Hw'. apply (compute_waves_mono _ (depth `max` depth')) in Hw; [|lia].
    apply (compute_waves_mono _ (depth `max` depth')) in Hw'; [|lia]. congruence.
Qed.

(** ** What the decomposer lets through *)

Module Plan.
Import Decomposer.

Lemma dangling_None known l : dangling known l = None -> forall st d, st ∈ l -> d ∈ ds_depends_on st -> d ∈ known.
Proof.
  induction l as [|st l IH]; simpl; [set_solver|].
  destruct (List.find _ _) as [d|] eqn:E; [done|]. intros Hl st' d [->|Hst]%elem_of_cons Hd; [|by eapply IH].
  apply list_elem_of_In in Hd. apply (find_none _ _ E), negb_false_iff, str_in_spec in Hd. done.
Qed.
Lemma clean_affinity_same endpoint_ids st :
  ds_subtask_id (clean_affinity endpoint_ids st) = ds_subtask_id st
  /\ ds_depends_on (clean_affinity endpoint_ids st) = ds_depends_on st.
Proof. unfold clean_affinity. by destruct (unknown_affinity _ _). Qed.

(** An order exists for the subtasks of [l], and their dependencies are among them. *)
Definition orderable (l : list Decomposer.ModelSubtask) : Prop :=
  l <> [] /\ (forall st d, st ∈ l -> d ∈ ds_depends_on st -> d ∈ map ds_subtask_id l)
  /\ exists L, topo (Decomposer.deps_of (Decomposer.id_to_subtask l)) (list_to_set (map ds_subtask_id l)) L
       /\ forall n, n ∈ L <-> n ∈ map ds_subtask_id l.

Lemma single_orderable st : ds_depends_on st = [] -> orderable [st].
Proof.
  intros Hst. split_and!; [done|intros st' d ->%list_elem_of_singleton; rewrite Hst; set_solver|].
  exists [ds_subtask_id st]. split; [|done].
  apply (topo_snoc _ _ []); [constructor|set_solver|]. intros d Hd. unfold Decomposer.deps_of in Hd. simpl in Hd.
  rewrite String.eqb_refl, Hst in Hd. set_solver.
Qed.
Lemma passthrough_orderable task task_hash : orderable [_passthrough_subtask task task_hash].
Proof. by apply single_orderable. Qed.
Lemma validate_accepts depth subtasks endpoint_ids limit cleaned warns :
  validate_decomposition depth subtasks endpoint_ids limit = Ok (cleaned, warns, None) -> subtasks <> [] ->
  orderable cleaned.
Proof.
  unfold validate_decomposition. destruct (blank_reason subtasks); [done|].
  destruct (dangling _ _) eqn:Hdang; [done|].
  intros ([reason|] & E & E2)%result_bind_Ok Hne; [done|]. injection E2 as <- _. split_and!.
  - by destruct subtasks.
  - by eapply dangling_None.
  - by eapply Search.detect_cycle_None.
Qed.
Lemma validate_rejects depth subtasks endpoint_ids limit cleaned warns reason :
  validate_decomposition depth subtasks endpoint_ids limit = Ok (cleaned, warns, Some reason) -> truthy reason = true.
Proof.
  unfold validate_decomposition. destruct (blank_reason subtasks) as [r|] eqn:Eb.
  - intros [= _ _ <-]. revert Eb. unfold blank_reason. by destruct (List.find _ _); intros [= <-].
  - destruct (dangling _ _) as [r|] eqn:Ed.
    + intros [= _ _ <-]. revert Ed. generalize (map ds_subtask_id (map (clean_affinity endpoint_ids) subtasks)) as known.
      intros known. induction (map (clean_affinity endpoint_ids) subtasks) as [|st l IH]; simpl; [done|].
      destruct (List.find _ _); [by intros [= <-]|done].
    + intros ([r|] & E & E2)%result_bind_Ok; [|done]. injection E2 as _ _ ->.
      revert E. unfold _detect_cycle. intros ([sid|] & _ & E)%result_bind_Ok; [|done]. by injection E as <-.
Qed.
Lemma decompose_result_orderable request u c h l status warns r :
  Ok (decompose_result request u c h l status warns) = Ok r -> orderable l ->
  orderable (dc_subtasks (dr_decomposition r)).
Proof. by intros [= <-]. Qed.
Lemma handle_orderable depth u c request r :
  handle depth u c request = Ok r -> orderable (dc_subtasks (dr_decomposition r)).
Proof.
  unfold handle. destruct (negb _); [intros H; apply (decompose_result_orderable _ _ _ _ _ _ _ _ H), passthrough_orderable|].
  destruct (_ && _); [intros H; apply (decompose_result_orderable _ _ _ _ _ _ _ _ H), passthrough_orderable|].
  intros (subtasks & _ & H)%result_bind_Ok.
  destruct (negb (truthy subtasks)) eqn:Ht; [apply (decompose_result_orderable _ _ _ _ _ _ _ _ H), passthrough_orderable|].
  apply result_bind_Ok in H as ([[cleaned warns] [reason|]] & Hv & H).
  - pose proof (validate_rejects _ _ _ _ _ _ _ Hv) as Hr. change (truthy (Some reason)) with (truthy reason) in H. rewrite Hr in H.
    apply (decompose_result_orderable _ _ _ _ _ _ _ _ H), passthrough_orderable.
  - apply (decompose_result_orderable _ _ _ _ _ _ _ _ H). eapply validate_accepts; [done|]. by destruct subtasks.
Qed.

(** With a depth of one call per subtask only the parsing can raise. *)
Lemma handle_raises depth u c request e :
  handle depth u c request = Raise e ->
  (forall l, _parse_subtasks (dq_planner_output request) (_task_hash (py_or (dq_original_task request) (dq_planner_output_hash request)))
               (dq_endpoint_ids request) = Ok l -> length l <= depth) ->
  _parse_subtasks (dq_planner_output request) (_task_hash (py_or (dq_original_task request) (dq_planner_output_hash request)))
    (dq_endpoint_ids request) = Raise e.
Proof.
  unfold handle. destruct (negb _); [done|]. destruct (_ && _); [done|].
  destruct (_parse_subtasks _ _ _) as [subtasks|e']; simpl; [|by intros [= ->]]. intros H Hd.
  destruct (negb _); [done|]. specialize (Hd subtasks eq_refl). exfalso. revert H.
  unfold validate_decomposition. destruct (blank_reason subtasks) as [reason|]; [by destruct reason|].
  destruct (dangling _ _) as [reason|]; [by destruct reason|].
  destruct (Search.detect_cycle_ends depth (map (clean_affinity (dq_endpoint_ids request)) subtasks)) as [o Eo];
    [by rewrite length_map|]. rewrite Eo. destruct o as [reason|]; [|done].
  by destruct reason.
Qed.

(** The fan-out's subtask stands for the decomposer's. *)
Definition same_node (st : Decomposer.ModelSubtask) (s : SwarmFanout.ModelSubtask) : Prop :=
  fs_subtask_id s = ds_subtask_id st /\ fs_depends_on s = ds_depends_on st.
Lemma same_nodes_ids l l' : Forall2 same_node l l' -> map fs_subtask_id l' = map ds_subtask_id l.
Proof. induction 1 as [|st s l l' [Hid _] _ IH]; simpl; [done|]. by rewrite Hid, IH. Qed.

Lemma topo_length deps D L : topo deps D L -> NoDup L.
Proof.
  induction 1 as [|L n _ IH Hn]; [constructor|]. apply NoDup_app. split_and!; [done|set_solver|apply NoDup_singleton].
Qed.
Lemma orderable_scheduled depth l l' :
  orderable l -> NoDup (map ds_subtask_id l) -> Forall2 same_node l l' -> length l <= depth ->
  exists waves, _compute_waves depth l' = Ok waves /\ scheduled l' waves.
Proof.
  intros (_ & Hcl & L & HL & Hall) Hnd Hsame Hdep. pose proof (same_nodes_ids _ _ Hsame) as Hids.
  assert (length L <= length l) as HlenL.
  { rewrite <- (length_map ds_subtask_id l). apply submseteq_length, NoDup_submseteq; [by eapply topo_length|]. intros n. apply Hall. }
  apply (compute_waves_ok depth l' (place L)); [| |by rewrite Hids].
  - intros n ds d (s & Hs & <- & <-)%deps_of_Some Hd.
    apply list_elem_of_lookup in Hs as [i Hi]. destruct (Forall2_lookup_r _ _ _ _ _ Hsame Hi) as (st & Hst & Hid & Hds).
    apply list_elem_of_lookup_2 in Hst. rewrite Hds in Hd. pose proof (Hcl st d Hst Hd) as Hdl. split.
    + unfold SwarmFanout.deps_of, SwarmFanout.id_to_subtask. apply fmap_is_Some, dict_index_is_Some. by rewrite Hids.
    + apply (topo_place _ _ _ _ _ HL); [| |by apply elem_of_list_to_set].
      * apply Hall. rewrite Hid. by apply list_elem_of_fmap_2.
      * unfold Decomposer.deps_of, Decomposer.id_to_subtask. rewrite Hid. by rewrite dict_index_elem.
  - intros s Hs. eapply Nat.lt_le_trans; [apply place_lt, Hall; rewrite <- Hids; by apply list_elem_of_fmap_2|lia].
Qed.
End Plan.

(** ** The choice of the endpoints *)

Module Selection.
Import Registry.

Section selection.
Context (endpoints : list ModelRegistryEndpoint) (endpoint_health : list (string * ModelEndpointHealth)).

(** The endpoint is reachable, has the category among its capabilities, and its
    context window, when known, is large enough. *)
Definition suits (s : Registry.ModelSubtask) (ep : ModelRegistryEndpoint) : Prop :=
  capable_healthy s endpoint_health ep = true /\ _fits_context ep (rs_estimated_tokens s) = true.

Lemma select_Some s e reason :
  _select_for_subtask s endpoints endpoint_health = (Some e, reason) -> exists ep, ep ∈ endpoints /\ re_id ep = e /\ suits s ep.
Proof.
  unfold _select_for_subtask. destruct (affinity_match s endpoints endpoint_health) eqn:Ha.
  - intros [= <- _]. unfold affinity_match in Ha. apply andb_true_iff in Ha as [_ Ha].
    destruct (List.find _ endpoints) as [ep|] eqn:Ef; [|done]. apply find_some in Ef as [Hin Hid%String.eqb_eq].
    breflect. exists ep. split_and!; [by apply list_elem_of_In|done|]. split; [|done].
    unfold capable_healthy. apply andb_true_iff. split; [done|]. by rewrite Hid.
  - set (capable := List.filter (capable_healthy s endpoint_health) endpoints).
    assert (forall ep, In ep capable -> ep ∈ endpoints /\ capable_healthy s endpoint_health ep = true) as Hcap.
    { intros ep [Hin Hc]%filter_In. split; [by apply list_elem_of_In|done]. }
    destruct (truthy (List.filter (known_fit s) capable)).
    + destruct (List.filter (known_fit s) capable) as [|ep fit] eqn:Ef; [done|]. intros [= <- _].
      assert (In ep (List.filter (known_fit s) capable)) as [Hin Hk]%filter_In by (rewrite Ef; by left).
      destruct (Hcap ep Hin) as [? ?]. exists ep. split_and!; [done..|]. split; [done|].
      unfold known_fit in Hk. by breflect.
    + destruct (List.filter unknown_ctx capable) as [|ep unk] eqn:Ef; [done|]. intros [= <- _].
      assert (In ep (List.filter unknown_ctx capable)) as [Hin Hk]%filter_In by (rewrite Ef; by left).
      destruct (Hcap ep Hin) as [? ?]. exists ep. split_and!; [done..|]. split; [done|].
      unfold unknown_ctx in Hk. apply bool_decide_eq_true in Hk. unfold _fits_context. by rewrite Hk.
Qed.
Lemma select_None s reason ep :
  _select_for_subtask s endpoints endpoint_health = (None, reason) -> ep ∈ endpoints -> ~ suits s ep.
Proof.
  unfold _select_for_subtask. destruct (affinity_match _ _ _); [done|]. intros H Hin [Hc Hf]. apply list_elem_of_In in Hin.
  assert (In ep (List.filter (capable_healthy s endpoint_health) endpoints)) as Hcap by (by apply filter_In).
  revert H. destruct (re_context_window ep) as [w|] eqn:Ew.
  - assert (In ep (List.filter (known_fit s) (List.filter (capable_healthy s endpoint_health) endpoints))) as Hk.
    { apply filter_In. split; [done|]. unfold known_fit. rewrite Hf, Ew. done. }
    destruct (List.filter (known_fit s) _); [done|]. done.
  - assert (In ep (List.filter unknown_ctx (List.filter (capable_healthy s endpoint_health) endpoints))) as Hk.
    { apply filter_In. split; [done|]. unfold unknown_ctx. by rewrite Ew. }
    destruct (List.filter (known_fit s) _); simpl; [|done]. by destruct (List.filter unknown_ctx _).
Qed.

(** What the loop has after the subtasks [l]. *)
Definition placed (l : list Registry.ModelSubtask) (assignments : list (string * string)) (unroutable : list string) : Prop :=
  dict_keys assignments ++ unroutable ≡ₚ map rs_subtask_id l
  /\ forall s, s ∈ l -> match dict_get (rs_subtask_id s) assignments with
                       | Some e => exists ep, ep ∈ endpoints /\ re_id ep = e /\ suits s ep
                       | None => rs_subtask_id s ∈ unroutable /\ forall ep, ep ∈ endpoints -> ~ suits s ep
                       end.
Lemma select_one_placed l s assignments unroutable evidence :
  NoDup (map rs_subtask_id (l ++ [s])) -> placed l assignments unroutable ->
  let '(a', u', _) := select_one endpoints endpoint_health (assignments, unroutable, evidence) s in placed (l ++ [s]) a' u'.
Proof.
  intros Hnd [Hp Hall]. rewrite map_app in Hnd. apply NoDup_app in Hnd as (_ & Hnew & _). simpl in Hnew.
  assert (rs_subtask_id s ∉ map rs_subtask_id l) as Hs by (intros Hin; by apply (Hnew _ Hin), list_elem_of_singleton).
  assert ((rs_subtask_id s ∉ dict_keys assignments) /\ rs_subtask_id s ∉ unroutable) as [Hk Hu].
  { rewrite <- not_elem_of_app, Hp. done. }
  apply dict_get_None in Hk.
  assert (forall s', s' ∈ l -> rs_subtask_id s' <> rs_subtask_id s) as Hne.
  { intros s' Hs' E. apply Hs. rewrite <- E. by apply list_elem_of_fmap_2. }
  unfold select_one. destruct (_select_for_subtask s endpoints endpoint_health) as [[e|] reason] eqn:Es.
  - split.
    + rewrite dict_set_keys. unfold dict_has. rewrite Hk, map_app, <- Hp. simpl. solve_Permutation.
    + intros s' [Hs'| ->%list_elem_of_singleton]%elem_of_app; rewrite dict_get_set.
      * destruct (String.eqb_spec (rs_subtask_id s) (rs_subtask_id s')) as [E|_]; [by destruct (Hne s')|]. by apply Hall.
      * rewrite String.eqb_refl. by eapply select_Some.
  - split.
    + rewrite map_app, <- Hp. simpl. by rewrite app_assoc.
    + intros s' [Hs'| ->%list_elem_of_singleton]%elem_of_app.
      * specialize (Hall s' Hs'). destruct (dict_get _ _); [done|]. destruct Hall. split; [set_solver|done].
      * rewrite Hk. split; [set_solver|]. intros ep. by eapply select_None.
Qed.
Lemma select_all_placed l :
  NoDup (map rs_subtask_id l) ->
  let '(a, u, _) := foldl (select_one endpoints endpoint_health) ([], [], []) l in placed l a u.
Proof.
  induction l as [|s l IH] using rev_ind; intros Hnd; [split; [done|set_solver]|].
  rewrite foldl_app. simpl. pose proof Hnd as Hnd'. rewrite map_app in Hnd'. apply NoDup_app in Hnd' as (Hnd' & _).
  specialize (IH Hnd'). destruct (foldl _ _ l) as [[a u] e]. by apply select_one_placed.
Qed.
End selection.
End Selection.

(** ** The properties *)

(** C26. A decomposition can always be fanned out.  The handler raises nothing but
    what parsing the planner's output raises (its cycle search stays within one
    nested call per subtask), and whatever it answers, on a plan, a rejected
    plan or a passthrough, is at least one subtask, with dependencies on each
    other only.  Given distinct subtask ids, the fan-out's recursion that lays
    these subtasks out in waves ends, within as many nested calls as there are
    subtasks: each is in exactly one wave, no wave is empty, and what a subtask
    depends on is in an earlier wave. *)
Theorem decomposition_is_schedulable depth u c (request : Decomposer.ModelSwarmDecomposeRequest) :
  let parsed := Decomposer._parse_subtasks (Decomposer.dq_planner_output request)
                  (Decomposer._task_hash (py_or (Decomposer.dq_original_task request) (Decomposer.dq_planner_output_hash request)))
                  (Decomposer.dq_endpoint_ids request) in
  (forall l, parsed = Ok l -> length l <= depth) ->
  match Decomposer.handle depth u c request with
  | Raise e => parsed = Raise e
  | Ok r =>
      let plan := Decomposer.dc_subtasks (Decomposer.dr_decomposition r) in
      plan <> [] /\ (forall st d, st ∈ plan -> d ∈ Decomposer.ds_depends_on st -> d ∈ map Decomposer.ds_subtask_id plan)
      /\ forall depth' subtasks,
           NoDup (map Decomposer.ds_subtask_id plan) -> Forall2 Plan.same_node plan subtasks -> length plan <= depth' ->
           exists waves, _compute_waves depth' subtasks = Ok waves /\ scheduled subtasks waves
  end.
Proof.
  intros parsed Hd. destruct (Decomposer.handle depth u c request) as [r|e] eqn:E.
  - pose proof (Plan.handle_orderable _ _ _ _ _ E) as Ho. split_and!; [apply Ho|apply Ho|].
    intros depth' subtasks Hnd Hsame Hlen. by eapply Plan.orderable_scheduled.
  - by eapply Plan.handle_raises.
Qed.

Definition planner_entry (description : string) (depends_on : list Z) : json := JObj [
  ("description", JStr description); ("category", JStr "analysis"); ("depends_on", JArr (map JInt depends_on));
  ("estimated_tokens", JInt 100)].
Definition diamond_request : Decomposer.ModelSwarmDecomposeRequest := {|
  Decomposer.dq_planner_output := json_dumps (JObj [("subtasks", JArr [
    planner_entry "join" [1; 2]%Z; planner_entry "left" [3]%Z; planner_entry "right" [3]%Z; planner_entry "root" []])]);
  Decomposer.dq_planner_model_id := "planner"; Decomposer.dq_planner_output_hash := EmptyString;
  Decomposer.dq_endpoint_ids := ["a"]; Decomposer.dq_original_task := EmptyString; Decomposer.dq_correlation_id := "c";
  Decomposer.dq_run_id := "r"; Decomposer.dq_decompose := true; Decomposer.dq_token_threshold := 0;
  Decomposer.dq_context_window_limit := 0; Decomposer.dq_max_subtasks := 6 |}.
Definition forward (st : Decomposer.ModelSubtask) : ModelSubtask := {|
  fs_subtask_id := Decomposer.ds_subtask_id st; fs_description := Decomposer.ds_description st;
  fs_model_affinity := Decomposer.ds_model_affinity st; fs_depends_on := Decomposer.ds_depends_on st;
  fs_estimated_tokens := Decomposer.ds_estimated_tokens st;
  fs_category := Decomposer.category_value (Decomposer.ds_category st) |}.
Definition diamond_result : result Decomposer.ModelSwarmDecomposeResult :=
  Eval vm_compute in Decomposer.handle 4 "u" "c" diamond_request.
Lemma diamond_eq : Decomposer.handle 4 "u" "c" diamond_request = diamond_result.
Proof. vm_compute. reflexivity. Qed.
Definition diamond_plan : list Decomposer.ModelSubtask :=
  match diamond_result with Ok r => Decomposer.dc_subtasks (Decomposer.dr_decomposition r) | Raise _ => [] end.

(** A diamond of four subtasks makes three waves. *)
Lemma decomposition_is_schedulable_witness :
  exists waves, _compute_waves 4 (map forward diamond_plan) = Ok waves /\ scheduled (map forward diamond_plan) waves
    /\ map length waves = [1; 2; 1].
Proof.
  pose proof (decomposition_is_schedulable 4 "u" "c" diamond_request) as H. rewrite diamond_eq in H. destruct H as (_ & _ & H).
  { intros l Hl. revert Hl. vm_compute. intros [= <-]. simpl. lia. }
  change (Decomposer.dc_subtasks _) with diamond_plan in H. destruct (H 4 (map forward diamond_plan)) as (waves & Hw & Hs).
  - apply (bool_decide_unpack _). vm_compute. exact I.
  - apply Forall2_fmap_r, Forall_Forall2_diag, Forall_forall. by intros st _.
  - simpl. lia.
  - exists waves. split_and!; [done|done|]. revert Hw. vm_compute. by intros [= <-].
Defined.

(** The choice of endpoints is sound and complete.  For a request whose
    subtasks have distinct ids, every subtask is either assigned or reported
    unroutable, and not both; an assigned endpoint is in the registry, reported
    reachable, has the subtask's category among its capabilities and a context
    window that is unknown or large enough; a subtask is unroutable only when no
    endpoint of the registry is all of that. *)
Theorem endpoint_selection_sound endpoints (request : Registry.ModelSwarmEndpointSelectionRequest) :
  NoDup (map Registry.rs_subtask_id (Registry.rq_subtasks request)) ->
  Selection.placed endpoints (Registry.rq_endpoint_health request) (Registry.rq_subtasks request)
    (Registry.rr_assignments (Registry.handle endpoints request))
    (Registry.rr_unroutable_subtasks (Registry.handle endpoints request)).
Proof.
  intros Hnd. pose proof (Selection.select_all_placed endpoints (Registry.rq_endpoint_health request) _ Hnd) as H.
  unfold Registry.handle. by destruct (foldl _ _ _) as [[a u] e].
Qed.

Definition reg_endpoint (id : string) (capabilities : list string) (window : option Z) : Registry.ModelRegistryEndpoint := {|
  Registry.re_id := id; Registry.re_base_url := "http://" +:+ id; Registry.re_model_id := "m-" +:+ id;
  Registry.re_provider := "p"; Registry.re_capabilities := capabilities; Registry.re_context_window := window;
  Registry.re_endpoint_ref := "REF_" +:+ id |}.
Definition reg_subtask (id category : string) (tokens : Z) : Registry.ModelSubtask := {|
  Registry.rs_subtask_id := id; Registry.rs_description := "d"; Registry.rs_category := category;
  Registry.rs_estimated_tokens := tokens; Registry.rs_model_affinity := "big"; Registry.rs_depends_on := [] |}.
Definition reg_health (id : string) (s : Registry.EnumEndpointStatus) : string * Registry.ModelEndpointHealth :=
  (id, {| Registry.rh_endpoint_id := id; Registry.rh_endpoint_status := s |}).
Definition selection_endpoints : list Registry.ModelRegistryEndpoint :=
  [reg_endpoint "small" ["analysis"] (Some 100%Z); reg_endpoint "big" ["analysis"; "planning"] (Some 9000%Z);
   reg_endpoint "dead" ["math"] None].
Definition selection_example : Registry.ModelSwarmEndpointSelectionRequest := {|
  Registry.rq_subtasks := [reg_subtask "s1" "analysis" 50; reg_subtask "s2" "planning" 500; reg_subtask "s3" "math" 1;
                           reg_subtask "s4" "code" 1];
  Registry.rq_endpoint_health := [reg_health "small" Registry.reachable; reg_health "big" Registry.reachable;
                                  reg_health "dead" Registry.timeout];
  Registry.rq_run_id := "r" |}.

(** An affinity taken, and two categories no healthy endpoint has: the
    decomposer's [code] is no capability of the registry at all. *)
Lemma endpoint_selection_sound_witness :
  Registry.rr_assignments (Registry.handle selection_endpoints selection_example) = [("s1", "big"); ("s2", "big")]
  /\ Registry.rr_unroutable_subtasks (Registry.handle selection_endpoints selection_example) = ["s3"; "s4"]
  /\ exists ep, ep ∈ selection_endpoints /\ Registry.re_id ep = "big"
       /\ Selection.suits (Registry.rq_endpoint_health selection_example) (reg_subtask "s2" "planning" 500) ep.
Proof.
  split_and!; [vm_compute; reflexivity|vm_compute; reflexivity|].
  destruct (endpoint_selection_sound selection_endpoints selection_example) as [_ H].
  - apply (bool_decide_unpack _). vm_compute. exact I.
  - apply (H (reg_subtask "s2" "planning" 500)). right. left.
Defined.
