(* ===== verification/SwarmFanoutProps.v ===== *)
(** * Swarm dispatch: what the fan-out accounts for

    Every subtask of a run is dispatched, skipped because of a dependency, or
    left out because the deadline had passed; what was sent, and what a dispatch
    reports, is read off the log. *)
From S2P Require Import Prelude PyFloat PyJson PyHash PyDyn LogMonad SwarmPlan SwarmFanout SwarmPlanProps.

Lemma string_app_inj (p a b : string) : p +:+ a = p +:+ b -> a = b.
Proof. induction p as [|c p IH]; simpl; [done|]. intros [= H]. auto. Qed.
Lemma correlation_id_inj run_id a b : _correlation_id run_id a = _correlation_id run_id b -> a = b.
Proof. unfold _correlation_id. by intros H%string_app_inj%string_app_inj. Qed.

Lemma map_sublist {A B} (f : A -> B) l k : sublist l k -> sublist (map f l) (map f k).
Proof. induction 1; simpl; by constructor. Qed.

Lemma Forall2_impl_in {A B} (P Q : A -> B -> Prop) l k :
  Forall2 P l k -> (forall x y, x ∈ l -> P x y -> Q x y) -> Forall2 Q l k.
Proof. induction 1; intros H'; constructor; [apply H'; [left|done]|]. apply IHForall2. intros; apply H'; [by right|done]. Qed.

(** The subtasks the commands of a log are for. *)
Definition sent_id (e : FanoutIo) : option string :=
  match e with
  | Published _ command => match dict_get "task_id" command with Some (JStr s) => Some s | _ => None end
  | _ => None
  end.
Definition sent_ids (log : list FanoutIo) : list string := omap sent_id log.
Lemma sent_ids_app l k : sent_ids (l ++ k) = sent_ids l ++ sent_ids k.
Proof. apply omap_app. Qed.

(** [e] was asked when the log was [l]. *)
Definition asked (log l : list FanoutIo) (e : FanoutIo) : Prop := exists l2, log = l ++ e :: l2.
Lemma asked_app log k l e : asked log l e -> asked (log ++ k) l e.
Proof. intros [l2 ->]. exists (l2 ++ k). by rewrite <- app_assoc. Qed.
Lemma asked_last log e : asked (log ++ [e]) log e.
Proof. by exists []. Qed.

Section fanout_laws.
Context (w_monotonic : list FanoutIo -> float).
Context (w_publish : list FanoutIo -> string -> Obj -> result unit).
Context (w_poll : list FanoutIo -> list string -> string -> float -> result (list Obj)).
Context (request : ModelSwarmFanoutRequest) (endpoint_map : list (string * ModelSwarmEndpoint)).
Abbreviation run_id := (fq_run_id request).
Abbreviation corr s := (_correlation_id run_id (fs_subtask_id s)).
Abbreviation target := (sendable request endpoint_map).

(** A reading of the clock at which the run had no time left. *)
Definition deadline_passed (deadline : float) (log : list FanoutIo) : Prop :=
  exists l, asked log l ClockRead /\ fle (fsub deadline (w_monotonic l)) fzero = true.
(** The command of [s] was published, to its endpoint. *)
Definition sent (log : list FanoutIo) (s : ModelSubtask) : Prop :=
  exists ep, target s = Some ep /\ Published delegation_execute_topic (execute_command request s ep) ∈ log.
(** A poll returned an event of success with the correlation id of [s]. *)
Definition answered (log : list FanoutIo) (s : ModelSubtask) : Prop :=
  exists l timeout events ev, asked log l (Polled completion_topics run_id timeout)
    /\ w_poll l completion_topics run_id timeout = Ok events /\ ev ∈ events
    /\ json_str (default (JStr EmptyString) (dict_get "correlation_id" ev)) = corr s /\ event_success ev = true.
(** The clock does not go backwards: once past a deadline it stays past it. *)
Definition forward : Prop := forall deadline l k,
  fle (fsub deadline (w_monotonic l)) fzero = true -> fle (fsub deadline (w_monotonic (l ++ k))) fzero = true.
(** What follows [l0] publishes nothing past the deadline. *)
Definition in_time (deadline : float) (l0 l : list FanoutIo) : Prop :=
  forall l1 topic command l2, l = l1 ++ Published topic command :: l2 -> ~ deadline_passed deadline (l0 ++ l1).
(** A command is published after the commands and the answers of what its subtask
    depends on. *)
Definition in_order (log : list FanoutIo) : Prop :=
  forall l1 topic command l2, log = l1 ++ Published topic command :: l2 -> exists t ep, target t = Some ep
    /\ command = execute_command request t ep
    /\ forall d, d ∈ fs_depends_on t -> exists td, fs_subtask_id td = d /\ sent l1 td /\ answered l1 td.
(** Why a dispatch of [s] has its status. *)
Definition explained (log : list FanoutIo) (s : ModelSubtask) (d : ModelSwarmDispatch) : Prop :=
  match fd_execution_status d with
  | SUCCEEDED => sent log s /\ answered log s
  | TIMEOUT => sent log s
  | FAILED => target s = None \/ sent log s
  | SKIPPED_DEPENDENCY_FAILED => True
  end.

Lemma deadline_passed_app deadline l k : deadline_passed deadline l -> deadline_passed deadline (l ++ k).
Proof. intros (l0 & H & ?). exists l0. split; [by apply asked_app|done]. Qed.
Lemma sent_app l k s : sent l s -> sent (l ++ k) s.
Proof. intros (ep & ? & ?). exists ep. split; [done|set_solver]. Qed.
Lemma answered_app l k s : answered l s -> answered (l ++ k) s.
Proof. intros (l0 & t & evs & ev & H & ?). exists l0, t, evs, ev. split; [by apply asked_app|done]. Qed.
Lemma explained_app l k s d : explained l s d -> explained (l ++ k) s d.
Proof.
  unfold explained. destruct (fd_execution_status d); [intros [? ?]; split| intros [?|?]; [by left|right]| |done];
    auto using sent_app, answered_app.
Qed.

Lemma app_split {A} (l k l1 l2 : list A) x : l ++ k = l1 ++ x :: l2 ->
  (exists m, l = l1 ++ x :: m) \/ exists m, l1 = l ++ m /\ k = m ++ x :: l2.
Proof.
  intros [(m & -> & Hm)|(m & -> & ->)]%app_eq_inv; [|right; by exists m].
  destruct m as [|y m]; [right; exists []; by rewrite !app_nil_r|]. injection Hm as <- _. left. by exists m.
Qed.
Lemma in_time_app deadline l0 l k : in_time deadline l0 l -> in_time deadline (l0 ++ l) k -> in_time deadline l0 (l ++ k).
Proof.
  intros Hl Hk l1 topic c l2 [(m & Hm)|(m & -> & Hm)]%app_split; [by apply (Hl _ _ _ _ Hm)|]. rewrite app_assoc. by apply (Hk _ _ _ _ Hm).
Qed.
Lemma in_time_silent deadline l0 l : (forall topic c, Published topic c ∉ l) -> in_time deadline l0 l.
Proof. intros H l1 topic c l2 ->. destruct (H topic c). set_solver. Qed.
Lemma in_time_now deadline l topic c : forward -> fle (fsub deadline (w_monotonic l)) fzero = false ->
  in_time deadline l [ClockRead; Published topic c].
Proof.
  intros Hf Hnow l1 topic' c' l2 E (l0 & [l3 Hl] & Hp).
  assert (l1 = [ClockRead]) as ->.
  { destruct l1 as [|x l1]; [done|]. injection E as <- E. destruct l1 as [|y l1]; [done|]. injection E as _ E. by destruct l1. }
  assert (exists k, l = l0 ++ k) as [k ->]; [|rewrite (Hf _ _ k Hp) in Hnow; done].
  change (l ++ [ClockRead] = l0 ++ ClockRead :: l3) in Hl. apply app_split in Hl as [(m & ->)|(m & -> & Hm)]; [by eexists|].
  destruct m as [|? [|]]; try discriminate Hm. exists []. by rewrite !app_nil_r.
Qed.

(** *** Sending *)

(** Only commands for subtasks of [ts], to their endpoints. *)
Definition only_sends (ts : list ModelSubtask) (l : list FanoutIo) : Prop :=
  forall topic command, Published topic command ∈ l -> exists s ep, s ∈ ts /\ target s = Some ep
    /\ topic = delegation_execute_topic /\ command = execute_command request s ep.
Lemma only_sends_app ts l k : only_sends ts l -> only_sends ts k -> only_sends ts (l ++ k).
Proof. intros H1 H2 t c [?|?]%elem_of_app; [by apply H1|by apply H2]. Qed.
Lemma only_sends_mono ts ts' l : (forall s, s ∈ ts -> s ∈ ts') -> only_sends ts l -> only_sends ts' l.
Proof. intros Hsub H t c Hin. destruct (H t c Hin) as (s & ep & ? & ?). exists s, ep. auto. Qed.
Lemma only_sends_silent ts e : (forall t c, e <> Published t c) -> only_sends ts [e].
Proof. intros He t c Hin%list_elem_of_singleton. by destruct (He t c). Qed.

(** What the loop has after the subtasks [ts], from the log [l0]. *)
Definition sending (deadline : float) (l0 : list FanoutIo) (ts : list ModelSubtask) (pending : Pending)
    (s : unit * list FanoutIo) : Prop :=
  exists l kept, s.2 = l0 ++ l /\ pending = map (fun t => (corr t, (t, target t))) kept /\ sublist kept ts
    /\ (forall t, t ∈ ts -> t ∈ kept \/ deadline_passed deadline s.2)
    /\ (forall t, t ∈ kept -> target t = None \/ sent s.2 t)
    /\ only_sends ts l /\ sublist (sent_ids l) (map fs_subtask_id ts) /\ (forward -> in_time deadline l0 l).

Lemma pending_fresh kept t : fs_subtask_id t ∉ map fs_subtask_id kept ->
  dict_get (corr t) (map (fun t => (corr t, (t, target t))) kept) = None.
Proof.
  intros Ht. apply dict_get_None. unfold dict_keys. rewrite map_map. simpl.
  intros (t' & E & Hin)%list_elem_of_fmap. apply correlation_id_inj in E. rewrite E in Ht. by apply Ht, list_elem_of_fmap_2.
Qed.
Lemma send_one_ok deadline l0 ts t pending s :
  fs_subtask_id t ∉ map fs_subtask_id ts -> sending deadline l0 ts pending s ->
  wp (send_one w_monotonic w_publish request endpoint_map deadline pending t) (sending deadline l0 (ts ++ [t])) (fun _ => True) s.
Proof.
  intros Ht (l & kept & Hs & -> & Hsub & Hall & Hkept & Honly & Hids & Htime). unfold send_one.
  assert (dict_get (corr t) (map (fun t => (corr t, (t, target t))) kept) = None) as Hfresh.
  { apply pending_fresh. intros Hin. apply Ht. eapply sublist_subseteq; [by apply map_sublist|done]. }
  apply wp_bind, wp_call; [|done]. intros now [= <-]. rewrite Hs.
  destruct (fle _ fzero) eqn:Hle.
  - apply wp_ret. exists (l ++ [ClockRead]), kept. simpl. rewrite <- app_assoc. split_and!; [done|done| | | | | |].
    + by apply sublist_inserts_r.
    + intros t' Ht'. right. exists (l0 ++ l). rewrite app_assoc. split; [apply asked_last|done].
    + intros t' Ht'. destruct (Hkept t' Ht'); [by left|right]. rewrite app_assoc, <- Hs. by apply sent_app.
    + apply only_sends_app; [eapply only_sends_mono; [|done]; set_solver|by apply only_sends_silent].
    + rewrite sent_ids_app, map_app. simpl. rewrite app_nil_r. by apply sublist_inserts_r.
    + intros Hf. apply in_time_app; [by apply Htime|]. apply in_time_silent. intros topic c [=]%list_elem_of_singleton.
  - assert (forall k, sent_ids k = [] \/ sent_ids k = [fs_subtask_id t] ->
      target t = None \/ sent (l0 ++ l ++ ClockRead :: k) t -> only_sends (ts ++ [t]) k ->
      (forward -> in_time deadline (l0 ++ l) (ClockRead :: k)) ->
      sending deadline l0 (ts ++ [t]) (dict_set (corr t) (t, target t) (map (fun t => (corr t, (t, target t))) kept))
        ((), l0 ++ l ++ ClockRead :: k)) as Hdone.
    { intros k Hk Hsent Hok Hkt. exists (l ++ ClockRead :: k), (kept ++ [t]). simpl. split_and!; [done| | | | | | |].
      - rewrite dict_set_fresh by done. by rewrite map_app.
      - by apply sublist_app.
      - intros t' [Ht'| ->%list_elem_of_singleton]%elem_of_app; [|left; set_solver].
        destruct (Hall t' Ht'); [left; set_solver|right]. rewrite app_assoc, <- Hs. by apply deadline_passed_app.
      - intros t' [Ht'| ->%list_elem_of_singleton]%elem_of_app; [|done].
        destruct (Hkept t' Ht'); [by left|right]. rewrite app_assoc, <- Hs. by apply sent_app.
      - apply only_sends_app; [eapply only_sends_mono; [|done]; set_solver|].
        apply (only_sends_app _ [ClockRead]); [by apply only_sends_silent|done].
      - rewrite sent_ids_app, map_app. simpl. change (omap sent_id k) with (sent_ids k).
        destruct Hk as [-> | ->]; [rewrite app_nil_r; by apply sublist_inserts_r|by apply sublist_app].
      - intros Hf. apply in_time_app; auto. }
    destruct (target t) as [ep|] eqn:Et.
    + apply wp_bind, wp_call; [|done]. intros _ _. apply wp_ret. simpl. rewrite <- !app_assoc.
      apply (Hdone [Published delegation_execute_topic (execute_command request t ep)]); [by right| | |].
      * right. exists ep. split; [done|]. set_solver.
      * intros t' c [= -> ->]%list_elem_of_singleton. exists t, ep. split_and!; [set_solver|done..].
      * intros Hf. by apply in_time_now.
    + apply wp_ret. simpl. rewrite <- app_assoc. apply (Hdone []); [by left|by left|by intros ? ? ?%not_elem_of_nil|].
      intros _. apply in_time_silent. intros topic c [=]%list_elem_of_singleton.
Qed.

(** *** Collecting *)

Lemma collect_results_Some events corr_id ev :
  dict_get corr_id (collect_results run_id events) = Some ev ->
  ev ∈ events /\ json_str (default (JStr EmptyString) (dict_get "correlation_id" ev)) = corr_id.
Proof.
  unfold collect_results. induction events as [|e events IH] using rev_ind; [done|]. rewrite foldl_app, elem_of_app. simpl.
  destruct (_owns_correlation_id _ _); [|intros H; destruct (IH H); auto].
  rewrite dict_get_set. destruct (String.eqb_spec (json_str (default (JStr EmptyString) (dict_get "correlation_id" e))) corr_id) as [<-|_].
  - intros [= <-]. split; [right; set_solver|done].
  - intros H. destruct (IH H). auto.
Qed.
(** Every subtask waited for gets one dispatch, of the right status. *)
Lemma dispatch_of_ok n events l l' timeout t d :
  w_poll l completion_topics run_id timeout = Ok events -> asked l' l (Polled completion_topics run_id timeout) ->
  target t = None \/ sent l' t ->
  dispatch_of n (collect_results run_id events) (corr t, (t, target t)) = Ok d ->
  fd_subtask_id d = fs_subtask_id t /\ fd_execution_status d <> SKIPPED_DEPENDENCY_FAILED /\ explained l' t d.
Proof.
  intros Hpoll Hasked Hsent. unfold dispatch_of. simpl.
  destruct (target t) as [ep|] eqn:Et; [|intros [= <-]; split_and!; [done..|by left]].
  assert (sent l' t) as Hs by (destruct Hsent; [congruence|done]).
  destruct (dict_get (corr t) _) as [ev|] eqn:Eev; [|intros [= <-]; by split_and!].
  apply collect_results_Some in Eev as [Hin Hcorr]. intros (ms & _ & E)%result_bind_Ok. injection E as <-.
  destruct (event_success ev) eqn:Eok; (split_and!; [done..|]); unfold explained; simpl; [|by right].
  split; [done|]. by exists l, timeout, events, ev.
Qed.

(** The outcome of a wave of runnable subtasks. *)
Definition dispatched (deadline : float) (l0 : list FanoutIo) (ts : list ModelSubtask) (ds : list ModelSwarmDispatch)
    (s : unit * list FanoutIo) : Prop :=
  exists l, s.2 = l0 ++ l /\ sublist (map fd_subtask_id ds) (map fs_subtask_id ts)
    /\ (forall t, t ∈ ts ->
         (exists d, d ∈ ds /\ fd_subtask_id d = fs_subtask_id t /\ fd_execution_status d <> SKIPPED_DEPENDENCY_FAILED
            /\ explained s.2 t d)
         \/ ((fs_subtask_id t ∉ map fd_subtask_id ds) /\ deadline_passed deadline s.2))
    /\ only_sends ts l /\ sublist (sent_ids l) (map fs_subtask_id ts) /\ (forward -> in_time deadline l0 l).

Lemma only_sends_ask ts l : (forall e, e ∈ l -> sent_id e = None /\ forall t c, e <> Published t c) -> only_sends ts l.
Proof. intros He t c Hin. by destruct (He _ Hin) as [_ H]; destruct (H t c). Qed.
Lemma NoDup_map_inj {A} (f : A -> string) l x y : NoDup (map f l) -> x ∈ l -> y ∈ l -> f x = f y -> x = y.
Proof.
  intros Hnd [i Hi]%list_elem_of_lookup [j Hj]%list_elem_of_lookup Hxy.
  assert (i = j) as <-; [|congruence].
  apply (NoDup_lookup _ _ _ (f x) Hnd); change (map f l) with (f <$> l); rewrite list_lookup_fmap; [by rewrite Hi|].
  rewrite Hj. simpl. by rewrite Hxy.
Qed.

Lemma sending_all deadline ts s :
  NoDup (map fs_subtask_id ts) ->
  wp (fold_each ts [] (send_one w_monotonic w_publish request endpoint_map deadline))
    (sending deadline s.2 ts) (fun _ => True) s.
Proof.
  intros Hnd. apply wp_fold_each.
  - exists [], []. rewrite app_nil_r. split_and!; [done..|constructor|set_solver|set_solver|by intros ? ? ?%not_elem_of_nil|constructor|].
    intros _. apply in_time_silent. by intros ? ? ?%not_elem_of_nil.
  - intros done t rest pending s' -> H. apply send_one_ok; [|done].
    rewrite map_app in Hnd. apply NoDup_app in Hnd as (_ & Hd & _). intros Hin. apply (Hd _ Hin). simpl. left.
Qed.
Lemma dispatch_wave_ok n ts deadline s :
  NoDup (map fs_subtask_id ts) ->
  wp (_dispatch_wave w_monotonic w_publish w_poll n ts request endpoint_map deadline)
    (dispatched deadline s.2 ts) (fun _ => True) s.
Proof.
  intros Hnd. unfold _dispatch_wave. apply wp_bind. eapply wp_mono; [by apply sending_all|].
  intros pending s' (l & kept & Hs & -> & Hsub & Hall & Hkept & Honly & Hids & Htime).
  destruct (truthy _) eqn:Ht; simpl.
  - apply wp_bind, wp_call; [|done]. intros now [= <-]. simpl.
    set (timeout := fmin _ _). apply wp_bind, wp_call; [|done]. simpl. intros events Hpoll.
    apply wp_lift; [|done]. intros ds Hds%map_result_Forall2.
    assert (Forall2 (fun t d => fd_subtask_id d = fs_subtask_id t /\ fd_execution_status d <> SKIPPED_DEPENDENCY_FAILED
              /\ explained ((s'.2 ++ [ClockRead]) ++ [Polled completion_topics run_id timeout]) t d) kept ds) as Hk.
    { change (map _ kept) with ((fun t => (corr t, (t, target t))) <$> kept) in Hds. apply Forall2_fmap_l in Hds.
      eapply Forall2_impl_in; [done|]. intros t d Ht' Hd'. simpl in Hd'.
      eapply (dispatch_of_ok n events); [done|apply asked_last| |done].
      destruct (Hkept t); [done|by left|right]. rewrite <- app_assoc. by apply sent_app. }
    assert (map fd_subtask_id ds = map fs_subtask_id kept) as Hmap.
    { clear -Hk. induction Hk as [|t d kept ds (E & _) _ IH]; simpl; [done|]. by rewrite E, IH. }
    exists (l ++ [ClockRead; Polled completion_topics run_id timeout]). simpl. split_and!.
    + rewrite Hs, <- !app_assoc. done.
    + rewrite Hmap. by apply map_sublist.
    + intros t Hin. destruct (decide (fs_subtask_id t ∈ map fs_subtask_id kept)) as [Hm|Hm].
      * left. apply list_elem_of_fmap in Hm as (t' & E & Hin').
        assert (t = t') as <- by (eapply NoDup_map_inj; [done|done|by eapply sublist_subseteq|done]).
        apply list_elem_of_lookup in Hin' as [i Hi]. destruct (Forall2_lookup_l _ _ _ _ _ Hk Hi) as (d & Hd & ? & ? & ?).
        exists d. split_and!; [by eapply list_elem_of_lookup_2|done..].
      * right. rewrite Hmap. split; [done|]. destruct (Hall t Hin) as [Hin'|]; [by destruct Hm; apply list_elem_of_fmap_2|].
        rewrite <- app_assoc. by apply deadline_passed_app.
    + apply only_sends_app; [done|]. apply only_sends_ask. intros e He. set_solver.
    + rewrite sent_ids_app. simpl. by rewrite app_nil_r.
    + intros Hf. apply in_time_app; [by apply Htime|]. apply in_time_silent. set_solver.
  - destruct kept as [|t kept]; [|done]. apply wp_ret. exists l. split_and!; [done|apply sublist_nil_l| |done|done|done].
    intros t Hin. right. split; [set_solver|]. destruct (Hall t Hin); [set_solver|done].
Qed.

(** *** A wave *)

Lemma blocked_spec failed t : blocked failed t = true <-> exists d, d ∈ fs_depends_on t /\ d ∈ failed.
Proof.
  unfold blocked. rewrite existsb_exists. setoid_rewrite bool_decide_eq_true. setoid_rewrite list_elem_of_In. done.
Qed.
Lemma blocked_ext failed failed' t :
  (forall d, d ∈ fs_depends_on t -> d ∈ failed <-> d ∈ failed') -> blocked failed t = blocked failed' t.
Proof. intros H. apply eq_iff_eq_true. rewrite !blocked_spec. set_solver. Qed.

Abbreviation stopped failed ts := (filter (fun t => blocked failed t = true) ts).
Abbreviation free failed ts := (filter (fun t => blocked failed t = false) ts).

Lemma elem_map_filter {A} (f : A -> string) (P : A -> Prop) `{forall x, Decision (P x)} l x :
  x ∈ map f (filter P l) -> x ∈ map f l.
Proof. intros (y & -> & [_ Hy]%list_elem_of_filter)%list_elem_of_fmap. by apply list_elem_of_fmap_2. Qed.
Lemma stopped_free failed ts : stopped failed ts ++ free failed ts ≡ₚ ts.
Proof.
  induction ts as [|t ts IH]; [done|]. rewrite !filter_cons. destruct (blocked failed t) eqn:E;
    [rewrite decide_True by done; rewrite decide_False by done|rewrite decide_False by done; rewrite decide_True by done];
    simpl; [by rewrite IH|]. by rewrite <- Permutation_middle, IH.
Qed.
Lemma triage_ok n ts all failed :
  (forall t d, t ∈ ts -> d ∈ fs_depends_on t -> d ∉ map fs_subtask_id ts) ->
  foldl (triage_one n) (all, failed, []) ts
  = (all ++ map (skipped_dispatch n) (stopped failed ts),
     list_to_set (map fs_subtask_id (stopped failed ts)) ∪ failed, free failed ts).
Proof.
  induction ts as [|t ts IH] using rev_ind; intros Hd.
  - simpl. rewrite app_nil_r. f_equal. f_equal. set_solver.
  - rewrite foldl_app, IH by (intros t' d Ht' Hd' Hin; eapply (Hd t' d); [set_solver|done|rewrite map_app; set_solver]).
    simpl. rewrite !filter_app, !filter_cons.
    assert (blocked (list_to_set (map fs_subtask_id (stopped failed ts)) ∪ failed) t = blocked failed t) as ->.
    { apply blocked_ext. intros d Hin. rewrite elem_of_union, elem_of_list_to_set. split; [|auto]. intros [Hs|]; [|done]. exfalso.
      eapply (Hd t d); [set_solver|done|]. rewrite map_app. apply elem_of_app. left.
      by eapply elem_map_filter. }
    destruct (blocked failed t).
    + rewrite decide_True by done. rewrite decide_False by done. rewrite !map_app, app_assoc. simpl.
      rewrite list_to_set_app_L. simpl. apply f_equal2; [apply f_equal2; [done|set_solver]|by rewrite app_nil_r].
    + rewrite decide_False by done. rewrite decide_True by done. rewrite app_nil_r. done.
Qed.
Lemma record_ok ds all failed :
  exists failed', foldl record_dispatch (all, failed) ds = (all ++ ds, failed')
    /\ forall x, x ∈ failed' <-> x ∈ failed \/ exists d, d ∈ ds /\ fd_subtask_id d = x /\ fd_execution_status d <> SUCCEEDED.
Proof.
  revert all failed. induction ds as [|d ds IH]; intros all failed; simpl.
  - exists failed. rewrite app_nil_r. split; [done|]. set_solver.
  - unfold record_dispatch at 2. simpl.
    destruct (IH (all ++ [d]) (if decide (fd_execution_status d = SUCCEEDED) then failed else {[fd_subtask_id d]} ∪ failed))
      as (failed' & -> & H).
    exists failed'. rewrite <- app_assoc. split; [done|]. intros x. rewrite H. setoid_rewrite elem_of_cons. case_decide; set_solver.
Qed.

(** *** The run *)

(** What holds when the waves of [done] are through. *)
Record accounted (deadline : float) (done : list ModelSubtask) (acc : list ModelSwarmDispatch * gset string)
    (s : unit * list FanoutIo) : Prop := {
  acc_ids : map fd_subtask_id acc.1 ⊆+ map fs_subtask_id done;
  acc_failed : forall x, x ∈ acc.2 <-> exists d, d ∈ acc.1 /\ fd_subtask_id d = x /\ fd_execution_status d <> SUCCEEDED;
  acc_each : forall t, t ∈ done ->
    (exists d, d ∈ acc.1 /\ fd_subtask_id d = fs_subtask_id t
       /\ (fd_execution_status d = SKIPPED_DEPENDENCY_FAILED <-> blocked acc.2 t = true) /\ explained s.2 t d)
    \/ ((fs_subtask_id t ∉ map fd_subtask_id acc.1) /\ blocked acc.2 t = false /\ deadline_passed deadline s.2);
  acc_sends : forall topic command, Published topic command ∈ s.2 -> exists t ep, t ∈ done /\ target t = Some ep
    /\ topic = delegation_execute_topic /\ command = execute_command request t ep /\ blocked acc.2 t = false;
  acc_sent : sent_ids s.2 ⊆+ map fs_subtask_id done;
  acc_order : forward -> in_order s.2
}.

Section step.
Context (deadline : float) (done ts : list ModelSubtask) (all : list ModelSwarmDispatch) (failed : gset string).
Context (s s' : unit * list FanoutIo) (n : nat) (ds : list ModelSwarmDispatch) (failed' : gset string).
Context (ids : NoDup (map fs_subtask_id (done ++ ts))).
Context (behind : forall t d, t ∈ done ++ ts -> d ∈ fs_depends_on t -> d ∈ map fs_subtask_id done).
Context (before : accounted deadline done (all, failed) s).
Context (wave : dispatched deadline s.2 (free failed ts) ds s').
Context (failed'_spec : forall x, x ∈ failed' <->
  x ∈ list_to_set (map fs_subtask_id (stopped failed ts)) ∪ failed
  \/ exists d, d ∈ ds /\ fd_subtask_id d = x /\ fd_execution_status d <> SUCCEEDED).
Abbreviation all' := ((all ++ map (skipped_dispatch n) (stopped failed ts)) ++ ds).

Lemma step_new_ids x : x ∈ map fs_subtask_id (stopped failed ts) \/ x ∈ map fd_subtask_id ds -> x ∈ map fs_subtask_id ts.
Proof using wave.
  destruct wave as (l & _ & Hsub & _). intros [H|H].
  - by eapply elem_map_filter.
  - apply (sublist_subseteq _ _ Hsub) in H. by eapply elem_map_filter.
Qed.
Lemma step_disjoint x : x ∈ map fs_subtask_id done -> x ∈ map fs_subtask_id ts -> False.
Proof using ids.
  pose proof ids as Hnd. rewrite map_app in Hnd. apply NoDup_app in Hnd as (_ & H & _). intros H1 H2. by apply (H x).
Qed.
Lemma step_blocked t : t ∈ done ++ ts -> blocked failed' t = blocked failed t.
Proof using ids behind wave failed'_spec.
  intros Ht. apply blocked_ext. intros d Hd. pose proof (behind t d Ht Hd) as Hdone.
  rewrite failed'_spec, elem_of_union, elem_of_list_to_set. split; [|auto].
  intros [[Hs|]|(x & Hx & <- & _)]; [|done|]; exfalso; (eapply step_disjoint; [done|]); apply step_new_ids; [by left|right].
  by apply list_elem_of_fmap_2.
Qed.
Lemma step_ids : map fd_subtask_id all' ⊆+ map fs_subtask_id (done ++ ts).
Proof using before wave.
  destruct before as [Hids _ _ _ _ _]. destruct wave as (l & _ & Hsub & _). simpl in Hids.
  rewrite !map_app, map_map, <- app_assoc. apply submseteq_app; [done|].
  rewrite <- (stopped_free failed ts) at 2. rewrite map_app. by apply submseteq_app, sublist_submseteq.
Qed.
Lemma step_failed x : x ∈ failed' <-> exists d, d ∈ all' /\ fd_subtask_id d = x /\ fd_execution_status d <> SUCCEEDED.
Proof using before failed'_spec.
  destruct before as [_ Hf _ _ _ _]. simpl in Hf. rewrite failed'_spec, elem_of_union, elem_of_list_to_set, Hf.
  split.
  - intros [[(t & -> & Ht)%list_elem_of_fmap|(d & Hd & ?)]|(d & Hd & ?)].
    + exists (skipped_dispatch n t). rewrite !elem_of_app. split_and!; [left; right; by apply list_elem_of_fmap_2|done..].
    + exists d. rewrite !elem_of_app. auto.
    + exists d. rewrite !elem_of_app. auto.
  - intros (d & Hd & Hx & Hne). rewrite !elem_of_app in Hd. destruct Hd as [[Hd|(t & -> & Ht)%list_elem_of_fmap]|Hd].
    + left. right. eauto.
    + left. left. rewrite <- Hx. by apply (list_elem_of_fmap_2 fs_subtask_id).
    + right. eauto.
Qed.
Lemma step_each t : t ∈ done ++ ts ->
  (exists d, d ∈ all' /\ fd_subtask_id d = fs_subtask_id t
     /\ (fd_execution_status d = SKIPPED_DEPENDENCY_FAILED <-> blocked failed' t = true) /\ explained s'.2 t d)
  \/ ((fs_subtask_id t ∉ map fd_subtask_id all') /\ blocked failed' t = false /\ deadline_passed deadline s'.2).
Proof using All.
  intros Ht. rewrite step_blocked by done. pose proof before as [Hids _ Heach _ _ _]. simpl in *.
  pose proof wave as (l & Hs & Hsub & Hw & _).
  apply elem_of_app in Ht as [Ht|Ht].
  - destruct (Heach t Ht) as [(d & Hd & ? & ? & ?)|(Hno & Hb & Hdl)].
    + left. exists d. rewrite !elem_of_app, Hs. split_and!; [auto|done..|by apply explained_app].
    + right. rewrite Hs. split_and!; [|done|by apply deadline_passed_app].
      rewrite !map_app, map_map, !elem_of_app. intros [[H|H]|H]; [done| |];
        (eapply step_disjoint; [by apply list_elem_of_fmap_2|]); apply step_new_ids; [by left|by right].
  - destruct (blocked failed t) eqn:Eb.
    + left. exists (skipped_dispatch n t). rewrite !elem_of_app. split_and!; [left; right| done..].
      apply list_elem_of_fmap_2, list_elem_of_filter. done.
    + destruct (Hw t) as [(d & Hd & ? & ? & ?)|[Hno Hdl]]; [by apply list_elem_of_filter| |].
      * left. exists d. rewrite !elem_of_app. split_and!; [auto|done| |done]. by split.
      * right. split_and!; [|done|done]. rewrite !map_app, map_map, !elem_of_app. intros [[H|H]|H]; [| |done].
        -- eapply step_disjoint; [by eapply elem_of_submseteq|]. by apply list_elem_of_fmap_2.
        -- simpl in H. apply list_elem_of_fmap in H as (t' & E & [Hb' Ht']%list_elem_of_filter).
           pose proof ids as Hnd. rewrite map_app in Hnd. apply NoDup_app in Hnd as (_ & _ & Hnd).
           assert (t = t') as <- by (by eapply NoDup_map_inj). congruence.
Qed.
Lemma step_sends topic command : Published topic command ∈ s'.2 -> exists t ep, t ∈ done ++ ts /\ target t = Some ep
  /\ topic = delegation_execute_topic /\ command = execute_command request t ep /\ blocked failed' t = false.
Proof using All.
  pose proof before as [_ _ _ Hsend _ _]. pose proof wave as (l & Hs & _ & _ & Honly & _). simpl in Hsend.
  rewrite Hs. intros [Hin|Hin]%elem_of_app.
  - destruct (Hsend _ _ Hin) as (t & ep & Ht & ? & ? & ? & ?). exists t, ep. rewrite step_blocked by set_solver. set_solver.
  - destruct (Honly _ _ Hin) as (t & ep & [Hb Ht]%list_elem_of_filter & ? & ? & ?). exists t, ep.
    rewrite step_blocked by set_solver. set_solver.
Qed.
Lemma step_sent : sent_ids s'.2 ⊆+ map fs_subtask_id (done ++ ts).
Proof using before wave.
  pose proof before as [_ _ _ _ Hsent _]. pose proof wave as (l & Hs & _ & _ & _ & Hl & _). rewrite Hs, sent_ids_app, map_app.
  apply submseteq_app; [done|]. etrans; [by apply sublist_submseteq|]. rewrite <- (stopped_free failed ts) at 2.
  rewrite map_app. by apply submseteq_inserts_l.
Qed.
(** A dependency without a dispatch was left out past the deadline, after which
    nothing is sent. *)
Lemma step_order : forward -> in_order s'.2.
Proof using All.
  intros Hf. pose proof before as [_ Hfailed Heach _ _ Horder]. pose proof wave as (l & Hs & _ & _ & Honly & _ & Htime). simpl in *.
  rewrite Hs. intros l1 topic c l2 [(m & Hm)|(m & -> & Hm)]%app_split; [by eapply (Horder Hf)|].
  pose proof (Htime Hf _ _ _ _ Hm) as Hnow.
  destruct (Honly topic c) as (t & ep & [Hb Ht]%list_elem_of_filter & Hep & _ & ->); [rewrite Hm; set_solver|].
  exists t, ep. split_and!; [done|done|]. intros d Hd.
  assert (t ∈ done ++ ts) as Hdt by set_solver.
  pose proof (behind t d Hdt Hd) as (td & -> & Htd)%list_elem_of_fmap. exists td. split; [done|].
  destruct (Heach td Htd) as [(x & Hx & Hid & _ & Hex)|(_ & _ & Hdl)]; [|by destruct Hnow; apply deadline_passed_app].
  assert (fd_execution_status x = SUCCEEDED) as Hok.
  { destruct (decide (fd_execution_status x = SUCCEEDED)) as [|Hne]; [done|]. exfalso. apply not_true_iff_false in Hb. apply Hb, blocked_spec.
    exists (fs_subtask_id td). split; [done|]. apply Hfailed. by exists x. }
  unfold explained in Hex. rewrite Hok in Hex. destruct Hex as [H1 H2]. split; [by apply sent_app|by apply answered_app].
Qed.
Lemma step_accounted : accounted deadline (done ++ ts) (all', failed') s'.
Proof using All.
  constructor; [apply step_ids|apply step_failed|apply step_each|apply step_sends|apply step_sent|apply step_order].
Qed.
End step.

Lemma run_wave_ok deadline done n ts acc s :
  NoDup (map fs_subtask_id (done ++ ts)) ->
  (forall t d, t ∈ done ++ ts -> d ∈ fs_depends_on t -> d ∈ map fs_subtask_id done) ->
  accounted deadline done acc s ->
  wp (run_wave w_monotonic w_publish w_poll request endpoint_map deadline acc (n, ts))
    (accounted deadline (done ++ ts)) (fun _ => True) s.
Proof.
  intros Hnd Hbehind Hacc. destruct acc as [all failed]. unfold run_wave. simpl.
  assert (NoDup (map fs_subtask_id ts)) as Hts by (rewrite map_app in Hnd; by apply NoDup_app in Hnd as (_ & _ & ?)).
  rewrite triage_ok.
  2: { intros t d Ht Hd Hin. eapply step_disjoint; [done|by apply (Hbehind t); [set_solver|]|done]. }
  destruct (truthy _) eqn:Et; simpl.
  - apply wp_bind. eapply wp_mono.
    { apply dispatch_wave_ok. eapply sublist_NoDup; [done|]. apply map_sublist, sublist_filter. }
    intros ds s' Hw. apply wp_ret.
    destruct (record_ok ds (all ++ map (skipped_dispatch n) (stopped failed ts))
                (list_to_set (map fs_subtask_id (stopped failed ts)) ∪ failed)) as (failed' & -> & Hf).
    by eapply step_accounted.
  - destruct (free failed ts) as [|] eqn:Ef; [|done]. apply wp_ret.
    rewrite <- (app_nil_r (all ++ _)). eapply step_accounted; [done..| |set_solver].
    exists []. rewrite app_nil_r, Ef. split_and!; [done|constructor|set_solver|by intros ? ? ?%not_elem_of_nil|constructor|].
    intros _. apply in_time_silent. by intros ? ? ?%not_elem_of_nil.
Qed.

Lemma accounted_clock deadline done acc s :
  accounted deadline done acc s -> accounted deadline done acc (s.1, s.2 ++ [ClockRead]).
Proof.
  intros [H1 H2 H3 H4 H5 H6]. constructor; simpl; [done|done| | |by rewrite sent_ids_app, app_nil_r|].
  - intros t Ht. destruct (H3 t Ht) as [(d & ? & ? & ? & ?)|(? & ? & ?)]; [left; exists d|right];
      eauto using explained_app, deadline_passed_app.
  - intros t c [Hin|Hin%list_elem_of_singleton]%elem_of_app; [by apply H4|done].
  - intros Hf l1 topic c l2 [(m & Hm)|(m & _ & Hm)]%app_split; [by eapply (H6 Hf)|]. by destruct m as [|? []].
Qed.
Lemma scheduled_behind l before ts after t d :
  scheduled l (before ++ ts :: after) -> t ∈ concat before ++ ts -> d ∈ fs_depends_on t -> d ∈ map fs_subtask_id (concat before).
Proof.
  intros (_ & _ & Hdep) Ht Hd.
  assert (exists i wave, i <= length before /\ (before ++ ts :: after) !! i = Some wave /\ t ∈ wave) as (i & wave & Hi & Hw & Htw).
  { apply elem_of_app in Ht as [Ht|Ht].
    - apply list_elem_of_In, in_concat in Ht as (wave & [i Hi]%list_elem_of_In%list_elem_of_lookup & Ht%list_elem_of_In).
      pose proof (lookup_lt_Some _ _ _ Hi). exists i, wave. rewrite lookup_app_l by done. split_and!; [lia|done..].
    - exists (length before), ts. by rewrite list_lookup_middle. }
  destruct (Hdep i wave t d Hw Htw Hd) as (j & wave' & t' & Hj & Hw' & Ht' & <-).
  apply list_elem_of_fmap_2, list_elem_of_In, in_concat. exists wave'. rewrite <- !list_elem_of_In. split; [|done].
  rewrite lookup_app_l in Hw' by lia. by eapply list_elem_of_lookup_2.
Qed.
Lemma all_waves_ok deadline l waves s :
  scheduled l waves -> NoDup (map fs_subtask_id l) -> sent_ids s.2 = [] -> (forall topic c, Published topic c ∉ s.2) ->
  wp (fold_each (combine (seq 0 (length waves)) waves) ([], ∅)
        (run_wave w_monotonic w_publish w_poll request endpoint_map deadline))
    (accounted deadline (concat waves)) (fun _ => True) s.
Proof.
  intros Hs Hnd Hsent Hnone. pose proof Hs as (Hperm & _).
  assert (forall (k : list (list ModelSubtask)) i, map snd (combine (seq i (length k)) k) = k) as Hsnd.
  { induction k as [|w k IH]; intros i; simpl; [done|]. by rewrite IH. }
  eapply wp_mono; [apply (wp_fold_each _ _ _ (fun done => accounted deadline (concat (map snd done))))|].
  - constructor; simpl; [done|set_solver|set_solver|intros t c Hin; by destruct (Hnone t c)|by rewrite Hsent|].
    intros _ l1 topic c l2 E. destruct (Hnone topic c). rewrite E. set_solver.
  - intros done [n ts] rest acc s' Hc Hacc. rewrite map_app, concat_app. simpl. rewrite app_nil_r.
    pose proof (Hsnd waves 0) as Hw. rewrite Hc, map_app in Hw. simpl in Hw.
    apply run_wave_ok; [| |done].
    + rewrite <- Hperm, <- Hw, concat_app, map_app in Hnd. simpl in Hnd. rewrite map_app in *.
      rewrite app_assoc in Hnd. by apply NoDup_app in Hnd as (? & _).
    + intros t d Ht Hd. rewrite <- Hw in Hs. by eapply scheduled_behind.
  - simpl. intros acc s'. by rewrite Hsnd.
Qed.
End fanout_laws.

(** A dependency of [t] has a dispatch that did not succeed. *)
Definition stopped_by (dispatches : list ModelSwarmDispatch) (t : ModelSubtask) : Prop :=
  exists d, d ∈ dispatches /\ fd_subtask_id d ∈ fs_depends_on t /\ fd_execution_status d <> SUCCEEDED.

(** What is true of the result of a run and of its log. *)
Section handle.
Context (registry : result json) (depth : nat).
Context (w_monotonic : list FanoutIo -> float).
Context (w_publish : list FanoutIo -> string -> Obj -> result unit).
Context (w_poll : list FanoutIo -> list string -> string -> float -> result (list Obj)).
Context (request : ModelSwarmFanoutRequest).

Definition run_deadline : float :=
  fadd (w_monotonic []) (float_of_Z (cf_total_run_timeout_seconds (fq_config request))).
Definition fanout_summary (r : ModelSwarmFanoutResult) (log : list FanoutIo) : Prop :=
  exists failed, accounted w_monotonic w_poll request (_resolve_endpoint_map registry request) run_deadline
                   (fq_subtasks request) (fr_dispatches r, failed) ((), log)
    /\ fr_completed_count r = Z.of_nat (count (fun d => bool_decide (fd_execution_status d = SUCCEEDED)) (fr_dispatches r))
    /\ (fr_completed_count r + fr_failed_count r)%Z = Z.of_nat (length (fr_dispatches r))
    /\ fr_degraded r = (fr_failed_count r >? 0)%Z.

Lemma accounted_perm deadline l l' acc s :
  l ≡ₚ l' -> accounted w_monotonic w_poll request (_resolve_endpoint_map registry request) deadline l acc s ->
  accounted w_monotonic w_poll request (_resolve_endpoint_map registry request) deadline l' acc s.
Proof.
  intros Hp [H1 H2 H3 H4 H5 H6]. constructor; [by rewrite <- Hp|done| | |by rewrite <- Hp|done].
  - intros t Ht. apply H3. by rewrite Hp.
  - intros t c Hin. destruct (H4 t c Hin) as (t' & ep & Ht' & ?). exists t', ep. by rewrite <- Hp.
Qed.
Lemma handle_ok waves log r :
  NoDup (map fs_subtask_id (fq_subtasks request)) -> _compute_waves depth (fq_subtasks request) = Ok waves ->
  scheduled (fq_subtasks request) waves ->
  handle registry depth w_monotonic w_publish w_poll request ((), []) = (((), log), Ok r) -> fanout_summary r log.
Proof.
  intros Hnd Hw Hs Hrun. revert Hrun. apply (wp_run _ (fun r s => fanout_summary r s.2) (fun _ => True)). unfold handle.
  apply wp_bind, wp_lift; [|done]. rewrite Hw. intros _ [= <-].
  apply wp_bind, wp_call; [|done]. intros _ [= <-]. apply wp_bind, wp_call; [|done]. intros start _. simpl.
  apply wp_bind. eapply wp_mono; [by apply (all_waves_ok w_monotonic w_publish w_poll request (_resolve_endpoint_map registry request)
    run_deadline (fq_subtasks request) waves); [| |done|intros t c; set_solver]|].
  intros [ds failed] [[] l'] Hacc. pose proof (accounted_clock _ w_publish _ _ _ _ _ _ _ Hacc) as Hacc'. apply wp_bind, wp_call; [|done]. intros stop _. apply wp_bind, wp_lift; [|done]. intros ms _.
  apply wp_ret. exists failed. simpl. split_and!; [|done|simpl; lia|done].
  apply (accounted_perm _ (concat waves)); [by destruct Hs|done].
Qed.
End handle.

(** C25. The fan-out accounts for every subtask of a plan with distinct ids.  A run
    that returns has at most one dispatch per subtask.  A subtask is reported skipped
    exactly when a dependency has a dispatch that did not succeed; it is reported
    succeeded only when its command was published and a poll brought an event with its
    correlation id that is not a failure, timed out only when its command was
    published, failed only when that was so or no endpoint could be sent to; and it is
    left out of the result only after a clock reading past the deadline.  Every
    published command goes to the endpoint assigned to its subtask, none of whose
    dependencies was reported otherwise than succeeded; if the clock does not go
    backwards, the command and an event of success of each of its dependencies come
    before it; and no subtask gets two.  The counts add up, and the run is degraded
    exactly when a dispatch did not succeed. *)
Theorem fanout_accounts registry depth w_monotonic w_publish w_poll request log r :
  NoDup (map fs_subtask_id (fq_subtasks request)) ->
  handle registry depth w_monotonic w_publish w_poll request ((), []) = (((), log), Ok r) ->
  let endpoint_map := _resolve_endpoint_map registry request in
  let ds := fr_dispatches r in
  (map fd_subtask_id ds ⊆+ map fs_subtask_id (fq_subtasks request))
  /\ (forall t, t ∈ fq_subtasks request ->
       (exists d, d ∈ ds /\ fd_subtask_id d = fs_subtask_id t
          /\ (fd_execution_status d = SKIPPED_DEPENDENCY_FAILED <-> stopped_by ds t)
          /\ explained w_poll request endpoint_map log t d)
       \/ ((fs_subtask_id t ∉ map fd_subtask_id ds) /\ ~ stopped_by ds t
          /\ deadline_passed w_monotonic (run_deadline w_monotonic request) log))
  /\ (forall topic command, Published topic command ∈ log -> exists t ep, t ∈ fq_subtasks request
         /\ sendable request endpoint_map t = Some ep /\ topic = delegation_execute_topic
         /\ command = execute_command request t ep /\ ~ stopped_by ds t)
  /\ (forward w_monotonic -> in_order w_poll request endpoint_map log)
  /\ (sent_ids log ⊆+ map fs_subtask_id (fq_subtasks request))
  /\ (fr_completed_count r + fr_failed_count r)%Z = Z.of_nat (length ds)
  /\ (fr_degraded r = true <-> exists d, d ∈ ds /\ fd_execution_status d <> SUCCEEDED).
Proof.
  intros Hnd Hrun endpoint_map ds.
  destruct (_compute_waves depth (fq_subtasks request)) as [waves|x] eqn:Hw; [|by unfold handle in Hrun; rewrite Hw in Hrun].
  pose proof (computed_scheduled _ _ _ Hnd Hw) as Hs.
  destruct (handle_ok _ _ _ _ _ _ _ _ _ Hnd Hw Hs Hrun) as (failed & [Hids Hf Heach Hsend Hsent Horder] & Hc & Hsum & Hdeg). simpl in *.
  subst ds endpoint_map. remember (fr_dispatches r) as ds.
  assert (forall t, blocked failed t = true <-> stopped_by ds t) as Hb.
  { intros t. rewrite blocked_spec. setoid_rewrite Hf. unfold stopped_by. split.
    - intros (x & Hx & d & Hd & <- & Hne). by exists d.
    - intros (d & Hd & Hx & Hne). exists (fd_subtask_id d). eauto. }
  assert (forall t, blocked failed t = false <-> ~ stopped_by ds t) as Hb'.
  { intros t. rewrite <- Hb. by destruct (blocked failed t); split. }
  split_and!; [done| | |done|done|done|].
  - intros t Ht. destruct (Heach t Ht) as [(d & ? & ? & Hsk & ?)|(? & Hno & ?)]; [left; exists d; by rewrite <- Hb|right].
    by rewrite <- Hb'.
  - intros topic command Hin. destruct (Hsend _ _ Hin) as (t & ep & ? & ? & ? & ? & Hno). exists t, ep. by rewrite <- Hb'.
  - rewrite Hdeg, Z.gtb_lt. assert (fr_failed_count r = Z.of_nat (length ds) - fr_completed_count r)%Z as -> by lia.
    rewrite Hc. split.
    + intros Hlt. apply Exists_exists. apply not_Forall_Exists; [intros; apply _|]. intros Hall.
      enough (count (fun d => bool_decide (fd_execution_status d = SUCCEEDED)) ds = length ds) by lia.
      unfold count. f_equal. clear -Hall. induction Hall as [|d l Hd _ IH]; [done|]. rewrite filter_cons, Hd. simpl. by rewrite IH.
    + intros (d & Hd & Hne). apply list_elem_of_split in Hd as (l1 & l2 & ->).
      rewrite count_app, count_cons, length_app. simpl. rewrite bool_decide_eq_false_2 by done.
      pose proof (count_le_length (fun d => bool_decide (fd_execution_status d = SUCCEEDED)) l1).
      pose proof (count_le_length (fun d => bool_decide (fd_execution_status d = SUCCEEDED)) l2). lia.
Qed.

Definition demo_subtask (id : string) (depends_on : list string) : ModelSubtask := {|
  fs_subtask_id := id; fs_description := "do " +:+ id; fs_model_affinity := EmptyString; fs_depends_on := depends_on;
  fs_estimated_tokens := 0; fs_category := "general" |}.
Definition demo_endpoint : ModelSwarmEndpoint := {|
  fe_endpoint_id := "e"; fe_base_url := "http://e"; fe_model_id := "m"; fe_endpoint_ref := "E_URL"; fe_status := "reachable";
  fe_capabilities := [] |}.
Definition demo_request : ModelSwarmFanoutRequest := {|
  fq_subtasks := [demo_subtask "c" ["a"; "b"]; demo_subtask "d" ["a"]; demo_subtask "a" []; demo_subtask "b" []];
  fq_assignments := [("a", "e"); ("b", "e"); ("c", "e"); ("d", "e")]; fq_endpoints := [demo_endpoint]; fq_endpoint_health := [];
  fq_config := {| cf_max_parallel_subtasks := 4; cf_max_subtasks_per_endpoint := 2; cf_per_endpoint_timeout_seconds := 120;
                  cf_total_run_timeout_seconds := 600; cf_retry_policy_max_retries := 1; cf_fallback_policy_enabled := true |};
  fq_correlation_id := "k"; fq_run_id := "run"; fq_endpoint_registry_hash := EmptyString; fq_routing_policy_hash := EmptyString |}.
(** All but the subtask [b] answer; the clock stands at 5 seconds. *)
Definition demo_poll (l : list FanoutIo) (topics : list string) (run_id : string) (timeout : float) : result (list Obj) :=
  Ok (map (fun sid => [("correlation_id", JStr (_correlation_id run_id sid)); ("latency_ms", JInt 40);
                       ("success", JBool (negb (String.eqb sid "b"))); ("failure_class", JStr "refused")]) (sent_ids l)).
Definition demo_run : (unit * list FanoutIo) * result ModelSwarmFanoutResult :=
  handle (Raise (KeyError "file")) 4 (fun _ => float_of_Z 5) (fun _ _ _ => Ok ()) demo_poll demo_request ((), []).

Lemma fanout_accounts_witness :
  exists log r, demo_run = (((), log), Ok r)
    /\ map (fun d => (fd_subtask_id d, execution_status_value (fd_execution_status d))) (fr_dispatches r)
       = [("a", "succeeded"); ("b", "failed"); ("c", "skipped_dependency_failed"); ("d", "succeeded")]
    /\ sent_ids log = ["a"; "b"; "d"]
    /\ (fr_degraded r = true <-> exists d, d ∈ fr_dispatches r /\ fd_execution_status d <> SUCCEEDED).
Proof.
  destruct demo_run as [[[] log] [r|e]] eqn:E; [|exfalso; revert E; vm_compute; discriminate].
  exists log, r. split_and!; [done|revert E; vm_compute; by intros [= <- <-]..|].
  apply (fanout_accounts (Raise (KeyError "file")) 4 (fun _ => float_of_Z 5) (fun _ _ _ => Ok ()) demo_poll demo_request log r); [|done].
  apply (bool_decide_unpack _). vm_compute. exact I.
Defined.
