(* ===== verification/SwarmState.v ===== *)
(** * Swarm dispatch: subtask states, aggregation, supervision

    [node_swarm_subtask_state_reducer] folds the events of delegated calls into
    a state per subtask; [node_swarm_aggregator_compute] joins the outputs of the
    dispatches; [node_swarm_supervisor_orchestrator] looks at workers and
    respawns them. *)
From S2P Require Import Prelude PyFloat PyJson PyDyn LogMonad DelegationModels SwarmPlan SwarmFanout.

(** [EnumDelegationFailureClass.value] *)
Definition failure_class_value (c : FailureClass.EnumDelegationFailureClass) : string :=
  match c with
  | FailureClass.MODEL_UNAVAILABLE => "model_unavailable" | FailureClass.RATE_LIMITED => "rate_limited"
  | FailureClass.TIMEOUT => "timeout" | FailureClass.INVALID_JSON => "invalid_json"
  | FailureClass.QUALITY_GATE_FAILED => "quality_gate_failed" | FailureClass.CONTEXT_TOO_LARGE => "context_too_large"
  | FailureClass.PRICING_UNKNOWN => "pricing_unknown" | FailureClass.PROVIDER_AUTH_FAILED => "provider_auth_failed"
  | FailureClass.UNKNOWN => "unknown"
  end.

(** ** The subtask state reducer *)

Module Subtasks.
Inductive EnumSubtaskState : Type := ASSIGNED | EXECUTING | ESCALATING | COMPLETED | FAILED | TIMED_OUT | BLOCKED.
#[export] Instance EnumSubtaskState_eq_dec : EqDecision EnumSubtaskState.
Proof. solve_decision. Defined.
Definition is_terminal (s : EnumSubtaskState) : bool :=
  match s with COMPLETED | FAILED | TIMED_OUT | BLOCKED => true | _ => false end.
Inductive EnumDelegationEventType : Type :=
  | DELEGATION_EXECUTE | DELEGATION_CALL_COMPLETED | DELEGATION_ESCALATION_TRIGGERED | DELEGATION_ALL_TIERS_FAILED
  | SWARM_FANOUT_COMPLETED.
#[export] Instance EnumDelegationEventType_eq_dec : EqDecision EnumDelegationEventType.
Proof. solve_decision. Defined.

Record ModelSubtaskState := {
  ss_run_id : string; ss_subtask_id : string; ss_state : EnumSubtaskState; ss_endpoint_id : string; ss_model_id : string;
  ss_assigned_at : string; ss_completed_at : string; ss_latency_ms : Z; ss_attempt_count : Z; ss_failure_class : string;
  ss_terminal_event_id : string
}.
Record ModelSwarmRunState := { sr_run_id : string; sr_subtasks : list (string * ModelSubtaskState); sr_total_count : Z }.
(** The computed fields. *)
Definition completed_count (r : ModelSwarmRunState) : nat :=
  count (fun kv => bool_decide (ss_state kv.2 = COMPLETED)) (sr_subtasks r).
Definition failed_count (r : ModelSwarmRunState) : nat :=
  count (fun kv => bool_decide (ss_state kv.2 = FAILED) || bool_decide (ss_state kv.2 = TIMED_OUT)) (sr_subtasks r).
Definition pending_count (r : ModelSwarmRunState) : nat := count (fun kv => negb (is_terminal (ss_state kv.2))) (sr_subtasks r).
Definition blocked_count (r : ModelSwarmRunState) : nat :=
  count (fun kv => bool_decide (ss_state kv.2 = BLOCKED)) (sr_subtasks r).

Record ModelDelegationEvent := {
  de_event_id : string; de_event_type : EnumDelegationEventType; de_run_id : string; de_subtask_id : string;
  de_correlation_id : string; de_endpoint_id : string; de_model_id : string; de_emitted_at : string;
  de_failure_class : string; de_latency_ms : Z; de_source_topic : string; de_source_partition : Z; de_source_offset : Z
}.
Record ModelProjectionFreshness := {
  pf_projection_cursor : string; pf_source_event_id : string; pf_source_topic : string; pf_source_partition : Z;
  pf_source_offset : Z; pf_freshness_state : string; pf_reducer_version : string; pf_observed_at : string
}.
Record ModelSwarmSubtaskReducerOutput := {
  so_new_state : ModelSwarmRunState; so_changed_subtask : option ModelSubtaskState; so_state_changed : bool;
  so_projection_freshness : option ModelProjectionFreshness
}.

Definition REDUCER_VERSION : string := "1.0.0".
Definition _EVENT_TO_STATE (t : EnumDelegationEventType) : option EnumSubtaskState :=
  match t with
  | DELEGATION_EXECUTE => Some ASSIGNED
  | DELEGATION_CALL_COMPLETED => Some COMPLETED
  | DELEGATION_ESCALATION_TRIGGERED => Some ESCALATING
  | DELEGATION_ALL_TIERS_FAILED => Some FAILED
  | SWARM_FANOUT_COMPLETED => None
  end.
Definition _empty_run_state (run_id : string) : ModelSwarmRunState :=
  {| sr_run_id := run_id; sr_subtasks := []; sr_total_count := 0 |}.

(** [existing.f if existing else d] *)
Definition from_existing {A} (existing : option ModelSubtaskState) (f : ModelSubtaskState -> A) (d : A) : A :=
  match existing with Some e => f e | None => d end.
Definition attempts (event : ModelDelegationEvent) (existing : option ModelSubtaskState) : Z :=
  match existing with
  | Some e => ss_attempt_count e + (if decide (de_event_type event = DELEGATION_ESCALATION_TRIGGERED) then 1 else 0)
  | None => if decide (de_event_type event = DELEGATION_EXECUTE) then 1 else 0
  end.
Definition _build_subtask_state (event : ModelDelegationEvent) (existing : option ModelSubtaskState)
    (target_state : EnumSubtaskState) : ModelSubtaskState :=
  {| ss_run_id := de_run_id event; ss_subtask_id := de_subtask_id event; ss_state := target_state;
     ss_endpoint_id := py_or (de_endpoint_id event) (from_existing existing ss_endpoint_id EmptyString);
     ss_model_id := py_or (de_model_id event) (from_existing existing ss_model_id EmptyString);
     ss_assigned_at := if decide (de_event_type event = DELEGATION_EXECUTE) then de_emitted_at event
                       else from_existing existing ss_assigned_at EmptyString;
     ss_completed_at := if is_terminal target_state then de_emitted_at event
                        else from_existing existing ss_completed_at EmptyString;
     ss_latency_ms := py_or (de_latency_ms event) (from_existing existing ss_latency_ms 0%Z);
     ss_attempt_count := attempts event existing;
     ss_failure_class := py_or (de_failure_class event) (from_existing existing ss_failure_class EmptyString);
     ss_terminal_event_id := if is_terminal target_state then de_event_id event
                             else from_existing existing ss_terminal_event_id EmptyString |}.

Definition unchanged (current : ModelSwarmRunState) : ModelSwarmSubtaskReducerOutput :=
  {| so_new_state := current; so_changed_subtask := None; so_state_changed := false; so_projection_freshness := None |}.
(** A terminal subtask ignores a replay of its event and any other terminal event. *)
Definition ignored (event : ModelDelegationEvent) (existing : option ModelSubtaskState) (target_state : EnumSubtaskState) : bool :=
  match existing with
  | Some e => is_terminal (ss_state e)
              && (String.eqb (ss_terminal_event_id e) (de_event_id event) || is_terminal target_state)
  | None => false
  end.
Definition delta (event : ModelDelegationEvent) (current_state : option ModelSwarmRunState) : ModelSwarmSubtaskReducerOutput :=
  let current := default (_empty_run_state (de_run_id event)) current_state in
  match _EVENT_TO_STATE (de_event_type event) with
  | None => unchanged current
  | Some target_state =>
      let existing := dict_get (de_subtask_id event) (sr_subtasks current) in
      if ignored event existing target_state then unchanged current
      else
        let new_subtask := _build_subtask_state event existing target_state in
        let new_subtasks := dict_set (de_subtask_id event) new_subtask (sr_subtasks current) in
        {| so_new_state := {| sr_run_id := sr_run_id current; sr_subtasks := new_subtasks;
                              sr_total_count := Z.max (sr_total_count current) (Z.of_nat (length new_subtasks)) |};
           so_changed_subtask := Some new_subtask; so_state_changed := true;
           so_projection_freshness := Some
             {| pf_projection_cursor := de_source_topic event +:+ "/" +:+ pretty (de_source_partition event) +:+ "/"
                                        +:+ pretty (de_source_offset event);
                pf_source_event_id := de_event_id event; pf_source_topic := de_source_topic event;
                pf_source_partition := de_source_partition event; pf_source_offset := de_source_offset event;
                pf_freshness_state := "fresh"; pf_reducer_version := REDUCER_VERSION;
                pf_observed_at := de_emitted_at event |} |}
  end.

(** *** The adapters of the wire models, of which the fields they read *)

Record CallRequest := {
  aq_request_id : string; aq_causation_id : string; aq_task_id : option string; aq_correlation_id : string;
  aq_endpoint_ref : string; aq_model_id : string
}.
Record CompletedEvent := {
  ac_request_id : string; ac_causation_id : string; ac_task_id : option string; ac_correlation_id : string;
  ac_endpoint_ref : string; ac_model_id : string; ac_latency_ms : Z; ac_created_at : datetime
}.
Record EscalationEvent := {
  ae_request_id : string; ae_causation_id : string; ae_task_id : option string; ae_correlation_id : string;
  ae_model_id : string; ae_failure_class : FailureClass.EnumDelegationFailureClass; ae_created_at : datetime
}.
Record AllTiersFailedEvent := {
  af_request_id : string; af_causation_id : string; af_task_id : option string; af_correlation_id : string;
  af_failure_classes : list FailureClass.EnumDelegationFailureClass; af_created_at : datetime
}.
Inductive WirePayload : Type :=
  | WireEvent (e : ModelDelegationEvent)
  | WireCallRequest (p : CallRequest)
  | WireCompleted (p : CompletedEvent)
  | WireEscalation (p : EscalationEvent)
  | WireAllTiersFailed (p : AllTiersFailedEvent)
  | WireFanoutCompleted (p : ModelSwarmFanoutResult)
  | WireOther (type_name : string).

Definition _SUBSCRIBE_TOPICS : list string :=
  ["onex.cmd.omnimarket.delegation-execute.v1"; "onex.evt.omnimarket.delegation-call-completed.v1";
   "onex.evt.omnimarket.delegation-escalation-triggered.v1"; "onex.evt.omnimarket.delegation-all-tiers-failed.v1";
   "onex.evt.omnimarket.swarm-fanout-completed.v1"].
Definition _topic (marker : string) : string := default EmptyString (List.find (py_contains marker) _SUBSCRIBE_TOPICS).

Definition new_event (event_id : string) (event_type : EnumDelegationEventType) (run_id subtask_id correlation_id : string)
    (endpoint_id model_id emitted_at failure_class : string) (latency_ms : Z) (source_topic : string) : ModelDelegationEvent :=
  {| de_event_id := event_id; de_event_type := event_type; de_run_id := run_id; de_subtask_id := subtask_id;
     de_correlation_id := correlation_id; de_endpoint_id := endpoint_id; de_model_id := model_id;
     de_emitted_at := emitted_at; de_failure_class := failure_class; de_latency_ms := latency_ms;
     de_source_topic := source_topic; de_source_partition := 0; de_source_offset := 0 |}.
Definition _from_call_request (p : CallRequest) : ModelDelegationEvent :=
  new_event (aq_request_id p) DELEGATION_EXECUTE (aq_causation_id p) (py_opt_or (aq_task_id p) EmptyString)
    (aq_correlation_id p) (aq_endpoint_ref p) (aq_model_id p) EmptyString EmptyString 0 (_topic "delegation-execute").
Definition _from_completed (p : CompletedEvent) : ModelDelegationEvent :=
  new_event (ac_request_id p) DELEGATION_CALL_COMPLETED (ac_causation_id p) (py_opt_or (ac_task_id p) EmptyString)
    (ac_correlation_id p) (ac_endpoint_ref p) (ac_model_id p) (isoformat (ac_created_at p)) EmptyString (ac_latency_ms p)
    (_topic "delegation-call-completed").
Definition _from_escalation (p : EscalationEvent) : ModelDelegationEvent :=
  new_event (ae_request_id p) DELEGATION_ESCALATION_TRIGGERED (ae_causation_id p) (py_opt_or (ae_task_id p) EmptyString)
    (ae_correlation_id p) EmptyString (ae_model_id p) (isoformat (ae_created_at p))
    (failure_class_value (ae_failure_class p)) 0 (_topic "delegation-escalation-triggered").
Definition _from_all_tiers_failed (p : AllTiersFailedEvent) : ModelDelegationEvent :=
  new_event (af_request_id p) DELEGATION_ALL_TIERS_FAILED (af_causation_id p) (py_opt_or (af_task_id p) EmptyString)
    (af_correlation_id p) EmptyString EmptyString (isoformat (af_created_at p))
    (from_option failure_class_value EmptyString (last (af_failure_classes p))) 0 (_topic "delegation-all-tiers-failed").
Definition _from_fanout_completed (p : ModelSwarmFanoutResult) : ModelDelegationEvent :=
  new_event ("fanout-completed-" +:+ fr_run_id p) SWARM_FANOUT_COMPLETED (fr_run_id p) EmptyString (fr_run_id p)
    EmptyString EmptyString EmptyString EmptyString 0 (_topic "swarm-fanout-completed").
Definition _adapt (payload : WirePayload) : result ModelDelegationEvent :=
  match payload with
  | WireEvent e => Ok e
  | WireCallRequest p => Ok (_from_call_request p)
  | WireCompleted p => Ok (_from_completed p)
  | WireEscalation p => Ok (_from_escalation p)
  | WireAllTiersFailed p => Ok (_from_all_tiers_failed p)
  | WireFanoutCompleted p => Ok (_from_fanout_completed p)
  | WireOther type_name =>
      Raise (TypeError ("HandlerSwarmSubtaskState.handle() received unrecognized payload type " +:+ py_repr type_name
        +:+ " — expected one of ['ModelLlmDelegationCallRequest', 'ModelLlmDelegationCompletedEvent', "
        +:+ "'ModelLlmDelegationEscalationTriggeredEvent', 'ModelLlmDelegationAllTiersFailedEvent', "
        +:+ "'ModelSwarmFanoutResult'] or ModelDelegationEvent."))
  end.
(** The dispatch entry: there is no current state to reduce. *)
Definition handle (payload : WirePayload) : result ModelSwarmSubtaskReducerOutput :=
  event ← _adapt payload; Ok (delta event None).
(** A caller that keeps the state between events. *)
Definition fold_events (s : option ModelSwarmRunState) (events : list ModelDelegationEvent) : option ModelSwarmRunState :=
  foldl (fun s e => Some (so_new_state (delta e s))) s events.
End Subtasks.

(** ** The aggregator *)

Module Aggregator.
Inductive EnumSubtaskStatus : Type := SUCCEEDED | FAILED | TIMEOUT | SKIPPED_DEPENDENCY_FAILED | CONTEXT_WINDOW_EXCEEDED.
#[export] Instance EnumSubtaskStatus_eq_dec : EqDecision EnumSubtaskStatus.
Proof. solve_decision. Defined.
Definition subtask_status_value (s : EnumSubtaskStatus) : string :=
  match s with
  | SUCCEEDED => "succeeded" | FAILED => "failed" | TIMEOUT => "timeout"
  | SKIPPED_DEPENDENCY_FAILED => "skipped_dependency_failed" | CONTEXT_WINDOW_EXCEEDED => "context_window_exceeded"
  end.
Definition subtask_status_of (raw : string) : option EnumSubtaskStatus :=
  List.find (fun s => String.eqb (subtask_status_value s) raw)
    [SUCCEEDED; FAILED; TIMEOUT; SKIPPED_DEPENDENCY_FAILED; CONTEXT_WINDOW_EXCEEDED].
Definition in_failed_statuses (s : EnumSubtaskStatus) : bool :=
  match s with FAILED | TIMEOUT | CONTEXT_WINDOW_EXCEEDED => true | _ => false end.

Record ModelSwarmDispatchResult := {
  ar_response_text : string; ar_handler_source : string; ar_contract_yaml : string; ar_task_description : string
}.
Record ModelSwarmDispatch := {
  ad_subtask_id : string; ad_endpoint_id : string; ad_model_id : string; ad_base_url : string;
  ad_status : EnumSubtaskStatus; ad_result : option ModelSwarmDispatchResult; ad_failure_class : string;
  ad_failure_reason : string; ad_retry_count : Z; ad_fallback_endpoint_id : option string; ad_latency_ms : Z;
  ad_started_at : string; ad_completed_at : string; ad_wave : Z
}.
(** The node's copies of [ModelSubtask] and [ModelDecomposition] have the
    decomposer's fields. *)
Record ModelSwarmAggregateRequest := {
  gq_decomposition : option Decomposer.ModelDecomposition; gq_dispatches : list ModelSwarmDispatch;
  gq_subtasks : list Decomposer.ModelSubtask; gq_dispatches_json : string; gq_mode : string;
  gq_synthesis_output : option string; gq_synthesis_model_id : option string; gq_synthesis_input_hash : option string;
  gq_correlation_id : string; gq_run_id : string
}.
Record ModelSwarmAggregateResult := {
  gr_aggregated_output : string; gr_aggregation_mode : string; gr_failed_subtasks : list string;
  gr_skipped_subtasks : list string; gr_degraded_reason : string; gr_synthesis_input_hash : string;
  gr_synthesis_model_id : string; gr_run_id : string
}.
(** [model_dump()] *)
Definition aggregate_result_json (r : ModelSwarmAggregateResult) : Obj := [
  ("aggregated_output", JStr (gr_aggregated_output r)); ("aggregation_mode", JStr (gr_aggregation_mode r));
  ("failed_subtasks", JArr (map JStr (gr_failed_subtasks r))); ("skipped_subtasks", JArr (map JStr (gr_skipped_subtasks r)));
  ("degraded_reason", JStr (gr_degraded_reason r)); ("synthesis_input_hash", JStr (gr_synthesis_input_hash r));
  ("synthesis_model_id", JStr (gr_synthesis_model_id r)); ("run_id", JStr (gr_run_id r))].

Section read.
Context `{P : Pydantic}.

Definition status_field (j : json) : option EnumSubtaskStatus :=
  match j with JStr s => subtask_status_of s | _ => None end.
Definition result_of (kw : Obj) : result ModelSwarmDispatchResult :=
  let model := "ModelSwarmDispatchResult" in
  response_text ← field_or model lax_str "response_text" EmptyString kw;
  handler_source ← field_or model lax_str "handler_source" EmptyString kw;
  contract_yaml ← field_or model lax_str "contract_yaml" EmptyString kw;
  task_description ← field_or model lax_str "task_description" EmptyString kw;
  _ ← no_extra model ["response_text"; "handler_source"; "contract_yaml"; "task_description"] kw;
  Ok {| ar_response_text := response_text; ar_handler_source := handler_source; ar_contract_yaml := contract_yaml;
        ar_task_description := task_description |}.
Definition result_field (j : json) : option ModelSwarmDispatchResult :=
  match j with JObj kw => match result_of kw with Ok a => Some a | Raise _ => None end | _ => None end.
(** [ModelSwarmDispatch.model_validate(d)] *)
Definition dispatch_of (j : json) : result ModelSwarmDispatch :=
  let model := "ModelSwarmDispatch" in
  match j with
  | JObj kw =>
      subtask_id ← field_req model lax_str "subtask_id" kw;
      endpoint_id ← field_req model lax_str "endpoint_id" kw;
      model_id ← field_req model lax_str "model_id" kw;
      base_url ← field_req model lax_str "base_url" kw;
      status ← field_req model status_field "status" kw;
      res ← field_or model (nullable result_field) "result" None kw;
      failure_class ← field_or model lax_str "failure_class" EmptyString kw;
      failure_reason ← field_or model lax_str "failure_reason" EmptyString kw;
      retry_count ← field_or model lax_int "retry_count" 0%Z kw;
      fallback_endpoint_id ← field_or model (nullable lax_str) "fallback_endpoint_id" None kw;
      latency_ms ← field_or model lax_int "latency_ms" 0%Z kw;
      started_at ← field_or model lax_str "started_at" EmptyString kw;
      completed_at ← field_or model lax_str "completed_at" EmptyString kw;
      wave ← field_or model lax_int "wave" 0%Z kw;
      _ ← no_extra model ["subtask_id"; "endpoint_id"; "model_id"; "base_url"; "status"; "result"; "failure_class";
                          "failure_reason"; "retry_count"; "fallback_endpoint_id"; "latency_ms"; "started_at";
                          "completed_at"; "wave"] kw;
      Ok {| ad_subtask_id := subtask_id; ad_endpoint_id := endpoint_id; ad_model_id := model_id; ad_base_url := base_url;
            ad_status := status; ad_result := res; ad_failure_class := failure_class; ad_failure_reason := failure_reason;
            ad_retry_count := retry_count; ad_fallback_endpoint_id := fallback_endpoint_id; ad_latency_ms := latency_ms;
            ad_started_at := started_at; ad_completed_at := completed_at; ad_wave := wave |}
  | _ => Raise (ValidationError model)
  end.
Definition _resolve_dispatches (request : ModelSwarmAggregateRequest) : list ModelSwarmDispatch :=
  if truthy (gq_dispatches request) then gq_dispatches request
  else if truthy (gq_dispatches_json request) then
    match json_loads (gq_dispatches_json request) with
    | Ok (JArr raw) => match map_result dispatch_of raw with Ok ds => ds | Raise _ => [] end
    | _ => []
    end
  else [].
End read.

Definition _resolve_subtasks (request : ModelSwarmAggregateRequest) : list Decomposer.ModelSubtask :=
  match gq_decomposition request with Some d => Decomposer.dc_subtasks d | None => gq_subtasks request end.
Definition _extract_text (d : ModelSwarmDispatch) : string :=
  match ad_result d with
  | None => EmptyString
  | Some r => py_or (py_or (py_or (ar_response_text r) (ar_handler_source r)) (ar_contract_yaml r)) (ar_task_description r)
  end.

(** [{s.subtask_id: i for i, s in enumerate(subtasks)}] *)
Definition subtask_order (subtasks : list Decomposer.ModelSubtask) : list (string * nat) :=
  foldl (fun m si => dict_set (Decomposer.ds_subtask_id si.2) si.1 m) [] (combine (seq 0 (length subtasks)) subtasks).
Definition sort_key (order : list (string * nat)) (d : ModelSwarmDispatch) : Z * (Z * string) :=
  (ad_wave d, (Z.of_nat (default 999 (dict_get (ad_subtask_id d) order)), ad_subtask_id d)).
Definition newline : string := String (ascii_of_nat 10) EmptyString.
Definition _SECTION_SEPARATOR : string := newline +:+ newline +:+ "---" +:+ newline +:+ newline.
Definition section_of (d : ModelSwarmDispatch) : string :=
  "## Subtask: " +:+ ad_subtask_id d +:+ newline +:+ newline +:+ _extract_text d.
(** The three lists of the loop over the dispatches. *)
Definition succeeded (d : ModelSwarmDispatch) : bool := bool_decide (ad_status d = SUCCEEDED).
Definition skipped (d : ModelSwarmDispatch) : bool := bool_decide (ad_status d = SKIPPED_DEPENDENCY_FAILED).
Definition failed (d : ModelSwarmDispatch) : bool := in_failed_statuses (ad_status d).
Definition ids_of (p : ModelSwarmDispatch -> bool) (l : list ModelSwarmDispatch) : list string :=
  map ad_subtask_id (List.filter p l).
Definition degraded_reason (failed skipped : list string) : string :=
  if truthy failed then
    "Failed subtasks: " +:+ py_join ", " failed
    +:+ (if truthy skipped then "; Skipped subtasks: " +:+ py_join ", " skipped else EmptyString)
  else if truthy skipped then "Skipped subtasks: " +:+ py_join ", " skipped else EmptyString.

Section aggregate.
Context `{P : Pydantic}.

Definition sorted_dispatches (request : ModelSwarmAggregateRequest) : list ModelSwarmDispatch :=
  sort_by (sort_key (subtask_order (_resolve_subtasks request))) (_resolve_dispatches request).
Definition _concatenation (request : ModelSwarmAggregateRequest) : ModelSwarmAggregateResult :=
  let ds := sorted_dispatches request in
  {| gr_aggregated_output := py_join _SECTION_SEPARATOR (map section_of (List.filter succeeded ds));
     gr_aggregation_mode := "concatenation"; gr_failed_subtasks := ids_of failed ds;
     gr_skipped_subtasks := ids_of skipped ds; gr_degraded_reason := degraded_reason (ids_of failed ds) (ids_of skipped ds);
     gr_synthesis_input_hash := EmptyString; gr_synthesis_model_id := EmptyString; gr_run_id := gq_run_id request |}.
Definition _synthesis (request : ModelSwarmAggregateRequest) : ModelSwarmAggregateResult :=
  let ds := _resolve_dispatches request in
  {| gr_aggregated_output := py_opt_or (gq_synthesis_output request) EmptyString; gr_aggregation_mode := "synthesis";
     gr_failed_subtasks := ids_of failed ds; gr_skipped_subtasks := ids_of skipped ds; gr_degraded_reason := EmptyString;
     gr_synthesis_input_hash := py_opt_or (gq_synthesis_input_hash request) EmptyString;
     gr_synthesis_model_id := py_opt_or (gq_synthesis_model_id request) EmptyString; gr_run_id := gq_run_id request |}.
Definition run (request : ModelSwarmAggregateRequest) : ModelSwarmAggregateResult :=
  if String.eqb (gq_mode request) "synthesis" && bool_decide (is_Some (gq_synthesis_output request))
  then _synthesis request else _concatenation request.
End aggregate.
End Aggregator.

(** ** The supervisor *)

Module Supervisor.
Inductive EnumWorkerStatus : Type :=
  | HEALTHY | ZOMBIE | CONTEXT_EXHAUSTED | FALSE_COMPLETION | RESPAWNED | ABANDONED | TERMINAL.
#[export] Instance EnumWorkerStatus_eq_dec : EqDecision EnumWorkerStatus.
Proof. solve_decision. Defined.
Definition worker_status_value (s : EnumWorkerStatus) : string :=
  match s with
  | HEALTHY => "healthy" | ZOMBIE => "zombie" | CONTEXT_EXHAUSTED => "context_exhausted"
  | FALSE_COMPLETION => "false_completion" | RESPAWNED => "respawned" | ABANDONED => "abandoned" | TERMINAL => "terminal"
  end.
Inductive EnumSupervisorStatus : Type := COMPLETE | HALTED | SUPERVISOR_FAILED.
Definition supervisor_status_value (s : EnumSupervisorStatus) : string :=
  match s with COMPLETE => "complete" | HALTED => "halted" | SUPERVISOR_FAILED => "failed" end.

Record ModelWorkerState := {
  wk_worker_id : string; wk_status : EnumWorkerStatus; wk_last_heartbeat_at : option datetime;
  wk_context_usage_pct : option float; wk_respawn_count : Z; wk_respawn_reason : string; wk_abandoned : bool
}.
#[export] Instance eta_worker_state : Eta ModelWorkerState := fun w =>
  Build_ModelWorkerState (wk_worker_id w) (wk_status w) (wk_last_heartbeat_at w) (wk_context_usage_pct w)
    (wk_respawn_count w) (wk_respawn_reason w) (wk_abandoned w).
Definition new_worker (wid : string) : ModelWorkerState :=
  {| wk_worker_id := wid; wk_status := HEALTHY; wk_last_heartbeat_at := None; wk_context_usage_pct := None;
     wk_respawn_count := 0; wk_respawn_reason := EmptyString; wk_abandoned := false |}.
Record ModelSwarmSupervisorStartCommand := {
  sc_correlation_id : string; sc_poll_interval_seconds : Z; sc_zombie_threshold_seconds : Z;
  sc_context_exhaustion_pct : float; sc_max_respawn_attempts : Z; sc_dry_run : bool; sc_worker_ids : list string
}.
Record ModelSwarmSupervisorResult := {
  sv_correlation_id : string; sv_overall_status : EnumSupervisorStatus; sv_workers_supervised : Z;
  sv_respawns_issued : Z; sv_zombies_detected : Z; sv_false_completions_detected : Z; sv_halt_reason : string
}.
(** [model_dump(mode="json")] *)
Definition supervisor_result_json (r : ModelSwarmSupervisorResult) : json := JObj [
  ("correlation_id", JStr (sv_correlation_id r)); ("overall_status", JStr (supervisor_status_value (sv_overall_status r)));
  ("workers_supervised", JInt (sv_workers_supervised r)); ("respawns_issued", JInt (sv_respawns_issued r));
  ("zombies_detected", JInt (sv_zombies_detected r));
  ("false_completions_detected", JInt (sv_false_completions_detected r)); ("halt_reason", JStr (sv_halt_reason r))].

Definition publish_topics : list string :=
  ["onex.evt.omnimarket.swarm-supervisor-orchestrator-completed.v1"; "onex.evt.omnimarket.swarm-supervisor-respawn-issued.v1";
   "onex.cmd.omnimarket.build-dispatch-effect-start.v1"].
Definition topic_with (marker : string) : string := default EmptyString (List.find (py_contains marker) publish_topics).
Definition _topic_completed : string := topic_with "supervisor-orchestrator-completed".
Definition _topic_respawn_issued : string := topic_with "respawn-issued".
Definition _topic_dispatch : string := topic_with "build-dispatch-effect-start".

Inductive SupervisorIo : Type :=
  | MadeDir (correlation_id : string)
  | WroteRespawn (entry : json)
  | WroteSummary (summary : json)
  | Published (topic key : string) (value : json).

(** The worker with the status the check leaves, and its failure mode. *)
Definition _classify_worker (now : datetime) (command : ModelSwarmSupervisorStartCommand) (worker : ModelWorkerState)
  : ModelWorkerState * option EnumWorkerStatus :=
  if match wk_context_usage_pct worker with Some pct => fge pct (sc_context_exhaustion_pct command) | None => false end
  then (worker <| wk_status := CONTEXT_EXHAUSTED |>, Some CONTEXT_EXHAUSTED)
  else if match wk_last_heartbeat_at worker with
          | Some t => fge (rat (now - t) 1000000) (float_of_Z (sc_zombie_threshold_seconds command))
          | None => false
          end
  then (worker <| wk_status := ZOMBIE |>, Some ZOMBIE)
  else if decide (wk_status worker = FALSE_COMPLETION) then (worker, Some FALSE_COMPLETION)
  else (worker, None).

Section supervisor.
Context (w_now : list SupervisorIo -> datetime).
(** Files raise [OSError] only. *)
Context (w_file : list SupervisorIo -> json -> result unit) (w_mkdir : list SupervisorIo -> result unit).
Context (w_publish : list SupervisorIo -> string -> string -> json -> result unit).
Abbreviation Act := (M unit SupervisorIo).

(** [try: m except Exception as exc: log] *)
Definition logged (m : Act unit) : Act unit := _ ← attempt m; mret ().
Definition _write_respawn_log (worker_id : string) (reason : EnumWorkerStatus) (action : string) (respawn_count : Z)
    (dry_run : bool) : Act unit :=
  now ← ask w_now;
  let entry := JObj [("ts", JStr (isoformat now)); ("worker_id", JStr worker_id); ("reason", JStr (worker_status_value reason));
                     ("action", JStr action); ("respawn_count", JInt respawn_count); ("dry_run", JBool dry_run)] in
  logged (call (WroteRespawn entry) (fun l => w_file l entry)).
Definition publish (topic key : string) (value : json) : Act unit :=
  call (Published topic key value) (fun l => w_publish l topic key value).
Definition _respawn_worker (worker : ModelWorkerState) (reason : EnumWorkerStatus)
    (command : ModelSwarmSupervisorStartCommand) : Act ModelWorkerState :=
  let worker := worker <| wk_respawn_count := (wk_respawn_count worker + 1)%Z |> <| wk_status := RESPAWNED |>
                       <| wk_respawn_reason := worker_status_value reason |> in
  _ ← _write_respawn_log (wk_worker_id worker) reason "respawn" (wk_respawn_count worker) (sc_dry_run command);
  if sc_dry_run command then mret worker
  else if negb (truthy _topic_dispatch) then mret worker
  else
    let payload := JObj [
      ("correlation_id", JStr (sc_correlation_id command)); ("worker_id", JStr (wk_worker_id worker));
      ("respawn_reason", JStr (worker_status_value reason)); ("respawn_attempt", JInt (wk_respawn_count worker));
      ("narrower_scope", JBool true)] in
    _ ← logged (_ ← publish _topic_dispatch (wk_worker_id worker) payload;
                when (truthy _topic_respawn_issued) (publish _topic_respawn_issued (wk_worker_id worker) payload));
    mret worker.

(** The workers passed, and the counts of respawns, zombies, false completions. *)
Definition Tally : Type := list (string * ModelWorkerState) * (Z * Z * Z).
Definition supervise_one (command : ModelSwarmSupervisorStartCommand) (t : Tally) (kw : string * ModelWorkerState) : Act Tally :=
  now ← ask w_now;
  let '(worker, failure_mode) := _classify_worker now command kw.2 in
  let '(respawns, zombies, false_completions) := t.2 in
  match failure_mode with
  | None => mret (t.1 ++ [(kw.1, worker)], t.2)
  | Some mode =>
      let zombies := if decide (mode = ZOMBIE) then (zombies + 1)%Z else zombies in
      let false_completions := if decide (mode = FALSE_COMPLETION) then (false_completions + 1)%Z else false_completions in
      if (wk_respawn_count worker >=? sc_max_respawn_attempts command)%Z then
        let worker := worker <| wk_abandoned := true |> <| wk_status := ABANDONED |> in
        _ ← _write_respawn_log (wk_worker_id worker) mode "abandoned" (wk_respawn_count worker) (sc_dry_run command);
        mret (t.1 ++ [(kw.1, worker)], (respawns, zombies, false_completions))
      else
        worker ← _respawn_worker worker mode command;
        mret (t.1 ++ [(kw.1, worker)], ((respawns + 1)%Z, zombies, false_completions))
  end.
Definition _supervision_loop (command : ModelSwarmSupervisorStartCommand) (workers : list (string * ModelWorkerState))
  : Act Tally :=
  fold_each workers ([], (0, 0, 0)%Z) (supervise_one command).

Definition handle (command : ModelSwarmSupervisorStartCommand) : Act ModelSwarmSupervisorResult :=
  _ ← call (MadeDir (sc_correlation_id command)) w_mkdir;
  let workers := dict_index wk_worker_id (map new_worker (sc_worker_ids command)) in
  r ← attempt (_supervision_loop command workers);
  let '(status, (respawns, zombies, false_completions), halt_reason) :=
    match r with
    | Ok t => (COMPLETE, t.2, EmptyString)
    | Raise exc => (SUPERVISOR_FAILED, (0, 0, 0)%Z, exn_str exc)
    end in
  let res := {| sv_correlation_id := sc_correlation_id command; sv_overall_status := status;
                sv_workers_supervised := Z.of_nat (length workers); sv_respawns_issued := respawns;
                sv_zombies_detected := zombies; sv_false_completions_detected := false_completions;
                sv_halt_reason := halt_reason |} in
  _ ← when (truthy _topic_completed)
        (logged (publish _topic_completed (sc_correlation_id command) (supervisor_result_json res)));
  _ ← logged (call (WroteSummary (supervisor_result_json res)) (fun l => w_file l (supervisor_result_json res)));
  mret res.
End supervisor.
End Supervisor.
