(* ===== verification/SwarmDispatch.v ===== *)
(** * Swarm dispatch: the orchestrator

    [node_swarm_dispatch_orchestrator]: the state machine that takes a run from
    its command through health check, decomposition, endpoint selection, fan-out
    and aggregation.  The transitions are functions; the handler keeps the states
    of the runs in the class-level dict and, when it is given one, in a state
    store, and publishes through the event bus.  Bus, store, clock and uuid are
    arguments; every use of bus and store is logged. *)
From S2P Require Import Prelude PyFloat PyJson PyHash PyDyn LogMonad.

Inductive EnumSwarmOrchestratorState : Type :=
  | RECEIVED | HEALTH_CHECKED | DECOMPOSED | ENDPOINTS_SELECTED | DISPATCHING | AGGREGATING | COMPLETED | FAILED.
#[export] Instance EnumSwarmOrchestratorState_eq_dec : EqDecision EnumSwarmOrchestratorState.
Proof. solve_decision. Defined.
Definition fsm_states : list EnumSwarmOrchestratorState :=
  [RECEIVED; HEALTH_CHECKED; DECOMPOSED; ENDPOINTS_SELECTED; DISPATCHING; AGGREGATING; COMPLETED; FAILED].
Definition fsm_value (s : EnumSwarmOrchestratorState) : string :=
  match s with
  | RECEIVED => "received" | HEALTH_CHECKED => "health_checked" | DECOMPOSED => "decomposed"
  | ENDPOINTS_SELECTED => "endpoints_selected" | DISPATCHING => "dispatching" | AGGREGATING => "aggregating"
  | COMPLETED => "completed" | FAILED => "failed"
  end.
Definition fsm_name (s : EnumSwarmOrchestratorState) : string := py_upper (fsm_value s).
(** [repr] of a member *)
Definition fsm_repr (s : EnumSwarmOrchestratorState) : string :=
  "<EnumSwarmOrchestratorState." +:+ fsm_name s +:+ ": '" +:+ fsm_value s +:+ "'>".
Definition fsm_of (raw : string) : option EnumSwarmOrchestratorState :=
  List.find (fun s => String.eqb (fsm_value s) raw) fsm_states.

Inductive EnumSwarmRunStatus : Type := RunSucceeded | RunDegraded | RunFailed | RunTimeout.
Definition run_status_value (s : EnumSwarmRunStatus) : string :=
  match s with RunSucceeded => "succeeded" | RunDegraded => "degraded" | RunFailed => "failed" | RunTimeout => "timeout" end.
(** The subtask statuses that count as failed, succeeded and skipped. *)
Definition _FAILED_STATUSES : list string := ["failed"; "timeout"; "context_window_exceeded"].
Definition SUBTASK_SUCCEEDED : string := "succeeded".
Definition SUBTASK_SKIPPED : string := "skipped_dependency_failed".

Record ModelEndpointHealth := { oh_endpoint_id : string; oh_status : string; oh_latency_ms : option Z; oh_error : option string }.
Record ModelSubtask := {
  ot_subtask_id : string; ot_description : string; ot_model_affinity : string; ot_depends_on : list string;
  ot_estimated_tokens : Z; ot_category : string
}.
Record ModelSubtaskDispatch := {
  od_subtask_id : string; od_endpoint_id : string; od_status : string; od_latency_ms : Z; od_result_text : string;
  od_failure_reason : string; od_wave : Z; od_model_id : string; od_base_url : string
}.
(** [aggregated_output] is copied from an event without validation. *)
Record ModelOrchestratorState := {
  os_fsm_state : EnumSwarmOrchestratorState; os_run_id : string; os_correlation_id : string; os_original_task : string;
  os_endpoint_health : list (string * ModelEndpointHealth); os_subtasks : list ModelSubtask;
  os_assignments : list (string * string); os_dispatches : list ModelSubtaskDispatch; os_aggregated_output : json;
  os_error : string; os_total_latency_ms : Z; os_dispatch_wall_latency_ms : Z; os_max_subtasks : Z
}.
#[export] Instance eta_orchestrator_state : Eta ModelOrchestratorState := fun r =>
  Build_ModelOrchestratorState (os_fsm_state r) (os_run_id r) (os_correlation_id r) (os_original_task r)
    (os_endpoint_health r) (os_subtasks r) (os_assignments r) (os_dispatches r) (os_aggregated_output r) (os_error r)
    (os_total_latency_ms r) (os_dispatch_wall_latency_ms r) (os_max_subtasks r).

(** [str(exc)] of the orchestrator's own errors *)
Definition InvalidFSMTransitionError (msg : string) : py_exn := OtherError "InvalidFSMTransitionError" msg.
Definition MissingRunStateError (msg : string) : py_exn := OtherError "MissingRunStateError" msg.

(** ** Dumps *)

Definition health_json (h : ModelEndpointHealth) : json := JObj [
  ("endpoint_id", JStr (oh_endpoint_id h)); ("status", JStr (oh_status h));
  ("latency_ms", from_option JInt JNull (oh_latency_ms h)); ("error", from_option JStr JNull (oh_error h))].
Definition subtask_json (t : ModelSubtask) : json := JObj [
  ("subtask_id", JStr (ot_subtask_id t)); ("description", JStr (ot_description t));
  ("model_affinity", JStr (ot_model_affinity t)); ("depends_on", JArr (map JStr (ot_depends_on t)));
  ("estimated_tokens", JInt (ot_estimated_tokens t)); ("category", JStr (ot_category t))].
Definition dispatch_json (d : ModelSubtaskDispatch) : json := JObj [
  ("subtask_id", JStr (od_subtask_id d)); ("endpoint_id", JStr (od_endpoint_id d)); ("status", JStr (od_status d));
  ("latency_ms", JInt (od_latency_ms d)); ("result_text", JStr (od_result_text d));
  ("failure_reason", JStr (od_failure_reason d)); ("wave", JInt (od_wave d)); ("model_id", JStr (od_model_id d));
  ("base_url", JStr (od_base_url d))].
Definition health_dict_json (h : list (string * ModelEndpointHealth)) : json := JObj (map (fun kv => (kv.1, health_json kv.2)) h).
Definition assignments_json (a : list (string * string)) : json := JObj (map (fun kv => (kv.1, JStr kv.2)) a).
(** [model_dump(mode="json")] *)
Definition state_json (s : ModelOrchestratorState) : Obj := [
  ("fsm_state", JStr (fsm_value (os_fsm_state s))); ("run_id", JStr (os_run_id s));
  ("correlation_id", JStr (os_correlation_id s)); ("original_task", JStr (os_original_task s));
  ("endpoint_health", health_dict_json (os_endpoint_health s)); ("subtasks", JArr (map subtask_json (os_subtasks s)));
  ("assignments", assignments_json (os_assignments s)); ("dispatches", JArr (map dispatch_json (os_dispatches s)));
  ("aggregated_output", os_aggregated_output s); ("error", JStr (os_error s));
  ("total_latency_ms", JInt (os_total_latency_ms s)); ("dispatch_wall_latency_ms", JInt (os_dispatch_wall_latency_ms s));
  ("max_subtasks", JInt (os_max_subtasks s))].

(** ** Topics: [contract.yaml] *)

Definition subscribe_topics : list string :=
  ["onex.cmd.omnimarket.swarm-dispatch.v1"; "onex.evt.omnimarket.swarm-endpoint-health-completed.v1";
   "onex.evt.omnimarket.swarm-decomposition-completed.v1"; "onex.evt.omnimarket.swarm-endpoints-selected.v1";
   "onex.evt.omnimarket.swarm-fanout-completed.v1"; "onex.evt.omnimarket.swarm-aggregation-completed.v1"].
Definition publish_topics : list string :=
  ["onex.cmd.omnimarket.swarm-check-endpoint-health.v1"; "onex.cmd.omnimarket.swarm-decompose.v1";
   "onex.cmd.omnimarket.swarm-select-endpoints.v1"; "onex.cmd.omnimarket.swarm-fanout.v1";
   "onex.cmd.omnimarket.swarm-aggregate.v1"; "onex.evt.omnimarket.swarm-dispatch-completed.v1";
   "onex.evt.omnimarket.swarm-dispatch-failed.v1"].
Definition topic_with (marker : string) : string := default EmptyString (List.find (py_contains marker) publish_topics).
Definition _topic_health_cmd : string := topic_with "swarm-check-endpoint-health".
Definition _topic_decompose_cmd : string := topic_with "swarm-decompose".
Definition _topic_select_cmd : string := topic_with "swarm-select-endpoints".
Definition _topic_fanout_cmd : string := topic_with "swarm-fanout".
Definition _topic_aggregate_cmd : string := topic_with "swarm-aggregate".
Definition _topic_completed : string := topic_with "swarm-dispatch-completed".
Definition _topic_failed : string := topic_with "swarm-dispatch-failed".

Definition routing_key (topic : string) : option string :=
  if py_contains "swarm-endpoint-health-completed" topic then Some "health_checked"
  else if py_contains "swarm-decomposition-completed" topic then Some "decomposed"
  else if py_contains "swarm-endpoints-selected" topic then Some "endpoints_selected"
  else if py_contains "swarm-fanout-completed" topic then Some "dispatching"
  else if py_contains "swarm-aggregation-completed" topic then Some "aggregating" else None.
Definition _topic_routing : list (string * string) :=
  omap (fun t => (fun k => (t, k)) <$> routing_key t) subscribe_topics.
(** ["{parts[2]}.{parts[3]}"] of [parts = topic.split(".")] *)
Definition topic_alias (topic : string) : option string :=
  match py_split "." topic with
  | _ :: _ :: p2 :: p3 :: _ :: _ => Some (p2 +:+ "." +:+ p3)
  | _ => None
  end.
Definition routing_alias (topic : string) : option string :=
  match py_split "." topic with "onex" :: _ => topic_alias topic | _ => None end.
Definition _event_type_routing : list (string * string) :=
  foldl (fun m tk => match routing_alias tk.1 with Some alias => dict_set alias tk.2 m | None => m end) [] _topic_routing.

(** ** Reading the events of the other nodes *)

Section parsing.
Context `{P : Pydantic}.

(** [ModelEndpointHealth(...)] of one entry of an event *)
Definition parse_health (kv : string * json) : result (string * ModelEndpointHealth) :=
  status ← py_get_or "endpoint_status" (JStr "unknown") kv.2;
  latency_ms ← py_get_or "latency_ms" JNull kv.2;
  error ← py_get_or "error" JNull kv.2;
  status ← check "ModelEndpointHealth" (lax_str status);
  latency_ms ← check "ModelEndpointHealth" (nullable lax_int latency_ms);
  error ← check "ModelEndpointHealth" (nullable lax_str error);
  Ok (kv.1, {| oh_endpoint_id := kv.1; oh_status := status; oh_latency_ms := latency_ms; oh_error := error |}).
(** [d.items()] *)
Definition py_items (j : json) : result (list (string * json)) :=
  match j with JObj o => Ok o | _ => no_attribute j "items" end.
Definition _parse_health_event (event : Obj) : result (list (string * ModelEndpointHealth)) :=
  raw ← py_items (default (JObj []) (dict_get "endpoint_health" event)); map_result parse_health raw.

Definition parse_subtask (s : json) : result ModelSubtask :=
  subtask_id ← py_item "subtask_id" s;
  description ← py_get_or "description" (JStr EmptyString) s;
  model_affinity ← py_get_or "model_affinity" (JStr EmptyString) s;
  depends_on ← py_get_or "depends_on" (JArr []) s;
  depends_on ← py_iter depends_on;
  estimated_tokens ← py_get_or "estimated_tokens" (JInt 0) s;
  category ← py_get_or "category" (JStr "general") s;
  let valid {A} := check (A := A) "ModelSubtask" in
  subtask_id ← valid (lax_str subtask_id);
  description ← valid (lax_str description);
  model_affinity ← valid (lax_str model_affinity);
  depends_on ← valid (mapM lax_str depends_on);
  estimated_tokens ← valid (lax_int estimated_tokens);
  category ← valid (lax_str category);
  Ok {| ot_subtask_id := subtask_id; ot_description := description; ot_model_affinity := model_affinity;
        ot_depends_on := depends_on; ot_estimated_tokens := estimated_tokens; ot_category := category |}.
Definition _parse_decompose_event (event : Obj) : result (list ModelSubtask) :=
  raw ← py_iter (default (JArr []) (dict_get "subtasks" event)); map_result parse_subtask raw.

Definition _parse_select_event (event : Obj) : result (list (string * string)) :=
  assignments ← py_items (default (JObj []) (dict_get "assignments" event));
  Ok (map (fun kv => (kv.1, json_str kv.2)) assignments).

Definition parse_dispatch (d : json) : result ModelSubtaskDispatch :=
  subtask_id ← py_item "subtask_id" d;
  endpoint_id ← py_get_or "endpoint_id" (JStr EmptyString) d;
  status ← py_get_or "status" (JStr "failed") d;
  latency_ms ← py_get_or "latency_ms" (JInt 0) d;
  result_text ← py_get_or "result_text" (JStr EmptyString) d;
  failure_reason ← py_get_or "failure_reason" (JStr EmptyString) d;
  wave ← py_get_or "wave" (JInt 0) d;
  model_id ← py_get_or "model_id" (JStr EmptyString) d;
  base_url ← py_get_or "base_url" (JStr EmptyString) d;
  let valid {A} := check (A := A) "ModelSubtaskDispatch" in
  subtask_id ← valid (lax_str subtask_id);
  endpoint_id ← valid (lax_str endpoint_id);
  status ← valid (lax_str status);
  latency_ms ← valid (lax_int latency_ms);
  result_text ← valid (lax_str result_text);
  failure_reason ← valid (lax_str failure_reason);
  wave ← valid (lax_int wave);
  model_id ← valid (lax_str model_id);
  base_url ← valid (lax_str base_url);
  Ok {| od_subtask_id := subtask_id; od_endpoint_id := endpoint_id; od_status := status; od_latency_ms := latency_ms;
        od_result_text := result_text; od_failure_reason := failure_reason; od_wave := wave; od_model_id := model_id;
        od_base_url := base_url |}.
Definition _parse_fanout_event (event : Obj) : result (list ModelSubtaskDispatch) :=
  raw ← py_iter (default (JArr []) (dict_get "dispatches" event)); map_result parse_dispatch raw.
End parsing.

(** ** Transitions: the next state and what to publish *)

Definition PendingPublish : Type := string * Obj.
Definition Step : Type := ModelOrchestratorState * list PendingPublish.

Definition _assert_state (state : ModelOrchestratorState) (expected : EnumSwarmOrchestratorState) : result unit :=
  if decide (os_fsm_state state = expected) then Ok ()
  else Raise (InvalidFSMTransitionError
                ("Expected FSM state " +:+ fsm_repr expected +:+ ", got " +:+ fsm_repr (os_fsm_state state))).

Record ModelSwarmDispatchRequest := {
  dreq_task : string; dreq_endpoint_ids : list string; dreq_max_subtasks : Z; dreq_decompose : bool;
  dreq_correlation_id : string; dreq_run_id : string
}.
Definition initial_state (request : ModelSwarmDispatchRequest) : ModelOrchestratorState :=
  {| os_fsm_state := RECEIVED; os_run_id := dreq_run_id request; os_correlation_id := dreq_correlation_id request;
     os_original_task := dreq_task request; os_endpoint_health := []; os_subtasks := []; os_assignments := [];
     os_dispatches := []; os_aggregated_output := JStr EmptyString; os_error := EmptyString; os_total_latency_ms := 0;
     os_dispatch_wall_latency_ms := 0; os_max_subtasks := dreq_max_subtasks request |}.

Definition transition_received (state : ModelOrchestratorState) (request : ModelSwarmDispatchRequest) : result Step :=
  _ ← _assert_state state RECEIVED;
  Ok (state, [(_topic_health_cmd, [
    ("endpoint_ids", JArr (map JStr (dreq_endpoint_ids request))); ("correlation_id", JStr (dreq_correlation_id request));
    ("run_id", JStr (dreq_run_id request))])]).

(** The fixed default of [ModelSwarmConfig]. *)
Definition default_config : json := JObj [
  ("max_parallel_subtasks", JInt 4); ("max_subtasks_per_endpoint", JInt 2); ("per_endpoint_timeout_seconds", JInt 120);
  ("total_run_timeout_seconds", JInt 600); ("retry_policy_max_retries", JInt 1); ("fallback_policy_enabled", JBool true)].

Section transitions.
Context `{P : Pydantic}.

Definition transition_health_checked (state : ModelOrchestratorState) (health_event : Obj)
    (planner_output planner_model_id : string) : result Step :=
  _ ← _assert_state state RECEIVED;
  endpoint_health ← _parse_health_event health_event;
  let state := state <| os_fsm_state := HEALTH_CHECKED |> <| os_endpoint_health := endpoint_health |> in
  let effective_planner_output := py_or (py_or planner_output (os_original_task state)) "passthrough" in
  let effective_planner_model_id :=
    if negb (String.eqb planner_model_id "unknown") then planner_model_id else "passthrough" in
  Ok (state, [(_topic_decompose_cmd, [
    ("planner_output", JStr effective_planner_output); ("planner_model_id", JStr effective_planner_model_id);
    ("planner_output_hash", JStr (sha256_hex effective_planner_output));
    ("endpoint_ids", JArr (map JStr (dict_keys endpoint_health))); ("original_task", JStr (os_original_task state));
    ("correlation_id", JStr (os_correlation_id state)); ("run_id", JStr (os_run_id state)); ("decompose", JBool true);
    ("max_subtasks", JInt (os_max_subtasks state))])]).

Definition transition_decomposed (state : ModelOrchestratorState) (decompose_event : Obj) : result Step :=
  _ ← _assert_state state HEALTH_CHECKED;
  subtasks ← _parse_decompose_event decompose_event;
  let state := state <| os_fsm_state := DECOMPOSED |> <| os_subtasks := subtasks |> in
  Ok (state, [(_topic_select_cmd, [
    ("subtasks", JArr (map subtask_json subtasks)); ("endpoint_health", health_dict_json (os_endpoint_health state));
    ("correlation_id", JStr (os_correlation_id state)); ("run_id", JStr (os_run_id state))])]).

Definition transition_endpoints_selected (state : ModelOrchestratorState) (select_event : Obj) : result Step :=
  _ ← _assert_state state DECOMPOSED;
  assignments ← _parse_select_event select_event;
  let state := state <| os_fsm_state := ENDPOINTS_SELECTED |> <| os_assignments := assignments |> in
  Ok (state, [(_topic_fanout_cmd, [
    ("subtasks", JArr (map subtask_json (os_subtasks state))); ("assignments", assignments_json assignments);
    ("endpoint_health", health_dict_json (os_endpoint_health state)); ("config", default_config);
    ("correlation_id", JStr (os_correlation_id state)); ("run_id", JStr (os_run_id state))])]).

Definition transition_dispatching (state : ModelOrchestratorState) (fanout_event : Obj) (synthesis_output : option string)
  : result Step :=
  _ ← _assert_state state ENDPOINTS_SELECTED;
  dispatches ← _parse_fanout_event fanout_event;
  wall_latency_ms ← json_int (default (JInt 0) (dict_get "wall_latency_ms" fanout_event));
  let state := state <| os_fsm_state := DISPATCHING |> <| os_dispatches := dispatches |>
                     <| os_dispatch_wall_latency_ms := wall_latency_ms |> in
  Ok (state, [(_topic_aggregate_cmd, [
    ("subtasks", JArr (map subtask_json (os_subtasks state)));
    ("dispatches_json", JStr (json_str (JArr (map dispatch_json dispatches))));
    ("mode", JStr (if truthy synthesis_output then "synthesis" else "concatenation"));
    ("synthesis_output", from_option JStr JNull synthesis_output);
    ("correlation_id", JStr (os_correlation_id state)); ("run_id", JStr (os_run_id state))])]).

(** The length of the output is taken for a log line. *)
Definition transition_aggregating (state : ModelOrchestratorState) (aggregate_event : Obj) (total_latency_ms : Z)
  : result Step :=
  _ ← _assert_state state DISPATCHING;
  let aggregated_output := default (JStr EmptyString) (dict_get "aggregated_output" aggregate_event) in
  let state := state <| os_fsm_state := AGGREGATING |> <| os_aggregated_output := aggregated_output |>
                     <| os_total_latency_ms := total_latency_ms |> in
  _ ← json_len aggregated_output;
  Ok (state, []).
End transitions.

(** *** The terminal payload *)

Definition is_failed (d : ModelSubtaskDispatch) : bool := str_in (od_status d) _FAILED_STATUSES.
Definition is_succeeded (d : ModelSubtaskDispatch) : bool := String.eqb (od_status d) SUBTASK_SUCCEEDED.
Definition is_skipped (d : ModelSubtaskDispatch) : bool := String.eqb (od_status d) SUBTASK_SKIPPED.
Definition _determine_run_status (dispatches : list ModelSubtaskDispatch) : EnumSwarmRunStatus :=
  if negb (existsb is_failed dispatches) then RunSucceeded
  else if existsb is_succeeded dispatches then RunDegraded else RunFailed.
Definition models_used (dispatches : list ModelSubtaskDispatch) : list string :=
  sorted_set (List.filter truthy (map od_model_id dispatches)).
(** [round(x, k)] of a true division of integers, the divisor positive. *)
Definition speedup_ratio (sum_subtask_ms wall_ms : Z) : float :=
  if (wall_ms >? 0)%Z && (sum_subtask_ms >? wall_ms)%Z then py_round (rat sum_subtask_ms (Z.to_pos wall_ms)) 4 else fone.
Definition _build_completed_payload (state : ModelOrchestratorState) : Obj :=
  let ds := os_dispatches state in
  let wall_ms := os_dispatch_wall_latency_ms state in
  let sum_subtask_ms := foldr Z.add 0%Z (map od_latency_ms ds) in
  let cloud := py_round (fmul (float_of_Z sum_subtask_ms) (lit "1.044e-7")) 6 in
  let float_json f := JFloat (float_repr f) in
  [("run_id", JStr (os_run_id state)); ("correlation_id", JStr (os_correlation_id state));
   ("status", JStr (run_status_value (_determine_run_status ds))); ("aggregated_output", os_aggregated_output state);
   ("subtask_count", JInt (Z.of_nat (length ds))); ("succeeded_count", JInt (Z.of_nat (count is_succeeded ds)));
   ("failed_count", JInt (Z.of_nat (count is_failed ds))); ("skipped_count", JInt (Z.of_nat (count is_skipped ds)));
   ("total_latency_ms", JInt (os_total_latency_ms state)); ("models_used", JArr (map JStr (models_used ds)));
   ("dispatch_wall_latency_ms", JInt wall_ms); ("total_cost_usd", float_json fzero);
   ("cloud_equivalent_cost_usd", float_json cloud); ("savings_usd", float_json (py_round (fsub cloud fzero) 6));
   ("parallelism_speedup_ratio", float_json (speedup_ratio sum_subtask_ms wall_ms))].

Definition transition_completed (state : ModelOrchestratorState) : result Step :=
  _ ← _assert_state state AGGREGATING;
  let state := state <| os_fsm_state := COMPLETED |> in
  Ok (state, [(_topic_completed, _build_completed_payload state)]).
Definition transition_failed (state : ModelOrchestratorState) (error : string) (request : option ModelSwarmDispatchRequest)
  : Step :=
  let state := state <| os_fsm_state := FAILED |> <| os_error := error |> in
  (state, [(_topic_failed, [
    ("run_id", JStr (os_run_id state)); ("correlation_id", JStr (os_correlation_id state));
    ("status", JStr (run_status_value RunFailed)); ("fsm_state", JStr (fsm_value (os_fsm_state state)));
    ("error", JStr (os_error state));
    ("task", JStr (match request with Some r => dreq_task r | None => os_original_task state end))])]).

(** *** The result of the synchronous entry *)

Record ModelSwarmDispatchResult := {
  dres_run_id : string; dres_correlation_id : string; dres_status : EnumSwarmRunStatus; dres_aggregated_output : json;
  dres_subtask_count : Z; dres_succeeded_count : Z; dres_failed_count : Z; dres_skipped_count : Z;
  dres_total_latency_ms : Z; dres_models_used : list string; dres_error : string
}.
Definition _build_result (state : ModelOrchestratorState) : ModelSwarmDispatchResult :=
  if decide (os_fsm_state state = FAILED) then
    {| dres_run_id := os_run_id state; dres_correlation_id := os_correlation_id state; dres_status := RunFailed;
       dres_aggregated_output := JStr EmptyString; dres_subtask_count := 0; dres_succeeded_count := 0;
       dres_failed_count := 0; dres_skipped_count := 0; dres_total_latency_ms := 0; dres_models_used := [];
       dres_error := os_error state |}
  else
    let ds := os_dispatches state in
    {| dres_run_id := os_run_id state; dres_correlation_id := os_correlation_id state;
       dres_status := _determine_run_status ds; dres_aggregated_output := os_aggregated_output state;
       dres_subtask_count := Z.of_nat (length ds); dres_succeeded_count := Z.of_nat (count is_succeeded ds);
       dres_failed_count := Z.of_nat (count is_failed ds); dres_skipped_count := Z.of_nat (count is_skipped ds);
       dres_total_latency_ms := os_total_latency_ms state; dres_models_used := models_used ds;
       dres_error := EmptyString |}.
(** [handle] without an event bus. *)
Definition handle_standalone (request : ModelSwarmDispatchRequest) : ModelSwarmDispatchResult :=
  match transition_received (initial_state request) request with
  | Ok (state, _) => _build_result state
  | Raise exc =>
      _build_result (initial_state request <| os_fsm_state := FAILED |> <| os_error := exn_str exc |>)
  end.

(** ** Reading a stored state back: [ModelOrchestratorState.model_validate] *)

Section validate.
Context `{P : Pydantic}.

Definition lax_dict {A} (f : json -> option A) (j : json) : option (list (string * A)) :=
  match j with JObj o => mapM (fun kv => (fun a => (kv.1, a)) <$> f kv.2) o | _ => None end.
(** A model as the type of a field. *)
Definition as_field {A} (f : Obj -> result A) (j : json) : option A :=
  match j with JObj kw => match f kw with Ok a => Some a | Raise _ => None end | _ => None end.

Definition health_of (kw : Obj) : result ModelEndpointHealth :=
  let model := "ModelEndpointHealth" in
  endpoint_id ← field_req model lax_str "endpoint_id" kw;
  status ← field_req model lax_str "status" kw;
  latency_ms ← field_or model (nullable lax_int) "latency_ms" None kw;
  error ← field_or model (nullable lax_str) "error" None kw;
  _ ← no_extra model ["endpoint_id"; "status"; "latency_ms"; "error"] kw;
  Ok {| oh_endpoint_id := endpoint_id; oh_status := status; oh_latency_ms := latency_ms; oh_error := error |}.
Definition subtask_of (kw : Obj) : result ModelSubtask :=
  let model := "ModelSubtask" in
  subtask_id ← field_req model lax_str "subtask_id" kw;
  description ← field_req model lax_str "description" kw;
  model_affinity ← field_or model lax_str "model_affinity" EmptyString kw;
  depends_on ← field_or model (lax_list lax_str) "depends_on" [] kw;
  estimated_tokens ← field_or model lax_int "estimated_tokens" 0%Z kw;
  category ← field_or model lax_str "category" "general" kw;
  _ ← no_extra model ["subtask_id"; "description"; "model_affinity"; "depends_on"; "estimated_tokens"; "category"] kw;
  Ok {| ot_subtask_id := subtask_id; ot_description := description; ot_model_affinity := model_affinity;
        ot_depends_on := depends_on; ot_estimated_tokens := estimated_tokens; ot_category := category |}.
Definition dispatch_of (kw : Obj) : result ModelSubtaskDispatch :=
  let model := "ModelSubtaskDispatch" in
  subtask_id ← field_req model lax_str "subtask_id" kw;
  endpoint_id ← field_req model lax_str "endpoint_id" kw;
  status ← field_req model lax_str "status" kw;
  latency_ms ← field_or model lax_int "latency_ms" 0%Z kw;
  result_text ← field_or model lax_str "result_text" EmptyString kw;
  failure_reason ← field_or model lax_str "failure_reason" EmptyString kw;
  wave ← field_or model lax_int "wave" 0%Z kw;
  model_id ← field_or model lax_str "model_id" EmptyString kw;
  base_url ← field_or model lax_str "base_url" EmptyString kw;
  _ ← no_extra model ["subtask_id"; "endpoint_id"; "status"; "latency_ms"; "result_text"; "failure_reason"; "wave";
                      "model_id"; "base_url"] kw;
  Ok {| od_subtask_id := subtask_id; od_endpoint_id := endpoint_id; od_status := status; od_latency_ms := latency_ms;
        od_result_text := result_text; od_failure_reason := failure_reason; od_wave := wave; od_model_id := model_id;
        od_base_url := base_url |}.
Definition fsm_field (j : json) : option EnumSwarmOrchestratorState :=
  match j with JStr s => fsm_of s | _ => None end.
Definition state_of (kw : Obj) : result ModelOrchestratorState :=
  let model := "ModelOrchestratorState" in
  fsm_state ← field_or model fsm_field "fsm_state" RECEIVED kw;
  run_id ← field_or model lax_str "run_id" EmptyString kw;
  correlation_id ← field_or model lax_str "correlation_id" EmptyString kw;
  original_task ← field_or model lax_str "original_task" EmptyString kw;
  endpoint_health ← field_or model (lax_dict (as_field health_of)) "endpoint_health" [] kw;
  subtasks ← field_or model (lax_list (as_field subtask_of)) "subtasks" [] kw;
  assignments ← field_or model (lax_dict lax_str) "assignments" [] kw;
  dispatches ← field_or model (lax_list (as_field dispatch_of)) "dispatches" [] kw;
  aggregated_output ← field_or model lax_str "aggregated_output" EmptyString kw;
  error ← field_or model lax_str "error" EmptyString kw;
  total_latency_ms ← field_or model lax_int "total_latency_ms" 0%Z kw;
  dispatch_wall_latency_ms ← field_or model lax_int "dispatch_wall_latency_ms" 0%Z kw;
  max_subtasks ← field_or model lax_int "max_subtasks" 6%Z kw;
  _ ← no_extra model ["fsm_state"; "run_id"; "correlation_id"; "original_task"; "endpoint_health"; "subtasks";
                      "assignments"; "dispatches"; "aggregated_output"; "error"; "total_latency_ms";
                      "dispatch_wall_latency_ms"; "max_subtasks"] kw;
  Ok {| os_fsm_state := fsm_state; os_run_id := run_id; os_correlation_id := correlation_id;
        os_original_task := original_task; os_endpoint_health := endpoint_health; os_subtasks := subtasks;
        os_assignments := assignments; os_dispatches := dispatches; os_aggregated_output := JStr aggregated_output;
        os_error := error; os_total_latency_ms := total_latency_ms;
        os_dispatch_wall_latency_ms := dispatch_wall_latency_ms; os_max_subtasks := max_subtasks |}.
End validate.

(** ** The handler *)

(** What is asked of the outside: the store and the bus. *)
Inductive DispatchIo : Type :=
  | StatePut (run_id : string) (data : Obj)
  | StateGet (run_id : json)
  | BusPublish (topic : string) (envelope : json).

(** What the runtime hands to the handler: the parsed command, an envelope with
    its event type and payload, the materialized dict, anything else. *)
Inductive DispatchInput : Type :=
  | StartCommand (request : ModelSwarmDispatchRequest)
  | EventEnvelope (event_type : option string) (payload : Obj)
  | Materialized (request : Obj)
  | Unexpected.

Section handler.
Context `{P : Pydantic}.
(** Without a state store [has_store] is false; without a bus, [has_bus]. *)
Context (has_store has_bus : bool).
Context (w_put : list DispatchIo -> string -> Obj -> result unit).
Context (w_get : list DispatchIo -> json -> result (option Obj)).
Context (w_publish : list DispatchIo -> string -> json -> result unit).
Context (w_uuid : list DispatchIo -> string) (w_now : list DispatchIo -> datetime).

(** The class-level dict of the runs. *)
Definition Runs : Type := gmap string ModelOrchestratorState.
Abbreviation Act := (M Runs DispatchIo).

Definition _persist_state (state : ModelOrchestratorState) : Act unit :=
  _ ← modify (fun runs => <[os_run_id state := state]> runs);
  when has_store (call (StatePut (os_run_id state) (state_json state))
                    (fun l => w_put l (os_run_id state) (state_json state))).
(** [_in_process_state.get(run_id)]: the keys are strings; a list or dict is no key. *)
Definition runs_get (run_id : json) (runs : Runs) : result (option ModelOrchestratorState) :=
  match run_id with
  | JStr s => Ok (runs !! s)
  | JArr _ | JObj _ => Raise (TypeError ("unhashable type: '" +:+ json_type run_id +:+ "'"))
  | _ => Ok None
  end.
Definition _load_state (run_id : json) : Act (option ModelOrchestratorState) :=
  runs ← get_state;
  in_proc ← lift (runs_get run_id runs);
  match in_proc with
  | Some state => mret (Some state)
  | None =>
      if negb has_store then mret None
      else
        raw_envelope ← call (StateGet run_id) (fun l => w_get l run_id);
        match raw_envelope with
        | None => mret None
        | Some data => state ← lift (state_of data); mret (Some state)
        end
  end.

(** The envelope of a published payload. *)
Definition envelope_of (topic : string) (payload : Obj) (uuid : string) (now : datetime) : json :=
  JObj [("payload", JObj payload);
        ("correlation_id", or_else (JStr uuid) (dict_get "correlation_id" payload));
        ("event_type", JStr (default topic (topic_alias topic)));
        ("source_node", JStr "node_swarm_dispatch_orchestrator"); ("envelope_timestamp", JStr (isoformat now));
        ("schema_version", JStr "1.0.0")].
Definition flush_one (p : PendingPublish) : Act unit :=
  when (truthy p.1)
    (uuid ← ask w_uuid; now ← ask w_now;
     let envelope := envelope_of p.1 p.2 uuid now in
     call (BusPublish p.1 envelope) (fun l => w_publish l p.1 envelope)).
Definition _flush (publishes : list PendingPublish) : Act unit := when has_bus (for_each publishes flush_one).

Definition _handle_async_initial (request : ModelSwarmDispatchRequest) : Act unit :=
  let state := initial_state request in
  r ← attempt (step ← lift (transition_received state request);
               _ ← _persist_state step.1;
               _flush step.2);
  match r with
  | Ok _ => mret ()
  | Raise exc => _flush (transition_failed state (exn_str exc) (Some request)).2
  end.

(** The transition a routing key stands for. *)
Definition transition (key : string) (state : ModelOrchestratorState) (payload : Obj) : result Step :=
  if String.eqb key "health_checked" then transition_health_checked state payload EmptyString "unknown"
  else if String.eqb key "decomposed" then transition_decomposed state payload
  else if String.eqb key "endpoints_selected" then transition_endpoints_selected state payload
  else if String.eqb key "dispatching" then transition_dispatching state payload None
  else if String.eqb key "aggregating" then
    (step ← transition_aggregating state payload 0; transition_completed step.1)
  else Raise (ValueError ("Unhandled routing_key: " +:+ py_repr key)).
Definition route_event (topic : string) (payload : Obj) : Act ModelOrchestratorState :=
  let run_id := default (JStr EmptyString) (dict_get "run_id" payload) in
  if negb (truthy run_id) then raise (ValueError "route_event payload missing run_id")
  else
    let key := default EmptyString (dict_get topic _topic_routing) in
    if negb (truthy key) then raise (ValueError ("No FSM routing for topic: " +:+ py_repr topic))
    else
      state ← _load_state run_id;
      match state with
      | None =>
          raise (MissingRunStateError ("No FSM state for run_id=" +:+ json_repr run_id +:+ " on topic=" +:+ py_repr topic))
      | Some state =>
          step ← lift (transition key state payload);
          _ ← _persist_state step.1;
          _ ← _flush step.2;
          mret step.1
      end.
Definition route_event_by_type (event_type : string) (payload : Obj) : Act (option ModelOrchestratorState) :=
  let key := default EmptyString (dict_get event_type _event_type_routing) in
  if negb (truthy key) then mret None
  else
    let topic := default event_type (fst <$> List.find (fun tk => String.eqb tk.2 key) _topic_routing) in
    state ← route_event topic payload; mret (Some state).

Definition obj_or_empty (j : json) : Obj := match j with JObj o => o | _ => [] end.
Definition handle_async (request : DispatchInput) : Act unit :=
  match request with
  | StartCommand r => _handle_async_initial r
  | EventEnvelope event_type payload =>
      _ ← route_event_by_type (py_opt_or event_type EmptyString) payload; mret ()
  | Materialized o =>
      let debug_trace := or_else (JObj []) (dict_get "__debug_trace" o) in
      let event_type := match debug_trace with
                        | JObj t => json_str (or_else (JStr EmptyString) (dict_get "event_type" t))
                        | _ => EmptyString
                        end in
      let payload := obj_or_empty (or_else (JObj []) (dict_get "payload" o)) in
      if truthy event_type then (_ ← route_event_by_type event_type payload; mret ()) else mret ()
  | Unexpected => mret ()
  end.

(** The runtime: one input after the other, whatever became of the last one. *)
Definition serve (inputs : list DispatchInput) : Act unit :=
  for_each inputs (fun i => _ ← attempt (handle_async i); mret ()).
End handler.
