(* ===== verification/SwarmProps.v ===== *)
(** * Swarm dispatch: the runs

    The subtask reducer is one machine per subtask, the orchestrator publishes
    along a fixed schedule, its stored states read back, and what a run reports
    when the other nodes' events are what they publish. *)
From S2P Require Import Prelude PyFloat PyJson PyHash PyDyn LogMonad SwarmPlan SwarmFanout SwarmState SwarmDispatch.

(** ** Subtask states *)

Module SubtaskLaws.
Import Subtasks.

(** What one event of a subtask makes of its state. *)
Definition sub_step (existing : option ModelSubtaskState) (event : ModelDelegationEvent) : option ModelSubtaskState :=
  match _EVENT_TO_STATE (de_event_type event) with
  | None => existing
  | Some target => if ignored event existing target then existing else Some (_build_subtask_state event existing target)
  end.
Definition subtask_in (s : option ModelSwarmRunState) (k : string) : option ModelSubtaskState :=
  match s with Some r => dict_get k (sr_subtasks r) | None => None end.

Lemma delta_subtask event s k :
  dict_get k (sr_subtasks (so_new_state (delta event s)))
  = if String.eqb (de_subtask_id event) k then sub_step (subtask_in s k) event else subtask_in s k.
Proof.
  assert (forall k, dict_get k (sr_subtasks (default (_empty_run_state (de_run_id event)) s)) = subtask_in s k) as Hs by by destruct s.
  unfold delta, sub_step. destruct (_EVENT_TO_STATE _) as [target|]; [|simpl; rewrite Hs; by destruct (String.eqb _ _)].
  rewrite Hs. destruct (String.eqb_spec (de_subtask_id event) k) as [<-|Hne].
  - destruct (ignored _ _ _); simpl; [by rewrite Hs|]. by rewrite dict_get_set, String.eqb_refl.
  - destruct (ignored _ _ _); simpl; [by rewrite Hs|]. rewrite dict_get_set, Hs. by apply String.eqb_neq in Hne as ->.
Qed.
Lemma fold_subtask events s k :
  subtask_in (fold_events s events) k
  = foldl sub_step (subtask_in s k) (filter (fun e => de_subtask_id e = k) events).
Proof.
  unfold fold_events. revert s. induction events as [|e events IH]; intros s; simpl; [done|].
  rewrite IH. simpl. rewrite delta_subtask, filter_cons.
  destruct (String.eqb_spec (de_subtask_id e) k) as [Hk|Hk]; case_decide; done.
Qed.

(** Events that leave a terminal subtask as it is. *)
Definition settled (x : ModelSubtaskState) (event : ModelDelegationEvent) : Prop :=
  de_event_type event <> DELEGATION_EXECUTE /\ de_event_type event <> DELEGATION_ESCALATION_TRIGGERED
  \/ de_event_id event = ss_terminal_event_id x.
Lemma settled_step x event : is_terminal (ss_state x) = true -> settled x event -> sub_step (Some x) event = Some x.
Proof.
  intros Hx Hs. unfold sub_step, ignored. rewrite Hx. simpl. destruct Hs as [[H1 H2]| ->].
  - destruct (de_event_type event); try done; simpl; by rewrite orb_true_r.
  - rewrite String.eqb_refl. simpl. by destruct (_EVENT_TO_STATE _).
Qed.
Lemma unsettled_step x event :
  is_terminal (ss_state x) = true -> ~ settled x event ->
  exists y, sub_step (Some x) event = Some y /\ is_terminal (ss_state y) = false.
Proof.
  intros Hx Hs. unfold sub_step, ignored. rewrite Hx.
  destruct (String.eqb_spec (ss_terminal_event_id x) (de_event_id event)) as [E|_]; [destruct Hs; by right|].
  destruct (de_event_type event) eqn:E; simpl; try (by eexists); destruct Hs; left; by rewrite E.
Qed.
Lemma settled_fold x events :
  is_terminal (ss_state x) = true -> Forall (settled x) events -> foldl sub_step (Some x) events = Some x.
Proof. intros Hx. induction 1 as [|e events He _ IH]; simpl; [done|]. by rewrite settled_step. Qed.

(** The record of a run: distinct keys, counted. *)
Definition counted (r : ModelSwarmRunState) : Prop :=
  NoDup (dict_keys (sr_subtasks r)) /\ (Z.of_nat (length (sr_subtasks r)) <= sr_total_count r)%Z.
Lemma delta_counted event s :
  (forall r, s = Some r -> counted r) -> counted (so_new_state (delta event s)).
Proof.
  intros Hs. assert (counted (default (_empty_run_state (de_run_id event)) s)) as [Hnd Hle].
  { destruct s as [r|]; [by apply Hs|]. split; [constructor|done]. }
  unfold delta. destruct (_EVENT_TO_STATE _); [|by split]. destruct (ignored _ _ _); [by split|].
  split; simpl; [|lia]. rewrite dict_set_keys. unfold dict_has. destruct (dict_get _ _) eqn:E; [done|].
  apply dict_get_None in E. apply NoDup_app. split_and!; [done|set_solver|apply NoDup_singleton].
Qed.
Lemma fold_counted events s :
  (forall r, s = Some r -> counted r) -> forall r, fold_events s events = Some r -> counted r.
Proof.
  unfold fold_events. revert s. induction events as [|e events IH]; intros s Hs; simpl; [done|].
  apply IH. intros r [= <-]. by apply delta_counted.
Qed.
Lemma counts_partition r :
  completed_count r + failed_count r + pending_count r + blocked_count r = length (sr_subtasks r).
Proof.
  unfold completed_count, failed_count, pending_count, blocked_count.
  induction (sr_subtasks r) as [|[k x] l IH]; [done|]. rewrite !count_cons. simpl. destruct (ss_state x); simpl; lia.
Qed.
End SubtaskLaws.

(** ** Stored states *)

Section codec.
Context `{P : Pydantic, PL : !PydanticLaws}.

Lemma mapM_round {A} (f : json -> option A) (g : A -> json) l : (forall a, f (g a) = Some a) -> mapM f (map g l) = Some l.
Proof. intros H. induction l as [|a l IH]; simpl; [done|]. by rewrite H, IH. Qed.
Lemma lax_list_round {A} (f : json -> option A) (g : A -> json) l :
  (forall a, f (g a) = Some a) -> lax_list f (JArr (map g l)) = Some l.
Proof. apply mapM_round. Qed.
Lemma lax_dict_round {A} (f : json -> option A) (g : A -> json) l :
  (forall a, f (g a) = Some a) -> lax_dict f (JObj (map (fun kv => (kv.1, g kv.2)) l)) = Some l.
Proof. intros H. simpl. induction l as [|[k a] l IH]; simpl; [done|]. by rewrite H, IH. Qed.
Lemma nullable_round {A} (f : json -> option A) (g : A -> json) o :
  (forall a, f (g a) = Some a) -> f JNull = None -> (forall a, g a <> JNull) -> nullable f (from_option g JNull o) = Some o.
Proof. intros H _ Hn. destruct o as [a|]; simpl; [|done]. unfold nullable. rewrite H. by destruct (g a) eqn:E; [destruct (Hn a)|..]. Qed.
Lemma fsm_round s : fsm_of (fsm_value s) = Some s.
Proof. by destruct s. Qed.

Lemma health_round h : as_field health_of (health_json h) = Some h.
Proof.
  destruct h as [i s l e]. unfold as_field, health_of, health_json, field_req, field_or. simpl.
  rewrite !lax_str_str. simpl. rewrite (nullable_round lax_int JInt) by (try done; apply lax_int_int || apply lax_int_null).
  simpl. by destruct e as [e|]; simpl; rewrite ?lax_str_str.
Qed.
Lemma subtask_round t : as_field subtask_of (subtask_json t) = Some t.
Proof.
  destruct t. unfold as_field, subtask_of, subtask_json, field_req, field_or. simpl.
  rewrite !lax_str_str. simpl. rewrite mapM_round by apply lax_str_str. simpl. by rewrite lax_int_int.
Qed.
Lemma dispatch_round d : as_field dispatch_of (dispatch_json d) = Some d.
Proof.
  destruct d. unfold as_field, dispatch_of, dispatch_json, field_req, field_or. simpl.
  rewrite !lax_str_str. simpl. by rewrite !lax_int_int.
Qed.
Lemma state_round s output : os_aggregated_output s = JStr output -> state_of (state_json s) = Ok s.
Proof.
  intros Ho. destruct s. simpl in Ho. subst. unfold state_of, state_json, field_or. cbn -[lax_list lax_dict no_extra fsm_field].
  unfold fsm_field at 1. rewrite fsm_round. cbn -[lax_list lax_dict no_extra].
  rewrite !lax_str_str. cbn -[lax_list lax_dict no_extra].
  unfold health_dict_json. rewrite (lax_dict_round _ health_json) by apply health_round. cbn -[lax_list lax_dict no_extra].
  rewrite (lax_list_round _ subtask_json) by apply subtask_round. cbn -[lax_list lax_dict no_extra].
  unfold assignments_json. rewrite (lax_dict_round _ JStr) by apply lax_str_str. cbn -[lax_list lax_dict no_extra].
  rewrite (lax_list_round _ dispatch_json) by apply dispatch_round. cbn -[lax_list lax_dict no_extra].
  rewrite !lax_int_int. reflexivity.
Qed.

(** C20. A run's state put into the state store reads back as it was, whatever
    state it is in, when its output is a string. *)
Theorem stored_state_reads_back s (Hs : exists output, os_aggregated_output s = JStr output) :
  state_of (state_json s) = Ok s.
Proof. destruct Hs as [output Hs]. by apply (state_round s output). Qed.
End codec.

(** ** The orchestrator's schedule *)

(** The command a state waits to publish, and the state after it. *)
Definition next (p : EnumSwarmOrchestratorState) : option (string * EnumSwarmOrchestratorState) :=
  match p with
  | RECEIVED => Some (_topic_decompose_cmd, HEALTH_CHECKED)
  | HEALTH_CHECKED => Some (_topic_select_cmd, DECOMPOSED)
  | DECOMPOSED => Some (_topic_fanout_cmd, ENDPOINTS_SELECTED)
  | ENDPOINTS_SELECTED => Some (_topic_aggregate_cmd, DISPATCHING)
  | DISPATCHING => Some (_topic_completed, COMPLETED)
  | AGGREGATING | COMPLETED | FAILED => None
  end.
(** What a run in a state has left to publish. *)
Definition remaining (p : EnumSwarmOrchestratorState) : list string :=
  match p with
  | RECEIVED => [_topic_decompose_cmd; _topic_select_cmd; _topic_fanout_cmd; _topic_aggregate_cmd; _topic_completed]
  | HEALTH_CHECKED => [_topic_select_cmd; _topic_fanout_cmd; _topic_aggregate_cmd; _topic_completed]
  | DECOMPOSED => [_topic_fanout_cmd; _topic_aggregate_cmd; _topic_completed]
  | ENDPOINTS_SELECTED => [_topic_aggregate_cmd; _topic_completed]
  | DISPATCHING => [_topic_completed]
  | AGGREGATING | COMPLETED | FAILED => []
  end.
Lemma next_remaining p t q : next p = Some (t, q) -> remaining p = t :: remaining q.
Proof. by destruct p; intros [= <- <-]. Qed.
Lemma remaining_all p : sublist (remaining p) (remaining RECEIVED).
Proof.
  assert (forall (t : string) l k, sublist l k -> sublist l (t :: k)) as Hskip by (intros; by apply sublist_cons).
  destruct p; repeat first [reflexivity | apply sublist_nil_l | apply Hskip].
Qed.

(** The topics published for the run [k]. *)
Definition published_for (k : string) (e : DispatchIo) : option string :=
  match e with
  | BusPublish topic (JObj envelope) =>
      match dict_get "payload" envelope with
      | Some (JObj payload) =>
          match dict_get "run_id" payload with
          | Some (JStr run_id) => if String.eqb run_id k then Some topic else None
          | _ => None
          end
      | _ => None
      end
  | _ => None
  end.
Definition topics_of (k : string) (log : list DispatchIo) : list string := omap (published_for k) log.
Lemma topics_of_app k l l' : topics_of k (l ++ l') = topics_of k l ++ topics_of k l'.
Proof. apply omap_app. Qed.

Section transitions.
Context `{P : Pydantic}.

Lemma assert_state_Ok st p u : _assert_state st p = Ok u -> os_fsm_state st = p.
Proof. unfold _assert_state. by case_decide. Qed.
(** The shape of a transition that went through. *)
Definition advanced (st st' : ModelOrchestratorState) (pubs : list PendingPublish) : Prop :=
  os_run_id st' = os_run_id st /\ exists t message, next (os_fsm_state st) = Some (t, os_fsm_state st')
    /\ pubs = [(t, message)] /\ dict_get "run_id" message = Some (JStr (os_run_id st)).
Ltac advanced_by H1 E :=
  injection E as <- <-; split; [reflexivity|]; rewrite H1; do 2 eexists; split_and!; reflexivity.

(** Every transition publishes one message of its run: the next of the schedule. *)
Lemma transition_next key st payload st' pubs :
  transition key st payload = Ok (st', pubs) -> advanced st st' pubs.
Proof.
  unfold transition. repeat (destruct (String.eqb key _)); [..|done].
  - intros (u & H1%assert_state_Ok & (h & _ & E)%result_bind_Ok)%result_bind_Ok. advanced_by H1 E.
  - intros (u & H1%assert_state_Ok & (h & _ & E)%result_bind_Ok)%result_bind_Ok. advanced_by H1 E.
  - intros (u & H1%assert_state_Ok & (h & _ & E)%result_bind_Ok)%result_bind_Ok. advanced_by H1 E.
  - intros (u & H1%assert_state_Ok & (h & _ & (w & _ & E)%result_bind_Ok)%result_bind_Ok)%result_bind_Ok. advanced_by H1 E.
  - intros ([st1 pubs1] & (u & H1%assert_state_Ok & (n & _ & E1)%result_bind_Ok)%result_bind_Ok & E)%result_bind_Ok.
    injection E1 as <- _. simpl in E. unfold transition_completed in E. simpl in E. advanced_by H1 E.
Qed.
End transitions.

Section schedule.
Context `{P : Pydantic} (has_store has_bus : bool).
Context (w_put : list DispatchIo -> string -> Obj -> result unit).
Context (w_get : list DispatchIo -> json -> result (option Obj)).
Context (w_publish : list DispatchIo -> string -> json -> result unit).
Context (w_uuid : list DispatchIo -> string) (w_now : list DispatchIo -> datetime).
(** The store returns a state under the id it was put under. *)
Context (store_keyed : forall l j data st, w_get l j = Ok (Some data) -> state_of data = Ok st -> j = JStr (os_run_id st)).

Abbreviation serve_ := (serve has_store has_bus w_put w_get w_publish w_uuid w_now).
Abbreviation handle_ := (handle_async has_store has_bus w_put w_get w_publish w_uuid w_now).

Definition keyed (runs : Runs) : Prop := forall k st, runs !! k = Some st -> os_run_id st = k.
Definition left_of (o : option ModelOrchestratorState) : list string :=
  match o with Some st => remaining (os_fsm_state st) | None => if has_store then remaining RECEIVED else [] end.

(** From [s] to [s']: the log grew, and for a run of [K] what was published and
    what is left is within what was left. *)
Definition onward (K : string -> Prop) (s s' : Runs * list DispatchIo) : Prop :=
  exists l, s'.2 = s.2 ++ l /\ (keyed s.1 -> keyed s'.1)
    /\ forall k, K k -> keyed s.1 -> sublist (topics_of k l ++ left_of (s'.1 !! k)) (left_of (s.1 !! k)).
Lemma onward_refl K s : onward K s s.
Proof. exists []. rewrite app_nil_r. by split_and!. Qed.
Lemma onward_trans K s s' s'' : onward K s s' -> onward K s' s'' -> onward K s s''.
Proof.
  intros (l & E & Hk & H) (l' & E' & Hk' & H'). exists (l ++ l'). split_and!; [by rewrite E', E, app_assoc|auto|].
  intros k HK Hs. rewrite topics_of_app, <- app_assoc. etrans; [|by apply H]. apply sublist_app; [done|]. auto.
Qed.
Lemma onward_weaken (K K' : string -> Prop) s s' : onward K s s' -> (forall k, K' k -> K k) -> onward K' s s'.
Proof. intros (l & E & Hk & H) HK. exists l. split_and!; auto. Qed.
(** Only entries that publish nothing. *)
Lemma onward_quiet K s s' l :
  s' = (s.1, s.2 ++ l) -> (forall k, topics_of k l = []) -> onward K s s'.
Proof. intros -> Hl. exists l. split_and!; [done|done|]. intros k _ _. by rewrite Hl. Qed.

(** Publishing one message of a run, and persisting its state before that. *)
Lemma flush_run k t message s :
  dict_get "run_id" message = Some (JStr k) ->
  exists l, (_flush has_bus w_publish w_uuid w_now [(t, message)] s).1 = (s.1, s.2 ++ l)
    /\ forall k', topics_of k' l = [] \/ (k' = k /\ topics_of k' l = [t]).
Proof.
  intros Hm. unfold _flush. destruct s as [runs log].
  destruct has_bus; simpl; [|exists []; rewrite app_nil_r; split; [done|intros; by left]].
  unfold flush_one. simpl. destruct (truthy t); simpl; [|exists []; rewrite app_nil_r; split; [done|intros; by left]]. mrun.
  exists [BusPublish t (envelope_of t message (w_uuid log) (w_now log))]. split.
  - unfold mbind, M_bind, call. simpl. by destruct (w_publish _ _ _).
  - intros k'. unfold topics_of. simpl. rewrite Hm. destruct (String.eqb_spec k k') as [<-|]; auto.
Qed.
Lemma persist_flush_run st t message s :
  dict_get "run_id" message = Some (JStr (os_run_id st)) ->
  exists l, ((_ ← _persist_state has_store w_put st; _flush has_bus w_publish w_uuid w_now [(t, message)]) s).1
            = (<[os_run_id st := st]> s.1, s.2 ++ l)
    /\ forall k, topics_of k l = [] \/ (k = os_run_id st /\ topics_of k l = [t]).
Proof.
  intros Hm. unfold _persist_state. mrun. destruct has_store; simpl; mrun.
  - destruct (w_put _ _ _); mrun.
    + destruct (flush_run (os_run_id st) t message (<[os_run_id st := st]> s.1, s.2 ++ [StatePut (os_run_id st) (state_json st)]) Hm)
        as (l & -> & Hl). simpl.
      exists (StatePut (os_run_id st) (state_json st) :: l). rewrite <- app_assoc. split; [done|]. intros k. apply (Hl k).
    + exists [StatePut (os_run_id st) (state_json st)]. split; [done|]. intros k. by left.
  - destruct (flush_run (os_run_id st) t message (<[os_run_id st := st]> s.1, s.2) Hm) as (l & -> & Hl). by exists l.
Qed.

(** Reading a state back touches nothing; from the store only when the process
    does not know the run. *)
Lemma load_run run_id s :
  exists l r, _load_state has_store w_get run_id s = ((s.1, s.2 ++ l), r) /\ (forall k, topics_of k l = [])
    /\ forall st, r = Ok (Some st) -> keyed s.1 ->
         s.1 !! os_run_id st = Some st \/ (s.1 !! os_run_id st = None /\ has_store = true).
Proof.
  assert (forall (r : result (option ModelOrchestratorState)),
    (forall st, r = Ok (Some st) -> keyed s.1 -> s.1 !! os_run_id st = Some st) ->
    exists l r', (s, r) = ((s.1, s.2 ++ l), r') /\ (forall k, topics_of k l = [])
      /\ forall st, r' = Ok (Some st) -> keyed s.1 ->
           s.1 !! os_run_id st = Some st \/ (s.1 !! os_run_id st = None /\ has_store = true)) as Hnone.
  { intros r Hr. exists [], r. rewrite app_nil_r. destruct s. split_and!; auto. }
  unfold _load_state. mrun. destruct (runs_get run_id s.1) as [[st|]|x] eqn:E; mrun.
  - apply Hnone. intros st' [= <-] Hk. destruct run_id as [| | | |k| |]; try done. injection E as E. by rewrite (Hk _ _ E).
  - destruct has_store; simpl; [|by apply Hnone]. mrun. exists [StateGet run_id].
    destruct (w_get s.2 run_id) as [[data|]|x] eqn:G; mrun; [|by eexists..].
    destruct (state_of data) as [st|x] eqn:D; mrun; [|by eexists]. eexists. split_and!; [done|done|].
    intros st' [= <-] _. right. rewrite (store_keyed _ _ _ _ G D) in E. by injection E as ->.
  - by apply Hnone.
Qed.

Lemma put_same k st (runs : Runs) : <[k := st]> runs !! k = Some st.
Proof. apply lookup_insert_eq. Qed.
Lemma put_other k k' st (runs : Runs) : k <> k' -> <[k := st]> runs !! k' = runs !! k'.
Proof. apply lookup_insert_ne. Qed.
(** A state persisted and one message of its run published. *)
Lemma step_onward (K : string -> Prop) st' t message s l0 :
  dict_get "run_id" message = Some (JStr (os_run_id st')) -> (forall k, topics_of k l0 = []) ->
  (forall k, K k -> keyed s.1 -> k = os_run_id st' ->
     sublist (t :: remaining (os_fsm_state st')) (left_of (s.1 !! k))) ->
  onward K s ((_ ← _persist_state has_store w_put st'; _flush has_bus w_publish w_uuid w_now [(t, message)]) (s.1, s.2 ++ l0)).1.
Proof.
  intros Hm H0 Hleft. destruct (persist_flush_run st' t message (s.1, s.2 ++ l0) Hm) as (l & -> & Hl).
  exists (l0 ++ l). simpl. rewrite app_assoc. split_and!; [done|..].
  - intros Hk k st. destruct (decide (os_run_id st' = k)) as [<-|Hne]; [rewrite put_same; by intros [= ->]|].
    rewrite put_other by done. apply Hk.
  - intros k HK Hs. rewrite topics_of_app, H0. simpl. destruct (decide (os_run_id st' = k)) as [<-|Hne].
    + rewrite put_same. simpl. etrans; [|by apply Hleft].
      destruct (Hl (os_run_id st')) as [->|[_ ->]]; simpl; [by apply sublist_cons|done].
    + rewrite put_other by done. by destruct (Hl k) as [->|[-> _]].
Qed.

Lemma route_onward K topic payload s :
  onward K s (route_event has_store has_bus w_put w_get w_publish w_uuid w_now topic payload s).1.
Proof.
  unfold route_event. destruct (negb _); [apply onward_refl|]. destruct (negb _); [apply onward_refl|]. mrun.
  destruct (load_run (default (JStr "") (dict_get "run_id" payload)) s) as (l & r & -> & Hl & Hst). mrun.
  destruct r as [[st|]|x]; mrun; [|by apply (onward_quiet K s _ l)..].
  destruct (transition _ st payload) as [[st' pubs]|x] eqn:T; mrun; [|by apply (onward_quiet K s _ l)].
  destruct (transition_next _ _ _ _ _ T) as (Hid & t & message & Hn & -> & Hm). rewrite <- Hid in Hm.
  assert (onward K s ((_ ← _persist_state has_store w_put st'; _flush has_bus w_publish w_uuid w_now [(t, message)]) (s.1, s.2 ++ l)).1) as Hstep.
  { apply step_onward; [done|done|]. intros k _ Hk ->. rewrite <- (next_remaining _ _ _ Hn), Hid.
    destruct (Hst _ eq_refl Hk) as [->|[-> Hs]]; simpl; [done|]. rewrite Hs. apply remaining_all. }
  revert Hstep. mrun. destruct (_persist_state _ _ _ _) as [s1 [u|x]]; mrun; [|done].
  by destruct (_flush _ _ _ _ _ s1) as [s2 [u'|x]]; mrun.
Qed.
Lemma by_type_onward K event_type payload s :
  onward K s (route_event_by_type has_store has_bus w_put w_get w_publish w_uuid w_now event_type payload s).1.
Proof.
  unfold route_event_by_type. destruct (negb _); [apply onward_refl|]. mrun.
  pose proof (route_onward K (default event_type (fst <$> List.find (fun tk => String.eqb tk.2 (default "" (dict_get event_type _event_type_routing))) _topic_routing)) payload s) as H.
  revert H. destruct (route_event _ _ _ _ _ _ _ _ _ s) as [s1 [u|x]]; by mrun.
Qed.

(** A command: its state replaces whatever the run had, and the health check is
    asked for; when that raises, the failure is published. *)
Lemma start_run r s :
  exists l, (_handle_async_initial has_store has_bus w_put w_publish w_uuid w_now r s).1
            = (<[dreq_run_id r := initial_state r]> s.1, s.2 ++ l)
    /\ sublist (topics_of (dreq_run_id r) l) [_topic_health_cmd; _topic_failed]
    /\ forall k, k <> dreq_run_id r -> topics_of k l = [].
Proof.
  assert (exists m, transition_received (initial_state r) r = Ok (initial_state r, [(_topic_health_cmd, m)])
    /\ dict_get "run_id" m = Some (JStr (os_run_id (initial_state r)))) as (m & E & Hm) by by eexists.
  unfold _handle_async_initial. rewrite run_bind, run_attempt, run_bind, run_lift, E. cbn [fst snd].
  destruct (persist_flush_run (initial_state r) _topic_health_cmd m s Hm) as (l & Ep & Hl).
  match type of Ep with ?x.1 = _ =>
    match goal with |- context [match ?y.2 with Ok _ => _ | Raise _ => _ end] => change y with x; destruct x as [s1 [u|x']] end
  end; cbn [fst snd] in Ep |- *; subst s1.
  - exists l. split_and!; [done|..].
    + destruct (Hl (dreq_run_id r)) as [->|[_ ->]]; [apply sublist_nil_l|by apply sublist_skip, sublist_nil_l].
    + intros k Hne. by destruct (Hl k) as [->|[-> _]].
  - assert (exists m', (transition_failed (initial_state r) (exn_str x') (Some r)).2 = [(_topic_failed, m')]
      /\ dict_get "run_id" m' = Some (JStr (dreq_run_id r))) as (m' & -> & Hm') by by eexists.
    match goal with |- context [_flush _ _ _ _ _ ?s2] => destruct (flush_run _ _topic_failed m' s2 Hm') as (l' & Ef & Hl') end.
    exists (l ++ l'). rewrite app_assoc. split_and!; [exact Ef|..].
    + rewrite topics_of_app. change [_topic_health_cmd; _topic_failed] with ([_topic_health_cmd] ++ [_topic_failed]).
      apply sublist_app; [destruct (Hl (dreq_run_id r)) as [->|[_ ->]]|destruct (Hl' (dreq_run_id r)) as [->|[_ ->]]];
        done || apply sublist_nil_l.
    + intros k Hne. rewrite topics_of_app. destruct (Hl k) as [->|[Hc _]]; [|by destruct (Hne Hc)].
      by destruct (Hl' k) as [->|[Hc _]]; [|destruct (Hne Hc)].
Qed.

(** The command of a run. *)
Definition starts (k : string) (i : DispatchInput) : Prop :=
  match i with StartCommand r => dreq_run_id r = k | _ => False end.
Lemma input_onward i s : onward (fun k => ~ starts k i) s (handle_ i s).1.
Proof.
  destruct i as [r|event_type payload|o|]; simpl.
  - destruct (start_run r s) as (l & -> & _ & Hl). exists l. simpl. split_and!; [done|..].
    + intros Hk k st. destruct (decide (dreq_run_id r = k)) as [<-|Hne]; [rewrite put_same; by intros [= <-]|].
      rewrite put_other by done. apply Hk.
    + intros k Hne _. simpl. rewrite Hl, put_other by congruence. done.
  - mrun. pose proof (by_type_onward (fun k => ~ False) (py_opt_or event_type "") payload s) as H. revert H.
    by destruct (route_event_by_type _ _ _ _ _ _ _ _ _ s) as [s1 [u|x]]; mrun.
  - destruct (truthy _); [|apply onward_refl]. mrun.
    match goal with |- context [route_event_by_type _ _ _ _ _ _ _ ?e ?p s] =>
      pose proof (by_type_onward (fun k => ~ False) e p s) as H end. revert H.
    by destruct (route_event_by_type _ _ _ _ _ _ _ _ _ s) as [s1 [u|x]]; mrun.
  - apply onward_refl.
Qed.
Lemma serve_onward inputs s : onward (fun k => Forall (fun i => ~ starts k i) inputs) s (serve_ inputs s).1.
Proof.
  unfold serve. revert s. induction inputs as [|i inputs IH]; intros s; [apply onward_refl|].
  simpl. mrun. pose proof (input_onward i s) as Hi. revert Hi. destruct (handle_ i s) as [s1 o]. mrun. intros Hi.
  eapply onward_trans; [eapply onward_weaken; [exact Hi|]|eapply onward_weaken; [apply IH|]]; by intros k [??]%Forall_cons.
Qed.

(** C16. Whatever happens after a run's command, short of a second one under the
    same id, the messages published for the run are, in this order and each at
    most once, the health check (and the failure of asking for it) and the five
    messages of the schedule; and what its state has left to publish is what
    follows them.  Events that come twice, late, out of order or before their
    turn, those of other runs, and failures of store and bus change none of it. *)
Theorem run_follows_schedule r inputs runs log (Hk : keyed runs)
    (Honce : Forall (fun i => ~ starts (dreq_run_id r) i) inputs) :
  exists l s', (serve_ (StartCommand r :: inputs) (runs, log)).1 = (s', log ++ l)
    /\ sublist (topics_of (dreq_run_id r) l ++ left_of (s' !! dreq_run_id r))
         ([_topic_health_cmd; _topic_failed] ++ remaining RECEIVED).
Proof.
  unfold serve. simpl. mrun. destruct (start_run r (runs, log)) as (l & E & Hl & _).
  destruct (_handle_async_initial _ _ _ _ _ _ _ _) as [s1 o]. simpl in E. subst s1. mrun.
  destruct (serve_onward inputs (<[dreq_run_id r := initial_state r]> runs, log ++ l)) as (l' & El & _ & Hon).
  unfold serve in El, Hon. destruct (for_each _ _ _) as [[s' log'] o']. simpl in *. subst log'.
  exists (l ++ l'), s'. rewrite app_assoc. split; [done|]. rewrite topics_of_app, <- app_assoc.
  change (sublist (topics_of (dreq_run_id r) l ++ (topics_of (dreq_run_id r) l' ++ left_of (s' !! dreq_run_id r)))
            ([_topic_health_cmd; _topic_failed] ++ remaining RECEIVED)).
  apply sublist_app; [done|].
  specialize (Hon _ Honce). rewrite put_same in Hon. apply Hon.
  intros k st. destruct (decide (dreq_run_id r = k)) as [<-|Hne]; [rewrite put_same; by intros [= <-]|].
  rewrite put_other by done. apply Hk.
Qed.
End schedule.

(** ** What a run reports *)

(** The events of a run, one transition each, and all that is published. *)
Fixpoint run_events `{P : Pydantic} (st : ModelOrchestratorState) (events : list (string * Obj)) : result Step :=
  match events with
  | [] => Ok (st, [])
  | (key, event) :: events' =>
      '(st1, pubs1) ← transition key st event; '(st2, pubs2) ← run_events st1 events'; Ok (st2, pubs1 ++ pubs2)
  end.

Section report.
Context `{P : Pydantic, PL : !PydanticLaws}.

Lemma parse_decompose_result dr : _parse_decompose_event (Decomposer.decompose_result_json dr) = Ok [].
Proof. reflexivity. Qed.

(** A dispatch of the fan-out as the orchestrator records it: under another name
    for its status and its text, it has failed and said nothing. *)
Definition recorded (d : ModelSwarmDispatch) : ModelSubtaskDispatch :=
  {| od_subtask_id := fd_subtask_id d; od_endpoint_id := fd_endpoint_id d; od_status := "failed";
     od_latency_ms := fd_latency_ms d; od_result_text := EmptyString; od_failure_reason := fd_failure_reason d;
     od_wave := fd_wave d; od_model_id := fd_model_id d; od_base_url := fd_base_url d |}.
Lemma parse_recorded d : parse_dispatch (SwarmFanout.dispatch_json d) = Ok (recorded d).
Proof. unfold parse_dispatch. simpl. by rewrite !lax_str_str, !lax_int_int. Qed.
Lemma parse_fanout_result fr : _parse_fanout_event (fanout_result_json fr) = Ok (map recorded (fr_dispatches fr)).
Proof.
  unfold _parse_fanout_event. simpl. induction (fr_dispatches fr) as [|d l IH]; [done|].
  cbn [map map_result]. by rewrite parse_recorded, IH.
Qed.
Lemma recorded_failed l : _determine_run_status (map recorded l) = if truthy l then RunFailed else RunSucceeded.
Proof.
  destruct l as [|d l]; [done|]. unfold _determine_run_status. simpl.
  assert (existsb is_succeeded (map recorded l) = false) as -> by by induction l. done.
Qed.
Lemma count_recorded_none l : count is_succeeded (map recorded l) = 0.
Proof. by induction l. Qed.
Lemma count_recorded_all l : count is_failed (map recorded l) = length l.
Proof. induction l as [|d l IH]; [done|]. cbn [map]. rewrite count_cons, IH. done. Qed.

(** The five transitions on what the other nodes publish. *)
Lemma health_step st event eh :
  os_fsm_state st = RECEIVED -> _parse_health_event event = Ok eh ->
  exists m, transition "health_checked" st event
    = Ok (st <| os_fsm_state := HEALTH_CHECKED |> <| os_endpoint_health := eh |>, [(_topic_decompose_cmd, m)]).
Proof.
  intros Hst He. change (transition "health_checked" st event) with (transition_health_checked st event EmptyString "unknown").
  unfold transition_health_checked, _assert_state. rewrite Hst, He. by eexists.
Qed.
Lemma decompose_step st dr :
  os_fsm_state st = HEALTH_CHECKED ->
  exists m, transition "decomposed" st (Decomposer.decompose_result_json dr)
    = Ok (st <| os_fsm_state := DECOMPOSED |> <| os_subtasks := [] |>, [(_topic_select_cmd, m)]).
Proof.
  intros Hst. change (transition "decomposed" st) with (transition_decomposed st).
  unfold transition_decomposed, _assert_state. rewrite Hst. by eexists.
Qed.
Lemma select_step st event asg :
  os_fsm_state st = DECOMPOSED -> _parse_select_event event = Ok asg ->
  exists m, transition "endpoints_selected" st event
    = Ok (st <| os_fsm_state := ENDPOINTS_SELECTED |> <| os_assignments := asg |>, [(_topic_fanout_cmd, m)]).
Proof.
  intros Hst He. change (transition "endpoints_selected" st) with (transition_endpoints_selected st).
  unfold transition_endpoints_selected, _assert_state. rewrite Hst, He. by eexists.
Qed.
Lemma fanout_step st fr :
  os_fsm_state st = ENDPOINTS_SELECTED ->
  exists m, transition "dispatching" st (fanout_result_json fr)
    = Ok (st <| os_fsm_state := DISPATCHING |> <| os_dispatches := map recorded (fr_dispatches fr) |>
             <| os_dispatch_wall_latency_ms := fr_wall_latency_ms fr |>, [(_topic_aggregate_cmd, m)]).
Proof.
  intros Hst. change (transition "dispatching" st (fanout_result_json fr)) with (transition_dispatching st (fanout_result_json fr) None).
  unfold transition_dispatching, _assert_state. rewrite Hst, parse_fanout_result. by eexists.
Qed.
Lemma aggregate_step st ar :
  os_fsm_state st = DISPATCHING ->
  let st' := st <| os_fsm_state := COMPLETED |> <| os_aggregated_output := JStr (Aggregator.gr_aggregated_output ar) |>
                <| os_total_latency_ms := 0%Z |> in
  transition "aggregating" st (Aggregator.aggregate_result_json ar) = Ok (st', [(_topic_completed, _build_completed_payload st')]).
Proof.
  intros Hst. change (transition "aggregating" st (Aggregator.aggregate_result_json ar))
    with (step ← transition_aggregating st (Aggregator.aggregate_result_json ar) 0; transition_completed step.1).
  unfold transition_aggregating, _assert_state. rewrite Hst. reflexivity.
Qed.
Lemma run_of_events st health dr sel fr ar eh asg :
  os_fsm_state st = RECEIVED -> _parse_health_event health = Ok eh -> _parse_select_event sel = Ok asg ->
  exists st' pubs, run_events st
      [("health_checked", health); ("decomposed", Decomposer.decompose_result_json dr); ("endpoints_selected", sel);
       ("dispatching", fanout_result_json fr); ("aggregating", Aggregator.aggregate_result_json ar)]
      = Ok (st', pubs ++ [(_topic_completed, _build_completed_payload st')])
    /\ map fst pubs = [_topic_decompose_cmd; _topic_select_cmd; _topic_fanout_cmd; _topic_aggregate_cmd]
    /\ os_fsm_state st' = COMPLETED /\ os_subtasks st' = [] /\ os_dispatches st' = map recorded (fr_dispatches fr)
    /\ os_aggregated_output st' = JStr (Aggregator.gr_aggregated_output ar).
Proof.
  intros Hst Hh Hs. cbn [run_events]. destruct (health_step _ _ _ Hst Hh) as (m1 & ->).
  set (st1 := st <| os_fsm_state := HEALTH_CHECKED |> <| os_endpoint_health := eh |>).
  destruct (decompose_step st1 dr eq_refl) as (m2 & E2). set (st2 := st1 <| os_fsm_state := DECOMPOSED |> <| os_subtasks := [] |>) in E2.
  destruct (select_step st2 _ _ eq_refl Hs) as (m3 & E3). set (st3 := st2 <| os_fsm_state := _ |> <| os_assignments := _ |>) in E3.
  destruct (fanout_step st3 fr eq_refl) as (m4 & E4). set (st4 := st3 <| os_fsm_state := _ |> <| os_dispatches := _ |> <| os_dispatch_wall_latency_ms := _ |>) in E4.
  pose proof (aggregate_step st4 ar eq_refl) as E5. cbv zeta in E5. set (st5 := st4 <| os_fsm_state := _ |> <| os_aggregated_output := _ |> <| os_total_latency_ms := _ |>) in E5.
  exists st5, [(_topic_decompose_cmd, m1); (_topic_select_cmd, m2); (_topic_fanout_cmd, m3); (_topic_aggregate_cmd, m4)].
  cbn [mbind result_bind]. rewrite E2. cbn [mbind result_bind]. rewrite E3. cbn [mbind result_bind]. rewrite E4.
  cbn [mbind result_bind]. rewrite E5. by split_and!.
Qed.

(** The text of a list of dicts, as Python prints it, is not JSON. *)
Lemma loads_printed rest : exists x, json_loads ("[{'" +:+ rest) = Raise x.
Proof. unfold json_loads. simpl. by eexists. Qed.
Lemma printed_dispatches ds :
  json_str (JArr (map dispatch_json ds)) = "[]" \/ exists rest, json_str (JArr (map dispatch_json ds)) = "[{'" +:+ rest.
Proof.
  destruct ds as [|d ds]; [by left|]. right. simpl. change (py_repr "subtask_id") with "'subtask_id'".
  destruct (map json_repr (map dispatch_json ds)); eexists; reflexivity.
Qed.
Lemma aggregate_printed rq ds :
  Aggregator.gq_dispatches rq = [] -> Aggregator.gq_dispatches_json rq = json_str (JArr (map dispatch_json ds)) ->
  Aggregator._resolve_dispatches rq = [].
Proof.
  intros H0 H1. unfold Aggregator._resolve_dispatches. rewrite H0, H1. simpl truthy at 1. cbv iota.
  destruct (printed_dispatches ds) as [->|(rest & ->)]; [done|]. destruct (loads_printed rest) as [x ->]. by destruct (truthy _).
Qed.

(** C17. When the events of a run are what decomposer, fan-out and aggregator
    publish, the run goes through to its completion and publishes its five
    messages, but what it reports is independent of what the subtasks did: it
    records no subtask, takes every dispatch for failed without a result, and
    reports success exactly when nothing was dispatched. *)
Theorem report_ignores_outcomes st health dr sel fr ar eh asg
    (Hst : os_fsm_state st = RECEIVED) (Hh : _parse_health_event health = Ok eh)
    (Hs : _parse_select_event sel = Ok asg) :
  exists st' pubs payload, run_events st
      [("health_checked", health); ("decomposed", Decomposer.decompose_result_json dr); ("endpoints_selected", sel);
       ("dispatching", fanout_result_json fr); ("aggregating", Aggregator.aggregate_result_json ar)]
      = Ok (st', pubs ++ [(_topic_completed, payload)])
    /\ map fst pubs ++ [_topic_completed] = remaining RECEIVED
    /\ os_fsm_state st' = COMPLETED /\ os_subtasks st' = []
    /\ dict_get "status" payload = Some (JStr (if truthy (fr_dispatches fr) then "failed" else "succeeded"))
    /\ dict_get "subtask_count" payload = Some (JInt (Z.of_nat (length (fr_dispatches fr))))
    /\ dict_get "succeeded_count" payload = Some (JInt 0)
    /\ dict_get "failed_count" payload = Some (JInt (Z.of_nat (length (fr_dispatches fr))))
    /\ dict_get "aggregated_output" payload = Some (JStr (Aggregator.gr_aggregated_output ar)).
Proof.
  destruct (run_of_events st health dr sel fr ar eh asg Hst Hh Hs) as (st' & pubs & E & Ht & Hf & Hsub & Hd & Ho).
  exists st', pubs, (_build_completed_payload st'). split; [done|]. rewrite Ht. split_and!; try done.
  all: unfold _build_completed_payload; rewrite ?Hd, ?Ho; simpl.
  - by rewrite recorded_failed; destruct (truthy _).
  - by rewrite length_map.
  - by rewrite count_recorded_none.
  - by rewrite count_recorded_all.
  - done.
Qed.

(** The aggregator gets the dispatches as the text Python prints for a list
    of dicts, which is not JSON unless the list is empty: in its mode of
    concatenation its output is empty and it knows of no failed and no skipped
    subtask, whatever the dispatches. *)
Theorem aggregate_command_is_unreadable rq ds (Hmode : Aggregator.gq_mode rq = "concatenation")
    (H0 : Aggregator.gq_dispatches rq = [])
    (Hjson : Aggregator.gq_dispatches_json rq = json_str (JArr (map dispatch_json ds))) :
  Aggregator.run rq = {| Aggregator.gr_aggregated_output := EmptyString; Aggregator.gr_aggregation_mode := "concatenation";
    Aggregator.gr_failed_subtasks := []; Aggregator.gr_skipped_subtasks := []; Aggregator.gr_degraded_reason := EmptyString;
    Aggregator.gr_synthesis_input_hash := EmptyString; Aggregator.gr_synthesis_model_id := EmptyString;
    Aggregator.gr_run_id := Aggregator.gq_run_id rq |}.
Proof.
  unfold Aggregator.run. rewrite Hmode. simpl. unfold Aggregator._concatenation, Aggregator.sorted_dispatches.
  by rewrite (aggregate_printed rq ds H0 Hjson).
Qed.
End report.

Definition witness_decomposed : Decomposer.ModelSwarmDecomposeResult :=
  let d := {| Decomposer.dc_original_task := "t"; Decomposer.dc_original_task_hash := "h";
              Decomposer.dc_subtasks :=
                [{| Decomposer.ds_subtask_id := "s1"; Decomposer.ds_description := "write";
                    Decomposer.ds_model_affinity := "coder"; Decomposer.ds_depends_on := [];
                    Decomposer.ds_estimated_tokens := 10; Decomposer.ds_token_estimation_method := "w"; Decomposer.ds_category := Decomposer.GENERAL |}];
              Decomposer.dc_decomposition_model := "m"; Decomposer.dc_decomposition_endpoint_id := "e";
              Decomposer.dc_decomposition_latency_ms := 1; Decomposer.dc_decomposition_status := Decomposer.SUCCEEDED;
              Decomposer.dc_decomposition_run_id := "r"; Decomposer.dc_correlation_id := "c"; Decomposer.dc_warnings := [] |} in
  {| Decomposer.dr_decomposition := d; Decomposer.dr_status := Decomposer.SUCCEEDED; Decomposer.dr_warnings := [];
     Decomposer.dr_run_id := "r" |}.
(** A fan-out all of whose calls succeeded. *)
Definition witness_fanout : ModelSwarmFanoutResult :=
  {| fr_dispatches :=
       [{| fd_subtask_id := "s1"; fd_endpoint_id := "e"; fd_model_id := "m"; fd_base_url := "u"; fd_endpoint_status := "";
           fd_execution_status := SUCCEEDED; fd_response_text := "done"; fd_failure_class := ""; fd_failure_reason := "";
           fd_retry_count := 0; fd_fallback_endpoint_id := ""; fd_started_at := ""; fd_completed_at := "";
           fd_latency_ms := 5; fd_wave := 0 |}];
     fr_wall_latency_ms := 5; fr_sum_subtask_latency_ms := 5; fr_run_id := "r"; fr_completed_count := 1;
     fr_failed_count := 0; fr_degraded := false; fr_aggregation_mode := "collect_all"; fr_endpoint_registry_hash := "";
     fr_routing_policy_hash := ""; fr_projection_ref := "" |}.
Definition witness_aggregated : Aggregator.ModelSwarmAggregateResult :=
  {| Aggregator.gr_aggregated_output := ""; Aggregator.gr_aggregation_mode := "concatenation";
     Aggregator.gr_failed_subtasks := []; Aggregator.gr_skipped_subtasks := []; Aggregator.gr_degraded_reason := "";
     Aggregator.gr_synthesis_input_hash := ""; Aggregator.gr_synthesis_model_id := ""; Aggregator.gr_run_id := "r" |}.
Definition witness_request : ModelSwarmDispatchRequest :=
  {| dreq_task := "t"; dreq_endpoint_ids := ["e"]; dreq_max_subtasks := 6; dreq_decompose := true;
     dreq_correlation_id := "c"; dreq_run_id := "r" |}.
Definition witness_events : list (string * Obj) :=
  [("health_checked", [("endpoint_health", JObj [("e", JObj [("endpoint_status", JStr "reachable")])])]);
   ("decomposed", Decomposer.decompose_result_json witness_decomposed);
   ("endpoints_selected", [("assignments", JObj [("s1", JStr "e")])]);
   ("dispatching", fanout_result_json witness_fanout);
   ("aggregating", Aggregator.aggregate_result_json witness_aggregated)].

Lemma report_ignores_outcomes_witness :
  exists st' pubs payload, run_events (P := exact_fields) (initial_state witness_request) witness_events
      = Ok (st', pubs ++ [(_topic_completed, payload)])
    /\ dict_get "status" payload = Some (JStr "failed") /\ dict_get "succeeded_count" payload = Some (JInt 0).
Proof.
  destruct (report_ignores_outcomes (P := exact_fields) (PL := exact_fields_laws) (initial_state witness_request)
    [("endpoint_health", JObj [("e", JObj [("endpoint_status", JStr "reachable")])])] witness_decomposed
    [("assignments", JObj [("s1", JStr "e")])] witness_fanout witness_aggregated
    [("e", {| oh_endpoint_id := "e"; oh_status := "reachable"; oh_latency_ms := None; oh_error := None |})] [("s1", "e")]
    eq_refl eq_refl eq_refl) as (st' & pubs & payload & E & _ & _ & _ & Hs & _ & Hc & _).
  by exists st', pubs, payload.
Defined.
Lemma aggregate_command_is_unreadable_witness :
  Aggregator.gr_aggregated_output (Aggregator.run (P := exact_fields)
    {| Aggregator.gq_decomposition := None; Aggregator.gq_dispatches := []; Aggregator.gq_subtasks := [];
       Aggregator.gq_dispatches_json := json_str (JArr (map dispatch_json (map recorded (fr_dispatches witness_fanout))));
       Aggregator.gq_mode := "concatenation"; Aggregator.gq_synthesis_output := None;
       Aggregator.gq_synthesis_model_id := None; Aggregator.gq_synthesis_input_hash := None;
       Aggregator.gq_correlation_id := "c"; Aggregator.gq_run_id := "r" |}) = "".
Proof.
  rewrite (aggregate_command_is_unreadable (P := exact_fields) _ (map recorded (fr_dispatches witness_fanout))); reflexivity.
Defined.

(** A run whose aggregation comes twice and before its turn, and whose store fails. *)
Definition witness_inputs : list DispatchInput :=
  let event (topic : string) (payload : Obj) := EventEnvelope (topic_alias topic) (("run_id", JStr "r") :: payload) in
  let aggregated := event "onex.evt.omnimarket.swarm-aggregation-completed.v1"
                      (Aggregator.aggregate_result_json witness_aggregated) in
  [aggregated; event "onex.evt.omnimarket.swarm-endpoint-health-completed.v1" []; Unexpected;
   event "onex.evt.omnimarket.swarm-decomposition-completed.v1" (Decomposer.decompose_result_json witness_decomposed);
   event "onex.evt.omnimarket.swarm-endpoints-selected.v1" [];
   event "onex.evt.omnimarket.swarm-fanout-completed.v1" (fanout_result_json witness_fanout); aggregated; aggregated].
Lemma run_follows_schedule_witness :
  let log := (serve (P := exact_fields) false true (fun _ _ _ => Ok ()) (fun _ _ => Ok None) (fun _ _ _ => Ok ())
                (fun _ => "u") (fun _ => 0%Z) (StartCommand witness_request :: witness_inputs) (∅, [])).1.2 in
  exists l, log = [] ++ l /\ sublist (topics_of "r" l) ([_topic_health_cmd; _topic_failed] ++ remaining RECEIVED).
Proof.
  destruct (run_follows_schedule (P := exact_fields) false true (fun _ _ _ => Ok ()) (fun _ _ => Ok None) (fun _ _ _ => Ok ())
    (fun _ => "u") (fun _ => 0%Z) (fun _ _ _ _ E => match E with eq_refl => I end) witness_request witness_inputs ∅ []) as (l & s' & E & Hs).
  - intros k st [=].
  - repeat constructor; simpl; tauto.
  - exists l. rewrite E. split; [done|]. etrans; [|apply Hs]. by apply sublist_inserts_r.
Defined.
(** The same run publishes all it has to. *)
Example witness_run :
  topics_of "r" (serve (P := exact_fields) false true (fun _ _ _ => Ok ()) (fun _ _ => Ok None) (fun _ _ _ => Ok ())
                   (fun _ => "u") (fun _ => 0%Z) (StartCommand witness_request :: witness_inputs) (∅, [])).1.2
  = _topic_health_cmd :: remaining RECEIVED.
Proof. vm_compute. reflexivity. Qed.

(** ** Subtasks *)

Section subtasks.
Import Subtasks SubtaskLaws.

(** C18. The events of a run are folded subtask by subtask: what the record says
    of a subtask is what that subtask's own events make of it, in their order,
    however the events of the others are interleaved; and the record counts every
    subtask once, as completed, failed, pending or blocked. *)
Theorem subtasks_independent run_id events k :
  subtask_in (fold_events None events) k = foldl sub_step None (filter (fun e => de_subtask_id e = k) events)
  /\ let r := default (_empty_run_state run_id) (fold_events None events) in
     NoDup (dict_keys (sr_subtasks r)) /\ (Z.of_nat (length (sr_subtasks r)) <= sr_total_count r)%Z
     /\ completed_count r + failed_count r + pending_count r + blocked_count r = length (sr_subtasks r).
Proof.
  split; [apply fold_subtask|]. simpl. destruct (fold_events None events) as [r|] eqn:E; [|split_and!; [constructor|done..]].
  destruct (fold_counted events None ltac:(done) r E) as [Hnd Hle]. split_and!; [done|done|apply counts_partition].
Qed.

(** C19. A terminal subtask keeps its state, its latency and its failure, whatever
    follows in any order: duplicates of the event that ended it, other terminal
    events of its own, the end of the fan-out, and every event of the other subtasks;
    that is, all later events but an execution or an escalation of its own under
    another event id. *)
Theorem terminal_subtasks_settle s k x events
    (Hx : subtask_in s k = Some x) (Hterm : is_terminal (ss_state x) = true)
    (Hsettled : Forall (fun e => de_subtask_id e = k -> settled x e) events) :
  subtask_in (fold_events s events) k = Some x.
Proof.
  rewrite fold_subtask, Hx. apply settled_fold; [done|]. apply Forall_forall. intros e' [He Hin]%list_elem_of_filter.
  rewrite Forall_forall in Hsettled. auto.
Qed.
(** An execution or an escalation under another id opens it again. *)
Remark unsettled_reopens s k x e :
  subtask_in s k = Some x -> is_terminal (ss_state x) = true -> de_subtask_id e = k -> ~ settled x e ->
  exists y, subtask_in (fold_events s [e]) k = Some y /\ is_terminal (ss_state y) = false.
Proof. intros Hx Hterm <- He. simpl. rewrite delta_subtask, Hx, String.eqb_refl. by apply unsettled_step. Qed.

Definition witness_event (id : string) (t : EnumDelegationEventType) (subtask : string) : ModelDelegationEvent :=
  new_event id t "r" subtask "c" "e" "m" "2026-01-01" EmptyString 7 "topic".
Definition witness_delegation : list ModelDelegationEvent :=
  [witness_event "e1" DELEGATION_EXECUTE "a"; witness_event "e2" DELEGATION_EXECUTE "b";
   witness_event "e3" DELEGATION_CALL_COMPLETED "a"].
Lemma terminal_subtasks_settle_witness :
  let s := fold_events None witness_delegation in
  let late := [witness_event "e4" DELEGATION_ALL_TIERS_FAILED "a"; witness_event "e5" DELEGATION_EXECUTE "b";
               witness_event "e3" DELEGATION_EXECUTE "a"] in
  subtask_in (fold_events s late) "a" = subtask_in s "a".
Proof.
  cbv zeta. transitivity (Some (_build_subtask_state (witness_event "e3" DELEGATION_CALL_COMPLETED "a")
       (Some (_build_subtask_state (witness_event "e1" DELEGATION_EXECUTE "a") None ASSIGNED)) COMPLETED)); [|reflexivity].
  apply (terminal_subtasks_settle (fold_events None witness_delegation) "a"); [reflexivity|reflexivity|].
  apply Forall_cons; split; [intros _; left; split; discriminate|]. apply Forall_cons; split; [intros Hk; discriminate Hk|].
  apply Forall_cons; split; [intros _; right; reflexivity|constructor].
Defined.
End subtasks.

Lemma stored_state_reads_back_witness :
  let s := initial_state witness_request <| os_fsm_state := DISPATCHING |> <| os_assignments := [("s1", "e")] |>
             <| os_endpoint_health := [("e", {| oh_endpoint_id := "e"; oh_status := "reachable"; oh_latency_ms := Some 3%Z;
                                                 oh_error := None |})] |>
             <| os_dispatches := map recorded (fr_dispatches witness_fanout) |> in
  state_of (P := exact_fields) (state_json s) = Ok s.
Proof. cbv zeta. apply (stored_state_reads_back (P := exact_fields) (PL := exact_fields_laws)). by eexists. Defined.

(** ** Supervision *)

Section supervision.
Import Supervisor.
Context (w_now : list SupervisorIo -> datetime).
Context (w_file : list SupervisorIo -> json -> result unit) (w_mkdir : list SupervisorIo -> result unit).
Context (w_publish : list SupervisorIo -> string -> string -> json -> result unit).

Definition fresh (kw : string * ModelWorkerState) : Prop := exists wid, kw.2 = new_worker wid.
Lemma fresh_workers ids : Forall fresh (dict_index wk_worker_id (map new_worker ids)).
Proof.
  unfold dict_index. assert (forall acc, Forall fresh acc -> Forall fresh (foldl (fun m x => dict_set (wk_worker_id x) x m) acc (map new_worker ids))) as H.
  { induction ids as [|i ids IH]; intros acc Ha; simpl; [done|]. apply IH. clear IH. induction Ha as [|kw acc Hkw Ha IH]; simpl.
    - constructor; [by exists i|constructor].
    - destruct kw as [k w]. destruct (String.eqb _ _); constructor; try done. by exists i. }
  apply H. constructor.
Qed.
(** A worker of whom nothing is known passes every check. *)
Lemma supervise_fresh command t kw s :
  fresh kw -> supervise_one w_now w_file w_publish command t kw s = (s, Ok (t.1 ++ [kw], t.2)).
Proof. destruct kw as [k w], t as [ws [[a b] c]]. by intros [wid [= ->]]. Qed.
Lemma loop_fresh command workers t s :
  Forall fresh workers -> fold_each workers t (supervise_one w_now w_file w_publish command) s = (s, Ok (t.1 ++ workers, t.2)).
Proof.
  intros H. revert t. induction H as [|kw workers Hkw _ IH]; intros t; simpl; [by rewrite app_nil_r; destruct t|].
  rewrite run_bind, supervise_fresh by done. simpl. rewrite IH. simpl. by rewrite <- app_assoc.
Qed.

(** The supervisor supervises nobody: its workers are made from their ids
    alone, without heartbeat or context, and nothing in its one pass updates
    them, so it respawns none, publishes no dispatch command, and a run that gets
    as far as making its directory reports COMPLETE with all counts zero. *)
Theorem supervisor_detects_nothing command s :
  exists l s', handle w_now w_file w_mkdir w_publish command s = ((s.1, s.2 ++ l), s')
    /\ Forall (fun e => match e with
                        | MadeDir c => c = sc_correlation_id command
                        | Published t _ _ => t = _topic_completed
                        | WroteSummary _ => True
                        | WroteRespawn _ => False
                        end) l
    /\ forall r, s' = Ok r -> sv_overall_status r = COMPLETE /\ sv_respawns_issued r = 0%Z
         /\ sv_zombies_detected r = 0%Z /\ sv_false_completions_detected r = 0%Z.
Proof.
  unfold handle. rewrite run_bind, run_call. destruct (w_mkdir s.2) as [u|x]; [|eexists [_], _; split_and!; [done|by repeat constructor|done]].
  unfold _supervision_loop, logged, publish. mrun. rewrite loop_fresh by apply fresh_workers. mrun. cbn [truthy]. simpl when. mrun.
  set (res := {| sv_correlation_id := _ |}).
  exists [MadeDir (sc_correlation_id command); Published _topic_completed (sc_correlation_id command) (supervisor_result_json res);
          WroteSummary (supervisor_result_json res)], (Ok res).
  rewrite <- !app_assoc. split_and!; [done|by repeat constructor|]. by intros r [= <-].
Qed.
End supervision.
