(* ===== verification/EmitQueue.v ===== *)
(** * Emit daemon: the tiered queue

    [node_emit_daemon/event_queue.py] and [durable_outbox.py]: duty-critical events
    go to an append-only outbox, one file each, and stay there until their publish
    is confirmed; telemetry goes to a bounded memory queue and from there to a
    bounded spool on disk that drops its oldest file.  The two directories are part
    of the state; every file operation is logged and may fail, a failing write may
    leave anything behind.  What the model library makes of an event as JSON text,
    and of a text, are arguments. *)
From S2P Require Import Prelude PyJson PyHash LogMonad.

(** ** Events *)

Inductive EnumDurabilityTier : Type := DUTY_CRITICAL | TELEMETRY.
#[export] Instance EnumDurabilityTier_eq_dec : EqDecision EnumDurabilityTier.
Proof. solve_decision. Defined.
Definition tier_value (t : EnumDurabilityTier) : string :=
  match t with DUTY_CRITICAL => "duty_critical" | TELEMETRY => "telemetry" end.
Record ModelQueuedEvent := {
  qe_event_id : string; qe_event_type : string; qe_topic : string; qe_payload : json; qe_partition_key : option string;
  qe_queued_at : datetime; qe_tier : EnumDurabilityTier
}.
Definition DurableOutboxFullError (msg : string) : py_exn := OtherError "DurableOutboxFullError" msg.

(** Equality of values and of records. *)
Fixpoint json_eqb (a b : json) : bool :=
  match a, b with
  | JNull, JNull => true
  | JBool x, JBool y => Bool.eqb x y
  | JInt x, JInt y => Z.eqb x y
  | JFloat x, JFloat y | JStr x, JStr y => String.eqb x y
  | JArr l, JArr k =>
      (fix go l k := match l, k with
                     | [], [] => true
                     | x :: l', y :: k' => json_eqb x y && go l' k'
                     | _, _ => false
                     end) l k
  | JObj l, JObj k =>
      (fix go l k := match l, k with
                     | [], [] => true
                     | x :: l', y :: k' => String.eqb x.1 y.1 && json_eqb x.2 y.2 && go l' k'
                     | _, _ => false
                     end) l k
  | _, _ => false
  end.
Definition event_eqb (a b : ModelQueuedEvent) : bool :=
  String.eqb (qe_event_id a) (qe_event_id b) && String.eqb (qe_event_type a) (qe_event_type b)
  && String.eqb (qe_topic a) (qe_topic b) && json_eqb (qe_payload a) (qe_payload b)
  && bool_decide (qe_partition_key a = qe_partition_key b) && Z.eqb (qe_queued_at a) (qe_queued_at b)
  && bool_decide (qe_tier a = qe_tier b).
Record OutboxRecord := { ob_event : ModelQueuedEvent; ob_path : string; ob_size_bytes : Z }.
Definition record_eqb (a b : OutboxRecord) : bool :=
  event_eqb (ob_event a) (ob_event b) && String.eqb (ob_path a) (ob_path b) && Z.eqb (ob_size_bytes a) (ob_size_bytes b).
(** [deque.remove(record)]: without the first equal one, if there is one. *)
Fixpoint remove_record (r : OutboxRecord) (l : list OutboxRecord) : option (list OutboxRecord) :=
  match l with
  | [] => None
  | x :: l' => if record_eqb x r then Some l' else option_map (cons x) (remove_record r l')
  end.

(** ** The state: queues, and the files of the two directories *)

Record QueueConfig := {
  qc_max_memory_queue : Z; qc_max_spool_messages : Z; qc_max_spool_bytes : Z; qc_max_outbox_messages : Z;
  qc_max_outbox_bytes : Z
}.
Record QueueState := {
  q_memory_queue : list ModelQueuedEvent; q_spool_files : list string; q_spool_bytes : Z;
  q_pending : list OutboxRecord; q_pending_bytes : Z; q_in_flight : list (string * OutboxRecord);
  q_spool_disk : gmap string string; q_outbox_disk : gmap string string
}.
#[export] Instance eta_queue_state : Eta QueueState := fun q =>
  Build_QueueState (q_memory_queue q) (q_spool_files q) (q_spool_bytes q) (q_pending q) (q_pending_bytes q)
    (q_in_flight q) (q_spool_disk q) (q_outbox_disk q).
(** A process starting on the directories. *)
Definition fresh_queue (spool outbox : gmap string string) : QueueState :=
  {| q_memory_queue := []; q_spool_files := []; q_spool_bytes := 0; q_pending := []; q_pending_bytes := 0;
     q_in_flight := []; q_spool_disk := spool; q_outbox_disk := outbox |}.

Inductive Place : Type := Spool | Outbox.
Definition disk (p : Place) (q : QueueState) : gmap string string :=
  match p with Spool => q_spool_disk q | Outbox => q_outbox_disk q end.
Definition on_disk (p : Place) (f : gmap string string -> gmap string string) (q : QueueState) : QueueState :=
  match p with
  | Spool => q <| q_spool_disk := f (q_spool_disk q) |>
  | Outbox => q <| q_outbox_disk := f (q_outbox_disk q) |>
  end.

(** What the daemon asks of the outside: files, fresh uuids, the publish callable. *)
Inductive EmitIo : Type :=
  | MakeDir (p : Place)
  | ScanDir (p : Place)
  | WriteFile (p : Place) (name content : string)
  | ReadFile (p : Place) (name : string)
  | StatFile (p : Place) (name : string)
  | UnlinkFile (p : Place) (name : string)
  | RenameFile (name : string)
  | NewUuid
  | PublishCall (topic : string) (key : option string) (value : string) (headers : list (string * string)).

(** [t.strftime("%Y%m%d%H%M%S%f")] *)
Definition stamp (t : datetime) : string :=
  (let us := t mod 1000000 in
   let secs := t / 1000000 in
   let sod := secs mod 86400 in
   let '(y, m, d) := civil_from_days (secs / 86400) in
   zpad 4 y +:+ zpad 2 m +:+ zpad 2 d +:+ zpad 2 (sod / 3600) +:+ zpad 2 (sod / 60 mod 60) +:+ zpad 2 (sod mod 60)
   +:+ zpad 6 us)%Z.
Example stamp_epoch : stamp 1700000000123456 = "20231114221320123456".
Proof. vm_compute. reflexivity. Qed.
Definition file_name (t : datetime) (event_id : string) : string := stamp t +:+ "_" +:+ event_id +:+ ".json".
(** [len(s.encode("utf-8"))] *)
Definition byte_len (s : string) : Z := Z.of_nat (length (py_encode s)).

Section queue.
Context (config : QueueConfig).
(** Whether an operation succeeds, and what a failing write leaves of the file. *)
Context (w_os : list EmitIo -> EmitIo -> bool) (w_left : list EmitIo -> option string).
Context (w_now : list EmitIo -> datetime).
(** [model_dump_json] and [model_validate_json] *)
Context (dump_event : ModelQueuedEvent -> result string) (load_event : string -> result ModelQueuedEvent).
Abbreviation Act := (M QueueState EmitIo).

Definition OSError : py_exn := OtherError "OSError" "".
Definition FileNotFoundError : py_exn := OtherError "FileNotFoundError" "".
(** [try: m except OSError: log]; the file operations raise nothing else. *)
Definition quietly (m : Act unit) : Act unit := _ ← attempt m; mret ().
Definition os_call (e : EmitIo) : Act bool := call e (fun l => Ok (w_os l e)).
Definition make_dir (p : Place) : Act unit := ok ← os_call (MakeDir p); when (negb ok) (raise OSError).
Definition write_file (p : Place) (name content : string) : Act unit :=
  ok ← os_call (WriteFile p name content);
  if (ok : bool) then modify (on_disk p (fun d => <[name := content]> d))
  else
    left ← ask w_left;
    _ ← (match left with Some c => modify (on_disk p (fun d => <[name := c]> d)) | None => modify id end);
    raise OSError.
Definition read_file (p : Place) (name : string) : Act string :=
  ok ← os_call (ReadFile p name);
  if (ok : bool) then (q ← get_state; match disk p q !! name with Some c => mret c | None => raise FileNotFoundError end)
  else raise OSError.
Definition file_size (p : Place) (name : string) : Act Z :=
  ok ← os_call (StatFile p name);
  if (ok : bool) then (q ← get_state; match disk p q !! name with Some c => mret (byte_len c) | None => raise FileNotFoundError end)
  else raise OSError.
Definition unlink_file (p : Place) (name : string) : Act unit :=
  ok ← os_call (UnlinkFile p name);
  if (ok : bool) then
    (q ← get_state;
     match disk p q !! name with Some _ => modify (on_disk p (fun d => delete name d)) | None => raise FileNotFoundError end)
  else raise OSError.
(** [sorted(dir.glob("*.json"))] *)
Definition scan_dir (p : Place) : Act (list string) :=
  ok ← os_call (ScanDir p);
  if (ok : bool) then (q ← get_state; mret (List.filter (py_endswith ".json") (sorted_set (map fst (map_to_list (disk p q))))))
  else raise OSError.

(** *** The outbox *)

Definition outbox_full (q : QueueState) (event : ModelQueuedEvent) (event_bytes : Z) : option string :=
  if (event_bytes >? qc_max_outbox_bytes config)%Z then
    Some ("Event " +:+ qe_event_id event +:+ " (" +:+ pretty event_bytes +:+ " bytes) exceeds outbox capacity ("
          +:+ pretty (qc_max_outbox_bytes config) +:+ " bytes); cannot persist duty-critical event")
  else if (Z.of_nat (length (q_pending q)) >=? qc_max_outbox_messages config)%Z then
    Some ("Outbox full: " +:+ pretty (length (q_pending q)) +:+ "/" +:+ pretty (qc_max_outbox_messages config)
          +:+ " pending duty-critical events; refusing to drop event " +:+ qe_event_id event)
  else if (q_pending_bytes q + event_bytes >? qc_max_outbox_bytes config)%Z then
    Some ("Outbox byte cap reached: " +:+ pretty (q_pending_bytes q) +:+ "+" +:+ pretty event_bytes +:+ " > "
          +:+ pretty (qc_max_outbox_bytes config) +:+ "; refusing to drop event " +:+ qe_event_id event)
  else None.
Definition push_pending (r : OutboxRecord) (q : QueueState) : QueueState :=
  q <| q_pending := q_pending q ++ [r] |> <| q_pending_bytes := (q_pending_bytes q + ob_size_bytes r)%Z |>.
Definition outbox_append (event : ModelQueuedEvent) : Act OutboxRecord :=
  event_json ← lift (dump_event event);
  let event_bytes := byte_len event_json in
  q ← get_state;
  match outbox_full q event event_bytes with
  | Some msg => raise (DurableOutboxFullError msg)
  | None =>
      now ← ask w_now;
      let filepath := file_name now (qe_event_id event) in
      _ ← write_file Outbox filepath event_json;
      let record := {| ob_event := event; ob_path := filepath; ob_size_bytes := event_bytes |} in
      _ ← modify (push_pending record);
      mret record
  end.
Definition outbox_ack (record : OutboxRecord) : Act unit :=
  q ← get_state;
  match remove_record record (q_pending q) with
  | None => mret ()
  | Some pending =>
      _ ← modify (fun q => q <| q_pending := pending |>
                             <| q_pending_bytes := Z.max 0 (q_pending_bytes q - ob_size_bytes record) |>);
      quietly (unlink_file Outbox (ob_path record))
  end.
(** [_quarantine]: the file leaves the directory for the one of the corrupt ones. *)
Definition quarantine (name : string) : Act unit :=
  quietly (_ ← make_dir Outbox; ok ← os_call (RenameFile name);
           if (ok : bool) then modify (on_disk Outbox (fun d => delete name d)) else raise OSError).
Definition restore_record (name : string) : Act unit :=
  r ← attempt (content ← read_file Outbox name; event ← lift (load_event content); mret (content, event));
  match r with
  | Ok (content, event) =>
      modify (push_pending {| ob_event := event; ob_path := name; ob_size_bytes := byte_len content |})
  | Raise _ => quarantine name
  end.
(** The directory was made by the constructor. *)
Definition load_pending : Act nat :=
  _ ← modify (fun q => q <| q_pending := [] |> <| q_pending_bytes := 0%Z |>);
  names ← scan_dir Outbox;
  _ ← for_each names restore_record;
  q ← get_state; mret (length (q_pending q)).

(** *** The spool *)

Definition spool_disabled : bool := (qc_max_spool_messages config =? 0)%Z || (qc_max_spool_bytes config =? 0)%Z.
Definition less_spool (n : Z) (q : QueueState) : QueueState := q <| q_spool_bytes := Z.max 0 (q_spool_bytes q - n) |>.
Definition _drop_oldest_spool : Act unit :=
  q ← get_state;
  match q_spool_files q with
  | [] => mret ()
  | oldest :: files =>
      _ ← modify (fun q => q <| q_spool_files := files |>);
      quietly (size ← file_size Spool oldest; _ ← unlink_file Spool oldest; modify (less_spool size))
  end.
(** The loop that drops; [fuel] is the number of files. *)
Definition spool_tight (q : QueueState) (event_bytes : Z) : bool :=
  (Z.of_nat (length (q_spool_files q)) >=? qc_max_spool_messages config)%Z
  || (q_spool_bytes q + event_bytes >? qc_max_spool_bytes config)%Z.
Fixpoint make_room (fuel : nat) (event_bytes : Z) : Act unit :=
  q ← get_state;
  match fuel with
  | S fuel' =>
      if spool_tight q event_bytes && truthy (q_spool_files q)
      then (_ ← _drop_oldest_spool; make_room fuel' event_bytes) else mret ()
  | O => mret ()
  end.
Definition _spool_event (event : ModelQueuedEvent) : Act bool :=
  if spool_disabled then mret false
  else
    match dump_event event with
    | Raise _ => mret false
    | Ok event_json =>
        let event_bytes := byte_len event_json in
        q ← get_state;
        _ ← make_room (length (q_spool_files q)) event_bytes;
        if (event_bytes >? qc_max_spool_bytes config)%Z then mret false
        else
          now ← ask w_now;
          let filepath := file_name now (qe_event_id event) in
          r ← attempt (_ ← make_dir Spool; _ ← write_file Spool filepath event_json;
                       modify (fun q => q <| q_spool_files := q_spool_files q ++ [filepath] |>
                                          <| q_spool_bytes := (q_spool_bytes q + event_bytes)%Z |>));
          mret (match r with Ok _ => true | Raise _ => false end)
    end.
Definition _dequeue_from_spool : Act (option ModelQueuedEvent) :=
  q ← get_state;
  match q_spool_files q with
  | [] => mret None
  | filepath :: files =>
      _ ← modify (fun q => q <| q_spool_files := files |>);
      r ← attempt (read_file Spool filepath);
      match r with
      | Raise _ => _ ← quietly (unlink_file Spool filepath); mret None
      | Ok content =>
          size ← attempt (file_size Spool filepath);
          match load_event content with
          | Ok event =>
              _ ← modify (less_spool (match size with Ok n => n | Raise _ => byte_len content end));
              _ ← quietly (unlink_file Spool filepath);
              mret (Some event)
          | Raise _ =>
              _ ← modify (less_spool (match size with Ok n => n | Raise _ => 0%Z end));
              _ ← quietly (unlink_file Spool filepath);
              mret None
          end
      end
  end.
Definition load_spool_file (filepath : string) : Act unit :=
  quietly (size ← file_size Spool filepath;
           modify (fun q => q <| q_spool_files := q_spool_files q ++ [filepath] |>
                              <| q_spool_bytes := (q_spool_bytes q + size)%Z |>)).
Definition load_spool : Act nat :=
  _ ← modify (fun q => q <| q_spool_files := [] |> <| q_spool_bytes := 0%Z |>);
  r ← attempt (scan_dir Spool);
  match r with
  | Raise _ => mret 0
  | Ok names => _ ← for_each names load_spool_file; q ← get_state; mret (length (q_spool_files q))
  end.

(** *** The queue *)

Definition push_memory (event : ModelQueuedEvent) (q : QueueState) : QueueState :=
  q <| q_memory_queue := q_memory_queue q ++ [event] |>.
Definition enqueue (event : ModelQueuedEvent) : Act bool :=
  match qe_tier event with
  | DUTY_CRITICAL => _ ← outbox_append event; mret true
  | TELEMETRY =>
      q ← get_state;
      if (Z.of_nat (length (q_memory_queue q)) <? qc_max_memory_queue config)%Z
      then (_ ← modify (push_memory event); mret true)
      else if spool_disabled then mret false else _spool_event event
  end.
Definition dequeue : Act (option ModelQueuedEvent) :=
  q ← get_state;
  match q_pending q with
  | record :: _ =>
      _ ← modify (fun q => q <| q_in_flight := dict_set (qe_event_id (ob_event record)) record (q_in_flight q) |>);
      mret (Some (ob_event record))
  | [] =>
      match q_memory_queue q with
      | event :: queue => _ ← modify (fun q => q <| q_memory_queue := queue |>); mret (Some event)
      | [] => match q_spool_files q with _ :: _ => _dequeue_from_spool | [] => mret None end
      end
  end.
Definition ack (event : ModelQueuedEvent) : Act unit :=
  q ← get_state;
  match dict_get (qe_event_id event) (q_in_flight q) with
  | None => mret ()
  | Some record =>
      _ ← modify (fun q => q <| q_in_flight := dict_pop (qe_event_id event) (q_in_flight q) |>);
      outbox_ack record
  end.
Definition drain_one (count : nat) (event : ModelQueuedEvent) : Act nat :=
  _ ← modify (fun q => q <| q_memory_queue := tail (q_memory_queue q) |>);
  ok ← _spool_event event; mret (if (ok : bool) then S count else count).
Definition drain_to_spool : Act nat :=
  if spool_disabled then mret 0 else (q ← get_state; fold_each (q_memory_queue q) 0 drain_one).
End queue.
