(* ===== verification/EmitPublisher.v ===== *)
(** * Emit daemon: the publisher loop

    [node_emit_daemon/publisher_loop.py]: the task that takes events from the queue
    and publishes them, with its circuit breaker and retries.  The loop is cut where
    the task is suspended (while it waits for the publish callable, in a backoff,
    between two rounds), so that clients may put events into the queue there; what
    happens next is an input of [daemon_step].  How long a wait takes is left out,
    except for the breaker's recovery time. *)
From S2P Require Import Prelude PyFloat PyJson PyHash LogMonad LocalDispatch EmitQueue.

Inductive EnumCircuitBreakerState : Type := CLOSED | OPEN | HALF_OPEN.
#[export] Instance EnumCircuitBreakerState_eq_dec : EqDecision EnumCircuitBreakerState.
Proof. solve_decision. Defined.
Record PublisherConfig := {
  pc_max_retry_attempts : Z; pc_source : string; pc_failure_threshold : Z; pc_recovery_timeout : float;
  pc_half_open_max_probes : Z
}.
Record PublisherState := {
  p_circuit_state : EnumCircuitBreakerState; p_consecutive_failures : Z; p_half_open_successes : Z;
  p_circuit_opened_at : option datetime; p_kafka_connected : bool; p_retry_counts : list (string * Z);
  p_events_published : Z; p_events_dropped : Z; p_events_buffered : Z; p_last_publish_at : option datetime;
  p_last_failure_at : option datetime
}.
#[export] Instance eta_publisher_state : Eta PublisherState := fun p =>
  Build_PublisherState (p_circuit_state p) (p_consecutive_failures p) (p_half_open_successes p) (p_circuit_opened_at p)
    (p_kafka_connected p) (p_retry_counts p) (p_events_published p) (p_events_dropped p) (p_events_buffered p)
    (p_last_publish_at p) (p_last_failure_at p).
Definition new_publisher : PublisherState :=
  {| p_circuit_state := CLOSED; p_consecutive_failures := 0; p_half_open_successes := 0; p_circuit_opened_at := None;
     p_kafka_connected := true; p_retry_counts := []; p_events_published := 0; p_events_dropped := 0;
     p_events_buffered := 0; p_last_publish_at := None; p_last_failure_at := None |}.

(** ** The circuit breaker *)

Section breaker.
Context (config : PublisherConfig).

Definition _transition_to_open (now : datetime) (p : PublisherState) : PublisherState :=
  p <| p_circuit_state := OPEN |> <| p_circuit_opened_at := Some now |> <| p_kafka_connected := false |>.
Definition _transition_to_half_open (p : PublisherState) : PublisherState :=
  p <| p_circuit_state := HALF_OPEN |> <| p_half_open_successes := 0%Z |>.
Definition _transition_to_closed (p : PublisherState) : PublisherState :=
  p <| p_circuit_state := CLOSED |> <| p_consecutive_failures := 0%Z |> <| p_half_open_successes := 0%Z |>
    <| p_circuit_opened_at := None |> <| p_kafka_connected := true |>.
Definition _record_success (now : datetime) (p : PublisherState) : PublisherState :=
  let p := p <| p_last_publish_at := Some now |> <| p_kafka_connected := true |> in
  match p_circuit_state p with
  | HALF_OPEN =>
      let p := p <| p_half_open_successes := (p_half_open_successes p + 1)%Z |> in
      if (p_half_open_successes p >=? pc_half_open_max_probes config)%Z then _transition_to_closed p else p
  | CLOSED => p <| p_consecutive_failures := 0%Z |>
  | OPEN => p
  end.
Definition _record_failure (now : datetime) (p : PublisherState) : PublisherState :=
  let p := p <| p_consecutive_failures := (p_consecutive_failures p + 1)%Z |> <| p_last_failure_at := Some now |> in
  match p_circuit_state p with
  | HALF_OPEN => _transition_to_open now p
  | CLOSED => if (p_consecutive_failures p >=? pc_failure_threshold config)%Z then _transition_to_open now p else p
  | OPEN => p
  end.
Definition _should_probe (now : datetime) (p : PublisherState) : bool :=
  match p_circuit_state p, p_circuit_opened_at p with
  | OPEN, None => true
  | OPEN, Some opened_at => fge (rat (now - opened_at) 1000000) (pc_recovery_timeout config)
  | _, _ => false
  end.
End breaker.

(** ** The loop *)

(** Where the task is. *)
Inductive LoopPoint : Type :=
  | Idle
  | Publishing (event : ModelQueuedEvent)
  | BackingOff (event : ModelQueuedEvent)
  | Stopped.
Record DaemonState := {
  d_queue : QueueState; d_publisher : PublisherState; d_point : LoopPoint; d_running : bool
}.
#[export] Instance eta_daemon_state : Eta DaemonState := fun d =>
  Build_DaemonState (d_queue d) (d_publisher d) (d_point d) (d_running d).
Definition fresh_daemon (spool outbox : gmap string string) : DaemonState :=
  {| d_queue := fresh_queue spool outbox; d_publisher := new_publisher; d_point := Idle; d_running := true |}.

(** What happens to the daemon: a client's event, a round of the loop, the publish
    callable returning or raising, a backoff running out, the shutdown with its
    drain deadline and the drain after it, and the start of a new process on the
    directories the last one left. *)
Inductive DaemonInput : Type :=
  | Offer (event : ModelQueuedEvent)
  | Round
  | PublishReturns (ok : bool)
  | BackoffOver
  | StopRequested
  | DrainDeadline
  | DrainToSpool
  | Restart.
(** What a client or the broker learns. *)
Inductive DaemonAnswer : Type :=
  | Accepted (event : ModelQueuedEvent)
  | Refused (event : ModelQueuedEvent)
  | Delivered (event : ModelQueuedEvent)
  | Silent.

Section loop.
Context (qconfig : QueueConfig) (config : PublisherConfig).
Context (w_os : list EmitIo -> EmitIo -> bool) (w_left : list EmitIo -> option string).
Context (w_now : list EmitIo -> datetime) (w_uuid : list EmitIo -> string).
Context (dump_event : ModelQueuedEvent -> result string) (load_event : string -> result ModelQueuedEvent).
Abbreviation Act := (M DaemonState EmitIo).

(** An operation of the queue, an update of the publisher. *)
Definition on_queue {A} (m : M QueueState EmitIo A) : Act A := fun s =>
  let '((q, log), r) := m (d_queue s.1, s.2) in ((s.1 <| d_queue := q |>, log), r).
Definition on_publisher (f : PublisherState -> PublisherState) : Act unit :=
  modify (fun d => d <| d_publisher := f (d_publisher d) |>).
Definition go_to (point : LoopPoint) : Act unit := modify (fun d => d <| d_point := point |>).
Definition enqueue_ (event : ModelQueuedEvent) : Act bool :=
  on_queue (enqueue qconfig w_os w_left w_now dump_event event).

(** The message of an event. *)
Definition payload_corr (payload : json) : option string :=
  match payload with
  | JObj o => match dict_get "correlation_id" o with Some (JStr s) => py_uuid s | _ => None end
  | _ => None
  end.
Definition headers_of (event : ModelQueuedEvent) (uuid : string) : list (string * string) :=
  [("source", pc_source config); ("event_type", qe_event_type event); ("timestamp", isoformat (qe_queued_at event));
   ("correlation_id", default uuid (payload_corr (qe_payload event)))].
Definition begin_publish (event : ModelQueuedEvent) : Act unit :=
  let key := match qe_partition_key event with Some k => if truthy k then Some k else None | None => None end in
  uuid ← call NewUuid (fun l => Ok (w_uuid l));
  let message := PublishCall (qe_topic event) key (json_dumps (qe_payload event)) (headers_of event uuid) in
  _ ← call message (fun _ => Ok ()); go_to (Publishing event).

(** One round from the top of the loop to the publish callable. *)
Definition round : Act unit :=
  d ← get_state;
  now ← ask w_now;
  if decide (p_circuit_state (d_publisher d) = OPEN) then
    if negb (_should_probe config now (d_publisher d)) then mret ()
    else
      _ ← on_publisher _transition_to_half_open;
      event ← on_queue (dequeue w_os load_event);
      match event with None => mret () | Some e => begin_publish e end
  else
    event ← on_queue (dequeue w_os load_event);
    match event with None => mret () | Some e => begin_publish e end.

Definition bump_retry (event_id : string) (p : PublisherState) : PublisherState :=
  p <| p_retry_counts := dict_set event_id (default 0 (dict_get event_id (p_retry_counts p)) + 1)%Z (p_retry_counts p) |>.
Definition forget_retry (event_id : string) (p : PublisherState) : PublisherState :=
  p <| p_retry_counts := dict_pop event_id (p_retry_counts p) |>.
Definition drop_event (event_id : string) (p : PublisherState) : PublisherState :=
  forget_retry event_id p <| p_events_dropped := (p_events_dropped p + 1)%Z |>.
Definition buffered (p : PublisherState) : PublisherState := p <| p_events_buffered := (p_events_buffered p + 1)%Z |>.
(** Back to the loop's condition. *)
Definition next_round : Act unit := d ← get_state; go_to (if d_running d then Idle else Stopped).

Definition requeue (event : ModelQueuedEvent) (on_success : PublisherState -> PublisherState) : Act unit :=
  ok ← enqueue_ event;
  on_publisher (if (ok : bool) then on_success else drop_event (qe_event_id event)).
(** Between two attempts; a shutdown cuts the wait short and ends the loop. *)
Definition back_off (event : ModelQueuedEvent) : Act unit :=
  d ← get_state;
  if d_running d then go_to (BackingOff event)
  else
    _ ← (match qe_tier event with
         | DUTY_CRITICAL => on_publisher id
         | TELEMETRY => _ ← enqueue_ event; on_publisher id
         end);
    go_to Stopped.
Definition publish_failed (event : ModelQueuedEvent) : Act unit :=
  let event_id := qe_event_id event in
  now ← ask w_now;
  _ ← on_publisher (_record_failure config now);
  _ ← on_publisher (bump_retry event_id);
  d ← get_state;
  let is_open := bool_decide (p_circuit_state (d_publisher d) = OPEN) in
  let retries := default 0%Z (dict_get event_id (p_retry_counts (d_publisher d))) in
  match qe_tier event with
  | DUTY_CRITICAL =>
      _ ← on_publisher buffered;
      if is_open then next_round else back_off event
  | TELEMETRY =>
      if (retries >=? pc_max_retry_attempts config)%Z then (_ ← on_publisher (drop_event event_id); next_round)
      else if is_open then (_ ← requeue event buffered; next_round)
      else back_off event
  end.
Definition publish_succeeded (event : ModelQueuedEvent) : Act unit :=
  now ← ask w_now;
  _ ← on_publisher (_record_success config now);
  _ ← on_publisher (forget_retry (qe_event_id event));
  _ ← on_queue (ack w_os event);
  _ ← on_publisher (fun p => p <| p_events_published := (p_events_published p + 1)%Z |>);
  next_round.
(** The end of a backoff that was not cut short. *)
Definition backoff_over (event : ModelQueuedEvent) : Act unit :=
  _ ← (match qe_tier event with DUTY_CRITICAL => on_publisher id | TELEMETRY => requeue event id end);
  next_round.
Definition stop_requested : Act unit :=
  _ ← modify (fun d => d <| d_running := false |>);
  d ← get_state;
  match d_point d with
  | Idle => go_to Stopped
  | BackingOff event => back_off event
  | Publishing _ | Stopped => mret ()
  end.
(** A new process: only the directories remain.  One that cannot load them ends. *)
Definition restart : Act unit :=
  _ ← modify (fun d => fresh_daemon (q_spool_disk (d_queue d)) (q_outbox_disk (d_queue d)));
  r ← attempt (_ ← on_queue (load_spool w_os); on_queue (load_pending w_os load_event));
  match r with
  | Ok _ => mret ()
  | Raise _ => modify (fun d => d <| d_point := Stopped |> <| d_running := false |>)
  end.

Definition daemon_step (input : DaemonInput) : Act DaemonAnswer :=
  d ← get_state;
  match input, d_point d with
  | Offer event, _ =>
      if d_running d then
        (r ← attempt (enqueue_ event); mret (match r with Ok true => Accepted event | _ => Refused event end))
      else mret (Refused event)
  | Round, Idle => if d_running d then (_ ← round; mret Silent) else mret Silent
  | PublishReturns true, Publishing event => _ ← publish_succeeded event; mret (Delivered event)
  | PublishReturns false, Publishing event => _ ← publish_failed event; mret Silent
  | BackoffOver, BackingOff event => _ ← backoff_over event; mret Silent
  | StopRequested, _ => _ ← stop_requested; mret Silent
  | DrainDeadline, _ => if d_running d then mret Silent else (_ ← go_to Stopped; mret Silent)
  | DrainToSpool, Stopped => _ ← on_queue (drain_to_spool qconfig w_os w_left w_now dump_event); mret Silent
  | Restart, _ => _ ← restart; mret Silent
  | _, _ => mret Silent
  end.
(** What a round raises is logged. *)
Definition daemon_run (inputs : list DaemonInput) : Act (list DaemonAnswer) :=
  fold_each inputs [] (fun answers input =>
    r ← attempt (daemon_step input); mret (answers ++ [match r with Ok answer => answer | Raise _ => Silent end])).
End loop.
