(* ===== verification/EmitServer.v ===== *)
(** * Emit daemon: registry and socket server

    [node_emit_daemon/event_registry.py], the rules an event type fans out to, read
    from a parsed YAML file, with the transforms they name; [socket_server.py], the
    answer to one request line; [models/model_protocol.py]. *)
From S2P Require Import Prelude PyFloat PyJson PyHash PyDyn LogMonad LocalDispatch EmitQueue EmitPublisher.

(** ** Transforms *)

Inductive PayloadTransform : Type := transform_strip_prompt | transform_strip_body.
(** [p.get(k, "")] as text: [str] of what is no string, nothing for [None]. *)
Definition as_text (j : json) : string := match j with JStr s => s | JNull => EmptyString | _ => json_str j end.
Definition text_field (k : string) (payload : Obj) : string := as_text (default (JStr EmptyString) (dict_get k payload)).
Definition strip_prompt (payload : Obj) : Obj :=
  let result := dict_pop "prompt" (dict_pop "prompt_b64" payload) in
  let result := dict_set "prompt_preview" (JStr (String.substring 0 100 (text_field "prompt_preview" payload))) result in
  if dict_has "prompt_length" result then result
  else match default (JStr EmptyString) (dict_get "prompt" payload) with
       | JStr full_prompt => dict_set "prompt_length" (JInt (Z.of_nat (String.length full_prompt))) result
       | _ => result
       end.
Definition strip_body (payload : Obj) : Obj :=
  let body := text_field "body" payload in
  let result := dict_set "body_length" (JInt (Z.of_nat (String.length body))) payload in
  let result := dict_set "body_preview" (JStr (String.substring 0 200 body)) result in
  dict_pop "body" result.
Definition TRANSFORM_REGISTRY (name : string) : option PayloadTransform :=
  if String.eqb name "strip_prompt" then Some transform_strip_prompt
  else if String.eqb name "strip_body" then Some transform_strip_body else None.

(** ** Rules and registrations, of which the fields the daemon reads *)

Record FanOutRule := {
  fr_topic : json; fr_tier : EnumDurabilityTier; fr_transform : option PayloadTransform; fr_max_payload_bytes : option Z
}.
Definition apply_transform (rule : FanOutRule) (payload : Obj) : Obj :=
  match fr_transform rule with
  | None => payload
  | Some transform_strip_prompt => strip_prompt payload
  | Some transform_strip_body => strip_body payload
  end.
(** [payload_model] is the name of the typed model, of which there is one. *)
Record EventRegistration := {
  er_event_type : string; er_fan_out : list FanOutRule; er_partition_key_field : json; er_required_fields : json;
  er_payload_model : option string
}.
Definition EventRegistry : Type := list (string * EventRegistration).

(** [registry.get(name)] needs a hashable name. *)
Definition hashable (j : json) : result unit :=
  match j with
  | JArr _ | JObj _ => Raise (TypeError ("unhashable type: '" +:+ json_type j +:+ "'"))
  | _ => Ok ()
  end.
(** A name that is falsy, ["passthrough"] or unknown stands for no transform. *)
Definition transform_named (name : json) : result (option PayloadTransform) :=
  if truthy name then (_ ← hashable name; Ok (match name with JStr s => TRANSFORM_REGISTRY s | _ => None end)) else Ok None.
Definition tier_of (j : json) : option EnumDurabilityTier :=
  match j with
  | JStr s => if String.eqb s "duty_critical" then Some DUTY_CRITICAL
              else if String.eqb s "telemetry" then Some TELEMETRY else None
  | _ => None
  end.
(** [isinstance(n, int) and n > 0]; a bool is an int. *)
Definition positive_int (j : json) : option Z :=
  match j with
  | JInt n => if (n <=? 0)%Z then None else Some n
  | JBool true => Some 1%Z
  | _ => None
  end.
Definition rule_error {A} (event_type : string) (topic : json) (what : string) : result A :=
  Raise (ValueError ("Fan-out rule for event '" +:+ event_type +:+ "' -> '" +:+ json_str topic +:+ "' " +:+ what)).
Definition read_rule (event_type : string) (rule_def : json) : result FanOutRule :=
  transform_name ← py_get "transform" rule_def;
  transform ← transform_named (default JNull transform_name);
  topic ← py_item "topic" rule_def;
  tier_raw ← py_get "tier" rule_def;
  match tier_raw with
  | None => rule_error event_type topic
              "has no 'tier'. Every fan-out rule must declare a durability tier (duty_critical | telemetry)."
  | Some tier_raw =>
      match tier_of tier_raw with
      | None => rule_error event_type topic
                  ("declares unknown tier '" +:+ json_str tier_raw +:+ "'. Valid tiers: duty_critical, telemetry.")
      | Some tier =>
          max_payload_raw ← py_get_or "max_payload" JNull rule_def;
          max_payload ← (match max_payload_raw with
                         | JNull => Ok None
                         | j => match positive_int j with
                                | Some n => Ok (Some n)
                                | None => rule_error event_type topic
                                            ("declares non-positive max_payload '" +:+ json_str j +:+ "'.")
                                end
                         end);
          Ok {| fr_topic := topic; fr_tier := tier; fr_transform := transform; fr_max_payload_bytes := max_payload |}
      end
  end.
Definition payload_model_of (event_type : string) (name : json) : result (option string) :=
  match name with
  | JNull => Ok (if String.eqb event_type "diagnostic.daemon.health" then Some "ModelDaemonHealthEvent" else None)
  | j => if String.eqb (json_str j) "daemon_health" then Ok (Some "ModelDaemonHealthEvent")
         else Raise (ValueError ("Unknown payload_model '" +:+ json_str j +:+ "' for " +:+ event_type))
  end.
Definition read_registration (event_type : string) (event_def : Obj) : result EventRegistration :=
  rules ← py_iter (default (JArr []) (dict_get "fan_out" event_def));
  fan_out ← map_result (read_rule event_type) rules;
  payload_model ← payload_model_of event_type (default JNull (dict_get "payload_model" event_def));
  Ok {| er_event_type := event_type; er_fan_out := fan_out;
        er_partition_key_field := default JNull (dict_get "partition_key_field" event_def);
        er_required_fields := default (JArr []) (dict_get "required_fields" event_def); er_payload_model := payload_model |}.
(** [from_yaml], of the parsed file *)
Definition from_yaml (raw : json) : result EventRegistry :=
  match raw with
  | JObj raw =>
      match default (JObj []) (dict_get "events" raw) with
      | JObj events =>
          omap_result (fun kv => match kv.2 with
                                 | JObj event_def => r ← read_registration kv.1 event_def; Ok (Some (kv.1, r))
                                 | _ => Ok None
                                 end) events
      | _ => Raise (ValueError "'events' key must be a dict")
      end
  | _ => Raise (ValueError ("Registry YAML must be a dict, got " +:+ json_type raw))
  end.
(** [f in payload] *)
Definition key_in (f : json) (payload : Obj) : result bool :=
  _ ← hashable f; Ok (match f with JStr s => dict_has s payload | _ => false end).
Definition validate_payload (registration : EventRegistration) (payload : Obj) : result (list json) :=
  fields ← py_iter (er_required_fields registration);
  omap_result (fun f => present ← key_in f payload; Ok (if (present : bool) then None else Some f)) fields.
Definition get_partition_key (registration : EventRegistration) (payload : Obj) : result (option string) :=
  match er_partition_key_field registration with
  | JNull => Ok None
  | f => _ ← hashable f;
         Ok (match f with
             | JStr s => match dict_get s payload with None | Some JNull => None | Some v => Some (json_str v) end
             | _ => None
             end)
  end.

(** ** Requests *)

Inductive DaemonRequest : Type := PingRequest | HealthRequest | EmitRequest (event_type : string) (payload : json).
Section requests.
Context `{P : Pydantic}.

Definition command_request (model : string) (expected : string) (r : DaemonRequest) (data : Obj) : result DaemonRequest :=
  _ ← (match dict_get "command" data with
       | Some (JStr s) => if String.eqb s expected then Ok () else Raise (ValidationError model)
       | _ => Raise (ValidationError model)
       end);
  _ ← no_extra model ["command"] data; Ok r.
Definition parse_daemon_request (data : Obj) : result DaemonRequest :=
  match dict_get "command" data, dict_get "event_type" data with
  | Some _, Some _ =>
      Raise (ValueError ("Ambiguous request: contains both 'command' and 'event_type' fields. "
                         +:+ "Send separate requests for ping and emit operations."))
  | Some cmd, None =>
      if json_eqb cmd (JStr "health") then command_request "ModelDaemonHealthRequest" "health" HealthRequest data
      else command_request "ModelDaemonPingRequest" "ping" PingRequest data
  | None, Some _ =>
      let model := "ModelDaemonEmitRequest" in
      event_type ← field_req model lax_str "event_type" data;
      _ ← no_extra model ["event_type"; "payload"] data;
      if String.eqb event_type EmptyString then Raise (ValidationError model)
      else Ok (EmitRequest event_type (default (JObj []) (dict_get "payload" data)))
  | None, None => Raise (ValueError "Invalid request: must contain either 'command' or 'event_type' field")
  end.
End requests.

(** ** Responses *)

Record ModelEmitDaemonHealth := {
  eh_healthy : bool; eh_circuit_state : EnumCircuitBreakerState; eh_consecutive_failures : Z; eh_memory_queue_size : Z;
  eh_spool_queue_size : Z; eh_events_published : Z; eh_events_dropped : Z; eh_events_buffered : Z;
  eh_last_publish_at : option datetime; eh_last_failure_at : option datetime; eh_circuit_opened_at : option datetime;
  eh_uptime : Z; eh_kafka_connected : bool
}.
Inductive DaemonResponse : Type :=
  | PingResponse (queue_size spool_size : Z)
  | HealthResponse (health : ModelEmitDaemonHealth)
  | QueuedResponse (event_id : string)
  | ErrorResponse (reason : string).
(** The health of a running server with its publisher; the uptime in microseconds. *)
Definition _handle_health (is_running : bool) (now : datetime) (started_at : option datetime) (q : QueueState)
    (p : PublisherState) : DaemonResponse :=
  HealthResponse
    {| eh_healthy := is_running && bool_decide (p_circuit_state p <> OPEN); eh_circuit_state := p_circuit_state p;
       eh_consecutive_failures := p_consecutive_failures p; eh_memory_queue_size := Z.of_nat (length (q_memory_queue q));
       eh_spool_queue_size := Z.of_nat (length (q_spool_files q)); eh_events_published := p_events_published p;
       eh_events_dropped := p_events_dropped p; eh_events_buffered := p_events_buffered p;
       eh_last_publish_at := p_last_publish_at p; eh_last_failure_at := p_last_failure_at p;
       eh_circuit_opened_at := p_circuit_opened_at p;
       eh_uptime := match started_at with Some t => now - t | None => 0 end; eh_kafka_connected := p_kafka_connected p |}.
Definition _handle_ping (q : QueueState) : DaemonResponse :=
  PingResponse (Z.of_nat (length (q_memory_queue q))) (Z.of_nat (length (q_spool_files q))).

Section server.
Context `{P : Pydantic} (config : QueueConfig) (registry : EventRegistry) (max_payload_bytes : Z) (env_session_id : string).
Context (w_os : list EmitIo -> EmitIo -> bool) (w_left : list EmitIo -> option string).
Context (w_now : list EmitIo -> datetime) (w_uuid : list EmitIo -> string).
Context (dump_event : ModelQueuedEvent -> result string).
Abbreviation Act := (M QueueState EmitIo).

Definition uuid4 : Act string := call NewUuid (fun l => Ok (w_uuid l)).
Definition is_none (v : option json) : bool := match v with None | Some JNull => true | Some _ => false end.
Definition set_missing (k : string) (v : json) (o : Obj) : Obj := if dict_has k o then o else dict_set k v o.
(** The id derived from the session: itself, if it is a uuid, or the uuid of its hash. *)
Definition entity_id (session_id : string) : json :=
  match py_uuid session_id with
  | Some _ => JStr session_id
  | None => from_option JStr JNull (py_uuid (String.substring 0 32 (sha256_hex session_id)))
  end.
Definition with_entity (result : Obj) : Obj :=
  if dict_has "entity_id" result then result
  else match dict_get "session_id" result with
       | Some (JStr s) => if truthy s then dict_set "entity_id" (entity_id s) result else result
       | _ => result
       end.
Definition _inject_metadata (payload : Obj) (correlation_id : option string) : Act Obj :=
  result ← (if is_none (dict_get "correlation_id" payload) then
              match correlation_id with
              | Some c => if truthy c then mret (dict_set "correlation_id" (JStr c) payload)
                          else (u ← uuid4; mret (dict_set "correlation_id" (JStr u) payload))
              | None => u ← uuid4; mret (dict_set "correlation_id" (JStr u) payload)
              end
            else mret payload);
  now ← ask w_now;
  let result := set_missing "emitted_at" (JStr (isoformat now)) (set_missing "causation_id" JNull result) in
  let result := if truthy (default JNull (dict_get "session_id" result)) then result
                else if truthy env_session_id then dict_set "session_id" (JStr env_session_id) result else result in
  mret (dict_set "schema_version" (JStr "1.0.0") (with_entity result)).

(** [ModelQueuedEvent(...)] of a rule *)
Definition event_of (event_id event_type : string) (rule : FanOutRule) (transformed : Obj) (partition_key : option string)
    (now : datetime) : result ModelQueuedEvent :=
  topic ← check "ModelQueuedEvent" (lax_str (fr_topic rule));
  if String.eqb topic EmptyString then Raise (ValidationError "ModelQueuedEvent")
  else Ok {| qe_event_id := event_id; qe_event_type := event_type; qe_topic := topic; qe_payload := JObj transformed;
             qe_partition_key := partition_key; qe_queued_at := now; qe_tier := fr_tier rule |}.
(** One rule: the id of the event that was queued, if one was; backpressure is an
    answer, every other exception is raised. *)
Inductive RuleOutcome : Type := RuleQueued (event_id : string) | RuleSkipped | RuleDegraded (reason : string).
Definition degraded_reason (event_type : string) (rule : FanOutRule) (exc : py_exn) : string :=
  "degraded: durable outbox full, cannot accept duty-critical event " +:+ event_type +:+ " -> " +:+ json_str (fr_topic rule)
  +:+ ": " +:+ exn_str exc.
Definition emit_rule (event_type : string) (registration : EventRegistration) (enriched : Obj) (rule : FanOutRule)
  : Act RuleOutcome :=
  let transformed := apply_transform rule enriched in
  if (byte_len (json_dumps (JObj transformed)) >? max_payload_bytes)%Z then mret RuleSkipped
  else
    partition_key ← lift (get_partition_key registration transformed);
    event_id ← uuid4;
    now ← ask w_now;
    event ← lift (event_of event_id event_type rule transformed partition_key now);
    r ← attempt (enqueue config w_os w_left w_now dump_event event);
    match r with
    | Ok true => mret (RuleQueued event_id)
    | Ok false => mret RuleSkipped
    | Raise (OtherError name msg as exc) =>
        if String.eqb name "DurableOutboxFullError" then mret (RuleDegraded (degraded_reason event_type rule exc)) else raise exc
    | Raise exc => raise exc
    end.
Fixpoint emit_rules (event_type : string) (registration : EventRegistration) (enriched : Obj) (rules : list FanOutRule)
    (last_event_id : option string) : Act DaemonResponse :=
  match rules with
  | [] => mret (match last_event_id with
                | None => ErrorResponse ("Failed to queue any events for " +:+ event_type)
                | Some event_id => QueuedResponse event_id
                end)
  | rule :: rules' =>
      outcome ← emit_rule event_type registration enriched rule;
      match outcome with
      | RuleQueued event_id => emit_rules event_type registration enriched rules' (Some event_id)
      | RuleSkipped => emit_rules event_type registration enriched rules' last_event_id
      | RuleDegraded reason => mret (ErrorResponse reason)
      end
  end.
Definition emit_payload (event_type : string) (payload : Obj) : Act DaemonResponse :=
  match dict_get event_type registry with
  | None => mret (ErrorResponse ("Unknown event type: " +:+ event_type))
  | Some registration =>
      missing ← lift (validate_payload registration payload);
      if truthy missing then
        mret (ErrorResponse ("Missing required fields for " +:+ event_type +:+ ": " +:+ json_repr (JArr missing)))
      else
        let correlation_id := match dict_get "correlation_id" payload with Some (JStr c) => Some c | _ => None end in
        enriched ← _inject_metadata payload correlation_id;
        emit_rules event_type registration enriched (er_fan_out registration) None
  end.
Definition _handle_emit (event_type : string) (raw_payload : json) : Act DaemonResponse :=
  match raw_payload with
  | JNull => emit_payload event_type []
  | JObj payload => emit_payload event_type payload
  | _ => mret (ErrorResponse "'payload' must be a JSON object")
  end.
(** The answer to a request line that is JSON. *)
Definition _process_request (is_running : bool) (started_at : option datetime) (p : PublisherState) (raw_request : json)
  : Act DaemonResponse :=
  match raw_request with
  | JObj data =>
      match parse_daemon_request data with
      | Raise e => mret (ErrorResponse (exn_str e))
      | Ok HealthRequest =>
          q ← get_state; now ← ask w_now; mret (_handle_health is_running now started_at q p)
      | Ok PingRequest => q ← get_state; mret (_handle_ping q)
      | Ok (EmitRequest event_type payload) => _handle_emit event_type payload
      end
  | _ => mret (ErrorResponse "Request must be a JSON object")
  end.
End server.
