(* ===== verification/EmitProps.v ===== *)
(** * Emit daemon: what is never lost, what is bounded, when it publishes

    The duty-critical events a daemon accepted stay on disk until their publish is
    confirmed, through failing files, shutdowns and restarts; the bounds of the
    queues; the circuit breaker; what an emit request puts into the queue. *)
From S2P Require Import Prelude PyFloat PyJson PyHash PyDyn LogMonad LocalDispatch EmitQueue EmitPublisher EmitServer.

(** ** Equality of records, names of files *)

Lemma json_eqb_refl j : json_eqb j j = true.
Proof.
  induction j as [|b|n|r|s|l Hl|l Hl] using json_nested_ind; simpl; try done.
  - by destruct b.
  - apply Z.eqb_refl.
  - apply String.eqb_refl.
  - apply String.eqb_refl.
  - induction Hl as [|x l -> _ IH]; [done|]. exact IH.
  - induction Hl as [|x l -> _ IH]; [done|]. rewrite String.eqb_refl. exact IH.
Qed.
Lemma json_eqb_eq a : forall b, json_eqb a b = true -> a = b.
Proof.
  induction a as [|x|n|r|s|l Hl|l Hl] using json_nested_ind; intros [|y|m|r'|s'|k|k]; simpl; try done.
  - by intros ->%Bool.eqb_prop.
  - by intros ->%Z.eqb_eq.
  - by intros ->%String.eqb_eq.
  - by intros ->%String.eqb_eq.
  - intros H. f_equal. revert k H. induction Hl as [|x l Hx _ IH]; intros [|y k]; try done.
    intros [E1 E2]%andb_prop. by rewrite (Hx y E1), (IH k E2).
  - intros H. f_equal. revert k H. induction Hl as [|[x u] l Hx _ IH]; intros [|[y v] k]; try done.
    intros [[E1%String.eqb_eq E2]%andb_prop E3]%andb_prop. simpl in *. by rewrite E1, (Hx v E2), (IH k E3).
Qed.
#[export] Instance json_eq_dec : EqDecision json.
Proof.
  intros a b. destruct (json_eqb a b) eqn:E; [left; by apply json_eqb_eq|right]. intros ->. by rewrite json_eqb_refl in E.
Defined.
#[export] Instance event_eq_dec : EqDecision ModelQueuedEvent.
Proof. solve_decision. Defined.
Lemma record_eqb_refl r : record_eqb r r = true.
Proof.
  unfold record_eqb, event_eqb. by rewrite json_eqb_refl, !String.eqb_refl, !Z.eqb_refl, !bool_decide_eq_true_2.
Qed.

Lemma pretty_no_bar (n : Z) : ("_"%char) ∉ los (pretty n).
Proof.
  assert (forall p, ("_"%char) ∉ los (pretty (Z.pos p))) as Hpos.
  { intros p. destruct (pretty_pos_chars p) as (c & d & -> & Hc & _ & Hd & _). rewrite Forall_forall in Hd.
    intros [<-|Hin]%elem_of_cons; [done|]. by apply Hd in Hin. }
  destruct n as [|p|p]; [|apply Hpos|].
  - change (los (pretty 0%Z)) with ["0"%char]. by intros ?%list_elem_of_singleton.
  - change (los (pretty (Z.neg p))) with (ascii_of_nat 45 :: los (pretty (Z.pos p))).
    intros [?|?]%elem_of_cons; [done|by eapply Hpos].
Qed.
Lemma zpad_no_bar w n : ("_"%char) ∉ los (zpad w n).
Proof.
  unfold zpad. rewrite los_app, los_of_list. intros [[? _]%elem_of_replicate|?]%elem_of_app; [done|]. by eapply pretty_no_bar.
Qed.
Lemma stamp_no_bar t : ("_"%char) ∉ los (stamp t).
Proof.
  unfold stamp. destruct (civil_from_days _) as [[y m] d]. rewrite !los_app.
  repeat (apply not_elem_of_app; split); apply zpad_no_bar.
Qed.
(** What precedes the first occurrence of an element determines the split. *)
Lemma split_first {A} (x : A) a b d e : x ∉ a -> x ∉ b -> a ++ x :: d = b ++ x :: e -> a = b /\ d = e.
Proof.
  revert b. induction a as [|y a IH]; intros [|z b] Ha Hb; simpl; intros Heq; simplify_eq/=.
  - done.
  - exfalso. apply Hb. constructor.
  - exfalso. apply Ha. constructor.
  - destruct (IH b) as [-> ->]; [set_solver..|done|done].
Qed.
Lemma file_name_id t t' i i' : file_name t i = file_name t' i' -> i = i'.
Proof.
  unfold file_name. intros H%(f_equal los). rewrite !los_app in H. apply split_first in H as [_ H]; [|apply stamp_no_bar..].
  apply app_inv_tail in H. by rewrite <- (String.string_of_list_ascii_of_string i), H, String.string_of_list_ascii_of_string.
Qed.
Lemma endswith_app s suffix : py_endswith suffix (s +:+ suffix) = true.
Proof.
  assert (py_endswith suffix suffix = true) as H0 by (destruct suffix; simpl; by rewrite ?String.eqb_refl, ?Ascii.eqb_refl).
  induction s as [|c s IH]; simpl; [done|]. by rewrite IH, orb_true_r.
Qed.
Lemma file_name_json t i : py_endswith ".json" (file_name t i) = true.
Proof. unfold file_name. rewrite !str_app_assoc. apply endswith_app. Qed.

(** ** The outbox *)

Section durable.
Context (qconfig : QueueConfig) (config : PublisherConfig).
Context (w_os : list EmitIo -> EmitIo -> bool) (w_left : list EmitIo -> option string).
Context (w_now : list EmitIo -> datetime) (w_uuid : list EmitIo -> string).
Context (dump_event : ModelQueuedEvent -> result string) (load_event : string -> result ModelQueuedEvent).
(** What was written reads back, and the outbox can be read when a process starts. *)
Context (codec : forall e c, dump_event e = Ok c -> load_event c = Ok e).
Context (readable : forall l n, w_os l (ReadFile Outbox n) = true).

(** The part of the state duty-critical events live in. *)
Definition outbox_part (q : QueueState) : list OutboxRecord * Z * list (string * OutboxRecord) * gmap string string :=
  (q_pending q, q_pending_bytes q, q_in_flight q, q_outbox_disk q).
Definition any_io (e : EmitIo) : Prop := True.
(** The event has a file in the outbox that reads back as it. *)
Definition stored (d : gmap string string) (e : ModelQueuedEvent) : Prop :=
  exists n c, d !! n = Some c /\ load_event c = Ok e.
(** A file of the outbox is named after an event of [U]. *)
Definition named (U : list string) (n : string) : Prop := exists t i, i ∈ U /\ n = file_name t i.
Definition backed (d : gmap string string) (r : OutboxRecord) : Prop :=
  exists c, d !! ob_path r = Some c /\ load_event c = Ok (ob_event r).
(** The events of [A] are stored, those pending have files of their own, and at
    most the first pending one is in flight. *)
Record durable (U : list string) (A : ModelQueuedEvent -> Prop) (q : QueueState) : Prop := {
  du_named : forall n c, q_outbox_disk q !! n = Some c -> named U n;
  du_backed : Forall (backed (q_outbox_disk q)) (q_pending q);
  du_distinct : NoDup (map ob_path (q_pending q));
  du_flight : q_in_flight q = []
    \/ exists r rest, q_pending q = r :: rest /\ q_in_flight q = [(qe_event_id (ob_event r), r)];
  du_stored : forall e, A e -> stored (q_outbox_disk q) e
}.
Definition served (A : ModelQueuedEvent -> Prop) (q : QueueState) : Prop :=
  forall e, A e -> e ∈ map ob_event (q_pending q).
Lemma durable_part U A q q' : outbox_part q = outbox_part q' -> durable U A q -> durable U A q'.
Proof. intros [= H1 _ H2 H3] [D1 D2 D3 D4 D5]. by split; rewrite <- ?H1, <- ?H2, <- ?H3. Qed.
Lemma served_part A q q' : outbox_part q = outbox_part q' -> served A q -> served A q'.
Proof. intros [= H1 _ _ _] H. unfold served. by rewrite <- H1. Qed.

(** *** Operations of the spool leave it alone *)

Abbreviation keeps_part o m := (keeps (fun q => outbox_part q = o) any_io m).
Lemma keeps_spool_modify o f : (forall q, outbox_part (f q) = outbox_part q) -> keeps_part o (modify f).
Proof. intros H. apply keeps_modify. intros q <-. apply H. Qed.
Ltac part_step :=
  first [ apply keeps_spool_modify; intros ?; reflexivity | apply keeps_call; exact I | keeps_step ].
Ltac part_auto := repeat part_step.
Lemma quietly_part o m : keeps_part o m -> keeps_part o (quietly m).
Proof. intros H. unfold quietly. apply keeps_bind; [by apply keeps_attempt|]. intros ?. apply keeps_ret. Qed.
#[local] Hint Resolve quietly_part : onex.
Lemma make_dir_part o p : keeps_part o (make_dir w_os p).
Proof. unfold make_dir, os_call. part_auto. Qed.
Lemma write_spool_part o n c : keeps_part o (write_file w_os w_left Spool n c).
Proof. unfold write_file, os_call. part_auto. Qed.
Lemma read_part o p n : keeps_part o (read_file w_os p n).
Proof. unfold read_file, os_call. part_auto. Qed.
Lemma size_part o p n : keeps_part o (file_size w_os p n).
Proof. unfold file_size, os_call. part_auto. Qed.
Lemma unlink_spool_part o n : keeps_part o (unlink_file w_os Spool n).
Proof. unfold unlink_file, os_call. part_auto. Qed.
Lemma scan_part o p : keeps_part o (scan_dir w_os p).
Proof. unfold scan_dir, os_call. part_auto. Qed.
#[local] Hint Resolve make_dir_part write_spool_part read_part size_part unlink_spool_part scan_part : onex.
Lemma drop_part o : keeps_part o (_drop_oldest_spool w_os).
Proof. unfold _drop_oldest_spool. part_auto. Qed.
#[local] Hint Resolve drop_part : onex.
Lemma make_room_part o fuel n : keeps_part o (make_room qconfig w_os fuel n).
Proof. induction fuel as [|fuel IH]; simpl; part_auto. Qed.
#[local] Hint Resolve make_room_part : onex.
Lemma spool_part o e : keeps_part o (_spool_event qconfig w_os w_left w_now dump_event e).
Proof. unfold _spool_event. part_auto. Qed.
#[local] Hint Resolve spool_part : onex.
Lemma from_spool_part o : keeps_part o (_dequeue_from_spool w_os load_event).
Proof. unfold _dequeue_from_spool. part_auto. Qed.
Lemma load_spool_part o : keeps_part o (load_spool w_os).
Proof. unfold load_spool, load_spool_file. part_auto. Qed.
Lemma drain_part o : keeps_part o (drain_to_spool qconfig w_os w_left w_now dump_event).
Proof. unfold drain_to_spool, drain_one. part_auto. Qed.

(** *** What the outbox does to it *)

Definition ready (U : list string) (A : ModelQueuedEvent -> Prop) (q : QueueState) : Prop := durable U A q /\ served A q.
Lemma durable_grow U A q i : durable U A q -> durable (i :: U) A q.
Proof.
  intros [D1 D2 D3 D4 D5]. split; [|done..]. intros n c Hn. destruct (D1 n c Hn) as (t & j & Hj & ->). exists t, j.
  split; [by right|done].
Qed.
Lemma ready_grow U A q i : ready U A q -> ready (i :: U) A q.
Proof. intros [H1 H2]. split; [by apply durable_grow|done]. Qed.
Lemma fresh_name U A q t i : durable U A q -> i ∉ U -> q_outbox_disk q !! file_name t i = None.
Proof.
  intros D Hi. destruct (q_outbox_disk q !! file_name t i) as [c|] eqn:E; [|done].
  destruct (du_named _ _ _ D _ _ E) as (t' & j & Hj & ->%file_name_id). done.
Qed.
Lemma backed_insert d n c r : d !! n = None -> backed d r -> backed (<[n := c]> d) r.
Proof. intros Hn (c' & H & L). exists c'. split; [|done]. rewrite lookup_insert_ne; congruence. Qed.
Lemma stored_insert d n c e : d !! n = None -> stored d e -> stored (<[n := c]> d) e.
Proof. intros Hn (n' & c' & H & L). exists n', c'. split; [|done]. rewrite lookup_insert_ne; congruence. Qed.
(** A new file, named after a new event. *)
Lemma ready_write U A q t i c :
  ready U A q -> i ∉ U -> ready (i :: U) A (on_disk Outbox (fun d => <[file_name t i := c]> d) q).
Proof.
  intros [D S] Hi. pose proof (fresh_name _ _ _ t i D Hi) as Hn. destruct D as [D1 D2 D3 D4 D5]. split; [|done]. split; simpl.
  - intros n' c'. destruct (decide (file_name t i = n')) as [<-|Hne].
    + intros _. exists t, i. split; [by left|done].
    + rewrite lookup_insert_ne by done. intros H. destruct (D1 _ _ H) as (t' & j & Hj & ->). exists t', j. split; [by right|done].
  - eapply Forall_impl; [exact D2|]. intros r. by apply backed_insert.
  - done.
  - done.
  - intros e He. by apply stored_insert, D5.
Qed.
Lemma ready_push U A q r :
  ready U A q -> backed (q_outbox_disk q) r -> ob_path r ∉ map ob_path (q_pending q) ->
  ready U (fun e => e = ob_event r \/ A e) (push_pending r q).
Proof.
  intros [[D1 D2 D3 D4 D5] S] Hb Hp. split; [split|]; simpl.
  - done.
  - apply Forall_app. auto.
  - rewrite map_app. apply NoDup_app. split_and!; [done|set_solver|apply NoDup_singleton].
  - destruct D4 as [->|(r' & rest & -> & ->)]; [by left|]. right. by exists r', (rest ++ [r]).
  - intros e [->|He]; [|by apply D5]. destruct Hb as (c & H & L). by exists (ob_path r), c.
  - intros e He. unfold served in S. simpl. rewrite map_app, elem_of_app. destruct He as [->|He]; [right; by left|]. left. by apply S.
Qed.
Lemma append_ready U A e :
  qe_event_id e ∉ U ->
  spec (ready U A) any_io (outbox_append qconfig w_os w_left w_now dump_event e)
    (fun _ => ready (qe_event_id e :: U) (fun e' => e' = e \/ A e')) (ready (qe_event_id e :: U) A).
Proof.
  intros He. unfold outbox_append. set (i := qe_event_id e) in *.
  assert (forall q, ready U A q -> ready (i :: U) A q) as Hgrow by (intros q; apply ready_grow).
  eapply spec_bind; [apply (spec_lift _ _ _ (fun c q => ready U A q /\ dump_event e = Ok c)); [by auto|by auto]|].
  intros c. apply spec_bind with (C := fun q0 q => q = q0 /\ ready U A q /\ dump_event e = Ok c); [apply spec_get; tauto|].
  intros q0. destruct (outbox_full _ _ _ _) as [msg|]; [apply spec_raise; by intros q (_ & H & _); auto|].
  eapply spec_bind; [apply (spec_ask _ _ _ (fun _ q => ready U A q /\ dump_event e = Ok c)); tauto|]. intros now.
  unfold write_file, os_call.
  eapply spec_bind with (C := fun _ q => ready (i :: U) A q /\ backed (q_outbox_disk q)
      {| ob_event := e; ob_path := file_name now i; ob_size_bytes := byte_len c |}
      /\ file_name now i ∉ map ob_path (q_pending q)).
  - eapply spec_bind with (C := fun _ q => ready U A q /\ dump_event e = Ok c);
      [apply spec_call; [exact I|tauto|intros q [H _]; auto]|]. intros [|].
    + apply spec_modify. intros q [H Hc]. split_and!; [by apply ready_write|..].
      * exists c. simpl. rewrite lookup_insert_eq. auto.
      * simpl. intros (r & Hp & Hr)%list_elem_of_fmap. destruct H as [D _]. pose proof (fresh_name _ _ _ now i D He) as Hn.
        pose proof (du_backed _ _ _ D) as Hb. rewrite Forall_forall in Hb. destruct (Hb r Hr) as (c' & Hc' & _). congruence.
    + eapply spec_bind; [apply (spec_ask _ _ _ (fun _ q => ready U A q)); tauto|]. intros [left|].
      * eapply spec_bind; [apply (spec_modify _ _ _ (fun _ => ready (i :: U) A)); intros q H; by apply ready_write|].
        intros ?. by apply spec_raise.
      * eapply spec_bind; [apply (spec_modify _ _ _ (fun _ => ready (i :: U) A)); by auto|]. intros ?. by apply spec_raise.
  - intros ?. eapply spec_bind; [apply (spec_modify _ _ _ (fun _ => ready (i :: U) (fun e' => e' = e \/ A e')))|].
    + intros q (H & Hb & Hp). by apply (ready_push _ _ _ {| ob_event := e; ob_path := file_name now i; ob_size_bytes := byte_len c |}).
    + intros ?. by apply spec_ret.
Qed.

(** What is in flight is the event at hand. *)
Definition flying (e : ModelQueuedEvent) (q : QueueState) : Prop := Forall (fun kr => ob_event kr.2 = e) (q_in_flight q).
Lemma ready_part U A q q' : outbox_part q = outbox_part q' -> ready U A q -> ready U A q'.
Proof. intros E [D S]. split; [by eapply durable_part|by eapply served_part]. Qed.
Lemma ready_sub U (A A' : ModelQueuedEvent -> Prop) q : (forall e, A' e -> A e) -> ready U A q -> ready U A' q.
Proof. intros H [[D1 D2 D3 D4 D5] S]. split; [split; auto|]. intros e He. apply S. auto. Qed.
(** A computation that leaves the outbox alone keeps all that is said of it. *)
Lemma part_spec {T} (Q : QueueState -> Prop) (m : M QueueState EmitIo T) :
  (forall q q', outbox_part q = outbox_part q' -> Q q -> Q q') -> (forall o, keeps_part o m) ->
  spec Q any_io m (fun _ => Q) Q.
Proof.
  intros HQ Hm s Hs. destruct (Hm (outbox_part s.1) s eq_refl) as (l & Hl & Hp & Hr). exists l. split_and!; [done|done|].
  destruct (m s) as [s' [a|x]]; simpl in *; eapply HQ; eauto.
Qed.
Lemma dequeue_ready U A :
  spec (ready U A) any_io (dequeue w_os load_event)
    (fun o q => ready U A q /\ match o with Some e => flying e q | None => True end) (ready U A).
Proof.
  unfold dequeue. apply spec_bind with (C := fun q0 q => q = q0 /\ ready U A q); [by apply spec_get|]. intros q0.
  destruct (q_pending q0) as [|r rest] eqn:Ep.
  - assert (forall q, q = q0 /\ ready U A q -> q_in_flight q = []) as Hnone.
    { intros q [-> [[_ _ _ [->|(r & rest & E & _)] _] _]]; [done|congruence]. }
    destruct (q_memory_queue q0) as [|e mem].
    + destruct (q_spool_files q0) as [|f files]; [by apply spec_ret; intros q [_ H]|].
      eapply spec_weaken; [apply (part_spec (fun q => ready U A q /\ q_in_flight q = []))|..].
      * intros q q' E [H Hf]. split; [by eapply ready_part|]. injection E as _ _ E _. congruence.
      * intros o. apply from_spool_part.
      * intros q H. split; [by destruct H|by apply Hnone].
      * done.
      * intros [e|] q [H Hf]; [|done]. split; [done|]. unfold flying. by rewrite Hf.
      * by intros q [H _].
    + eapply spec_bind with (C := fun _ q => ready U A q /\ q_in_flight q = []).
      * apply spec_modify. intros q H. split; [by eapply ready_part; [|exact (proj2 H)]|exact (Hnone q H)].
      * intros ?. apply spec_ret. intros q [H Hf]. split; [done|]. unfold flying. by rewrite Hf.
  - eapply spec_bind with (C := fun _ q => ready U A q /\ flying (ob_event r) q).
    + apply spec_modify. intros q [-> [[D1 D2 D3 D4 D5] S]].
      assert (dict_set (qe_event_id (ob_event r)) r (q_in_flight q0) = [(qe_event_id (ob_event r), r)]) as Ef.
      { destruct D4 as [->|(r' & rest' & E & ->)]; [done|]. rewrite Ep in E. injection E as <- <-. simpl. by rewrite String.eqb_refl. }
      unfold flying. simpl. rewrite Ef. split; [split; [split|]; simpl; try done|by repeat constructor].
      right. by exists r, rest.
    + intros ?. by apply spec_ret.
Qed.

Definition without (A : ModelQueuedEvent -> Prop) (e e' : ModelQueuedEvent) : Prop := A e' /\ e' <> e.
(** A record off the pending ones whose file is still there. *)
Definition leaving (U : list string) (A : ModelQueuedEvent -> Prop) (r : OutboxRecord) (q : QueueState) : Prop :=
  ready U A q /\ backed (q_outbox_disk q) r /\ (ob_path r ∉ map ob_path (q_pending q)) /\ ~ A (ob_event r).
Lemma unlink_leaving U A r :
  spec (leaving U A r) any_io (unlink_file w_os Outbox (ob_path r)) (fun _ => ready U A) (ready U A).
Proof.
  unfold unlink_file, os_call. eapply spec_bind with (C := fun _ => leaving U A r);
    [by apply spec_call; [exact I|..]; [|intros q [? _]]|]. intros [|]; [|by apply spec_raise; intros q [? _]].
  eapply spec_bind with (C := fun q0 q => q = q0 /\ leaving U A r q); [by apply spec_get|]. intros q0.
  destruct (disk Outbox q0 !! ob_path r) as [c|]; [|by apply spec_raise; intros q (_ & ? & _)].
  apply spec_modify. intros q (-> & [[D1 D2 D3 D4 D5] S] & (c' & Hc & Hl) & Hp & HA). split; [split|done]; simpl.
  - intros n c'' Hn. apply lookup_delete_Some in Hn as [_ Hn]. by eapply D1.
  - rewrite Forall_forall in D2 |- *. intros r' Hr'. destruct (D2 r' Hr') as (c'' & H & L). exists c''. split; [|done].
    rewrite lookup_delete_ne; [done|]. intros Heq. apply Hp. rewrite Heq. by apply list_elem_of_fmap_2.
  - done.
  - done.
  - intros e He. destruct (D5 e He) as (n & c'' & H & L). exists n, c''. split; [|done].
    rewrite lookup_delete_ne; [done|]. intros <-. assert (e = ob_event r) as -> by congruence. done.
Qed.
Lemma ack_ready U A e :
  spec (fun q => ready U A q /\ flying e q) any_io (ack w_os e) (fun _ => ready U (without A e)) (fun _ => False).
Proof.
  unfold ack. eapply spec_bind with (C := fun q0 q => q = q0 /\ ready U A q /\ flying e q); [by apply spec_get|]. intros q0.
  assert (forall q, ready U A q -> ready U (without A e) q) as Hsub by (intros q; apply ready_sub; by intros e' [? _]).
  destruct (dict_get (qe_event_id e) (q_in_flight q0)) as [r|] eqn:Eg; [|apply spec_ret; intros q (_ & H & _); auto].
  assert (forall q, q = q0 /\ ready U A q /\ flying e q -> exists rest, q_pending q = r :: rest /\ ob_event r = e
            /\ q_in_flight q = [(qe_event_id e, r)]) as Hr.
  { intros q (-> & [[_ _ _ D4 _] _] & Hf). destruct D4 as [E|(r' & rest & Ep & E)]; rewrite E in Eg; [done|].
    unfold flying in Hf. rewrite E in Hf. apply Forall_cons in Hf as [He _]. simpl in He, Eg. rewrite E, He in *.
    rewrite String.eqb_refl in Eg. injection Eg as ->. by exists rest. }
  eapply spec_bind with (C := fun _ q => ready U A q /\ (exists rest, q_pending q = r :: rest) /\ ob_event r = e /\ q_in_flight q = []).
  - apply spec_modify. intros q H. destruct (Hr q H) as (rest & Ep & He & Ef). destruct H as (_ & [[D1 D2 D3 D4 D5] S] & _).
    simpl. rewrite Ef. simpl. rewrite String.eqb_refl. split_and!; [|by exists rest|done|done].
    split; [split|]; simpl; auto.
  - intros ?. unfold outbox_ack. eapply spec_bind with (C := fun q0 q => q = q0 /\ ready U A q /\ (exists rest, q_pending q = r :: rest)
      /\ ob_event r = e /\ q_in_flight q = []); [apply spec_get; tauto|]. intros q1.
    destruct (remove_record r (q_pending q1)) as [pending|] eqn:Er; [|apply spec_ret; intros q (_ & H & _); auto].
    eapply spec_bind with (C := fun _ => leaving U (without A e) r).
    + apply spec_modify. intros q (-> & [[D1 D2 D3 D4 D5] S] & (rest & Ep) & He & Ef). rewrite Ep in *. simpl in Er.
      rewrite record_eqb_refl in Er. injection Er as <-. simpl in D3. apply NoDup_cons in D3 as [Hn D3].
      apply Forall_cons in D2 as [Hb D2]. split_and!; [|done|done|].
      * split; [split|]; simpl; auto; [by intros e' [He' _]; apply D5|].
        intros e' [He' Hne]. specialize (S e' He'). rewrite Ep in S. simpl in S. apply elem_of_cons in S as [->|S]; [congruence|done].
      * intros [_ H]. congruence.
    + intros ?. unfold quietly. eapply spec_bind with (C := fun _ => ready U (without A e)); [|intros ?; by apply spec_ret].
      eapply spec_attempt; [apply unlink_leaving|done].
Qed.

(** *** A process starting on it *)

(** While the files [names] are still to be read. *)
Record loading (U : list string) (A : ModelQueuedEvent -> Prop) (names : list string) (q : QueueState) : Prop := {
  lo_named : forall n c, q_outbox_disk q !! n = Some c -> named U n;
  lo_backed : Forall (backed (q_outbox_disk q)) (q_pending q);
  lo_distinct : NoDup (map ob_path (q_pending q) ++ names);
  lo_flight : q_in_flight q = [];
  lo_stored : forall e, A e -> exists n c, q_outbox_disk q !! n = Some c /\ load_event c = Ok e
    /\ (n ∈ names \/ e ∈ map ob_event (q_pending q))
}.
Definition unreadable (n : string) (q : QueueState) : Prop :=
  forall c e, q_outbox_disk q !! n = Some c -> load_event c <> Ok e.
Lemma loading_skip U A n names q : loading U A (n :: names) q -> unreadable n q -> loading U A names q.
Proof.
  intros [L1 L2 L3 L4 L5] Hn. split; try done.
  - apply NoDup_app in L3 as (? & L3 & ?). apply NoDup_app. apply NoDup_cons in H0 as [_ ?]. split_and!; [done|set_solver|done].
  - intros e He. destruct (L5 e He) as (n' & c & Hc & Hl & [[->|Hin]%elem_of_cons|Hin]); [by destruct (Hn c e)|by exists n', c; auto..].
Qed.
Lemma loading_quarantined U A n names q :
  loading U A (n :: names) q -> unreadable n q -> loading U A names (on_disk Outbox (fun d => delete n d) q).
Proof.
  intros HL Hn. assert (n ∉ map ob_path (q_pending q)) as Hp.
  { destruct HL as [_ _ L3 _ _]. apply NoDup_app in L3 as (_ & L3 & _). intros H. apply (L3 n H). by left. }
  destruct (loading_skip _ _ _ _ _ HL Hn) as [L1 L2 L3 L4 L5]. split; simpl; try done.
  - intros n' c Hc. apply lookup_delete_Some in Hc as [_ Hc]. by eapply L1.
  - rewrite Forall_forall in L2 |- *. intros r Hr. destruct (L2 r Hr) as (c & Hc & Hl). exists c. split; [|done].
    rewrite lookup_delete_ne; [done|]. intros ->. apply Hp. by apply list_elem_of_fmap_2.
  - intros e He. destruct (L5 e He) as (n' & c & Hc & Hl & Hin). exists n', c. split_and!; [|done|done].
    rewrite lookup_delete_ne; [done|]. intros <-. by destruct (Hn c e).
Qed.
Lemma loading_push U A n names q c e :
  loading U A (n :: names) q -> q_outbox_disk q !! n = Some c -> load_event c = Ok e ->
  loading U A names (push_pending {| ob_event := e; ob_path := n; ob_size_bytes := byte_len c |} q).
Proof.
  intros [L1 L2 L3 L4 L5] Hc Hl. split; simpl; try done.
  - apply Forall_app. split; [done|]. apply Forall_singleton. by exists c.
  - rewrite map_app. simpl. by rewrite <- app_assoc.
  - intros e' He'. destruct (L5 e' He') as (n' & c' & Hc' & Hl' & Hin). exists n', c'. split_and!; [done|done|].
    rewrite map_app, elem_of_app. simpl. apply or_comm. rewrite elem_of_cons in Hin.
    destruct Hin as [[->|Hin]|Hin]; [|by right|by left; left]. left. right. apply list_elem_of_singleton. congruence.
Qed.
Lemma quarantine_loading U A n names :
  spec (fun q => loading U A (n :: names) q /\ unreadable n q) any_io (quarantine w_os n) (fun _ => loading U A names) (fun _ => False).
Proof.
  assert (forall q, loading U A (n :: names) q /\ unreadable n q -> loading U A names q) as Hskip.
  { intros q [H1 H2]. by eapply loading_skip. }
  unfold quarantine, quietly. eapply spec_bind with (C := fun _ => loading U A names); [|intros ?; by apply spec_ret].
  apply (spec_attempt _ _ _ _ (loading U A names)); [|done].
  eapply spec_bind with (C := fun _ q => loading U A (n :: names) q /\ unreadable n q).
  - unfold make_dir, os_call. eapply spec_bind with (C := fun _ q => loading U A (n :: names) q /\ unreadable n q).
    + apply spec_call; [exact I|done|done].
    + intros [|]; simpl; [by apply spec_ret|by apply spec_raise].
  - intros ?. unfold os_call. eapply spec_bind with (C := fun _ q => loading U A (n :: names) q /\ unreadable n q).
    + apply spec_call; [exact I|done|done].
    + intros [|]; [|by apply spec_raise]. apply spec_modify. intros q [H1 H2]. by apply loading_quarantined.
Qed.
Lemma restore_loading U A n names :
  spec (loading U A (n :: names)) any_io (restore_record w_os load_event n) (fun _ => loading U A names) (fun _ => False).
Proof.
  unfold restore_record.
  eapply spec_bind with (C := fun r q => loading U A (n :: names) q
    /\ match r with
       | Ok (c, e) => q_outbox_disk q !! n = Some c /\ load_event c = Ok e
       | Raise _ => unreadable n q
       end).
  - apply (spec_attempt _ _ _ _ (fun q => loading U A (n :: names) q /\ unreadable n q)); [|done].
    eapply spec_bind with (C := fun c q => loading U A (n :: names) q /\ q_outbox_disk q !! n = Some c).
    + unfold read_file, os_call. eapply spec_bind with (C := fun ok q => ok = true /\ loading U A (n :: names) q).
      * eapply spec_weaken; [apply (spec_call_total (loading U A (n :: names)) any_io (ReadFile Outbox n)
          (fun l => Ok (w_os l (ReadFile Outbox n))) (fun ok q => ok = true /\ loading U A (n :: names) q) (fun _ => False)); [exact I|]|done..].
        intros l. exists true. rewrite readable. auto.
      * intros ok. destruct ok; [|by intros q [Hf _]; discriminate Hf].
        eapply spec_bind with (C := fun q0 q => q = q0 /\ loading U A (n :: names) q); [apply spec_get; by intros q [_ ?]|].
        intros q0. simpl. destruct (q_outbox_disk q0 !! n) as [c|] eqn:E.
        -- apply spec_ret. by intros q [-> ?].
        -- apply spec_raise. intros q [-> H]. split; [done|]. intros c e Hc. by rewrite E in Hc.
    + intros c. eapply spec_bind with (C := fun e q => loading U A (n :: names) q /\ q_outbox_disk q !! n = Some c
          /\ load_event c = Ok e); [|intros e; by apply spec_ret].
      destruct (load_event c) as [e|x] eqn:E.
      * apply (spec_ret _ _ e). intros q [H Hc]. auto.
      * apply (spec_raise _ _ x). intros q [H Hc]. split; [done|]. intros c' e' Hc'.
        assert (c' = c) as -> by congruence. by rewrite E.
  - intros [[c e]|x].
    + apply spec_modify. intros q (H & Hc & Hl). by apply loading_push.
    + apply quarantine_loading.
Qed.
Lemma restore_all U A names :
  spec (loading U A names) any_io (for_each names (restore_record w_os load_event)) (fun _ => loading U A []) (fun _ => False).
Proof.
  induction names as [|n names IH]; simpl; [by apply spec_ret|].
  eapply spec_bind; [apply restore_loading|]. intros ?. apply IH.
Qed.
Lemma loaded_ready U A q : loading U A [] q -> ready U A q.
Proof.
  intros [L1 L2 L3 L4 L5]. rewrite app_nil_r in L3. split; [split|]; auto.
  - intros e He. destruct (L5 e He) as (n & c & H & L & _). by exists n, c.
  - intros e He. by destruct (L5 e He) as (n & c & _ & _ & [Hn%elem_of_nil|?]).
Qed.
Definition asleep (U : list string) (A : ModelQueuedEvent -> Prop) (q : QueueState) : Prop :=
  durable U A q /\ q_in_flight q = [] /\ q_pending q = [].
Lemma scan_loading U A :
  spec (asleep U A) any_io (scan_dir w_os Outbox) (fun names => loading U A names) (durable U A).
Proof.
  unfold scan_dir, os_call. eapply spec_bind with (C := fun _ => asleep U A); [apply spec_call; [exact I|done|by intros q [? _]]|].
  intros [|]; [|by apply spec_raise; intros q [? _]].
  eapply spec_bind with (C := fun q0 q => q = q0 /\ asleep U A q); [by apply spec_get|]. intros q0.
  apply spec_ret. intros q (-> & [D1 D2 D3 D4 D5] & Hf & Hp). split; rewrite ?Hp; simpl; try done.
  - apply NoDup_ListNoDup, List.NoDup_filter, NoDup_ListNoDup. unfold sorted_set. rewrite sort_by_perm. apply NoDup_remove_dups.
  - intros e He. destruct (D5 e He) as (n & c & Hc & Hl). exists n, c. split_and!; [done|done|]. left.
    apply list_elem_of_In, filter_In. destruct (D1 n c Hc) as (t & i & _ & ->). split; [|apply file_name_json].
    apply list_elem_of_In, sorted_set_spec, list_elem_of_fmap. exists (file_name t i, c). split; [done|].
    by apply elem_of_map_to_list.
Qed.
Lemma load_ready U A :
  spec (asleep U A) any_io (load_pending w_os load_event) (fun _ => ready U A) (durable U A).
Proof.
  unfold load_pending. eapply spec_bind with (C := fun _ => asleep U A).
  - apply spec_modify. intros q ([D1 D2 D3 D4 D5] & Hf & Hp). split_and!; [split|done|done]; simpl; try done; by constructor || left.
  - intros ?. eapply spec_bind; [apply scan_loading|]. intros names.
    eapply spec_bind; [eapply spec_weaken; [apply restore_all|done|done| |done]; intros ?; exact (fun q H => H)|].
    intros ?. eapply spec_bind with (C := fun _ => loading U A []); [by apply spec_get|].
    intros ?. apply spec_ret. intros q. apply loaded_ready.
Qed.

(** ** The daemon *)

Section daemon.
Context (U : list string) (A : ModelQueuedEvent -> Prop).
Abbreviation on_queue_ := (@on_queue).

(** Nothing accepted is lost, and what is accepted is served, unless the process
    has ended without having read its outbox. *)
Definition safe (d : DaemonState) : Prop :=
  durable U A (d_queue d) /\ (served A (d_queue d) \/ (d_running d = false /\ d_point d = Stopped))
  /\ match d_point d with Publishing e | BackingOff e => flying e (d_queue d) | Idle | Stopped => True end.
Definition held (b : bool) (pt : LoopPoint) (Q : QueueState -> Prop) (d : DaemonState) : Prop :=
  d_running d = b /\ d_point d = pt /\ Q (d_queue d).
Definition at_hand (e : ModelQueuedEvent) (q : QueueState) : Prop := ready U A q /\ flying e q.
Lemma at_hand_part e q q' : outbox_part q = outbox_part q' -> at_hand e q -> at_hand e q'.
Proof. intros E [H F]. split; [by eapply ready_part|]. injection E as _ _ E _. unfold flying in *. by rewrite <- E. Qed.
Lemma held_safe b pt e d :
  pt = Idle \/ pt = Stopped \/ pt = Publishing e \/ pt = BackingOff e -> held b pt (at_hand e) d -> safe d.
Proof.
  intros Hpt (Hb & Hp & [[D S] F]). split_and!; [done|by left|]. rewrite Hp. by destruct Hpt as [->|[->|[->| ->]]].
Qed.
Lemma ready_safe b pt d : pt = Idle \/ pt = Stopped -> held b pt (ready U A) d -> safe d.
Proof. intros Hpt (Hb & Hp & [D S]). split_and!; [done|by left|]. rewrite Hp. by destruct Hpt as [->| ->]. Qed.

Lemma spec_on_queue {T} b pt (Q : QueueState -> Prop) (m : M QueueState EmitIo T) B X :
  spec Q any_io m B X -> spec (held b pt Q) any_io (on_queue m) (fun a => held b pt (B a)) (held b pt X).
Proof.
  intros Hm [d log] (Hb & Hp & HQ). destruct (Hm (d_queue d, log) HQ) as (l & Hl & Ha & Hr). simpl in *. unfold on_queue.
  simpl. destruct (m (d_queue d, log)) as [[q log'] [a|x]]; simpl in *; exists l; by split_and!.
Qed.
Lemma spec_on_publisher b pt Q f X : spec (held b pt Q) any_io (on_publisher f) (fun _ => held b pt Q) X.
Proof. by apply spec_modify. Qed.
Lemma spec_go_to b pt pt' Q X : spec (held b pt Q) any_io (go_to pt') (fun _ => held b pt' Q) X.
Proof. apply spec_modify. by intros d (? & ? & ?). Qed.
Lemma spec_next_round b pt Q X :
  spec (held b pt Q) any_io next_round (fun _ => held b (if b then Idle else Stopped) Q) X.
Proof.
  unfold next_round. eapply spec_bind with (C := fun d0 d => d_running d0 = b /\ held b pt Q d); [by apply spec_get; intros d [? ?]|].
  intros d0 s [Hb Hs]. rewrite Hb. by apply (spec_go_to b pt _ Q X s).
Qed.

Abbreviation enq := (enqueue_ qconfig w_os w_left w_now dump_event).
(** Putting telemetry back. *)
Lemma telemetry_kept e q0 : qe_tier e = TELEMETRY -> keeps_part q0 (enqueue qconfig w_os w_left w_now dump_event e).
Proof. intros Ht. unfold enqueue. rewrite Ht. unfold push_memory. part_auto. Qed.
Lemma spec_put_back b pt e e' :
  qe_tier e' = TELEMETRY ->
  spec (held b pt (at_hand e)) any_io (enq e') (fun _ => held b pt (at_hand e)) (held b pt (at_hand e)).
Proof.
  intros Ht. apply spec_on_queue. apply part_spec; [apply at_hand_part|]. intros o. by apply telemetry_kept.
Qed.
Lemma spec_requeue b pt e f :
  qe_tier e = TELEMETRY ->
  spec (held b pt (at_hand e)) any_io (requeue qconfig w_os w_left w_now dump_event e f)
    (fun _ => held b pt (at_hand e)) (held b pt (at_hand e)).
Proof.
  intros Ht. unfold requeue. eapply spec_bind; [by apply spec_put_back|]. intros ok. destruct ok; apply spec_on_publisher.
Qed.
Definition loop_point (e : ModelQueuedEvent) (pt : LoopPoint) : Prop :=
  pt = Idle \/ pt = Stopped \/ pt = Publishing e \/ pt = BackingOff e.
Definition settles (e : ModelQueuedEvent) (d : DaemonState) : Prop :=
  exists b pt, loop_point e pt /\ held b pt (at_hand e) d.
Lemma settles_safe e d : settles e d -> safe d.
Proof. intros (b & pt & H & Hh). by eapply held_safe. Qed.
Lemma next_settles b pt e : spec (held b pt (at_hand e)) any_io next_round (fun _ => settles e) (settles e).
Proof.
  eapply spec_weaken; [apply (spec_next_round b pt (at_hand e) (settles e))|done|done| |done].
  intros ? d H. exists b, (if b then Idle else Stopped). split; [|done]. destruct b; [by left|by right; left].
Qed.
Lemma back_off_settles b pt e :
  loop_point e pt ->
  spec (held b pt (at_hand e)) any_io (back_off qconfig w_os w_left w_now dump_event e) (fun _ => settles e) (settles e).
Proof.
  intros Hpt. unfold back_off. eapply spec_bind with (C := fun _ => held b pt (at_hand e)); [by apply spec_get|]. intros d0.
  assert (forall pt', loop_point e pt' ->
    spec (held b pt (at_hand e)) any_io (go_to pt') (fun _ => settles e) (settles e)) as Hgo.
  { intros pt' Hpt'. eapply spec_weaken; [apply (spec_go_to b pt pt' (at_hand e) (settles e))|done|done| |done].
    intros ? d H. by exists b, pt'. }
  destruct (d_running d0); [apply Hgo; by right; right; right|].
  eapply spec_bind with (C := fun _ => held b pt (at_hand e)); [|intros ?; apply Hgo; by right; left].
  destruct (qe_tier e) eqn:Ht; [apply spec_on_publisher|].
  eapply spec_bind; [|intros ?; apply spec_on_publisher].
  eapply spec_weaken; [by apply (spec_put_back b pt e)|done|done|by intros ? d H; exact H|]. intros d H. by exists b, pt.
Qed.
End daemon.

Lemma spec_and {S E T} (A I : S -> Prop) P (m : M S E T) B X :
  spec A P m B X -> keeps I P m -> spec (fun s => A s /\ I s) P m (fun a s => B a s /\ I s) (fun s => X s /\ I s).
Proof.
  intros H1 H2 s [Ha Hi]. destruct (H1 s Ha) as (l & Hl & Hp & Hr), (H2 s Hi) as (l' & _ & _ & Hr'). exists l.
  split_and!; [done|done|]. by destruct (m s) as [s' [a|x]]; split.
Qed.

Section steps.
Context (U : list string) (A : ModelQueuedEvent -> Prop).
Abbreviation publish_failed_ := (publish_failed qconfig config w_os w_left w_now dump_event).

Lemma failed_settles b e :
  spec (held b (Publishing e) (at_hand U A e)) any_io (publish_failed_ e) (fun _ => settles U A e) (settles U A e).
Proof.
  assert (loop_point e (Publishing e)) as Hpt by (right; right; by left).
  unfold publish_failed. eapply spec_bind with (C := fun _ => held b (Publishing e) (at_hand U A e)); [by apply spec_ask|]. intros now.
  eapply spec_bind; [apply spec_on_publisher|]. intros ?. eapply spec_bind; [apply spec_on_publisher|]. intros ?.
  eapply spec_bind with (C := fun _ => held b (Publishing e) (at_hand U A e)); [by apply spec_get|]. intros d0.
  destruct (qe_tier e) eqn:Ht.
  - eapply spec_bind; [apply spec_on_publisher|]. intros ?. destruct (bool_decide _); [apply next_settles|by apply back_off_settles].
  - destruct (_ >=? _)%Z; [eapply spec_bind; [apply spec_on_publisher|]; intros ?; apply next_settles|].
    destruct (bool_decide _); [|by apply back_off_settles].
    eapply spec_bind; [|intros ?; apply next_settles].
    eapply spec_weaken; [by apply (spec_requeue U A b (Publishing e))|done|done|by intros ? d H; exact H|].
    intros d H. by exists b, (Publishing e).
Qed.
Lemma succeeded_safe b e :
  spec (held b (Publishing e) (at_hand U A e)) any_io (publish_succeeded config w_os w_now e)
    (fun _ => safe U (without A e)) (fun _ => False).
Proof.
  unfold publish_succeeded. eapply spec_bind with (C := fun _ => held b (Publishing e) (at_hand U A e)); [by apply spec_ask|]. intros now.
  eapply spec_bind; [apply spec_on_publisher|]. intros ?. eapply spec_bind; [apply spec_on_publisher|]. intros ?.
  eapply spec_bind with (C := fun _ => held b (Publishing e) (ready U (without A e))).
  - eapply spec_weaken; [apply (spec_on_queue b (Publishing e)), (ack_ready U A e)|done|done|done|]. by intros d (_ & _ & []).
  - intros ?. eapply spec_bind; [apply spec_on_publisher|]. intros ?.
    eapply spec_weaken; [apply (spec_next_round b (Publishing e) (ready U (without A e)) (fun _ => False))|done|done| |done].
    intros ? d H. eapply ready_safe; [|exact H]. destruct b; auto.
Qed.
Lemma backoff_settles b e :
  spec (held b (BackingOff e) (at_hand U A e)) any_io (backoff_over qconfig w_os w_left w_now dump_event e)
    (fun _ => settles U A e) (settles U A e).
Proof.
  unfold backoff_over. eapply spec_bind with (C := fun _ => held b (BackingOff e) (at_hand U A e)); [|intros ?; apply next_settles].
  destruct (qe_tier e) eqn:Ht; [apply spec_on_publisher|].
  eapply spec_weaken; [by apply (spec_requeue U A b (BackingOff e))|done|done|by intros ? d H; exact H|].
  intros d H. exists b, (BackingOff e). split; [by right; right; right|done].
Qed.
Lemma begin_safe b e :
  spec (held b Idle (at_hand U A e)) any_io (begin_publish config w_uuid e) (fun _ => safe U A) (safe U A).
Proof.
  assert (forall d, held b Idle (at_hand U A e) d -> safe U A d) as Hi by (intros d; apply held_safe; by left).
  unfold begin_publish. eapply spec_bind with (C := fun _ => held b Idle (at_hand U A e)); [by apply spec_call|]. intros uuid.
  eapply spec_bind with (C := fun _ => held b Idle (at_hand U A e)); [by apply spec_call|]. intros ?.
  eapply spec_weaken; [apply (spec_go_to b Idle (Publishing e) (at_hand U A e) (fun _ => False))|done|done| |done].
  intros ? d H. eapply held_safe; [|exact H]. auto.
Qed.
Lemma served_round b :
  spec (held b Idle (ready U A)) any_io (round config w_os w_now w_uuid load_event) (fun _ => safe U A) (safe U A).
Proof.
  assert (spec (held b Idle (ready U A)) any_io (event ← on_queue (dequeue w_os load_event);
            match event with None => mret () | Some e => begin_publish config w_uuid e end) (fun _ => safe U A) (safe U A)) as Hserve.
  { eapply spec_bind; [eapply spec_weaken; [apply (spec_on_queue b Idle), (dequeue_ready U A)|done|done|intros ? d H; exact H|]|].
    - intros d. apply ready_safe. by left.
    - intros [e|]; [apply begin_safe|]. apply spec_ret. intros d (? & ? & ? & _). by eapply (ready_safe U A b Idle); [left|]. }
  unfold round. eapply spec_bind with (C := fun _ => held b Idle (ready U A)); [by apply spec_get|]. intros d0.
  eapply spec_bind with (C := fun _ => held b Idle (ready U A)); [by apply spec_ask|]. intros now.
  destruct (decide _); [|apply Hserve]. destruct (negb _).
  - apply spec_ret. intros d. apply ready_safe. by left.
  - eapply spec_bind; [apply spec_on_publisher|]. intros ?. apply Hserve.
Qed.
Lemma stop_safe :
  spec (safe U A) any_io (stop_requested qconfig w_os w_left w_now dump_event) (fun _ => safe U A) (safe U A).
Proof.
  unfold stop_requested. eapply spec_bind with (C := fun _ d => safe U A d /\ d_running d = false).
  - apply spec_modify. intros d ([D1 D2 D3 D4 D5] & Hs & Hp). split; [|done]. split_and!; [by split| |done].
    destruct Hs as [S|[_ Hp']]; [by left|by right].
  - intros ?. eapply spec_bind with (C := fun d0 d => d = d0 /\ safe U A d /\ d_running d = false); [by apply spec_get|]. intros d0.
    assert (forall d pt, d = d0 -> d_point d0 = pt -> pt <> Stopped -> safe U A d -> ready U A (d_queue d)) as Hready.
    { intros d pt -> Hpt Hne (D & [S|[_ Hst]] & _); [by split|congruence]. }
    destruct (d_point d0) as [|e|e|] eqn:Hpt.
    + eapply spec_weaken; [apply (spec_go_to false Idle Stopped (ready U A) (safe U A))|..]; try done.
      * intros d (-> & H & Hr). split_and!; [done|done|]. by apply (Hready d0 Idle).
      * intros ? d. apply ready_safe. by right.
    + apply spec_ret. by intros d (-> & H & _).
    + eapply spec_weaken; [apply (back_off_settles U A false (BackingOff e) e); by right; right; right|..]; try done.
      * intros d (-> & H & Hr). split_and!; [done|done|]. split; [by apply (Hready d0 (BackingOff e))|]. destruct H as (_ & _ & H). by rewrite Hpt in H.
      * intros ? d. apply settles_safe.
      * intros d. apply settles_safe.
    + apply spec_ret. by intros d (-> & H & _).
Qed.
Lemma restart_safe :
  spec (safe U A) any_io (restart w_os load_event) (fun _ => safe U A) (fun _ => False).
Proof.
  unfold restart. eapply spec_bind with (C := fun _ => held true Idle (asleep U A)).
  - apply spec_modify. intros d ([D1 D2 D3 D4 D5] & _ & _). split_and!; [done|done|]. split_and!; [|done|done].
    split; simpl; first [done|by constructor|by left].
  - intros ?. eapply spec_bind with (C := fun r d => match r with
        | Ok _ => held true Idle (ready U A) d | Raise _ => durable U A (d_queue d) end).
    + apply (spec_attempt _ _ _ _ (fun d => durable U A (d_queue d))); [|done].
      eapply spec_bind with (C := fun _ => held true Idle (asleep U A)).
      * eapply spec_weaken; [apply (spec_on_queue true Idle), (part_spec (asleep U A))|done|done|by intros ? d H; exact H|].
        -- intros q q' E (D & Hf & Hp). pose proof (durable_part _ _ _ _ E D). injection E as E1 _ E2 _.
           split_and!; [done|by rewrite <- E2|by rewrite <- E1].
        -- intros o. apply load_spool_part.
        -- by intros d (_ & _ & D & _).
      * intros ?. eapply spec_weaken; [apply (spec_on_queue true Idle), (load_ready U A)|done|done|by intros ? d H; exact H|].
        by intros d (_ & _ & D).
    + intros [n|x]; [apply spec_ret; intros d; apply ready_safe; by left|].
      apply spec_modify. intros d D. split_and!; [done|by right|done].
Qed.
End steps.

(** *** One step, and a run *)

Abbreviation step_ := (daemon_step qconfig config w_os w_left w_now w_uuid dump_event load_event).
Abbreviation run_ := (daemon_run qconfig config w_os w_left w_now w_uuid dump_event load_event).
(** The ids of the duty-critical events offered. *)
Definition offered (i : DaemonInput) : list string :=
  match i with Offer e => if decide (qe_tier e = DUTY_CRITICAL) then [qe_event_id e] else [] | _ => [] end.
(** The events accepted and not yet delivered. *)
Definition told (answer : DaemonAnswer) (A : ModelQueuedEvent -> Prop) : ModelQueuedEvent -> Prop :=
  match answer with
  | Accepted e => fun e' => (e' = e /\ qe_tier e = DUTY_CRITICAL) \/ A e'
  | Delivered e => without A e
  | Refused _ | Silent => A
  end.
Lemma safe_grow U A i d : safe U A d -> safe (i :: U) A d.
Proof. intros (D & S & F). split_and!; [by apply durable_grow|done|done]. Qed.
Lemma safe_sub U (A A' : ModelQueuedEvent -> Prop) d : (forall e, A' e -> A e) -> safe U A d -> safe U A' d.
Proof.
  intros H ([D1 D2 D3 D4 D5] & S & F). split_and!; [split; auto| |done]. destruct S as [S|S]; [|by right]. left. intros e He. auto.
Qed.
(** The daemon while it serves. *)
Lemma safe_held U A d : safe U A d -> d_point d <> Stopped \/ d_running d = true -> held (d_running d) (d_point d) (ready U A) d.
Proof. intros (D & [S|[H1 H2]] & _) H; [by split_and!; [..|split]|]. destruct H; congruence. Qed.
Lemma safe_hand U A d e :
  safe U A d -> d_point d = Publishing e \/ d_point d = BackingOff e -> held (d_running d) (d_point d) (at_hand U A e) d.
Proof.
  intros H Hpt. destruct (safe_held U A d H) as (_ & _ & R); [left; by destruct Hpt as [->| ->]|].
  split_and!; [done|done|]. split; [done|]. destruct H as (_ & _ & F). by destruct Hpt as [E|E]; rewrite E in F.
Qed.
Lemma append_flight fl e : keeps (fun q => q_in_flight q = fl) any_io (outbox_append qconfig w_os w_left w_now dump_event e).
Proof.
  unfold outbox_append, write_file, os_call, push_pending.
  repeat first [ apply keeps_modify; intros q Hq; exact Hq | apply keeps_call; exact I | keeps_step ].
Qed.
Lemma offer_safe U A e :
  (qe_tier e = DUTY_CRITICAL -> qe_event_id e ∉ U) ->
  spec (fun d => safe U A d /\ d_running d = true) any_io (step_ (Offer e))
    (fun answer => safe (offered (Offer e) ++ U) (told answer A)) (safe (offered (Offer e) ++ U) A).
Proof.
  intros He. unfold daemon_step, offered.
  eapply spec_bind with (C := fun d0 d => d_running d0 = true /\ safe U A d /\ d_running d = true); [apply spec_get; tauto|].
  intros d0. destruct (d_running d0); [|by intros s [Hr _]; discriminate Hr].
  destruct (qe_tier e) eqn:Ht; case_decide; try done.
  - simpl. set (U' := qe_event_id e :: U). set (A' := fun e' => e' = e \/ A e').
    eapply spec_bind with (C := fun r => safe U' (match r with Ok true => A' | _ => A end)).
    + apply (spec_attempt _ _ _ _ (safe U' A)); [|done]. intros s (_ & Hs & Hr).
      destruct (safe_held U A s.1 Hs ltac:(by right)) as (_ & _ & R).
      destruct (spec_on_queue (d_running s.1) (d_point s.1)
        (fun q => ready U A q /\ q_in_flight q = q_in_flight (d_queue s.1)) (enqueue qconfig w_os w_left w_now dump_event e)
        (fun ok q => ok = true /\ ready U' A' q /\ q_in_flight q = q_in_flight (d_queue s.1))
        (fun q => ready U' A q /\ q_in_flight q = q_in_flight (d_queue s.1))) with (s := s) as (l & Hl & Hp & Hpost).
      * unfold enqueue. rewrite Ht. eapply spec_bind; [apply spec_and; [apply append_ready; by apply He|apply append_flight]|].
        intros ?. apply spec_ret. tauto.
      * by split_and!.
      * exists l. split_and!; [done|done|]. assert (forall d B, held (d_running s.1) (d_point s.1)
            (fun q => ready U' B q /\ q_in_flight q = q_in_flight (d_queue s.1)) d -> safe U' B d) as Hsafe.
        { intros d B (_ & Hpt & [D S] & Hf). split_and!; [done|by left|]. rewrite Hpt. destruct Hs as (_ & _ & F).
          unfold flying in *. rewrite Hf. by destruct (d_point s.1). }
        unfold enqueue_. destruct (on_queue _ s) as [s' [ok|x]]; simpl in *; [|by apply Hsafe].
        destruct Hpost as (H1 & H2 & -> & H3). by apply Hsafe.
    + intros r. apply spec_ret. intros d Hd. destruct r as [[|]|x]; try done. simpl. eapply safe_sub; [|exact Hd].
      intros e' [[-> _]|?]; [by left|by right].
  - simpl. eapply spec_bind with (C := fun _ => safe U A).
    + apply (spec_attempt _ _ _ _ (safe U A)); [|done]. intros s (_ & Hs & Hr).
      destruct (safe_held U A s.1 Hs ltac:(by right)) as (_ & _ & R).
      destruct (spec_on_queue (d_running s.1) (d_point s.1)
        (fun q => ready U A q /\ outbox_part q = outbox_part (d_queue s.1)) (enqueue qconfig w_os w_left w_now dump_event e)
        (fun ok q => ready U A q /\ outbox_part q = outbox_part (d_queue s.1))
        (fun q => ready U A q /\ outbox_part q = outbox_part (d_queue s.1))) with (s := s) as (l & Hl & Hp & Hpost).
      * apply (part_spec (fun q => ready U A q /\ outbox_part q = outbox_part (d_queue s.1))); [|intros o; by apply telemetry_kept].
        intros q q' E [Hq Eq]. split; [by eapply ready_part|congruence].
      * by split_and!.
      * exists l. split_and!; [done|done|]. assert (forall d, held (d_running s.1) (d_point s.1)
            (fun q => ready U A q /\ outbox_part q = outbox_part (d_queue s.1)) d -> safe U A d) as Hsafe.
        { intros d (_ & Hpt & [D S] & Hf). split_and!; [done|by left|]. rewrite Hpt. destruct Hs as (_ & _ & F).
          unfold flying in *. injection Hf as _ _ Hf _. rewrite Hf. by destruct (d_point s.1). }
        unfold enqueue_. destruct (on_queue _ s) as [s' [ok|x]]; simpl in *; by apply Hsafe.
    + intros r. apply spec_ret. intros d Hd. destruct r as [[|]|x]; try done. simpl. eapply safe_sub; [|exact Hd].
      intros e' [[-> H1]|?]; [congruence|done].
Qed.
(** An operation on the rest of the queue. *)
Lemma spec_on_rest {T} U A (m : M QueueState EmitIo T) :
  (forall o, keeps_part o m) -> spec (safe U A) any_io (on_queue m) (fun _ => safe U A) (safe U A).
Proof.
  intros Hm [d log] (D & S & F). simpl in *. destruct (Hm (outbox_part (d_queue d)) (d_queue d, log) eq_refl) as (l & Hl & Hp & Hr).
  exists l. unfold on_queue. simpl. destruct (m (d_queue d, log)) as [[q log'] r]. simpl in *.
  assert (outbox_part q = outbox_part (d_queue d)) as E by by destruct r.
  assert (safe U A (d <| d_queue := q |>)) as H.
  { split_and!; simpl; [by eapply durable_part|destruct S; [left; by eapply served_part|by right]|].
    unfold flying in *. injection E as _ _ E _. rewrite E. by destruct (d_point d). }
  split_and!; [done|done|]. by destruct r.
Qed.
Lemma step_safe U A i :
  Forall (fun k => k ∉ U) (offered i) ->
  spec (safe U A) any_io (step_ i) (fun answer => safe (offered i ++ U) (told answer A)) (safe (offered i ++ U) A).
Proof.
  intros Hi. assert (forall d, safe U A d -> safe (offered i ++ U) A d) as Hgrow.
  { intros d H. unfold offered. destruct i; try done. case_decide; [by apply safe_grow|done]. }
  assert (forall (C : DaemonState -> Prop), (forall d, C d -> safe U A d) ->
    spec C any_io (mret Silent) (fun answer => safe (offered i ++ U) (told answer A)) (safe (offered i ++ U) A)) as Hsilent.
  { intros C HC. apply spec_ret. auto. }
  assert (forall (C : DaemonState -> Prop) (m : M DaemonState EmitIo unit), offered i = [] ->
    spec C any_io m (fun _ => safe U A) (safe U A) ->
    spec C any_io (_ ← m; mret Silent) (fun answer => safe (offered i ++ U) (told answer A)) (safe (offered i ++ U) A)) as Hquiet.
  { intros C m Ho Hm. rewrite Ho. simpl. eapply spec_bind; [exact Hm|]. intros ?. by apply spec_ret. }
  assert (forall d0 d, d = d0 /\ safe U A d -> d_point d0 <> Stopped -> held (d_running d0) (d_point d0) (ready U A) d) as Hheld.
  { intros d0 d [-> H] Hp. apply safe_held; auto. }
  assert (forall d0 d e, d = d0 /\ safe U A d -> d_point d0 = Publishing e \/ d_point d0 = BackingOff e ->
    held (d_running d0) (d_point d0) (at_hand U A e) d) as Hhand.
  { intros d0 d e [-> H] Hp. by apply safe_hand. }
  destruct i as [e| |ok| | | | |].
  { intros s Hs. destruct (d_running s.1) eqn:Hr.
    - apply (offer_safe U A e); [|done]. intros Ht. simpl in Hi. rewrite decide_True in Hi by done. by apply Forall_cons in Hi as [Hi _].
    - exists []. unfold daemon_step. rewrite run_bind, run_get, Hr. simpl. rewrite app_nil_r. split_and!; [done|constructor|]. by apply Hgrow. }
  all: unfold daemon_step; eapply spec_bind with (C := fun d0 d => d = d0 /\ safe U A d); [by apply spec_get|]; intros d0.
  all: destruct (d_point d0) as [|e|e|] eqn:Hpt; try (by apply Hsilent; intros d [_ ?]).
  all: try (destruct ok; try (by apply Hsilent; intros d [_ ?])).
  all: try (apply Hquiet; [done|]; eapply spec_weaken; [apply (stop_safe U A)|..]; first [done|by intros d [_ ?]]).
  all: try (apply Hquiet; [done|]; eapply spec_weaken; [apply (restart_safe U A)|..]; first [done|by intros d [_ ?]]).
  all: try (destruct (d_running d0) eqn:Hr; [by apply Hsilent; intros d [_ ?]|]; apply Hquiet; [done|]; apply spec_modify;
    intros d [-> (D & S & _)]; split_and!; [done|by destruct S as [S|[_ S]]; [left|right]|done]).
  - destruct (d_running d0) eqn:Hr; [|by apply Hsilent; intros d [_ ?]]. apply Hquiet; [done|].
    eapply spec_weaken; [apply (served_round U A (d_running d0))|..]; try done. intros d H. rewrite <- Hpt. apply Hheld; [done|by rewrite Hpt].
  - simpl. eapply spec_bind with (C := fun _ => safe U (without A e)); [|intros ?; by apply spec_ret].
    eapply spec_weaken; [apply (succeeded_safe U A (d_running d0) e)|..]; try done. intros d H. rewrite <- Hpt. apply Hhand; auto.
  - apply Hquiet; [done|]. eapply spec_weaken; [apply (failed_settles U A (d_running d0) e)|..]; try done.
    + intros d H. rewrite <- Hpt. apply Hhand; auto.
    + intros ? d. apply settles_safe.
    + intros d. apply settles_safe.
  - apply Hquiet; [done|]. eapply spec_weaken; [apply (backoff_settles U A (d_running d0) e)|..]; try done.
    + intros d H. rewrite <- Hpt. apply Hhand; auto.
    + intros ? d. apply settles_safe.
    + intros d. apply settles_safe.
  - simpl. eapply spec_bind with (C := fun _ => safe U A); [|intros ?; by apply spec_ret].
    eapply spec_weaken; [apply (spec_on_rest U A), drain_part|by intros d [_ ?]|done|done|done].
Qed.

(** A run: the ids offered are new, each event is accounted for. *)
Lemma run_safe U A inputs answers0 s :
  NoDup (concat (map offered inputs)) -> (forall k, k ∈ concat (map offered inputs) -> k ∉ U) -> safe U A s.1 ->
  exists U' A' answers s', fold_each inputs answers0 (fun answers input =>
      r ← attempt (step_ input); mret (answers ++ [match r with Ok answer => answer | Raise _ => Silent end])) s
      = (s', Ok (answers0 ++ answers))
    /\ safe U' A' s'.1
    /\ forall e, qe_tier e = DUTY_CRITICAL -> A e \/ Accepted e ∈ answers -> A' e \/ Delivered e ∈ answers.
Proof.
  revert U A answers0 s. induction inputs as [|i inputs IH]; intros U A answers0 s Hnd Hnew Hs.
  { exists U, A, [], s. rewrite app_nil_r. split_and!; [done|done|]. intros e _ [?|?%elem_of_nil]; [by left|done]. }
  simpl in Hnd, Hnew. apply NoDup_app in Hnd as (Hi & Hdis & Hnd).
  assert (Forall (fun k => k ∉ U) (offered i)) as Hfresh by (apply Forall_forall; intros k Hk; apply Hnew, elem_of_app; by left).
  destruct (step_safe U A i Hfresh s Hs) as (l & Hl & _ & Hpost). simpl. rewrite !run_bind, run_attempt. simpl.
  set (answer := match (step_ i s).2 with Ok answer => answer | Raise _ => Silent end).
  destruct (IH (offered i ++ U) (told answer A) (answers0 ++ [answer]) (step_ i s).1) as (U' & A' & answers & s' & E & HA & Hacc).
  - done.
  - intros k Hk. rewrite elem_of_app. intros [Hin|Hin]; [by apply (Hdis k Hin)|]. apply (Hnew k); [|done]. apply elem_of_app. by right.
  - unfold answer. by destruct (step_ i s) as [s1 [a|x]].
  - exists U', A', (answer :: answers), s'. rewrite E, <- app_assoc. split_and!; [done|done|].
    intros e He Hor. rewrite elem_of_cons in Hor |- *.
    assert (told answer A e \/ Delivered e = answer \/ Accepted e ∈ answers) as [H|[H|H]].
    { destruct answer as [e'|e'|e'|]; simpl in *; destruct Hor as [Ha|[Ha|Ha]]; try done; auto.
      - injection Ha as ->. auto.
      - destruct (decide (e = e')) as [->|Hd]; [auto|]. left. by split. }
    all: try (destruct (Hacc e He) as [?|?]; by auto). by right; left.
Qed.

(** C12. A duty-critical event a client was told is queued is never lost while the
    outbox can be read. If reading a file of the outbox never fails, a written event
    reads back as it and the offered events have distinct ids, then through any
    interleaving of clients and publisher, failed publishes, failing writes, stats,
    unlinks, directory makings and renames, shutdowns, drains and restarts of the
    process, the event was delivered, or it lies in the outbox, in a file that reads
    back as it, and the daemon still has it among the pending ones unless its process
    ended at start for want of a readable directory. *)
Theorem duty_critical_never_lost inputs spool (Hnew : NoDup (concat (map offered inputs))) :
  exists d log answers, run_ inputs (fresh_daemon spool ∅, []) = ((d, log), Ok answers)
    /\ forall e, qe_tier e = DUTY_CRITICAL -> Accepted e ∈ answers ->
         Delivered e ∈ answers
         \/ (stored (q_outbox_disk (d_queue d)) e
             /\ (e ∈ map ob_event (q_pending (d_queue d)) \/ (d_running d = false /\ d_point d = Stopped))).
Proof.
  destruct (run_safe [] (fun _ => False) inputs [] (fresh_daemon spool ∅, [])) as (U' & A' & answers & [d log] & E & (D & S & _) & H).
  - done.
  - by intros k _ ?%elem_of_nil.
  - split_and!; [|left; by intros e []|done]. split; simpl; [by intros n c [=]|by apply Forall_nil|by apply NoDup_nil|by left|done].
  - exists d, log, answers. split; [exact E|]. intros e He Ha. destruct (H e He) as [HA|?]; [by right| |by left].
    right. split; [by apply (du_stored _ _ _ D)|]. destruct S as [S|S]; [left; by apply S|by right].
Qed.
End durable.

Definition witness_event : ModelQueuedEvent :=
  {| qe_event_id := "e1"; qe_event_type := "dod.verified"; qe_topic := "onex.evt.x.v1"; qe_payload := JObj [("a", JInt 1)];
     qe_partition_key := None; qe_queued_at := 0%Z; qe_tier := DUTY_CRITICAL |}.
Definition witness_dump (e : ModelQueuedEvent) : result string :=
  if decide (e = witness_event) then Ok "{}" else Raise (ValueError "other").
Definition witness_load (c : string) : result ModelQueuedEvent :=
  if String.eqb c "{}" then Ok witness_event else Raise (ValueError "other").
Lemma witness_codec e c : witness_dump e = Ok c -> witness_load c = Ok e.
Proof. unfold witness_dump. case_decide as H; intros [= <-]. by rewrite H. Qed.
Definition witness_queue : QueueConfig :=
  {| qc_max_memory_queue := 1; qc_max_spool_messages := 2; qc_max_spool_bytes := 100; qc_max_outbox_messages := 2;
     qc_max_outbox_bytes := 100 |}.
Definition witness_publisher : PublisherConfig :=
  {| pc_max_retry_attempts := 3; pc_source := "omnimarket"; pc_failure_threshold := 1; pc_recovery_timeout := float_of_Z 30;
     pc_half_open_max_probes := 1 |}.
(** Files cannot be removed; the publish fails, the process is stopped and started. *)
Definition witness_os (l : list EmitIo) (e : EmitIo) : bool := match e with UnlinkFile _ _ => false | _ => true end.
Definition witness_inputs : list DaemonInput :=
  [Offer witness_event; Round; PublishReturns false; Round; StopRequested; DrainToSpool; Restart].
Abbreviation witness_run := (daemon_run witness_queue witness_publisher witness_os (fun _ => None) (fun _ => 0%Z)
  (fun _ => "u") witness_dump witness_load witness_inputs (fresh_daemon ∅ ∅, [])).
Definition witness_answers : list DaemonAnswer := [Accepted witness_event; Silent; Silent; Silent; Silent; Silent; Silent].
Example witness_run_answers : snd witness_run = Ok witness_answers.
Proof. vm_compute. reflexivity. Qed.
(** Without the first hypothesis it may be: a file that cannot be read when a process
    starts is put aside, and its event is neither delivered nor pending. *)
Remark failed_read_puts_aside :
  let r := daemon_run witness_queue witness_publisher (fun _ e => match e with ReadFile _ _ => false | _ => true end)
    (fun _ => None) (fun _ => 0%Z) (fun _ => "u") witness_dump witness_load [Offer witness_event; Restart] (fresh_daemon ∅ ∅, []) in
  r.2 = Ok [Accepted witness_event; Silent] /\ map_to_list (q_outbox_disk (d_queue r.1.1)) = [] /\ q_pending (d_queue r.1.1) = [].
Proof. vm_compute. by split_and!. Qed.
Lemma duty_critical_never_lost_witness :
  exists d log answers, witness_run = ((d, log), Ok answers) /\ Accepted witness_event ∈ answers
    /\ (Delivered witness_event ∈ answers \/ stored witness_load (q_outbox_disk (d_queue d)) witness_event).
Proof.
  destruct (duty_critical_never_lost witness_queue witness_publisher witness_os (fun _ => None) (fun _ => 0%Z) (fun _ => "u")
    witness_dump witness_load witness_codec (fun _ _ => eq_refl) witness_inputs ∅) as (d & log & answers & E & H).
  - apply NoDup_singleton.
  - assert (Accepted witness_event ∈ answers) as Ha.
    { pose proof (f_equal snd E) as Er. rewrite witness_run_answers in Er. injection Er as <-. constructor. }
    exists d, log, answers. split; [exact E|]. split; [exact Ha|].
    destruct (H witness_event eq_refl Ha) as [Hd|[Hs _]]; [by left|by right].
Defined.
