(* ===== verification/EmitBounds.v ===== *)
(** * Emit daemon: bounds, the breaker, the answers

    The queues stay within their configured sizes; the publisher publishes only
    when its breaker lets it; an emit request answered as queued has every
    duty-critical event of its fan-out in the outbox, and stripped payloads carry no
    prompt. *)
From S2P Require Import Prelude PyFloat PyJson PyHash PyDyn LogMonad LocalDispatch EmitQueue EmitPublisher EmitServer.

Definition any_call (e : EmitIo) : Prop := True.
Definition publishes (e : EmitIo) : bool := match e with PublishCall _ _ _ _ => true | _ => false end.
Definition no_publish (e : EmitIo) : Prop := publishes e = false.

(** ** The queues *)

Definition sizes (l : list OutboxRecord) : Z := foldr (fun r n => (ob_size_bytes r + n)%Z) 0%Z l.
Lemma sizes_app l k : sizes (l ++ k) = (sizes l + sizes k)%Z.
Proof. induction l as [|r l IH]; simpl; [done|]. rewrite IH. lia. Qed.
Lemma sizes_nonneg l : Forall (fun r => 0 <= ob_size_bytes r)%Z l -> (0 <= sizes l)%Z.
Proof. induction 1; simpl; lia. Qed.
Lemma byte_len_nonneg s : (0 <= byte_len s)%Z.
Proof. unfold byte_len. lia. Qed.
Lemma remove_record_sizes r l l' :
  remove_record r l = Some l' -> Forall (fun r => 0 <= ob_size_bytes r)%Z l ->
  sizes l = (ob_size_bytes r + sizes l')%Z /\ length l = S (length l') /\ (0 <= ob_size_bytes r)%Z
  /\ Forall (fun r => 0 <= ob_size_bytes r)%Z l'.
Proof.
  revert l'. induction l as [|x l IH]; intros l'; simpl; [done|]. intros H [Hx Hl]%Forall_cons.
  destruct (record_eqb x r) eqn:E.
  - injection H as <-. unfold record_eqb in E. apply andb_prop in E as [_ E%Z.eqb_eq]. rewrite E in *. by split_and!.
  - destruct (remove_record r l) as [l''|]; [|done]. injection H as <-. destruct (IH l'' eq_refl Hl) as (Hs & Hn & Hr & Hf).
    simpl. rewrite Hs, Hn. split_and!; [lia|done|done|by apply Forall_cons].
Qed.

Section bounds.
Context (qconfig : QueueConfig) (config : PublisherConfig).
Context (w_os : list EmitIo -> EmitIo -> bool) (w_left : list EmitIo -> option string).
Context (w_now : list EmitIo -> datetime) (w_uuid : list EmitIo -> string).
Context (dump_event : ModelQueuedEvent -> result string) (load_event : string -> result ModelQueuedEvent).

Context (spool_size : (0 <= qc_max_spool_messages qconfig)%Z).
Abbreviation step_ := (daemon_step qconfig config w_os w_left w_now w_uuid dump_event load_event).
Abbreviation run_ := (daemon_run qconfig config w_os w_left w_now w_uuid dump_event load_event).

Section loaded.
Context (files0 records0 : nat) (bytes0 : Z).

(** Each queue is within its limit, or not above what a start loaded, and the outbox
    knows its size. *)
Record bounded (q : QueueState) : Prop := {
  bo_memory : (Z.of_nat (length (q_memory_queue q)) <= Z.max 0 (qc_max_memory_queue qconfig))%Z;
  bo_spool : (Z.of_nat (length (q_spool_files q)) <= Z.max (Z.of_nat files0) (qc_max_spool_messages qconfig))%Z;
  bo_sizes : Forall (fun r => 0 <= ob_size_bytes r)%Z (q_pending q);
  bo_bytes : q_pending_bytes q = sizes (q_pending q);
  bo_pending : (Z.of_nat (length (q_pending q)) <= Z.max (Z.of_nat records0) (qc_max_outbox_messages qconfig))%Z;
  bo_outbox : (q_pending_bytes q <= Z.max bytes0 (qc_max_outbox_bytes qconfig))%Z
}.
(** What the bounds are about. *)
Definition measured (q : QueueState) : nat * nat * list OutboxRecord * Z :=
  (length (q_memory_queue q), length (q_spool_files q), q_pending q, q_pending_bytes q).
Lemma bounded_measured q q' : measured q = measured q' -> bounded q -> bounded q'.
Proof. intros [= H1 H2 H3 H4] [B1 B2 B3 B4 B5 B6]. by split; rewrite <- ?H1, <- ?H2, <- ?H3, <- ?H4. Qed.
(** Operations on the files leave the measured part alone. *)
Abbreviation keeps_meas I m := (keeps (fun q => I (measured q)) no_publish m).
Lemma keeps_meas_modify (I : nat * nat * list OutboxRecord * Z -> Prop) f :
  (forall q, measured (f q) = measured q) -> keeps_meas I (modify f).
Proof. intros H. apply keeps_modify. intros q. by rewrite H. Qed.
Ltac meas_step :=
  first [ apply keeps_meas_modify; intros ?; reflexivity | apply keeps_call; reflexivity | keeps_step ].
Ltac meas_auto := repeat meas_step.
Lemma quietly_meas I m : keeps_meas I m -> keeps_meas I (quietly m).
Proof. intros H. unfold quietly. apply keeps_bind; [by apply keeps_attempt|]. intros ?. apply keeps_ret. Qed.
#[local] Hint Resolve quietly_meas : onex.
Lemma make_dir_meas I p : keeps_meas I (make_dir w_os p).
Proof. unfold make_dir, os_call. meas_auto. Qed.
Lemma on_disk_meas p f q : measured (on_disk p f q) = measured q.
Proof. by destruct p. Qed.
Lemma keeps_on_disk I p f : keeps_meas I (modify (on_disk p f)).
Proof. apply keeps_meas_modify. intros q. apply on_disk_meas. Qed.
#[local] Hint Resolve keeps_on_disk : onex.
Lemma write_meas I p n c : keeps_meas I (write_file w_os w_left p n c).
Proof. unfold write_file, os_call. meas_auto. Qed.
Lemma read_meas I p n : keeps_meas I (read_file w_os p n).
Proof. unfold read_file, os_call. meas_auto. Qed.
Lemma size_meas I p n : keeps_meas I (file_size w_os p n).
Proof. unfold file_size, os_call. meas_auto. Qed.
Lemma unlink_meas I p n : keeps_meas I (unlink_file w_os p n).
Proof. unfold unlink_file, os_call. meas_auto. Qed.
#[local] Hint Resolve make_dir_meas write_meas read_meas size_meas unlink_meas : onex.

Lemma meas_bounded {T} (m : M QueueState EmitIo T) : (forall I, keeps_meas I m) -> keeps bounded no_publish m.
Proof.
  intros H s Hs. destruct (H (fun x => x = measured s.1) s eq_refl) as (l & Hl & Hp & Hr). exists l. split_and!; [done|done|].
  destruct (m s) as [s' [a|x]]; simpl in *; by eapply bounded_measured; [|exact Hs].
Qed.

(** *** The outbox *)

Lemma append_bounded e : keeps bounded no_publish (outbox_append qconfig w_os w_left w_now dump_event e).
Proof.
  unfold outbox_append. apply keeps_bind; [apply keeps_lift|]. intros c.
  eapply spec_bind with (C := fun q0 q => measured q = measured q0 /\ bounded q); [by apply spec_get|]. intros q0.
  destruct (outbox_full qconfig q0 e (byte_len c)) as [msg|] eqn:E; [apply spec_raise; tauto|].
  eapply spec_bind with (C := fun _ q => measured q = measured q0 /\ bounded q); [by apply spec_ask|]. intros now.
  eapply spec_bind with (C := fun _ q => measured q = measured q0 /\ bounded q).
  - eapply spec_weaken; [apply (write_meas (fun x => x = measured q0 /\ bounded q0))|..].
    + intros q [H Hb]. split; [done|]. by eapply bounded_measured.
    + done.
    + intros ? q [H Hb]. split; [done|]. by eapply bounded_measured.
    + intros q [H Hb]. by eapply bounded_measured.
  - intros ?. eapply spec_bind with (C := fun _ => bounded); [|intros ?; by apply spec_ret].
    apply spec_modify. intros q [[= H1 H2 H3 H4] [B1 B2 B3 B4 B5 B6]]. unfold outbox_full in E. rewrite <- H3, <- H4 in E.
    pose proof (byte_len_nonneg c). destruct (_ >? _)%Z eqn:E1 in E; [done|]. destruct (_ >=? _)%Z eqn:E2 in E; [done|].
    destruct (_ >? _)%Z eqn:E3 in E; [done|]. split; simpl; try done.
    + apply Forall_app. split; [done|]. by repeat constructor.
    + rewrite sizes_app, B4. simpl. lia.
    + rewrite length_app. simpl. lia.
    + lia.
Qed.
Lemma ack_bounded e : keeps bounded no_publish (ack w_os e).
Proof.
  unfold ack. eapply spec_bind with (C := fun _ => bounded); [by apply spec_get|]. intros q0. destruct (dict_get _ _) as [r|]; [|by apply spec_ret].
  eapply spec_bind with (C := fun _ => bounded).
  { apply spec_modify. intros q H. by eapply bounded_measured; [|exact H]. }
  intros ?. unfold outbox_ack. eapply spec_bind with (C := fun q0 q => q = q0 /\ bounded q); [by apply spec_get|]. intros q1.
  destruct (remove_record r (q_pending q1)) as [pending|] eqn:E; [|apply spec_ret; tauto].
  eapply spec_bind with (C := fun _ => bounded).
  - apply spec_modify. intros q [-> [B1 B2 B3 B4 B5 B6]]. destruct (remove_record_sizes _ _ _ E B3) as (Hs & Hl & Hz & Hf).
    pose proof (sizes_nonneg _ Hf). pose proof (sizes_nonneg _ B3). split; simpl; [done|done|done|lia..].
  - intros ?. apply meas_bounded. intros I. apply quietly_meas, unlink_meas.
Qed.

(** *** The spool *)

(** At most [n] files are left. *)
Definition at_most (n : nat) (q : QueueState) : Prop := bounded q /\ length (q_spool_files q) <= n.
Lemma drop_at_most n : spec (at_most (S n)) no_publish (_drop_oldest_spool w_os) (fun _ => at_most n) (at_most n).
Proof.
  unfold _drop_oldest_spool. eapply spec_bind with (C := fun q0 q => q = q0 /\ at_most (S n) q); [by apply spec_get|]. intros q0.
  destruct (q_spool_files q0) as [|f files] eqn:E.
  - apply spec_ret. intros q (-> & B & _). split; [done|]. rewrite E. simpl. lia.
  - eapply spec_bind with (C := fun _ => at_most n).
    + apply spec_modify. intros q (-> & [B1 B2 B3 B4 B5 B6] & Hn). rewrite E in B2, Hn. simpl in *. split; [split; simpl; try done; lia|simpl; lia].
    + intros ?. set (I := fun x => forall q, measured q = x -> at_most n q). assert (keeps_meas I
        (quietly (size ← file_size w_os Spool f; _ ← unlink_file w_os Spool f; modify (less_spool size)))) as Hq.
      { apply quietly_meas. apply keeps_bind; [apply size_meas|]. intros k. apply keeps_bind; [apply unlink_meas|]. intros ?. meas_auto. }
      eapply spec_weaken; [exact Hq|..]; [|done|by intros ? q H; apply (H q)|by intros q H; apply (H q)].
      intros q [B Hn] q' Hm. split; [by eapply bounded_measured; [symmetry|]|]. injection Hm as _ Hm _ _. by rewrite Hm.
Qed.
Definition roomy (event_bytes : Z) (q : QueueState) : Prop :=
  bounded q /\ (spool_tight qconfig q event_bytes = false \/ q_spool_files q = []).
Lemma make_room_roomy n fuel :
  spec (at_most fuel) no_publish (make_room qconfig w_os fuel n) (fun _ => roomy n) bounded.
Proof.
  induction fuel as [|fuel IH]; simpl.
  - eapply spec_bind with (C := fun _ => at_most 0); [by apply spec_get|]. intros ?. apply spec_ret. intros q [B Hn].
    split; [done|]. right. destruct (q_spool_files q); [done|simpl in Hn; lia].
  - eapply spec_bind with (C := fun q0 q => q = q0 /\ at_most (S fuel) q); [by apply spec_get|]. intros q0.
    destruct (spool_tight qconfig q0 n) eqn:E; simpl; [destruct (q_spool_files q0) as [|f files] eqn:Ef; simpl|].
    + apply spec_ret. intros q (-> & B & _). split; [done|by right].
    + eapply spec_bind; [|intros ?; exact IH]. eapply spec_weaken; [apply (drop_at_most fuel)|..]; try done; [tauto|by intros q [B _]].
    + apply spec_ret. intros q (-> & B & _). split; [done|by left].
Qed.
Lemma spool_bounded e : keeps bounded no_publish (_spool_event qconfig w_os w_left w_now dump_event e).
Proof.
  unfold _spool_event. destruct (spool_disabled qconfig) eqn:Ed; [apply keeps_ret|]. destruct (dump_event e) as [c|]; [|apply keeps_ret].
  eapply spec_bind with (C := fun q0 => at_most (length (q_spool_files q0))); [by apply spec_get|]. intros q0.
  eapply spec_bind; [apply make_room_roomy|]. intros ?. destruct (_ >? _)%Z; [by apply spec_ret; intros q [B _]|].
  eapply spec_bind with (C := fun _ => roomy (byte_len c)); [by apply spec_ask|]. intros now.
  eapply spec_bind with (C := fun _ => bounded); [|intros ?; by apply spec_ret].
  apply (spec_attempt _ _ _ _ bounded); [|done].
  assert (forall (m : M QueueState EmitIo unit), (forall I, keeps_meas I m) ->
    spec (fun q => bounded q /\ Z.of_nat (length (q_spool_files q)) < qc_max_spool_messages qconfig)%Z no_publish m
      (fun _ q => bounded q /\ Z.of_nat (length (q_spool_files q)) < qc_max_spool_messages qconfig)%Z bounded) as Hm.
  { intros m H. eapply spec_weaken; [apply (H (fun x => exists q : QueueState, measured q = x /\ bounded q /\
        Z.of_nat (length (q_spool_files q)) < qc_max_spool_messages qconfig)%Z)|..]; try done.
    - intros q Hq. by exists q.
    - intros ? q' (q & E & B & Hl). split; [by eapply bounded_measured|]. injection E as _ E _ _. by rewrite <- E.
    - intros q' (q & E & B & Hl). by eapply bounded_measured. }
  eapply spec_bind with (C := fun _ q => bounded q /\ (Z.of_nat (length (q_spool_files q)) < qc_max_spool_messages qconfig)%Z).
  - eapply spec_weaken; [apply Hm; intros I; apply make_dir_meas|..]; try done.
    intros q [B H]. split; [done|]. unfold spool_disabled, spool_tight in *. apply orb_false_iff in Ed as [Ed _].
    destruct H as [H| ->]; [|simpl; lia]. apply orb_false_iff in H as [H _]. lia.
  - intros ?. eapply spec_bind; [apply Hm; intros I; apply write_meas|]. intros ?. apply spec_modify. intros q [[B1 B2 B3 B4 B5 B6] H].
    split; simpl; try done. rewrite length_app. simpl. lia.
Qed.

(** *** The queue *)

#[local] Hint Resolve append_bounded ack_bounded spool_bounded : onex.
Lemma keeps_shrink f :
  (forall q, measured (f q) = measured q) -> keeps bounded no_publish (modify f).
Proof. intros H. apply keeps_modify. intros q. by apply bounded_measured. Qed.
Lemma enqueue_bounded e : keeps bounded no_publish (enqueue qconfig w_os w_left w_now dump_event e).
Proof.
  unfold enqueue. destruct (qe_tier e); [keeps_auto|].
  eapply spec_bind with (C := fun q0 q => q = q0 /\ bounded q); [by apply spec_get|]. intros q0.
  destruct (_ <? _)%Z eqn:E.
  - eapply spec_bind with (C := fun _ => bounded); [|intros ?; by apply spec_ret]. apply spec_modify.
    intros q [-> [B1 B2 B3 B4 B5 B6]]. split; simpl; try done. rewrite length_app. simpl. lia.
  - destruct (spool_disabled qconfig); [by apply spec_ret; intros q [_ ?]|].
    eapply spec_weaken; [apply (spool_bounded e)|..]; try done. by intros q [_ ?].
Qed.
Lemma from_spool_bounded : keeps bounded no_publish (_dequeue_from_spool w_os load_event).
Proof.
  unfold _dequeue_from_spool. eapply spec_bind with (C := fun q0 q => q = q0 /\ bounded q); [by apply spec_get|]. intros q0.
  destruct (q_spool_files q0) as [|f files] eqn:E; [by apply spec_ret; intros q [_ ?]|].
  eapply spec_bind with (C := fun _ => bounded).
  - apply spec_modify. intros q [-> [B1 B2 B3 B4 B5 B6]]. rewrite E in B2. simpl in B2. split; simpl; try done. lia.
  - intros ?. apply meas_bounded. intros I. meas_auto.
Qed.
Lemma dequeue_bounded : keeps bounded no_publish (dequeue w_os load_event).
Proof.
  unfold dequeue. eapply spec_bind with (C := fun q0 q => q = q0 /\ bounded q); [by apply spec_get|]. intros q0.
  destruct (q_pending q0) as [|r pending]; [destruct (q_memory_queue q0) as [|e mem] eqn:E|].
  - destruct (q_spool_files q0); [by apply spec_ret; intros q [_ ?]|].
    eapply spec_weaken; [apply from_spool_bounded|..]; try done. by intros q [_ ?].
  - eapply spec_bind with (C := fun _ => bounded); [|intros ?; by apply spec_ret]. apply spec_modify.
    intros q [-> [B1 B2 B3 B4 B5 B6]]. rewrite E in B1. simpl in B1. split; simpl; try done. lia.
  - eapply spec_bind with (C := fun _ => bounded); [|intros ?; by apply spec_ret]. apply spec_modify.
    intros q [-> B]. by eapply bounded_measured; [|exact B].
Qed.
Lemma drain_bounded : keeps bounded no_publish (drain_to_spool qconfig w_os w_left w_now dump_event).
Proof.
  unfold drain_to_spool, drain_one. destruct (spool_disabled qconfig); [apply keeps_ret|].
  apply keeps_bind; [apply keeps_get|]. intros q0. apply keeps_fold_each. intros n e _.
  apply keeps_bind; [|intros ?; keeps_auto]. apply keeps_modify. intros q [B1 B2 B3 B4 B5 B6]. split; simpl; try done.
  destruct (q_memory_queue q); simpl in *; lia.
Qed.

(** *** The daemon *)

Definition d_bounded (d : DaemonState) : Prop := bounded (d_queue d).
Lemma keeps_on_queue {T} P I (m : M QueueState EmitIo T) :
  keeps I P m -> keeps (fun d => I (d_queue d)) P (on_queue m).
Proof.
  intros Hm [d log] HI. destruct (Hm (d_queue d, log) HI) as (l & Hl & Hp & Hr). simpl in *. unfold on_queue. simpl.
  destruct (m (d_queue d, log)) as [[q log'] [a|x]]; simpl in *; exists l; by split_and!.
Qed.
Lemma keeps_on_publisher P (I : QueueState -> Prop) f : keeps (fun d => I (d_queue d)) P (on_publisher f).
Proof. by apply keeps_modify. Qed.
Lemma keeps_go_to P (I : QueueState -> Prop) pt : keeps (fun d => I (d_queue d)) P (go_to pt).
Proof. by apply keeps_modify. Qed.
Lemma enqueue_d_bounded e : keeps d_bounded no_publish (enqueue_ qconfig w_os w_left w_now dump_event e).
Proof. apply (keeps_on_queue _ bounded), enqueue_bounded. Qed.
Lemma publisher_d_bounded f : keeps d_bounded no_publish (on_publisher f).
Proof. apply (keeps_on_publisher _ bounded). Qed.
Lemma go_d_bounded pt : keeps d_bounded no_publish (go_to pt).
Proof. apply (keeps_go_to _ bounded). Qed.
#[local] Hint Resolve enqueue_d_bounded publisher_d_bounded go_d_bounded : onex.
Lemma next_d_bounded : keeps d_bounded no_publish next_round.
Proof. unfold next_round. keeps_auto. Qed.
Lemma requeue_d_bounded e f : keeps d_bounded no_publish (requeue qconfig w_os w_left w_now dump_event e f).
Proof. unfold requeue. keeps_auto. Qed.
Lemma back_off_d_bounded e : keeps d_bounded no_publish (back_off qconfig w_os w_left w_now dump_event e).
Proof. unfold back_off. keeps_auto. Qed.
#[local] Hint Resolve next_d_bounded requeue_d_bounded back_off_d_bounded : onex.
Lemma failed_d_bounded e : keeps d_bounded no_publish (publish_failed qconfig config w_os w_left w_now dump_event e).
Proof. unfold publish_failed. keeps_auto. Qed.
Lemma succeeded_d_bounded e : keeps d_bounded no_publish (publish_succeeded config w_os w_now e).
Proof.
  unfold publish_succeeded. repeat first [apply (keeps_on_queue _ bounded), ack_bounded | keeps_step].
Qed.
Lemma backoff_d_bounded e : keeps d_bounded no_publish (backoff_over qconfig w_os w_left w_now dump_event e).
Proof. unfold backoff_over. keeps_auto. Qed.
Lemma stop_d_bounded : keeps d_bounded no_publish (stop_requested qconfig w_os w_left w_now dump_event).
Proof. unfold stop_requested. apply keeps_bind; [by apply keeps_modify|]. intros ?. keeps_auto. Qed.
#[local] Hint Resolve failed_d_bounded succeeded_d_bounded backoff_d_bounded stop_d_bounded : onex.
Lemma keeps_any {S T} (I : S -> Prop) (m : M S EmitIo T) : keeps I no_publish m -> keeps I any_call m.
Proof. intros H. by eapply spec_weaken; [exact H|..]. Qed.
Lemma begin_d_bounded e : keeps d_bounded any_call (begin_publish config w_uuid e).
Proof. unfold begin_publish. repeat first [apply keeps_any, go_d_bounded | keeps_step]. Qed.
Lemma round_d_bounded : keeps d_bounded any_call (round config w_os w_now w_uuid load_event).
Proof.
  unfold round.
  repeat first [apply keeps_any, (keeps_on_queue _ bounded), dequeue_bounded | apply keeps_any, publisher_d_bounded
               | apply begin_d_bounded | keeps_step].
Qed.
Lemma step_d_bounded i : i <> Restart -> keeps d_bounded any_call (step_ i).
Proof.
  intros Hi. unfold daemon_step. apply keeps_bind; [apply keeps_get|]. intros d.
  repeat first [done | apply keeps_any; solve [auto with onex] | apply keeps_any, (keeps_on_queue _ bounded), drain_bounded
               | apply round_d_bounded | keeps_step].
Qed.

End loaded.

(** *** Over restarts *)

(** What holds through a start as well, which loads whatever lies in the directories. *)
Definition sane (q : QueueState) : Prop :=
  (Z.of_nat (length (q_memory_queue q)) <= Z.max 0 (qc_max_memory_queue qconfig))%Z
  /\ Forall (fun r => 0 <= ob_size_bytes r)%Z (q_pending q) /\ q_pending_bytes q = sizes (q_pending q).
Lemma sane_bounded q : sane q -> bounded (length (q_spool_files q)) (length (q_pending q)) (q_pending_bytes q) q.
Proof. intros (Hm & Hs & Hb). split; try done; lia. Qed.
Ltac sane_step := first [ apply keeps_modify; intros q Hq; exact Hq | apply keeps_call; exact I | keeps_step ].
Lemma push_sane r : (0 <= ob_size_bytes r)%Z -> keeps sane any_call (modify (push_pending r)).
Proof.
  intros Hr. apply keeps_modify. intros q (Hm & Hs & Hb). split_and!; simpl; [done|apply Forall_app; by repeat constructor|].
  rewrite sizes_app, Hb. simpl. lia.
Qed.
Lemma load_spool_sane : keeps sane any_call (load_spool w_os).
Proof. unfold load_spool, load_spool_file, quietly, file_size, scan_dir, os_call. repeat sane_step. Qed.
Lemma load_pending_sane : keeps sane any_call (load_pending w_os load_event).
Proof.
  unfold load_pending. apply keeps_bind; [apply keeps_modify; intros q (Hm & _ & _); by split_and!|]. intros ?.
  apply keeps_bind; [unfold scan_dir, os_call; repeat sane_step|]. intros names. apply keeps_bind; [|intros ?; repeat sane_step].
  apply keeps_for_each. intros name _. unfold restore_record, quarantine, quietly, make_dir, read_file, os_call.
  apply keeps_bind; [repeat sane_step|]. intros [[content event]|x]; [apply push_sane, byte_len_nonneg|repeat sane_step].
Qed.
Lemma step_sane i : keeps (fun d => sane (d_queue d)) any_call (step_ i).
Proof.
  assert (i = Restart \/ i <> Restart) as [->|Hi] by (destruct i; auto).
  - unfold daemon_step. apply keeps_bind; [apply keeps_get|]. intros d. assert (keeps (fun d => sane (d_queue d)) any_call (restart w_os load_event)) as Hr.
    { unfold restart. apply keeps_bind; [apply keeps_modify; intros ? _; split_and!; simpl; [lia|constructor|done]|]. intros ?.
      apply keeps_bind; [|intros [?|?]; repeat sane_step]. apply keeps_attempt, keeps_bind; [apply (keeps_on_queue _ sane), load_spool_sane|].
      intros ?. apply (keeps_on_queue _ sane), load_pending_sane. }
    repeat first [done | exact Hr | keeps_step].
  - intros s Hs. destruct (step_d_bounded _ _ _ i Hi s (sane_bounded _ Hs)) as (l & Hl & Hp & Hr).
    exists l. split_and!; [done|done|]. destruct (step_ i s) as [s' [a|x]]; simpl in *; by destruct Hr.
Qed.
Lemma run_sane inputs : keeps (fun d => sane (d_queue d)) any_call (run_ inputs).
Proof.
  unfold daemon_run. apply keeps_fold_each. intros answers i _. apply keeps_bind; [|intros ?; apply keeps_ret].
  apply keeps_attempt, step_sane.
Qed.

(** C14. The daemon's queues stay within their configured sizes.  Let [q0] be the
    queues after any history, restarts included, and [q] the queues after any further
    inputs without a restart, whatever clients, broker and disk do: the memory queue
    is within its limit; the list of spool files, the number of pending duty-critical
    events and their bytes are within their limits or not above those of [q0]; and the
    byte count is the sum of the sizes.  So from a daemon that has loaded nothing no
    limit is ever exceeded, and beyond a limit is only what a start loaded, which does
    not look at the limits.  The spool limit is not negative, as the configuration
    model demands. *)
Theorem queues_bounded before inputs spool outbox (Hi : Restart ∉ inputs) :
  let s0 := (run_ before (fresh_daemon spool outbox, [])).1 in
  let q0 := d_queue s0.1 in let q := d_queue (run_ inputs s0).1.1 in
  (Z.of_nat (length (q_memory_queue q)) <= Z.max 0 (qc_max_memory_queue qconfig)
   /\ Z.of_nat (length (q_spool_files q)) <= Z.max (Z.of_nat (length (q_spool_files q0))) (qc_max_spool_messages qconfig)
   /\ Z.of_nat (length (q_pending q)) <= Z.max (Z.of_nat (length (q_pending q0))) (qc_max_outbox_messages qconfig)
   /\ q_pending_bytes q = sizes (q_pending q)
   /\ q_pending_bytes q <= Z.max (q_pending_bytes q0) (qc_max_outbox_bytes qconfig))%Z.
Proof.
  cbn zeta. set (s0 := (run_ before (fresh_daemon spool outbox, [])).1).
  assert (sane (d_queue s0.1)) as H0.
  { destruct (run_sane before (fresh_daemon spool outbox, [])) as (l & _ & _ & H); [split_and!; simpl; [lia|constructor|done]|].
    unfold s0. by destruct (run_ before _) as [s [a|x]]. }
  apply sane_bounded in H0. set (I := bounded _ _ _) in H0.
  assert (keeps (fun d => I (d_queue d)) any_call (run_ inputs)) as Hrun.
  { unfold daemon_run. apply keeps_fold_each. intros answers i Hin. apply keeps_bind; [|intros ?; apply keeps_ret].
    apply keeps_attempt, step_d_bounded. by intros ->. }
  destruct (Hrun s0 H0) as (l & _ & _ & H).
  assert (I (d_queue (run_ inputs s0).1.1)) as [B1 B2 B3 B4 B5 B6] by by destruct (run_ inputs s0) as [s [a|x]].
  by split_and!.
Qed.
End bounds.

Definition b_event (i : string) (tier : EnumDurabilityTier) : ModelQueuedEvent :=
  {| qe_event_id := i; qe_event_type := "dod.verified"; qe_topic := "onex.evt.x.v1"; qe_payload := JObj [("a", JInt 1)];
     qe_partition_key := None; qe_queued_at := 0%Z; qe_tier := tier |}.
Definition b_queue : QueueConfig :=
  {| qc_max_memory_queue := 1; qc_max_spool_messages := 1; qc_max_spool_bytes := 100; qc_max_outbox_messages := 1;
     qc_max_outbox_bytes := 100 |}.
Definition b_publisher : PublisherConfig :=
  {| pc_max_retry_attempts := 3; pc_source := "omnimarket"; pc_failure_threshold := 1; pc_recovery_timeout := float_of_Z 30;
     pc_half_open_max_probes := 1 |}.
(** Three telemetry and two duty-critical events on queues of one element each. *)
Definition b_inputs : list DaemonInput :=
  [Offer (b_event "t1" TELEMETRY); Offer (b_event "t2" TELEMETRY); Offer (b_event "t3" TELEMETRY);
   Offer (b_event "c1" DUTY_CRITICAL); Offer (b_event "c2" DUTY_CRITICAL)].
Abbreviation b_run := (daemon_run b_queue b_publisher (fun _ _ => true) (fun _ => None) (fun _ => 0%Z) (fun _ => "u")
  (fun _ => Ok "{}") (fun _ => Ok (b_event "t1" TELEMETRY)) b_inputs (fresh_daemon ∅ ∅, [])).
Example b_run_full :
  snd b_run = Ok [Accepted (b_event "t1" TELEMETRY); Accepted (b_event "t2" TELEMETRY); Accepted (b_event "t3" TELEMETRY);
                  Accepted (b_event "c1" DUTY_CRITICAL); Refused (b_event "c2" DUTY_CRITICAL)]
  /\ let q := d_queue b_run.1.1 in
     (length (q_memory_queue q), length (q_spool_files q), length (q_pending q), q_pending_bytes q) = (1, 1, 1, 2%Z).
Proof. vm_compute. split; reflexivity. Qed.
(** A start over two spool files, with a limit of one. *)
Example start_loads_beyond_limit : length (q_spool_files (d_queue (daemon_run b_queue b_publisher (fun _ _ => true) (fun _ => None)
  (fun _ => 0%Z) (fun _ => "u") (fun _ => Ok "{}") (fun _ => Ok (b_event "t1" TELEMETRY)) [Restart]
  (fresh_daemon (<["a.json" := "{}"]> (<["b.json" := "{}"]> ∅)) ∅, [])).1.1)) = 2.
Proof. vm_compute. reflexivity. Qed.
Lemma queues_bounded_witness : (Z.of_nat (length (q_spool_files (d_queue b_run.1.1))) <= 1)%Z.
Proof.
  destruct (queues_bounded b_queue b_publisher (fun _ _ => true) (fun _ => None) (fun _ => 0%Z) (fun _ => "u") (fun _ => Ok "{}")
    (fun _ => Ok (b_event "t1" TELEMETRY)) ltac:(done) [] b_inputs ∅ ∅) as (_ & H & _); [|exact H].
  unfold b_inputs. repeat (apply not_elem_of_cons; split; [done|]). by apply not_elem_of_nil.
Defined.

(** ** The breaker *)

Section breaker_props.
Context (qconfig : QueueConfig) (config : PublisherConfig).
Context (w_os : list EmitIo -> EmitIo -> bool) (w_left : list EmitIo -> option string).
Context (w_now : list EmitIo -> datetime) (w_uuid : list EmitIo -> string).
Context (dump_event : ModelQueuedEvent -> result string) (load_event : string -> result ModelQueuedEvent).
Context (threshold : (1 <= pc_failure_threshold config)%Z) (probes : (1 <= pc_half_open_max_probes config)%Z).

(** A closed breaker has seen fewer failures in a row than its threshold, an open
    one knows since when, a half-open one has not had its successes yet. *)
Definition breaker_ok (p : PublisherState) : Prop :=
  match p_circuit_state p with
  | CLOSED => p_circuit_opened_at p = None /\ (0 <= p_consecutive_failures p < pc_failure_threshold config)%Z
  | OPEN => exists t, p_circuit_opened_at p = Some t
  | HALF_OPEN => (0 <= p_half_open_successes p < pc_half_open_max_probes config)%Z
  end.
Lemma success_ok now p : breaker_ok p -> breaker_ok (_record_success config now p).
Proof.
  unfold breaker_ok, _record_success. destruct p as [[] fails succ opened conn retries pub drop buf lp lf]; simpl; intros H.
  - destruct H. split; [done|lia].
  - done.
  - destruct (_ >=? _)%Z eqn:E; simpl; [split; [done|]|]; lia.
Qed.
Lemma failure_ok now p : breaker_ok p -> breaker_ok (_record_failure config now p).
Proof.
  unfold breaker_ok, _record_failure. destruct p as [[] fails succ opened conn retries pub drop buf lp lf]; simpl; intros H.
  - destruct (_ >=? _)%Z eqn:E; simpl; [by exists now|]. destruct H. split; [done|lia].
  - done.
  - by exists now.
Qed.
Definition d_ok (d : DaemonState) : Prop := breaker_ok (d_publisher d).
Lemma queue_ok {T} P (m : M QueueState EmitIo T) : keeps (fun _ => True) P m -> keeps d_ok P (on_queue m).
Proof.
  intros Hm [d log] HI. destruct (Hm (d_queue d, log) I) as (l & Hl & Hp & _). simpl in *. unfold on_queue. simpl.
  destruct (m (d_queue d, log)) as [[q log'] [a|x]]; simpl in *; exists l; by split_and!.
Qed.
Lemma publisher_ok P f : (forall p, breaker_ok p -> breaker_ok (f p)) -> keeps d_ok P (on_publisher f).
Proof. intros H. apply keeps_modify. intros d. apply H. Qed.
Lemma go_ok P pt : keeps d_ok P (go_to pt).
Proof. by apply keeps_modify. Qed.

(** *** The queue publishes nothing *)

Abbreviation silent m := (keeps (fun _ : QueueState => True) no_publish m).
Ltac silent_auto :=
  repeat first [ apply keeps_modify; intros ? _; exact I | apply keeps_call; reflexivity | keeps_step ].
Lemma quietly_silent m : silent m -> silent (quietly m).
Proof. intros H. unfold quietly. silent_auto. Qed.
#[local] Hint Resolve quietly_silent : onex.
Lemma write_silent p n c : silent (write_file w_os w_left p n c).
Proof. unfold write_file, os_call. silent_auto. Qed.
Lemma read_silent p n : silent (read_file w_os p n).
Proof. unfold read_file, os_call. silent_auto. Qed.
Lemma size_silent p n : silent (file_size w_os p n).
Proof. unfold file_size, os_call. silent_auto. Qed.
Lemma unlink_silent p n : silent (unlink_file w_os p n).
Proof. unfold unlink_file, os_call. silent_auto. Qed.
Lemma make_dir_silent p : silent (make_dir w_os p).
Proof. unfold make_dir, os_call. silent_auto. Qed.
Lemma scan_silent p : silent (scan_dir w_os p).
Proof. unfold scan_dir, os_call. silent_auto. Qed.
#[local] Hint Resolve write_silent read_silent size_silent unlink_silent make_dir_silent scan_silent : onex.
Lemma drop_silent : silent (_drop_oldest_spool w_os).
Proof. unfold _drop_oldest_spool. repeat first [apply quietly_silent | progress silent_auto]. Qed.
#[local] Hint Resolve drop_silent : onex.
Lemma make_room_silent fuel n : silent (make_room qconfig w_os fuel n).
Proof. induction fuel as [|fuel IH]; simpl; silent_auto. Qed.
#[local] Hint Resolve make_room_silent : onex.
Lemma spool_silent e : silent (_spool_event qconfig w_os w_left w_now dump_event e).
Proof. unfold _spool_event. silent_auto. Qed.
#[local] Hint Resolve spool_silent : onex.
Lemma enqueue_silent e : silent (enqueue qconfig w_os w_left w_now dump_event e).
Proof. unfold enqueue, outbox_append. silent_auto. Qed.
Lemma dequeue_silent : silent (dequeue w_os load_event).
Proof. unfold dequeue, _dequeue_from_spool. silent_auto. Qed.
Lemma ack_silent e : silent (ack w_os e).
Proof. unfold ack, outbox_ack. silent_auto. Qed.
Lemma drain_silent : silent (drain_to_spool qconfig w_os w_left w_now dump_event).
Proof. unfold drain_to_spool, drain_one. silent_auto. Qed.
Lemma load_spool_silent : silent (load_spool w_os).
Proof. unfold load_spool, load_spool_file. repeat first [apply quietly_silent | progress silent_auto]. Qed.
Lemma load_pending_silent : silent (load_pending w_os load_event).
Proof.
  unfold load_pending, restore_record, quarantine, os_call. repeat first [apply quietly_silent | progress silent_auto].
Qed.

(** *** Nor does any step but a round *)

Lemma bump_ok i p : breaker_ok p -> breaker_ok (bump_retry i p).
Proof. done. Qed.
Lemma drop_ok i p : breaker_ok p -> breaker_ok (drop_event i p).
Proof. done. Qed.
Lemma half_open_ok p : breaker_ok p -> breaker_ok (_transition_to_half_open p).
Proof. intros _. unfold breaker_ok. simpl. lia. Qed.
Ltac breaker_step :=
  first [ apply go_ok | apply publisher_ok; intros ? ?; first [by apply success_ok|by apply failure_ok|by apply half_open_ok|done]
        | apply queue_ok; first [apply enqueue_silent|apply dequeue_silent|apply ack_silent|apply drain_silent
                                |apply load_spool_silent|apply load_pending_silent]
        | keeps_step ].
Abbreviation quiet m := (keeps d_ok no_publish m).
Lemma next_quiet : quiet next_round.
Proof. unfold next_round. repeat breaker_step. Qed.
Lemma requeue_quiet e f : (forall p, breaker_ok p -> breaker_ok (f p)) -> quiet (requeue qconfig w_os w_left w_now dump_event e f).
Proof.
  intros Hf. unfold requeue, enqueue_. apply keeps_bind; [breaker_step|]. intros ok. apply publisher_ok. intros p Hp.
  destruct ok; auto.
Qed.
Lemma back_off_quiet e : quiet (back_off qconfig w_os w_left w_now dump_event e).
Proof. unfold back_off, enqueue_. repeat breaker_step. Qed.
#[local] Hint Resolve next_quiet back_off_quiet : onex.
Lemma failed_quiet e : quiet (publish_failed qconfig config w_os w_left w_now dump_event e).
Proof. unfold publish_failed. repeat first [by apply requeue_quiet | breaker_step]. Qed.
Lemma succeeded_quiet e : quiet (publish_succeeded config w_os w_now e).
Proof. unfold publish_succeeded. repeat breaker_step. Qed.
Lemma backoff_quiet e : quiet (backoff_over qconfig w_os w_left w_now dump_event e).
Proof. unfold backoff_over. repeat first [by apply requeue_quiet | breaker_step]. Qed.
Lemma stop_quiet : quiet (stop_requested qconfig w_os w_left w_now dump_event).
Proof. unfold stop_requested. apply keeps_bind; [by apply keeps_modify|]. intros ?. repeat breaker_step. Qed.
Lemma new_ok : breaker_ok new_publisher.
Proof. split; simpl; [done|lia]. Qed.
Lemma restart_quiet : quiet (restart w_os load_event).
Proof.
  unfold restart. apply keeps_bind; [by apply keeps_modify; intros d _; apply new_ok|]. intros ?.
  apply keeps_bind; [repeat breaker_step|]. intros [n|x]; [apply keeps_ret|by apply keeps_modify].
Qed.
#[local] Hint Resolve failed_quiet succeeded_quiet backoff_quiet stop_quiet restart_quiet : onex.
Abbreviation step_ := (daemon_step qconfig config w_os w_left w_now w_uuid dump_event load_event).
Abbreviation run_ := (daemon_run qconfig config w_os w_left w_now w_uuid dump_event load_event).
Lemma step_quiet i : i <> Round -> quiet (step_ i).
Proof.
  intros Hi. unfold daemon_step, enqueue_. apply keeps_bind; [apply keeps_get|]. intros d. repeat first [done | breaker_step].
Qed.
Lemma begin_ok e : keeps d_ok any_call (begin_publish config w_uuid e).
Proof. unfold begin_publish. repeat first [apply keeps_call; exact I | breaker_step]. Qed.
Lemma dequeue_any : keeps (fun _ : QueueState => True) any_call (dequeue w_os load_event).
Proof. apply keeps_any, dequeue_silent. Qed.
Lemma round_ok : keeps d_ok any_call (round config w_os w_now w_uuid load_event).
Proof. unfold round. repeat first [apply begin_ok | apply queue_ok, dequeue_any | breaker_step]. Qed.
Lemma step_ok i : keeps d_ok any_call (step_ i).
Proof.
  assert (i = Round \/ i <> Round) as [->|Hi] by (destruct i; auto); [|by apply keeps_any, step_quiet].
  unfold daemon_step. apply keeps_bind; [apply keeps_get|]. intros d.
  repeat first [apply round_ok | apply keeps_any, stop_quiet | keeps_step].
Qed.
Lemma run_ok inputs : keeps d_ok any_call (run_ inputs).
Proof.
  unfold daemon_run. apply keeps_fold_each. intros answers i _. apply keeps_bind; [|intros ?; apply keeps_ret].
  apply keeps_attempt, step_ok.
Qed.

(** *** What a round publishes *)

Lemma no_publish_existsb l : Forall no_publish l -> existsb publishes l = false.
Proof. induction 1 as [|e l He _ IH]; simpl; [done|]. by rewrite He, IH. Qed.
(** From [s], what [m] logs with a publish call leaves the task waiting for it. *)
Definition publishing_when (Q : Prop) (m : M DaemonState EmitIo unit) (s : DaemonState * list EmitIo) : Prop :=
  exists l, (m s).1.2 = s.2 ++ l /\ (existsb publishes l = true -> Q /\ exists e, d_point (m s).1.1 = Publishing e).
Lemma publishing_never Q m s : keeps (fun _ => True) no_publish m -> publishing_when Q m s.
Proof.
  intros H. destruct (H s I) as (l & Hl & Hp & _). exists l. split; [done|]. rewrite (no_publish_existsb l Hp). done.
Qed.
Abbreviation serve := (event ← on_queue (dequeue w_os load_event);
  match event with None => mret () | Some e => begin_publish config w_uuid e end).
Lemma serve_publishing (Q : Prop) s : Q -> publishing_when Q serve s.
Proof.
  intros HQ. destruct s as [d log]. unfold publishing_when. rewrite run_bind. unfold on_queue. simpl.
  destruct (dequeue_silent (d_queue d, log) I) as (l & Hl & Hp & _). simpl in Hl.
  destruct (dequeue w_os load_event (d_queue d, log)) as [[q log'] [[e|]|x]]; simpl in *; subst log'.
  - eexists. rewrite <- !app_assoc. split; [done|]. intros _. split; [done|]. by exists e.
  - exists l. split; [done|]. by rewrite no_publish_existsb.
  - exists l. split; [done|]. by rewrite no_publish_existsb.
Qed.
(** The breaker lets a round through. *)
Definition lets_through (p : PublisherState) (now : datetime) : Prop :=
  p_circuit_state p = OPEN ->
  exists t, p_circuit_opened_at p = Some t /\ fge (rat (now - t) 1000000) (pc_recovery_timeout config) = true.
Lemma round_publishing s :
  d_ok s.1 -> publishing_when (lets_through (d_publisher s.1) (w_now s.2)) (round config w_os w_now w_uuid load_event) s.
Proof.
  intros Hok. unfold round, publishing_when. rewrite run_bind, run_get, run_bind. simpl.
  destruct (decide (p_circuit_state (d_publisher s.1) = OPEN)) as [Ho|Ho].
  - destruct (_should_probe config (w_now s.2) (d_publisher s.1)) eqn:Ep; simpl.
    + rewrite run_bind. simpl.
      pose proof (serve_publishing (lets_through (d_publisher s.1) (w_now s.2))
        (s.1 <| d_publisher := _transition_to_half_open (d_publisher s.1) |>, s.2)) as Hserve.
      unfold publishing_when in Hserve. apply Hserve. intros _. unfold d_ok, breaker_ok in Hok. rewrite Ho in Hok.
      destruct Hok as [t Ht]. exists t. unfold _should_probe in Ep. by rewrite Ho, Ht in Ep.
    + exists []. by rewrite app_nil_r.
  - pose proof (serve_publishing (lets_through (d_publisher s.1) (w_now s.2)) s) as Hserve. unfold publishing_when in Hserve.
    apply Hserve. by intros ?.
Qed.
Lemma step_publishing i s :
  d_ok s.1 -> exists l, (step_ i s).1.2 = s.2 ++ l /\ (existsb publishes l = true ->
    i = Round /\ d_point s.1 = Idle /\ d_running s.1 = true /\ lets_through (d_publisher s.1) (w_now s.2)
    /\ exists e, d_point (step_ i s).1.1 = Publishing e).
Proof.
  intros Hok. assert (i = Round \/ i <> Round) as [->|Hi] by (destruct i; auto).
  - unfold daemon_step. rewrite run_bind, run_get. simpl.
    destruct (d_point s.1) eqn:Ep; try (exists []; by rewrite app_nil_r). destruct (d_running s.1) eqn:Er; [|exists []; by rewrite app_nil_r].
    destruct (round_publishing s Hok) as (l & Hl & H). exists l. rewrite run_bind.
    destruct (round _ _ _ _ _ s) as [s' [a|x]]; simpl in *; (split; [done|]); intros Hp; destruct (H Hp) as [HQ He]; by split_and!.
  - destruct (step_quiet i Hi s Hok) as (l & Hl & Hp & _). exists l. split; [done|]. by rewrite no_publish_existsb.
Qed.

(** C15. The breaker guards the broker: whatever happened before, a closed breaker
    has seen fewer consecutive failures than its threshold and an open one knows
    since when it is open; and only a round of the running, idle loop ever calls the
    publish callable, while the breaker is open only once the recovery timeout has
    passed, and the task then waits for that call. *)
Theorem breaker_guards_publishing inputs input spool outbox :
  let s := (run_ inputs (fresh_daemon spool outbox, [])).1 in
  breaker_ok (d_publisher s.1)
  /\ exists l, (step_ input s).1.2 = s.2 ++ l
       /\ (existsb publishes l = true ->
             input = Round /\ d_point s.1 = Idle /\ d_running s.1 = true /\ lets_through (d_publisher s.1) (w_now s.2)
             /\ exists e, d_point (step_ input s).1.1 = Publishing e).
Proof.
  destruct (run_ok inputs (fresh_daemon spool outbox, [])) as (l & _ & _ & H); [apply new_ok|].
  assert (d_ok (run_ inputs (fresh_daemon spool outbox, [])).1.1) as Hok by by destruct (run_ _ _) as [s [a|x]].
  split; [exact Hok|]. by apply step_publishing.
Qed.
End breaker_props.

(** A failed publish opens the breaker; the round after it is too early. *)
Lemma breaker_guards_publishing_witness :
  let s := (daemon_run b_queue b_publisher (fun _ _ => true) (fun _ => None) (fun _ => 0%Z) (fun _ => "u")
    (fun _ => Ok "{}") (fun _ => Ok (b_event "c1" DUTY_CRITICAL)) [Offer (b_event "c1" DUTY_CRITICAL); Round; PublishReturns false]
    (fresh_daemon ∅ ∅, [])).1 in
  breaker_ok b_publisher (d_publisher s.1).
Proof.
  exact (proj1 (breaker_guards_publishing b_queue b_publisher (fun _ _ => true) (fun _ => None) (fun _ => 0%Z) (fun _ => "u")
    (fun _ => Ok "{}") (fun _ => Ok (b_event "c1" DUTY_CRITICAL)) ltac:(done) ltac:(done)
    [Offer (b_event "c1" DUTY_CRITICAL); Round; PublishReturns false] Round ∅ ∅)).
Defined.
Example breaker_open_after_failure :
  let s := (daemon_run b_queue b_publisher (fun _ _ => true) (fun _ => None) (fun _ => 0%Z) (fun _ => "u")
    (fun _ => Ok "{}") (fun _ => Ok (b_event "c1" DUTY_CRITICAL)) [Offer (b_event "c1" DUTY_CRITICAL); Round; PublishReturns false; Round]
    (fresh_daemon ∅ ∅, [])).1 in
  (p_circuit_state (d_publisher s.1), length (List.filter publishes s.2), d_point s.1) = (OPEN, 1, Idle).
Proof. vm_compute. reflexivity. Qed.
