(* ===== verification/EmitAnswers.v ===== *)
(** * Emit daemon: what an answer of the socket server promises

    An emit request answered as queued has every duty-critical event of its fan-out
    in the outbox, with the payload its transform makes of the enriched one; payloads
    of rules that strip the prompt carry none. *)
From S2P Require Import Prelude PyFloat PyJson PyHash PyDyn LogMonad LocalDispatch EmitQueue EmitPublisher EmitServer EmitProps.

(** ** Dictionaries *)

Lemma dict_set_distinct {V} k (v : V) l : NoDup (dict_keys l) -> NoDup (dict_keys (dict_set k v l)).
Proof.
  intros H. rewrite dict_set_keys. unfold dict_has. destruct (dict_get k l) eqn:E; [done|]. apply dict_get_None in E.
  apply NoDup_app. split_and!; [done|set_solver|apply NoDup_singleton].
Qed.
Lemma dict_pop_sub {V} k k' (l : list (string * V)) : k' ∈ dict_keys (dict_pop k l) -> k' ∈ dict_keys l.
Proof.
  induction l as [|[k2 v2] l IH]; simpl; [done|]. destruct (String.eqb k2 k); simpl; [by right|].
  intros [->|H]%elem_of_cons; [by left|right; auto].
Qed.
Lemma dict_pop_distinct {V} k (l : list (string * V)) : NoDup (dict_keys l) -> NoDup (dict_keys (dict_pop k l)).
Proof.
  induction l as [|[k2 v2] l IH]; simpl; [done|]. intros [H1 H2]%NoDup_cons. destruct (String.eqb k2 k); simpl; [done|].
  apply NoDup_cons. split; [by intros ?%dict_pop_sub|auto].
Qed.
Lemma dict_get_pop {V} k k' (l : list (string * V)) :
  NoDup (dict_keys l) -> dict_get k' (dict_pop k l) = if String.eqb k k' then None else dict_get k' l.
Proof.
  induction l as [|[k2 v2] l IH]; simpl; [by destruct (String.eqb k k')|]. intros [H1 H2]%NoDup_cons.
  destruct (String.eqb_spec k2 k) as [->|Hne]; simpl.
  - destruct (String.eqb_spec k k') as [->|]; [by apply dict_get_None|done].
  - rewrite (IH H2). destruct (String.eqb_spec k k') as [->|]; [|done]. by destruct (String.eqb_spec k2 k').
Qed.

(** ** The transforms *)

Lemma strip_prompt_private payload :
  NoDup (dict_keys payload) ->
  dict_get "prompt" (strip_prompt payload) = None /\ dict_get "prompt_b64" (strip_prompt payload) = None.
Proof.
  intros H. unfold strip_prompt. set (rest := dict_pop "prompt" (dict_pop "prompt_b64" payload)).
  assert (forall k, dict_get k rest = if String.eqb "prompt" k then None else if String.eqb "prompt_b64" k then None else dict_get k payload) as Hr.
  { intros k. unfold rest. rewrite dict_get_pop by by apply dict_pop_distinct. by rewrite dict_get_pop. }
  destruct (dict_has "prompt_length" _); [by rewrite !dict_get_set, !Hr|].
  destruct (default _ _); by rewrite ?dict_get_set, !Hr.
Qed.

(** ** The metadata *)

Section answers.
Context (config : QueueConfig) (registry : EventRegistry) (max_payload_bytes : Z) (env_session_id : string).
Context `{P : Pydantic}.
Context (w_os : list EmitIo -> EmitIo -> bool) (w_left : list EmitIo -> option string).
Context (w_now : list EmitIo -> datetime) (w_uuid : list EmitIo -> string).
Context (dump_event : ModelQueuedEvent -> result string).

(** [enriched] is [payload] with metadata: the fields of the others are unchanged. *)
Definition enriches (payload enriched : Obj) : Prop :=
  (NoDup (dict_keys payload) -> NoDup (dict_keys enriched))
  /\ forall k v, (k ∉ ["correlation_id"; "session_id"; "schema_version"]) -> dict_get k payload = Some v ->
       dict_get k enriched = Some v.
Lemma enriches_refl o : enriches o o.
Proof. done. Qed.
Lemma enriches_trans a b c : enriches a b -> enriches b c -> enriches a c.
Proof. intros [N1 F1] [N2 F2]. split; auto. Qed.
Lemma enriches_set o k v : k ∈ ["correlation_id"; "session_id"; "schema_version"] -> enriches o (dict_set k v o).
Proof.
  intros Hk. split; [apply dict_set_distinct|]. intros k' v' Hk' H. rewrite dict_get_set.
  destruct (String.eqb_spec k k') as [->|]; [by destruct Hk'|done].
Qed.
Lemma enriches_missing o k v : enriches o (set_missing k v o).
Proof.
  unfold set_missing, dict_has. destruct (dict_get k o) eqn:E; [done|]. split; [apply dict_set_distinct|].
  intros k' v' _ H. rewrite dict_get_set. destruct (String.eqb_spec k k') as [->|]; [congruence|done].
Qed.
Lemma with_entity_missing o : exists v, with_entity o = o \/ with_entity o = set_missing "entity_id" v o.
Proof.
  unfold with_entity, set_missing. destruct (dict_has "entity_id" o); [exists JNull; by left|].
  destruct (dict_get "session_id" o) as [[| | | |s| |]|]; try (exists JNull; by left).
  destruct (truthy s); [|exists JNull; by left]. exists (entity_id s). by right.
Qed.
Lemma inject_enriches (A : QueueState -> Prop) (L : EmitIo -> Prop) payload corr : L NewUuid ->
  spec A L (_inject_metadata env_session_id w_now w_uuid payload corr)
    (fun enriched q => A q /\ enriches payload enriched) A.
Proof.
  intros HL. assert (forall c, enriches payload (dict_set "correlation_id" c payload)) as Hc.
  { intros c. apply enriches_set. by left. }
  unfold _inject_metadata, uuid4. eapply spec_bind with (C := fun result q => A q /\ enriches payload result).
  - destruct (is_none _); [|by apply spec_ret].
    assert (spec A L (u ← call NewUuid (fun l => Ok (w_uuid l)); mret (dict_set "correlation_id" (JStr u) payload))
              (fun result q => A q /\ enriches payload result) A) as Hu.
    { eapply spec_bind with (C := fun _ => A); [by apply spec_call|]. intros u. by apply spec_ret. }
    destruct corr as [c|]; [destruct (truthy c); [by apply spec_ret|]|]; exact Hu.
  - intros result. eapply spec_bind with (C := fun _ q => A q /\ enriches payload result); [by apply spec_ask|]. intros now.
    apply spec_ret. intros q [HA H]. split; [done|]. eapply enriches_trans; [exact H|].
    set (r1 := set_missing "causation_id" JNull result). set (r2 := set_missing "emitted_at" _ r1).
    assert (enriches result r2) as H2 by (eapply enriches_trans; apply enriches_missing).
    set (r3 := if truthy (default JNull (dict_get "session_id" r2)) then r2 else _).
    assert (enriches r2 r3) as H3.
    { unfold r3. destruct (truthy _); [done|]. destruct (truthy _); [|done]. apply enriches_set. set_solver. }
    eapply enriches_trans; [exact H2|]. eapply enriches_trans; [exact H3|].
    eapply enriches_trans; [|apply enriches_set; set_solver].
    destruct (with_entity_missing r3) as (v & [-> | ->]); [done|apply enriches_missing].
Qed.

(** ** The queue keeps what is pending *)

Definition pends (L : list ModelQueuedEvent) (q : QueueState) : Prop := forall e, e ∈ L -> e ∈ map ob_event (q_pending q).
Lemma pends_part L q q' : outbox_part q = outbox_part q' -> pends L q -> pends L q'.
Proof. intros [= H _ _ _] Hp. unfold pends. by rewrite <- H. Qed.
Lemma write_pends L n c : keeps (pends L) any_io (write_file w_os w_left Outbox n c).
Proof. unfold write_file, os_call. repeat first [apply keeps_modify; intros q Hq; exact Hq | apply keeps_call; exact I | keeps_step]. Qed.
Lemma enqueue_pends L e :
  spec (pends L) any_io (enqueue config w_os w_left w_now dump_event e)
    (fun ok q => pends L q /\ (qe_tier e = DUTY_CRITICAL -> ok = true /\ pends (e :: L) q)) (pends L).
Proof.
  destruct (qe_tier e) eqn:Ht.
  - unfold enqueue. rewrite Ht. eapply spec_bind with (C := fun _ => pends (e :: L)).
    + unfold outbox_append. eapply spec_bind with (C := fun _ => pends L); [by apply spec_lift|]. intros c.
      eapply spec_bind with (C := fun _ => pends L); [by apply spec_get|]. intros q0.
      destruct (outbox_full _ _ _ _); [by apply spec_raise|].
      eapply spec_bind with (C := fun _ => pends L); [by apply spec_ask|]. intros now.
      eapply spec_bind; [apply write_pends|]. intros ?.
      eapply spec_bind with (C := fun _ => pends (e :: L)); [|intros ?; by apply spec_ret].
      apply spec_modify. intros q Hq e' He'. simpl. rewrite map_app, elem_of_app. simpl.
      apply elem_of_cons in He' as [->|He']; [right; by left|left; auto].
    + intros ?. apply spec_ret. intros q Hq. split; [|done]. intros e' He'. apply Hq. by right.
  - eapply spec_weaken; [apply (part_spec (pends L)); [apply pends_part|intros o; by apply telemetry_kept]|..]; try done.
Qed.

(** ** The rules *)

Definition oversize (rule : FanOutRule) (enriched : Obj) : Prop :=
  (byte_len (json_dumps (JObj (apply_transform rule enriched))) > max_payload_bytes)%Z.
(** [e] is the event of the rule. *)
Definition event_for (event_type : string) (rule : FanOutRule) (enriched : Obj) (e : ModelQueuedEvent) : Prop :=
  qe_event_type e = event_type /\ lax_str (fr_topic rule) = Some (qe_topic e) /\ qe_tier e = fr_tier rule
  /\ qe_payload e = JObj (apply_transform rule enriched).
Lemma event_of_for event_id event_type rule enriched key now e :
  event_of event_id event_type rule (apply_transform rule enriched) key now = Ok e ->
  event_for event_type rule enriched e.
Proof.
  unfold event_of, check. destruct (lax_str (fr_topic rule)) as [topic|] eqn:E; simpl; [|done].
  destruct (String.eqb topic EmptyString); [done|]. intros [= <-]. by split_and!.
Qed.
Definition covered (event_type : string) (enriched : Obj) (q : QueueState) (rule : FanOutRule) : Prop :=
  fr_tier rule = DUTY_CRITICAL ->
  oversize rule enriched \/ exists e, e ∈ map ob_event (q_pending q) /\ event_for event_type rule enriched e.
Abbreviation emit_rule_ := (emit_rule config max_payload_bytes w_os w_left w_now w_uuid dump_event).
Lemma emit_rule_covers event_type registration enriched rule done_rules :
  spec (fun q => Forall (covered event_type enriched q) done_rules) any_io (emit_rule_ event_type registration enriched rule)
    (fun outcome q => match outcome with
                      | RuleDegraded _ => True
                      | _ => Forall (covered event_type enriched q) (done_rules ++ [rule])
                      end) (fun _ => True).
Proof.
  assert (forall q q', (forall L, pends L q -> pends L q') -> Forall (covered event_type enriched q) done_rules ->
    Forall (covered event_type enriched q') done_rules) as Hmono.
  { intros q q' H Hall. eapply Forall_impl; [exact Hall|]. intros r Hr Ht. destruct (Hr Ht) as [?|(e & He & Hf)]; [by left|]. right. exists e.
    split; [|done]. apply (H [e]); [intros ? ->%list_elem_of_singleton; done|by left]. }
  unfold emit_rule. destruct (_ >? _)%Z eqn:Es.
  { apply spec_ret. intros q H. apply Forall_app. split; [done|]. apply Forall_singleton. intros _. left. unfold oversize. lia. }
  eapply spec_bind with (C := fun _ q => Forall (covered event_type enriched q) done_rules); [by apply spec_lift|]. intros key.
  unfold uuid4. eapply spec_bind with (C := fun _ q => Forall (covered event_type enriched q) done_rules); [by apply spec_call|]. intros event_id.
  eapply spec_bind with (C := fun _ q => Forall (covered event_type enriched q) done_rules); [by apply spec_ask|]. intros now.
  eapply spec_bind with (C := fun e q => Forall (covered event_type enriched q) done_rules /\ event_for event_type rule enriched e).
  { apply spec_lift; [|done]. intros e q H E. split; [done|]. by eapply event_of_for. }
  intros e.
  eapply spec_bind with (C := fun r q => match r with
      | Ok ok => Forall (covered event_type enriched q) (done_rules ++ [rule]) | Raise _ => True end).
  - apply (spec_attempt _ _ _ _ (fun _ => True)); [|done]. intros s [Hs He].
    destruct (enqueue_pends (map ob_event (q_pending s.1)) e s) as (l & Hl & Hp & Hr); [by intros ??|].
    exists l. split_and!; [done|done|]. destruct (enqueue _ _ _ _ _ e s) as [s' [ok|x]]; simpl in *; [|done].
    destruct Hr as [H1 H2]. apply Forall_app. split.
    + eapply Hmono; [|exact Hs]. intros L HL e' He'. apply H1. by apply HL.
    + apply Forall_singleton. intros Ht. right. exists e. split; [|done]. destruct He as (_ & _ & Htier & _).
      destruct H2 as [_ H2]; [congruence|]. apply H2. by left.
  - intros [[|]|x]; [by apply spec_ret|by apply spec_ret|].
    destruct x; try (by apply spec_raise). destruct (String.eqb _ _); [by apply spec_ret|by apply spec_raise].
Qed.
Lemma emit_rules_cover event_type registration enriched rules : forall done_rules last,
  spec (fun q => Forall (covered event_type enriched q) done_rules) any_io
    (emit_rules config max_payload_bytes w_os w_left w_now w_uuid dump_event event_type registration enriched rules last)
    (fun answer q => match answer with
                     | QueuedResponse _ => Forall (covered event_type enriched q) (done_rules ++ rules)
                     | _ => True
                     end) (fun _ => True).
Proof.
  induction rules as [|rule rules IH]; intros done_rules last; simpl.
  - rewrite app_nil_r. by destruct last; apply spec_ret.
  - eapply spec_bind; [apply emit_rule_covers|]. intros [event_id| |reason].
    + replace (done_rules ++ rule :: rules) with ((done_rules ++ [rule]) ++ rules) by (by rewrite <- app_assoc). apply IH.
    + replace (done_rules ++ rule :: rules) with ((done_rules ++ [rule]) ++ rules) by (by rewrite <- app_assoc). apply IH.
    + by apply spec_ret.
Qed.
(** ** What an emit queues *)

Section origins.
Context (old : list ModelQueuedEvent) (made : ModelQueuedEvent -> Prop).
(** Every event the daemon holds was held before or is one of those made, and every
    file written has one of those made. *)
Definition held_events (q : QueueState) : list ModelQueuedEvent := q_memory_queue q ++ map ob_event (q_pending q).
Definition origins (q : QueueState) : Prop := forall e, e ∈ held_events q -> e ∈ old \/ made e.
Definition writes_made (io : EmitIo) : Prop :=
  match io with WriteFile _ _ c => exists e, made e /\ dump_event e = Ok c | _ => True end.
Abbreviation from_made m := (keeps origins writes_made m).
Lemma origins_held f : (forall q, held_events (f q) = held_events q) -> from_made (modify f).
Proof. intros H. apply keeps_modify. intros q Hq e. rewrite H. apply Hq. Qed.
Ltac origins_step := first [ apply origins_held; intros []; reflexivity | apply keeps_call; exact I | keeps_step ].
Lemma on_disk_origins p f : from_made (modify (on_disk p f)).
Proof. apply origins_held. by destruct p. Qed.
#[local] Hint Resolve on_disk_origins : onex.
Lemma write_origins p n c e : made e -> dump_event e = Ok c -> from_made (write_file w_os w_left p n c).
Proof.
  intros He Hc. unfold write_file, os_call. apply keeps_bind; [apply keeps_call; by exists e|]. intros ok. repeat origins_step.
Qed.
Lemma drop_origins : from_made (_drop_oldest_spool w_os).
Proof. unfold _drop_oldest_spool, quietly, file_size, unlink_file, os_call. repeat origins_step. Qed.
#[local] Hint Resolve drop_origins : onex.
Lemma make_room_origins fuel n : from_made (make_room config w_os fuel n).
Proof. induction fuel as [|fuel IH]; simpl; repeat origins_step. Qed.
Lemma enqueue_origins e : made e -> from_made (enqueue config w_os w_left w_now dump_event e).
Proof.
  intros He. unfold enqueue. destruct (qe_tier e).
  - apply keeps_bind; [|intros ?; apply keeps_ret]. unfold outbox_append.
    eapply spec_bind with (C := fun c q => origins q /\ dump_event e = Ok c); [by apply spec_lift|]. intros c. intros s [Hs Hc].
    revert s Hs. change (from_made (q ← get_state; match outbox_full config q e (byte_len c) with
      | Some msg => raise (DurableOutboxFullError msg) | None => now ← ask w_now; _ ← write_file w_os w_left Outbox (file_name now (qe_event_id e)) c;
        _ ← modify (push_pending {| ob_event := e; ob_path := file_name now (qe_event_id e); ob_size_bytes := byte_len c |});
        mret {| ob_event := e; ob_path := file_name now (qe_event_id e); ob_size_bytes := byte_len c |} end)).
    apply keeps_bind; [repeat origins_step|]. intros q. destruct (outbox_full _ _ _ _); [repeat origins_step|].
    apply keeps_bind; [repeat origins_step|]. intros now. apply keeps_bind; [by apply (write_origins _ _ _ e)|]. intros ?.
    apply keeps_bind; [|intros ?; apply keeps_ret]. apply keeps_modify. intros q' Hq e'. unfold held_events. simpl.
    rewrite map_app, app_assoc, elem_of_app. simpl. intros [H|H%list_elem_of_singleton]; [by apply Hq|subst e'; by right].
  - apply keeps_bind; [repeat origins_step|]. intros q. destruct (_ <? _)%Z.
    + apply keeps_bind; [|intros ?; apply keeps_ret]. apply keeps_modify. intros q' Hq e'. unfold held_events, push_memory. simpl.
      rewrite !elem_of_app. intros [[H|H%list_elem_of_singleton]|H]; [apply Hq|subst e'; by right|apply Hq]; apply elem_of_app; auto.
    + destruct (spool_disabled config); [repeat origins_step|]. unfold _spool_event.
      destruct (spool_disabled config); [repeat origins_step|]. destruct (dump_event e) as [c|] eqn:Ec; [|repeat origins_step].
      apply keeps_bind; [repeat origins_step|]. intros q'. apply keeps_bind; [apply make_room_origins|]. intros ?.
      destruct (_ >? _)%Z; [repeat origins_step|]. apply keeps_bind; [repeat origins_step|]. intros now.
      apply keeps_bind; [|intros ?; apply keeps_ret]. apply keeps_attempt. unfold make_dir, os_call.
      apply keeps_bind; [repeat origins_step|]. intros ?. apply keeps_bind; [by apply (write_origins _ _ _ e)|]. intros ?. repeat origins_step.
Qed.
End origins.

(** [e] is the event of a rule of the type, without the prompt where the rule says so. *)
Definition queued_for (event_type : string) (registration : EventRegistration) (enriched : Obj) (e : ModelQueuedEvent) : Prop :=
  exists rule, rule ∈ er_fan_out registration /\ event_for event_type rule enriched e
    /\ (fr_transform rule = Some transform_strip_prompt ->
         exists o, qe_payload e = JObj o /\ dict_get "prompt" o = None /\ dict_get "prompt_b64" o = None).
Lemma event_queued_for event_type registration enriched rule e : NoDup (dict_keys enriched) -> rule ∈ er_fan_out registration ->
  event_for event_type rule enriched e -> queued_for event_type registration enriched e.
Proof.
  intros Hd Hin He. exists rule. split_and!; [done|done|]. intros Htr. destruct He as (_ & _ & _ & ->).
  exists (apply_transform rule enriched). split; [done|]. unfold apply_transform. rewrite Htr. by apply strip_prompt_private.
Qed.
Lemma emit_rules_origins old event_type registration enriched rules : NoDup (dict_keys enriched) ->
  Forall (fun rule => rule ∈ er_fan_out registration) rules -> forall last,
  keeps (origins old (queued_for event_type registration enriched)) (writes_made (queued_for event_type registration enriched))
    (emit_rules config max_payload_bytes w_os w_left w_now w_uuid dump_event event_type registration enriched rules last).
Proof.
  intros Hd. induction 1 as [|rule rules Hin _ IH]; intros last; simpl; [destruct last; apply keeps_ret|].
  apply keeps_bind; [|intros []; [apply IH|apply IH|apply keeps_ret]]. unfold emit_rule. destruct (_ >? _)%Z; [apply keeps_ret|].
  apply keeps_bind; [apply keeps_lift|]. intros key. apply keeps_bind; [by apply keeps_call|]. intros event_id.
  apply keeps_bind; [repeat keeps_step|]. intros now.
  eapply spec_bind with (C := fun e q => queued_for event_type registration enriched e /\ origins old (queued_for event_type registration enriched) q).
  { apply spec_lift; [|done]. intros e q Hq Ee%event_of_for. split; [by apply (event_queued_for _ _ _ rule)|done]. }
  intros e. apply spec_pre. intros He. apply keeps_bind; [by apply keeps_attempt, enqueue_origins|].
  intros [[|]|x]; [apply keeps_ret|apply keeps_ret|]. destruct x; try apply keeps_raise. destruct (String.eqb _ _); [apply keeps_ret|apply keeps_raise].
Qed.
Abbreviation handle_emit_ :=
  (_handle_emit config registry max_payload_bytes env_session_id w_os w_left w_now w_uuid dump_event).

(** C13. A client told its event is queued has its duty-critical part in the outbox:
    for every duty-critical rule of the event type, the rule's event, with the
    payload its transform makes of the enriched one, is among the pending ones,
    unless that payload is over the size limit; enriching changes no field but the
    metadata. And whatever the rules' tiers, nothing else is queued: each event the
    daemon newly holds, in memory or pending, and each file it writes, of the spool or
    the outbox, is the event of a rule of the type, and holds no prompt if that rule
    strips it. *)
Theorem queued_answer_covers event_type payload registration event_id s s'
    (Hreg : dict_get event_type registry = Some registration) (Hdict : NoDup (dict_keys payload))
    (Hrun : handle_emit_ event_type (JObj payload) s = (s', Ok (QueuedResponse event_id))) :
  exists enriched log, enriches payload enriched /\ s'.2 = s.2 ++ log
    /\ (forall rule, rule ∈ er_fan_out registration -> fr_tier rule = DUTY_CRITICAL ->
          oversize rule enriched \/ exists e, e ∈ map ob_event (q_pending s'.1) /\ event_for event_type rule enriched e)
    /\ (forall e, e ∈ q_memory_queue s'.1 ++ map ob_event (q_pending s'.1) ->
          e ∈ q_memory_queue s.1 ++ map ob_event (q_pending s.1) \/ queued_for event_type registration enriched e)
    /\ (forall p n c, WriteFile p n c ∈ log -> exists e, queued_for event_type registration enriched e /\ dump_event e = Ok c).
Proof.
  simpl in Hrun. unfold emit_payload in Hrun. rewrite Hreg, run_bind in Hrun.
  destruct (lift _ s) as [s0 [missing|x]] eqn:Em; [|done]. injection Em as <- Em.
  destruct (truthy missing); [done|]. rewrite run_bind in Hrun.
  set (corr := match dict_get "correlation_id" payload with Some (JStr c) => Some c | _ => None end) in Hrun.
  destruct (inject_enriches (fun q => q = s.1) (fun e => e = NewUuid) payload corr eq_refl s eq_refl) as (l0 & Hl0 & Hp0 & Hr0).
  set (inject := _inject_metadata _ _ _ _ _) in *. destruct (inject s) as [s1 [enriched|x]] eqn:Ei; [|done]. simpl in Hl0, Hr0. destruct Hr0 as [Hq Henr].
  destruct (emit_rules_cover event_type registration enriched (er_fan_out registration) [] None s1) as (l1 & Hl1 & _ & Hc); [by constructor|].
  destruct (emit_rules_origins (held_events s.1) event_type registration enriched (er_fan_out registration)) with (last := @None string) (s := s1)
    as (l2 & Hl2 & Hp2 & Ho); [by apply Henr|by apply Forall_forall|intros e He; left; by rewrite <- Hq|].
  rewrite Hrun in *. simpl in *. exists enriched, (l0 ++ l2). split_and!.
  - done.
  - by rewrite Hl2, Hl0, <- app_assoc.
  - rewrite Forall_forall in Hc. intros rule Hin Ht. by apply Hc.
  - exact Ho.
  - intros p n c [Hin|Hin]%elem_of_app; rewrite Forall_forall in *; [by specialize (Hp0 _ Hin)|exact (Hp2 _ Hin)].
Qed.
End answers.

Definition a_rule : FanOutRule :=
  {| fr_topic := JStr "onex.evt.prompt.v1"; fr_tier := DUTY_CRITICAL; fr_transform := Some transform_strip_prompt;
     fr_max_payload_bytes := None |}.
Definition t_rule : FanOutRule :=
  {| fr_topic := JStr "onex.evt.preview.v1"; fr_tier := TELEMETRY; fr_transform := Some transform_strip_prompt;
     fr_max_payload_bytes := None |}.
Definition a_registration : EventRegistration :=
  {| er_event_type := "prompt.submitted"; er_fan_out := [a_rule; t_rule]; er_partition_key_field := JNull;
     er_required_fields := JArr [JStr "prompt"]; er_payload_model := None |}.
Definition a_config : QueueConfig :=
  {| qc_max_memory_queue := 1; qc_max_spool_messages := 1; qc_max_spool_bytes := 100; qc_max_outbox_messages := 1;
     qc_max_outbox_bytes := 1000 |}.
Definition a_payload : Obj := [("prompt", JStr "secret"); ("causation_id", JStr "c"); ("entity_id", JStr "n")].
Abbreviation a_run := (_handle_emit (P := exact_fields) a_config [("prompt.submitted", a_registration)] 1000 EmptyString
  (fun _ _ => true) (fun _ => None) (fun _ => 0%Z) (fun _ => "u1") (fun _ => Ok "{}") "prompt.submitted" (JObj a_payload)
  (fresh_queue ∅ ∅, [])).
Example a_run_queued : snd a_run = Ok (QueuedResponse "u1").
Proof. vm_compute. reflexivity. Qed.
Lemma a_payload_distinct : NoDup (dict_keys a_payload).
Proof. apply (bool_decide_unpack _). vm_compute. exact I. Qed.
Lemma a_causation_kept : "causation_id" ∉ ["correlation_id"; "session_id"; "schema_version"].
Proof. apply (bool_decide_unpack _). vm_compute. exact I. Qed.
Lemma queued_answer_covers_witness :
  exists s enriched, a_run = (s, Ok (QueuedResponse "u1")) /\ dict_get "causation_id" enriched = Some (JStr "c")
    /\ (oversize 1000 a_rule enriched \/ exists e, e ∈ map ob_event (q_pending s.1) /\ event_for (P := exact_fields) "prompt.submitted" a_rule enriched e)
    /\ forall e, e ∈ q_memory_queue s.1 ++ map ob_event (q_pending s.1) -> e ∈ [] \/ queued_for (P := exact_fields) "prompt.submitted" a_registration enriched e.
Proof.
  pose proof a_run_queued as Hanswer. destruct a_run as [s r] eqn:E. simpl in Hanswer. subst r.
  destruct (queued_answer_covers (P := exact_fields) a_config [("prompt.submitted", a_registration)] 1000 EmptyString
    (fun _ _ => true) (fun _ => None) (fun _ => 0%Z) (fun _ => "u1") (fun _ => Ok "{}") "prompt.submitted" a_payload
    a_registration "u1" (fresh_queue ∅ ∅, []) s eq_refl) as (enriched & log & [_ Hf] & _ & Hall & Hnew & _); [|exact E|].
  - exact a_payload_distinct.
  - exists s, enriched. split; [exact eq_refl|]. split; [apply Hf; [exact a_causation_kept|reflexivity]|]. split; [|exact Hnew].
    exact (Hall a_rule ltac:(left) eq_refl).
Defined.
