(* ===== verification/BuildLoop.v ===== *)
(** * Build loop: the two state machines

    [node_build_loop], the phases of an autonomous build by mode with a breaker on
    consecutive failures, an instance of [RetryFsm], and [node_loop_state_reducer],
    the reducer that turns phase outcomes into intents, an instance of [Reducer].
    Times are arguments. *)
From S2P Require Import Prelude PyJson LogMonad Fsm.

(** ** [node_build_loop] *)

Module Loop.
Inductive EnumBuildLoopPhase : Type :=
  | IDLE | CLOSING_OUT | VERIFYING | FILLING | CLASSIFYING | BUILDING | RELEASING | DEPLOYING | POST_VERIFY | COMPLETE | FAILED.
#[export] Instance EnumBuildLoopPhase_eq_dec : EqDecision EnumBuildLoopPhase.
Proof. solve_decision. Defined.
Definition phase_value (p : EnumBuildLoopPhase) : string :=
  match p with
  | IDLE => "idle" | CLOSING_OUT => "closing_out" | VERIFYING => "verifying" | FILLING => "filling"
  | CLASSIFYING => "classifying" | BUILDING => "building" | RELEASING => "releasing" | DEPLOYING => "deploying"
  | POST_VERIFY => "post_verify" | COMPLETE => "complete" | FAILED => "failed"
  end.
Inductive EnumBuildLoopMode : Type := BUILD | CLOSE_OUT | FULL | OBSERVE.
#[export] Instance EnumBuildLoopMode_eq_dec : EqDecision EnumBuildLoopMode.
Proof. solve_decision. Defined.
(** [EnumBuildLoopMode(s)] *)
Definition mode_of (s : string) : result EnumBuildLoopMode :=
  if String.eqb s "build" then Ok BUILD else if String.eqb s "close_out" then Ok CLOSE_OUT
  else if String.eqb s "full" then Ok FULL else if String.eqb s "observe" then Ok OBSERVE
  else Raise (ValueError (py_repr s +:+ " is not a valid EnumBuildLoopMode")).
Definition _MODE_PHASE_SEQUENCES (mode : EnumBuildLoopMode) : list EnumBuildLoopPhase :=
  match mode with
  | BUILD => [CLOSING_OUT; VERIFYING; FILLING; CLASSIFYING; BUILDING]
  | CLOSE_OUT => [CLOSING_OUT; VERIFYING; RELEASING; DEPLOYING; POST_VERIFY]
  | FULL => [CLOSING_OUT; VERIFYING; FILLING; CLASSIFYING; BUILDING; RELEASING; DEPLOYING; POST_VERIFY]
  | OBSERVE => [VERIFYING]
  end.
Definition TERMINAL_PHASES : list EnumBuildLoopPhase := [COMPLETE; FAILED].
Definition index_out_of_range : py_exn := OtherError "IndexError" "tuple index out of range".

(** What follows the first occurrence of a phase, as [sequence.index] finds it. *)
Fixpoint after (p : EnumBuildLoopPhase) (l : list EnumBuildLoopPhase) : result (list EnumBuildLoopPhase) :=
  match l with
  | [] => Raise (ValueError "tuple.index(x): x not in tuple")
  | q :: l' => if decide (p = q) then Ok l' else after p l'
  end.
Definition head_or_complete (l : list EnumBuildLoopPhase) : EnumBuildLoopPhase :=
  match l with [] => COMPLETE | p :: _ => p end.
Definition next_phase (current : EnumBuildLoopPhase) (skip_closeout : bool) (mode : EnumBuildLoopMode)
  : result EnumBuildLoopPhase :=
  if decide (current ∈ TERMINAL_PHASES) then Raise (ValueError ("No next phase from terminal state: " +:+ phase_value current))
  else
    let sequence := _MODE_PHASE_SEQUENCES mode in
    if decide (current = IDLE) then
      match sequence with
      | [] => Raise index_out_of_range
      | first :: rest =>
          if skip_closeout && bool_decide (first = CLOSING_OUT)
          then match rest with [] => Raise index_out_of_range | second :: _ => Ok second end
          else Ok first
      end
    else
      rest ← after current sequence;
      match rest with
      | [] => Ok COMPLETE
      | next_candidate :: rest' =>
          if skip_closeout && bool_decide (next_candidate = CLOSING_OUT) then Ok (head_or_complete rest') else Ok next_candidate
      end.

Record ModelLoopStartCommand := {
  sc_correlation_id : string; sc_max_cycles : Z; sc_mode : string; sc_skip_closeout : bool; sc_max_tickets : Z;
  sc_dry_run : bool; sc_requested_at : datetime
}.
Record ModelLoopState := {
  ls_correlation_id : string; ls_current_phase : EnumBuildLoopPhase; ls_mode : EnumBuildLoopMode; ls_cycle_count : nat;
  ls_consecutive_failures : nat; ls_max_consecutive_failures : nat; ls_skip_closeout : bool; ls_dry_run : bool;
  ls_tickets_filled : Z; ls_tickets_classified : Z; ls_tickets_dispatched : Z; ls_error_message : option string;
  ls_verification_snapshot : option Obj
}.
#[export] Instance eta_loop_state : Eta ModelLoopState := fun s =>
  Build_ModelLoopState (ls_correlation_id s) (ls_current_phase s) (ls_mode s) (ls_cycle_count s) (ls_consecutive_failures s)
    (ls_max_consecutive_failures s) (ls_skip_closeout s) (ls_dry_run s) (ls_tickets_filled s) (ls_tickets_classified s)
    (ls_tickets_dispatched s) (ls_error_message s) (ls_verification_snapshot s).
Record ModelPhaseTransitionEvent := {
  pt_correlation_id : string; pt_from_phase : EnumBuildLoopPhase; pt_to_phase : EnumBuildLoopPhase; pt_success : bool;
  pt_timestamp : datetime; pt_error_message : option string
}.
Record ModelLoopCompletedEvent := {
  lc_correlation_id : string; lc_final_phase : EnumBuildLoopPhase; lc_cycles_completed : nat; lc_cycles_failed : nat;
  lc_total_tickets_dispatched : Z; lc_started_at : datetime; lc_completed_at : datetime; lc_error_message : option string
}.
Record ModelBuildLoopResult := {
  br_final_state : ModelLoopState; br_transition_events : list ModelPhaseTransitionEvent;
  br_completed_event : ModelLoopCompletedEvent
}.

Definition start (command : ModelLoopStartCommand) : result ModelLoopState :=
  mode ← mode_of (sc_mode command);
  Ok {| ls_correlation_id := sc_correlation_id command; ls_current_phase := IDLE; ls_mode := mode; ls_cycle_count := 0;
        ls_consecutive_failures := 0; ls_max_consecutive_failures := 3; ls_skip_closeout := sc_skip_closeout command;
        ls_dry_run := sc_dry_run command; ls_tickets_filled := 0; ls_tickets_classified := 0; ls_tickets_dispatched := 0;
        ls_error_message := None; ls_verification_snapshot := None |}.

(** The outcome of a phase, as [advance] takes it. *)
Record PhaseOutcome := {
  o_phase_success : bool; o_error_message : option string; o_tickets_filled : Z; o_tickets_classified : Z;
  o_tickets_dispatched : Z; o_verification_snapshot : option Obj
}.
Definition breaker_message (error_message : option string) (new_failures : nat) : string :=
  match error_message with
  | Some m => if truthy m then m else "Circuit breaker: " +:+ pretty new_failures +:+ " consecutive failures"
  | None => "Circuit breaker: " +:+ pretty new_failures +:+ " consecutive failures"
  end.
Definition advance (state : ModelLoopState) (o : PhaseOutcome) (now : datetime)
  : result (ModelLoopState * ModelPhaseTransitionEvent) :=
  let from_phase := ls_current_phase state in
  if decide (from_phase ∈ TERMINAL_PHASES) then
    Raise (ValueError ("Cannot advance from terminal phase: " +:+ phase_value from_phase))
  else if negb (o_phase_success o) then
    let new_failures := S (ls_consecutive_failures state) in
    let tripped := ls_max_consecutive_failures state <=? new_failures in
    let new_state :=
      if tripped then state <| ls_current_phase := FAILED |> <| ls_consecutive_failures := new_failures |>
                            <| ls_error_message := Some (breaker_message (o_error_message o) new_failures) |>
      else state <| ls_consecutive_failures := new_failures |> <| ls_error_message := o_error_message o |> in
    Ok (new_state,
        {| pt_correlation_id := ls_correlation_id state; pt_from_phase := from_phase; pt_to_phase := ls_current_phase new_state;
           pt_success := false; pt_timestamp := now; pt_error_message := o_error_message o |})
  else
    to_phase ← next_phase from_phase (ls_skip_closeout state) (ls_mode state);
    let s := state <| ls_current_phase := to_phase |> <| ls_consecutive_failures := 0 |> <| ls_error_message := None |>
                   <| ls_tickets_filled := (ls_tickets_filled state + o_tickets_filled o)%Z |>
                   <| ls_tickets_classified := (ls_tickets_classified state + o_tickets_classified o)%Z |>
                   <| ls_tickets_dispatched := (ls_tickets_dispatched state + o_tickets_dispatched o)%Z |> in
    let s := match o_verification_snapshot o with
             | Some snapshot => if decide (from_phase = VERIFYING) then s <| ls_verification_snapshot := Some snapshot |> else s
             | None => s
             end in
    let s := if decide (to_phase = COMPLETE) then s <| ls_cycle_count := S (ls_cycle_count s) |> else s in
    Ok (s, {| pt_correlation_id := ls_correlation_id state; pt_from_phase := from_phase; pt_to_phase := to_phase;
              pt_success := true; pt_timestamp := now; pt_error_message := None |}).
Definition make_completed_event (state : ModelLoopState) (started_at now : datetime) : ModelLoopCompletedEvent :=
  {| lc_correlation_id := ls_correlation_id state; lc_final_phase := ls_current_phase state;
     lc_cycles_completed := ls_cycle_count state; lc_cycles_failed := if decide (ls_current_phase state = FAILED) then 1 else 0;
     lc_total_tickets_dispatched := ls_tickets_dispatched state; lc_started_at := started_at; lc_completed_at := now;
     lc_error_message := ls_error_message state |}.

(** [run_full_cycle]: the loop over the phases; [results] is the dict of phase
    results, [now] the time of the [n]-th event. *)
Definition PhaseResults : Type := list (EnumBuildLoopPhase * bool).
Fixpoint results_get (p : EnumBuildLoopPhase) (results : PhaseResults) : bool :=
  match results with [] => true | (q, b) :: rest => if decide (p = q) then b else results_get p rest end.
Definition plain_outcome (success : bool) (error : option string) (snapshot : option Obj) : PhaseOutcome :=
  {| o_phase_success := success; o_error_message := error; o_tickets_filled := 0; o_tickets_classified := 0;
     o_tickets_dispatched := 0; o_verification_snapshot := snapshot |}.
Definition default_snapshot (now : datetime) : Obj :=
  [("captured_at", JStr (isoformat now)); ("platform_readiness", JStr "pass"); ("golden_chain", JStr "pass"); ("data_flow", JStr "pass")].
Fixpoint cycle_loop (fuel : nat) (now : nat -> datetime) (results : PhaseResults) (state : ModelLoopState)
    (events : list ModelPhaseTransitionEvent) : result (ModelLoopState * list ModelPhaseTransitionEvent) :=
  match fuel with
  | O => Ok (state, events)
  | S fuel' =>
      if decide (ls_current_phase state ∈ TERMINAL_PHASES) then Ok (state, events)
      else
        target ← next_phase (ls_current_phase state) (ls_skip_closeout state) (ls_mode state);
        let success := results_get target results in
        let error_msg := if success then None else Some ("Phase " +:+ phase_value target +:+ " failed") in
        let t := now (length events) in
        let snapshot := if bool_decide (ls_current_phase state = VERIFYING) && success then Some (default_snapshot t) else None in
        '(state', event) ← advance state (plain_outcome success error_msg snapshot) t;
        if negb success && negb (bool_decide (ls_current_phase state' ∈ TERMINAL_PHASES)) then Ok (state', events ++ [event])
        else cycle_loop fuel' now results state' (events ++ [event])
  end.
(** One round per phase of the longest sequence and one more. *)
Definition cycle_fuel : nat := 10.
Definition run_full_cycle (now : nat -> datetime) (command : ModelLoopStartCommand) (phase_results : PhaseResults)
  : result (ModelLoopState * list ModelPhaseTransitionEvent * ModelLoopCompletedEvent) :=
  state ← start command;
  '(state, events) ← cycle_loop cycle_fuel now phase_results state [];
  Ok (state, events, make_completed_event state (now 0) (now (length events))).
Definition handle (now : nat -> datetime) (command : ModelLoopStartCommand) (phase_results : PhaseResults)
  : result ModelBuildLoopResult :=
  '(state, events, completed) ← run_full_cycle now command phase_results;
  Ok {| br_final_state := state; br_transition_events := events; br_completed_event := completed |}.

(** *** The machine is a [RetryFsm] *)

Definition loop_terminal (s : ModelLoopState) : bool := bool_decide (ls_current_phase s ∈ TERMINAL_PHASES).
(** The phases a cycle goes through from the current one to [COMPLETE]. *)
Definition phases_left (s : ModelLoopState) : nat :=
  match ls_current_phase s with
  | COMPLETE | FAILED => 0
  | IDLE => S (length (filter (fun p => negb (ls_skip_closeout s && bool_decide (p = CLOSING_OUT))) (_MODE_PHASE_SEQUENCES (ls_mode s))))
  | p => match after p (_MODE_PHASE_SEQUENCES (ls_mode s)) with Ok rest => S (length rest) | Raise _ => 0 end
  end.
End Loop.

(** ** [node_loop_state_reducer] *)

Module LoopState.
Inductive EnumBuildLoopPhase : Type := IDLE | CLOSING_OUT | VERIFYING | FILLING | CLASSIFYING | BUILDING | COMPLETE | FAILED.
#[export] Instance EnumBuildLoopPhase_eq_dec : EqDecision EnumBuildLoopPhase.
Proof. solve_decision. Defined.
Inductive EnumBuildLoopIntentType : Type :=
  | START_CLOSEOUT | START_VERIFY | START_FILL | START_CLASSIFY | START_BUILD | CYCLE_COMPLETE | CIRCUIT_BREAK.
#[export] Instance EnumBuildLoopIntentType_eq_dec : EqDecision EnumBuildLoopIntentType.
Proof. solve_decision. Defined.
Record ModelBuildLoopEvent := {
  be_correlation_id : string; be_source_phase : EnumBuildLoopPhase; be_success : bool; be_timestamp : datetime;
  be_error_message : option string; be_tickets_filled : Z; be_tickets_classified : Z; be_tickets_dispatched : Z
}.
Record ModelBuildLoopIntent := {
  bi_intent_type : EnumBuildLoopIntentType; bi_correlation_id : string; bi_cycle_number : nat; bi_from_phase : EnumBuildLoopPhase
}.
Record ModelBuildLoopState := {
  bs_correlation_id : string; bs_phase : EnumBuildLoopPhase; bs_cycle_number : nat; bs_max_cycles : Z;
  bs_consecutive_failures : nat; bs_max_consecutive_failures : nat; bs_skip_closeout : bool; bs_dry_run : bool;
  bs_started_at : option datetime; bs_last_phase_at : option datetime; bs_error_message : option string;
  bs_tickets_filled : Z; bs_tickets_classified : Z; bs_tickets_dispatched : Z
}.
#[export] Instance eta_build_loop_state : Eta ModelBuildLoopState := fun s =>
  Build_ModelBuildLoopState (bs_correlation_id s) (bs_phase s) (bs_cycle_number s) (bs_max_cycles s)
    (bs_consecutive_failures s) (bs_max_consecutive_failures s) (bs_skip_closeout s) (bs_dry_run s) (bs_started_at s)
    (bs_last_phase_at s) (bs_error_message s) (bs_tickets_filled s) (bs_tickets_classified s) (bs_tickets_dispatched s).

(** Success and failure phase of a phase that has any. *)
Definition _TRANSITIONS (p : EnumBuildLoopPhase) : option (EnumBuildLoopPhase * EnumBuildLoopPhase) :=
  match p with
  | IDLE => Some (CLOSING_OUT, FAILED)
  | CLOSING_OUT => Some (VERIFYING, FAILED)
  | VERIFYING => Some (FILLING, FAILED)
  | FILLING => Some (CLASSIFYING, FAILED)
  | CLASSIFYING => Some (BUILDING, FAILED)
  | BUILDING => Some (COMPLETE, FAILED)
  | COMPLETE | FAILED => None
  end.
Definition _PHASE_INTENTS (p : EnumBuildLoopPhase) : option EnumBuildLoopIntentType :=
  match p with
  | CLOSING_OUT => Some START_CLOSEOUT
  | VERIFYING => Some START_VERIFY
  | FILLING => Some START_FILL
  | CLASSIFYING => Some START_CLASSIFY
  | BUILDING => Some START_BUILD
  | COMPLETE => Some CYCLE_COMPLETE
  | IDLE | FAILED => None
  end.
Definition breaker_error (new_failures : nat) (last : option string) : string :=
  "Circuit breaker: " +:+ pretty new_failures +:+ " consecutive failures. Last: " +:+ default "None" last.
Definition failed (state : ModelBuildLoopState) (event : ModelBuildLoopEvent) (failure_phase : EnumBuildLoopPhase)
  : ModelBuildLoopState * list ModelBuildLoopIntent :=
  let new_failures := S (bs_consecutive_failures state) in
  let s := state <| bs_consecutive_failures := new_failures |> <| bs_last_phase_at := Some (be_timestamp event) |> in
  if bs_max_consecutive_failures state <=? new_failures then
    (s <| bs_phase := FAILED |> <| bs_error_message := Some (breaker_error new_failures (be_error_message event)) |>,
     [{| bi_intent_type := CIRCUIT_BREAK; bi_correlation_id := bs_correlation_id state;
         bi_cycle_number := bs_cycle_number state; bi_from_phase := bs_phase state |}])
  else (s <| bs_phase := failure_phase |> <| bs_error_message := be_error_message event |>, []).
Definition succeeded (state : ModelBuildLoopState) (event : ModelBuildLoopEvent) (success_phase : EnumBuildLoopPhase)
  : ModelBuildLoopState * list ModelBuildLoopIntent :=
  let idle := bool_decide (bs_phase state = IDLE) in
  let next_phase := if idle && bs_skip_closeout state then VERIFYING else success_phase in
  let s := state <| bs_phase := next_phase |> <| bs_consecutive_failures := 0 |>
                 <| bs_last_phase_at := Some (be_timestamp event) |> <| bs_error_message := None |> in
  let s := if (be_tickets_filled event >? 0)%Z then s <| bs_tickets_filled := be_tickets_filled event |> else s in
  let s := if (be_tickets_classified event >? 0)%Z then s <| bs_tickets_classified := be_tickets_classified event |> else s in
  let s := if (be_tickets_dispatched event >? 0)%Z then s <| bs_tickets_dispatched := be_tickets_dispatched event |> else s in
  let s := if idle then s <| bs_started_at := Some (be_timestamp event) |> <| bs_cycle_number := S (bs_cycle_number state) |> else s in
  (s, match _PHASE_INTENTS next_phase with
      | Some intent_type => [{| bi_intent_type := intent_type; bi_correlation_id := bs_correlation_id state;
                                bi_cycle_number := bs_cycle_number s; bi_from_phase := next_phase |}]
      | None => []
      end).
Definition delta (state : ModelBuildLoopState) (event : ModelBuildLoopEvent)
  : ModelBuildLoopState * list ModelBuildLoopIntent :=
  if negb (String.eqb (be_correlation_id event) (bs_correlation_id state)) then (state, [])
  else if negb (bool_decide (be_source_phase event = bs_phase state)) then (state, [])
  else if bool_decide (bs_phase state ∈ [COMPLETE; FAILED]) then (state, [])
  else
    match _TRANSITIONS (bs_phase state) with
    | None => (state, [])
    | Some (success_phase, failure_phase) =>
        if be_success event then succeeded state event success_phase else failed state event failure_phase
    end.
#[export] Instance loop_reducer : Reducer ModelBuildLoopState ModelBuildLoopEvent ModelBuildLoopIntent := delta.
Definition new_state (correlation_id : string) (max_consecutive_failures : nat) (skip_closeout : bool) : ModelBuildLoopState :=
  {| bs_correlation_id := correlation_id; bs_phase := IDLE; bs_cycle_number := 0; bs_max_cycles := 1; bs_consecutive_failures := 0;
     bs_max_consecutive_failures := max_consecutive_failures; bs_skip_closeout := skip_closeout; bs_dry_run := false;
     bs_started_at := None; bs_last_phase_at := None; bs_error_message := None; bs_tickets_filled := 0;
     bs_tickets_classified := 0; bs_tickets_dispatched := 0 |}.
End LoopState.
