(* ===== verification/OverseerVerifier.v ===== *)
(** * Build loop: the overseer's verifier

    [node_overseer_verifier/handlers/handler_overseer_verifier.py], the six checks
    of what an agent reports and the verdict they give.  What [gh pr checks] says of
    the [n]-th claimed pull request is an argument. *)
From S2P Require Import Prelude PyFloat PyJson LogMonad.

Record ModelClaimedPr := { cl_pr_number : Z; cl_repo : string }.
Record ModelVerifierRequest := {
  vq_task_id : string; vq_status : string; vq_domain : string; vq_node_id : string; vq_runner_id : option string;
  vq_attempt : Z; vq_payload : Obj; vq_error : option string; vq_confidence : option float; vq_cost_so_far : option float;
  vq_allowed_actions : list string; vq_declared_invariants : list string; vq_schema_version : string;
  vq_claimed_prs : list ModelClaimedPr
}.
(** A request with the fields that have no default. *)
Definition verifier_request (task_id status domain node_id : string) (payload : Obj) : ModelVerifierRequest :=
  {| vq_task_id := task_id; vq_status := status; vq_domain := domain; vq_node_id := node_id; vq_runner_id := None;
     vq_attempt := 1; vq_payload := payload; vq_error := None; vq_confidence := None; vq_cost_so_far := None;
     vq_allowed_actions := []; vq_declared_invariants := []; vq_schema_version := "1.0"; vq_claimed_prs := [] |}.

Record CheckResult := { ck_name : string; ck_passed : bool; ck_message : string; ck_failure_reason : string }.
Definition pass_check (name : string) : CheckResult :=
  {| ck_name := name; ck_passed := true; ck_message := EmptyString; ck_failure_reason := EmptyString |}.
Definition fail_check (name message reason : string) : CheckResult :=
  {| ck_name := name; ck_passed := false; ck_message := message; ck_failure_reason := reason |}.
Definition noted_check (name message : string) : CheckResult :=
  {| ck_name := name; ck_passed := true; ck_message := message; ck_failure_reason := EmptyString |}.
Record VerifierResult := {
  vr_verdict : string; vr_checks : list Obj; vr_failure_class : option string; vr_summary : string
}.

Definition _CONFIDENCE_THRESHOLD : float := rat 1 2.
Definition _GH_CHECKS_TIMEOUT_SECONDS : Z := 30.
Definition _MAX_CLAIMED_PRS : Z := 20.
Definition _GLOBAL_ALLOWED_ACTIONS : list string :=
  ["dispatch"; "escalate"; "retry"; "complete"; "fail"; "pause"; "cancel"; "skip"].
Definition _FAILURE_CLASSES (name : string) : option string :=
  if String.eqb name "input_completeness" then Some "DATA_INTEGRITY"
  else if String.eqb name "invariant_preservation" then Some "DATA_INTEGRITY"
  else if String.eqb name "outcome_success_validation" then Some "PERMANENT"
  else if String.eqb name "allowed_action_scope" then Some "CONFIGURATION"
  else if String.eqb name "contract_compliance" then Some "CONFIGURATION"
  else if String.eqb name "pr_checks_live" then Some "DATA_INTEGRITY" else None.
Definition _ESCALATE_REASONS : list string := ["INSUFFICIENT_REASONING"; "INVARIANT_VIOLATION"; "VERIFIER_REJECTION"].
Definition _CHECK_PRIORITY : list string :=
  ["input_completeness"; "invariant_preservation"; "outcome_success_validation"; "pr_checks_live"; "allowed_action_scope";
   "contract_compliance"].

(** ** The checks *)

Definition blank (s : string) : bool := negb (truthy (py_strip s)).
(** The names of the fields that are blank. *)
Definition blanks (fields : list (string * string)) : list string :=
  map fst (List.filter (fun kv => blank kv.2) fields).
Definition _check_input_completeness (req : ModelVerifierRequest) : CheckResult :=
  let missing := blanks [("task_id", vq_task_id req); ("status", vq_status req); ("domain", vq_domain req);
                         ("node_id", vq_node_id req)] in
  if truthy missing then
    fail_check "input_completeness" ("Required fields missing or empty: " +:+ py_join ", " missing) "DATA_INTEGRITY"
  else pass_check "input_completeness".
Definition _check_invariant_preservation (req : ModelVerifierRequest) : CheckResult :=
  let cost := match vq_cost_so_far req with
              | Some c => if flt c fzero then ["cost_so_far=" +:+ float_repr c +:+ " must be >= 0.0"] else []
              | None => []
              end in
  let attempt := if (vq_attempt req <? 1)%Z then ["attempt=" +:+ pretty (vq_attempt req) +:+ " must be >= 1"] else [] in
  let violations := cost ++ attempt in
  if truthy violations then
    fail_check "invariant_preservation" ("INVARIANT_VIOLATION: " +:+ py_join "; " violations) "INVARIANT_VIOLATION"
  else pass_check "invariant_preservation".
Definition _check_outcome_success_validation (req : ModelVerifierRequest) : CheckResult :=
  match vq_confidence req with
  | None => noted_check "outcome_success_validation" "confidence not provided; skipping threshold check."
  | Some c =>
      if flt c _CONFIDENCE_THRESHOLD then
        fail_check "outcome_success_validation"
          ("confidence=" +:+ format_fixed 3 c +:+ " is below threshold " +:+ format_fixed 3 _CONFIDENCE_THRESHOLD)
          "VERIFIER_REJECTION"
      else pass_check "outcome_success_validation"
  end.
Definition _check_allowed_action_scope (req : ModelVerifierRequest) : CheckResult :=
  let unknown := List.filter (fun a => negb (str_in a _GLOBAL_ALLOWED_ACTIONS)) (vq_allowed_actions req) in
  if truthy unknown then
    fail_check "allowed_action_scope" ("Actions outside allowed scope: " +:+ py_join ", " (sort_by id unknown)) "CONFIGURATION"
  else pass_check "allowed_action_scope".
Definition _check_contract_compliance (req : ModelVerifierRequest) : CheckResult :=
  let issues := map (fun f => f +:+ " is empty")
                  (blanks [("schema_version", vq_schema_version req); ("domain", vq_domain req)]) in
  if truthy issues then
    fail_check "contract_compliance" ("Contract compliance failures: " +:+ py_join "; " issues) "CONFIGURATION"
  else pass_check "contract_compliance".

(** What running [gh pr checks] comes to. *)
Inductive GhOutcome : Type :=
  | GhTimeout
  | GhInvocationError (message : string)
  | GhExit (returncode : Z) (stdout stderr : string).
Definition upper_state (item : Obj) : string := py_upper (json_str (default (JStr EmptyString) (dict_get "state" item))).
Definition _check_row_passes (item : Obj) : bool :=
  let bucket := py_lower (json_str (default (JStr EmptyString) (dict_get "bucket" item))) in
  if negb (String.eqb bucket "pass") then false
  else
    let state := upper_state item in
    negb (truthy state && negb (str_in state ["SUCCESS"; "SKIPPED"; "NEUTRAL"])).
Definition row_name (item : Obj) : string :=
  let name := default JNull (dict_get "name" item) in if truthy name then json_str name else "<unnamed>".
(** The rows of the parsed output, if it is a list of objects. *)
Fixpoint objects_of (l : list json) : option (list Obj) :=
  match l with
  | [] => Some []
  | JObj o :: l' => option_map (cons o) (objects_of l')
  | _ :: _ => None
  end.
Definition _verify_claimed_pr (claim : ModelClaimedPr) (outcome : GhOutcome) : option string :=
  let pr := cl_repo claim +:+ "#" +:+ pretty (cl_pr_number claim) in
  match outcome with
  | GhTimeout => Some (pr +:+ ": timeout after " +:+ pretty _GH_CHECKS_TIMEOUT_SECONDS +:+ "s")
  | GhInvocationError m => Some (pr +:+ ": invocation error: " +:+ m)
  | GhExit returncode stdout stderr =>
      if negb (returncode =? 0)%Z then Some (pr +:+ ": gh exit " +:+ pretty returncode +:+ ": " +:+ py_strip stderr)
      else
        match json_loads (if truthy stdout then stdout else "[]") with
        | Raise exc => Some (pr +:+ ": JSON parse error: " +:+ exn_str exc)
        | Ok (JArr items) =>
            match objects_of items with
            | None => Some (pr +:+ ": JSON shape error: expected list of objects")
            | Some rows =>
                let red_checks := map row_name (List.filter (fun r => negb (_check_row_passes r)) rows) in
                if truthy red_checks then Some (pr +:+ ": failing checks: " +:+ py_join ", " (sorted_set red_checks)) else None
            end
        | Ok _ => Some (pr +:+ ": JSON shape error: expected top-level list")
        end
  end.
(** The [n]-th call of [gh] is about the [n]-th claim. *)
Definition claim_failures (gh : nat -> ModelClaimedPr -> GhOutcome) (claims : list ModelClaimedPr) : list string :=
  omap id (imap (fun n claim => _verify_claimed_pr claim (gh n claim)) claims).
Definition _check_pr_checks_live (gh : nat -> ModelClaimedPr -> GhOutcome) (req : ModelVerifierRequest) : CheckResult :=
  let claims := vq_claimed_prs req in
  let n := Z.of_nat (length claims) in
  if negb (truthy claims) then noted_check "pr_checks_live" "no claimed PRs; skipping live check."
  else if (n >? _MAX_CLAIMED_PRS)%Z then
    fail_check "pr_checks_live"
      ("too many claimed PRs (" +:+ pretty n +:+ "); max allowed is " +:+ pretty _MAX_CLAIMED_PRS) "DATA_INTEGRITY"
  else
    let failures := claim_failures gh claims in
    if truthy failures then
      fail_check "pr_checks_live" ("Claimed PRs not verified green: " +:+ py_join "; " failures) "DATA_INTEGRITY"
    else noted_check "pr_checks_live" ("All " +:+ pretty n +:+ " claimed PR(s) verified green.").

(** ** The verdict *)

Definition opt_json (o : option string) : json := match o with Some s => JStr s | None => JNull end.
Definition check_dict (c : CheckResult) : Obj :=
  [("name", JStr (ck_name c)); ("passed", JBool (ck_passed c)); ("message", JStr (ck_message c));
   ("failure_class", if ck_passed c then JNull else opt_json (_FAILURE_CLASSES (ck_name c)))].
(** [{c.name: c for c in failed}[name]]: the last one of a name. *)
Definition named_check (name : string) (failed : list CheckResult) : option CheckResult :=
  last (List.filter (fun c => String.eqb (ck_name c) name) failed).
Definition _classify_failure (first : CheckResult) (failed : list CheckResult) : CheckResult :=
  default first (head (omap (fun name => named_check name failed) _CHECK_PRIORITY)).
Definition _determine_verdict (dominant : CheckResult) : string :=
  if str_in (ck_failure_reason dominant) _ESCALATE_REASONS then "ESCALATE" else "FAIL".
Definition checks_of (gh : nat -> ModelClaimedPr -> GhOutcome) (request : ModelVerifierRequest) : list CheckResult :=
  [_check_input_completeness request; _check_invariant_preservation request; _check_outcome_success_validation request;
   _check_pr_checks_live gh request; _check_allowed_action_scope request; _check_contract_compliance request].
Definition verify (gh : nat -> ModelClaimedPr -> GhOutcome) (request : ModelVerifierRequest) : VerifierResult :=
  let checks := checks_of gh request in
  match List.filter (fun c => negb (ck_passed c)) checks with
  | [] => {| vr_verdict := "PASS"; vr_checks := map check_dict checks; vr_failure_class := None;
             vr_summary := "All checks passed." |}
  | (first :: _) as failed =>
      let dominant := _classify_failure first failed in
      {| vr_verdict := _determine_verdict dominant; vr_checks := map check_dict checks;
         vr_failure_class := _FAILURE_CLASSES (ck_name dominant);
         vr_summary := "Check failed: " +:+ ck_name dominant +:+ " — " +:+ ck_message dominant |}
  end.
