(* ===== verification/BuildOrchestrator.v ===== *)
(** * Build loop: the orchestrator

    [node_build_loop_orchestrator/handlers/handler_build_loop_orchestrator.py] with
    its models and protocols: the cycles of a build, each phase of the state machine
    handed to a sub-handler and its result handed back, and what is published.  The
    sub-handlers and the event bus answer by functions of the calls before (a bus is always given, and a
    message on it that is not an object is dropped with its callback's exception);
    the topics come from the contract file. *)
From S2P Require Import Prelude PyFloat PyJson PyDyn LogMonad PrLifecycle BuildLoop OverseerVerifier.
Import Loop.

(** ** Requests and results of the sub-handlers *)

Record ScoredTicket := {
  st_ticket_id : string; st_title : string; st_rsd_score : float; st_priority : Z; st_labels : list string;
  st_description : string; st_state : string
}.
Record BuildTarget := { bt_ticket_id : string; bt_title : string; bt_buildability : string; bt_template_node_id : option string }.
Record DelegationPayload := { dp_topic : string; dp_payload : Obj }.
Record RsdFillResult := { rf_selected_tickets : list ScoredTicket; rf_total_selected : nat }.
Record DispatchResult := { dr_total_dispatched : nat; dr_delegation_payloads : list DelegationPayload }.
Record ModelLoopCycleSummary := {
  cs_correlation_id : string; cs_cycle_number : nat; cs_final_phase : EnumBuildLoopPhase; cs_started_at : datetime;
  cs_completed_at : datetime; cs_tickets_filled : Z; cs_tickets_classified : Z; cs_tickets_dispatched : Z;
  cs_pr_refs : list string; cs_cost_event_keys : list string; cs_error_message : option string
}.
Record ModelOrchestratorResult := {
  or_correlation_id : string; or_cycles_completed : nat; or_cycles_failed : nat; or_cycle_summaries : list ModelLoopCycleSummary;
  or_total_tickets_dispatched : Z; or_run_id : string; or_workflow_name : string; or_event_type : string;
  or_terminal_event_at : datetime
}.
Record ModelOrchestratorStartCommand := {
  oc_correlation_id : string; oc_mode : EnumBuildLoopMode; oc_max_cycles : Z; oc_skip_closeout : bool; oc_max_tickets : Z;
  oc_dry_run : bool; oc_requested_at : datetime
}.
(** [EnumOrchestratorMode] has the members of [EnumBuildLoopMode]. *)
Definition mode_value (m : EnumBuildLoopMode) : string :=
  match m with BUILD => "build" | CLOSE_OUT => "close_out" | FULL => "full" | OBSERVE => "observe" end.
Inductive BuildCommand : Type := LoopCommand (command : ModelLoopStartCommand) | StartCommand (command : ModelOrchestratorStartCommand).
Definition _to_loop_command (command : BuildCommand) : ModelLoopStartCommand :=
  match command with
  | LoopCommand c => c
  | StartCommand c =>
      {| sc_correlation_id := oc_correlation_id c; sc_max_cycles := oc_max_cycles c; sc_mode := mode_value (oc_mode c);
         sc_skip_closeout := oc_skip_closeout c; sc_max_tickets := oc_max_tickets c; sc_dry_run := oc_dry_run c;
         sc_requested_at := oc_requested_at c |}
  end.
Record Topics := {
  tp_phase_transition : string; tp_failed : string; tp_dod_checked : string; tp_overseer_verification_completed : string;
  tp_overseer_verify_requested : string
}.

(** ** The handler's state, and what it asks *)

Record Metrics := { m_tickets_filled : Z; m_tickets_classified : Z; m_tickets_dispatched : Z }.
Definition no_metrics : Metrics := {| m_tickets_filled := 0; m_tickets_classified := 0; m_tickets_dispatched := 0 |}.
Record OrchState := {
  o_last_fill_result : list ScoredTicket; o_last_classify_result : list BuildTarget; o_last_pr_refs : list string;
  o_last_cost_event_keys : list string; o_metrics : Metrics
}.
#[export] Instance eta_orch_state : Eta OrchState := fun s =>
  Build_OrchState (o_last_fill_result s) (o_last_classify_result s) (o_last_pr_refs s) (o_last_cost_event_keys s) (o_metrics s).
Definition new_orch : OrchState :=
  {| o_last_fill_result := []; o_last_classify_result := []; o_last_pr_refs := []; o_last_cost_event_keys := [];
     o_metrics := no_metrics |}.
Inductive BuildIo : Type :=
  | CallCloseout (correlation_id : string) (dry_run : bool)
  | CallVerify (correlation_id : string) (dry_run : bool)
  | CallFill (correlation_id : string) (tickets : list ScoredTicket) (max_tickets : Z)
  | CallClassify (correlation_id : string) (tickets : list ScoredTicket)
  | CallDispatch (correlation_id : string) (targets : list BuildTarget) (dry_run : bool)
  | Publish (topic value : string)
  | PublishEnvelope (topic : string) (payload : Obj) (correlation_id : string)
  | Subscribe (topic group_id : string)
  | AwaitVerdict.
Record World := {
  w_closeout : list BuildIo -> result bool;
  w_verify : list BuildIo -> result bool;
  w_fill : list BuildIo -> result RsdFillResult;
  w_classify : list BuildIo -> result (list BuildTarget);
  w_dispatch : list BuildIo -> result DispatchResult;
  w_publish : list BuildIo -> BuildIo -> result unit;
  (** The messages of the verdict topic that arrive before the wait ends. *)
  w_messages : list BuildIo -> list string;
  w_now : list BuildIo -> datetime;
  w_gh : nat -> ModelClaimedPr -> GhOutcome
}.

Section orchestrator.
Context (topics : Topics) (verify_explicitly_injected can_subscribe : bool) (w : World).
Abbreviation Act := (M OrchState BuildIo).

Definition publish (e : BuildIo) : Act unit := call e (fun l => w_publish w l e).
Definition now_ : Act datetime := ask (w_now w).
Definition iso_now : Act json := t ← now_; mret (JStr (isoformat t)).

(** *** Publishing *)

Definition event_json (event : ModelPhaseTransitionEvent) : json :=
  JObj [("correlation_id", JStr (pt_correlation_id event)); ("from_phase", JStr (phase_value (pt_from_phase event)));
        ("to_phase", JStr (phase_value (pt_to_phase event))); ("success", JBool (pt_success event));
        ("timestamp", JStr (json_datetime (pt_timestamp event))); ("error_message", opt_json (pt_error_message event))].
Definition _publish_phase_event (event : ModelPhaseTransitionEvent) : Act unit :=
  publish (Publish (tp_phase_transition topics) (json_dumps (event_json event))).
Definition check_passed (c : json) : bool :=
  match c with JObj o => truthy (default JNull (dict_get "passed" o)) | _ => false end.
Definition check_failed (c : json) : bool :=
  match c with JObj o => negb (truthy (default JNull (dict_get "passed" o))) | _ => false end.
Definition count_json (f : json -> bool) (l : list json) : json := JInt (Z.of_nat (length (List.filter f l))).
Definition _publish_dod_event (task_id verdict : string) (checks : list json) (correlation_id : string) : Act unit :=
  timestamp ← iso_now;
  publish (Publish (tp_dod_checked topics)
    (json_dumps (JObj [("task_id", JStr task_id); ("verdict", JStr verdict); ("checks_passed", count_json check_passed checks);
                       ("checks_failed", count_json check_failed checks); ("correlation_id", JStr correlation_id);
                       ("timestamp", timestamp)]))).
(** [type(exc).__name__] *)
Definition exn_class (exc : py_exn) : string :=
  match exc with
  | ValueError _ => "ValueError" | TypeError _ => "TypeError" | KeyError _ => "KeyError" | RuntimeError _ => "RuntimeError"
  | AssertionError _ => "AssertionError" | ZeroDivisionError _ => "ZeroDivisionError" | OverflowError _ => "OverflowError"
  | OtherError cls _ => cls
  end.
Definition _publish_failed_event (correlation_id : string) (exc : py_exn) : Act unit :=
  timestamp ← iso_now;
  _ ← attempt (publish (Publish (tp_failed topics)
    (json_dumps (JObj [("correlation_id", JStr correlation_id); ("error_type", JStr (exn_class exc));
                       ("error_message", JStr (exn_str exc)); ("timestamp", timestamp)]))));
  mret ().

(** *** The phases *)

Definition PhaseAnswer : Type := bool * option string.
Definition passed : PhaseAnswer := (true, None).
Definition failed_with (reason : string) : PhaseAnswer := (false, Some reason).
(** The callback of the subscription, over the messages of the wait: [None] when
    none of them is about this cycle. *)
Definition take_message (correlation_id : string) (verdict : option Obj) (value : string) : option Obj :=
  match json_loads value with
  | Ok (JObj data) =>
      if String.eqb (json_str (default JNull (dict_get "correlation_id" data))) correlation_id
      then Some (foldl (fun o kv => dict_set kv.1 kv.2 o) (default [] verdict) data) else verdict
  | _ => verdict
  end.
Definition criteria_of (verdict : Obj) : result string :=
  match default (JArr []) (dict_get "failed_criteria" verdict) with
  | j => if truthy j then (l ← py_iter j; Ok (py_join "; " (map json_str l))) else Ok "overseer verification failed"
  end.
Definition _run_overseer_verify (correlation_id : string) (dry_run : bool) : Act PhaseAnswer :=
  if verify_explicitly_injected || dry_run then
    ok ← call (CallVerify correlation_id dry_run) (w_verify w);
    mret (if (ok : bool) then passed else failed_with "Critical verification checks failed")
  else
    timestamp ← iso_now;
    _ ← publish (Publish (tp_overseer_verify_requested topics)
          (json_dumps (JObj [("correlation_id", JStr correlation_id); ("requested_by", JStr "build_loop_orchestrator");
                             ("timestamp", timestamp)])));
    _ ← when can_subscribe (publish (Subscribe (tp_overseer_verification_completed topics)
                                       ("build-loop-overseer-wait-" +:+ correlation_id)));
    messages ← call AwaitVerdict (fun l => Ok (if can_subscribe then w_messages w l else []));
    match foldl (take_message correlation_id) None messages with
    | None => mret (failed_with "verifier_timeout")
    | Some verdict =>
        if truthy (default (JBool false) (dict_get "passed" verdict)) then mret passed
        else (reason ← lift (criteria_of verdict); mret (failed_with reason))
    end.
Definition set_metrics (f : Metrics -> Metrics) : Act unit := modify (fun s => s <| o_metrics := f (o_metrics s) |>).
Definition auto_buildable (l : list BuildTarget) : list BuildTarget :=
  map (fun c => {| bt_ticket_id := bt_ticket_id c; bt_title := bt_title c; bt_buildability := bt_buildability c;
                   bt_template_node_id := None |})
    (List.filter (fun c => String.eqb (bt_buildability c) "auto_buildable") l).
(** The texts of a payload's field that is a string or a list. *)
Definition strings_of (k : string) (payload : Obj) : list string :=
  match dict_get k payload with Some (JStr s) => [s] | Some (JArr l) => map json_str l | _ => [] end.
Definition cost_keys_of (payload : Obj) : list string :=
  strings_of "cost_event_keys" payload
  ++ match dict_get "cost_event_key" payload with None | Some JNull => [] | Some j => [json_str j] end.
Definition payload_correlation (correlation_id : string) (payload : Obj) : string :=
  let c := default JNull (dict_get "correlation_id" payload) in if truthy c then json_str c else correlation_id.
Definition publish_delegation (correlation_id : string) (dp : DelegationPayload) : Act unit :=
  publish (PublishEnvelope (dp_topic dp) (dp_payload dp) (payload_correlation correlation_id (dp_payload dp))).
(** The check of one dispatched target. *)
Definition dod_request (correlation_id : string) (target : BuildTarget) : ModelVerifierRequest :=
  verifier_request (bt_ticket_id target) "completed" "build_loop" correlation_id [].
Definition verify_target (correlation_id : string) (failures : list string) (target : BuildTarget) : Act (list string) :=
  let r := verify (w_gh w) (dod_request correlation_id target) in
  _ ← _publish_dod_event (bt_ticket_id target) (vr_verdict r) (map JObj (vr_checks r)) correlation_id;
  mret (if String.eqb (vr_verdict r) "PASS" then failures
        else failures ++ [bt_ticket_id target +:+ ": " +:+ default "None" (vr_failure_class r)]).
Definition build_phase (correlation_id : string) (dry_run : bool) : Act PhaseAnswer :=
  s ← get_state;
  dispatch_result ← call (CallDispatch correlation_id (o_last_classify_result s) dry_run) (w_dispatch w);
  let payloads := dr_delegation_payloads dispatch_result in
  _ ← modify (fun s => s <| o_last_pr_refs := dict_fromkeys (concat (map (fun dp => strings_of "pr_refs" (dp_payload dp)) payloads)) |>
                         <| o_last_cost_event_keys := dict_fromkeys (concat (map (fun dp => cost_keys_of (dp_payload dp)) payloads)) |>);
  _ ← for_each payloads (publish_delegation correlation_id);
  _ ← set_metrics (fun m => {| m_tickets_filled := m_tickets_filled m; m_tickets_classified := m_tickets_classified m;
                               m_tickets_dispatched := Z.of_nat (dr_total_dispatched dispatch_result) |});
  failures ← fold_each (o_last_classify_result s) [] (verify_target correlation_id);
  mret (if truthy failures then failed_with ("DoD verification failed for: " +:+ py_join ", " failures) else passed).
(** The advisory check logs a verdict and changes nothing. *)
Definition _run_advisory_overseer_check (correlation_id : string) (classified_count : nat) : VerifierResult :=
  verify (w_gh w) (verifier_request correlation_id "classifying_complete" "build_loop" "node_build_loop_orchestrator"
                     [("classified_count", JInt (Z.of_nat classified_count))]).
Definition phase_body (phase : EnumBuildLoopPhase) (correlation_id : string) (dry_run : bool) (max_tickets : Z) : Act PhaseAnswer :=
  match phase with
  | CLOSING_OUT => _ ← call (CallCloseout correlation_id dry_run) (w_closeout w); mret passed
  | VERIFYING => _run_overseer_verify correlation_id dry_run
  | FILLING =>
      r ← call (CallFill correlation_id [] max_tickets) (w_fill w);
      _ ← modify (fun s => s <| o_last_fill_result := rf_selected_tickets r |>);
      _ ← set_metrics (fun m => {| m_tickets_filled := Z.of_nat (rf_total_selected r); m_tickets_classified := m_tickets_classified m;
                                   m_tickets_dispatched := m_tickets_dispatched m |});
      mret passed
  | CLASSIFYING =>
      s ← get_state;
      classifications ← call (CallClassify correlation_id (o_last_fill_result s)) (w_classify w);
      _ ← modify (fun s => s <| o_last_classify_result := auto_buildable classifications |>);
      _ ← set_metrics (fun m => {| m_tickets_filled := m_tickets_filled m;
                                   m_tickets_classified := Z.of_nat (length classifications);
                                   m_tickets_dispatched := m_tickets_dispatched m |});
      mret passed
  | BUILDING => build_phase correlation_id dry_run
  | _ => mret (failed_with ("Unknown phase: " +:+ phase_value phase))
  end.
Definition _execute_phase (phase : EnumBuildLoopPhase) (command : ModelLoopStartCommand) : Act PhaseOutcome :=
  _ ← set_metrics (fun _ => no_metrics);
  r ← attempt (phase_body phase (sc_correlation_id command) (sc_dry_run command) (sc_max_tickets command));
  let '(success, error) := match r with Ok answer => answer | Raise exc => failed_with (exn_str exc) end in
  s ← get_state;
  let m := o_metrics s in
  mret {| o_phase_success := success; o_error_message := error; o_tickets_filled := m_tickets_filled m;
          o_tickets_classified := m_tickets_classified m; o_tickets_dispatched := m_tickets_dispatched m;
          o_verification_snapshot := None |}.

(** *** Cycles *)

Definition advance_ (state : ModelLoopState) (o : PhaseOutcome) : Act ModelLoopState :=
  t ← now_;
  '(state', event) ← lift (advance state o t);
  _ ← _publish_phase_event event; mret state'.
(** [fuel] is the phases that may still be executed. *)
Fixpoint run_phases (fuel : nat) (command : ModelLoopStartCommand) (state : ModelLoopState) : Act ModelLoopState :=
  match fuel with
  | O => mret state
  | S fuel' =>
      if loop_terminal state then mret state
      else
        outcome ← _execute_phase (ls_current_phase state) command;
        state' ← advance_ state outcome;
        run_phases fuel' command state'
  end.
(** Eight phases at most, three tries each. *)
Definition phase_fuel : nat := 24.
Definition _run_cycle (command : ModelLoopStartCommand) : Act ModelLoopCycleSummary :=
  cycle_start ← now_;
  _ ← modify (fun _ => new_orch);
  state ← lift (start command);
  state ← advance_ state (plain_outcome true None None);
  state ← run_phases phase_fuel command state;
  completed_at ← now_;
  s ← get_state;
  mret {| cs_correlation_id := sc_correlation_id command; cs_cycle_number := Nat.max (ls_cycle_count state) 1;
          cs_final_phase := ls_current_phase state; cs_started_at := cycle_start; cs_completed_at := completed_at;
          cs_tickets_filled := ls_tickets_filled state; cs_tickets_classified := ls_tickets_classified state;
          cs_tickets_dispatched := ls_tickets_dispatched state; cs_pr_refs := o_last_pr_refs s;
          cs_cost_event_keys := o_last_cost_event_keys s; cs_error_message := ls_error_message state |}.
(** The cycles left, and the summaries so far. *)
Fixpoint run_cycles (n : nat) (command : ModelLoopStartCommand) (summaries : list ModelLoopCycleSummary)
  : Act (list ModelLoopCycleSummary) :=
  match n with
  | O => mret summaries
  | S n' =>
      summary ← _run_cycle command;
      let summaries := summaries ++ [summary] in
      if bool_decide (cs_final_phase summary = COMPLETE) then run_cycles n' command summaries else mret summaries
  end.
Definition cycle_completed (s : ModelLoopCycleSummary) : bool := bool_decide (cs_final_phase s = COMPLETE).
Definition sum_dispatched (l : list ModelLoopCycleSummary) : Z := foldr (fun s n => (cs_tickets_dispatched s + n)%Z) 0%Z l.
Definition latest (t : datetime) (l : list ModelLoopCycleSummary) : datetime :=
  match l with [] => t | s :: l' => foldl (fun t s => Z.max t (cs_completed_at s)) (cs_completed_at s) l' end.
Definition orchestrator_result (correlation_id : string) (summaries : list ModelLoopCycleSummary) (now : datetime)
  : ModelOrchestratorResult :=
  let completed := List.filter cycle_completed summaries in
  {| or_correlation_id := correlation_id; or_cycles_completed := length completed;
     or_cycles_failed := length summaries - length completed; or_cycle_summaries := summaries;
     or_total_tickets_dispatched := sum_dispatched completed; or_run_id := correlation_id; or_workflow_name := "build_loop";
     or_event_type := "build-loop-orchestrator-completed"; or_terminal_event_at := latest now summaries |}.
Definition handle (command : BuildCommand) : Act ModelOrchestratorResult :=
  let loop_command := _to_loop_command command in
  r ← attempt (summaries ← run_cycles (Z.to_nat (sc_max_cycles loop_command)) loop_command [];
               t ← now_; mret (orchestrator_result (sc_correlation_id loop_command) summaries t));
  match r with
  | Ok result => mret result
  | Raise exc => _ ← _publish_failed_event (sc_correlation_id loop_command) exc; raise exc
  end.
End orchestrator.
