(* ===== verification/BuildLoopProps.v ===== *)
(** * Build loop: what a run comes to

    The phase machine is a [RetryFsm]; a run of the orchestrator ends and says how
    its cycles ended; the verifier's verdict condition by condition, and what its
    gate on built tickets amounts to; the schedule of the reducer's intents. *)
From S2P Require Import Prelude PyFloat PyJson PyDyn LogMonad Fsm PrLifecycle BuildLoop OverseerVerifier BuildOrchestrator.
Import Loop.

(** ** The phase machine *)

(** The phases a state can be in: those of its mode, at the start or at the end. *)
Definition phase_valid (s : ModelLoopState) : Prop :=
  ls_current_phase s = IDLE \/ ls_current_phase s ∈ _MODE_PHASE_SEQUENCES (ls_mode s).
Definition loop_wf (s : ModelLoopState) : Prop :=
  loop_terminal s = false -> ls_consecutive_failures s < ls_max_consecutive_failures s /\ phase_valid s.

(** The sequences by computation. *)
Lemma next_phase_table m skip p :
  p <> COMPLETE -> p <> FAILED -> p = IDLE \/ p ∈ _MODE_PHASE_SEQUENCES m ->
  exists p', next_phase p skip m = Ok p' /\ p' <> FAILED /\ p' <> IDLE
    /\ (p' = COMPLETE \/ p' ∈ _MODE_PHASE_SEQUENCES m)
    /\ forall s, ls_current_phase s = p -> ls_mode s = m -> ls_skip_closeout s = skip ->
         phases_left s = S (phases_left (s <| ls_current_phase := p' |>)).
Proof.
  intros H1 H2 H3.
  assert (bool_decide (p = IDLE \/ p ∈ _MODE_PHASE_SEQUENCES m) = true) as Hb by (by apply bool_decide_eq_true_2).
  destruct m, skip, p; try done; vm_compute in Hb; try discriminate Hb; eexists; (split; [reflexivity|]); (split; [discriminate|]);
    (split; [discriminate|]); (split; [first [left; reflexivity | right; apply (bool_decide_unpack _); vm_compute; exact I]|]);
    intros s Hp Hm Hs; unfold phases_left; simpl; rewrite ?Hp, ?Hm, ?Hs; reflexivity.
Qed.
Lemma terminal_iff s : loop_terminal s = true <-> ls_current_phase s = COMPLETE \/ ls_current_phase s = FAILED.
Proof. unfold loop_terminal, TERMINAL_PHASES. rewrite bool_decide_eq_true. set_solver. Qed.
Lemma terminal_false s : loop_terminal s = false <-> ls_current_phase s <> COMPLETE /\ ls_current_phase s <> FAILED.
Proof. rewrite <- not_true_iff_false, terminal_iff. tauto. Qed.

(** One step, by its outcome. *)
Lemma advance_fails s o now :
  loop_terminal s = false -> o_phase_success o = false ->
  exists s' e, advance s o now = Ok (s', e) /\ ls_mode s' = ls_mode s /\ ls_skip_closeout s' = ls_skip_closeout s
    /\ ls_max_consecutive_failures s' = ls_max_consecutive_failures s
    /\ ls_consecutive_failures s' = S (ls_consecutive_failures s)
    /\ ls_current_phase s' = if ls_max_consecutive_failures s <=? S (ls_consecutive_failures s) then FAILED else ls_current_phase s.
Proof.
  intros Ht Ho. unfold loop_terminal in Ht. apply bool_decide_eq_false in Ht. unfold advance. rewrite decide_False, Ho by done. simpl.
  destruct (_ <=? _); do 2 eexists; by split_and!.
Qed.
Lemma advance_succeeds s o now :
  loop_terminal s = false -> phase_valid s -> o_phase_success o = true ->
  exists s' e, advance s o now = Ok (s', e) /\ ls_mode s' = ls_mode s /\ ls_skip_closeout s' = ls_skip_closeout s
    /\ ls_max_consecutive_failures s' = ls_max_consecutive_failures s
    /\ ls_consecutive_failures s' = 0
    /\ next_phase (ls_current_phase s) (ls_skip_closeout s) (ls_mode s) = Ok (ls_current_phase s')
    /\ phases_left s = S (phases_left s') /\ ls_current_phase s' <> FAILED
    /\ (ls_current_phase s' = COMPLETE \/ ls_current_phase s' ∈ _MODE_PHASE_SEQUENCES (ls_mode s')).
Proof.
  intros Ht Hv Ho. pose proof (proj1 (terminal_false s) Ht) as [H1 H2].
  destruct (next_phase_table (ls_mode s) (ls_skip_closeout s) (ls_current_phase s) H1 H2 Hv) as (p' & Hn & Hf & _ & Hp & Hl).
  unfold loop_terminal in Ht. apply bool_decide_eq_false in Ht. unfold advance. rewrite decide_False, Ho by done. simpl. rewrite Hn. simpl.
  specialize (Hl s eq_refl eq_refl eq_refl). unfold phases_left in Hl at 2. simpl in Hl.
  do 2 eexists. split; [reflexivity|].
  destruct (o_verification_snapshot o); repeat case_decide; simpl; unfold phases_left at 2; simpl; by split_and!.
Qed.
Lemma phases_left_terminal s : loop_terminal s = true -> phases_left s = 0.
Proof. intros [H|H]%terminal_iff; unfold phases_left; by rewrite H. Qed.
Lemma phases_left_valid s : loop_terminal s = false -> phase_valid s -> 1 <= phases_left s.
Proof.
  intros [H1 H2]%terminal_false Hv.
  destruct (next_phase_table (ls_mode s) (ls_skip_closeout s) (ls_current_phase s) H1 H2 Hv) as (p' & _ & _ & _ & _ & Hl).
  rewrite (Hl s eq_refl eq_refl eq_refl). lia.
Qed.

#[export] Program Instance build_loop_fsm : RetryFsm ModelLoopState (PhaseOutcome * datetime) := {
  rf_advance s i := fst <$> advance s i.1 i.2;
  rf_success i := o_phase_success i.1;
  rf_terminal := loop_terminal;
  rf_failures := ls_consecutive_failures;
  rf_max := ls_max_consecutive_failures;
  rf_rank := phases_left;
  rf_wf := loop_wf
}.
Next Obligation.
  intros s i Ht. unfold loop_terminal in Ht. apply bool_decide_eq_true in Ht. unfold advance. rewrite decide_True by done. eauto.
Qed.
Next Obligation.
  intros s [o now] Hwf Ht. destruct (Hwf Ht) as [_ Hv]. simpl. destruct (o_phase_success o) eqn:Ho.
  - destruct (advance_succeeds s o now Ht Hv Ho) as (s' & e & -> & _). by exists s'.
  - destruct (advance_fails s o now Ht Ho) as (s' & e & -> & _). by exists s'.
Qed.
Next Obligation.
  intros s [o now] s' Hwf Ha. simpl in Ha. destruct (loop_terminal s) eqn:Ht.
  { unfold loop_terminal in Ht. apply bool_decide_eq_true in Ht. unfold advance in Ha. by rewrite decide_True in Ha. }
  destruct (Hwf Ht) as [Hf Hv]. destruct (o_phase_success o) eqn:Ho.
  - destruct (advance_succeeds s o now Ht Hv Ho) as (s1 & e & E & Hm & _ & Hx & Hc & _ & _ & _ & Hp). rewrite E in Ha.
    injection Ha as <-. split; [|done]. intros Ht'. split; [lia|]. apply terminal_false in Ht' as [H1 _]. right. by destruct Hp.
  - destruct (advance_fails s o now Ht Ho) as (s1 & e & E & Hm & _ & Hx & Hc & Hp). rewrite E in Ha. injection Ha as <-.
    split; [|done]. intros Ht'. apply terminal_false in Ht' as [_ H2]. destruct (_ <=? _) eqn:El; [done|].
    apply Nat.leb_gt in El. split; [lia|]. unfold phase_valid. by rewrite Hm, Hp.
Qed.
Next Obligation.
  intros s [o now] s' Hwf Ho Ha. simpl in Ho, Ha. destruct (loop_terminal s) eqn:Ht.
  { unfold loop_terminal in Ht. apply bool_decide_eq_true in Ht. unfold advance in Ha. by rewrite decide_True in Ha. }
  destruct (Hwf Ht) as [Hf Hv]. destruct (advance_succeeds s o now Ht Hv Ho) as (s1 & e & E & Hm & _ & Hx & Hc & _ & Hl & Hnf & Hp).
  rewrite E in Ha. injection Ha as <-. split_and!; [done|done|]. split; [apply phases_left_terminal|]. intros H0.
  destruct (loop_terminal s1) eqn:Ht1; [done|]. pose proof (phases_left_valid s1 Ht1). assert (phase_valid s1) as Hv1.
  { apply terminal_false in Ht1 as [H1 _]. right. by destruct Hp. }
  specialize (H Hv1). lia.
Qed.
Next Obligation.
  intros s [o now] s' Hwf Ho Ha. simpl in Ho, Ha. destruct (loop_terminal s) eqn:Ht.
  { unfold loop_terminal in Ht. apply bool_decide_eq_true in Ht. unfold advance in Ha. by rewrite decide_True in Ha. }
  destruct (advance_fails s o now Ht Ho) as (s1 & e & E & Hm & Hs & Hx & Hc & Hp). rewrite E in Ha. injection Ha as <-.
  split; [done|]. destruct (_ <=? _) eqn:El; (split; [split|]).
  - intros _. by apply Nat.leb_le.
  - intros _. apply terminal_iff. by right.
  - intros Ht'. apply terminal_false in Ht' as [_ H2]. done.
  - intros Ht'. apply terminal_iff in Ht'. rewrite Hp in Ht'. apply terminal_false in Ht as [? ?]. by destruct Ht'.
  - apply Nat.leb_gt in El. lia.
  - intros _. unfold phases_left. by rewrite Hp, Hm, Hs.
Qed.
Next Obligation.
  intros s Hwf Ht. destruct (Hwf Ht) as [Hf Hv]. split; [done|]. by apply phases_left_valid.
Qed.

(** ** The standalone cycle *)

Lemma started command mode :
  mode_of (sc_mode command) = Ok mode ->
  exists st, start command = Ok st /\ ls_mode st = mode /\ ls_current_phase st = IDLE /\ loop_wf st /\ loop_terminal st = false
    /\ phases_left st <= 9 /\ ls_consecutive_failures st = 0 /\ ls_max_consecutive_failures st = 3.
Proof.
  intros E. unfold start. rewrite E. simpl. eexists. split; [reflexivity|]. split_and!; try done.
  - intros _. simpl. split; [lia|by left].
  - unfold phases_left. simpl. destruct mode, (sc_skip_closeout command); vm_compute; lia.
Qed.
Lemma not_terminal s : loop_terminal s = false -> ls_current_phase s ∉ TERMINAL_PHASES.
Proof. unfold loop_terminal. by rewrite bool_decide_eq_false. Qed.
(** A round fails, which stops the cycle, or leaves one phase less. *)
Lemma cycle_loop_ends now results fuel : forall st es,
  loop_wf st -> ls_consecutive_failures st = 0 -> ls_max_consecutive_failures st = 3 -> phases_left st <= fuel ->
  exists st' es', cycle_loop fuel now results st es = Ok (st', es')
    /\ (ls_current_phase st <> FAILED -> ls_current_phase st' <> FAILED)
    /\ (loop_terminal st' = true \/ exists e, last es' = Some e /\ pt_success e = false)
    /\ length es' <= length es + phases_left st.
Proof.
  induction fuel as [|fuel IH]; intros st es Hwf Hf Hx Hl; simpl; destruct (loop_terminal st) eqn:Ht.
  - do 2 eexists. split; [reflexivity|]. split_and!; [done|by left|lia].
  - destruct (Hwf Ht) as [_ Hv]. pose proof (phases_left_valid st Ht Hv). lia.
  - unfold loop_terminal in Ht. apply bool_decide_eq_true in Ht. rewrite decide_True by done. do 2 eexists. split; [reflexivity|].
    split_and!; [done|left; unfold loop_terminal; by apply bool_decide_eq_true|lia].
  - rewrite decide_False by (by apply not_terminal). destruct (Hwf Ht) as [_ Hv]. pose proof (proj1 (terminal_false st) Ht) as [H1 H2].
    pose proof (phases_left_valid st Ht Hv) as Hl1.
    destruct (next_phase_table (ls_mode st) (ls_skip_closeout st) (ls_current_phase st) H1 H2 Hv) as (p & Hn & _). rewrite Hn. cbn [mbind result_bind].
    destruct (results_get p results) eqn:Er.
    + match goal with |- context [advance st ?o ?t] => destruct (advance_succeeds st o t Ht Hv eq_refl)
        as (st1 & e & -> & Hm & Hs & Hx1 & Hf1 & _ & Hd & Hnf & Hp) end. cbn [mbind result_bind negb andb].
      destruct (IH st1 (es ++ [e])) as (st2 & es2 & -> & Hn2 & He & Hlen); [|done|congruence|lia|].
      { intros Ht1. split; [lia|]. apply terminal_false in Ht1 as [Hc _]. right. by destruct Hp. }
      do 2 eexists. split; [reflexivity|]. rewrite length_app in Hlen. simpl in Hlen. split_and!; [auto|done|lia].
    + match goal with |- context [advance st ?o ?t] => destruct (advance_fails st o t Ht eq_refl)
        as (st1 & e & Ea & Hm & Hs & Hx1 & Hf1 & Hp) end. rewrite Ea.
      rewrite Hf, Hx in Hp. cbn in Hp. cbn [mbind result_bind negb andb]. rewrite Hp, bool_decide_eq_false_2 by (by apply not_terminal). cbn [negb].
      do 2 eexists. split; [reflexivity|]. rewrite Hp, length_app. simpl. split_and!; [done| |lia]. right. exists e. split; [by rewrite last_snoc|].
      unfold advance in Ea. rewrite decide_False in Ea by (by apply not_terminal). cbn in Ea. by destruct (_ <=? _); injection Ea as <- <-.
Qed.
(** The cycle ends by completing or at the first phase that failed, never in
    [FAILED], after nine transitions at most. *)
Theorem full_cycle_ends now command mode results :
  mode_of (sc_mode command) = Ok mode ->
  exists st events completed, run_full_cycle now command results = Ok (st, events, completed)
    /\ lc_cycles_failed completed = 0 /\ length events <= 9
    /\ (ls_current_phase st = COMPLETE \/ exists e, last events = Some e /\ pt_success e = false).
Proof.
  intros Em. unfold run_full_cycle.
  destruct (started command mode Em) as (st & -> & _ & Hi & Hwf & _ & Hl & Hf & Hx).
  cbn [mbind result_bind]. destruct (cycle_loop_ends now results cycle_fuel st [] Hwf Hf Hx ltac:(unfold cycle_fuel; lia))
    as (st1 & es & -> & Hn & He & Hlen). cbn [mbind result_bind]. assert (ls_current_phase st1 <> FAILED) as Hn1 by (apply Hn; by rewrite Hi).
  do 3 eexists. split; [reflexivity|]. split_and!.
  - unfold make_completed_event. simpl. by rewrite decide_False.
  - simpl in Hlen. lia.
  - destruct He as [[He|He]%terminal_iff|He]; [by left|done|by right].
Qed.

(** ** The orchestrator *)

Definition any_build_io (e : BuildIo) : Prop := True.
(** A phase no sub-handler takes. *)
Definition unhandled (p : EnumBuildLoopPhase) : bool :=
  bool_decide (p ∈ [IDLE; RELEASING; DEPLOYING; POST_VERIFY; COMPLETE; FAILED]).
(** A cycle that must pass an unhandled phase has not. *)
Definition releases (m : EnumBuildLoopMode) : bool := bool_decide (m ∈ [FULL; CLOSE_OUT]).
Definition stuck_before (s : ModelLoopState) : Prop :=
  releases (ls_mode s) = true -> ls_current_phase s ∉ [DEPLOYING; POST_VERIFY; COMPLETE].

Lemma stuck_success m skip p p' :
  releases m = true -> p ∉ [DEPLOYING; POST_VERIFY; COMPLETE] -> p <> RELEASING -> next_phase p skip m = Ok p' ->
  p' ∉ [DEPLOYING; POST_VERIFY; COMPLETE].
Proof.
  intros Hm Hp Hr Hn. apply (bool_decide_unpack _). destruct m, skip, p; try done; vm_compute in Hn; try discriminate Hn;
    injection Hn as <-; try exact I; exfalso; apply Hp; set_solver.
Qed.

Lemma spec_fact {S E T} (Q : Prop) (P : E -> Prop) (m : M S E T) B X :
  (Q -> spec (fun _ => True) P m B X) -> spec (fun _ => Q) P m B X.
Proof. intros H s HQ. exact (H HQ s I). Qed.

Section orchestrator.
Context (topics : Topics) (injected can_subscribe : bool) (w : World).
Context (published : forall l e, w_publish w l e = Ok ()).
Abbreviation execute_ := (_execute_phase topics injected can_subscribe w).
Abbreviation run_phases_ := (run_phases topics injected can_subscribe w).

Lemma phase_body_any p cid dry n : emits any_build_io (phase_body topics injected can_subscribe w p cid dry n).
Proof.
  unfold phase_body, _run_overseer_verify, build_phase, publish_delegation, verify_target, _publish_dod_event, set_metrics, publish,
    iso_now, now_. emits_auto.
Qed.
Lemma unhandled_fails p cid dry n s :
  unhandled p = true -> exists r, phase_body topics injected can_subscribe w p cid dry n s = (s, Ok (false, Some r)).
Proof. unfold unhandled. intros H. apply bool_decide_eq_true in H. destruct p; try set_solver; by eexists. Qed.
Lemma execute_outcome p command :
  spec (fun _ => True) any_build_io (execute_ p command)
    (fun o _ => unhandled p = true -> o_phase_success o = false) (fun _ => False).
Proof.
  unfold _execute_phase. eapply spec_bind with (C := fun _ _ => True); [by apply spec_modify|]. intros ?.
  eapply spec_bind with (C := fun r _ => unhandled p = true -> match r with Ok (ok, _) => ok = false | Raise _ => True end).
  - apply (spec_attempt _ _ _ _ (fun _ => True)); [|done]. intros s _.
    destruct (phase_body_any p (sc_correlation_id command) (sc_dry_run command) (sc_max_tickets command) s I) as (l & Hl & Hp & _).
    exists l. split_and!; [done|done|]. destruct (unhandled p) eqn:Hu.
    + destruct (unhandled_fails p (sc_correlation_id command) (sc_dry_run command) (sc_max_tickets command) s Hu) as (r & E).
      rewrite E. simpl. by intros _.
    + destruct (phase_body _ _ _ _ _ _ _ _ s) as [s' [[ok err]|x]]; done.
  - assert (forall success error, spec (fun _ => unhandled p = true -> success = false) any_build_io
      (s ← get_state;
       mret {| o_phase_success := success; o_error_message := error; o_tickets_filled := m_tickets_filled (o_metrics s);
               o_tickets_classified := m_tickets_classified (o_metrics s); o_tickets_dispatched := m_tickets_dispatched (o_metrics s);
               o_verification_snapshot := None |}) (fun o _ => unhandled p = true -> o_phase_success o = false) (fun _ => False)) as Hmk.
    { intros success error. eapply spec_bind with (C := fun _ _ => unhandled p = true -> success = false); [by apply spec_get|].
      intros s. by apply spec_ret. }
    intros [[ok err]|x]; [apply Hmk|]. eapply spec_weaken; [apply Hmk|..]; by try done.
Qed.
Lemma publish_phase s e :
  exists s', _publish_phase_event topics w e s = (s', Ok ()).
Proof. unfold _publish_phase_event, publish, call. rewrite published. by eexists. Qed.
Lemma advance_any (A : OrchState -> Prop) st o :
  loop_wf st -> loop_terminal st = false ->
  spec A any_build_io (advance_ topics w st o)
    (fun st' _ => exists t, rf_advance (RetryFsm := build_loop_fsm) st (o, t) = Ok st') (fun _ => False).
Proof.
  intros Hwf Ht. unfold advance_. eapply spec_bind with (C := fun _ _ => True); [by apply spec_ask|]. intros t.
  destruct (@rf_total _ _ build_loop_fsm st (o, t) Hwf Ht) as (st' & E). simpl in E. destruct (advance st o t) as [[st1 e]|x] eqn:Ea; [|done].
  injection E as ->. simpl. eapply spec_bind with (C := fun r _ => r = (st', e)); [by apply spec_ret|].
  intros r s ->. simpl. rewrite !run_bind.
  exists [Publish (tp_phase_transition topics) (json_dumps (event_json e))].
  unfold _publish_phase_event, publish, call. rewrite published. simpl. split_and!; [done|by constructor|].
  exists t. by rewrite Ea.
Qed.
(** What a step keeps. *)
Lemma advance_keeps st o t st' :
  loop_wf st -> loop_terminal st = false -> rf_advance (RetryFsm := build_loop_fsm) st (o, t) = Ok st' ->
  stuck_before st -> (unhandled (ls_current_phase st) = true -> ls_current_phase st <> IDLE -> o_phase_success o = false) ->
  ls_mode st' = ls_mode st /\ stuck_before st'.
Proof.
  intros Hwf Ht Ha Hs Ho. simpl in Ha. destruct (Hwf Ht) as [_ Hv]. destruct (o_phase_success o) eqn:Eo.
  - destruct (advance_succeeds st o t Ht Hv Eo) as (s1 & e & E & Hm & _ & _ & _ & Hn & _). rewrite E in Ha. injection Ha as <-.
    split; [done|]. intros Hr. rewrite Hm in Hr. eapply (stuck_success _ _ (ls_current_phase st)); [exact Hr|by apply Hs| |exact Hn].
    intros Hp. rewrite Hp in Ho. specialize (Ho eq_refl). by discriminate Ho.
  - destruct (advance_fails st o t Ht Eo) as (s1 & e & E & Hm & _ & _ & _ & Hp). rewrite E in Ha. injection Ha as <-.
    split; [done|]. intros Hr. rewrite Hm in Hr. specialize (Hs Hr). rewrite Hp. destruct (_ <=? _); [set_solver|done].
Qed.
Lemma run_phases_ends command fuel : forall st,
  loop_wf st -> fuel_left (F := build_loop_fsm) st <= fuel -> stuck_before st -> ls_current_phase st <> IDLE ->
  spec (fun _ => True) any_build_io (run_phases_ fuel command st)
    (fun st' _ => loop_terminal st' = true /\ ls_mode st' = ls_mode st /\ stuck_before st') (fun _ => False).
Proof.
  induction fuel as [|fuel IH]; intros st Hwf Hl Hs Hi; simpl.
  - apply spec_ret. intros _ _. split_and!; [|done|done]. unfold fuel_left in Hl. simpl in Hl. destruct (loop_terminal st) eqn:Ht; [done|].
    destruct (@rf_below _ _ build_loop_fsm st Hwf Ht) as [H _]. cbn in H, Hl. nia.
  - destruct (loop_terminal st) eqn:Ht; [by apply spec_ret|].
    eapply spec_bind; [apply execute_outcome|]. intros o. destruct (@rf_total _ _ build_loop_fsm st (o, 0%Z) Hwf Ht) as (? & _).
    cbv beta. refine (spec_fact _ _ _ _ _ _). intros Ho. eapply spec_bind; [by apply (advance_any (fun _ => True))|]. intros st1. cbv beta. refine (spec_fact _ _ _ _ _ _). intros (t & Ha).
    pose proof (fuel_left_decreases (F := build_loop_fsm) st (o, t) st1 Hwf Ht Ha) as Hd.
    destruct (@rf_preserves _ _ build_loop_fsm st (o, t) st1 Hwf Ha) as [Hwf1 _].
    destruct (advance_keeps st o t st1 Hwf Ht Ha Hs ltac:(auto)) as [Hm Hs1].
    assert (ls_current_phase st1 <> IDLE) as Hi1.
    { destruct (Hwf Ht) as [_ Hv]. simpl in Ha. destruct (o_phase_success o) eqn:Eo.
      - destruct (advance_succeeds st o t Ht Hv Eo) as (s1 & e & E & Hm1 & _ & _ & _ & _ & _ & _ & Hp). rewrite E in Ha. injection Ha as <-.
        destruct Hp as [->|Hp]; [done|]. intros Hx. rewrite Hx in Hp. by destruct (ls_mode s1); set_solver.
      - destruct (advance_fails st o t Ht Eo) as (s1 & e & E & _ & _ & _ & _ & Hp). rewrite E in Ha. injection Ha as <-.
        rewrite Hp. by destruct (_ <=? _). }
    rewrite <- Hm. apply (IH st1 Hwf1 ltac:(lia) Hs1 Hi1).
Qed.

(** *** Cycles *)

(** How a cycle ends. *)
Definition cycle_ended (mode : EnumBuildLoopMode) (s : ModelLoopCycleSummary) : Prop :=
  (cs_final_phase s = COMPLETE \/ cs_final_phase s = FAILED) /\ (releases mode = true -> cs_final_phase s = FAILED).
Lemma cycle_ends command mode :
  mode_of (sc_mode command) = Ok mode ->
  spec (fun _ => True) any_build_io (_run_cycle topics injected can_subscribe w command)
    (fun summary _ => cycle_ended mode summary) (fun _ => False).
Proof.
  intros Em. destruct (started command mode Em) as (st & Es & Hm & Hi & Hwf & Ht & Hl & Hf & Hx). unfold _run_cycle.
  eapply spec_bind with (C := fun _ _ => True); [by apply spec_ask|]. intros t0.
  eapply spec_bind with (C := fun _ _ => True); [by apply spec_modify|]. intros ?. rewrite Es.
  eapply spec_bind with (C := fun r _ => r = st); [by apply spec_ret|]. intros r. cbv beta. refine (spec_fact _ _ _ _ _ _). intros ->.
  eapply spec_bind; [by apply (advance_any (fun _ => True))|]. intros st1. cbv beta. refine (spec_fact _ _ _ _ _ _). intros (t & Ha).
  destruct (@rf_preserves _ _ build_loop_fsm st _ st1 Hwf Ha) as [Hwf1 Hx1].
  destruct (@rf_on_success _ _ build_loop_fsm st (plain_outcome true None None, t) st1 Hwf eq_refl Ha) as (Hf1 & Hr1 & _).
  destruct (advance_keeps st (plain_outcome true None None) t st1 Hwf Ht Ha) as [Hm1 Hs1];
    [intros _; rewrite Hi; set_solver|by rewrite Hi|].
  assert (ls_current_phase st1 <> IDLE) as Hi1.
  { simpl in Ha. destruct (Hwf Ht) as [_ Hv].
    destruct (advance_succeeds st (plain_outcome true None None) t Ht Hv eq_refl) as (s1 & e & E & _ & _ & _ & _ & Hn & _). rewrite E in Ha.
    injection Ha as <-. destruct (next_phase_table (ls_mode st) (ls_skip_closeout st) IDLE) as (p' & Hn' & _ & Hp' & _); [done|done|by left|].
    rewrite Hi, Hn' in Hn. by injection Hn as <-. }
  assert (fuel_left (F := build_loop_fsm) st1 <= phase_fuel) as Hfuel.
  { unfold fuel_left. cbn in *. unfold phase_fuel. destruct (loop_terminal st1); [lia|]. rewrite Hx1, Hx. nia. }
  eapply spec_bind with (C := fun st' _ => loop_terminal st' = true /\ ls_mode st' = mode /\ stuck_before st').
  - eapply spec_weaken; [by apply (run_phases_ends command phase_fuel st1)|done|done| |done]. intros st' ? (H1 & H2 & H3).
    split_and!; [done|congruence|done].
  - intros st'. eapply spec_bind with (C := fun _ _ => loop_terminal st' = true /\ ls_mode st' = mode /\ stuck_before st'); [by apply spec_ask|].
    intros t1. eapply spec_bind with (C := fun _ _ => loop_terminal st' = true /\ ls_mode st' = mode /\ stuck_before st'); [by apply spec_get|].
    intros s1. apply spec_ret. intros ? (H1%terminal_iff & <- & H3). split; [done|]. intros Hr. specialize (H3 Hr). cbn.
    destruct H1 as [H1|H1]; [|done]. rewrite H1 in H3. set_solver.
Qed.
(** All cycles but the last are complete, and it too if no cycle is left. *)
Definition settled (mode : EnumBuildLoopMode) (n : nat) (l : list ModelLoopCycleSummary) : Prop :=
  Forall (cycle_ended mode) l /\ exists a b, l = a ++ b /\ Forall (fun s => cycle_completed s = true) a
    /\ (b = [] /\ length l = n \/ exists s, b = [s] /\ cycle_completed s = false /\ length l <= n).
Lemma cycles_settle command mode n : mode_of (sc_mode command) = Ok mode -> forall summaries,
  Forall (cycle_ended mode) summaries -> Forall (fun s => cycle_completed s = true) summaries ->
  spec (fun _ => True) any_build_io (run_cycles topics injected can_subscribe w n command summaries)
    (fun r _ => settled mode (length summaries + n) r) (fun _ => False).
Proof.
  intros Em. induction n as [|n IH]; intros summaries H1 H2; simpl.
  - apply spec_ret. intros _ _. split; [done|]. exists summaries, []. rewrite app_nil_r, Nat.add_0_r. auto.
  - eapply spec_bind; [by apply cycle_ends|]. intros summary s He. unfold cycle_completed in *.
    assert (Forall (cycle_ended mode) (summaries ++ [summary])) as H1' by (apply Forall_app; auto).
    destruct (bool_decide (cs_final_phase summary = COMPLETE)) eqn:Ec.
    + assert (Forall (fun s => bool_decide (cs_final_phase s = COMPLETE) = true) (summaries ++ [summary])) as H2' by (apply Forall_app; auto).
      destruct (IH _ H1' H2' s I) as (l & Hl & Hp & Hr). exists l. split_and!; [done|done|].
      destruct (run_cycles _ _ _ _ _ _ _ s) as [s' [r|x]]; simpl in *; [|done].
      rewrite length_app, <- Nat.add_assoc in Hr. exact Hr.
    + exists []. rewrite app_nil_r. split_and!; [done|by constructor|]. simpl.
      split; [done|]. exists summaries, [summary]. split_and!; [done|done|]. right. exists summary. split_and!; [done|done|].
      rewrite length_app. simpl. lia.
Qed.
Lemma all_completed l : Forall (fun s => cycle_completed s = true) l -> List.filter cycle_completed l = l.
Proof. induction 1 as [|x l Hx _ IH]; simpl; [done|]. by rewrite Hx, IH. Qed.

(** A mode that is none fails the run at the start of its first cycle. *)
Lemma bad_mode command x n s : mode_of (sc_mode command) = Raise x -> 
  run_cycles topics injected can_subscribe w (S n) command [] s = ((new_orch, s.2), Raise x).
Proof. intros E. unfold run_cycles, _run_cycle, start. rewrite E. by destruct s. Qed.
Lemma failure_published x cid s : exists value, _publish_failed_event topics w cid x s = ((s.1, s.2 ++ [Publish (tp_failed topics) value]), Ok ()).
Proof. eexists. unfold _publish_failed_event, iso_now, now_, publish, call, attempt, ask, mbind, M_bind, mret, M_ret. reflexivity. Qed.
End orchestrator.

(** A world in which every sub-handler succeeds and two targets are dispatched. *)
Definition sample_topics : Topics :=
  {| tp_phase_transition := "phase"; tp_failed := "failed"; tp_dod_checked := "dod"; tp_overseer_verification_completed := "verified";
     tp_overseer_verify_requested := "verify" |}.
Definition sample_targets : list BuildTarget :=
  [{| bt_ticket_id := "T-1"; bt_title := "one"; bt_buildability := "auto_buildable"; bt_template_node_id := None |};
   {| bt_ticket_id := " "; bt_title := "two"; bt_buildability := "auto_buildable"; bt_template_node_id := None |}].
Definition sample_world : World :=
  {| w_closeout := fun _ => Ok true; w_verify := fun _ => Ok true;
     w_fill := fun _ => Ok {| rf_selected_tickets := []; rf_total_selected := 0 |};
     w_classify := fun _ => Ok (take 1 sample_targets);
     w_dispatch := fun _ => Ok {| dr_total_dispatched := 1; dr_delegation_payloads := [] |};
     w_publish := fun _ _ => Ok (); w_messages := fun _ => []; w_now := fun _ => 0%Z;
     w_gh := fun _ _ => GhTimeout |}.

(** C21. A build whose events can be published always ends, whatever its sub-handlers
    do. With a mode that exists the orchestrator answers: every cycle that ran is
    complete, but for at most the last, which then is failed; without a failed one all
    cycles asked for ran, and never more than those; and the counts of completed and
    failed cycles are theirs. With any other mode it raises the error of the mode,
    having published the failure and nothing else. *)
Theorem build_ends topics injected can_subscribe w command s (Hpub : forall l e, w_publish w l e = Ok ()) :
  let run := BuildOrchestrator.handle topics injected can_subscribe w command s in
  let cycles := Z.to_nat (sc_max_cycles (_to_loop_command command)) in
  match mode_of (sc_mode (_to_loop_command command)) with
  | Ok _ => exists s' r completed failed, run = (s', Ok r) /\ or_cycle_summaries r = completed ++ failed
      /\ Forall (fun c => cs_final_phase c = COMPLETE) completed
      /\ (failed = [] /\ length completed = cycles
          \/ exists c, failed = [c] /\ cs_final_phase c = FAILED /\ length completed < cycles)
      /\ or_cycles_completed r = length completed /\ or_cycles_failed r = length failed
  | Raise x => 0 < cycles -> exists value, run = ((new_orch, s.2 ++ [Publish (tp_failed topics) value]), Raise x)
  end.
Proof.
  set (c := _to_loop_command command). cbn zeta. destruct (mode_of (sc_mode c)) as [mode|x] eqn:Em.
  - destruct (cycles_settle topics injected can_subscribe w Hpub c mode (Z.to_nat (sc_max_cycles c)) Em [] ltac:(constructor)
      ltac:(constructor) s I) as (l & _ & _ & H).
    unfold BuildOrchestrator.handle. fold c. rewrite run_bind. unfold attempt. rewrite run_bind.
    destruct (run_cycles _ _ _ _ _ _ _ s) as [s1 [summaries|x]]; simpl in H; [|done]. destruct H as (Hend & a & b & -> & Ha & Hb).
    assert (Forall (fun c => cs_final_phase c = COMPLETE) a) as Ha'.
    { eapply Forall_impl; [exact Ha|]. intros x Hx. by apply bool_decide_eq_true in Hx. }
    cbn. eexists _, _, a, b. split; [reflexivity|]. unfold orchestrator_result; cbn [or_cycle_summaries or_cycles_completed or_cycles_failed].
    rewrite List.filter_app, (all_completed a Ha), !length_app. apply Forall_app in Hend as [_ Hend].
    destruct Hb as [[-> Hn]|(y & -> & Hy & Hn)].
    + rewrite app_nil_r in Hn. split_and!; [done|done|left; by rewrite Hn|simpl; lia|simpl; lia].
    + simpl. rewrite Hy. simpl. rewrite length_app in Hn. simpl in Hn. split_and!; [done|done| |lia|lia].
      right. exists y. apply Forall_cons in Hend as [[[Hf|Hf] _] _]; [|split_and!; [done|done|lia]].
      unfold cycle_completed in Hy. apply bool_decide_eq_false in Hy. by destruct Hy.
  - destruct (Z.to_nat (sc_max_cycles c)) as [|n] eqn:En; [lia|]. intros _.
    unfold BuildOrchestrator.handle. fold c. rewrite run_bind. unfold attempt. rewrite run_bind, En, (bad_mode _ _ _ _ c x n s Em).
    destruct (failure_published topics w x (sc_correlation_id c) (new_orch, s.2)) as (value & E). exists value.
    rewrite run_bind. cbn [fst snd] in *. by rewrite E.
Qed.
Lemma build_ends_witness :
  exists s' r, BuildOrchestrator.handle sample_topics true true sample_world
      (StartCommand {| oc_correlation_id := "c"; oc_mode := BUILD; oc_max_cycles := 2; oc_skip_closeout := false; oc_max_tickets := 5;
                       oc_dry_run := false; oc_requested_at := 0%Z |}) (new_orch, []) = (s', Ok r)
    /\ or_cycles_failed r <= 1.
Proof.
  destruct (build_ends sample_topics true true sample_world
    (StartCommand {| oc_correlation_id := "c"; oc_mode := BUILD; oc_max_cycles := 2; oc_skip_closeout := false; oc_max_tickets := 5;
                       oc_dry_run := false; oc_requested_at := 0%Z |}) (new_orch, []) (fun _ _ => eq_refl))
    as (s' & r & completed & failed & E & _ & _ & [[-> _]|(c & -> & _)] & _ & Hf); exists s', r; (split; [exact E|]); rewrite Hf; simpl; lia.
Defined.

(** A build of mode full, the default, or close-out completes no cycle at all: no
    sub-handler takes the releasing phase, which its sequence has. *)
Theorem releasing_never_completes topics injected can_subscribe w command mode s
    (Hpub : forall l e, w_publish w l e = Ok ()) (Hmode : mode_of (sc_mode (_to_loop_command command)) = Ok mode) :
  mode = FULL \/ mode = CLOSE_OUT ->
  exists s' r, BuildOrchestrator.handle topics injected can_subscribe w command s = (s', Ok r) /\ or_cycles_completed r = 0
    /\ ((1 <= sc_max_cycles (_to_loop_command command))%Z -> or_cycles_failed r = 1).
Proof.
  intros Hm. assert (releases mode = true) as Hrel by (by destruct Hm as [->| ->]). set (c := _to_loop_command command) in *.
  destruct (cycles_settle topics injected can_subscribe w Hpub c mode (Z.to_nat (sc_max_cycles c)) Hmode [] ltac:(constructor)
    ltac:(constructor) s I) as (l & _ & _ & H).
  unfold BuildOrchestrator.handle. fold c. rewrite run_bind. unfold attempt. rewrite run_bind.
  destruct (run_cycles _ _ _ _ _ _ _ s) as [s1 [summaries|x]]; simpl in H; [|done]. destruct H as (Hend & a & b & -> & Ha & Hb).
  assert (a = []) as ->.
  { destruct a as [|x a]; [done|]. apply Forall_app in Hend as [He _]. apply Forall_cons in He as [[_ He] _].
    apply Forall_cons in Ha as [Hx _]. unfold cycle_completed in Hx. apply bool_decide_eq_true in Hx. specialize (He Hrel). congruence. }
  cbn. eexists _, _. split; [reflexivity|]. unfold orchestrator_result; cbn. destruct Hb as [[-> Hn]|(y & -> & Hy & Hn)]; simpl in *.
  - split; [done|]. lia.
  - by rewrite Hy.
Qed.

(** ** The verifier *)

Definition given (s : string) : Prop := blank s = false.
Definition complete (req : ModelVerifierRequest) : Prop :=
  Forall given [vq_task_id req; vq_status req; vq_domain req; vq_node_id req].
Definition invariants_hold (req : ModelVerifierRequest) : Prop :=
  (forall c, vq_cost_so_far req = Some c -> flt c fzero = false) /\ (1 <= vq_attempt req)%Z.
Definition confident (req : ModelVerifierRequest) : Prop :=
  forall c, vq_confidence req = Some c -> flt c _CONFIDENCE_THRESHOLD = false.
(** A row of [gh pr checks] in the bucket of the passing ones, in no other state. *)
Definition row_text (k : string) (row : Obj) : string := match dict_get k row with Some j => json_str j | None => EmptyString end.
Definition row_green (row : Obj) : Prop :=
  py_lower (row_text "bucket" row) = "pass" /\ py_upper (row_text "state" row) ∈ [""; "SUCCESS"; "SKIPPED"; "NEUTRAL"].
(** [gh pr checks] succeeded and listed passing checks only, perhaps none. *)
Definition pr_green (outcome : GhOutcome) : Prop :=
  exists stdout stderr rows, outcome = GhExit 0 stdout stderr
    /\ json_loads (if truthy stdout then stdout else "[]") = Ok (JArr (map JObj rows))
    /\ Forall row_green rows.
Definition prs_green (gh : nat -> ModelClaimedPr -> GhOutcome) (req : ModelVerifierRequest) : Prop :=
  length (vq_claimed_prs req) <= 20
  /\ forall n claim, vq_claimed_prs req !! n = Some claim -> pr_green (gh n claim).
Definition in_scope (req : ModelVerifierRequest) : Prop := Forall (fun a => a ∈ _GLOBAL_ALLOWED_ACTIONS) (vq_allowed_actions req).
Definition compliant (req : ModelVerifierRequest) : Prop := Forall given [vq_schema_version req; vq_domain req].

Lemma truthy_nil {A} (l : list A) : truthy l = false <-> l = [].
Proof. by destruct l. Qed.
Lemma filter_nil {A} (f : A -> bool) l : List.filter f l = [] <-> Forall (fun x => f x = false) l.
Proof.
  induction l as [|x l IH]; simpl; [by split|]. rewrite Forall_cons, <- IH. destruct (f x); [|tauto]. split; [done|by intros [? _]].
Qed.
Lemma blanks_nil l : truthy (blanks l) = false <-> Forall given (map snd l).
Proof.
  rewrite truthy_nil. unfold blanks. rewrite <- (filter_nil blank (map snd l)).
  induction l as [|[k v] l IH]; simpl; [done|]. destruct (blank v); simpl; [by split|exact IH].
Qed.
Lemma if_passed (b : bool) (x y : CheckResult) : ck_passed x = false -> ck_passed y = true -> ck_passed (if b then x else y) = negb b.
Proof. by destruct b. Qed.
Lemma negb_iff b (Q : Prop) : (b = false <-> Q) -> (negb b = true <-> Q).
Proof. by rewrite negb_true_iff. Qed.
Lemma input_passes req : ck_passed (_check_input_completeness req) = true <-> complete req.
Proof. unfold _check_input_completeness. rewrite if_passed by done. apply negb_iff, blanks_nil. Qed.
Lemma contract_passes req : ck_passed (_check_contract_compliance req) = true <-> compliant req.
Proof.
  unfold _check_contract_compliance. rewrite if_passed by done. apply negb_iff.
  rewrite <- (blanks_nil [("schema_version", vq_schema_version req); ("domain", vq_domain req)]), !truthy_nil.
  split; [apply fmap_nil_inv|by intros ->].
Qed.
Lemma invariant_passes req : ck_passed (_check_invariant_preservation req) = true <-> invariants_hold req.
Proof.
  unfold _check_invariant_preservation, invariants_hold. rewrite if_passed by done. apply negb_iff. rewrite truthy_nil, app_nil.
  destruct (vq_cost_so_far req) as [c|]; [destruct (flt c fzero) eqn:E|]; destruct (_ <? _)%Z eqn:Ea; split; try (by intros [? ?]).
  all: try (intros [Hc _]; specialize (Hc c eq_refl); congruence). all: try (intros [_ ?]; lia).
  all: intros _; (split; [intros ? [=]; by subst|lia]).
Qed.
Lemma outcome_passes req : ck_passed (_check_outcome_success_validation req) = true <-> confident req.
Proof.
  unfold _check_outcome_success_validation, confident. destruct (vq_confidence req) as [c|]; [|by split].
  rewrite if_passed by done. apply negb_iff. split; [by intros H ? [= <-]|by intros H; apply H].
Qed.
Lemma scope_passes req : ck_passed (_check_allowed_action_scope req) = true <-> in_scope req.
Proof.
  unfold _check_allowed_action_scope, in_scope. rewrite if_passed by done. apply negb_iff. rewrite truthy_nil, filter_nil.
  apply Forall_iff. intros a. rewrite negb_false_iff. apply str_in_spec.
Qed.

(** *** The claimed pull requests *)

Lemma objects_of_Some l rows : objects_of l = Some rows <-> l = map JObj rows.
Proof.
  revert rows. induction l as [|j l IH]; intros rows; simpl.
  - split; [by intros [= <-]|by destruct rows].
  - split.
    + destruct j; try done. destruct (objects_of l) as [rs|] eqn:E; [|done]. intros [= <-]. simpl. by rewrite (proj1 (IH rs) eq_refl).
    + destruct rows as [|r rows]; [done|]. intros [= -> Hl]. by rewrite (proj2 (IH rows) Hl).
Qed.
Lemma row_passes row : _check_row_passes row = true <-> row_green row.
Proof.
  unfold _check_row_passes, row_green, upper_state.
  assert (forall k, json_str (default (JStr EmptyString) (dict_get k row)) = row_text k row) as Hk.
  { intros k. unfold row_text. by destruct (dict_get k row). }
  rewrite !Hk. destruct (String.eqb_spec (py_lower (row_text "bucket" row)) "pass") as [E|E]; simpl; [|split; [done|by intros [? _]]].
  set (state := py_upper _). rewrite negb_true_iff, elem_of_cons, <- str_in_spec. destruct state as [|c state]; cbn [truthy truthy_string andb]; [split; [auto|done]|].
  rewrite negb_false_iff. split; [auto|by intros [_ [?|?]]].
Qed.
Lemma claimed_green claim outcome : _verify_claimed_pr claim outcome = None <-> pr_green outcome.
Proof.
  unfold _verify_claimed_pr, pr_green. destruct outcome as [|m|code out err].
  1-2: split; [done|by intros (? & ? & ? & ? & _)].
  destruct (Z.eqb_spec code 0) as [->|Hc]; simpl; [|split; [done|by intros (? & ? & ? & [= ? _ _] & _)]].
  destruct (json_loads _) as [j|x] eqn:Ej; [|split; [done|intros (o & e & rows & [= <- <-] & E & _); congruence]].
  assert ((exists l, j = JArr l) \/ forall l, j <> JArr l) as [[l ->]|Hj] by (destruct j; eauto; right; by intros ?).
  - destruct (objects_of l) as [rows|] eqn:Eo.
    + apply objects_of_Some in Eo as ->.
      split.
      * intros H. exists out, err, rows. split_and!; [done|done|]. clear Ej. destruct (truthy _) eqn:Et in H; [done|].
        apply truthy_nil in Et. apply fmap_nil_inv, filter_nil in Et. eapply Forall_impl; [exact Et|]. intros r Hr. by apply row_passes, negb_false_iff.
      * intros (o & e & rows' & [= <- <-] & E & Hr). rewrite Ej in E. injection E as E.
        pose proof (proj2 (objects_of_Some _ rows) eq_refl) as E1. rewrite E, (proj2 (objects_of_Some _ rows') eq_refl) in E1.
        injection E1 as ->.
        assert (truthy (map row_name (List.filter (fun r => negb (_check_row_passes r)) rows)) = false) as ->; [|done].
        apply truthy_nil. assert (List.filter (fun r => negb (_check_row_passes r)) rows = []) as ->; [|done].
        apply filter_nil. eapply Forall_impl; [exact Hr|]. intros r Hr'. by rewrite (proj2 (row_passes r) Hr').
    + split; [done|]. intros (o & e & rows & [= <- <-] & E & _). rewrite Ej in E. injection E as ->.
      by rewrite (proj2 (objects_of_Some _ rows) eq_refl) in Eo.
  - split; [by destruct j; try done; destruct (Hj l)|]. intros (o & e & rows & [= <- <-] & E & _). rewrite Ej in E. injection E as ->.
    by destruct (Hj (map JObj rows)).
Qed.
Lemma claim_failures_nil gh : forall claims k,
  omap id (imap (fun n claim => _verify_claimed_pr claim (gh (k + n) claim)) claims) = []
  <-> forall n claim, claims !! n = Some claim -> pr_green (gh (k + n) claim).
Proof.
  induction claims as [|c claims IH]; intros k; [by split|]. rewrite imap_cons. simpl.
  specialize (IH (S k)). assert (forall n, S k + n = k + S n) as Hk by lia. 
  rewrite (imap_ext _ (fun n claim => _verify_claimed_pr claim (gh (S k + n) claim)))
    by (intros n x _; unfold compose; by rewrite (Hk n)).
  destruct (_verify_claimed_pr c (gh (k + 0) c)) as [m|] eqn:E; simpl.
  - split; [done|]. intros H. specialize (H 0 c eq_refl). apply (claimed_green c) in H. congruence.
  - rewrite IH. apply claimed_green in E. split.
    + intros H [|n] claim; simpl; [by intros [= <-]|]. intros Hn. specialize (H n claim Hn). by rewrite Hk in H.
    + intros H n claim Hn. rewrite Hk. by apply (H (S n)).
Qed.
Lemma prs_pass gh req : ck_passed (_check_pr_checks_live gh req) = true <-> prs_green gh req.
Proof.
  unfold _check_pr_checks_live, prs_green, _MAX_CLAIMED_PRS. destruct (truthy (vq_claimed_prs req)) eqn:Et; simpl.
  - destruct (_ >? _)%Z eqn:El; [split; [done|lia]|]. rewrite if_passed by done. rewrite negb_true_iff, truthy_nil.
    unfold claim_failures. rewrite (claim_failures_nil gh _ 0). split; [intros H; split; [lia|done]|tauto].
  - apply truthy_nil in Et. rewrite Et. split; [intros _; split; [simpl; lia|done]|done].
Qed.

(** *** The verdict *)

(** A check passes, or fails under its name with its reason. *)
Definition shaped (name reason : string) (c : CheckResult) : Prop :=
  ck_passed c = true \/ (ck_passed c = false /\ ck_name c = name /\ ck_failure_reason c = reason).
Lemma shaped_fail name m reason : shaped name reason (fail_check name m reason).
Proof. by right. Qed.
Lemma shaped_if (b : bool) name reason x y : shaped name reason x -> shaped name reason y -> shaped name reason (if b then x else y).
Proof. by destruct b. Qed.
Definition flags_verdict (input invariant outcome others : bool) : string :=
  if negb input then "FAIL" else if negb (invariant && outcome) then "ESCALATE" else if others then "PASS" else "FAIL".
Lemma verdict_flags gh req :
  vr_verdict (verify gh req) =
    flags_verdict (ck_passed (_check_input_completeness req)) (ck_passed (_check_invariant_preservation req))
      (ck_passed (_check_outcome_success_validation req))
      (ck_passed (_check_pr_checks_live gh req) && ck_passed (_check_allowed_action_scope req) && ck_passed (_check_contract_compliance req)).
Proof.
  assert (shaped "input_completeness" "DATA_INTEGRITY" (_check_input_completeness req)) as H1 by (apply shaped_if; [apply shaped_fail|by left]).
  assert (shaped "invariant_preservation" "INVARIANT_VIOLATION" (_check_invariant_preservation req)) as H2 by (apply shaped_if; [apply shaped_fail|by left]).
  assert (shaped "outcome_success_validation" "VERIFIER_REJECTION" (_check_outcome_success_validation req)) as H3.
  { unfold _check_outcome_success_validation. destruct (vq_confidence req); [apply shaped_if; [apply shaped_fail|by left]|by left]. }
  assert (shaped "pr_checks_live" "DATA_INTEGRITY" (_check_pr_checks_live gh req)) as H4.
  { unfold _check_pr_checks_live. apply shaped_if; [by left|]. apply shaped_if; [apply shaped_fail|]. apply shaped_if; [apply shaped_fail|by left]. }
  assert (shaped "allowed_action_scope" "CONFIGURATION" (_check_allowed_action_scope req)) as H5 by (apply shaped_if; [apply shaped_fail|by left]).
  assert (shaped "contract_compliance" "CONFIGURATION" (_check_contract_compliance req)) as H6 by (apply shaped_if; [apply shaped_fail|by left]).
  unfold verify, checks_of. revert H1 H2 H3 H4 H5 H6.
  generalize (_check_input_completeness req), (_check_invariant_preservation req), (_check_outcome_success_validation req),
    (_check_pr_checks_live gh req), (_check_allowed_action_scope req), (_check_contract_compliance req).
  intros [n1 b1 m1 r1] [n2 b2 m2 r2] [n3 b3 m3 r3] [n4 b4 m4 r4] [n5 b5 m5 r5] [n6 b6 m6 r6] H1 H2 H3 H4 H5 H6.
  unfold shaped in *. simpl in *.
  destruct H1 as [->|(-> & -> & ->)], H2 as [->|(-> & -> & ->)], H3 as [->|(-> & -> & ->)], H4 as [->|(-> & -> & ->)],
    H5 as [->|(-> & -> & ->)], H6 as [->|(-> & -> & ->)]; vm_compute; reflexivity.
Qed.

(** C22. The verifier passes exactly the reports that are complete, keep the numeric
    invariants, are confident enough, claim no more than twenty pull requests and only
    ones whose checks are green now, each row in the pass bucket and in the state
    success, skipped, neutral or none, stay within the allowed actions and comply with
    the contract; it
    escalates exactly the complete ones with a broken invariant or too little
    confidence, and fails every other. *)
Theorem verdict_exact gh req :
  (vr_verdict (verify gh req) = "PASS" <->
     complete req /\ invariants_hold req /\ confident req /\ prs_green gh req /\ in_scope req /\ compliant req)
  /\ (vr_verdict (verify gh req) = "ESCALATE" <-> complete req /\ ~ (invariants_hold req /\ confident req))
  /\ vr_verdict (verify gh req) ∈ ["PASS"; "ESCALATE"; "FAIL"].
Proof.
  rewrite verdict_flags, <- input_passes, <- invariant_passes, <- outcome_passes, <- (prs_pass gh), <- scope_passes, <- contract_passes.
  unfold flags_verdict.
  destruct (ck_passed (_check_input_completeness req)), (ck_passed (_check_invariant_preservation req)),
    (ck_passed (_check_outcome_success_validation req)), (ck_passed (_check_pr_checks_live gh req)),
    (ck_passed (_check_allowed_action_scope req)), (ck_passed (_check_contract_compliance req)); simpl;
    (split_and!; [intuition discriminate|intuition discriminate|set_solver]).
Qed.

(** ** The gate on built tickets *)

Lemma flags_pass i v o x : flags_verdict i v o x = "PASS" <-> i = true /\ v = true /\ o = true /\ x = true.
Proof. unfold flags_verdict. destruct i, v, o, x; simpl; intuition discriminate. Qed.
(** The request says nothing of pull requests, confidence or cost, so only the
    ticket's id can fail it. *)
Lemma dod_passes gh cid t : given cid -> vr_verdict (verify gh (dod_request cid t)) = "PASS" <-> given (bt_ticket_id t).
Proof.
  intros Hc. rewrite verdict_flags, flags_pass, !andb_true_iff, input_passes, invariant_passes, outcome_passes, (prs_pass gh),
    scope_passes, contract_passes.
  unfold complete, invariants_hold, confident, prs_green, in_scope, compliant. simpl. rewrite !Forall_cons. split; [tauto|].
  intros Ht. split_and!; first [done|by constructor|simpl; lia].
Qed.

Section gate.
Context (topics : Topics) (w : World).
Context (published : forall l e, w_publish w l e = Ok ()).
Abbreviation verdict_of cid t := (vr_verdict (verify (w_gh w) (dod_request cid t))).

Lemma publishes e s : publish w e s = ((s.1, s.2 ++ [e]), Ok ()).
Proof. unfold publish, call. by rewrite published. Qed.
Lemma delegations_sent cid payloads : forall s : OrchState * list BuildIo,
  exists l, for_each payloads (publish_delegation w cid) s = ((s.1, l), Ok ()).
Proof.
  induction payloads as [|dp payloads IH]; intros [st l]; [by eexists|]. cbn [for_each]. rewrite run_bind.
  unfold publish_delegation at 1. rewrite publishes. cbn. apply (IH (st, _)).
Qed.
Lemma dod_published id v checks cid s : exists l, _publish_dod_event topics w id v checks cid s = ((s.1, l), Ok ()).
Proof. eexists. unfold _publish_dod_event, iso_now, now_. rewrite !run_bind. apply publishes. Qed.
Lemma target_verified cid acc t s :
  exists l failure, verify_target topics w cid acc t s = ((s.1, l), Ok (acc ++ failure)) /\ (failure = [] <-> verdict_of cid t = "PASS").
Proof.
  unfold verify_target. rewrite run_bind.
  destruct (dod_published (bt_ticket_id t) (verdict_of cid t) (map JObj (vr_checks (verify (w_gh w) (dod_request cid t)))) cid s) as (l & ->).
  exists l. destruct (String.eqb_spec (verdict_of cid t) "PASS") as [E|E].
  - exists []. by rewrite app_nil_r.
  - eexists. split; [reflexivity|]. by split.
Qed.
Lemma targets_verified cid targets : forall acc (s : OrchState * list BuildIo),
  exists l failures, fold_each targets acc (verify_target topics w cid) s = ((s.1, l), Ok (acc ++ failures))
    /\ (failures = [] <-> Forall (fun t => verdict_of cid t = "PASS") targets).
Proof.
  induction targets as [|t targets IH]; intros acc [st l]; cbn [fold_each].
  - exists l, []. rewrite app_nil_r. split; [done|]. split; [constructor|done].
  - destruct (target_verified cid acc t (st, l)) as (l1 & f & E & Hf). destruct (IH (acc ++ f) (st, l1)) as (l2 & fs & E2 & Hfs).
    exists l2, (f ++ fs). rewrite run_bind, E. cbn [fst]. rewrite E2, app_assoc. split; [done|]. rewrite app_nil, Forall_cons, Hf, Hfs.
    done.
Qed.
End gate.

(** C23. The gate on what was built is vacuous: when the dispatch answers and the
    events can be published, the building phase passes exactly when every target of
    the dispatch has a ticket id that is not blank, whatever became of the tickets. *)
Theorem dod_gate_vacuous topics w cid dry s
    (Hpub : forall l e, w_publish w l e = Ok ()) (Hdispatch : forall l, exists r, w_dispatch w l = Ok r) (Hcid : given cid) :
  exists s' ok err, build_phase topics w cid dry s = (s', Ok (ok, err))
    /\ (ok = true <-> Forall (fun t => given (bt_ticket_id t)) (o_last_classify_result s.1)).
Proof.
  destruct (Hdispatch s.2) as (r & Er). unfold build_phase, set_metrics. mrun. rewrite Er. mrun.
  match goal with |- context [for_each ?ps _ ?s0] => destruct (delegations_sent w Hpub cid ps s0) as (l1 & ->) end. mrun.
  match goal with |- context [fold_each ?ts _ _ ?s0] =>
    destruct (targets_verified topics w Hpub cid ts [] s0) as (l2 & failures & -> & Hf) end.
  assert (failures = [] <-> Forall (fun t => given (bt_ticket_id t)) (o_last_classify_result s.1)) as Hg.
  { etransitivity; [exact Hf|]. apply Forall_iff. intros t. by apply dod_passes. }
  destruct failures as [|f fs]; do 3 eexists; (split; [reflexivity|]); rewrite <- Hg; by split.
Qed.

Lemma dod_gate_vacuous_witness :
  exists s' err, build_phase sample_topics sample_world "c" false (new_orch <| o_last_classify_result := sample_targets |>, []) = (s', Ok (false, err))
    /\ ~ Forall (fun t => given (bt_ticket_id t)) sample_targets.
Proof.
  assert (~ Forall (fun t => given (bt_ticket_id t)) sample_targets) as Hn.
  { unfold sample_targets. rewrite !Forall_cons. intros (_ & H & _). discriminate H. }
  destruct (dod_gate_vacuous sample_topics sample_world "c" false (new_orch <| o_last_classify_result := sample_targets |>, [])
    (fun _ _ => eq_refl) (fun _ => ex_intro _ _ eq_refl) eq_refl) as (s' & ok & err & E & H).
  destruct ok; [by destruct (Hn (proj1 H eq_refl))|]. exists s', err. by split.
Defined.

(** ** The reducer's schedule *)

Module Schedule.
Import LoopState.
(** The phases of a cycle, and the intent that a success in each gives. *)
Definition stages (skip : bool) : list (EnumBuildLoopPhase * EnumBuildLoopIntentType) :=
  let rest := [(VERIFYING, START_FILL); (FILLING, START_CLASSIFY); (CLASSIFYING, START_BUILD); (BUILDING, CYCLE_COMPLETE)] in
  if skip then (IDLE, START_VERIFY) :: rest else (IDLE, START_CLOSEOUT) :: (CLOSING_OUT, START_VERIFY) :: rest.
(** The stages [events] complete: one after the other, each by the first event of this
    cycle that reports on its phase; all others count for nothing, and a failure ends
    the cycle. *)
Fixpoint stages_done (cid : string) (todo : list (EnumBuildLoopPhase * EnumBuildLoopIntentType)) (events : list ModelBuildLoopEvent)
  : list EnumBuildLoopIntentType :=
  match todo, events with
  | (phase, intent) :: todo', e :: events' =>
      if String.eqb (be_correlation_id e) cid && bool_decide (be_source_phase e = phase)
      then if be_success e then intent :: stages_done cid todo' events' else []
      else stages_done cid todo events'
  | _, _ => []
  end.

(** The stages a reducer in a phase has still to do. *)
Fixpoint stages_from (p : EnumBuildLoopPhase) (l : list (EnumBuildLoopPhase * EnumBuildLoopIntentType)) :=
  match l with [] => [] | (q, i) :: l' => if bool_decide (p = q) then l else stages_from p l' end.
Definition todo (s : ModelBuildLoopState) : list (EnumBuildLoopPhase * EnumBuildLoopIntentType) :=
  if bool_decide (bs_phase s = CLOSING_OUT) then (CLOSING_OUT, START_VERIFY) :: stages_from VERIFYING (stages true)
  else stages_from (bs_phase s) (stages (bs_skip_closeout s)).
(** Apart from the breaker's, the intents. *)
Definition starts (l : list ModelBuildLoopIntent) : list EnumBuildLoopIntentType :=
  List.filter (fun t => negb (bool_decide (t = CIRCUIT_BREAK))) (map bi_intent_type l).
Lemma starts_app l k : starts (l ++ k) = starts l ++ starts k.
Proof. unfold starts. by rewrite map_app, List.filter_app. Qed.

(** One event, by what it is. *)
Lemma ignored s e : be_correlation_id e <> bs_correlation_id s \/ be_source_phase e <> bs_phase s -> reduce s e = (s, []).
Proof.
  intros H. unfold reduce, loop_reducer, delta. destruct (String.eqb_spec (be_correlation_id e) (bs_correlation_id s)); [|done].
  cbn. destruct H as [H|H]; [done|]. by rewrite bool_decide_eq_false_2.
Qed.
Lemma over_absorbs s e : todo s = [] -> reduce s e = (s, []).
Proof.
  intros H. unfold reduce, loop_reducer, delta. destruct (negb _); [done|]. destruct (negb _); [done|].
  unfold todo in H. destruct (bs_phase s), (bs_skip_closeout s); try discriminate H; done.
Qed.
Lemma succeeded_fields s e target :
  let next := if bool_decide (bs_phase s = IDLE) && bs_skip_closeout s then VERIFYING else target in let r := succeeded s e target in
  bs_phase r.1 = next /\ bs_correlation_id r.1 = bs_correlation_id s /\ bs_skip_closeout r.1 = bs_skip_closeout s
  /\ map bi_intent_type r.2 = option_list (_PHASE_INTENTS next).
Proof.
  unfold succeeded. set (next := if _ && _ then _ else _). cbn zeta.
  destruct (be_tickets_filled e >? 0)%Z, (be_tickets_classified e >? 0)%Z, (be_tickets_dispatched e >? 0)%Z, (bool_decide (bs_phase s = IDLE));
    split_and!; try reflexivity; cbn [snd]; by destruct (_PHASE_INTENTS next).
Qed.
Lemma failed_fields s e : let r := failed s e FAILED in
  bs_phase r.1 = FAILED /\ bs_correlation_id r.1 = bs_correlation_id s /\ starts r.2 = [].
Proof. unfold failed. by destruct (_ <=? _). Qed.
Lemma staged s e p i rest : todo s = (p, i) :: rest ->
  be_correlation_id e = bs_correlation_id s -> be_source_phase e = p ->
  bs_phase s = p /\ bs_correlation_id (reduce s e).1 = bs_correlation_id s
  /\ starts (reduce s e).2 = (if be_success e then [i] else [])
  /\ (if be_success e then todo (reduce s e).1 = rest /\ bs_phase (reduce s e).1 <> FAILED else bs_phase (reduce s e).1 = FAILED).
Proof.
  intros H Hc Hp. assert (bs_phase s = p) as Hps.
  { unfold todo in H. destruct (bs_phase s), (bs_skip_closeout s); try discriminate H; by injection H as <- _ _. }
  split; [done|]. assert (exists target, _TRANSITIONS p = Some (target, FAILED)) as [target Htr].
  { unfold todo in H. rewrite Hps in H. destruct p, (bs_skip_closeout s); try discriminate H; by eexists. }
  assert (reduce s e = if be_success e then succeeded s e target else failed s e FAILED) as ->.
  { unfold reduce, loop_reducer, delta. rewrite Hc, String.eqb_refl, Hp, Hps, bool_decide_eq_true_2 by done. cbn [negb]. rewrite Htr.
    destruct p; try done. }
  destruct (be_success e).
  - destruct (succeeded_fields s e target) as (H1 & H2 & H3 & H4). rewrite H2. split; [done|]. unfold starts. rewrite H4.
    unfold todo in *. rewrite H1, H3. rewrite Hps in *.
    destruct p, (bs_skip_closeout s); try discriminate H; injection H as <- <-; injection Htr as <-; by split_and!.
  - destruct (failed_fields s e) as (H1 & H2 & H3). by split_and!.
Qed.
Lemma staged_run events : forall s,
  starts (run s events).2 = stages_done (bs_correlation_id s) (todo s) events
  /\ (bs_phase s <> FAILED -> bs_phase (run s events).1 = COMPLETE <-> stages_done (bs_correlation_id s) (todo s) events = map snd (todo s)).
Proof.
  induction events as [|e events IH]; intros s; cbn [run fst snd].
  - assert (stages_done (bs_correlation_id s) (todo s) [] = []) as -> by (by destruct (todo s) as [|[]]).
    split; [done|]. intros Hf. unfold todo. destruct (bs_phase s), (bs_skip_closeout s); cbn; by try done.
  - destruct (todo s) as [|[p i] rest] eqn:Et.
    { rewrite (over_absorbs s e Et). specialize (IH s). rewrite Et in IH. by destruct events. }
    cbn [stages_done]. destruct (String.eqb_spec (be_correlation_id e) (bs_correlation_id s)) as [Hc|Hc]; cbn [andb].
    2: { rewrite (ignored s e) by auto. specialize (IH s). rewrite Et in IH. exact IH. }
    destruct (bool_decide (be_source_phase e = p)) eqn:Hp.
    2: { apply bool_decide_eq_false in Hp. rewrite (ignored s e).
         - specialize (IH s). rewrite Et in IH. exact IH.
         - right. intros E. apply Hp. rewrite E. unfold todo in Et. destruct (bs_phase s), (bs_skip_closeout s); try discriminate Et; by injection Et as <- _ _. }
    apply bool_decide_eq_true in Hp. destruct (staged s e p i rest Et Hc Hp) as (Hps & Hcid & Hi & Hnext).
    rewrite starts_app, Hi. destruct (IH (reduce s e).1) as [IH1 IH2]. rewrite Hcid in IH1, IH2.
    destruct (be_success e); cbn [map snd].
    + destruct Hnext as [Hnext Hf]. rewrite IH1, Hnext. split; [done|]. intros _. rewrite (IH2 Hf), Hnext. split; [by intros ->|by intros [=]].
    + assert (todo (reduce s e).1 = []) as Ht by (unfold todo; rewrite Hnext; by destruct (bs_skip_closeout _)). rewrite IH1, Ht.
      split; [by destruct events|]. intros _. rewrite (run_absorbed (reduce s e).1) by (intros; by apply over_absorbs). cbn. by rewrite Hnext.
Qed.

(** Below its threshold the breaker gives no intent: the first failure of a stage is
    final, whatever the threshold. *)
Remark first_failure_is_final s e : bs_consecutive_failures s = 0 -> 2 <= bs_max_consecutive_failures s ->
  failed s e FAILED =
    (s <| bs_consecutive_failures := 1 |> <| bs_last_phase_at := Some (be_timestamp e) |>
       <| bs_phase := FAILED |> <| bs_error_message := be_error_message e |>, []).
Proof.
  intros Hf Hm. unfold failed. rewrite Hf. by destruct (bs_max_consecutive_failures s) as [|[|n]]; [lia|lia|].
Qed.
End Schedule.
#[export] Existing Instance LoopState.loop_reducer.

(** C24. The build loop's reducer keeps its schedule.  A cycle's stages are the start,
    the closing out unless it is skipped, the verification, the filling, the
    classification and the build.  Over any events, in any order, doubled, or of other
    cycles, the intents the reducer gives, circuit breaks apart, are exactly those of
    the stages completed in this order, each by the first event of this cycle that
    reports on it, if that is a success; events of other cycles or of other phases count for nothing,
    nothing starts after a failed stage, and the cycle is complete exactly when all
    stages are. *)
Theorem reducer_keeps_schedule cid max skip (events : list LoopState.ModelBuildLoopEvent) :
  let r := run (LoopState.new_state cid max skip) events in
  Schedule.starts r.2 = Schedule.stages_done cid (Schedule.stages skip) events
  /\ (LoopState.bs_phase r.1 = LoopState.COMPLETE <->
        Schedule.stages_done cid (Schedule.stages skip) events = map snd (Schedule.stages skip)).
Proof.
  destruct (Schedule.staged_run events (LoopState.new_state cid max skip)) as [Hs Hc].
  assert (Schedule.todo (LoopState.new_state cid max skip) = Schedule.stages skip) as Ht by (by destruct skip). rewrite Ht in Hs, Hc.
  split; [exact Hs|]. by apply Hc.
Qed.
Example reducer_schedule_example :
  let event cid phase ok := {| LoopState.be_correlation_id := cid; LoopState.be_source_phase := phase; LoopState.be_success := ok;
    LoopState.be_timestamp := 0%Z; LoopState.be_error_message := None; LoopState.be_tickets_filled := 0;
    LoopState.be_tickets_classified := 0; LoopState.be_tickets_dispatched := 0 |} in
  Schedule.starts (run (LoopState.new_state "c" 3 true) [event "c" LoopState.VERIFYING true; event "c" LoopState.IDLE true;
      event "d" LoopState.VERIFYING true; event "c" LoopState.IDLE true; event "c" LoopState.VERIFYING true;
      event "c" LoopState.FILLING false; event "c" LoopState.FILLING true]).2
    = [LoopState.START_VERIFY; LoopState.START_FILL].
Proof. vm_compute. reflexivity. Qed.
